(* ===== verification/_CoqProject ===== *)
-Q . S2P
Prelude.v
EditorProtocol.v
Core.v
Topo.v
OpcodeReader.v
OpcodeList2.v
OpcodeList3.v
Json.v
Registry.v
MemoryPlanner.v
PrecisionPlanner.v
Pipeline.v
Scheduler.v
HalfFloat.v
Float32.v
DngParser.v
HostContext.v
PipelineRun.v
ComputeContext.v
StateRes.v
DngRoundtrip.v
EditorAssets.v
ThumbnailEncoder.v
EditorServer.v
EditorThreads.v
IccWriter.v
DngReader.v
LutLoader.v
LensBlob.v
Float64.v
LensFilter.v
GainFilter.v
Sdk.v
Nodes.v
NodeContract.v
PointFilters.v
RawDevelop.v
WhiteBalance.v
FloatValid.v
HalideStage.v
Demosaic.v
ExactOps.v
DemosaicExact.v
ToneStage.v
DenoiseStage.v
FilterDispatch.v
ColorNodes.v
HeifPlanes.v
HeifWriter.v
IoNodes.v
Cli.v
VulkanApi.v
VulkanDevice.v
VulkanImages.v
VulkanSoft.v
OcioVulkan.v
