(* ===== verification/Prelude.v ===== *)
(** * A verification of the cpipe imaging pipeline

    cpipe (the C++ under src/) is a soft image-signal-processing pipeline.  A
    JSON document names nodes (plugins with a manifest) and edges; the runtime
    loads it, checks the contracts of its edges, inserts precision conversions,
    plans memory, and runs the nodes over CPU buffers that carry metadata.
    Raw images come from DNG files, whose TIFF tables and opcode lists it
    parses itself; an editor talks to it in binary frames.  This library models
    those parts as executable functions and proves what makes them correct.

    ** The parts, their files and how they interact

    - [Prelude] (this file): statuses of the plugin ABI, the result monad [res],
      machine integers, byte buffers and the lemmas on them.
    - [Core] (include/cpipe/core, src/cpipe/core): pixel formats, [BufferLayout]
      and its byte size, usage flags, the metadata blocks, the metadata builder
      with its freeze, the CPU buffer with its lock.
    - [Json]: the part of nlohmann::json the runtime uses, as the class [JsonLib]
      with its documented laws [JsonLaws]; [Json.Tree] is an instance over
      concrete trees, used by every witness.
    - [Registry] (runtime/Registry.cpp): the plugin descriptors and their lookup.
    - [Topo]: the ready-queue topological sort that MemoryPlanner.cpp and (twice)
      Pipeline.cpp contain, against an abstract notion of acyclic graph.
    - [MemoryPlanner], [PrecisionPlanner] (runtime/, same names): buffer slots
      and peak memory; insertion of precision_convert nodes.
    - [Pipeline] (runtime/Pipeline.cpp up to set_source): parameter validation,
      [load] with its two sorts, step accumulation and edge checks, [set_source].
    - [Scheduler] (runtime/Scheduler.cpp): the task graph as a step relation, the
      sequential loop, and the Halide parallel-for hook.
    - [PipelineRun] (the rest of runtime/Pipeline.cpp): [run_bound], whose closures
      the scheduler runs, and [run_file].
    - [HalfFloat], [HostContext] (runtime/HostContext.cpp and the handle files):
      half/float/unorm conversions; the host suites a plugin calls.
    - [ComputeContext] (runtime/ComputeContext.cpp, HalideBufferAdapter.cpp,
      HalideFilterRegistry.cpp and the submit_halide entries of HostContext.cpp):
      submission of filters over a store of shared, lockable buffers.
    - [OpcodeReader], [OpcodeList2], [OpcodeList3] (ingest/dng_opcode): the opcode
      list parsers on a shared big-endian reader.
    - [Float32], [DngParser] (ingest/dng_opcode/OpcodeListParser.cpp): bounds on
      binary32 rounding, and the TIFF/DNG metadata parser built on them.
    - [DngRoundtrip]: a writer of TIFF files, whose files that parser reads back.
    - [DngReader] (ingest/dng/DngReader.cpp): the reader that turns a DNG file into
      a buffer with metadata, through LibRaw or its own strip decoder.
    - [LensBlob], [Float64], [LensFilter] (nodes/lens/dng_opcode_list_3.cpp and its
      dispatch file, nodes/detail): the parameter block of the lens node, binary64
      comparisons and truncation, and the filter with its five corrections.
    - [GainFilter] (nodes/lens/shading_gainmap.cpp and its dispatch file): validation,
      parameter block and filter of lens shading.
    - [IccWriter], [LutLoader] (color/IccV4_4Writer.cpp, Cube3dLutLoader.cpp): the ICC
      profile writer and the 3D LUT file loaders.
    - [EditorProtocol] (server/EditorProtocol.cpp): the frame codec.
    - [StateRes], [EditorAssets], [ThumbnailEncoder], [EditorServer], [EditorThreads]
      (server/EditorServer.cpp, ThumbnailEncoder.cpp): a state monad over [res]; the
      static files; the placeholder thumbnails; the session with every request and
      message handler; the debounce thread and the start handshake as step relations.
    - [Sdk] (include/cpipe/sdk/sdk.hpp, nodes/detail/ParamUtils.hpp): the wrappers a
      node is written with, over the suites of [HostContext] and [ComputeContext]:
      views, builders, locks, the exception barrier and the dispatch of actions.
    - [Nodes] (nodes/): the process methods of the image nodes, [NodeContract] what
      they keep of the contract with the pipeline.
    - [PointFilters] (nodes/, the dispatch files of linearisation, black level, white
      balance and colour matrix): the filters that work a pixel at a time.
    - [RawDevelop]: a node and its filter together, from buffer to buffer.
    - [WhiteBalance] (nodes/wb): the calibration metadata, the search for the scene's
      colour temperature and the two white-balance nodes.
    - [FloatValid]: the operations of binary32 return floats, whatever they round.
    - [HalideStage]: the arithmetic a Halide generator is written in, as the class
      [HalideOps], with its rounded instance [ieee_ops] and the boundary conditions;
      [ExactOps] is its instance over the real numbers.
    - [Demosaic], [DemosaicExact] (the generators of nodes/demosaic): bilinear, RCD,
      AMaZE and quad-Bayer remosaic, and what they reconstruct.
    - [ToneStage] (the generators of nodes/tone and nodes/color): Reinhard, ACES,
      filmic and Mertens tone mapping, and the 3D LUT.
    - [DenoiseStage] (the generators of nodes/denoise, nodes/sharpen, nodes/precision):
      guided filter, wavelet shrinkage, BM3D, unsharp mask, format conversions.
    - [FilterDispatch] (the dispatch files of those filters): the unpacking of
      parameter blocks, and the nodes with their filters from buffer to buffer.
    - [ColorNodes] (nodes/color/lut3d.cpp, nodes/tone/mertens_local.cpp): the node that
      loads a LUT file, and the node with three input images.
    - [HeifPlanes], [HeifWriter] (color/HeifWriter.cpp): the conversion to subsampled
      YCbCr and the light levels; the two writers over libheif, the class [HeifLib].
    - [IoNodes] (nodes/dng_input, nodes/fusion, nodes/output and
      nodes/color/scene_linear_to_display.cpp): the ends of a pipeline, with the colour
      processors of the host and the files that are written in their state.
    - [Cli] (cli/main.cpp): the configuration and the course of [cpipe serve], and
      [cpipe run].
    - [VulkanApi]: the calls the Vulkan code makes, the driver that answers them as the
      class [VkDriver], and a ledger of the objects they create and destroy.
    - [VulkanDevice] (runtime/VulkanDevicePlane.cpp, Sync.cpp, VulkanCommandBuffer.cpp):
      creation and destruction of the device, submissions, fences and semaphores.
    - [VulkanImages] (runtime/VulkanImage.cpp, VulkanBuffer.cpp): images on the device and
      their copies on the host, over the documented effects of commands, [VkMemoryLaws].
    - [VulkanSoft]: a driver in software, an instance of these interfaces.
    - [OcioVulkan] (color/OcioVulkanProcessor.cpp): the colour transform as a compute
      shader, its pipelines and the pass over an image.

    [Pipeline] calls [Registry], [PrecisionPlanner] and [MemoryPlanner]; [PipelineRun]
    runs what [Pipeline] loaded through [Scheduler], with the buffers and builders
    of [Core] and the handles of [HostContext]; [HostContext] uses [HalfFloat].
    [DngReader] calls [DngParser] and fills a [Core] buffer; the lens filters take the
    opcodes of [OpcodeList2] and [OpcodeList3] and the buffer descriptions of
    [ComputeContext]; [EditorServer] sends the frames of [EditorProtocol].  [Nodes] and
    [WhiteBalance] are written on [Sdk], and [RawDevelop] registers the filters of
    [PointFilters] and [GainFilter] in [ComputeContext] and runs the nodes on them;
    [FilterDispatch] and [ColorNodes] do the same for the filters Halide compiles from
    the generators, and [ColorNodes] calls [LutLoader].  [IoNodes] composes the colour
    pass of [HostContext] with [HeifWriter], and calls [DngReader]; [Cli] starts the
    server of [EditorServer] and runs what [Pipeline] loads.  [OcioVulkan] runs on the
    devices of [VulkanDevice] and the images of [VulkanImages].

    ** Conventions

    A C++ function that returns a status, may throw or may have undefined
    behaviour returns [res A]: [Ok a], [Fail status message], [Thrown e] or
    [Undef] (an access outside a span, a null dereference, a float cast out of
    range).  Integers are [Z]; a w-bit operation that can wrap is written with
    [u8], [u16], [u32], [u64] or [i32].  Byte buffers are lists of [Z].  A
    [float] that is only moved is a bit pattern or a [spec_float]; one that is
    computed with is a [spec_float] with binary32 rounding.  Null pointers are
    [None]; an out-pointer that may be null is a boolean argument.  Loops that
    are not structural carry fuel; without any left they stop unfinished ([Undef], or [None]),
    which the theorems exclude: [Topo.kahn_loop] has one unit per node (each
    iteration retires one), the opcode loops one per input byte (each opcode
    takes sixteen or more), the half normalisation eleven (a subnormal has at
    most ten leading zeros), the .spi3d loop one per character of the file (each
    row takes some) and the ICC alignment four.  Code outside src/ is a
    parameter: the JSON library (with its laws), the schema validator, memory
    allocation, vector reserve, the OCIO processors, the compiled Halide
    filters and the plugins themselves, which are arbitrary functions on an abstract world,
    the data LibRaw decodes, the base profile of Little CMS, the order of std::sort
    and of hash maps (any permutation with the documented property), the file
    system and the environment, libwebp, libheif (with the memory its planes have),
    the Vulkan driver with its memory allocator, the shader compiler, std::pow, and the
    pattern a NaN is stored as.  Arithmetic on floats is
    rounded per operation, as the source writes it.  A Halide generator is a function
    from an input image to the value of each output sample over [HalideOps]: Halide may
    reassociate and contract, so the theorems that follow a node to its pixels hold for
    every arithmetic, given that the compiled function computes the algorithm in it
    ([FilterDispatch.compiled]); theorems about the algorithms themselves are over the
    reals ([ExactOps]), or over integers where the generator is.

    ** What the theorems show

    - Loading: a loaded pipeline is its document's precision-planned graph in a
      topological order, its edges satisfy their step and colour-role contracts
      (checked exactly), cyclic documents and bad parameters are refused, and
      the planned peak respects the device cap.
    - Planning: memory slots are never overwritten while needed, their number is
      optimal, the peak is what the slots hold; precision planning refines edge
      subdivision and succeeds exactly on convertible graphs.
    - Running: every interleaving of the scheduler respects dependencies and
      reports errors, and none is stuck before its end; on the chains the pipeline builds it is the
      sequential loop; runs create, process and destroy instances in order.
    - Parsing: the DNG, OpcodeList2 and OpcodeList3 parsers stay inside their
      input and invert serialisation (for DNG, of whole files: [DngRoundtrip]); the
      frame codec is a bijection on payloads below 4 GiB.
    - Host: builder freeze, applied-step history and lock protocol; blobs and
      parameters round-trip; filters get descriptions that stay inside the
      buffers, and submissions unlock what they lock; the CPU colour pass
      stays inside its buffers; the half and unorm conversions are exact, truncating and inverse as used.
    - Lens: what the nodes pack passes the filters' checks and is what was parsed;
      the corrections are compositions of paintings and lens shading is bilinear
      interpolation, from the bytes of the opcode list to the output memory, with
      every access inside the images and the block, but for a warp with a NaN
      coordinate, whose conversion is undefined.
    - Nodes: every node returns a status (but for a radius that is no [int], which is
      undefined), leaves no lock, writes only through the
      builders it made and hands its metadata over; the linearisation, black level,
      lens shading, white balance and colour matrix nodes compute, through parameters,
      registry and filter, the stated function of each pixel; the temperature search
      ends with the best of the points it evaluates; the demosaic, denoise, tone,
      sharpen and LUT nodes hand exactly the parameters they read, the pattern of the
      metadata and the table of the file to the generated filters.
    - Algorithms: bilinear demosaic is the mean of the nearest samples of a colour,
      AMaZE and RCD reconstruct the scenes they are designed for, remosaic is a rounded
      weighted mean without overflow; tone curves are monotone into the unit interval,
      fusion is a convex mixture, both LUT interpolations reproduce linear tables and
      stay inside the table; smoothing stays between its inputs, wavelet shrinkage keeps
      luma and block means, conversions round to nearest.
    - Files: what reading a DNG file yields on every branch; the ICC profile reads
      back; the LUT loaders accept and index exactly what their formats say they do; a
      HEIF file holds the converted samples of the image, from scene-linear light on,
      refusals of libheif are reported and an exception of the profile writer escapes;
      and only images made for a display are written.
    - Command line: the layers of the configuration, the port, the pipeline that is
      served, the warning, and what [cpipe run] binds and completes.
    - Device: whatever calls the driver refuses, the device is created and destroyed
      without leak, up to fences of failed submissions, and without a double free, up to
      what a failed creation left in its handle; an image of packed rows on it is the array
      of bytes that the lock protocol promises, as far as what the device wrote reaches the
      host; a colour pass keeps only its pipeline.
    - Editor: the session invariant over all events, well-formed frames, exact
      parameter updates and thumbnail delivery, containment of client input (but for
      sizes and rates that are fractions, whose conversion is unchecked);
      debouncing is safe and live, and starting ends.
    - Deviations found: [DngParser.parse_wrapping_ifd],
      [OpcodeList3.parse_trusts_count], [HalfFloat.float_to_half_nan],
      [HostContext.set_blob_reserved_shadowed], [PipelineRun.node_process_leak],
      the double lock of [ComputeContext.submit_params_exact], the error of the SDK wrappers that carries [CPIPE_OK],
      [EditorAssets.editor_asset_escapes_root], the exception of
      [EditorServer.post_run_exact], [EditorThreads.Handshake.start_timeout_deadlocks],
      the NaN coordinates of [LensFilter.lens_filter_exact], the radius of
      [NodeContract.node_contract], [Demosaic.bilinear_border],
      [DenoiseStage.radius_saturates], [HeifPlanes.grey_tinted],
      [VulkanSoft.soft_leak], [VulkanSoft.stray_destroyed], [VulkanSoft.padded_rows_lost], [VulkanImages.staging_leak],
      [OcioVulkan.pipeline_retry_leaks], the short strips and the unchecked conversions of
      [DngReader.read_dng_exact], the exception of [HeifWriter.write_heif_exact], the axis order of [LutLoader.load_cube_exact] and the
      ports of [Cli.CliExample.odd_ports].

    ** Not modelled

    The path of the host context from an image on the device into [OcioVulkan] is a dynamic
    cast; the buffers of the pipeline models are CPU buffers, which is what the pipeline
    allocates.  The mutexes of the Vulkan device order its calls; the model is one thread at
    a time.  The HEIF reader is calls into libheif.  The inference
    context is a placeholder.  The schedules of the Halide generators only order the
    computation.  The option declarations of the command line are calls into CLI11. *)

From Stdlib Require Import ZArith Lia.
From stdpp Require Import prelude strings list.

(** ** Status codes of the plugin ABI *)

(** [cpipe_status_t] of include/cpipe/sdk/cpipe_node.h. *)
Inductive cpipe_status_t : Type :=
| CPIPE_OK
| CPIPE_FAILED
| CPIPE_REPLY_DEFAULT
| CPIPE_OOM
| CPIPE_BAD_PRECISION
| CPIPE_BAD_INDEX
| CPIPE_NEED_PARAM
| CPIPE_INTERNAL_ERROR
| CPIPE_UNSUPPORTED
| CPIPE_NEED_METADATA
| CPIPE_NOT_IMPLEMENTED.

#[export] Instance cpipe_status_eq_dec : EqDecision cpipe_status_t.
Proof. solve_decision. Defined.

(** ** The result monad

    A C++ function that reports through a status and an error string, that may
    let an exception escape, and that may run into undefined behaviour (an
    out-of-range access of a span or a vector) has four kinds of outcome. *)

(** The exception classes the sources let escape or catch; [aborted] is
    [std::abort] or a failed [assert], which no handler catches. *)
Inductive exn : Type :=
| parse_error
| type_error
| out_of_range
| validation_error
| logic_error
| runtime_error
| bad_alloc
| aborted.

#[export] Instance exn_eq_dec : EqDecision exn.
Proof. solve_decision. Defined.

Inductive res (A : Type) : Type :=
| Ok (a : A)
| Fail (st : cpipe_status_t) (msg : string)
| Thrown (e : exn)
| Undef.
Arguments Ok {A} a.
Arguments Fail {A} st msg.
Arguments Thrown {A} e.
Arguments Undef {A}.

#[export] Instance res_ret : MRet res := λ A a, Ok a.
#[export] Instance res_bind : MBind res := λ A B f m,
  match m with
  | Ok a => f a
  | Fail st msg => Fail st msg
  | Thrown e => Thrown e
  | Undef => Undef
  end.

#[export] Instance res_eq_dec {A} `{EqDecision A} : EqDecision (res A).
Proof. solve_decision. Defined.

(** No undefined behaviour. *)
Definition defined {A} (m : res A) : Prop := m ≠ Undef.

(** [m] returns (neither throws nor runs into undefined behaviour), with [P] of
    its value on success and a status that is an error on failure. *)
Definition returns {A} (m : res A) (P : A → Prop) : Prop :=
  match m with
  | Ok a => P a
  | Fail st _ => st ≠ CPIPE_OK
  | Thrown _ | Undef => False
  end.

Definition is_Ok {A} (m : res A) : bool :=
  match m with Ok _ => true | _ => false end.

(** The status a caller of the C++ function sees, when one is returned. *)
Definition status_of {A} (m : res A) : option cpipe_status_t :=
  match m with
  | Ok _ => Some CPIPE_OK
  | Fail st _ => Some st
  | _ => None
  end.

Definition of_option {A} (e : res A) (o : option A) : res A :=
  match o with Some a => Ok a | None => e end.

(** [try { m } catch (const std::exception& e) { h(e) }]. *)
Definition catch {A} (m : res A) (h : exn → res A) : res A :=
  match m with
  | Thrown aborted => Thrown aborted
  | Thrown e => h e
  | m => m
  end.

(** The first element that satisfies a predicate which may throw. *)
Fixpoint findM {A} (f : A → res bool) (l : list A) : res (option A) :=
  match l with
  | [] => Ok None
  | x :: l' => b ← f x; if b : bool then Ok (Some x) else findM f l'
  end.

(** [std::ranges::any_of] and [count_if] with such a predicate. *)
Definition anyM {A} (f : A → res bool) (l : list A) : res bool :=
  o ← findM f l; Ok (bool_decide (is_Some o)).

Fixpoint countM {A} (f : A → res bool) (l : list A) : res nat :=
  match l with
  | [] => Ok 0
  | x :: l' => b ← f x; n ← countM f l'; Ok (if b : bool then S n else n)
  end.

(** [for (const auto& x : l) acc = f(acc, x)] with early exit. *)
Fixpoint foldM {A B} (f : A → B → res A) (acc : A) (l : list B) : res A :=
  match l with
  | [] => Ok acc
  | x :: l' => acc' ← f acc x; foldM f acc' l'
  end.

(** ** Machine integers *)

Definition wrap (w z : Z) : Z := z `mod` 2 ^ w.
Definition u8 : Z → Z := wrap 8.
Definition u16 : Z → Z := wrap 16.
Definition u32 : Z → Z := wrap 32.
Definition u64 : Z → Z := wrap 64.
Definition i32 (z : Z) : Z := (z + 2 ^ 31) `mod` 2 ^ 32 - 2 ^ 31.

Definition is_u (w z : Z) : Prop := (0 ≤ z < 2 ^ w)%Z.
Definition size_max : Z := 2 ^ 64 - 1.

(** A byte buffer: a [std::span<const std::byte>] or a [std::vector] of bytes. *)
Abbreviation bytes := (list Z).
Definition bytes_ok (bs : bytes) : Prop := Forall (is_u 8) bs.

(** The number of elements, as a [std::size_t]. *)
Definition len {A} (l : list A) : Z := Z.of_nat (length l).

(** [bytes[i]]: undefined out of range. *)
Definition byte_at (bs : bytes) (i : Z) : res Z :=
  if (0 <=? i)%Z && (i <? len bs)%Z
  then of_option Undef (bs !! Z.to_nat i) else Undef.

(** [v[i] = x]: undefined out of range. *)
Definition write_at {A} (l : list A) (i : Z) (x : A) : res (list A) :=
  if (0 <=? i)%Z && (i <? len l)%Z then Ok (<[Z.to_nat i := x]> l) else Undef.

Definition write_byte (bs : bytes) (i v : Z) : res bytes := write_at bs i v.

(** Four writes in a row. *)
Definition write4 (bs : bytes) (i c0 c1 c2 c3 : Z) : res bytes :=
  bs ← write_byte bs (i + 0) c0;
  bs ← write_byte bs (i + 1) c1;
  bs ← write_byte bs (i + 2) c2;
  write_byte bs (i + 3) c3.

(** [bytes.subspan(off, n)], with [off + n <= size] established by the caller. *)
Definition subspan (bs : bytes) (off n : Z) : bytes :=
  take (Z.to_nat n) (drop (Z.to_nat off) bs).

(** The big-endian 32-bit word of four bytes and its bytes. *)
Definition be32 (b0 b1 b2 b3 : Z) : Z :=
  Z.lor (Z.lor (Z.lor (Z.shiftl b0 24) (Z.shiftl b1 16)) (Z.shiftl b2 8)) b3.

Definition be32_bytes (v : Z) : bytes :=
  [Z.land (Z.shiftr v 24) 255; Z.land (Z.shiftr v 16) 255;
   Z.land (Z.shiftr v 8) 255; Z.land v 255].

(** ** Automation *)

Create HintDb cpipe.

(** Case analysis on the scrutinee of a [match] or [if] of a hypothesis. *)
Ltac case_in H :=
  match type of H with
  | context [match ?x with _ => _ end] =>
      let E := fresh "E" in destruct x eqn:E; simplify_eq/=
  end.

(** ** Lemmas on the result monad *)

Lemma bind_Ok_inv {A B} (m : res A) (f : A → res B) b :
  (m ≫= f) = Ok b → ∃ a, m = Ok a ∧ f a = Ok b.
Proof. destruct m; naive_solver. Qed.

Lemma Ok_bind {A B} (a : A) (f : A → res B) : (Ok a ≫= f) = f a.
Proof. done. Qed.

Lemma bind_defined {A B} (m : res A) (f : A → res B) :
  defined m → (∀ a, m = Ok a → defined (f a)) → defined (m ≫= f).
Proof. unfold defined. destruct m; naive_solver. Qed.

Lemma returns_bind {A B} (m : res A) (f : A → res B) P Q :
  returns m P → (∀ a, P a → returns (f a) Q) → returns (m ≫= f) Q.
Proof. destruct m; naive_solver. Qed.

Lemma returns_weaken {A} (m : res A) (P Q : A → Prop) :
  returns m P → (∀ a, P a → Q a) → returns m Q.
Proof. destruct m; naive_solver. Qed.

Lemma returns_Ok {A} (m : res A) (P : A → Prop) a : returns m P → m = Ok a → P a.
Proof. intros H ->. exact H. Qed.

Lemma Ok_defined {A} (a : A) : defined (Ok a).
Proof. done. Qed.
Lemma Fail_defined {A} st msg : defined (@Fail A st msg).
Proof. done. Qed.
Lemma Thrown_defined {A} e : defined (@Thrown A e).
Proof. done. Qed.
#[export] Hint Resolve Ok_defined Fail_defined Thrown_defined : cpipe.

(** Open every [m ≫= f = Ok b] of the context. *)
Ltac res_inv :=
  repeat match goal with
  | H : (_ ≫= _) = Ok _ |- _ =>
      let a := fresh "a" in let Ha := fresh "Ha" in
      apply bind_Ok_inv in H as (a & Ha & H)
  | H : Ok _ = Ok _ |- _ => injection H as H; subst
  | H : mret _ = Ok _ |- _ => injection H as H; subst
  | H : Fail _ _ = Ok _ |- _ => discriminate H
  | H : Thrown _ = Ok _ |- _ => discriminate H
  | H : Undef = Ok _ |- _ => discriminate H
  end.

Lemma foldM_app {A B} (f : A → B → res A) l1 l2 acc :
  foldM f acc (l1 ++ l2) = (foldM f acc l1 ≫= λ acc', foldM f acc' l2).
Proof.
  revert acc; induction l1 as [|x l1 IH]; intros acc; [done|].
  simpl. destruct (f acc x); simpl; auto.
Qed.

(** The loop rule: an invariant of the accumulator over the prefix consumed. *)
Lemma foldM_invariant {A B} (P : list B → A → Prop) (f : A → B → res A) l acc acc' :
  P [] acc →
  (∀ pre x a a', prefix (pre ++ [x]) l → P pre a → f a x = Ok a' → P (pre ++ [x]) a') →
  foldM f acc l = Ok acc' → P l acc'.
Proof.
  intros H0 Hstep. cut (∀ pre suf a, l = pre ++ suf → P pre a →
    foldM f a suf = Ok acc' → P l acc'); [intros H; by apply (H [] l acc)|].
  intros pre suf; revert pre; induction suf as [|x suf IH]; intros pre a -> Hpre Hf.
  - simpl in Hf. injection Hf as <-. by rewrite app_nil_r.
  - simpl in Hf. apply bind_Ok_inv in Hf as (a' & Ha & Hf).
    apply (IH (pre ++ [x]) a'); [by rewrite <-app_assoc| |done].
    eapply Hstep; [|done|done]. exists suf. by rewrite <-app_assoc.
Qed.

(** ** Lemmas on machine integers *)

Lemma wrap_bound w z : (0 ≤ w)%Z → is_u w (wrap w z).
Proof. intros. unfold is_u, wrap. apply Z.mod_pos_bound. by apply Z.pow_pos_nonneg. Qed.

Lemma wrap_small w z : is_u w z → wrap w z = z.
Proof. intros. by apply Z.mod_small. Qed.

Lemma u64_small z : (0 ≤ z < 2 ^ 64)%Z → u64 z = z.
Proof. apply wrap_small. Qed.
Lemma u32_small z : (0 ≤ z < 2 ^ 32)%Z → u32 z = z.
Proof. apply wrap_small. Qed.

Lemma len_nonneg {A} (l : list A) : (0 ≤ len l)%Z.
Proof. unfold len. lia. Qed.
#[export] Hint Resolve len_nonneg : cpipe.

Lemma len_app {A} (l1 l2 : list A) : len (l1 ++ l2) = (len l1 + len l2)%Z.
Proof. unfold len. rewrite length_app. lia. Qed.

Lemma len_cons {A} (x : A) l : len (x :: l) = (1 + len l)%Z.
Proof. unfold len. simpl. lia. Qed.

Lemma len_nil {A} : len (@nil A) = 0%Z.
Proof. done. Qed.

(** A shifted word and the bits below it do not overlap. *)
Lemma lor_shiftl_add a b n :
  (0 ≤ n)%Z → is_u n b → Z.lor (Z.shiftl a n) b = (a * 2 ^ n + b)%Z.
Proof.
  intros Hn Hb.
  assert (Z.land (Z.shiftl a n) b = 0%Z) as Hd.
  { apply Z.bits_inj'. intros i Hi. rewrite Z.land_spec, Z.bits_0.
    destruct (decide (i < n)%Z).
    - by rewrite Z.shiftl_spec_low.
    - rewrite <-(Z.mod_small b (2 ^ n)) by done.
      rewrite Z.mod_pow2_bits_high by lia. by rewrite andb_false_r. }
  rewrite <-Z.lxor_lor by done. rewrite <-Z.add_nocarry_lxor by done.
  rewrite Z.shiftl_mul_pow2 by lia. done.
Qed.

Lemma land_255 z : Z.land z 255 = (z `mod` 256)%Z.
Proof. change 255%Z with (Z.ones 8). by rewrite Z.land_ones. Qed.

Lemma be32_sum b0 b1 b2 b3 :
  is_u 8 b1 → is_u 8 b2 → is_u 8 b3 →
  be32 b0 b1 b2 b3 = (b0 * 2 ^ 24 + b1 * 2 ^ 16 + b2 * 2 ^ 8 + b3)%Z.
Proof.
  unfold be32, is_u. intros H1 H2 H3. rewrite <-!Z.lor_assoc.
  rewrite (lor_shiftl_add b2 b3 8) by (unfold is_u; lia).
  rewrite (lor_shiftl_add b1 _ 16) by (unfold is_u; lia).
  rewrite (lor_shiftl_add b0 _ 24) by (unfold is_u; lia). lia.
Qed.

Lemma be32_bound b0 b1 b2 b3 :
  is_u 8 b0 → is_u 8 b1 → is_u 8 b2 → is_u 8 b3 → is_u 32 (be32 b0 b1 b2 b3).
Proof. intros. rewrite be32_sum by done. unfold is_u in *. lia. Qed.

Lemma be32_bytes_eq v :
  is_u 32 v →
  be32_bytes v = [v / 2 ^ 24; (v / 2 ^ 16) `mod` 256; (v / 2 ^ 8) `mod` 256; v `mod` 256]%Z.
Proof.
  intros Hv. unfold be32_bytes. rewrite !land_255, !Z.shiftr_div_pow2 by lia.
  rewrite (Z.mod_small (v / 2 ^ 24)); [done|].
  unfold is_u in Hv. Z.to_euclidean_division_equations; lia.
Qed.

Lemma be32_bytes_ok v : bytes_ok (be32_bytes v).
Proof.
  unfold be32_bytes. rewrite !land_255.
  repeat constructor; unfold is_u; try (apply Z.mod_pos_bound; lia).
  all: apply Z.mod_pos_bound; lia.
Qed.

Lemma be32_of_bytes v b0 b1 b2 b3 :
  is_u 32 v → be32_bytes v = [b0; b1; b2; b3] → be32 b0 b1 b2 b3 = v.
Proof.
  intros Hv Hb. pose proof (be32_bytes_ok v) as Hok. rewrite Hb in Hok.
  rewrite be32_bytes_eq in Hb by done. injection Hb as <- <- <- <-.
  unfold bytes_ok in Hok. rewrite !Forall_cons in Hok. destruct Hok as (? & ? & ? & ? & _).
  rewrite be32_sum by done. unfold is_u in *. Z.to_euclidean_division_equations; lia.
Qed.

Lemma be32_bytes_of b0 b1 b2 b3 :
  is_u 8 b0 → is_u 8 b1 → is_u 8 b2 → is_u 8 b3 →
  be32_bytes (be32 b0 b1 b2 b3) = [b0; b1; b2; b3].
Proof.
  intros H0 H1 H2 H3. rewrite be32_bytes_eq by by apply be32_bound.
  rewrite be32_sum by done. unfold is_u in *.
  repeat f_equal; Z.to_euclidean_division_equations; lia.
Qed.

Lemma len_be32_bytes v : len (be32_bytes v) = 4%Z.
Proof. done. Qed.

(** ** Lemmas on byte buffers *)

Lemma byte_at_Ok bs i : (0 ≤ i < len bs)%Z → ∃ b, byte_at bs i = Ok b ∧ bs !! Z.to_nat i = Some b.
Proof.
  intros Hi. unfold byte_at, len in *.
  destruct (lookup_lt_is_Some_2 bs (Z.to_nat i)) as [b Hb]; [lia|].
  rewrite (proj2 (Z.leb_le 0 i)), (proj2 (Z.ltb_lt i _)) by lia. rewrite Hb. eauto.
Qed.

Lemma byte_at_inv bs i b :
  byte_at bs i = Ok b → (0 ≤ i < len bs)%Z ∧ bs !! Z.to_nat i = Some b.
Proof.
  unfold byte_at. destruct (0 <=? i)%Z eqn:E1; [|done]. destruct (i <? len bs)%Z eqn:E2; [|done].
  simpl. intros H. destruct (bs !! Z.to_nat i) eqn:E; simpl in H; [|done].
  apply Z.leb_le in E1. apply Z.ltb_lt in E2. naive_solver.
Qed.

Lemma byte_at_lookup bs (i : Z) b :
  (0 ≤ i)%Z → bs !! Z.to_nat i = Some b → byte_at bs i = Ok b.
Proof.
  intros Hi H. pose proof (lookup_lt_Some _ _ _ H).
  destruct (byte_at_Ok bs i) as (b' & -> & ?); [unfold len; lia|]. naive_solver.
Qed.

Lemma byte_at_undef bs i : (len bs ≤ i)%Z → byte_at bs i = Undef.
Proof.
  intros. unfold byte_at. destruct (0 <=? i)%Z; [|done].
  by rewrite (proj2 (Z.ltb_ge i _)).
Qed.

Lemma byte_at_is_u8 bs i b : bytes_ok bs → byte_at bs i = Ok b → is_u 8 b.
Proof. intros Hok [_ H]%byte_at_inv. by eapply Forall_lookup_1 in H. Qed.

Lemma take_drop_middle_4 {A} (l : list A) (i : nat) a b c d :
  l !! i = Some a → l !! S i = Some b → l !! S (S i) = Some c → l !! S (S (S i)) = Some d →
  take 4 (drop i l) = [a; b; c; d].
Proof.
  intros Ha Hb Hc Hd.
  rewrite (drop_S l a i Ha), (drop_S l b (S i) Hb), (drop_S l c _ Hc), (drop_S l d _ Hd).
  done.
Qed.

Lemma drop_take_drop {A} (l : list A) (i n : nat) :
  take n (drop i l) ++ drop (i + n) l = drop i l.
Proof. rewrite <-drop_drop. apply take_drop. Qed.

Lemma byte_at_app_middle (pre mid suf : bytes) (i : nat) b :
  mid !! i = Some b → byte_at (pre ++ mid ++ suf) (len pre + Z.of_nat i) = Ok b.
Proof.
  intros Hi. apply byte_at_lookup; [unfold len; lia|].
  rewrite lookup_app_r by (unfold len; lia).
  replace (Z.to_nat _ - _)%nat with i by (unfold len; lia). by apply lookup_app_l_Some.
Qed.

(** Four consecutive byte reads at the bytes of a big-endian word. *)
Lemma byte_at_be32 (pre suf : bytes) v :
  is_u 32 v → ∃ b0 b1 b2 b3,
    byte_at (pre ++ be32_bytes v ++ suf) (len pre) = Ok b0 ∧
    byte_at (pre ++ be32_bytes v ++ suf) (len pre + 1) = Ok b1 ∧
    byte_at (pre ++ be32_bytes v ++ suf) (len pre + 2) = Ok b2 ∧
    byte_at (pre ++ be32_bytes v ++ suf) (len pre + 3) = Ok b3 ∧ be32 b0 b1 b2 b3 = v.
Proof.
  intros Hv. destruct (be32_bytes v) as [|b0 [|b1 [|b2 [|b3 [|]]]]] eqn:Hb; try discriminate Hb.
  exists b0, b1, b2, b3. split_and!; [rewrite <-(Z.add_0_r (len pre))|..|by apply be32_of_bytes].
  - by apply (byte_at_app_middle pre [b0; b1; b2; b3] suf 0).
  - by apply (byte_at_app_middle pre [b0; b1; b2; b3] suf 1).
  - by apply (byte_at_app_middle pre [b0; b1; b2; b3] suf 2).
  - by apply (byte_at_app_middle pre [b0; b1; b2; b3] suf 3).
Qed.

(** A loop that collects [f i] for consecutive [i]. *)
Lemma foldM_collect {A} (f : Z → res A) (rs : list A) : ∀ k acc,
  (∀ j r, rs !! j = Some r → f (k + Z.of_nat j)%Z = Ok r) →
  foldM (λ acc i, r ← f i; Ok (acc ++ [r])) acc (seqZ k (len rs)) = Ok (acc ++ rs).
Proof.
  induction rs as [|r rs IH]; intros k acc Hf; [simpl; by rewrite app_nil_r|].
  rewrite len_cons, seqZ_cons by (pose proof (len_nonneg rs); lia).
  replace (Z.pred (1 + len rs)) with (len rs) by lia. cbn [foldM].
  assert (f k = Ok r) as -> by (rewrite <-(Hf 0%nat r eq_refl); f_equal; lia). rewrite !Ok_bind.
  rewrite IH; [by rewrite <-app_assoc|]. intros j r' Hj. rewrite <-(Hf (S j) r' Hj). f_equal. lia.
Qed.

Lemma len_subspan bs off n :
  (0 ≤ off)%Z → (0 ≤ n)%Z → (off + n ≤ len bs)%Z → len (subspan bs off n) = n.
Proof. intros. unfold subspan, len in *. rewrite length_take, length_drop. lia. Qed.

Lemma subspan_ok bs off n : bytes_ok bs → bytes_ok (subspan bs off n).
Proof. intros. by apply Forall_take, Forall_drop. Qed.

Lemma subspan_app (pre mid suf : bytes) :
  subspan (pre ++ mid ++ suf) (len pre) (len mid) = mid.
Proof.
  unfold subspan, len. rewrite !Nat2Z.id. rewrite drop_app_length. by rewrite take_app_length.
Qed.

Lemma write_byte_app pre b suf v :
  write_byte (pre ++ b :: suf) (len pre) v = Ok (pre ++ v :: suf).
Proof.
  unfold write_byte, write_at, len. rewrite (proj2 (Z.leb_le 0 _)) by lia.
  rewrite (proj2 (Z.ltb_lt _ _)) by (rewrite length_app; simpl; lia). simpl.
  rewrite Nat2Z.id, insert_app_r_alt by lia. by rewrite Nat.sub_diag.
Qed.

Lemma write4_app (pre suf : bytes) b0 b1 b2 b3 c0 c1 c2 c3 i :
  i = len pre →
  write4 (pre ++ b0 :: b1 :: b2 :: b3 :: suf) i c0 c1 c2 c3 = Ok (pre ++ c0 :: c1 :: c2 :: c3 :: suf).
Proof.
  intros ->. unfold write4.
  assert (Hsnoc : ∀ (p : bytes) c l, p ++ c :: l = (p ++ [c]) ++ l) by (intros; by rewrite <-app_assoc).
  assert (Hlen : ∀ (p : bytes) c, (len p + 1)%Z = len (p ++ [c])) by (intros; by rewrite len_app).
  rewrite Z.add_0_r, write_byte_app, Ok_bind.
  rewrite (Hlen pre c0), (Hsnoc pre c0), write_byte_app, Ok_bind.
  replace (len pre + 2)%Z with (len ((pre ++ [c0]) ++ [c1])) by (rewrite <-!Hlen; lia).
  rewrite (Hsnoc _ c1), write_byte_app, Ok_bind.
  replace (len pre + 3)%Z with (len (((pre ++ [c0]) ++ [c1]) ++ [c2])) by (rewrite <-!Hlen; lia).
  rewrite (Hsnoc _ c2), write_byte_app. by rewrite <-!app_assoc.
Qed.

Lemma write_at_Ok {A} (l : list A) i x : (0 ≤ i < len l)%Z → write_at l i x = Ok (<[Z.to_nat i := x]> l).
Proof. intros. unfold write_at. by rewrite (proj2 (Z.leb_le _ _)), (proj2 (Z.ltb_lt _ _)) by lia. Qed.
