(* ===== verification/EditorProtocol.v ===== *)
(** * The binary frames of the editor protocol

    Models src/cpipe/server/EditorProtocol.cpp and the types of
    include/cpipe/server/EditorProtocol.hpp: a 13-byte header (frame type, node
    id, timestamp, payload length, the last three big-endian 32-bit words)
    followed by the payload.  The theorems show that the codec is a bijection
    between well-formed frames and accepted byte strings, and that decoding
    never reads outside its input. *)

From Stdlib Require Import ZArith Lia.
From stdpp Require Import prelude strings list.
From S2P Require Import Prelude.

Local Open Scope Z_scope.

Inductive EditorFrameType : Type := Thumbnail | Profile | Log | Ack | Control.

#[export] Instance EditorFrameType_eq_dec : EqDecision EditorFrameType.
Proof. solve_decision. Defined.

(** The underlying [std::uint8_t] of the enumerators. *)
Definition frame_type_to_byte (t : EditorFrameType) : Z :=
  match t with
  | Thumbnail => 0x01
  | Profile => 0x02
  | Log => 0x03
  | Ack => 0x04
  | Control => 0x10
  end.

Record EditorFrame : Type := mkFrame {
  fr_type : EditorFrameType;
  fr_node_id : Z;
  fr_timestamp_ms : Z;
  fr_payload : bytes
}.

Definition kHeaderBytes : Z := 13.

Definition write_be32 (out : bytes) (value : Z) : bytes := out ++ be32_bytes value.

Definition read_be32 (bs : bytes) (offset : Z) : res Z :=
  b0 ← byte_at bs offset;
  b1 ← byte_at bs (offset + 1);
  b2 ← byte_at bs (offset + 2);
  b3 ← byte_at bs (offset + 3);
  Ok (be32 b0 b1 b2 b3).

Definition frame_type_from_byte (value : Z) : option EditorFrameType :=
  if decide (value = frame_type_to_byte Thumbnail) then Some Thumbnail
  else if decide (value = frame_type_to_byte Profile) then Some Profile
  else if decide (value = frame_type_to_byte Log) then Some Log
  else if decide (value = frame_type_to_byte Ack) then Some Ack
  else if decide (value = frame_type_to_byte Control) then Some Control
  else None.

Definition encode_frame (type : EditorFrameType) (node_id timestamp_ms : Z)
    (payload : bytes) : bytes :=
  let out := [frame_type_to_byte type] in
  let out := write_be32 out node_id in
  let out := write_be32 out timestamp_ms in
  let out := write_be32 out (u32 (len payload)) in
  out ++ payload.

(** [std::optional<EditorFrame>]: [Ok None] is [std::nullopt]. *)
Definition decode_frame (bs : bytes) : res (option EditorFrame) :=
  if len bs <? kHeaderBytes then Ok None else
  b ← byte_at bs 0;
  match frame_type_from_byte b with
  | None => Ok None
  | Some type =>
      length ← read_be32 bs 9;
      if bool_decide (len bs ≠ kHeaderBytes + length) then Ok None else
      node_id ← read_be32 bs 1;
      timestamp_ms ← read_be32 bs 5;
      Ok (Some (mkFrame type node_id timestamp_ms (drop (Z.to_nat kHeaderBytes) bs)))
  end.

(** ** Well-formed frames *)

Definition frame_ok (f : EditorFrame) : Prop :=
  is_u 32 (fr_node_id f) ∧ is_u 32 (fr_timestamp_ms f) ∧
  len (fr_payload f) < 2 ^ 32 ∧ bytes_ok (fr_payload f).

(** ** Lemmas *)

Lemma frame_type_from_to t : frame_type_from_byte (frame_type_to_byte t) = Some t.
Proof. by destruct t. Qed.

Lemma frame_type_to_from b t : frame_type_from_byte b = Some t → frame_type_to_byte t = b.
Proof. unfold frame_type_from_byte. repeat case_decide; intros; simplify_eq; done. Qed.

Lemma read_be32_defined bs off :
  0 ≤ off → off + 4 ≤ len bs → ∃ v, read_be32 bs off = Ok v.
Proof.
  intros. unfold read_be32.
  destruct (byte_at_Ok bs off) as (? & -> & _); [lia|].
  destruct (byte_at_Ok bs (off + 1)) as (? & -> & _); [lia|].
  destruct (byte_at_Ok bs (off + 2)) as (? & -> & _); [lia|].
  destruct (byte_at_Ok bs (off + 3)) as (? & -> & _); [lia|]. eauto.
Qed.

(** Reading at an offset where the bytes of [v] were written gives [v]. *)
Lemma read_be32_at (bs pre suf : bytes) v off :
  bs = pre ++ be32_bytes v ++ suf → off = len pre → is_u 32 v → read_be32 bs off = Ok v.
Proof.
  intros -> -> Hv. unfold read_be32.
  destruct (byte_at_be32 pre suf v Hv) as (b0 & b1 & b2 & b3 & -> & -> & -> & -> & <-). done.
Qed.

(** The four bytes a read consumed. *)
Lemma read_be32_slice bs off v :
  bytes_ok bs → read_be32 bs off = Ok v →
  be32_bytes v = take 4 (drop (Z.to_nat off) bs) ∧ is_u 32 v.
Proof.
  intros Hok H. unfold read_be32 in H. res_inv.
  repeat match goal with
  | H : byte_at _ _ = Ok _ |- _ =>
      pose proof (byte_at_is_u8 _ _ _ Hok H); apply byte_at_inv in H as [? H]
  end.
  split; [|by apply be32_bound].
  rewrite be32_bytes_of by done.
  rewrite (take_drop_middle_4 bs (Z.to_nat off) a a0 a1 a2); [done|..];
    by (etrans; [|eassumption]; f_equal; lia).
Qed.

Lemma encode_frame_app t n ts p :
  encode_frame t n ts p =
  [frame_type_to_byte t] ++ be32_bytes n ++ be32_bytes ts ++ be32_bytes (u32 (len p)) ++ p.
Proof. unfold encode_frame, write_be32. by rewrite <-!app_assoc. Qed.

Lemma len_encode_frame t n ts p : len (encode_frame t n ts p) = 13 + len p.
Proof. rewrite encode_frame_app, !len_app, !len_be32_bytes, len_cons, len_nil. lia. Qed.

(** A message is read back from the offsets at which its parts were written. *)
Lemma decode_frame_encode (t : EditorFrameType) (n ts : Z) (p : bytes) :
  is_u 32 n → is_u 32 ts → len p < 2 ^ 32 →
  decode_frame (encode_frame t n ts p) = Ok (Some (mkFrame t n ts p)).
Proof.
  intros Hn Hts Hp. pose proof (len_nonneg p).
  unfold decode_frame. rewrite len_encode_frame.
  rewrite (proj2 (Z.ltb_ge _ _)) by (unfold kHeaderBytes; lia).
  rewrite encode_frame_app, u32_small by lia.
  rewrite (byte_at_lookup _ 0 (frame_type_to_byte t)) by done. rewrite Ok_bind.
  rewrite frame_type_from_to.
  rewrite (read_be32_at _ ([frame_type_to_byte t] ++ be32_bytes n ++ be32_bytes ts) p (len p) 9)
    by (done || (unfold is_u; lia)).
  rewrite Ok_bind. rewrite bool_decide_eq_false_2 by (unfold kHeaderBytes; lia).
  rewrite (read_be32_at _ [frame_type_to_byte t] _ n 1) by done. rewrite Ok_bind.
  rewrite (read_be32_at _ ([frame_type_to_byte t] ++ be32_bytes n) _ ts 5) by done.
  done.
Qed.

(** The length of a payload of 4 GiB and more does not fit its field, and the receiver
    refuses the frame. *)
Lemma decode_frame_long (t : EditorFrameType) (n ts : Z) (p : bytes) :
  2 ^ 32 ≤ len p → decode_frame (encode_frame t n ts p) = Ok None.
Proof.
  intros Hp. unfold decode_frame. rewrite len_encode_frame.
  rewrite (proj2 (Z.ltb_ge _ _)) by (unfold kHeaderBytes; lia). rewrite encode_frame_app.
  rewrite (byte_at_lookup _ 0 (frame_type_to_byte t)) by done. rewrite Ok_bind, frame_type_from_to.
  pose proof (wrap_bound 32 (len p) ltac:(lia)) as Hu.
  rewrite (read_be32_at _ ([frame_type_to_byte t] ++ be32_bytes n ++ be32_bytes ts) p (u32 (len p)) 9) by done.
  rewrite Ok_bind. rewrite bool_decide_eq_true_2; [done|]. unfold is_u, u32, wrap, kHeaderBytes in *. lia.
Qed.

(** ** Theorems *)

(** decoding an encoded frame gives the frame back, for every frame whose
    node id and timestamp are 32-bit and whose payload is below 4 GiB. *)
Theorem decode_encode_frame (t : EditorFrameType) (n ts : Z) (p : bytes) :
  is_u 32 n → is_u 32 ts → len p < 2 ^ 32 →
  decode_frame (encode_frame t n ts p) = Ok (Some (mkFrame t n ts p)).
Proof. apply decode_frame_encode. Qed.

(** decoding is total and never reads outside the message, whatever bytes a
    peer sends. *)
Theorem decode_frame_total (bs : bytes) : ∃ o, decode_frame bs = Ok o.
Proof.
  unfold decode_frame. destruct (len bs <? kHeaderBytes) eqn:E; [eauto|].
  apply Z.ltb_ge in E. unfold kHeaderBytes in E.
  destruct (byte_at_Ok bs 0) as (b & -> & _); [lia|]. simpl.
  destruct (frame_type_from_byte b); [|eauto].
  destruct (read_be32_defined bs 9) as [l ->]; [lia..|]. simpl.
  case_bool_decide; [eauto|].
  destruct (read_be32_defined bs 1) as [n ->]; [lia..|]. simpl.
  destruct (read_be32_defined bs 5) as [ts ->]; [lia..|]. simpl. eauto.
Qed.

(** an accepted message is exactly the encoding of the frame it decodes to,
    and that frame is well formed: no two byte strings decode to one frame. *)
Theorem encode_decode_frame (bs : bytes) (f : EditorFrame) :
  bytes_ok bs → decode_frame bs = Ok (Some f) →
  frame_ok f ∧ encode_frame (fr_type f) (fr_node_id f) (fr_timestamp_ms f) (fr_payload f) = bs.
Proof.
  intros Hok H. unfold decode_frame in H. destruct (len bs <? kHeaderBytes) eqn:E; [done|].
  apply Z.ltb_ge in E. res_inv. destruct (frame_type_from_byte a) as [t|] eqn:Et; [|done].
  res_inv. case_bool_decide; [done|]. res_inv. simplify_eq. simpl.
  apply read_be32_slice in Ha0 as [Hl Hl32]; [|done].
  apply read_be32_slice in Ha1 as [Hn Hn32]; [|done].
  apply read_be32_slice in Ha2 as [Hts Hts32]; [|done].
  apply byte_at_inv in Ha as [_ Ha]. apply frame_type_to_from in Et as Et'. clear Et.
  assert (len bs = kHeaderBytes + a0) as Hlen by lia.
  assert (len (drop (Z.to_nat kHeaderBytes) bs) = a0) as Hpl.
  { unfold len in *. rewrite length_drop. unfold kHeaderBytes in *. lia. }
  split.
  - unfold frame_ok. simpl. rewrite Hpl. unfold is_u in Hl32.
    repeat split; try apply Hn32; try apply Hts32; [lia|]. by apply Forall_drop.
  - rewrite encode_frame_app, Hpl, u32_small by apply Hl32.
    rewrite Hl, Hn, Hts, Et'.
    destruct bs as [|b bs]; [done|]. injection Ha as ->. simpl app. f_equal.
    etrans; [|exact (take_drop 4 bs)]. f_equal.
    etrans; [|exact (drop_take_drop bs 4 4)]. f_equal. exact (drop_take_drop bs 8 4).
Qed.

(** a payload of 4 GiB or more does not fit the length field; its frame is
    refused by the decoder instead of being decoded to a truncated payload. *)
Theorem decode_oversized_frame (t : EditorFrameType) (n ts : Z) (p : bytes) :
  2 ^ 32 ≤ len p → decode_frame (encode_frame t n ts p) = Ok None.
Proof.
  intros Hp. pose proof (wrap_bound 32 (len p)) as Hw. unfold is_u in Hw.
  unfold decode_frame. rewrite len_encode_frame.
  rewrite (proj2 (Z.ltb_ge _ _)) by (unfold kHeaderBytes; lia). rewrite encode_frame_app.
  rewrite (byte_at_lookup _ 0 (frame_type_to_byte t)) by done. rewrite Ok_bind.
  rewrite frame_type_from_to.
  rewrite (read_be32_at _ ([frame_type_to_byte t] ++ be32_bytes n ++ be32_bytes ts)
    p (u32 (len p)) 9) by (done || (apply wrap_bound; lia)).
  rewrite Ok_bind. rewrite bool_decide_eq_true_2; [done|]. unfold u32, kHeaderBytes. lia.
Qed.

(** ** Witnesses *)

Lemma decode_encode_frame_witness :
  decode_frame (encode_frame Control 7 1000 [1; 2; 255])
  = Ok (Some (mkFrame Control 7 1000 [1; 2; 255])).
Proof. apply decode_encode_frame; done. Defined.

Lemma encode_decode_frame_witness :
  let bs := [16; 0; 0; 0; 7; 0; 0; 3; 232; 0; 0; 0; 2; 9; 8] in
  frame_ok (mkFrame Control 7 1000 [9; 8]) ∧ encode_frame Control 7 1000 [9; 8] = bs.
Proof.
  intros bs. apply (encode_decode_frame bs (mkFrame Control 7 1000 [9; 8])).
  - repeat constructor; done.
  - vm_compute. reflexivity.
Defined.

Lemma decode_oversized_frame_witness :
  decode_frame (encode_frame Log 0 0 (replicate (Z.to_nat (2 ^ 32)) 0)) = Ok None.
Proof.
  apply decode_oversized_frame. unfold len. rewrite length_replicate, Z2Nat.id by lia. lia.
Defined.
