(* ===== verification/Core.v ===== *)
(** * Buffers and their metadata

    Models src/cpipe/core and include/cpipe/core: pixel formats and buffer
    layouts ([Layout]), usage flags ([Usage]), the metadata records and the
    freezing [MetadataBuilder] ([Metadata]), and the CPU buffer with its lock
    ([Buffer]).  Sizes are 64-bit and wrap; floating-point fields are
    [spec_float] values that these components only move around. *)

From Stdlib Require Import ZArith Lia SpecFloat.
From stdpp Require Import prelude strings list gmap.
From S2P Require Import Prelude.

Local Open Scope Z_scope.

(** IEEE values of the C++ [float] and [double] types. *)
Abbreviation float32 := spec_float.
Abbreviation float64 := spec_float.
Definition f_zero : spec_float := S754_zero false.
(** [1.0F]: 24 bits of mantissa. *)
Definition f32_one : float32 := S754_finite false 8388608 (-23).

(** ** Status codes of the core library (core/Status.hpp) *)

Inductive StatusCode : Type :=
| StOk | StFailed | StReplyDefault | StOom | StBadPrecision | StBadIndex | StNeedParam
| StInternalError | StUnsupported | StNeedMetadata | StNotImplemented.

Definition status_code_value (c : StatusCode) : Z :=
  match c with
  | StOk => 0 | StFailed => 1 | StReplyDefault => 2 | StOom => 3 | StBadPrecision => 4
  | StBadIndex => 5 | StNeedParam => 6 | StInternalError => 7 | StUnsupported => 8
  | StNeedMetadata => 9 | StNotImplemented => 100
  end.

Definition is_ok (c : StatusCode) : bool := status_code_value c =? status_code_value StOk.

Definition status_to_string (c : StatusCode) : string :=
  match c with
  | StOk => "CPIPE_OK" | StFailed => "CPIPE_FAILED"
  | StReplyDefault => "CPIPE_REPLY_DEFAULT" | StOom => "CPIPE_OOM"
  | StBadPrecision => "CPIPE_BAD_PRECISION" | StBadIndex => "CPIPE_BAD_INDEX"
  | StNeedParam => "CPIPE_NEED_PARAM" | StInternalError => "CPIPE_INTERNAL_ERROR"
  | StUnsupported => "CPIPE_UNSUPPORTED" | StNeedMetadata => "CPIPE_NEED_METADATA"
  | StNotImplemented => "CPIPE_NOT_IMPLEMENTED"
  end.

(** ** Pixel formats and layouts *)

Inductive PixelFormat : Type :=
| UNDEFINED
| R16_UINT
| R10_PACKED
| R8G8B8A8_UNORM
| R8G8B8_UNORM
| R10G10B10A2_UNORM
| R16G16B16A16_SFLOAT
| R16G16B16_SFLOAT
| R32G32B32A32_SFLOAT
| R32G32B32_SFLOAT
| R32_SFLOAT
| F16
| F32
| I8
| U8
| BLOB
| R16G16B16A16_UNORM.

#[export] Instance PixelFormat_eq_dec : EqDecision PixelFormat.
Proof. solve_decision. Defined.

(** The enumerator values, as [static_cast<int>(format)] reports them. *)
Definition format_value (f : PixelFormat) : Z :=
  match f with
  | UNDEFINED => 0 | R16_UINT => 1 | R10_PACKED => 2 | R8G8B8A8_UNORM => 3
  | R8G8B8_UNORM => 4 | R10G10B10A2_UNORM => 5 | R16G16B16A16_SFLOAT => 6
  | R16G16B16_SFLOAT => 7 | R32G32B32A32_SFLOAT => 8 | R32G32B32_SFLOAT => 9
  | R32_SFLOAT => 10 | F16 => 11 | F32 => 12 | I8 => 13 | U8 => 14 | BLOB => 15
  | R16G16B16A16_UNORM => 16
  end.

Definition bytes_per_pixel (f : PixelFormat) : Z :=
  match f with
  | R16_UINT => 2
  | R10_PACKED => 0
  | R8G8B8A8_UNORM => 4
  | R8G8B8_UNORM => 3
  | R10G10B10A2_UNORM => 4
  | R16G16B16A16_SFLOAT | R16G16B16A16_UNORM => 8
  | R16G16B16_SFLOAT => 6
  | R32G32B32A32_SFLOAT => 16
  | R32G32B32_SFLOAT => 12
  | R32_SFLOAT | F32 => 4
  | F16 => 2
  | I8 | U8 | BLOB => 1
  | UNDEFINED => 0
  end.

Definition channel_count (f : PixelFormat) : Z :=
  match f with
  | R8G8B8A8_UNORM | R10G10B10A2_UNORM | R16G16B16A16_SFLOAT | R16G16B16A16_UNORM
  | R32G32B32A32_SFLOAT => 4
  | R8G8B8_UNORM | R16G16B16_SFLOAT | R32G32B32_SFLOAT => 3
  | UNDEFINED => 0
  | _ => 1
  end.

Definition bytes_per_channel (f : PixelFormat) : Z :=
  let channels := channel_count f in
  if channels =? 0 then 0 else bytes_per_pixel f / channels.

Definition format_to_string (f : PixelFormat) : string :=
  match f with
  | UNDEFINED => "UNDEFINED"
  | R16_UINT => "R16_UINT"
  | R10_PACKED => "R10_PACKED"
  | R8G8B8A8_UNORM => "R8G8B8A8_UNORM"
  | R8G8B8_UNORM => "R8G8B8_UNORM"
  | R10G10B10A2_UNORM => "R10G10B10A2_UNORM"
  | R16G16B16A16_SFLOAT => "R16G16B16A16_SFLOAT"
  | R16G16B16_SFLOAT => "R16G16B16_SFLOAT"
  | R32G32B32A32_SFLOAT => "R32G32B32A32_SFLOAT"
  | R32G32B32_SFLOAT => "R32G32B32_SFLOAT"
  | R32_SFLOAT => "R32_SFLOAT"
  | F16 => "F16"
  | F32 => "F32"
  | I8 => "I8"
  | U8 => "U8"
  | BLOB => "BLOB"
  | R16G16B16A16_UNORM => "R16G16B16A16_UNORM"
  end.

Inductive BufferKind : Type := Image2D | Volume3D | TensorND | Blob.

#[export] Instance BufferKind_eq_dec : EqDecision BufferKind.
Proof. solve_decision. Defined.

(** [dims] and [stride] are C arrays of eight elements. *)
Record BufferLayout : Type := mkLayout {
  kind : BufferKind;
  format : PixelFormat;
  ndim : Z;
  dims : list Z;
  stride : list Z
}.

#[export] Instance BufferLayout_eq_dec : EqDecision BufferLayout.
Proof. solve_decision. Defined.

Definition zeros8 : list Z := replicate 8 0.

(** [BufferLayout{}]. *)
Definition default_layout : BufferLayout := mkLayout Image2D UNDEFINED 0 zeros8 zeros8.

Definition with_format (l : BufferLayout) (f : PixelFormat) : BufferLayout :=
  mkLayout (kind l) f (ndim l) (dims l) (stride l).

(** A [dims] or [stride] element; the arrays have eight of them and every
    index the sources use is below eight. *)
Definition nth8 (l : list Z) (i : Z) : Z := default 0 (l !! Z.to_nat i).

Definition size_bytes (l : BufferLayout) : Z :=
  if decide (kind l = Blob) then nth8 (dims l) 0 else
  if (ndim l =? 0) || (8 <? ndim l) then 0 else
  let element_bytes := bytes_per_pixel (format l) in
  if element_bytes =? 0 then 0 else
  if negb (nth8 (stride l) (ndim l - 1) =? 0)
  then u64 (nth8 (stride l) (ndim l - 1) * nth8 (dims l) (ndim l - 1)) else
  foldl (λ total d, u64 (total * d)) element_bytes (take (Z.to_nat (ndim l)) (dims l)).

(** ** Usage flags (core/BufferUsage.hpp) *)

Definition usage_None : Z := 0.
Definition usage_Input : Z := Z.shiftl 1 0.
Definition usage_Output : Z := Z.shiftl 1 1.
Definition usage_Intermediate : Z := Z.shiftl 1 2.
Definition usage_Scratch : Z := Z.shiftl 1 3.
Definition usage_CpuRead : Z := Z.shiftl 1 4.
Definition usage_CpuWrite : Z := Z.shiftl 1 5.
Definition usage_GpuSampled : Z := Z.shiftl 1 6.
Definition usage_GpuStorage : Z := Z.shiftl 1 7.
Definition usage_NpuInput : Z := Z.shiftl 1 8.
Definition usage_NpuOutput : Z := Z.shiftl 1 9.

Definition usage_or (lhs rhs : Z) : Z := Z.lor lhs rhs.
Definition usage_and (lhs rhs : Z) : Z := Z.land lhs rhs.
Definition has_usage (usage flag : Z) : bool := negb (usage_and usage flag =? 0).

(** ** Metadata records *)

Record CFADescriptor : Type := mkCFA { repeat : list Z; pattern : list Z }.
(** [CFADescriptor{}]: a 2x2 repeat and a zero pattern of 16 entries. *)
Definition default_cfa : CFADescriptor := mkCFA [2; 2] (replicate 16 0).

Abbreviation Matrix3 := (list float32).

Record CalibrationBlock : Type := mkCalibration {
  cfa : option CFADescriptor;
  black_level : list float32;
  white_level : Z;
  linearization_table : option (list Z);
  color_matrix1 : option Matrix3;
  color_matrix2 : option Matrix3;
  forward_matrix1 : option Matrix3;
  forward_matrix2 : option Matrix3;
  camera_calibration1 : option Matrix3;
  camera_calibration2 : option Matrix3;
  calibration_illuminant1 : Z;
  calibration_illuminant2 : Z;
  noise_profile : list (float32 * float32);
  lens_distortion : list float32;
  lens_intrinsic : list float32
}.

Definition default_calibration : CalibrationBlock :=
  mkCalibration None (replicate 4 f_zero) 0 None None None None None None None 0 0 []
    (replicate 5 f_zero) (replicate 5 f_zero).

Definition calibration_with_cfa (c : CalibrationBlock) (d : option CFADescriptor) : CalibrationBlock :=
  mkCalibration d (black_level c) (white_level c) (linearization_table c) (color_matrix1 c)
    (color_matrix2 c) (forward_matrix1 c) (forward_matrix2 c) (camera_calibration1 c)
    (camera_calibration2 c) (calibration_illuminant1 c) (calibration_illuminant2 c)
    (noise_profile c) (lens_distortion c) (lens_intrinsic c).

Record CaptureBlock : Type := mkCapture {
  sensor_timestamp_ns : Z;
  exposure_time_ns : Z;
  iso : Z;
  lens_focal_length_mm : float32;
  lens_aperture : float32;
  lens_focus_distance_d : float32;
  as_shot_neutral : list float32;
  orientation : Z;
  camera_id : string;
  physical_camera_id : string;
  burst_index : Z;
  burst_size : Z
}.

Definition default_capture : CaptureBlock :=
  mkCapture 0 0 0 f_zero f_zero f_zero (replicate 3 f32_one) 1 "" "" 0 1.

Definition capture_with_neutral (c : CaptureBlock) (n : list float32) : CaptureBlock :=
  mkCapture (sensor_timestamp_ns c) (exposure_time_ns c) (iso c) (lens_focal_length_mm c)
    (lens_aperture c) (lens_focus_distance_d c) n (orientation c) (camera_id c)
    (physical_camera_id c) (burst_index c) (burst_size c).

Definition capture_with_orientation (c : CaptureBlock) (o : Z) : CaptureBlock :=
  mkCapture (sensor_timestamp_ns c) (exposure_time_ns c) (iso c) (lens_focal_length_mm c)
    (lens_aperture c) (lens_focus_distance_d c) (as_shot_neutral c) o (camera_id c)
    (physical_camera_id c) (burst_index c) (burst_size c).

Inductive QuantScheme : Type := QuantNone | QuantSymmetric | QuantAsymmetric.

Record TensorQuant : Type := mkQuant {
  scheme : QuantScheme;
  axis : option Z;
  scales : list float32;
  zero_points : list Z
}.
Definition default_quant : TensorQuant := mkQuant QuantNone None [] [].

Record Rect2u : Type := mkRect { rect_x : Z; rect_y : Z; rect_width : Z; rect_height : Z }.

Record MasteringDisplay : Type := mkMdcv {
  red_primary : list float32; green_primary : list float32; blue_primary : list float32;
  white_point : list float32; min_luminance : float32; max_luminance : float32
}.
Record ContentLightLevel : Type := mkClli { max_cll : Z; max_fall : Z }.
Record UltraHdrGainMapMeta : Type := mkUltraHdr {
  min_content_boost : float32; max_content_boost : float32; gamma : float32;
  offset_sdr : float32; offset_hdr : float32
}.

(** [std::map<std::string, ...>] is keyed by string; its iteration order is the
    key order. *)
Record BufferMetadata : Type := mkMetadata {
  schema_version : Z;
  calibration : option CalibrationBlock;
  capture : CaptureBlock;
  applied_steps : list string;
  cs_role : string;
  active_area : option Rect2u;
  exif_blob : option bytes;
  xmp_blob : option bytes;
  icc_blob : option bytes;
  mdcv : option MasteringDisplay;
  clli : option ContentLightLevel;
  ultrahdr : option UltraHdrGainMapMeta;
  tensor_quant : TensorQuant;
  ext_blobs : gmap string bytes
}.

Definition default_metadata : BufferMetadata :=
  mkMetadata 1 None default_capture [] "undefined" None None None None None None None
    default_quant ∅.

(** ** The metadata builder *)

Record MetadataBuilder : Type := mkBuilder {
  metadata_ : BufferMetadata;
  frozen_ : option BufferMetadata
}.

(** [MetadataBuilder(base)]: a copy of the base metadata, when there is one. *)
Definition make_builder (base : option BufferMetadata) : MetadataBuilder :=
  mkBuilder (default default_metadata base) None.

Definition is_frozen (b : MetadataBuilder) : bool := bool_decide (is_Some (frozen_ b)).

Definition freeze (b : MetadataBuilder) : BufferMetadata * MetadataBuilder :=
  match frozen_ b with
  | Some m => (m, b)
  | None => (metadata_ b, mkBuilder (metadata_ b) (Some (metadata_ b)))
  end.

Definition ensure_mutable (b : MetadataBuilder) : res unit :=
  if is_frozen b then Thrown logic_error else Ok tt.

(** Every setter checks [ensure_mutable] and then changes the metadata. *)
Definition mutate (f : BufferMetadata → BufferMetadata) (b : MetadataBuilder) : res MetadataBuilder :=
  _ ← ensure_mutable b; Ok (mkBuilder (f (metadata_ b)) (frozen_ b)).

Definition set_calibration (c : option CalibrationBlock) : MetadataBuilder → res MetadataBuilder :=
  mutate (λ m, mkMetadata (schema_version m) c (capture m) (applied_steps m) (cs_role m)
    (active_area m) (exif_blob m) (xmp_blob m) (icc_blob m) (mdcv m) (clli m) (ultrahdr m)
    (tensor_quant m) (ext_blobs m)).

Definition clear_calibration : MetadataBuilder → res MetadataBuilder := set_calibration None.

Definition set_capture (c : CaptureBlock) : MetadataBuilder → res MetadataBuilder :=
  mutate (λ m, mkMetadata (schema_version m) (calibration m) c (applied_steps m) (cs_role m)
    (active_area m) (exif_blob m) (xmp_blob m) (icc_blob m) (mdcv m) (clli m) (ultrahdr m)
    (tensor_quant m) (ext_blobs m)).

Definition set_as_shot_neutral (n : list float32) (b : MetadataBuilder) : res MetadataBuilder :=
  set_capture (capture_with_neutral (capture (metadata_ b)) n) b.

Definition set_orientation (o : Z) (b : MetadataBuilder) : res MetadataBuilder :=
  set_capture (capture_with_orientation (capture (metadata_ b)) o) b.

Definition set_cs_role (role : string) : MetadataBuilder → res MetadataBuilder :=
  mutate (λ m, mkMetadata (schema_version m) (calibration m) (capture m) (applied_steps m) role
    (active_area m) (exif_blob m) (xmp_blob m) (icc_blob m) (mdcv m) (clli m) (ultrahdr m)
    (tensor_quant m) (ext_blobs m)).

Definition set_active_area (area : option Rect2u) : MetadataBuilder → res MetadataBuilder :=
  mutate (λ m, mkMetadata (schema_version m) (calibration m) (capture m) (applied_steps m)
    (cs_role m) area (exif_blob m) (xmp_blob m) (icc_blob m) (mdcv m) (clli m) (ultrahdr m)
    (tensor_quant m) (ext_blobs m)).

Definition clear_cfa (b : MetadataBuilder) : res MetadataBuilder :=
  _ ← ensure_mutable b;
  match calibration (metadata_ b) with
  | None => Ok b
  | Some c => set_calibration (Some (calibration_with_cfa c None)) b
  end.

Definition set_cfa (d : CFADescriptor) (b : MetadataBuilder) : res MetadataBuilder :=
  _ ← ensure_mutable b;
  set_calibration (Some (calibration_with_cfa
    (default default_calibration (calibration (metadata_ b))) (Some d))) b.

Definition set_steps (f : list string → list string) : MetadataBuilder → res MetadataBuilder :=
  mutate (λ m, mkMetadata (schema_version m) (calibration m) (capture m) (f (applied_steps m))
    (cs_role m) (active_area m) (exif_blob m) (xmp_blob m) (icc_blob m) (mdcv m) (clli m)
    (ultrahdr m) (tensor_quant m) (ext_blobs m)).

Definition add_applied_step (step : string) : MetadataBuilder → res MetadataBuilder :=
  set_steps (λ l, l ++ [step]).

(** [std::erase] removes every occurrence. *)
Definition remove_applied_step (step : string) : MetadataBuilder → res MetadataBuilder :=
  set_steps (filter (λ s, s ≠ step)).

Definition set_exif_blob (blob : option bytes) : MetadataBuilder → res MetadataBuilder :=
  mutate (λ m, mkMetadata (schema_version m) (calibration m) (capture m) (applied_steps m)
    (cs_role m) (active_area m) blob (xmp_blob m) (icc_blob m) (mdcv m) (clli m) (ultrahdr m)
    (tensor_quant m) (ext_blobs m)).

Definition set_xmp_blob (blob : option bytes) : MetadataBuilder → res MetadataBuilder :=
  mutate (λ m, mkMetadata (schema_version m) (calibration m) (capture m) (applied_steps m)
    (cs_role m) (active_area m) (exif_blob m) blob (icc_blob m) (mdcv m) (clli m) (ultrahdr m)
    (tensor_quant m) (ext_blobs m)).

Definition set_icc_blob (blob : option bytes) : MetadataBuilder → res MetadataBuilder :=
  mutate (λ m, mkMetadata (schema_version m) (calibration m) (capture m) (applied_steps m)
    (cs_role m) (active_area m) (exif_blob m) (xmp_blob m) blob (mdcv m) (clli m) (ultrahdr m)
    (tensor_quant m) (ext_blobs m)).

Definition set_blob (key : string) (blob : option bytes) : MetadataBuilder → res MetadataBuilder :=
  mutate (λ m, mkMetadata (schema_version m) (calibration m) (capture m) (applied_steps m)
    (cs_role m) (active_area m) (exif_blob m) (xmp_blob m) (icc_blob m) (mdcv m) (clli m)
    (ultrahdr m) (tensor_quant m)
    (match blob with None => delete key (ext_blobs m) | Some b => <[key := b]> (ext_blobs m) end)).

Definition set_tensor_quant (q : TensorQuant) : MetadataBuilder → res MetadataBuilder :=
  mutate (λ m, mkMetadata (schema_version m) (calibration m) (capture m) (applied_steps m)
    (cs_role m) (active_area m) (exif_blob m) (xmp_blob m) (icc_blob m) (mdcv m) (clli m)
    (ultrahdr m) q (ext_blobs m)).

(** ** CPU buffers *)

Inductive CpuAccess : Type := AccessRead | AccessWrite | AccessReadWrite.

#[export] Instance CpuAccess_eq_dec : EqDecision CpuAccess.
Proof. solve_decision. Defined.

(** [cb_data] is the allocation: [None] is the null pointer of an empty buffer. *)
Record CpuBuffer : Type := mkCpuBuffer {
  cb_layout : BufferLayout;
  cb_usage : Z;
  cb_color_role : string;
  cb_metadata : option BufferMetadata;
  cb_data : option bytes;
  cb_size_bytes : Z;
  cb_locked : bool
}.

(** The constructor; [alloc] is [posix_memalign], whose fresh memory has
    unspecified contents and which fails by returning [None]. *)
Definition make_cpu_buffer (alloc : Z → option bytes) (l : BufferLayout) (usage : Z)
    (color_role : string) : res CpuBuffer :=
  let sz := size_bytes l in
  let md := if bool_decide (color_role = "") then default_metadata else
    mkMetadata 1 None default_capture [] color_role None None None None None None None
      default_quant ∅ in
  if sz =? 0 then Ok (mkCpuBuffer l usage color_role (Some md) None sz false) else
  match alloc sz with
  | None => Thrown aborted
  | Some d => Ok (mkCpuBuffer l usage color_role (Some md) (Some d) sz false)
  end.

Definition buffer_with_metadata (b : CpuBuffer) (m : option BufferMetadata) : CpuBuffer :=
  mkCpuBuffer (cb_layout b) (cb_usage b) (cb_color_role b) m (cb_data b) (cb_size_bytes b)
    (cb_locked b).

Definition buffer_with_lock (b : CpuBuffer) (locked : bool) : CpuBuffer :=
  mkCpuBuffer (cb_layout b) (cb_usage b) (cb_color_role b) (cb_metadata b) (cb_data b)
    (cb_size_bytes b) locked.

Definition cassert (c : bool) : res unit := if c then Ok tt else Thrown aborted.

Definition lock_cpu (access : CpuAccess) (b : CpuBuffer) : res (option bytes * CpuBuffer) :=
  _ ← cassert (negb (cb_locked b));
  _ ← match access with
      | AccessRead => cassert (has_usage (cb_usage b) usage_CpuRead)
      | AccessWrite => cassert (has_usage (cb_usage b) usage_CpuWrite)
      | AccessReadWrite =>
          _ ← cassert (has_usage (cb_usage b) usage_CpuRead);
          cassert (has_usage (cb_usage b) usage_CpuWrite)
      end;
  Ok (cb_data b, buffer_with_lock b true).

Definition unlock_cpu (b : CpuBuffer) : res CpuBuffer :=
  _ ← cassert (cb_locked b); Ok (buffer_with_lock b false).

(** ** Sequences of builder and buffer operations *)

Inductive builder_op : Type :=
| OpSetCalibration (c : option CalibrationBlock)
| OpClearCalibration
| OpSetCapture (c : CaptureBlock)
| OpSetAsShotNeutral (n : list float32)
| OpSetOrientation (o : Z)
| OpSetCsRole (role : string)
| OpSetActiveArea (area : option Rect2u)
| OpClearCfa
| OpSetCfa (d : CFADescriptor)
| OpAddStep (step : string)
| OpRemoveStep (step : string)
| OpSetExif (blob : option bytes)
| OpSetXmp (blob : option bytes)
| OpSetIcc (blob : option bytes)
| OpSetBlob (key : string) (blob : option bytes)
| OpSetTensorQuant (q : TensorQuant).

Definition apply_op (b : MetadataBuilder) (op : builder_op) : res MetadataBuilder :=
  match op with
  | OpSetCalibration c => set_calibration c b
  | OpClearCalibration => clear_calibration b
  | OpSetCapture c => set_capture c b
  | OpSetAsShotNeutral n => set_as_shot_neutral n b
  | OpSetOrientation o => set_orientation o b
  | OpSetCsRole r => set_cs_role r b
  | OpSetActiveArea a => set_active_area a b
  | OpClearCfa => clear_cfa b
  | OpSetCfa d => set_cfa d b
  | OpAddStep s => add_applied_step s b
  | OpRemoveStep s => remove_applied_step s b
  | OpSetExif x => set_exif_blob x b
  | OpSetXmp x => set_xmp_blob x b
  | OpSetIcc x => set_icc_blob x b
  | OpSetBlob k x => set_blob k x b
  | OpSetTensorQuant q => set_tensor_quant q b
  end.

(** What a history of operations says about an applied step: the last addition
    or removal of the step decides. *)
Fixpoint step_present (step : string) (initially : bool) (ops : list builder_op) : bool :=
  match ops with
  | [] => initially
  | OpAddStep s :: ops' => step_present step (bool_decide (s = step) || initially) ops'
  | OpRemoveStep s :: ops' => step_present step (negb (bool_decide (s = step)) && initially) ops'
  | _ :: ops' => step_present step initially ops'
  end.

Inductive lock_op : Type := OpLock (access : CpuAccess) | OpUnlock.

Definition apply_lock_op (b : CpuBuffer) (op : lock_op) : res CpuBuffer :=
  match op with
  | OpLock a => '(_, b') ← lock_cpu a b; Ok b'
  | OpUnlock => unlock_cpu b
  end.

(** Locks and unlocks alternate, starting from the given lock state. *)
Fixpoint alternates (locked : bool) (ops : list lock_op) : bool :=
  match ops with
  | [] => true
  | OpLock _ :: ops' => negb locked && alternates true ops'
  | OpUnlock :: ops' => locked && alternates false ops'
  end.

(** ** Lemmas *)

Lemma foldl_u64_mul l : ∀ e, u64 (foldl (λ t d, u64 (t * d)) e l) = u64 (e * foldr Z.mul 1 l).
Proof.
  induction l as [|d l IH]; intros e; cbn [foldl foldr]; [by rewrite Z.mul_1_r|].
  rewrite IH. unfold u64, wrap. rewrite Z.mul_mod_idemp_l by done. f_equal. lia.
Qed.

Lemma foldl_u64_range l e : is_u 64 e → is_u 64 (foldl (λ t d, u64 (t * d)) e l).
Proof. revert e. induction l as [|d l IH]; intros e He; [done|]. apply IH. by apply wrap_bound. Qed.

Lemma bytes_per_pixel_bound f : 0 ≤ bytes_per_pixel f ≤ 16.
Proof. by destruct f. Qed.

(** The size of a layout without strides. *)
Lemma size_bytes_dense (l : BufferLayout) :
  kind l ≠ Blob → 1 ≤ ndim l ≤ 8 → Forall (λ s, s = 0) (stride l) →
  size_bytes l
  = u64 (bytes_per_pixel (format l) * foldr Z.mul 1 (take (Z.to_nat (ndim l)) (dims l))).
Proof.
  intros Hk Hn Hs. pose proof (bytes_per_pixel_bound (format l)) as Hb.
  unfold size_bytes. rewrite decide_False by done.
  rewrite (proj2 (Z.eqb_neq (ndim l) 0)), (proj2 (Z.ltb_ge 8 (ndim l))) by lia. simpl.
  destruct (bytes_per_pixel (format l) =? 0) eqn:E0.
  { apply Z.eqb_eq in E0. by rewrite E0. }
  assert (nth8 (stride l) (ndim l - 1) = 0) as ->.
  { unfold nth8. destruct (stride l !! _) eqn:Hl; [|done].
    by eapply Forall_lookup_1 in Hl; [|exact Hs]. }
  simpl. rewrite <-foldl_u64_mul. symmetry. apply u64_small.
  apply (foldl_u64_range (take (Z.to_nat (ndim l)) (dims l))). unfold is_u. lia.
Qed.

Lemma ensure_mutable_unfrozen b : frozen_ b = None → ensure_mutable b = Ok tt.
Proof. intros H. unfold ensure_mutable, is_frozen. by rewrite H. Qed.

Lemma mutate_unfrozen f b :
  frozen_ b = None → mutate f b = Ok (mkBuilder (f (metadata_ b)) None).
Proof. intros H. unfold mutate. by rewrite ensure_mutable_unfrozen, Ok_bind, H. Qed.

Lemma mutate_frozen f b : is_frozen b = true → mutate f b = Thrown logic_error.
Proof. intros H. unfold mutate, ensure_mutable. by rewrite H. Qed.

Lemma freeze_frozen b : is_frozen (freeze b).2 = true.
Proof. unfold freeze, is_frozen. destruct (frozen_ b) eqn:E; simpl; by rewrite ?E. Qed.

Lemma apply_op_frozen b op : is_frozen b = true → apply_op b op = Thrown logic_error.
Proof.
  intros H. destruct op; simpl;
    unfold clear_calibration, set_as_shot_neutral, set_orientation, clear_cfa, set_cfa,
      set_calibration, set_capture, set_cs_role, set_active_area, add_applied_step,
      remove_applied_step, set_steps, set_exif_blob, set_xmp_blob, set_icc_blob, set_blob,
      set_tensor_quant;
    first [by apply mutate_frozen | unfold ensure_mutable; by rewrite H].
Qed.

(** On a mutable builder every operation succeeds, leaves it mutable, and only
    the step operations touch the applied steps. *)
Lemma apply_op_unfrozen b op :
  frozen_ b = None →
  ∃ m, apply_op b op = Ok (mkBuilder m None) ∧
    applied_steps m =
      match op with
      | OpAddStep s => applied_steps (metadata_ b) ++ [s]
      | OpRemoveStep s => filter (λ x, x ≠ s) (applied_steps (metadata_ b))
      | _ => applied_steps (metadata_ b)
      end.
Proof.
  intros H. destruct op; simpl;
    unfold clear_calibration, set_as_shot_neutral, set_orientation, clear_cfa, set_cfa,
      set_calibration, set_capture, set_cs_role, set_active_area, add_applied_step,
      remove_applied_step, set_steps, set_exif_blob, set_xmp_blob, set_icc_blob, set_blob,
      set_tensor_quant;
    rewrite ?ensure_mutable_unfrozen, ?Ok_bind, ?mutate_unfrozen by done; eauto.
  destruct (calibration (metadata_ b)); rewrite ?mutate_unfrozen by done; [eauto|].
  exists (metadata_ b). destruct b; simpl in *; by subst.
Qed.

Lemma apply_ops_steps ops : ∀ b,
  frozen_ b = None →
  ∃ b', foldM apply_op b ops = Ok b' ∧ frozen_ b' = None ∧
    ∀ s, bool_decide (s ∈ applied_steps (metadata_ b'))
      = step_present s (bool_decide (s ∈ applied_steps (metadata_ b))) ops.
Proof.
  induction ops as [|op ops IH]; intros b Hb; [by exists b|].
  destruct (apply_op_unfrozen b op Hb) as (m & Hm & Hs). simpl foldM. rewrite Hm, Ok_bind.
  destruct (IH (mkBuilder m None) eq_refl) as (b' & -> & Hf & Hall). exists b'.
  split_and!; [done..|]. intros s. rewrite Hall. simpl metadata_. rewrite Hs.
  destruct op; try done; simpl step_present; f_equal.
  - rewrite <-bool_decide_or. apply bool_decide_ext. set_solver.
  - rewrite <-bool_decide_not, <-bool_decide_and. apply bool_decide_ext.
    rewrite list_elem_of_filter. naive_solver.
Qed.

(** ** Theorems *)

(** the size of an unstrided layout is the product of its extents and its
    pixel size modulo 2^64, and therefore exact for every two-dimensional image
    of at most 2^60 pixels. *)
Theorem size_bytes_product (l : BufferLayout) :
  kind l ≠ Blob → 1 ≤ ndim l ≤ 8 → Forall (λ s, s = 0) (stride l) →
  let extent := foldr Z.mul 1 (take (Z.to_nat (ndim l)) (dims l)) in
  size_bytes l = u64 (bytes_per_pixel (format l) * extent) ∧
  (0 ≤ extent ≤ 2 ^ 60 - 1 → size_bytes l = bytes_per_pixel (format l) * extent).
Proof.
  intros Hk Hn Hs extent. pose proof (bytes_per_pixel_bound (format l)) as Hb.
  pose proof (size_bytes_dense l Hk Hn Hs) as E. split; [done|].
  intros He. rewrite E. apply u64_small. fold extent. nia.
Qed.

(** a frozen metadata builder is immutable: once [freeze] has returned a
    snapshot, every mutator throws [std::logic_error] and every later [freeze]
    returns the same snapshot. *)
Theorem freeze_immutable (b : MetadataBuilder) (op : builder_op) :
  apply_op (freeze b).2 op = Thrown logic_error ∧
  freeze (freeze b).2 = freeze b ∧
  (frozen_ b = None → (freeze b).1 = metadata_ b).
Proof.
  split_and!.
  - apply apply_op_frozen, freeze_frozen.
  - unfold freeze. destruct (frozen_ b) eqn:E; simpl; by rewrite ?E.
  - intros H. unfold freeze. by rewrite H.
Qed.

(** on a mutable builder any sequence of operations succeeds, and a step is
    recorded as applied exactly when the last addition or removal of it was an
    addition (or it was inherited from the base metadata and never removed). *)
Theorem applied_steps_history (base : option BufferMetadata) (ops : list builder_op) :
  ∃ b, foldM apply_op (make_builder base) ops = Ok b ∧
    ∀ s, s ∈ applied_steps (freeze b).1 ↔
      step_present s (bool_decide (s ∈ applied_steps (default default_metadata base))) ops = true.
Proof.
  destruct (apply_ops_steps ops (make_builder base) eq_refl) as (b & Hb & Hf & Hs).
  exists b. split; [done|]. intros s. rewrite <-Hs. unfold freeze. rewrite Hf. simpl.
  by rewrite bool_decide_eq_true.
Qed.

(** the lock of a CPU buffer that allows reads and writes accepts a sequence
    of lock and unlock calls exactly when they alternate; otherwise an assertion
    stops the program. *)
Theorem lock_protocol (b : CpuBuffer) (ops : list lock_op) :
  has_usage (cb_usage b) usage_CpuRead = true → has_usage (cb_usage b) usage_CpuWrite = true →
  (alternates (cb_locked b) ops = true → ∃ b', foldM apply_lock_op b ops = Ok b') ∧
  (alternates (cb_locked b) ops = false → foldM apply_lock_op b ops = Thrown aborted).
Proof.
  intros Hr Hw. revert b Hr Hw. induction ops as [|op ops IH]; intros b Hr Hw; [split; [eauto|done]|].
  assert (∀ l, has_usage (cb_usage (buffer_with_lock b l)) usage_CpuRead = true) as Hr' by done.
  assert (∀ l, has_usage (cb_usage (buffer_with_lock b l)) usage_CpuWrite = true) as Hw' by done.
  destruct op as [a|]; simpl; unfold lock_cpu, unlock_cpu; destruct (cb_locked b) eqn:El;
    rewrite ?Hr, ?Hw; simpl; try (by split); try (destruct a; simpl; apply (IH _ (Hr' _) (Hw' _))).
  apply (IH _ (Hr' _) (Hw' _)).
Qed.

(** ** Witnesses *)

Definition example_layout : BufferLayout :=
  mkLayout Image2D R16G16B16A16_SFLOAT 2 [64; 48; 0; 0; 0; 0; 0; 0] zeros8.

Lemma size_bytes_product_witness : size_bytes example_layout = 8 * (64 * (48 * 1)).
Proof.
  apply (size_bytes_product example_layout); [done|done| |done].
  repeat constructor.
Defined.

Definition example_buffer : CpuBuffer :=
  mkCpuBuffer example_layout (usage_or usage_CpuRead usage_CpuWrite) "" None None 24576 false.

Lemma lock_protocol_witness :
  foldM apply_lock_op example_buffer [OpLock AccessRead; OpLock AccessWrite] = Thrown aborted.
Proof. apply (lock_protocol example_buffer [OpLock AccessRead; OpLock AccessWrite]); done. Defined.
