(* ===== verification/Topo.v ===== *)
(** * Kahn's algorithm as the runtime uses it

    The runtime sorts a node graph topologically in three places with the same
    queue-driven loop: [topological_order] of
    src/cpipe/runtime/MemoryPlanner.cpp and, twice, [Pipeline::load] of
    src/cpipe/runtime/Pipeline.cpp.  This file models the loop once: adjacency
    lists and an in-degree vector filled edge by edge, a ready queue seeded with
    the nodes of in-degree zero, and the decrement-and-push step, with in-degrees
    as wrapping 64-bit [std::size_t] values.

    The theorems of the components rest on [kahn_spec]: the loop terminates
    within one iteration per node, outputs every node at most once with all its
    predecessors before it, and outputs all nodes exactly when the graph has no
    cycle. *)

From Stdlib Require Import ZArith Lia.
From stdpp Require Import prelude list relations sets.
From S2P Require Import Prelude.

(** An edge [from, to] of node indices. *)
Abbreviation edges_t := (list (nat * nat)).

Abbreviation adjacency_t := (list (list nat)).

(** [adjacency[from].push_back(to); ++indegree[to];] *)
Definition add_edge (g : adjacency_t * list Z) (e : nat * nat) : adjacency_t * list Z :=
  (alter (λ l, l ++ [e.2]) e.1 g.1, alter (λ d, u64 (d + 1)) e.2 g.2).

Definition empty_graph (n : nat) : adjacency_t * list Z := (replicate n [], replicate n 0%Z).

(** The nodes of in-degree zero, in index order. *)
Definition initial_ready (indegree : list Z) : list nat :=
  filter (λ i, indegree !! i = Some 0%Z) (seq 0 (length indegree)).

(** The body of [for (next : adjacency[node])]. *)
Fixpoint relax (nexts : list nat) (indegree : list Z) (ready : list nat)
    : list Z * list nat :=
  match nexts with
  | [] => (indegree, ready)
  | v :: nexts' =>
      let indegree := alter (λ d, u64 (d - 1)) v indegree in
      let ready := if decide (indegree !! v = Some 0%Z) then ready ++ [v] else ready in
      relax nexts' indegree ready
  end.

(** [while (!ready.empty())]; [None] when the fuel runs out. *)
Fixpoint kahn_loop (fuel : nat) (adjacency : adjacency_t) (indegree : list Z)
    (ready order : list nat) : option (list nat) :=
  match ready with
  | [] => Some order
  | node :: ready' =>
      match fuel with
      | O => None
      | S fuel' =>
          let '(indegree, ready) :=
            relax (default [] (adjacency !! node)) indegree ready' in
          kahn_loop fuel' adjacency indegree ready (order ++ [node])
      end
  end.

(** The whole computation on a filled graph of [n] nodes; [n] units of fuel. *)
Definition kahn (n : nat) (g : adjacency_t * list Z) : option (list nat) :=
  kahn_loop n g.1 g.2 (initial_ready g.2) [].

(** ** Specification vocabulary *)

Definition edge_rel (es : edges_t) (u v : nat) : Prop := (u, v) ∈ es.

Definition acyclic (es : edges_t) : Prop := ∀ v, ¬ tc (edge_rel es) v v.

Definition in_range (n : nat) (e : nat * nat) : Prop := e.1 < n ∧ e.2 < n.

(** Every node of [order] comes after its predecessors. *)
Definition respects (es : edges_t) (order : list nat) : Prop :=
  ∀ l1 v l2, order = l1 ++ v :: l2 → ∀ u, (u, v) ∈ es → u ∈ l1.

Definition occ (v : nat) (l : list nat) : Z := len (filter (λ w, w = v) l).

(** Edges into [v] from nodes outside [S]: what the in-degree vector counts. *)
Definition pending (es : edges_t) (S : list nat) (v : nat) : Z :=
  len (filter (λ e : nat * nat, e.2 = v ∧ e.1 ∉ S) es).

Definition targets (es : edges_t) (u : nat) : list nat :=
  (filter (λ e : nat * nat, e.1 = u) es).*2.

(** ** Counting lemmas *)

Lemma occ_nil v : occ v [] = 0%Z.
Proof. done. Qed.

Lemma occ_cons v w l : occ v (w :: l) = ((if decide (w = v) then 1 else 0) + occ v l)%Z.
Proof. unfold occ. rewrite filter_cons. case_decide; [by rewrite len_cons|lia]. Qed.

Lemma occ_nonneg v l : (0 ≤ occ v l)%Z.
Proof. apply len_nonneg. Qed.

Lemma occ_zero v l : occ v l = 0%Z ↔ v ∉ l.
Proof.
  induction l as [|w l IH]; [by rewrite occ_nil; set_solver|].
  rewrite occ_cons. pose proof (occ_nonneg v l). case_decide; rewrite elem_of_cons; naive_solver lia.
Qed.

Lemma pending_cons e es S v :
  pending (e :: es) S v
  = ((if decide (e.2 = v ∧ e.1 ∉ S) then 1 else 0) + pending es S v)%Z.
Proof. unfold pending. rewrite filter_cons. case_decide; [by rewrite len_cons|lia]. Qed.

Lemma pending_nonneg es S v : (0 ≤ pending es S v)%Z.
Proof. apply len_nonneg. Qed.

Lemma pending_le_len es S v : (pending es S v ≤ len es)%Z.
Proof. unfold pending, len. pose proof (length_filter (λ e : nat * nat, e.2 = v ∧ e.1 ∉ S) es). lia. Qed.

Lemma pending_zero es S v : pending es S v = 0%Z ↔ ∀ u, (u, v) ∈ es → u ∈ S.
Proof.
  induction es as [|[u w] es IH].
  - split; [set_solver|done].
  - rewrite pending_cons. simpl. pose proof (pending_nonneg es S v).
    case_decide as Hd; split; intros Hz.
    + lia.
    + destruct Hd as [-> Hu]. destruct Hu. apply Hz. left.
    + intros x [Hx|Hx]%elem_of_cons; [|by apply IH; [lia|]]. simplify_eq.
      destruct (decide (u ∈ S)); [done|]. destruct Hd; done.
    + assert (pending es S v = 0%Z) as ->; [|done]. apply IH. set_solver.
Qed.

(** Finishing a node [u] removes its outgoing edges from every count. *)
Lemma pending_snoc es S u v :
  u ∉ S → pending es (S ++ [u]) v = (pending es S v - occ v (targets es u))%Z.
Proof.
  intros Hu. induction es as [|[x w] es IH]; [done|].
  rewrite !pending_cons, IH. unfold targets. rewrite filter_cons. cbn [fst snd].
  destruct (decide (x = u)) as [->|Hne].
  - rewrite fmap_cons, occ_cons. cbn [snd].
    rewrite (decide_False (P := w = v ∧ u ∉ S ++ [u])) by set_solver.
    destruct (decide (w = v)) as [->|].
    + rewrite !decide_True by done. lia.
    + rewrite !decide_False by tauto. lia.
  - rewrite (decide_ext (w = v ∧ x ∉ S ++ [u]) (w = v ∧ x ∉ S)) by set_solver. lia.
Qed.

Lemma elem_of_targets es u v : v ∈ targets es u ↔ (u, v) ∈ es.
Proof.
  unfold targets. rewrite list_elem_of_fmap. setoid_rewrite list_elem_of_filter.
  split; [intros ([x y] & -> & <- & ?); done|]. intros. by exists (u, v).
Qed.

(** ** Building the graph *)

Definition graph_of (n : nat) (es : edges_t) : adjacency_t * list Z :=
  foldl add_edge (empty_graph n) es.

Lemma add_edge_length g e :
  length (add_edge g e).1 = length g.1 ∧ length (add_edge g e).2 = length g.2.
Proof. unfold add_edge. simpl. by rewrite !length_alter. Qed.

(** The filled vectors: adjacency lists in edge order, exact in-degrees. *)
Lemma graph_of_spec n es :
  Forall (in_range n) es → (len es < 2 ^ 64)%Z →
  length (graph_of n es).1 = n ∧ length (graph_of n es).2 = n ∧
  (∀ u, u < n → (graph_of n es).1 !! u = Some (targets es u)) ∧
  (∀ v, v < n → (graph_of n es).2 !! v = Some (pending es [] v)).
Proof.
  induction es as [|e es IH] using rev_ind; intros Hr Hlen.
  - simpl. rewrite !length_replicate. repeat split; intros; by rewrite lookup_replicate_2.
  - apply Forall_app in Hr as [Hr He]. apply Forall_singleton in He as [He1 He2].
    rewrite len_app, len_cons, len_nil in Hlen.
    destruct IH as (L1 & L2 & HA & HI); [done|lia|].
    unfold graph_of in *. rewrite foldl_app. simpl foldl.
    set (g := foldl add_edge (empty_graph n) es) in *.
    destruct (add_edge_length g e) as [-> ->]. split_and!; [done..| |].
    + intros u Hu. unfold add_edge. simpl. rewrite list_lookup_alter.
      unfold targets. rewrite filter_app, filter_cons, filter_nil, fmap_app.
      case_decide as Hd.
      * subst u. rewrite HA by done. done.
      * rewrite HA by done. by rewrite app_nil_r.
    + intros v Hv. unfold add_edge. simpl. rewrite list_lookup_alter.
      assert (pending (es ++ [e]) [] v = pending es [] v + pending [e] [] v)%Z as ->.
      { unfold pending. by rewrite filter_app, len_app. }
      rewrite pending_cons. change (pending [] [] v) with 0%Z.
      pose proof (pending_le_len es [] v). pose proof (pending_nonneg es [] v).
      case_decide as Hd.
      * subst v. rewrite HI by done. rewrite decide_True by (split; [done|set_solver]).
        simpl. rewrite u64_small by lia. done.
      * rewrite HI, decide_False by (done || tauto). f_equal. lia.
Qed.

(** ** The inner loop *)

Lemma relax_spec nexts : ∀ indegree ready,
  (∀ v, v ∈ nexts → ∃ d, indegree !! v = Some d ∧ (occ v nexts ≤ d < 2 ^ 64)%Z) →
  ∃ pushed,
    (relax nexts indegree ready).2 = ready ++ pushed ∧
    length (relax nexts indegree ready).1 = length indegree ∧
    (∀ v, (relax nexts indegree ready).1 !! v = (λ d, d - occ v nexts)%Z <$> indegree !! v) ∧
    NoDup pushed ∧
    (∀ v, v ∈ pushed ↔ v ∈ nexts ∧ indegree !! v = Some (occ v nexts)).
Proof.
  induction nexts as [|w nexts IH]; intros indegree ready Hd.
  { exists []. rewrite app_nil_r. split_and!; [done|done| |constructor|set_solver].
    intros v. simpl. rewrite occ_nil. destruct (indegree !! v); simpl; [|done]. f_equal. lia. }
  destruct (Hd w) as (d & Hw & Hocc); [left|]. rewrite occ_cons, decide_True in Hocc by done.
  pose proof (occ_nonneg w nexts).
  set (ind' := alter (λ d, u64 (d - 1)) w indegree).
  assert (ind' !! w = Some (d - 1)%Z) as Hw'.
  { unfold ind'. rewrite list_lookup_alter_eq, Hw. simpl. rewrite u64_small by lia. done. }
  assert (∀ v, v ≠ w → ind' !! v = indegree !! v) as Hne.
  { intros v ?. unfold ind'. by rewrite list_lookup_alter_ne. }
  cbn [relax]. fold ind'. rewrite (decide_ext _ (d = 1%Z)) by (rewrite Hw'; split; [intros [= ]; lia|intros ->; done]).
  set (ready' := if decide (d = 1%Z) then ready ++ [w] else ready).
  destruct (IH ind' ready') as (pushed & Hp & Hlen & Hind & Hnd & Hin).
  { intros v Hv. destruct (decide (v = w)) as [->|].
    - exists (d - 1)%Z. split; [done|lia].
    - destruct (Hd v) as (x & ? & ?); [by right|].
      rewrite occ_cons, decide_False in * by congruence. rewrite Hne by done. eauto with lia. }
  exists (if decide (d = 1%Z) then w :: pushed else pushed). split_and!.
  - rewrite Hp. unfold ready'. case_decide; [by rewrite <-app_assoc|done].
  - rewrite Hlen. apply length_alter.
  - intros v. rewrite Hind, occ_cons. destruct (decide (v = w)) as [->|].
    + rewrite Hw', Hw, decide_True by done. simpl. f_equal. lia.
    + rewrite Hne, decide_False by congruence. done.
  - case_decide as H1; [|done]. constructor; [|done]. rewrite Hin, Hw'.
    intros [Hwn [= E]]. subst d. assert (occ w nexts = 0%Z) as Hz by lia.
    by apply occ_zero in Hz.
  - intros v. rewrite occ_cons. destruct (decide (v = w)) as [->|Hvw].
    + rewrite (decide_True (P := w = w)) by done. rewrite Hw.
      pose proof (occ_zero w nexts). case_decide as H1; subst.
      * split; [|intros _; left]. intros _. split; [left|]. f_equal. lia.
      * rewrite Hin, Hw'. split; [intros [? [= ?]]; split; [left|f_equal; lia]|].
        intros [_ [= ?]]. split; [|f_equal; lia]. apply dec_stable. rewrite <-occ_zero. lia.
    + rewrite (decide_False (P := w = v)) by congruence. rewrite elem_of_cons.
      case_decide; rewrite ?elem_of_cons, Hin, Hne by done; naive_solver.
Qed.

(** ** The outer loop *)

Record kahn_inv (n : nat) (es : edges_t) (order ready : list nat) (indegree : list Z) : Prop := {
  ki_nodup : NoDup (order ++ ready);
  ki_range : ∀ v, v ∈ order ++ ready → v < n;
  ki_indegree : ∀ v, v < n → indegree !! v = Some (pending es order v);
  ki_ready : ∀ v, v < n → v ∈ order ++ ready ↔ pending es order v = 0%Z;
  ki_respects : respects es order
}.

Lemma kahn_inv_init n es :
  Forall (in_range n) es → (len es < 2 ^ 64)%Z →
  kahn_inv n es [] (initial_ready (graph_of n es).2) (graph_of n es).2.
Proof.
  intros Hr Hlen. destruct (graph_of_spec n es Hr Hlen) as (_ & L2 & _ & HI).
  unfold initial_ready. rewrite L2.
  assert (∀ v, v ∈ filter (λ i, (graph_of n es).2 !! i = Some 0%Z) (seq 0 n)
    ↔ v < n ∧ pending es [] v = 0%Z) as Hin.
  { intros v. rewrite list_elem_of_filter, elem_of_seq. split.
    - intros [Hv ?]. rewrite HI in Hv by lia. split; [lia|congruence].
    - intros [? Hp]. rewrite HI, Hp by lia. split; [done|lia]. }
  split; simpl.
  - apply NoDup_filter, NoDup_seq.
  - intros v. rewrite Hin. tauto.
  - done.
  - intros v. rewrite Hin. tauto.
  - intros [|] v l2 E; discriminate E.
Qed.

Lemma respects_snoc es order node :
  respects es order → (∀ u, (u, node) ∈ es → u ∈ order) → respects es (order ++ [node]).
Proof.
  intros Hr Hn l1 v l2 E u Hu. destruct l2 as [|x l2 _] using rev_ind.
  - apply app_inj_tail in E as [<- <-]. auto.
  - rewrite app_comm_cons, app_assoc in E. apply app_inj_tail in E as [-> _]. by eapply Hr.
Qed.

Lemma kahn_inv_step n es order node ready indegree :
  Forall (in_range n) es → (len es < 2 ^ 64)%Z →
  kahn_inv n es order (node :: ready) indegree →
  kahn_inv n es (order ++ [node])
    (relax (targets es node) indegree ready).2 (relax (targets es node) indegree ready).1.
Proof.
  intros Hr Hlen [Hnd Hlt Hind Hrdy Hresp].
  assert (node ∉ order) as Hno by (apply NoDup_app in Hnd; set_solver).
  assert (node < n) as Hnode by set_solver.
  assert (∀ v, pending es (order ++ [node]) v = (pending es order v - occ v (targets es node))%Z)
    as Hpend by (intros; by apply pending_snoc).
  assert (∀ v, (occ v (targets es node) ≤ pending es order v)%Z) as Hle.
  { intros v. pose proof (pending_nonneg es (order ++ [node]) v). rewrite Hpend in *. lia. }
  assert (∀ v, v ∈ targets es node → v < n) as Htn.
  { intros v Hv%elem_of_targets. rewrite Forall_forall in Hr. apply Hr in Hv. apply Hv. }
  destruct (relax_spec (targets es node) indegree ready) as (pushed & -> & _ & Hi & Hpn & Hpin).
  { intros v Hv. exists (pending es order v). rewrite Hind by auto.
    pose proof (pending_le_len es order v). split; [done|]. specialize (Hle v). lia. }
  assert (∀ v, v ∈ pushed → v ∉ order ++ node :: ready) as Hfresh.
  { intros v Hv Hin. apply Hpin in Hv as [Hv E]. rewrite Hind in E by auto.
    apply Hrdy in Hin; [|by auto]. rewrite Hin in E. injection E as E.
    symmetry in E. apply occ_zero in E. done. }
  split.
  - rewrite <-app_assoc. simpl. rewrite app_comm_cons, app_assoc.
    apply NoDup_app. split_and!; [done| |done]. intros v ??. by eapply Hfresh.
  - intros v. rewrite <-app_assoc. simpl. rewrite app_comm_cons, app_assoc, elem_of_app.
    intros [?|Hv]; [by auto|]. apply Hpin in Hv as [? _]. auto.
  - intros v Hv. rewrite Hi, Hind, Hpend by done. done.
  - intros v Hv. rewrite <-app_assoc. simpl. rewrite app_comm_cons, app_assoc, elem_of_app.
    rewrite Hrdy, Hpin, Hind, Hpend by done. specialize (Hle v).
    pose proof (pending_nonneg es order v). split.
    + intros [E|[_ [= E]]]; [|lia]. pose proof (occ_nonneg v (targets es node)). lia.
    + intros E. destruct (decide (occ v (targets es node) = 0%Z)) as [|Hz]; [left; lia|].
      right. split; [|f_equal; lia]. apply dec_stable. by rewrite <-occ_zero.
  - apply respects_snoc; [done|]. apply pending_zero, Hrdy; set_solver.
Qed.

Lemma kahn_inv_length n es order ready indegree :
  kahn_inv n es order ready indegree → length order + length ready ≤ n.
Proof.
  intros [Hnd Hlt _ _ _]. rewrite <-length_app, <-(length_seq n 0).
  apply submseteq_length, NoDup_submseteq; [done|]. intros v Hv.
  apply elem_of_seq. specialize (Hlt v Hv). lia.
Qed.

Lemma kahn_loop_spec n es fuel : ∀ indegree ready order,
  Forall (in_range n) es → (len es < 2 ^ 64)%Z →
  kahn_inv n es order ready indegree → n ≤ fuel + length order →
  ∃ order' indegree', kahn_loop fuel (graph_of n es).1 indegree ready order = Some order' ∧
    kahn_inv n es order' [] indegree'.
Proof.
  induction fuel as [|fuel IH]; intros indegree ready order Hr Hlen Hinv Hfuel;
    pose proof (kahn_inv_length _ _ _ _ _ Hinv) as Hl.
  - destruct ready; simpl in *; [eauto|lia].
  - destruct ready as [|node ready]; [simpl; eauto|]. cbn [kahn_loop].
    assert (node < n) as Hnode by (eapply ki_range; [done|set_solver]).
    destruct (graph_of_spec n es Hr Hlen) as (_ & _ & HA & _). rewrite HA by done. simpl default.
    pose proof (kahn_inv_step _ _ _ _ _ _ Hr Hlen Hinv) as Hstep.
    destruct (relax (targets es node) indegree ready) as [ind' ready'].
    apply IH; [done..|]. rewrite length_app. simpl in *. lia.
Qed.

(** The loop finishes with the fuel given, and its result is a duplicate-free
    list of nodes in which every node follows its predecessors and which
    contains every node whose predecessors it contains. *)
Lemma kahn_spec n es :
  Forall (in_range n) es → (len es < 2 ^ 64)%Z →
  ∃ order, kahn n (graph_of n es) = Some order ∧ NoDup order ∧
    (∀ v, v ∈ order → v < n) ∧ respects es order ∧
    (∀ v, v < n → v ∉ order → ∃ u, (u, v) ∈ es ∧ u < n ∧ u ∉ order).
Proof.
  intros Hr Hlen. pose proof (kahn_inv_init n es Hr Hlen) as Hinit.
  destruct (kahn_loop_spec n es n _ _ _ Hr Hlen Hinit) as (order & ind' & Hk & Hinv).
  { simpl. lia. }
  exists order. destruct Hinv as [Hnd Hlt Hind Hrdy Hresp]. rewrite app_nil_r in *.
  split_and!; try done. intros v Hv Hno.
  destruct (decide (Forall (λ e : nat * nat, e.2 = v → e.1 ∈ order) es)) as [Hall|Hex].
  - destruct Hno. apply Hrdy; [done|]. apply pending_zero. rewrite Forall_forall in Hall.
    intros u Hu. by apply (Hall _ Hu).
  - apply not_Forall_Exists in Hex; [|apply _].
    apply Exists_exists in Hex as ([u w] & Hu & Hn). simpl in Hn.
    destruct (decide (w = v)) as [->|]; [|naive_solver].
    rewrite Forall_forall in Hr. specialize (Hr _ Hu) as [??]. simpl in *.
    exists u. naive_solver.
Qed.

(** ** Complete orders and cycles *)

(** [u] stands strictly before [v] in [l]. *)
Definition before (l : list nat) (u v : nat) : Prop :=
  ∃ i j, l !! i = Some u ∧ l !! j = Some v ∧ i < j.

Lemma respects_before es order u v :
  respects es order → v ∈ order → (u, v) ∈ es → before order u v.
Proof.
  intros Hr Hv He. apply list_elem_of_split in Hv as (l1 & l2 & ->).
  specialize (Hr l1 v l2 eq_refl u He). apply list_elem_of_lookup in Hr as [i Hi].
  exists i, (length l1). pose proof (lookup_lt_Some _ _ _ Hi).
  split_and!; [by apply lookup_app_l_Some| |done].
  by rewrite lookup_app_r, Nat.sub_diag.
Qed.

Lemma before_trans l u v w : NoDup l → before l u v → before l v w → before l u w.
Proof.
  intros Hnd (i & j & Hi & Hj & ?) (j' & k & Hj' & Hk & ?).
  pose proof (NoDup_lookup _ _ _ _ Hnd Hj Hj'). exists i, k. split_and!; [done..|lia].
Qed.

Lemma before_irrefl l u : NoDup l → ¬ before l u u.
Proof. intros Hnd (i & j & Hi & Hj & ?). pose proof (NoDup_lookup _ _ _ _ Hnd Hi Hj). lia. Qed.

Lemma tc_before es order u v :
  NoDup order → respects es order → (∀ x y, (x, y) ∈ es → y ∈ order) →
  tc (edge_rel es) u v → before order u v.
Proof.
  intros Hnd Hr Hin. induction 1 as [u v Huv|u v w Huv _ IH].
  - eapply respects_before; eauto.
  - eapply before_trans; [done| |done]. eapply respects_before; eauto.
Qed.

Lemma respects_acyclic es order :
  NoDup order → respects es order → (∀ x y, (x, y) ∈ es → y ∈ order) → acyclic es.
Proof. intros Hnd Hr Hin v Hc. by eapply before_irrefl, tc_before. Qed.

Lemma tc_flip_edge es u v : tc (flip (edge_rel es)) u v → tc (edge_rel es) v u.
Proof.
  induction 1 as [u v Huv|u v w Huv _ IH]; [by apply tc_once|].
  eapply tc_r; [exact IH|exact Huv].
Qed.

(** In an acyclic graph a node set closed under "all predecessors are in" is full. *)
Lemma acyclic_closed_full n es (order : list nat) :
  acyclic es → (∀ v, v < n → v ∉ order → ∃ u, (u, v) ∈ es ∧ u < n ∧ u ∉ order) →
  ∀ v, v < n → v ∈ order.
Proof.
  intros Hac Hclosed v Hv.
  assert (sn (flip (edge_rel es)) v) as Hsn.
  { apply tc_finite_sn.
    - intros x Hx. by eapply Hac, tc_flip_edge.
    - exists es.*1. intros x Hx. apply tc_flip_edge in Hx.
      destruct Hx as [x y Hxy|x y z Hxy _]; apply list_elem_of_fmap; by exists (x, y). }
  revert Hv. induction Hsn as [v _ IH]. intros Hv. apply dec_stable. intros Hno.
  destruct (Hclosed v Hv Hno) as (u & Hu & Hun & Hu'). by apply Hu', IH.
Qed.

Lemma full_order_perm n (order : list nat) :
  NoDup order → (∀ v, v ∈ order → v < n) → (∀ v, v < n → v ∈ order) → order ≡ₚ seq 0 n.
Proof.
  intros Hnd Hlt Hall. apply NoDup_Permutation; [done|apply NoDup_seq|].
  intros v. rewrite elem_of_seq. split; [intros ?%Hlt; lia|intros [_ ?]; by apply Hall].
Qed.

Lemma length_full_order n (order : list nat) :
  NoDup order → (∀ v, v ∈ order → v < n) → length order = n → order ≡ₚ seq 0 n.
Proof.
  intros Hnd Hlt Hlen. apply submseteq_length_Permutation.
  - apply NoDup_submseteq; [done|]. intros v ?%Hlt. apply elem_of_seq. lia.
  - rewrite length_seq. lia.
Qed.

(** The result has all [n] nodes exactly when the graph is acyclic; it is then a
    permutation of the nodes. *)
Lemma kahn_complete n es order :
  Forall (in_range n) es → (len es < 2 ^ 64)%Z → kahn n (graph_of n es) = Some order →
  (length order = n ↔ acyclic es) ∧ (length order = n → order ≡ₚ seq 0 n) ∧
  NoDup order ∧ respects es order.
Proof.
  intros Hr Hlen Hk. destruct (kahn_spec n es Hr Hlen) as (o & Ho & Hnd & Hlt & Hresp & Hcl).
  rewrite Hk in Ho. injection Ho as <-.
  assert (length order = n → order ≡ₚ seq 0 n) as Hperm by (by apply length_full_order).
  split_and!; try done. split.
  - intros Hl. eapply respects_acyclic; [done..|]. intros x y He. rewrite (Hperm Hl).
    rewrite Forall_forall in Hr. apply elem_of_seq. specialize (Hr _ He) as [??]. simpl in *. lia.
  - intros Hac. rewrite (full_order_perm n order); [apply length_seq|done|done|].
    by eapply acyclic_closed_full.
Qed.
