(* ===== verification/OpcodeReader.v ===== *)
(** * The big-endian reader of the DNG opcode lists

    OpcodeList2.cpp and OpcodeList3.cpp of src/cpipe/ingest/dng_opcode each
    carry the same [Reader]: a span and an offset, 32- and 64-bit big-endian
    reads that advance it, and a [can_read] test the callers make before they
    read.  A read outside the span is undefined behaviour ([Undef]).  Floating
    point fields are kept as their bit patterns: [std::bit_cast] does not change
    the representation.

    Two compositional judgements carry the proofs of the parsers: [reads m n]
    (the reader program [m] succeeds on any [n] remaining bytes and consumes
    exactly those) and [decodes m bs a] (it turns the bytes [bs] into [a]). *)

From Stdlib Require Import ZArith Lia.
From stdpp Require Import prelude list.
From S2P Require Import Prelude.

Local Open Scope Z_scope.

Record Reader : Type := mkReader { rd_bytes : bytes; rd_offset : Z }.

(** A reader program. *)
Definition Rd (A : Type) : Type := Reader → res (A * Reader).

#[export] Instance Rd_ret : MRet Rd := λ A a r, Ok (a, r).
#[export] Instance Rd_bind : MBind Rd := λ A B f m r, '(a, r') ← m r; f a r'.

Definition can_read (r : Reader) (size : Z) : bool :=
  (rd_offset r <=? len (rd_bytes r)) && (size <=? len (rd_bytes r) - rd_offset r).

Definition advance (r : Reader) (n : Z) : Reader := mkReader (rd_bytes r) (rd_offset r + n).

Definition read_u32 : Rd Z := λ r,
  b0 ← byte_at (rd_bytes r) (rd_offset r);
  b1 ← byte_at (rd_bytes r) (rd_offset r + 1);
  b2 ← byte_at (rd_bytes r) (rd_offset r + 2);
  b3 ← byte_at (rd_bytes r) (rd_offset r + 3);
  Ok (be32 b0 b1 b2 b3, advance r 4).

Definition read_u64 : Rd Z :=
  high ← read_u32;
  low ← read_u32;
  mret (Z.lor (Z.shiftl high 32) low).

(** [std::bit_cast<double>(read_u64())]. *)
Definition read_double : Rd Z := read_u64.

(** [std::bit_cast<float>(read_u32())]. *)
Definition read_float : Rd Z := read_u32.

(** [count] reads into a vector. *)
Fixpoint read_n {A} (count : nat) (m : Rd A) : Rd (list A) :=
  match count with
  | O => mret []
  | S n => x ← m; xs ← read_n n m; mret (x :: xs)
  end.

(** ** Judgements on reader programs *)

(** [m] consumes exactly [n] bytes when that many remain. *)
Definition reads {A} (m : Rd A) (n : Z) (P : A → Prop) : Prop :=
  ∀ r, 0 ≤ rd_offset r → rd_offset r + n ≤ len (rd_bytes r) →
  ∃ a, m r = Ok (a, advance r n) ∧ (bytes_ok (rd_bytes r) → P a).

(** [r] stands before the bytes [bs]. *)
Definition stands_before (r : Reader) (bs : bytes) : Prop :=
  ∃ pre, rd_bytes r = pre ++ bs ∧ rd_offset r = len pre.

Definition decodes {A} (m : Rd A) (bs : bytes) (a : A) : Prop :=
  ∀ r rest, stands_before r (bs ++ rest) → m r = Ok (a, advance r (len bs)).

Definition u64_bytes (v : Z) : bytes := be32_bytes (v / 2 ^ 32) ++ be32_bytes (v `mod` 2 ^ 32).

(** ** Lemmas *)

Lemma can_read_spec r n :
  can_read r n = true ↔ rd_offset r ≤ len (rd_bytes r) ∧ rd_offset r + n ≤ len (rd_bytes r).
Proof. unfold can_read. rewrite andb_true_iff, !Z.leb_le. lia. Qed.

Lemma advance_0 r : advance r 0 = r.
Proof. destruct r. unfold advance. simpl. f_equal. lia. Qed.

Lemma advance_add r n k : advance (advance r n) k = advance r (n + k).
Proof. unfold advance. simpl. f_equal. lia. Qed.

Lemma reads_ret {A} (a : A) (P : A → Prop) : P a → reads (mret a) 0 P.
Proof. intros HP r _ _. exists a. by rewrite advance_0. Qed.

Lemma reads_bind {A B} (m : Rd A) (f : A → Rd B) n k (P : A → Prop) (Q : B → Prop) :
  0 ≤ n → 0 ≤ k → reads m n P → (∀ a, reads (f a) k (λ b, P a → Q b)) → reads (m ≫= f) (n + k) Q.
Proof.
  intros Hn Hk Hm Hf r Hr Hlen. destruct (Hm r) as (a & Ha & HP); [lia..|].
  destruct (Hf a (advance r n)) as (b & Hb & HQ); [simpl; lia..|].
  exists b. unfold mbind, Rd_bind. rewrite Ha, Ok_bind, Hb, advance_add. naive_solver.
Qed.

Lemma reads_weaken {A} (m : Rd A) n (P Q : A → Prop) :
  (∀ a, P a → Q a) → reads m n P → reads m n Q.
Proof. intros HPQ Hm r Hr Hl. destruct (Hm r Hr Hl) as (a & ? & ?). exists a. auto. Qed.

Lemma reads_u32 : reads read_u32 4 (is_u 32).
Proof.
  intros r Hr Hlen. unfold read_u32.
  destruct (byte_at_Ok (rd_bytes r) (rd_offset r)) as (b0 & E0 & _); [lia|].
  destruct (byte_at_Ok (rd_bytes r) (rd_offset r + 1)) as (b1 & E1 & _); [lia|].
  destruct (byte_at_Ok (rd_bytes r) (rd_offset r + 2)) as (b2 & E2 & _); [lia|].
  destruct (byte_at_Ok (rd_bytes r) (rd_offset r + 3)) as (b3 & E3 & _); [lia|].
  rewrite E0, E1, E2, E3. eexists. split; [done|]. intros Hok.
  apply be32_bound; by eapply byte_at_is_u8.
Qed.

Lemma reads_u64 : reads read_u64 8 (is_u 64).
Proof.
  change 8 with (4 + (4 + 0)). eapply reads_bind; [done..|apply reads_u32|]. intros hi.
  eapply reads_bind; [done..|apply reads_u32|]. intros lo. apply reads_ret. intros Hlo Hhi.
  rewrite lor_shiftl_add by done. unfold is_u in *. lia.
Qed.

Lemma reads_n {A} (m : Rd A) n P c :
  0 ≤ n → reads m n P → reads (read_n c m) (Z.of_nat c * n) (λ l, length l = c ∧ Forall P l).
Proof.
  intros Hn Hm. induction c as [|c IH].
  - by apply reads_ret.
  - replace (Z.of_nat (S c) * n) with (n + (Z.of_nat c * n + 0)) by lia.
    eapply reads_bind; [lia..|exact Hm|]. intros x.
    eapply reads_bind; [lia..|exact IH|]. intros xs. apply reads_ret. naive_solver.
Qed.

Lemma decodes_ret {A} (a : A) : decodes (mret a) [] a.
Proof. intros r rest _. unfold mret, Rd_ret. by rewrite advance_0. Qed.

Lemma stands_before_advance r bs rest :
  stands_before r (bs ++ rest) → stands_before (advance r (len bs)) rest.
Proof.
  intros (pre & E & Eo). exists (pre ++ bs). simpl. split.
  - by rewrite E, <-app_assoc.
  - rewrite Eo, len_app. done.
Qed.

Lemma decodes_bind {A B} (m : Rd A) (f : A → Rd B) bs1 bs2 a b :
  decodes m bs1 a → decodes (f a) bs2 b → decodes (m ≫= f) (bs1 ++ bs2) b.
Proof.
  intros Hm Hf r rest Hr. rewrite <-app_assoc in Hr. unfold mbind, Rd_bind.
  rewrite (Hm r _ Hr), Ok_bind. rewrite (Hf _ rest) by by apply stands_before_advance.
  by rewrite advance_add, len_app.
Qed.

(** The last action of a program: no bytes follow. *)
Lemma decodes_bind_ret {A B} (m : Rd A) (g : A → B) bs a :
  decodes m bs a → decodes (x ← m; mret (g x)) bs (g a).
Proof. intros Hm. rewrite <-(app_nil_r bs). eapply decodes_bind; [done|]. apply decodes_ret. Qed.

Lemma decodes_u32 v : is_u 32 v → decodes read_u32 (be32_bytes v) v.
Proof.
  intros Hv r rest (pre & E & Eo). unfold read_u32. rewrite E, Eo.
  destruct (byte_at_be32 pre rest v Hv) as (b0 & b1 & b2 & b3 & -> & -> & -> & -> & <-). done.
Qed.

Lemma decodes_u64 v : is_u 64 v → decodes read_u64 (u64_bytes v) v.
Proof.
  intros Hv. unfold is_u in Hv. unfold read_u64, u64_bytes.
  assert (v = Z.lor (Z.shiftl (v / 2 ^ 32) 32) (v `mod` 2 ^ 32)) as E.
  { rewrite lor_shiftl_add by (try apply Z.mod_pos_bound; lia).
    rewrite Z.mul_comm. apply Z.div_mod. lia. }
  rewrite E at 3. eapply decodes_bind.
  - apply decodes_u32. unfold is_u. Z.to_euclidean_division_equations; lia.
  - apply (decodes_bind_ret read_u32 (λ low, Z.lor (Z.shiftl (v / 2 ^ 32) 32) low)).
    apply decodes_u32. unfold is_u. apply Z.mod_pos_bound. lia.
Qed.

Lemma decodes_n {A} (m : Rd A) (enc : A → bytes) l :
  Forall (λ a, decodes m (enc a) a) l → decodes (read_n (length l) m) (concat (enc <$> l)) l.
Proof.
  induction 1 as [|a l Ha _ IH]; [apply decodes_ret|]. csimpl.
  eapply decodes_bind; [exact Ha|]. by apply decodes_bind_ret with (g := λ xs, a :: xs).
Qed.

Lemma len_u64_bytes v : len (u64_bytes v) = 8.
Proof. done. Qed.

#[export] Hint Resolve reads_u32 reads_u64 decodes_u32 decodes_u64 : cpipe.
