(* ===== verification/OpcodeList2.v ===== *)
(** * OpcodeList2: the lens-shading gain maps

    Models src/cpipe/ingest/dng_opcode/OpcodeList2.cpp.  The parser walks a
    counted list of opcodes, skips those that are not GainMap, and decodes and
    checks the gain maps.  Double and float fields are bit patterns.

    The theorems: no input makes the parser read out of bounds or loop beyond its
    input; accepted maps have the supported shape and a full gain table; a
    serialised list of gain maps parses back, foreign opcodes being skipped. *)

From Stdlib Require Import ZArith Lia.
From stdpp Require Import prelude strings list.
From S2P Require Import Prelude OpcodeReader.

Local Open Scope Z_scope.

Definition kOpcodeGainMap : Z := 9.
Definition kOpcodeHeaderBytes : Z := 16.
Definition kGainMapHeaderBytes : Z := 76.

Record GainMap : Type := mkGainMap {
  top : Z; left : Z; bottom : Z; right : Z;
  plane : Z; planes : Z;
  row_pitch : Z; col_pitch : Z;
  map_points_v : Z; map_points_h : Z;
  map_spacing_v : Z; map_spacing_h : Z;
  map_origin_v : Z; map_origin_h : Z;
  map_planes : Z;
  gain : list Z
}.

Definition with_gain (m : GainMap) (g : list Z) : GainMap :=
  mkGainMap (top m) (left m) (bottom m) (right m) (plane m) (planes m) (row_pitch m)
    (col_pitch m) (map_points_v m) (map_points_h m) (map_spacing_v m) (map_spacing_h m)
    (map_origin_v m) (map_origin_h m) (map_planes m) g.

(** [std::isfinite] and [> 0.0] on the bit pattern of a double. *)
Definition isfinite64 (bits : Z) : bool :=
  negb (Z.land (Z.shiftr bits 52) 2047 =? 2047).
Definition gt_zero64 (bits : Z) : bool := (0 <? bits) && (bits <=? 0x7ff0000000000000).

Definition checked_gain_count (m : GainMap) : option Z :=
  let v := map_points_v m in
  let h := map_points_h m in
  let planes := map_planes m in
  if (map_points_v m =? 0) || (map_points_h m =? 0) || (map_planes m =? 0)
     || (size_max / h <? v) then None else
  let vh := u64 (v * h) in
  if size_max / planes <? vh then None else
  let total := u64 (vh * planes) in
  if size_max <? total then None else Some total.

Definition valid_required_shape (m : GainMap) : bool :=
  ((planes m =? 1) || (planes m =? 4)) && (plane m <? planes m) && (map_planes m =? 1)
  && (0 <? row_pitch m) && (0 <? col_pitch m) && isfinite64 (map_spacing_v m)
  && isfinite64 (map_spacing_h m) && gt_zero64 (map_spacing_v m) && gt_zero64 (map_spacing_h m)
  && isfinite64 (map_origin_v m) && isfinite64 (map_origin_h m).

(** The fixed fields of the parameter block, in stream order. *)
Definition read_gain_map_header : Rd GainMap :=
  top ← read_u32;
  left ← read_u32;
  bottom ← read_u32;
  right ← read_u32;
  plane ← read_u32;
  planes ← read_u32;
  row_pitch ← read_u32;
  col_pitch ← read_u32;
  map_points_v ← read_u32;
  map_points_h ← read_u32;
  map_spacing_v ← read_double;
  map_spacing_h ← read_double;
  map_origin_v ← read_double;
  map_origin_h ← read_double;
  map_planes ← read_u32;
  mret (mkGainMap top left bottom right plane planes row_pitch col_pitch map_points_v
    map_points_h map_spacing_v map_spacing_h map_origin_v map_origin_h map_planes []).

(** Appends the decoded map to [maps]. *)
Definition parse_gain_map (params : bytes) (maps : list GainMap) : res (list GainMap) :=
  if len params <? kGainMapHeaderBytes then Fail CPIPE_FAILED "GainMap params truncated" else
  '(map, reader) ← read_gain_map_header (mkReader params 0);
  match checked_gain_count map with
  | None => Fail CPIPE_FAILED "GainMap size overflows"
  | Some gain_count =>
      if (size_max - kGainMapHeaderBytes) / 4 <? gain_count
      then Fail CPIPE_FAILED "GainMap byte size overflows" else
      let expected_size := u64 (kGainMapHeaderBytes + gain_count * 4) in
      if len params <? expected_size
      then Fail CPIPE_FAILED "GainMap gain table truncated" else
      if negb (valid_required_shape map)
      then Fail CPIPE_UNSUPPORTED "GainMap shape is outside cpipe v1 support" else
      '(gain, _) ← read_n (Z.to_nat gain_count) read_float reader;
      Ok (maps ++ [with_gain map gain])
  end.

Definition read_opcode_header : Rd (Z * Z) :=
  opcode_id ← read_u32;
  _ ← read_u32;
  _ ← read_u32;
  param_size ← read_u32;
  mret (opcode_id, param_size).

(** [for (i = 0; i < count; ++i)]; running out of fuel is [Undef]. *)
Fixpoint parse_loop (fuel : nat) (i count : Z) (reader : Reader) (maps : list GainMap)
    : res (list GainMap) :=
  if count <=? i then Ok maps else
  match fuel with
  | O => Undef
  | S fuel' =>
      if negb (can_read reader kOpcodeHeaderBytes)
      then Fail CPIPE_FAILED "OpcodeList2 opcode header truncated" else
      '(hdr, reader) ← read_opcode_header reader;
      let '(opcode_id, param_size) := hdr in
      if negb (can_read reader param_size)
      then Fail CPIPE_FAILED "OpcodeList2 opcode params truncated" else
      let params := subspan (rd_bytes reader) (rd_offset reader) param_size in
      let reader := advance reader param_size in
      if negb (opcode_id =? kOpcodeGainMap) then parse_loop fuel' (i + 1) count reader maps else
      maps ← parse_gain_map params maps;
      parse_loop fuel' (i + 1) count reader maps
  end.

Definition parse_gain_maps (bs : bytes) : res (list GainMap) :=
  match bs with
  | [] => Ok []
  | _ =>
      let reader := mkReader bs 0 in
      if negb (can_read reader 4) then Fail CPIPE_FAILED "OpcodeList2 count truncated" else
      '(count, reader) ← read_u32 reader;
      parse_loop (length bs) 0 count reader []
  end.

(** ** Specification *)

(** A decoded map the nodes may use: supported shape, full gain table. *)
Definition gain_map_ok (m : GainMap) : Prop :=
  valid_required_shape m = true ∧ 0 < map_points_v m ∧ 0 < map_points_h m ∧
  len (gain m) = map_points_v m * map_points_h m.

(** The fields fit their widths. *)
Definition gain_map_range (m : GainMap) : Prop :=
  Forall (is_u 32) [top m; left m; bottom m; right m; plane m; planes m; row_pitch m;
    col_pitch m; map_points_v m; map_points_h m; map_planes m] ∧
  Forall (is_u 64) [map_spacing_v m; map_spacing_h m; map_origin_v m; map_origin_h m] ∧
  Forall (is_u 32) (gain m).

(** The serialised parameter block of a gain map: fixed fields, then the table. *)
Definition gain_map_header_bytes (m : GainMap) : bytes :=
  be32_bytes (top m) ++ be32_bytes (left m) ++ be32_bytes (bottom m) ++ be32_bytes (right m) ++
  be32_bytes (plane m) ++ be32_bytes (planes m) ++ be32_bytes (row_pitch m) ++
  be32_bytes (col_pitch m) ++ be32_bytes (map_points_v m) ++ be32_bytes (map_points_h m) ++
  u64_bytes (map_spacing_v m) ++ u64_bytes (map_spacing_h m) ++ u64_bytes (map_origin_v m) ++
  u64_bytes (map_origin_h m) ++ be32_bytes (map_planes m) ++ [].

Definition gain_map_bytes (m : GainMap) : bytes :=
  gain_map_header_bytes m ++ concat (be32_bytes <$> gain m).

(** An opcode of a list: a gain map or a foreign opcode with its parameters. *)
Inductive opcode2 : Type :=
| OpGain (version flags : Z) (m : GainMap)
| OpForeign (id version flags : Z) (params : bytes).

Definition opcode_bytes (id version flags : Z) (params : bytes) : bytes :=
  be32_bytes id ++ be32_bytes version ++ be32_bytes flags ++ be32_bytes (len params) ++ params.

Definition opcode2_bytes (o : opcode2) : bytes :=
  match o with
  | OpGain version flags m => opcode_bytes kOpcodeGainMap version flags (gain_map_bytes m)
  | OpForeign id version flags params => opcode_bytes id version flags params
  end.

Definition list2_bytes (ops : list opcode2) : bytes :=
  be32_bytes (len ops) ++ concat (opcode2_bytes <$> ops).

Definition gain_maps_of (ops : list opcode2) : list GainMap :=
  omap (λ o, match o with OpGain _ _ m => Some m | _ => None end) ops.

Definition opcode2_ok (o : opcode2) : Prop :=
  match o with
  | OpGain version flags m =>
      is_u 32 version ∧ is_u 32 flags ∧ gain_map_range m ∧ gain_map_ok m ∧
      len (gain_map_bytes m) < 2 ^ 32
  | OpForeign id version flags params =>
      is_u 32 id ∧ id ≠ kOpcodeGainMap ∧ is_u 32 version ∧ is_u 32 flags ∧
      len params < 2 ^ 32
  end.

(** ** Lemmas *)

(** Consume one bind of a [reads] goal with a lemma of the hint database. *)
Ltac reads_step :=
  eapply reads_bind; [lia|lia|solve [eauto with cpipe]|intros ?].

Definition header_range (m : GainMap) : Prop := gain m = [] ∧ gain_map_range m.

Lemma reads_gain_map_header : reads read_gain_map_header kGainMapHeaderBytes header_range.
Proof.
  change kGainMapHeaderBytes with
    (4 + (4 + (4 + (4 + (4 + (4 + (4 + (4 + (4 + (4 + (8 + (8 + (8 + (8 + (4 + 0))))))))))))))).
  unfold read_gain_map_header, read_double. do 15 reads_step. apply reads_ret.
  intros. split; [done|]. repeat split; repeat (constructor; [assumption|]); constructor.
Qed.

Lemma reads_opcode_header :
  reads read_opcode_header kOpcodeHeaderBytes (λ h, is_u 32 h.1 ∧ is_u 32 h.2).
Proof.
  change kOpcodeHeaderBytes with (4 + (4 + (4 + (4 + 0)))).
  unfold read_opcode_header. do 4 reads_step. apply reads_ret. auto.
Qed.

Lemma checked_gain_count_spec m n :
  is_u 32 (map_points_v m) → is_u 32 (map_points_h m) → is_u 32 (map_planes m) →
  checked_gain_count m = Some n →
  n = map_points_v m * map_points_h m * map_planes m ∧ 0 < n ≤ size_max ∧
  0 < map_points_v m ∧ 0 < map_points_h m.
Proof.
  unfold checked_gain_count, is_u. intros Hv Hh Hp H.
  destruct (map_points_v m =? 0) eqn:E1; [done|]. destruct (map_points_h m =? 0) eqn:E2; [done|].
  destruct (map_planes m =? 0) eqn:E3; [done|].
  destruct (size_max / map_points_h m <? map_points_v m); [done|]. simpl in H.
  apply Z.eqb_neq in E1, E2, E3.
  assert (0 < map_points_v m * map_points_h m < 2 ^ 64) as Hvh by nia.
  rewrite (u64_small (map_points_v m * _)) in H by lia.
  destruct (size_max / map_planes m <? _) eqn:E5; [done|]. apply Z.ltb_ge in E5.
  assert (map_points_v m * map_points_h m * map_planes m ≤ size_max) as Hle.
  { etrans; [apply Z.mul_le_mono_nonneg_r; [lia|exact E5]|].
    rewrite Z.mul_comm. apply Z.mul_div_le. lia. }
  assert (0 < map_points_v m * map_points_h m * map_planes m) by nia.
  rewrite u64_small in H by (unfold size_max in *; lia).
  destruct (size_max <? _); [done|]. injection H as <-. auto with lia.
Qed.

Lemma parse_gain_map_returns params maps :
  bytes_ok params →
  returns (parse_gain_map params maps)
    (λ maps', ∃ m, maps' = maps ++ [m] ∧ gain_map_ok m ∧ gain_map_range m ∧ 76 + 4 * len (gain m) ≤ len params).
Proof.
  intros Hok. unfold parse_gain_map. destruct (len params <? _) eqn:El; [done|].
  apply Z.ltb_ge in El.
  destruct (reads_gain_map_header (mkReader params 0)) as (m & -> & Hm); [simpl; lia..|].
  specialize (Hm Hok) as (Hg & H32 & H64 & _). rewrite Ok_bind.
  destruct (checked_gain_count m) as [n|] eqn:En; [|done].
  rewrite !Forall_cons in H32. destruct_and! H32.
  apply checked_gain_count_spec in En as (En & Hn & Hv & Hh); [|assumption..].
  destruct (_ <? n) eqn:E1; [done|]. apply Z.ltb_ge in E1.
  unfold kGainMapHeaderBytes, size_max in *.
  assert (n * 4 ≤ 2 ^ 64 - 1 - 76) as Hn4 by (Z.to_euclidean_division_equations; lia).
  rewrite u64_small by lia. destruct (len params <? _) eqn:E2; [done|]. apply Z.ltb_ge in E2.
  destruct (valid_required_shape m) eqn:Hs; [|done]. simpl negb. cbn iota.
  destruct (reads_n read_float 4 (is_u 32) (Z.to_nat n)
    ltac:(lia) reads_u32 (advance (mkReader params 0) 76)) as (g & -> & Hgl); [simpl; lia..|].
  specialize (Hgl Hok) as [Hgl Hg32]. rewrite Ok_bind. simpl. exists (with_gain m g).
  split; [done|]. assert (map_planes m = 1) as Hp1.
  { unfold valid_required_shape in Hs. rewrite !andb_true_iff, !Z.eqb_eq in Hs. tauto. }
  assert (len (gain (with_gain m g)) = n) as Hlen by (unfold len; simpl; rewrite Hgl, Z2Nat.id by lia; done).
  repeat split; try done; [|by rewrite !Forall_cons|lia].
  rewrite Hlen. simpl. rewrite En, Hp1. lia.
Qed.

(** What the parser promises of a map; the size of its parameter block is a 32-bit
    word. *)
Definition parsed_ok (m : GainMap) : Prop := gain_map_ok m ∧ gain_map_range m ∧ len (gain m) < 2 ^ 30.

Lemma parse_loop_returns fuel : ∀ i count reader maps,
  bytes_ok (rd_bytes reader) → 0 ≤ rd_offset reader ≤ len (rd_bytes reader) →
  len (rd_bytes reader) - rd_offset reader < Z.of_nat fuel →
  Forall parsed_ok maps →
  returns (parse_loop fuel i count reader maps) (Forall parsed_ok).
Proof.
  induction fuel as [|fuel IH]; intros i count reader maps Hok Ho Hf Hm; [lia|].
  cbn [parse_loop]. destruct (count <=? i); [done|].
  destruct (can_read reader kOpcodeHeaderBytes) eqn:E1; [|done]. simpl negb. cbn iota.
  apply can_read_spec in E1 as [_ E1].
  destruct (reads_opcode_header reader) as ([id psz] & -> & Hh); [lia..|].
  specialize (Hh Hok) as [_ Hp]. simpl in Hp. unfold is_u in Hp. rewrite Ok_bind.
  unfold kOpcodeHeaderBytes in *.
  destruct (can_read (advance reader 16) psz) eqn:E2; [|done]. simpl negb. cbn iota.
  apply can_read_spec in E2 as [_ E2]. simpl in E2.
  destruct (id =? kOpcodeGainMap); simpl negb; cbn iota.
  - eapply returns_bind; [apply parse_gain_map_returns; by apply subspan_ok|].
    intros maps' (m & -> & ? & ? & Hl). apply IH; simpl; [done|lia|lia|].
    apply Forall_app. split; [done|]. apply Forall_singleton. split_and!; [done..|].
    rewrite len_subspan in Hl by (simpl; lia). lia.
  - apply IH; simpl; [done|lia|lia|done].
Qed.

Lemma parse_gain_maps_returns bs : bytes_ok bs → returns (parse_gain_maps bs) (Forall parsed_ok).
Proof.
  intros Hok. unfold parse_gain_maps. destruct bs as [|b bs']; [by constructor|].
  set (bs := b :: bs') in *. destruct (can_read (mkReader bs 0) 4) eqn:E; [|done].
  apply can_read_spec in E as [_ E]. simpl in E. simpl negb. cbn iota.
  destruct (reads_u32 (mkReader bs 0)) as (count & -> & _); [simpl; lia..|].
  rewrite Ok_bind. apply parse_loop_returns; [done|simpl; lia| |constructor].
  change (Z.of_nat (length bs)) with (len bs). unfold advance. cbn [rd_bytes rd_offset]. lia.
Qed.

Lemma decodes_gain_map_header m :
  gain_map_range m → decodes read_gain_map_header (gain_map_header_bytes m) (with_gain m []).
Proof.
  intros (H32 & H64 & _). rewrite !Forall_cons in H32. rewrite !Forall_cons in H64.
  destruct_and! H32. destruct_and! H64.
  unfold read_gain_map_header, read_double, gain_map_header_bytes.
  repeat (eapply decodes_bind; [solve [eauto with cpipe]|]). apply decodes_ret.
Qed.

Lemma len_concat_be32 l : len (concat (be32_bytes <$> l)) = 4 * len l.
Proof. induction l as [|x l IH]; [done|]. rewrite fmap_cons, concat_cons, len_app, IH, len_be32_bytes, len_cons. lia. Qed.

Lemma len_gain_map_bytes m : len (gain_map_bytes m) = 76 + 4 * len (gain m).
Proof. unfold gain_map_bytes. by rewrite len_app, len_concat_be32. Qed.

Lemma checked_gain_count_complete m :
  map_planes m = 1 → 0 < map_points_v m → 0 < map_points_h m →
  map_points_v m * map_points_h m ≤ size_max →
  checked_gain_count m = Some (map_points_v m * map_points_h m).
Proof.
  intros Hp Hv Hh Hle. unfold checked_gain_count. rewrite Hp.
  rewrite (proj2 (Z.eqb_neq (map_points_v m) 0)), (proj2 (Z.eqb_neq (map_points_h m) 0)) by lia.
  simpl. rewrite (proj2 (Z.ltb_ge (size_max / map_points_h m) (map_points_v m)))
    by (apply Z.div_le_lower_bound; lia).
  rewrite (u64_small (_ * map_points_h m)) by (unfold size_max in *; nia).
  rewrite Z.div_1_r, (proj2 (Z.ltb_ge size_max _)), Z.mul_1_r by lia.
  rewrite (u64_small (_ * map_points_h m)) by (unfold size_max in *; nia).
  by rewrite (proj2 (Z.ltb_ge size_max _)) by lia.
Qed.

Lemma parse_gain_map_bytes m maps :
  gain_map_range m → gain_map_ok m → len (gain_map_bytes m) < 2 ^ 32 →
  parse_gain_map (gain_map_bytes m) maps = Ok (maps ++ [m]).
Proof.
  intros Hr (Hs & Hv & Hh & Hg) Hlen. pose proof (len_gain_map_bytes m) as Hl.
  assert (stands_before (mkReader (gain_map_bytes m) 0)
    (gain_map_header_bytes m ++ concat (be32_bytes <$> gain m))) as Hst by (by exists []).
  unfold parse_gain_map. rewrite (proj2 (Z.ltb_ge _ _)) by (unfold kGainMapHeaderBytes; lia).
  rewrite (decodes_gain_map_header m Hr _ _ Hst), Ok_bind.
  assert (map_planes m = 1) as Hp.
  { unfold valid_required_shape in Hs. rewrite !andb_true_iff, !Z.eqb_eq in Hs. tauto. }
  rewrite checked_gain_count_complete by (simpl; unfold size_max; lia || done). simpl.
  rewrite <-Hg. unfold kGainMapHeaderBytes, size_max in *.
  rewrite (proj2 (Z.ltb_ge _ (len (gain m)))) by (apply Z.div_le_lower_bound; lia).
  rewrite u64_small by lia. rewrite (proj2 (Z.ltb_ge (len (gain_map_bytes m)) _)) by lia.
  change (valid_required_shape (with_gain m [])) with (valid_required_shape m).
  rewrite Hs. simpl negb. cbn iota.
  assert (decodes (read_n (Z.to_nat (len (gain m))) read_float)
    (concat (be32_bytes <$> gain m)) (gain m)) as Hd.
  { unfold len. rewrite Nat2Z.id. apply decodes_n. destruct Hr as (_ & _ & Hr).
    eapply Forall_impl; [exact Hr|]. intros. by apply decodes_u32. }
  apply stands_before_advance in Hst. rewrite (Hd _ []) by (by rewrite app_nil_r).
  rewrite Ok_bind. do 3 f_equal. by destruct m.
Qed.

Lemma decodes_opcode_header id version flags psz :
  is_u 32 id → is_u 32 version → is_u 32 flags → is_u 32 psz →
  decodes read_opcode_header
    (be32_bytes id ++ be32_bytes version ++ be32_bytes flags ++ be32_bytes psz ++ []) (id, psz).
Proof.
  intros. unfold read_opcode_header.
  repeat (eapply decodes_bind; [solve [eauto with cpipe]|]). apply decodes_ret.
Qed.

(** One opcode of a serialised list, whatever it is. *)
Lemma parse_loop_opcode fuel i count r maps id version flags params rest :
  is_u 32 id → is_u 32 version → is_u 32 flags → len params < 2 ^ 32 → i < count →
  stands_before r (opcode_bytes id version flags params ++ rest) →
  parse_loop (S fuel) i count r maps =
    (maps' ← (if id =? kOpcodeGainMap then parse_gain_map params maps else Ok maps);
     parse_loop fuel (i + 1) count (advance r (16 + len params)) maps').
Proof.
  intros Hid Hve Hfl Hps Hi Hr. pose proof (len_nonneg params).
  cbn [parse_loop]. rewrite (proj2 (Z.leb_gt count i)) by lia.
  assert (len (opcode_bytes id version flags params) = 16 + len params) as Hlo.
  { unfold opcode_bytes. rewrite !len_app, !len_be32_bytes. lia. }
  destruct Hr as (pre & E & Eo). pose proof (len_nonneg rest).
  assert (can_read r kOpcodeHeaderBytes = true) as ->.
  { apply can_read_spec. rewrite E, Eo, !len_app, Hlo. unfold kOpcodeHeaderBytes. lia. }
  simpl negb. cbn iota.
  rewrite (decodes_opcode_header id version flags (len params)) with (rest := params ++ rest);
    [|done|done|done|unfold is_u; lia|].
  2: { exists pre. split; [|done]. rewrite E. unfold opcode_bytes. by rewrite <-!app_assoc. }
  rewrite Ok_bind. change (advance r (len _)) with (advance r 16). cbv beta iota.
  assert (can_read (advance r 16) (len params) = true) as ->.
  { apply can_read_spec. simpl. rewrite E, Eo, !len_app, Hlo. lia. }
  simpl negb. cbn iota. rewrite advance_add.
  assert (subspan (rd_bytes (advance r 16)) (rd_offset (advance r 16)) (len params) = params) as ->.
  { simpl. rewrite E, Eo. unfold opcode_bytes. rewrite <-!app_assoc.
    set (h := be32_bytes id ++ be32_bytes version ++ be32_bytes flags ++ be32_bytes (len params)).
    etrans; [|exact (subspan_app (pre ++ h) params rest)]. f_equal.
    - unfold h. by rewrite <-!app_assoc.
    - by rewrite len_app. }
  by destruct (id =? kOpcodeGainMap).
Qed.

Lemma parse_loop_ops ops : ∀ fuel i r maps,
  (length ops ≤ fuel)%nat → Forall opcode2_ok ops →
  stands_before r (concat (opcode2_bytes <$> ops)) →
  parse_loop fuel i (i + len ops) r maps = Ok (maps ++ gain_maps_of ops).
Proof.
  induction ops as [|o ops IH]; intros fuel i r maps Hf Hok Hr.
  { rewrite len_nil, app_nil_r. destruct fuel; cbn [parse_loop]; by rewrite (proj2 (Z.leb_le _ _)) by lia. }
  apply Forall_cons in Hok as [Ho Hok]. destruct fuel as [|fuel]; [simpl in Hf; lia|].
  rewrite fmap_cons, concat_cons in Hr. rewrite len_cons. pose proof (len_nonneg ops).
  replace (i + (1 + len ops)) with (i + 1 + len ops) by lia.
  assert (∀ id version flags params, opcode2_bytes o = opcode_bytes id version flags params →
    stands_before (advance r (16 + len params)) (concat (opcode2_bytes <$> ops))) as Hnext.
  { intros ???? E. rewrite E in Hr. apply stands_before_advance in Hr.
    unfold opcode_bytes in Hr at 1. rewrite !len_app, !len_be32_bytes in Hr.
    replace (4 + _) with (16 + len params) in Hr by lia. exact Hr. }
  destruct o as [version flags m|id version flags params]; simpl in Ho.
  - destruct Ho as (? & ? & ? & ? & ?).
    rewrite (parse_loop_opcode _ _ _ _ _ kOpcodeGainMap version flags (gain_map_bytes m)
      (concat (opcode2_bytes <$> ops))) by (done || lia).
    rewrite Z.eqb_refl, parse_gain_map_bytes, Ok_bind by done.
    rewrite IH; [|simpl in Hf; lia|done|by eapply Hnext]. csimpl. by rewrite <-app_assoc.
  - destruct Ho as (? & ? & ? & ? & ?).
    rewrite (parse_loop_opcode _ _ _ _ _ id version flags params
      (concat (opcode2_bytes <$> ops))) by (done || lia).
    rewrite (proj2 (Z.eqb_neq _ _)), Ok_bind by done.
    rewrite IH; [done|simpl in Hf; lia|done|by eapply Hnext].
Qed.

Lemma length_list2_bytes ops : (length ops < length (list2_bytes ops))%nat.
Proof.
  unfold list2_bytes. rewrite length_app. simpl length at 2.
  induction ops as [|o ops IH]; [simpl; lia|]. rewrite fmap_cons, concat_cons, length_app.
  simpl length at 1.
  assert (1 ≤ length (opcode2_bytes o))%nat; [|lia].
  destruct o; unfold opcode2_bytes, opcode_bytes; simpl; lia.
Qed.

(** ** Theorems *)

(** whatever bytes an OpcodeList2 blob holds, the parser returns: it never
    reads out of bounds, never throws and stops within its input; and every
    gain map it returns has the supported shape, a gain table of exactly
    [map_points_v * map_points_h] entries and in-range fields. *)
Theorem parse_gain_maps_safe (bs : bytes) :
  bytes_ok bs →
  returns (parse_gain_maps bs) (Forall (λ m, gain_map_ok m ∧ gain_map_range m)).
Proof.
  intros Hok. eapply returns_weaken; [by apply parse_gain_maps_returns|].
  intros maps Hm. eapply Forall_impl; [exact Hm|]. unfold parsed_ok. tauto.
Qed.

(** a serialised opcode list parses to exactly its gain maps, in order;
    opcodes of other kinds are skipped without affecting the result. *)
Theorem parse_gain_maps_roundtrip (ops : list opcode2) :
  len ops < 2 ^ 32 → Forall opcode2_ok ops →
  parse_gain_maps (list2_bytes ops) = Ok (gain_maps_of ops).
Proof.
  intros Hlen Hok. pose proof (length_list2_bytes ops) as Hl. pose proof (len_nonneg ops).
  unfold parse_gain_maps. destruct (list2_bytes ops) as [|b bs'] eqn:E; [simpl in Hl; lia|].
  rewrite <-E in *. clear b bs' E.
  assert (stands_before (mkReader (list2_bytes ops) 0)
    (be32_bytes (len ops) ++ concat (opcode2_bytes <$> ops))) as Hst by (by exists []).
  assert (can_read (mkReader (list2_bytes ops) 0) 4 = true) as ->.
  { apply can_read_spec. simpl. unfold list2_bytes. rewrite len_app, len_be32_bytes.
    pose proof (len_nonneg (concat (opcode2_bytes <$> ops))). lia. }
  simpl negb. cbn iota. rewrite (decodes_u32 (len ops)) with (rest := concat (opcode2_bytes <$> ops));
    [|unfold is_u; lia|done]. rewrite Ok_bind.
  apply stands_before_advance in Hst.
  apply (parse_loop_ops ops (length (list2_bytes ops)) 0 _ []); [lia|done|done].
Qed.

(** ** Witnesses *)

Definition example_map : GainMap :=
  mkGainMap 0 0 8 8 0 1 1 1 1 2 0x3ff0000000000000 0x3fe0000000000000 0 0 1
    [0x3f800000; 0x40000000].

Lemma example_map_ok : opcode2_ok (OpGain 0x01030000 0 example_map).
Proof.
  unfold opcode2_ok. split; [done|]. split; [done|]. split; [|split; [|done]].
  - split; [|split]; repeat (constructor; [done|]); constructor.
  - split; [vm_compute; reflexivity|]. done.
Qed.

Lemma parse_gain_maps_safe_witness :
  returns (parse_gain_maps [0; 0; 0; 1; 0; 0; 0; 9]) (Forall (λ m, gain_map_ok m ∧ gain_map_range m)).
Proof. apply parse_gain_maps_safe. repeat constructor; done. Defined.

Lemma parse_gain_maps_roundtrip_witness :
  parse_gain_maps (list2_bytes [OpForeign 4 0 0 [1; 2; 3]; OpGain 0x01030000 0 example_map])
  = Ok [example_map].
Proof.
  apply (parse_gain_maps_roundtrip [OpForeign 4 0 0 [1; 2; 3]; OpGain 0x01030000 0 example_map]).
  - done.
  - repeat constructor; try done; apply example_map_ok.
Defined.
