(* ===== verification/OpcodeList3.v ===== *)
(** * OpcodeList3: lens corrections

    Models src/cpipe/ingest/dng_opcode/OpcodeList3.cpp and the types of
    include/cpipe/ingest/dng_opcode/OpcodeList3.hpp.  Every opcode keeps its raw
    parameters; the five known kinds are decoded and must have exactly the size
    their counts imply; an unknown opcode is kept when it is optional and makes
    the list unsupported when it is not.  Doubles are bit patterns.

    [opcodes.reserve(count)] runs before any opcode is read; whether the
    allocation succeeds is the argument [reserve_ok] of the model. *)

From Stdlib Require Import ZArith Lia.
From stdpp Require Import prelude strings list.
From S2P Require Import Prelude OpcodeReader.

Local Open Scope Z_scope.

Definition kOpcodeHeaderBytes3 : Z := 16.
Definition kOptionalFlag : Z := 1.
Definition kMaxWarpPlanes : Z := 4.

Inductive OpcodeId : Type :=
| Unknown | WarpRectilinear | FixVignetteRadial | FixBadPixelsConstant | FixBadPixelsList
| TrimBounds.

#[export] Instance OpcodeId_eq_dec : EqDecision OpcodeId.
Proof. solve_decision. Defined.

Definition opcode_id_value (i : OpcodeId) : Z :=
  match i with
  | Unknown => 0 | WarpRectilinear => 1 | FixVignetteRadial => 3 | FixBadPixelsConstant => 4
  | FixBadPixelsList => 5 | TrimBounds => 6
  end.

Record WarpCoefficient : Type := mkCoeff { kr0 : Z; kr1 : Z; kr2 : Z; kr3 : Z; kt0 : Z; kt1 : Z }.
Record Warp : Type := mkWarp { coefficients : list WarpCoefficient; warp_cx : Z; warp_cy : Z }.
Record Vignette : Type := mkVignette { vig_k : list Z; vig_cx : Z; vig_cy : Z }.
Record BadConstant : Type := mkBadConstant { bc_constant : Z; bc_bayer_phase : Z }.
Record BadPoint : Type := mkPoint { bp_row : Z; bp_column : Z }.
Record BadRect : Type := mkBadRect { br_top : Z; br_left : Z; br_bottom : Z; br_right : Z }.
Record BadList : Type := mkBadList {
  bl_bayer_phase : Z; bad_points : list BadPoint; bad_rects : list BadRect }.
Record Trim : Type := mkTrim { tr_top : Z; tr_left : Z; tr_bottom : Z; tr_right : Z }.

Record Opcode : Type := mkOpcode {
  op_id : OpcodeId;
  raw_id : Z;
  dng_version : Z;
  flags : Z;
  optional : bool;
  raw_params : bytes;
  warp_rectilinear : option Warp;
  fix_vignette_radial : option Vignette;
  fix_bad_pixels_constant : option BadConstant;
  fix_bad_pixels_list : option BadList;
  trim_bounds : option Trim
}.

Definition exact_size (params : bytes) (expected : Z) : bool := len params =? expected.

Definition opcode_id_from_raw (raw : Z) : OpcodeId :=
  if raw =? opcode_id_value WarpRectilinear then WarpRectilinear
  else if raw =? opcode_id_value FixVignetteRadial then FixVignetteRadial
  else if raw =? opcode_id_value FixBadPixelsConstant then FixBadPixelsConstant
  else if raw =? opcode_id_value FixBadPixelsList then FixBadPixelsList
  else if raw =? opcode_id_value TrimBounds then TrimBounds
  else Unknown.

Definition read_coefficient : Rd WarpCoefficient :=
  kr0 ← read_double;
  kr1 ← read_double;
  kr2 ← read_double;
  kr3 ← read_double;
  kt0 ← read_double;
  kt1 ← read_double;
  mret (mkCoeff kr0 kr1 kr2 kr3 kt0 kt1).

Definition read_point : Rd BadPoint := row ← read_u32; column ← read_u32; mret (mkPoint row column).

Definition read_rect : Rd BadRect :=
  top ← read_u32; left ← read_u32; bottom ← read_u32; right ← read_u32;
  mret (mkBadRect top left bottom right).

(** The decoders return [None] where the C++ functions return [false]. *)
Definition parse_warp_rectilinear (params : bytes) : res (option Warp) :=
  if len params <? 4 then Ok None else
  '(count, reader) ← read_u32 (mkReader params 0);
  if (count =? 0) || (kMaxWarpPlanes <? count) then Ok None else
  let coefficient_bytes := count * 6 * 8 in
  let expected_size := 4 + coefficient_bytes + 2 * 8 in
  if negb (exact_size params expected_size) then Ok None else
  '(w, _) ← (cs ← read_n (Z.to_nat count) read_coefficient;
             cx ← read_double; cy ← read_double; mret (mkWarp cs cx cy)) reader;
  Ok (Some w).

Definition parse_fix_vignette_radial (params : bytes) : res (option Vignette) :=
  if negb (exact_size params (7 * 8)) then Ok None else
  '(v, _) ← (k ← read_n 5 read_double; cx ← read_double; cy ← read_double;
             mret (mkVignette k cx cy)) (mkReader params 0);
  Ok (Some v).

Definition parse_fix_bad_pixels_constant (params : bytes) : res (option BadConstant) :=
  if negb (exact_size params (2 * 4)) then Ok None else
  '(c, _) ← (constant ← read_u32; phase ← read_u32;
             mret (mkBadConstant constant phase)) (mkReader params 0);
  Ok (Some c).

(** Sizes are [std::size_t]; [None] where the C++ function returns [false]. *)
Definition checked_list_size (points rects : Z) : option Z :=
  let header_bytes := 3 * 4 in
  let point_bytes := 2 * 4 in
  let rect_bytes := 4 * 4 in
  if (size_max - header_bytes) / point_bytes <? points then None else
  let with_points := u64 (header_bytes + u64 (points * point_bytes)) in
  if (size_max - with_points) / rect_bytes <? rects then None else
  Some (u64 (with_points + u64 (rects * rect_bytes))).

Definition parse_fix_bad_pixels_list (params : bytes) : res (option BadList) :=
  if len params <? 3 * 4 then Ok None else
  '(hdr, reader) ← (phase ← read_u32; points ← read_u32; rects ← read_u32;
                    mret (phase, points, rects)) (mkReader params 0);
  let '(phase, point_count, rect_count) := hdr in
  match checked_list_size point_count rect_count with
  | None => Ok None
  | Some expected_size =>
      if negb (exact_size params expected_size) then Ok None else
      '(l, _) ← (ps ← read_n (Z.to_nat point_count) read_point;
                 rs ← read_n (Z.to_nat rect_count) read_rect;
                 mret (mkBadList phase ps rs)) reader;
      Ok (Some l)
  end.

Definition parse_trim_bounds (params : bytes) : res (option Trim) :=
  if negb (exact_size params (4 * 4)) then Ok None else
  '(t, _) ← (top ← read_u32; left ← read_u32; bottom ← read_u32; right ← read_u32;
             mret (mkTrim top left bottom right)) (mkReader params 0);
  Ok (Some t).

Definition with_payload (o : Opcode) w v c l t : Opcode :=
  mkOpcode (op_id o) (raw_id o) (dng_version o) (flags o) (optional o) (raw_params o) w v c l t.

Definition parse_known_opcode (params : bytes) (o : Opcode) : res (option Opcode) :=
  match op_id o with
  | WarpRectilinear =>
      w ← parse_warp_rectilinear params;
      Ok (option_map (λ w, with_payload o (Some w) None None None None) w)
  | FixVignetteRadial =>
      v ← parse_fix_vignette_radial params;
      Ok (option_map (λ v, with_payload o None (Some v) None None None) v)
  | FixBadPixelsConstant =>
      c ← parse_fix_bad_pixels_constant params;
      Ok (option_map (λ c, with_payload o None None (Some c) None None) c)
  | FixBadPixelsList =>
      l ← parse_fix_bad_pixels_list params;
      Ok (option_map (λ l, with_payload o None None None (Some l) None) l)
  | TrimBounds =>
      t ← parse_trim_bounds params;
      Ok (option_map (λ t, with_payload o None None None None (Some t)) t)
  | Unknown => Ok None
  end.

Definition read_opcode_header3 : Rd (Z * Z * Z * Z) :=
  raw_id ← read_u32;
  dng_version ← read_u32;
  flags ← read_u32;
  param_size ← read_u32;
  mret (raw_id, dng_version, flags, param_size).

(** The body of the opcode loop once the header and the parameters are known. *)
Definition parse_opcode (raw version flags : Z) (params : bytes) : res Opcode :=
  let o := mkOpcode (opcode_id_from_raw raw) raw version flags
    (negb (Z.land flags kOptionalFlag =? 0)) params None None None None None in
  if decide (op_id o = Unknown) then
    if negb (optional o) then Fail CPIPE_UNSUPPORTED "OpcodeList3 mandatory unknown opcode"
    else Ok o
  else
    r ← parse_known_opcode params o;
    of_option (Fail CPIPE_FAILED "OpcodeList3 known opcode params invalid") r.

Fixpoint parse_loop3 (fuel : nat) (i count : Z) (reader : Reader) (opcodes : list Opcode)
    : res (list Opcode) :=
  if count <=? i then Ok opcodes else
  match fuel with
  | O => Undef
  | S fuel' =>
      if negb (can_read reader kOpcodeHeaderBytes3)
      then Fail CPIPE_FAILED "OpcodeList3 opcode header truncated" else
      '(hdr, reader) ← read_opcode_header3 reader;
      let '(raw, version, flags, param_size) := hdr in
      if negb (can_read reader param_size)
      then Fail CPIPE_FAILED "OpcodeList3 opcode params truncated" else
      let params := subspan (rd_bytes reader) (rd_offset reader) param_size in
      let reader := advance reader param_size in
      o ← parse_opcode raw version flags params;
      parse_loop3 fuel' (i + 1) count reader (opcodes ++ [o])
  end.

Definition parse (reserve_ok : Z → bool) (bs : bytes) : res (list Opcode) :=
  match bs with
  | [] => Ok []
  | _ =>
      let reader := mkReader bs 0 in
      if negb (can_read reader 4) then Fail CPIPE_FAILED "OpcodeList3 count truncated" else
      '(count, reader) ← read_u32 reader;
      if negb (reserve_ok count) then Thrown bad_alloc else
      parse_loop3 (length bs) 0 count reader []
  end.

(** ** Specification *)

(** The abstract content of an opcode. *)
Inductive payload : Type :=
| PWarp (w : Warp)
| PVignette (v : Vignette)
| PBadConstant (c : BadConstant)
| PBadList (l : BadList)
| PTrim (t : Trim)
| PUnknown (raw : Z) (params : bytes).

Definition payload_raw_id (p : payload) : Z :=
  match p with
  | PWarp _ => 1 | PVignette _ => 3 | PBadConstant _ => 4 | PBadList _ => 5 | PTrim _ => 6
  | PUnknown raw _ => raw
  end.

Definition coeff_bytes (c : WarpCoefficient) : bytes :=
  u64_bytes (kr0 c) ++ u64_bytes (kr1 c) ++ u64_bytes (kr2 c) ++ u64_bytes (kr3 c) ++
  u64_bytes (kt0 c) ++ u64_bytes (kt1 c) ++ [].
Definition point_bytes (p : BadPoint) : bytes :=
  be32_bytes (bp_row p) ++ be32_bytes (bp_column p) ++ [].
Definition rect_bytes (r : BadRect) : bytes :=
  be32_bytes (br_top r) ++ be32_bytes (br_left r) ++ be32_bytes (br_bottom r) ++
  be32_bytes (br_right r) ++ [].

Definition payload_bytes (p : payload) : bytes :=
  match p with
  | PWarp w => be32_bytes (len (coefficients w)) ++ concat (coeff_bytes <$> coefficients w) ++
      u64_bytes (warp_cx w) ++ u64_bytes (warp_cy w) ++ []
  | PVignette v => concat (u64_bytes <$> vig_k v) ++ u64_bytes (vig_cx v) ++ u64_bytes (vig_cy v) ++ []
  | PBadConstant c => be32_bytes (bc_constant c) ++ be32_bytes (bc_bayer_phase c) ++ []
  | PBadList l => (be32_bytes (bl_bayer_phase l) ++ be32_bytes (len (bad_points l)) ++
      be32_bytes (len (bad_rects l)) ++ []) ++
      concat (point_bytes <$> bad_points l) ++ concat (rect_bytes <$> bad_rects l) ++ []
  | PTrim t => be32_bytes (tr_top t) ++ be32_bytes (tr_left t) ++ be32_bytes (tr_bottom t) ++
      be32_bytes (tr_right t) ++ []
  | PUnknown _ params => params
  end.

Definition coeff_ok (c : WarpCoefficient) : Prop :=
  is_u 64 (kr0 c) ∧ is_u 64 (kr1 c) ∧ is_u 64 (kr2 c) ∧ is_u 64 (kr3 c) ∧
  is_u 64 (kt0 c) ∧ is_u 64 (kt1 c).
Definition point_ok (p : BadPoint) : Prop := is_u 32 (bp_row p) ∧ is_u 32 (bp_column p).
Definition rect_ok (r : BadRect) : Prop :=
  is_u 32 (br_top r) ∧ is_u 32 (br_left r) ∧ is_u 32 (br_bottom r) ∧ is_u 32 (br_right r).

(** Well-formed content: fields in range, one to four warp planes, five vignette
    terms, and an unknown opcode is really unknown. *)
Definition payload_ok (p : payload) : Prop :=
  match p with
  | PWarp w => 1 ≤ len (coefficients w) ≤ 4 ∧ Forall coeff_ok (coefficients w) ∧
      is_u 64 (warp_cx w) ∧ is_u 64 (warp_cy w)
  | PVignette v => length (vig_k v) = 5%nat ∧ Forall (is_u 64) (vig_k v) ∧
      is_u 64 (vig_cx v) ∧ is_u 64 (vig_cy v)
  | PBadConstant c => is_u 32 (bc_constant c) ∧ is_u 32 (bc_bayer_phase c)
  | PBadList l => is_u 32 (bl_bayer_phase l) ∧ Forall point_ok (bad_points l) ∧
      Forall rect_ok (bad_rects l)
  | PTrim t => is_u 32 (tr_top t) ∧ is_u 32 (tr_left t) ∧ is_u 32 (tr_bottom t) ∧
      is_u 32 (tr_right t)
  | PUnknown raw params => is_u 32 raw ∧ opcode_id_from_raw raw = Unknown ∧ bytes_ok params
  end.

(** The record the parser builds for an opcode with this content. *)
Definition opcode_of (version fl : Z) (p : payload) : Opcode :=
  let raw := payload_raw_id p in
  let o := mkOpcode (opcode_id_from_raw raw) raw version fl
    (negb (Z.land fl kOptionalFlag =? 0)) (payload_bytes p) in
  match p with
  | PWarp w => o (Some w) None None None None
  | PVignette v => o None (Some v) None None None
  | PBadConstant c => o None None (Some c) None None
  | PBadList l => o None None None (Some l) None
  | PTrim t => o None None None None (Some t)
  | PUnknown _ _ => o None None None None None
  end.

Definition opcode3_ok (x : Z * Z * payload) : Prop :=
  let '(version, fl, p) := x in
  is_u 32 version ∧ is_u 32 fl ∧ payload_ok p ∧ len (payload_bytes p) < 2 ^ 32 ∧
  match p with PUnknown _ _ => Z.land fl kOptionalFlag ≠ 0 | _ => True end.

Definition opcode3_bytes (x : Z * Z * payload) : bytes :=
  let '(version, fl, p) := x in
  (be32_bytes (payload_raw_id p) ++ be32_bytes version ++ be32_bytes fl ++
   be32_bytes (len (payload_bytes p)) ++ []) ++ payload_bytes p.

Definition list3_bytes (ops : list (Z * Z * payload)) : bytes :=
  be32_bytes (len ops) ++ concat (opcode3_bytes <$> ops).

(** ** Lemmas *)

Ltac reads_step3 := eapply reads_bind; [lia|lia|solve [eauto with cpipe]|intros ?].

Lemma reads_coefficient : reads read_coefficient 48 coeff_ok.
Proof.
  change 48 with (8 + (8 + (8 + (8 + (8 + (8 + 0)))))). unfold read_coefficient, read_double.
  do 6 reads_step3. apply reads_ret. intros. by split_and!.
Qed.

Lemma reads_point : reads read_point 8 point_ok.
Proof.
  change 8 with (4 + (4 + 0)). unfold read_point. do 2 reads_step3. apply reads_ret. by split.
Qed.

Lemma reads_rect : reads read_rect 16 rect_ok.
Proof.
  change 16 with (4 + (4 + (4 + (4 + 0)))). unfold read_rect. do 4 reads_step3. apply reads_ret.
  intros. by split_and!.
Qed.

Lemma reads_opcode_header3 :
  reads read_opcode_header3 16 (λ h, let '(a, b, c, d) := h in
    is_u 32 a ∧ is_u 32 b ∧ is_u 32 c ∧ is_u 32 d).
Proof.
  change 16 with (4 + (4 + (4 + (4 + 0)))). unfold read_opcode_header3. do 4 reads_step3.
  apply reads_ret. intros. by split_and!.
Qed.

(** The size test of the bad-pixel list never overflows on 32-bit counts. *)
Lemma checked_list_size_exact points rects :
  is_u 32 points → is_u 32 rects →
  checked_list_size points rects = Some (12 + points * 8 + rects * 16).
Proof.
  unfold is_u, checked_list_size, size_max. intros Hp Hr.
  rewrite (proj2 (Z.ltb_ge _ points)) by (apply Z.div_le_lower_bound; lia).
  rewrite (u64_small (points * _)), (u64_small (3 * 4 + _)) by lia.
  rewrite (proj2 (Z.ltb_ge _ rects)) by (apply Z.div_le_lower_bound; lia).
  rewrite (u64_small (rects * _)), u64_small by lia. f_equal.
Qed.

Definition with_raw_params (o : Opcode) (params : bytes) : Opcode :=
  mkOpcode (op_id o) (raw_id o) (dng_version o) (flags o) (optional o) params
    (warp_rectilinear o) (fix_vignette_radial o) (fix_bad_pixels_constant o)
    (fix_bad_pixels_list o) (trim_bounds o).

(** A well-formed decoded opcode: its identifier, its optional bit and its single
    payload agree with some well-formed content, and an unknown one is optional. *)
Definition opcode_wf (o : Opcode) : Prop :=
  ∃ p, payload_ok p ∧ o = with_raw_params (opcode_of (dng_version o) (flags o) p) (raw_params o) ∧
    match p with PUnknown _ _ => optional o = true | _ => True end.

Lemma exact_size_spec params n : exact_size params n = true ↔ len params = n.
Proof. apply Z.eqb_eq. Qed.

(** Run a reader program with enough bytes before it. *)
Lemma reads_run {A} (m : Rd A) n P params off :
  reads m n P → bytes_ok params → 0 ≤ off → off + n ≤ len params →
  ∃ a, m (mkReader params off) = Ok (a, mkReader params (off + n)) ∧ P a.
Proof. intros Hm Hok Ho Hl. destruct (Hm (mkReader params off)) as (a & ? & ?); eauto. Qed.

Lemma parse_warp_returns params :
  bytes_ok params →
  ∃ o, parse_warp_rectilinear params = Ok o ∧ ∀ w, o = Some w → payload_ok (PWarp w).
Proof.
  intros Hok. unfold parse_warp_rectilinear. destruct (len params <? 4) eqn:El; [by exists None|].
  apply Z.ltb_ge in El. destruct (reads_run _ _ _ params 0 reads_u32 Hok) as (count & -> & HP); [lia..|].
  rewrite Ok_bind. destruct ((count =? 0) || _) eqn:Ec; [by exists None|].
  apply orb_false_iff in Ec as [Ec1 Ec2]. apply Z.eqb_neq in Ec1. apply Z.ltb_ge in Ec2.
  unfold kMaxWarpPlanes, is_u in *.
  destruct (exact_size params _) eqn:Es; simpl negb; cbn iota; [|by exists None].
  apply exact_size_spec in Es.
  assert (reads (cs ← read_n (Z.to_nat count) read_coefficient;
    cx ← read_double; cy ← read_double; mret (mkWarp cs cx cy)) (count * 48 + (8 + (8 + 0)))
    (λ w, payload_ok (PWarp w))) as Hr.
  { replace (count * 48) with (Z.of_nat (Z.to_nat count) * 48) by lia.
    eapply reads_bind; [lia|lia|apply reads_n; [lia|apply reads_coefficient]|]. intros cs.
    reads_step3. reads_step3. apply reads_ret. intros ?? [Hl ?]. simpl. unfold len.
    rewrite Hl. split_and!; try done; lia. }
  destruct (reads_run _ _ _ params (0 + 4) Hr Hok) as (a & -> & Ha); [lia..|].
  exists (Some a). split; [done|]. by intros w [= <-].
Qed.

Lemma parse_vignette_returns params :
  bytes_ok params →
  ∃ o, parse_fix_vignette_radial params = Ok o ∧ ∀ v, o = Some v → payload_ok (PVignette v).
Proof.
  intros Hok. unfold parse_fix_vignette_radial.
  destruct (exact_size params _) eqn:Es; simpl negb; cbn iota; [|by exists None].
  apply exact_size_spec in Es.
  assert (reads (k ← read_n 5 read_double; cx ← read_double; cy ← read_double;
    mret (mkVignette k cx cy)) (Z.of_nat 5 * 8 + (8 + (8 + 0))) (λ v, payload_ok (PVignette v))) as Hr.
  { eapply reads_bind; [lia|lia|apply reads_n; [lia|apply reads_u64]|]. intros k.
    reads_step3. reads_step3. apply reads_ret. intros ?? [??]. by split_and!. }
  destruct (reads_run _ _ _ params 0 Hr Hok) as (a & -> & Ha); [lia..|].
  exists (Some a). split; [done|]. by intros v [= <-].
Qed.

Lemma parse_constant_returns params :
  bytes_ok params →
  ∃ o, parse_fix_bad_pixels_constant params = Ok o ∧ ∀ c, o = Some c → payload_ok (PBadConstant c).
Proof.
  intros Hok. unfold parse_fix_bad_pixels_constant.
  destruct (exact_size params _) eqn:Es; simpl negb; cbn iota; [|by exists None].
  apply exact_size_spec in Es.
  assert (reads (constant ← read_u32; phase ← read_u32; mret (mkBadConstant constant phase))
    (4 + (4 + 0)) (λ c, payload_ok (PBadConstant c))) as Hr.
  { do 2 reads_step3. apply reads_ret. intros. by split_and!. }
  destruct (reads_run _ _ _ params 0 Hr Hok) as (a & -> & Ha); [lia..|].
  exists (Some a). split; [done|]. by intros c [= <-].
Qed.

Lemma parse_trim_returns params :
  bytes_ok params →
  ∃ o, parse_trim_bounds params = Ok o ∧ ∀ t, o = Some t → payload_ok (PTrim t).
Proof.
  intros Hok. unfold parse_trim_bounds.
  destruct (exact_size params _) eqn:Es; simpl negb; cbn iota; [|by exists None].
  apply exact_size_spec in Es.
  assert (reads (top ← read_u32; left ← read_u32; bottom ← read_u32; right ← read_u32;
    mret (mkTrim top left bottom right)) (4 + (4 + (4 + (4 + 0)))) (λ t, payload_ok (PTrim t))) as Hr.
  { do 4 reads_step3. apply reads_ret. intros. by split_and!. }
  destruct (reads_run _ _ _ params 0 Hr Hok) as (a & -> & Ha); [lia..|].
  exists (Some a). split; [done|]. by intros t [= <-].
Qed.

Lemma reads_list_header :
  reads (phase ← read_u32; points ← read_u32; rects ← read_u32; mret (phase, points, rects)) 12
    (λ h : Z * Z * Z, is_u 32 h.1.1 ∧ is_u 32 h.1.2 ∧ is_u 32 h.2).
Proof.
  change 12 with (4 + (4 + (4 + 0))). do 3 reads_step3. apply reads_ret. intros. by split_and!.
Qed.

Lemma parse_list_returns params :
  bytes_ok params →
  ∃ o, parse_fix_bad_pixels_list params = Ok o ∧ ∀ l, o = Some l → payload_ok (PBadList l).
Proof.
  intros Hok. unfold parse_fix_bad_pixels_list.
  destruct (len params <? 3 * 4) eqn:El; [by exists None|]. apply Z.ltb_ge in El.
  destruct (reads_run _ _ _ params 0 reads_list_header Hok)
    as ([[phase points] rects] & -> & Hph & Hp & Hr); [lia..|]. rewrite Ok_bind. simpl in Hph, Hp, Hr.
  rewrite checked_list_size_exact by done. unfold is_u in *.
  destruct (exact_size params _) eqn:Es; simpl negb; cbn iota; [|by exists None].
  apply exact_size_spec in Es.
  assert (reads (ps ← read_n (Z.to_nat points) read_point; rs ← read_n (Z.to_nat rects) read_rect;
    mret (mkBadList phase ps rs)) (points * 8 + (rects * 16 + 0)) (λ l, payload_ok (PBadList l))) as Hl.
  { replace (points * 8) with (Z.of_nat (Z.to_nat points) * 8) by lia.
    replace (rects * 16) with (Z.of_nat (Z.to_nat rects) * 16) by lia.
    eapply reads_bind; [lia|lia|apply reads_n; [lia|apply reads_point]|]. intros ps.
    eapply reads_bind; [lia|lia|apply reads_n; [lia|apply reads_rect]|]. intros rs.
    apply reads_ret. intros [??] [??]. by split_and!. }
  destruct (reads_run _ _ _ params (0 + 12) Hl Hok) as (a & -> & Ha); [lia..|].
  exists (Some a). split; [done|]. by intros l [= <-].
Qed.

Lemma parse_opcode_returns raw version fl params :
  is_u 32 raw → bytes_ok params → returns (parse_opcode raw version fl params) opcode_wf.
Proof.
  intros Hraw Hok. unfold parse_opcode. case_decide as Hu; simpl in Hu.
  - destruct (negb _) eqn:En; [done|]. simpl in En. exists (PUnknown raw params). simpl.
    split_and!; [done..|]. by apply negb_false_iff in En.
  - unfold parse_known_opcode. simpl op_id. 
    unfold opcode_id_from_raw in *. simpl in *.
    destruct (raw =? 1) eqn:E1; [|destruct (raw =? 3) eqn:E3; [|destruct (raw =? 4) eqn:E4;
      [|destruct (raw =? 5) eqn:E5; [|destruct (raw =? 6) eqn:E6; [|done]]]]].
    + destruct (parse_warp_returns params Hok) as ([w|] & -> & Hw); [|done].
      apply Z.eqb_eq in E1 as ->. exists (PWarp w). auto.
    + destruct (parse_vignette_returns params Hok) as ([w|] & -> & Hw); [|done].
      apply Z.eqb_eq in E3 as ->. exists (PVignette w). auto.
    + destruct (parse_constant_returns params Hok) as ([w|] & -> & Hw); [|done].
      apply Z.eqb_eq in E4 as ->. exists (PBadConstant w). auto.
    + destruct (parse_list_returns params Hok) as ([w|] & -> & Hw); [|done].
      apply Z.eqb_eq in E5 as ->. exists (PBadList w). auto.
    + destruct (parse_trim_returns params Hok) as ([w|] & -> & Hw); [|done].
      apply Z.eqb_eq in E6 as ->. exists (PTrim w). auto.
Qed.

Lemma parse_loop3_returns fuel : ∀ i count reader opcodes,
  bytes_ok (rd_bytes reader) → 0 ≤ rd_offset reader ≤ len (rd_bytes reader) →
  len (rd_bytes reader) - rd_offset reader < Z.of_nat fuel → Forall opcode_wf opcodes →
  returns (parse_loop3 fuel i count reader opcodes) (Forall opcode_wf).
Proof.
  induction fuel as [|fuel IH]; intros i count reader opcodes Hok Ho Hf Hops; [lia|].
  cbn [parse_loop3]. destruct (count <=? i); [done|].
  destruct (can_read reader kOpcodeHeaderBytes3) eqn:E1; [|done]. simpl negb. cbn iota.
  apply can_read_spec in E1 as [_ E1]. unfold kOpcodeHeaderBytes3 in *.
  destruct (reads_opcode_header3 reader) as ([[[raw ver] fl] psz] & -> & Hh); [lia..|].
  specialize (Hh Hok) as (Hraw & _ & _ & Hp). unfold is_u in Hp. rewrite Ok_bind.
  destruct (can_read (advance reader 16) psz) eqn:E2; [|done]. simpl negb. cbn iota.
  apply can_read_spec in E2 as [_ E2]. simpl in E2.
  eapply returns_bind; [apply parse_opcode_returns; [done|by apply subspan_ok]|].
  intros o Hwf. apply IH; simpl; [done|lia|lia|]. apply Forall_app. split; [done|].
  by apply Forall_singleton.
Qed.

Ltac decodes_step := eapply decodes_bind; [solve [eauto with cpipe]|].

Lemma decodes_coefficient c : coeff_ok c → decodes read_coefficient (coeff_bytes c) c.
Proof.
  intros (? & ? & ? & ? & ? & ?). unfold read_coefficient, read_double, coeff_bytes.
  destruct c. do 6 decodes_step. apply decodes_ret.
Qed.

Lemma decodes_point p : point_ok p → decodes read_point (point_bytes p) p.
Proof. intros [??]. unfold read_point, point_bytes. destruct p. do 2 decodes_step. apply decodes_ret. Qed.

Lemma decodes_rect r : rect_ok r → decodes read_rect (rect_bytes r) r.
Proof.
  intros (? & ? & ? & ?). unfold read_rect, rect_bytes. destruct r. do 4 decodes_step.
  apply decodes_ret.
Qed.

(** A decoded vector whose length is the count read before it. *)
Lemma decodes_counted {A} (m : Rd A) (enc : A → bytes) (ok : A → Prop) l :
  (∀ a, ok a → decodes m (enc a) a) → Forall ok l →
  decodes (read_n (Z.to_nat (len l)) m) (concat (enc <$> l)) l.
Proof.
  intros Hm Hl. unfold len. rewrite Nat2Z.id. apply decodes_n.
  eapply Forall_impl; [exact Hl|exact Hm].
Qed.

Lemma len_concat_const {A} (enc : A → bytes) k l :
  (∀ a, len (enc a) = k) → len (concat (enc <$> l)) = len l * k.
Proof.
  intros Hk. induction l as [|a l IH]; [done|].
  rewrite fmap_cons, concat_cons, len_app, IH, Hk, len_cons. lia.
Qed.

(** Reading a block from its start to its end. *)
Lemma decodes_block {A} (m : Rd A) bs a :
  decodes m bs a → ∃ r, m (mkReader bs 0) = Ok (a, r).
Proof. intros Hm. eexists. apply (Hm (mkReader bs 0) []). exists []. by rewrite app_nil_r. Qed.

Lemma decodes_after {A} (m : Rd A) (pre bs : bytes) a :
  decodes m bs a → ∃ r, m (advance (mkReader (pre ++ bs) 0) (len pre)) = Ok (a, r).
Proof. intros Hm. eexists. apply (Hm _ []). exists pre. by rewrite app_nil_r. Qed.

Lemma parse_warp_bytes w :
  payload_ok (PWarp w) → parse_warp_rectilinear (payload_bytes (PWarp w)) = Ok (Some w).
Proof.
  intros (Hn & Hc & Hx & Hy). unfold parse_warp_rectilinear.
  set (body := concat (coeff_bytes <$> coefficients w) ++ u64_bytes (warp_cx w) ++
    u64_bytes (warp_cy w) ++ []).
  change (payload_bytes (PWarp w)) with (be32_bytes (len (coefficients w)) ++ body).
  assert (len body = len (coefficients w) * 48 + 16) as Hb.
  { unfold body. by rewrite !len_app, (len_concat_const coeff_bytes 48). }
  rewrite !len_app, Hb, len_be32_bytes.
  rewrite (proj2 (Z.ltb_ge _ 4)) by lia.
  rewrite (decodes_u32 (len (coefficients w))) with (rest := body);
    [|unfold is_u; lia|by exists []].
  rewrite Ok_bind. unfold kMaxWarpPlanes.
  rewrite (proj2 (Z.eqb_neq (len _) 0)), (proj2 (Z.ltb_ge 4 _)) by lia. simpl orb. cbn iota.
  rewrite (proj2 (exact_size_spec _ _)) by (rewrite len_app, len_be32_bytes; lia).
  simpl negb. cbn iota.
  edestruct (decodes_after (cs ← read_n (Z.to_nat (len (coefficients w))) read_coefficient;
    cx ← read_double; cy ← read_double; mret (mkWarp cs cx cy))
    (be32_bytes (len (coefficients w))) body) as (r & ->); [|done].
  destruct w. eapply decodes_bind; [by eapply decodes_counted; [apply decodes_coefficient|]|].
  do 2 decodes_step. apply decodes_ret.
Qed.

Lemma parse_list_bytes l :
  payload_ok (PBadList l) → len (payload_bytes (PBadList l)) < 2 ^ 32 →
  parse_fix_bad_pixels_list (payload_bytes (PBadList l)) = Ok (Some l).
Proof.
  intros (Hp & Hps & Hrs) Hlen. unfold parse_fix_bad_pixels_list.
  set (body := concat (point_bytes <$> bad_points l) ++ concat (rect_bytes <$> bad_rects l) ++ []).
  set (hdr := be32_bytes (bl_bayer_phase l) ++ be32_bytes (len (bad_points l)) ++
    be32_bytes (len (bad_rects l)) ++ []).
  change (payload_bytes (PBadList l)) with (hdr ++ body) in *.
  assert (len body = len (bad_points l) * 8 + len (bad_rects l) * 16) as Hb.
  { unfold body. rewrite !len_app, len_nil, (len_concat_const point_bytes 8),
      (len_concat_const rect_bytes 16) by done. lia. }
  pose proof (len_nonneg (bad_points l)). pose proof (len_nonneg (bad_rects l)).
  assert (len (hdr ++ body) = 12 + len body) as Hl by (by rewrite len_app).
  rewrite (proj2 (Z.ltb_ge _ (3 * 4))) by lia.
  assert (decodes (phase ← read_u32; points ← read_u32; rects ← read_u32;
    mret (phase, points, rects)) hdr
    (bl_bayer_phase l, len (bad_points l), len (bad_rects l))) as Hd.
  { decodes_step. eapply decodes_bind; [apply decodes_u32; unfold is_u; lia|].
    eapply decodes_bind; [apply decodes_u32; unfold is_u; lia|]. apply decodes_ret. }
  rewrite (Hd _ body) by by exists []. rewrite Ok_bind.
  rewrite checked_list_size_exact by (unfold is_u; lia).
  rewrite (proj2 (exact_size_spec _ _)) by lia. simpl negb. cbn iota.
  edestruct (decodes_after (ps ← read_n (Z.to_nat (len (bad_points l))) read_point;
    rs ← read_n (Z.to_nat (len (bad_rects l))) read_rect; mret (mkBadList (bl_bayer_phase l) ps rs))
    hdr body) as (r & ->); [|done].
  destruct l. eapply decodes_bind; [by eapply decodes_counted; [apply decodes_point|]|].
  eapply decodes_bind; [by eapply decodes_counted; [apply decodes_rect|]|]. apply decodes_ret.
Qed.

Lemma parse_vignette_bytes v :
  payload_ok (PVignette v) → parse_fix_vignette_radial (payload_bytes (PVignette v)) = Ok (Some v).
Proof.
  intros (Hn & Hk & Hx & Hy). unfold parse_fix_vignette_radial.
  rewrite (proj2 (exact_size_spec _ _)).
  2: { unfold payload_bytes. rewrite !len_app, (len_concat_const u64_bytes 8), !len_u64_bytes by done.
       unfold len. rewrite Hn. done. }
  simpl negb. cbn iota.
  edestruct (decodes_block (k ← read_n 5 read_double; cx ← read_double; cy ← read_double;
    mret (mkVignette k cx cy)) (payload_bytes (PVignette v))) as (r & ->); [|done].
  destruct v as [k cx cy]. cbn [vig_k vig_cx vig_cy payload_bytes] in *. eapply decodes_bind.
  { rewrite <-Hn. apply decodes_n. eapply Forall_impl; [exact Hk|]. apply decodes_u64. }
  do 2 decodes_step. apply decodes_ret.
Qed.

Lemma parse_opcode_bytes version fl p :
  opcode3_ok (version, fl, p) →
  parse_opcode (payload_raw_id p) version fl (payload_bytes p) = Ok (opcode_of version fl p).
Proof.
  intros (_ & _ & Hp & Hlen & Hopt). unfold parse_opcode.
  destruct p as [w|v|c|l|t|raw params]; cbn [payload_raw_id op_id].
  - rewrite decide_False by done. unfold parse_known_opcode. simpl op_id. cbn iota.
    by rewrite parse_warp_bytes.
  - rewrite decide_False by done. unfold parse_known_opcode. simpl op_id. cbn iota.
    by rewrite parse_vignette_bytes.
  - rewrite decide_False by done. unfold parse_known_opcode, parse_fix_bad_pixels_constant.
    simpl op_id. cbn iota. rewrite (proj2 (exact_size_spec _ _)) by done. simpl negb. cbn iota.
    edestruct (decodes_block (constant ← read_u32; phase ← read_u32;
      mret (mkBadConstant constant phase)) (payload_bytes (PBadConstant c))) as (r & ->); [|done].
    destruct c, Hp. do 2 decodes_step. apply decodes_ret.
  - rewrite decide_False by done. unfold parse_known_opcode. simpl op_id. cbn iota.
    by rewrite parse_list_bytes.
  - rewrite decide_False by done. unfold parse_known_opcode, parse_trim_bounds.
    simpl op_id. cbn iota. rewrite (proj2 (exact_size_spec _ _)) by done. simpl negb. cbn iota.
    edestruct (decodes_block (top ← read_u32; left ← read_u32; bottom ← read_u32;
      right ← read_u32; mret (mkTrim top left bottom right)) (payload_bytes (PTrim t)))
      as (r & ->); [|done].
    destruct t. destruct Hp as (? & ? & ? & ?). do 4 decodes_step. apply decodes_ret.
  - destruct Hp as (_ & Hu & _). rewrite decide_True by done. unfold opcode_of.
    assert (Z.land fl kOptionalFlag =? 0 = false) as E by (by apply Z.eqb_neq).
    simpl. by rewrite E.
Qed.

Lemma payload_raw_id_ok p : payload_ok p → is_u 32 (payload_raw_id p).
Proof. destruct p; simpl; [done..|]. by intros [? _]. Qed.

Lemma decodes_opcode_header3 a b c d :
  is_u 32 a → is_u 32 b → is_u 32 c → is_u 32 d →
  decodes read_opcode_header3
    (be32_bytes a ++ be32_bytes b ++ be32_bytes c ++ be32_bytes d ++ []) (a, b, c, d).
Proof. intros. unfold read_opcode_header3. do 4 decodes_step. apply decodes_ret. Qed.

Lemma parse_loop3_ops ops : ∀ fuel i r acc,
  (length ops ≤ fuel)%nat → Forall opcode3_ok ops →
  stands_before r (concat (opcode3_bytes <$> ops)) →
  parse_loop3 fuel i (i + len ops) r acc
  = Ok (acc ++ ((λ x, opcode_of x.1.1 x.1.2 x.2) <$> ops)).
Proof.
  induction ops as [|[[version fl] p] ops IH]; intros fuel i r acc Hf Hok Hr.
  { rewrite len_nil, app_nil_r. destruct fuel; cbn [parse_loop3];
      by rewrite (proj2 (Z.leb_le _ _)) by lia. }
  apply Forall_cons in Hok as [Ho Hok]. destruct fuel as [|fuel]; [simpl in Hf; lia|].
  rewrite fmap_cons, concat_cons in Hr. rewrite len_cons. pose proof (len_nonneg ops).
  pose proof Ho as (Hve & Hfl & Hp & Hlen & _). pose proof (len_nonneg (payload_bytes p)).
  set (hdr := be32_bytes (payload_raw_id p) ++ be32_bytes version ++ be32_bytes fl ++
    be32_bytes (len (payload_bytes p)) ++ []).
  set (rest := concat (opcode3_bytes <$> ops)) in *.
  change (opcode3_bytes (version, fl, p)) with (hdr ++ payload_bytes p) in Hr.
  rewrite <-app_assoc in Hr. destruct (Hr) as (pre & E & Eo). pose proof (len_nonneg rest).
  cbn [parse_loop3]. rewrite (proj2 (Z.leb_gt _ i)) by lia.
  assert (len hdr = 16) as Hh by done.
  assert (can_read r kOpcodeHeaderBytes3 = true) as ->.
  { apply can_read_spec. rewrite E, Eo, !len_app, Hh. unfold kOpcodeHeaderBytes3. lia. }
  simpl negb. cbn iota.
  rewrite (decodes_opcode_header3 (payload_raw_id p) version fl (len (payload_bytes p)))
    with (rest := payload_bytes p ++ rest);
    [|by apply payload_raw_id_ok|done|done|unfold is_u; lia|done].
  fold hdr. rewrite Hh, Ok_bind. cbv beta iota.
  assert (can_read (advance r 16) (len (payload_bytes p)) = true) as ->.
  { apply can_read_spec. simpl. rewrite E, Eo, !len_app, Hh. lia. }
  simpl negb. cbn iota.
  assert (subspan (rd_bytes (advance r 16)) (rd_offset (advance r 16)) (len (payload_bytes p))
    = payload_bytes p) as ->.
  { simpl. rewrite E, Eo, app_assoc, <-Hh, <-len_app. apply subspan_app. }
  rewrite parse_opcode_bytes, Ok_bind by done. rewrite advance_add.
  replace (i + (1 + len ops)) with (i + 1 + len ops) by lia.
  rewrite IH; [by rewrite <-app_assoc|simpl in Hf; lia|done|].
  rewrite <-Hh, <-len_app. apply stands_before_advance. by rewrite <-app_assoc.
Qed.

Lemma length_list3_bytes ops : (length ops < length (list3_bytes ops))%nat.
Proof.
  unfold list3_bytes. rewrite length_app. simpl length at 2.
  induction ops as [|o ops IH]; [simpl; lia|]. rewrite fmap_cons, concat_cons, length_app.
  simpl length at 1. assert (1 ≤ length (opcode3_bytes o))%nat; [|lia].
  destruct o as [[? ?] ?]. unfold opcode3_bytes. rewrite length_app. simpl. lia.
Qed.

(** ** Theorems *)

Lemma parse_returns (reserve_ok : Z → bool) (bs : bytes) :
  bytes_ok bs → (∀ n, is_u 32 n → reserve_ok n = true) →
  returns (parse reserve_ok bs) (Forall opcode_wf).
Proof.
  intros Hok Hres. unfold parse. destruct bs as [|b bs']; [by constructor|].
  set (bs := b :: bs') in *. destruct (can_read (mkReader bs 0) 4) eqn:E; [|done].
  apply can_read_spec in E as [_ E]. simpl in E. simpl negb. cbn iota.
  destruct (reads_u32 (mkReader bs 0)) as (count & -> & Hc); [simpl; lia..|].
  rewrite Ok_bind, Hres by auto. simpl negb. cbn iota.
  apply parse_loop3_returns; [done|simpl; lia| |constructor].
  change (Z.of_nat (length bs)) with (len bs). unfold advance. cbn [rd_bytes rd_offset]. lia.
Qed.

(** Without the reservation the parser gives the same or runs out of memory. *)
Lemma parse_reserve (reserve_ok : Z → bool) (bs : bytes) :
  bytes_ok bs → parse reserve_ok bs = Thrown bad_alloc ∨ returns (parse reserve_ok bs) (Forall opcode_wf).
Proof.
  intros Hok. pose proof (parse_returns (λ _, true) bs Hok ltac:(done)) as Hr. unfold parse in *.
  destruct bs as [|b bs']; [by right|]. destruct (can_read _ 4); [|by right]. cbn [negb] in *.
  destruct (read_u32 _) as [[count r]| | |]; [|by right..]. rewrite Ok_bind in *.
  destruct (reserve_ok count); [by right|by left].
Qed.

(** whatever bytes an OpcodeList3 blob holds, the parser returns once the
    opcode vector can be reserved: no out-of-bounds read, no exception, no loop
    beyond the input; and every opcode it returns is well formed: its identifier,
    optional bit and payload agree, counts are within their limits, and unknown
    opcodes are optional. *)
Theorem parse_safe (reserve_ok : Z → bool) (bs : bytes) :
  bytes_ok bs → (∀ n, is_u 32 n → reserve_ok n = true) →
  returns (parse reserve_ok bs) (Forall opcode_wf).
Proof. apply parse_returns. Qed.

(** C38: a serialised OpcodeList3 parses back to its opcodes, in order and with
    their raw parameters, for every kind of opcode. *)
Theorem parse_roundtrip (reserve_ok : Z → bool) (ops : list (Z * Z * payload)) :
  len ops < 2 ^ 32 → reserve_ok (len ops) = true → Forall opcode3_ok ops →
  parse reserve_ok (list3_bytes ops) = Ok ((λ x, opcode_of x.1.1 x.1.2 x.2) <$> ops).
Proof.
  intros Hlen Hres Hok. pose proof (length_list3_bytes ops) as Hl. pose proof (len_nonneg ops).
  unfold parse. destruct (list3_bytes ops) as [|b bs'] eqn:E; [simpl in Hl; lia|].
  rewrite <-E in *. clear b bs' E.
  assert (stands_before (mkReader (list3_bytes ops) 0)
    (be32_bytes (len ops) ++ concat (opcode3_bytes <$> ops))) as Hst by (by exists []).
  assert (can_read (mkReader (list3_bytes ops) 0) 4 = true) as ->.
  { apply can_read_spec. simpl. unfold list3_bytes. rewrite len_app, len_be32_bytes.
    pose proof (len_nonneg (concat (opcode3_bytes <$> ops))). lia. }
  simpl negb. cbn iota.
  rewrite (decodes_u32 (len ops)) with (rest := concat (opcode3_bytes <$> ops));
    [|unfold is_u; lia|done]. rewrite Ok_bind, Hres. simpl negb. cbn iota.
  apply stands_before_advance in Hst.
  apply (parse_loop3_ops ops (length (list3_bytes ops)) 0 _ []); [lia|done|done].
Qed.

(** the opcode count is trusted before anything else is checked: a four-byte
    list announcing 2^32 - 1 opcodes makes the parser reserve that many, and the
    failed allocation escapes as [std::bad_alloc] instead of a parse error. *)
Theorem parse_trusts_count (reserve_ok : Z → bool) :
  (reserve_ok (2 ^ 32 - 1) = false → parse reserve_ok [255; 255; 255; 255] = Thrown bad_alloc) ∧
  (reserve_ok (2 ^ 32 - 1) = true →
    parse reserve_ok [255; 255; 255; 255]
    = Fail CPIPE_FAILED "OpcodeList3 opcode header truncated").
Proof.
  unfold parse. simpl can_read. simpl negb. cbn iota.
  change (read_u32 _) with (Ok (2 ^ 32 - 1, mkReader [255; 255; 255; 255] 4)).
  rewrite Ok_bind. split; intros ->; done.
Qed.

(** ** Witnesses *)

Definition example_ops : list (Z * Z * payload) :=
  [ (0x01030000, 0, PWarp (mkWarp [mkCoeff 0x3ff0000000000000 0 0 0 0 0] 1 2));
    (0x01030000, 1, PUnknown 77 [1; 2; 3]);
    (0x01030000, 0, PBadList (mkBadList 0 [mkPoint 3 4] [mkBadRect 0 0 2 2])) ].

Lemma example_ops_ok : Forall opcode3_ok example_ops.
Proof.
  repeat (constructor; [unfold opcode3_ok; split; [done|split; [done|split; [|done]]]|]);
    [..|constructor].
  - split; [done|]. split; [|done]. by repeat constructor.
  - split; [done|]. split; [done|]. by repeat constructor.
  - split; [done|]. split; by repeat constructor.
Qed.

Lemma parse_safe_witness : returns (parse (λ _, true) [0; 0; 0; 1; 9]) (Forall opcode_wf).
Proof. apply parse_safe; [by repeat constructor|done]. Defined.

Lemma parse_roundtrip_witness :
  parse (λ n, n <? 100) (list3_bytes example_ops)
  = Ok ((λ x, opcode_of x.1.1 x.1.2 x.2) <$> example_ops).
Proof. apply parse_roundtrip; [done|done|apply example_ops_ok]. Defined.
