(* ===== verification/Json.v ===== *)
(** * The JSON library as an interface

    The sources read node manifests, pipeline documents and editor messages
    through nlohmann::json, a third-party package.  [JsonLib] lists the operations
    they use as parameters; [JsonLaws] states the documented behaviour that the
    theorems rely on.  [Tree] is a small implementation that satisfies the laws:
    it shows that they can hold and lets concrete pipelines be evaluated. *)

From Stdlib Require Import ZArith Lia SpecFloat.
From stdpp Require Import prelude strings list pretty.
From S2P Require Import Prelude Core.

(** The operations used: parsing (which throws on malformed text), construction,
    type tests, conversions ([get<T>], which throw [type_error]), lookup ([at]
    throws, [find] does not), [value(key, default)], iteration over the elements
    or items of a value, and assignment through [operator[]]. *)
Class JsonLib : Type := {
  json : Type;
  json_parse : string → option json;
  json_null : json;
  json_bool : bool → json;
  json_uint : Z → json;
  json_string : string → json;
  json_array : list json → json;
  json_object : list (string * json) → json;
  is_null : json → bool;
  is_boolean : json → bool;
  is_number : json → bool;
  is_number_integer : json → bool;
  is_string : json → bool;
  is_array : json → bool;
  is_object : json → bool;
  get_string : json → res string;
  get_strings : json → res (list string);
  get_bool : json → res bool;
  get_u64 : json → res Z;
  get_u32 : json → res Z;
  get_i64 : json → res Z;
  get_double : json → res float64;
  get_float : json → res float32;
  at_key : json → string → res json;
  find_key : json → string → option json;
  value_or : ∀ {A : Type}, (json → res A) → json → string → A → res A;
  elements : json → list json;
  items : json → list (string * json);
  set_key : json → string → json → res json
}.

(** [json::parse(text)] as the callers see it. *)
Definition parse_json `{JsonLib} (text : string) : res json :=
  of_option (Thrown parse_error) (json_parse text).

(** [get<nlohmann::json>]: the value itself. *)
Definition get_json `{JsonLib} (j : json) : res json := Ok j.

Definition contains `{JsonLib} (j : json) (key : string) : bool :=
  bool_decide (is_Some (find_key j key)).

Fixpoint assoc {A} (key : string) (l : list (string * A)) : option A :=
  match l with
  | [] => None
  | (k, v) :: l' => if String.eqb k key then Some v else assoc key l'
  end.

(** A number stored as a double. *)
Definition floating `{JsonLib} (j : json) : bool := is_number j && negb (is_number_integer j).

Class JsonLaws (J : JsonLib) : Prop := {
  (** [value]: the converted member when the key is present, the default when it
      is absent, [type_error] on a value that is not an object. *)
  value_or_found A (conv : json → res A) j key d v :
    is_object j = true → find_key j key = Some v → value_or conv j key d = conv v;
  value_or_missing A (conv : json → res A) j key d :
    is_object j = true → find_key j key = None → value_or conv j key d = Ok d;
  value_or_non_object A (conv : json → res A) j key d :
    is_object j = false → value_or conv j key d = Thrown type_error;
  (** [find] and [at]. *)
  find_key_non_object j key : is_object j = false → find_key j key = None;
  at_key_found j key v : find_key j key = Some v → at_key j key = Ok v;
  at_key_missing j key : find_key j key = None → ∃ e, at_key j key = Thrown e;
  (** Constructed values read back. *)
  get_string_mk s : get_string (json_string s) = Ok s;
  is_object_mk l : is_object (json_object l) = true;
  find_key_mk l key : NoDup l.*1 → find_key (json_object l) key = assoc key l;
  (** Conversions succeed exactly on values of their type; only the conversion of
      a floating-point number to an integer type, an unchecked cast, may be
      undefined. *)
  get_string_type j : is_string j = true ↔ ∃ s, get_string j = Ok s;
  get_string_throws j : is_string j = false → get_string j = Thrown type_error;
  get_strings_defined j : defined (get_strings j);
  get_u64_defined j : floating j = false → defined (get_u64 j);
  get_double_number j : is_number j = true → ∃ d, get_double j = Ok d;
  get_float_number j : is_number j = true → ∃ d, get_float j = Ok d;
  get_i64_integer j : is_number_integer j = true → ∃ z, get_i64 j = Ok z;
  get_bool_boolean j : is_boolean j = true → ∃ b, get_bool j = Ok b;
  is_object_null : is_null json_null = true;
  is_null_object j : is_object j = true → is_null j = false;
  (** Assignment to a member of an object changes that member only. *)
  set_key_object j key v :
    is_object j = true →
    ∃ j', set_key j key v = Ok j' ∧ is_object j' = true ∧ find_key j' key = Some v ∧
      ∀ key', key' ≠ key → find_key j' key' = find_key j key'
}.

(** [m] returns or throws an exception that handlers catch. *)
Definition throws_only {A} (m : res A) : Prop :=
  match m with Ok _ => True | Thrown e => e ≠ aborted | Fail _ _ | Undef => False end.

(** What the editor server uses besides: signed integers, [dump] (which throws on
    text that is not UTF-8) and assignment to an element met while iterating. *)
Class JsonWrite (J : JsonLib) : Type := {
  json_int : Z → json;
  json_dump : json → res string;
  set_element : json → nat → json → json
}.

Class JsonWriteLaws (J : JsonLib) (W : JsonWrite J) : Prop := {
  (** Iteration over an array or object sees what was assigned. *)
  elements_set j i v :
    is_array j || is_object j = true → elements (set_element j i v) = <[i := v]> (elements j);
  elements_array l : elements (json_array l) = l;
  (** Iteration over a scalar visits the scalar itself, or nothing. *)
  elements_scalar j v :
    is_array j || is_object j = false → v ∈ elements j → is_object v = false;
  (** Indexing a null value with a key makes it an object with that member. *)
  set_key_null j key v :
    is_null j = true → ∃ j', set_key j key v = Ok j' ∧ is_object j' = true ∧ find_key j' key = Some v ∧
      ∀ key', key' ≠ key → find_key j' key' = None;
  set_key_type j key v j' : set_key j key v = Ok j' → is_object j || is_null j = true;
  get_u64_uint z : is_u 64 z → get_u64 (json_uint z) = Ok z;
  get_u32_range j z : get_u32 j = Ok z → is_u 32 z;
  (** Calls return a value or throw one of the library's exceptions, the cast of a
      double excepted. *)
  get_u32_call j : floating j = false → throws_only (get_u32 j);
  set_key_call j key v : throws_only (set_key j key v);
  at_key_call j key : throws_only (at_key j key);
  json_dump_call j : throws_only (json_dump j)
}.

(** ** A concrete implementation *)

Module Tree.

Inductive tree : Type :=
| JNull
| JBool (b : bool)
| JInt (z : Z)
| JUint (z : Z)
| JFloat (f : float64)
| JString (s : string)
| JArray (l : list tree)
| JObject (l : list (string * tree)).

(** Members in key order, later duplicates of a key dropped. *)
Fixpoint obj_insert (key : string) (v : tree) (l : list (string * tree)) : list (string * tree) :=
  match l with
  | [] => [(key, v)]
  | (k, w) :: l' =>
      match String.compare key k with
      | Lt => (key, v) :: (k, w) :: l'
      | Eq => (key, v) :: l'
      | Gt => (k, w) :: obj_insert key v l'
      end
  end.

Definition mk_object (l : list (string * tree)) : tree :=
  JObject (foldr (λ kv acc, obj_insert kv.1 kv.2 acc) [] l).

Definition as_string (j : tree) : res string :=
  match j with JString s => Ok s | _ => Thrown type_error end.
Definition as_bool (j : tree) : res bool :=
  match j with JBool b => Ok b | _ => Thrown type_error end.
(** The cast of a double: its value without the fraction, undefined when that is
    no [w]-bit integer. *)
Definition cast_unsigned (w : Z) (f : float64) : res Z :=
  match f with
  | S754_zero _ => Ok 0%Z
  | S754_finite s m e =>
      let a := (if 0 <=? e then Z.pos m * 2 ^ e else Z.pos m / 2 ^ (- e))%Z in
      let z := if s then (- a)%Z else a in
      if ((0 <=? z) && (z <? 2 ^ w))%Z then Ok z else Undef
  | _ => Undef
  end.

Definition as_Z (w : Z) (j : tree) : res Z :=
  match j with JInt z | JUint z => Ok (wrap w z) | JBool b => Ok (if b then 1 else 0)%Z
  | JFloat f => cast_unsigned w f
  | _ => Thrown type_error end.
Definition as_float (prec emax : Z) (j : tree) : res spec_float :=
  match j with
  | JInt z | JUint z => Ok (binary_normalize prec emax z 0 false)
  | JFloat f => Ok f
  | JBool b => Ok (binary_normalize prec emax (if b then 1 else 0) 0 false)
  | _ => Thrown type_error
  end.
Definition as_strings (j : tree) : res (list string) :=
  match j with
  | JArray l => foldr (λ x acc, s ← as_string x; r ← acc; Ok (s :: r)) (Ok []) l
  | _ => Thrown type_error
  end.
Definition find (j : tree) (key : string) : option tree :=
  match j with JObject l => assoc key l | _ => None end.
Definition at_ (j : tree) (key : string) : res tree :=
  match j with
  | JObject l => of_option (Thrown out_of_range) (assoc key l)
  | _ => Thrown type_error
  end.
Definition value {A} (conv : tree → res A) (j : tree) (key : string) (d : A) : res A :=
  match j with
  | JObject l => match assoc key l with Some v => conv v | None => Ok d end
  | _ => Thrown type_error
  end.
Definition set (j : tree) (key : string) (v : tree) : res tree :=
  match j with
  | JObject l => Ok (JObject (obj_insert key v l))
  | JNull => Ok (JObject [(key, v)])
  | _ => Thrown type_error
  end.

(** The library over a given set of parsed texts. *)
Definition lib (docs : string → option tree) : JsonLib := {|
  json := tree;
  json_parse := docs;
  json_null := JNull; json_bool := JBool; json_uint := JUint; json_string := JString;
  json_array := JArray; json_object := mk_object;
  is_null j := match j with JNull => true | _ => false end;
  is_boolean j := match j with JBool _ => true | _ => false end;
  is_number j := match j with JInt _ | JUint _ | JFloat _ => true | _ => false end;
  is_number_integer j := match j with JInt _ | JUint _ => true | _ => false end;
  is_string j := match j with JString _ => true | _ => false end;
  is_array j := match j with JArray _ => true | _ => false end;
  is_object j := match j with JObject _ => true | _ => false end;
  get_string := as_string; get_strings := as_strings; get_bool := as_bool;
  get_u64 := as_Z 64; get_u32 := as_Z 32;
  get_i64 j := match j with JInt z | JUint z => Ok z | _ => Thrown type_error end;
  get_double := as_float 53 1024; get_float := as_float 24 128;
  at_key := at_; find_key := find; value_or := @value;
  elements j := match j with
                | JArray l => l | JObject l => l.*2 | JNull => [] | j => [j] end;
  items j := match j with
             | JObject l => l | JArray l => imap (λ i x, (pretty i, x)) l
             | JNull => [] | j => [("", j)] end;
  set_key := set
|}.

Lemma compare_eq a b : String.compare a b = Eq ↔ a = b.
Proof.
  split; [apply String.compare_eq_iff|]. intros ->.
  induction b as [|c b IH]; [done|]. simpl. unfold Ascii.compare. by rewrite N.compare_refl.
Qed.

Lemma assoc_insert key v l k :
  assoc k (obj_insert key v l) = if String.eqb key k then Some v else assoc k l.
Proof.
  induction l as [|[k0 w] l IH]; simpl; [done|].
  destruct (String.compare key k0) eqn:E; simpl; [|done|].
  - apply compare_eq in E as ->. by destruct (String.eqb k0 k).
  - rewrite IH. destruct (String.eqb_spec k0 k), (String.eqb_spec key k); try done.
    subst. by rewrite (proj2 (compare_eq k k)) in E.
Qed.

Lemma assoc_mk_object l k :
  NoDup l.*1 → assoc k (foldr (λ kv acc, obj_insert kv.1 kv.2 acc) [] l) = assoc k l.
Proof.
  induction l as [|[k0 v] l IH]; intros Hnd; [done|]. simpl. rewrite assoc_insert.
  apply NoDup_cons in Hnd as [_ Hnd]. by rewrite IH.
Qed.

Lemma cast_unsigned_range w f z : cast_unsigned w f = Ok z → (0 ≤ w)%Z → is_u w z.
Proof.
  unfold is_u, cast_unsigned. pose proof (Z.pow_pos_nonneg 2 w eq_refl) as Hp.
  destruct f; intros Hz Hw; simplify_eq/=; [lia|]. case_match eqn:Hr; [|done]. simplify_eq.
  apply andb_true_iff in Hr as [H1%Z.leb_le H2%Z.ltb_lt]. lia.
Qed.

Lemma as_strings_defined j : defined (as_strings j).
Proof.
  destruct j; try done. simpl. induction l as [|x l IH]; [done|]. simpl.
  apply bind_defined; [by destruct x|]. intros. apply bind_defined; [done|]. done.
Qed.

#[export] Instance lib_laws docs : JsonLaws (lib docs).
Proof.
  split; simpl; try done.
  - intros A conv [] key d v Ho Hf; try done. simpl in *. by rewrite Hf.
  - intros A conv [] key d Ho Hf; try done. simpl in *. by rewrite Hf.
  - by intros A conv [] key d Ho.
  - by intros [] key Ho.
  - intros [] key v Hf; try done. simpl in *. by rewrite Hf.
  - intros [] key Hf; simpl in *; eauto. rewrite Hf. simpl. eauto.
  - intros l key Hnd. by apply assoc_mk_object.
  - intros j. split; [destruct j; naive_solver|by intros [s Hs]; destruct j].
  - by intros [].
  - intros j. apply as_strings_defined.
  - by intros [].
  - intros []; naive_solver.
  - intros []; naive_solver.
  - intros []; naive_solver.
  - intros []; naive_solver.
  - by intros [].
  - intros [] key v Ho; try done. exists (JObject (obj_insert key v l)). simpl.
    split_and!; [done..| |].
    + rewrite assoc_insert. by rewrite String.eqb_refl.
    + intros key' Hne. rewrite assoc_insert.
      destruct (String.eqb_spec key key'); congruence.
Qed.

(** Text of a tree; fractions, which the examples have none of, print as zero. *)
Fixpoint dump (j : tree) : string :=
  let sep := λ (l : list string), match l with [] => "" | x :: l' => x +:+ foldr (λ y acc, "," +:+ y +:+ acc) "" l' end in
  match j with
  | JNull => "null"
  | JBool b => if b then "true" else "false"
  | JInt z | JUint z => pretty z
  | JFloat _ => "0.0"
  | JString s => "'" +:+ s +:+ "'"
  | JArray l => "[" +:+ sep (map dump l) +:+ "]"
  | JObject l => "{" +:+ sep (map (λ kv, "'" +:+ kv.1 +:+ "':" +:+ dump kv.2) l) +:+ "}"
  end.

Definition set_elem (j : tree) (i : nat) (v : tree) : tree :=
  match j with
  | JArray l => JArray (<[i := v]> l)
  | JObject l => JObject (imap (λ k kv, if decide (k = i) then (kv.1, v) else kv) l)
  | JNull => JNull
  | j => if decide (i = 0) then v else j
  end.

Definition write (docs : string → option tree) : JsonWrite (lib docs) := {|
  json_int := JInt : Z → @json (lib docs);
  json_dump := (λ j, Ok (dump j)) : @json (lib docs) → res string;
  set_element := set_elem
|}.

#[export] Instance write_laws docs : JsonWriteLaws (lib docs) (write docs).
Proof.
  split; simpl; try done.
  - intros [] i v Ht; try done. simpl. clear Ht. revert i.
    induction l as [|[k w] l IH]; intros [|i]; simpl; try done; f_equal.
    + apply list_eq. intros n. rewrite !list_lookup_fmap, list_lookup_imap. by destruct (l !! n).
    + transitivity (imap (λ k kv, if decide (k = i) then (kv.1, v) else kv) l).*2; [|apply IH].
      apply list_eq. intros n. rewrite !list_lookup_fmap, !list_lookup_imap.
      destruct (l !! n) as [[]|]; [|done]. simpl. by repeat case_decide; simplify_eq.
  - intros [] v Ht; simpl in *; try done; set_solver.
  - intros [] key v Hn; try done. exists (JObject [(key, v)]). simpl. rewrite String.eqb_refl.
    split_and!; try done. intros key' Hne. by destruct (String.eqb_spec key key').
  - by intros [] key v j' Hj.
  - intros z Hz. f_equal. by apply wrap_small.
  - intros [] y Hy; simplify_eq/=; try (by apply wrap_bound); [by destruct b|by apply (cast_unsigned_range 32 f)].
  - by intros [].
  - by intros [].
  - intros [] key; try done. simpl. by destruct (assoc key l).
Qed.

End Tree.
