(* ===== verification/Registry.v ===== *)
(** * Plugin descriptors and the node registry

    Models [cpipe_plugin_desc_t] of include/cpipe/sdk/cpipe_node.h and
    src/cpipe/runtime/Registry.cpp.  A null C string or function pointer is
    [None]; an entry point is an opaque identity, its behaviour belongs to the
    plugin. *)

From Stdlib Require Import ZArith Lia.
From stdpp Require Import prelude strings list.
From S2P Require Import Prelude.

Definition CPIPE_ABI_MAJOR : Z := 0.
Definition CPIPE_ABI_MINOR : Z := 4.

Record cpipe_plugin_desc_t : Type := mkDesc {
  abi_major : Z;
  abi_minor : Z;
  node_id : option string;
  node_version : option string;
  manifest_json : option string;
  main_entry : option nat
}.

#[export] Instance desc_eq_dec : EqDecision cpipe_plugin_desc_t.
Proof. solve_decision. Defined.

(** [descriptors_]. *)
Abbreviation Registry := (list cpipe_plugin_desc_t).

(** The descriptors of the linker section are filtered by presence of an id and
    an entry point and by ABI version; [None] stands for the undefined weak
    section symbols. *)
Definition load_builtin_nodes (section : option (list cpipe_plugin_desc_t)) : Registry :=
  match section with
  | None => []
  | Some descs =>
      filter (λ d, ¬ (node_id d = None ∨ main_entry d = None ∨
        abi_major d ≠ CPIPE_ABI_MAJOR ∨ (CPIPE_ABI_MINOR < abi_minor d)%Z)) descs
  end.

(** [None] is the null pointer. *)
Fixpoint find (r : Registry) (id : string) : option cpipe_plugin_desc_t :=
  match r with
  | [] => None
  | d :: r' => if decide (node_id d = Some id) then Some d else find r' id
  end.

(** ** Theorems *)

(** a node type resolves exactly when the linked section has a descriptor
    with that id, an entry point and a compatible ABI, and it resolves to the
    first such descriptor: an ABI-incompatible descriptor never shadows a usable
    one. *)
Theorem find_loaded (descs : list cpipe_plugin_desc_t) (id : string) (d : cpipe_plugin_desc_t) :
  find (load_builtin_nodes (Some descs)) id = Some d ↔
  ∃ before after, descs = before ++ d :: after ∧ node_id d = Some id ∧
    (is_Some (main_entry d) ∧ abi_major d = CPIPE_ABI_MAJOR ∧ (abi_minor d ≤ CPIPE_ABI_MINOR)%Z) ∧
    ∀ e, e ∈ before → ¬ (node_id e = Some id ∧ is_Some (main_entry e) ∧
      abi_major e = CPIPE_ABI_MAJOR ∧ (abi_minor e ≤ CPIPE_ABI_MINOR)%Z).
Proof.
  unfold load_builtin_nodes. induction descs as [|e descs IH].
  { split; [done|]. intros ([] & ? & ? & _); discriminate. }
  rewrite filter_cons. destruct (decide _) as [Hc|Hc].
  - assert (is_Some (main_entry e) ∧ abi_major e = CPIPE_ABI_MAJOR ∧
      (abi_minor e ≤ CPIPE_ABI_MINOR)%Z) as Hok.
    { rewrite <-not_eq_None_Some. split_and!; [tauto| |lia].
      apply dec_stable. tauto. }
    simpl. case_decide as Hid.
    + split; [intros [= <-]; exists [], descs; set_solver|].
      intros ([|x before] & after & E & Hn & Hd & Hno); [naive_solver|].
      simplify_eq/=. exfalso. apply (Hno x); [left|]. tauto.
    + rewrite IH. split.
      * intros (before & after & -> & ? & ? & Hno). exists (e :: before), after.
        do 3 (split; [done|]). intros x [->|]%elem_of_cons; [tauto|by apply Hno].
      * intros ([|x before] & after & E & ? & ? & Hno); simplify_eq/=.
        exists before, after. do 3 (split; [done|]). intros. apply Hno. by right.
  - assert (∀ i, ¬ (node_id e = Some i ∧ is_Some (main_entry e) ∧
      abi_major e = CPIPE_ABI_MAJOR ∧ (abi_minor e ≤ CPIPE_ABI_MINOR)%Z)) as Hbad.
    { intros i (Hi & [x Hx] & ? & ?). apply Hc. rewrite Hi, Hx. intuition (try congruence; lia). }
    rewrite IH. split.
    * intros (before & after & -> & ? & ? & Hno). exists (e :: before), after.
      do 3 (split; [done|]). intros x [->|]%elem_of_cons; [apply Hbad|by apply Hno].
    * intros ([|x before] & after & E & ? & ? & Hno); simplify_eq/=; [by destruct (Hbad id)|].
      exists before, after. do 3 (split; [done|]). intros. apply Hno. by right.
Qed.
