(* ===== verification/MemoryPlanner.v ===== *)
(** * The memory planner

    Models src/cpipe/runtime/MemoryPlanner.cpp: topological order, live ranges of
    the node outputs, interference graph, greedy colouring into physical slots,
    and the peak size.  Node indices and positions are naturals; byte counts are
    64-bit and wrap.

    The theorems: the order is topological when the graph is acyclic; every node
    gets exactly one slot, and no node executed between a producer and one of its
    consumers writes into the producer's slot; the number of slots is the maximum
    number of simultaneously live buffers, which is the chromatic number of the
    interference graph; the peak is the input plus, for every slot, the largest
    buffer in it. *)

From Stdlib Require Import ZArith Lia.
From stdpp Require Import prelude strings list relations.
From S2P Require Import Prelude Core Json Registry Topo.

Record MemoryGraphEdge : Type := mkEdge { from : nat; to : nat }.

Record MemoryAssignment : Type := mkAssignment {
  buffer_id : nat;
  ma_node_index : nat;
  ma_physical_slot : nat;
  ma_size_bytes : Z
}.

Record MemoryPlan : Type := mkPlan {
  peak_bytes : Z;
  physical_slot_count : nat;
  assignments : list MemoryAssignment
}.

Definition pixel_count (l : BufferLayout) : Z :=
  if (ndim l <? 2)%Z then 0 else u64 (nth8 (dims l) 0 * nth8 (dims l) 1).

Definition output_bytes_per_pixel `{JsonLib} (desc : option cpipe_plugin_desc_t) : res Z :=
  match desc ≫= manifest_json with
  | None => Ok 0%Z
  | Some text =>
      manifest ← parse_json text;
      compute ← value_or get_json manifest "compute" (json_object []);
      value_or get_u64 compute "out_pixel_bytes" 0%Z
  end.

(** Edges with an index out of range are skipped. *)
Definition topological_graph (node_count : nat) (edges : list MemoryGraphEdge)
    : adjacency_t * list Z :=
  foldl (λ g e, if (node_count <=? from e) || (node_count <=? to e) then g
                else add_edge g (from e, to e)) (empty_graph node_count) edges.

(** The order of the loop, or the identity when it did not reach every node. *)
Definition topological_order (node_count : nat) (edges : list MemoryGraphEdge) : list nat :=
  match kahn node_count (topological_graph node_count edges) with
  | Some order => if decide (length order = node_count) then order else seq 0 node_count
  | None => []
  end.

Record LiveBuffer : Type := mkLive {
  lb_node_index : nat;
  lb_start : nat;
  lb_end : nat;
  lb_size_bytes : Z;
  lb_physical_slot : nat
}.

Definition default_live : LiveBuffer := mkLive 0 0 0 0 0.

Abbreviation InterferenceGraph := (list (list bool)).

Definition overlaps (lhs rhs : LiveBuffer) : bool :=
  (lb_start lhs <? lb_end rhs) && (lb_start rhs <? lb_end lhs).

Definition topological_positions (node_count : nat) (order : list nat) : list nat :=
  foldl (λ positions p, <[p.2 := p.1]> positions) (replicate node_count 0)
    (zip (seq 0 (length order)) order).

Definition make_live_buffers `{JsonLib} (nodes : list (option cpipe_plugin_desc_t))
    (order : list nat) (pixels : Z) : res (list LiveBuffer) :=
  foldM (λ buffers p,
    let '(position, node) := p in
    bpp ← output_bytes_per_pixel (default None (nodes !! node));
    Ok (<[node := mkLive node position (position + 1) (u64 (pixels * bpp)) 0]> buffers))
    (replicate (length nodes) default_live) (zip (seq 0 (length order)) order).

Definition extend_live_ranges (buffers : list LiveBuffer) (topo_position : list nat)
    (edges : list MemoryGraphEdge) : list LiveBuffer :=
  foldl (λ buffers e,
    if (length buffers <=? from e) || (length buffers <=? to e) then buffers else
    alter (λ b, mkLive (lb_node_index b) (lb_start b)
      (Nat.max (lb_end b) (default 0 (topo_position !! to e)))
      (lb_size_bytes b) (lb_physical_slot b)) (from e) buffers) buffers edges.

(** [interference[i][j] = true]. *)
Definition set_cell (g : InterferenceGraph) (i j : nat) : InterferenceGraph :=
  alter (λ row, <[j := true]> row) i g.

Definition get_cell (g : InterferenceGraph) (i j : nat) : bool :=
  default false (g !! i ≫= λ row, row !! j).

Definition build_interference_graph (buffers : list LiveBuffer) : InterferenceGraph :=
  let n := length buffers in
  foldl (λ g lhs,
    foldl (λ g rhs,
      if overlaps (default default_live (buffers !! lhs)) (default default_live (buffers !! rhs))
      then set_cell (set_cell g lhs rhs) rhs lhs else g)
      g (seq (lhs + 1) (n - (lhs + 1))))
    (replicate n (replicate n false)) (seq 0 n).

Definition slot_available (assigned : list LiveBuffer) (interference : InterferenceGraph)
    (current : LiveBuffer) (slot : nat) : bool :=
  forallb (λ other, negb ((lb_physical_slot other =? slot)
    && get_cell interference (lb_node_index current) (lb_node_index other))) assigned.

Definition with_slot (b : LiveBuffer) (slot : nat) : LiveBuffer :=
  mkLive (lb_node_index b) (lb_start b) (lb_end b) (lb_size_bytes b) slot.

(** [for (slot = 0; slot <= slot_sizes->size(); ++slot)]: the first available one. *)
Definition find_slot (assigned : list LiveBuffer) (interference : InterferenceGraph)
    (current : LiveBuffer) (slots : nat) : option nat :=
  head (filter (λ slot, slot_available assigned interference current slot = true)
    (seq 0 (slots + 1))).

Definition color_step (buffers : list LiveBuffer) (interference : InterferenceGraph)
    (st : list LiveBuffer * list Z) (node : nat) : list LiveBuffer * list Z :=
  let '(assigned, slot_sizes) := st in
  let current := default default_live (buffers !! node) in
  match find_slot assigned interference current (length slot_sizes) with
  | None => (assigned, slot_sizes)
  | Some slot =>
      (assigned ++ [with_slot current slot],
       if decide (slot = length slot_sizes) then slot_sizes ++ [lb_size_bytes current]
       else alter (λ s, Z.max s (lb_size_bytes current)) slot slot_sizes)
  end.

Definition color_buffers (buffers : list LiveBuffer) (order : list nat)
    (interference : InterferenceGraph) : list LiveBuffer * list Z :=
  foldl (color_step buffers interference) ([], []) order.

Definition make_plan (input_bytes : Z) (slot_sizes : list Z) (assigned : list LiveBuffer)
    : MemoryPlan :=
  mkPlan (foldl (λ peak s, u64 (peak + s)) input_bytes slot_sizes) (length slot_sizes)
    ((λ b, mkAssignment (lb_node_index b) (lb_node_index b) (lb_physical_slot b)
             (lb_size_bytes b)) <$> assigned).

Definition plan_graph `{JsonLib} (input_layout : BufferLayout)
    (nodes : list (option cpipe_plugin_desc_t)) (edges : list MemoryGraphEdge) : res MemoryPlan :=
  let input_bytes := size_bytes input_layout in
  let pixels := pixel_count input_layout in
  match nodes with
  | [] => Ok (mkPlan input_bytes 0 [])
  | _ =>
      let order := topological_order (length nodes) edges in
      let topo_position := topological_positions (length nodes) order in
      buffers ← make_live_buffers nodes order pixels;
      let buffers := extend_live_ranges buffers topo_position edges in
      let interference := build_interference_graph buffers in
      let '(assigned, slot_sizes) := color_buffers buffers order interference in
      Ok (make_plan input_bytes slot_sizes assigned)
  end.

(** The linear chain of [MemoryPlanner::plan]. *)
Definition plan `{JsonLib} (input_layout : BufferLayout)
    (nodes : list (option cpipe_plugin_desc_t)) : res MemoryPlan :=
  plan_graph input_layout nodes
    ((λ node, mkEdge (node - 1) node) <$> seq 1 (length nodes - 1)).

(** ** Specification vocabulary *)

(** The edges that are looked at: both ends are nodes. *)
Definition valid_edges (n : nat) (edges : list MemoryGraphEdge) : edges_t :=
  filter (λ e : nat * nat, e.1 < n ∧ e.2 < n) ((λ e, (from e, to e)) <$> edges).

(** The size of a node's output. *)
Definition node_size `{JsonLib} (nodes : list (option cpipe_plugin_desc_t)) (pixels : Z) (v : nat)
    : res Z :=
  bpp ← output_bytes_per_pixel (default None (nodes !! v)); Ok (u64 (pixels * bpp)).

(** The output of the node at position [p] of the order is live at step [t]: from
    its own step until just before the last step that reads it. *)
Definition live_at (order : list nat) (es : edges_t) (t p : nat) : Prop :=
  p ≤ t ∧ (t = p ∨ Exists (λ e : nat * nat, order !! p = Some e.1 ∧
    Exists (λ q, order !! q = Some e.2) (seq (S t) (length order - S t))) es).

#[export] Instance live_at_dec order es t p : Decision (live_at order es t p).
Proof. unfold live_at. apply _. Defined.

(** The number of simultaneously live outputs at step [t]. *)
Definition live_count (order : list nat) (es : edges_t) (t : nat) : nat :=
  length (filter (live_at order es t) (seq 0 (length order))).

(** The largest output of a slot. *)
Definition slot_max (l : list MemoryAssignment) (slot : nat) : Z :=
  foldr (λ a m, Z.max (ma_size_bytes a) m) 0%Z (filter (λ a, ma_physical_slot a = slot) l).

(** ** The order *)

Lemma topological_graph_valid n edges :
  topological_graph n edges = graph_of n (valid_edges n edges).
Proof.
  unfold topological_graph, graph_of, valid_edges.
  induction edges as [|e edges IH] using rev_ind; [done|].
  rewrite fmap_app, filter_app, !foldl_app, <-IH. simpl. rewrite filter_cons, filter_nil. simpl.
  case_decide as Hd; simpl.
  - rewrite (proj2 (Nat.leb_gt _ _)), (proj2 (Nat.leb_gt _ _)) by lia. done.
  - destruct (n <=? from e) eqn:E1; [done|]. destruct (n <=? to e) eqn:E2; [done|].
    apply Nat.leb_gt in E1, E2. lia.
Qed.

Lemma valid_edges_in_range n edges : Forall (in_range n) (valid_edges n edges).
Proof. apply Forall_forall. intros e He. by apply list_elem_of_filter in He as [? _]. Qed.

Lemma elem_of_valid_edges n edges u w :
  (u, w) ∈ valid_edges n edges ↔ u < n ∧ w < n ∧ mkEdge u w ∈ edges.
Proof.
  unfold valid_edges. rewrite list_elem_of_filter, list_elem_of_fmap. simpl. split.
  - intros [[??] ([] & [= -> ->] & ?)]. done.
  - intros (? & ? & ?). split; [done|]. by exists (mkEdge u w).
Qed.

Lemma valid_edges_len n edges :
  (len edges < 2 ^ 64)%Z → (len (valid_edges n edges) < 2 ^ 64)%Z.
Proof.
  intros H. unfold valid_edges, len in *. pose proof (length_filter (λ e : nat * nat,
    e.1 < n ∧ e.2 < n) ((λ e, (from e, to e)) <$> edges)) as Hl.
  rewrite length_fmap in Hl. lia.
Qed.

Lemma topological_order_perm n edges :
  (len edges < 2 ^ 64)%Z → topological_order n edges ≡ₚ seq 0 n.
Proof.
  intros Hlen. unfold topological_order. rewrite topological_graph_valid.
  destruct (kahn_spec n (valid_edges n edges)) as (order & Hk & Hnd & Hlt & _);
    [apply valid_edges_in_range|by apply valid_edges_len|].
  rewrite Hk. case_decide; [|done]. by apply length_full_order.
Qed.

Lemma topological_order_nil edges : (len edges < 2 ^ 64)%Z → topological_order 0 edges = [].
Proof. intros Hlen. apply Permutation_nil_r, (topological_order_perm 0 edges Hlen). Qed.

Lemma topological_order_respects n edges :
  (len edges < 2 ^ 64)%Z → acyclic (valid_edges n edges) →
  respects (valid_edges n edges) (topological_order n edges).
Proof.
  intros Hlen Hac. unfold topological_order. rewrite topological_graph_valid.
  destruct (kahn_spec n (valid_edges n edges)) as (order & Hk & _);
    [apply valid_edges_in_range|by apply valid_edges_len|].
  destruct (kahn_complete _ _ _ (valid_edges_in_range n edges) (valid_edges_len n _ Hlen) Hk)
    as (Hiff & _ & _ & Hr).
  rewrite Hk, decide_True by tauto. done.
Qed.

(** ** Live ranges *)

Lemma zip_seq_snoc (l : list nat) x :
  zip (seq 0 (length (l ++ [x]))) (l ++ [x]) = zip (seq 0 (length l)) l ++ [(length l, x)].
Proof.
  rewrite length_app, Nat.add_1_r, seq_S, zip_with_app; [done|]. by rewrite length_seq.
Qed.

Lemma topological_positions_spec n order :
  NoDup order → (∀ v, v ∈ order → v < n) →
  length (topological_positions n order) = n ∧
  ∀ p v, order !! p = Some v → topological_positions n order !! v = Some p.
Proof.
  unfold topological_positions. induction order as [|x order IH] using rev_ind; intros Hnd Hlt.
  { split; [apply length_replicate|done]. }
  apply NoDup_app in Hnd as (Hnd & Hx & _).
  destruct IH as [IHl IHp]; [done|set_solver|].
  rewrite zip_seq_snoc, foldl_app. simpl. split; [by rewrite length_insert|].
  intros p v [Hp|[Hp Hv]]%lookup_app_Some.
  - rewrite list_lookup_insert_ne; [by apply IHp|].
    intros ->. apply list_elem_of_lookup_2 in Hp. set_solver.
  - apply list_lookup_singleton_Some in Hv as [Hz <-].
    rewrite list_lookup_insert_eq; [f_equal; lia|]. rewrite IHl. set_solver.
Qed.

Lemma make_live_buffers_spec `{JsonLib} nodes order pixels bs :
  NoDup order → (∀ v, v ∈ order → v < length nodes) →
  make_live_buffers nodes order pixels = Ok bs →
  length bs = length nodes ∧
  ∀ p v, order !! p = Some v → ∃ sz, node_size nodes pixels v = Ok sz ∧
    bs !! v = Some (mkLive v p (p + 1) sz 0).
Proof.
  unfold make_live_buffers. revert bs.
  induction order as [|x order IH] using rev_ind; intros bs Hnd Hlt Hf.
  { simpl in Hf. injection Hf as <-. split; [apply length_replicate|done]. }
  apply NoDup_app in Hnd as (Hnd & Hx & _).
  rewrite zip_seq_snoc, foldM_app in Hf. apply bind_Ok_inv in Hf as (bs0 & Hf & Hs).
  destruct (IH bs0) as [IHl IHp]; [done|set_solver|done|].
  simpl in Hs. res_inv. split; [by rewrite length_insert|].
  intros p v [Hp|[Hp Hv]]%lookup_app_Some.
  - destruct (IHp _ _ Hp) as (sz & ? & ?). exists sz. split; [done|].
    rewrite list_lookup_insert_ne; [done|].
    intros ->. apply list_elem_of_lookup_2 in Hp. set_solver.
  - apply list_lookup_singleton_Some in Hv as [Hz <-].
    exists (u64 (pixels * a0)). unfold node_size. rewrite Ha0. split; [done|].
    rewrite list_lookup_insert_eq; [repeat f_equal; lia|]. rewrite IHl. set_solver.
Qed.

(** The extended range of one buffer ends at the last of its own end and the
    positions of its consumers. *)
Lemma extend_live_ranges_spec edges : ∀ bs pos,
  length (extend_live_ranges bs pos edges) = length bs ∧
  ∀ v b, bs !! v = Some b → ∃ e,
    extend_live_ranges bs pos edges !! v
      = Some (mkLive (lb_node_index b) (lb_start b) e (lb_size_bytes b) (lb_physical_slot b)) ∧
    ∀ t, t < e ↔ t < lb_end b ∨
      ∃ w, (v, w) ∈ valid_edges (length bs) edges ∧ t < default 0 (pos !! w).
Proof.
  unfold extend_live_ranges.
  induction edges as [|e edges IH] using rev_ind; intros bs pos.
  { split; [done|]. intros v [] Hv. simpl. rewrite Hv. eexists. split; [done|]. set_solver. }
  destruct (IH bs pos) as [IHl IHv]. rewrite foldl_app. simpl.
  set (bs' := foldl _ bs edges) in *. rewrite IHl.
  assert (∀ v w, (v, w) ∈ valid_edges (length bs) (edges ++ [e]) ↔
    (v, w) ∈ valid_edges (length bs) edges ∨
    (v < length bs ∧ w < length bs ∧ v = from e ∧ w = to e)) as Hval.
  { intros v w. rewrite !elem_of_valid_edges, elem_of_app, list_elem_of_singleton.
    destruct e as [f t]; simpl. split; [intros (?&?&[?|[= -> ->]]); tauto|].
    intros [?|(?&?&->&->)]; tauto. }
  destruct ((length bs <=? from e) || (length bs <=? to e)) eqn:E.
  - split; [done|]. intros v b Hv. destruct (IHv v b Hv) as (x & Hx & Ht). exists x.
    split; [done|]. intros t. rewrite Ht. setoid_rewrite Hval.
    apply orb_true_iff in E. rewrite !Nat.leb_le in E. naive_solver lia.
  - apply orb_false_iff in E as [E1%Nat.leb_gt E2%Nat.leb_gt].
    split; [by rewrite length_alter|]. intros v b Hv.
    destruct (IHv v b Hv) as (x & Hx & Ht). destruct (decide (v = from e)) as [->|Hne].
    + rewrite list_lookup_alter_eq, Hx. simpl. eexists. split; [done|]. intros t.
      setoid_rewrite Hval. rewrite Nat.max_lt_iff, Ht. naive_solver.
    + rewrite list_lookup_alter_ne by congruence. exists x. split; [done|].
      intros t. rewrite Ht. setoid_rewrite Hval. naive_solver.
Qed.

(** ** The interference graph *)

Definition shape (n : nat) (g : InterferenceGraph) : Prop :=
  length g = n ∧ ∀ i row, g !! i = Some row → length row = n.

Lemma set_cell_shape n g i j : shape n g → shape n (set_cell g i j).
Proof.
  intros [Hl Hr]. unfold set_cell. split; [by rewrite length_alter|].
  intros k row. rewrite list_lookup_alter. case_decide; [|apply Hr].
  intros (r & Hk & ->)%fmap_Some. rewrite length_insert. eauto.
Qed.

Lemma get_set_cell n g i j k l :
  shape n g → i < n → j < n →
  get_cell (set_cell g i j) k l = (bool_decide (k = i ∧ l = j) || get_cell g k l).
Proof.
  intros [Hl Hr] Hi Hj. unfold get_cell, set_cell.
  destruct (decide (k = i)) as [->|Hk].
  - rewrite list_lookup_alter_eq. destruct (g !! i) as [row|] eqn:Hg; simpl.
    + destruct (decide (l = j)) as [->|Hlj].
      * rewrite list_lookup_insert_eq by (by rewrite (Hr _ _ Hg)). by rewrite bool_decide_true.
      * rewrite list_lookup_insert_ne by congruence. by rewrite bool_decide_false by naive_solver.
    + apply lookup_ge_None in Hg. lia.
  - rewrite list_lookup_alter_ne by congruence. by rewrite bool_decide_false by naive_solver.
Qed.

Lemma foldl_nested {A B C} (f : C → A → B → C) (h : A → list B) xs : ∀ c,
  foldl (λ c x, foldl (λ c y, f c x y) c (h x)) c xs
  = foldl (λ c p, f c p.1 p.2) c (xs ≫= λ x, pair x <$> h x).
Proof.
  induction xs as [|x xs IH]; intros c; [done|]. simpl. rewrite foldl_app, IH. f_equal.
  generalize (h x). intros l. revert c. induction l as [|y l IHl]; intros c; [done|]. simpl. apply IHl.
Qed.

Definition buffer_at (bs : list LiveBuffer) (i : nat) : LiveBuffer := default default_live (bs !! i).

(** Two distinct cells are set exactly when the buffers' live ranges overlap. *)
Lemma build_interference_graph_spec bs i j :
  i < length bs → j < length bs → i ≠ j →
  get_cell (build_interference_graph bs) i j = overlaps (buffer_at bs i) (buffer_at bs j).
Proof.
  intros Hi Hj Hij. unfold build_interference_graph. fold (buffer_at bs).
  set (n := length bs) in *.
  rewrite (foldl_nested (λ g lhs rhs,
    if overlaps (buffer_at bs lhs) (buffer_at bs rhs)
    then set_cell (set_cell g lhs rhs) rhs lhs else g)).
  set (ps := seq 0 n ≫= λ x, pair x <$> seq (x + 1) (n - (x + 1))).
  assert (∀ a b, (a, b) ∈ ps ↔ a < b ∧ b < n) as Hps.
  { intros a b. unfold ps. rewrite list_elem_of_bind. setoid_rewrite list_elem_of_fmap.
    setoid_rewrite elem_of_seq. split.
    - intros (x & (y & [= -> ->] & ?) & ?). lia.
    - intros. exists a. split; [exists b; split; [done|lia]|lia]. }
  assert (Forall (λ p : nat * nat, p.1 < n ∧ p.2 < n) ps) as Hall.
  { apply Forall_forall. intros [a b] [??]%Hps. simpl. lia. }
  assert (∀ l, Forall (λ p : nat * nat, p.1 < n ∧ p.2 < n) l → let g :=
    foldl (λ g p, if overlaps (buffer_at bs p.1) (buffer_at bs p.2)
      then set_cell (set_cell g p.1 p.2) p.2 p.1 else g) (replicate n (replicate n false)) l in
    shape n g ∧ ∀ a b, get_cell g a b = true ↔
      overlaps (buffer_at bs a) (buffer_at bs b) = true ∧ ((a, b) ∈ l ∨ (b, a) ∈ l)) as Hinv.
  { intros l. induction l as [|[a b] l IH] using rev_ind; intros Hl.
    - simpl. split; [split; [apply length_replicate|]|].
      + intros k row [-> _]%lookup_replicate. apply length_replicate.
      + intros a b. unfold get_cell. split; [|set_solver].
        destruct (_ !! a) as [row|] eqn:E; [|done]. simpl.
        apply lookup_replicate in E as [-> _]. destruct (replicate n false !! b) eqn:E; [|done].
        by apply lookup_replicate in E as [-> _].
    - apply Forall_app in Hl as [Hl Hab]. rewrite Forall_singleton in Hab. simpl in Hab.
      destruct (IH Hl) as [Hsh Hc]. simpl. rewrite foldl_app. simpl.
      set (g := foldl _ _ l) in *.
      assert (overlaps (buffer_at bs b) (buffer_at bs a) = overlaps (buffer_at bs a) (buffer_at bs b))
        as Hsym by apply andb_comm.
      destruct (overlaps (buffer_at bs a) (buffer_at bs b)) eqn:Ho.
      + split; [by do 2 apply set_cell_shape|]. intros x y.
        destruct Hab. rewrite (get_set_cell n), (get_set_cell n) by auto using set_cell_shape.
        rewrite !orb_true_iff, !bool_decide_eq_true, Hc, !elem_of_app, !list_elem_of_singleton.
        split; [intros [[-> ->]|[[-> ->]|[? [?|?]]]]; auto|].
        intros [? [[?|[= -> ->]]|[?|[= -> ->]]]]; auto.
      + split; [done|]. intros x y. rewrite Hc, !elem_of_app, !list_elem_of_singleton.
        split; [intros [? [?|?]]; auto|].
        intros [? [[?|[= -> ->]]|[?|[= -> ->]]]]; auto; congruence. }
  destruct (Hinv ps Hall) as [_ Hc]. apply eq_true_iff_eq. rewrite Hc, !Hps. split; [tauto|].
  intros Ho. split; [done|]. lia.
Qed.

(** ** Colouring *)

Lemma length_filter_seq {A} (l : list A) (P : nat → Prop) (Q : A → Prop)
    `{!∀ x, Decision (P x), !∀ x, Decision (Q x)} :
  (∀ i a, l !! i = Some a → P i ↔ Q a) →
  length (filter P (seq 0 (length l))) = length (filter Q l).
Proof.
  induction l as [|x l IH] using rev_ind; intros HPQ; [done|].
  rewrite length_app, Nat.add_1_r, seq_S, !filter_app, !length_app, !filter_cons, !filter_nil.
  rewrite IH by (intros; apply HPQ; by apply lookup_app_l_Some). simpl.
  rewrite (decide_ext (P (length l)) (Q x)); [by case_decide|].
  apply HPQ. by apply list_lookup_middle.
Qed.

Lemma NoDup_fmap_filter {A B} (f : A → B) (l : list A) (Q : A → Prop) `{!∀ x, Decision (Q x)} :
  (∀ i j a b, i < j → l !! i = Some a → l !! j = Some b → Q a → Q b → f a ≠ f b) →
  NoDup (f <$> filter Q l).
Proof.
  induction l as [|x l IH]; intros Hf; [constructor|]. rewrite filter_cons.
  assert (NoDup (f <$> filter Q l)) as Hnd.
  { apply IH. intros i j a b ? Ha Hb. apply (Hf (S i) (S j)); [lia|done..]. }
  case_decide as Hx; [|done]. simpl. constructor; [|done].
  intros (y & Hy & Hin)%list_elem_of_fmap. apply list_elem_of_filter in Hin as [HQ Hin].
  apply list_elem_of_lookup in Hin as [i Hi]. by apply (Hf 0 (S i) x y); [lia|..].
Qed.

Lemma find_slot_spec assigned g current slots :
  slot_available assigned g current slots = true →
  ∃ s, find_slot assigned g current slots = Some s ∧ s ≤ slots ∧
    slot_available assigned g current s = true ∧
    ∀ s', s' < s → slot_available assigned g current s' = false.
Proof.
  unfold find_slot. intros Hs. assert (∀ k m, k + m = slots + 1 → 0 < m →
    (∀ s', s' < k → slot_available assigned g current s' = false) →
    ∃ s, head (filter (λ slot, slot_available assigned g current slot = true) (seq k m)) = Some s ∧
      s ≤ slots ∧ slot_available assigned g current s = true ∧
      ∀ s', s' < s → slot_available assigned g current s' = false) as Hgen.
  { intros k m; revert k. induction m as [|m IH]; intros k Hkm Hm Hlow; [lia|].
    cbn [seq]. rewrite filter_cons. case_decide as Hk.
    - exists k. simpl. split_and!; [done|lia|done..].
    - apply not_true_is_false in Hk. destruct (decide (m = 0)) as [->|].
      { assert (k = slots) as -> by lia. congruence. }
      apply IH; [lia|lia|]. intros s' ?. destruct (decide (s' = k)) as [->|]; [done|].
      apply Hlow. lia. }
  apply Hgen; [lia|lia|]. intros; lia.
Qed.

Lemma slot_available_spec assigned g current slot :
  slot_available assigned g current slot = true ↔
  ∀ b, b ∈ assigned → lb_physical_slot b = slot →
    get_cell g (lb_node_index current) (lb_node_index b) = false.
Proof.
  unfold slot_available. rewrite forallb_forall. setoid_rewrite list_elem_of_In.
  setoid_rewrite negb_true_iff. setoid_rewrite andb_false_iff. setoid_rewrite Nat.eqb_neq.
  split; intros H b Hb; specialize (H b Hb); [intros; by destruct H|].
  destruct (decide (lb_physical_slot b = slot)); auto.
Qed.

(** The live range of a buffer, and the largest buffer of a slot. *)
Definition range_live (t : nat) (b : LiveBuffer) : Prop := lb_start b ≤ t ∧ t < lb_end b.
#[export] Instance range_live_dec t b : Decision (range_live t b).
Proof. unfold range_live. apply _. Defined.

Definition max_size (l : list LiveBuffer) (slot : nat) : Z :=
  foldr (λ b m, Z.max (lb_size_bytes b) m) 0%Z (filter (λ b, lb_physical_slot b = slot) l).

Lemma foldr_max_snoc l x :
  (0 ≤ lb_size_bytes x)%Z →
  foldr (λ b m, Z.max (lb_size_bytes b) m) 0%Z (l ++ [x])
  = Z.max (foldr (λ b m, Z.max (lb_size_bytes b) m) 0%Z l) (lb_size_bytes x).
Proof. intros Hx. induction l as [|y l IH]; simpl; [lia|]. rewrite IH. lia. Qed.

Lemma max_size_snoc l b slot :
  (0 ≤ lb_size_bytes b)%Z →
  max_size (l ++ [b]) slot =
    if decide (lb_physical_slot b = slot) then Z.max (max_size l slot) (lb_size_bytes b)
    else max_size l slot.
Proof.
  intros. unfold max_size. rewrite filter_app, filter_cons, filter_nil.
  case_decide; [by apply foldr_max_snoc|by rewrite app_nil_r].
Qed.

Lemma max_size_unused l slot :
  (∀ b, b ∈ l → lb_physical_slot b ≠ slot) → max_size l slot = 0%Z.
Proof.
  intros H. unfold max_size. replace (filter _ l) with (@nil LiveBuffer); [done|].
  symmetry. induction l as [|b l IH]; [done|]. rewrite filter_cons, decide_False by (apply H; left).
  apply IH. intros. apply H. by right.
Qed.

Section coloring.
  Context (bs : list LiveBuffer) (order : list nat).
  Hypothesis order_nodup : NoDup order.
  Hypothesis order_range : ∀ v, v ∈ order → v < length bs.
  Hypothesis bs_ok : ∀ p v, order !! p = Some v →
    lb_node_index (buffer_at bs v) = v ∧ lb_start (buffer_at bs v) = p ∧
    p < lb_end (buffer_at bs v) ∧ (0 ≤ lb_size_bytes (buffer_at bs v))%Z.

Record color_inv (pre : list nat) (st : list LiveBuffer * list Z) : Prop := {
  ci_length : length st.1 = length pre;
  ci_assigned : ∀ i b, st.1 !! i = Some b → ∃ v,
    pre !! i = Some v ∧ b = with_slot (buffer_at bs v) (lb_physical_slot b) ∧
    lb_physical_slot b < length st.2;
  ci_disjoint : ∀ i j a b, i < j → st.1 !! i = Some a → st.1 !! j = Some b →
    lb_start b < lb_end a → lb_physical_slot a ≠ lb_physical_slot b;
  ci_sizes : ∀ s, s < length st.2 → st.2 !! s = Some (max_size st.1 s);
  ci_tight : length st.2 = 0 ∨ ∃ t, length st.2 ≤ length (filter (range_live t) st.1)
}.

(** Against a buffer assigned earlier, interference is being live at the step. *)
Lemma interference_earlier p q u v :
  order !! p = Some v → order !! q = Some u → q < p →
  get_cell (build_interference_graph bs) v u = (p <? lb_end (buffer_at bs u)).
Proof.
  intros Hp Hq Hqp. destruct (bs_ok _ _ Hp) as (_ & Hs & He & _).
  destruct (bs_ok _ _ Hq) as (_ & Hs' & He' & _).
  rewrite build_interference_graph_spec;
    [|eapply order_range, list_elem_of_lookup_2; done..|].
  - unfold overlaps. rewrite Hs, Hs'. rewrite (proj2 (Nat.ltb_lt q _)) by lia.
    apply andb_true_r.
  - intros ->. pose proof (NoDup_lookup _ _ _ _ order_nodup Hp Hq). lia.
Qed.

(** The step chooses the lowest slot that no live buffer holds. *)
Lemma color_step_slot pre v suf st :
  order = pre ++ v :: suf → color_inv pre st →
  ∃ s, color_step bs (build_interference_graph bs) st v =
      (st.1 ++ [with_slot (buffer_at bs v) s],
       if decide (s = length st.2) then st.2 ++ [lb_size_bytes (buffer_at bs v)]
       else alter (λ x, Z.max x (lb_size_bytes (buffer_at bs v))) s st.2) ∧
    s ≤ length st.2 ∧
    (∀ b, b ∈ st.1 → length pre < lb_end b → lb_physical_slot b ≠ s) ∧
    (∀ s', s' < s → ∃ b, b ∈ st.1 ∧ length pre < lb_end b ∧ lb_physical_slot b = s').
Proof.
  intros Horder Hinv. destruct st as [assigned sizes]. simpl in *.
  assert (order !! length pre = Some v) as Hv by (subst; by apply list_lookup_middle).
  destruct (bs_ok _ _ Hv) as (Hidx & Hstart & Hend & _).
  assert (∀ b, b ∈ assigned → get_cell (build_interference_graph bs)
    (lb_node_index (buffer_at bs v)) (lb_node_index b) = (length pre <? lb_end b)) as Hcell.
  { intros b [i Hi]%list_elem_of_lookup. destruct (ci_assigned _ _ Hinv _ _ Hi) as (u & Hu & Hb & _).
    assert (order !! i = Some u) as Ho by (subst order; by apply lookup_app_l_Some).
    destruct (bs_ok _ _ Ho) as (Hui & _). rewrite Hidx, Hb. simpl. rewrite Hui.
    eapply interference_earlier; [done..|]. by apply lookup_lt_Some in Hu. }
  destruct (find_slot_spec assigned (build_interference_graph bs) (buffer_at bs v) (length sizes))
    as (s & Hf & Hs & Hav & Hlow).
  { apply slot_available_spec. intros b Hb E. exfalso.
    apply list_elem_of_lookup in Hb as [i Hi].
    destruct (ci_assigned _ _ Hinv _ _ Hi) as (? & _ & _ & ?). simpl in *. lia. }
  exists s. split_and!; [|done| |].
  - unfold color_step. fold (buffer_at bs v). by rewrite Hf.
  - intros b Hb Hl E. rewrite slot_available_spec in Hav. specialize (Hav b Hb E).
    rewrite Hcell in Hav by done. apply Nat.ltb_ge in Hav. lia.
  - intros s' Hs'. specialize (Hlow s' Hs'). unfold slot_available in Hlow.
    apply not_true_iff_false in Hlow. rewrite forallb_forall in Hlow.
    setoid_rewrite <- list_elem_of_In in Hlow.
    destruct (decide (Exists (λ b, length pre < lb_end b ∧ lb_physical_slot b = s') assigned))
      as [Hex|Hno]; [by apply Exists_exists in Hex|].
    exfalso. apply Hlow. intros b Hb. rewrite negb_true_iff, andb_false_iff, Hcell by done.
    rewrite Nat.eqb_neq, Nat.ltb_ge. rewrite <-Forall_Exists_neg, Forall_forall in Hno.
    specialize (Hno b Hb). simpl in Hno. lia.
Qed.

Lemma color_inv_step pre v suf st :
  order = pre ++ v :: suf → color_inv pre st →
  color_inv (pre ++ [v]) (color_step bs (build_interference_graph bs) st v).
Proof.
  intros Horder Hinv.
  destruct (color_step_slot pre v suf st Horder Hinv) as (s & -> & Hs & Hfree & Hused).
  assert (order !! length pre = Some v) as Hv by (subst order; by apply list_lookup_middle).
  destruct (bs_ok _ _ Hv) as (Hidx & Hstart & Hend & Hsz).
  destruct st as [assigned sizes]. destruct Hinv as [Hl Ha Hd Hz Ht]. simpl in *.
  set (sizes' := if decide _ then _ else _).
  assert (length sizes' = Nat.max (length sizes) (S s)) as Hl'.
  { unfold sizes'. case_decide; [rewrite length_app|rewrite length_alter]; simpl; lia. }
  assert (∀ b, b ∈ assigned → lb_physical_slot b < length sizes) as Hlt.
  { intros b [i Hi]%list_elem_of_lookup. destruct (Ha _ _ Hi) as (? & _ & _ & ?). done. }
  split; simpl.
  - rewrite !length_app. simpl. lia.
  - intros i b [Hi|[Hi Hb]]%lookup_app_Some.
    + destruct (Ha _ _ Hi) as (u & ? & ? & ?). exists u. split_and!; [|done|lia].
      by apply lookup_app_l_Some.
    + apply list_lookup_singleton_Some in Hb as [Hz' <-]. exists v. split_and!; [|done|simpl; lia].
      replace i with (length pre) by lia. by apply list_lookup_middle.
  - intros i j a b Hij Hi Hj Hov.
    apply lookup_app_Some in Hj as [Hj|[Hj Hb]].
    + rewrite lookup_app_l in Hi by (apply lookup_lt_Some in Hj; lia). exact (Hd i j a b Hij Hi Hj Hov).
    + apply list_lookup_singleton_Some in Hb as [Hz' <-]. simpl in *.
      rewrite lookup_app_l in Hi by lia. apply Hfree; [by eapply list_elem_of_lookup_2|lia].
  - intros k Hk. rewrite max_size_snoc by done. simpl. unfold sizes'. case_decide as He.
    + subst s. case_decide as Hk'.
      * subst k. rewrite max_size_unused by (intros b Hb; specialize (Hlt b Hb); lia).
        rewrite Z.max_r by done. by apply list_lookup_middle.
      * rewrite lookup_app_l by lia. apply Hz. lia.
    + rewrite list_lookup_alter. case_decide; subst; by rewrite Hz by lia.
  - right. rewrite Hl'. destruct (decide (s = length sizes)) as [He|He].
    + exists (length pre). rewrite filter_app, length_app, filter_cons, decide_True
        by (split; simpl; lia). simpl.
      cut (s ≤ length (filter (range_live (length pre)) assigned)); [lia|].
      rewrite <-(length_seq s 0), <-(length_fmap lb_physical_slot).
      apply submseteq_length, NoDup_submseteq; [apply NoDup_seq|].
      intros s' [_ Hs']%elem_of_seq. destruct (Hused s') as (b & Hb & Hbe & <-); [lia|].
      apply list_elem_of_fmap. exists b. split; [done|]. apply list_elem_of_filter. split; [|done].
      split; [|done]. apply list_elem_of_lookup in Hb as [i Hi].
      destruct (Ha _ _ Hi) as (u & Hu & -> & _). simpl.
      destruct (bs_ok i u) as (_ & -> & _); [subst order; by apply lookup_app_l_Some|].
      apply lookup_lt_Some in Hu. lia.
    + destruct Ht as [|[t Ht]]; [lia|]. exists t. rewrite filter_app, length_app. lia.
Qed.

Lemma color_buffers_inv : color_inv order (color_buffers bs order (build_interference_graph bs)).
Proof.
  unfold color_buffers. cut (∀ suf pre st, order = pre ++ suf → color_inv pre st →
    color_inv order (foldl (color_step bs (build_interference_graph bs)) st suf)).
  { intros H. apply (H order []); [done|]. split; simpl; [done|done|done|intros; lia|by left]. }
  induction suf as [|v suf IH]; intros pre st Ho Hinv; simpl.
  - rewrite app_nil_r in Ho. by subst pre.
  - apply (IH (pre ++ [v])); [by rewrite <-app_assoc|]. by eapply color_inv_step.
Qed.

(** The slots of the buffers live at one step are distinct. *)
Lemma color_live_bound st t :
  color_inv order st → length (filter (range_live t) st.1) ≤ length st.2.
Proof.
  intros [Hl Ha Hd _ _]. rewrite <-(length_seq (length st.2) 0), <-(length_fmap lb_physical_slot).
  apply submseteq_length, NoDup_submseteq.
  - apply NoDup_fmap_filter. intros i j a b Hij Hi Hj [_ ?] [? _].
    apply (Hd i j a b Hij Hi Hj). lia.
  - intros s (b & -> & Hb)%list_elem_of_fmap. apply list_elem_of_filter in Hb as [_ Hb].
    apply list_elem_of_lookup in Hb as [i Hi]. destruct (Ha _ _ Hi) as (_ & _ & _ & ?).
    apply elem_of_seq. lia.
Qed.

End coloring.

(** ** The whole plan *)

Lemma plan_graph_unfold `{JsonLib} layout nodes edges :
  nodes ≠ [] →
  plan_graph layout nodes edges =
    let order := topological_order (length nodes) edges in
    buffers ← make_live_buffers nodes order (pixel_count layout);
    let buffers := extend_live_ranges buffers (topological_positions (length nodes) order) edges in
    let st := color_buffers buffers order (build_interference_graph buffers) in
    Ok (make_plan (size_bytes layout) st.2 st.1).
Proof.
  intros Hne. unfold plan_graph. destruct nodes; [done|]. simpl.
  destruct (make_live_buffers _ _ _); simpl; try done. by destruct (color_buffers _ _ _).
Qed.

Section planning.
  Context `{JsonLib} (layout : BufferLayout) (nodes : list (option cpipe_plugin_desc_t))
    (edges : list MemoryGraphEdge).
  Hypothesis edge_count : (len edges < 2 ^ 64)%Z.
Let n := length nodes.
Let order := topological_order n edges.
Let es := valid_edges n edges.

Lemma order_facts : NoDup order ∧ (∀ v, v ∈ order ↔ v < n) ∧ length order = n.
Proof.
  pose proof (topological_order_perm n edges edge_count) as Hp. fold order in Hp.
  split_and!.
  - rewrite Hp. apply NoDup_seq.
  - intros v. rewrite Hp, elem_of_seq. lia.
  - by rewrite Hp, length_seq.
Qed.

(** The buffers that are coloured: one per node, live from the node's position to
    its last consumer's. *)
Lemma extended_buffers bs :
  make_live_buffers nodes order (pixel_count layout) = Ok bs →
  let bs' := extend_live_ranges bs (topological_positions n order) edges in
  length bs' = n ∧
  ∀ p v, order !! p = Some v → ∃ sz, node_size nodes (pixel_count layout) v = Ok sz ∧
    (0 ≤ sz)%Z ∧
    lb_node_index (buffer_at bs' v) = v ∧ lb_start (buffer_at bs' v) = p ∧
    lb_size_bytes (buffer_at bs' v) = sz ∧
    p < lb_end (buffer_at bs' v) ∧
    ∀ t, p ≤ t → t < lb_end (buffer_at bs' v) ↔ live_at order es t p.
Proof.
  intros Hbs bs'. destruct order_facts as (Hnd & Hin & Hlen).
  destruct (make_live_buffers_spec nodes order (pixel_count layout) bs) as [Hl Hb];
    [done|intros v; apply Hin|done|].
  destruct (topological_positions_spec n order) as [_ Hpos]; [done|intros v; apply Hin|].
  destruct (extend_live_ranges_spec edges bs (topological_positions n order)) as [Hl' He].
  fold bs' in Hl', He. rewrite Hl in *. split; [done|]. intros p v Hp.
  destruct (Hb p v Hp) as (sz & Hsz & Hv). destruct (He v _ Hv) as (e & Hv' & Ht). simpl in *.
  exists sz. unfold buffer_at. rewrite Hv'. simpl. split_and!; try done.
  - unfold node_size in Hsz. res_inv. apply wrap_bound. lia.
  - apply Ht. lia.
  - intros t Hpt. rewrite Ht. unfold live_at. rewrite Exists_exists. split.
    + intros [?|(w & Hw & Hlt)]; [split; [done|left; lia]|]. split; [done|]. right.
      exists (v, w). split; [done|]. split; [done|]. simpl.
      apply elem_of_valid_edges in Hw as (_ & Hw & _).
      apply Hin, list_elem_of_lookup in Hw as [q Hq]. rewrite (Hpos _ _ Hq) in Hlt. simpl in Hlt.
      apply Exists_exists. exists q. split; [|done]. apply elem_of_seq.
      apply lookup_lt_Some in Hq. lia.
    + intros [_ [->|([a b] & He' & Ha & Hq)]]; [left; lia|]. right. simpl in *.
      apply Exists_exists in Hq as (q & Hq%elem_of_seq & Hb'). exists b.
      rewrite Hp in Ha. injection Ha as <-. split; [done|]. rewrite (Hpos _ _ Hb'). simpl. lia.
Qed.

Lemma plan_graph_coloring pl :
  nodes ≠ [] → plan_graph layout nodes edges = Ok pl →
  ∃ bs st, let bs' := extend_live_ranges bs (topological_positions n order) edges in
    make_live_buffers nodes order (pixel_count layout) = Ok bs ∧
    color_inv bs' order st ∧ pl = make_plan (size_bytes layout) st.2 st.1.
Proof.
  intros Hne Hpl. rewrite plan_graph_unfold in Hpl by done. cbv zeta in Hpl. fold n order in Hpl.
  apply bind_Ok_inv in Hpl as (bs & Hbs & Hpl). injection Hpl as <-.
  eexists bs, _. split_and!; [done| |done].
  destruct (extended_buffers bs Hbs) as [Hl Hb]. apply color_buffers_inv.
  - apply order_facts.
  - intros v Hv. rewrite Hl. by apply order_facts.
  - intros p v Hp. destruct (Hb p v Hp) as (sz & ?). intuition congruence.
Qed.

Lemma plan_lookup st i a p c :
  assignments (make_plan p c st) !! i = Some a ↔
  ∃ b, st !! i = Some b ∧
    a = mkAssignment (lb_node_index b) (lb_node_index b) (lb_physical_slot b) (lb_size_bytes b).
Proof. simpl. rewrite list_lookup_fmap, fmap_Some. done. Qed.

(** The assignment at a position is of the node at that position of the order. *)
Lemma plan_node bs st i b :
  let bs' := extend_live_ranges bs (topological_positions n order) edges in
  make_live_buffers nodes order (pixel_count layout) = Ok bs → color_inv bs' order st →
  st.1 !! i = Some b →
  order !! i = Some (lb_node_index b) ∧ lb_start b = i ∧
  node_size nodes (pixel_count layout) (lb_node_index b) = Ok (lb_size_bytes b) ∧
  ∀ t, i ≤ t → t < lb_end b ↔ live_at order es t i.
Proof.
  intros bs' Hbs Hinv Hi. destruct (ci_assigned _ _ _ Hinv _ _ Hi) as (v & Hv & Hb & _).
  destruct (extended_buffers bs Hbs) as [_ Hx].
  destruct (Hx i v Hv) as (sz & Hsz & _ & Hn & Hs & Hz & _ & Ht).
  fold bs' in Hn, Hs, Hz, Ht. rewrite Hb. simpl. rewrite Hn, Hz. done.
Qed.

Lemma plan_nodes bs st p c :
  let bs' := extend_live_ranges bs (topological_positions n order) edges in
  make_live_buffers nodes order (pixel_count layout) = Ok bs → color_inv bs' order st →
  ma_node_index <$> assignments (make_plan p c st.1) = order.
Proof.
  intros bs' Hbs Hinv. apply list_eq. intros i. rewrite list_lookup_fmap.
  destruct (assignments _ !! i) as [a|] eqn:Hi.
  - apply plan_lookup in Hi as (b & Hi & ->). simpl. symmetry. by eapply (plan_node bs st).
  - symmetry. apply lookup_ge_None in Hi. apply lookup_ge_None.
    simpl in Hi. rewrite length_fmap, (ci_length _ _ _ Hinv) in Hi. done.
Qed.

Lemma plan_live_count bs st t :
  let bs' := extend_live_ranges bs (topological_positions n order) edges in
  make_live_buffers nodes order (pixel_count layout) = Ok bs → color_inv bs' order st →
  live_count order es t = length (filter (range_live t) st.1).
Proof.
  intros bs' Hbs Hinv. unfold live_count. rewrite <-(ci_length _ _ _ Hinv).
  apply length_filter_seq. intros i b Hi.
  destruct (plan_node bs st i b Hbs Hinv Hi) as (_ & Hs & _ & Ht). unfold range_live.
  rewrite Hs. split.
  - intros Hl. split; [apply Hl|]. apply Ht; [apply Hl|done].
  - intros [? ?]. by apply Ht.
Qed.

(** The number of slots is the largest number of simultaneously live outputs. *)
Lemma plan_slot_count bs st :
  let bs' := extend_live_ranges bs (topological_positions n order) edges in
  make_live_buffers nodes order (pixel_count layout) = Ok bs → color_inv bs' order st →
  (∀ t, live_count order es t ≤ length st.2) ∧ ∃ t, length st.2 = live_count order es t.
Proof.
  intros bs' Hbs Hinv.
  assert (∀ t, live_count order es t = length (filter (range_live t) st.1)) as Hcount.
  { intros t. by apply (plan_live_count bs st t). }
  assert (∀ t, live_count order es t ≤ length st.2) as Hle.
  { intros t. rewrite Hcount. by eapply color_live_bound. }
  split; [done|]. destruct (ci_tight _ _ _ Hinv) as [Hz|[t Ht]].
  - exists 0. specialize (Hle 0). lia.
  - exists t. specialize (Hle t). rewrite <-Hcount in Ht. lia.
Qed.

End planning.

Lemma max_size_plan st p c s : slot_max (assignments (make_plan p c st)) s = max_size st s.
Proof.
  unfold slot_max, max_size. simpl. induction st as [|b st IH]; [done|]. simpl.
  rewrite !filter_cons. simpl. case_decide; [|done]. simpl. f_equal. exact IH.
Qed.

Lemma foldl_u64_add l : ∀ z, is_u 64 z →
  foldl (λ peak s, u64 (peak + s)) z l = u64 (z + foldr Z.add 0 l)%Z.
Proof.
  induction l as [|x l IH]; intros z Hz; simpl; [by rewrite Z.add_0_r, u64_small|].
  rewrite IH by (apply wrap_bound; lia). unfold u64, wrap.
  rewrite Zplus_mod_idemp_l. f_equal. lia.
Qed.

Lemma live_at_le order es t p : live_at order es t p → p ≤ t.
Proof. by intros [? _]. Qed.

(** ** Linear chains *)

Definition chain_edges (n : nat) : edges_t := (λ v, (v - 1, v)) <$> seq 1 (n - 1).

Lemma chain_edges_acyclic_order n order :
  order ≡ₚ seq 0 n → respects (chain_edges n) order → order = seq 0 n.
Proof.
  intros Hp Hr. assert (length order = n) as Hl by (by rewrite Hp, length_seq).
  assert (∀ v, v ∈ order → v < n) as Hlt by (intros v; rewrite Hp, elem_of_seq; lia).
  assert (NoDup order) as Hnd by (rewrite Hp; apply NoDup_seq).
  cut (∀ k, k ≤ n → take k order = seq 0 k).
  { intros H. rewrite <-(H n) by done. by rewrite take_ge by lia. }
  induction k as [|k IH]; intros Hk; [done|]. specialize (IH ltac:(lia)).
  destruct (lookup_lt_is_Some_2 order k) as [v Hv]; [lia|].
  rewrite (take_S_r _ _ _ Hv), IH, seq_S. do 2 f_equal. simpl.
  pose proof (take_drop_middle _ _ _ Hv) as Hsplit. rewrite IH in Hsplit.
  assert (v < n) by (eapply Hlt, list_elem_of_lookup_2; done).
  assert (¬ v < k).
  { intros Hvk. rewrite <-Hsplit, NoDup_app in Hnd. destruct Hnd as (_ & Hd & _).
    apply (Hd v); [apply elem_of_seq; lia|left]. }
  destruct (decide (v = k)) as [|Hne]; [done|]. exfalso.
  assert (v - 1 ∈ seq 0 k) as Hin%elem_of_seq; [|lia].
  eapply Hr; [by symmetry|]. apply list_elem_of_fmap. exists v. split; [done|].
  apply elem_of_seq. lia.
Qed.


Lemma respects_seq n : respects (chain_edges n) (seq 0 n).
Proof.
  intros l1 v l2 E u Hu. apply list_elem_of_fmap in Hu as (w & [= -> <-] & Hw%elem_of_seq).
  assert (seq 0 n !! length l1 = Some v) as Hv by (rewrite E; by apply list_lookup_middle).
  apply lookup_seq in Hv as [Hv Hlt]. assert (l1 = seq 0 v) as ->; [|apply elem_of_seq; lia].
  rewrite <-(take_app_length l1 (v :: l2)), <-E. simpl in Hv. rewrite <-Hv.
  replace n with (v + (n - v)) by lia. rewrite seq_app. by rewrite take_app_length' by (by rewrite length_seq).
Qed.

Lemma chain_valid n :
  valid_edges n ((λ node, mkEdge (node - 1) node) <$> seq 1 (n - 1)) = chain_edges n.
Proof.
  unfold valid_edges, chain_edges. rewrite <-list_fmap_compose.
  assert (∀ l : list nat, (∀ v, v ∈ l → 1 ≤ v < n) →
    filter (λ e : nat * nat, e.1 < n ∧ e.2 < n) ((λ e, (from e, to e)) ∘ (λ node, mkEdge (node - 1) node) <$> l)
    = (λ v, (v - 1, v)) <$> l) as Hl.
  { induction l as [|v l IH]; intros Hv; [done|]. simpl. rewrite filter_cons. simpl.
    pose proof (Hv v ltac:(left)). rewrite decide_True by lia.
    f_equal. apply IH. intros. apply Hv. by right. }
  apply Hl. intros v ?%elem_of_seq. lia.
Qed.

Lemma chain_acyclic n : acyclic (chain_edges n).
Proof.
  apply (respects_acyclic _ (seq 0 n)); [apply NoDup_seq|apply respects_seq|].
  intros x y (v & [= -> ->] & Hv%elem_of_seq)%list_elem_of_fmap. apply elem_of_seq. lia.
Qed.

Lemma chain_live_count n t : live_count (seq 0 n) (chain_edges n) t ≤ 1.
Proof.
  unfold live_count. change 1 with (length [t]).
  apply submseteq_length, NoDup_submseteq; [apply NoDup_filter, NoDup_seq|].
  intros p [Hl Hp]%list_elem_of_filter. apply list_elem_of_singleton.
  destruct Hl as [Hle [->|(e & He & Hp' & Hq)%Exists_exists]]; [done|].
  apply list_elem_of_fmap in He as (v & -> & Hv%elem_of_seq). simpl in *.
  apply Exists_exists in Hq as (q & Hq%elem_of_seq & Hv').
  apply lookup_seq in Hp' as [Ep _], Hv' as [Ev _]. lia.
Qed.

(** ** Theorems *)

(** C3: the plan never lets a buffer be overwritten while it is still needed: when
    the graph has an edge from [u] to [w], no node executed after [u] and before
    [w] is assigned the physical slot that holds [u]'s output. *)
Theorem plan_graph_no_clobber `{JsonLib} (layout : BufferLayout)
    (nodes : list (option cpipe_plugin_desc_t)) (edges : list MemoryGraphEdge) (pl : MemoryPlan)
    (i j k : nat) (au ax aw : MemoryAssignment) :
  (len edges < 2 ^ 64)%Z → plan_graph layout nodes edges = Ok pl →
  assignments pl !! i = Some au → assignments pl !! j = Some ax → assignments pl !! k = Some aw →
  i < j < k → mkEdge (ma_node_index au) (ma_node_index aw) ∈ edges →
  ma_physical_slot ax ≠ ma_physical_slot au.
Proof.
  intros Hlen Hpl Hu Hx Hw [Hij Hjk] He.
  destruct (decide (nodes = [])) as [->|Hne]; [by injection Hpl as <-|].
  destruct (plan_graph_coloring layout nodes edges Hlen pl Hne Hpl) as (bs & st & Hbs & Hinv & ->).
  apply plan_lookup in Hu as (bu & Hu & ->), Hx as (bx & Hx & ->), Hw as (bw & Hw & ->).
  destruct (plan_node layout nodes edges Hlen bs st i bu Hbs Hinv Hu) as (Hou & Hsu & _ & Hlive).
  destruct (plan_node layout nodes edges Hlen bs st j bx Hbs Hinv Hx) as (_ & Hsx & _ & _).
  destruct (plan_node layout nodes edges Hlen bs st k bw Hbs Hinv Hw) as (How & _).
  intros E. symmetry in E. revert E. apply (ci_disjoint _ _ _ Hinv i j bu bx Hij Hu Hx).
  rewrite Hsx. apply Hlive; [lia|]. split; [lia|]. right. apply Exists_exists.
  destruct (order_facts nodes edges Hlen) as (_ & Hin & _).
  exists (lb_node_index bu, lb_node_index bw). split.
  - apply elem_of_valid_edges. split_and!; [..|done];
      apply Hin; by eapply list_elem_of_lookup_2.
  - split; [done|]. apply Exists_exists. exists k. split; [|done]. apply elem_of_seq.
    apply lookup_lt_Some in How. lia.
Qed.

(** the plan lists every node exactly once, in an order that places every
    producer before its consumers when the graph is acyclic, each with its own
    output size and a slot below the slot count. *)
Theorem plan_graph_covers `{JsonLib} (layout : BufferLayout)
    (nodes : list (option cpipe_plugin_desc_t)) (edges : list MemoryGraphEdge) (pl : MemoryPlan) :
  (len edges < 2 ^ 64)%Z → plan_graph layout nodes edges = Ok pl →
  ma_node_index <$> assignments pl = topological_order (length nodes) edges ∧
  (ma_node_index <$> assignments pl) ≡ₚ seq 0 (length nodes) ∧
  (∀ a, a ∈ assignments pl → buffer_id a = ma_node_index a ∧
    ma_physical_slot a < physical_slot_count pl ∧
    node_size nodes (pixel_count layout) (ma_node_index a) = Ok (ma_size_bytes a)) ∧
  (acyclic (valid_edges (length nodes) edges) → ∀ u w,
    (u, w) ∈ valid_edges (length nodes) edges → before (ma_node_index <$> assignments pl) u w).
Proof.
  intros Hlen Hpl.
  assert (ma_node_index <$> assignments pl = topological_order (length nodes) edges ∧
    ∀ a, a ∈ assignments pl → buffer_id a = ma_node_index a ∧
    ma_physical_slot a < physical_slot_count pl ∧
    node_size nodes (pixel_count layout) (ma_node_index a) = Ok (ma_size_bytes a)) as [Ho Ha].
  { destruct (decide (nodes = [])) as [->|Hne].
    { injection Hpl as <-. simpl. rewrite topological_order_nil by done. set_solver. }
    destruct (plan_graph_coloring layout nodes edges Hlen pl Hne Hpl)
      as (bs & st & Hbs & Hinv & ->). split.
    - by eapply (plan_nodes layout nodes edges Hlen bs st).
    - intros a [i Hi]%list_elem_of_lookup. apply plan_lookup in Hi as (b & Hi & ->). simpl.
      destruct (ci_assigned _ _ _ Hinv _ _ Hi) as (v & _ & _ & ?). split_and!; [done..|].
      eapply (plan_node layout nodes edges Hlen bs st); done. }
  pose proof (topological_order_perm (length nodes) edges Hlen) as Hp.
  rewrite Ho. split_and!; [done..|]. intros Hac u w He.
  apply (respects_before (valid_edges (length nodes) edges)); [by apply topological_order_respects| |done].
  rewrite Hp. apply elem_of_valid_edges in He as (_ & ? & _). apply elem_of_seq. lia.
Qed.

(** C7: the plan is optimal: the number of physical slots is the largest number of
    outputs that are live at the same step. *)
Theorem plan_graph_optimal `{JsonLib} (layout : BufferLayout)
    (nodes : list (option cpipe_plugin_desc_t)) (edges : list MemoryGraphEdge) (pl : MemoryPlan) :
  (len edges < 2 ^ 64)%Z → plan_graph layout nodes edges = Ok pl →
  let count := live_count (topological_order (length nodes) edges) (valid_edges (length nodes) edges) in
  (∀ t, count t ≤ physical_slot_count pl) ∧
  (nodes ≠ [] → ∃ t, physical_slot_count pl = count t).
Proof.
  intros Hlen Hpl count. destruct (decide (nodes = [])) as [->|Hne].
  { injection Hpl as <-. split; [|done]. intros t. unfold count, live_count. simpl.
    by rewrite topological_order_nil. }
  destruct (plan_graph_coloring layout nodes edges Hlen pl Hne Hpl) as (bs & st & Hbs & Hinv & ->).
  destruct (plan_slot_count layout nodes edges Hlen bs st Hbs Hinv) as [Hle [t Ht]].
  simpl. split; [done|]. intros _. by exists t.
Qed.

(** the reported peak is, modulo 2^64, the input size plus for every physical
    slot the largest output placed in it. *)
Theorem plan_graph_peak `{JsonLib} (layout : BufferLayout)
    (nodes : list (option cpipe_plugin_desc_t)) (edges : list MemoryGraphEdge) (pl : MemoryPlan) :
  (len edges < 2 ^ 64)%Z → is_u 64 (size_bytes layout) → plan_graph layout nodes edges = Ok pl →
  peak_bytes pl = u64 (size_bytes layout +
    foldr Z.add 0 (slot_max (assignments pl) <$> seq 0 (physical_slot_count pl)))%Z.
Proof.
  intros Hlen Hu Hpl. destruct (decide (nodes = [])) as [->|Hne].
  { injection Hpl as <-. simpl. by rewrite Z.add_0_r, u64_small. }
  destruct (plan_graph_coloring layout nodes edges Hlen pl Hne Hpl) as (bs & st & _ & Hinv & ->).
  simpl peak_bytes. simpl physical_slot_count. rewrite foldl_u64_add by done. do 3 f_equal.
  apply list_eq. intros s. rewrite list_lookup_fmap. destruct (decide (s < length st.2)) as [Hs|Hs].
  - rewrite lookup_seq_lt, (ci_sizes _ _ _ Hinv) by done. simpl. f_equal. symmetry.
    apply (max_size_plan st.1 (size_bytes layout) st.2).
  - rewrite (lookup_ge_None_2 st.2), lookup_seq_ge by lia. done.
Qed.

(** planning a linear chain of nodes keeps the nodes' order and needs a single
    physical slot, whatever the chain's length: the peak is the input plus the
    largest output. *)
Theorem plan_chain `{JsonLib} (layout : BufferLayout) (nodes : list (option cpipe_plugin_desc_t))
    (pl : MemoryPlan) :
  (len nodes < 2 ^ 64)%Z → is_u 64 (size_bytes layout) → nodes ≠ [] → plan layout nodes = Ok pl →
  physical_slot_count pl = 1 ∧
  ma_node_index <$> assignments pl = seq 0 (length nodes) ∧
  peak_bytes pl = u64 (size_bytes layout + slot_max (assignments pl) 0)%Z.
Proof.
  intros Hlen Hu Hne Hpl. unfold plan in Hpl. set (edges := _ <$> seq 1 _) in Hpl.
  assert (len edges < 2 ^ 64)%Z as He.
  { unfold edges, len in *. rewrite length_fmap, length_seq. lia. }
  assert (topological_order (length nodes) edges = seq 0 (length nodes)) as Ho.
  { apply chain_edges_acyclic_order; [by apply topological_order_perm|].
    rewrite <-chain_valid. apply topological_order_respects; [done|].
    rewrite chain_valid. apply chain_acyclic. }
  destruct (plan_graph_coloring layout nodes edges He pl Hne Hpl) as (bs & st & Hbs & Hinv & ->).
  destruct (plan_slot_count layout nodes edges He bs st Hbs Hinv) as [Hle [t Ht]].
  assert (length st.2 = 1) as H1.
  { pose proof (chain_live_count (length nodes) t) as Hc. rewrite Ho in Ht.
    unfold edges in Ht. rewrite chain_valid in Ht. fold edges in Ht.
    destruct (st.2) eqn:Es; [|simpl in *; lia]. exfalso. specialize (ci_length _ _ _ Hinv) as Hl.
    rewrite Ho, length_seq in Hl. destruct (st.1 !! 0) as [b|] eqn:Hb.
    - destruct (ci_assigned _ _ _ Hinv _ _ Hb) as (_ & _ & _ & Hlt). rewrite Es in Hlt. simpl in Hlt. lia.
    - apply lookup_ge_None in Hb. destruct nodes; simpl in *; [done|lia]. }
  split_and!; [done| |].
  - rewrite <-Ho. by apply (plan_nodes layout nodes edges He bs st).
  - rewrite (max_size_plan st.1 (size_bytes layout) st.2). simpl. rewrite foldl_u64_add by done.
    do 2 f_equal. pose proof (ci_sizes _ _ _ Hinv 0 ltac:(lia)) as H0.
    destruct st.2 as [|z [|]]; simpl in *; [lia| |lia]. injection H0 as ->. lia.
Qed.

(** ** Witnesses *)

Definition example_docs (text : string) : option Tree.tree :=
  if String.eqb text "m8" then
    Some (Tree.JObject [("compute", Tree.JObject [("out_pixel_bytes", Tree.JUint 8)])])
  else None.

Definition example_node : option cpipe_plugin_desc_t :=
  Some (mkDesc 0 4 (Some "n") None (Some "m8") (Some 0)).

(** A diamond: one producer, two branches, one consumer. *)
Definition diamond : list MemoryGraphEdge := [mkEdge 0 1; mkEdge 0 2; mkEdge 1 3; mkEdge 2 3].
Definition diamond_plan : MemoryPlan :=
  mkPlan 73728 2 [mkAssignment 0 0 0 24576; mkAssignment 1 1 1 24576;
    mkAssignment 2 2 0 24576; mkAssignment 3 3 0 24576].

Lemma diamond_planned :
  plan_graph (H := Tree.lib example_docs) example_layout (replicate 4 example_node) diamond
  = Ok diamond_plan.
Proof. vm_compute. reflexivity. Qed.

Lemma plan_graph_no_clobber_witness :
  ma_physical_slot (mkAssignment 2 2 0 24576) ≠ ma_physical_slot (mkAssignment 1 1 1 24576).
Proof.
  apply (plan_graph_no_clobber (H := Tree.lib example_docs) example_layout
    (replicate 4 example_node) diamond diamond_plan 1 2 3
    (mkAssignment 1 1 1 24576) (mkAssignment 2 2 0 24576) (mkAssignment 3 3 0 24576));
    [done|apply diamond_planned|done..|lia|set_solver].
Defined.

Lemma plan_graph_covers_witness : before [0; 1; 2; 3] 1 3.
Proof.
  apply (plan_graph_covers (H := Tree.lib example_docs) example_layout
    (replicate 4 example_node) diamond diamond_plan); [done|apply diamond_planned| |].
  - apply (respects_acyclic _ [0; 1; 2; 3]).
    + by apply (bool_decide_unpack _).
    + assert (∀ l1 v l2, [0; 1; 2; 3] = l1 ++ v :: l2 → l1 = seq 0 v) as Hl.
      { intros [|? [|? [|? [|? [|]]]]] v l2 E; by simplify_eq/=. }
      intros l1 v l2 E u Hu. rewrite (Hl _ _ _ E). apply elem_of_seq.
      apply elem_of_valid_edges in Hu as (_ & _ & Hu). unfold diamond in Hu.
      rewrite !elem_of_cons in Hu.
      destruct Hu as [[= -> ->]|[[= -> ->]|[[= -> ->]|[[= -> ->]|Hu]]]]; [lia..|set_solver].
    + intros x y (_ & ? & _)%elem_of_valid_edges. change [0; 1; 2; 3] with (seq 0 4).
      simpl length in *. apply elem_of_seq. lia.
  - apply elem_of_valid_edges. simpl. split_and!; [lia..|]. set_solver.
Defined.

Lemma plan_graph_optimal_witness :
  ∃ t, 2 = live_count (topological_order 4 diamond) (valid_edges 4 diamond) t.
Proof.
  apply (plan_graph_optimal (H := Tree.lib example_docs) example_layout
    (replicate 4 example_node) diamond diamond_plan); [done|apply diamond_planned|done].
Defined.

Lemma plan_graph_peak_witness :
  73728%Z = u64 (24576 + foldr Z.add 0 (slot_max (assignments diamond_plan) <$> seq 0%nat 2%nat))%Z.
Proof.
  apply (plan_graph_peak (H := Tree.lib example_docs) example_layout
    (replicate 4 example_node) diamond diamond_plan); [done|done|apply diamond_planned].
Defined.

Definition chain_plan : MemoryPlan :=
  mkPlan 49152 1 [mkAssignment 0 0 0 24576; mkAssignment 1 1 0 24576; mkAssignment 2 2 0 24576].

Lemma plan_chain_witness : ma_node_index <$> assignments chain_plan = seq 0 3.
Proof.
  apply (plan_chain (H := Tree.lib example_docs) example_layout (replicate 3 example_node) chain_plan);
    [done|done|done|]. vm_compute. reflexivity.
Defined.
