(* ===== verification/PrecisionPlanner.v ===== *)
(** * The precision planner

    Models src/cpipe/runtime/PrecisionPlanner.cpp: port precisions read from node
    manifests, the compatibility check on explicit edges, and the automatic
    insertion of conversion nodes on the edges whose ports have no precision in
    common.  A null descriptor is [None].

    The theorems: [auto_insert] is the edge-by-edge subdivision [expand]; it keeps
    the given nodes, appends one implicit conversion node per mismatching edge with
    a name of its own, and the planned graph has a cycle exactly when the given one
    has; its failures are exactly the bad indices, the unsupported conversions and
    the missing converter. *)

From Stdlib Require Import ZArith Lia.
From stdpp Require Import prelude strings list relations pretty.
From S2P Require Import Prelude Core Json Registry Topo.

Record PrecisionEdge : Type := mkPrecisionEdge {
  pe_from : option cpipe_plugin_desc_t;
  pe_from_port : string;
  pe_to : option cpipe_plugin_desc_t;
  pe_to_port : string
}.

Record PrecisionGraphNode `{JsonLib} : Type := mkPNode {
  pn_id : string;
  pn_descriptor : option cpipe_plugin_desc_t;
  pn_params : json;
  pn_implicit : bool
}.
Arguments mkPNode {_} pn_id pn_descriptor pn_params pn_implicit.

Record PrecisionGraphEdge : Type := mkPEdge {
  pg_from : nat;
  pg_to : nat;
  pg_from_port : string;
  pg_to_port : string
}.

#[export] Instance PrecisionGraphEdge_eq_dec : EqDecision PrecisionGraphEdge.
Proof. solve_decision. Defined.

Record PrecisionPlan `{JsonLib} : Type := mkPPlan {
  pp_nodes : list PrecisionGraphNode;
  pp_edges : list PrecisionGraphEdge;
  pp_inserted : list nat
}.
Arguments mkPPlan {_} pp_nodes pp_edges pp_inserted.

Record PortCaps : Type := mkCaps { channels : list string; precisions : list string }.
Definition no_caps : PortCaps := mkCaps [] [].

Section planner.
Context `{JsonLib}.

(** The first port of the kind and name, when there is one. *)
Fixpoint find_port (ports : list json) (port_kind port_name : string) : res (option json) :=
  match ports with
  | [] => Ok None
  | port :: ports' =>
      kind ← value_or get_string port "kind" "";
      if decide (kind ≠ port_kind) then find_port ports' port_kind port_name else
      name ← value_or get_string port "name" "";
      if decide (name ≠ port_name) then find_port ports' port_kind port_name else
      Ok (Some port)
  end.

Definition port_precisions (desc : option cpipe_plugin_desc_t) (port_kind port_name : string)
    : res (list string) :=
  match desc ≫= manifest_json with
  | None => Ok []
  | Some text =>
      manifest ← parse_json text;
      ports ← value_or get_json manifest "ports" (json_array []);
      port ← find_port (elements ports) port_kind port_name;
      match port with
      | None => Ok []
      | Some port =>
          match find_key port "caps" with
          | None => Ok []
          | Some caps => value_or get_strings caps "precision" []
          end
      end
  end.

Definition port_caps (desc : option cpipe_plugin_desc_t) (port_kind port_name : string)
    : res PortCaps :=
  match desc ≫= manifest_json with
  | None => Ok no_caps
  | Some text =>
      manifest ← parse_json text;
      ports ← value_or get_json manifest "ports" (json_array []);
      port ← find_port (elements ports) port_kind port_name;
      match port with
      | None => Ok no_caps
      | Some port =>
          match find_key port "caps" with
          | None => Ok no_caps
          | Some caps =>
              channels ← value_or get_strings caps "channels" [];
              precisions ← value_or get_strings caps "precision" [];
              Ok (mkCaps channels precisions)
          end
      end
  end.

End planner.

Definition format_from_caps (caps : PortCaps) : option string :=
  if decide (channels caps = ["r"] ∧ precisions caps = ["u16"]) then Some "R16_UINT" else
  if decide (channels caps = ["r"] ∧ precisions caps = ["f32"]) then Some "R32_SFLOAT" else
  if decide (channels caps = ["rgba"] ∧ precisions caps = ["f16"])
  then Some "R16G16B16A16_SFLOAT" else
  if decide (channels caps = ["rgba"] ∧ precisions caps = ["u8"]) then Some "R8G8B8A8_UNORM" else
  if decide (channels caps = ["rgba"] ∧ precisions caps = ["u16"])
  then Some "R16G16B16A16_UNORM" else None.

Definition direct_conversion_supported (from to : string) : bool :=
  (String.eqb from "R16_UINT" && String.eqb to "R32_SFLOAT") ||
  (String.eqb from "R32_SFLOAT" && String.eqb to "R16G16B16A16_SFLOAT") ||
  (String.eqb from "R16G16B16A16_SFLOAT" && String.eqb to "R8G8B8A8_UNORM") ||
  (String.eqb from "R16G16B16A16_SFLOAT" && String.eqb to "R16G16B16A16_UNORM").

Definition intersects (lhs rhs : list string) : bool :=
  match lhs, rhs with
  | [], _ | _, [] => true
  | _, _ => existsb (λ item, bool_decide (item ∈ rhs)) lhs
  end.

Section planner.
Context `{JsonLib}.

Definition validate (edges : list PrecisionEdge) : res unit :=
  foldM (λ _ edge,
    produced ← port_precisions (pe_from edge) "out" (pe_from_port edge);
    required ← port_precisions (pe_to edge) "in" (pe_to_port edge);
    if intersects produced required then Ok tt
    else Fail CPIPE_BAD_PRECISION "precision mismatch on pipeline edge") tt edges.

(** The conversion node inserted on [edge] as the [k]-th one. *)
Definition conversion_node (desc : cpipe_plugin_desc_t) (edge : PrecisionGraphEdge) (k : nat)
    (to_format : string) : PrecisionGraphNode :=
  mkPNode ("__precision_convert_" +:+ pretty (pg_from edge) +:+ "_" +:+ pretty (pg_to edge)
             +:+ "_" +:+ pretty k)
    (Some desc) (json_object [("target_format", json_string to_format)]) true.

(** The body of the loop of [auto_insert]. *)
Definition insert_step (nodes : list PrecisionGraphNode)
    (precision_convert : option cpipe_plugin_desc_t) (out : PrecisionPlan)
    (edge : PrecisionGraphEdge) : res PrecisionPlan :=
  match nodes !! pg_from edge, nodes !! pg_to edge with
  | Some from_node, Some to_node =>
      produced ← port_caps (pn_descriptor from_node) "out" (pg_from_port edge);
      required ← port_caps (pn_descriptor to_node) "in" (pg_to_port edge);
      if intersects (precisions produced) (precisions required)
      then Ok (mkPPlan (pp_nodes out) (pp_edges out ++ [edge]) (pp_inserted out)) else
      match format_from_caps produced, format_from_caps required with
      | Some from_format, Some to_format =>
          if negb (direct_conversion_supported from_format to_format)
          then Fail CPIPE_BAD_PRECISION "precision mismatch on pipeline edge" else
          match precision_convert with
          | None => Fail CPIPE_BAD_PRECISION "precision_convert node unavailable"
          | Some desc =>
              let inserted_index := length (pp_nodes out) in
              let inserted_sequence := length (pp_inserted out) in
              Ok (mkPPlan
                (pp_nodes out ++ [conversion_node desc edge inserted_sequence to_format])
                (pp_edges out ++
                  [mkPEdge (pg_from edge) inserted_index (pg_from_port edge) "in";
                   mkPEdge inserted_index (pg_to edge) "out" (pg_to_port edge)])
                (pp_inserted out ++ [inserted_index]))
          end
      | _, _ => Fail CPIPE_BAD_PRECISION "precision mismatch on pipeline edge"
      end
  | _, _ => Fail CPIPE_BAD_INDEX "precision edge index out of range"
  end.

(** [out_null] is a null output pointer. *)
Definition auto_insert (nodes : list PrecisionGraphNode) (edges : list PrecisionGraphEdge)
    (precision_convert : option cpipe_plugin_desc_t) (out_null : bool) : res PrecisionPlan :=
  if out_null then Fail CPIPE_BAD_INDEX "precision plan output pointer is null" else
  foldM (insert_step nodes precision_convert) (mkPPlan nodes [] []) edges.

(** ** Specification vocabulary *)

Definition edge_pair (e : PrecisionGraphEdge) : nat * nat := (pg_from e, pg_to e).

(** What an edge needs: nothing, or a conversion to a format. *)
Definition edge_decision (nodes : list PrecisionGraphNode) (edge : PrecisionGraphEdge)
    : res (option string) :=
  from_node ← of_option (Fail CPIPE_BAD_INDEX "precision edge index out of range")
    (nodes !! pg_from edge);
  to_node ← of_option (Fail CPIPE_BAD_INDEX "precision edge index out of range")
    (nodes !! pg_to edge);
  produced ← port_caps (pn_descriptor from_node) "out" (pg_from_port edge);
  required ← port_caps (pn_descriptor to_node) "in" (pg_to_port edge);
  if intersects (precisions produced) (precisions required) then Ok None else
  match format_from_caps produced, format_from_caps required with
  | Some from_format, Some to_format =>
      if direct_conversion_supported from_format to_format then Ok (Some to_format)
      else Fail CPIPE_BAD_PRECISION "precision mismatch on pipeline edge"
  | _, _ => Fail CPIPE_BAD_PRECISION "precision mismatch on pipeline edge"
  end.

(** The edges that need a conversion, with its format. *)
Definition conversions (nodes : list PrecisionGraphNode) (edges : list PrecisionGraphEdge)
    : list (PrecisionGraphEdge * string) :=
  omap (λ e, match edge_decision nodes e with Ok (Some f) => Some (e, f) | _ => None end) edges.

(** The planned edges: an edge that needs a conversion is cut in two at the next
    fresh index. *)
Fixpoint expand (nodes : list PrecisionGraphNode) (fresh : nat) (edges : list PrecisionGraphEdge)
    : list PrecisionGraphEdge :=
  match edges with
  | [] => []
  | e :: edges' =>
      match edge_decision nodes e with
      | Ok (Some _) =>
          mkPEdge (pg_from e) fresh (pg_from_port e) "in" ::
          mkPEdge fresh (pg_to e) "out" (pg_to_port e) :: expand nodes (S fresh) edges'
      | _ => e :: expand nodes fresh edges'
      end
  end.

(** ** Lemmas *)

Lemma insert_step_decision nodes pc out e :
  insert_step nodes pc out e =
    d ← edge_decision nodes e;
    match d with
    | None => Ok (mkPPlan (pp_nodes out) (pp_edges out ++ [e]) (pp_inserted out))
    | Some f =>
        match pc with
        | None => Fail CPIPE_BAD_PRECISION "precision_convert node unavailable"
        | Some desc => Ok (mkPPlan
            (pp_nodes out ++ [conversion_node desc e (length (pp_inserted out)) f])
            (pp_edges out ++
              [mkPEdge (pg_from e) (length (pp_nodes out)) (pg_from_port e) "in";
               mkPEdge (length (pp_nodes out)) (pg_to e) "out" (pg_to_port e)])
            (pp_inserted out ++ [length (pp_nodes out)]))
        end
    end.
Proof.
  unfold insert_step, edge_decision.
  destruct (nodes !! pg_from e) as [p|]; [|done]. destruct (nodes !! pg_to e) as [p0|]; [|done]. simpl.
  destruct (port_caps (pn_descriptor p) _ _); [|done..]. simpl.
  destruct (port_caps (pn_descriptor p0) _ _); [|done..]. simpl.
  destruct (intersects _ _); [done|]. destruct (format_from_caps _); [|done].
  destruct (format_from_caps _); [|done]. by destruct (direct_conversion_supported _ _).
Qed.

Lemma expand_app nodes edges1 : ∀ fresh edges2,
  expand nodes fresh (edges1 ++ edges2)
  = expand nodes fresh edges1 ++ expand nodes (fresh + length (conversions nodes edges1)) edges2.
Proof.
  induction edges1 as [|e edges1 IH]; intros fresh edges2; simpl; [by rewrite Nat.add_0_r|].
  unfold conversions in *. simpl. destruct (edge_decision nodes e) as [[f|]| | |]; simpl;
    rewrite IH; by rewrite ?Nat.add_succ_r.
Qed.

Lemma conversions_app nodes edges1 edges2 :
  conversions nodes (edges1 ++ edges2) = conversions nodes edges1 ++ conversions nodes edges2.
Proof. apply omap_app. Qed.

(** The plan after a successful run. *)
Lemma auto_insert_expand nodes edges pc out :
  auto_insert nodes edges pc false = Ok out →
  pp_edges out = expand nodes (length nodes) edges ∧
  pp_inserted out = seq (length nodes) (length (conversions nodes edges)) ∧
  ∃ inserted, pp_nodes out = nodes ++ inserted ∧
    length inserted = length (conversions nodes edges) ∧
    ∀ k e f, conversions nodes edges !! k = Some (e, f) →
      ∃ desc, pc = Some desc ∧ inserted !! k = Some (conversion_node desc e k f).
Proof.
  unfold auto_insert. apply (foldM_invariant (λ pre out,
    pp_edges out = expand nodes (length nodes) pre ∧
    pp_inserted out = seq (length nodes) (length (conversions nodes pre)) ∧
    ∃ inserted, pp_nodes out = nodes ++ inserted ∧
      length inserted = length (conversions nodes pre) ∧
      ∀ k e f, conversions nodes pre !! k = Some (e, f) →
        ∃ desc, pc = Some desc ∧ inserted !! k = Some (conversion_node desc e k f))).
  { split_and!; [done..|]. exists []. by rewrite app_nil_r. }
  intros pre e st st' _ (He & Hi & ins & Hn & Hl & Hc) Hs.
  rewrite insert_step_decision in Hs. apply bind_Ok_inv in Hs as (d & Hd & Hs).
  assert (conversions nodes [e] = match d with Some f => [(e, f)] | None => [] end) as Hce.
  { unfold conversions. simpl. rewrite Hd. by destruct d. }
  rewrite expand_app, conversions_app, length_app, Hce. simpl expand. rewrite Hd.
  assert (length (pp_inserted st) = length (conversions nodes pre)) as Hli
    by (by rewrite Hi, length_seq).
  assert (length (pp_nodes st) = length nodes + length (conversions nodes pre)) as Hln
    by (rewrite Hn, length_app; lia).
  destruct d as [f|]; [destruct pc as [desc|]; [|done]|]; injection Hs as <-; simpl.
  - rewrite Hli, He, Hi, Hln, Nat.add_1_r, seq_S. split_and!; [done|done|].
    exists (ins ++ [conversion_node desc e (length (conversions nodes pre)) f]).
    rewrite Hn, <-app_assoc. split_and!; [done|rewrite length_app; simpl; lia|].
    intros k e' f' [Hk|[Hk Hx]]%lookup_app_Some.
    + destruct (Hc _ _ _ Hk) as (desc' & [= <-] & ?). exists desc. split; [done|].
      by apply lookup_app_l_Some.
    + apply list_lookup_singleton_Some in Hx as [Hz [= <- <-]]. exists desc. split; [done|].
      replace k with (length ins) by lia. rewrite Hl. apply list_lookup_middle. lia.
  - rewrite He, app_nil_r, Nat.add_0_r. split_and!; [done|done|]. by exists ins.
Qed.

(** Where the planned edges come from. *)
Lemma expand_edges nodes edges : ∀ fresh u v,
  (u, v) ∈ edge_pair <$> expand nodes fresh edges →
  (u, v) ∈ edge_pair <$> edges ∨
  ∃ k e f, conversions nodes edges !! k = Some (e, f) ∧ e ∈ edges ∧
    ((u = pg_from e ∧ v = fresh + k) ∨ (u = fresh + k ∧ v = pg_to e)).
Proof.
  induction edges as [|e edges IH]; intros fresh u v; simpl; [by left|].
  unfold conversions. simpl. destruct (edge_decision nodes e) as [[f|]| | |] eqn:Hd; simpl;
    rewrite !elem_of_cons.
  1: intros [[= -> ->]|[[= -> ->]|Hin]].
  1: right; exists 0, e, f; rewrite Nat.add_0_r; split_and!; [done|left|by left].
  1: right; exists 0, e, f; rewrite Nat.add_0_r; split_and!; [done|left|by right].
  1: apply IH in Hin as [?|(k & e' & f' & Hk & ? & Ho)]; [by left; right|].
  1: right; exists (S k), e', f'; split_and!; [done|by right|lia].
  all: intros [?|Hin]; [by left; left|];
    apply IH in Hin as [?|(k & e' & f' & Hk & ? & Ho)]; [by left; right|];
    right; exists k, e', f'; split_and!; [done|by right|lia].
Qed.

Lemma expand_covers nodes edges : ∀ fresh u v,
  (u, v) ∈ edge_pair <$> edges →
  (u, v) ∈ edge_pair <$> expand nodes fresh edges ∨
  ∃ m, (u, m) ∈ edge_pair <$> expand nodes fresh edges ∧
    (m, v) ∈ edge_pair <$> expand nodes fresh edges.
Proof.
  induction edges as [|e edges IH]; intros fresh u v; simpl; [by left|].
  intros [Heq|Hin]%elem_of_cons.
  - injection Heq as -> ->. destruct (edge_decision nodes e) as [[f|]| | |]; simpl; [|by left; left..].
    right. exists fresh. split; [left|right; left].
  - destruct (edge_decision nodes e) as [[f|]| | |]; simpl;
      [destruct (IH (S fresh) u v Hin) as [?|(m & ? & ?)]
      |destruct (IH fresh u v Hin) as [?|(m & ? & ?)]..].
    1: left; by do 2 right.
    1: right; exists m; split; by do 2 right.
    all: first [left; by right|right; exists m; split; by right].
Qed.

Lemma conversions_in nodes edges e f :
  (e, f) ∈ conversions nodes edges → e ∈ edges ∧ edge_decision nodes e = Ok (Some f).
Proof.
  unfold conversions. rewrite list_elem_of_omap. intros (x & Hx & Hd).
  destruct (edge_decision nodes x) as [[g|]| | |] eqn:E; naive_solver.
Qed.

Lemma decision_in_range nodes e d :
  edge_decision nodes e = Ok d → pg_from e < length nodes ∧ pg_to e < length nodes.
Proof.
  unfold edge_decision. intros Hd. apply bind_Ok_inv in Hd as (a & Ha & Hd).
  apply bind_Ok_inv in Hd as (b & Hb & _).
  destruct (nodes !! pg_from e) eqn:E1; [|done]. destruct (nodes !! pg_to e) eqn:E2; [|done].
  split; by eapply lookup_lt_Some.
Qed.

Lemma auto_insert_decided nodes edges pc out :
  auto_insert nodes edges pc false = Ok out → ∀ e, e ∈ edges → ∃ d, edge_decision nodes e = Ok d.
Proof.
  unfold auto_insert. generalize (mkPPlan nodes [] []). induction edges as [|x edges IH];
    intros st; [set_solver|]. simpl. intros Hf. apply bind_Ok_inv in Hf as (st' & Hs & Hf).
  rewrite insert_step_decision in Hs. apply bind_Ok_inv in Hs as (d & Hd & _).
  intros e [->|He]%elem_of_cons; [by exists d|]. by eapply IH.
Qed.

Lemma auto_insert_in_range nodes edges pc out :
  auto_insert nodes edges pc false = Ok out → Forall (in_range (length nodes)) (edge_pair <$> edges).
Proof.
  intros Ho. apply Forall_fmap, Forall_forall. intros e He.
  destruct (auto_insert_decided _ _ _ _ Ho e He) as [d Hd]. by eapply decision_in_range.
Qed.

End planner.

(** Subdividing edges at fresh nodes neither makes nor breaks a cycle. *)
Lemma subdivide_acyclic (n : nat) (es es' : edges_t) (ends : nat → nat * nat) :
  Forall (in_range n) es →
  (∀ u v, (u, v) ∈ es' → (u, v) ∈ es ∨
     (n ≤ v ∧ u < n ∧ ends v ∈ es ∧ u = (ends v).1) ∨
     (n ≤ u ∧ v < n ∧ ends u ∈ es ∧ v = (ends u).2)) →
  (∀ u v, (u, v) ∈ es → (u, v) ∈ es' ∨ ∃ m, (u, m) ∈ es' ∧ (m, v) ∈ es') →
  acyclic es ↔ acyclic es'.
Proof.
  intros Hr Hfrom Hcov. rewrite Forall_forall in Hr. split; intros Hac v Hc.
  - assert (∀ a b, a < n → tc (edge_rel es') a b →
      (b < n ∧ tc (edge_rel es) a b) ∨ (n ≤ b ∧ rtc (edge_rel es) a (ends b).1 ∧ ends b ∈ es))
      as Hpath.
    { intros a b Ha. revert b. apply tc_ind_r; [intros b Hab|intros b c _ Hbc IH].
      - destruct (Hfrom _ _ Hab) as [He|[(?&?&?&->)|(?&?&?&->)]]; [..|lia].
        + left. split; [by apply (Hr _ He)|by apply tc_once].
        + right. by split_and!.
      - destruct (Hfrom _ _ Hbc) as [He|[(?&?&?&->)|(?&?&?&->)]].
        + destruct (Hr _ He) as [??]. simpl in *. destruct IH as [[_ IH]|(? & _)]; [|lia].
          left. split; [done|]. by eapply tc_r.
        + destruct IH as [[_ IH]|(? & _)]; [|lia]. right. split_and!; [done|by apply tc_rtc|done].
        + destruct IH as [[? _]|(_ & IH & _)]; [lia|]. left. split; [done|].
          eapply tc_rtc_l; [done|]. apply tc_once. unfold edge_rel. by destruct (ends b). }
    destruct (decide (v < n)) as [Hv|Hv].
    + destruct (Hpath v v Hv Hc) as [[_ ?]|(? & _)]; [|lia]. by eapply Hac.
    + inversion Hc as [x y Hvv|x y z Hvy Hyv]; subst.
      * destruct (Hfrom _ _ Hvv) as [He|[(?&?&?&?)|(?&?&?&?)]]; [|lia|lia].
        destruct (Hr _ He) as [??]. simpl in *. lia.
      * destruct (Hfrom _ _ Hvy) as [He|[(?&?&?&?)|(?&Hy&He&->)]];
          [destruct (Hr _ He) as [??]; simpl in *; lia|lia|].
        destruct (Hpath _ _ Hy Hyv) as [[? _]|(_ & Hp & _)]; [lia|].
        apply (Hac (ends v).2). eapply tc_rtc_l; [exact Hp|]. apply tc_once.
        unfold edge_rel. by destruct (ends v).
  - apply (Hac v). revert Hc. generalize v at 2 4. intros w Hc.
    assert (∀ a b, edge_rel es a b → tc (edge_rel es') a b) as Hstep.
    { intros a b Hab. destruct (Hcov a b Hab) as [?|(m & ? & ?)]; [by apply tc_once|].
      eapply tc_l; [done|]. by apply tc_once. }
    induction Hc as [a b Hab|a b c Hab _ IH]; [by apply Hstep|].
    eapply tc_transitive; [by apply Hstep|done].
Qed.

Section theorems.
Context `{JsonLib}.

(** The subdivided edge behind an inserted index. *)
Definition conversion_ends (nodes : list PrecisionGraphNode) (edges : list PrecisionGraphEdge)
    (m : nat) : nat * nat :=
  default (0, 0) ((λ c : PrecisionGraphEdge * string, edge_pair c.1) <$>
    conversions nodes edges !! (m - length nodes)).

Lemma auto_insert_acyclic nodes edges pc out :
  auto_insert nodes edges pc false = Ok out →
  acyclic (edge_pair <$> edges) ↔ acyclic (edge_pair <$> pp_edges out).
Proof.
  intros Ho. destruct (auto_insert_expand _ _ _ _ Ho) as (-> & _).
  pose proof (auto_insert_in_range _ _ _ _ Ho) as Hr.
  apply (subdivide_acyclic (length nodes) _ _ (conversion_ends nodes edges)); [done| |].
  - intros u v [?|(k & e & f & Hk & He & Hends)]%expand_edges; [by left|]. right.
    assert (conversion_ends nodes edges (length nodes + k) = edge_pair e) as Hce.
    { unfold conversion_ends. rewrite Nat.add_comm, Nat.add_sub, Hk. done. }
    assert (edge_pair e ∈ edge_pair <$> edges) as Hin by (by apply list_elem_of_fmap_2).
    rewrite Forall_forall in Hr. destruct (Hr _ Hin) as [Hf Ht]. simpl in Hf, Ht.
    destruct Hends as [[-> ->]|[-> ->]]; [left|right]; rewrite Hce; split_and!; try done; lia.
  - intros u v. apply expand_covers.
Qed.

(** The planned edges stay in range of the planned nodes. *)
Lemma auto_insert_edges_in_range nodes edges pc out :
  auto_insert nodes edges pc false = Ok out →
  Forall (in_range (length (pp_nodes out))) (edge_pair <$> pp_edges out).
Proof.
  intros Ho. destruct (auto_insert_expand _ _ _ _ Ho) as (-> & _ & ins & -> & Hl & _).
  pose proof (auto_insert_in_range _ _ _ _ Ho) as Hr. rewrite Forall_forall in Hr.
  apply Forall_forall. intros [u v] [Hin|(k & e & f & Hk & He & Hends)]%expand_edges.
  - destruct (Hr _ Hin). unfold in_range in *. rewrite length_app. simpl in *. lia.
  - assert (edge_pair e ∈ edge_pair <$> edges) as Hin by (by apply list_elem_of_fmap_2).
    destruct (Hr _ Hin) as [Hf Ht]. simpl in Hf, Ht. apply lookup_lt_Some in Hk.
    unfold in_range. rewrite length_app. simpl. lia.
Qed.

Lemma conversions_cons_length nodes e edges :
  length (conversions nodes (e :: edges)) =
    (match edge_decision nodes e with Ok (Some _) => 1 | _ => 0 end) +
    length (conversions nodes edges).
Proof. unfold conversions. simpl. by destruct (edge_decision nodes e) as [[f|]| | |]. Qed.

Lemma conversions_length_le nodes edges : length (conversions nodes edges) ≤ length edges.
Proof.
  induction edges as [|e edges IH]; [done|]. rewrite conversions_cons_length. simpl.
  destruct (edge_decision nodes e) as [[f|]| | |]; lia.
Qed.

Lemma expand_length nodes edges : ∀ fresh,
  length (expand nodes fresh edges) = length edges + length (conversions nodes edges).
Proof.
  induction edges as [|e edges IH]; intros fresh; [done|]. rewrite conversions_cons_length.
  simpl. destruct (edge_decision nodes e) as [[f|]| | |]; simpl; rewrite IH; lia.
Qed.

(** ** Theorems *)

(** C8: automatic precision planning refines the subdivision specification: on
    success the planned edges are the given ones in order, each edge whose ports
    share no precision being cut in two at a fresh node, the given nodes are kept
    as a prefix, one implicit conversion node with the required target format is
    appended per cut edge, and the reported inserted indices are exactly theirs. *)
Theorem auto_insert_refines (nodes : list PrecisionGraphNode) (edges : list PrecisionGraphEdge)
    (pc : option cpipe_plugin_desc_t) (out : PrecisionPlan) :
  auto_insert nodes edges pc false = Ok out →
  pp_edges out = expand nodes (length nodes) edges ∧
  pp_inserted out = seq (length nodes) (length (conversions nodes edges)) ∧
  take (length nodes) (pp_nodes out) = nodes ∧
  length (pp_nodes out) = length nodes + length (conversions nodes edges) ∧
  ∀ k e f, conversions nodes edges !! k = Some (e, f) →
    ∃ desc, pc = Some desc ∧
      pp_nodes out !! (length nodes + k) = Some (conversion_node desc e k f).
Proof.
  intros Ho. destruct (auto_insert_expand _ _ _ _ Ho) as (He & Hi & ins & Hn & Hl & Hc).
  rewrite Hn. split_and!; [done|done|apply take_app_length|by rewrite length_app, Hl|].
  intros k e f Hk. destruct (Hc k e f Hk) as (desc & -> & Hd). exists desc. split; [done|].
  rewrite lookup_app_r by lia. by rewrite Nat.add_comm, Nat.add_sub.
Qed.

(** precision planning neither creates nor hides a cycle: the planned graph is
    acyclic exactly when the given one is, and all its indices are in range. *)
Theorem auto_insert_cycles (nodes : list PrecisionGraphNode) (edges : list PrecisionGraphEdge)
    (pc : option cpipe_plugin_desc_t) (out : PrecisionPlan) :
  auto_insert nodes edges pc false = Ok out →
  (acyclic (edge_pair <$> edges) ↔ acyclic (edge_pair <$> pp_edges out)) ∧
  Forall (in_range (length (pp_nodes out))) (edge_pair <$> pp_edges out).
Proof.
  intros Ho. split; [by eapply auto_insert_acyclic|by eapply auto_insert_edges_in_range].
Qed.

Lemma insert_loop_total nodes pc edges : ∀ st,
  (∀ e, e ∈ edges → ∃ d, edge_decision nodes e = Ok d ∧ (is_Some d → is_Some pc)) →
  ∃ out, foldM (insert_step nodes pc) st edges = Ok out.
Proof.
  induction edges as [|e edges IH]; intros st Hd; [by eexists|]. simpl.
  destruct (Hd e ltac:(left)) as (d & He & Hpc). rewrite insert_step_decision, He. simpl.
  destruct d as [f|]; [destruct Hpc as [desc ->]; [done|]|]; simpl; apply IH;
    intros; apply Hd; by right.
Qed.

(** precision planning succeeds exactly when every edge joins existing nodes
    and its ports either share a precision or have a supported direct conversion
    for which a conversion node is registered. *)
Theorem auto_insert_succeeds (nodes : list PrecisionGraphNode) (edges : list PrecisionGraphEdge)
    (pc : option cpipe_plugin_desc_t) :
  (∃ out, auto_insert nodes edges pc false = Ok out) ↔
  ∀ e, e ∈ edges → ∃ d, edge_decision nodes e = Ok d ∧ (is_Some d → is_Some pc).
Proof.
  split; [|apply insert_loop_total]. intros [out Ho] e He.
  destruct (auto_insert_decided _ _ _ _ Ho e He) as [d Hd]. exists d. split; [done|].
  intros [f ->]. destruct (auto_insert_expand _ _ _ _ Ho) as (_ & _ & ins & _ & _ & Hc).
  assert ((e, f) ∈ conversions nodes edges) as Hin.
  { unfold conversions. apply list_elem_of_omap. exists e. split; [done|]. by rewrite Hd. }
  apply list_elem_of_lookup in Hin as [k Hk]. destruct (Hc _ _ _ Hk) as (desc & -> & _). done.
Qed.

End theorems.

(** ** Witnesses *)

Definition example_port (kind name channel precision : string) : Tree.tree :=
  Tree.mk_object [("kind", Tree.JString kind); ("name", Tree.JString name);
    ("caps", Tree.mk_object [("channels", Tree.JArray [Tree.JString channel]);
                             ("precision", Tree.JArray [Tree.JString precision])])].

Definition example_docs (text : string) : option Tree.tree :=
  if String.eqb text "half" then Some (Tree.mk_object [("ports", Tree.JArray
    [example_port "out" "out" "rgba" "f16"])])
  else if String.eqb text "byte" then Some (Tree.mk_object [("ports", Tree.JArray
    [example_port "in" "in" "rgba" "u8"; example_port "out" "out" "rgba" "u8"])])
  else None.

#[local] Instance example_lib : JsonLib := Tree.lib example_docs.

Definition example_desc (text : string) : cpipe_plugin_desc_t :=
  mkDesc 0 4 (Some text) None (Some text) (Some 0).
Definition example_pnode (text : string) : PrecisionGraphNode :=
  mkPNode text (Some (example_desc text)) json_null false.

(** half -> byte -> byte: the first edge needs a conversion. *)
Definition example_pnodes : list PrecisionGraphNode :=
  [example_pnode "half"; example_pnode "byte"; example_pnode "byte"].
Definition example_pedges : list PrecisionGraphEdge :=
  [mkPEdge 0 1 "out" "in"; mkPEdge 1 2 "out" "in"].
Definition example_out : PrecisionPlan :=
  mkPPlan (example_pnodes ++ [conversion_node (example_desc "conv") (mkPEdge 0 1 "out" "in") 0
    "R8G8B8A8_UNORM"])
    [mkPEdge 0 3 "out" "in"; mkPEdge 3 1 "out" "in"; mkPEdge 1 2 "out" "in"] [3].

Lemma auto_insert_refines_witness : pp_inserted example_out = seq 3 1.
Proof.
  apply (auto_insert_refines example_pnodes example_pedges (Some (example_desc "conv")) example_out).
  reflexivity.
Defined.

Lemma auto_insert_cycles_witness :
  Forall (in_range 4) (edge_pair <$> pp_edges example_out).
Proof.
  apply (auto_insert_cycles example_pnodes example_pedges (Some (example_desc "conv")) example_out).
  reflexivity.
Defined.
