(* ===== verification/Pipeline.v ===== *)
(** * Loading a pipeline

    Models the first half of src/cpipe/runtime/Pipeline.cpp: the helpers that read
    node manifests, the validation of node parameters, and [Pipeline::load] with
    its stages - schema check, node table, edge table, topological sort, metadata
    steps, colour roles, precision planning, order of the planned graph, input
    ports, memory plan.  A C string or descriptor pointer that may be null is an
    [option]; [nullopt] plus an error text is [Fail CPIPE_FAILED text], the status
    that the only caller returns.

    Parameters: the JSON library, the schema validator ([schema_validate]) and the
    text of a caught exception ([what]).

    The theorems: what a successful load guarantees - the loaded node list is a
    topological order of the planned graph, every required metadata step is
    produced by a node upstream of the edge, colour roles agree, the memory peak
    respects the cap -, that the graph is rejected as cyclic exactly when it is,
    and that two later error branches of [load] are dead code. *)

From Stdlib Require Import ZArith Lia SpecFloat.
From stdpp Require Import prelude strings list gmap relations.
From S2P Require Import Prelude Core Json Registry Topo.
From S2P Require MemoryPlanner.
From S2P Require Import PrecisionPlanner.

Record Endpoint : Type := mkEndpoint { ep_node_id : string; ep_port : string }.

Record GraphEdge : Type := mkGEdge {
  ge_from : nat;
  ge_to : nat;
  ge_from_port : string;
  ge_to_port : string
}.

Definition split_endpoint (endpoint : string) : Endpoint :=
  match String.index 0 "." endpoint with
  | None => mkEndpoint endpoint ""
  | Some dot =>
      mkEndpoint (String.substring 0 dot endpoint)
        (String.substring (dot + 1) (String.length endpoint - (dot + 1)) endpoint)
  end.

Definition pixel_format_from_string (format : string) : option PixelFormat :=
  if String.eqb format "R16_UINT" then Some R16_UINT else
  if String.eqb format "R32_SFLOAT" then Some R32_SFLOAT else
  if String.eqb format "R16G16B16A16_SFLOAT" then Some R16G16B16A16_SFLOAT else
  if String.eqb format "R8G8B8A8_UNORM" then Some R8G8B8A8_UNORM else
  if String.eqb format "R16G16B16A16_UNORM" then Some R16G16B16A16_UNORM else None.

(** [Pipeline::InputPort]. *)
Record InputPort : Type := mkInput { in_name : string; in_layout : BufferLayout }.

Record NodeInstance `{JsonLib} : Type := mkNode {
  ni_id : string;
  ni_descriptor : option cpipe_plugin_desc_t;
  ni_params : json
}.
Arguments mkNode {_} ni_id ni_descriptor ni_params.

Record SourceBinding `{JsonLib} : Type := mkSource {
  sb_plugin_id : string;
  sb_descriptor : option cpipe_plugin_desc_t;
  sb_params : json
}.
Arguments mkSource {_} sb_plugin_id sb_descriptor sb_params.

(** The private state of [Pipeline]. *)
Record Pipeline `{JsonLib} : Type := mkPipeline {
  inputs_ : list InputPort;
  layout_ : BufferLayout;
  nodes_ : list NodeInstance;
  sources_ : gmap string SourceBinding;
  registry_ : option Registry;
  device_memory_cap_bytes_ : Z;
  memory_peak_bytes_ : Z
}.
Arguments mkPipeline {_} inputs_ layout_ nodes_ sources_ registry_ device_memory_cap_bytes_
  memory_peak_bytes_.

Section pipeline.
Context `{JsonLib}.

(** [Pipeline{}]. *)
Definition empty_pipeline : Pipeline := mkPipeline [] default_layout [] ∅ None size_max 0.

(** [set_device_memory_cap]. *)
Definition set_device_memory_cap (p : Pipeline) (cap : Z) : Pipeline :=
  mkPipeline (inputs_ p) (layout_ p) (nodes_ p) (sources_ p) (registry_ p) cap
    (memory_peak_bytes_ p).

(** ** Manifest helpers *)

Definition layout_from_json (input : json) : res BufferLayout :=
  format_json ← at_key input "format";
  format ← get_string format_json;
  width ← value_or get_u32 input "width" 0%Z;
  height ← value_or get_u32 input "height" 0%Z;
  Ok (mkLayout Image2D (default R8G8B8A8_UNORM (pixel_format_from_string format)) 2
    [width; height; 0; 0; 0; 0; 0; 0]%Z zeros8).

Definition manifest_pixel_format (port : json) : res (option PixelFormat) :=
  match find_key port "caps" with
  | None => Ok None
  | Some caps =>
      channels ← value_or get_strings caps "channels" [];
      precision ← value_or get_strings caps "precision" [];
      Ok (if decide (channels = ["r"] ∧ precision = ["u16"]) then Some R16_UINT else
          if decide (channels = ["r"] ∧ precision = ["f32"]) then Some R32_SFLOAT else
          if decide (channels = ["rgba"] ∧ precision = ["f16"]) then Some R16G16B16A16_SFLOAT else
          if decide (channels = ["rgba"] ∧ precision = ["u8"]) then Some R8G8B8A8_UNORM else
          if decide (channels = ["rgba"] ∧ precision = ["u16"]) then Some R16G16B16A16_UNORM
          else None)
  end.

Definition has_kind (kind : string) (port : json) : res bool :=
  k ← value_or get_string port "kind" ""; Ok (String.eqb k kind).

Definition manifest_ports (text : string) : res (list json) :=
  manifest ← parse_json text;
  ports ← value_or get_json manifest "ports" (json_array []);
  Ok (elements ports).

(** [nullopt] without an error text leaves the text as it was, here empty. *)
Definition output_layout_for_node (desc : option cpipe_plugin_desc_t) (params : json)
    (input : BufferLayout) : res BufferLayout :=
  match desc with
  | Some d =>
      match manifest_json d with
      | None => Fail CPIPE_FAILED "missing node manifest"
      | Some text =>
          if decide (node_id d = Some "com.cpipe.precision_convert") then
            target ← value_or get_string params "target_format" "";
            match pixel_format_from_string target with
            | None => Fail CPIPE_FAILED "unsupported precision_convert target format"
            | Some format => Ok (with_format input format)
            end
          else if decide (node_id d = Some "com.cpipe.color.scene_linear_to_display") then
            target ← value_or get_string params "target" "sRGB";
            if String.eqb target "sRGB" then Ok (with_format input R8G8B8A8_UNORM) else
            if String.eqb target "BT2020-PQ" then Ok (with_format input R16G16B16A16_UNORM) else
            Fail CPIPE_FAILED "unsupported scene_linear_to_display target"
          else
            ports ← manifest_ports text;
            found ← findM (has_kind "out") ports;
            match found with
            | None => Fail CPIPE_FAILED ""
            | Some port =>
                format ← manifest_pixel_format port;
                match format with
                | None => Fail CPIPE_FAILED "unsupported output port format"
                | Some format => Ok (with_format input format)
                end
            end
      end
  | None => Fail CPIPE_FAILED "missing node manifest"
  end.

Definition node_has_output (desc : option cpipe_plugin_desc_t) : res bool :=
  match desc ≫= manifest_json with
  | None => Ok false
  | Some text => ports ← manifest_ports text; anyM (has_kind "out") ports
  end.

Definition node_input_count (desc : option cpipe_plugin_desc_t) : res nat :=
  match desc ≫= manifest_json with
  | None => Ok 1
  | Some text =>
      ports ← manifest_ports text;
      count ← countM (has_kind "in") ports;
      Ok (Nat.max count 1)
  end.

(** ** Validation *)

Definition validate_pipeline_schema (what : exn → string) (schema_validate : json → res unit)
    (document : json) : res unit :=
  catch
    (version ← value_or get_string document "version" "";
     if decide (version ≠ "0.4")
     then Fail CPIPE_FAILED "schema version mismatch — run tools/migrate/v03_to_v04.py"
     else schema_validate document)
    (λ e, Fail CPIPE_FAILED ("pipeline schema validation failed: " +:+ what e)).

Definition validate_enum_param (name : string) (value declaration : json) : res unit :=
  if negb (is_string value) then Fail CPIPE_BAD_INDEX ("node param must be enum string: " +:+ name)
  else
    enum_values ← value_or get_strings declaration "enum_values" [];
    selected ← get_string value;
    if decide (selected ∈ enum_values) then Ok tt
    else Fail CPIPE_BAD_INDEX ("node param outside enum: " +:+ name).

Definition validate_number_param (name : string) (value declaration : json) : res unit :=
  if negb (is_number value) then Fail CPIPE_BAD_INDEX ("node param must be number: " +:+ name)
  else match find_key declaration "range" with
  | None => Ok tt
  | Some range =>
      selected ← get_double value;
      below ← (if contains range "min" then
                 bound ← (m ← at_key range "min"; get_double m); Ok (SFltb selected bound)
               else Ok false);
      if below : bool then Fail CPIPE_BAD_INDEX ("node param below range: " +:+ name) else
      above ← (if contains range "max" then
                 bound ← (m ← at_key range "max"; get_double m); Ok (SFltb bound selected)
               else Ok false);
      if above : bool then Fail CPIPE_BAD_INDEX ("node param above range: " +:+ name) else
      Ok tt
  end.

Definition validate_typed_param (name : string) (value declaration : json) : res unit :=
  type ← value_or get_string declaration "type" "";
  if String.eqb type "enum" then validate_enum_param name value declaration else
  if String.eqb type "number" then validate_number_param name value declaration else
  if String.eqb type "boolean" && negb (is_boolean value)
  then Fail CPIPE_BAD_INDEX ("node param must be boolean: " +:+ name) else
  if String.eqb type "string" && negb (is_string value)
  then Fail CPIPE_BAD_INDEX ("node param must be string: " +:+ name) else
  if String.eqb type "array" && negb (is_array value)
  then Fail CPIPE_BAD_INDEX ("node param must be array: " +:+ name) else
  if String.eqb type "boolean" || String.eqb type "string" || String.eqb type "array" then Ok tt
  else Fail CPIPE_BAD_INDEX ("unsupported node param type: " +:+ name).

Definition has_name (name : string) (declaration : json) : res bool :=
  n ← value_or get_string declaration "name" ""; Ok (String.eqb n name).

Definition validate_node_params (desc : option cpipe_plugin_desc_t) (params : json) : res unit :=
  match desc ≫= manifest_json with
  | None => Fail CPIPE_BAD_INDEX "missing node manifest"
  | Some text =>
      manifest ← parse_json text;
      declarations ← value_or get_json manifest "params" (json_array []);
      foldM (λ _ item,
        let '(name, value) := item in
        found ← findM (has_name name) (elements declarations);
        match found with
        | None => Fail CPIPE_BAD_INDEX ("unknown node param: " +:+ name)
        | Some declaration => validate_typed_param name value declaration
        end) tt (items params)
  end.

(** ** Metadata steps and colour roles *)

Definition manifest_metadata_steps (desc : option cpipe_plugin_desc_t)
    (port_kind port_name field : string) : res (list string) :=
  match desc ≫= manifest_json with
  | None => Ok []
  | Some text =>
      ports ← manifest_ports text;
      port ← find_port ports port_kind port_name;
      match port with
      | None => Ok []
      | Some port =>
          match find_key port "metadata" with
          | None => Ok []
          | Some metadata => value_or get_strings metadata field []
          end
      end
  end.

Definition manifest_color_role (desc : option cpipe_plugin_desc_t) (field : string) : res string :=
  match desc ≫= manifest_json with
  | None => Ok "any"
  | Some text =>
      manifest ← parse_json text;
      match find_key manifest "color" with
      | None => Ok "any"
      | Some color => value_or get_string color field "any"
      end
  end.

Definition contains_step (steps : list string) (step : string) : bool :=
  bool_decide (step ∈ steps).

Definition append_unique_steps (out steps : list string) : list string :=
  foldl (λ out step, if contains_step out step then out else out ++ [step]) out steps.

Definition color_roles_compatible (produced required : string) : bool :=
  String.eqb produced "" || String.eqb required "" || String.eqb produced "any" ||
  String.eqb required "any" || String.eqb produced required.

(** ** The stages of [load] *)

(** [node_index.emplace(id, index)] keeps the first binding of an id. *)
Definition emplace (index : gmap string nat) (id : string) (i : nat) : gmap string nat :=
  match index !! id with Some _ => index | None => <[id := i]> index end.

Definition load_node (registry : Registry) (st : list NodeInstance * gmap string nat) (node : json)
    : res (list NodeInstance * gmap string nat) :=
  let '(nodes, node_index) := st in
  id_json ← at_key node "id"; id ← get_string id_json;
  type_json ← at_key node "type"; type ← get_string type_json;
  if String.eqb type "com.cpipe.precision_convert"
  then Fail CPIPE_BAD_INDEX ("reserved implicit node type: " +:+ type) else
  match find registry type with
  | None => Fail CPIPE_BAD_INDEX ("unknown node type: " +:+ type)
  | Some desc =>
      params ← at_key node "params";
      _ ← validate_node_params (Some desc) params;
      Ok (nodes ++ [mkNode id (Some desc) params], emplace node_index id (length nodes))
  end.

Definition load_edge (node_index : gmap string nat)
    (st : (adjacency_t * list Z) * list GraphEdge) (edge : json)
    : res ((adjacency_t * list Z) * list GraphEdge) :=
  let '(graph, graph_edges) := st in
  from_json ← at_key edge "from"; from_text ← get_string from_json;
  to_json ← at_key edge "to"; to_text ← get_string to_json;
  let from_endpoint := split_endpoint from_text in
  let to_endpoint := split_endpoint to_text in
  match node_index !! ep_node_id from_endpoint, node_index !! ep_node_id to_endpoint with
  | Some from, Some to =>
      Ok (add_edge graph (from, to),
          graph_edges ++ [mkGEdge from to (ep_port from_endpoint) (ep_port to_endpoint)])
  | _, _ => Fail CPIPE_BAD_INDEX "dangling edge in pipeline"
  end.

(** The node and edge tables of a document. *)
Definition load_graph (document : json) (registry : Registry)
    : res (list NodeInstance * (adjacency_t * list Z) * list GraphEdge) :=
  json_nodes ← at_key document "nodes";
  '(nodes, node_index) ← foldM (load_node registry) ([], ∅) (elements json_nodes);
  json_edges ← at_key document "edges";
  '(graph, graph_edges) ←
    foldM (load_edge node_index) (empty_graph (length nodes), []) (elements json_edges);
  Ok (nodes, graph, graph_edges).

(** The first topological sort. *)
Definition sort_nodes (node_count : nat) (graph : adjacency_t * list Z) : res (list nat) :=
  sorted_indices ← of_option Undef (kahn node_count graph);
  if decide (length sorted_indices ≠ node_count)
  then Fail CPIPE_FAILED "cycle in pipeline graph" else Ok sorted_indices.

Definition node_descriptor (nodes : list NodeInstance) (i : nat) : option cpipe_plugin_desc_t :=
  nodes !! i ≫= ni_descriptor.

(** The body of the first loop over [sorted_indices]. *)
Definition accumulate_steps (nodes : list NodeInstance) (graph_edges : list GraphEdge)
    (cumulative_steps : list (list string)) (index : nat) : res (list (list string)) :=
  let inherited := foldl (λ cum edge,
    if decide (ge_to edge = index)
    then alter (λ out, append_unique_steps out (default [] (cum !! ge_from edge))) index cum
    else cum) cumulative_steps graph_edges in
  foldM (λ cum edge,
    if decide (ge_from edge = index) then
      steps ← manifest_metadata_steps (node_descriptor nodes index) "out" (ge_from_port edge)
                "sets_steps_applied";
      Ok (alter (λ out, append_unique_steps out steps) index cum)
    else Ok cum) inherited graph_edges.

Definition compute_steps (nodes : list NodeInstance) (graph_edges : list GraphEdge)
    (sorted_indices : list nat) : res (list (list string)) :=
  foldM (accumulate_steps nodes graph_edges) (replicate (length nodes) []) sorted_indices.

(** The body of the loop that checks every edge. *)
Definition check_edge (nodes : list NodeInstance) (cumulative_steps : list (list string))
    (edge : GraphEdge) : res unit :=
  required ← manifest_metadata_steps (node_descriptor nodes (ge_to edge)) "in" (ge_to_port edge)
    "requires_steps_applied";
  _ ← foldM (λ _ step,
        if contains_step (default [] (cumulative_steps !! ge_from edge)) step then Ok tt
        else Fail CPIPE_NEED_METADATA
          ("metadata step required by pipeline edge is not produced: " +:+ step)) tt required;
  produced_role ← manifest_color_role (node_descriptor nodes (ge_from edge)) "output_role";
  required_role ← manifest_color_role (node_descriptor nodes (ge_to edge)) "input_role";
  if color_roles_compatible produced_role required_role then Ok tt
  else Fail CPIPE_NEED_METADATA ("color role mismatch on pipeline edge: " +:+ produced_role
         +:+ " -> " +:+ required_role).

Definition check_edges (nodes : list NodeInstance) (cumulative_steps : list (list string))
    (graph_edges : list GraphEdge) : res unit :=
  foldM (λ _ edge, check_edge nodes cumulative_steps edge) tt graph_edges.

Definition precision_node (node : NodeInstance) : PrecisionGraphNode :=
  mkPNode (ni_id node) (ni_descriptor node) (ni_params node) false.
Definition precision_edge (edge : GraphEdge) : PrecisionGraphEdge :=
  mkPEdge (ge_from edge) (ge_to edge) (ge_from_port edge) (ge_to_port edge).

Definition planned_node (node : PrecisionGraphNode) : NodeInstance :=
  mkNode (pn_id node) (pn_descriptor node) (pn_params node).

(** The second topological sort, over the planned graph. *)
Definition order_plan (precision_plan : PrecisionPlan) : res (list NodeInstance) :=
  let n := length (pp_nodes precision_plan) in
  graph ← foldM (λ g edge,
    if (n <=? pg_from edge) || (n <=? pg_to edge)
    then Fail CPIPE_BAD_INDEX "precision edge index out of range"
    else Ok (add_edge g (pg_from edge, pg_to edge))) (empty_graph n) (pp_edges precision_plan);
  order ← of_option Undef (kahn n graph);
  let planned_nodes := planned_node <$> omap (λ i, pp_nodes precision_plan !! i) order in
  if decide (length planned_nodes ≠ n)
  then Fail CPIPE_FAILED "cycle in precision-planned pipeline graph" else Ok planned_nodes.

Definition load_inputs (document : json) : res (list InputPort) :=
  json_inputs ← at_key document "inputs";
  foldM (λ inputs input_json,
    port ← at_key input_json "port"; name ← get_string port;
    layout ← layout_from_json input_json;
    Ok (inputs ++ [mkInput name layout])) [] (elements json_inputs).

(** [file] is the contents of the file, [None] when it cannot be opened; [out] is
    the pipeline behind the output pointer.  On failure it is left as it was. *)
Definition load (what : exn → string) (schema_validate : json → res unit)
    (file : option string) (registry : Registry) (out : option Pipeline)
    : res Pipeline :=
  match out with
  | None => Fail CPIPE_BAD_INDEX "output pipeline pointer is null"
  | Some out =>
    match file with
    | None => Fail CPIPE_FAILED "failed to open pipeline JSON"
    | Some text =>
        document ← catch (parse_json text)
          (λ e, Fail CPIPE_FAILED ("failed to parse pipeline JSON: " +:+ what e));
        _ ← validate_pipeline_schema what schema_validate document;
        '(nodes, graph, graph_edges) ← load_graph document registry;
        sorted_indices ← sort_nodes (length nodes) graph;
        cumulative_steps ← compute_steps nodes graph_edges sorted_indices;
        _ ← check_edges nodes cumulative_steps graph_edges;
        precision_plan ← auto_insert (precision_node <$> nodes) (precision_edge <$> graph_edges)
          (find registry "com.cpipe.precision_convert") false;
        planned_nodes ← order_plan precision_plan;
        inputs ← load_inputs document;
        let primary_layout :=
          match inputs with [] => default_layout | input :: _ => in_layout input end in
        memory_plan ← MemoryPlanner.plan_graph primary_layout
          (pn_descriptor <$> pp_nodes precision_plan)
          ((λ edge, MemoryPlanner.mkEdge (pg_from edge) (pg_to edge)) <$> pp_edges precision_plan);
        if (device_memory_cap_bytes_ out <? MemoryPlanner.peak_bytes memory_plan)%Z
        then Fail CPIPE_OOM "memory peak exceeds device cap" else
        Ok (mkPipeline inputs primary_layout planned_nodes ∅ (Some registry)
              (device_memory_cap_bytes_ out) (MemoryPlanner.peak_bytes memory_plan))
    end
  end.

(** ** Binding a source *)

Definition set_source (p : Pipeline) (port_name plugin_id : string) (params : json) : res Pipeline :=
  if decide (Exists (λ input, in_name input = port_name) (inputs_ p)) then
    match registry_ p ≫= λ r, find r plugin_id with
    | None => Fail CPIPE_BAD_INDEX ""
    | Some desc =>
        Ok (mkPipeline (inputs_ p) (layout_ p) (nodes_ p)
          (<[port_name := mkSource plugin_id (Some desc) params]> (sources_ p)) (registry_ p)
          (device_memory_cap_bytes_ p) (memory_peak_bytes_ p))
    end
  else Fail CPIPE_BAD_INDEX "".

(** ** Specification vocabulary *)

Definition graph_pairs (edges : list GraphEdge) : edges_t := (λ e, (ge_from e, ge_to e)) <$> edges.

(** The edge array of a document is shorter than half the address space. *)
Definition small_document (document : json) : Prop :=
  ∀ j, at_key document "edges" = Ok j → (2 * len (elements j) < 2 ^ 64)%Z.

(** Node [u] declares that it applies step [s] on the port of one of its edges. *)
Definition produces (nodes : list NodeInstance) (edges : list GraphEdge) (u : nat) (s : string)
    : Prop :=
  ∃ e steps, e ∈ edges ∧ ge_from e = u ∧
    manifest_metadata_steps (node_descriptor nodes u) "out" (ge_from_port e) "sets_steps_applied"
      = Ok steps ∧ s ∈ steps.

(** [s] is produced at [v] or upstream of it. *)
Definition upstream (nodes : list NodeInstance) (edges : list GraphEdge) (v : nat) (s : string)
    : Prop :=
  ∃ u, rtc (edge_rel (graph_pairs edges)) u v ∧ produces nodes edges u s.

(** What the edge checks demand: every required step comes from upstream and the
    colour roles agree. *)
Definition edge_ok (nodes : list NodeInstance) (edges : list GraphEdge) (e : GraphEdge) : Prop :=
  ∃ required produced_role required_role,
    manifest_metadata_steps (node_descriptor nodes (ge_to e)) "in" (ge_to_port e)
      "requires_steps_applied" = Ok required ∧
    (∀ s, s ∈ required → upstream nodes edges (ge_from e) s) ∧
    manifest_color_role (node_descriptor nodes (ge_from e)) "output_role" = Ok produced_role ∧
    manifest_color_role (node_descriptor nodes (ge_to e)) "input_role" = Ok required_role ∧
    (produced_role = "" ∨ required_role = "" ∨ produced_role = "any" ∨ required_role = "any" ∨
     produced_role = required_role).

(** A parameter value fits its declaration. *)
Definition param_fits (value declaration : json) : Prop :=
  ∃ type, value_or get_string declaration "type" "" = Ok type ∧
  if String.eqb type "enum" then
    ∃ allowed selected, value_or get_strings declaration "enum_values" [] = Ok allowed ∧
      get_string value = Ok selected ∧ selected ∈ allowed
  else if String.eqb type "number" then
    is_number value = true ∧
    ∀ range, find_key declaration "range" = Some range → ∃ selected, get_double value = Ok selected ∧
      (contains range "min" = true → ∃ j bound, at_key range "min" = Ok j ∧
        get_double j = Ok bound ∧ SFltb selected bound = false) ∧
      (contains range "max" = true → ∃ j bound, at_key range "max" = Ok j ∧
        get_double j = Ok bound ∧ SFltb bound selected = false)
  else
    (type = "boolean" ∧ is_boolean value = true) ∨ (type = "string" ∧ is_string value = true) ∨
    (type = "array" ∧ is_array value = true).

(** ** The graph tables *)

Lemma load_node_index registry st node st' :
  (∀ id i, st.2 !! id = Some i → i < length st.1) →
  load_node registry st node = Ok st' → ∀ id i, st'.2 !! id = Some i → i < length st'.1.
Proof.
  intros Hst Hl. destruct st as [nodes index]. unfold load_node in Hl. res_inv.
  destruct (String.eqb _ _); [done|]. destruct (find _ _); [|done]. res_inv. simpl in *.
  intros id i. unfold emplace. rewrite length_app. simpl.
  destruct (index !! _) eqn:E; [intros ?%Hst; lia|].
  intros [[_ <-]|[_ ?%Hst]]%lookup_insert_Some; lia.
Qed.

Lemma load_edge_graph n index graph edges edge st' :
  (∀ id i, index !! id = Some i → i < n) →
  graph = graph_of n (graph_pairs edges) → Forall (in_range n) (graph_pairs edges) →
  load_edge index (graph, edges) edge = Ok st' →
  st'.1 = graph_of n (graph_pairs st'.2) ∧ Forall (in_range n) (graph_pairs st'.2) ∧
  length st'.2 = S (length edges).
Proof.
  intros Hi -> Hr Hl. unfold load_edge in Hl. res_inv.
  destruct (index !! _) as [u|] eqn:Hu; [|done]. destruct (index !! ep_node_id _) as [v|] eqn:Hv in Hl; [|done].
  res_inv. simpl. unfold graph_pairs, graph_of in *. rewrite fmap_app, foldl_app, length_app. simpl.
  split_and!; [done| |lia]. apply Forall_app. split; [done|]. apply Forall_singleton.
  split; simpl; by eapply Hi.
Qed.

(** The tables describe one graph: edge list, adjacency and in-degrees agree and
    every index is a node. *)
Lemma load_graph_spec document registry nodes graph edges :
  load_graph document registry = Ok (nodes, graph, edges) → small_document document →
  graph = graph_of (length nodes) (graph_pairs edges) ∧
  Forall (in_range (length nodes)) (graph_pairs edges) ∧
  (2 * len (graph_pairs edges) < 2 ^ 64)%Z.
Proof.
  unfold load_graph. intros Hl Hsmall. apply bind_Ok_inv in Hl as (jn & _ & Hl).
  apply bind_Ok_inv in Hl as ([ns index] & Hn & Hl). apply bind_Ok_inv in Hl as (je & Hje & Hl).
  apply bind_Ok_inv in Hl as ([g es] & He & Hl). injection Hl as <- <- <-.
  assert (∀ id i, index !! id = Some i → i < length ns) as Hidx.
  { apply (foldM_invariant (λ _ st, ∀ id i, st.2 !! id = Some i → i < length st.1)
      (load_node registry) (elements jn) ([], ∅) (ns, index)); [|..|done].
    - intros id i. simpl. by rewrite lookup_empty.
    - intros pre x a a' _ Ha Hs. by eapply load_node_index. }
  specialize (Hsmall je Hje).
  cut (g = graph_of (length ns) (graph_pairs es) ∧
    Forall (in_range (length ns)) (graph_pairs es) ∧ length es = length (elements je)).
  { intros (? & ? & Hlen). split_and!; [done..|]. unfold graph_pairs, len in *.
    rewrite length_fmap, Hlen. done. }
  apply (foldM_invariant (λ pre st, st.1 = graph_of (length ns) (graph_pairs st.2) ∧
    Forall (in_range (length ns)) (graph_pairs st.2) ∧ length st.2 = length pre)
    (load_edge index) (elements je) (empty_graph (length ns), []) (g, es)); [|..|done].
  - split_and!; [done|constructor|done].
  - intros pre x [g0 es0] st' _ (Hg & Hr & Hlen) Hs. simpl in *.
    destruct (load_edge_graph _ _ _ _ _ _ Hidx Hg Hr Hs) as (? & ? & ->).
    split_and!; [done..|]. rewrite length_app. simpl. lia.
Qed.

(** ** Topological sorts *)

Lemma sort_nodes_spec n es :
  Forall (in_range n) es → (len es < 2 ^ 64)%Z →
  (acyclic es ∧ ∃ order, sort_nodes n (graph_of n es) = Ok order ∧ order ≡ₚ seq 0 n ∧
     respects es order) ∨
  (¬ acyclic es ∧ sort_nodes n (graph_of n es) = Fail CPIPE_FAILED "cycle in pipeline graph").
Proof.
  intros Hr Hlen. destruct (kahn_spec n es Hr Hlen) as (order & Hk & _).
  destruct (kahn_complete n es order Hr Hlen Hk) as (Hiff & Hp & _ & Hresp).
  unfold sort_nodes. rewrite Hk. simpl. case_decide as Hd.
  - right. tauto.
  - left. split; [tauto|]. exists order. auto.
Qed.

Lemma order_plan_graph plan :
  Forall (in_range (length (pp_nodes plan))) (edge_pair <$> pp_edges plan) →
  foldM (λ g edge,
    if (length (pp_nodes plan) <=? pg_from edge) || (length (pp_nodes plan) <=? pg_to edge)
    then Fail CPIPE_BAD_INDEX "precision edge index out of range"
    else Ok (add_edge g (pg_from edge, pg_to edge))) (empty_graph (length (pp_nodes plan)))
    (pp_edges plan)
  = Ok (graph_of (length (pp_nodes plan)) (edge_pair <$> pp_edges plan)).
Proof.
  unfold graph_of. generalize (empty_graph (length (pp_nodes plan))).
  induction (pp_edges plan) as [|e es IH]; intros g; [done|].
  simpl. intros [[Hf Ht] Hes]%Forall_cons. simpl in *.
  rewrite (proj2 (Nat.leb_gt _ _)), (proj2 (Nat.leb_gt _ _)) by done. simpl. by apply IH.
Qed.

Lemma omap_lookup_perm {A} (l : list A) (order : list nat) :
  (∀ i, i ∈ order → i < length l) →
  Some <$> omap (λ i, l !! i) order = (λ i, l !! i) <$> order.
Proof.
  induction order as [|i order IH]; intros Hi; [done|]. simpl.
  destruct (lookup_lt_is_Some_2 l i) as [x Hx]; [apply Hi; left|]. rewrite Hx. simpl.
  f_equal. apply IH. intros. apply Hi. by right.
Qed.

(** The planned graph always has a topological order: neither error branch is taken. *)
Lemma order_plan_spec nodes edges pc plan :
  auto_insert nodes edges pc false = Ok plan → acyclic (edge_pair <$> edges) →
  (2 * len edges < 2 ^ 64)%Z →
  ∃ order, order ≡ₚ seq 0 (length (pp_nodes plan)) ∧
    respects (edge_pair <$> pp_edges plan) order ∧
    ∃ planned, order_plan plan = Ok planned ∧
      Some <$> planned = (λ i, planned_node <$> pp_nodes plan !! i) <$> order.
Proof.
  intros Ho Hac Hlen. pose proof (auto_insert_edges_in_range _ _ _ _ Ho) as Hr.
  assert (len (edge_pair <$> pp_edges plan) < 2 ^ 64)%Z as Hl.
  { destruct (auto_insert_expand _ _ _ _ Ho) as (-> & _). unfold len in *.
    rewrite length_fmap, expand_length. pose proof (conversions_length_le nodes edges). lia. }
  apply (auto_insert_acyclic _ _ _ _ Ho) in Hac.
  destruct (kahn_spec _ _ Hr Hl) as (order & Hk & _).
  destruct (kahn_complete _ _ _ Hr Hl Hk) as (Hiff & Hp & _ & Hresp).
  specialize (Hp (proj2 Hiff Hac)). exists order. split_and!; [done..|].
  unfold order_plan. rewrite order_plan_graph, Ok_bind, Hk by done. simpl.
  assert (Some <$> omap (λ i, pp_nodes plan !! i) order = (λ i, pp_nodes plan !! i) <$> order) as Hom.
  { apply omap_lookup_perm. intros i Hi. rewrite Hp, elem_of_seq in Hi. lia. }
  assert (length (planned_node <$> omap (λ i, pp_nodes plan !! i) order) = length (pp_nodes plan)) as Hlen'.
  { rewrite length_fmap. rewrite <-(length_fmap Some (omap _ _)), Hom, length_fmap, Hp. apply length_seq. }
  rewrite decide_False by (intros Hne; by apply Hne). eexists. split; [done|].
  rewrite <-list_fmap_compose. transitivity (fmap (M := option) planned_node <$> (Some <$> omap (λ i, pp_nodes plan !! i) order)).
  - by rewrite <-list_fmap_compose.
  - rewrite Hom. by rewrite <-list_fmap_compose.
Qed.

(** ** Cumulative metadata steps *)

Lemma elem_of_append_unique out steps s :
  s ∈ append_unique_steps out steps ↔ s ∈ out ∨ s ∈ steps.
Proof.
  revert out. induction steps as [|x steps IH]; intros out; simpl; [set_solver|].
  rewrite IH. unfold contains_step. case_bool_decide; set_solver.
Qed.

Definition steps_at (cum : list (list string)) (v : nat) : list string := default [] (cum !! v).

Lemma steps_at_alter cum i f v :
  i < length cum →
  steps_at (alter f i cum) v = if decide (v = i) then f (steps_at cum i) else steps_at cum v.
Proof.
  intros Hi. unfold steps_at. rewrite list_lookup_alter.
  destruct (lookup_lt_is_Some_2 _ _ Hi) as [x Hx].
  case_decide; subst; [rewrite decide_True, Hx by done; done|by rewrite decide_False by congruence].
Qed.

Lemma inherit_steps_spec index edges : ∀ cum,
  index < length cum → (∀ e, e ∈ edges → ge_to e = index → ge_from e ≠ index) →
  let cum' := foldl (λ cum edge,
    if decide (ge_to edge = index)
    then alter (λ out, append_unique_steps out (default [] (cum !! ge_from edge))) index cum
    else cum) cum edges in
  length cum' = length cum ∧ (∀ v, v ≠ index → steps_at cum' v = steps_at cum v) ∧
  ∀ s, s ∈ steps_at cum' index ↔ s ∈ steps_at cum index ∨
    ∃ e, e ∈ edges ∧ ge_to e = index ∧ s ∈ steps_at cum (ge_from e).
Proof.
  induction edges as [|e edges IH] using rev_ind; intros cum Hi Hne.
  { simpl. split_and!; [done..|]. set_solver. }
  destruct (IH cum Hi) as (Hl & Hv & Hs); [set_solver|]. cbv zeta. rewrite foldl_app. simpl.
  set (cum' := foldl _ cum edges) in *. case_decide as Ht.
  - rewrite length_alter. split_and!; [done| |].
    + intros v ?. rewrite steps_at_alter, decide_False by (done || lia). by apply Hv.
    + intros s. rewrite steps_at_alter, decide_True by (done || lia).
      rewrite elem_of_append_unique, Hs. fold (steps_at cum' (ge_from e)).
      rewrite Hv by (apply Hne; [set_solver|done]).
      setoid_rewrite elem_of_app. setoid_rewrite list_elem_of_singleton. naive_solver.
  - split_and!; [done..|]. intros s. rewrite Hs. setoid_rewrite elem_of_app.
    setoid_rewrite list_elem_of_singleton. naive_solver.
Qed.

Lemma accumulate_steps_spec nodes edges cum cum' index :
  accumulate_steps nodes edges cum index = Ok cum' →
  index < length cum → (∀ e, e ∈ edges → ge_to e = index → ge_from e ≠ index) →
  length cum' = length cum ∧ (∀ v, v ≠ index → steps_at cum' v = steps_at cum v) ∧
  ∀ s, s ∈ steps_at cum' index ↔ s ∈ steps_at cum index ∨
    (∃ e, e ∈ edges ∧ ge_to e = index ∧ s ∈ steps_at cum (ge_from e)) ∨
    produces nodes edges index s.
Proof.
  intros Ha Hi Hne. unfold accumulate_steps in Ha.
  destruct (inherit_steps_spec index edges cum Hi Hne) as (Hl & Hv & Hs).
  set (inh := foldl _ cum edges) in *.
  cut (length cum' = length inh ∧ (∀ v, v ≠ index → steps_at cum' v = steps_at inh v) ∧
    ∀ s, s ∈ steps_at cum' index ↔ s ∈ steps_at inh index ∨ produces nodes edges index s).
  { intros (Hl' & Hv' & Hs'). split_and!; [by rewrite Hl'| |].
    - intros v ?. rewrite Hv', Hv by done. done.
    - intros s. rewrite Hs', Hs. tauto. }
  revert Ha. apply (foldM_invariant (λ pre c,
    length c = length inh ∧ (∀ v, v ≠ index → steps_at c v = steps_at inh v) ∧
    ∀ s, s ∈ steps_at c index ↔ s ∈ steps_at inh index ∨ produces nodes pre index s)).
  { split_and!; [done..|]. intros s. split; [by left|]. intros [?|(? & ? & ? & _)]; set_solver. }
  intros pre e c c' _ (Hcl & Hcv & Hcs) Hstep.
  assert (∀ s, produces nodes (pre ++ [e]) index s ↔ produces nodes pre index s ∨
    (ge_from e = index ∧ ∃ steps, manifest_metadata_steps (node_descriptor nodes index) "out"
      (ge_from_port e) "sets_steps_applied" = Ok steps ∧ s ∈ steps)) as Hp.
  { intros s. unfold produces. setoid_rewrite elem_of_app. setoid_rewrite list_elem_of_singleton.
    split.
    - intros (x & steps & [Hx| ->] & Hfx & Hm & Hin); [by left; exists x, steps|].
      right. split; [done|]. by exists steps.
    - intros [(x & steps & Hx & ? & ? & ?)|(? & steps & ? & ?)].
      + exists x, steps. by split_and!; [left|..].
      + exists e, steps. by split_and!; [right|..]. }
  case_decide as Hf.
  - apply bind_Ok_inv in Hstep as (steps & Hm & Hstep). injection Hstep as <-.
    rewrite length_alter. split_and!; [done| |].
    + intros v ?. rewrite steps_at_alter, decide_False by (done || lia). by apply Hcv.
    + intros s. rewrite steps_at_alter, decide_True by (done || lia).
      rewrite elem_of_append_unique, Hcs, Hp. split.
      * intros [[?|?]|?]; [by left|by right; left|]. right. right. split; [done|]. by exists steps.
      * intros [?|[?|(_ & steps' & Hm' & ?)]]; [by left; left|by left; right|].
        rewrite Hm in Hm'. injection Hm' as <-. by right.
  - injection Hstep as <-. split_and!; [done..|]. intros s. rewrite Hcs, Hp. tauto.
Qed.

(** After the loop a node's list holds exactly the steps produced upstream. *)
Lemma compute_steps_spec nodes edges order cum :
  compute_steps nodes edges order = Ok cum →
  NoDup order → (∀ v, v ∈ order ↔ v < length nodes) → respects (graph_pairs edges) order →
  ∀ v s, v < length nodes → s ∈ steps_at cum v ↔ upstream nodes edges v s.
Proof.
  intros Hc Hnd Hin Hresp v s Hv.
  cut (length cum = length nodes ∧ ∀ v, (v ∈ order → ∀ s, s ∈ steps_at cum v ↔ upstream nodes edges v s)
    ∧ (v ∉ order → steps_at cum v = [])).
  { intros [_ H']. apply H'. by apply Hin. }
  revert Hc. apply (foldM_invariant (λ pre c, length c = length nodes ∧ ∀ v,
    (v ∈ pre → ∀ s, s ∈ steps_at c v ↔ upstream nodes edges v s) ∧ (v ∉ pre → steps_at c v = []))).
  { split; [apply length_replicate|]. intros w. split; [set_solver|]. intros _. unfold steps_at.
    destruct (replicate _ _ !! w) eqn:E; [|done]. by apply lookup_replicate in E as [-> _]. }
  intros pre i c c' [suf Hsuf] [Hl Hw] Hs. rewrite <-app_assoc in Hsuf. simpl in Hsuf.
  assert (i < length c) as Hi.
  { rewrite Hl. apply Hin. rewrite Hsuf. set_solver. }
  assert (i ∉ pre) as Hfresh.
  { rewrite Hsuf in Hnd. apply NoDup_app in Hnd. set_solver. }
  assert (∀ u, (u, i) ∈ graph_pairs edges → u ∈ pre) as Hpre.
  { intros u. by apply (Hresp pre i suf Hsuf). }
  assert (∀ e, e ∈ edges → ge_to e = i → ge_from e ∈ pre) as Hpre'.
  { intros e He <-. apply Hpre. unfold graph_pairs. apply list_elem_of_fmap. by exists e. }
  destruct (accumulate_steps_spec _ _ _ _ _ Hs Hi) as (Hl' & Hv' & Hs').
  { intros e He Ht ?. specialize (Hpre' e He Ht). congruence. }
  split; [congruence|]. intros w. split.
  - intros [Hx|Hx%list_elem_of_singleton]%elem_of_app s'.
    + rewrite Hv' by congruence. by apply Hw.
    + subst w. rewrite Hs'. rewrite (proj2 (Hw i) Hfresh). unfold upstream. split.
      * intros [?|[(e & He & Ht & Hse)|Hp]]; [set_solver| |].
        -- apply Hw in Hse as (u & Hu & Hp); [|by apply Hpre']. exists u. split; [|done].
           eapply rtc_r; [done|]. unfold edge_rel, graph_pairs. apply list_elem_of_fmap. exists e.
           by rewrite Ht.
        -- exists i. split; [constructor|done].
      * intros (u & Hu & Hp). right. apply rtc_inv_r in Hu as [->|(x & Hx & Hxi)]; [by right|].
        left. unfold edge_rel, graph_pairs in Hxi. apply list_elem_of_fmap in Hxi as (e & He & Hin').
        injection He as -> ->. exists e. split_and!; [done..|].
        apply Hw; [by apply Hpre'|]. by exists u.
  - intros Hw'. rewrite elem_of_app, list_elem_of_singleton in Hw'.
    rewrite Hv' by naive_solver. apply Hw. naive_solver.
Qed.

(** ** Edge checks *)

Lemma foldM_unit {B} (f : B → res unit) l :
  foldM (λ _ x, f x) tt l = Ok tt ↔ ∀ x, x ∈ l → f x = Ok tt.
Proof.
  induction l as [|x l IH]; simpl; [set_solver|]. setoid_rewrite elem_of_cons.
  destruct (f x) as [[]| | |] eqn:E; simpl.
  - rewrite IH. naive_solver.
  - split; [done|]. intros Hx. rewrite Hx in E by (by left). done.
  - split; [done|]. intros Hx. rewrite Hx in E by (by left). done.
  - split; [done|]. intros Hx. rewrite Hx in E by (by left). done.
Qed.

Lemma color_roles_compatible_spec p r :
  color_roles_compatible p r = true ↔
  p = "" ∨ r = "" ∨ p = "any" ∨ r = "any" ∨ p = r.
Proof. unfold color_roles_compatible. rewrite !orb_true_iff, !String.eqb_eq. tauto. Qed.

Lemma check_edge_spec nodes edges cum e :
  (∀ s, s ∈ steps_at cum (ge_from e) ↔ upstream nodes edges (ge_from e) s) →
  check_edge nodes cum e = Ok tt ↔ edge_ok nodes edges e.
Proof.
  intros Hcum. unfold check_edge. split.
  - intros Hc. apply bind_Ok_inv in Hc as (req & Hreq & Hc).
    apply bind_Ok_inv in Hc as ([] & Hf & Hc). apply bind_Ok_inv in Hc as (p & Hp & Hc).
    apply bind_Ok_inv in Hc as (r & Hr & Hc). exists req, p, r. split_and!; [done| |done|done|].
    + intros s Hs. rewrite foldM_unit in Hf. specialize (Hf s Hs). apply Hcum.
      unfold contains_step in Hf. case_bool_decide; [done|discriminate].
    + apply color_roles_compatible_spec. by destruct (color_roles_compatible p r).
  - intros (req & p & r & -> & Hs & -> & -> & Hpr). simpl.
    rewrite (proj2 (foldM_unit _ req)).
    + simpl. by rewrite (proj2 (color_roles_compatible_spec p r) Hpr).
    + intros s Hin. unfold contains_step. rewrite bool_decide_true; [done|].
      apply Hcum. by apply Hs.
Qed.

(** ** The stages of a successful load *)

Lemma load_stages what schema_validate text document registry out p :
  json_parse text = Some document → load what schema_validate (Some text) registry (Some out) = Ok p →
  ∃ nodes graph edges sorted cum plan planned inputs memory,
    load_graph document registry = Ok (nodes, graph, edges) ∧
    sort_nodes (length nodes) graph = Ok sorted ∧
    compute_steps nodes edges sorted = Ok cum ∧
    check_edges nodes cum edges = Ok tt ∧
    auto_insert (precision_node <$> nodes) (precision_edge <$> edges)
      (find registry "com.cpipe.precision_convert") false = Ok plan ∧
    order_plan plan = Ok planned ∧ load_inputs document = Ok inputs ∧
    MemoryPlanner.plan_graph
      (match inputs with [] => default_layout | input :: _ => in_layout input end)
      (pn_descriptor <$> pp_nodes plan)
      ((λ edge, MemoryPlanner.mkEdge (pg_from edge) (pg_to edge)) <$> pp_edges plan) = Ok memory ∧
    (MemoryPlanner.peak_bytes memory ≤ device_memory_cap_bytes_ out)%Z ∧
    p = mkPipeline inputs
      (match inputs with [] => default_layout | input :: _ => in_layout input end) planned ∅
      (Some registry) (device_memory_cap_bytes_ out) (MemoryPlanner.peak_bytes memory).
Proof.
  intros Hparse Hl. unfold load, parse_json in Hl. rewrite Hparse in Hl. simpl in Hl.
  apply bind_Ok_inv in Hl as (u & _ & Hl). apply bind_Ok_inv in Hl as ([[nodes graph] edges] & Hg & Hl).
  apply bind_Ok_inv in Hl as (sorted & Hs & Hl). apply bind_Ok_inv in Hl as (cum & Hc & Hl).
  apply bind_Ok_inv in Hl as ([] & Hch & Hl). apply bind_Ok_inv in Hl as (plan & Hp & Hl).
  apply bind_Ok_inv in Hl as (planned & Ho & Hl). apply bind_Ok_inv in Hl as (inputs & Hi & Hl).
  apply bind_Ok_inv in Hl as (memory & Hm & Hl).
  destruct (_ <? _)%Z eqn:Hcap; [done|]. apply Z.ltb_ge in Hcap. injection Hl as <-.
  by exists nodes, graph, edges, sorted, cum, plan, planned, inputs, memory.
Qed.

Lemma edge_pair_precision edges : edge_pair <$> (precision_edge <$> edges) = graph_pairs edges.
Proof. unfold graph_pairs. by rewrite <-list_fmap_compose. Qed.

(** ** Theorems *)

(** C1: a loaded pipeline is executable in its stored order: the document's graph
    is acyclic, and the stored node list is the precision-planned graph in a
    topological order - every planned node exactly once, producers before
    consumers. *)
Theorem load_topological (what : exn → string) (schema_validate : json → res unit) (text : string) (document : json) (registry : Registry)
    (out p : Pipeline) :
  json_parse text = Some document → small_document document →
  load what schema_validate (Some text) registry (Some out) = Ok p →
  ∃ nodes graph edges plan order,
    load_graph document registry = Ok (nodes, graph, edges) ∧ acyclic (graph_pairs edges) ∧
    auto_insert (precision_node <$> nodes) (precision_edge <$> edges)
      (find registry "com.cpipe.precision_convert") false = Ok plan ∧
    order ≡ₚ seq 0 (length (pp_nodes plan)) ∧ respects (edge_pair <$> pp_edges plan) order ∧
    Some <$> nodes_ p = (λ i, planned_node <$> pp_nodes plan !! i) <$> order.
Proof.
  intros Hparse Hsmall Hl. destruct (load_stages _ _ _ _ _ _ _ Hparse Hl)
    as (nodes & graph & edges & sorted & cum & plan & planned & inputs & memory & Hg & Hs & _ & _ &
        Hp & Ho & _ & _ & _ & ->).
  destruct (load_graph_spec _ _ _ _ _ Hg Hsmall) as (-> & Hr & Hlen).
  destruct (sort_nodes_spec _ _ Hr) as [[Hac _]|[_ Hf]]; [lia| |congruence].
  destruct (order_plan_spec _ _ _ _ Hp) as (order & Hperm & Hresp & ns & Ho' & Hns).
  { by rewrite edge_pair_precision. }
  { revert Hlen. unfold graph_pairs, len. rewrite !length_fmap. done. }
  rewrite Ho in Ho'. injection Ho' as <-.
  by exists nodes, (graph_of (length nodes) (graph_pairs edges)), edges, plan, order.
Qed.

(** C2: a loaded pipeline satisfies its metadata contracts: on every edge, each step
    the consumer's port requires is declared by the producer or by a node upstream
    of it, and the colour roles of the two nodes agree. *)
Theorem load_edges_satisfied (what : exn → string) (schema_validate : json → res unit) (text : string) (document : json) (registry : Registry)
    (out p : Pipeline) nodes graph edges :
  json_parse text = Some document → small_document document →
  load_graph document registry = Ok (nodes, graph, edges) →
  load what schema_validate (Some text) registry (Some out) = Ok p → ∀ e, e ∈ edges → edge_ok nodes edges e.
Proof.
  intros Hparse Hsmall Hg0 Hl e He. destruct (load_stages _ _ _ _ _ _ _ Hparse Hl)
    as (n' & g' & e' & sorted & cum & plan & planned & inputs & memory & Hg & Hs & Hc & Hch & _).
  rewrite Hg0 in Hg. injection Hg as <- <- <-.
  destruct (load_graph_spec _ _ _ _ _ Hg0 Hsmall) as (-> & Hr & Hlen).
  destruct (sort_nodes_spec _ _ Hr) as [[_ (order & Ho & Hperm & Hresp)]|[_ Hf]]; [lia| |congruence].
  rewrite Hs in Ho. injection Ho as <-.
  unfold check_edges in Hch. rewrite foldM_unit in Hch. specialize (Hch e He).
  apply (check_edge_spec nodes edges cum e); [|done]. intros s.
  apply (compute_steps_spec nodes edges sorted); [done|rewrite Hperm; apply NoDup_seq| |done|].
  - intros v. rewrite Hperm, elem_of_seq. lia.
  - rewrite Forall_forall in Hr. apply (Hr (ge_from e, ge_to e)).
    unfold graph_pairs. apply list_elem_of_fmap. by exists e.
Qed.

(** the edge checks accept exactly the graphs whose edges satisfy their
    contracts: once the steps have been accumulated along a topological order, the
    check passes if and only if every required step is produced upstream and every
    pair of colour roles agrees. *)
Theorem check_edges_exact (document : json) (registry : Registry) nodes graph edges sorted cum :
  small_document document → load_graph document registry = Ok (nodes, graph, edges) →
  sort_nodes (length nodes) graph = Ok sorted → compute_steps nodes edges sorted = Ok cum →
  check_edges nodes cum edges = Ok tt ↔ ∀ e, e ∈ edges → edge_ok nodes edges e.
Proof.
  intros Hsmall Hg Hs Hc. destruct (load_graph_spec _ _ _ _ _ Hg Hsmall) as (-> & Hr & Hlen).
  destruct (sort_nodes_spec _ _ Hr) as [[_ (order & Ho & Hperm & Hresp)]|[_ Hf]]; [lia| |congruence].
  rewrite Hs in Ho. injection Ho as <-. unfold check_edges. rewrite foldM_unit.
  apply forall_proper. intros e. rewrite Forall_forall in Hr.
  assert (e ∈ edges → check_edge nodes cum e = Ok tt ↔ edge_ok nodes edges e) as Hspec; [|tauto].
  intros He. apply check_edge_spec. intros s.
  apply (compute_steps_spec nodes edges sorted); [done|rewrite Hperm; apply NoDup_seq| |done|].
  - intros v. rewrite Hperm, elem_of_seq. lia.
  - apply (Hr (ge_from e, ge_to e)). unfold graph_pairs. apply list_elem_of_fmap. by exists e.
Qed.

(** a document's graph is rejected as cyclic exactly when it has a cycle;
    otherwise the sort yields every node once, producers first. *)
Theorem sort_nodes_cycles (document : json) (registry : Registry) nodes graph edges :
  small_document document → load_graph document registry = Ok (nodes, graph, edges) →
  (sort_nodes (length nodes) graph = Fail CPIPE_FAILED "cycle in pipeline graph" ↔
     ¬ acyclic (graph_pairs edges)) ∧
  (acyclic (graph_pairs edges) → ∃ order, sort_nodes (length nodes) graph = Ok order ∧
     order ≡ₚ seq 0 (length nodes) ∧ respects (graph_pairs edges) order).
Proof.
  intros Hsmall Hg. destruct (load_graph_spec _ _ _ _ _ Hg Hsmall) as (-> & Hr & Hlen).
  destruct (sort_nodes_spec _ _ Hr) as [[Hac (order & Ho & Hperm & Hresp)]|[Hac Hf]]; [lia|..].
  - split; [|by exists order]. rewrite Ho. split; [done|tauto].
  - rewrite Hf. split; [tauto|done].
Qed.

(** the second sort of [load] never fails: for an acyclic graph that precision
    planning accepted, neither the out-of-range branch nor the "cycle in
    precision-planned pipeline graph" branch is reachable. *)
Theorem order_plan_total (nodes : list PrecisionGraphNode) (edges : list PrecisionGraphEdge)
    (pc : option cpipe_plugin_desc_t) (plan : PrecisionPlan) :
  auto_insert nodes edges pc false = Ok plan → acyclic (edge_pair <$> edges) →
  (2 * len edges < 2 ^ 64)%Z →
  ∃ planned, order_plan plan = Ok planned ∧ length planned = length (pp_nodes plan).
Proof.
  intros Ho Hac Hlen. destruct (order_plan_spec _ _ _ _ Ho Hac Hlen)
    as (order & Hperm & _ & planned & Hp & Hns). exists planned. split; [done|].
  apply (f_equal length) in Hns. rewrite !length_fmap, Hperm, length_seq in Hns. done.
Qed.

(** a loaded pipeline fits the device: its memory peak, computed for the planned
    graph and the first input's layout, is at most the configured cap, which loading
    keeps; no source is bound yet. *)
Theorem load_respects_cap (what : exn → string) (schema_validate : json → res unit) (text : string) (document : json) (registry : Registry)
    (out p : Pipeline) :
  json_parse text = Some document → load what schema_validate (Some text) registry (Some out) = Ok p →
  (memory_peak_bytes_ p ≤ device_memory_cap_bytes_ out)%Z ∧
  device_memory_cap_bytes_ p = device_memory_cap_bytes_ out ∧
  sources_ p = ∅ ∧ registry_ p = Some registry ∧
  layout_ p = match inputs_ p with [] => default_layout | input :: _ => in_layout input end ∧
  load_inputs document = Ok (inputs_ p).
Proof.
  intros Hparse Hl. destruct (load_stages _ _ _ _ _ _ _ Hparse Hl)
    as (? & ? & ? & ? & ? & ? & ? & inputs & memory & _ & _ & _ & _ & _ & _ & Hi & _ & Hcap & ->).
  done.
Qed.

Lemma validate_typed_param_fits name value declaration :
  validate_typed_param name value declaration = Ok tt → param_fits value declaration.
Proof.
  unfold validate_typed_param, param_fits. intros Hv. apply bind_Ok_inv in Hv as (type & Ht & Hv).
  exists type. split; [done|]. destruct (String.eqb type "enum") eqn:He.
  { unfold validate_enum_param in Hv. destruct (is_string value); [|done]. simpl in Hv.
    apply bind_Ok_inv in Hv as (allowed & Ha & Hv). apply bind_Ok_inv in Hv as (sel & Hs & Hv).
    case_decide; [|done]. by exists allowed, sel. }
  destruct (String.eqb type "number") eqn:Hn.
  { unfold validate_number_param in Hv. destruct (is_number value); [|done]. simpl in Hv.
    split; [done|]. intros range Hr. rewrite Hr in Hv.
    apply bind_Ok_inv in Hv as (sel & Hs & Hv). exists sel. split; [done|].
    apply bind_Ok_inv in Hv as (below & Hb & Hv). destruct below; [done|].
    apply bind_Ok_inv in Hv as (above & Ha & Hv). destruct above; [done|]. split; intros Hc.
    - rewrite Hc in Hb. apply bind_Ok_inv in Hb as (bound & Hb & Hlt).
      apply bind_Ok_inv in Hb as (j & Hj & Hb). exists j, bound. by injection Hlt as ->.
    - rewrite Hc in Ha. apply bind_Ok_inv in Ha as (bound & Ha & Hlt).
      apply bind_Ok_inv in Ha as (j & Hj & Ha). exists j, bound. by injection Hlt as ->. }
  destruct (String.eqb_spec type "boolean") as [->|]; simpl in Hv.
  { destruct (is_boolean value); [|done]. by left. }
  destruct (String.eqb_spec type "string") as [->|]; simpl in Hv.
  { destruct (is_string value); [|done]. right. by left. }
  destruct (String.eqb_spec type "array") as [->|]; simpl in Hv; [|done].
  destruct (is_array value); [|done]. right. by right.
Qed.

Lemma findM_Some {A} (f : A → res bool) l x :
  findM f l = Ok (Some x) → x ∈ l ∧ f x = Ok true.
Proof.
  induction l as [|y l IH]; simpl; [done|]. intros Hf. apply bind_Ok_inv in Hf as (b & Hb & Hf).
  destruct b; [injection Hf as <-; split; [left|done]|].
  destruct (IH Hf). split; [by right|done].
Qed.

(** after a successful parameter validation every member of the parameter object
    has a declaration of its name in the manifest and fits it: an enum value is in
    the declared list, a number is within the declared range, other values have the
    declared type. *)
Theorem validate_node_params_sound (d : cpipe_plugin_desc_t) (text : string) (params : json) :
  manifest_json d = Some text → validate_node_params (Some d) params = Ok tt →
  ∃ manifest declarations, json_parse text = Some manifest ∧
    value_or get_json manifest "params" (json_array []) = Ok declarations ∧
    ∀ name value, (name, value) ∈ items params →
      ∃ declaration, declaration ∈ elements declarations ∧
        value_or get_string declaration "name" "" = Ok name ∧ param_fits value declaration.
Proof.
  intros Hd Hv. unfold validate_node_params in Hv. simpl in Hv. rewrite Hd in Hv.
  apply bind_Ok_inv in Hv as (manifest & Hm & Hv). apply bind_Ok_inv in Hv as (decls & Hde & Hv).
  exists manifest, decls. split_and!; [|done|].
  { unfold parse_json in Hm. destruct (json_parse text); by simplify_eq/=. }
  intros name value Hin.
  rewrite (foldM_unit (λ item : string * json, let '(name, value) := item in
    found ← findM (has_name name) (elements decls);
    match found with
    | None => Fail CPIPE_BAD_INDEX ("unknown node param: " +:+ name)
    | Some declaration => validate_typed_param name value declaration
    end)) in Hv. specialize (Hv _ Hin). simpl in Hv.
  apply bind_Ok_inv in Hv as ([decl|] & Hf & Hv); [|done].
  apply findM_Some in Hf as [Hel Hn]. exists decl. split; [done|].
  unfold has_name in Hn. apply bind_Ok_inv in Hn as (n & Hn & Heq). injection Heq as Heq.
  apply String.eqb_eq in Heq as ->. split; [done|]. by eapply validate_typed_param_fits.
Qed.

(** binding a source succeeds exactly for a declared input port and a registered
    plugin. *)
Theorem set_source_exact (p : Pipeline) (port plugin : string) (params : json) :
  (∃ p', set_source p port plugin params = Ok p') ↔
    (∃ input, input ∈ inputs_ p ∧ in_name input = port) ∧
    (∃ r d, registry_ p = Some r ∧ find r plugin = Some d).
Proof.
  unfold set_source. rewrite <-Exists_exists. case_decide as He.
  - destruct (registry_ p) as [r|]; simpl; [|naive_solver].
    destruct (find r plugin) as [d|] eqn:Hd; [|naive_solver].
    split; [|eauto]. intros _. split; [done|]. by exists r, d.
  - naive_solver.
Qed.

End pipeline.

(** ** Endpoints *)

Lemma prefix_dot c s t : String.prefix "." (String c s) = String.prefix "." (String c t).
Proof. unfold String.prefix. destruct (Ascii.ascii_dec _ c); [|done]. by destruct s, t. Qed.

Lemma index_dot_cons c s :
  String.index 0 "." (String c s) =
    if String.prefix "." (String c s) then Some 0
    else match String.index 0 "." s with Some n => Some (S n) | None => None end.
Proof. done. Qed.

Lemma index_dot_app id port :
  String.index 0 "." id = None →
  String.index 0 "." (id +:+ "." +:+ port) = Some (String.length id).
Proof.
  induction id as [|c id IH]; [by destruct port|]. intros Hn.
  change (String c id +:+ "." +:+ port) with (String c (id +:+ "." +:+ port)).
  rewrite index_dot_cons in *. rewrite (prefix_dot c _ id).
  destruct (String.prefix "." (String c id)); [done|].
  destruct (String.index 0 "." id); [done|]. by rewrite IH.
Qed.

Lemma substring_app_l a b : String.substring 0 (String.length a) (a +:+ b) = a.
Proof.
  induction a as [|c a IH]; simpl; [by destruct b|]. by rewrite IH.
Qed.

Lemma substring_all s : String.substring 0 (String.length s) s = s.
Proof. induction s as [|c s IH]; simpl; [done|]. by rewrite IH. Qed.

Lemma substring_app_r a b :
  String.substring (String.length a) (String.length b) (a +:+ b) = b.
Proof.
  induction a as [|c a IH]; simpl; [apply substring_all|]. done.
Qed.

Lemma string_length_app a b : String.length (a +:+ b) = String.length a + String.length b.
Proof. induction a as [|c a IH]; simpl; [done|]. by rewrite IH. Qed.

(** splitting an edge endpoint inverts joining a dot-free node id and a port
    with a dot; the port may itself contain dots. *)
Theorem split_endpoint_join (id port : string) :
  String.index 0 "." id = None →
  split_endpoint (id +:+ "." +:+ port) = mkEndpoint id port.
Proof.
  intros Hid. unfold split_endpoint. rewrite index_dot_app by done. f_equal.
  - apply substring_app_l.
  - assert (id +:+ "." +:+ port = (id +:+ ".") +:+ port) as ->.
    { clear. induction id as [|c id IH]; [done|].
      change (String c (id +:+ "." +:+ port) = String c ((id +:+ ".") +:+ port)). by rewrite IH. }
    replace (String.length id + 1) with (String.length (id +:+ "."))
      by (rewrite string_length_app; simpl; lia).
    rewrite (string_length_app (id +:+ ".") port), Nat.add_comm, Nat.add_sub.
    apply substring_app_r.
Qed.

(** ** Witnesses *)

Module Example.

Definition obj := Tree.mk_object.
Definition str := Tree.JString.
Definition arr := Tree.JArray.

Definition port (kind name channel precision : string) (metadata : list (string * Tree.tree))
    : Tree.tree :=
  obj [("kind", str kind); ("name", str name);
    ("caps", obj [("channels", arr [str channel]); ("precision", arr [str precision])]);
    ("metadata", obj metadata)].

Definition node (id type : string) : Tree.tree :=
  obj [("id", str id); ("type", str type); ("params", obj [])].

(** A half-float producer of step "lin" and an 8-bit consumer that requires it. *)
Definition docs (text : string) : option Tree.tree :=
  if String.eqb text "half" then Some (obj
    [("ports", arr [port "out" "out" "rgba" "f16" [("sets_steps_applied", arr [str "lin"])]]);
     ("color", obj [("output_role", str "scene")])])
  else if String.eqb text "byte" then Some (obj
    [("ports", arr [port "in" "in" "rgba" "u8" [("requires_steps_applied", arr [str "lin"])]]);
     ("params", arr [obj [("name", str "gain"); ("type", str "string")]]);
     ("color", obj [("input_role", str "scene")])])
  else if String.eqb text "conv" then Some (obj [])
  else if String.eqb text "doc" then Some (obj
    [("version", str "0.4"); ("nodes", arr [node "a" "half"; node "b" "byte"]);
     ("edges", arr [obj [("from", str "a.out"); ("to", str "b.in")]]);
     ("inputs", arr [obj [("port", str "in"); ("format", str "R16_UINT");
       ("width", Tree.JUint 4); ("height", Tree.JUint 2)]])])
  else None.

#[local] Instance lib : JsonLib := Tree.lib docs.

Definition desc (id text : string) : cpipe_plugin_desc_t :=
  mkDesc 0 4 (Some id) None (Some text) (Some 0).
Definition registry : Registry :=
  [desc "half" "half"; desc "byte" "byte"; desc "com.cpipe.precision_convert" "conv"].

Definition what (e : exn) : string := "".
Definition valid (j : json) : res unit := Ok tt.

Definition document : json := default json_null (docs "doc").
Definition nodes : list NodeInstance :=
  [mkNode "a" (Some (desc "half" "half")) (obj []); mkNode "b" (Some (desc "byte" "byte")) (obj [])].
Definition edges : list GraphEdge := [mkGEdge 0 1 "out" "in"].
Definition input : InputPort :=
  mkInput "in" (mkLayout Image2D R16_UINT 2 [4; 2; 0; 0; 0; 0; 0; 0]%Z zeros8).
Definition loaded : Pipeline :=
  mkPipeline [input] (in_layout input)
    [mkNode "a" (Some (desc "half" "half")) (obj []);
     planned_node (conversion_node (desc "com.cpipe.precision_convert" "conv")
       (mkPEdge 0 1 "out" "in") 0 "R8G8B8A8_UNORM");
     mkNode "b" (Some (desc "byte" "byte")) (obj [])]
    ∅ (Some registry) size_max 16.

Lemma loads : load what valid (Some "doc") registry (Some empty_pipeline) = Ok loaded.
Proof. reflexivity. Qed.

Lemma small : small_document document.
Proof. intros j [= <-]. done. Qed.

Lemma graph_loads :
  load_graph document registry = Ok (nodes, graph_of 2 [(0, 1)], edges).
Proof. reflexivity. Qed.

Lemma load_topological_witness :
  ∃ nodes graph edges plan order,
    load_graph document registry = Ok (nodes, graph, edges) ∧ acyclic (graph_pairs edges) ∧
    auto_insert (precision_node <$> nodes) (precision_edge <$> edges)
      (find registry "com.cpipe.precision_convert") false = Ok plan ∧
    order ≡ₚ seq 0 (length (pp_nodes plan)) ∧ respects (edge_pair <$> pp_edges plan) order ∧
    Some <$> nodes_ loaded = (λ i, planned_node <$> pp_nodes plan !! i) <$> order.
Proof.
  apply (load_topological what valid "doc" document registry empty_pipeline loaded);
    [done|apply small|apply loads].
Defined.

Lemma load_edges_satisfied_witness : edge_ok nodes edges (mkGEdge 0 1 "out" "in").
Proof.
  apply (load_edges_satisfied what valid "doc" document registry empty_pipeline loaded nodes
    (graph_of 2 [(0, 1)]) edges); [done|apply small|apply graph_loads|apply loads|left].
Defined.

Lemma check_edges_exact_witness :
  check_edges nodes [["lin"]; ["lin"]] edges = Ok tt ∧ edge_ok nodes edges (mkGEdge 0 1 "out" "in").
Proof.
  split; [reflexivity|].
  apply (check_edges_exact document registry nodes (graph_of 2 [(0, 1)]) edges [0; 1]
    [["lin"]; ["lin"]]); [apply small|apply graph_loads|reflexivity..|left].
Defined.

Lemma sort_nodes_cycles_witness :
  sort_nodes 2 (graph_of 2 [(0, 1)]) = Fail CPIPE_FAILED "cycle in pipeline graph" ↔
  ¬ acyclic (graph_pairs edges).
Proof.
  apply (sort_nodes_cycles document registry nodes (graph_of 2 [(0, 1)]) edges);
    [apply small|apply graph_loads].
Defined.

Definition plan : PrecisionPlan :=
  mkPPlan ((precision_node <$> nodes) ++
    [conversion_node (desc "com.cpipe.precision_convert" "conv") (mkPEdge 0 1 "out" "in") 0
      "R8G8B8A8_UNORM"])
    [mkPEdge 0 2 "out" "in"; mkPEdge 2 1 "out" "in"] [2].

Lemma edges_acyclic : acyclic (edge_pair <$> (precision_edge <$> edges)).
Proof.
  apply (respects_acyclic _ [0; 1]); [by apply (bool_decide_unpack _)|..].
  - intros [|x [|y [|]]] v l2 E u Hu; simpl in E; simplify_eq/=;
      apply list_elem_of_singleton in Hu; unfold edge_pair in Hu; simplify_eq/=; left.
  - intros x y [= -> ->]%list_elem_of_singleton. right; left.
Qed.

Lemma order_plan_total_witness :
  ∃ planned, order_plan plan = Ok planned ∧ length planned = 3.
Proof.
  apply (order_plan_total (precision_node <$> nodes) (precision_edge <$> edges)
    (Some (desc "com.cpipe.precision_convert" "conv")) plan); [reflexivity|apply edges_acyclic|done].
Defined.

Lemma load_respects_cap_witness : (memory_peak_bytes_ loaded ≤ size_max)%Z.
Proof.
  apply (load_respects_cap what valid "doc" document registry empty_pipeline loaded);
    [done|apply loads].
Defined.

Lemma validate_node_params_sound_witness :
  ∃ manifest declarations, json_parse "byte" = Some manifest ∧
    value_or get_json manifest "params" (json_array []) = Ok declarations ∧
    ∀ name value, (name, value) ∈ items (obj [("gain", str "x")] : json) →
      ∃ declaration, declaration ∈ elements declarations ∧
        value_or get_string declaration "name" "" = Ok name ∧ param_fits value declaration.
Proof. apply (validate_node_params_sound (desc "byte" "byte") "byte"); reflexivity. Defined.

Lemma split_endpoint_join_witness : split_endpoint "demosaic.in.0" = mkEndpoint "demosaic" "in.0".
Proof. apply (split_endpoint_join "demosaic" "in.0"). reflexivity. Defined.

End Example.
