(* ===== verification/Scheduler.v ===== *)
(** * The scheduler

    Models src/cpipe/runtime/Scheduler.cpp.  A node's [process] is a state
    transformer on the state the tasks share.  Without dependencies [run] is a loop.
    With dependencies it hands the nodes to Taskflow, a third-party executor: all
    that is assumed of it is that a task's body starts after the bodies of its
    dependencies have ended, so the executions are the sequences of the steps of
    [sched_step], in which the bodies of independent tasks interleave: the load of
    [first_status], the call of [process] and the compare-and-swap are separate
    steps.  An exception that escapes a task is left to Taskflow: no step is taken.

    The theorems hold for every interleaving: a node runs at most once and only
    after its dependencies have succeeded; the result is [CPIPE_OK] exactly when
    every node ran and succeeded and is otherwise the status of a node that ran;
    without exceptions or cycles no execution is stuck before its end
    ([sched_completes]); and on a chain, which is what [Pipeline::run] builds,
    every execution computes what the sequential loop computes. *)

From Stdlib Require Import ZArith Lia.
From stdpp Require Import prelude strings list relations.
From S2P Require Import Prelude Topo.

Record ScheduledNode (S : Type) : Type := mkScheduled {
  sn_id : string;
  sn_process : S → res (cpipe_status_t * S);
  sn_dependencies : list nat
}.
Arguments mkScheduled {S} sn_id sn_process sn_dependencies.
Arguments sn_id {S} _.
Arguments sn_process {S} _ _.
Arguments sn_dependencies {S} _.

(** Where a task's body stands. *)
Inductive task_phase : Type :=
| Waiting
| Checked
| Processed (st : cpipe_status_t)
| Finished.

#[export] Instance task_phase_eq_dec : EqDecision task_phase.
Proof. solve_decision. Defined.

(** [executed] records the calls of [process] with their results, in order. *)
Record sched_state (S : Type) : Type := mkSched {
  shared : S;
  first_status : cpipe_status_t;
  phase : list task_phase;
  executed : list (nat * cpipe_status_t)
}.
Arguments mkSched {S} shared first_status phase executed.
Arguments shared {S} _.
Arguments first_status {S} _.
Arguments phase {S} _.
Arguments executed {S} _.

Section scheduler.
Context {S : Type}.
Implicit Types nodes : list (ScheduledNode S).

(** The loop taken when no node has dependencies. *)
Fixpoint run_sequential nodes (s : S) : res (cpipe_status_t * S) :=
  match nodes with
  | [] => Ok (CPIPE_OK, s)
  | node :: nodes' =>
      '(status, s') ← sn_process node s;
      if decide (status ≠ CPIPE_OK) then Ok (status, s') else run_sequential nodes' s'
  end.

Definition has_dependencies nodes : bool :=
  existsb (λ node, match sn_dependencies node with [] => false | _ => true end) nodes.

Definition dependencies_in_range nodes : bool :=
  forallb (λ node, forallb (λ d, d <? length nodes) (sn_dependencies node)) nodes.

Definition initial nodes (s : S) : sched_state S :=
  mkSched s CPIPE_OK (replicate (length nodes) Waiting) [].

(** [first_status.compare_exchange_strong(CPIPE_OK, status)] when the status is an
    error. *)
Definition record_status (first status : cpipe_status_t) : cpipe_status_t :=
  if decide (status ≠ CPIPE_OK ∧ first = CPIPE_OK) then status else first.

Inductive sched_step nodes : sched_state S → sched_state S → Prop :=
| step_check σ i node :
    nodes !! i = Some node → phase σ !! i = Some Waiting →
    (∀ d, d ∈ sn_dependencies node → phase σ !! d = Some Finished) →
    first_status σ = CPIPE_OK →
    sched_step nodes σ
      (mkSched (shared σ) (first_status σ) (<[i := Checked]> (phase σ)) (executed σ))
| step_skip σ i node :
    nodes !! i = Some node → phase σ !! i = Some Waiting →
    (∀ d, d ∈ sn_dependencies node → phase σ !! d = Some Finished) →
    first_status σ ≠ CPIPE_OK →
    sched_step nodes σ
      (mkSched (shared σ) (first_status σ) (<[i := Finished]> (phase σ)) (executed σ))
| step_process σ i node st s' :
    nodes !! i = Some node → phase σ !! i = Some Checked →
    sn_process node (shared σ) = Ok (st, s') →
    sched_step nodes σ
      (mkSched s' (first_status σ) (<[i := Processed st]> (phase σ)) (executed σ ++ [(i, st)]))
| step_record σ i st :
    phase σ !! i = Some (Processed st) →
    sched_step nodes σ
      (mkSched (shared σ) (record_status (first_status σ) st) (<[i := Finished]> (phase σ))
        (executed σ)).

(** Every task's body has ended: [wait] returns. *)
Definition complete (σ : sched_state S) : Prop := Forall (λ p, p = Finished) (phase σ).

(** [Scheduler::run]. *)
Inductive scheduler_run nodes (s : S) : cpipe_status_t → S → Prop :=
| run_loop st s' :
    has_dependencies nodes = false → run_sequential nodes s = Ok (st, s') →
    scheduler_run nodes s st s'
| run_bad_index :
    has_dependencies nodes = true → dependencies_in_range nodes = false →
    scheduler_run nodes s CPIPE_BAD_INDEX s
| run_taskflow σ :
    has_dependencies nodes = true → dependencies_in_range nodes = true →
    rtc (sched_step nodes) (initial nodes s) σ → complete σ →
    scheduler_run nodes s (first_status σ) (shared σ).

(** ** Invariants *)

Definition run_ids (σ : sched_state S) : list nat := (executed σ).*1.

Record sched_inv nodes (σ : sched_state S) : Prop := {
  si_length : length (phase σ) = length nodes;
  si_nodup : NoDup (run_ids σ);
  si_ran : ∀ i, i ∈ run_ids σ →
    (∃ st, phase σ !! i = Some (Processed st)) ∨ phase σ !! i = Some Finished;
  si_processed : ∀ i st, phase σ !! i = Some (Processed st) → (i, st) ∈ executed σ;
  si_finished_ok : first_status σ = CPIPE_OK →
    ∀ i, phase σ !! i = Some Finished → (i, CPIPE_OK) ∈ executed σ;
  si_error : first_status σ ≠ CPIPE_OK → ∃ i, (i, first_status σ) ∈ executed σ;
  si_checked : ∀ i node, phase σ !! i = Some Checked → nodes !! i = Some node →
    ∀ d, d ∈ sn_dependencies node → (d, CPIPE_OK) ∈ executed σ;
  si_deps : ∀ l1 i st l2 node, executed σ = l1 ++ (i, st) :: l2 → nodes !! i = Some node →
    ∀ d, d ∈ sn_dependencies node → (d, CPIPE_OK) ∈ l1
}.

Lemma sched_inv_initial nodes s : sched_inv nodes (initial nodes s).
Proof.
  assert (∀ i p, phase (initial nodes s) !! i = Some p → p = Waiting) as Hw.
  { intros i p Hp. by apply lookup_replicate in Hp as [-> _]. }
  split; simpl; try done.
  - apply length_replicate.
  - constructor.
  - set_solver.
  - intros i st Hp. by apply Hw in Hp.
  - intros _ i Hp. by apply Hw in Hp.
  - intros i node Hp. by apply Hw in Hp.
  - intros [|] i st l2 node E; discriminate E.
Qed.

(** A phase change that neither runs a node nor touches the status. *)
Lemma lookup_phase_insert (ps : list task_phase) i j p q :
  i < length ps →
  <[i := p]> ps !! j = Some q ↔ (j = i ∧ q = p) ∨ (j ≠ i ∧ ps !! j = Some q).
Proof.
  intros Hi. destruct (decide (i = j)) as [<-|Hne].
  - rewrite list_lookup_insert_eq by done. naive_solver.
  - rewrite list_lookup_insert_ne by done. naive_solver.
Qed.

Lemma sched_inv_step nodes σ σ' : sched_inv nodes σ → sched_step nodes σ σ' → sched_inv nodes σ'.
Proof.
  intros [Hlen Hnd Hran Hproc Hfin Herr Hchk Hdeps] Hstep.
  destruct Hstep as [σ i node Hn Hp Hd Hf|σ i node Hn Hp Hd Hf|σ i node st s' Hn Hp Hs|σ i st Hp];
    pose proof (lookup_lt_Some _ _ _ Hp) as Hi; split; simpl; unfold run_ids in *; simpl;
    try done; rewrite ?length_insert; try done.
  - intros j Hj. setoid_rewrite lookup_phase_insert; [|done..].
    destruct (decide (j = i)) as [->|]; [|naive_solver].
    destruct (Hran i Hj) as [[x Hx]|Hx]; congruence.
  - intros j x. rewrite lookup_phase_insert by done. naive_solver.
  - intros Hok j. rewrite lookup_phase_insert by done. naive_solver.
  - intros j nd. rewrite lookup_phase_insert by done.
    intros [[-> _]|[_ ?]] Hj d Hdd; [|by eapply Hchk].
    rewrite Hn in Hj. injection Hj as <-. by apply Hfin; [|apply Hd].
  - intros j Hj. setoid_rewrite lookup_phase_insert; [|done..].
    destruct (decide (j = i)) as [->|]; [|naive_solver].
    destruct (Hran i Hj) as [[x Hx]|Hx]; congruence.
  - intros j x. rewrite lookup_phase_insert by done. naive_solver.
  - intros j nd. rewrite lookup_phase_insert by done.
    intros [[_ ?]|[_ ?]]; [done|]. by eapply Hchk.
  - rewrite fmap_app. simpl. apply NoDup_app. split_and!; [done| |apply NoDup_singleton].
    intros j Hj ->%list_elem_of_singleton. destruct (Hran i Hj) as [[x Hx]|Hx]; congruence.
  - intros j. rewrite fmap_app, elem_of_app. simpl. rewrite list_elem_of_singleton. intros Hj.
    setoid_rewrite lookup_phase_insert; [|done..].
    destruct (decide (j = i)) as [->|]; [left; exists st; by left|]. naive_solver.
  - intros j x. rewrite lookup_phase_insert, elem_of_app, list_elem_of_singleton by done. naive_solver.
  - intros Hok j. rewrite lookup_phase_insert, elem_of_app by done. naive_solver.
  - intros Hne. destruct (Herr Hne) as [j ?]. exists j. rewrite elem_of_app. by left.
  - intros j nd. rewrite lookup_phase_insert by done. setoid_rewrite elem_of_app.
    intros [[_ ?]|[_ ?]] Hj d Hdd; [done|]. left. by eapply Hchk.
  - intros l1 j x l2 nd E Hj d Hdd. destruct l2 as [|y l2 _] using rev_ind.
    + apply app_inj_tail in E as [<- [= <- <-]]. rewrite Hn in Hj. injection Hj as <-.
      by eapply Hchk.
    + rewrite app_comm_cons, app_assoc in E. apply app_inj_tail in E as [E _].
      by eapply Hdeps.
  - intros j Hj. setoid_rewrite lookup_phase_insert; [|done..].
    destruct (decide (j = i)) as [->|]; naive_solver.
  - intros j x. rewrite lookup_phase_insert by done. naive_solver.
  - intros Hok j. rewrite lookup_phase_insert by done. unfold record_status in Hok.
    case_decide as Hrec; [naive_solver|]. intros [[-> _]|[_ ?]]; [|by apply Hfin].
    destruct (decide (st = CPIPE_OK)) as [->|]; [by apply Hproc|]. tauto.
  - unfold record_status. case_decide as Hrec; [|done]. intros _. exists i. by apply Hproc.
  - intros j nd. rewrite lookup_phase_insert by done.
    intros [[_ ?]|[_ ?]]; [done|]. by eapply Hchk.
Qed.

Lemma sched_inv_reachable nodes s σ :
  rtc (sched_step nodes) (initial nodes s) σ → sched_inv nodes σ.
Proof.
  intros Hr. assert (sched_inv nodes (initial nodes s)) as Hinv by apply sched_inv_initial.
  induction Hr as [|σ1 σ2 σ3 Hs _ IH]; [done|]. apply IH. by eapply sched_inv_step.
Qed.

(** ** Termination *)

(** Steps left in a task's body. *)
Definition phase_weight (p : task_phase) : nat :=
  match p with Waiting => 3 | Checked => 2 | Processed _ => 1 | Finished => 0 end.

Definition weight (σ : sched_state S) : nat := sum_list (phase_weight <$> phase σ).

Lemma sum_insert (ps : list task_phase) i p q :
  ps !! i = Some p → phase_weight q < phase_weight p →
  sum_list (phase_weight <$> <[i := q]> ps) < sum_list (phase_weight <$> ps).
Proof.
  revert i. induction ps as [|x ps IH]; intros [|i] Hp Hw; simpl in *; simplify_eq/=; [lia|].
  apply Nat.add_lt_mono_l, (IH i Hp Hw).
Qed.

Lemma step_weight nodes σ σ' : sched_step nodes σ σ' → weight σ' < weight σ.
Proof.
  unfold weight. destruct 1 as [σ i node _ Hp|σ i node _ Hp|σ i node st s' _ Hp|σ i st Hp];
    simpl; (eapply sum_insert; [exact Hp|simpl; lia]).
Qed.

(** ** Progress *)

(** The dependency edges of the nodes, from dependency to dependent. *)
Definition dependency_edges nodes : edges_t :=
  concat (imap (λ i node, (λ d, (d, i)) <$> sn_dependencies node) nodes).

Lemma elem_of_dependency_edges nodes d i :
  (d, i) ∈ dependency_edges nodes ↔ ∃ node, nodes !! i = Some node ∧ d ∈ sn_dependencies node.
Proof.
  unfold dependency_edges. rewrite list_elem_of_In, in_concat. setoid_rewrite <-list_elem_of_In.
  split.
  - intros (l & Hl & Hd). apply elem_of_lookup_imap in Hl as (j & node & -> & Hj).
    apply list_elem_of_fmap in Hd as (d' & [= -> ->] & Hd). by exists node.
  - intros (node & Hi & Hd). exists ((λ d, (d, i)) <$> sn_dependencies node). split.
    + apply elem_of_lookup_imap. by exists i, node.
    + apply list_elem_of_fmap. by exists d.
Qed.

Lemma in_range_deps nodes :
  dependencies_in_range nodes = true →
  ∀ i node d, nodes !! i = Some node → d ∈ sn_dependencies node → d < length nodes.
Proof.
  unfold dependencies_in_range. rewrite forallb_forall. setoid_rewrite <-list_elem_of_In.
  intros Hall i node d Hi Hd. apply list_elem_of_lookup_2 in Hi. apply Hall in Hi.
  rewrite forallb_forall in Hi. setoid_rewrite <-list_elem_of_In in Hi.
  apply Hi in Hd. by apply Nat.ltb_lt.
Qed.

(** Nodes whose bodies have not ended, in an acyclic graph, include one that can
    move: the first of them in a topological order. *)
Lemma sched_progress nodes σ :
  dependencies_in_range nodes = true → acyclic (dependency_edges nodes) →
  (∀ node s, node ∈ nodes → ∃ r, sn_process node s = Ok r) →
  length (phase σ) = length nodes → ¬ complete σ → ∃ σ', sched_step nodes σ σ'.
Proof.
  intros Hr Hac Htot Hlen Hnc.
  set (done_ := filter (λ i, phase σ !! i = Some Finished) (seq 0 (length nodes))).
  assert (∀ i, i ∈ done_ ↔ i < length nodes ∧ phase σ !! i = Some Finished) as Hdone.
  { intros i. unfold done_. rewrite list_elem_of_filter, elem_of_seq. naive_solver lia. }
  destruct (decide (Exists (λ i, i ∉ done_ ∧ Forall (λ e : nat * nat, e.2 = i → e.1 ∈ done_)
    (dependency_edges nodes)) (seq 0 (length nodes)))) as [Hex|Hno].
  - apply Exists_exists in Hex as (i & Hi%elem_of_seq & Hnd & Hpre).
    rewrite Forall_forall in Hpre.
    destruct (lookup_lt_is_Some_2 nodes i) as [node Hnode]; [lia|].
    destruct (lookup_lt_is_Some_2 (phase σ) i) as [p Hp]; [lia|].
    assert (∀ d, d ∈ sn_dependencies node → phase σ !! d = Some Finished) as Hd.
    { intros d Hd. eapply Hdone, (Hpre (d, i)); [|done].
      apply elem_of_dependency_edges. by exists node. }
    destruct p as [| |st|].
    + destruct (decide (first_status σ = CPIPE_OK)); eexists;
        [by eapply step_check|by eapply step_skip].
    + destruct (Htot node (shared σ)) as [[st s'] Hs]; [by eapply list_elem_of_lookup_2|].
      eexists. by eapply step_process.
    + eexists. by eapply step_record.
    + destruct Hnd. apply Hdone. split; [lia|done].
  - destruct Hnc. apply Forall_lookup_2. intros i p Hp.
    assert (i ∈ done_) as Hi; [|apply Hdone in Hi as [_ Hi]; congruence].
    apply (acyclic_closed_full (length nodes) (dependency_edges nodes) done_ Hac);
      [|apply lookup_lt_Some in Hp; lia].
    intros v Hv Hvd. rewrite <-Forall_Exists_neg, Forall_forall in Hno.
    specialize (Hno v ltac:(apply elem_of_seq; lia)).
    destruct (decide (Forall (λ e : nat * nat, e.2 = v → e.1 ∈ done_) (dependency_edges nodes)))
      as [|Hnf]; [tauto|].
    apply not_Forall_Exists in Hnf; [|apply _].
    apply Exists_exists in Hnf as ([u w] & He & Hn). simpl in Hn.
    destruct (decide (w = v)) as [->|]; [|naive_solver]. exists u.
    split_and!; [done| |tauto]. apply elem_of_dependency_edges in He as (node & Hnode & Hd).
    by eapply in_range_deps.
Qed.

Lemma sched_completes nodes σ :
  dependencies_in_range nodes = true → acyclic (dependency_edges nodes) →
  (∀ node s, node ∈ nodes → ∃ r, sn_process node s = Ok r) → sched_inv nodes σ →
  ∃ σ', rtc (sched_step nodes) σ σ' ∧ complete σ'.
Proof.
  intros Hr Hac Htot. remember (weight σ) as w eqn:Hw. revert σ Hw.
  induction w as [w IH] using lt_wf_ind. intros σ -> Hinv.
  destruct (decide (Forall (λ p, p = Finished) (phase σ))) as [Hc|Hc]; [by exists σ|].
  destruct (sched_progress nodes σ Hr Hac Htot (si_length _ _ Hinv) Hc) as [σ1 Hs].
  destruct (IH (weight σ1) (step_weight _ _ _ Hs) σ1 eq_refl) as (σ' & Hrtc & Hc').
  { by eapply sched_inv_step. }
  exists σ'. split; [by eapply rtc_l|done].
Qed.

(** ** Chains *)

Definition is_chain nodes : Prop :=
  ∀ i node, nodes !! i = Some node → sn_dependencies node = match i with O => [] | Datatypes.S j => [j] end.

Lemma run_sequential_snoc nodes node s st s1 :
  run_sequential nodes s = Ok (st, s1) →
  run_sequential (nodes ++ [node]) s =
    if decide (st = CPIPE_OK) then sn_process node s1 else Ok (st, s1).
Proof.
  revert s. induction nodes as [|x nodes IH]; intros s Hrun; simpl in *.
  - injection Hrun as <- <-. destruct (sn_process node s) as [[st s']| | |]; [|done..]. simpl.
    by destruct st.
  - destruct (sn_process x s) as [[st' s']| | |]; [|done..]. simpl in *.
    case_decide; [|by apply IH]. injection Hrun as <- <-. by rewrite decide_False.
Qed.

(** On a chain the tasks are done in order: [k] of them have ended, and the shared
    state is the one the loop has after them. *)
Definition chain_inv nodes (s0 : S) (σ : sched_state S) : Prop :=
  length (phase σ) = length nodes ∧
  ∃ k, k ≤ length nodes ∧
    (∀ i, i < k → phase σ !! i = Some Finished) ∧
    (∀ i, k < i → i < length nodes → phase σ !! i = Some Waiting) ∧
    match phase σ !! k with
    | None | Some Waiting => run_sequential (take k nodes) s0 = Ok (first_status σ, shared σ)
    | Some Checked =>
        first_status σ = CPIPE_OK ∧ run_sequential (take k nodes) s0 = Ok (CPIPE_OK, shared σ)
    | Some (Processed st) =>
        first_status σ = CPIPE_OK ∧
        run_sequential (take (Datatypes.S k) nodes) s0 = Ok (st, shared σ)
    | Some Finished => False
    end.

Lemma chain_inv_initial nodes s0 : chain_inv nodes s0 (initial nodes s0).
Proof.
  split; [apply length_replicate|]. exists 0. split_and!; [lia|intros; lia| |].
  - intros i _ Hi. by apply lookup_replicate_2.
  - simpl. destruct (replicate _ _ !! 0) eqn:E; [|done].
    by apply lookup_replicate in E as [-> _].
Qed.

(** Only the first unfinished task can move. *)
Lemma chain_active nodes s0 σ i p :
  chain_inv nodes s0 σ → phase σ !! i = Some p → p ≠ Finished →
  (p = Waiting → is_chain nodes →
     ∀ node, nodes !! i = Some node →
       ∀ d, d ∈ sn_dependencies node → phase σ !! d = Some Finished) →
  is_chain nodes →
  ∃ k, i = k ∧ k < length nodes ∧ (∀ j, j < k → phase σ !! j = Some Finished) ∧
    (∀ j, k < j → j < length nodes → phase σ !! j = Some Waiting) ∧
    match p with
    | Waiting => run_sequential (take k nodes) s0 = Ok (first_status σ, shared σ)
    | Checked =>
        first_status σ = CPIPE_OK ∧ run_sequential (take k nodes) s0 = Ok (CPIPE_OK, shared σ)
    | Processed st =>
        first_status σ = CPIPE_OK ∧
        run_sequential (take (Datatypes.S k) nodes) s0 = Ok (st, shared σ)
    | Finished => False
    end.
Proof.
  intros (Hlen & k & Hk & Hlo & Hhi & Hm) Hp Hne Hdeps Hch.
  assert (i < length nodes) as Hi by (apply lookup_lt_Some in Hp; lia).
  assert (¬ i < k) by (intros Hik; apply Hlo in Hik; congruence).
  destruct (decide (i = k)) as [->|Hik].
  { exists k. rewrite Hp in Hm. by destruct p. }
  rewrite Hhi in Hp by lia. injection Hp as <-.
  destruct (lookup_lt_is_Some_2 nodes i Hi) as [node Hnode].
  assert (phase σ !! (i - 1) = Some Finished) as Hprev.
  { eapply Hdeps; [done..|]. rewrite (Hch i node Hnode). destruct i as [|j]; [lia|].
    replace (Datatypes.S j - 1) with j by lia. apply list_elem_of_singleton. done. }
  destruct (decide (i - 1 = k)) as [E|]; [rewrite E in Hprev; by rewrite Hprev in Hm|].
  rewrite Hhi in Hprev by lia. discriminate.
Qed.

Lemma chain_inv_step nodes s0 σ σ' :
  is_chain nodes → chain_inv nodes s0 σ → sched_step nodes σ σ' → chain_inv nodes s0 σ'.
Proof.
  intros Hch Hinv Hstep. pose proof Hinv as [Hlen _].
  (* advance past task [k] *)
  assert (∀ k fs sh ex, k < length nodes →
    (∀ j, j < k → phase σ !! j = Some Finished) →
    (∀ j, k < j → j < length nodes → phase σ !! j = Some Waiting) →
    run_sequential (take (Datatypes.S k) nodes) s0 = Ok (fs, sh) →
    chain_inv nodes s0 (mkSched sh fs (<[k := Finished]> (phase σ)) ex)) as Hadv.
  { intros k fs sh ex Hk Hlo Hhi Hrun. split; [simpl; by rewrite length_insert|].
    exists (Datatypes.S k). simpl. split_and!; [lia|..].
    - intros j Hj. apply lookup_phase_insert; [lia|].
      destruct (decide (j = k)); [by left|]. right. split; [done|]. apply Hlo. lia.
    - intros j Hj Hjn. rewrite list_lookup_insert_ne by lia. apply Hhi; lia.
    - rewrite list_lookup_insert_ne by lia.
      destruct (decide (Datatypes.S k < length nodes)) as [Hlt|Hge].
      + by rewrite Hhi by lia.
      + rewrite lookup_ge_None_2 by lia. done. }
  destruct Hstep as [σ i node Hn Hp Hd Hf|σ i node Hn Hp Hd Hf|σ i node st s' Hn Hp Hs|σ i st Hp].
  - destruct (chain_active nodes s0 σ i _ Hinv Hp) as (k & -> & Hk & Hlo & Hhi & Hrun); [done| |done|].
    { intros _ _ nd Hnd. rewrite Hn in Hnd. by injection Hnd as <-. }
    split; [simpl; by rewrite length_insert|]. exists k. simpl. split_and!; [lia|..].
    + intros j Hj. rewrite list_lookup_insert_ne by lia. by apply Hlo.
    + intros j Hj Hjn. rewrite list_lookup_insert_ne by lia. by apply Hhi.
    + rewrite list_lookup_insert_eq by lia. split; [done|]. by rewrite <-Hf.
  - destruct (chain_active nodes s0 σ i _ Hinv Hp) as (k & -> & Hk & Hlo & Hhi & Hrun); [done| |done|].
    { intros _ _ nd Hnd. rewrite Hn in Hnd. by injection Hnd as <-. }
    apply Hadv; [done..|]. rewrite (take_S_r _ _ _ Hn).
    rewrite (run_sequential_snoc _ _ _ _ _ Hrun). by rewrite decide_False.
  - destruct (chain_active nodes s0 σ i _ Hinv Hp) as (k & -> & Hk & Hlo & Hhi & Hf & Hrun); [done..|].
    split; [simpl; by rewrite length_insert|]. exists k. simpl. split_and!; [lia|..].
    + intros j Hj. rewrite list_lookup_insert_ne by lia. by apply Hlo.
    + intros j Hj Hjn. rewrite list_lookup_insert_ne by lia. by apply Hhi.
    + rewrite list_lookup_insert_eq by lia. split; [done|].
      rewrite (take_S_r _ _ _ Hn), (run_sequential_snoc _ _ _ _ _ Hrun). by rewrite decide_True.
  - destruct (chain_active nodes s0 σ i _ Hinv Hp) as (k & -> & Hk & Hlo & Hhi & Hf & Hrun); [done..|].
    apply Hadv; [done..|]. rewrite Hrun. unfold record_status.
    case_decide as Hd; [done|]. rewrite Hf in *. do 2 f_equal.
    destruct (decide (st = CPIPE_OK)); [done|tauto].
Qed.

Lemma chain_inv_complete nodes s0 σ :
  chain_inv nodes s0 σ → complete σ → run_sequential nodes s0 = Ok (first_status σ, shared σ).
Proof.
  intros (Hlen & k & Hk & _ & _ & Hm) Hc. unfold complete in Hc.
  destruct (phase σ !! k) as [p|] eqn:Hp.
  - by pose proof (Forall_lookup_1 _ _ _ _ Hc Hp) as ->.
  - apply lookup_ge_None in Hp. by rewrite take_ge in Hm by lia.
Qed.

Lemma chain_edges_bound nodes : is_chain nodes → dependencies_in_range nodes = true.
Proof.
  intros Hch. unfold dependencies_in_range. apply forallb_forall. intros node Hin.
  apply list_elem_of_In, list_elem_of_lookup in Hin as [i Hi]. rewrite (Hch i node Hi).
  apply lookup_lt_Some in Hi. destruct i as [|j]; [done|]. simpl.
  rewrite andb_true_r. apply Nat.ltb_lt. lia.
Qed.

Lemma chain_run nodes (s s' : S) (st : cpipe_status_t) :
  is_chain nodes → scheduler_run nodes s st s' → run_sequential nodes s = Ok (st, s').
Proof.
  intros Hch [st' s1 _ Hrun|_ Hbad|σ _ _ Hr Hc]; [done| |].
  - rewrite chain_edges_bound in Hbad; done.
  - apply chain_inv_complete; [|done].
    assert (chain_inv nodes s (initial nodes s)) as Hinv by apply chain_inv_initial.
    induction Hr as [|σ1 σ2 σ3 Hs _ IH]; [done|]. apply IH; [done|]. by eapply chain_inv_step.
Qed.

(** The loop that returns has run the node it reaches. *)
Lemma run_sequential_reaches l1 node l2 s s1 r :
  run_sequential (l1 ++ node :: l2) s = Ok r → run_sequential l1 s = Ok (CPIPE_OK, s1) →
  ∃ r', sn_process node s1 = Ok r'.
Proof.
  revert s. induction l1 as [|x l1 IH]; intros s Hrun Hpre; simpl in *.
  - injection Hpre as <-. destruct (sn_process node s); [by eexists|done..].
  - destruct (sn_process x s) as [[st s']| | |]; [|done..]. simpl in *.
    case_decide; [|by eapply IH]. by injection Hpre as -> _.
Qed.

(** A chain whose loop returns never gets stuck. *)
Lemma chain_progress nodes s0 σ r :
  is_chain nodes → run_sequential nodes s0 = Ok r → chain_inv nodes s0 σ → ¬ complete σ →
  ∃ σ', sched_step nodes σ σ'.
Proof.
  intros Hch Hrun (Hlen & k & Hk & Hlo & Hhi & Hm) Hnc.
  destruct (decide (k < length nodes)) as [Hlt|Hge].
  2: { destruct Hnc. apply Forall_lookup_2. intros i p Hp.
       assert (i < k) by (apply lookup_lt_Some in Hp; lia). rewrite Hlo in Hp by done. congruence. }
  destruct (lookup_lt_is_Some_2 nodes k Hlt) as [node Hnode].
  assert (∀ d, d ∈ sn_dependencies node → phase σ !! d = Some Finished) as Hd.
  { intros d Hd. rewrite (Hch k node Hnode) in Hd. apply Hlo. destruct k; set_solver by lia. }
  destruct (phase σ !! k) as [[| |st|]|] eqn:Hp; [..|apply lookup_ge_None in Hp; lia].
  - destruct (decide (first_status σ = CPIPE_OK)); eexists;
      [by eapply step_check|by eapply step_skip].
  - destruct Hm as [_ Hpre]. rewrite <-(take_drop_middle _ _ _ Hnode) in Hrun.
    destruct (run_sequential_reaches _ _ _ _ _ _ Hrun Hpre) as [[st s'] Hs].
    eexists. by eapply step_process.
  - eexists. by eapply step_record.
  - done.
Qed.

Lemma chain_completes nodes s0 σ r :
  is_chain nodes → run_sequential nodes s0 = Ok r → chain_inv nodes s0 σ →
  ∃ σ', rtc (sched_step nodes) σ σ' ∧ complete σ'.
Proof.
  intros Hch Hrun. remember (weight σ) as w eqn:Hw. revert σ Hw.
  induction w as [w IH] using lt_wf_ind. intros σ -> Hinv.
  destruct (decide (Forall (λ p, p = Finished) (phase σ))) as [Hc|Hc]; [by exists σ|].
  destruct (chain_progress nodes s0 σ r Hch Hrun Hinv Hc) as [σ1 Hs].
  destruct (IH (weight σ1) (step_weight _ _ _ Hs) σ1 eq_refl) as (σ' & Hrtc & Hc').
  { by eapply chain_inv_step. }
  exists σ'. split; [by eapply rtc_l|done].
Qed.

Lemma chain_run_iff nodes (s s' : S) (st : cpipe_status_t) :
  is_chain nodes → scheduler_run nodes s st s' ↔ run_sequential nodes s = Ok (st, s').
Proof.
  intros Hch. split; [by apply chain_run|]. intros Hrun.
  destruct (has_dependencies nodes) eqn:Hdep; [|by apply run_loop].
  destruct (chain_completes nodes s _ _ Hch Hrun (chain_inv_initial nodes s)) as (σ & Hr & Hc).
  assert (scheduler_run nodes s (first_status σ) (shared σ)) as Hs
    by (apply run_taskflow; [done|by apply chain_edges_bound|done..]).
  pose proof (chain_run _ _ _ _ Hch Hs) as Hrun'. rewrite Hrun in Hrun'. by injection Hrun' as -> ->.
Qed.

(** ** Theorems *)

(** C6: in every execution, whatever the interleaving, a node is processed at most
    once, and only after each of its dependencies has been processed and has
    returned [CPIPE_OK]. *)
Theorem scheduler_order nodes (s : S) (σ : sched_state S) :
  rtc (sched_step nodes) (initial nodes s) σ →
  NoDup (run_ids σ) ∧
  ∀ l1 i st l2 node, executed σ = l1 ++ (i, st) :: l2 → nodes !! i = Some node →
    ∀ d, d ∈ sn_dependencies node → (d, CPIPE_OK) ∈ l1.
Proof.
  intros Hr. apply sched_inv_reachable in Hr as Hinv. split; [apply Hinv|apply (si_deps _ _ Hinv)].
Qed.

(** C39: the status returned after a complete execution is [CPIPE_OK] exactly when
    every node was processed and returned [CPIPE_OK]; otherwise it is an error that
    some processed node returned. *)
Theorem scheduler_status nodes (s : S) (σ : sched_state S) :
  rtc (sched_step nodes) (initial nodes s) σ → complete σ →
  (first_status σ = CPIPE_OK ↔ ∀ i, i < length nodes → (i, CPIPE_OK) ∈ executed σ) ∧
  (first_status σ ≠ CPIPE_OK → ∃ i, (i, first_status σ) ∈ executed σ).
Proof.
  intros Hr Hc. apply sched_inv_reachable in Hr as Hinv. split; [split|].
  - intros Hok i Hi. apply (si_finished_ok _ _ Hinv Hok).
    destruct (lookup_lt_is_Some_2 (phase σ) i) as [p Hp]; [by rewrite (si_length _ _ Hinv)|].
    by rewrite Hp, (Forall_lookup_1 _ _ _ _ Hc Hp).
  - intros Hall. apply dec_stable. intros Hne. destruct (si_error _ _ Hinv Hne) as [i Hi].
    assert (i < length nodes) as Hlt.
    { rewrite <-(si_length _ _ Hinv). destruct (si_ran _ _ Hinv i) as [[? Hp]|Hp];
        [apply list_elem_of_fmap; by exists (i, first_status σ)|..]; by eapply lookup_lt_Some. }
    specialize (Hall i Hlt). pose proof (si_nodup _ _ Hinv) as Hnd.
    apply list_elem_of_lookup in Hi as [a Ha], Hall as [b Hb].
    assert (a = b) as ->; [|congruence].
    eapply NoDup_lookup; [exact Hnd|..]; unfold run_ids; rewrite list_lookup_fmap;
      rewrite ?Ha, ?Hb; done.
  - apply (si_error _ _ Hinv).
Qed.

(** on a chain of nodes, the only shape [Pipeline::run] builds, the scheduler is
    the sequential loop that stops at the first error: it has an execution exactly
    when the loop returns, and every execution gives the loop's status and state. *)
Theorem scheduler_chain nodes (s s' : S) (st : cpipe_status_t) :
  is_chain nodes → scheduler_run nodes s st s' ↔ run_sequential nodes s = Ok (st, s').
Proof. apply chain_run_iff. Qed.

End scheduler.

(** ** Halide's parallel loops and the scheduler object *)

(** [cpipe_halide_do_par_for]: without an executor, or for at most one iteration,
    the iterations run in order up to the first error. *)
Fixpoint par_for_sequential (statuses : list Z) : Z :=
  match statuses with
  | [] => 0%Z
  | status :: statuses' => if (status =? 0)%Z then par_for_sequential statuses' else status
  end.

(** With an executor every iteration runs; the first error to be recorded, in the
    order of completion, is kept by the compare-and-swap. *)
Definition par_for_parallel (completed : list Z) : Z :=
  foldl (λ first_error status,
    if negb (status =? 0)%Z && (first_error =? 0)%Z then status else first_error) 0%Z completed.

(** [statuses] are the iterations' results in index order, [completed] the same in
    completion order. *)
Definition halide_do_par_for (executor : option nat) (statuses completed : list Z) : Z :=
  if bool_decide (executor = None) || (length statuses <=? 1) then par_for_sequential statuses
  else par_for_parallel completed.

(** [g_halide_executor] as the constructor and the destructor change it; schedulers
    are identified by number. *)
Definition scheduler_ctor (global : option nat) (this : nat) : option nat := Some this.
Definition scheduler_dtor (global : option nat) (this : nat) : option nat :=
  if decide (global = Some this) then None else global.

(** [default_worker_count]; [hardware] is [std::thread::hardware_concurrency()]. *)
Definition default_worker_count (hardware : nat) : nat :=
  Nat.max 1 (if 0 <? hardware then hardware - 1 else 1).

Lemma par_for_sequential_ok l : par_for_sequential l = 0%Z ↔ Forall (λ s, s = 0%Z) l.
Proof.
  induction l as [|x l IH]; simpl; [done|]. rewrite Forall_cons.
  destruct (Z.eqb_spec x 0); [|naive_solver]. rewrite IH. naive_solver.
Qed.

Lemma par_for_sequential_in l : par_for_sequential l ≠ 0%Z → par_for_sequential l ∈ l.
Proof.
  induction l as [|x l IH]; simpl; [done|]. destruct (Z.eqb_spec x 0); [|left].
  intros ?. right. by apply IH.
Qed.

Lemma par_for_parallel_first l : par_for_parallel l = par_for_sequential l.
Proof.
  unfold par_for_parallel. assert (∀ e, foldl (λ first_error status,
    if negb (status =? 0)%Z && (first_error =? 0)%Z then status else first_error) e l
    = if (e =? 0)%Z then par_for_sequential l else e) as Hgen; [|apply Hgen].
  induction l as [|x l IH]; intros e; simpl.
  - by destruct (Z.eqb_spec e 0) as [->|].
  - rewrite IH. destruct (Z.eqb_spec e 0) as [->|He]; destruct (Z.eqb_spec x 0) as [->|Hx]; simpl;
      try done.
    + by rewrite (proj2 (Z.eqb_neq x 0)).
    + by rewrite (proj2 (Z.eqb_neq e 0)).
    + by rewrite (proj2 (Z.eqb_neq e 0)).
Qed.

(** a parallel Halide loop reports zero exactly when every iteration succeeded,
    in whatever order the iterations complete, and otherwise one of their errors. *)
Theorem halide_do_par_for_status (executor : option nat) (statuses completed : list Z) :
  completed ≡ₚ statuses →
  (halide_do_par_for executor statuses completed = 0%Z ↔ Forall (λ s, s = 0%Z) statuses) ∧
  (halide_do_par_for executor statuses completed ≠ 0%Z →
     halide_do_par_for executor statuses completed ∈ statuses).
Proof.
  intros Hp. unfold halide_do_par_for. destruct (_ || _).
  - split; [apply par_for_sequential_ok|apply par_for_sequential_in].
  - rewrite par_for_parallel_first, <-Hp.
    split; [apply par_for_sequential_ok|apply par_for_sequential_in].
Qed.

(** ** Witnesses *)

(** Two nodes in a chain: the first succeeds, the second fails. *)
Definition example_nodes : list (ScheduledNode nat) :=
  [mkScheduled "a" (λ s, Ok (CPIPE_OK, s + 1)) []; mkScheduled "b" (λ s, Ok (CPIPE_OOM, s + 10)) [0]].

Definition example_final : sched_state nat :=
  mkSched 11 CPIPE_OOM [Finished; Finished] [(0, CPIPE_OK); (1, CPIPE_OOM)].

Lemma example_execution : rtc (sched_step example_nodes) (initial example_nodes 0) example_final.
Proof.
  eapply rtc_l; [eapply (step_check _ _ 0); [done..|set_solver|done]|]. simpl.
  eapply rtc_l; [eapply (step_process _ _ 0); done|]. simpl.
  eapply rtc_l; [eapply (step_record _ _ 0); done|]. simpl.
  eapply rtc_l; [eapply (step_check _ _ 1); [done..|by intros d ->%list_elem_of_singleton|done]|]. simpl.
  eapply rtc_l; [eapply (step_process _ _ 1); done|]. simpl.
  eapply rtc_l; [eapply (step_record _ _ 1); done|]. constructor.
Qed.

Lemma example_complete : complete example_final.
Proof. repeat constructor. Qed.

Lemma scheduler_order_witness : (0, CPIPE_OK) ∈ [(0, CPIPE_OK)].
Proof.
  apply (proj2 (scheduler_order example_nodes 0 example_final example_execution)
    [(0, CPIPE_OK)] 1 CPIPE_OOM [] (mkScheduled "b" (λ s, Ok (CPIPE_OOM, s + 10)) [0]));
    [done|done|left].
Defined.

Lemma scheduler_status_witness : ∃ i, (i, CPIPE_OOM) ∈ executed example_final.
Proof.
  apply (scheduler_status example_nodes 0 example_final); [apply example_execution|
    apply example_complete|done].
Defined.

Lemma example_chain : is_chain example_nodes.
Proof. intros [|[|]] node Hn; simplify_eq/=; done. Qed.

Lemma scheduler_chain_witness : run_sequential example_nodes 0 = Ok (CPIPE_OOM, 11).
Proof.
  apply (scheduler_chain example_nodes 0 11 CPIPE_OOM); [apply example_chain|].
  apply (run_taskflow _ _ example_final); [done|done|apply example_execution|apply example_complete].
Defined.

Lemma halide_do_par_for_status_witness :
  halide_do_par_for (Some 0) [0; 3; 0]%Z [3; 0; 0]%Z ∈ [0; 3; 0]%Z.
Proof.
  apply (halide_do_par_for_status (Some 0) [0; 3; 0]%Z [3; 0; 0]%Z); [|done].
  by apply (Permutation_swap 0%Z 3%Z [0%Z]).
Defined.
