(* ===== verification/HalfFloat.v ===== *)
(** * Half-float conversion and quantisation

    Models the numeric helpers of src/cpipe/runtime/HostContext.cpp, through which
    colour-managed pixels are read from and written to buffers: [half_to_bits],
    [float_to_half] on bit patterns of 16 and 32 bits, and the unorm quantisers.

    The theorems: reading a finite half as a float is exact, [float_to_half] rounds
    toward zero on the whole representable range, writing back what was read
    restores the half, the quantisers invert their dequantisation; and NaN is not
    preserved: [float_to_half] turns it into an infinity. *)

From Stdlib Require Import ZArith Lia SpecFloat.
From stdpp Require Import prelude list.
From S2P Require Import Prelude Core.

Local Open Scope Z_scope.

(** [while ((mantissa & 0x0400U) == 0U) { mantissa <<= 1U; --exponent; }]; ten
    rounds reach bit 10 from any non-zero ten-bit mantissa. *)
Fixpoint normalize (fuel : nat) (exponent mantissa : Z) : Z * Z :=
  match fuel with
  | O => (exponent, mantissa)
  | S fuel' =>
      if Z.land mantissa 0x400 =? 0
      then normalize fuel' (u32 (exponent - 1)) (u32 (Z.shiftl mantissa 1))
      else (exponent, mantissa)
  end.

Definition half_to_bits (bits : Z) : Z :=
  let sign := Z.shiftl (Z.land bits 0x8000) 16 in
  let exponent := Z.land (Z.shiftr bits 10) 0x1f in
  let mantissa := Z.land bits 0x3ff in
  if exponent =? 0 then
    if mantissa =? 0 then sign else
    let '(exponent, mantissa) := normalize 11 1 mantissa in
    let mantissa := Z.land mantissa 0x3ff in
    Z.lor (Z.lor sign (u32 (Z.shiftl (u32 (exponent + 112)) 23))) (u32 (Z.shiftl mantissa 13))
  else if exponent =? 31 then
    Z.lor (Z.lor sign 0x7f800000) (u32 (Z.shiftl mantissa 13))
  else
    Z.lor (Z.lor sign (u32 (Z.shiftl (u32 (exponent + 112)) 23))) (u32 (Z.shiftl mantissa 13)).

(** The argument and [bits] are the same 32 bits. *)
Definition float_to_half (bits : Z) : Z :=
  let sign := u16 (Z.land (Z.shiftr bits 16) 0x8000) in
  let exponent := Z.land (Z.shiftr bits 23) 0xff - 127 + 15 in
  let mantissa := Z.land bits 0x7fffff in
  if exponent <=? 0 then
    if exponent <? -10 then sign else
    let mantissa := Z.lor mantissa 0x800000 in
    let shifted := Z.shiftr mantissa (1 - exponent + 13) in
    u16 (Z.lor sign shifted)
  else if 31 <=? exponent then u16 (Z.lor sign 0x7c00)
  else u16 (Z.lor (Z.lor sign (u32 (Z.shiftl exponent 10))) (Z.shiftr mantissa 13)).

(** The float of a bit pattern. *)
Definition float_of_bits (bits : Z) : float32 :=
  let sign := Z.testbit bits 31 in
  let exponent := Z.land (Z.shiftr bits 23) 0xff in
  let mantissa := Z.land bits 0x7fffff in
  if exponent =? 255 then (if mantissa =? 0 then S754_infinity sign else S754_nan) else
  if exponent =? 0 then
    match mantissa with Zpos m => S754_finite sign m (-149) | _ => S754_zero sign end
  else match Z.lor mantissa 0x800000 with
       | Zpos m => S754_finite sign m (exponent - 150)
       | _ => S754_zero sign
       end.

Definition half_to_float (bits : Z) : float32 := float_of_bits (half_to_bits bits).

(** [std::clamp(value, 0.0F, 1.0F)]; a NaN passes through. *)
Definition clamp01 (value : float32) : float32 :=
  if SFltb value f_zero then f_zero else if SFltb f32_one value then f32_one else value.

(** [std::lround]: to the nearest integer, halves away from zero; unspecified for
    infinities and NaN. *)
Definition lround (value : float32) : res Z :=
  match value with
  | S754_zero _ => Ok 0
  | S754_finite s m e =>
      let a := if 0 <=? e then Z.pos m * 2 ^ e
               else (Z.pos m + 2 ^ (- e - 1)) / 2 ^ (- e) in
      Ok (if s then - a else a)
  | _ => Undef
  end.

(** The float of an integer below 2^24, exactly. *)
Definition float_of_int (z : Z) : float32 := binary_normalize 24 128 z 0 false.

Definition float_to_unorm8 (value : float32) : res Z :=
  r ← lround (SFmul 24 128 (clamp01 value) (float_of_int 255)); Ok (u8 r).

Definition float_to_unorm10_top_aligned (value : float32) : res Z :=
  quantized ← (r ← lround (SFmul 24 128 (clamp01 value) (float_of_int 1023)); Ok (u16 r));
  Ok (u16 (Z.shiftl quantized 6)).

(** ** Values

    The magnitude of a finite pattern in units of 2^-149, the smallest float. *)

Definition float_magnitude (bits : Z) : Z :=
  let exponent := Z.land (Z.shiftr bits 23) 0xff in
  let mantissa := Z.land bits 0x7fffff in
  if exponent =? 0 then mantissa else (mantissa + 2 ^ 23) * 2 ^ (exponent - 1).

Definition half_magnitude (bits : Z) : Z :=
  let exponent := Z.land (Z.shiftr bits 10) 0x1f in
  let mantissa := Z.land bits 0x3ff in
  (if exponent =? 0 then mantissa else (mantissa + 2 ^ 10) * 2 ^ (exponent - 1)) * 2 ^ 125.

Definition half_finite (bits : Z) : bool := negb (Z.land (Z.shiftr bits 10) 0x1f =? 31).

(** ** Lemmas *)

(** [P] holds of [n] consecutive integers. *)
Fixpoint check_from (P : Z → bool) (n : nat) (z : Z) : bool :=
  match n with O => true | S n' => P z && check_from P n' (z + 1) end.

Lemma check_from_spec P n : ∀ z, check_from P n z = true → ∀ x, z ≤ x < z + Z.of_nat n → P x = true.
Proof.
  induction n as [|n IH]; intros z Hc x Hx; [lia|]. simpl in Hc. apply andb_true_iff in Hc as [H1 H2].
  destruct (decide (x = z)) as [->|]; [done|]. apply (IH (z + 1) H2). lia.
Qed.

Lemma land_top_bit s r n : 0 ≤ n → 0 ≤ s ≤ 1 → is_u n r → Z.land (s * 2 ^ n + r) (2 ^ n) = s * 2 ^ n.
Proof.
  intros Hn Hs Hr. unfold is_u in Hr. pose proof (Z.pow_pos_nonneg 2 n ltac:(lia) Hn).
  assert (Z.testbit (s * 2 ^ n + r) n = (s =? 1)) as Hbit.
  { destruct (Z.eqb_spec s 1) as [->|].
    - apply Z.testbit_true; [done|]. rewrite Z.div_add_l, Z.div_small by lia. done.
    - apply Z.testbit_false; [done|]. replace s with 0 by lia. rewrite Z.div_small by lia. done. }
  apply Z.bits_inj'. intros i Hi. rewrite Z.land_spec. destruct (decide (i = n)) as [->|Hne].
  - rewrite Hbit, Z.pow2_bits_true, andb_true_r by lia. rewrite Z.mul_pow2_bits by lia.
    replace (n - n) with 0 by lia. destruct (Z.eqb_spec s 1) as [->|]; [done|].
    by replace s with 0 by lia.
  - rewrite Z.pow2_bits_false, andb_false_r by lia. rewrite Z.mul_pow2_bits by lia.
    destruct (decide (i < n)); [by rewrite Z.testbit_neg_r by lia|].
    destruct (decide (s = 1)) as [->|]; [|by replace s with 0 by lia; rewrite Z.bits_0].
    symmetry. change 1 with (2 ^ 0). apply Z.pow2_bits_false. lia.
Qed.

(** The fields of a float. *)
Lemma float_fields s e m :
  0 ≤ s ≤ 1 → 0 ≤ e < 256 → 0 ≤ m < 2 ^ 23 →
  let x := s * 2 ^ 31 + (e * 2 ^ 23 + m) in
  Z.land (Z.shiftr x 23) 0xff = e ∧ Z.land x 0x7fffff = m ∧
  Z.land (Z.shiftr x 16) 0x8000 = s * 2 ^ 15 ∧ Z.testbit x 31 = (s =? 1).
Proof.
  intros Hs He Hm x. change 0xff with (Z.ones 8). change 0x7fffff with (Z.ones 23).
  rewrite !Z.land_ones, !Z.shiftr_div_pow2 by lia. unfold x. split_and!.
  - replace (_ + _) with ((s * 2 ^ 8 + e) * 2 ^ 23 + m) by lia.
    rewrite Z.div_add_l, (Z.div_small m), Z.add_0_r by lia.
    rewrite Z.add_comm, Z.mod_add, Z.mod_small by lia. done.
  - replace (_ + _) with (m + (s * 2 ^ 8 + e) * 2 ^ 23) by lia.
    rewrite Z.mod_add, Z.mod_small by lia. done.
  - assert ((s * 2 ^ 31 + (e * 2 ^ 23 + m)) / 2 ^ 16 = s * 2 ^ 15 + (e * 2 ^ 7 + m / 2 ^ 16)) as ->
      by (Z.to_euclidean_division_equations; lia).
    change 0x8000 with (2 ^ 15). apply land_top_bit; [lia|lia|].
    unfold is_u. Z.to_euclidean_division_equations; lia.
  - destruct (Z.eqb_spec s 1) as [->|].
    + apply Z.testbit_true; [done|]. rewrite Z.div_add_l, Z.div_small by lia. done.
    + apply Z.testbit_false; [done|]. replace s with 0 by lia. rewrite Z.div_small by lia. done.
Qed.

Lemma float_magnitude_fields s e m :
  0 ≤ s ≤ 1 → 0 ≤ e < 256 → 0 ≤ m < 2 ^ 23 →
  float_magnitude (s * 2 ^ 31 + (e * 2 ^ 23 + m)) =
    if e =? 0 then m else (m + 2 ^ 23) * 2 ^ (e - 1).
Proof.
  intros Hs He Hm. destruct (float_fields s e m Hs He Hm) as (E1 & E2 & _).
  unfold float_magnitude. by rewrite E1, E2.
Qed.

Lemma lor_add_sign s b : 0 ≤ s ≤ 1 → is_u 15 b → u16 (Z.lor (s * 2 ^ 15) b) = s * 2 ^ 15 + b.
Proof.
  intros Hs Hb. assert (Z.lor (s * 2 ^ 15) b = s * 2 ^ 15 + b) as ->.
  { rewrite <-(lor_shiftl_add s b 15), Z.shiftl_mul_pow2 by (done || lia). done. }
  apply wrap_small. unfold is_u in *. lia.
Qed.

(** The sixteen bits written for a float, by its fields. *)
Lemma float_to_half_fields s e m :
  0 ≤ s ≤ 1 → 0 ≤ e < 256 → 0 ≤ m < 2 ^ 23 →
  float_to_half (s * 2 ^ 31 + (e * 2 ^ 23 + m)) = s * 2 ^ 15 +
    (if e <=? 112 then if e <? 102 then 0 else (m + 2 ^ 23) / 2 ^ (126 - e)
     else if 143 <=? e then 31 * 2 ^ 10 else (e - 112) * 2 ^ 10 + m / 2 ^ 13).
Proof.
  intros Hs He Hm. destruct (float_fields s e m Hs He Hm) as (E1 & E2 & E3 & _).
  unfold float_to_half. rewrite E1, E2, E3.
  assert (u16 (s * 2 ^ 15) = s * 2 ^ 15) as -> by (apply wrap_small; unfold is_u; lia).
  destruct (Z.leb_spec e 112).
  - rewrite (proj2 (Z.leb_le _ 0)) by lia. destruct (Z.ltb_spec e 102).
    { rewrite (proj2 (Z.ltb_lt _ (-10))) by lia. lia. }
    rewrite (proj2 (Z.ltb_ge _ (-10))) by lia.
    assert (Z.lor m 8388608 = m + 2 ^ 23) as ->.
    { change 8388608 with (Z.shiftl 1 23). rewrite Z.lor_comm, lor_shiftl_add by (unfold is_u; lia). lia. }
    replace (1 - (e - 127 + 15) + 13) with (126 - e) by lia. rewrite Z.shiftr_div_pow2 by lia.
    apply lor_add_sign; [done|]. split.
    { apply Z.div_pos; [lia|apply Z.pow_pos_nonneg; lia]. }
    apply Z.div_lt_upper_bound; [apply Z.pow_pos_nonneg; lia|].
    apply Z.lt_le_trans with (2 ^ 14 * 2 ^ 15); [lia|].
    apply Z.mul_le_mono_nonneg_r; [lia|]. apply Z.pow_le_mono_r; lia.
  - rewrite (proj2 (Z.leb_gt _ 0)) by lia. destruct (Z.leb_spec 143 e).
    { rewrite (proj2 (Z.leb_le 31 _)) by lia. by apply lor_add_sign. }
    rewrite (proj2 (Z.leb_gt 31 _)) by lia. replace (e - 127 + 15) with (e - 112) by lia.
    rewrite Z.shiftr_div_pow2, <-Z.lor_assoc by lia.
    assert (0 ≤ m / 2 ^ 13 < 2 ^ 10) by (Z.to_euclidean_division_equations; lia).
    rewrite u32_small by (rewrite Z.shiftl_mul_pow2; lia).
    rewrite lor_shiftl_add by (unfold is_u; lia). apply lor_add_sign; [done|unfold is_u; lia].
Qed.

(** The fields of a half and the float read from it. *)
Lemma half_fields s e m :
  0 ≤ s ≤ 1 → 0 ≤ e < 32 → 0 ≤ m < 2 ^ 10 →
  let x := s * 2 ^ 15 + (e * 2 ^ 10 + m) in
  Z.land (Z.shiftr x 10) 0x1f = e ∧ Z.land x 0x3ff = m ∧
  Z.land x 0x8000 = s * 2 ^ 15 ∧ Z.testbit x 15 = (s =? 1).
Proof.
  intros Hs He Hm x. change 0x1f with (Z.ones 5). change 0x3ff with (Z.ones 10).
  rewrite !Z.land_ones, !Z.shiftr_div_pow2 by lia. unfold x. split_and!.
  - replace (_ + _) with ((s * 2 ^ 5 + e) * 2 ^ 10 + m) by lia.
    rewrite Z.div_add_l, (Z.div_small m), Z.add_0_r by lia.
    rewrite Z.add_comm, Z.mod_add, Z.mod_small by lia. done.
  - replace (_ + _) with (m + (s * 2 ^ 5 + e) * 2 ^ 10) by lia.
    rewrite Z.mod_add, Z.mod_small by lia. done.
  - change 0x8000 with (2 ^ 15). apply land_top_bit; [lia|lia|unfold is_u; lia].
  - destruct (Z.eqb_spec s 1) as [->|].
    + apply Z.testbit_true; [done|]. rewrite Z.div_add_l, Z.div_small by lia. done.
    + apply Z.testbit_false; [done|]. replace s with 0 by lia. rewrite Z.div_small by lia. done.
Qed.

Lemma half_split h :
  is_u 16 h → ∃ s e m, 0 ≤ s ≤ 1 ∧ 0 ≤ e < 32 ∧ 0 ≤ m < 2 ^ 10 ∧ h = s * 2 ^ 15 + (e * 2 ^ 10 + m).
Proof.
  intros Hh. unfold is_u in Hh. exists (h / 2 ^ 15), ((h / 2 ^ 10) `mod` 2 ^ 5), (h `mod` 2 ^ 10).
  Z.to_euclidean_division_equations; lia.
Qed.

Lemma assemble_float s e m :
  0 ≤ s ≤ 1 → 0 ≤ e < 256 → is_u 10 m →
  Z.lor (Z.lor (Z.shiftl (s * 2 ^ 15) 16) (u32 (Z.shiftl e 23))) (u32 (Z.shiftl m 13))
  = s * 2 ^ 31 + (e * 2 ^ 23 + m * 2 ^ 13).
Proof.
  intros Hs He Hm. unfold is_u in Hm.
  rewrite !u32_small by (rewrite Z.shiftl_mul_pow2; lia).
  rewrite <-Z.lor_assoc, (lor_shiftl_add e (Z.shiftl m 13) 23)
    by (unfold is_u; rewrite ?Z.shiftl_mul_pow2; lia).
  rewrite (Z.shiftl_mul_pow2 m 13) by lia.
  replace (Z.shiftl (s * 2 ^ 15) 16) with (Z.shiftl s 31) by (rewrite !Z.shiftl_mul_pow2; lia).
  rewrite lor_shiftl_add by (unfold is_u; lia). done.
Qed.

(** The normalisation of a subnormal mantissa, checked for each of them. *)
Definition normalize_ok (m : Z) : bool :=
  let '(x, y) := normalize 11 1 m in
  let e := u32 (x + 112) in
  let f := Z.land y 0x3ff in
  (103 <=? e) && (e <=? 112) && (f * 2 ^ 13 + 2 ^ 23 =? m * 2 ^ (126 - e)).

Lemma normalize_subnormal m :
  1 ≤ m < 2 ^ 10 →
  ∃ e f, 103 ≤ e ≤ 112 ∧ 0 ≤ f < 2 ^ 10 ∧ f * 2 ^ 13 + 2 ^ 23 = m * 2 ^ (126 - e) ∧
    let '(x, y) := normalize 11 1 m in u32 (x + 112) = e ∧ Z.land y 0x3ff = f.
Proof.
  intros Hm. assert (normalize_ok m = true) as Hok.
  { apply (check_from_spec normalize_ok 1023 1); [vm_compute; reflexivity|lia]. }
  unfold normalize_ok in Hok. destruct (normalize 11 1 m) as [x y].
  rewrite !andb_true_iff, !Z.leb_le, Z.eqb_eq in Hok. destruct Hok as [[H1 H2] H3].
  exists (u32 (x + 112)), (Z.land y 0x3ff). split_and!; try done.
  - change 0x3ff with (Z.ones 10). rewrite Z.land_ones by lia. apply Z.mod_pos_bound. lia.
  - change 0x3ff with (Z.ones 10). rewrite Z.land_ones by lia. apply Z.mod_pos_bound. lia.
Qed.

Lemma half_to_bits_fields s e m :
  0 ≤ s ≤ 1 → 0 ≤ e < 32 → 0 ≤ m < 2 ^ 10 →
  ∃ e' f, 0 ≤ e' < 256 ∧ 0 ≤ f < 2 ^ 10 ∧
    half_to_bits (s * 2 ^ 15 + (e * 2 ^ 10 + m)) = s * 2 ^ 31 + (e' * 2 ^ 23 + f * 2 ^ 13) ∧
    ((e = 0 ∧ m = 0 ∧ e' = 0 ∧ f = 0) ∨
     (e = 0 ∧ 103 ≤ e' ≤ 112 ∧ f * 2 ^ 13 + 2 ^ 23 = m * 2 ^ (126 - e')) ∨
     (1 ≤ e ≤ 30 ∧ e' = e + 112 ∧ f = m) ∨ (e = 31 ∧ e' = 255 ∧ f = m)).
Proof.
  intros Hs He Hm. destruct (half_fields s e m Hs He Hm) as (E1 & E2 & E3 & _).
  unfold half_to_bits. rewrite E1, E2, E3.
  destruct (Z.eqb_spec e 0) as [->|Hne].
  - destruct (Z.eqb_spec m 0) as [->|Hm0].
    + exists 0, 0. split_and!; try lia. rewrite Z.shiftl_mul_pow2; lia.
    + destruct (normalize_subnormal m) as (e' & f & He' & Hf & Heq & Hn); [lia|].
      destruct (normalize 11 1 m) as [x y]. destruct Hn as [Hx Hy]. rewrite Hx, Hy.
      exists e', f. split_and!; try lia. apply assemble_float; [lia|lia|done].
  - destruct (Z.eqb_spec e 31) as [->|H31].
    + exists 255, m. split_and!; try lia.
      replace 2139095040 with (u32 (Z.shiftl 255 23)) by done. by apply assemble_float.
    + exists (e + 112), m. split_and!; try lia.
      rewrite (u32_small (e + 112)) by lia. apply assemble_float; [lia|lia|done].
Qed.

Lemma half_magnitude_fields e m :
  0 ≤ e < 32 → 0 ≤ m < 2 ^ 10 →
  half_magnitude (e * 2 ^ 10 + m) =
    (if e =? 0 then m else (m + 2 ^ 10) * 2 ^ (e - 1)) * 2 ^ 125.
Proof.
  intros He Hm. unfold half_magnitude. change 0x1f with (Z.ones 5). change 0x3ff with (Z.ones 10).
  rewrite !Z.land_ones, !Z.shiftr_div_pow2 by lia.
  rewrite Z.div_add_l, (Z.div_small m), Z.add_0_r, (Z.mod_small e) by lia.
  rewrite (Z.add_comm (e * 2 ^ 10)), Z.mod_add, (Z.mod_small m) by lia. done.
Qed.

(** The next pattern is the next value, across a change of exponent too. *)
Lemma half_magnitude_next e m :
  0 ≤ e < 31 → 0 ≤ m < 2 ^ 10 →
  half_magnitude (e * 2 ^ 10 + m + 1) =
    (if e =? 0 then m + 1 else (m + 1 + 2 ^ 10) * 2 ^ (e - 1)) * 2 ^ 125.
Proof.
  intros He Hm. destruct (decide (m + 1 < 2 ^ 10)) as [Hlt|Hge].
  - rewrite <-Z.add_assoc, half_magnitude_fields by lia. done.
  - replace (e * 2 ^ 10 + m + 1) with ((e + 1) * 2 ^ 10 + 0) by lia.
    rewrite half_magnitude_fields by lia. replace m with (2 ^ 10 - 1) by lia.
    rewrite (proj2 (Z.eqb_neq (e + 1) 0)) by lia. destruct (Z.eqb_spec e 0) as [->|Hne]; [done|].
    f_equal. replace (e + 1 - 1) with (e - 1 + 1) by lia. rewrite Z.pow_add_r by lia. lia.
Qed.

(** ** Theorems *)

(** reading a half as a float is exact: every finite half becomes the float of
    the same magnitude and sign, subnormals included. *)
Theorem half_to_bits_exact (h : Z) :
  is_u 16 h → half_finite h = true →
  float_magnitude (half_to_bits h) = half_magnitude h ∧
  Z.testbit (half_to_bits h) 31 = Z.testbit h 15.
Proof.
  intros Hh Hf. destruct (half_split h Hh) as (s & e & m & Hs & He & Hm & ->).
  destruct (half_fields s e m Hs He Hm) as (E1 & E2 & _ & E4).
  unfold half_finite in Hf. rewrite E1 in Hf. apply negb_true_iff, Z.eqb_neq in Hf.
  destruct (half_to_bits_fields s e m Hs He Hm) as (e' & f & He' & Hf' & -> & Hcase).
  destruct (float_fields s e' (f * 2 ^ 13)) as (_ & _ & _ & F4); [lia..|].
  split; [|congruence]. rewrite float_magnitude_fields by lia.
  unfold half_magnitude. rewrite E1, E2.
  destruct Hcase as [(-> & -> & -> & ->)|[(-> & Hr & Heq)|[(Hr & -> & ->)|(-> & _)]]]; [done| | |lia].
  - rewrite (proj2 (Z.eqb_neq e' 0)) by lia. change (0 =? 0) with true. cbv iota.
    rewrite Heq. rewrite <-Z.mul_assoc, <-Z.pow_add_r by lia. do 2 f_equal. lia.
  - rewrite (proj2 (Z.eqb_neq (e + 112) 0)), (proj2 (Z.eqb_neq e 0)) by lia.
    replace (e + 112 - 1) with (e - 1 + 112) by lia. rewrite Z.pow_add_r by lia.
    replace (2 ^ 125) with (2 ^ 13 * 2 ^ 112) by done. ring.
Qed.

(** a half survives the way to a float and back: for every 16-bit pattern that
    is not a NaN, converting the float read from it gives the same pattern. *)
Theorem float_to_half_roundtrip (h : Z) :
  is_u 16 h → (half_finite h = true ∨ Z.land h 0x3ff = 0) →
  float_to_half (half_to_bits h) = h.
Proof.
  intros Hh Hf. destruct (half_split h Hh) as (s & e & m & Hs & He & Hm & ->).
  destruct (half_fields s e m Hs He Hm) as (E1 & E2 & _).
  unfold half_finite in Hf. rewrite E1, E2, negb_true_iff, Z.eqb_neq in Hf.
  destruct (half_to_bits_fields s e m Hs He Hm) as (e' & f & He' & Hf' & -> & Hcase).
  rewrite float_to_half_fields by lia. f_equal.
  destruct Hcase as [(-> & -> & -> & ->)|[(-> & Hr & Heq)|[(Hr & -> & ->)|(-> & -> & ->)]]]; [done|..].
  - rewrite (proj2 (Z.leb_le e' 112)), (proj2 (Z.ltb_ge e' 102)) by lia.
    rewrite Heq, Z.div_mul; [lia|]. apply Z.pow_nonzero; lia.
  - rewrite (proj2 (Z.leb_gt (e + 112) 112)), (proj2 (Z.leb_gt 143 (e + 112))) by lia.
    rewrite Z.div_mul by done. lia.
  - assert (m = 0) as -> by lia. done.
Qed.

(** writing a float as a half rounds toward zero: for every non-negative float
    below 2^16 the result is the largest half that does not exceed it. *)
Theorem float_to_half_truncates (e m : Z) :
  0 ≤ e < 143 → 0 ≤ m < 2 ^ 23 →
  let h := float_to_half (e * 2 ^ 23 + m) in
  is_u 15 h ∧ half_magnitude h ≤ float_magnitude (e * 2 ^ 23 + m) < half_magnitude (h + 1).
Proof.
  intros He Hm. cbv zeta. rewrite <-(Z.add_0_l (e * 2 ^ 23 + m)), <-(Z.mul_0_l (2 ^ 31)).
  rewrite float_to_half_fields, float_magnitude_fields by lia. rewrite Z.mul_0_l, Z.add_0_l.
  destruct (Z.leb_spec e 112); [destruct (Z.ltb_spec e 102)|].
  - split; [done|]. change (half_magnitude 0) with 0. change (half_magnitude (0 + 1)) with (2 ^ 125).
    destruct (Z.eqb_spec e 0); [lia|].
    pose proof (Z.pow_pos_nonneg 2 (e - 1) ltac:(lia) ltac:(lia)). split; [lia|].
    apply Z.lt_le_trans with (2 ^ 24 * 2 ^ (e - 1)); [apply Z.mul_lt_mono_pos_r; lia|].
    rewrite <-Z.pow_add_r by lia. apply Z.pow_le_mono_r; lia.
  - rewrite (proj2 (Z.eqb_neq e 0)) by lia. set (s := 126 - e). set (q := (m + 2 ^ 23) / 2 ^ s).
    pose proof (Z.pow_pos_nonneg 2 s ltac:(lia) ltac:(lia)) as Hps.
    pose proof (Z.pow_pos_nonneg 2 (e - 1) ltac:(lia) ltac:(lia)) as Hpe.
    pose proof (Z.div_mod (m + 2 ^ 23) (2 ^ s) ltac:(lia)) as Hdm. fold q in Hdm.
    pose proof (Z.mod_pos_bound (m + 2 ^ 23) (2 ^ s) Hps) as Hmod.
    assert (0 ≤ q < 2 ^ 10) as Hq.
    { split; [apply Z.div_pos; lia|]. apply Z.div_lt_upper_bound; [lia|].
      apply Z.lt_le_trans with (2 ^ 14 * 2 ^ 10); [lia|].
      apply Z.mul_le_mono_nonneg_r; [lia|]. apply Z.pow_le_mono_r; lia. }
    split; [unfold is_u; lia|].
    rewrite <-(Z.add_0_l q), <-(Z.mul_0_l (2 ^ 10)), half_magnitude_fields, half_magnitude_next by lia.
    change (0 =? 0) with true. cbv iota. replace 125 with (s + (e - 1)) by lia.
    rewrite Z.pow_add_r, !Z.mul_assoc by lia.
    split; [apply Z.mul_le_mono_nonneg_r; lia|apply Z.mul_lt_mono_pos_r; lia].
  - rewrite (proj2 (Z.leb_gt 143 e)), (proj2 (Z.eqb_neq e 0)) by lia.
    set (E := e - 112). set (q := m / 2 ^ 13).
    pose proof (Z.div_mod m (2 ^ 13) ltac:(lia)) as Hdm. fold q in Hdm.
    pose proof (Z.mod_pos_bound m (2 ^ 13) ltac:(lia)) as Hmod.
    assert (0 ≤ q < 2 ^ 10) as Hq by (unfold q; Z.to_euclidean_division_equations; lia).
    split; [unfold is_u; lia|]. rewrite half_magnitude_fields, half_magnitude_next by lia.
    rewrite (proj2 (Z.eqb_neq E 0)) by lia.
    replace (2 ^ (e - 1)) with (2 ^ (E - 1) * 2 ^ 112)
      by (rewrite <-Z.pow_add_r by lia; f_equal; lia).
    pose proof (Z.pow_pos_nonneg 2 (E - 1) ltac:(lia) ltac:(lia)) as HpE.
    replace (2 ^ 125) with (2 ^ 13 * 2 ^ 112) by done. set (P := 2 ^ (E - 1)) in *.
    rewrite !(Z.mul_shuffle1 _ P). split; [apply Z.mul_le_mono_nonneg_r; lia|apply Z.mul_lt_mono_pos_r; lia].
Qed.

(** a NaN is not written as a NaN: [float_to_half] maps every pattern whose
    exponent is all ones, NaN included, to the infinity of its sign. *)
Theorem float_to_half_nan (s m : Z) :
  0 ≤ s ≤ 1 → 0 ≤ m < 2 ^ 23 →
  float_to_half (s * 2 ^ 31 + (255 * 2 ^ 23 + m)) = s * 2 ^ 15 + 0x7c00.
Proof. intros Hs Hm. by rewrite float_to_half_fields by lia. Qed.

(** The float nearest to [k / n]. *)
Definition dequantize (k n : Z) : float32 := SFdiv 24 128 (float_of_int k) (float_of_int n).

(** the 8-bit and the top-aligned 10-bit quantisers invert dequantisation: the
    float nearest to k/255 is written as k, the float nearest to k/1023 as k shifted
    into the top ten bits. *)
Theorem unorm_roundtrip (k : Z) :
  (0 ≤ k ≤ 255 → float_to_unorm8 (dequantize k 255) = Ok k) ∧
  (0 ≤ k ≤ 1023 → float_to_unorm10_top_aligned (dequantize k 1023) = Ok (k * 64)).
Proof.
  split; intros Hk.
  - assert (Forall (λ k, float_to_unorm8 (dequantize k 255) = Ok k) (Z.of_nat <$> seq 0 256)) as Hall.
    { apply (bool_decide_unpack _). vm_compute. exact I. }
    rewrite Forall_forall in Hall. apply Hall. apply list_elem_of_fmap.
    exists (Z.to_nat k). split; [lia|]. apply elem_of_seq. lia.
  - assert (Forall (λ k, float_to_unorm10_top_aligned (dequantize k 1023) = Ok (k * 64))
      (Z.of_nat <$> seq 0 1024)) as Hall.
    { apply (bool_decide_unpack _). vm_compute. exact I. }
    rewrite Forall_forall in Hall. apply Hall. apply list_elem_of_fmap.
    exists (Z.to_nat k). split; [lia|]. apply elem_of_seq. lia.
Qed.

(** ** Witnesses *)

(** The smallest subnormal half. *)
Lemma half_to_bits_exact_witness : float_magnitude (half_to_bits 1) = half_magnitude 1.
Proof. apply (half_to_bits_exact 1); done. Defined.

Lemma float_to_half_roundtrip_witness : float_to_half (half_to_bits 0x3c00) = 0x3c00.
Proof. apply (float_to_half_roundtrip 0x3c00); [done|by left]. Defined.

(** One third. *)
Lemma float_to_half_truncates_witness :
  half_magnitude (float_to_half (125 * 2 ^ 23 + 2796203)) ≤ float_magnitude (125 * 2 ^ 23 + 2796203).
Proof. apply (float_to_half_truncates 125 2796203); done. Defined.

Lemma float_to_half_nan_witness : float_to_half (1 * 2 ^ 31 + (255 * 2 ^ 23 + 4194304)) = 0xfc00.
Proof. apply (float_to_half_nan 1 4194304); done. Defined.

Lemma unorm_roundtrip_witness : float_to_unorm8 (dequantize 77 255) = Ok 77.
Proof. apply (unorm_roundtrip 77); done. Defined.
