(* ===== verification/Float32.v ===== *)
(** * Bounds on binary32 rounding

    The DNG reader converts 32-bit integers to [float], divides them and casts
    the product with 1e9 back to a 64-bit integer, which is undefined when the
    product does not fit.  The lemmas here bound the results of [SpecFloat]'s
    correctly rounded operations at binary32: rounding to nearest never crosses
    a power of two ([round_below], [round_above]), so conversion ([of_int_below],
    [of_int_above]), quotient ([div_below]) and product ([mul_below]) inherit
    the bounds of the exact results. *)

From Stdlib Require Import ZArith Lia SpecFloat.
From stdpp Require Import prelude.
From S2P Require Import Prelude Core HalfFloat.

Local Open Scope Z_scope.

Local Abbreviation prec := 24.
Local Abbreviation emax := 128.

(** [static_cast<std::int64_t>(value)]: the truncated value, undefined when it
    is not a 64-bit integer. *)
Definition to_int64 (value : float32) : res Z :=
  match value with
  | S754_zero _ => Ok 0
  | S754_finite s m e =>
      let a := if 0 <=? e then Z.pos m * 2 ^ e else Z.pos m / 2 ^ (- e) in
      let z := if s then - a else a in
      if (- 2 ^ 63 <=? z) && (z <? 2 ^ 63) then Ok z else Undef
  | _ => Undef
  end.

(** [|x| <= 2^k]. *)
Definition below (k : Z) (x : float32) : Prop :=
  match x with
  | S754_zero _ => True
  | S754_finite _ m e => e ≤ k ∧ Z.pos m ≤ 2 ^ (k - e)
  | _ => False
  end.

(** [2^j <= |x|], for a finite [x]. *)
Definition above (j : Z) (x : float32) : Prop :=
  match x with
  | S754_finite _ m e => e ≤ j ∧ 2 ^ (j - e) ≤ Z.pos m
  | _ => False
  end.

(** ** Shifting right with guard bits *)

Definition inexact (r : shr_record) : bool := shr_r r || shr_s r.

(** The value of [r] at exponent [e] is at most [2^k]: the mantissa reaches it
    only without a remainder. *)
Definition rec_below (k e : Z) (r : shr_record) : Prop :=
  e ≤ k ∧ 0 ≤ shr_m r ≤ 2 ^ (k - e) ∧ (shr_m r = 2 ^ (k - e) → inexact r = false).

Definition rec_above (j e : Z) (r : shr_record) : Prop :=
  e ≤ j ∧ 2 ^ (j - e) ≤ shr_m r.

Lemma shr_1_spec r :
  0 ≤ shr_m r →
  shr_m (shr_1 r) = shr_m r / 2 ∧ inexact (shr_1 r) = Z.odd (shr_m r) || inexact r.
Proof.
  destruct r as [[|[p|p|]|p] r s]; unfold inexact; simpl; intros; try lia; split;
    try (by destruct r, s); Z.to_euclidean_division_equations; lia.
Qed.

Lemma pow2_split a b : b < a → 2 ^ (a - b) = 2 * 2 ^ (a - (b + 1)).
Proof. intros. rewrite <-Z.pow_succ_r by lia. f_equal; lia. Qed.

Lemma shr_1_below k e r : rec_below k e r → e < k → rec_below k (e + 1) (shr_1 r).
Proof.
  intros (He & Hm & Hx) Hlt. destruct (shr_1_spec r) as [Hm' Hx']; [lia|].
  unfold rec_below. rewrite Hm', Hx'. rewrite (pow2_split k e Hlt) in Hm, Hx.
  set (P := 2 ^ (k - (e + 1))) in *.
  split_and!; [lia|Z.to_euclidean_division_equations; lia..|].
  intros Heq. assert (shr_m r = 2 * P) as Hr by (Z.to_euclidean_division_equations; lia).
  rewrite (Hx Hr), Hr, Z.odd_mul. done.
Qed.

Lemma shr_1_above j e r : rec_above j e r → e < j → rec_above j (e + 1) (shr_1 r).
Proof.
  intros (He & Hm) Hlt. pose proof (Z.pow_pos_nonneg 2 (j - e)).
  destruct (shr_1_spec r) as [Hm' _]; [lia|].
  unfold rec_above. rewrite Hm'. rewrite (pow2_split j e Hlt) in Hm.
  split; [lia|]. Z.to_euclidean_division_equations; lia.
Qed.

(** A property that one shift preserves below [k] survives the shifts up to [k]. *)
Lemma shr_preserves (I : Z → shr_record → Prop) k r e n :
  (∀ e r, I e r → e < k → I (e + 1) (shr_1 r)) →
  I e r → e + n ≤ k → I (snd (shr r e n)) (fst (shr r e n)).
Proof.
  intros Hstep HI Hn. destruct n as [|p|p]; simpl; [done| |done].
  revert e r HI Hn. induction p as [p IH|p IH|]; intros e r HI Hn; simpl.
  - assert (I (e + 1) (shr_1 r)) as H1 by (apply Hstep; [done|lia]).
    apply IH in H1; [|lia]. apply IH in H1; [|lia].
    by replace (e + Z.pos p~1) with (e + 1 + Z.pos p + Z.pos p) by lia.
  - apply IH in HI; [|lia]. apply IH in HI; [|lia].
    by replace (e + Z.pos p~0) with (e + Z.pos p + Z.pos p) by lia.
  - apply Hstep; [done|lia].
Qed.

Lemma digits2_bounds p : 2 ^ (Z.pos (digits2_pos p) - 1) ≤ Z.pos p < 2 ^ Z.pos (digits2_pos p).
Proof.
  induction p as [p IH|p IH|]; simpl digits2_pos; [..|done].
  all: rewrite Pos2Z.inj_succ, Z.pow_succ_r by lia;
    replace (Z.succ (Z.pos (digits2_pos p)) - 1) with (Z.succ (Z.pos (digits2_pos p) - 1)) by lia;
    rewrite Z.pow_succ_r by lia; lia.
Qed.

Lemma Zdigits2_le m n : 0 ≤ n → 0 ≤ m ≤ 2 ^ n → Zdigits2 m ≤ n + 1.
Proof.
  intros Hn Hm. destruct m as [|p|]; simpl; [lia| |lia].
  destruct (digits2_bounds p) as [Hp _].
  apply Z.lt_succ_r, Z.nle_gt. intros Hc.
  assert (2 ^ Z.succ n ≤ 2 ^ (Z.pos (digits2_pos p) - 1)) by (apply Z.pow_le_mono_r; lia).
  rewrite Z.pow_succ_r in *; lia.
Qed.

Lemma fexp_le m e k : -125 ≤ k → m ≤ k + 1 - e → fexp prec emax (m + e) ≤ k.
Proof. unfold fexp, emin. lia. Qed.

Lemma shr_fexp_below k m e l :
  -125 ≤ k → rec_below k e (shr_record_of_loc m l) →
  rec_below k (snd (shr_fexp prec emax m e l)) (fst (shr_fexp prec emax m e l)).
Proof.
  intros Hk H. assert (shr_m (shr_record_of_loc m l) = m) as Hm by by destruct l as [|[]].
  apply (shr_preserves (rec_below k) k); [apply shr_1_below|done|].
  destruct H as (He & Hb & _). rewrite Hm in Hb.
  pose proof (Zdigits2_le m (k - e) ltac:(lia) Hb).
  pose proof (fexp_le (Zdigits2 m) e k Hk ltac:(lia)). lia.
Qed.

Lemma round_below_Z k e r :
  rec_below k e r →
  rec_below k e (shr_record_of_loc (round_nearest_even (shr_m r) (loc_of_shr_record r)) loc_Exact).
Proof.
  destruct r as [m [] []]; unfold rec_below, inexact; simpl;
    intros (He & Hm & Hx); split_and!; try done; try lia.
  all: try destruct (Z.even m); try lia.
  all: assert (m ≠ 2 ^ (k - e)) by (intros Heq; by specialize (Hx Heq)); lia.
Qed.

(** Rounding to nearest does not exceed a power of two. *)
Lemma round_below k s m e l :
  -125 ≤ k ≤ 104 → rec_below k e (shr_record_of_loc m l) →
  below k (binary_round_aux prec emax s m e l).
Proof.
  intros Hk H. unfold binary_round_aux.
  apply shr_fexp_below in H; [|lia]. destruct (shr_fexp _ _ m e l) as [r e']. simpl in H.
  apply round_below_Z, shr_fexp_below in H; [|lia].
  destruct (shr_fexp _ _ _ e' loc_Exact) as [r' e'']. simpl in H. destruct H as (He & Hm & _).
  destruct (shr_m r') as [|p|p]; simpl; [done| |lia].
  rewrite (proj2 (Z.leb_le e'' _)) by lia. simpl. lia.
Qed.

(** ** The same for lower bounds *)

Lemma shr_fexp_above j m e l :
  -125 ≤ j → Zdigits2 m + e ≤ j + 24 → rec_above j e (shr_record_of_loc m l) →
  rec_above j (snd (shr_fexp prec emax m e l)) (fst (shr_fexp prec emax m e l)).
Proof.
  intros Hj Hd H. apply (shr_preserves (rec_above j) j); [apply shr_1_above|done|].
  destruct H as (He & _). unfold fexp, emin. lia.
Qed.

Lemma round_above_Z j e r :
  rec_above j e r →
  rec_above j e (shr_record_of_loc (round_nearest_even (shr_m r) (loc_of_shr_record r)) loc_Exact).
Proof.
  destruct r as [m [] []]; unfold rec_above; simpl; intros (He & Hm); split; try done;
    try destruct (Z.even m); lia.
Qed.

(** An exact value in [[2^j, 2^(j+1)]] is rounded to a float of at least [2^j]. *)
Lemma round_above j s m e :
  -125 ≤ j ≤ 103 → e ≤ j → 2 ^ (j - e) ≤ m ≤ 2 ^ (j + 1 - e) →
  above j (binary_round_aux prec emax s m e loc_Exact).
Proof.
  intros Hj He Hm. pose proof (Z.pow_pos_nonneg 2 (j - e)).
  assert (rec_below (j + 1) e (shr_record_of_loc m loc_Exact)) as Hb
    by (split_and!; simpl; [lia..|done]).
  assert (rec_above j e (shr_record_of_loc m loc_Exact)) as Ha by (split; simpl; lia).
  unfold binary_round_aux.
  apply shr_fexp_above in Ha; [|lia|].
  2: { pose proof (Zdigits2_le m (j + 1 - e) ltac:(lia) ltac:(lia)). lia. }
  apply shr_fexp_below in Hb; [|lia].
  destruct (shr_fexp _ _ m e loc_Exact) as [r e']. simpl in Ha, Hb.
  apply round_above_Z in Ha. apply round_below_Z in Hb.
  set (m' := round_nearest_even _ _) in *.
  apply shr_fexp_above in Ha; [|lia|].
  2: { destruct Hb as (? & Hb & _). simpl in Hb.
       pose proof (Zdigits2_le m' (j + 1 - e') ltac:(lia) Hb). lia. }
  destruct (shr_fexp _ _ m' e' loc_Exact) as [r' e'']. destruct Ha as (Ha1 & Ha2). simpl in *.
  pose proof (Z.pow_pos_nonneg 2 (j - e'')).
  destruct (shr_m r') as [|p|p]; [lia| |lia].
  rewrite (proj2 (Z.leb_le e'' _)) by lia. simpl. lia.
Qed.

(** ** Conversion, quotient, product *)

Lemma Pos_iter_xO m d : Z.pos (Pos.iter xO m d) = Z.pos m * 2 ^ Z.pos d.
Proof.
  induction d as [|d IH] using Pos.peano_ind; [simpl; lia|].
  rewrite Pos.iter_succ, Pos2Z.inj_xO, IH, Pos2Z.inj_succ, Z.pow_succ_r by lia. lia.
Qed.

(** Aligning an integer to the left keeps its value. *)
Lemma shl_align_spec m e' :
  ∃ d, 0 ≤ d ∧ snd (shl_align m 0 e') = - d ∧ Z.pos (fst (shl_align m 0 e')) = Z.pos m * 2 ^ d.
Proof.
  unfold shl_align. rewrite Z.sub_0_r. destruct e' as [|p|p]; simpl.
  - exists 0. lia.
  - exists 0. lia.
  - exists (Z.pos p). rewrite Pos_iter_xO. split_and!; lia.
Qed.

Lemma binary_round_int s m :
  ∃ d, 0 ≤ d ∧ binary_round prec emax s m 0 =
    binary_round_aux prec emax s (Z.pos m * 2 ^ d) (- d) loc_Exact.
Proof.
  unfold binary_round.
  destruct (shl_align_spec m (fexp prec emax (Z.pos (digits2_pos m) + 0))) as (d & Hd & H1 & H2).
  destruct (shl_align _ _ _) as [mz ez]. simpl in H1, H2. exists d. by rewrite H2, H1.
Qed.

(** [static_cast<float>] of an integer of at most [k] bits. *)
Lemma of_int_below k z : 0 ≤ k ≤ 104 → - 2 ^ k ≤ z ≤ 2 ^ k → below k (float_of_int z).
Proof.
  intros Hk Hz. assert (∀ s m, Z.pos m ≤ 2 ^ k → below k (binary_round prec emax s m 0)) as H.
  { intros s m Hm. destruct (binary_round_int s m) as (d & Hd & ->).
    apply round_below; [lia|]. split_and!; simpl; [lia..| |done].
    replace (k - - d) with (k + d) by lia. rewrite Z.pow_add_r by lia.
    apply Z.mul_le_mono_nonneg_r; [|done]. pose proof (Z.pow_pos_nonneg 2 d). lia. }
  destruct z as [|p|p]; simpl; [done|apply H; lia..].
Qed.

Lemma of_int_above k z :
  k ≤ 103 → z ≠ 0 → - 2 ^ k ≤ z ≤ 2 ^ k → ∃ j, 0 ≤ j ∧ above j (float_of_int z).
Proof.
  intros Hk Hz Hb.
  assert (∀ s m, Z.pos m ≤ 2 ^ k → ∃ j, 0 ≤ j ∧ above j (binary_round prec emax s m 0)) as H.
  { intros s m Hm. destruct (digits2_bounds m) as [Hlo Hhi].
    set (j := Z.pos (digits2_pos m) - 1) in *. exists j. split; [lia|].
    assert (j ≤ k).
    { apply Z.nlt_ge. intros Hlt. assert (2 ^ k < 2 ^ j) by (apply Z.pow_lt_mono_r; lia). lia. }
    destruct (binary_round_int s m) as (d & Hd & ->).
    pose proof (Z.pow_pos_nonneg 2 d ltac:(lia) Hd).
    apply round_above; [lia..|].
    replace (j - - d) with (j + d) by lia. replace (j + 1 - - d) with (j + 1 + d) by lia.
    rewrite !(Z.pow_add_r 2 _ d) by lia.
    replace (Z.pos (digits2_pos m)) with (j + 1) in Hhi by lia.
    split; apply Z.mul_le_mono_nonneg_r; lia. }
  destruct z as [|p|p]; simpl; [done|apply H; lia..].
Qed.

Lemma new_location_exact n r :
  new_location n r = loc_Exact ∨ r ≠ 0.
Proof.
  unfold new_location, new_location_even, new_location_odd.
  destruct (Z.eqb_spec r 0) as [->|]; [left; by destruct (Z.even n)|by right].
Qed.

(** The quotient by a divisor of magnitude at least 1. *)
Lemma div_core_below k m1 e1 m2 e2 :
  0 ≤ k → e1 ≤ k → 0 < m1 ≤ 2 ^ (k - e1) → 0 < m2 → (e2 ≤ 0 → 2 ^ (- e2) ≤ m2) →
  match SFdiv_core_binary prec emax m1 e1 m2 e2 with
  | (q, e', l) => rec_below k e' (shr_record_of_loc q l)
  end.
Proof.
  intros Hk He1 Hm1 Hm2 Hm2'. unfold SFdiv_core_binary.
  set (e' := Z.min _ _). set (s := e1 - e2 - e').
  assert (0 ≤ s) as Hs by lia.
  assert (match s with 0 => m1 | Z.pos _ => Z.shiftl m1 s | Z.neg _ => 0 end = m1 * 2 ^ s) as ->.
  { destruct s; [lia|by rewrite Z.shiftl_mul_pow2|lia]. }
  assert (e' ≤ k) as He'.
  { assert (Zdigits2 m1 ≤ k - e1 + 1) by (apply Zdigits2_le; lia).
    assert (1 ≤ Zdigits2 m2 + e2 ∨ 1 ≤ e2).
    { destruct (decide (1 ≤ e2)); [by right|left]. specialize (Hm2' ltac:(lia)).
      destruct m2 as [|p|p]; [lia| |lia]. simpl. pose proof (digits2_bounds p) as [_ Hp].
      assert (- e2 < Z.pos (digits2_pos p)); [|lia].
      apply (Z.pow_lt_mono_r_iff 2); lia. }
    assert (0 ≤ Zdigits2 m2) by (destruct m2; simpl; lia).
    unfold e', fexp, emin. lia. }
  assert (m1 * 2 ^ s ≤ 2 ^ (k - e' - e2)) as HM.
  { replace (k - e' - e2) with (k - e1 + s) by lia. rewrite Z.pow_add_r by lia.
    apply Z.mul_le_mono_nonneg_r; [apply Z.pow_nonneg|]; lia. }
  assert (0 ≤ m1 * 2 ^ s) by (apply Z.mul_nonneg_nonneg; [|apply Z.pow_nonneg]; lia).
  pose proof (Z_div_mod (m1 * 2 ^ s) m2 ltac:(lia)) as Hdm.
  destruct (Z.div_eucl _ _) as [q r]. destruct Hdm as [Hq Hr].
  set (M := m1 * 2 ^ s) in *. assert (0 ≤ q) by nia.
  pose proof (Z.pow_pos_nonneg 2 (k - e') ltac:(lia) ltac:(lia)).
  assert (q * m2 ≤ 2 ^ (k - e') * m2 ∧ (q = 2 ^ (k - e') → r = 0)) as [Hqm Hr0].
  { destruct (decide (e2 ≤ 0)) as [Hn|Hn].
    - specialize (Hm2' Hn). replace (k - e' - e2) with (k - e' + - e2) in HM by lia.
      rewrite Z.pow_add_r in HM by lia. split; [nia|intros ->; nia].
    - assert (2 ^ (k - e' - e2) < 2 ^ (k - e')) by (apply Z.pow_lt_mono_r; lia).
      split; [nia|intros ->; nia]. }
  assert (shr_m (shr_record_of_loc q (new_location m2 r)) = q) as Hsq
    by by destruct (new_location m2 r) as [|[]].
  split_and!; rewrite ?Hsq; [lia..|nia|].
  intros Heq. destruct (new_location_exact m2 r) as [->|Hr1]; [done|]. by apply Hr0 in Heq.
Qed.

Lemma div_below k x y j :
  0 ≤ k ≤ 104 → 0 ≤ j → below k x → above j y → below k (SFdiv prec emax x y).
Proof.
  intros Hk Hj Hx Hy. destruct y as [| | |sy my ey]; try done.
  destruct x as [sx| | |sx mx ex]; simpl in Hx, Hy; try done. destruct Hx as [He Hm].
  pose proof (div_core_below k (Z.pos mx) ex (Z.pos my) ey ltac:(lia) ltac:(lia) ltac:(lia)
    ltac:(lia)) as H. simpl.
  destruct (SFdiv_core_binary _ _ _ _ _ _) as [[q e'] l].
  apply round_below; [lia|]. apply H. intros Hn. destruct Hy as [_ Hy].
  assert (2 ^ (- ey) ≤ 2 ^ (j - ey)) by (apply Z.pow_le_mono_r; lia). lia.
Qed.

Lemma mul_below k1 k2 x y :
  -125 ≤ k1 + k2 ≤ 104 → below k1 x → below k2 y → below (k1 + k2) (SFmul prec emax x y).
Proof.
  intros Hk Hx Hy. destruct x as [| | |sx mx ex], y as [| | |sy my ey]; simpl in *; try done.
  apply round_below; [lia|]. split_and!; simpl; [lia..| |done].
  replace (k1 + k2 - (ex + ey)) with ((k1 - ex) + (k2 - ey)) by lia.
  rewrite Pos2Z.inj_mul, Z.pow_add_r by lia. apply Z.mul_le_mono_nonneg; lia.
Qed.

(** A float of magnitude at most [2^62] converts. *)
Lemma to_int64_below x : below 62 x → ∃ z, to_int64 x = Ok z ∧ - 2 ^ 62 ≤ z ≤ 2 ^ 62.
Proof.
  destruct x as [s| | |s m e]; simpl; try done; [intros _; exists 0; split; [done|lia]|].
  intros [He Hm]. set (a := if 0 <=? e then _ else _).
  assert (0 ≤ a ≤ 2 ^ 62) as Ha.
  { unfold a. destruct (Z.leb_spec 0 e).
    - pose proof (Z.pow_pos_nonneg 2 e). split; [lia|].
      replace 62 with (62 - e + e) by lia. rewrite Z.pow_add_r by lia.
      apply Z.mul_le_mono_nonneg_r; lia.
    - pose proof (Z.pow_pos_nonneg 2 (- e)). split; [apply Z.div_pos; lia|].
      apply Z.div_le_upper_bound; [lia|]. rewrite Z.mul_comm, <-Z.pow_add_r by lia.
      by replace (62 + - e) with (62 - e) by lia. }
  rewrite (proj2 (Z.leb_le _ _)), (proj2 (Z.ltb_lt _ _)) by (destruct s; lia).
  simpl. eexists. split; [done|]. destruct s; lia.
Qed.
