(* ===== verification/DngParser.v ===== *)
(** * The TIFF/DNG metadata parser

    Models src/cpipe/ingest/dng_opcode/OpcodeListParser.cpp: the little-endian
    reads, the IFD table ([read_entries], [copy_ifd_bytes]), the typed views of
    an entry's data, and [parse] with every tag it looks up, in the order of the
    source.  Offsets computed in [std::uint32_t] wrap; a read outside the file
    is [Undef]; the cast of the exposure time to 64 bits is undefined when it
    does not fit ([to_int64] of Float32).  The file's contents are the argument,
    [None] when it does not open.

    [parse_dng_safe]: the parser returns a result on every file whose IFD offsets
    lie below 2^32 - 2; [parse_wrapping_ifd] shows that the two excluded values
    make it read outside the file.  [parse_ok_metadata] gives what an accepted
    file has and [read_entries_roundtrip] that the table reader inverts the TIFF
    layout; DngRoundtrip writes whole files and reads them back. *)

From Stdlib Require Import ZArith Lia SpecFloat Ascii String.
From stdpp Require Import prelude strings list.
From S2P Require Import Prelude Core HalfFloat Float32.

Local Open Scope Z_scope.

Definition kTiffMagic : Z := 42.
Definition kTypeByte : Z := 1.
Definition kTypeAscii : Z := 2.
Definition kTypeShort : Z := 3.
Definition kTypeLong : Z := 4.
Definition kTypeRational : Z := 5.
Definition kTypeUndefined : Z := 7.
Definition kTypeSRational : Z := 10.

Definition kTagXmp : Z := 700.
Definition kTagImageWidth : Z := 256.
Definition kTagImageLength : Z := 257.
Definition kTagBitsPerSample : Z := 258.
Definition kTagCompression : Z := 259.
Definition kTagPhotometricInterpretation : Z := 262.
Definition kTagMake : Z := 271.
Definition kTagModel : Z := 272.
Definition kTagStripOffsets : Z := 273.
Definition kTagOrientation : Z := 274.
Definition kTagSamplesPerPixel : Z := 277.
Definition kTagStripByteCounts : Z := 279.
Definition kTagExifIFD : Z := 34665.
Definition kTagIsoSpeedRatings : Z := 34855.
Definition kTagIccProfile : Z := 34675.
Definition kTagExposureTime : Z := 33434.
Definition kTagFNumber : Z := 33437.
Definition kTagFocalLength : Z := 37386.
Definition kTagCfaRepeatPatternDim : Z := 33421.
Definition kTagCfaPattern : Z := 33422.
Definition kTagLinearizationTable : Z := 50712.
Definition kTagBlackLevel : Z := 50714.
Definition kTagWhiteLevel : Z := 50717.
Definition kTagColorMatrix1 : Z := 50721.
Definition kTagColorMatrix2 : Z := 50722.
Definition kTagAsShotNeutral : Z := 50728.
Definition kTagCalibrationIlluminant1 : Z := 50778.
Definition kTagCalibrationIlluminant2 : Z := 50779.
Definition kTagActiveArea : Z := 50829.
Definition kTagForwardMatrix1 : Z := 50964.
Definition kTagForwardMatrix2 : Z := 50965.
Definition kTagOpcodeList1 : Z := 51008.
Definition kTagOpcodeList2 : Z := 51009.
Definition kTagOpcodeList3 : Z := 51022.

Definition kCompressionNone : Z := 1.
Definition kPhotometricCfa : Z := 32803.

Record Entry : Type := mkEntry {
  e_tag : Z;
  e_type : Z;
  e_count : Z;
  e_value_or_offset : Z
}.

(** ** Reads *)

Definition read_u16 (bs : bytes) (offset : Z) : res Z :=
  b0 ← byte_at bs offset;
  b1 ← byte_at bs (offset + 1);
  Ok (u16 (Z.lor b0 (Z.shiftl b1 8))).

Definition read_u32 (bs : bytes) (offset : Z) : res Z :=
  lo ← read_u16 bs offset;
  hi ← read_u16 bs (offset + 2);
  Ok (Z.lor lo (Z.shiftl hi 16)).

Definition read_i32 (bs : bytes) (offset : Z) : res Z :=
  v ← read_u32 bs offset; Ok (i32 v).

Definition type_size (type : Z) : Z :=
  if (type =? kTypeByte) || (type =? kTypeAscii) || (type =? kTypeUndefined) then 1
  else if type =? kTypeShort then 2
  else if type =? kTypeLong then 4
  else if (type =? kTypeRational) || (type =? kTypeSRational) then 8
  else 0.

(** [std::copy_n(bytes.begin() + offset, n, ...)]: undefined past the end. *)
Definition copy_n (bs : bytes) (offset n : Z) : res bytes :=
  if offset + n <=? len bs then Ok (subspan bs offset n) else Undef.

Definition entry_data (bs : bytes) (entry : Entry) : res bytes :=
  let item_size := type_size (e_type entry) in
  let byte_count := u64 (e_count entry * item_size) in
  if (item_size =? 0) || (byte_count =? 0) || (len bs <? byte_count) then Ok [] else
  if byte_count <=? 4 then
    Ok ((λ i, Z.land (Z.shiftr (e_value_or_offset entry) (8 * Z.of_nat i)) 255)
          <$> seq 0 (Z.to_nat byte_count))
  else if (len bs <? e_value_or_offset entry) || (len bs - e_value_or_offset entry <? byte_count)
  then Ok []
  else copy_n bs (e_value_or_offset entry) byte_count.

Fixpoint find_entry (entries : list Entry) (tag : Z) : option Entry :=
  match entries with
  | [] => None
  | e :: l => if e_tag e =? tag then Some e else find_entry l tag
  end.

(** The entry at [offset] of the table: its offsets are 32-bit sums. *)
Definition read_entry (bs : bytes) (offset : Z) : res Entry :=
  tag ← read_u16 bs offset;
  type ← read_u16 bs (u32 (offset + 2));
  count ← read_u32 bs (u32 (offset + 4));
  value_or_offset ← read_u32 bs (u32 (offset + 8));
  Ok (mkEntry tag type count value_or_offset).

(** [for (i = 0; i < entry_count; ++i)] of [read_entries], from [i] on. *)
Fixpoint read_entry_loop (n : nat) (bs : bytes) (entries_offset i : Z) : res (list Entry) :=
  match n with
  | O => Ok []
  | S n' =>
      e ← read_entry bs (u32 (entries_offset + u32 (i * 12)));
      l ← read_entry_loop n' bs entries_offset (i + 1);
      Ok (e :: l)
  end.

Definition read_entries (bs : bytes) (ifd_offset : Z) : res (option (list Entry)) :=
  if len bs <? u32 (ifd_offset + 2) then Ok None else
  entry_count ← read_u16 bs ifd_offset;
  let entries_offset := u32 (ifd_offset + 2) in
  if len bs <? u64 (entries_offset + entry_count * 12) then Ok None else
  l ← read_entry_loop (Z.to_nat entry_count) bs entries_offset 0;
  Ok (Some l).

Definition copy_ifd_bytes (bs : bytes) (ifd_offset : Z) : res bytes :=
  if len bs <? u32 (ifd_offset + 2) then Ok [] else
  entry_count ← read_u16 bs ifd_offset;
  let byte_count := 2 + entry_count * 12 + 4 in
  if (len bs <? byte_count) || (len bs - byte_count <? ifd_offset) then Ok []
  else copy_n bs ifd_offset byte_count.

(** ** Typed views of an entry *)

Definition first_u32 (bs : bytes) (entry : Entry) : res Z :=
  data ← entry_data bs entry;
  if len data =? 0 then Ok 0 else
  if (e_type entry =? kTypeShort) && (2 <=? len data) then read_u16 data 0 else
  if (e_type entry =? kTypeLong) && (4 <=? len data) then read_u32 data 0 else
  if e_type entry =? kTypeByte then byte_at data 0
  else Ok 0.

(** [count] reads at [0, width, 2 * width, ...] of the data. *)
Fixpoint read_array {A} (f : Z → res A) (n : nat) (i : Z) : res (list A) :=
  match n with
  | O => Ok []
  | S n' => x ← f i; l ← read_array f n' (i + 1); Ok (x :: l)
  end.

Definition u32_values (bs : bytes) (entry : Entry) : res (list Z) :=
  data ← entry_data bs entry;
  let count := e_count entry in
  if len data =? 0 then Ok [] else
  if (e_type entry =? kTypeByte) && (count <=? len data)
  then read_array (λ i, byte_at data i) (Z.to_nat count) 0 else
  if (e_type entry =? kTypeShort) && (u64 (count * 2) <=? len data)
  then read_array (λ i, read_u16 data (i * 2)) (Z.to_nat count) 0 else
  if (e_type entry =? kTypeLong) && (u64 (count * 4) <=? len data)
  then read_array (λ i, read_u32 data (i * 4)) (Z.to_nat count) 0
  else Ok [].

Definition shorts (bs : bytes) (entry : Entry) : res (list Z) :=
  values ← u32_values bs entry;
  if negb (e_type entry =? kTypeShort) then Ok [] else Ok (map u16 values).

(** Element [i] of a rational entry: its offset is a 32-bit product. *)
Definition read_rational (data : bytes) (type i : Z) : res float32 :=
  let offset := u32 (i * 8) in
  let read := if type =? kTypeRational then read_u32 data else read_i32 data in
  d ← read (u32 (offset + 4));
  let denominator := float_of_int d in
  if SFeqb denominator f_zero then Ok f_zero else
  n ← read offset;
  Ok (SFdiv 24 128 (float_of_int n) denominator).

Definition numeric_values (bs : bytes) (entry : Entry) : res (list float32) :=
  data ← entry_data bs entry;
  let type := e_type entry in
  if len data =? 0 then Ok [] else
  if (type =? kTypeByte) || (type =? kTypeShort) || (type =? kTypeLong) then
    values ← u32_values bs entry; Ok (map float_of_int values)
  else
    if negb ((type =? kTypeRational) || (type =? kTypeSRational)) ||
       (len data <? u64 (e_count entry * 8)) then Ok []
    else read_array (read_rational data type) (Z.to_nat (e_count entry)) 0.

(** The characters before the first NUL. *)
Fixpoint chars (data : bytes) : string :=
  match data with
  | [] => EmptyString
  | b :: l => if b =? 0 then EmptyString else String (ascii_of_N (Z.to_N b)) (chars l)
  end.

Definition ascii (bs : bytes) (entry : Entry) : res string :=
  data ← entry_data bs entry;
  if negb (e_type entry =? kTypeAscii) || (len data =? 0) then Ok EmptyString
  else Ok (chars data).

Definition blob (bs : bytes) (entry : Entry) : res bytes := entry_data bs entry.

(** Overwrite the first elements of a fixed-size array: as many as both have. *)
Definition copy_prefix {A} (array values : list A) : list A :=
  take (length array) values ++ drop (length values) array.

Definition matrix3 (bs : bytes) (entry : Entry) : res Matrix3 :=
  values ← numeric_values bs entry; Ok (copy_prefix (replicate 9 f_zero) values).

(** [if (const auto entry = find_entry(entries, tag)) x = f(entry)]. *)
Definition with_entry {A} (entries : list Entry) (tag : Z) (x : A) (f : Entry → res A) : res A :=
  match find_entry entries tag with Some e => f e | None => Ok x end.

Definition first_numeric (bs : bytes) (x : float32) (entry : Entry) : res float32 :=
  values ← numeric_values bs entry; Ok (default x (head values)).

(** [1'000'000'000.0F]. *)
Definition f_1e9 : float32 := float_of_int 1000000000.

Definition apply_capture_entries (bs : bytes) (entries : list Entry) (c : CaptureBlock)
  : res CaptureBlock :=
  exposure ← with_entry entries kTagExposureTime (exposure_time_ns c) (λ e,
    values ← numeric_values bs e;
    match values with
    | [] => Ok (exposure_time_ns c)
    | v :: _ => to_int64 (SFmul 24 128 v f_1e9)
    end);
  speed ← with_entry entries kTagIsoSpeedRatings (iso c) (λ e, v ← first_u32 bs e; Ok (i32 v));
  aperture ← with_entry entries kTagFNumber (lens_aperture c) (first_numeric bs (lens_aperture c));
  focal ← with_entry entries kTagFocalLength (lens_focal_length_mm c)
    (first_numeric bs (lens_focal_length_mm c));
  Ok (mkCapture (sensor_timestamp_ns c) exposure speed focal aperture (lens_focus_distance_d c)
        (as_shot_neutral c) (orientation c) (camera_id c) (physical_camera_id c)
        (burst_index c) (burst_size c)).

(** ** The parser *)

Record ParsedDngMetadata : Type := mkParsed {
  d_width : Z;
  d_height : Z;
  d_bits_per_sample : Z;
  d_strip_offset : Z;
  d_strip_byte_count : Z;
  d_calibration : CalibrationBlock;
  d_capture : CaptureBlock;
  d_active_area : option Rect2u;
  d_make : string;
  d_model : string;
  d_linearization_table : list Z;
  d_exif_blob : bytes;
  d_xmp_blob : bytes;
  d_icc_blob : bytes;
  d_opcode_list_1 : bytes;
  d_opcode_list_2 : bytes;
  d_opcode_list_3 : bytes
}.

Definition default_parsed : ParsedDngMetadata :=
  mkParsed 0 0 0 0 0 default_calibration default_capture None "" "" [] [] [] [] [] [] [].

Record ParseResult : Type := mkResult {
  pr_status : cpipe_status_t;
  pr_metadata : ParsedDngMetadata;
  pr_message : string
}.

Definition failed (message : string) : ParseResult := mkResult CPIPE_FAILED default_parsed message.

(** [bytes.size() < 8 || bytes[0] != 'I' || ...], left to right. *)
Definition bad_header (bs : bytes) : res bool :=
  if len bs <? 8 then Ok true else
  b0 ← byte_at bs 0;
  if negb (b0 =? 73) then Ok true else
  b1 ← byte_at bs 1;
  if negb (b1 =? 73) then Ok true else
  magic ← read_u16 bs 2;
  Ok (negb (magic =? kTiffMagic)).

Definition first_or (bs : bytes) (entries : list Entry) (tag fallback : Z) : res Z :=
  with_entry entries tag fallback (first_u32 bs).

(** Image size, strip, orientation, white level, illuminants, capture block and
    camera names: the assignments to [out] before the CFA is looked up. *)
Definition read_fields (bs : bytes) (entries : list Entry) : res ParsedDngMetadata :=
  let cap := default_capture in
  let cal := default_calibration in
  width ← first_or bs entries kTagImageWidth 0;
  height ← first_or bs entries kTagImageLength 0;
  bits ← first_or bs entries kTagBitsPerSample 0;
  strip_offset ← first_or bs entries kTagStripOffsets 0;
  strip_byte_count ← first_or bs entries kTagStripByteCounts 0;
  orient ← first_or bs entries kTagOrientation (orientation cap);
  white ← first_or bs entries kTagWhiteLevel (white_level cal);
  illum1 ← first_or bs entries kTagCalibrationIlluminant1 (calibration_illuminant1 cal);
  illum2 ← first_or bs entries kTagCalibrationIlluminant2 (calibration_illuminant2 cal);
  cap ← apply_capture_entries bs entries (capture_with_orientation cap (u8 orient));
  make ← with_entry entries kTagMake "" (ascii bs);
  model ← with_entry entries kTagModel "" (ascii bs);
  let cap := mkCapture (sensor_timestamp_ns cap) (exposure_time_ns cap) (iso cap)
    (lens_focal_length_mm cap) (lens_aperture cap) (lens_focus_distance_d cap)
    (as_shot_neutral cap) (orientation cap) make model (burst_index cap) (burst_size cap) in
  let cal := mkCalibration (cfa cal) (black_level cal) white (linearization_table cal)
    (color_matrix1 cal) (color_matrix2 cal) (forward_matrix1 cal) (forward_matrix2 cal)
    (camera_calibration1 cal) (camera_calibration2 cal) (u16 illum1) (u16 illum2)
    (noise_profile cal) (lens_distortion cal) (lens_intrinsic cal) in
  Ok (mkParsed width height (u16 bits) strip_offset strip_byte_count cal cap None make model
        [] [] [] [] [] [] []).

(** The CFA descriptor, or the message of the early return. *)
Definition read_cfa (bs : bytes) (entries : list Entry) : res (string + CFADescriptor) :=
  match find_entry entries kTagCfaRepeatPatternDim with
  | None => Ok (inl "DNG is missing CFARepeatPatternDim")
  | Some entry =>
      repeat_values ← shorts bs entry;
      match repeat_values with
      | [r0; r1] =>
          if (r0 =? r1) && ((r0 =? 2) || (r0 =? 4)) then
            match find_entry entries kTagCfaPattern with
            | None => Ok (inl "DNG is missing a supported CFA pattern")
            | Some entry =>
                data ← entry_data bs entry;
                let expected_count := u8 r0 * u8 r1 in
                if (len data =? expected_count) && (expected_count <=? 16)
                then Ok (inr (mkCFA [u8 r0; u8 r1] (copy_prefix (pattern default_cfa) data)))
                else Ok (inl "DNG is missing a supported CFA pattern")
            end
          else Ok (inl "only 2x2 Bayer or 4x4 Quad Bayer DNG is supported")
      | _ => Ok (inl "only 2x2 Bayer or 4x4 Quad Bayer DNG is supported")
      end
  end.

Definition read_active_area (bs : bytes) (entry : Entry) : res (option Rect2u) :=
  values ← u32_values bs entry;
  match values with
  | [v0; v1; v2; v3] =>
      if (v0 <=? v2) && (v1 <=? v3)
      then Ok (Some (mkRect v1 v0 (u32 (v3 - v1)) (u32 (v2 - v0))))
      else Ok None
  | _ => Ok None
  end.

(** The EXIF IFD: its raw bytes, and its entries over the capture block. *)
Definition read_exif (bs : bytes) (c : CaptureBlock) (entry : Entry) : res (bytes * CaptureBlock) :=
  exif_offset ← first_u32 bs entry;
  exif ← copy_ifd_bytes bs exif_offset;
  exif_entries ← read_entries bs exif_offset;
  match exif_entries with
  | None => Ok (exif, c)
  | Some l => c' ← apply_capture_entries bs l c; Ok (exif, c')
  end.

(** Everything after the CFA checks and before the required-field checks. *)
Definition read_calibration (bs : bytes) (entries : list Entry) (d : CFADescriptor)
    (out : ParsedDngMetadata) : res ParsedDngMetadata :=
  let cal := d_calibration out in
  black ← with_entry entries kTagBlackLevel (black_level cal) (λ e,
    v ← numeric_values bs e; Ok (copy_prefix (black_level cal) v));
  table ← with_entry entries kTagLinearizationTable None (λ e, v ← shorts bs e; Ok (Some v));
  cm1 ← with_entry entries kTagColorMatrix1 None (λ e, v ← matrix3 bs e; Ok (Some v));
  cm2 ← with_entry entries kTagColorMatrix2 None (λ e, v ← matrix3 bs e; Ok (Some v));
  fm1 ← with_entry entries kTagForwardMatrix1 None (λ e, v ← matrix3 bs e; Ok (Some v));
  fm2 ← with_entry entries kTagForwardMatrix2 None (λ e, v ← matrix3 bs e; Ok (Some v));
  let cap := d_capture out in
  neutral ← with_entry entries kTagAsShotNeutral (as_shot_neutral cap) (λ e,
    v ← numeric_values bs e; Ok (copy_prefix (as_shot_neutral cap) v));
  let cap := capture_with_neutral cap neutral in
  area ← with_entry entries kTagActiveArea None (read_active_area bs);
  '(exif, cap) ← with_entry entries kTagExifIFD ([], cap) (read_exif bs cap);
  xmp ← with_entry entries kTagXmp [] (blob bs);
  icc ← with_entry entries kTagIccProfile [] (blob bs);
  op1 ← with_entry entries kTagOpcodeList1 [] (blob bs);
  op2 ← with_entry entries kTagOpcodeList2 [] (blob bs);
  op3 ← with_entry entries kTagOpcodeList3 [] (blob bs);
  let cal := mkCalibration (Some d) black (white_level cal) table cm1 cm2 fm1 fm2
    (camera_calibration1 cal) (camera_calibration2 cal) (calibration_illuminant1 cal)
    (calibration_illuminant2 cal) (noise_profile cal) (lens_distortion cal) (lens_intrinsic cal) in
  Ok (mkParsed (d_width out) (d_height out) (d_bits_per_sample out) (d_strip_offset out)
        (d_strip_byte_count out) cal cap area (d_make out) (d_model out) (default [] table)
        exif xmp icc op1 op2 op3).

Definition finish (compression : Z) (out : ParsedDngMetadata) : ParseResult :=
  if (d_width out =? 0) || (d_height out =? 0) || (d_bits_per_sample out =? 0) ||
     (16 <? d_bits_per_sample out) || (d_strip_byte_count out =? 0)
  then failed "DNG is missing required RAW fields"
  else if negb (compression =? kCompressionNone) && (d_strip_offset out =? 0)
  then failed "compressed DNG is missing a raw strip offset"
  else mkResult CPIPE_OK out "".

Definition parse_entries (bs : bytes) (entries : list Entry) : res ParseResult :=
  compression ← first_or bs entries kTagCompression kCompressionNone;
  photometric ← first_or bs entries kTagPhotometricInterpretation kPhotometricCfa;
  samples_per_pixel ← first_or bs entries kTagSamplesPerPixel 1;
  if negb (photometric =? kPhotometricCfa) || negb (samples_per_pixel =? 1)
  then Ok (mkResult CPIPE_UNSUPPORTED default_parsed
             "only single-plane Bayer CFA DNG is supported in P1")
  else
  out ← read_fields bs entries;
  descriptor ← read_cfa bs entries;
  match descriptor with
  | inl message => Ok (mkResult CPIPE_UNSUPPORTED out message)
  | inr d => out ← read_calibration bs entries d out; Ok (finish compression out)
  end.

Definition parse (file : option bytes) : res ParseResult :=
  match file with
  | None => Ok (failed "failed to open DNG")
  | Some bs =>
      bad ← bad_header bs;
      if bad : bool then Ok (failed "unsupported DNG/TIFF header") else
      ifd_offset ← read_u32 bs 4;
      entries ← read_entries bs ifd_offset;
      match entries with
      | None => Ok (failed "invalid IFD table")
      | Some entries => parse_entries bs entries
      end
  end.

(** ** Specification vocabulary *)

(** The fields of an entry have their widths. *)
Record entry_ok (e : Entry) : Prop := {
  tag_ok : is_u 16 (e_tag e);
  type_ok : is_u 16 (e_type e);
  count_ok : is_u 32 (e_count e);
  value_ok : is_u 32 (e_value_or_offset e)
}.

(** The IFD offsets the parser follows: the first IFD and the EXIF IFD. *)
Definition followed_offsets (bs : bytes) : list Z :=
  match read_u32 bs 4 with
  | Ok off =>
      off :: match read_entries bs off with
             | Ok (Some entries) =>
                 match find_entry entries kTagExifIFD with
                 | Some e => match first_u32 bs e with Ok x => [x] | _ => [] end
                 | None => []
                 end
             | _ => []
             end
  | _ => []
  end.

(** What a table must say for its file to be accepted. *)
Definition acceptable (bs : bytes) (entries : list Entry) : Prop :=
  first_or bs entries kTagPhotometricInterpretation kPhotometricCfa = Ok kPhotometricCfa ∧
  first_or bs entries kTagSamplesPerPixel 1 = Ok 1 ∧
  (∃ d, read_cfa bs entries = Ok (inr d)) ∧
  ∃ compression width height bits strip_offset strip_byte_count,
    first_or bs entries kTagCompression kCompressionNone = Ok compression ∧
    first_or bs entries kTagImageWidth 0 = Ok width ∧ width ≠ 0 ∧
    first_or bs entries kTagImageLength 0 = Ok height ∧ height ≠ 0 ∧
    first_or bs entries kTagBitsPerSample 0 = Ok bits ∧ 1 ≤ u16 bits ≤ 16 ∧
    first_or bs entries kTagStripOffsets 0 = Ok strip_offset ∧
    first_or bs entries kTagStripByteCounts 0 = Ok strip_byte_count ∧ strip_byte_count ≠ 0 ∧
    (compression = kCompressionNone ∨ strip_offset ≠ 0).

(** The TIFF layout of a table. *)
Definition le16_bytes (v : Z) : bytes := [v `mod` 256; v / 256].
Definition le32_bytes (v : Z) : bytes := le16_bytes (v `mod` 65536) ++ le16_bytes (v / 65536).
Definition entry_bytes (e : Entry) : bytes :=
  le16_bytes (e_tag e) ++ le16_bytes (e_type e) ++ le32_bytes (e_count e) ++
  le32_bytes (e_value_or_offset e).
Definition ifd_bytes (entries : list Entry) : bytes :=
  le16_bytes (len entries) ++ mjoin (entry_bytes <$> entries).

(** ** Total computations *)

(** [m] returns a value, of which [P] holds. *)
Definition yields {A} (m : res A) (P : A → Prop) : Prop := ∃ a, m = Ok a ∧ P a.

Lemma yields_Ok {A} (a : A) (P : A → Prop) : P a → yields (Ok a) P.
Proof. by exists a. Qed.

Lemma yields_bind {A B} (m : res A) (f : A → res B) P Q :
  yields m P → (∀ a, P a → yields (f a) Q) → yields (m ≫= f) Q.
Proof. intros (a & -> & Ha) Hf. by apply Hf. Qed.

Lemma yields_weaken {A} (m : res A) (P Q : A → Prop) :
  yields m P → (∀ a, P a → Q a) → yields m Q.
Proof. intros (a & -> & Ha) H. exists a. auto. Qed.

Lemma yields_inv {A} (m : res A) P a : yields m P → m = Ok a → P a.
Proof. intros (a' & -> & Ha) [= <-]. done. Qed.

Lemma u32_le z : 0 ≤ z → 0 ≤ u32 z ≤ z.
Proof.
  intros. unfold u32, wrap. pose proof (Z.mod_pos_bound z (2 ^ 32)).
  pose proof (Z.mod_le z (2 ^ 32)). lia.
Qed.

Lemma byte_at_yields bs i : bytes_ok bs → 0 ≤ i < len bs → yields (byte_at bs i) (is_u 8).
Proof.
  intros Hok Hi. destruct (byte_at_Ok bs i Hi) as (b & Hb & _).
  exists b. split; [done|]. by eapply byte_at_is_u8.
Qed.

Lemma lor_le8 lo hi n : 0 ≤ n → is_u n lo → Z.lor lo (Z.shiftl hi n) = hi * 2 ^ n + lo.
Proof. intros. rewrite Z.lor_comm. by apply lor_shiftl_add. Qed.

Section safety.
Context (bs : bytes) (Hbs : bytes_ok bs).

Lemma read_u16_yields off : 0 ≤ off → off + 2 ≤ len bs → yields (read_u16 bs off) (is_u 16).
Proof.
  intros. unfold read_u16. eapply yields_bind; [apply byte_at_yields; [done|lia]|].
  intros b0 _. eapply yields_bind; [apply byte_at_yields; [done|lia]|]. intros b1 _.
  apply yields_Ok, wrap_bound. lia.
Qed.

Lemma read_u32_yields off : 0 ≤ off → off + 4 ≤ len bs → yields (read_u32 bs off) (is_u 32).
Proof.
  intros. unfold read_u32. eapply yields_bind; [apply read_u16_yields; lia|].
  intros lo Hlo. eapply yields_bind; [apply read_u16_yields; lia|]. intros hi Hhi.
  apply yields_Ok. rewrite lor_le8 by (done || lia). unfold is_u in *. lia.
Qed.

Lemma read_i32_yields off :
  0 ≤ off → off + 4 ≤ len bs → yields (read_i32 bs off) (λ z, - 2 ^ 31 ≤ z < 2 ^ 31).
Proof.
  intros. unfold read_i32. eapply yields_bind; [apply read_u32_yields; lia|].
  intros v _. apply yields_Ok. unfold i32.
  pose proof (Z.mod_pos_bound (v + 2 ^ 31) (2 ^ 32)). lia.
Qed.

Lemma read_entry_yields off :
  0 ≤ off → off + 12 ≤ len bs → yields (read_entry bs off) entry_ok.
Proof.
  intros. unfold read_entry.
  pose proof (u32_le (off + 2)). pose proof (u32_le (off + 4)). pose proof (u32_le (off + 8)).
  eapply yields_bind; [apply read_u16_yields; lia|]. intros tag Ht.
  eapply yields_bind; [apply read_u16_yields; lia|]. intros type Hty.
  eapply yields_bind; [apply read_u32_yields; lia|]. intros count Hc.
  eapply yields_bind; [apply read_u32_yields; lia|]. intros v Hv.
  by apply yields_Ok.
Qed.

Lemma read_entry_loop_yields n off i :
  0 ≤ off → 0 ≤ i → off + (i + Z.of_nat n) * 12 ≤ len bs →
  yields (read_entry_loop n bs off i) (Forall entry_ok).
Proof.
  revert i. induction n as [|n IH]; intros i Hoff Hi Hb; simpl; [by apply yields_Ok|].
  pose proof (u32_le (i * 12) ltac:(lia)).
  pose proof (u32_le (off + u32 (i * 12)) ltac:(lia)).
  eapply yields_bind; [apply read_entry_yields; lia|]. intros e He.
  eapply yields_bind; [apply IH; lia|]. intros l Hl. apply yields_Ok. by constructor.
Qed.

Definition opt_entries_ok (o : option (list Entry)) : Prop :=
  match o with Some l => Forall entry_ok l | None => True end.

Lemma read_entries_yields off :
  0 ≤ off < 2 ^ 32 - 2 → yields (read_entries bs off) opt_entries_ok.
Proof.
  intros Hoff. unfold read_entries. rewrite u32_small by lia.
  destruct (Z.ltb_spec (len bs) (off + 2)); [by apply yields_Ok|].
  eapply yields_bind; [apply read_u16_yields; lia|]. intros n Hn. unfold is_u in Hn.
  rewrite u64_small by lia. destruct (Z.ltb_spec (len bs) (off + 2 + n * 12)); [by apply yields_Ok|].
  eapply yields_bind; [apply read_entry_loop_yields; lia|]. intros l Hl. by apply yields_Ok.
Qed.

Lemma copy_n_yields off n :
  0 ≤ off → 0 ≤ n → off + n ≤ len bs → yields (copy_n bs off n) (λ d, bytes_ok d ∧ len d = n).
Proof.
  intros. unfold copy_n. rewrite (proj2 (Z.leb_le _ _)) by lia. apply yields_Ok.
  split; [by apply subspan_ok|]. by apply len_subspan.
Qed.

Lemma copy_ifd_bytes_yields off : 0 ≤ off < 2 ^ 32 - 2 → yields (copy_ifd_bytes bs off) (λ _, True).
Proof.
  intros Hoff. unfold copy_ifd_bytes. rewrite u32_small by lia.
  destruct (Z.ltb_spec (len bs) (off + 2)); [by apply yields_Ok|].
  eapply yields_bind; [apply read_u16_yields; lia|]. intros n Hn. unfold is_u in Hn.
  destruct (Z.ltb_spec (len bs) (2 + n * 12 + 4)); [by apply yields_Ok|].
  destruct (Z.ltb_spec (len bs - (2 + n * 12 + 4)) off); [by apply yields_Ok|].
  eapply yields_weaken; [apply copy_n_yields; lia|done].
Qed.

Lemma type_size_bound t : 0 ≤ type_size t ≤ 8.
Proof. unfold type_size. repeat case_match; lia. Qed.

(** The data of an entry: nothing, or as many items as the entry counts. *)
Lemma entry_data_yields e :
  entry_ok e →
  yields (entry_data bs e)
    (λ d, bytes_ok d ∧ (d = [] ∨ len d = e_count e * type_size (e_type e))).
Proof.
  intros [_ _ Hc Hv]. unfold is_u in *. pose proof (type_size_bound (e_type e)).
  assert (0 ≤ e_count e * type_size (e_type e) < 2 ^ 64) as Hn by nia.
  unfold entry_data. rewrite u64_small by done. set (n := e_count e * type_size (e_type e)) in *.
  assert (yields (Ok []) (λ d : bytes, bytes_ok d ∧ (d = [] ∨ len d = n))) as Hnil
    by (apply yields_Ok; split; [constructor|by left]).
  destruct (Z.eqb_spec (type_size (e_type e)) 0); [done|].
  destruct (Z.eqb_spec n 0); [done|]. destruct (Z.ltb_spec (len bs) n); [done|]. cbn [orb].
  destruct (Z.leb_spec n 4).
  - apply yields_Ok. split; [|right; unfold len; rewrite length_fmap, length_seq; lia].
    apply Forall_fmap, Forall_forall. intros i _. simpl. rewrite land_255. apply Z.mod_pos_bound. lia.
  - destruct (Z.ltb_spec (len bs) (e_value_or_offset e)); [done|].
    destruct (Z.ltb_spec (len bs - e_value_or_offset e) n); [done|]. cbn [orb].
    eapply yields_weaken; [apply copy_n_yields; lia|]. intros d [? ?]. auto.
Qed.
End safety.

Lemma find_entry_ok entries tag e :
  Forall entry_ok entries → find_entry entries tag = Some e → entry_ok e.
Proof.
  induction 1 as [|x l Hx Hl IH]; simpl; [done|]. destruct (_ =? _); [by intros [= <-]|done].
Qed.

Lemma with_entry_yields {A} entries tag (x : A) f P :
  Forall entry_ok entries → P x → (∀ e, entry_ok e → yields (f e) P) →
  yields (with_entry entries tag x f) P.
Proof.
  intros Hl Hx Hf. unfold with_entry. destruct (find_entry entries tag) as [e|] eqn:E.
  - by eapply Hf, find_entry_ok.
  - by apply yields_Ok.
Qed.

Lemma read_array_yields {A} (f : Z → res A) P n i :
  (∀ k, i ≤ k < i + Z.of_nat n → yields (f k) P) →
  yields (read_array f n i) (λ l, Forall P l ∧ length l = n).
Proof.
  revert i. induction n as [|n IH]; intros i Hf; simpl; [by apply yields_Ok|].
  eapply yields_bind; [apply Hf; lia|]. intros x Hx.
  eapply yields_bind; [apply IH; intros; apply Hf; lia|]. intros l [Hl Hlen].
  apply yields_Ok. split; [by constructor|]. simpl. by rewrite Hlen.
Qed.

Lemma is_u_le w w' z : 0 ≤ w ≤ w' → is_u w z → is_u w' z.
Proof. unfold is_u. intros. assert (2 ^ w ≤ 2 ^ w') by (apply Z.pow_le_mono_r; lia). lia. Qed.

Section views.
Context (bs : bytes) (Hbs : bytes_ok bs).

Lemma first_u32_yields e : entry_ok e → yields (first_u32 bs e) (is_u 32).
Proof.
  intros He. unfold first_u32. eapply yields_bind; [by apply entry_data_yields|].
  intros d [Hd _]. assert (is_u 32 0) by (unfold is_u; lia).
  destruct (Z.eqb_spec (len d) 0); [by apply yields_Ok|]. pose proof (len_nonneg d).
  destruct (_ =? kTypeShort); [destruct (Z.leb_spec 2 (len d))|]; cbn [andb].
  { eapply yields_weaken; [apply read_u16_yields; [done|lia..]|].
    intros v. apply is_u_le. lia. }
  all: destruct (_ =? kTypeLong); [destruct (Z.leb_spec 4 (len d))|]; cbn [andb].
  1, 4: apply read_u32_yields; [done|lia..].
  all: destruct (_ =? kTypeByte); [|by apply yields_Ok].
  all: eapply yields_weaken; [apply byte_at_yields; [done|lia]|]; intros v; apply is_u_le; lia.
Qed.

Lemma first_or_yields entries tag x :
  Forall entry_ok entries → is_u 32 x → yields (first_or bs entries tag x) (is_u 32).
Proof. intros. apply with_entry_yields; [done..|]. intros. by apply first_u32_yields. Qed.

Lemma u32_values_yields e :
  entry_ok e → yields (u32_values bs e) (Forall (is_u 32)).
Proof.
  intros He. pose proof (count_ok _ He) as Hc. unfold is_u in Hc.
  unfold u32_values. eapply yields_bind; [by apply entry_data_yields|].
  intros d [Hd _]. destruct (_ =? 0); [by apply yields_Ok|].
  rewrite !u64_small by lia.
  destruct (_ =? kTypeByte), (Z.leb_spec (e_count e) (len d)); cbn [andb].
  { eapply yields_weaken; [apply (read_array_yields _ (is_u 32))|by intros ? []].
    intros k Hk. eapply yields_weaken; [apply byte_at_yields; [done|lia]|].
    intros v. apply is_u_le. lia. }
  all: destruct (_ =? kTypeShort), (Z.leb_spec (e_count e * 2) (len d)); cbn [andb].
  all: try (eapply yields_weaken; [apply (read_array_yields _ (is_u 32))|by intros ? []];
    intros k Hk; eapply yields_weaken; [apply read_u16_yields; [done|lia..]|];
    intros v; apply is_u_le; lia).
  all: destruct (_ =? kTypeLong), (Z.leb_spec (e_count e * 4) (len d)); cbn [andb];
    try (by apply yields_Ok).
  all: eapply yields_weaken; [apply (read_array_yields _ (is_u 32))|by intros ? []];
    intros k Hk; apply read_u32_yields; [done|lia..].
Qed.

Lemma shorts_yields e : entry_ok e → yields (shorts bs e) (Forall (is_u 16)).
Proof.
  intros. unfold shorts. eapply yields_bind; [by apply u32_values_yields|]. intros l _.
  destruct (negb _); [by apply yields_Ok|]. apply yields_Ok, Forall_fmap, Forall_forall.
  intros x _. simpl. apply wrap_bound. lia.
Qed.

Lemma int_float_yields z : - 2 ^ 32 ≤ z ≤ 2 ^ 32 → below 32 (float_of_int z).
Proof. intros. by apply of_int_below. Qed.

Lemma read_rational_yields data type i :
  bytes_ok data → 0 ≤ i → (i + 1) * 8 ≤ len data →
  yields (read_rational data type i) (below 32).
Proof.
  intros Hd Hi Hlen. unfold read_rational.
  pose proof (u32_le (i * 8) ltac:(lia)). pose proof (u32_le (u32 (i * 8) + 4) ltac:(lia)).
  set (rd := if type =? kTypeRational then read_u32 data else read_i32 data).
  assert (∀ off, 0 ≤ off → off + 4 ≤ len data →
    yields (rd off) (λ z, - 2 ^ 32 ≤ z ≤ 2 ^ 32)) as Hrd.
  { intros off ? ?. unfold rd. destruct (_ =? _).
    - eapply yields_weaken; [by apply read_u32_yields|]. unfold is_u. lia.
    - eapply yields_weaken; [by apply read_i32_yields|]. simpl. lia. }
  eapply yields_bind; [apply Hrd; lia|]. intros z Hz. cbv beta in Hz.
  destruct (SFeqb (float_of_int z) f_zero) eqn:E; [by apply yields_Ok|].
  eapply yields_bind; [apply Hrd; lia|]. intros n Hn. cbv beta in Hn. apply yields_Ok.
  destruct (decide (z = 0)) as [->|Hz0]; [done|].
  destruct (of_int_above 32 z) as (j & Hj & Ha); [lia..|].
  apply (div_below _ _ _ j); [lia..|by apply int_float_yields|done].
Qed.

(** The numeric value of every entry is a finite float of magnitude at most 2^32. *)
Lemma numeric_values_yields e : entry_ok e → yields (numeric_values bs e) (Forall (below 32)).
Proof.
  intros He. pose proof (count_ok _ He) as Hc. unfold is_u in Hc.
  unfold numeric_values. eapply yields_bind; [by apply entry_data_yields|].
  intros d [Hd _]. destruct (_ =? 0); [by apply yields_Ok|].
  destruct (_ || _).
  { eapply yields_bind; [by apply u32_values_yields|]. intros l Hl. apply yields_Ok.
    apply Forall_fmap. eapply Forall_impl; [done|]. intros x Hx. unfold is_u in Hx.
    apply int_float_yields. lia. }
  rewrite u64_small by lia. destruct (negb _); [by apply yields_Ok|].
  destruct (Z.ltb_spec (len d) (e_count e * 8)); [by apply yields_Ok|]. cbn [orb].
  eapply yields_weaken; [apply (read_array_yields _ (below 32))|by intros ? []].
  intros k Hk. apply read_rational_yields; [done|lia..].
Qed.
End views.

(** ** Safety of the stages *)

Section stages.
Context (bs : bytes) (Hbs : bytes_ok bs).
Local Abbreviation any := (λ _, True).

Lemma exposure_yields v : below 32 v → yields (to_int64 (SFmul 24 128 v f_1e9)) any.
Proof.
  intros Hv. destruct (to_int64_below (SFmul 24 128 v f_1e9)) as (z & -> & _).
  - apply (mul_below 32 30); [lia|done|]. unfold f_1e9. apply of_int_below; lia.
  - by apply yields_Ok.
Qed.

Lemma first_numeric_yields x e : entry_ok e → yields (first_numeric bs x e) any.
Proof.
  intros. unfold first_numeric. eapply yields_bind; [by apply numeric_values_yields|].
  intros. by apply yields_Ok.
Qed.

Lemma apply_capture_entries_yields entries c :
  Forall entry_ok entries → yields (apply_capture_entries bs entries c) any.
Proof.
  intros Hl. unfold apply_capture_entries.
  eapply yields_bind; [apply (with_entry_yields _ _ _ _ any); [done..|]|intros exposure _].
  { intros e He. eapply yields_bind; [by apply numeric_values_yields|].
    intros [|v l] Hv; [by apply yields_Ok|]. apply exposure_yields. by inversion Hv. }
  eapply yields_bind; [apply (with_entry_yields _ _ _ _ any); [done..|]|intros speed _].
  { intros e He. eapply yields_bind; [by apply first_u32_yields|]. intros. by apply yields_Ok. }
  eapply yields_bind; [apply (with_entry_yields _ _ _ _ any); [done..|]|intros aperture _].
  { intros. by apply first_numeric_yields. }
  eapply yields_bind; [apply (with_entry_yields _ _ _ _ any); [done..|]|intros focal _].
  { intros. by apply first_numeric_yields. }
  by apply yields_Ok.
Qed.

Lemma ascii_yields e : entry_ok e → yields (ascii bs e) any.
Proof.
  intros. unfold ascii. eapply yields_bind; [by apply entry_data_yields|].
  intros d _. destruct (_ || _); by apply yields_Ok.
Qed.

Lemma read_fields_yields entries : Forall entry_ok entries → yields (read_fields bs entries) any.
Proof.
  intros Hl. unfold read_fields.
  do 9 (eapply yields_bind; [apply first_or_yields; [done..|unfold is_u; simpl; lia]|intros ? _]).
  eapply yields_bind; [by apply apply_capture_entries_yields|intros cap _].
  do 2 (eapply yields_bind;
    [apply (with_entry_yields _ _ _ _ any); [done..|intros; by apply ascii_yields]|intros ? _]).
  by apply yields_Ok.
Qed.

(** A descriptor that [read_cfa] builds: 2x2 or 4x4, with the pattern's bytes. *)
Definition cfa_ok (entries : list Entry) (d : CFADescriptor) : Prop :=
  ∃ n e data, (n = 2 ∨ n = 4) ∧ repeat d = [n; n] ∧ find_entry entries kTagCfaPattern = Some e ∧
    entry_data bs e = Ok data ∧ len data = n * n ∧ length (pattern d) = 16%nat ∧
    take (Z.to_nat (n * n)) (pattern d) = data.

Lemma read_cfa_yields entries :
  Forall entry_ok entries →
  yields (read_cfa bs entries) (λ r, match r with inl _ => True | inr d => cfa_ok entries d end).
Proof.
  intros Hl. unfold read_cfa.
  destruct (find_entry entries kTagCfaRepeatPatternDim) as [e|] eqn:E; [|by apply yields_Ok].
  eapply yields_bind; [eapply shorts_yields, find_entry_ok; done|]. intros values Hv.
  destruct values as [|r0 [|r1 [|? ?]]]; try by apply yields_Ok.
  destruct (Z.eqb_spec r0 r1) as [<-|]; [|by apply yields_Ok]. cbn [andb].
  destruct ((r0 =? 2) || (r0 =? 4)) eqn:Er; [|by apply yields_Ok].
  assert (r0 = 2 ∨ r0 = 4) as Hr by (apply orb_true_iff in Er; rewrite !Z.eqb_eq in Er; done).
  destruct (find_entry entries kTagCfaPattern) as [e'|] eqn:E'; [|by apply yields_Ok].
  destruct (entry_data_yields bs Hbs e') as (data & Hdata & _); [by eapply find_entry_ok|].
  rewrite Hdata. simpl. assert (u8 r0 = r0) as Hu8 by (by destruct Hr as [->| ->]). rewrite Hu8.
  destruct (Z.eqb_spec (len data) (r0 * r0)) as [Hlen|]; [|by apply yields_Ok]. cbn [andb].
  destruct (_ <=? 16); [|by apply yields_Ok]. apply yields_Ok.
  exists r0, e', data. unfold len in Hlen.
  assert (length data ≤ 16)%nat by (destruct Hr as [->| ->]; lia).
  split_and!; try done; unfold copy_prefix; simpl.
  - rewrite length_app, length_take, length_drop. cbn [length]. lia.
  - rewrite (take_ge data) by lia. rewrite take_app_ge by lia.
    replace (Z.to_nat (r0 * r0) - length data)%nat with 0%nat by lia. by rewrite take_0, app_nil_r.
Qed.

Definition area_ok (o : option Rect2u) : Prop :=
  match o with
  | Some r => rect_x r + rect_width r < 2 ^ 32 ∧ rect_y r + rect_height r < 2 ^ 32
  | None => True
  end.

Lemma read_active_area_yields e : entry_ok e → yields (read_active_area bs e) area_ok.
Proof.
  intros. unfold read_active_area. eapply yields_bind; [by apply u32_values_yields|].
  intros values Hv. destruct values as [|v0 [|v1 [|v2 [|v3 [|]]]]]; try by apply yields_Ok.
  rewrite !Forall_cons in Hv. unfold is_u in Hv. destruct Hv as (? & ? & ? & ? & _).
  destruct (Z.leb_spec v0 v2), (Z.leb_spec v1 v3); try by apply yields_Ok.
  apply yields_Ok. simpl. rewrite !u32_small; lia.
Qed.

Lemma read_exif_yields c e off :
  entry_ok e → first_u32 bs e = Ok off → off < 2 ^ 32 - 2 → yields (read_exif bs c e) any.
Proof.
  intros He Hoff Hlt. unfold read_exif. rewrite Hoff. simpl.
  pose proof (yields_inv _ _ _ (first_u32_yields bs Hbs e He) Hoff) as Hu. unfold is_u in Hu.
  eapply yields_bind; [apply copy_ifd_bytes_yields; [done|lia]|]. intros exif _.
  eapply yields_bind; [apply read_entries_yields; [done|lia]|].
  intros [l|] Hl; [|by apply yields_Ok].
  eapply yields_bind; [by apply apply_capture_entries_yields|]. intros. by apply yields_Ok.
Qed.

(** The EXIF offset of a table does not wrap. *)
Definition exif_ok (entries : list Entry) : Prop :=
  ∀ e off, find_entry entries kTagExifIFD = Some e → first_u32 bs e = Ok off → off < 2 ^ 32 - 2.

Lemma read_calibration_yields entries d out :
  Forall entry_ok entries → exif_ok entries → yields (read_calibration bs entries d out) any.
Proof.
  intros Hl Hexif. unfold read_calibration.
  assert (∀ {A} (f : list float32 → A) e, entry_ok e →
    yields (v ← numeric_values bs e; Ok (f v)) any) as Hnum.
  { intros A f e He. eapply yields_bind; [by apply numeric_values_yields|]. intros. by apply yields_Ok. }
  eapply yields_bind; [apply (with_entry_yields _ _ _ _ any); [done..|intros; by apply Hnum]|intros black _].
  eapply yields_bind; [apply (with_entry_yields _ _ _ _ any); [done..|]|intros table _].
  { intros e He. eapply yields_bind; [by apply shorts_yields|]. intros. by apply yields_Ok. }
  do 4 (eapply yields_bind; [apply (with_entry_yields _ _ _ _ any); [done..|];
    intros e He; eapply yields_bind; [by apply Hnum|intros; by apply yields_Ok]|intros ? _]).
  eapply yields_bind; [apply (with_entry_yields _ _ _ _ any); [done..|intros; by apply Hnum]|intros neutral _].
  eapply yields_bind; [apply (with_entry_yields _ _ _ _ area_ok); [done..|by apply read_active_area_yields]|intros area _].
  eapply (yields_bind _ _ any).
  { unfold with_entry. destruct (find_entry entries kTagExifIFD) as [e|] eqn:E; [|by apply yields_Ok].
    assert (entry_ok e) as He by by eapply find_entry_ok.
    destruct (first_u32_yields bs Hbs e He) as (off & Hoff & _).
    eapply read_exif_yields; eauto. }
  intros [exif cap] _.
  do 5 (eapply yields_bind; [apply (with_entry_yields _ _ _ _ any); [done..|];
    intros e He; eapply yields_weaken; [by apply entry_data_yields|done]|intros ? _]).
  by apply yields_Ok.
Qed.
End stages.

Lemma bad_header_yields bs : bytes_ok bs → yields (bad_header bs) (λ b, b = false → 8 ≤ len bs).
Proof.
  intros Hbs. unfold bad_header. destruct (Z.ltb_spec (len bs) 8); [by apply yields_Ok|].
  eapply yields_bind; [apply byte_at_yields; [done|lia]|]. intros b0 _.
  destruct (negb _); [by apply yields_Ok|].
  eapply yields_bind; [apply byte_at_yields; [done|lia]|]. intros b1 _.
  destruct (negb _); [by apply yields_Ok|].
  eapply yields_bind; [apply read_u16_yields; [done|lia..]|]. intros. by apply yields_Ok.
Qed.

(** What the stages leave in the result. *)
Record fields_of (bs : bytes) (entries : list Entry) (out : ParsedDngMetadata) : Prop := {
  f_width : first_or bs entries kTagImageWidth 0 = Ok (d_width out);
  f_height : first_or bs entries kTagImageLength 0 = Ok (d_height out);
  f_bits : ∃ bits, first_or bs entries kTagBitsPerSample 0 = Ok bits ∧ d_bits_per_sample out = u16 bits;
  f_strip_offset : first_or bs entries kTagStripOffsets 0 = Ok (d_strip_offset out);
  f_strip_byte_count : first_or bs entries kTagStripByteCounts 0 = Ok (d_strip_byte_count out)
}.

Lemma read_fields_inv bs entries out : read_fields bs entries = Ok out → fields_of bs entries out.
Proof. unfold read_fields. intros H. res_inv. split; simpl; eauto. Qed.

Lemma read_calibration_inv bs entries d out out' :
  bytes_ok bs → Forall entry_ok entries → fields_of bs entries out →
  read_calibration bs entries d out = Ok out' →
  fields_of bs entries out' ∧ cfa (d_calibration out') = Some d ∧ area_ok (d_active_area out').
Proof.
  unfold read_calibration. intros Hbs Hl [? ? ? ? ?] H. res_inv. destruct a7 as [exif cap].
  res_inv. split_and!; [by split|done|]. simpl.
  eapply yields_inv; [|exact Ha6]. apply with_entry_yields; [done..|].
  by apply read_active_area_yields.
Qed.

(** The checks of [finish] on the fields of a table. *)
Definition complete (compression : Z) (out : ParsedDngMetadata) : Prop :=
  d_width out ≠ 0 ∧ d_height out ≠ 0 ∧ 1 ≤ d_bits_per_sample out ≤ 16 ∧
  d_strip_byte_count out ≠ 0 ∧ (compression = kCompressionNone ∨ d_strip_offset out ≠ 0).

Lemma finish_spec compression out :
  0 ≤ d_bits_per_sample out →
  (complete compression out ∧ finish compression out = mkResult CPIPE_OK out "") ∨
  (¬ complete compression out ∧ pr_status (finish compression out) = CPIPE_FAILED).
Proof.
  intros Hb. unfold finish, complete.
  destruct (Z.eqb_spec (d_width out) 0); [right; naive_solver|].
  destruct (Z.eqb_spec (d_height out) 0); [right; naive_solver|].
  destruct (Z.eqb_spec (d_bits_per_sample out) 0); [right; split; [naive_solver lia|done]|].
  destruct (Z.ltb_spec 16 (d_bits_per_sample out)); [right; split; [naive_solver lia|done]|].
  destruct (Z.eqb_spec (d_strip_byte_count out) 0); [right; naive_solver|]. cbn [orb].
  destruct (Z.eqb_spec compression kCompressionNone);
    [left; split_and!; try done; try lia; by left|].
  destruct (Z.eqb_spec (d_strip_offset out) 0); [right; naive_solver|].
  left; split_and!; try done; try lia; by right.
Qed.

Section table.
Context (bs : bytes) (entries : list Entry).
Context (Hbs : bytes_ok bs) (Hl : Forall entry_ok entries) (Hexif : exif_ok bs entries).

(** The verdict on a table: accepted exactly when it is acceptable, and then with
    its fields; otherwise refused as unsupported or failed. *)
Definition verdict (r : ParseResult) : Prop :=
  (acceptable bs entries ∧ pr_status r = CPIPE_OK ∧ fields_of bs entries (pr_metadata r) ∧
   (∃ compression, first_or bs entries kTagCompression kCompressionNone = Ok compression ∧
      complete compression (pr_metadata r)) ∧
   (∃ d, cfa (d_calibration (pr_metadata r)) = Some d ∧ cfa_ok bs entries d) ∧
   area_ok (d_active_area (pr_metadata r))) ∨
  (¬ acceptable bs entries ∧ (pr_status r = CPIPE_UNSUPPORTED ∨ pr_status r = CPIPE_FAILED)).

Lemma complete_acceptable compression out d :
  first_or bs entries kTagPhotometricInterpretation kPhotometricCfa = Ok kPhotometricCfa →
  first_or bs entries kTagSamplesPerPixel 1 = Ok 1 →
  first_or bs entries kTagCompression kCompressionNone = Ok compression →
  read_cfa bs entries = Ok (inr d) → fields_of bs entries out →
  acceptable bs entries ↔ complete compression out.
Proof.
  intros Hp Hs Hc Hd [Hw Hh (bits & Hb & Hbits) Hso Hsc]. unfold acceptable, complete.
  rewrite Hbits. split.
  - intros (_ & _ & _ & c & w & h & b & so & sc & H). naive_solver congruence.
  - intros (? & ? & ? & ? & ?). split_and!; eauto. exists compression, (d_width out), (d_height out), bits,
      (d_strip_offset out), (d_strip_byte_count out). naive_solver.
Qed.

Lemma parse_entries_yields : yields (parse_entries bs entries) verdict.
Proof.
  unfold parse_entries.
  destruct (first_or_yields bs Hbs entries kTagCompression kCompressionNone)
    as (comp & Hcomp & _); [done|by unfold is_u|].
  destruct (first_or_yields bs Hbs entries kTagPhotometricInterpretation kPhotometricCfa)
    as (phot & Hphot & _); [done|by unfold is_u|].
  destruct (first_or_yields bs Hbs entries kTagSamplesPerPixel 1)
    as (spp & Hspp & _); [done|by unfold is_u|].
  rewrite Hcomp, Hphot, Hspp. simpl.
  destruct (Z.eqb_spec phot kPhotometricCfa) as [->|].
  2: { apply yields_Ok. right. split; [|by left]. intros (? & _). naive_solver congruence. }
  destruct (Z.eqb_spec spp 1) as [->|].
  2: { apply yields_Ok. right. split; [|by left]. intros (_ & ? & _). naive_solver congruence. }
  cbn [negb orb].
  destruct (read_fields_yields bs Hbs entries Hl) as (out & Hout & _). rewrite Hout. simpl.
  destruct (read_cfa_yields bs Hbs entries Hl) as (r & Hr & Hcfa). rewrite Hr. simpl.
  destruct r as [msg|d].
  { apply yields_Ok. right. split; [|by left]. intros (_ & _ & (d & Hd) & _). congruence. }
  destruct (read_calibration_yields bs Hbs entries d out Hl Hexif) as (out' & Hout' & _).
  rewrite Hout'. simpl. apply yields_Ok.
  apply read_fields_inv in Hout.
  destruct (read_calibration_inv _ _ _ _ _ Hbs Hl Hout Hout') as (Hf & Hd & Ha).
  pose proof (complete_acceptable comp out' d Hphot Hspp Hcomp Hr Hf) as Hacc.
  assert (0 ≤ d_bits_per_sample out').
  { destruct (f_bits _ _ _ Hf) as (b & _ & ->). apply (wrap_bound 16 b). lia. }
  destruct (finish_spec comp out') as [[Hc ->]|[Hc Hst]]; [done|left|right].
  - split_and!; simpl; eauto. by apply Hacc.
  - split; [by rewrite Hacc|by right].
Qed.
End table.

(** ** Theorems *)

Definition no_wrap (bs : bytes) : Prop := Forall (λ off, off < 2 ^ 32 - 2) (followed_offsets bs).

(** A file with a TIFF header and offsets that do not wrap: its table is read,
    its EXIF offset is fine. *)
Lemma read_table bs :
  bytes_ok bs → no_wrap bs → bad_header bs = Ok false →
  ∃ off o, read_u32 bs 4 = Ok off ∧ read_entries bs off = Ok o ∧ opt_entries_ok o ∧
    match o with Some entries => exif_ok bs entries | None => True end.
Proof.
  intros Hbs Hw Hh. pose proof (yields_inv _ _ _ (bad_header_yields bs Hbs) Hh eq_refl) as Hlen.
  destruct (read_u32_yields bs Hbs 4) as (off & Hoff & Hu); [lia..|]. unfold is_u in Hu.
  unfold no_wrap, followed_offsets in Hw. rewrite Hoff in Hw. apply Forall_cons in Hw as [Hlt Hw].
  destruct (read_entries_yields bs Hbs off) as (o & Ho & Hok); [lia|].
  exists off, o. split_and!; try done. destruct o as [entries|]; [|done].
  rewrite Ho in Hw. intros e x He Hx. rewrite He, Hx in Hw. by apply Forall_cons in Hw as [? _].
Qed.

Lemma parse_table bs off entries :
  bad_header bs = Ok false → read_u32 bs 4 = Ok off → read_entries bs off = Ok (Some entries) →
  parse (Some bs) = parse_entries bs entries.
Proof. intros Hh Hoff He. simpl. rewrite Hh. simpl. rewrite Hoff. simpl. by rewrite He. Qed.

(** The verdict on a file with a table. *)
Lemma parse_verdict bs off entries :
  bytes_ok bs → no_wrap bs → bad_header bs = Ok false → read_u32 bs 4 = Ok off →
  read_entries bs off = Ok (Some entries) →
  yields (parse (Some bs)) (verdict bs entries).
Proof.
  intros Hbs Hw Hh Hoff He. rewrite (parse_table _ _ _ Hh Hoff He).
  destruct (read_table bs Hbs Hw Hh) as (off' & o & Hoff' & Ho & Hok & Hex).
  rewrite Hoff in Hoff'. injection Hoff' as <-. rewrite He in Ho. injection Ho as <-.
  by apply parse_entries_yields.
Qed.

(** The parser returns on every file whose followed offsets do not wrap. *)
Lemma parse_total bs :
  bytes_ok bs → no_wrap bs →
  ∃ r, parse (Some bs) = Ok r ∧ pr_status r ∈ [CPIPE_OK; CPIPE_FAILED; CPIPE_UNSUPPORTED].
Proof.
  intros Hbs Hw. destruct (bad_header_yields bs Hbs) as ([] & Hh & _).
  { exists (failed "unsupported DNG/TIFF header"). simpl. rewrite Hh. set_solver. }
  destruct (read_table bs Hbs Hw Hh) as (off & [entries|] & Hoff & He & _ & _).
  - destruct (parse_verdict bs off entries Hbs Hw Hh Hoff He) as (r & Hr & Hv).
    exists r. split; [done|]. unfold verdict in Hv. set_solver.
  - exists (failed "invalid IFD table"). simpl. rewrite Hh. simpl. rewrite Hoff. simpl.
    rewrite He. set_solver.
Qed.

(** The dimensions and the strip of an accepted file are non-zero 32-bit numbers. *)
Lemma parse_ok_bounds bs r :
  bytes_ok bs → no_wrap bs → parse (Some bs) = Ok r → pr_status r = CPIPE_OK →
  let m := pr_metadata r in
  is_u 32 (d_width m) ∧ is_u 32 (d_height m) ∧ d_width m ≠ 0 ∧ d_height m ≠ 0 ∧
  is_u 32 (d_strip_offset m) ∧ is_u 32 (d_strip_byte_count m).
Proof.
  intros Hbs Hw Hr Hst. destruct (bad_header_yields bs Hbs) as ([] & Hh & _).
  { simpl in Hr. rewrite Hh in Hr. injection Hr as <-. done. }
  destruct (read_table bs Hbs Hw Hh) as (off & [entries|] & Hoff & He & Hok & _).
  2: { simpl in Hr. rewrite Hh in Hr. simpl in Hr. rewrite Hoff in Hr. simpl in Hr. rewrite He in Hr.
       injection Hr as <-. done. }
  pose proof (yields_inv _ _ _ (parse_verdict bs off entries Hbs Hw Hh Hoff He) Hr) as Hv.
  destruct Hv as [(_ & _ & [Fw Fh _ Fo Fc] & (comp & _ & ? & ? & _) & _)|[_ [|]]]; [|congruence..].
  assert (Hu : ∀ tag x, first_or bs entries tag 0 = Ok x → is_u 32 x).
  { intros tag x. apply yields_inv. by apply first_or_yields. }
  simpl. eauto 10.
Qed.

(** C5: Memory safety of the DNG parser.  On every file whose followed IFD offsets
    (first IFD, EXIF IFD) lie below 2^32 - 2, [parse] reads inside the file, its
    float-to-integer cast is in range, it neither throws nor diverges, and it
    returns one of the three documented statuses. *)
Theorem parse_dng_safe bs :
  bytes_ok bs → no_wrap bs →
  ∃ r, parse (Some bs) = Ok r ∧ pr_status r ∈ [CPIPE_OK; CPIPE_FAILED; CPIPE_UNSUPPORTED].
Proof. apply parse_total. Qed.

(** The offset check of [read_entries] is computed in 32 bits: a file shorter
    than 4 GiB whose IFD offset is 2^32 - 2 or 2^32 - 1 passes it, and the parser
    reads outside the file. *)
Theorem parse_wrapping_ifd bs off :
  len bs ≤ 2 ^ 32 - 2 → bad_header bs = Ok false → read_u32 bs 4 = Ok off →
  2 ^ 32 - 2 ≤ off < 2 ^ 32 → parse (Some bs) = Undef.
Proof.
  intros Hlen Hh Hoff Hr. simpl. rewrite Hh. simpl. rewrite Hoff. simpl.
  assert (8 ≤ len bs) by (unfold bad_header in Hh; destruct (Z.ltb_spec (len bs) 8); done).
  unfold read_entries.
  assert (u32 (off + 2) = off + 2 - 2 ^ 32) as ->
    by (unfold u32, wrap; symmetry; apply Z.mod_unique with 1; lia).
  destruct (Z.ltb_spec (len bs) (off + 2 - 2 ^ 32)); [lia|].
  unfold read_u16. rewrite (byte_at_undef bs off) by lia. reflexivity.
Qed.

(** What an accepted file yields: its dimensions, strip and bit depth are the
    values of their tags and usable, its CFA is 2x2 or 4x4 with exactly the bytes
    of the CFAPattern tag, and the active area does not wrap. *)
Theorem parse_ok_metadata bs off entries r :
  bytes_ok bs → no_wrap bs → bad_header bs = Ok false → read_u32 bs 4 = Ok off →
  read_entries bs off = Ok (Some entries) → parse (Some bs) = Ok r → pr_status r = CPIPE_OK →
  fields_of bs entries (pr_metadata r) ∧
  (∃ compression, first_or bs entries kTagCompression kCompressionNone = Ok compression ∧
     complete compression (pr_metadata r)) ∧
  (∃ d, cfa (d_calibration (pr_metadata r)) = Some d ∧ cfa_ok bs entries d) ∧
  area_ok (d_active_area (pr_metadata r)).
Proof.
  intros Hbs Hw Hh Hoff He Hr Hst.
  pose proof (yields_inv _ _ _ (parse_verdict bs off entries Hbs Hw Hh Hoff He) Hr) as Hv.
  destruct Hv as [(_ & _ & ? & ? & ? & ?)|[_ [|]]]; [by split_and!|congruence..].
Qed.

(** ** Round trips *)

Lemma byte_at_middle (bs pre mid suf : bytes) off (i : nat) b :
  bs = pre ++ mid ++ suf → off = len pre + Z.of_nat i → mid !! i = Some b → byte_at bs off = Ok b.
Proof. intros -> ->. apply byte_at_app_middle. Qed.

Lemma read_u16_at bs pre suf off v :
  is_u 16 v → bs = pre ++ le16_bytes v ++ suf → off = len pre → read_u16 bs off = Ok v.
Proof.
  unfold is_u. intros Hv -> ->. unfold read_u16.
  rewrite (byte_at_middle _ pre (le16_bytes v) suf (len pre) 0 (v `mod` 256)); [|done|lia|done].
  rewrite (byte_at_middle _ pre (le16_bytes v) suf (len pre + 1) 1 (v / 256)); [|done|lia|done].
  simpl. rewrite lor_le8 by (unfold is_u; try apply Z.mod_pos_bound; lia).
  unfold u16. rewrite wrap_small; [f_equal|unfold is_u]; Z.to_euclidean_division_equations; lia.
Qed.

Lemma read_u32_at bs pre suf off v :
  is_u 32 v → bs = pre ++ le32_bytes v ++ suf → off = len pre → read_u32 bs off = Ok v.
Proof.
  intros Hv -> ->. unfold read_u32, le32_bytes.
  assert (is_u 16 (v `mod` 65536)) by (apply Z.mod_pos_bound; lia).
  assert (is_u 16 (v / 65536)) by (unfold is_u in *; Z.to_euclidean_division_equations; lia).
  rewrite <-!app_assoc.
  rewrite (read_u16_at _ pre (le16_bytes (v / 65536) ++ suf) (len pre) (v `mod` 65536)) by done.
  rewrite Ok_bind.
  rewrite (read_u16_at _ (pre ++ le16_bytes (v `mod` 65536)) suf (len pre + 2) (v / 65536)).
  - simpl. rewrite lor_le8 by (done || lia). f_equal. Z.to_euclidean_division_equations; lia.
  - done.
  - by rewrite <-!app_assoc.
  - by rewrite len_app.
Qed.

Lemma len_entry_bytes e : len (entry_bytes e) = 12.
Proof. done. Qed.

Lemma read_entry_at bs pre suf off e :
  entry_ok e → len bs < 2 ^ 32 → bs = pre ++ entry_bytes e ++ suf → off = len pre →
  read_entry bs off = Ok e.
Proof.
  intros [] Hlen Hbs ->. pose proof (len_nonneg pre). pose proof (len_nonneg suf).
  rewrite Hbs, !len_app, len_entry_bytes in Hlen. unfold read_entry, entry_bytes in *.
  rewrite <-!app_assoc in Hbs. rewrite !u32_small by lia.
  erewrite (read_u16_at bs pre _ (len pre) (e_tag e)) by done. rewrite Ok_bind.
  erewrite (read_u16_at bs (pre ++ le16_bytes (e_tag e)) _ (len pre + 2) (e_type e)); [|done|..];
    [|by rewrite Hbs, <-!app_assoc|by rewrite len_app]. rewrite Ok_bind.
  erewrite (read_u32_at bs (pre ++ le16_bytes (e_tag e) ++ le16_bytes (e_type e)) _ (len pre + 4) (e_count e));
    [|done|by rewrite Hbs, <-!app_assoc|by rewrite !len_app]. rewrite Ok_bind.
  erewrite (read_u32_at bs (pre ++ le16_bytes (e_tag e) ++ le16_bytes (e_type e) ++
    le32_bytes (e_count e)) suf (len pre + 8) (e_value_or_offset e));
    [|done|by rewrite Hbs, <-!app_assoc|by rewrite !len_app]. by destruct e.
Qed.

Lemma mjoin_entries_cons e l :
  mjoin (entry_bytes <$> e :: l) = entry_bytes e ++ mjoin (entry_bytes <$> l).
Proof. done. Qed.

Lemma read_entry_loop_at bs l :
  Forall entry_ok l → len bs < 2 ^ 32 → ∀ pre suf off i,
  bs = pre ++ mjoin (entry_bytes <$> l) ++ suf → 0 ≤ off → 0 ≤ i → off + i * 12 = len pre →
  read_entry_loop (length l) bs off i = Ok l.
Proof.
  intros Hl Hlen. induction Hl as [|e l He Hl IH]; intros pre suf off i Hbs Hoff Hi Hpre; [done|].
  rewrite mjoin_entries_cons, <-app_assoc in Hbs. cbn [length read_entry_loop].
  assert (len pre < 2 ^ 32) by (rewrite Hbs, len_app in Hlen; pose proof (len_nonneg
    (entry_bytes e ++ mjoin (entry_bytes <$> l) ++ suf)); lia).
  rewrite (u32_small (i * 12)), u32_small by lia.
  erewrite (read_entry_at bs pre _ _ e); [|done..]. rewrite Ok_bind.
  rewrite (IH (pre ++ entry_bytes e) suf off (i + 1)); [done|..].
  - by rewrite Hbs, <-!app_assoc.
  - done.
  - lia.
  - rewrite len_app, len_entry_bytes. lia.
Qed.

Lemma len_mjoin_entries l : len (mjoin (entry_bytes <$> l)) = 12 * len l.
Proof.
  induction l as [|e l IH]; [done|]. rewrite mjoin_entries_cons.
  rewrite len_app, len_entry_bytes, IH, len_cons. lia.
Qed.

(** The IFD reader inverts the TIFF layout: in a file below 4 GiB, a table of at
    most 65535 entries laid out at [ifd_offset] is read back entry for entry. *)
Theorem read_entries_roundtrip pre entries suf :
  Forall entry_ok entries → len entries < 2 ^ 16 →
  len (pre ++ ifd_bytes entries ++ suf) < 2 ^ 32 →
  read_entries (pre ++ ifd_bytes entries ++ suf) (len pre) = Ok (Some entries).
Proof.
  intros Hl Hn Hlen. set (bs := pre ++ ifd_bytes entries ++ suf) in *.
  assert (bs = (pre ++ le16_bytes (len entries)) ++ mjoin (entry_bytes <$> entries) ++ suf) as Hbs
    by (unfold bs, ifd_bytes; by rewrite <-!app_assoc).
  assert (len bs = len pre + 2 + 12 * len entries + len suf) as Hsize
    by (rewrite Hbs, !len_app, len_mjoin_entries; change (len (le16_bytes _)) with 2; lia).
  pose proof (len_nonneg pre). pose proof (len_nonneg suf). pose proof (len_nonneg entries).
  unfold read_entries. rewrite u32_small by lia.
  rewrite (proj2 (Z.ltb_ge _ _)) by lia.
  rewrite (read_u16_at bs pre (mjoin (entry_bytes <$> entries) ++ suf) _ (len entries));
    [|unfold is_u; lia|by rewrite Hbs, <-!app_assoc|done].
  simpl. rewrite u64_small by lia. rewrite (proj2 (Z.ltb_ge _ _)) by lia.
  replace (Z.to_nat (len entries)) with (length entries) by (unfold len; lia).
  rewrite (read_entry_loop_at bs entries Hl Hlen (pre ++ le16_bytes (len entries)) suf); try done; try lia.
  rewrite len_app. change (len (le16_bytes _)) with 2. lia.
Qed.

(** ** Witnesses: a 4x2 Bayer file with an EXIF table *)

Lemma bytes_ok_b bs : forallb (λ b, (0 <=? b) && (b <? 256)) bs = true → bytes_ok bs.
Proof.
  intros H. apply Forall_forall. intros b Hb.
  apply list_elem_of_In in Hb. rewrite forallb_forall in H. specialize (H b Hb).
  apply andb_true_iff in H as [? ?]. unfold is_u. lia.
Qed.

Definition example_entries : list Entry :=
  [mkEntry kTagImageWidth kTypeLong 1 4; mkEntry kTagImageLength kTypeShort 1 2;
   mkEntry kTagBitsPerSample kTypeShort 1 16; mkEntry kTagStripOffsets kTypeLong 1 136;
   mkEntry kTagStripByteCounts kTypeLong 1 16; mkEntry kTagCfaRepeatPatternDim kTypeShort 2 0x20002;
   mkEntry kTagCfaPattern kTypeByte 4 0x02010100; mkEntry kTagExifIFD kTypeLong 1 110].

Definition example_exif : list Entry := [mkEntry kTagExposureTime kTypeRational 1 128].

Definition example_file : bytes :=
  [73; 73; 42; 0; 8; 0; 0; 0] ++ ifd_bytes example_entries ++ [0; 0; 0; 0] ++
  ifd_bytes example_exif ++ [0; 0; 0; 0] ++ le32_bytes 1 ++ le32_bytes 100 ++ replicate 16 7.

Definition example_result : ParseResult :=
  match parse (Some example_file) with Ok r => r | _ => failed "" end.

Lemma example_file_ok : bytes_ok example_file ∧ no_wrap example_file ∧
  bad_header example_file = Ok false ∧ read_u32 example_file 4 = Ok 8 ∧
  read_entries example_file 8 = Ok (Some example_entries).
Proof.
  split; [apply bytes_ok_b; vm_compute; reflexivity|].
  split; [|split_and!; vm_compute; reflexivity].
  unfold no_wrap. replace (followed_offsets example_file) with [8; 110] by (vm_compute; reflexivity).
  repeat constructor.
Qed.

Lemma parse_dng_safe_witness :
  ∃ r, parse (Some example_file) = Ok r ∧
    pr_status r ∈ [CPIPE_OK; CPIPE_FAILED; CPIPE_UNSUPPORTED].
Proof. destruct example_file_ok as (? & ? & _). by apply (parse_dng_safe example_file). Defined.

Lemma parse_wrapping_ifd_witness :
  parse (Some [73; 73; 42; 0; 254; 255; 255; 255]) = Undef.
Proof.
  apply (parse_wrapping_ifd [73; 73; 42; 0; 254; 255; 255; 255] (2 ^ 32 - 2));
    [vm_compute; discriminate|reflexivity|reflexivity|lia].
Defined.

Lemma parse_ok_metadata_witness :
  (exposure_time_ns (d_capture (pr_metadata example_result)) = 10000000) ∧
  fields_of example_file example_entries (pr_metadata example_result).
Proof.
  split; [vm_compute; reflexivity|]. destruct example_file_ok as (Hb & Hw & Hh & Ho & He).
  assert (parse (Some example_file) = Ok example_result) as Hr by (vm_compute; reflexivity).
  assert (pr_status example_result = CPIPE_OK) as Hs by (vm_compute; reflexivity).
  exact (proj1 (parse_ok_metadata example_file 8 example_entries example_result
                  Hb Hw Hh Ho He Hr Hs)).
Defined.

Lemma read_entries_roundtrip_witness :
  read_entries ([73; 73; 42; 0; 8; 0; 0; 0] ++ ifd_bytes example_entries ++ [0; 0; 0; 0]) 8
  = Ok (Some example_entries).
Proof.
  apply (read_entries_roundtrip [73; 73; 42; 0; 8; 0; 0; 0] example_entries [0; 0; 0; 0]);
    [|reflexivity..].
  repeat constructor; vm_compute; discriminate.
Defined.
