(* ===== verification/HostContext.v ===== *)
(** * The host interface of the plugins

    Models the handles of src/cpipe/runtime/{BufferHandle,MetadataHandle,
    ParamHandle}.cpp and the suites of src/cpipe/runtime/HostContext.cpp through
    which a plugin reads buffers, metadata and parameters and builds the metadata
    of its outputs.  A pointer argument that may be null is an [option]; an output
    pointer is a flag that says whether it is null, and what is written through it
    is part of the result.  [Fail st ""] is a status other than [CPIPE_OK], with
    nothing written.

    The theorems: the getters never write past the caller's arrays and report the
    full count; every advertised blob key can be fetched; a blob that was set is
    read back after freezing, except that the three reserved keys are shadowed; a
    parameter getter succeeds exactly on a present value of its type and never
    throws; the colour-processor cache has one entry per key. *)

From Stdlib Require Import ZArith Lia SpecFloat.
From stdpp Require Import prelude strings list gmap sorting.
From S2P Require Import Prelude Core Json HalfFloat.

Local Open Scope Z_scope.

(** ** Handles *)

Record cpipe_buffer_s : Type := mkBufferHandle {
  bh_buffer : option CpuBuffer;
  bh_metadata_view : option BufferMetadata
}.

Definition make_buffer_handle (buffer : option CpuBuffer) : cpipe_buffer_s :=
  mkBufferHandle buffer (buffer ≫= cb_metadata).

Definition buffer_from_handle (handle : option cpipe_buffer_s) : option CpuBuffer :=
  handle ≫= bh_buffer.

(** A metadata handle holds a shared pointer that may be null. *)
Abbreviation cpipe_metadata_s := (option BufferMetadata).

Definition make_metadata_handle (metadata : option BufferMetadata) : cpipe_metadata_s := metadata.

Definition metadata_from_handle (handle : option cpipe_metadata_s) : option BufferMetadata :=
  handle ≫= λ m, m.

Record cpipe_metadata_builder_s : Type := mkBuilderHandle {
  bu_builder : MetadataBuilder;
  bu_input_metadata : list (option BufferMetadata)
}.

Definition make_metadata_builder_handle (base : option BufferMetadata)
    (input_metadata : list (option BufferMetadata)) : cpipe_metadata_builder_s :=
  mkBuilderHandle (make_builder base) input_metadata.

Definition builder_from_handle (handle : option cpipe_metadata_builder_s) : option MetadataBuilder :=
  option_map bu_builder handle.

Definition freeze_metadata_builder (handle : option cpipe_metadata_builder_s)
    : option BufferMetadata * option cpipe_metadata_builder_s :=
  match handle with
  | None => (None, None)
  | Some h =>
      let '(m, b) := freeze (bu_builder h) in (Some m, Some (mkBuilderHandle b (bu_input_metadata h)))
  end.

Abbreviation bad_index := (Fail CPIPE_BAD_INDEX "").

(** ** Suites *)

Inductive suite : Type :=
| SuiteBuffer | SuiteCompute | SuiteParam | SuiteInference | SuiteMetadata | SuiteMetadataBuilder.

Definition get_suite (self_null : bool) (suite_name : string) (version : Z) : option suite :=
  if self_null || negb (version =? 1) then None else
  if String.eqb suite_name "buffer" then Some SuiteBuffer else
  if String.eqb suite_name "compute" then Some SuiteCompute else
  if String.eqb suite_name "param" then Some SuiteParam else
  if String.eqb suite_name "inference" then Some SuiteInference else
  if String.eqb suite_name "metadata" then Some SuiteMetadata else
  if String.eqb suite_name "metadata_builder" then Some SuiteMetadataBuilder else None.

(** ** Buffer suite *)

(** [for (i = 0; i < ndim; ++i) out[i] = array[i]] over eight-element arrays. *)
Definition copy8 (array : list Z) (n : Z) : res (list Z) :=
  if 8 <? n then Undef else Ok (take (Z.to_nat n) array).

Definition get_dims (buffer : option cpipe_buffer_s) (ndim_null dims_null : bool)
    : res (Z * list Z) :=
  match buffer_from_handle buffer with
  | None => bad_index
  | Some impl =>
      if ndim_null || dims_null then bad_index else
      out_dims ← copy8 (dims (cb_layout impl)) (ndim (cb_layout impl));
      Ok (ndim (cb_layout impl), out_dims)
  end.

Definition get_format (buffer : option cpipe_buffer_s) (out_null : bool) : res Z :=
  match buffer_from_handle buffer with
  | None => bad_index
  | Some impl => if out_null then bad_index else Ok (format_value (format (cb_layout impl)))
  end.

Definition kind_value (k : BufferKind) : Z :=
  match k with Image2D => 0 | Volume3D => 1 | TensorND => 2 | Blob => 3 end.

Definition get_kind (buffer : option cpipe_buffer_s) (out_null : bool) : res Z :=
  match buffer_from_handle buffer with
  | None => bad_index
  | Some impl => if out_null then bad_index else Ok (kind_value (kind (cb_layout impl)))
  end.

Definition get_stride (buffer : option cpipe_buffer_s) (out_null : bool) : res (list Z) :=
  match buffer_from_handle buffer with
  | None => bad_index
  | Some impl =>
      if out_null then bad_index else copy8 (stride (cb_layout impl)) (ndim (cb_layout impl))
  end.

Definition get_color_role (buffer : option cpipe_buffer_s) (out_null : bool) : res string :=
  match buffer_from_handle buffer with
  | None => bad_index
  | Some impl => if out_null then bad_index else Ok (cb_color_role impl)
  end.

(** The view of the handle is refreshed; the result is null when the buffer has no
    metadata. *)
Definition get_metadata (buffer : option cpipe_buffer_s) (out_null : bool)
    : res (option cpipe_metadata_s * cpipe_buffer_s) :=
  match buffer with
  | None => bad_index
  | Some handle =>
      match bh_buffer handle with
      | None => bad_index
      | Some impl =>
          if out_null then bad_index else
          Ok (match cb_metadata impl with Some m => Some (Some m) | None => None end,
              mkBufferHandle (Some impl) (cb_metadata impl))
      end
  end.

(** [static_cast<CpuAccess>(access)]: [CpuBuffer::lock_cpu] treats every value but
    the first two as read-write. *)
Definition access_of_int (access : Z) : CpuAccess :=
  if access =? 0 then AccessRead else if access =? 1 then AccessWrite else AccessReadWrite.

Definition host_lock_cpu (buffer : option cpipe_buffer_s) (access : Z) (ptr_null : bool)
    : res (option bytes * cpipe_buffer_s) :=
  match buffer with
  | None => bad_index
  | Some handle =>
      match bh_buffer handle with
      | None => bad_index
      | Some impl =>
          if ptr_null then bad_index else
          '(data, impl') ← lock_cpu (access_of_int access) impl;
          Ok (data, mkBufferHandle (Some impl') (bh_metadata_view handle))
      end
  end.

Definition host_unlock_cpu (buffer : option cpipe_buffer_s) : res cpipe_buffer_s :=
  match buffer with
  | None => bad_index
  | Some handle =>
      match bh_buffer handle with
      | None => bad_index
      | Some impl =>
          impl' ← unlock_cpu impl; Ok (mkBufferHandle (Some impl') (bh_metadata_view handle))
      end
  end.

(** A CPU buffer has nothing to flush. *)
Definition host_flush_cpu_writes (buffer : option cpipe_buffer_s) : res unit :=
  match buffer_from_handle buffer with None => bad_index | Some _ => Ok tt end.

(** ** Metadata suite *)

(** The arrays of a view of calibration data; [has_...] flags are the [option]s. *)
Record cpipe_calibration_view : Type := mkCalView {
  cv_cfa : option (list Z * list Z);
  cv_black_level : list float32;
  cv_white_level : Z;
  cv_has_linearization_table : bool;
  cv_color_matrix1 : option Matrix3;
  cv_color_matrix2 : option Matrix3;
  cv_forward_matrix1 : option Matrix3;
  cv_forward_matrix2 : option Matrix3;
  cv_calibration_illuminant1 : Z;
  cv_calibration_illuminant2 : Z
}.

Definition empty_calibration_view : cpipe_calibration_view :=
  mkCalView None (replicate 4 f_zero) 0 false None None None None 0 0.

Definition get_calibration (metadata : option cpipe_metadata_s) (out_null : bool)
    : res cpipe_calibration_view :=
  match metadata_from_handle metadata with
  | None => bad_index
  | Some impl =>
      if out_null then bad_index else
      match calibration impl with
      | None => Ok empty_calibration_view
      | Some c =>
          Ok (mkCalView (option_map (λ d, (repeat d, pattern d)) (cfa c)) (black_level c)
            (white_level c) (bool_decide (is_Some (linearization_table c))) (color_matrix1 c)
            (color_matrix2 c) (forward_matrix1 c) (forward_matrix2 c)
            (calibration_illuminant1 c) (calibration_illuminant2 c))
      end
  end.

(** [*out_n = values.size()] and the first [min(max, size)] values. *)
Definition copy_out {A} (max : nat) (values : list A) : nat * list A :=
  (length values, take (Nat.min max (length values)) values).

Definition get_linearization_table (metadata : option cpipe_metadata_s) (max_values : nat)
    (out_n_null out_values_null : bool) : res (nat * list Z) :=
  match metadata_from_handle metadata with
  | None => bad_index
  | Some impl =>
      if out_n_null || ((0 <? max_values)%nat && out_values_null) then bad_index else
      match calibration impl with
      | None => Ok (0%nat, [])
      | Some c =>
          match linearization_table c with
          | None => Ok (0%nat, [])
          | Some values => Ok (copy_out max_values values)
          end
      end
  end.

Record cpipe_capture_view : Type := mkCapView {
  cp_sensor_timestamp_ns : Z;
  cp_exposure_time_ns : Z;
  cp_iso : Z;
  cp_lens_focal_length_mm : float32;
  cp_lens_aperture : float32;
  cp_lens_focus_distance_d : float32;
  cp_as_shot_neutral : list float32;
  cp_orientation : Z;
  cp_burst_index : Z;
  cp_burst_size : Z
}.

Definition get_capture (metadata : option cpipe_metadata_s) (out_null : bool)
    : res cpipe_capture_view :=
  match metadata_from_handle metadata with
  | None => bad_index
  | Some impl =>
      if out_null then bad_index else
      let c := capture impl in
      Ok (mkCapView (sensor_timestamp_ns c) (exposure_time_ns c) (iso c) (lens_focal_length_mm c)
        (lens_aperture c) (lens_focus_distance_d c) (as_shot_neutral c) (orientation c)
        (burst_index c) (burst_size c))
  end.

Definition scheme_value (q : QuantScheme) : Z :=
  match q with QuantNone => 0 | QuantSymmetric => 1 | QuantAsymmetric => 2 end.

(** The scheme, and the axis when there is one. *)
Definition get_tensor_quant (metadata : option cpipe_metadata_s) (out_null : bool)
    : res (Z * option Z) :=
  match metadata_from_handle metadata with
  | None => bad_index
  | Some impl =>
      if out_null then bad_index else
      Ok (scheme_value (scheme (tensor_quant impl)), axis (tensor_quant impl))
  end.

Definition get_cs_role (metadata : option cpipe_metadata_s) (out_null : bool) : res string :=
  match metadata_from_handle metadata with
  | None => bad_index
  | Some impl => if out_null then bad_index else Ok (cs_role impl)
  end.

Definition get_active_area (metadata : option cpipe_metadata_s) (any_null : bool)
    : res (Z * Z * Z * Z) :=
  match metadata_from_handle metadata with
  | None => bad_index
  | Some impl =>
      if any_null then bad_index else
      match active_area impl with
      | None => Ok (0, 0, 0, 0)
      | Some r => Ok (rect_x r, rect_y r, rect_width r, rect_height r)
      end
  end.

Definition has_applied_step (metadata : option cpipe_metadata_s) (step : option string)
    (out_null : bool) : res Z :=
  match metadata_from_handle metadata, step with
  | Some impl, Some step =>
      if out_null then bad_index else
      Ok (if bool_decide (step ∈ applied_steps impl) then 1 else 0)
  | _, _ => bad_index
  end.

Definition list_applied_steps (metadata : option cpipe_metadata_s) (max : nat)
    (out_n_null out_steps_null : bool) : res (nat * list string) :=
  match metadata_from_handle metadata with
  | None => bad_index
  | Some impl =>
      if out_n_null || ((0 <? max)%nat && out_steps_null) then bad_index else
      Ok (copy_out max (applied_steps impl))
  end.

Definition find_blob (impl : BufferMetadata) (key : string) : option bytes :=
  if String.eqb key "exif_raw" && bool_decide (is_Some (exif_blob impl)) then exif_blob impl else
  if String.eqb key "xmp_raw" && bool_decide (is_Some (xmp_blob impl)) then xmp_blob impl else
  if String.eqb key "icc_raw" && bool_decide (is_Some (icc_blob impl)) then icc_blob impl else
  ext_blobs impl !! key.

Definition get_blob (metadata : option cpipe_metadata_s) (key : option string)
    (ptr_null size_null : bool) : res (bytes * Z) :=
  match metadata_from_handle metadata, key with
  | Some impl, Some key =>
      if ptr_null || size_null then bad_index else
      match find_blob impl key with
      | None => Fail CPIPE_FAILED ""
      | Some blob => Ok (blob, len blob)
      end
  | _, _ => bad_index
  end.

(** The body of [write_key] and of the loop over the extension blobs: the counter
    always advances, the key is stored while there is room. *)
Definition write_key (max : nat) (st : nat * list string) (key : string) : nat * list string :=
  let '(written, out) := st in
  (S written, if (written <? max)%nat then out ++ [key] else out).

(** [std::map] iterates in key order. *)
Definition string_le (a b : string) : Prop := String.leb a b = true.
#[export] Instance string_le_dec a b : Decision (string_le a b).
Proof. unfold string_le. apply _. Defined.

Definition ext_keys (impl : BufferMetadata) : list string :=
  merge_sort string_le (map_to_list (ext_blobs impl)).*1.

Definition list_blob_keys (metadata : option cpipe_metadata_s) (max : nat)
    (out_total_null out_keys_null : bool) : res (nat * list string) :=
  match metadata_from_handle metadata with
  | None => bad_index
  | Some impl =>
      if out_total_null || ((0 <? max)%nat && out_keys_null) then bad_index else
      let one (b : option bytes) := if b is Some _ then 1%nat else 0%nat in
      let total := (length (ext_keys impl) + one (exif_blob impl) + one (xmp_blob impl)
                    + one (icc_blob impl))%nat in
      let st := (0%nat, []) in
      let st := if exif_blob impl is Some _ then write_key max st "exif_raw" else st in
      let st := if xmp_blob impl is Some _ then write_key max st "xmp_raw" else st in
      let st := if icc_blob impl is Some _ then write_key max st "icc_raw" else st in
      let st := foldl (write_key max) st (ext_keys impl) in
      Ok (total, st.2)
  end.

Definition get_noise_profile (metadata : option cpipe_metadata_s) (max_pairs : nat)
    (out_n_null out_a_null out_b_null : bool) : res (nat * list (float32 * float32)) :=
  match metadata_from_handle metadata with
  | None => bad_index
  | Some impl =>
      if out_n_null || ((0 <? max_pairs)%nat && (out_a_null || out_b_null)) then bad_index else
      match calibration impl with
      | None => Ok (0%nat, [])
      | Some c => Ok (copy_out max_pairs (noise_profile c))
      end
  end.

(** The characters written before the terminating NUL; [None] when the capacity is
    zero and nothing is written. *)
Definition copy_text (text : string) (cap : nat) : option string :=
  let count := match cap with O => O | S c => Nat.min c (String.length text) end in
  match cap with O => None | _ => Some (String.substring 0 count text) end.

Definition get_camera_id (metadata : option cpipe_metadata_s) (out_null : bool) (cap : nat)
    : res (option string) :=
  match metadata_from_handle metadata with
  | None => bad_index
  | Some impl =>
      if (0 <? cap)%nat && out_null then bad_index else
      Ok (copy_text (camera_id (capture impl)) cap)
  end.

Definition get_physical_camera_id (metadata : option cpipe_metadata_s) (out_null : bool) (cap : nat)
    : res (option string) :=
  match metadata_from_handle metadata with
  | None => bad_index
  | Some impl =>
      if (0 <? cap)%nat && out_null then bad_index else
      Ok (copy_text (physical_camera_id (capture impl)) cap)
  end.

Definition get_scales (metadata : option cpipe_metadata_s) (max : nat) (out_n_null out_null : bool)
    : res (nat * list float32) :=
  match metadata_from_handle metadata with
  | None => bad_index
  | Some impl =>
      if out_n_null || ((0 <? max)%nat && out_null) then bad_index else
      Ok (copy_out max (scales (tensor_quant impl)))
  end.

Definition get_zero_points (metadata : option cpipe_metadata_s) (max : nat)
    (out_n_null out_null : bool) : res (nat * list Z) :=
  match metadata_from_handle metadata with
  | None => bad_index
  | Some impl =>
      if out_n_null || ((0 <? max)%nat && out_null) then bad_index else
      Ok (copy_out max (zero_points (tensor_quant impl)))
  end.

(** ** Metadata builder suite *)

(** A call on the builder behind a handle. *)
Definition with_builder (builder : option cpipe_metadata_builder_s)
    (f : MetadataBuilder → res MetadataBuilder) : res cpipe_metadata_builder_s :=
  match builder with
  | None => bad_index
  | Some h => b ← f (bu_builder h); Ok (mkBuilderHandle b (bu_input_metadata h))
  end.

Definition share_calibration_from (builder : option cpipe_metadata_builder_s) (input_idx : nat)
    : res cpipe_metadata_builder_s :=
  match builder with
  | None => bad_index
  | Some h =>
      match bu_input_metadata h !! input_idx with
      | None => bad_index
      | Some input => with_builder builder (set_calibration (input ≫= calibration))
      end
  end.

Definition host_clear_calibration (builder : option cpipe_metadata_builder_s) :=
  with_builder builder clear_calibration.

Definition host_clear_cfa (builder : option cpipe_metadata_builder_s) :=
  with_builder builder clear_cfa.

Definition host_set_as_shot_neutral (builder : option cpipe_metadata_builder_s)
    (rgb : option (list float32)) : res cpipe_metadata_builder_s :=
  match rgb with
  | None => bad_index
  | Some rgb => with_builder builder (set_as_shot_neutral (take 3 rgb))
  end.

Definition host_set_orientation (builder : option cpipe_metadata_builder_s) (orient : Z) :=
  with_builder builder (set_orientation orient).

Definition host_set_cs_role (builder : option cpipe_metadata_builder_s) (role : option string)
    : res cpipe_metadata_builder_s :=
  match role with
  | None => bad_index
  | Some role => with_builder builder (set_cs_role role)
  end.

Definition host_add_applied_step (builder : option cpipe_metadata_builder_s) (step : option string)
    : res cpipe_metadata_builder_s :=
  match step with
  | None => bad_index
  | Some step => with_builder builder (add_applied_step step)
  end.

Definition host_remove_applied_step (builder : option cpipe_metadata_builder_s)
    (step : option string) : res cpipe_metadata_builder_s :=
  match step with
  | None => bad_index
  | Some step => with_builder builder (remove_applied_step step)
  end.

Definition host_set_active_area (builder : option cpipe_metadata_builder_s) (x y w h : Z) :=
  with_builder builder (set_active_area (Some (mkRect x y w h))).

Definition scheme_of_int (z : Z) : QuantScheme :=
  if z =? 0 then QuantNone else if z =? 1 then QuantSymmetric else QuantAsymmetric.

(** A pointer and a count are a list, or null with the count given. *)
Definition host_set_tensor_quant (builder : option cpipe_metadata_builder_s) (scheme has_axis axis : Z)
    (scales : option (list float32)) (n_scales : nat)
    (zero_points : option (list Z)) (n_zp : nat) : res cpipe_metadata_builder_s :=
  match builder with
  | None => bad_index
  | Some _ =>
      if (scheme <? 0) || (2 <? scheme) || ((0 <? n_scales)%nat && bool_decide (scales = None))
         || ((0 <? n_zp)%nat && bool_decide (zero_points = None)) then bad_index else
      with_builder builder (set_tensor_quant (mkQuant (scheme_of_int scheme)
        (if negb (has_axis =? 0) then Some axis else None)
        (take n_scales (default [] scales)) (take n_zp (default [] zero_points))))
  end.

Definition host_set_blob (builder : option cpipe_metadata_builder_s) (key : option string)
    (ptr : option bytes) (size : nat) : res cpipe_metadata_builder_s :=
  match builder, key with
  | Some _, Some key =>
      if (0 <? size)%nat && bool_decide (ptr = None) then bad_index else
      if (size =? 0)%nat then with_builder builder (set_blob key None) else
      with_builder builder (set_blob key (Some (take size (default [] ptr))))
  | _, _ => bad_index
  end.

Definition host_set_cfa (builder : option cpipe_metadata_builder_s) (repeat pattern : option (list Z))
    : res cpipe_metadata_builder_s :=
  match repeat, pattern with
  | Some repeat, Some pattern => with_builder builder (set_cfa (mkCFA (take 2 repeat) (take 16 pattern)))
  | _, _ => bad_index
  end.

Definition merge_from (policy : Z) : cpipe_status_t :=
  if policy =? 0 then CPIPE_OK else CPIPE_UNSUPPORTED.

(** ** Parameter suite *)

Section params.
Context `{JsonLib}.

(** [params] is null, or the JSON object behind the handle. *)
Definition param_value (params : option json) (key : option string) (out_null : bool)
    (is_type : json → bool) : res json :=
  match params, key with
  | Some params, Some key =>
      if out_null || negb (contains params key) then Fail CPIPE_NEED_PARAM "" else
      value ← at_key params key;
      if is_type value then at_key params key else Fail CPIPE_NEED_PARAM ""
  | _, _ => Fail CPIPE_NEED_PARAM ""
  end.

Definition get_param_double (props : option json) (key : option string) (out_null : bool)
    : res float64 := value ← param_value props key out_null is_number; get_double value.

Definition get_param_int (props : option json) (key : option string) (out_null : bool) : res Z :=
  value ← param_value props key out_null is_number_integer; get_i64 value.

Definition get_param_bool (props : option json) (key : option string) (out_null : bool) : res Z :=
  value ← param_value props key out_null is_boolean;
  b ← get_bool value; Ok (if b : bool then 1 else 0).

Definition get_param_enum (props : option json) (key : option string) (out_null : bool)
    : res string := value ← param_value props key out_null is_string; get_string value.

Definition get_param_color (props : option json) (key : option string) (out_null : bool)
    : res (list float32) :=
  value ← param_value props key out_null
    (λ v, is_array v && (length (elements v) =? 4)%nat);
  foldM (λ rgba v,
    if is_number v then f ← get_float v; Ok (rgba ++ [f]) else Fail CPIPE_NEED_PARAM "")
    [] (elements value).

End params.

(** Operations the host does not offer. *)
Definition get_param_curve : cpipe_status_t := CPIPE_UNSUPPORTED.
Definition submit_slang : cpipe_status_t := CPIPE_UNSUPPORTED.
Definition request_scratch : cpipe_status_t := CPIPE_UNSUPPORTED.
Definition submit_inference : cpipe_status_t := CPIPE_UNSUPPORTED.

(** ** Colour processors *)

(** OpenColorIO, a third-party library, makes a CPU processor or throws; a processor
    maps the bit patterns of interleaved RGBA floats.  [vulkan] tells whether a GPU
    processor is made beside it. *)
Record cpipe_ocio_processor_s : Type := mkOcio {
  oc_cpu_processor : option (list Z → list Z);
  oc_vulkan : bool;
  oc_config_path : string;
  oc_src_cs : string;
  oc_dst_cs : string
}.

Definition ocio_key (p : cpipe_ocio_processor_s) : string * string * string :=
  (oc_config_path p, oc_src_cs p, oc_dst_cs p).

(** [context->ocio_processors_] and the index of the entry returned. *)
Fixpoint find_processor (l : list cpipe_ocio_processor_s) (key : string * string * string)
    : option nat :=
  match l with
  | [] => None
  | p :: l' => if decide (ocio_key p = key) then Some 0%nat else option_map S (find_processor l' key)
  end.

Definition get_ocio_processor (create : string → string → string → res (list Z → list Z))
    (vulkan_enabled self_null : bool) (processors : list cpipe_ocio_processor_s)
    (config_path src_cs dst_cs : option string) : option nat * list cpipe_ocio_processor_s :=
  match config_path, src_cs, dst_cs with
  | Some config, Some src, Some dst =>
      if self_null then (None, processors) else
      match find_processor processors (config, src, dst) with
      | Some i => (Some i, processors)
      | None =>
          match create config src dst with
          | Ok processor =>
              (Some (length processors),
               processors ++ [mkOcio (Some processor) vulkan_enabled config src dst])
          | _ => (None, processors)
          end
      end
  | _, _, _ => (None, processors)
  end.

Definition validate_ocio_layouts (layout output_layout : BufferLayout) : cpipe_status_t :=
  if bool_decide (kind layout ≠ Image2D) || negb (ndim layout =? 2) ||
     bool_decide (kind output_layout ≠ Image2D) || negb (ndim output_layout =? 2) ||
     negb (nth8 (dims output_layout) 0 =? nth8 (dims layout) 0) ||
     negb (nth8 (dims output_layout) 1 =? nth8 (dims layout) 1)
  then CPIPE_BAD_INDEX else
  if bool_decide (format layout ≠ R32G32B32A32_SFLOAT) &&
     bool_decide (format layout ≠ R16G16B16A16_SFLOAT)
  then CPIPE_BAD_PRECISION else CPIPE_OK.

(** The [i]-th little-endian element of [width] bytes behind a data pointer. *)
Definition load_le (data : option bytes) (width i : nat) : res Z :=
  match data with
  | None => Undef
  | Some bs =>
      if (length bs <? (i + 1) * width)%nat then Undef else
      Ok (foldr (λ b acc, b + 256 * acc) 0 (take width (drop (i * width) bs)))
  end.

Fixpoint load_all (data : option bytes) (width i n : nat) : res (list Z) :=
  match n with
  | O => Ok []
  | S n' => x ← load_le data width i; l ← load_all data width (S i) n'; Ok (x :: l)
  end.

(** The bytes of an element. *)
Fixpoint le_bytes (width : nat) (v : Z) : bytes :=
  match width with O => [] | S w => v `mod` 256 :: le_bytes w (v / 256) end.

(** [out[i] = v] for consecutive [i]. *)
Definition store_all (data : option bytes) (width : nat) (values : list Z) : res (option bytes) :=
  match values with
  | [] => Ok data
  | _ =>
      match data with
      | None => Undef
      | Some bs =>
          if (length bs <? length values * width)%nat then Undef else
          Ok (Some ((values ≫= le_bytes width) ++ drop (length values * width) bs))
      end
  end.

Definition buffer_with_data (b : CpuBuffer) (d : option bytes) : CpuBuffer :=
  mkCpuBuffer (cb_layout b) (cb_usage b) (cb_color_role b) (cb_metadata b) d (cb_size_bytes b)
    (cb_locked b).

Definition read_ocio_input (input : CpuBuffer) (layout : BufferLayout) : res (list Z * CpuBuffer) :=
  let pixel_count := u64 (nth8 (dims layout) 0 * nth8 (dims layout) 1) in
  let n := Z.to_nat (u64 (pixel_count * 4)) in
  '(data, input) ← lock_cpu AccessRead input;
  rgba ← (if decide (format layout = R32G32B32A32_SFLOAT) then load_all data 4 0 n
          else l ← load_all data 2 0 n; Ok (List.map half_to_bits l));
  input ← unlock_cpu input;
  Ok (rgba, input).

Fixpoint map_res {A B} (f : A → res B) (l : list A) : res (list B) :=
  match l with
  | [] => Ok []
  | x :: l' => y ← f x; ys ← map_res f l'; Ok (y :: ys)
  end.

Definition write_ocio_output (output : CpuBuffer) (output_layout : BufferLayout) (rgba : list Z)
    : res CpuBuffer :=
  let write (width : nat) (conv : Z → res Z) :=
    '(data, output) ← lock_cpu AccessWrite output;
    values ← map_res conv rgba;
    data ← store_all data width values;
    unlock_cpu (buffer_with_data output data) in
  if decide (format output_layout = R32G32B32A32_SFLOAT) then write 4%nat Ok else
  if decide (format output_layout = R16G16B16A16_SFLOAT)
  then write 2%nat (λ x, Ok (float_to_half x)) else
  if decide (format output_layout = R8G8B8A8_UNORM)
  then write 1%nat (λ x, float_to_unorm8 (float_of_bits x)) else
  if decide (format output_layout = R16G16B16A16_UNORM)
  then write 2%nat (λ x, float_to_unorm10_top_aligned (float_of_bits x)) else
  Fail CPIPE_BAD_PRECISION "".

(** The CPU path; [input] and [output] are distinct buffers.  The GPU path is taken
    only for Vulkan images. *)
Definition submit_ocio_processor (processor : option cpipe_ocio_processor_s)
    (input_handle output_handle : option cpipe_buffer_s) : res (CpuBuffer * CpuBuffer) :=
  match processor ≫= oc_cpu_processor, input_handle, output_handle with
  | Some apply, Some input_handle, Some output_handle =>
      match bh_buffer input_handle, bh_buffer output_handle with
      | Some input, Some output =>
          let layout := cb_layout input in
          let output_layout := cb_layout output in
          let status := validate_ocio_layouts layout output_layout in
          if decide (status ≠ CPIPE_OK) then Fail status "" else
          '(rgba, input) ← read_ocio_input input layout;
          output ← write_ocio_output output output_layout (apply rgba);
          Ok (input, output)
      | _, _ => bad_index
      end
  | _, _, _ => bad_index
  end.

(** ** Lemmas *)

Lemma write_keys_spec max keys : ∀ written out,
  length out = Nat.min max written →
  foldl (write_key max) (written, out) keys =
    ((written + length keys)%nat, out ++ take (max - written) keys) ∧
  length (out ++ take (max - written) keys) = Nat.min max (written + length keys).
Proof.
  induction keys as [|k keys IH]; intros written out Hl; simpl.
  - rewrite Nat.add_0_r, take_nil, app_nil_r. done.
  - destruct (Nat.ltb_spec written max) as [Hlt|Hge].
    + destruct (IH (S written) (out ++ [k])) as [-> Hlen].
      { rewrite length_app. simpl. lia. }
      replace (max - written)%nat with (S (max - S written)) by lia. simpl.
      rewrite <-app_assoc in *. split; [f_equal; lia|]. simpl in Hlen. rewrite Hlen. lia.
    + destruct (IH (S written) out) as [-> Hlen]; [lia|].
      replace (max - S written)%nat with 0%nat in * by lia.
      replace (max - written)%nat with 0%nat by lia. rewrite !take_0, app_nil_r in *.
      split; [f_equal; lia|lia].
Qed.

(** All keys, in the order in which they are listed. *)
Definition all_keys (impl : BufferMetadata) : list string :=
  (if exif_blob impl is Some _ then ["exif_raw"] else []) ++
  (if xmp_blob impl is Some _ then ["xmp_raw"] else []) ++
  (if icc_blob impl is Some _ then ["icc_raw"] else []) ++ ext_keys impl.

Lemma list_blob_keys_eq impl max :
  list_blob_keys (Some (Some impl)) max false false
  = Ok (length (all_keys impl), take max (all_keys impl)).
Proof.
  unfold list_blob_keys. cbn [metadata_from_handle mbind option_bind orb]. rewrite andb_false_r.
  set (st := foldl _ _ _).
  assert (st.2 = take max (all_keys impl)) as Hst.
  { assert (st = foldl (write_key max) (0%nat, []) (all_keys impl)) as ->.
    { unfold st, all_keys. rewrite !foldl_app.
      by destruct (exif_blob impl), (xmp_blob impl), (icc_blob impl). }
    destruct (write_keys_spec max (all_keys impl) 0 []) as [-> _]; [simpl; lia|].
    simpl. by rewrite Nat.sub_0_r. }
  rewrite Hst. do 2 f_equal. unfold all_keys. rewrite !length_app.
  destruct (exif_blob impl), (xmp_blob impl), (icc_blob impl); simpl; lia.
Qed.

Lemma elem_of_ext_keys impl key : key ∈ ext_keys impl ↔ is_Some (ext_blobs impl !! key).
Proof.
  unfold ext_keys. rewrite merge_sort_Permutation, list_elem_of_fmap. split.
  - intros ([k b] & -> & Hin). apply elem_of_map_to_list in Hin. simpl. eauto.
  - intros [b Hb]. exists (key, b). split; [done|]. by apply elem_of_map_to_list.
Qed.

Lemma find_blob_keys impl key : is_Some (find_blob impl key) ↔ key ∈ all_keys impl.
Proof.
  unfold find_blob, all_keys. rewrite !elem_of_app, elem_of_ext_keys.
  destruct (exif_blob impl) as [e|], (xmp_blob impl) as [x|], (icc_blob impl) as [c|];
    rewrite ?(bool_decide_true (is_Some (Some _))) by eauto;
    rewrite ?(bool_decide_false (is_Some None)) by (by intros []);
    rewrite ?andb_true_r, ?andb_false_r, ?list_elem_of_singleton;
    repeat match goal with |- context [String.eqb key ?k] =>
      destruct (String.eqb_spec key k) as [->|?]; simpl end;
    rewrite ?elem_of_nil; naive_solver.
Qed.

(** ** Theorems *)

(** the blob-key listing is sound and complete: it reports the number of keys,
    writes the first [max] of them and no more, every key it writes can be fetched,
    and when the array is large enough every key that can be fetched is written. *)
Theorem list_blob_keys_complete (impl : BufferMetadata) (max total : nat) (keys : list string) :
  list_blob_keys (Some (Some impl)) max false false = Ok (total, keys) →
  length keys = Nat.min max total ∧
  (∀ key, key ∈ keys → ∃ blob, get_blob (Some (Some impl)) (Some key) false false = Ok blob) ∧
  ((total ≤ max)%nat → ∀ key blob, get_blob (Some (Some impl)) (Some key) false false = Ok blob →
    key ∈ keys).
Proof.
  rewrite list_blob_keys_eq. intros [= <- <-].
  assert (∀ key, (∃ blob, get_blob (Some (Some impl)) (Some key) false false = Ok blob) ↔
    key ∈ all_keys impl) as Hget.
  { intros key. rewrite <-find_blob_keys. unfold get_blob. simpl.
    destruct (find_blob impl key) as [b|].
    - split; intros _; by eexists.
    - split; intros [? E]; discriminate E. }
  split_and!.
  - by rewrite length_take.
  - intros key Hkey. apply Hget. apply elem_of_take in Hkey as (i & Hi & _).
    by eapply list_elem_of_lookup_2.
  - intros Hmax key blob Hb. rewrite take_ge by done. apply Hget. eauto.
Qed.

(** The blob a key resolves to before the extension map is looked at. *)
Definition reserved_blob (m : BufferMetadata) (key : string) : option bytes :=
  if String.eqb key "exif_raw" then exif_blob m else
  if String.eqb key "xmp_raw" then xmp_blob m else
  if String.eqb key "icc_raw" then icc_blob m else None.

Lemma bool_decide_is_Some {A} (o : option A) :
  bool_decide (is_Some o) = match o with Some _ => true | None => false end.
Proof. destruct o; [by apply bool_decide_true; eexists|by apply bool_decide_false; intros []]. Qed.

Lemma find_blob_reserved m key :
  find_blob m key = match reserved_blob m key with Some b => Some b | None => ext_blobs m !! key end.
Proof.
  unfold find_blob, reserved_blob. rewrite !bool_decide_is_Some.
  destruct (String.eqb_spec key "exif_raw") as [->|]; [by destruct (exif_blob m)|].
  destruct (String.eqb_spec key "xmp_raw") as [->|]; [by destruct (xmp_blob m)|].
  destruct (String.eqb_spec key "icc_raw") as [->|]; [by destruct (icc_blob m)|]. done.
Qed.

(** What a plugin sees of key [key] after a successful [set_blob] and the freeze. *)
Lemma set_blob_then_get h key data size :
  frozen_ (bu_builder h) = None → ((0 < size)%nat → is_Some data) →
  ∃ h' m, host_set_blob (Some h) (Some key) data size = Ok h' ∧
    (freeze_metadata_builder (Some h')).1 = Some m ∧
    reserved_blob m key = reserved_blob (metadata_ (bu_builder h)) key ∧
    ext_blobs m !! key =
      (if (size =? 0)%nat then None else Some (take size (default [] data))) ∧
    ∀ other, other ≠ key → find_blob m other = find_blob (metadata_ (bu_builder h)) other.
Proof.
  intros Hf Hd. destruct h as [[md fr] inputs]. simpl in Hf. subst fr. unfold host_set_blob.
  assert ((0 <? size)%nat && bool_decide (data = None) = false) as ->.
  { destruct (Nat.ltb_spec 0 size) as [Hs|]; [|done]. destruct (Hd Hs) as [d ->]. done. }
  destruct (Nat.eqb_spec size 0) as [->|Hne]; simpl; unfold mutate, ensure_mutable; simpl;
    eexists _, _; split_and!; try done; simpl.
  - apply lookup_delete_eq.
  - intros other Hne. rewrite !find_blob_reserved. unfold reserved_blob. simpl.
    by rewrite lookup_delete_ne.
  - apply lookup_insert_eq.
  - intros other Ho. rewrite !find_blob_reserved. unfold reserved_blob. simpl.
    by rewrite lookup_insert_ne.
Qed.

(** a blob set through the builder is what readers of the frozen metadata get
    (nothing, for size zero), and no other key is affected; this holds for every key
    that the base metadata does not reserve. *)
Theorem set_blob_roundtrip (h : cpipe_metadata_builder_s) (key : string) (data : bytes) (size : nat) :
  frozen_ (bu_builder h) = None → (size ≤ length data)%nat →
  reserved_blob (metadata_ (bu_builder h)) key = None →
  ∃ h' m, host_set_blob (Some h) (Some key) (Some data) size = Ok h' ∧
    (freeze_metadata_builder (Some h')).1 = Some m ∧
    get_blob (Some (Some m)) (Some key) false false =
      (if (size =? 0)%nat then Fail CPIPE_FAILED "" else Ok (take size data, Z.of_nat size)) ∧
    ∀ other, other ≠ key →
      get_blob (Some (Some m)) (Some other) false false
      = get_blob (Some (Some (metadata_ (bu_builder h)))) (Some other) false false.
Proof.
  intros Hf Hsize Hres.
  destruct (set_blob_then_get h key (Some data) size Hf) as (h' & m & Hs & Hfr & Hr & He & Ho);
    [eauto|]. exists h', m. split_and!; [done|done| |].
  - unfold get_blob. simpl. rewrite find_blob_reserved, Hr, Hres, He. destruct (Nat.eqb_spec size 0); [done|].
    simpl. unfold len. rewrite length_take. do 3 f_equal. lia.
  - intros other Hne. unfold get_blob. simpl. by rewrite Ho.
Qed.

(** the reserved keys cannot be overwritten or cleared: when the base metadata
    carries an EXIF, XMP or ICC blob, readers of the frozen metadata still get it
    after [set_blob] on its key, whatever was written and also for size zero. *)
Theorem set_blob_reserved_shadowed (h : cpipe_metadata_builder_s) (key : string)
    (data : option bytes) (size : nat) (old : bytes) :
  frozen_ (bu_builder h) = None → ((0 < size)%nat → is_Some data) →
  reserved_blob (metadata_ (bu_builder h)) key = Some old →
  ∃ h' m, host_set_blob (Some h) (Some key) data size = Ok h' ∧
    (freeze_metadata_builder (Some h')).1 = Some m ∧
    get_blob (Some (Some m)) (Some key) false false = Ok (old, len old).
Proof.
  intros Hf Hd Hres.
  destruct (set_blob_then_get h key data size Hf Hd) as (h' & m & Hs & Hfr & Hr & _).
  exists h', m. split_and!; [done|done|]. unfold get_blob. simpl.
  by rewrite find_blob_reserved, Hr, Hres.
Qed.

Section param_theorems.
Context `{J : JsonLib} `{!JsonLaws J}.

Lemma param_value_spec params key out_null is_type :
  (∃ v, param_value params key out_null is_type = Ok v ∧ is_type v = true ∧ out_null = false ∧
     ∃ p k, params = Some p ∧ key = Some k ∧ find_key p k = Some v) ∨
  (param_value params key out_null is_type = Fail CPIPE_NEED_PARAM "" ∧
     ∀ p k v, params = Some p → key = Some k → find_key p k = Some v → out_null = false →
       is_type v = false).
Proof.
  unfold param_value. destruct params as [p|]; [|right; by split].
  destruct key as [k|]; [|right; split; [done|naive_solver]].
  destruct out_null; [right; split; [done|naive_solver]|]. simpl.
  unfold contains. destruct (find_key p k) as [v|] eqn:Hk.
  - rewrite bool_decide_true by (by eexists). simpl. rewrite (at_key_found _ _ _ Hk). simpl.
    destruct (is_type v) eqn:Ht; [left; exists v; naive_solver|right].
    split; [done|]. intros p' k' v' [= <-] [= <-] Hk' _. congruence.
  - rewrite (bool_decide_false (is_Some None)) by (by intros []). right.
    split; [done|]. intros p' k' v' [= <-] [= <-] Hk' _. congruence.
Qed.

(** A getter answers with the converted value of a present parameter of its type,
    and with [CPIPE_NEED_PARAM] when there is none. *)
Definition getter_exact {A} (is_type : json → bool) (conv : json → res A) (params : json)
    (key : string) (outcome : res A) : Prop :=
  (∃ v a, find_key params key = Some v ∧ is_type v = true ∧ conv v = Ok a ∧ outcome = Ok a) ∨
  (outcome = Fail CPIPE_NEED_PARAM "" ∧ ∀ v, find_key params key = Some v → is_type v = false).

Lemma getter_exact_bind {A} (is_type : json → bool) (conv : json → res A) params key :
  (∀ v, is_type v = true → ∃ a, conv v = Ok a) →
  getter_exact is_type conv params key
    (v ← param_value (Some params) (Some key) false is_type; conv v).
Proof.
  intros Hconv. destruct (param_value_spec (Some params) (Some key) false is_type)
    as [(v & Hv & Ht & _ & p & k & [= <-] & [= <-] & Hk)|[Hf Hno]].
  - left. destruct (Hconv v Ht) as [a Ha]. exists v, a. split_and!; [done..|]. by rewrite Hv.
  - right. rewrite Hf. split; [done|]. intros v Hv. by eapply Hno.
Qed.

(** the scalar parameter getters succeed exactly when the parameter is present
    with the getter's type, answer [CPIPE_NEED_PARAM] otherwise, and let no JSON
    exception escape. *)
Theorem param_getters_exact (params : json) (key : string) :
  getter_exact is_number get_double params key (get_param_double (Some params) (Some key) false) ∧
  getter_exact is_number_integer get_i64 params key (get_param_int (Some params) (Some key) false) ∧
  getter_exact is_boolean (λ v, b ← get_bool v; Ok (if b : bool then 1 else 0)) params key
    (get_param_bool (Some params) (Some key) false) ∧
  getter_exact is_string get_string params key (get_param_enum (Some params) (Some key) false).
Proof.
  split_and!; apply getter_exact_bind.
  - apply get_double_number.
  - apply get_i64_integer.
  - intros v Hv. destruct (get_bool_boolean v Hv) as [b ->]. by eexists.
  - intros v Hv. by apply get_string_type.
Qed.

End param_theorems.

(** ** The processor cache *)

Lemma find_processor_Some l key i :
  find_processor l key = Some i → ∃ p, l !! i = Some p ∧ ocio_key p = key.
Proof.
  revert i. induction l as [|p l IH]; intros i; simpl; [done|]. case_decide as Hk.
  - intros [= <-]. by exists p.
  - destruct (find_processor l key) as [j|]; simpl; [|done]. intros [= <-]. apply (IH j eq_refl).
Qed.

Lemma find_processor_None l key : find_processor l key = None ↔ key ∉ ocio_key <$> l.
Proof.
  induction l as [|p l IH]; simpl; [set_solver|]. rewrite elem_of_cons. case_decide as Hk.
  - naive_solver.
  - destruct (find_processor l key); simpl; naive_solver.
Qed.

Lemma find_processor_app l p :
  find_processor l (ocio_key p) = None → find_processor (l ++ [p]) (ocio_key p) = Some (length l).
Proof.
  induction l as [|q l IH]; simpl; [by rewrite decide_True|]. case_decide; [done|].
  intros Hf. destruct (find_processor l (ocio_key p)); [done|]. by rewrite IH.
Qed.

(** the colour-processor cache: whatever a call returns is an entry for the
    requested configuration and colour spaces; keys stay unique; and repeating the
    call returns the same entry without creating another. *)
Theorem get_ocio_processor_cached create create' vulkan vulkan'
    (processors : list cpipe_ocio_processor_s) (config src dst : string) (i : nat) processors' :
  NoDup (ocio_key <$> processors) →
  get_ocio_processor create vulkan false processors (Some config) (Some src) (Some dst)
    = (Some i, processors') →
  NoDup (ocio_key <$> processors') ∧
  (∃ p, processors' !! i = Some p ∧ ocio_key p = (config, src, dst)) ∧
  get_ocio_processor create' vulkan' false processors' (Some config) (Some src) (Some dst)
    = (Some i, processors').
Proof.
  intros Hnd. unfold get_ocio_processor.
  destruct (find_processor processors (config, src, dst)) as [j|] eqn:Hf.
  - intros [= -> <-]. rewrite Hf. split_and!; [done| |done]. by apply find_processor_Some.
  - destruct (create config src dst) as [f| | |]; [|done..]. intros [= <- <-].
    set (p := mkOcio (Some f) vulkan config src dst).
    assert (find_processor (processors ++ [p]) (config, src, dst) = Some (length processors)) as Hp.
    { by apply (find_processor_app processors p). }
    rewrite Hp. split_and!; [|by apply find_processor_Some|done].
    rewrite fmap_app. apply NoDup_app. split_and!; [done| |apply NoDup_singleton].
    intros k Hk ->%list_elem_of_singleton. by apply find_processor_None in Hf.
Qed.

(** ** Memory safety of the colour pass *)

(** A CPU image as the runtime allocates it, of a size that does not overflow. *)
Record image_ok (b : CpuBuffer) : Prop := {
  im_dims : ∃ w h rest, dims (cb_layout b) = w :: h :: rest ∧ 0 ≤ w ∧ 0 ≤ h ∧ w * h * 16 < 2 ^ 64;
  im_stride : Forall (λ s, s = 0) (stride (cb_layout b));
  im_data : match cb_data b with
            | Some bs => len bs = size_bytes (cb_layout b)
            | None => size_bytes (cb_layout b) = 0
            end;
  im_unlocked : cb_locked b = false;
  im_read : has_usage (cb_usage b) usage_CpuRead = true;
  im_write : has_usage (cb_usage b) usage_CpuWrite = true
}.

Lemma image_size b w h rest :
  image_ok b → kind (cb_layout b) = Image2D → ndim (cb_layout b) = 2 →
  dims (cb_layout b) = w :: h :: rest → 0 ≤ w → 0 ≤ h → w * h * 16 < 2 ^ 64 →
  size_bytes (cb_layout b) = bytes_per_pixel (format (cb_layout b)) * (w * h).
Proof.
  intros Hok Hk Hn Hd Hw Hh Hlt. unfold size_bytes. rewrite decide_False by (by rewrite Hk).
  rewrite Hn, Hd. simpl.
  pose proof (bytes_per_pixel_bound (format (cb_layout b))) as Hb.
  destruct (bytes_per_pixel (format (cb_layout b)) =? 0) eqn:E0; [apply Z.eqb_eq in E0; nia|].
  assert (nth8 (stride (cb_layout b)) 1 = 0) as Hs.
  { unfold nth8. destruct (stride (cb_layout b) !! _) eqn:Hl; [|done].
    by eapply Forall_lookup_1 in Hl; [|exact (im_stride _ Hok)]. }
  change (2 - 1) with 1. rewrite Hs. simpl.
  unfold u64, wrap. rewrite Z.mul_mod_idemp_l, <-Z.mul_assoc by done.
  pose proof (Z.mul_nonneg_nonneg w h Hw Hh). apply Z.mod_small. nia.
Qed.

Lemma load_all_Ok data width n : ∀ i,
  (∀ bs, data = Some bs → (i + n) * width ≤ length bs)%nat → (data = None → n = 0%nat) →
  ∃ l, load_all data width i n = Ok l ∧ length l = n.
Proof.
  induction n as [|n IH]; intros i Hd Hn; simpl; [by exists []|].
  destruct data as [bs|]; [|by specialize (Hn eq_refl)]. specialize (Hd bs eq_refl) as Hlen.
  simpl. rewrite (proj2 (Nat.ltb_ge _ _)) by nia. simpl.
  destruct (IH (S i)) as (l & -> & Hl); [intros bs' [= <-]; nia|done|].
  simpl. eexists. split; [done|]. simpl. lia.
Qed.

Lemma map_res_Ok {A B} (f : A → res B) l :
  (∀ x, ∃ y, f x = Ok y) → ∃ ys, map_res f l = Ok ys ∧ length ys = length l.
Proof.
  intros Hf. induction l as [|x l (ys & IH & Hl)]; simpl; [by exists []|].
  destruct (Hf x) as [y ->]. simpl. rewrite IH. exists (y :: ys). simpl. split; [done|lia].
Qed.

Lemma length_le_bytes width : ∀ v, length (le_bytes width v) = width.
Proof. induction width as [|w IH]; intros v; simpl; [done|]. by rewrite IH. Qed.

Lemma length_bind_le_bytes width values :
  length (values ≫= le_bytes width) = (length values * width)%nat.
Proof.
  induction values as [|v values IH]; [done|]. simpl. rewrite length_app, length_le_bytes.
  unfold mbind in IH. rewrite IH. lia.
Qed.

Lemma store_all_Ok data width values :
  (∀ bs, data = Some bs → length values * width ≤ length bs)%nat →
  (data = None → values = []) →
  ∃ d, store_all data width values = Ok d ∧ option_map length d = option_map length data.
Proof.
  intros Hd Hn. unfold store_all. destruct values as [|v values]; [by exists data|].
  destruct data as [bs|]; [|by specialize (Hn eq_refl)]. specialize (Hd bs eq_refl).
  rewrite (proj2 (Nat.ltb_ge _ _)) by done. eexists. split; [done|].
  pose proof (length_bind_le_bytes width (v :: values)) as Hl. cbn [option_map]. f_equal.
  rewrite length_app, Hl, length_drop. lia.
Qed.

(** What the layout check establishes. *)
Lemma validate_ocio_layouts_ok l o :
  validate_ocio_layouts l o = CPIPE_OK →
  kind l = Image2D ∧ ndim l = 2 ∧ kind o = Image2D ∧ ndim o = 2 ∧
  nth8 (dims l) 0 = nth8 (dims o) 0 ∧ nth8 (dims l) 1 = nth8 (dims o) 1 ∧
  (format l = R32G32B32A32_SFLOAT ∨ format l = R16G16B16A16_SFLOAT).
Proof.
  unfold validate_ocio_layouts. intros Hval.
  destruct (_ || _) eqn:Hor in Hval; [done|]. rewrite !orb_false_iff in Hor.
  destruct Hor as [[[[[K1 N1] K2] N2] D0] D1].
  destruct (_ && _) eqn:Hf in Hval; [done|].
  apply bool_decide_eq_false, dec_stable in K1, K2.
  rewrite negb_false_iff in N1, N2, D0, D1. rewrite Z.eqb_eq in N1, N2, D0, D1.
  split_and!; try done. apply andb_false_iff in Hf as [Hf|Hf];
    apply bool_decide_eq_false, dec_stable in Hf; auto.
Qed.

(** An image of [w * h] pixels is read as that many RGBA samples. *)
Lemma read_ocio_input_Ok input w h rest :
  image_ok input → kind (cb_layout input) = Image2D → ndim (cb_layout input) = 2 →
  dims (cb_layout input) = w :: h :: rest → 0 ≤ w → 0 ≤ h → w * h * 16 < 2 ^ 64 →
  (format (cb_layout input) = R32G32B32A32_SFLOAT ∨
   format (cb_layout input) = R16G16B16A16_SFLOAT) →
  ∃ rgba, read_ocio_input input (cb_layout input) = Ok (rgba, input) ∧
    length rgba = Z.to_nat (w * h * 4).
Proof.
  intros Hin Hk Hn Hd Hw Hh Hwh Hfmt.
  pose proof (image_size _ _ _ _ Hin Hk Hn Hd Hw Hh Hwh) as Si.
  pose proof (Z.mul_nonneg_nonneg w h Hw Hh) as Hpos.
  unfold read_ocio_input. rewrite Hd. unfold nth8. simpl.
  rewrite (u64_small (w * h)) by lia. rewrite u64_small by lia. set (n := Z.to_nat (w * h * 4)).
  unfold lock_cpu. rewrite (im_unlocked _ Hin), (im_read _ Hin). simpl.
  assert (buffer_with_lock (buffer_with_lock input true) false = input) as Hback.
  { pose proof (im_unlocked _ Hin). destruct input; simpl in *. by subst. }
  pose proof (im_data _ Hin) as Hdata. rewrite Si in Hdata.
  assert (∀ width, (0 < width)%nat → bytes_per_pixel (format (cb_layout input)) = 4 * Z.of_nat width →
    ∃ l, load_all (cb_data input) width 0 n = Ok l ∧ length l = n) as Hload.
  { intros width Hwd Hbpp. rewrite Hbpp in Hdata. apply load_all_Ok.
    - intros bs E. rewrite E in Hdata. unfold len in Hdata. nia.
    - intros E. rewrite E in Hdata. nia. }
  destruct Hfmt as [Hf|Hf].
  - rewrite decide_True by done. destruct (Hload 4%nat) as (l & -> & Hl); [lia|by rewrite Hf|].
    simpl. unfold unlock_cpu. simpl. rewrite Hback. by exists l.
  - rewrite decide_False by (by rewrite Hf).
    destruct (Hload 2%nat) as (l & -> & Hl); [lia|by rewrite Hf|].
    simpl. unfold unlock_cpu. simpl. rewrite Hback. exists (List.map half_to_bits l).
    split; [done|]. by rewrite length_map.
Qed.

(** That many samples are written inside a float image of the same size. *)
Lemma write_ocio_output_Ok output w h rest samples :
  image_ok output → kind (cb_layout output) = Image2D → ndim (cb_layout output) = 2 →
  dims (cb_layout output) = w :: h :: rest → 0 ≤ w → 0 ≤ h → w * h * 16 < 2 ^ 64 →
  (format (cb_layout output) = R32G32B32A32_SFLOAT ∨
   format (cb_layout output) = R16G16B16A16_SFLOAT) →
  length samples = Z.to_nat (w * h * 4) →
  ∃ output', write_ocio_output output (cb_layout output) samples = Ok output' ∧
    cb_locked output' = false ∧
    option_map length (cb_data output') = option_map length (cb_data output).
Proof.
  intros Hout Hk Hn Hd Hw Hh Hwh Hfmt Hlen.
  pose proof (image_size _ _ _ _ Hout Hk Hn Hd Hw Hh Hwh) as So.
  pose proof (Z.mul_nonneg_nonneg w h Hw Hh) as Hpos.
  assert (∀ (width : nat) (conv : Z → res Z),
    (0 < width)%nat → bytes_per_pixel (format (cb_layout output)) = 4 * Z.of_nat width →
    (∀ x, ∃ y, conv x = Ok y) →
    ∃ output', ('(data, output) ← lock_cpu AccessWrite output;
      values ← map_res conv samples;
      data ← store_all data width values;
      unlock_cpu (buffer_with_data output data)) = Ok output' ∧
      cb_locked output' = false ∧
      option_map length (cb_data output') = option_map length (cb_data output)) as Hwrite.
  { intros width conv Hwd Hbpp Hconv. unfold lock_cpu.
    rewrite (im_unlocked _ Hout), (im_write _ Hout). simpl.
    destruct (map_res_Ok conv samples Hconv) as (values & -> & Hvl). simpl.
    rewrite Hlen in Hvl. pose proof (im_data _ Hout) as Hdata. rewrite So, Hbpp in Hdata.
    destruct (store_all_Ok (cb_data output) width values) as (d & -> & Hdl).
    - intros bs E. rewrite E in Hdata. unfold len in Hdata. rewrite Hvl. nia.
    - intros E. rewrite E in Hdata. apply nil_length_inv. rewrite Hvl. nia.
    - simpl. eexists. split; [done|]. simpl. done. }
  unfold write_ocio_output. destruct Hfmt as [Hfo|Hfo]; rewrite Hfo.
  - rewrite decide_True by done. apply Hwrite; [lia|by rewrite Hfo|eauto].
  - rewrite decide_False, decide_True by done. apply Hwrite; [lia|by rewrite Hfo|eauto].
Qed.

(** the CPU colour pass is memory safe: for two images of the same size allocated
    by the runtime, a half or full float input and a float output, a processor that
    keeps the number of samples reads and writes only inside the two buffers, and
    leaves both unlocked. *)
Theorem submit_ocio_safe (p : cpipe_ocio_processor_s) (apply : list Z → list Z)
    (input output : CpuBuffer) (vi vo : option BufferMetadata) :
  oc_cpu_processor p = Some apply → (∀ l, length (apply l) = length l) →
  image_ok input → image_ok output →
  validate_ocio_layouts (cb_layout input) (cb_layout output) = CPIPE_OK →
  (format (cb_layout output) = R32G32B32A32_SFLOAT ∨ format (cb_layout output) = R16G16B16A16_SFLOAT) →
  ∃ input' output', submit_ocio_processor (Some p) (Some (mkBufferHandle (Some input) vi))
      (Some (mkBufferHandle (Some output) vo)) = Ok (input', output') ∧
    cb_locked input' = false ∧ cb_locked output' = false ∧ cb_data input' = cb_data input ∧
    option_map length (cb_data output') = option_map length (cb_data output).
Proof.
  intros Hp Hlen Hin Hout Hval Hfmt. unfold submit_ocio_processor. simpl. rewrite Hp. simpl.
  rewrite Hval. simpl. destruct (validate_ocio_layouts_ok _ _ Hval) as (K1 & N1 & K2 & N2 & D0 & D1 & Hf).
  destruct (im_dims _ Hin) as (w & h & rest & Hd & Hw & Hh & Hwh).
  destruct (im_dims _ Hout) as (w' & h' & rest' & Hd' & Hw' & Hh' & Hwh').
  rewrite Hd, Hd' in D0, D1. unfold nth8 in D0, D1. simpl in D0, D1. subst w' h'.
  destruct (read_ocio_input_Ok input w h rest) as (rgba & -> & Hrl); [done..|]. simpl.
  destruct (write_ocio_output_Ok output w h rest' (apply rgba)) as (o' & -> & Ho1 & Ho2);
    [done..|by rewrite Hlen|].
  simpl. exists input, o'. split_and!; [done|apply Hin|done..].
Qed.

(** ** Witnesses *)

Definition example_metadata : BufferMetadata :=
  mkMetadata 1 None default_capture [] "undefined" None (Some [1; 2; 3]) None None None None None
    default_quant {["vendor.x" := [9]]}.

Definition example_builder : cpipe_metadata_builder_s :=
  make_metadata_builder_handle (Some example_metadata) [].

Lemma list_blob_keys_complete_witness :
  ∃ blob, get_blob (Some (Some example_metadata)) (Some "vendor.x") false false = Ok blob.
Proof.
  apply (list_blob_keys_complete example_metadata 4 2 ["exif_raw"; "vendor.x"]);
    [vm_compute; reflexivity|right; left].
Defined.

Lemma set_blob_roundtrip_witness :
  ∃ h' m, host_set_blob (Some example_builder) (Some "vendor.y") (Some [7; 8]) 2 = Ok h' ∧
    (freeze_metadata_builder (Some h')).1 = Some m ∧
    get_blob (Some (Some m)) (Some "vendor.y") false false = Ok ([7; 8], 2) ∧
    ∀ other, other ≠ "vendor.y" →
      get_blob (Some (Some m)) (Some other) false false
      = get_blob (Some (Some (metadata_ (bu_builder example_builder)))) (Some other) false false.
Proof. apply (set_blob_roundtrip example_builder "vendor.y" [7; 8] 2); [done|simpl; lia|done]. Defined.

Lemma set_blob_reserved_shadowed_witness :
  ∃ h' m, host_set_blob (Some example_builder) (Some "exif_raw") None 0 = Ok h' ∧
    (freeze_metadata_builder (Some h')).1 = Some m ∧
    get_blob (Some (Some m)) (Some "exif_raw") false false = Ok ([1; 2; 3], 3).
Proof.
  apply (set_blob_reserved_shadowed example_builder "exif_raw" None 0 [1; 2; 3]);
    [done|intros; lia|done].
Defined.

Lemma param_getters_exact_witness :
  getter_exact (J := Tree.lib (λ _, None)) is_number get_double
    (Tree.mk_object [("gain", Tree.JInt 2)]) "gain"
    (get_param_double (H := Tree.lib (λ _, None))
      (Some (Tree.mk_object [("gain", Tree.JInt 2)])) (Some "gain") false).
Proof.
  exact (proj1 (@param_getters_exact (Tree.lib (λ _, None)) (Tree.lib_laws (λ _, None))
    (Tree.mk_object [("gain", Tree.JInt 2)]) "gain")).
Defined.

Lemma get_ocio_processor_cached_witness :
  ∃ p, [mkOcio (Some (λ l, l)) false "c" "a" "b"] !! 0%nat = Some p ∧ ocio_key p = ("c", "a", "b").
Proof.
  apply (get_ocio_processor_cached (λ _ _ _, Ok (λ l, l)) (λ _ _ _, Undef) false false [] "c" "a" "b"
    0%nat [mkOcio (Some (λ l, l)) false "c" "a" "b"]); [constructor|done].
Defined.

Definition example_image : CpuBuffer :=
  mkCpuBuffer (mkLayout Image2D R16G16B16A16_SFLOAT 2 [1; 1; 0; 0; 0; 0; 0; 0] zeros8)
    (usage_or usage_CpuRead usage_CpuWrite) "" None (Some (replicate 8 0)) 8 false.

Lemma example_image_ok : image_ok example_image.
Proof. split; try done; [by exists 1, 1, [0; 0; 0; 0; 0; 0]|repeat constructor]. Qed.

Lemma submit_ocio_safe_witness :
  ∃ input' output', submit_ocio_processor (Some (mkOcio (Some (λ l, l)) false "c" "a" "b"))
      (Some (mkBufferHandle (Some example_image) None))
      (Some (mkBufferHandle (Some example_image) None)) = Ok (input', output') ∧
    cb_locked input' = false ∧ cb_locked output' = false ∧ cb_data input' = cb_data example_image ∧
    option_map length (cb_data output') = option_map length (cb_data example_image).
Proof.
  apply (submit_ocio_safe _ (λ l, l)); [done|done|apply example_image_ok..|done|by right].
Defined.
