(* ===== verification/PipelineRun.v ===== *)
(** * Running a pipeline

    Models the second half of src/cpipe/runtime/Pipeline.cpp: [run_bound] behind
    [run] and [run_to_file], and the older [run_file].  A plugin's [main_entry] is
    code outside the runtime: [plugin] gives, for the three actions, what the call
    returns and how it changes the outside world, the output buffer and the metadata
    builder.  [trace] records the calls.

    The theorems: every execution of the scheduled nodes is the sequential one; on
    success each instance is created, processed and destroyed exactly once, in the
    order of the nodes; a node that fails leaves the nodes after it untouched; and
    one error path, an output layout that cannot be derived, leaks the instance. *)

From Stdlib Require Import ZArith Lia.
From stdpp Require Import prelude strings list gmap.
From S2P Require Import Prelude Core Json Registry HostContext Scheduler Pipeline.

Inductive event : Type :=
| Created (entry : nat) (instance : Z)
| CreateFailed (entry : nat)
| ProcessCalled (entry : nat) (instance : Z)
| Destroyed (entry : nat) (instance : Z).

#[export] Instance event_eq_dec : EqDecision event.
Proof. solve_decision. Defined.

(** The three actions of an entry point.  [None] parameters are a null handle; a
    process call gets its inputs, and its output and builder when it has one. *)
Record plugin `{JsonLib} (W : Type) : Type := mkPlugin {
  pl_create : nat → option json → W → cpipe_status_t * Z * W;
  pl_process : nat → Z → option json → list CpuBuffer → option CpuBuffer →
    option cpipe_metadata_builder_s → W →
    cpipe_status_t * option CpuBuffer * option cpipe_metadata_builder_s * W;
  pl_destroy : nat → Z → W → cpipe_status_t * W
}.
Arguments mkPlugin {_ W} pl_create pl_process pl_destroy.
Arguments pl_create {_ W} _ _ _ _.
Arguments pl_process {_ W} _ _ _ _ _ _ _ _.
Arguments pl_destroy {_ W} _ _ _ _.

(** The variables the node closures share: [current], the error text, and the
    outside world. *)
Record run_state (W : Type) : Type := mkRun {
  current : CpuBuffer;
  error : string;
  world : W;
  trace : list event
}.
Arguments mkRun {W} current error world trace.
Arguments current {W} _.
Arguments error {W} _.
Arguments world {W} _.
Arguments trace {W} _.

Definition output_usage : Z := usage_or (usage_or usage_Output usage_CpuRead) usage_CpuWrite.

Section run.
Context `{JsonLib} {W : Type} (plugins : plugin W) (alloc : Z → option bytes).

Abbreviation state := (run_state W).

Definition with_error (st : state) (msg : string) : state :=
  mkRun (current st) msg (world st) (trace st).
Definition with_world (st : state) (w : W) (e : event) : state :=
  mkRun (current st) (error st) w (trace st ++ [e]).
Definition with_current (st : state) (b : CpuBuffer) : state :=
  mkRun b (error st) (world st) (trace st).

(** Calling a null entry point is undefined. *)
Definition entry_of (desc : option cpipe_plugin_desc_t) : res nat :=
  of_option Undef (desc ≫= main_entry).

Definition call_create (entry : nat) (params : option json) (st : state)
    : cpipe_status_t * Z * state :=
  let '(status, instance, w) := pl_create plugins entry params (world st) in
  (status, instance, with_world st w
    (if decide (status = CPIPE_OK) then Created entry instance else CreateFailed entry)).

Definition call_process (entry : nat) (instance : Z) (params : option json)
    (inputs : list CpuBuffer) (output : option CpuBuffer)
    (builder : option cpipe_metadata_builder_s) (st : state)
    : cpipe_status_t * option CpuBuffer * option cpipe_metadata_builder_s * state :=
  let '(status, output, builder, w) :=
    pl_process plugins entry instance params inputs output builder (world st) in
  (status, output, builder, with_world st w (ProcessCalled entry instance)).

Definition call_destroy (entry : nat) (instance : Z) (st : state) : cpipe_status_t * state :=
  let '(status, w) := pl_destroy plugins entry instance (world st) in
  (status, with_world st w (Destroyed entry instance)).

(** The closure scheduled for a node.  [output] is the path given to nodes without
    an output port. *)
Definition node_process (output : option string) (node : NodeInstance) (st : state)
    : res (cpipe_status_t * state) :=
  has_output ← node_has_output (ni_descriptor node);
  params ← match has_output : bool, output with
           | false, Some path => set_key (ni_params node) "path" (json_string path)
           | _, _ => Ok (ni_params node)
           end;
  entry ← entry_of (ni_descriptor node);
  let '(node_status, instance, st) := call_create entry (Some params) st in
  if decide (node_status ≠ CPIPE_OK)
  then Ok (node_status, with_error st ("node create failed: " +:+ ni_id node)) else
  input_count ← node_input_count (ni_descriptor node);
  let process_inputs := replicate input_count (current st) in
  let finish (next : option CpuBuffer) (builder : option cpipe_metadata_builder_s) :=
    let '(node_status, written, builder, st) :=
      call_process entry instance (Some params) process_inputs next builder st in
    let next := option_map (λ b, buffer_with_metadata (default b written)
      (freeze_metadata_builder builder).1) next in
    let '(destroy_status, st) := call_destroy entry instance st in
    if decide (node_status ≠ CPIPE_OK)
    then Ok (node_status, with_error st ("node process failed: " +:+ ni_id node)) else
    if decide (destroy_status ≠ CPIPE_OK)
    then Ok (destroy_status, with_error st ("node destroy failed: " +:+ ni_id node)) else
    Ok (CPIPE_OK, match next with Some b => with_current st b | None => st end) in
  if has_output : bool then
    match output_layout_for_node (ni_descriptor node) (ni_params node) (cb_layout (current st)) with
    | Ok layout =>
        next ← make_cpu_buffer alloc layout output_usage "";
        finish (Some next) (Some (make_metadata_builder_handle (cb_metadata (current st))
          (replicate input_count (cb_metadata (current st)))))
    | Fail _ msg => Ok (CPIPE_FAILED, if String.eqb msg "" then st else with_error st msg)
    | Thrown e => Thrown e
    | Undef => Undef
    end
  else finish None None.

(** The source phase: the bound source fills the first input's buffer. *)
Definition run_source (p : Pipeline) (w : W) : res (cpipe_status_t * string + state) :=
  match List.find (λ input, bool_decide (sources_ p !! in_name input = None)) (inputs_ p) with
  | Some input => Ok (inl (CPIPE_FAILED, "source not bound for input port: " +:+ in_name input))
  | None =>
    match inputs_ p with
    | [input] =>
      match sources_ p !! in_name input with
      | None => Ok (inl (CPIPE_FAILED, "source plugin is not bound"))
      | Some source =>
        match sb_descriptor source with
        | None => Ok (inl (CPIPE_FAILED, "source plugin is not bound"))
        | Some desc =>
          source_output ← make_cpu_buffer alloc (in_layout input) output_usage "";
          entry ← entry_of (Some desc);
          let st := mkRun source_output "" w [] in
          let '(status, instance, st) := call_create entry (Some (sb_params source)) st in
          if decide (status ≠ CPIPE_OK)
          then Ok (inl (status, "source create failed: " +:+ sb_plugin_id source)) else
          let '(status, out, _, st) :=
            call_process entry instance (Some (sb_params source)) [] (Some source_output) None st in
          let '(source_destroy, st) := call_destroy entry instance st in
          if decide (status ≠ CPIPE_OK)
          then Ok (inl (status, "source process failed: " +:+ sb_plugin_id source)) else
          if decide (source_destroy ≠ CPIPE_OK)
          then Ok (inl (source_destroy, "source destroy failed: " +:+ sb_plugin_id source)) else
          match out with
          | None => Ok (inl (CPIPE_FAILED, "source produced no buffer"))
          | Some b => Ok (inr (with_current st b))
          end
        end
      end
    | _ => Ok (inl (CPIPE_UNSUPPORTED, "only one pipeline input is supported in P1"))
    end
  end.

(** The chain of closures handed to the scheduler. *)
Definition scheduled_nodes (p : Pipeline) (output : option string) : list (ScheduledNode state) :=
  imap (λ index node, mkScheduled (ni_id node) (node_process output node)
    (match index with O => [] | S j => [j] end)) (nodes_ p).

(** [run_bound]: the status, and the final state when the source phase succeeded. *)
Inductive run_bound (p : Pipeline) (output : option string) (w : W)
    : cpipe_status_t → option state → Prop :=
| run_source_failed st msg :
    run_source p w = Ok (inl (st, msg)) → run_bound p output w st None
| run_nodes st s s' :
    run_source p w = Ok (inr s) → scheduler_run (scheduled_nodes p output) s st s' →
    run_bound p output w st (Some s').

(** [Pipeline::run] and [Pipeline::run_to_file]. *)
Definition pipeline_run (p : Pipeline) := run_bound p None.
Definition run_to_file (p : Pipeline) (output : string) := run_bound p (Some output).

(** ** [run_file] *)

(** The body of its loop over the nodes. *)
Definition run_file_node (layout : BufferLayout) (st : state) (node : NodeInstance) : res state :=
  next ← make_cpu_buffer alloc layout output_usage "";
  entry ← entry_of (ni_descriptor node);
  let '(status, instance, st) := call_create entry None st in
  if decide (status ≠ CPIPE_OK) then Fail status ("node create failed: " +:+ ni_id node) else
  input_count ← node_input_count (ni_descriptor node);
  let builder := make_metadata_builder_handle (cb_metadata (current st))
    (replicate input_count (cb_metadata (current st))) in
  let '(status, next', builder', st) :=
    call_process entry instance None (replicate input_count (current st)) (Some next)
      (Some builder) st in
  let next := buffer_with_metadata (default next next') (freeze_metadata_builder builder').1 in
  let '(destroy_status, st) := call_destroy entry instance st in
  if decide (status ≠ CPIPE_OK) then Fail status ("node process failed: " +:+ ni_id node) else
  if decide (destroy_status ≠ CPIPE_OK)
  then Fail destroy_status ("node destroy failed: " +:+ ni_id node) else
  Ok (with_current st next).

(** [input_file] is the contents of the input, [None] when it cannot be opened;
    [open_output] and [write_output] say whether the output can be opened and
    written.  The result is what is written. *)
Definition run_file (p : Pipeline) (input_file : option bytes) (open_output write_output : bool)
    (w : W) : res (bytes * state) :=
  match input_file with
  | None => Fail CPIPE_FAILED "failed to open input file"
  | Some bs =>
      if decide (len bs ≠ size_bytes (layout_ p))
      then Fail CPIPE_FAILED "input size does not match pipeline layout" else
      b ← make_cpu_buffer alloc (layout_ p) (usage_or (usage_or usage_Input usage_CpuRead) usage_CpuWrite) "";
      '(_, b) ← lock_cpu AccessWrite b;
      b ← unlock_cpu (buffer_with_data b (match bs with [] => cb_data b | _ => Some bs end));
      st ← foldM (run_file_node (layout_ p)) (mkRun b "" w []) (nodes_ p);
      if negb open_output then Fail CPIPE_FAILED "failed to open output file" else
      '(data, out) ← lock_cpu AccessRead (current st);
      out ← unlock_cpu out;
      if negb write_output then Fail CPIPE_FAILED "failed to write output file" else
      Ok (default [] data, with_current st out)
  end.

(** ** Theorems *)

Lemma scheduled_chain p output : is_chain (scheduled_nodes p output).
Proof.
  intros i node Hi. unfold scheduled_nodes in Hi.
  apply list_lookup_imap_Some in Hi as (n & _ & ->). done.
Qed.

(** The calls made for an instance that lives through its node. *)
Definition lifecycle (c : nat * Z) : list event :=
  [Created c.1 c.2; ProcessCalled c.1 c.2; Destroyed c.1 c.2].

(** The calls of one closure, by outcome. *)
Lemma node_process_trace output node (st st' : state) status :
  node_process output node st = Ok (status, st') →
  ∃ entry, main_entry <$> ni_descriptor node = Some (Some entry) ∧
    ((trace st' = trace st ++ [CreateFailed entry] ∧ status ≠ CPIPE_OK) ∨
     (∃ instance, trace st' = trace st ++ lifecycle (entry, instance)) ∨
     (∃ instance s msg, trace st' = trace st ++ [Created entry instance] ∧ status = CPIPE_FAILED ∧
        node_has_output (ni_descriptor node) = Ok true ∧
        output_layout_for_node (ni_descriptor node) (ni_params node) (cb_layout (current st))
        = Fail s msg)).
Proof.
  unfold node_process. intros Hn. apply bind_Ok_inv in Hn as (has_output & Ho & Hn).
  apply bind_Ok_inv in Hn as (params & _ & Hn). apply bind_Ok_inv in Hn as (entry & He & Hn).
  exists entry. split.
  { unfold entry_of in He. destruct (ni_descriptor node) as [d|]; [|done]. simpl in *.
    destruct (main_entry d); [|done]. by injection He as ->. }
  unfold call_create in Hn.
  destruct (pl_create plugins entry (Some params) (world st)) as [[cs inst] w].
  case_decide as Hc.
  { left. injection Hn as <- <-. simpl. by rewrite decide_False. }
  apply bind_Ok_inv in Hn as (cnt & _ & Hn). simpl in Hn.
  rewrite decide_True in Hn by done.
  assert (∀ next builder st1, trace st1 = trace st ++ [Created entry inst] →
    (let '(node_status, written, builder0, st2) :=
       call_process entry inst (Some params) (replicate cnt (current st)) next builder st1 in
     let next0 := option_map (λ b, buffer_with_metadata (default b written)
       (freeze_metadata_builder builder0).1) next in
     let '(destroy_status, st3) := call_destroy entry inst st2 in
     if decide (node_status ≠ CPIPE_OK)
     then Ok (node_status, with_error st3 ("node process failed: " +:+ ni_id node)) else
     if decide (destroy_status ≠ CPIPE_OK)
     then Ok (destroy_status, with_error st3 ("node destroy failed: " +:+ ni_id node)) else
     Ok (CPIPE_OK, match next0 with Some b => with_current st3 b | None => st3 end))
    = Ok (status, st') → trace st' = trace st ++ lifecycle (entry, inst)) as Hfin.
  { intros next builder st1 Ht. unfold call_process, call_destroy.
    destruct (pl_process _ _ _ _ _ _ _ _) as [[[ns wr] bu] w']. simpl.
    destruct (pl_destroy _ _ _ _) as [ds w'']. unfold lifecycle.
    repeat case_decide; intros [= <- <-]; simpl; rewrite ?Ht; try by rewrite <-!app_assoc.
    destruct (option_map _ next); simpl; by rewrite Ht, <-!app_assoc. }
  right. destruct has_output.
  - destruct (output_layout_for_node _ _ _) as [layout|s msg| |] eqn:Hl; [| |done..].
    + apply bind_Ok_inv in Hn as (next & _ & Hn). left. exists inst. by eapply Hfin; [|exact Hn].
    + right. injection Hn as <- <-. exists inst, s, msg. split_and!; [|done..].
      by destruct (String.eqb msg "").
  - left. exists inst. by eapply Hfin; [|exact Hn].
Qed.

(** A successful closure never leaks. *)
Lemma node_process_ok output node (st st' : state) :
  node_process output node st = Ok (CPIPE_OK, st') →
  ∃ entry instance, main_entry <$> ni_descriptor node = Some (Some entry) ∧
    trace st' = trace st ++ lifecycle (entry, instance).
Proof.
  intros (entry & He & [[_ Hc]|[(i & Hi)|(i & s & msg & _ & Hc & _)]])%node_process_trace; [done| |done].
  by exists entry, i.
Qed.

Lemma run_source_trace p w (s : state) :
  run_source p w = Ok (inr s) → ∃ entry instance, trace s = lifecycle (entry, instance).
Proof.
  unfold run_source. destruct (List.find _ _); [done|].
  destruct (inputs_ p) as [|input [|]]; try done.
  destruct (sources_ p !! _) as [src|]; [|done]. destruct (sb_descriptor src) as [d|]; [|done].
  intros Hr. apply bind_Ok_inv in Hr as (b & _ & Hr). apply bind_Ok_inv in Hr as (entry & _ & Hr).
  unfold call_create, call_process, call_destroy in Hr.
  destruct (pl_create _ _ _ _) as [[cs inst] w1]. case_decide as Hc; [done|].
  rewrite decide_True in Hr by done.
  destruct (pl_process _ _ _ _ _ _ _ _) as [[[ps wr] bu] w2]. simpl in Hr.
  destruct (pl_destroy _ _ _ _) as [ds w3]. repeat case_decide; try done.
  destruct wr as [b'|]; [|done]. injection Hr as <-. by exists entry, inst.
Qed.

Lemma run_sequential_trace output nodes : ∀ index (s s' : state) status,
  run_sequential (imap (λ i node, mkScheduled (ni_id node) (node_process output node)
    (match index + i with O => [] | S j => [j] end)) nodes) s = Ok (status, s') →
  ∃ done_ rest instances, nodes = done_ ++ rest ∧
    length instances = length done_ ∧
    Forall2 (λ node c, main_entry <$> ni_descriptor node = Some (Some c.1)) done_ instances ∧
    ((status = CPIPE_OK ∧ rest = [] ∧ trace s' = trace s ++ (instances ≫= lifecycle)) ∨
     (∃ node rest' s1, status ≠ CPIPE_OK ∧ rest = node :: rest' ∧
        trace s1 = trace s ++ (instances ≫= lifecycle) ∧
        node_process output node s1 = Ok (status, s'))).
Proof.
  induction nodes as [|node nodes IH]; intros index s s' status Hrun; simpl in Hrun.
  { injection Hrun as <- <-. exists [], [], []. split_and!; [done..|].
    left. by rewrite app_nil_r. }
  apply bind_Ok_inv in Hrun as ([st s1] & Hp & Hrun). case_decide as Hst.
  - injection Hrun as <- <-. exists [], (node :: nodes), []. split_and!; [done..|]. right.
    exists node, nodes, s. by rewrite app_nil_r.
  - subst st. destruct (node_process_ok _ _ _ _ Hp) as (entry & inst & He & Ht).
    destruct (IH (S index) s1 s' status) as (dn & rest & insts & -> & Hl & Hf & Hcase).
    { rewrite <-Hrun. f_equal. apply imap_ext. intros i x _. unfold compose. simpl.
      by rewrite Nat.add_succ_r. }
    exists (node :: dn), rest, ((entry, inst) :: insts). split_and!; [done|simpl; lia|by constructor|].
    destruct Hcase as [(-> & -> & Ht')|(nd & rest' & s2 & Hne & -> & Ht' & Hp')].
    + left. split_and!; [done..|]. rewrite Ht', Ht, <-app_assoc. done.
    + right. exists nd, rest', s2. split_and!; [done|done| |done]. rewrite Ht', Ht, <-app_assoc. done.
Qed.

(** C4: running a pipeline is the sequential loop: a run past the source phase ends
    with a status and a state exactly when running the stored nodes one after the
    other from the state left by the source, until the first failure, ends with
    them - whatever order the executor takes, and with no run left hanging. *)
Theorem run_bound_sequential (p : Pipeline) (output : option string) (w : W)
    (status : cpipe_status_t) (s' : state) :
  run_bound p output w status (Some s') ↔
  ∃ s, run_source p w = Ok (inr s) ∧
    run_sequential (scheduled_nodes p output) s = Ok (status, s').
Proof.
  pose proof (scheduled_chain p output) as Hch. split.
  - intros Hr. inversion Hr as [|st s s1 Hsrc Hrun]; subst. exists s. split; [done|].
    by apply chain_run_iff.
  - intros (s & Hsrc & Hrun). eapply run_nodes; [done|]. by apply chain_run_iff.
Qed.

(** a successful run creates, processes and destroys exactly one instance for the
    source and one for each stored node, in the stored order, and makes no other
    plugin call. *)
Theorem run_ok_lifecycle (p : Pipeline) (output : option string) (w : W) (s' : state) :
  run_bound p output w CPIPE_OK (Some s') →
  ∃ source instances, trace s' = (source :: instances) ≫= lifecycle ∧
    Forall2 (λ node c, main_entry <$> ni_descriptor node = Some (Some c.1)) (nodes_ p) instances.
Proof.
  intros Hr. inversion Hr as [|st s s1 Hsrc Hrun]; subst.
  apply chain_run in Hrun; [|apply scheduled_chain].
  destruct (run_source_trace _ _ _ Hsrc) as (entry & inst & Ht).
  destruct (run_sequential_trace output (nodes_ p) 0 s s' CPIPE_OK Hrun)
    as (dn & rest & insts & Hn & _ & Hf & [(_ & -> & Ht')|(? & ? & ? & ? & _)]); [|done].
  rewrite app_nil_r in Hn. subst dn. exists (entry, inst), insts. split; [|done].
  by rewrite Ht', Ht.
Qed.

(** a failing run stops at the first failing node: the nodes before it have
    completed their life cycle, no call is made for the nodes after it, and the
    failing node's own calls are a failed creation, a complete life cycle, or - only
    when its output layout could not be derived - a creation without destruction. *)
Theorem run_failure_stops (p : Pipeline) (output : option string) (w : W)
    (status : cpipe_status_t) (s' : state) :
  run_bound p output w status (Some s') → status ≠ CPIPE_OK →
  ∃ before node after source instances tail entry,
    nodes_ p = before ++ node :: after ∧
    Forall2 (λ node c, main_entry <$> ni_descriptor node = Some (Some c.1)) before instances ∧
    main_entry <$> ni_descriptor node = Some (Some entry) ∧
    trace s' = ((source :: instances) ≫= lifecycle) ++ tail ∧
    (tail = [CreateFailed entry] ∨ (∃ i, tail = lifecycle (entry, i)) ∨
     (∃ i layout s msg, tail = [Created entry i] ∧
        output_layout_for_node (ni_descriptor node) (ni_params node) layout = Fail s msg)).
Proof.
  intros Hr Hne. inversion Hr as [|st s s1 Hsrc Hrun]; subst.
  apply chain_run in Hrun; [|apply scheduled_chain].
  destruct (run_source_trace _ _ _ Hsrc) as (sentry & sinst & Ht).
  destruct (run_sequential_trace output (nodes_ p) 0 s s' status Hrun)
    as (dn & rest & insts & Hn & _ & Hf & [(? & _)|(node & rest' & s2 & _ & -> & Ht2 & Hp)]); [done|].
  destruct (node_process_trace _ _ _ _ _ Hp) as (entry & He & Hcase).
  assert (∀ tail, trace s' = trace s2 ++ tail →
    trace s' = (((sentry, sinst) :: insts) ≫= lifecycle) ++ tail) as Htail.
  { intros tail ->. by rewrite Ht2, Ht. }
  destruct Hcase as [[Htr _]|[(i & Htr)|(i & sx & msg & Htr & _ & _ & Hl)]].
  - exists dn, node, rest', (sentry, sinst), insts, [CreateFailed entry], entry. auto 10.
  - exists dn, node, rest', (sentry, sinst), insts, (lifecycle (entry, i)), entry. eauto 10.
  - exists dn, node, rest', (sentry, sinst), insts, [Created entry i], entry.
    split_and!; [done..|by apply Htail|]. right. right. by eexists i, _, sx, msg.
Qed.

(** an output layout that cannot be derived leaks the node's instance: it has
    been created by then and is not destroyed before the run returns. *)
Theorem node_process_leak (output : option string) (node : NodeInstance) (st : state)
    (d : cpipe_plugin_desc_t) (entry : nat) (instance : Z) (w : W) (count : nat)
    (s : cpipe_status_t) (msg : string) :
  ni_descriptor node = Some d → main_entry d = Some entry →
  node_has_output (Some d) = Ok true → node_input_count (Some d) = Ok count →
  pl_create plugins entry (Some (ni_params node)) (world st) = (CPIPE_OK, instance, w) →
  output_layout_for_node (Some d) (ni_params node) (cb_layout (current st)) = Fail s msg →
  ∃ st', node_process output node st = Ok (CPIPE_FAILED, st') ∧
    trace st' = trace st ++ [Created entry instance].
Proof.
  intros Hd He Ho Hc Hcr Hl. unfold node_process. rewrite Hd.
  remember (output_layout_for_node (Some d) (ni_params node)) as f eqn:Ef. clear Ef.
  rewrite Ho. unfold entry_of. simpl. rewrite He. simpl.
  unfold call_create. rewrite Hcr. simpl. rewrite Hc. simpl. rewrite Hl.
  eexists. split; [done|]. by destruct (String.eqb msg "").
Qed.

(** [run_file] on a pipeline without nodes copies its input: for an input of
    exactly the layout's size the bytes written are the bytes read, and an input of
    any other size is rejected. *)
Theorem run_file_copies (p : Pipeline) (bs : bytes) (w : W) :
  nodes_ p = [] → (∀ n, is_Some (alloc n)) →
  (len bs = size_bytes (layout_ p) → ∃ st, run_file p (Some bs) true true w = Ok (bs, st)) ∧
  (len bs ≠ size_bytes (layout_ p) →
     run_file p (Some bs) true true w
     = Fail CPIPE_FAILED "input size does not match pipeline layout").
Proof.
  intros Hn Ha. unfold run_file. split; intros Hl; [|by rewrite decide_True].
  rewrite decide_False by (intros Hne; by apply Hne). unfold make_cpu_buffer. rewrite <-Hl.
  destruct (Ha (len bs)) as [d Hd].
  destruct (Z.eqb_spec (len bs) 0) as [Hz|Hz]; [|rewrite Hd]; simpl; rewrite Hn; simpl;
    destruct bs as [|x bs]; simpl; first [done|eexists; reflexivity].
Qed.

End run.

(** ** Witnesses *)

Module RunExample.

Import Pipeline.Example.

(** Manifests of a sink and of a display transform. *)
Definition docs (text : string) : option Tree.tree :=
  if String.eqb text "sink" then Some (obj [("ports", arr [port "in" "in" "rgba" "u8" []])])
  else if String.eqb text "display" then Some (obj [("ports", arr
    [port "in" "in" "rgba" "f16" []; port "out" "out" "rgba" "u8" []])])
  else None.

#[local] Instance lib : JsonLib := Tree.lib docs.

(** A well-behaved plugin; the world counts the calls. *)
Definition plugins : plugin nat :=
  mkPlugin (λ _ _ w, (CPIPE_OK, 7%Z, S w)) (λ _ _ _ _ out b w, (CPIPE_OK, out, b, S w))
    (λ _ _ w, (CPIPE_OK, S w)).
Definition alloc (n : Z) : option bytes := Some (replicate (Z.to_nat n) 0%Z).

Definition input : InputPort :=
  mkInput "in" (mkLayout Image2D R16_UINT 2 [2; 1; 0; 0; 0; 0; 0; 0]%Z zeros8).
Definition source : SourceBinding :=
  mkSource "src" (Some (mkDesc 0 4 (Some "src") None None (Some 1))) (obj []).
Definition sink : NodeInstance :=
  mkNode "sink" (Some (mkDesc 0 4 (Some "sink") None (Some "sink") (Some 2))) (obj []).
Definition display : NodeInstance :=
  mkNode "display" (Some (mkDesc 0 4 (Some "com.cpipe.color.scene_linear_to_display") None
    (Some "display") (Some 3))) (obj [("target", str "P3")]).

Definition with_nodes (nodes : list NodeInstance) : Pipeline :=
  mkPipeline [input] (in_layout input) nodes {["in" := source]} None size_max 0.

Definition buffer : CpuBuffer :=
  mkCpuBuffer (in_layout input) output_usage "" (Some default_metadata)
    (Some [0; 0; 0; 0]%Z) 4 false.
Definition after_source : run_state nat := mkRun buffer "" 3 (lifecycle (1, 7%Z)).
Definition after_sink : run_state nat := mkRun buffer "" 6 (lifecycle (1, 7%Z) ++ lifecycle (2, 7%Z)).
Definition after_display : run_state nat :=
  mkRun buffer "unsupported scene_linear_to_display target" 4
    (lifecycle (1, 7%Z) ++ [Created 3 7%Z]).

Lemma sink_runs :
  run_bound plugins alloc (with_nodes [sink]) None 0 CPIPE_OK (Some after_sink).
Proof. apply (run_nodes _ _ _ _ _ _ after_source); [reflexivity|]. apply run_loop; reflexivity. Qed.

Lemma display_fails :
  run_bound plugins alloc (with_nodes [display]) None 0 CPIPE_FAILED (Some after_display).
Proof. apply (run_nodes _ _ _ _ _ _ after_source); [reflexivity|]. apply run_loop; reflexivity. Qed.

Lemma run_ok_lifecycle_witness :
  ∃ source instances, trace after_sink = (source :: instances) ≫= lifecycle ∧
    Forall2 (λ node c, main_entry <$> ni_descriptor node = Some (Some c.1)) [sink] instances.
Proof. apply (run_ok_lifecycle plugins alloc (with_nodes [sink]) None 0), sink_runs. Defined.

Lemma run_failure_stops_witness :
  ∃ before node after source instances tail entry,
    [display] = before ++ node :: after ∧
    Forall2 (λ node c, main_entry <$> ni_descriptor node = Some (Some c.1)) before instances ∧
    main_entry <$> ni_descriptor node = Some (Some entry) ∧
    trace after_display = ((source :: instances) ≫= lifecycle) ++ tail ∧
    (tail = [CreateFailed entry] ∨ (∃ i, tail = lifecycle (entry, i)) ∨
     (∃ i layout s msg, tail = [Created entry i] ∧
        output_layout_for_node (ni_descriptor node) (ni_params node) layout = Fail s msg)).
Proof.
  apply (run_failure_stops plugins alloc (with_nodes [display]) None 0 CPIPE_FAILED);
    [apply display_fails|done].
Defined.

Lemma node_process_leak_witness :
  ∃ st', node_process plugins alloc None display after_source = Ok (CPIPE_FAILED, st') ∧
    trace st' = trace after_source ++ [Created 3 7%Z].
Proof.
  eapply (node_process_leak plugins alloc None display after_source); reflexivity.
Defined.

Lemma run_file_copies_witness :
  ∃ st, run_file plugins alloc (with_nodes []) (Some [1; 2; 3; 4]%Z) true true 0
    = Ok ([1; 2; 3; 4]%Z, st).
Proof.
  apply (run_file_copies plugins alloc (with_nodes []) [1; 2; 3; 4]%Z 0); [done| |done].
  intros n. by eexists.
Defined.

End RunExample.
