(* ===== verification/ComputeContext.v ===== *)
(** * The compute context and its Halide buffers

    Models runtime/ComputeContext.cpp, runtime/HalideBufferAdapter.cpp,
    runtime/HalideFilterRegistry.cpp and the two [submit_halide] entries of
    runtime/HostContext.cpp.  Buffers are shared pointers, so they live in a
    store and are passed by location: one buffer given twice is one lock taken
    twice.  A filter (ahead-of-time compiled code) is an arbitrary function of
    the buffer descriptions, the parameter bytes and the memory, which returns
    a status and the new contents of its outputs.

    [adapter_in_bounds]: the strides handed to Halide address only bytes inside
    the allocation.  [submit_params_exact]: a submission on distinct buffers
    runs the filter, changes only its outputs and leaves every buffer unlocked;
    on a buffer given twice it stops at the lock assertion.  [filter_ids_exact]:
    the sorted listing of the registered filters. *)

From Stdlib Require Import ZArith Lia Sorted.
From stdpp Require Import prelude strings list gmap sorting.
From S2P Require Import Prelude Core HostContext.

Local Open Scope Z_scope.

(** ** Descriptions of buffers for Halide *)

Inductive halide_type_code : Type := halide_type_int | halide_type_uint | halide_type_float.
Record halide_type_t : Type := mkHType { ht_code : halide_type_code; ht_bits : Z }.
Record halide_dimension_t : Type := mkHDim { hd_min : Z; hd_extent : Z; hd_stride : Z }.

(** [hb_host] is the memory of the buffer, named by its location. *)
Record halide_buffer_t : Type := mkHalide {
  hb_host : nat;
  hb_type : halide_type_t;
  hb_host_dirty : bool;
  hb_dim : list halide_dimension_t
}.

Definition halide_type_for (f : PixelFormat) : halide_type_t :=
  match f with
  | R16G16B16A16_SFLOAT | R16G16B16_SFLOAT | F16 => mkHType halide_type_float 16
  | R32G32B32A32_SFLOAT | R32G32B32_SFLOAT | R32_SFLOAT | F32 => mkHType halide_type_float 32
  | I8 => mkHType halide_type_int 8
  | R16G16B16A16_UNORM | R16_UINT => mkHType halide_type_uint 16
  | _ => mkHType halide_type_uint 8
  end.

(** [a / b] on unsigned integers, [a * b] on [std::int32_t]. *)
Definition udiv (a b : Z) : res Z := if b =? 0 then Undef else Ok (a / b).
Definition imul32 (a b : Z) : res Z :=
  if (- 2 ^ 31 <=? a * b) && (a * b <? 2 ^ 31) then Ok (a * b) else Undef.

(** An element of [dims] or [stride]: arrays of eight elements. *)
Definition array8 (l : list Z) (i : nat) : res Z :=
  if (i <? 8)%nat then Ok (nth8 l (Z.of_nat i)) else Undef.

(** The loop over the dimensions of a buffer without a channel dimension. *)
Fixpoint dense_dimensions (l : BufferLayout) (channel_bytes : Z) (n i : nat) (dense_stride : Z)
    : res (list halide_dimension_t) :=
  match n with
  | O => Ok []
  | S n' =>
      s ← array8 (stride l) i;
      stride ← (if s =? 0 then Ok dense_stride else q ← udiv s channel_bytes; Ok (i32 q));
      d ← array8 (dims l) i;
      next ← imul32 stride (i32 d);
      rest ← dense_dimensions l channel_bytes n' (S i) next;
      Ok (mkHDim 0 (i32 d) stride :: rest)
  end.

Definition halide_dimensions (l : BufferLayout) : res (list halide_dimension_t) :=
  let channels := channel_count (format l) in
  let channel_bytes := bytes_per_channel (format l) in
  if bool_decide (kind l = Image2D) && (1 <? channels) then
    let pixel_stride := if nth8 (stride l) 0 =? 0 then u64 (channel_bytes * channels)
                        else nth8 (stride l) 0 in
    let row_stride := if nth8 (stride l) 1 =? 0 then u64 (pixel_stride * nth8 (dims l) 0)
                      else nth8 (stride l) 1 in
    x ← udiv pixel_stride channel_bytes;
    y ← udiv row_stride channel_bytes;
    Ok [mkHDim 0 (i32 (nth8 (dims l) 0)) (i32 x); mkHDim 0 (i32 (nth8 (dims l) 1)) (i32 y);
        mkHDim 0 (i32 channels) 1]
  else dense_dimensions l channel_bytes (Z.to_nat (ndim l)) 0 1.

(** ** The store of shared buffers *)

Abbreviation store := (list CpuBuffer).

(** The constructor of the adapter: lock, then describe. *)
Definition make_adapter (access : CpuAccess) (loc : nat) (st : store)
    : res (halide_buffer_t * store) :=
  buffer ← of_option Undef (st !! loc);
  '(_, locked) ← lock_cpu access buffer;
  dim ← halide_dimensions (cb_layout buffer);
  Ok (mkHalide loc (halide_type_for (format (cb_layout buffer)))
        (bool_decide (access = AccessWrite)) dim, <[loc := locked]> st).

(** The destructor; [flush_cpu_writes] of a CPU buffer does nothing. *)
Definition destroy_adapter (loc : nat) (st : store) : res store :=
  buffer ← of_option Undef (st !! loc);
  unlocked ← unlock_cpu buffer;
  Ok (<[loc := unlocked]> st).

Definition destroy_adapters (locs : list nat) (st : store) : res store :=
  foldM (λ st loc, destroy_adapter loc st) st locs.

(** Adapters for a list of pointers: [None] in the result when one is null. *)
Fixpoint make_adapters (access : CpuAccess) (buffers : list (option nat))
    (made : list halide_buffer_t) (st : store) : res (bool * list halide_buffer_t * store) :=
  match buffers with
  | [] => Ok (true, made, st)
  | None :: _ => Ok (false, made, st)
  | Some loc :: buffers' =>
      '(h, st) ← make_adapter access loc st;
      make_adapters access buffers' (made ++ [h]) st
  end.

Definition memory (st : store) : list (option bytes) := cb_data <$> st.

(** The filter's writes: the new contents of the outputs, in their order. *)
Definition write_back (outputs : list nat) (contents : list (option bytes)) (st : store) : store :=
  foldl (λ st '(loc, d), alter (λ b, buffer_with_data b d) loc st) st (zip outputs contents).

(** ** Filters and their registries *)

(** [HalideFilterEntry] and [HalideParamFilterEntry]. *)
Definition HalideFilterEntry : Type :=
  halide_buffer_t → halide_buffer_t → list (option bytes) → Z * option bytes.
Definition HalideParamFilterEntry : Type :=
  list halide_buffer_t → list halide_buffer_t → bytes → list (option bytes) →
  Z * list (option bytes).

(** The maps of the registry and of the context; an entry may be null. *)
Record HalideFilterRegistry : Type := mkFilters {
  halide_filters : gmap string (option HalideFilterEntry);
  halide_param_filters : gmap string (option HalideParamFilterEntry)
}.

Definition register_halide_filter (r : HalideFilterRegistry) (aot_id : string)
    (entry : option HalideFilterEntry) : HalideFilterRegistry :=
  mkFilters (<[aot_id := entry]> (halide_filters r)) (halide_param_filters r).

Definition register_halide_param_filter (r : HalideFilterRegistry) (aot_id : string)
    (entry : option HalideParamFilterEntry) : HalideFilterRegistry :=
  mkFilters (halide_filters r) (<[aot_id := entry]> (halide_param_filters r)).

Definition halide_filter_ids (r : HalideFilterRegistry) : list string :=
  merge_sort string_le
    (filter (λ kv : string * option HalideFilterEntry, is_Some kv.2)
       (map_to_list (halide_filters r))).*1.

(** [ComputeContext::ComputeContext]: a snapshot of the global registry. *)
Definition compute_context (instance : HalideFilterRegistry) : HalideFilterRegistry :=
  mkFilters (halide_filters instance) (halide_param_filters instance).

(** ** Submission *)

(** Statuses as the integers of the C interface. *)
Definition status_int (s : cpipe_status_t) : Z :=
  match s with
  | CPIPE_OK => 0 | CPIPE_FAILED => 1 | CPIPE_REPLY_DEFAULT => 2 | CPIPE_OOM => 3
  | CPIPE_BAD_PRECISION => 4 | CPIPE_BAD_INDEX => 5 | CPIPE_NEED_PARAM => 6
  | CPIPE_INTERNAL_ERROR => 7 | CPIPE_UNSUPPORTED => 8 | CPIPE_NEED_METADATA => 9
  | CPIPE_NOT_IMPLEMENTED => 100
  end.

(** [found == end() || found->second == nullptr] negated. *)
Definition find_filter {A} (filters : gmap string (option A)) (aot_id : string) : option A :=
  match filters !! aot_id with Some (Some entry) => Some entry | _ => None end.

Definition submit_halide (context : HalideFilterRegistry) (aot_id : string)
    (inputs outputs : list (option nat)) (st : store) : res (Z * store) :=
  match find_filter (halide_filters context) aot_id with
  | None => Ok (status_int CPIPE_UNSUPPORTED, st)
  | Some filter =>
      match inputs, outputs with
      | [Some i], [Some o] =>
          '(input, st) ← make_adapter AccessRead i st;
          '(output, st) ← make_adapter AccessWrite o st;
          let '(status, contents) := filter input output (memory st) in
          let st := write_back [o] [contents] st in
          st ← destroy_adapters [o; i] st;
          Ok (status_int (if status =? 0 then CPIPE_OK else CPIPE_FAILED), st)
      | _, _ => Ok (status_int CPIPE_BAD_INDEX, st)
      end
  end.

(** The early returns destroy the adapters made so far; the status of the filter
    is passed through. *)
Definition submit_halide_with_params (context : HalideFilterRegistry) (aot_id : string)
    (inputs outputs : list (option nat)) (param_blob : bytes) (st : store) : res (Z * store) :=
  match find_filter (halide_param_filters context) aot_id with
  | None => Ok (status_int CPIPE_UNSUPPORTED, st)
  | Some filter =>
      '(complete, raw_inputs, st) ← make_adapters AccessRead inputs [] st;
      let input_locs := hb_host <$> raw_inputs in
      if negb complete then
        st ← destroy_adapters input_locs st; Ok (status_int CPIPE_BAD_INDEX, st)
      else
      '(complete, raw_outputs, st) ← make_adapters AccessWrite outputs [] st;
      let output_locs := hb_host <$> raw_outputs in
      if negb complete then
        st ← destroy_adapters output_locs st;
        st ← destroy_adapters input_locs st; Ok (status_int CPIPE_BAD_INDEX, st)
      else
      let '(status, contents) := filter raw_inputs raw_outputs param_blob (memory st) in
      let st := write_back output_locs contents st in
      st ← destroy_adapters output_locs st;
      st ← destroy_adapters input_locs st;
      Ok (if status =? 0 then status_int CPIPE_OK else status, st)
  end.

(** [buffer_from_handle] over the handles of a call. *)
Definition handle_buffers (handles : list (option (option nat))) : list (option nat) :=
  map (λ h, h ≫= id) handles.

(** The host-suite entries.  A handle pointer may be null, and the buffer it shares
    too; both become a null buffer. *)
Definition host_submit_halide (compute_null : bool) (context : HalideFilterRegistry)
    (aot_id : option string) (inputs outputs : list (option (option nat))) (st : store)
    : res (Z * store) :=
  match compute_null, aot_id with
  | false, Some aot_id => submit_halide context aot_id (handle_buffers inputs) (handle_buffers outputs) st
  | _, _ => Ok (status_int CPIPE_BAD_INDEX, st)
  end.

Definition host_submit_halide_with_params (compute_null : bool) (context : HalideFilterRegistry)
    (aot_id : option string) (inputs outputs : list (option (option nat)))
    (param_blob : option bytes) (param_blob_size : nat) (st : store) : res (Z * store) :=
  match compute_null, aot_id with
  | false, Some aot_id =>
      match param_blob with
      | None =>
          if (param_blob_size =? 0)%nat
          then submit_halide_with_params context aot_id (handle_buffers inputs) (handle_buffers outputs) [] st
          else Ok (status_int CPIPE_BAD_INDEX, st)
      | Some blob =>
          submit_halide_with_params context aot_id (handle_buffers inputs) (handle_buffers outputs)
            (take param_blob_size blob) st
      end
  | _, _ => Ok (status_int CPIPE_BAD_INDEX, st)
  end.

(** ** Locks of the store *)

(** The store with the buffers of [L] locked. *)
Definition with_locks (L : gset nat) (st : store) : store :=
  imap (λ i b, buffer_with_lock b (cb_locked b || bool_decide (i ∈ L))) st.

Lemma lookup_with_locks L st i :
  with_locks L st !! i
  = (λ b, buffer_with_lock b (cb_locked b || bool_decide (i ∈ L))) <$> st !! i.
Proof. unfold with_locks. apply list_lookup_imap. Qed.

Lemma buffer_lock_same b : buffer_with_lock b (cb_locked b) = b.
Proof. by destruct b. Qed.

Lemma with_locks_empty st : with_locks ∅ st = st.
Proof.
  apply list_eq. intros i. rewrite lookup_with_locks. destruct (st !! i) as [b|]; [|done].
  simpl. rewrite bool_decide_eq_false_2 by set_solver. by rewrite orb_false_r, buffer_lock_same.
Qed.

Lemma memory_with_locks L st : memory (with_locks L st) = memory st.
Proof.
  apply list_eq. intros i. unfold memory. rewrite !list_lookup_fmap, lookup_with_locks.
  by destruct (st !! i).
Qed.

(** Two stores that agree at [loc] and elsewhere. *)
Lemma insert_with_locks L L' st loc b x :
  st !! loc = Some b →
  x = buffer_with_lock b (cb_locked b || bool_decide (loc ∈ L')) →
  (∀ i, i ≠ loc → i ∈ L ↔ i ∈ L') →
  <[loc := x]> (with_locks L st) = with_locks L' st.
Proof.
  intros Hb -> Hi. apply list_eq. intros i. rewrite lookup_with_locks.
  destruct (decide (i = loc)) as [->|Hne].
  - rewrite list_lookup_insert_eq.
    + by rewrite Hb.
    + unfold with_locks. rewrite length_imap. by eapply lookup_lt_Some.
  - rewrite list_lookup_insert_ne by done. rewrite lookup_with_locks.
    by rewrite (bool_decide_ext _ _ (Hi i Hne)).
Qed.

(** A buffer the runtime allocated, not locked, that Halide can describe. *)
Definition ready (st : store) (loc : nat) : Prop :=
  ∃ b dim, st !! loc = Some b ∧ cb_locked b = false ∧
    has_usage (cb_usage b) usage_CpuRead = true ∧ has_usage (cb_usage b) usage_CpuWrite = true ∧
    halide_dimensions (cb_layout b) = Ok dim.

(** The description of a buffer. *)
Definition describes (st : store) (access : CpuAccess) (loc : nat) (h : halide_buffer_t) : Prop :=
  ∃ b, st !! loc = Some b ∧ hb_host h = loc ∧ hb_type h = halide_type_for (format (cb_layout b)) ∧
    hb_host_dirty h = bool_decide (access = AccessWrite) ∧
    halide_dimensions (cb_layout b) = Ok (hb_dim h).

Lemma lock_ready (access : CpuAccess) (b : CpuBuffer) (locked : bool) :
  has_usage (cb_usage b) usage_CpuRead = true → has_usage (cb_usage b) usage_CpuWrite = true →
  lock_cpu access (buffer_with_lock b locked)
  = if locked then Thrown aborted else Ok (cb_data b, buffer_with_lock b true).
Proof.
  intros Hr Hw. unfold lock_cpu, cassert. simpl. destruct locked; simpl; [done|].
  by destruct access; simpl; rewrite ?Hr, ?Hw.
Qed.

Lemma make_adapter_spec access L st loc :
  ready st loc →
  (loc ∈ L → make_adapter access loc (with_locks L st) = Thrown aborted) ∧
  (loc ∉ L → ∃ h, make_adapter access loc (with_locks L st) = Ok (h, with_locks ({[loc]} ∪ L) st) ∧
    describes st access loc h).
Proof.
  intros (b & dim & Hb & Hl & Hr & Hw & Hd). unfold make_adapter.
  rewrite lookup_with_locks, Hb. simpl. rewrite lock_ready by done. rewrite Hl. simpl. split; intros Hin.
  - by rewrite (bool_decide_eq_true_2 (loc ∈ L) Hin).
  - rewrite (bool_decide_eq_false_2 (loc ∈ L) Hin). simpl. rewrite Hd. simpl. eexists. split.
    + rewrite (insert_with_locks L ({[loc]} ∪ L) st loc b); [done|done| |set_solver].
      rewrite Hl, bool_decide_eq_true_2 by set_solver. done.
    + exists b. done.
Qed.

Lemma destroy_adapter_spec L st loc :
  ready st loc → loc ∈ L →
  destroy_adapter loc (with_locks L st) = Ok (with_locks (L ∖ {[loc]}) st).
Proof.
  intros (b & dim & Hb & Hl & _) Hin. unfold destroy_adapter.
  rewrite lookup_with_locks, Hb. simpl. rewrite (bool_decide_eq_true_2 (loc ∈ L)) by done.
  rewrite orb_true_r. unfold unlock_cpu. simpl. f_equal.
  apply (insert_with_locks L (L ∖ {[loc]}) st loc b); [done| |set_solver].
  by rewrite Hl, bool_decide_eq_false_2 by set_solver.
Qed.

Lemma destroy_adapters_spec locs st : ∀ L,
  Forall (ready st) locs → NoDup locs → (∀ loc, loc ∈ locs → loc ∈ L) →
  destroy_adapters locs (with_locks L st) = Ok (with_locks (L ∖ list_to_set locs) st).
Proof.
  induction locs as [|loc locs IH]; intros L Hr Hnd Hin; simpl.
  - f_equal. f_equal. set_solver.
  - apply Forall_cons in Hr as [Hr Hrs]. apply NoDup_cons in Hnd as [Hni Hnd].
    unfold destroy_adapters in *. simpl. rewrite destroy_adapter_spec by (try done; set_solver).
    simpl. rewrite IH; [|done..|set_solver]. do 2 f_equal. set_solver.
Qed.

(** Adapters on further locations: they are locked when all are distinct; otherwise
    the lock assertion fails. *)
Lemma make_adapters_spec access locs st : ∀ L made,
  Forall (ready st) locs →
  (NoDup locs ∧ (∀ loc, loc ∈ locs → loc ∉ L) →
     ∃ hs, make_adapters access (Some <$> locs) made (with_locks L st)
             = Ok (true, made ++ hs, with_locks (list_to_set locs ∪ L) st) ∧
           Forall2 (describes st access) locs hs) ∧
  (¬ (NoDup locs ∧ (∀ loc, loc ∈ locs → loc ∉ L)) →
     make_adapters access (Some <$> locs) made (with_locks L st) = Thrown aborted).
Proof.
  induction locs as [|loc locs IH]; intros L made Hr.
  - split; [intros _|intros []; split; [constructor|set_solver]].
    exists []. simpl. rewrite app_nil_r. split; [|constructor].
    by replace (∅ ∪ L) with L by set_solver.
  - apply Forall_cons in Hr as [Hr Hrs]. rewrite fmap_cons. cbn [make_adapters].
    destruct (make_adapter_spec access L st loc Hr) as [Hbad Hok].
    destruct (decide (loc ∈ L)) as [Hin|Hin].
    { rewrite (Hbad Hin). split; [|done]. intros [_ H]. by destruct (H loc); [left|]. }
    destruct (Hok Hin) as (h & -> & Hd). cbn [mbind res_bind].
    destruct (IH ({[loc]} ∪ L) (made ++ [h]) Hrs) as [IH1 IH2]. split.
    + intros [Hnd Hni]. apply NoDup_cons in Hnd as [Hnl Hnd].
      destruct IH1 as (hs & -> & Hds); [split; [done|]; set_solver|].
      exists (h :: hs). rewrite <-app_assoc. split; [|by constructor]. simpl.
      by replace (list_to_set locs ∪ ({[loc]} ∪ L)) with ({[loc]} ∪ list_to_set locs ∪ L)
        by set_solver.
    + intros Hn. apply IH2. intros [Hnd Hni]. apply Hn. split; [|set_solver].
      apply NoDup_cons. split; [|done]. intros Hl. by apply (Hni loc Hl), elem_of_union_l, elem_of_singleton.
Qed.

(** ** Writes of a filter *)

Lemma write_back_cons loc outs d contents st :
  write_back (loc :: outs) (d :: contents) st
  = write_back outs contents (alter (λ b, buffer_with_data b d) loc st).
Proof. done. Qed.

Lemma write_back_nil_r outs st : write_back outs [] st = st.
Proof. by destruct outs. Qed.

Lemma alter_with_locks L st loc d :
  alter (λ b, buffer_with_data b d) loc (with_locks L st)
  = with_locks L (alter (λ b, buffer_with_data b d) loc st).
Proof.
  apply list_eq. intros i. rewrite lookup_with_locks. destruct (decide (i = loc)) as [->|Hne].
  - rewrite !list_lookup_alter_eq, lookup_with_locks. by destruct (st !! loc).
  - by rewrite !list_lookup_alter_ne, lookup_with_locks by done.
Qed.

Lemma write_back_with_locks L outs : ∀ contents st,
  write_back outs contents (with_locks L st) = with_locks L (write_back outs contents st).
Proof.
  induction outs as [|loc outs IH]; intros [|d contents] st; [done..|].
  by rewrite !write_back_cons, alter_with_locks, IH.
Qed.

Lemma write_back_other outs loc : ∀ contents st,
  loc ∉ outs → write_back outs contents st !! loc = st !! loc.
Proof.
  induction outs as [|o outs IH]; intros [|d contents] st Hn; [done..|].
  apply not_elem_of_cons in Hn as [Hne Hn]. rewrite write_back_cons, IH by done.
  by apply list_lookup_alter_ne.
Qed.

(** The frame of a write: everything but the data is kept. *)
Lemma write_back_frame outs loc : ∀ contents st b,
  st !! loc = Some b → ∃ d, write_back outs contents st !! loc = Some (buffer_with_data b d).
Proof.
  induction outs as [|o outs IH]; intros [|d contents] st b Hb.
  1-3: exists (cb_data b); rewrite ?write_back_nil_r; change (write_back [] _ st) with st;
    rewrite Hb; by destruct b.
  rewrite write_back_cons. destruct (decide (loc = o)) as [->|Hne].
  - destruct (IH contents (alter (λ b, buffer_with_data b d) o st) (buffer_with_data b d)) as [d' Hd'].
    { by rewrite list_lookup_alter_eq, Hb. }
    by exists d'.
  - apply IH. by rewrite list_lookup_alter_ne.
Qed.

Lemma write_back_ready outs contents st loc : ready st loc → ready (write_back outs contents st) loc.
Proof.
  intros (b & dim & Hb & Hr). destruct (write_back_frame outs loc contents st b Hb) as [d Hd].
  by exists (buffer_with_data b d), dim.
Qed.

Lemma write_back_data outs : ∀ contents st k loc d,
  NoDup outs → outs !! k = Some loc → contents !! k = Some d → is_Some (st !! loc) →
  memory (write_back outs contents st) !! loc = Some d.
Proof.
  induction outs as [|o outs IH]; intros [|x contents] st [|k] loc d Hnd Hk Hc [b Hb]; simplify_eq/=;
    apply NoDup_cons in Hnd as [Hni Hnd]; rewrite write_back_cons.
  - unfold memory. rewrite list_lookup_fmap, write_back_other by done.
    by rewrite list_lookup_alter_eq, Hb.
  - eapply IH; try done. assert (loc ≠ o) by (intros ->; by apply list_elem_of_lookup_2 in Hk).
    rewrite list_lookup_alter_ne by done. by exists b.
Qed.

(** ** Submission *)

Section submission.
Context (context : HalideFilterRegistry) (aot_id : string) (f : HalideParamFilterEntry).
Context (Hf : find_filter (halide_param_filters context) aot_id = Some f).

Lemma hosts_of st access locs hs : Forall2 (describes st access) locs hs → hb_host <$> hs = locs.
Proof.
  induction 1 as [|loc h locs hs (b & _ & Hh & _) _ IH]; [done|]. rewrite fmap_cons. by rewrite Hh, IH.
Qed.

Lemma submit_distinct ins outs params st :
  Forall (ready st) (ins ++ outs) → NoDup (ins ++ outs) →
  ∃ hi ho, Forall2 (describes st AccessRead) ins hi ∧ Forall2 (describes st AccessWrite) outs ho ∧
    submit_halide_with_params context aot_id (Some <$> ins) (Some <$> outs) params st
    = let '(status, contents) := f hi ho params (memory st) in
      Ok (if status =? 0 then 0 else status, write_back outs contents st).
Proof.
  intros Hr Hnd. apply Forall_app in Hr as [Hri Hro]. apply NoDup_app in Hnd as (Hni & Hd & Hno).
  destruct (proj1 (make_adapters_spec AccessRead ins st ∅ [] Hri)) as (hi & Hi & Hdi);
    [split; [done|set_solver]|].
  destruct (proj1 (make_adapters_spec AccessWrite outs st (list_to_set ins ∪ ∅) [] Hro))
    as (ho & Ho & Hdo); [split; [done|]; set_solver|].
  exists hi, ho. split_and!; [done..|].
  unfold submit_halide_with_params. rewrite Hf.
  rewrite <-(with_locks_empty st) at 1. rewrite Hi. cbn [mbind res_bind negb app].
  rewrite Ho. cbn [mbind res_bind negb app].
  rewrite (hosts_of _ _ _ _ Hdi), (hosts_of _ _ _ _ Hdo), memory_with_locks.
  destruct (f hi ho params (memory st)) as [status contents].
  rewrite write_back_with_locks.
  assert (∀ l, Forall (ready st) l → Forall (ready (write_back outs contents st)) l) as Hrw
    by (intros l Hl; eapply Forall_impl; [done|]; intros; by apply write_back_ready).
  rewrite destroy_adapters_spec; [|auto|done|set_solver]. cbn [mbind res_bind].
  rewrite destroy_adapters_spec; [|auto|done|set_solver]. cbn [mbind res_bind]. f_equal. f_equal.
  rewrite <-(with_locks_empty (write_back outs contents st)) at 2. f_equal. set_solver.
Qed.

Lemma submit_aliased ins outs params st :
  Forall (ready st) (ins ++ outs) → ¬ NoDup (ins ++ outs) →
  submit_halide_with_params context aot_id (Some <$> ins) (Some <$> outs) params st = Thrown aborted.
Proof.
  intros Hr Hnd. apply Forall_app in Hr as [Hri Hro].
  unfold submit_halide_with_params. rewrite Hf.
  rewrite <-(with_locks_empty st).
  destruct (make_adapters_spec AccessRead ins st ∅ [] Hri) as [Hok Hbad].
  destruct (decide (NoDup ins)) as [Hni|Hni]; [|rewrite Hbad; [done|tauto]].
  destruct Hok as (hi & -> & _); [split; [done|set_solver]|]. cbn [mbind res_bind negb app].
  rewrite (proj2 (make_adapters_spec AccessWrite outs st (list_to_set ins ∪ ∅) [] Hro)); [done|].
  intros [Hno Hdis]. apply Hnd. apply NoDup_app. split_and!; [done| |done]. set_solver.
Qed.
End submission.

(** ** Addresses *)

(** The element an index addresses, and the indices of a buffer. *)
Fixpoint element_offset (dim : list halide_dimension_t) (idx : list Z) : Z :=
  match dim, idx with
  | d :: dim', i :: idx' => (i - hd_min d) * hd_stride d + element_offset dim' idx'
  | _, _ => 0
  end.

Definition in_extents (dim : list halide_dimension_t) (idx : list Z) : Prop :=
  Forall2 (λ d i, hd_min d ≤ i < hd_min d + hd_extent d) dim idx.

(** Mixed-radix numbers, least significant digit first. *)
Fixpoint radix (ds idx : list Z) : Z :=
  match ds, idx with d :: ds', i :: idx' => i + d * radix ds' idx' | _, _ => 0 end.

Lemma radix_bound ds idx :
  Forall2 (λ d i, 0 ≤ i < d) ds idx → 0 ≤ radix ds idx < foldr Z.mul 1 ds.
Proof. induction 1 as [|d i ds idx Hi _ IH]; simpl; [lia|]. nia. Qed.

Lemma radix_inj ds idx idx' :
  Forall2 (λ d i, 0 ≤ i < d) ds idx → Forall2 (λ d i, 0 ≤ i < d) ds idx' →
  radix ds idx = radix ds idx' → idx = idx'.
Proof.
  intros H. revert idx'. induction H as [|d i ds idx Hi _ IH]; intros idx' H' Heq;
    inversion H' as [|? i' ? idx'' Hi' H'']; subst; [done|]. simpl in Heq.
  assert (radix ds idx = radix ds idx'' ∧ i = i') as [Hr ->].
  { apply (Z.div_mod_unique d); lia. }
  by rewrite (IH idx'' H'' Hr).
Qed.

Lemma i32_small z : - 2 ^ 31 ≤ z < 2 ^ 31 → i32 z = z.
Proof. intros. unfold i32. rewrite Z.mod_small by lia. lia. Qed.

Lemma nth8_stride_zero l i : Forall (λ s, s = 0) l → nth8 l i = 0.
Proof.
  intros H. unfold nth8. destruct (l !! _) eqn:E; [|done]. by eapply Forall_lookup_1 in E; [|exact H].
Qed.

Lemma product_pos ds : Forall (λ d, 1 ≤ d) ds → 1 ≤ foldr Z.mul 1 ds.
Proof. induction 1 as [|d ds Hd _ IH]; simpl; nia. Qed.

(** A dense buffer is described by the running products of its extents. *)
Lemma dense_dimensions_spec l cb ds : ∀ i p,
  Forall (λ s, s = 0) (stride l) → ds `prefix_of` drop i (dims l) → (i + length ds ≤ 8)%nat →
  Forall (λ d, 1 ≤ d) ds → 1 ≤ p → p * foldr Z.mul 1 ds < 2 ^ 31 →
  ∃ dim, dense_dimensions l cb (length ds) i p = Ok dim ∧
    (∀ idx, in_extents dim idx → Forall2 (λ d i, 0 ≤ i < d) ds idx) ∧
    (∀ idx, in_extents dim idx → element_offset dim idx = p * radix ds idx).
Proof.
  induction ds as [|d ds IH]; intros i p Hs Hpre Hlen Hpos Hp Hprod.
  - exists []. split_and!; [done| |]; intros idx H; inversion H; [constructor|simpl; lia].
  - apply Forall_cons in Hpos as [Hd Hpos]. pose proof (product_pos ds Hpos) as Hds.
    simpl in Hlen, Hprod. destruct Hpre as [suf Hpre].
    assert (dims l !! i = Some d) as Hi.
    { rewrite <-(Nat.add_0_r i), <-lookup_drop, Hpre. done. }
    assert (p * d * foldr Z.mul 1 ds < 2 ^ 31) by lia.
    assert (1 ≤ p * d < 2 ^ 31) by nia. assert (d < 2 ^ 31) by nia.
    destruct (IH (S i) (p * d)) as (dim & Hdim & Hin & Hoff); [done| |lia|done|lia|lia|].
    { exists suf. replace (S i) with (i + 1)%nat by lia. rewrite <-drop_drop, Hpre. done. }
    exists (mkHDim 0 d p :: dim). cbn [length dense_dimensions]. split.
    { unfold array8. rewrite (proj2 (Nat.ltb_lt i 8)) by lia. simpl.
      rewrite (nth8_stride_zero (stride l)) by done. simpl. unfold nth8. rewrite Nat2Z.id, Hi. simpl.
      rewrite i32_small by lia. unfold imul32.
      rewrite (proj2 (Z.leb_le _ _)), (proj2 (Z.ltb_lt _ _)) by lia. simpl. by rewrite Hdim. }
    split; intros idx Hext; inversion Hext as [|? x ? idx' Hx Hidx]; subst; simpl in Hx |- *.
    + constructor; [lia|auto].
    + rewrite (Hoff idx' Hidx). lia.
Qed.

(** The channel dimension of an image divides its pixels. *)
Lemma channel_bytes_pixel f :
  1 < channel_count f → 1 ≤ bytes_per_channel f ∧
  bytes_per_channel f * channel_count f = bytes_per_pixel f.
Proof. destruct f; vm_compute; intuition congruence. Qed.

Lemma bytes_per_channel_le f :
  bytes_per_pixel f ≠ 0 → 1 ≤ bytes_per_channel f ≤ bytes_per_pixel f ∧ 1 ≤ channel_count f ≤ 4.
Proof. destruct f; vm_compute; intuition congruence. Qed.

(** An image with interleaved channels: channel, column, row. *)
Lemma image_dimensions l w h rest :
  kind l = Image2D → 1 < channel_count (format l) → dims l = w :: h :: rest →
  Forall (λ s, s = 0) (stride l) → 1 ≤ w → 1 ≤ h → channel_count (format l) * (w * h) < 2 ^ 31 →
  halide_dimensions l = Ok [mkHDim 0 w (channel_count (format l));
    mkHDim 0 h (channel_count (format l) * w); mkHDim 0 (channel_count (format l)) 1].
Proof.
  intros Hk Hc Hd Hs Hw Hh Hp. destruct (channel_bytes_pixel _ Hc) as [Hcb Hbpp].
  pose proof (bytes_per_pixel_bound (format l)) as Hb.
  unfold halide_dimensions. rewrite bool_decide_eq_true_2, (proj2 (Z.ltb_lt _ _)) by done.
  cbn [andb]. rewrite !(nth8_stride_zero (stride l)) by done. rewrite Hd. unfold nth8. simpl.
  set (c := channel_count (format l)) in *. set (cb := bytes_per_channel (format l)) in *.
  assert (1 ≤ c * w < 2 ^ 31) by nia. assert (w < 2 ^ 31 ∧ h < 2 ^ 31) by nia.
  rewrite (u64_small (cb * c)) by lia. rewrite u64_small by nia.
  unfold udiv. rewrite (proj2 (Z.eqb_neq cb 0)) by lia. simpl.
  rewrite (Z.mul_comm cb c), Z.div_mul by lia.
  replace (c * cb * w) with (c * w * cb) by lia. rewrite Z.div_mul by lia.
  rewrite !i32_small by lia. done.
Qed.

Lemma image_offset w h c x y k :
  element_offset [mkHDim 0 w c; mkHDim 0 h (c * w); mkHDim 0 c 1] [x; y; k] = radix [c; w; h] [k; x; y].
Proof. simpl. lia. Qed.

Lemma in_extents_image w h c idx :
  in_extents [mkHDim 0 w c; mkHDim 0 h (c * w); mkHDim 0 c 1] idx →
  ∃ x y k, idx = [x; y; k] ∧ Forall2 (λ d i, 0 ≤ i < d) [c; w; h] [k; x; y].
Proof.
  intros H. inversion H as [|? x ? l1 Hx H1]; subst. inversion H1 as [|? y ? l2 Hy H2]; subst.
  inversion H2 as [|? k ? l3 Hk H3]; subst. inversion H3; subst. simpl in *.
  exists x, y, k. split; [done|]. repeat constructor; lia.
Qed.

(** ** Theorems *)

(** the description handed to Halide stays inside the buffer: for a dense layout
    whose samples number less than 2^31, every index within the extents addresses
    bytes of the allocation, and no two indices address the same sample. *)
Theorem adapter_in_bounds (l : BufferLayout) :
  kind l ≠ Blob → 1 ≤ ndim l ≤ 8 → length (dims l) = 8%nat → Forall (λ s, s = 0) (stride l) →
  bytes_per_pixel (format l) ≠ 0 →
  (kind l = Image2D → 1 < channel_count (format l) → ndim l = 2) →
  Forall (λ d, 1 ≤ d) (take (Z.to_nat (ndim l)) (dims l)) →
  channel_count (format l) * foldr Z.mul 1 (take (Z.to_nat (ndim l)) (dims l)) < 2 ^ 31 →
  ∃ dim, halide_dimensions l = Ok dim ∧
    (∀ idx, in_extents dim idx → 0 ≤ element_offset dim idx ∧
       (element_offset dim idx + 1) * bytes_per_channel (format l) ≤ size_bytes l) ∧
    (∀ idx idx', in_extents dim idx → in_extents dim idx' →
       element_offset dim idx = element_offset dim idx' → idx = idx').
Proof.
  intros Hk Hn Hlen Hs Hbpp Himg Hpos Hprod.
  destruct (bytes_per_channel_le _ Hbpp) as [Hcb Hc]. pose proof (product_pos _ Hpos) as Hp.
  pose proof (bytes_per_pixel_bound (format l)) as Hb.
  assert (size_bytes l = bytes_per_pixel (format l) *
    foldr Z.mul 1 (take (Z.to_nat (ndim l)) (dims l))) as Hsize.
  { rewrite size_bytes_dense by done. apply u64_small. nia. }
  rewrite Hsize. clear Hsize. destruct (decide (kind l = Image2D ∧ 1 < channel_count (format l))) as [[Hi Hc1]|Hni].
  - rewrite (Himg Hi Hc1) in *. destruct (dims l) as [|w [|h rest]] eqn:Hd; try discriminate Hlen.
    change (take (Z.to_nat 2) (w :: h :: rest)) with [w; h] in *. simpl in Hprod, Hp |- *.
    rewrite Z.mul_1_r in *. rewrite !Forall_cons in Hpos. destruct Hpos as (Hw & Hh & _).
    eexists. split; [by apply (image_dimensions l w h rest)|].
    destruct (channel_bytes_pixel _ Hc1) as [_ Hbc]. split.
    + intros idx (x & y & k & -> & Hx)%in_extents_image. rewrite image_offset.
      apply radix_bound in Hx. simpl foldr in Hx. rewrite <-Hbc. nia.
    + intros idx idx' (x & y & k & -> & Hx)%in_extents_image (x' & y' & k' & -> & Hx')%in_extents_image.
      rewrite !image_offset. intros Heq. by injection (radix_inj _ _ _ Hx Hx' Heq) as -> -> ->.
  - destruct (dense_dimensions_spec l (bytes_per_channel (format l))
      (take (Z.to_nat (ndim l)) (dims l)) 0 1) as (dim & Hdim & Hin & Hoff);
      [done|by exists (drop (Z.to_nat (ndim l)) (dims l)); rewrite take_drop| |done|lia|nia|].
    { rewrite length_take. lia. }
    rewrite length_take, Hlen, Nat.min_l in Hdim by lia. exists dim. split.
    { unfold halide_dimensions. destruct (bool_decide (kind l = Image2D)) eqn:E; [|done].
      apply bool_decide_eq_true in E. destruct (Z.ltb_spec 1 (channel_count (format l))); [tauto|done]. }
    split.
    + intros idx Hidx. rewrite (Hoff idx Hidx). pose proof (radix_bound _ _ (Hin idx Hidx)). nia.
    + intros idx idx' H H'. rewrite (Hoff idx H), (Hoff idx' H'), !Z.mul_1_l.
      by apply radix_inj; apply Hin.
Qed.

(** C9: a parametrised submission, exactly.  On ready, pairwise distinct buffers the
    registered filter runs on descriptions of them in the given order, its status
    is returned, its outputs get the contents it produced, nothing else changes and
    every buffer is unlocked again.  When a buffer is given twice - as the pipeline
    does for a node with several input ports - the second lock stops the program. *)
Theorem submit_params_exact (context : HalideFilterRegistry) (aot_id : string)
    (f : HalideParamFilterEntry) (ins outs : list nat) (params : bytes) (st : store) :
  find_filter (halide_param_filters context) aot_id = Some f → Forall (ready st) (ins ++ outs) →
  (NoDup (ins ++ outs) → ∃ hi ho st',
     Forall2 (describes st AccessRead) ins hi ∧ Forall2 (describes st AccessWrite) outs ho ∧
     let '(status, contents) := f hi ho params (memory st) in
     submit_halide_with_params context aot_id (Some <$> ins) (Some <$> outs) params st
     = Ok (if status =? 0 then 0 else status, st') ∧
     (∀ loc, loc ∉ outs → st' !! loc = st !! loc) ∧
     (∀ loc b, st !! loc = Some b → ∃ d, st' !! loc = Some (buffer_with_data b d)) ∧
     (∀ k loc d, outs !! k = Some loc → contents !! k = Some d → memory st' !! loc = Some d)) ∧
  (¬ NoDup (ins ++ outs) →
     submit_halide_with_params context aot_id (Some <$> ins) (Some <$> outs) params st
     = Thrown aborted).
Proof.
  intros Hf Hr. split; [|by apply (submit_aliased _ _ f)]. intros Hnd.
  destruct (submit_distinct context aot_id f Hf ins outs params st Hr Hnd)
    as (hi & ho & Hi & Ho & Hs).
  destruct (f hi ho params (memory st)) as [status contents] eqn:E.
  exists hi, ho, (write_back outs contents st). rewrite E.
  apply NoDup_app in Hnd as (_ & _ & Hno). apply Forall_app in Hr as [_ Hro].
  split_and!; try done.
  - intros loc Hl. by apply write_back_other.
  - intros loc b Hb. by apply write_back_frame.
  - intros k loc d Hk Hc. eapply write_back_data; try done.
    apply list_elem_of_lookup_2 in Hk. rewrite Forall_forall in Hro.
    destruct (Hro loc Hk) as (b & _ & Hb & _). by exists b.
Qed.

Lemma find_filter_Some {A} (m : gmap string (option A)) id :
  is_Some (find_filter m id) ↔ ∃ x, m !! id = Some (Some x).
Proof.
  unfold find_filter. destruct (m !! id) as [[x|]|]; split; try by intros []; eauto.
Qed.

(** the listing of the registered filters is sorted, has no duplicates, and holds
    exactly the ids under which a submission finds a filter. *)
Theorem filter_ids_exact (r : HalideFilterRegistry) :
  Sorted string_le (halide_filter_ids r) ∧ NoDup (halide_filter_ids r) ∧
  ∀ id, id ∈ halide_filter_ids r ↔ is_Some (find_filter (halide_filters (compute_context r)) id).
Proof.
  assert (Total string_le) by (intros a b; unfold string_le; apply String.leb_total).
  set (l := filter (λ kv : string * option HalideFilterEntry, is_Some kv.2)
    (map_to_list (halide_filters r))).
  split_and!; unfold halide_filter_ids; fold l.
  - by apply Sorted_merge_sort.
  - rewrite merge_sort_Permutation. apply NoDup_fmap_fst.
    + intros id e e' He He'. unfold l in He, He'.
      apply list_elem_of_filter in He as [_ He], He' as [_ He'].
      apply elem_of_map_to_list in He, He'. congruence.
    + apply NoDup_filter, NoDup_map_to_list.
  - intros id. rewrite merge_sort_Permutation, list_elem_of_fmap, find_filter_Some. simpl. split.
    + intros ([id' e] & -> & [[x Hx] He]%list_elem_of_filter). simpl in Hx. subst e.
      apply elem_of_map_to_list in He. by exists x.
    + intros [x Hx]. exists (id, Some x). split; [done|]. apply list_elem_of_filter.
      split; [by eexists|]. by apply elem_of_map_to_list.
Qed.

(** ** Witnesses *)

Definition example_rgba : BufferLayout :=
  mkLayout Image2D R16G16B16A16_SFLOAT 2 [2; 1; 0; 0; 0; 0; 0; 0] zeros8.

Definition example_cpu_buffer : CpuBuffer :=
  mkCpuBuffer example_rgba (usage_or usage_CpuRead usage_CpuWrite) "" None
    (Some (replicate 16 0)) 16 false.

(** A filter that fills its output with ones. *)
Definition example_filter : HalideParamFilterEntry := λ _ outs _ _,
  (0, (λ _, Some (replicate 16 1)) <$> outs).

Definition example_context : HalideFilterRegistry :=
  register_halide_param_filter (mkFilters ∅ ∅) "fill" (Some example_filter).

Lemma example_ready : Forall (ready [example_cpu_buffer; example_cpu_buffer]) [0; 1]%nat.
Proof. repeat constructor; exists example_cpu_buffer; eexists; split_and!; reflexivity. Qed.

Lemma adapter_in_bounds_witness :
  ∃ dim, halide_dimensions example_rgba = Ok dim ∧
    (element_offset dim [1; 0; 3] + 1) * bytes_per_channel R16G16B16A16_SFLOAT
      ≤ size_bytes example_rgba.
Proof.
  destruct (adapter_in_bounds example_rgba) as (dim & Hdim & Hin & _);
    [done|done|done|repeat constructor|done|done|repeat constructor; done|done|].
  exists dim. split; [done|]. apply Hin. vm_compute in Hdim. injection Hdim as <-.
  repeat constructor; done.
Defined.

Lemma submit_params_exact_witness :
  submit_halide_with_params example_context "fill" [Some 0; Some 0]%nat [Some 1]%nat []
    [example_cpu_buffer; example_cpu_buffer] = Thrown aborted.
Proof.
  apply (submit_params_exact example_context "fill" example_filter [0; 0]%nat [1]%nat []);
    [reflexivity| |].
  - destruct (proj1 (Forall_cons _ _ _) example_ready) as [H0 H1]. apply (Forall_cons_2 _ 0%nat); [done|].
    by apply (Forall_cons_2 _ 0%nat).
  - intros H. apply NoDup_cons in H as [H _]. apply H. left.
Defined.
