(* ===== verification/StateRes.v ===== *)
(** * A state and result monad, and text as the C++ code handles it

    The editor server's handlers mutate a session, return statuses and let
    exceptions escape: [sr S A] threads a state [S] through computations with the
    outcomes of [res].  A failure or an exception keeps the changes made before
    it, as in C++.  The second half has the operations on [std::string] and
    [std::string_view] that several components use, and the decimal conversion
    of [std::istream]. *)

From Stdlib Require Import ZArith Lia Ascii String.
From stdpp Require Import prelude strings list.
From S2P Require Import Prelude.

(** ** The monad *)

Definition sr (S A : Type) : Type := S → res A * S.

#[export] Instance sr_ret S : MRet (sr S) := λ A a s, (Ok a, s).
#[export] Instance sr_bind S : MBind (sr S) := λ A B f m s,
  match m s with
  | (Ok a, s') => f a s'
  | (Fail st msg, s') => (Fail st msg, s')
  | (Thrown e, s') => (Thrown e, s')
  | (Undef, s') => (Undef, s')
  end.

(** A computation that does not touch the state. *)
Definition lift {S A} (m : res A) : sr S A := λ s, (m, s).
Definition gets {S A} (f : S → A) : sr S A := λ s, (Ok (f s), s).
Definition modify {S} (f : S → S) : sr S unit := λ s, (Ok tt, f s).
Definition failS {S A} (st : cpipe_status_t) (msg : string) : sr S A := λ s, (Fail st msg, s).

(** The status and the error text of a call, as its caller receives them. *)
Definition attempt {S A} (m : sr S A) : sr S (cpipe_status_t * string) := λ s,
  match m s with
  | (Ok _, s') => (Ok (CPIPE_OK, ""), s')
  | (Fail st msg, s') => (Ok (st, msg), s')
  | (Thrown e, s') => (Thrown e, s')
  | (Undef, s') => (Undef, s')
  end.

(** [try { m } catch (const std::exception& e) { h(e) }]: the handler runs in the
    state the exception left. *)
Definition catchS {S A} (m : sr S A) (h : exn → sr S A) : sr S A := λ s,
  match m s with
  | (Thrown aborted, s') => (Thrown aborted, s')
  | (Thrown e, s') => h e s'
  | r => r
  end.

(** [for (const auto& x : l) f(x)]. *)
Fixpoint forS {S A} (f : A → sr S unit) (l : list A) : sr S unit :=
  match l with
  | [] => mret tt
  | x :: l' => _ ← f x; forS f l'
  end.

(** [m] keeps the property [P] of the state, whatever its outcome. *)
Definition keeps {S A} (P : S → Prop) (m : sr S A) : Prop := ∀ s, P s → P (m s).2.

Lemma sr_bind_Ok {S A B} (m : sr S A) (f : A → sr S B) s a s' :
  m s = (Ok a, s') → (m ≫= f) s = f a s'.
Proof. unfold mbind, sr_bind. by intros ->. Qed.

Lemma keeps_ret {S A} (P : S → Prop) (a : A) : keeps P (mret a).
Proof. by intros s. Qed.
Lemma keeps_lift {S A} (P : S → Prop) (m : res A) : keeps P (lift m).
Proof. by intros s. Qed.
Lemma keeps_gets {S A} (P : S → Prop) (f : S → A) : keeps P (gets f).
Proof. by intros s. Qed.
Lemma keeps_fail {S A} (P : S → Prop) st msg : keeps P (@failS S A st msg).
Proof. by intros s. Qed.
Lemma keeps_modify {S} (P : S → Prop) (f : S → S) : (∀ s, P s → P (f s)) → keeps P (modify f).
Proof. by intros H s Hs; apply H. Qed.

Lemma keeps_bind {S A B} (P : S → Prop) (m : sr S A) (f : A → sr S B) :
  keeps P m → (∀ a, keeps P (f a)) → keeps P (m ≫= f).
Proof.
  intros Hm Hf s Hs. specialize (Hm s Hs). unfold mbind, sr_bind.
  destruct (m s) as [[] s']; simpl in *; try done. by apply Hf.
Qed.

Lemma keeps_bind_lift {S A B} (P : S → Prop) (m : res A) (f : A → sr S B) :
  (∀ a, m = Ok a → keeps P (f a)) → keeps P (lift m ≫= f).
Proof. intros Hf s Hs. unfold mbind, sr_bind, lift. destruct m; try done. by apply Hf. Qed.

Lemma keeps_attempt {S A} (P : S → Prop) (m : sr S A) : keeps P m → keeps P (attempt m).
Proof. intros Hm s Hs. specialize (Hm s Hs). unfold attempt. by destruct (m s) as [[] s']. Qed.

Lemma keeps_catch {S A} (P : S → Prop) (m : sr S A) h :
  keeps P m → (∀ e, keeps P (h e)) → keeps P (catchS m h).
Proof.
  intros Hm Hh s Hs. specialize (Hm s Hs). unfold catchS.
  destruct (m s) as [[|? ?|e|] s']; try done. destruct e; try done; by apply Hh.
Qed.

Lemma keeps_for {S A} (P : S → Prop) (f : A → sr S unit) l :
  (∀ x, x ∈ l → keeps P (f x)) → keeps P (forS f l).
Proof.
  induction l as [|x l IH]; intros Hf; [apply keeps_ret|]. simpl.
  apply keeps_bind; [apply Hf; left|]. intros _. apply IH. intros; apply Hf; by right.
Qed.

(** [m] takes states with [P] to states with [Q]. *)
Definition moves {S A} (P Q : S → Prop) (m : sr S A) : Prop := ∀ s, P s → Q (m s).2.

Lemma moves_bind {S A B} (P Q : S → Prop) (m : sr S A) (f : A → sr S B) :
  moves P Q m → (∀ a, keeps Q (f a)) → moves P Q (m ≫= f).
Proof.
  intros Hm Hf s Hs. specialize (Hm s Hs). unfold mbind, sr_bind.
  destruct (m s) as [[] s']; simpl in *; try done. by apply Hf.
Qed.

Lemma keeps_and {S A} (P Q : S → Prop) (m : sr S A) :
  keeps P m → keeps Q m → keeps (λ s, P s ∧ Q s) m.
Proof. intros HP HQ s [Hp Hq]. split; [by apply HP|by apply HQ]. Qed.

#[export] Hint Resolve keeps_ret keeps_lift keeps_gets keeps_fail keeps_attempt : cpipe.

(** Split a [keeps] goal along the structure of the computation; what the context
    says about a part is used first. *)
Ltac keeps_steps :=
  repeat first
    [ progress intros
    | match goal with H : context [keeps _ _] |- _ => solve [apply H] end
    | apply keeps_bind | apply keeps_catch | apply keeps_attempt
    | apply keeps_ret | apply keeps_lift | apply keeps_gets | apply keeps_fail
    | match goal with
      | |- keeps _ (if ?b then _ else _) => destruct b
      | |- keeps _ (match ?x with _ => _ end) => destruct x
      end ].

(** Weakest preconditions: [m] returns from [s], with [Q] on success, and with [F]
    and a status that is an error on failure. *)
Definition wp {S A} (m : sr S A) (s : S) (Q : A → S → Prop) (F : S → Prop) : Prop :=
  match m s with
  | (Ok a, s') => Q a s'
  | (Fail st _, s') => st ≠ CPIPE_OK ∧ F s'
  | (Thrown e, s') => e ≠ aborted ∧ F s'
  | (Undef, _) => False
  end.

Lemma wp_throw {S A} e s (Q : A → S → Prop) (F : S → Prop) : e ≠ aborted → F s → wp (lift (Thrown e)) s Q F.
Proof. done. Qed.

Lemma wp_bind {S A B} (m : sr S A) (f : A → sr S B) s Q F :
  wp m s (λ a s', wp (f a) s' Q F) F → wp (m ≫= f) s Q F.
Proof. unfold wp, mbind, sr_bind. by destruct (m s) as [[] s']. Qed.

Lemma wp_mono {S A} (m : sr S A) s (Q Q' : A → S → Prop) (F F' : S → Prop) :
  wp m s Q F → (∀ a s', Q a s' → Q' a s') → (∀ s', F s' → F' s') → wp m s Q' F'.
Proof. unfold wp. destruct (m s) as [[] s']; naive_solver. Qed.

Lemma wp_ret {S A} (a : A) s (Q : A → S → Prop) (F : S → Prop) : Q a s → wp (mret a) s Q F.
Proof. done. Qed.
Lemma wp_fail {S A} st msg s (Q : A → S → Prop) (F : S → Prop) :
  st ≠ CPIPE_OK → F s → wp (failS st msg) s Q F.
Proof. done. Qed.

(** A computation that leaves the state alone. *)
Definition quiet {S A} (m : sr S A) (s : S) (P : A → Prop) : Prop := (m s).2 = s ∧ returns (m s).1 P.

Lemma wp_quiet {S A B} (m : sr S A) (f : A → sr S B) s P Q F :
  quiet m s P → F s → (∀ a, P a → wp (f a) s Q F) → wp (m ≫= f) s Q F.
Proof.
  intros [Hs Hr] HF Hf. apply wp_bind. unfold wp at 1. destruct (m s) as [[] s']; simpl in *; subst; auto.
Qed.

Lemma quiet_lift {S A} (m : res A) (s : S) P : returns m P → quiet (lift m) s P.
Proof. by split. Qed.
Lemma quiet_ret {S A} (a : A) (s : S) (P : A → Prop) : P a → quiet (mret a) s P.
Proof. by split. Qed.
Lemma quiet_fail {S A} st msg (s : S) (P : A → Prop) : st ≠ CPIPE_OK → quiet (failS st msg) s P.
Proof. by split. Qed.

Lemma quiet_bind {S A B} (m : sr S A) (f : A → sr S B) s P Q :
  quiet m s P → (∀ a, P a → quiet (f a) s Q) → quiet (m ≫= f) s Q.
Proof.
  intros [Hs Hr] Hf. unfold quiet, mbind, sr_bind. destruct (m s) as [[a|? ?|e|] s']; simpl in *; subst; try done.
  by apply Hf.
Qed.

(** ** Text *)

(** The bytes of a [std::string] and back. *)
Fixpoint string_bytes (s : string) : bytes :=
  match s with
  | EmptyString => []
  | String c s' => Z.of_N (N_of_ascii c) :: string_bytes s'
  end.

Fixpoint bytes_string (bs : bytes) : string :=
  match bs with
  | [] => EmptyString
  | b :: bs' => String (ascii_of_N (Z.to_N b)) (bytes_string bs')
  end.

(** [s.substr(n)] for [n] at most the size. *)
Fixpoint string_drop (n : nat) (s : string) : string :=
  match n, s with
  | S n', String _ s' => string_drop n' s'
  | _, _ => s
  end.

(** [s.find(pat) != npos]. *)
Fixpoint string_contains (pat s : string) : bool :=
  String.prefix pat s ||
  match s with EmptyString => false | String _ s' => string_contains pat s' end.

Definition is_digit (c : ascii) : bool :=
  (48 <=? N_of_ascii c)%N && (N_of_ascii c <=? 57)%N.
Definition digit_value (c : ascii) : Z := Z.of_N (N_of_ascii c) - 48.
Definition is_space (c : ascii) : bool :=
  (N_of_ascii c =? 32)%N || (9 <=? N_of_ascii c)%N && (N_of_ascii c <=? 13)%N.

Fixpoint skip_spaces (s : string) : string :=
  match s with
  | String c s' => if is_space c then skip_spaces s' else s
  | EmptyString => EmptyString
  end.

(** The longest prefix of digits: its value and the rest; [None] without a digit. *)
Fixpoint take_digits (acc : Z) (s : string) : Z * string :=
  match s with
  | String c s' => if is_digit c then take_digits (10 * acc + digit_value c) s' else (acc, s)
  | EmptyString => (acc, EmptyString)
  end.

Definition read_digits (s : string) : option (Z * string) :=
  match s with
  | String c _ => if is_digit c then Some (take_digits 0 s) else None
  | EmptyString => None
  end.

(** [stream >> value] into a [std::uint64_t], at the start of the text: leading
    white space and a sign are skipped, a minus sign negates modulo 2^64, and a
    value that does not fit sets the fail bit, as does the absence of a digit.  The
    result is the value and what is left of the text. *)
Definition stream_u64 (s : string) : option (Z * string) :=
  let s := skip_spaces s in
  let '(neg, s) := match s with
    | String "-" s' => (true, s') | String "+" s' => (false, s') | _ => (false, s) end in
  match read_digits s with
  | Some (v, rest) =>
      if (v <=? 2 ^ 64 - 1)%Z then Some (if neg then u64 (- v) else v, rest) else None
  | None => None
  end.

Lemma string_bytes_ok s : bytes_ok (string_bytes s).
Proof.
  induction s as [|c s IH]; constructor; [|done]. unfold is_u.
  pose proof (N_ascii_bounded c). lia.
Qed.

Lemma bytes_string_bytes s : bytes_string (string_bytes s) = s.
Proof. induction s as [|c s IH]; [done|]. simpl. by rewrite N2Z.id, ascii_N_embedding, IH. Qed.

Lemma string_bytes_app s t : string_bytes (s +:+ t) = string_bytes s ++ string_bytes t.
Proof. induction s as [|c s IH]; [done|]. simpl. by rewrite <-IH. Qed.

Lemma string_drop_app p s : string_drop (String.length p) (p +:+ s) = s.
Proof. induction p as [|c p IH]; [by destruct s|]. apply IH. Qed.

Lemma prefix_app p s : String.prefix p (p +:+ s) = true.
Proof.
  induction p as [|c p IH]; [by destruct s|]. simpl.
  rewrite <-IH. by destruct (ascii_dec c c).
Qed.

Lemma prefix_true p s : String.prefix p s = true → s = p +:+ string_drop (String.length p) s.
Proof.
  revert s; induction p as [|c p IH]; intros [|d s] H; try done.
  simpl in H. destruct (ascii_dec c d) as [->|]; [|done].
  change (String d s = String d (p +:+ string_drop (String.length p) s)). by rewrite <-IH.
Qed.

Lemma string_app_empty_r s : s +:+ "" = s.
Proof. induction s as [|c s IH]; [done|]. change (String c (s +:+ "") = String c s). by rewrite IH. Qed.
