(* ===== verification/DngRoundtrip.v ===== *)
(** * A DNG file that was written is read back

    A writer of TIFF files, after the TIFF 6.0 layout: the header, the image strip,
    one IFD whose entries hold data of up to four bytes themselves and the offset of
    longer data, and that data.  [dng_file] writes a CFA image with its camera,
    calibration, area and opcode tags.  [dng_roundtrip]: the parser of
    OpcodeListParser.cpp, modelled in DngParser, accepts every such file and returns
    exactly what was written. *)

From Stdlib Require Import ZArith Lia SpecFloat Ascii String.
From stdpp Require Import prelude strings list.
From S2P Require Import Prelude Core HalfFloat Float32 DngParser StateRes.

Local Open Scope Z_scope.

(** ** The writer *)

(** The contents of a tag. *)
Record Field : Type := mkField { fl_tag : Z; fl_type : Z; fl_data : bytes }.

Definition fl_count (f : Field) : Z := len (fl_data f) / type_size (fl_type f).

(** The number whose little-endian bytes these are. *)
Definition le_value (data : bytes) : Z := foldr (λ b acc, b + 256 * acc) 0 data.

(** The entries of the fields and the data that does not fit in them, which starts
    at [off]. *)
Fixpoint place (off : Z) (fields : list Field) : list Entry * bytes :=
  match fields with
  | [] => ([], [])
  | f :: fields =>
      if len (fl_data f) <=? 4 then
        let '(entries, data) := place off fields in
        (mkEntry (fl_tag f) (fl_type f) (fl_count f) (le_value (fl_data f)) :: entries, data)
      else
        let '(entries, data) := place (off + len (fl_data f)) fields in
        (mkEntry (fl_tag f) (fl_type f) (fl_count f) off :: entries, fl_data f ++ data)
  end.

(** Header, strip, IFD, the offset of the next IFD (none) and the data. *)
Definition tiff_file (strip : bytes) (fields : list Field) : bytes :=
  let ifd := 8 + len strip in
  let '(entries, data) := place (ifd + 2 + 12 * len fields + 4) fields in
  [73; 73; 42; 0] ++ le32_bytes ifd ++ strip ++ ifd_bytes entries ++ [0; 0; 0; 0] ++ data.

Fixpoint find_field (fields : list Field) (tag : Z) : option Field :=
  match fields with
  | [] => None
  | f :: fields => if fl_tag f =? tag then Some f else find_field fields tag
  end.

Record field_ok (f : Field) : Prop := {
  fo_tag : is_u 16 (fl_tag f);
  fo_type : is_u 16 (fl_type f);
  fo_size : 0 < type_size (fl_type f);
  fo_count : (type_size (fl_type f) | len (fl_data f));
  fo_data : bytes_ok (fl_data f)
}.

(** ** The data of an entry *)

Lemma le_value_byte data (i : nat) :
  bytes_ok data → (i < length data)%nat →
  Some (Z.land (Z.shiftr (le_value data) (8 * Z.of_nat i)) 255) = data !! i.
Proof.
  intros Hd. revert i. induction Hd as [|b data Hb Hd IH]; intros i Hi; [simpl in Hi; lia|].
  assert (E : le_value (b :: data) = b + le_value data * 256) by (cbn [le_value foldr]; fold (le_value data); lia).
  rewrite E. unfold is_u in Hb. change 255 with (Z.ones 8). rewrite Z.land_ones, Z.shiftr_div_pow2 by lia.
  destruct i as [|i].
  - change (8 * Z.of_nat 0) with 0. change (2 ^ 0) with 1. change (2 ^ 8) with 256. rewrite Z.div_1_r, Z.mod_add, Z.mod_small by lia. done.
  - change ((b :: data) !! S i) with (data !! i). rewrite <-(IH i) by (simpl in Hi; lia). f_equal. change 255 with (Z.ones 8). rewrite Z.land_ones, Z.shiftr_div_pow2 by lia. f_equal.
    replace (8 * Z.of_nat (S i)) with (8 + 8 * Z.of_nat i) by lia. rewrite Z.pow_add_r by lia. change (2 ^ 8) with 256.
    pose proof (Z.pow_pos_nonneg 2 (8 * Z.of_nat i) ltac:(lia) ltac:(lia)).
    rewrite <-Z.div_div by lia. rewrite Z.div_add, (Z.div_small b) by lia. done.
Qed.

Lemma inline_value_bound data : bytes_ok data → 0 ≤ le_value data < 256 ^ len data.
Proof.
  induction 1 as [|b data Hb Hd IH]; [done|]. cbn [le_value foldr]. fold (le_value data).
  rewrite len_cons, Z.pow_add_r by (pose proof (len_nonneg data); lia). unfold is_u in Hb. lia.
Qed.

(** What the parser sees of a field. *)
Record shows (bs : bytes) (f : Field) (e : Entry) : Prop := {
  sh_type : e_type e = fl_type f;
  sh_count : e_count e = fl_count f;
  sh_data : entry_data bs e = Ok (fl_data f)
}.

Lemma count_bytes f : field_ok f → fl_count f * type_size (fl_type f) = len (fl_data f).
Proof. intros [_ _ Hs [k Hk] _]. unfold fl_count. rewrite Hk, Z.div_mul by lia. lia. Qed.

Lemma entry_data_field bs f v :
  field_ok f → len (fl_data f) ≤ len bs → len bs < 2 ^ 32 →
  (len (fl_data f) ≤ 4 → v = le_value (fl_data f)) →
  (4 < len (fl_data f) → 0 ≤ v ∧ v + len (fl_data f) ≤ len bs ∧ subspan bs v (len (fl_data f)) = fl_data f) →
  entry_data bs (mkEntry (fl_tag f) (fl_type f) (fl_count f) v) = Ok (fl_data f).
Proof.
  intros Hf Hb Hl Hin Hout. pose proof (count_bytes f Hf) as Hc. pose proof (len_nonneg (fl_data f)) as H0.
  unfold entry_data. cbn [e_type e_count e_value_or_offset]. rewrite Hc, u64_small by lia.
  destruct (Z.eqb_spec (type_size (fl_type f)) 0) as [E|_]; [by destruct Hf; lia|]. cbn [orb].
  destruct (Z.eqb_spec (len (fl_data f)) 0) as [E|_].
  { destruct (fl_data f) as [|b data]; [done|]. rewrite len_cons in E. pose proof (len_nonneg data). lia. }
  rewrite (proj2 (Z.ltb_ge _ _)) by lia. cbn [orb].
  destruct (Z.leb_spec (len (fl_data f)) 4).
  - rewrite Hin by done. f_equal. apply list_eq. intros i. rewrite list_lookup_fmap.
    destruct (decide (i < length (fl_data f))%nat).
    + rewrite lookup_seq_lt by (unfold len; lia). cbn [fmap option_fmap option_map]. apply le_value_byte; [by destruct Hf|done].
    + rewrite lookup_seq_ge, (lookup_ge_None_2 (fl_data f)) by (unfold len; lia). done.
  - destruct Hout as (Hv & Hend & Hsub); [done|]. rewrite !(proj2 (Z.ltb_ge _ _)) by lia. cbn [orb].
    unfold copy_n. by rewrite (proj2 (Z.leb_le _ _)), Hsub by lia.
Qed.

Lemma place_cons off f fields :
  place off (f :: fields) =
    if len (fl_data f) <=? 4 then
      (mkEntry (fl_tag f) (fl_type f) (fl_count f) (le_value (fl_data f)) :: (place off fields).1, (place off fields).2)
    else (mkEntry (fl_tag f) (fl_type f) (fl_count f) off :: (place (off + len (fl_data f)) fields).1,
          fl_data f ++ (place (off + len (fl_data f)) fields).2).
Proof. cbn [place]. destruct (place off fields), (place (off + _) fields). by destruct (_ <=? _). Qed.

(** The entries of a file that holds the placed data: they are well formed, and each
    shows its field. *)
Lemma place_shows bs fields : ∀ pre off,
  bs = pre ++ (place off fields).2 → off = len pre → len bs < 2 ^ 32 → 4 ≤ len pre → Forall field_ok fields →
  Forall entry_ok (place off fields).1 ∧ Forall2 (λ f e, fl_tag f = e_tag e ∧ shows bs f e) fields (place off fields).1.
Proof.
  induction fields as [|f fields IH]; intros pre off Hbs Hoff Hl Hp Hok; [split; constructor|].
  apply Forall_cons in Hok as [Hf Hok]. rewrite place_cons in Hbs |- *. pose proof (count_bytes f Hf) as Hc.
  pose proof (len_nonneg (fl_data f)).
  assert (Hcount : len (fl_data f) ≤ len bs → is_u 32 (fl_count f)).
  { destruct Hf. unfold is_u, fl_count in *. intros. pose proof (Z.div_le_upper_bound (len (fl_data f)) (type_size (fl_type f)) (len (fl_data f))).
    pose proof (Z.div_pos (len (fl_data f)) (type_size (fl_type f))). nia. }
  destruct (Z.leb_spec (len (fl_data f)) 4) as [Hs|Hs]; cbn [fst snd] in *.
  - assert (len (fl_data f) ≤ len bs) by (rewrite Hbs, len_app; pose proof (len_nonneg (place off fields).2); lia).
    destruct (IH pre off Hbs Hoff Hl Hp Hok) as [IH1 IH2]. split; (constructor; [|done]).
    + destruct Hf. split; cbn; auto. pose proof (inline_value_bound _ fo_data0) as Hv.
      assert (256 ^ len (fl_data f) ≤ 256 ^ 4) by (apply Z.pow_le_mono_r; lia). unfold is_u. lia.
    + split; [done|]. split; [done..|]. apply entry_data_field; auto; lia.
  - rewrite app_assoc in Hbs.
    destruct (IH (pre ++ fl_data f) (off + len (fl_data f)) Hbs) as [IH1 IH2]; [by rewrite len_app, Hoff|done|rewrite len_app; lia|done|].
    rewrite <-app_assoc in Hbs.
    assert (len bs = len pre + len (fl_data f) + len (place (off + len (fl_data f)) fields).2) as Hsize by (rewrite Hbs, !len_app; lia).
    pose proof (len_nonneg (place (off + len (fl_data f)) fields).2).
    split; (constructor; [|done]).
    + destruct Hf. split; cbn; auto; [apply Hcount; lia|]. unfold is_u. lia.
    + split; [done|]. split; [done..|]. apply entry_data_field; auto; [lia..|]. intros _. split_and!; [lia..|].
      rewrite Hbs, Hoff. apply subspan_app.
Qed.

(** ** The typed views *)

(** Every tag is found in the entries with the data of its field. *)
Definition reads (bs : bytes) (entries : list Entry) (fields : list Field) : Prop := ∀ tag,
  match find_field fields tag with
  | Some f => ∃ e, find_entry entries tag = Some e ∧ shows bs f e
  | None => find_entry entries tag = None
  end.

Lemma shows_reads bs entries fields :
  Forall2 (λ f e, fl_tag f = e_tag e ∧ shows bs f e) fields entries → reads bs entries fields.
Proof.
  intros H tag. induction H as [|f e fields entries [Ht Hs] _ IH]; [done|]. cbn [find_field find_entry]. rewrite Ht.
  destruct (e_tag e =? tag); [by exists e|exact IH].
Qed.

Lemma len_chunks {A} (enc : A → bytes) w vs : (∀ x, len (enc x) = w) → len (mjoin (enc <$> vs)) = w * len vs.
Proof.
  intros Hw. induction vs as [|x l IH]; [symmetry; apply Z.mul_0_r|].
  change (mjoin (enc <$> x :: l)) with (enc x ++ mjoin (enc <$> l)). rewrite len_app, len_cons, Hw, IH. lia.
Qed.

Lemma chunk_at {A} (enc : A → bytes) w vs k v :
  (∀ x, len (enc x) = w) → vs !! k = Some v →
  ∃ pre suf, mjoin (enc <$> vs) = pre ++ enc v ++ suf ∧ len pre = Z.of_nat k * w.
Proof.
  intros Hw Hv. exists (mjoin (enc <$> take k vs)), (mjoin (enc <$> drop (S k) vs)). split.
  - rewrite <-(take_drop_middle vs k v Hv) at 1. rewrite fmap_app, join_app. done.
  - rewrite (len_chunks enc w) by done. rewrite Z.mul_comm.
    unfold len. rewrite length_take. apply lookup_lt_Some in Hv. f_equal. lia.
Qed.

Lemma read_array_exact {A} (g : Z → res A) vs i :
  (∀ k v, vs !! k = Some v → g (i + Z.of_nat k) = Ok v) → read_array g (length vs) i = Ok vs.
Proof.
  revert i. induction vs as [|v vs IH]; intros i Hg; [done|]. cbn [length read_array].
  assert (g i = Ok v) as -> by (rewrite <-(Hg 0%nat v eq_refl); f_equal; lia). rewrite Ok_bind, IH; [done|].
  intros k w Hk. rewrite <-(Hg (S k) w Hk). f_equal. lia.
Qed.

(** The data of the numeric fields. *)
Definition shorts_of (vs : list Z) : bytes := mjoin (le16_bytes <$> vs).
Definition longs_of (vs : list Z) : bytes := mjoin (le32_bytes <$> vs).
Definition rational_bytes (q : Z * Z) : bytes := le32_bytes (q.1 `mod` 2 ^ 32) ++ le32_bytes (q.2 `mod` 2 ^ 32).
Definition rationals_of (qs : list (Z * Z)) : bytes := mjoin (rational_bytes <$> qs).

Lemma len_shorts vs : len (shorts_of vs) = 2 * len vs.
Proof. by apply len_chunks. Qed.
Lemma len_longs vs : len (longs_of vs) = 4 * len vs.
Proof. by apply len_chunks. Qed.
Lemma len_rationals qs : len (rationals_of qs) = 8 * len qs.
Proof. by apply len_chunks. Qed.

(** The quotient of a rational, in binary32. *)
Definition quotient (q : Z * Z) : float32 := SFdiv 24 128 (float_of_int q.1) (float_of_int q.2).

Definition rational_ok (lo hi : Z) (q : Z * Z) : Prop := lo ≤ q.1 < hi ∧ lo ≤ q.2 < hi ∧ q.2 ≠ 0.

Lemma int_not_zero z : - 2 ^ 32 ≤ z ≤ 2 ^ 32 → z ≠ 0 → SFeqb (float_of_int z) f_zero = false.
Proof.
  intros Hz H0. destruct (of_int_above 32 z) as (j & _ & Ha); [done..|]. by destruct (float_of_int z) as [[]|[]| |[]].
Qed.

Lemma scaled_zero {A} k (l : list A) : 0 < k → k * len l = 0 → l = [].
Proof. destruct l as [|x l]; [done|]. rewrite len_cons. pose proof (len_nonneg l). nia. Qed.

Section Views.
Context (bs : bytes) (Hlen : len bs < 2 ^ 32).

Lemma first_long tag v e : shows bs (mkField tag kTypeLong (le32_bytes v)) e → is_u 32 v → first_u32 bs e = Ok v.
Proof.
  intros [Ht _ Hd] Hv. cbn [fl_type fl_data] in *. unfold first_u32. rewrite Hd, Ok_bind, Ht. cbn -[read_u32 le32_bytes].
  by apply (read_u32_at _ [] []); [|rewrite app_nil_r|].
Qed.

Lemma first_short tag v e : shows bs (mkField tag kTypeShort (le16_bytes v)) e → is_u 16 v → first_u32 bs e = Ok v.
Proof.
  intros [Ht _ Hd] Hv. cbn [fl_type fl_data] in *. unfold first_u32. rewrite Hd, Ok_bind, Ht. cbn -[read_u16 le16_bytes].
  by apply (read_u16_at _ [] []); [|rewrite app_nil_r|].
Qed.

Lemma values_short tag vs e :
  shows bs (mkField tag kTypeShort (shorts_of vs)) e → Forall (is_u 16) vs → len vs < 2 ^ 32 → u32_values bs e = Ok vs.
Proof.
  intros [Ht Hc Hd] Hv Hn. cbn [fl_type fl_data] in *. unfold fl_count in Hc. cbn [fl_type fl_data] in Hc.
  pose proof (len_nonneg vs). rewrite len_shorts in Hc. change (type_size kTypeShort) with 2 in Hc. rewrite Z.mul_comm, Z.div_mul in Hc by lia.
  unfold u32_values. rewrite Hd, Ok_bind, Ht, Hc, len_shorts. change (kTypeShort =? kTypeByte) with false. change (kTypeShort =? kTypeShort) with true.
  destruct (Z.eqb_spec (2 * len vs) 0) as [E0|_]; [by apply scaled_zero in E0 as ->|]. cbn [andb].
  rewrite u64_small, (proj2 (Z.leb_le _ _)) by lia. replace (Z.to_nat (len vs)) with (length vs) by (unfold len; lia).
  apply read_array_exact. intros k v Hk. destruct (chunk_at le16_bytes 2 vs k v) as (pre & suf & E & Hp); [done..|].
  eapply read_u16_at; [by eapply Forall_lookup_1|exact E|lia].
Qed.

Lemma values_long tag vs e :
  shows bs (mkField tag kTypeLong (longs_of vs)) e → Forall (is_u 32) vs → len vs < 2 ^ 32 → u32_values bs e = Ok vs.
Proof.
  intros [Ht Hc Hd] Hv Hn. cbn [fl_type fl_data] in *. unfold fl_count in Hc. cbn [fl_type fl_data] in Hc.
  pose proof (len_nonneg vs). rewrite len_longs in Hc. change (type_size kTypeLong) with 4 in Hc. rewrite Z.mul_comm, Z.div_mul in Hc by lia.
  unfold u32_values. rewrite Hd, Ok_bind, Ht, Hc, len_longs.
  change (kTypeLong =? kTypeByte) with false. change (kTypeLong =? kTypeShort) with false. change (kTypeLong =? kTypeLong) with true.
  destruct (Z.eqb_spec (4 * len vs) 0) as [E0|_]; [by apply scaled_zero in E0 as ->|]. cbn [andb].
  rewrite u64_small, (proj2 (Z.leb_le _ _)) by lia. replace (Z.to_nat (len vs)) with (length vs) by (unfold len; lia).
  apply read_array_exact. intros k v Hk. destruct (chunk_at le32_bytes 4 vs k v) as (pre & suf & E & Hp); [done..|].
  eapply read_u32_at; [by eapply Forall_lookup_1|exact E|lia].
Qed.

Lemma shorts_short tag vs e :
  shows bs (mkField tag kTypeShort (shorts_of vs)) e → Forall (is_u 16) vs → len vs < 2 ^ 32 → shorts bs e = Ok vs.
Proof.
  intros He Hv Hn. unfold shorts. rewrite (values_short tag vs e) by done. destruct He as [-> _ _]. rewrite Ok_bind. cbn. f_equal.
  induction Hv as [|v vs Hv _ IH]; [done|]. cbn [map]. rewrite len_cons in Hn. rewrite IH by (pose proof (len_nonneg vs); lia).
  f_equal. by apply wrap_small.
Qed.

Lemma numeric_short tag vs e :
  shows bs (mkField tag kTypeShort (shorts_of vs)) e → Forall (is_u 16) vs → len vs < 2 ^ 32 →
  numeric_values bs e = Ok (map float_of_int vs).
Proof.
  intros He Hv Hn. unfold numeric_values. rewrite (values_short tag vs e) by done. destruct He as [-> _ ->]. rewrite !Ok_bind.
  cbn [fl_type fl_data]. rewrite len_shorts. destruct (Z.eqb_spec (2 * len vs) 0) as [E0|_]; [|done].
  by apply scaled_zero in E0 as ->.
Qed.

(** The rationals of a field are read back as quotients. *)
Lemma read_rational_at data type pre suf i q :
  (type = kTypeRational ∧ rational_ok 0 (2 ^ 32) q) ∨ (type = kTypeSRational ∧ rational_ok (- 2 ^ 31) (2 ^ 31) q) →
  data = pre ++ rational_bytes q ++ suf → len pre = i * 8 → len data < 2 ^ 32 → 0 ≤ i →
  read_rational data type i = Ok (quotient q).
Proof.
  intros Hq E Hp Hl Hi. assert (len data = len pre + 8 + len suf) as Hs by (rewrite E, !len_app; change (len (rational_bytes q)) with 8; lia).
  pose proof (len_nonneg suf). unfold read_rational. rewrite (u32_small (i * 8)), u32_small by lia.
  assert (H1 : read_u32 data (i * 8) = Ok (q.1 `mod` 2 ^ 32)).
  { eapply (read_u32_at _ pre); [apply Z.mod_pos_bound; lia| |lia]. rewrite E. unfold rational_bytes. by rewrite <-!app_assoc. }
  assert (H2 : read_u32 data (i * 8 + 4) = Ok (q.2 `mod` 2 ^ 32)).
  { eapply (read_u32_at _ (pre ++ le32_bytes (q.1 `mod` 2 ^ 32)) suf); [apply Z.mod_pos_bound; lia| |].
    - rewrite E. unfold rational_bytes. by rewrite <-!app_assoc.
    - rewrite len_app. change (len (le32_bytes (q.1 `mod` 2 ^ 32))) with 4. lia. }
  assert (Hz : SFeqb (float_of_int q.2) f_zero = false) by (apply int_not_zero; unfold rational_ok in Hq; lia).
  destruct Hq as [[-> (Hn & Hd & _)]|[-> (Hn & Hd & _)]].
  - change (kTypeRational =? kTypeRational) with true. cbv iota. rewrite H1, H2, Ok_bind, !Z.mod_small by lia. by rewrite Hz, Ok_bind.
  - change (kTypeSRational =? kTypeRational) with false. cbv iota. unfold read_i32. rewrite H1, H2, !Ok_bind.
    assert (Hi32 : ∀ z, - 2 ^ 31 ≤ z < 2 ^ 31 → i32 (z `mod` 2 ^ 32) = z).
    { intros z Hz'. unfold i32. rewrite Zplus_mod_idemp_l, Z.mod_small by lia. lia. }
    rewrite !Hi32 by done. by rewrite Hz.
Qed.

Lemma numeric_rational tag type qs e :
  shows bs (mkField tag type (rationals_of qs)) e →
  (type = kTypeRational ∧ Forall (rational_ok 0 (2 ^ 32)) qs) ∨ (type = kTypeSRational ∧ Forall (rational_ok (- 2 ^ 31) (2 ^ 31)) qs) →
  8 * len qs < 2 ^ 32 → numeric_values bs e = Ok (map quotient qs).
Proof.
  intros [Ht Hc Hd] Hq Hn. cbn [fl_type fl_data] in *. unfold fl_count in Hc. cbn [fl_type fl_data] in Hc. pose proof (len_nonneg qs).
  rewrite len_rationals in Hc. assert (type_size type = 8) as Hsz by (destruct Hq as [[-> _]|[-> _]]; done).
  rewrite Hsz, Z.mul_comm, Z.div_mul in Hc by lia. unfold numeric_values. rewrite Hd, Ok_bind, Ht, Hc, len_rationals.
  destruct (Z.eqb_spec (8 * len qs) 0) as [E0|_]; [by apply scaled_zero in E0 as ->|].
  assert ((type =? kTypeByte) || (type =? kTypeShort) || (type =? kTypeLong) = false) as -> by (destruct Hq as [[-> _]|[-> _]]; done).
  assert ((type =? kTypeRational) || (type =? kTypeSRational) = true) as -> by (destruct Hq as [[-> _]|[-> _]]; done).
  rewrite u64_small, (proj2 (Z.ltb_ge _ _)) by lia. cbn [negb orb].
  replace (Z.to_nat (len qs)) with (length (map quotient qs)) by (rewrite length_map; unfold len; lia).
  apply read_array_exact. intros k v Hk. apply list_lookup_fmap_Some in Hk as (q & -> & Hk).
  destruct (chunk_at rational_bytes 8 qs k q) as (pre & suf & E & Hp); [done..|].
  eapply read_rational_at; [|exact E|lia|rewrite len_rationals; lia|lia].
  destruct Hq as [[? Hq]|[? Hq]]; [left|right]; (split; [done|by eapply Forall_lookup_1]).
Qed.

(** A text without a NUL. *)
Definition text_ok (s : string) : Prop := Forall (λ b, b ≠ 0) (string_bytes s).

Lemma ascii_text tag s e : shows bs (mkField tag kTypeAscii (string_bytes s ++ [0])) e → text_ok s → ascii bs e = Ok s.
Proof.
  intros [Ht _ Hd] Hs. cbn [fl_type fl_data] in *. unfold ascii. rewrite Hd, Ok_bind, Ht. change (kTypeAscii =? kTypeAscii) with true.
  rewrite len_app. change (len [0]) with 1. destruct (Z.eqb_spec (len (string_bytes s) + 1) 0) as [E|_]; [pose proof (len_nonneg (string_bytes s)); lia|].
  cbn [negb orb]. f_equal. clear - Hs. unfold text_ok in Hs. induction s as [|c s IH]; [done|]. cbn in *. apply Forall_cons in Hs as [Hc Hs].
  destruct (Z.eqb_spec (Z.of_N (N_of_ascii c)) 0); [done|]. by rewrite N2Z.id, ascii_N_embedding, IH.
Qed.

End Views.

(** ** A CFA image *)

Record DngImage : Type := mkImage {
  im_width : Z; im_height : Z; im_bits : Z; im_compression : Z; im_orientation : Z;
  im_iso : Z; im_white : Z; im_illuminant1 : Z; im_illuminant2 : Z;
  im_make : string; im_model : string;
  im_dim : Z; im_pattern : bytes; im_strip : bytes;
  im_xmp : bytes; im_icc : bytes; im_opcode_list_1 : bytes; im_opcode_list_2 : bytes; im_opcode_list_3 : bytes;
  im_linearization : list Z; im_black : list Z; im_matrix1 : list (Z * Z); im_neutral : list (Z * Z);
  im_area : Rect2u
}.

Record image_ok (d : DngImage) : Prop := {
  io_width : 1 ≤ im_width d < 2 ^ 32;
  io_height : 1 ≤ im_height d < 2 ^ 32;
  io_bits : 1 ≤ im_bits d ≤ 16;
  io_compression : is_u 16 (im_compression d);
  io_orientation : is_u 8 (im_orientation d);
  io_iso : is_u 16 (im_iso d);
  io_white : is_u 32 (im_white d);
  io_illuminant1 : is_u 16 (im_illuminant1 d);
  io_illuminant2 : is_u 16 (im_illuminant2 d);
  io_make : text_ok (im_make d);
  io_model : text_ok (im_model d);
  io_dim : im_dim d = 2 ∨ im_dim d = 4;
  io_pattern : len (im_pattern d) = im_dim d * im_dim d;
  io_strip : 1 ≤ len (im_strip d);
  io_bytes : Forall bytes_ok [im_pattern d; im_strip d; im_xmp d; im_icc d; im_opcode_list_1 d; im_opcode_list_2 d; im_opcode_list_3 d];
  io_linearization : Forall (is_u 16) (im_linearization d);
  io_black : Forall (is_u 16) (im_black d) ∧ len (im_black d) = 4;
  io_matrix1 : Forall (rational_ok (- 2 ^ 31) (2 ^ 31)) (im_matrix1 d) ∧ len (im_matrix1 d) = 9;
  io_neutral : Forall (rational_ok 0 (2 ^ 32)) (im_neutral d) ∧ len (im_neutral d) = 3;
  io_area : 0 ≤ rect_x (im_area d) ∧ 0 ≤ rect_width (im_area d) ∧ rect_x (im_area d) + rect_width (im_area d) < 2 ^ 32 ∧
    0 ≤ rect_y (im_area d) ∧ 0 ≤ rect_height (im_area d) ∧ rect_y (im_area d) + rect_height (im_area d) < 2 ^ 32
}.

(** The tags, in ascending order; an area is its top, left, bottom and right. *)
Definition image_fields (d : DngImage) : list Field :=
  [mkField kTagImageWidth kTypeLong (le32_bytes (im_width d));
   mkField kTagImageLength kTypeLong (le32_bytes (im_height d));
   mkField kTagBitsPerSample kTypeShort (le16_bytes (im_bits d));
   mkField kTagCompression kTypeShort (le16_bytes (im_compression d));
   mkField kTagPhotometricInterpretation kTypeShort (le16_bytes 32803);
   mkField kTagMake kTypeAscii (string_bytes (im_make d) ++ [0]);
   mkField kTagModel kTypeAscii (string_bytes (im_model d) ++ [0]);
   mkField kTagStripOffsets kTypeLong (le32_bytes 8);
   mkField kTagOrientation kTypeShort (le16_bytes (im_orientation d));
   mkField kTagSamplesPerPixel kTypeShort (le16_bytes 1);
   mkField kTagStripByteCounts kTypeLong (le32_bytes (len (im_strip d)));
   mkField kTagXmp kTypeByte (im_xmp d);
   mkField kTagCfaRepeatPatternDim kTypeShort (shorts_of [im_dim d; im_dim d]);
   mkField kTagCfaPattern kTypeByte (im_pattern d);
   mkField kTagIccProfile kTypeUndefined (im_icc d);
   mkField kTagIsoSpeedRatings kTypeShort (le16_bytes (im_iso d));
   mkField kTagLinearizationTable kTypeShort (shorts_of (im_linearization d));
   mkField kTagBlackLevel kTypeShort (shorts_of (im_black d));
   mkField kTagWhiteLevel kTypeLong (le32_bytes (im_white d));
   mkField kTagColorMatrix1 kTypeSRational (rationals_of (im_matrix1 d));
   mkField kTagAsShotNeutral kTypeRational (rationals_of (im_neutral d));
   mkField kTagCalibrationIlluminant1 kTypeShort (le16_bytes (im_illuminant1 d));
   mkField kTagCalibrationIlluminant2 kTypeShort (le16_bytes (im_illuminant2 d));
   mkField kTagActiveArea kTypeLong (longs_of [rect_y (im_area d); rect_x (im_area d);
     rect_y (im_area d) + rect_height (im_area d); rect_x (im_area d) + rect_width (im_area d)]);
   mkField kTagOpcodeList1 kTypeUndefined (im_opcode_list_1 d);
   mkField kTagOpcodeList2 kTypeUndefined (im_opcode_list_2 d);
   mkField kTagOpcodeList3 kTypeUndefined (im_opcode_list_3 d)].

Definition dng_file (d : DngImage) : bytes := tiff_file (im_strip d) (image_fields d).

(** The metadata of the image; tags that are not written have their defaults. *)
Definition image_metadata (d : DngImage) : ParsedDngMetadata :=
  mkParsed (im_width d) (im_height d) (im_bits d) 8 (len (im_strip d))
    (mkCalibration (Some (mkCFA [im_dim d; im_dim d] (im_pattern d ++ replicate (16 - length (im_pattern d)) 0)))
      (map float_of_int (im_black d)) (im_white d) (Some (im_linearization d)) (Some (map quotient (im_matrix1 d)))
      None None None None None (im_illuminant1 d) (im_illuminant2 d) [] (replicate 5 f_zero) (replicate 5 f_zero))
    (mkCapture 0 0 (im_iso d) f_zero f_zero f_zero (map quotient (im_neutral d)) (im_orientation d) (im_make d) (im_model d) 0 1)
    (Some (im_area d)) (im_make d) (im_model d) (im_linearization d) [] (im_xmp d) (im_icc d)
    (im_opcode_list_1 d) (im_opcode_list_2 d) (im_opcode_list_3 d).

Lemma chunks_ok {A} (enc : A → bytes) vs : (∀ x, x ∈ vs → bytes_ok (enc x)) → bytes_ok (mjoin (enc <$> vs)).
Proof.
  induction vs as [|v vs IH]; intros H; [constructor|]. change (mjoin (enc <$> v :: vs)) with (enc v ++ mjoin (enc <$> vs)).
  apply Forall_app. split; [apply H; left|]. apply IH. intros x Hx. apply H. by right.
Qed.

Lemma le16_ok v : is_u 16 v → bytes_ok (le16_bytes v).
Proof. unfold is_u. intros. repeat constructor; Z.to_euclidean_division_equations; lia. Qed.

Lemma le32_ok v : is_u 32 v → bytes_ok (le32_bytes v).
Proof. unfold is_u. intros. apply Forall_app. split; apply le16_ok; unfold is_u; Z.to_euclidean_division_equations; lia. Qed.

Lemma shorts_ok vs : Forall (is_u 16) vs → bytes_ok (shorts_of vs).
Proof. intros H. apply chunks_ok. intros x Hx. apply le16_ok. by eapply Forall_forall in Hx; [|exact H]. Qed.

Lemma longs_ok vs : Forall (is_u 32) vs → bytes_ok (longs_of vs).
Proof. intros H. apply chunks_ok. intros x Hx. apply le32_ok. by eapply Forall_forall in Hx; [|exact H]. Qed.

Lemma rationals_ok qs : bytes_ok (rationals_of qs).
Proof. apply chunks_ok. intros q _. apply Forall_app. split; apply le32_ok, Z.mod_pos_bound; lia. Qed.

Lemma text_bytes_ok s : bytes_ok (string_bytes s ++ [0]).
Proof.
  apply Forall_app. split; [|repeat constructor; done]. induction s as [|c s IH]; constructor; [|done].
  unfold is_u. pose proof (N_ascii_bounded c). lia.
Qed.

#[local] Hint Resolve le16_ok le32_ok shorts_ok longs_ok rationals_ok text_bytes_ok : dng.

Lemma image_fields_ok d : image_ok d → len (im_strip d) < 2 ^ 32 → Forall field_ok (image_fields d).
Proof.
  intros [] Hstrip. destruct io_black0, io_matrix2, io_neutral0.
  assert (∀ tag type data, is_u 16 tag → is_u 16 type → 0 < type_size type → (type_size type | len data) → bytes_ok data →
    field_ok (mkField tag type data)) as Hf by by split.
  repeat match goal with H : Forall bytes_ok (_ :: _) |- _ => apply Forall_cons in H as [? H] end.
  unfold is_u in *.
  repeat (apply Forall_cons; split; [apply Hf; [done|done|done| |]|]); [..|by constructor];
    try (by apply Z.divide_1_l); try (by exists 1);
    try (rewrite ?len_shorts, ?len_longs, ?len_rationals; apply Z.divide_factor_l);
    auto with dng; try (by apply le16_ok; unfold is_u; lia); try (by apply le32_ok; unfold is_u; lia).
  - apply shorts_ok. repeat constructor; unfold is_u; lia.
  - apply longs_ok. repeat constructor; unfold is_u; lia.
Qed.

(** The table of a written file. *)
Lemma len_place off fields : len (place off fields).1 = len fields.
Proof.
  revert off. induction fields as [|f fields IH]; intros off; [done|]. rewrite place_cons.
  destruct (_ <=? 4); cbn [fst]; by rewrite !len_cons, IH.
Qed.

Lemma tiff_reads strip fields :
  Forall field_ok fields → len fields < 2 ^ 16 → len (tiff_file strip fields) < 2 ^ 32 →
  ∃ entries, bad_header (tiff_file strip fields) = Ok false ∧ read_u32 (tiff_file strip fields) 4 = Ok (8 + len strip) ∧
    read_entries (tiff_file strip fields) (8 + len strip) = Ok (Some entries) ∧ reads (tiff_file strip fields) entries fields.
Proof.
  intros Hf Hn. pose proof (len_place (8 + len strip + 2 + 12 * len fields + 4) fields) as He.
  pose proof (place_shows (tiff_file strip fields) fields ([73; 73; 42; 0] ++ le32_bytes (8 + len strip) ++ strip ++
    ifd_bytes (place (8 + len strip + 2 + 12 * len fields + 4) fields).1 ++ [0; 0; 0; 0]) (8 + len strip + 2 + 12 * len fields + 4)) as Hp.
  unfold tiff_file in *. destruct (place _ fields) as [entries data]. cbn [fst snd] in *. intros Hl.
  assert (Hi : len (ifd_bytes entries) = 2 + 12 * len fields)
    by (unfold ifd_bytes; rewrite len_app, len_mjoin_entries, He; reflexivity).
  pose proof (len_nonneg strip). pose proof (len_nonneg data). pose proof (len_nonneg fields).
  pose proof Hl as Hs. rewrite !len_app, Hi in Hs. change (len [73; 73; 42; 0]) with 4 in Hs. change (len (le32_bytes _)) with 4 in Hs.
  change (len [0; 0; 0; 0]) with 4 in Hs.
  destruct Hp as [Ho Hsh]; [by rewrite <-!app_assoc| |done| |done|].
  { rewrite !len_app, Hi. change (len [73; 73; 42; 0]) with 4. change (len (le32_bytes _)) with 4. change (len [0; 0; 0; 0]) with 4. lia. }
  { rewrite !len_app, Hi. change (len [73; 73; 42; 0]) with 4. change (len (le32_bytes _)) with 4. change (len [0; 0; 0; 0]) with 4. lia. }
  exists entries. split_and!.
  - unfold bad_header. rewrite !len_app, Hi. change (len [73; 73; 42; 0]) with 4. change (len (le32_bytes _)) with 4.
    rewrite (proj2 (Z.ltb_ge _ _)) by (change (len [0; 0; 0; 0]) with 4; lia).
    erewrite (byte_at_middle _ [] [73; 73; 42; 0] _ 0 0 73), Ok_bind by done.
    erewrite (byte_at_middle _ [] [73; 73; 42; 0] _ 1 1 73), Ok_bind by done.
    by erewrite (read_u16_at _ [73; 73] _ 2 42) by done.
  - eapply (read_u32_at _ [73; 73; 42; 0]); [unfold is_u; lia|done|done].
  - rewrite !(app_assoc [73; 73; 42; 0]), (app_assoc _ strip).
    replace (8 + len strip) with (len (([73; 73; 42; 0] ++ le32_bytes (8 + len strip)) ++ strip)) at 2 by (rewrite !len_app; done).
    apply read_entries_roundtrip; [done|by rewrite He|]. by rewrite <-!app_assoc.
  - by apply shows_reads.
Qed.

Section Parse.

Context (d : DngImage) (Hd : image_ok d) (bs : bytes) (entries : list Entry).
Context (Hlen : len bs < 2 ^ 32) (Hstrip : len (im_strip d) < 2 ^ 32) (Hlin : len (im_linearization d) < 2 ^ 32).
Context (R : reads bs entries (image_fields d)).

Lemma with_found {A} tag f (x : A) (g : Entry → res A) r :
  find_field (image_fields d) tag = Some f → (∀ e, shows bs f e → g e = r) → with_entry entries tag x g = r.
Proof using R. intros Hf Hg. pose proof (R tag) as Ht. rewrite Hf in Ht. destruct Ht as (e & He & Hs). unfold with_entry. rewrite He. by apply Hg. Qed.

Lemma with_absent {A} tag (x : A) (g : Entry → res A) :
  find_field (image_fields d) tag = None → with_entry entries tag x g = Ok x.
Proof using R. intros Hf. pose proof (R tag) as Ht. rewrite Hf in Ht. unfold with_entry. by rewrite Ht. Qed.

Lemma long_tag tag x v : find_field (image_fields d) tag = Some (mkField tag kTypeLong (le32_bytes v)) → is_u 32 v → first_or bs entries tag x = Ok v.
Proof using R. intros Hf Hv. apply (with_found tag _ _ _ _ Hf). intros e He. by eapply first_long. Qed.

Lemma short_tag tag x v : find_field (image_fields d) tag = Some (mkField tag kTypeShort (le16_bytes v)) → is_u 16 v → first_or bs entries tag x = Ok v.
Proof using R. intros Hf Hv. apply (with_found tag _ _ _ _ Hf). intros e He. by eapply first_short. Qed.

Lemma blob_tag tag type data :
  find_field (image_fields d) tag = Some (mkField tag type data) → with_entry entries tag [] (blob bs) = Ok data.
Proof using R. intros Hf. apply (with_found tag _ _ _ _ Hf). intros e He. by destruct He. Qed.

Definition fields_metadata : ParsedDngMetadata :=
  mkParsed (im_width d) (im_height d) (im_bits d) 8 (len (im_strip d))
    (mkCalibration None (replicate 4 f_zero) (im_white d) None None None None None None None
      (im_illuminant1 d) (im_illuminant2 d) [] (replicate 5 f_zero) (replicate 5 f_zero))
    (mkCapture 0 0 (im_iso d) f_zero f_zero f_zero (replicate 3 f32_one) (im_orientation d) (im_make d) (im_model d) 0 1)
    None (im_make d) (im_model d) [] [] [] [] [] [] [].

Lemma capture_read c :
  apply_capture_entries bs entries c = Ok (mkCapture (sensor_timestamp_ns c) (exposure_time_ns c) (im_iso d)
    (lens_focal_length_mm c) (lens_aperture c) (lens_focus_distance_d c) (as_shot_neutral c) (orientation c)
    (camera_id c) (physical_camera_id c) (burst_index c) (burst_size c)).
Proof using R Hd.
  destruct Hd. unfold apply_capture_entries, is_u in *. rewrite (with_absent kTagExposureTime), Ok_bind by done.
  rewrite (with_found kTagIsoSpeedRatings (mkField kTagIsoSpeedRatings kTypeShort (le16_bytes (im_iso d))) _ _ (Ok (im_iso d)));
    [|done|]; cycle 1.
  { intros e He. rewrite (first_short bs _ (im_iso d) e He) by done. rewrite Ok_bind. f_equal. unfold i32. rewrite Z.mod_small by lia. lia. }
  rewrite Ok_bind, (with_absent kTagFNumber), Ok_bind, (with_absent kTagFocalLength), Ok_bind by done. done.
Qed.

Lemma text_tag tag s : find_field (image_fields d) tag = Some (mkField tag kTypeAscii (string_bytes s ++ [0])) → text_ok s →
  with_entry entries tag "" (ascii bs) = Ok s.
Proof using R. intros Hf Hs. apply (with_found tag _ _ _ _ Hf). intros e He. by eapply ascii_text. Qed.

Lemma fields_read : read_fields bs entries = Ok fields_metadata.
Proof using R Hd Hstrip.
  pose proof (len_nonneg (im_strip d)). destruct Hd. unfold read_fields, is_u in *.
  rewrite (long_tag kTagImageWidth _ (im_width d)), Ok_bind by (done || unfold is_u; lia).
  rewrite (long_tag kTagImageLength _ (im_height d)), Ok_bind by (done || unfold is_u; lia).
  rewrite (short_tag kTagBitsPerSample _ (im_bits d)), Ok_bind by (done || unfold is_u; lia).
  rewrite (long_tag kTagStripOffsets _ 8), Ok_bind by done.
  rewrite (long_tag kTagStripByteCounts _ (len (im_strip d))), Ok_bind by (done || unfold is_u; lia).
  rewrite (short_tag kTagOrientation _ (im_orientation d)), Ok_bind by (done || unfold is_u; lia).
  rewrite (long_tag kTagWhiteLevel _ (im_white d)), Ok_bind by done.
  rewrite (short_tag kTagCalibrationIlluminant1 _ (im_illuminant1 d)), Ok_bind by done.
  rewrite (short_tag kTagCalibrationIlluminant2 _ (im_illuminant2 d)), Ok_bind by done.
  rewrite capture_read, Ok_bind, (text_tag kTagMake (im_make d)), Ok_bind, (text_tag kTagModel (im_model d)), Ok_bind by done.
  unfold u8, u16. rewrite !wrap_small by (unfold is_u; lia). done.
Qed.

Lemma cfa_read : read_cfa bs entries =
  Ok (inr (mkCFA [im_dim d; im_dim d] (im_pattern d ++ replicate (16 - length (im_pattern d)) 0))).
Proof using R Hd.
  destruct Hd. unfold read_cfa. pose proof (R kTagCfaRepeatPatternDim) as (e & -> & He).
  rewrite (shorts_short bs _ [im_dim d; im_dim d] e He) by (repeat constructor; unfold is_u; lia || done).
  rewrite Ok_bind, Z.eqb_refl.
  assert ((im_dim d =? 2) || (im_dim d =? 4) = true) as -> by (destruct io_dim0 as [-> | ->]; done). cbn [andb].
  pose proof (R kTagCfaPattern) as (e' & -> & He'). destruct He' as [_ _ ->]. rewrite Ok_bind. cbn [fl_data]. cbv zeta.
  assert (u8 (im_dim d) = im_dim d) as -> by (destruct io_dim0 as [-> | ->]; done). rewrite io_pattern0, Z.eqb_refl.
  assert ((im_dim d * im_dim d <=? 16) = true) as -> by (destruct io_dim0 as [-> | ->]; done). cbn [andb]. do 3 f_equal.
  unfold copy_prefix. cbn [pattern default_cfa]. rewrite length_replicate, drop_replicate, take_ge; [done|].
  unfold len in io_pattern0. lia.
Qed.

Lemma prefix_all {A} (array values : list A) : length values = length array → copy_prefix array values = values.
Proof using. intros H. unfold copy_prefix. by rewrite take_ge, drop_ge, app_nil_r by lia. Qed.

Lemma area_read : with_entry entries kTagActiveArea None (read_active_area bs) = Ok (Some (im_area d)).
Proof using R Hd.
  destruct Hd. destruct (im_area d) as [x y w h] eqn:Ea. cbn [rect_x rect_y rect_width rect_height] in *.
  eapply with_found; [reflexivity|]. intros e He. rewrite Ea in He. cbn [rect_x rect_y rect_width rect_height] in He.
  unfold read_active_area. rewrite (values_long bs _ [y; x; y + h; x + w] e He) by (repeat constructor; unfold is_u; lia || done).
  rewrite Ok_bind, !(proj2 (Z.leb_le _ _)) by lia. cbn [andb]. rewrite !u32_small by lia. do 3 f_equal; lia.
Qed.

Lemma calibration_read cfa :
  read_calibration bs entries cfa fields_metadata = Ok (mkParsed (im_width d) (im_height d) (im_bits d) 8 (len (im_strip d))
    (mkCalibration (Some cfa) (map float_of_int (im_black d)) (im_white d) (Some (im_linearization d)) (Some (map quotient (im_matrix1 d)))
      None None None None None (im_illuminant1 d) (im_illuminant2 d) [] (replicate 5 f_zero) (replicate 5 f_zero))
    (mkCapture 0 0 (im_iso d) f_zero f_zero f_zero (map quotient (im_neutral d)) (im_orientation d) (im_make d) (im_model d) 0 1)
    (Some (im_area d)) (im_make d) (im_model d) (im_linearization d) [] (im_xmp d) (im_icc d)
    (im_opcode_list_1 d) (im_opcode_list_2 d) (im_opcode_list_3 d)).
Proof using R Hd Hlin.
  pose proof area_read as Harea. destruct Hd. destruct io_black0 as [Hb Hb4], io_matrix2 as [Hm Hm9], io_neutral0 as [Hn Hn3].
  unfold read_calibration. cbv zeta.
  erewrite (with_found kTagBlackLevel) with (r := Ok (map float_of_int (im_black d))); [|reflexivity|]; cycle 1.
  { intros e He. rewrite (numeric_short bs _ (im_black d) e He), Ok_bind by (done || lia). f_equal. apply prefix_all.
    rewrite length_map. unfold len in Hb4. cbn. lia. }
  erewrite Ok_bind, (with_found kTagLinearizationTable) with (r := Ok (Some (im_linearization d))); [|reflexivity|]; cycle 1.
  { intros e He. by rewrite (shorts_short bs _ (im_linearization d) e He), Ok_bind. }
  erewrite Ok_bind, (with_found kTagColorMatrix1) with (r := Ok (Some (map quotient (im_matrix1 d)))); [|reflexivity|]; cycle 1.
  { intros e He. unfold matrix3. rewrite (numeric_rational bs _ _ (im_matrix1 d) e He), !Ok_bind by (by right || lia). do 2 f_equal. apply prefix_all.
    rewrite length_map. unfold len in Hm9. cbn. lia. }
  rewrite Ok_bind, (with_absent kTagColorMatrix2), Ok_bind, (with_absent kTagForwardMatrix1), Ok_bind, (with_absent kTagForwardMatrix2), Ok_bind by done.
  erewrite (with_found kTagAsShotNeutral) with (r := Ok (map quotient (im_neutral d))); [|reflexivity|]; cycle 1.
  { intros e He. rewrite (numeric_rational bs _ _ (im_neutral d) e He), Ok_bind by (by left || lia). f_equal. apply prefix_all.
    rewrite length_map. unfold len in Hn3. cbn. lia. }
  rewrite Ok_bind, Harea, Ok_bind, (with_absent kTagExifIFD), Ok_bind by done.
  erewrite (blob_tag kTagXmp), Ok_bind by reflexivity. erewrite (blob_tag kTagIccProfile), Ok_bind by reflexivity.
  erewrite (blob_tag kTagOpcodeList1), Ok_bind by reflexivity. erewrite (blob_tag kTagOpcodeList2), Ok_bind by reflexivity.
  erewrite (blob_tag kTagOpcodeList3), Ok_bind by reflexivity. done.
Qed.

Lemma entries_read : parse_entries bs entries = Ok (mkResult CPIPE_OK (image_metadata d) "").
Proof using R Hd Hstrip Hlin.
  pose proof fields_read as Hf. pose proof cfa_read as Hc. pose proof calibration_read as Hcal. destruct Hd. unfold parse_entries.
  rewrite (short_tag kTagCompression _ (im_compression d)), Ok_bind by done. rewrite (short_tag kTagPhotometricInterpretation _ 32803), Ok_bind by done.
  rewrite (short_tag kTagSamplesPerPixel _ 1), Ok_bind by done. change (negb (32803 =? kPhotometricCfa) || negb (1 =? 1)) with false. cbv iota.
  rewrite Hf, Ok_bind, Hc, Ok_bind, Hcal, Ok_bind. unfold finish. cbn [d_width d_height d_bits_per_sample d_strip_offset d_strip_byte_count].
  rewrite !(proj2 (Z.eqb_neq _ _)), (proj2 (Z.ltb_ge _ _)) by lia. cbn [orb]. by rewrite andb_false_r.
Qed.

End Parse.

Lemma place_size off fields f : f ∈ fields → len (fl_data f) ≤ 4 + len (place off fields).2.
Proof.
  intros Hf. revert off. induction Hf as [f fields|f g fields Hf IH]; intros off; rewrite place_cons; destruct (Z.leb_spec (len (fl_data f)) 4) as [H|H];
    try destruct (Z.leb_spec (len (fl_data g)) 4); cbn [snd]; rewrite ?len_app;
    try pose proof (IH off); try pose proof (IH (off + len (fl_data g))); try pose proof (len_nonneg (fl_data g));
    try pose proof (len_nonneg (place off fields).2); try pose proof (len_nonneg (place (off + len (fl_data f)) fields).2); lia.
Qed.

Lemma tiff_size strip fields f :
  f ∈ fields → len strip + 8 ≤ len (tiff_file strip fields) ∧ len (fl_data f) ≤ len (tiff_file strip fields).
Proof.
  intros Hf. pose proof (place_size (8 + len strip + 2 + 12 * len fields + 4) fields f Hf) as Hp.
  unfold tiff_file. destruct (place _ fields) as [entries data]. cbn [snd] in Hp. rewrite !len_app.
  change (len [73; 73; 42; 0]) with 4. change (len (le32_bytes _)) with 4. change (len [0; 0; 0; 0]) with 4.
  pose proof (len_nonneg strip). pose proof (len_nonneg data). pose proof (len_nonneg (ifd_bytes entries)). lia.
Qed.

Lemma find_field_elem fields tag f : find_field fields tag = Some f → f ∈ fields.
Proof.
  induction fields as [|g fields IH]; [done|]. cbn [find_field]. destruct (_ =? _); [intros [= ->]; left|]. intros H. right. by apply IH.
Qed.

Lemma dng_file_eq d : dng_file d = tiff_file (im_strip d) (image_fields d).
Proof. reflexivity. Qed.

Lemma dng_size d : len (im_strip d) + 8 ≤ len (dng_file d) ∧ 2 * len (im_linearization d) ≤ len (dng_file d).
Proof.
  rewrite <-len_shorts, dng_file_eq.
  assert (mkField kTagLinearizationTable kTypeShort (shorts_of (im_linearization d)) ∈ image_fields d) as Hf
    by by apply (find_field_elem _ kTagLinearizationTable).
  revert Hf. generalize (image_fields d). intros fields Hf. apply (tiff_size (im_strip d) _ _ Hf).
Qed.

Lemma dng_reads d :
  image_ok d → len (dng_file d) < 2 ^ 32 →
  ∃ entries, bad_header (dng_file d) = Ok false ∧ read_u32 (dng_file d) 4 = Ok (8 + len (im_strip d)) ∧
    read_entries (dng_file d) (8 + len (im_strip d)) = Ok (Some entries) ∧ reads (dng_file d) entries (image_fields d).
Proof.
  intros Hd Hl. destruct (dng_size d) as [Hs _]. rewrite dng_file_eq in *.
  apply tiff_reads; [apply image_fields_ok; [done|lia]|done|done].
Qed.

(** C36: a DNG file that was written is read back.  For every CFA image (a repeat
    pattern of 2 by 2 or 4 by 4, sizes and a strip that are not empty, 1 to 16 bits
    per sample, any compression code) laid out in a little-endian TIFF file below
    4 GiB, with its camera names, orientation, sensitivity, levels, linearization
    table, illuminants, colour matrix, neutral, active area, XMP and ICC profile and
    the three opcode lists, inline or out of line as TIFF 6.0 prescribes, the parser
    returns [CPIPE_OK] with exactly this metadata, the rationals as quotients in
    binary32 and every tag that is not in the file at its default; the strip it
    reports is the strip. *)
Theorem dng_roundtrip (d : DngImage) :
  image_ok d → len (dng_file d) < 2 ^ 32 →
  parse (Some (dng_file d)) = Ok (mkResult CPIPE_OK (image_metadata d) "") ∧
  subspan (dng_file d) (d_strip_offset (image_metadata d)) (d_strip_byte_count (image_metadata d)) = im_strip d.
Proof.
  intros Hd Hl. destruct (dng_size d) as [Hs Hlin]. pose proof (len_nonneg (im_linearization d)).
  destruct (dng_reads d) as (entries & Hh & Hoff & He & Hr); [done..|]. split.
  - rewrite (parse_table _ _ _ Hh Hoff He). apply entries_read; try done; lia.
  - unfold dng_file, tiff_file. destruct (place _ _) as [es data]. cbn [d_strip_offset d_strip_byte_count image_metadata].
    rewrite (app_assoc [73; 73; 42; 0]). apply (subspan_app ([73; 73; 42; 0] ++ le32_bytes (8 + len (im_strip d)))).
Qed.

(** A quad Bayer image. *)
Definition example_image : DngImage :=
  mkImage 4 4 12 1 6 800 4095 17 21 "Phone" "" 4 [0; 0; 1; 1; 0; 0; 1; 1; 1; 1; 2; 2; 1; 1; 2; 2] (replicate 32 9)
    [60; 62] (replicate 9 1) [] [1; 2; 3; 4; 5] [0; 0; 0; 0] [0; 100; 4095] [64; 64; 65; 64]
    [(1, 2); (-1, 3); (0, 1); (1, 1); (5, 4); (0, 1); (-7, 10); (0, 1); (3, 2)] [(1, 2); (1, 1); (4, 7)] (mkRect 1 0 3 4).

Lemma dng_roundtrip_witness :
  parse (Some (dng_file example_image)) = Ok (mkResult CPIPE_OK (image_metadata example_image) "") ∧
  d_active_area (image_metadata example_image) = Some (mkRect 1 0 3 4).
Proof.
  split; [|done]. apply (dng_roundtrip example_image); [|vm_compute; reflexivity].
  split; try (cbn; unfold is_u; lia); try (by right); try done.
  - repeat constructor; unfold is_u; cbn; lia.
  - repeat constructor; unfold is_u; cbn; lia.
  - repeat (apply Forall_cons; split; [apply bytes_ok_b; reflexivity|]). constructor.
  - repeat constructor; unfold is_u; lia.
  - split; [|done]. repeat constructor; unfold is_u; lia.
  - split; [|done]. repeat constructor; cbn; lia.
  - split; [|done]. repeat constructor; cbn; lia.
Defined.
