(* ===== verification/EditorAssets.v ===== *)
(** * Static assets and run ids of the editor server

    Models the helpers at the top of src/cpipe/server/EditorServer.cpp that turn a
    request URL into a file ([editor_asset_path], [static_content_type]) or a
    run id ([parse_run_id]), with the operations of std::filesystem::path they use
    on POSIX: [operator/], [lexically_normal] and [extension].  The file system
    itself (which paths are directories or regular files) is a parameter.

    The theorems: an asset path stays below the static root unless the URL
    continues with a second slash, in which case the root is dropped; run ids
    are read back exactly. *)

From Stdlib Require Import ZArith Lia Ascii String.
From stdpp Require Import prelude strings list.
From S2P Require Import Prelude StateRes.

#[local] Arguments ascii_dec : simpl never.

(** ** std::filesystem::path on POSIX *)

(** The text between the slashes; [n] slashes give [n + 1] parts, some empty. *)
Fixpoint split_slash (s : string) : list string :=
  match s with
  | EmptyString => [""]
  | String c s' =>
      if decide (c = "/"%char) then "" :: split_slash s'
      else match split_slash s' with
           | w :: ws => String c w :: ws
           | [] => [String c ""]
           end
  end.

Fixpoint join_slash (l : list string) : string :=
  match l with
  | [] => ""
  | [w] => w
  | w :: l' => w +:+ "/" +:+ join_slash l'
  end.

(** Neither an empty part nor a dot: such parts name nothing. *)
Definition names (w : string) : Prop := w ≠ "" ∧ w ≠ ".".
#[export] Instance names_dec w : Decision (names w).
Proof. unfold names. apply _. Defined.

Definition path_components (p : string) : list string := filter names (split_slash p).

Definition is_absolute (p : string) : bool := String.prefix "/" p.

Fixpoint ends_with_slash (p : string) : bool :=
  match p with
  | EmptyString => false
  | String c "" => bool_decide (c = "/"%char)
  | String _ p' => ends_with_slash p'
  end.

(** [p / q]: an absolute [q] replaces [p]; otherwise a separator is added after a
    file name. *)
Definition path_append (p q : string) : string :=
  if is_absolute q then q
  else if bool_decide (p = "") || ends_with_slash p then p +:+ q
  else p +:+ "/" +:+ q.

(** One part of a path against the (reversed) normalised components before it. *)
Definition normal_step (absolute : bool) (stack : list string) (w : string) : list string :=
  if decide (names w) then
    if decide (w = "..") then
      match stack with
      | top :: stack' => if decide (top = "..") then ".." :: stack else stack'
      | [] => if absolute then [] else [".."]
      end
    else w :: stack
  else stack.

Definition normal_components (absolute : bool) (parts : list string) : list string :=
  rev (fold_left (normal_step absolute) parts []).

Definition lexically_normal (p : string) : string :=
  if decide (p = "") then "" else
  let parts := split_slash p in
  let comps := normal_components (is_absolute p) parts in
  let directory := bool_decide (last parts ∈ [Some ""; Some "."; Some ".."]) &&
    bool_decide (comps ≠ []) && bool_decide (last comps ≠ Some "..") in
  let text := (if is_absolute p then "/" else "") +:+ join_slash comps +:+
    (if directory then "/" else "") in
  if decide (text = "") then "." else text.

(** [path.extension()]: from the last dot of the file name, unless that dot
    starts it. *)
Fixpoint last_dot (s : string) : option string :=
  match s with
  | EmptyString => None
  | String c s' =>
      match last_dot s' with
      | Some e => Some e
      | None => if decide (c = "."%char) then Some s else None
      end
  end.

Definition extension (p : string) : string :=
  match default "" (last (split_slash p)) with
  | EmptyString => ""
  | String c s as f =>
      if decide (f = "..") then "" else default "" (last_dot s)
  end.

(** ** The server's helpers *)

Definition static_content_type (path : string) : string :=
  let extension := extension path in
  if decide (extension = ".html" ∨ extension = ".htm") then "text/html; charset=utf-8"
  else if decide (extension = ".js") then "text/javascript; charset=utf-8"
  else if decide (extension = ".css") then "text/css; charset=utf-8"
  else if decide (extension = ".json") then "application/json"
  else if decide (extension = ".png") then "image/png"
  else if decide (extension = ".webp") then "image/webp"
  else "application/octet-stream".

(** The file system: [read] is [None] for a file that cannot be opened. *)
Record FileSystem : Type := mkFs {
  is_directory : string → bool;
  is_regular_file : string → bool;
  read_file : string → option string
}.

Definition editor_prefix : string := "/editor".

Definition editor_asset_path (fs : FileSystem) (root url : string) : option string :=
  if negb (String.prefix editor_prefix url) then None else
  let relative := string_drop (String.length editor_prefix) url in
  let relative := if decide (relative = "" ∨ relative = "/") then "/index.html" else relative in
  if negb (String.prefix "/" relative) || string_contains ".." relative then None else
  let path := lexically_normal (path_append root (string_drop 1 relative)) in
  let path := if is_directory fs path then path_append path "index.html" else path in
  if negb (is_regular_file fs path) then None else Some path.

Definition runs_prefix : string := "/api/pipelines/active/runs/".

(** The stream must have been read up to its end. *)
Definition parse_run_id (url : string) : option Z :=
  if negb (String.prefix runs_prefix url) then None else
  match stream_u64 (string_drop (String.length runs_prefix) url) with
  | Some (value, EmptyString) => Some value
  | _ => None
  end.

(** ** Lemmas on parts of paths *)

Definition no_slash (w : string) : Prop := split_slash w = [w].

Lemma split_slash_cons c s :
  c ≠ "/"%char → ∃ w ws, split_slash s = w :: ws ∧ split_slash (String c s) = String c w :: ws.
Proof.
  intros Hc. simpl. rewrite decide_False by done.
  destruct (split_slash s) as [|w ws] eqn:E; [|by eauto].
  destruct s as [|d s]; [done|]. simpl in E. case_decide; [done|]. by destruct (split_slash s).
Qed.

Lemma split_slash_join a b : split_slash (a +:+ "/" +:+ b) = split_slash a ++ split_slash b.
Proof.
  induction a as [|c a IH]; [done|].
  change (String c a +:+ "/" +:+ b) with (String c (a +:+ "/" +:+ b)).
  destruct (decide (c = "/"%char)) as [->|Hc].
  - change (split_slash (String "/" ?s)) with ("" :: split_slash s). by rewrite IH.
  - destruct (split_slash_cons c a Hc) as (w & ws & Ha & ->).
    destruct (split_slash_cons c (a +:+ "/" +:+ b) Hc) as (w' & ws' & Hb & ->).
    rewrite IH, Ha in Hb. by simplify_eq/=.
Qed.

Lemma split_slash_parts s : Forall no_slash (split_slash s).
Proof.
  induction s as [|c s IH]; [by repeat constructor|].
  destruct (decide (c = "/"%char)) as [->|Hc]; [by constructor|].
  destruct (split_slash_cons c s Hc) as (w & ws & Hs & ->). rewrite Hs in IH.
  apply Forall_cons in IH as [Hw Hws]. constructor; [|done]. unfold no_slash in *.
  destruct (split_slash_cons c w Hc) as (w' & ws' & Hw' & ->). rewrite Hw in Hw'. by simplify_eq.
Qed.

(** Text after a trailing slash is split on its own. *)
Lemma split_slash_after s :
  ends_with_slash s = true →
  ∃ w ws, split_slash s = w :: ws ++ [""] ∧ ∀ t, split_slash (s +:+ t) = w :: ws ++ split_slash t.
Proof.
  induction s as [|c s IH]; [done|]. intros Hs. destruct s as [|d s].
  - simpl in Hs. apply bool_decide_eq_true in Hs as ->. by exists "", [].
  - destruct (IH Hs) as (w & ws & Hws & Happ).
    destruct (decide (c = "/"%char)) as [->|Hc].
    + exists "", (w :: ws). split; [|intros t].
      * change ("" :: split_slash (String d s) = "" :: w :: ws ++ [""]). by rewrite Hws.
      * change ("" :: split_slash (String d s +:+ t) = "" :: w :: ws ++ split_slash t). by rewrite Happ.
    + destruct (split_slash_cons c (String d s) Hc) as (w' & l & Hl & ->). rewrite Hl in Hws.
      injection Hws as -> ->. exists (String c w), ws. split; [done|]. intros t.
      destruct (split_slash_cons c (String d s +:+ t) Hc) as (w' & l & Ht & E).
      rewrite Happ in Ht. simplify_eq. exact E.
Qed.

Lemma path_components_join a b :
  path_components (a +:+ "/" +:+ b) = path_components a ++ path_components b.
Proof. unfold path_components. by rewrite split_slash_join, filter_app. Qed.

Lemma path_components_append p q :
  is_absolute q = false →
  path_components (path_append p q) = path_components p ++ path_components q.
Proof.
  intros Hq. unfold path_append. rewrite Hq.
  destruct (bool_decide_reflect (p = "")) as [->|Hp]; [done|].
  destruct (ends_with_slash p) eqn:E; simpl; [|by rewrite path_components_join].
  destruct (split_slash_after p E) as (w & ws & Hp' & Happ). unfold path_components.
  rewrite Happ, Hp'. change (w :: ws ++ ?l) with ((w :: ws) ++ l). rewrite !filter_app.
  by rewrite app_nil_r.
Qed.

(** ** Lemmas on normalisation *)

Definition proper (w : string) : Prop := names w ∧ no_slash w.

Lemma normal_fold_filter b stack parts :
  fold_left (normal_step b) parts stack = fold_left (normal_step b) (filter names parts) stack.
Proof.
  revert stack. induction parts as [|w parts IH]; intros stack; [done|].
  rewrite filter_cons. simpl. destruct (decide (names w)) as [Hw|Hw]; [apply IH|].
  unfold normal_step at 2. rewrite decide_False by done. apply IH.
Qed.

(** Parts that do not go up are appended. *)
Lemma normal_fold_push b stack parts :
  Forall (λ w, names w ∧ w ≠ "..") parts →
  fold_left (normal_step b) parts stack = rev parts ++ stack.
Proof.
  revert stack. induction parts as [|w parts IH]; intros stack; [done|].
  intros [[Hn Hd] Hp]%Forall_cons. simpl. rewrite IH by done. rewrite <-app_assoc.
  unfold normal_step. by rewrite decide_True, decide_False by done.
Qed.

Lemma normal_step_proper b stack w :
  no_slash w → Forall proper stack → Forall proper (normal_step b stack w).
Proof.
  intros Hw Hs. unfold normal_step. destruct (decide (names w)) as [Hn|]; [|done].
  assert (proper "..") by (split; [by split|done]).
  repeat case_decide; subst; [|by constructor; [split|]].
  destruct stack as [|t stack]; [destruct b; by repeat constructor|].
  case_decide; [by constructor|]. by apply Forall_cons in Hs as [].
Qed.

Lemma normal_components_proper b p : Forall proper (normal_components b (split_slash p)).
Proof.
  unfold normal_components. apply Forall_rev.
  cut (∀ l stack, Forall no_slash l → Forall proper stack →
    Forall proper (fold_left (normal_step b) l stack)).
  { intros H. apply H; [apply split_slash_parts|constructor]. }
  intros l. induction l as [|w l IH]; intros stack Hl Hs; [done|].
  apply Forall_cons in Hl as [Hw Hl]. simpl. apply IH; [done|]. by apply normal_step_proper.
Qed.

Lemma path_components_proper w : proper w → path_components w = [w].
Proof.
  intros [Hn Hs]. unfold path_components. rewrite Hs, filter_cons. by rewrite decide_True.
Qed.

Lemma path_components_join_slash l : Forall proper l → path_components (join_slash l) = l.
Proof.
  induction l as [|w l IH]; [done|]. intros [Hw Hl]%Forall_cons.
  destruct l as [|v l]; [by apply path_components_proper|].
  change (join_slash (w :: v :: l)) with (w +:+ "/" +:+ join_slash (v :: l)).
  by rewrite path_components_join, IH, path_components_proper.
Qed.

(** The components of a normalised path. *)
Lemma path_components_normal p :
  path_components (lexically_normal p) = normal_components (is_absolute p) (split_slash p).
Proof.
  unfold lexically_normal. destruct (decide (p = "")) as [->|Hp]; [done|].
  set (comps := normal_components _ _).
  assert (Hc : path_components (join_slash comps) = comps).
  { apply path_components_join_slash, normal_components_proper. }
  set (d := (if _ && _ then "/" else "")).
  assert (Hd : path_components (join_slash comps +:+ d) = comps).
  { unfold d. destruct (_ && _); [|by rewrite string_app_empty_r].
    change (join_slash comps +:+ "/") with (join_slash comps +:+ "/" +:+ "").
    rewrite path_components_join, Hc. apply app_nil_r. }
  assert (Ht : path_components ((if is_absolute p then "/" else "") +:+ join_slash comps +:+ d) = comps).
  { destruct (is_absolute p); [|exact Hd].
    change ("/" +:+ ?s) with ("" +:+ "/" +:+ s). by rewrite path_components_join, Hd. }
  case_decide as E; [|exact Ht]. rewrite E in Ht. exact Ht.
Qed.

Lemma split_slash_head s w ws : split_slash s = w :: ws → String.prefix w s = true.
Proof.
  revert w ws. induction s as [|c s IH]; intros w ws H; [by simplify_eq/=|].
  destruct (decide (c = "/"%char)) as [->|Hc]; [by simplify_eq/=|].
  destruct (split_slash_cons c s Hc) as (w' & ws' & Hs & E). rewrite E in H. simplify_eq.
  simpl. destruct (ascii_dec c c); [|done]. by eapply IH.
Qed.

Lemma split_slash_dotdot s : string_contains ".." s = false → ".." ∉ split_slash s.
Proof.
  induction s as [|c s IH]; [set_solver|]. intros H.
  change (String.prefix ".." (String c s) || string_contains ".." s = false) in H.
  apply orb_false_iff in H as [Hp Hs]. specialize (IH Hs).
  destruct (decide (c = "/"%char)) as [->|Hc].
  { change (split_slash (String "/" s)) with ("" :: split_slash s). set_solver. }
  destruct (split_slash_cons c s Hc) as (w & ws & Hw & ->). rewrite Hw in IH.
  apply not_elem_of_cons. split; [|set_solver]. intros [= <- <-].
  apply split_slash_head in Hw. simpl in Hp, Hw. by rewrite Hw in Hp.
Qed.

Lemma normal_components_append p q :
  is_absolute q = false → string_contains ".." q = false →
  let b := is_absolute p in
  normal_components b (split_slash (path_append p q)) =
  normal_components b (split_slash p) ++ path_components q.
Proof.
  intros Hq Hd b. unfold normal_components. rewrite normal_fold_filter.
  fold (path_components (path_append p q)). rewrite path_components_append by done.
  rewrite fold_left_app. change (path_components p) with (filter names (split_slash p)).
  rewrite <-normal_fold_filter.
  rewrite normal_fold_push; [by rewrite rev_app_distr, rev_involutive|].
  apply Forall_forall. intros w. unfold path_components. rewrite list_elem_of_filter.
  intros [Hn Hw]. split; [done|]. intros ->. by apply (split_slash_dotdot q).
Qed.

Lemma prefix_empty s : String.prefix "" s = true.
Proof. by destruct s. Qed.

Lemma is_absolute_cons c p : is_absolute (String c p) = bool_decide (c = "/"%char).
Proof.
  unfold is_absolute. simpl. rewrite prefix_empty.
  destruct (ascii_dec "/" c) as [<-|]; [done|].
  symmetry. apply bool_decide_eq_false_2. congruence.
Qed.

Lemma is_absolute_append p q :
  p ≠ "" → is_absolute q = false → is_absolute (path_append p q) = is_absolute p.
Proof.
  intros Hp Hq. unfold path_append. rewrite Hq, (bool_decide_eq_false_2 _ Hp).
  destruct p as [|c p]; [done|]. destruct (ends_with_slash _); simpl.
  - change (String c p +:+ q) with (String c (p +:+ q)). by rewrite !is_absolute_cons.
  - change (String c p +:+ "/" +:+ q) with (String c (p +:+ "/" +:+ q)). by rewrite !is_absolute_cons.
Qed.

Lemma is_absolute_normal p : is_absolute (lexically_normal p) = is_absolute p.
Proof.
  unfold lexically_normal. destruct (decide (p = "")) as [->|Hp]; [done|].
  destruct (is_absolute p) eqn:Hb.
  { rewrite decide_False by done. apply prefix_app. }
  set (comps := normal_components _ _).
  pose proof (normal_components_proper false p) as Hc. fold comps in Hc.
  case_decide; [done|]. destruct comps as [|w l].
  { rewrite (bool_decide_eq_false_2 ([] ≠ [])), andb_false_r by naive_solver. done. }
  apply Forall_cons in Hc as [[[Hw _] Hs] _].
  destruct w as [|c w]; [done|]. assert (c ≠ "/"%char).
  { intros ->. unfold no_slash in Hs. simpl in Hs. discriminate Hs. }
  destruct l as [|v l].
  - change ("" +:+ join_slash [String c w] +:+ ?t) with (String c (w +:+ t)).
    rewrite is_absolute_cons. by apply bool_decide_eq_false.
  - change ("" +:+ join_slash (String c w :: v :: l) +:+ ?t) with
      (String c ((w +:+ "/" +:+ join_slash (v :: l)) +:+ t)).
    rewrite is_absolute_cons. by apply bool_decide_eq_false.
Qed.

(** The URL after its prefix, with the default document. *)
Definition asset_request (url : string) : string :=
  let relative := string_drop (String.length editor_prefix) url in
  if decide (relative = "" ∨ relative = "/") then "/index.html" else relative.

Lemma asset_request_relative url :
  String.prefix editor_prefix url = true → String.prefix "/editor//" url = false →
  String.prefix "/" (asset_request url) = true →
  is_absolute (string_drop 1 (asset_request url)) = false.
Proof.
  intros Hp%prefix_true Hn Hr. unfold asset_request in *.
  set (r := string_drop _ _) in *. rewrite Hp in Hn. clearbody r. clear Hp.
  case_decide as E; [done|]. destruct r as [|c [|d r]]; [tauto|done|].
  simpl in Hr. destruct (ascii_dec "/" c) as [<-|]; [|done].
  change (string_drop 1 (String "/" (String d r))) with (String d r). rewrite is_absolute_cons.
  apply bool_decide_eq_false. intros ->. revert Hn.
  change (String.prefix "" r ≠ false). by rewrite prefix_empty.
Qed.

Lemma string_contains_drop pat n s :
  string_contains pat s = false → string_contains pat (string_drop n s) = false.
Proof.
  revert s. induction n as [|n IH]; intros s Hs; [by destruct s|].
  destruct s as [|c s]; [done|]. apply IH. simpl in Hs. by apply orb_false_iff in Hs as [_ ?].
Qed.

(** The two guards and the joined path of an accepted request. *)
Lemma editor_asset_path_Some fs root url path :
  editor_asset_path fs root url = Some path ↔
  String.prefix editor_prefix url = true ∧
  String.prefix "/" (asset_request url) = true ∧
  string_contains ".." (asset_request url) = false ∧
  (let p := lexically_normal (path_append root (string_drop 1 (asset_request url))) in
   path = if is_directory fs p then path_append p "index.html" else p) ∧
  is_regular_file fs path = true.
Proof.
  unfold editor_asset_path. fold (asset_request url).
  destruct (String.prefix editor_prefix url), (String.prefix "/" (asset_request url)),
    (string_contains ".." (asset_request url)); simpl; try naive_solver.
  destruct (is_regular_file fs _) eqn:E; simpl; split; try naive_solver.
  intros (_ & _ & _ & -> & H). congruence.
Qed.

(** ** Theorems *)

(** an asset path stays below the static root.  Unless the URL continues with
    a second slash after /editor, the file that is served is a regular file whose
    path has the components of the normalised root followed by components none
    of which goes up, and it is absolute exactly when the root is. *)
Theorem editor_asset_inside (fs : FileSystem) (root url path : string) :
  root ≠ "" → String.prefix "/editor//" url = false →
  editor_asset_path fs root url = Some path →
  is_regular_file fs path = true ∧ is_absolute path = is_absolute root ∧
  ∃ below, path_components path = path_components (lexically_normal root) ++ below ∧
    ".." ∉ below.
Proof.
  intros Hroot Hurl (Hp & Hs & Hd & Hpath & Hreg)%editor_asset_path_Some. cbv zeta in Hpath.
  pose proof (asset_request_relative url Hp Hurl Hs) as Ha.
  apply (string_contains_drop ".." 1) in Hd. set (q := string_drop 1 _) in *.
  set (p := lexically_normal (path_append root q)) in *.
  assert (Hpc : path_components p = path_components (lexically_normal root) ++ path_components q).
  { unfold p. rewrite !path_components_normal, is_absolute_append by done.
    by apply normal_components_append. }
  assert (Hpa : is_absolute p = is_absolute root).
  { unfold p. by rewrite is_absolute_normal, is_absolute_append. }
  assert (Hq : ".." ∉ path_components q).
  { unfold path_components. intros [_ Hin]%list_elem_of_filter. by apply (split_slash_dotdot q). }
  split; [done|]. clearbody p. clear Hreg Hs Ha Hd. destruct (is_directory fs p); subst path; [|by eauto].
  split.
  - destruct (decide (p = "")) as [E|]; [|by rewrite is_absolute_append].
    rewrite <-Hpa. by rewrite E.
  - eexists. rewrite path_components_append, Hpc, <-app_assoc by done.
    split; [done|]. apply not_elem_of_app. split; [done|]. by apply not_elem_of_cons; split; [|set_solver].
Qed.

(** with a second slash the static root is ignored.  A request for
    /editor//REST is answered with the file /REST of the whole file system: the
    path after the first slash is absolute, and appending an absolute path replaces
    the root. *)
Theorem editor_asset_escapes_root (fs : FileSystem) (root rest : string) :
  rest ≠ "" → is_absolute rest = false →
  editor_asset_path fs root ("/editor//" +:+ rest) = editor_asset_path fs "/" ("/editor/" +:+ rest).
Proof.
  intros Hne Ha. unfold editor_asset_path.
  change (String.prefix editor_prefix ("/editor//" +:+ rest)) with (String.prefix "" ("//" +:+ rest)).
  change (String.prefix editor_prefix ("/editor/" +:+ rest)) with (String.prefix "" ("/" +:+ rest)).
  change (string_drop _ ("/editor//" +:+ rest)) with ("//" +:+ rest).
  change (string_drop _ ("/editor/" +:+ rest)) with ("/" +:+ rest).
  rewrite (decide_False (P := "//" +:+ rest = "" ∨ _)) by (intros [E|E]; discriminate E).
  rewrite (decide_False (P := "/" +:+ rest = "" ∨ _)) by (intros [E|E]; [|injection E]; done).
  change (string_drop 1 ("//" +:+ rest)) with ("/" +:+ rest).
  change (string_drop 1 ("/" +:+ rest)) with rest.
  assert (path_append root ("/" +:+ rest) = "/" +:+ rest) as ->.
  { unfold path_append, is_absolute. by rewrite prefix_app. }
  assert (path_append "/" rest = "/" +:+ rest) as ->.
  { unfold path_append. by rewrite Ha. }
  assert (string_contains ".." ("//" +:+ rest) = string_contains ".." ("/" +:+ rest)) as ->; [done|].
  change (String.prefix "/" ("//" +:+ rest)) with (String.prefix "" ("/" +:+ rest)).
  change (String.prefix "/" ("/" +:+ rest)) with (String.prefix "" rest). by destruct rest.
Qed.

(** The value of a text of decimal digits. *)
Fixpoint decimal (acc : Z) (s : string) : Z :=
  match s with
  | EmptyString => acc
  | String c s' => decimal (10 * acc + digit_value c) s'
  end.

Fixpoint all_digits (s : string) : bool :=
  match s with
  | EmptyString => true
  | String c s' => is_digit c && all_digits s'
  end.

Lemma take_digits_all acc s : all_digits s = true → take_digits acc s = (decimal acc s, "").
Proof.
  revert acc. induction s as [|c s IH]; intros acc; [done|]. simpl.
  intros [-> Hs]%andb_true_iff. by apply IH.
Qed.

(** A decimal text is read from a stream in full, when it fits. *)
Lemma stream_u64_decimal s :
  s ≠ "" → all_digits s = true →
  stream_u64 s = if (decimal 0 s <? 2 ^ 64)%Z then Some (decimal 0 s, "") else None.
Proof.
  destruct s as [|c s]; [done|]. intros _ Hs.
  assert (Hc : is_digit c = true) by by apply andb_true_iff in Hs as [].
  assert (is_space c = false ∧ c ≠ "-"%char ∧ c ≠ "+"%char) as (Hsp & Hm & Hp).
  { revert Hc. unfold is_digit, is_space. destruct c as [[][][][][][][][]]; by vm_compute. }
  unfold stream_u64. simpl skip_spaces. rewrite Hsp.
  assert (match String c s with String "-" s' => (true, s') | String "+" s' => (false, s')
    | _ => (false, String c s) end = (false, String c s)) as ->.
  { destruct c as [[][][][][][][][]]; done. }
  unfold read_digits. rewrite Hc, take_digits_all by done.
  destruct (Z.leb_spec (decimal 0 (String c s)) (2 ^ 64 - 1)),
    (Z.ltb_spec (decimal 0 (String c s)) (2 ^ 64)); lia || done.
Qed.

(** The run whose decimal id ends the URL is the one looked up; an id of more
    than 64 bits is refused. *)
Theorem parse_run_id_decimal (s : string) :
  s ≠ "" → all_digits s = true →
  parse_run_id (runs_prefix +:+ s) = if (decimal 0 s <? 2 ^ 64)%Z then Some (decimal 0 s) else None.
Proof.
  intros Hne Hd. unfold parse_run_id. rewrite prefix_app, string_drop_app, stream_u64_decimal by done.
  by destruct (_ <? _)%Z.
Qed.

(** ** Witnesses *)

Definition example_fs : FileSystem := mkFs
  (λ p, bool_decide (p ∈ ["/srv/www"; "/srv/www/"; "/etc"]))
  (λ p, bool_decide (p ∈ ["/srv/www/index.html"; "/srv/www/app/main.js"; "/etc/passwd"]))
  (λ p, Some "").

Example asset_default : editor_asset_path example_fs "/srv/./www" "/editor" = Some "/srv/www/index.html".
Proof. reflexivity. Qed.
Example asset_up : editor_asset_path example_fs "/srv/www" "/editor/../../etc/passwd" = None.
Proof. reflexivity. Qed.
Example content_types :
  map static_content_type ["/srv/www/app/main.js"; "a.b/c"; "x/.css"; "a.tar.webp"; ".."] =
  ["text/javascript; charset=utf-8"; "application/octet-stream"; "application/octet-stream";
   "image/webp"; "application/octet-stream"].
Proof. reflexivity. Qed.
Example normal_forms :
  map lexically_normal ["a/./b/../c"; "/../a//b/"; "a/.."; "../a/.."; "a/b/.."; "."] =
  ["a/c"; "/a/b/"; "."; ".."; "a/"; "."].
Proof. reflexivity. Qed.
Example run_ids :
  map parse_run_id ["/api/pipelines/active/runs/42"; "/api/pipelines/active/runs/-1";
    "/api/pipelines/active/runs/4x"; "/api/pipelines/active/runs/18446744073709551616"] =
  [Some 42%Z; Some (2 ^ 64 - 1)%Z; None; None].
Proof. reflexivity. Qed.

Lemma editor_asset_inside_witness :
  is_regular_file example_fs "/srv/www/app/main.js" = true ∧
  is_absolute "/srv/www/app/main.js" = is_absolute "/srv/www" ∧
  ∃ below, path_components "/srv/www/app/main.js" =
    path_components (lexically_normal "/srv/www") ++ below ∧ ".." ∉ below.
Proof.
  apply (editor_asset_inside example_fs "/srv/www" "/editor/app/main.js").
  - discriminate.
  - reflexivity.
  - reflexivity.
Defined.

Lemma editor_asset_escapes_root_witness :
  editor_asset_path example_fs "/srv/www" "/editor//etc/passwd" = Some "/etc/passwd".
Proof.
  refine (eq_trans (editor_asset_escapes_root example_fs "/srv/www" "etc/passwd" _ _) _).
  - discriminate.
  - reflexivity.
  - reflexivity.
Defined.
