(* ===== verification/ThumbnailEncoder.v ===== *)
(** * The placeholder thumbnail

    Models src/cpipe/server/ThumbnailEncoder.cpp: the loop that fills an RGBA
    image of at most 256 x 256 pixels and the call of libwebp's WebPEncodeRGBA,
    which is a parameter.  The theorem shows that every write is inside the image
    and that the image handed to the encoder is the gradient of its pixels. *)

From Stdlib Require Import ZArith Lia.
From stdpp Require Import prelude list.
From S2P Require Import Prelude.

Local Open Scope Z_scope.

(** [std::clamp]. *)
Definition clamp (v lo hi : Z) : Z := if v <? lo then lo else if hi <? v then hi else v.

Definition write_pixel (size y : Z) (rgba : bytes) (x : Z) : res bytes :=
  let offset := (y * size + x) * 4 in
  write4 rgba offset (u8 (u32 (x * 255) / size)) (u8 (u32 (y * 255) / size))
    (u8 (u32 (Z.lxor x y * 255) / size)) 255.

(** [0, 1, ..., n - 1]. *)
Definition upto (n : Z) : list Z := seqZ 0 n.

Definition fill_rgba (size : Z) : res bytes :=
  foldM (λ rgba y, foldM (write_pixel size y) rgba (upto size))
    (replicate (Z.to_nat (size * size * 4)) 0) (upto size).

(** [webp rgba width height stride] is [None] when the encoder fails. *)
Definition encode_placeholder_thumbnail_webp
    (webp : bytes → Z → Z → Z → option bytes) (max_size : Z) : res bytes :=
  let size := clamp max_size 1 256 in
  rgba ← fill_rgba size;
  match webp rgba size size (size * 4) with
  | None => Ok []
  | Some encoded => Ok encoded
  end.

(** ** The image as its pixels *)

Definition pixel (size y x : Z) : bytes :=
  [x * 255 / size; y * 255 / size; u8 (Z.lxor x y * 255 / size); 255].

Definition gradient (size : Z) : bytes :=
  y ← upto size; x ← upto size; pixel size y x.

Lemma clamp_bound v lo hi : lo ≤ hi → lo ≤ clamp v lo hi ≤ hi.
Proof. intros. unfold clamp. destruct (Z.ltb_spec v lo), (Z.ltb_spec hi v); lia. Qed.

Lemma lxor_lt_256 x y : 0 ≤ x < 256 → 0 ≤ y < 256 → 0 ≤ Z.lxor x y < 256.
Proof.
  intros Hx Hy. split; [apply Z.lxor_nonneg; lia|].
  destruct (decide (Z.lxor x y = 0)) as [->|Hne]; [lia|].
  assert (0 ≤ Z.lxor x y) by (apply Z.lxor_nonneg; lia).
  apply (Z.log2_lt_pow2 _ 8); [lia|]. eapply Z.le_lt_trans; [apply Z.log2_lxor; lia|].
  apply Z.max_lub_lt.
  - destruct (decide (x = 0)) as [->|]; [done|]. by apply Z.log2_lt_pow2; lia.
  - destruct (decide (y = 0)) as [->|]; [done|]. by apply Z.log2_lt_pow2; lia.
Qed.

Lemma channel_small size x : 0 ≤ x < size → size ≤ 256 → u8 (u32 (x * 255) / size) = x * 255 / size.
Proof.
  intros. rewrite u32_small by nia. apply wrap_small. unfold is_u.
  split; [apply Z.div_pos; lia|]. apply Z.div_lt_upper_bound; nia.
Qed.

(** One pixel is written after those before it. *)
Lemma write_pixel_app size y x pre b0 b1 b2 b3 suf :
  0 ≤ x < size → 0 ≤ y < size → size ≤ 256 → len pre = (y * size + x) * 4 →
  write_pixel size y (pre ++ b0 :: b1 :: b2 :: b3 :: suf) x = Ok (pre ++ pixel size y x ++ suf).
Proof.
  intros Hx Hy Hs Hpre. unfold write_pixel, pixel.
  rewrite (channel_small size x), (channel_small size y) by lia.
  rewrite (u32_small (Z.lxor x y * 255))
    by (pose proof (lxor_lt_256 x y ltac:(lia) ltac:(lia)); lia).
  by rewrite write4_app.
Qed.

(** A row: from column [x] on, [n] pixels are appended. *)
Lemma fill_row size y n : ∀ x pre m,
  0 ≤ x → x + Z.of_nat n = size → 0 ≤ y < size → size ≤ 256 → len pre = (y * size + x) * 4 →
  foldM (write_pixel size y) (pre ++ replicate (4 * n + m) 0) (seqZ x (Z.of_nat n)) =
  Ok (pre ++ (seqZ x (Z.of_nat n) ≫= pixel size y) ++ replicate m 0).
Proof.
  induction n as [|n IH]; intros x pre m Hx Hn Hy Hs Hpre; [done|].
  rewrite seqZ_cons by lia. replace (Z.pred (Z.of_nat (S n))) with (Z.of_nat n) by lia.
  replace (4 * S n + m)%nat with (S (S (S (S (4 * n + m))))) by lia.
  cbn [replicate foldM]. rewrite write_pixel_app by lia. rewrite Ok_bind, app_assoc.
  rewrite IH; [|lia..|].
  - rewrite bind_cons. by rewrite <-!app_assoc.
  - rewrite len_app, Hpre. change (len (pixel _ _ _)) with 4. lia.
Qed.

Lemma len_row size y : 0 ≤ size → len (upto size ≫= pixel size y) = size * 4.
Proof.
  intros Hs. unfold upto. rewrite <-(Z2Nat.id size) at 2 3 by lia. generalize 0. intros i.
  revert i. induction (Z.to_nat size) as [|n IH]; intros i; [done|].
  rewrite seqZ_cons by lia. replace (Z.pred (Z.of_nat (S n))) with (Z.of_nat n) by lia.
  rewrite bind_cons, len_app, IH. change (len (pixel _ _ _)) with 4. lia.
Qed.

Lemma fill_rows size n : ∀ y pre,
  0 < size → 0 ≤ y → y + Z.of_nat n = size → size ≤ 256 → len pre = y * size * 4 →
  foldM (λ rgba y, foldM (write_pixel size y) rgba (upto size))
    (pre ++ replicate (4 * Z.to_nat size * n) 0) (seqZ y (Z.of_nat n)) =
  Ok (pre ++ (y ← seqZ y (Z.of_nat n); x ← upto size; pixel size y x)).
Proof.
  induction n as [|n IH]; intros y pre Hsz Hy Hn Hs Hpre.
  { simpl. by rewrite Nat.mul_0_r. }
  rewrite seqZ_cons by lia. replace (Z.pred (Z.of_nat (S n))) with (Z.of_nat n) by lia.
  replace (4 * Z.to_nat size * S n)%nat with (4 * Z.to_nat size + 4 * Z.to_nat size * n)%nat by lia.
  pose proof (fill_row size y (Z.to_nat size) 0 pre (4 * Z.to_nat size * n)) as Hrow.
  rewrite Z2Nat.id in Hrow by lia. fold (upto size) in Hrow.
  cbn [foldM]. rewrite Hrow, Ok_bind, app_assoc by lia.
  rewrite IH; [|lia..|].
  - rewrite bind_cons. by rewrite <-app_assoc.
  - rewrite len_app, Hpre. fold (upto size). rewrite len_row by lia. lia.
Qed.

(** The image is filled inside its bounds. *)
Lemma fill_rgba_gradient size : 1 ≤ size ≤ 256 → fill_rgba size = Ok (gradient size).
Proof.
  intros Hs. unfold fill_rgba. pose proof (fill_rows size (Z.to_nat size) 0 []) as Hf.
  rewrite Z2Nat.id in Hf by lia. fold (upto size) in Hf.
  replace (Z.to_nat (size * size * 4)) with (4 * Z.to_nat size * Z.to_nat size)%nat by lia.
  rewrite app_nil_l in Hf. fold (gradient size) in Hf. apply Hf; unfold len; simpl; lia.
Qed.

Lemma encode_placeholder_Ok webp max_size :
  encode_placeholder_thumbnail_webp webp max_size =
  let size := clamp max_size 1 256 in
  Ok (default [] (webp (gradient size) size size (size * 4))).
Proof.
  unfold encode_placeholder_thumbnail_webp. cbv zeta.
  rewrite fill_rgba_gradient by (apply clamp_bound; lia). rewrite Ok_bind. by destruct (webp _ _ _ _).
Qed.

(** ** Theorem *)

(** for every requested size the placeholder image is filled without a write
    outside it; it is the gradient of the pixels of the clamped size, four bytes
    each in row order, every one a byte, and the encoder is given its width, height
    and row stride. *)
Theorem placeholder_thumbnail_exact (webp : bytes → Z → Z → Z → option bytes) (max_size : Z) :
  let size := clamp max_size 1 256 in
  encode_placeholder_thumbnail_webp webp max_size =
    Ok (default [] (webp (gradient size) size size (size * 4))) ∧
  len (gradient size) = size * size * 4 ∧ bytes_ok (gradient size).
Proof.
  intros size. pose proof (clamp_bound max_size 1 256 ltac:(lia)) as Hs. fold size in Hs.
  assert (Hlen : ∀ n, len (y ← seqZ 0 (Z.of_nat n); x ← upto size; pixel size y x) = Z.of_nat n * size * 4).
  { generalize 0. intros i n. revert i. induction n as [|n IH]; intros i; [done|].
    rewrite seqZ_cons by lia. replace (Z.pred (Z.of_nat (S n))) with (Z.of_nat n) by lia.
    rewrite bind_cons, len_app, IH, len_row by lia. lia. }
  split_and!.
  - apply encode_placeholder_Ok.
  - unfold gradient, upto at 1. rewrite <-(Z2Nat.id size) at 1 by lia. rewrite Hlen. lia.
  - apply Forall_forall. intros b. unfold gradient, upto.
    rewrite list_elem_of_bind. intros (y & Hb & Hy). apply list_elem_of_bind in Hb as (x & Hb & Hx).
    apply elem_of_seqZ in Hx, Hy. unfold pixel in Hb.
    assert (∀ z, 0 ≤ z < size → is_u 8 (z * 255 / size)).
    { intros z Hz. split; [apply Z.div_pos; lia|]. apply Z.div_lt_upper_bound; nia. }
    repeat (apply elem_of_cons in Hb as [->|Hb]; [auto|]).
    + by apply wrap_bound.
    + by unfold is_u.
    + by apply elem_of_nil in Hb.
Qed.

Example gradient_2 : fill_rgba 2 = Ok [0; 0; 0; 255; 127; 0; 127; 255; 0; 127; 127; 255; 127; 127; 0; 255].
Proof. reflexivity. Qed.
