(* ===== verification/EditorServer.v ===== *)
(** * The editor server's session

    Models src/cpipe/server/EditorServer.cpp and the class of EditorServer.hpp:
    the session (active pipeline, run records, clients, thumbnail subscriptions),
    the REST handlers and the WebSocket handlers.  The uWebSockets library calls
    the handlers one at a time on its I/O thread; a handler is a computation in
    [sr Session] whose frames go to the log [sent_] and whose exceptions escape
    into the library unless the handler catches them.  Parameters: the JSON
    library, the text of an exception ([what]), the WebP encoder, the file system
    and the iteration order of unordered maps.  Client pointers and times (in
    nanoseconds, from [steady_clock]) are integers.

    The theorems: the session invariant of every handler, the effect of the
    handlers on the session, the delivery and the rate of thumbnails, and which
    exceptions can leave a handler.  The threads around the session are in
    [EditorThreads]. *)

From Stdlib Require Import ZArith Lia String.
From stdpp Require Import prelude strings list gmap sorting.
From S2P Require Import Prelude Json Registry EditorProtocol StateRes EditorAssets ThumbnailEncoder.

Local Open Scope Z_scope.

Record ThumbnailSubscription : Type := mkSub {
  sub_node_id : string;
  sub_port : string;
  sub_max_size : Z;
  sub_fps : Z
}.

Record RunRecord `{JsonLib} : Type := mkRun { run_status : string; output_paths : json }.

(** The data members that handlers use; [sent_] are the frames handed to the
    sockets, oldest first. *)
Record Session `{JsonLib} : Type := mkSession {
  registry_ : option Registry;
  active_pipeline_ : json;
  next_run_id_ : Z;
  runs_ : gmap Z RunRecord;
  ws_clients_ : gset Z;
  thumbnail_subscriptions_ : gmap Z ThumbnailSubscription;
  thumbnail_last_emit_ : gmap string Z;
  param_debounce_pending_ : bool;
  param_debounce_deadline_ : Z;
  sent_ : list (Z * bytes)
}.

Arguments mkRun {_} _ _.
Arguments mkSession {_} _ _ _ _ _ _ _ _ _ _.

Record Response : Type := mkResponse {
  resp_status : string;
  resp_content_type : string;
  resp_body : string
}.

(** [uWS::OpCode]: only [BINARY] is told apart. *)
Inductive OpCode : Type := BINARY | OtherOp.

Definition thumbnail_key (node_id port : string) : string := node_id +:+ String (Ascii.ascii_of_nat 10) port.

(** [std::max_element(...)->key] of a non-empty list: the largest key. *)
Definition max_key {A} (key : A → Z) (x : A) (l : list A) : Z :=
  key (foldl (λ m y, if key m <? key y then y else m) x l).

Section Server.

Context {J : JsonLib} {W : JsonWrite J}.

(** The text of a caught exception, the WebP encoder and the file system. *)
Variable what : exn → string.
Variable webp : bytes → Z → Z → Z → option bytes.
Variable fs : FileSystem.

(** The order in which an unordered map is walked. *)
Variable subscription_order : gmap Z ThumbnailSubscription → list (Z * ThumbnailSubscription).
Variable group_order : gmap string (list (Z * ThumbnailSubscription)) →
  list (string * list (Z * ThumbnailSubscription)).

(** ** Changes of single members *)

Definition with_pipeline (s : Session) (p : json) : Session :=
  mkSession (registry_ s) p (next_run_id_ s) (runs_ s) (ws_clients_ s) (thumbnail_subscriptions_ s)
    (thumbnail_last_emit_ s) (param_debounce_pending_ s) (param_debounce_deadline_ s) (sent_ s).
Definition with_runs (s : Session) (next : Z) (runs : gmap Z RunRecord) : Session :=
  mkSession (registry_ s) (active_pipeline_ s) next runs (ws_clients_ s) (thumbnail_subscriptions_ s)
    (thumbnail_last_emit_ s) (param_debounce_pending_ s) (param_debounce_deadline_ s) (sent_ s).
Definition with_clients (s : Session) (clients : gset Z) (subs : gmap Z ThumbnailSubscription) : Session :=
  mkSession (registry_ s) (active_pipeline_ s) (next_run_id_ s) (runs_ s) clients subs
    (thumbnail_last_emit_ s) (param_debounce_pending_ s) (param_debounce_deadline_ s) (sent_ s).
Definition with_last_emit (s : Session) (m : gmap string Z) : Session :=
  mkSession (registry_ s) (active_pipeline_ s) (next_run_id_ s) (runs_ s) (ws_clients_ s)
    (thumbnail_subscriptions_ s) m (param_debounce_pending_ s) (param_debounce_deadline_ s) (sent_ s).
Definition with_debounce (s : Session) (pending : bool) (deadline : Z) : Session :=
  mkSession (registry_ s) (active_pipeline_ s) (next_run_id_ s) (runs_ s) (ws_clients_ s)
    (thumbnail_subscriptions_ s) (thumbnail_last_emit_ s) pending deadline (sent_ s).
Definition with_sent (s : Session) (l : list (Z * bytes)) : Session :=
  mkSession (registry_ s) (active_pipeline_ s) (next_run_id_ s) (runs_ s) (ws_clients_ s)
    (thumbnail_subscriptions_ s) (thumbnail_last_emit_ s) (param_debounce_pending_ s)
    (param_debounce_deadline_ s) l.

(** [EditorServer() = default]. *)
Definition new_session : Session :=
  mkSession None json_null 1 ∅ ∅ ∅ ∅ false 0 [].

(** ** Responses and frames *)

Definition ok (data : json) : json := json_object [("ok", json_bool true); ("data", data)].

Definition error_envelope (code message : string) : json :=
  json_object [("ok", json_bool false);
    ("error", json_object [("code", json_string code); ("message", json_string message)])].

Definition kHealthBody : string := String.concat (String (Ascii.ascii_of_nat 34) EmptyString)
  ["{"; "ok"; ":true,"; "abi"; ":{"; "major"; ":1,"; "minor"; ":3}}"].

Definition json_response (body : json) (status : string) : res Response :=
  text ← json_dump body; Ok (mkResponse status "application/json" text).

Definition raw_json_response (body : string) : Response :=
  mkResponse "200 OK" "application/schema+json" body.

Definition static_file_response (root url : string) : res Response :=
  let not_found := json_response (error_envelope "not_found" "static asset not found") "404 Not Found" in
  match editor_asset_path fs root url with
  | None => not_found
  | Some path =>
      match read_file fs path with
      | None => not_found
      | Some body => Ok (mkResponse "200 OK" (static_content_type path) body)
      end
  end.

(** [ws->send(bytes, BINARY)]. *)
Definition send (client : Z) (frame : bytes) : sr Session unit :=
  modify (λ s, with_sent s (sent_ s ++ [(client, frame)])).

Definition send_json_frame (client : Z) (type : EditorFrameType) (payload : json) : sr Session unit :=
  text ← lift (json_dump payload);
  send client (encode_frame type 0 0 (string_bytes text)).

(** [std::set<void*>] is walked in increasing order. *)
Definition client_order (clients : gset Z) : list Z := merge_sort Z.le (base.elements clients).

Definition broadcast_json_frame (type : EditorFrameType) (payload : json) : sr Session unit :=
  text ← lift (json_dump payload);
  clients ← gets ws_clients_;
  forS (λ client, send client (encode_frame type 0 0 (string_bytes text))) (client_order clients).

(** ** The session *)

Definition set_registry (r : option Registry) : sr Session unit :=
  modify (λ s, mkSession r (active_pipeline_ s) (next_run_id_ s) (runs_ s) (ws_clients_ s)
    (thumbnail_subscriptions_ s) (thumbnail_last_emit_ s) (param_debounce_pending_ s)
    (param_debounce_deadline_ s) (sent_ s)).

Definition registry_nodes (r : option Registry) : res json :=
  nodes ← foldM (λ nodes desc,
      match node_id desc, manifest_json desc with
      | Some id, Some manifest =>
          m ← parse_json manifest;
          Ok (nodes ++ [json_object [("id", json_string id); ("manifest", m)]])
      | _, _ => Ok nodes
      end) [] (default [] r);
  Ok (json_object [("nodes", json_array nodes)]).

(** The guard of [replace_active_pipeline]: [value] throws on a version that is
    not a string. *)
Definition is_pipeline_v04 (pipeline : json) : res bool :=
  if negb (is_object pipeline) then Ok false else
  version ← value_or get_string pipeline "version" "";
  Ok (bool_decide (version = "0.4") && contains pipeline "nodes" && contains pipeline "edges").

Definition replace_active_pipeline (pipeline : json) : sr Session unit :=
  good ← lift (is_pipeline_v04 pipeline);
  if negb good then failS CPIPE_BAD_INDEX "expected pipeline-v0.4 JSON object" else
  modify (λ s, with_last_emit (with_runs (with_pipeline s pipeline) 1 ∅) ∅).

(** The public entry the command line uses. *)
Definition set_active_pipeline (pipeline : json) : sr Session unit := replace_active_pipeline pipeline.

(** [node["params"][key] = value] on an object. *)
Definition set_param (node : json) (key : string) (value : json) : res json :=
  params ← set_key (default json_null (find_key node "params")) key value;
  set_key node "params" params.

(** The loop over the nodes: the index of the first node with that id and its new
    value. *)
Fixpoint delta_nodes (node_id key : string) (value : json) (i : nat) (nodes : list json)
    : res (option (nat * json)) :=
  match nodes with
  | [] => Ok None
  | node :: nodes' =>
      id ← value_or get_string node "id" "";
      if bool_decide (id ≠ node_id) then delta_nodes node_id key value (S i) nodes'
      else node' ← set_param node key value; Ok (Some (i, node'))
  end.

Definition apply_param_delta (delta : json) : sr Session unit :=
  if negb (is_object delta) || negb (contains delta "node_id") || negb (contains delta "key") ||
     negb (contains delta "value")
  then failS CPIPE_BAD_INDEX "expected {node_id,key,value}" else
  node_id ← lift (at_key delta "node_id" ≫= get_string);
  key ← lift (at_key delta "key" ≫= get_string);
  active ← gets active_pipeline_;
  if is_null active then failS CPIPE_BAD_INDEX "no active pipeline" else
  nodes ← lift (at_key active "nodes");
  value ← lift (at_key delta "value");
  found ← lift (delta_nodes node_id key value 0 (elements nodes));
  match found with
  | None => failS CPIPE_BAD_INDEX ("node not found: " +:+ node_id)
  | Some (i, node') =>
      active' ← lift (set_key active "nodes" (set_element nodes i node'));
      modify (λ s, with_pipeline s active')
  end.

Definition run_json (run_id : Z) (record : RunRecord) : json :=
  json_object [("run_id", json_uint run_id); ("status", json_string (run_status record));
    ("output_paths", output_paths record)].

Definition completed_run : RunRecord := mkRun "completed" (json_array []).

(** [runs_.emplace] keeps a record that is already there. *)
Definition create_run_record : sr Session json :=
  run_id ← gets next_run_id_;
  _ ← modify (λ s, with_runs s (u64 (run_id + 1))
        (match runs_ s !! run_id with
         | Some _ => runs_ s
         | None => <[run_id := completed_run]> (runs_ s)
         end));
  mret (run_json run_id completed_run).

Definition run_record (run_id : Z) (s : Session) : json :=
  match runs_ s !! run_id with
  | None => json_null
  | Some record => run_json run_id record
  end.

Definition profile_node (node : json) : res json :=
  id ← value_or get_string node "id" "";
  Ok (json_object [("node_id", json_string id); ("start_ms", json_int 0); ("end_ms", json_int 0);
    ("ms", json_int 0); ("peak_mem_kb", json_int 0); ("mem_kb", json_int 0);
    ("device", json_string "cpu")]).

Definition profile_payload (run_id : Z) (s : Session) : res json :=
  nodes ← (if is_object (active_pipeline_ s) && contains (active_pipeline_ s) "nodes" then
      nodes ← at_key (active_pipeline_ s) "nodes";
      foldM (λ acc node, p ← profile_node node; Ok (acc ++ [p])) [] (elements nodes)
    else Ok []);
  Ok (json_object [("type", json_string "pipeline.profile"); ("run_id", json_uint run_id);
    ("nodes", json_array nodes)]).

Definition schedule_param_rerun (now : Z) : sr Session unit :=
  modify (λ s, with_debounce s true (now + 200 * 1000000)).

(** ** Thumbnails *)

Definition apply_thumbnail_control (client : Z) (payload : json) : sr Session unit :=
  type ← lift (value_or get_string payload "type" "");
  if bool_decide (type = "node.unsubscribe_thumbnail") then
    modify (λ s, with_clients s (ws_clients_ s) (delete client (thumbnail_subscriptions_ s)))
  else if bool_decide (type ≠ "node.subscribe_thumbnail") || negb (contains payload "node_id") ||
     negb (contains payload "port")
  then failS CPIPE_BAD_INDEX "expected thumbnail subscribe/unsubscribe control" else
  node_id ← lift (at_key payload "node_id" ≫= get_string);
  port ← lift (at_key payload "port" ≫= get_string);
  max_size ← lift (value_or get_u32 payload "max_size" 256);
  fps ← lift (value_or get_u32 payload "fps" 5);
  modify (λ s, with_clients s (ws_clients_ s)
    (<[client := mkSub node_id port (clamp max_size 1 256) (clamp fps 1 60)]>
      (thumbnail_subscriptions_ s))).

(** [groups[thumbnail_key(...)].push_back(Target{...})] over the connected clients. *)
Definition thumbnail_groups (s : Session) : gmap string (list (Z * ThumbnailSubscription)) :=
  foldl (λ groups '(client, sub),
      if decide (client ∈ ws_clients_ s) then
        let key := thumbnail_key (sub_node_id sub) (sub_port sub) in
        <[key := default [] (groups !! key) ++ [(client, sub)]]> groups
      else groups)
    ∅ (subscription_order (thumbnail_subscriptions_ s)).

Definition effective_fps (first : Z * ThumbnailSubscription) (rest : list (Z * ThumbnailSubscription)) : Z :=
  if 4 <? len (first :: rest) then 2 else max_key (λ t, sub_fps t.2) first rest.

(** [std::chrono::milliseconds{1000 / effective_fps}], in nanoseconds. *)
Definition interval (fps : Z) : Z := 1000 / fps * 1000000.

Definition push_group (now : Z) (key : string) (targets : list (Z * ThumbnailSubscription)) : sr Session unit :=
  match targets with
  | [] => mret tt
  | first :: rest =>
      last_emit ← gets thumbnail_last_emit_;
      let due := match last_emit !! key with
        | Some last => negb (now - last <? interval (effective_fps first rest))
        | None => true
        end in
      if negb due then mret tt else
      _ ← modify (λ s, with_last_emit s (<[key := now]> (thumbnail_last_emit_ s)));
      thumbnail ← lift (encode_placeholder_thumbnail_webp webp
        (max_key (λ t, sub_max_size t.2) first rest));
      if bool_decide (thumbnail = []) then mret tt else
      forS (λ t, send t.1 (encode_frame Thumbnail 0 0 thumbnail)) targets
  end.

Definition push_thumbnail_frames (now : Z) : sr Session unit :=
  groups ← gets thumbnail_groups;
  forS (λ '(key, targets), push_group now key targets) (group_order groups).

Definition run_log (run_id : Z) : json :=
  json_object [("level", json_string "info");
    ("message", json_string "event=pipeline_run status=completed"); ("run_id", json_uint run_id)].

Definition emit_completed_run (now : Z) : sr Session json :=
  record ← create_run_record;
  run_id ← lift (at_key record "run_id" ≫= get_u64);
  _ ← push_thumbnail_frames now;
  profile ← (λ s, (profile_payload run_id s, s));
  _ ← broadcast_json_frame Profile profile;
  _ ← broadcast_json_frame Log (run_log run_id);
  mret record.

(** ** The REST handlers *)

Inductive Request : Type :=
| GetEditor
| GetEditorFile (url : string)
| GetHealth
| GetNodeSchema
| GetPipelineSchema
| GetRegistryNodes
| GetActive
| PutActive (chunks : list string)
| PostParams (chunks : list string)
| PostRun
| GetRun (url : string).

(** [onData] appends every chunk and goes on with the last one. *)
Definition body_of (chunks : list string) : string := foldl String.append "" chunks.

Definition put_active (chunks : list string) : sr Session Response :=
  catchS
    (document ← lift (parse_json (body_of chunks));
     '(status, route_error) ← attempt (replace_active_pipeline document);
     lift (if bool_decide (status ≠ CPIPE_OK)
       then json_response (error_envelope "bad_pipeline" route_error) "400 Bad Request"
       else json_response (ok (json_object [("pipeline", document)])) "200 OK"))
    (λ e, lift (json_response (error_envelope "bad_json" (what e)) "400 Bad Request")).

Definition post_params (chunks : list string) : sr Session Response :=
  catchS
    (document ← lift (parse_json (body_of chunks));
     '(status, route_error) ← attempt (apply_param_delta document);
     lift (if bool_decide (status ≠ CPIPE_OK)
       then json_response (error_envelope "bad_param_delta" route_error) "400 Bad Request"
       else json_response (ok (json_object [("applied", json_bool true)])) "200 OK"))
    (λ e, lift (json_response (error_envelope "bad_json" (what e)) "400 Bad Request")).

Definition get_active (s : Session) : res Response :=
  if is_null (active_pipeline_ s)
  then json_response (error_envelope "not_found" "no active pipeline") "404 Not Found"
  else json_response (ok (json_object [("pipeline", active_pipeline_ s)])) "200 OK".

Definition get_run (url : string) (s : Session) : res Response :=
  match parse_run_id url with
  | None => json_response (error_envelope "bad_run_id" "invalid run id") "400 Bad Request"
  | Some run_id =>
      let record := run_record run_id s in
      if is_null record
      then json_response (error_envelope "not_found" "run id not found") "404 Not Found"
      else json_response (ok record) "200 OK"
  end.

(** The schemas are generated string constants; the route for static files exists
    only with a root. *)
Definition handle_request (root node_schema pipeline_schema : string) (now : Z) (r : Request)
    : sr Session Response :=
  match r with
  | GetEditor => lift (static_file_response root "/editor/")
  | GetEditorFile url => lift (static_file_response root url)
  | GetHealth => mret (mkResponse "200 OK" "application/json" kHealthBody)
  | GetNodeSchema => mret (raw_json_response node_schema)
  | GetPipelineSchema => mret (raw_json_response pipeline_schema)
  | GetRegistryNodes =>
      registry ← gets registry_;
      lift (nodes ← registry_nodes registry; json_response (ok nodes) "200 OK")
  | GetActive => λ s, (get_active s, s)
  | PutActive chunks => put_active chunks
  | PostParams chunks => post_params chunks
  | PostRun =>
      record ← emit_completed_run now;
      lift (json_response (ok record) "200 OK")
  | GetRun url => λ s, (get_run url s, s)
  end.

(** ** The WebSocket handlers *)

Definition ws_open (client : Z) : sr Session unit :=
  modify (λ s, with_clients s ({[client]} ∪ ws_clients_ s) (thumbnail_subscriptions_ s)).

Definition ws_close (client : Z) : sr Session unit :=
  modify (λ s, with_clients s (ws_clients_ s ∖ {[client]}) (delete client (thumbnail_subscriptions_ s))).

Definition nack (client : Z) (error : string) : sr Session unit :=
  send_json_frame client Ack (json_object [("ok", json_bool false); ("error", json_string error)]).

(** The body of the [try]: [None] after an early return. *)
Definition ws_control (now client : Z) (payload : json) : sr Session unit :=
  type ← lift (value_or get_string payload "type" "");
  let acknowledge := (
    received ← lift (value_or get_string payload "type" "");
    send_json_frame client Ack
      (json_object [("ok", json_bool true); ("received", json_string received)])) in
  if bool_decide (type = "node.update_param") then
    '(status, route_error) ← attempt (apply_param_delta payload);
    if bool_decide (status ≠ CPIPE_OK) then nack client route_error else
    _ ← schedule_param_rerun now;
    acknowledge
  else if bool_decide (type = "node.subscribe_thumbnail" ∨ type = "node.unsubscribe_thumbnail") then
    '(status, route_error) ← attempt (apply_thumbnail_control client payload);
    if bool_decide (status ≠ CPIPE_OK) then nack client route_error else acknowledge
  else acknowledge.

Definition ws_message (now client : Z) (op : OpCode) (message : bytes) : sr Session unit :=
  match op with
  | OtherOp => nack client "binary frame required"
  | BINARY =>
      frame ← lift (decode_frame message);
      match frame with
      | Some (mkFrame Control _ _ payload) =>
          catchS (document ← lift (parse_json (bytes_string payload)); ws_control now client document)
            (λ e, nack client (what e))
      | _ => nack client "invalid control frame"
      end
  end.

(** ** The session invariant *)

(** Two events that leave the run counter alone, and the one that advances it. *)
Record session_ok (s : Session) : Prop := {
  (** The active pipeline is absent or passed the version and member checks. *)
  ok_pipeline : active_pipeline_ s = json_null ∨ is_pipeline_v04 (active_pipeline_ s) = Ok true;
  (** The records are those of the ids handed out since the pipeline was set. *)
  ok_next : 1 ≤ next_run_id_ s < 2 ^ 64;
  ok_runs id : runs_ s !! id = if decide (1 ≤ id < next_run_id_ s) then Some completed_run else None;
  (** Only connected clients are subscribed, with sizes and rates in range. *)
  ok_subs : map_Forall (λ client sub, client ∈ ws_clients_ s ∧
    1 ≤ sub_max_size sub ≤ 256 ∧ 1 ≤ sub_fps sub ≤ 60) (thumbnail_subscriptions_ s)
}.

(** The invariant with a bound on the run counter. *)
Definition ok_upto (n : Z) (s : Session) : Prop := session_ok s ∧ next_run_id_ s ≤ n.

(** The events the library delivers; it has a message only from an open socket. *)
Inductive Event : Type :=
| EvRequest (now : Z) (r : Request)
| EvOpen (client : Z)
| EvMessage (now client : Z) (op : OpCode) (message : bytes)
| EvClose (client : Z)
| EvDeferred (now : Z).

Definition handle_event (root node_schema pipeline_schema : string) (ev : Event) : sr Session unit :=
  match ev with
  | EvRequest now r => _ ← handle_request root node_schema pipeline_schema now r; mret tt
  | EvOpen client => ws_open client
  | EvMessage now client op message => ws_message now client op message
  | EvClose client => ws_close client
  | EvDeferred now => _ ← emit_completed_run now; mret tt
  end.

Inductive session_step : Session → Session → Prop :=
| step_event root node_schema pipeline_schema ev s :
    (∀ now client op message, ev = EvMessage now client op message → client ∈ ws_clients_ s) →
    session_step s (handle_event root node_schema pipeline_schema ev s).2
| step_registry r s : session_step s (set_registry r s).2
| step_set_active p s : session_step s (set_active_pipeline p s).2.

(** The frames the server makes: JSON of one of its own types, or a thumbnail. *)
Inductive server_frame : bytes → Prop :=
| json_server_frame type payload text :
    type ≠ Control → json_dump payload = Ok text →
    server_frame (encode_frame type 0 0 (string_bytes text))
| thumbnail_server_frame size thumbnail :
    encode_placeholder_thumbnail_webp webp size = Ok thumbnail →
    server_frame (encode_frame Thumbnail 0 0 thumbnail).

(** [P] is kept when such a frame is sent. *)
Definition sends (P : Session → Prop) : Prop :=
  ∀ s client frame, server_frame frame → P s → P (with_sent s (sent_ s ++ [(client, frame)])).

Lemma keeps_send P client frame : sends P → server_frame frame → keeps P (send client frame).
Proof. intros HP Hf. apply keeps_modify. auto. Qed.

Lemma keeps_send_json P client type payload :
  sends P → type ≠ Control → keeps P (send_json_frame client type payload).
Proof.
  intros HP Ht. apply keeps_bind_lift. intros text Hd. apply keeps_send; [done|].
  exact (json_server_frame _ _ _ Ht Hd).
Qed.

Lemma keeps_broadcast P type payload :
  sends P → type ≠ Control → keeps P (broadcast_json_frame type payload).
Proof.
  intros HP Ht. apply keeps_bind_lift. intros text Hd.
  apply keeps_bind; [apply keeps_gets|]. intros clients.
  apply keeps_for. intros. apply keeps_send; [done|].
  exact (json_server_frame _ _ _ Ht Hd).
Qed.

Lemma keeps_nack P client error : sends P → keeps P (nack client error).
Proof. intros. by apply keeps_send_json. Qed.

Lemma keeps_replace pipeline : keeps session_ok (replace_active_pipeline pipeline).
Proof.
  intros s Hs. unfold replace_active_pipeline, mbind, sr_bind. simpl.
  destruct (is_pipeline_v04 pipeline) as [[]|?|?|] eqn:E; simpl; try done.
  destruct Hs. split; simpl; auto; [lia|]. intros id. rewrite lookup_empty.
  by rewrite decide_False by lia.
Qed.

Context {L : JsonLaws J} {WL : JsonWriteLaws J W}.

Lemma value_or_find {A} (conv : json → res A) p q key d :
  is_object p = true → is_object q = true → find_key p key = find_key q key →
  value_or conv p key d = value_or conv q key d.
Proof.
  intros Hp Hq E. destruct (find_key q key) as [v|] eqn:Hv.
  - by rewrite !(value_or_found _ _ _ _ _ v).
  - by rewrite !value_or_missing.
Qed.

(** What the guard of [replace_active_pipeline] establishes. *)
Lemma is_pipeline_v04_true p :
  is_pipeline_v04 p = Ok true ↔
  is_object p = true ∧ value_or get_string p "version" "" = Ok "0.4" ∧
  is_Some (find_key p "nodes") ∧ is_Some (find_key p "edges").
Proof.
  unfold is_pipeline_v04, contains. destruct (is_object p); simpl; [|naive_solver].
  destruct (value_or get_string p "version" "") as [v|?|?|]; simpl; [|naive_solver..].
  split.
  - intros [= H]. rewrite !andb_true_iff, !bool_decide_eq_true in H. naive_solver.
  - intros (_ & [= ->] & ? & ?). by rewrite !bool_decide_eq_true_2.
Qed.

Lemma is_pipeline_v04_set_nodes p v p' :
  is_pipeline_v04 p = Ok true → set_key p "nodes" v = Ok p' →
  is_pipeline_v04 p' = Ok true ∧ find_key p' "nodes" = Some v ∧
  ∀ key, key ≠ "nodes" → find_key p' key = find_key p key.
Proof.
  intros (Ho & Hv & Hn & He)%is_pipeline_v04_true Hset.
  destruct (set_key_object p "nodes" v Ho) as (q & Hq & Hqo & Hqn & Hqk).
  rewrite Hset in Hq. injection Hq as <-. split; [|done].
  apply is_pipeline_v04_true. split_and!; [done| |by eexists|by rewrite Hqk].
  rewrite <-Hv. apply value_or_find; [done..|]. by apply Hqk.
Qed.

(** The successful path of [apply_param_delta]. *)
Lemma apply_param_delta_Ok delta s u s' :
  apply_param_delta delta s = (Ok u, s') ↔
  ∃ node_id key value nodes i node' active',
    is_object delta = true ∧
    (at_key delta "node_id" ≫= get_string) = Ok node_id ∧
    (at_key delta "key" ≫= get_string) = Ok key ∧ at_key delta "value" = Ok value ∧
    contains delta "node_id" ∧ contains delta "key" ∧ contains delta "value" ∧
    is_null (active_pipeline_ s) = false ∧ at_key (active_pipeline_ s) "nodes" = Ok nodes ∧
    delta_nodes node_id key value 0 (elements nodes) = Ok (Some (i, node')) ∧
    set_key (active_pipeline_ s) "nodes" (set_element nodes i node') = Ok active' ∧
    s' = with_pipeline s active'.
Proof.
  unfold apply_param_delta, mbind, sr_bind, lift, gets, failS, modify. split.
  - destruct (is_object delta), (contains delta "node_id"), (contains delta "key"),
      (contains delta "value"); simpl; try discriminate.
    destruct (res_bind _ _ _ (at_key delta "node_id")) as [node_id|?|?|]; try discriminate.
    destruct (res_bind _ _ _ (at_key delta "key")) as [key|?|?|]; try discriminate.
    destruct (is_null (active_pipeline_ s)); [discriminate|].
    destruct (at_key (active_pipeline_ s) "nodes") as [nodes|?|?|] eqn:?; try discriminate.
    destruct (at_key delta "value") as [value|?|?|]; try discriminate.
    destruct (delta_nodes node_id key value 0 (elements nodes)) as [[[i node']|]|?|?|] eqn:?; try discriminate.
    destruct (set_key (active_pipeline_ s) "nodes" (set_element nodes i node')) as [a'|?|?|] eqn:E;
      try discriminate.
    intros [= <- <-]. by exists node_id, key, value, nodes, i, node', a'.
  - intros (node_id & key & value & nodes & i & node' & active' & -> & Hid & Hkey & Hv & Hc1 & Hc2 & Hc3 &
      Hnull & Hn & Hd & Hset & ->). unfold mbind in Hid, Hkey.
    rewrite (Is_true_true_1 _ Hc1), (Is_true_true_1 _ Hc2), (Is_true_true_1 _ Hc3). simpl.
    rewrite Hid, Hkey. simpl. rewrite Hnull, Hn, Hv, Hd, Hset. by destruct u.
Qed.

(** Otherwise nothing changes. *)
Lemma apply_param_delta_unchanged delta s :
  ¬ is_Ok (apply_param_delta delta s).1 → (apply_param_delta delta s).2 = s.
Proof.
  unfold apply_param_delta, mbind, sr_bind, lift, gets, failS.
  destruct (_ || _); [done|].
  destruct (res_bind _ _ _ (at_key delta "node_id")); try done.
  destruct (res_bind _ _ _ (at_key delta "key")); try done.
  destruct (is_null (active_pipeline_ s)); [done|].
  destruct (at_key (active_pipeline_ s) "nodes"); try done.
  destruct (at_key delta "value"); try done.
  destruct (delta_nodes _ _ _ _ _) as [[[]|]|?|?|]; try done.
  by destruct (set_key (active_pipeline_ s) _ _).
Qed.

(** In every case only the active pipeline can change, to a valid one. *)
Lemma delta_effect delta s :
  ∃ p, (apply_param_delta delta s).2 = with_pipeline s p ∧
    (active_pipeline_ s = json_null ∨ is_pipeline_v04 (active_pipeline_ s) = Ok true →
     p = json_null ∨ is_pipeline_v04 p = Ok true).
Proof.
  destruct (is_Ok (apply_param_delta delta s).1) eqn:Hok.
  2: { exists (active_pipeline_ s). split; [|done]. rewrite apply_param_delta_unchanged; [by destruct s|].
    by rewrite Hok; intros []. }
  destruct (apply_param_delta delta s) as [[u|?|?|] s'] eqn:E; try discriminate Hok.
  apply apply_param_delta_Ok in E as (? & ? & ? & nodes & i & node' & active' & H). destruct_and! H.
  exists active'. split; [done|]. intros [Hnull|Hp]; [by rewrite Hnull, is_object_null in *|].
  right. by eapply is_pipeline_v04_set_nodes.
Qed.

Lemma keeps_delta delta : keeps session_ok (apply_param_delta delta).
Proof.
  intros s [Hp Hnext Hruns Hsubs]. destruct (delta_effect delta s) as (p & -> & Hp'). split; simpl; auto.
Qed.

Lemma keeps_control n client payload :
  keeps (λ s, ok_upto n s ∧ client ∈ ws_clients_ s) (apply_thumbnail_control client payload).
Proof.
  unfold apply_thumbnail_control. keeps_steps; apply keeps_modify;
    intros s [[[] ?] Hc]; split; try done; split; try done; split; try done; simpl.
  - by apply map_Forall_delete.
  - apply map_Forall_insert_2; [|done]. split; [done|]. split; apply clamp_bound; lia.
Qed.

Lemma delta_clients delta s : ws_clients_ (apply_param_delta delta s).2 = ws_clients_ s.
Proof. by destruct (delta_effect delta s) as (p & -> & _). Qed.

(** A predicate that every member of the server keeps; a run takes it from [P]
    to [Q]. *)
Record stable (P Q : Session → Prop) : Prop := {
  st_sub s : P s → Q s;
  st_sends : sends P;
  st_sends' : sends Q;
  st_last_emit s m : Q s → Q (with_last_emit s m);
  st_create : moves P Q create_run_record;
  st_replace p : keeps P (replace_active_pipeline p);
  st_delta d : keeps P (apply_param_delta d);
  st_schedule now : keeps P (schedule_param_rerun now);
  st_control client d : keeps (λ s, P s ∧ client ∈ ws_clients_ s) (apply_thumbnail_control client d);
  st_open client : keeps P (ws_open client);
  st_close client : keeps P (ws_close client);
  st_registry r : keeps P (set_registry r)
}.

Section Stable.

Context (P Q : Session → Prop) (HPQ : stable P Q).

Lemma stable_push now : keeps Q (push_thumbnail_frames now).
Proof.
  apply keeps_bind; [apply keeps_gets|]. intros groups. apply keeps_for. intros [key targets] _.
  unfold push_group. destruct targets as [|first rest]; [apply keeps_ret|].
  apply keeps_bind; [apply keeps_gets|]. intros last_emit. cbv zeta.
  destruct (negb _); [apply keeps_ret|].
  apply keeps_bind; [apply keeps_modify; intros; by apply (st_last_emit P)|]. intros _.
  apply keeps_bind_lift. intros thumbnail Ht.
  destruct (bool_decide _); [apply keeps_ret|].
  apply keeps_for. intros t _. apply keeps_send; [apply (st_sends' _ _ HPQ)|].
  exact (thumbnail_server_frame _ _ Ht).
Qed.

Lemma stable_run now : moves P Q (emit_completed_run now).
Proof.
  apply moves_bind; [apply (st_create _ _ HPQ)|]. intros record.
  apply keeps_bind; [apply keeps_lift|]. intros run_id.
  apply keeps_bind; [apply stable_push|]. intros _.
  apply keeps_bind; [by intros s|]. intros profile.
  apply keeps_bind; [by apply keeps_broadcast; [apply (st_sends' _ _ HPQ)|]|]. intros _.
  apply keeps_bind; [by apply keeps_broadcast; [apply (st_sends' _ _ HPQ)|]|]. intros _.
  apply keeps_ret.
Qed.

Lemma stable_request root ns ps now r : moves P Q (handle_request root ns ps now r).
Proof.
  assert (Hk : ∀ A (m : sr Session A), keeps P m → moves P Q m).
  { intros A m Hm s Hs. by apply (st_sub _ _ HPQ), Hm. }
  pose proof (st_replace _ _ HPQ) as Hr. pose proof (st_delta _ _ HPQ) as Hd.
  destruct r; try (apply Hk; by apply keeps_lift || apply keeps_ret || intros s).
  - apply Hk. unfold handle_request, put_active. keeps_steps.
  - apply Hk. unfold handle_request, post_params. keeps_steps.
  - apply moves_bind; [apply stable_run|]. intros. apply keeps_lift.
Qed.

Lemma stable_message now client op message :
  keeps (λ s, P s ∧ client ∈ ws_clients_ s) (ws_message now client op message).
Proof.
  set (R := λ s, _). assert (Hs : sends R) by (intros s c f ? [? ?]; split; [by apply (st_sends _ _ HPQ)|done]).
  destruct op; [|by apply keeps_nack]. apply keeps_bind; [apply keeps_lift|]. intros frame.
  destruct frame as [[[] ? ? payload]|]; try by apply keeps_nack.
  apply keeps_catch; [|intros; by apply keeps_nack].
  apply keeps_bind; [apply keeps_lift|]. intros document. unfold ws_control.
  assert (Hd : keeps R (apply_param_delta document)).
  { intros s [Hp Hc]. split; [by apply (st_delta _ _ HPQ)|]. by rewrite delta_clients. }
  assert (Hr : keeps R (schedule_param_rerun now)).
  { intros s [Hp Hc]. split; [by apply (st_schedule _ _ HPQ)|done]. }
  pose proof (st_control _ _ HPQ) as Hct. fold R in Hct.
  assert (Hn : ∀ e, keeps R (nack client e)) by (intros; by apply keeps_nack).
  assert (Hj : ∀ j, keeps R (send_json_frame client Ack j)) by (intros; by apply keeps_send_json).
  keeps_steps.
Qed.

Lemma stable_step s s' : session_step s s' → P s → Q s'.
Proof.
  intros [root ns ps ev s0 Hev|r s0|p s0] Hs.
  - destruct ev as [now r|client|now client op message|client|now]; simpl.
    + eapply moves_bind; [apply stable_request| |done]. intros; apply keeps_ret.
    + by apply (st_sub _ _ HPQ), (st_open _ _ HPQ).
    + apply (st_sub _ _ HPQ). apply (stable_message now client op message). eauto.
    + by apply (st_sub _ _ HPQ), (st_close _ _ HPQ).
    + eapply moves_bind; [apply stable_run| |done]. intros; apply keeps_ret.
  - by apply (st_sub _ _ HPQ), (st_registry _ _ HPQ).
  - by apply (st_sub _ _ HPQ), (st_replace _ _ HPQ).
Qed.

End Stable.

Lemma create_ok n : n + 1 < 2 ^ 64 → moves (ok_upto n) (ok_upto (n + 1)) create_run_record.
Proof.
  intros Hn s [[Hp Hnext Hruns Hsubs] Hle]. unfold create_run_record. simpl.
  assert (runs_ s !! next_run_id_ s = None) as ->.
  { rewrite Hruns. by rewrite decide_False by lia. }
  rewrite u64_small by lia. split; [|simpl; lia]. split; simpl; [done|lia| |done].
  intros id. destruct (decide (id = next_run_id_ s)) as [->|Hne].
  - rewrite lookup_insert_eq. by rewrite decide_True by lia.
  - rewrite lookup_insert_ne by done. rewrite Hruns. by repeat case_decide; try lia.
Qed.

Lemma session_ok_stable n : 1 ≤ n → n + 1 < 2 ^ 64 → stable (ok_upto n) (ok_upto (n + 1)).
Proof.
  intros H1 Hn. split.
  - intros s [? ?]. split; [done|lia].
  - by intros s c f _ [[] ?].
  - by intros s c f _ [[] ?].
  - by intros s m [[] ?].
  - by apply create_ok.
  - intros p. apply keeps_and; [apply keeps_replace|]. intros s Hs.
    unfold replace_active_pipeline, mbind, sr_bind. simpl.
    by destruct (is_pipeline_v04 p) as [[]|?|?|].
  - intros d. apply keeps_and; [apply keeps_delta|]. intros s Hs.
    by destruct (delta_effect d s) as (p & -> & _).
  - by intros now s [[] ?].
  - intros client d. apply keeps_control.
  - intros client s [[Hp Hnext Hruns Hsubs] ?]. split; [|done]. split; simpl; try done.
    eapply map_Forall_impl; [exact Hsubs|]. set_solver.
  - intros client s [[Hp Hnext Hruns Hsubs] ?]. split; [|done]. split; simpl; try done.
    intros c sub [Hne Hc]%lookup_delete_Some. destruct (Hsubs c sub Hc). set_solver.
  - by intros r s [[] ?].
Qed.

Lemma session_ok_reachable (n : nat) (s : Session) :
  nsteps session_step n new_session s → Z.of_nat n < 2 ^ 64 - 2 → session_ok s.
Proof.
  intros Hs Hn. cut (ok_upto (1 + Z.of_nat n) s); [by intros []|].
  assert (H0 : ok_upto 1 new_session).
  { split; [|done]. split; simpl; [by left|lia| |by apply map_Forall_empty].
    intros id. rewrite lookup_empty. by rewrite decide_False by lia. }
  revert s Hn Hs. induction n as [|n IH]; intros s Hn Hs; [by inversion Hs; subst|].
  apply nsteps_inv_r in Hs as (s1 & Hs1 & Hstep). specialize (IH s1 ltac:(lia) Hs1).
  replace (1 + Z.of_nat (S n)) with (1 + Z.of_nat n + 1) by lia.
  eapply stable_step; [apply session_ok_stable; lia|done|done].
Qed.

(** C10: the session invariant.  Whatever requests, messages, connections and
    deferred runs the server handles, in any order and fewer than 2^64 - 2 of them:
    the active pipeline is absent or a version 0.4 document with nodes and edges,
    the run records are exactly those of the ids 1 up to the next id (ids are
    neither reused nor skipped), and every subscription belongs to a connected
    client with a size in 1..256 and a rate in 1..60. *)
Theorem session_invariant (n : nat) (s : Session) :
  nsteps session_step n new_session s → Z.of_nat n < 2 ^ 64 - 2 → session_ok s.
Proof. apply session_ok_reachable. Qed.

(** What the server packs into frames: the text of a JSON value, or a thumbnail. *)
Definition server_payload (type : EditorFrameType) (payload : bytes) : Prop :=
  (type ≠ Control ∧ ∃ j text, json_dump j = Ok text ∧ payload = string_bytes text) ∨
  (type = Thumbnail ∧ ∃ size, encode_placeholder_thumbnail_webp webp size = Ok payload).


(** ** The effect of the handlers *)

Lemma set_param_spec node key value node' :
  is_object node = true → set_param node key value = Ok node' →
  is_object node' = true ∧ (∀ m, m ≠ "params" → find_key node' m = find_key node m) ∧
  ∃ params, find_key node' "params" = Some params ∧ find_key params key = Some value ∧
    ∀ key', key' ≠ key → find_key params key' = (find_key node "params" ≫= λ p, find_key p key').
Proof.
  intros Ho Hset. unfold set_param in Hset. apply bind_Ok_inv in Hset as (params & Hp & Hn).
  destruct (set_key_object node "params" params Ho) as (n & Hn' & Hno & Hnf & Hnk).
  rewrite Hn in Hn'. injection Hn' as <-. split_and!; [done..|]. exists params. split; [done|].
  set (old := default json_null (find_key node "params")) in *.
  assert (Hold : ∀ k, find_key old k = find_key node "params" ≫= λ p, find_key p k).
  { intros k. unfold old. destruct (find_key node "params"); [done|]. apply find_key_non_object.
    destruct (is_object json_null) eqn:E; [|done]. apply is_null_object in E. by rewrite is_object_null in E. }
  pose proof (set_key_type _ _ _ _ Hp) as Ht. destruct (is_object old) eqn:Eo.
  - destruct (set_key_object old key value Eo) as (q & Hq & _ & Hqk & Hq'). rewrite Hp in Hq.
    injection Hq as <-. split; [done|]. intros key' Hne. by rewrite Hq'.
  - destruct (set_key_null old key value Ht) as (q & Hq & _ & Hqk & Hq'). rewrite Hp in Hq.
    injection Hq as <-. split; [done|]. intros key' Hne. rewrite Hq', <-Hold by done.
    symmetry. by apply find_key_non_object.
Qed.

(** The node that a delta changes: the first with the id. *)
Lemma delta_nodes_spec node_id key value k nodes i node' :
  delta_nodes node_id key value k nodes = Ok (Some (i, node')) →
  ∃ j node, i = (k + j)%nat ∧ nodes !! j = Some node ∧ is_object node = true ∧
    value_or get_string node "id" "" = Ok node_id ∧ set_param node key value = Ok node' ∧
    ∀ j' node0, (j' < j)%nat → nodes !! j' = Some node0 →
      value_or get_string node0 "id" "" ≠ Ok node_id.
Proof.
  revert k. induction nodes as [|node nodes IH]; intros k H; [done|]. simpl in H.
  apply bind_Ok_inv in H as (id & Hid & H). case_bool_decide as Hne.
  - apply IH in H as (j & n & -> & Hn & Ho & Hv & Hs & Hfirst). exists (S j), n.
    split_and!; [lia|done..|]. intros [|j'] n0 Hj Hn0; simplify_eq/=; [congruence|].
    eapply Hfirst; [|done]. lia.
  - apply bind_Ok_inv in H as (n & Hs & H). injection H as <- <-. exists 0%nat, node.
    assert (id = node_id) as -> by (by destruct (decide (id = node_id))).
    assert (is_object node = true).
    { destruct (is_object node) eqn:Ho; [done|]. by rewrite value_or_non_object in Hid. }
    split_and!; [lia|done..|]. lia.
Qed.

(** a parameter update changes one parameter of one node.  When an update is
    accepted, the session differs only in the active pipeline, there only in the
    nodes, there only in the first node with the given id, there only in its
    parameters, and there only in the given key, which now has the given value.
    When it is refused (with a status or by an exception) nothing changes. *)
Theorem param_delta_exact (delta : json) (s s' : Session) (out : res unit) :
  session_ok s → apply_param_delta delta s = (out, s') →
  match out with
  | Ok _ => ∃ node_id key value nodes nodes' i node node' params,
      (at_key delta "node_id" ≫= get_string) = Ok node_id ∧
      (at_key delta "key" ≫= get_string) = Ok key ∧ at_key delta "value" = Ok value ∧
      s' = with_pipeline s (active_pipeline_ s') ∧
      (∀ m, m ≠ "nodes" → find_key (active_pipeline_ s') m = find_key (active_pipeline_ s) m) ∧
      find_key (active_pipeline_ s) "nodes" = Some nodes ∧
      find_key (active_pipeline_ s') "nodes" = Some nodes' ∧
      elements nodes !! i = Some node ∧ elements nodes' = <[i := node']> (elements nodes) ∧
      value_or get_string node "id" "" = Ok node_id ∧
      (∀ j node0, (j < i)%nat → elements nodes !! j = Some node0 →
        value_or get_string node0 "id" "" ≠ Ok node_id) ∧
      (∀ m, m ≠ "params" → find_key node' m = find_key node m) ∧
      find_key node' "params" = Some params ∧ find_key params key = Some value ∧
      ∀ key', key' ≠ key → find_key params key' = (find_key node "params" ≫= λ p, find_key p key')
  | _ => s' = s
  end.
Proof.
  intros Hok E. destruct (is_Ok out) eqn:Hout.
  2: { pose proof (apply_param_delta_unchanged delta s) as Hu. rewrite E in Hu. simpl in Hu.
    rewrite Hout in Hu. assert (s' = s) by (apply Hu; by intros []). by destruct out. }
  destruct out as [u|?|?|]; try discriminate Hout.
  apply apply_param_delta_Ok in E as (node_id & key & value & nodes & i & node' & active' &
    Ho & Hid & Hkey & Hv & _ & _ & _ & Hnull & Hn & Hd & Hset & ->).
  destruct (ok_pipeline s Hok) as [Hp|Hp]; [by rewrite Hp, is_object_null in Hnull|].
  destruct (is_pipeline_v04_set_nodes _ _ _ Hp Hset) as (_ & Hnodes & Hother).
  apply delta_nodes_spec in Hd as (j & node & -> & Hj & Hno & Hnid & Hsp & Hfirst).
  destruct (set_param_spec node key value node' Hno Hsp) as (_ & Hm & params & Hpar & Hpk & Hp').
  assert (find_key (active_pipeline_ s) "nodes" = Some nodes) as Hfn.
  { apply is_pipeline_v04_true in Hp as (_ & _ & [n Hf] & _).
    pose proof (at_key_found _ _ _ Hf) as H. rewrite Hn in H. injection H as ->. done. }
  exists node_id, key, value, nodes, (set_element nodes j node'), j, node, node', params. simpl.
  split_and!; try done. apply elements_set.
  destruct (is_array nodes || is_object nodes) eqn:Ht; [done|].
  apply list_elem_of_lookup_2 in Hj. by rewrite (elements_scalar nodes node Ht Hj) in Hno.
Qed.

(** ** Outcomes of the handlers *)

Lemma value_or_string j key d :
  (∃ v, value_or get_string j key d = Ok v) ∨ value_or get_string j key d = Thrown type_error.
Proof.
  destruct (is_object j) eqn:Ho; [|right; by apply value_or_non_object].
  destruct (find_key j key) as [v|] eqn:Hf; [|left; rewrite value_or_missing by done; eauto].
  rewrite (value_or_found _ _ _ _ _ v) by done. destruct (is_string v) eqn:Hs.
  - left. by apply get_string_type.
  - right. by apply get_string_throws.
Qed.

Lemma throws_only_bind {A B} (m : res A) (f : A → res B) :
  throws_only m → (∀ a, throws_only (f a)) → throws_only (m ≫= f).
Proof. destruct m; naive_solver. Qed.

Lemma throws_only_value j key d : throws_only (value_or get_string j key d).
Proof. by destruct (value_or_string j key d) as [[v ->]| ->]. Qed.

Lemma throws_only_string j key : throws_only (at_key j key ≫= get_string).
Proof.
  apply throws_only_bind; [apply at_key_call|]. intros v. destruct (is_string v) eqn:Hs.
  - apply get_string_type in Hs as [? ->]. done.
  - by rewrite get_string_throws.
Qed.

(** A member that is a floating-point number, whose conversion to an integer
    type the library does not check. *)
Definition floating_member (j : json) (key : string) : bool :=
  if find_key j key is Some v then floating v else false.

Lemma throws_only_u32 j key d : floating_member j key = false → throws_only (value_or get_u32 j key d).
Proof.
  intros Hfl. destruct (is_object j) eqn:Ho; [|by rewrite value_or_non_object].
  destruct (find_key j key) as [v|] eqn:Hf; [|by rewrite value_or_missing].
  rewrite (value_or_found _ _ _ _ _ v) by done. apply get_u32_call. unfold floating_member in Hfl. by rewrite Hf in Hfl.
Qed.

Lemma throws_only_parse text : throws_only (parse_json text).
Proof. unfold parse_json. by destruct (json_parse text). Qed.

Lemma throws_only_delta_nodes node_id key value nodes k :
  throws_only (delta_nodes node_id key value k nodes).
Proof.
  revert k. induction nodes as [|node nodes IH]; intros k; [done|]. simpl.
  apply throws_only_bind; [apply throws_only_value|]. intros id. case_bool_decide; [apply IH|].
  apply throws_only_bind; [|done]. apply throws_only_bind; [apply set_key_call|].
  intros. apply set_key_call.
Qed.

Lemma throws_only_v04 p : throws_only (is_pipeline_v04 p).
Proof.
  unfold is_pipeline_v04. destruct (negb _); [done|]. apply throws_only_bind; [apply throws_only_value|done].
Qed.

(** With a state: [tryS fails m] may report a status only when [fails]. *)
Definition tryS {A} (fails : bool) (m : sr Session A) : Prop := ∀ s,
  match (m s).1 with
  | Ok _ => True | Fail _ _ => fails = true | Thrown e => e ≠ aborted | Undef => False
  end.

Lemma tryS_lift {A} b (m : res A) : throws_only m → tryS b (lift m).
Proof. intros Hm s. by destruct m. Qed.

Lemma tryS_bind {A B} b (m : sr Session A) (f : A → sr Session B) :
  tryS b m → (∀ a, tryS b (f a)) → tryS b (m ≫= f).
Proof.
  intros Hm Hf s. specialize (Hm s). unfold mbind, sr_bind. destruct (m s) as [[] s']; try done. apply Hf.
Qed.

Lemma tryS_attempt {A} b (m : sr Session A) : tryS true m → tryS b (attempt m).
Proof. intros Hm s. specialize (Hm s). unfold attempt. by destruct (m s) as [[] s']. Qed.

Lemma tryS_for {A} b (f : A → sr Session unit) l : (∀ x, tryS b (f x)) → tryS b (forS f l).
Proof. intros Hf. induction l as [|x l IH]; [done|]. apply tryS_bind; auto. Qed.

Create HintDb tries.
#[local] Hint Resolve throws_only_value throws_only_string throws_only_u32 throws_only_parse
  throws_only_delta_nodes throws_only_v04 : tries.
#[local] Hint Extern 1 (throws_only (at_key _ _)) => apply at_key_call : tries.
#[local] Hint Extern 1 (throws_only (set_key _ _ _)) => apply set_key_call : tries.
#[local] Hint Extern 1 (throws_only (json_dump _)) => apply json_dump_call : tries.
#[local] Hint Extern 1 (tryS _ (lift _)) => apply tryS_lift : tries.

Lemma try_replace p : tryS true (replace_active_pipeline p).
Proof. apply tryS_bind; [auto with tries|by intros []]. Qed.

Lemma try_delta d : tryS true (apply_param_delta d).
Proof.
  unfold apply_param_delta. destruct (_ || _); [done|].
  do 2 (apply tryS_bind; [auto with tries|]; intros).
  apply tryS_bind; [done|]. intros active. destruct (is_null active); [done|].
  do 2 (apply tryS_bind; [auto with tries|]; intros).
  apply tryS_bind; [auto with tries|]. intros [[]|]; [|done].
  apply tryS_bind; [auto with tries|]. by intros p s.
Qed.

(** A document whose size and rate the subscription can convert. *)
Definition control_sound (d : json) : bool :=
  negb (floating_member d "max_size") && negb (floating_member d "fps").

Lemma try_control client d : control_sound d = true → tryS true (apply_thumbnail_control client d).
Proof.
  intros [?%negb_true_iff ?%negb_true_iff]%andb_true_iff.
  unfold apply_thumbnail_control. apply tryS_bind; [auto with tries|]. intros type.
  destruct (bool_decide _); [done|]. destruct (_ || _); [done|].
  do 4 (apply tryS_bind; [auto with tries|]; intros). by intros s.
Qed.

Lemma try_send_json client type payload : tryS false (send_json_frame client type payload).
Proof. apply tryS_bind; [auto with tries|]. by intros text s. Qed.

#[local] Hint Resolve try_replace try_delta try_control try_send_json tryS_attempt : tries.

Lemma try_ws_control now client payload : control_sound payload = true → tryS false (ws_control now client payload).
Proof.
  intros Hc. unfold ws_control, nack. apply tryS_bind; [auto with tries|]. intros type. cbv zeta.
  destruct (bool_decide _); [|destruct (bool_decide _)].
  - apply tryS_bind; [auto with tries|]. intros [status e]. destruct (bool_decide _); [auto with tries|].
    apply tryS_bind; [by intros s|]. intros _. apply tryS_bind; auto with tries.
  - apply tryS_bind; [auto with tries|]. intros [status e]. destruct (bool_decide _); [auto with tries|].
    apply tryS_bind; auto with tries.
  - apply tryS_bind; auto with tries.
Qed.

Section Dump.

(** [dump] throws only on text that is not UTF-8. *)
Hypothesis dump_total : ∀ j, ∃ text, json_dump j = Ok text.

Lemma json_response_Ok body status : ∃ text, json_response body status = Ok (mkResponse status "application/json" text).
Proof. destruct (dump_total body) as [text Ht]. exists text. unfold json_response. by rewrite Ht. Qed.

Lemma send_json_Ok client type payload s : ∃ s', send_json_frame client type payload s = (Ok tt, s').
Proof.
  destruct (dump_total payload) as [text Ht]. unfold send_json_frame, mbind, sr_bind, lift. rewrite Ht.
  unfold send, modify. eauto.
Qed.

Lemma broadcast_Ok type payload s : ∃ s', broadcast_json_frame type payload s = (Ok tt, s').
Proof.
  destruct (dump_total payload) as [text Ht]. unfold broadcast_json_frame.
  rewrite (sr_bind_Ok _ _ _ text s) by (by rewrite Ht).
  rewrite (sr_bind_Ok _ _ _ (ws_clients_ s) s) by done.
  generalize (client_order (ws_clients_ s)) as l. intros l. generalize s. clear s.
  induction l as [|c l IH]; intros s; [by exists s|]. simpl.
  rewrite (sr_bind_Ok _ _ _ tt (with_sent s (sent_ s ++ [(c, encode_frame type 0 0 (string_bytes text))]))) by done.
  apply IH.
Qed.

(** The two outcomes of a handler that answers through [json_response] and
    catches what its body throws. *)
Lemma catch_response (m : sr Session Response) h s :
  tryS false m → (∀ e s', ∃ r, h e s' = (Ok r, s')) → ∃ r, (catchS m h s).1 = Ok r.
Proof.
  intros Hm Hh. specialize (Hm s). unfold catchS. destruct (m s) as [[r|?|e|] s']; simpl in *; try done; [by eauto|].
  destruct (Hh e s') as [r Hr]. destruct e; try done; rewrite Hr; by eauto.
Qed.

(** what a client sends is contained, as long as every value can be printed
    (printing throws on text that is not UTF-8).  For every body of PUT active and
    POST params, however it is split into chunks, the handler returns a response,
    and every WebSocket message is acknowledged, unless it is a control document
    whose max_size or fps is a floating-point number, which the code converts
    unchecked: no exception escapes. *)
Theorem client_input_contained (s : Session) (chunks : list string) (now client : Z) (op : OpCode) (message : bytes) :
  (∃ r, (put_active chunks s).1 = Ok r) ∧ (∃ r, (post_params chunks s).1 = Ok r) ∧
  ((∀ frame document, decode_frame message = Ok (Some frame) →
      parse_json (bytes_string (fr_payload frame)) = Ok document → control_sound document = true) →
   (ws_message now client op message s).1 = Ok tt).
Proof.
  assert (Hr : ∀ b st s', ∃ r, @lift Session _ (json_response b st) s' = (Ok r, s')).
  { intros b st s'. destruct (json_response_Ok b st) as [t Ht]. unfold lift. rewrite Ht. by eexists. }
  assert (Hj : ∀ b st, tryS false (@lift Session _ (json_response b st))).
  { intros b st. apply tryS_lift. destruct (json_response_Ok b st) as [t ->]. done. }
  assert (Hb : ∀ (x : cpipe_status_t * string) c d,
    tryS false (let '(status, e) := x in lift (if bool_decide (status ≠ CPIPE_OK)
      then json_response (error_envelope c e) "400 Bad Request" else json_response d "200 OK"))).
  { intros [st e] c d. destruct (bool_decide _); apply Hj. }
  split_and!.
  - apply catch_response; [|intros e s'; apply Hr].
    apply tryS_bind; [auto with tries|]. intros d. apply tryS_bind; [auto with tries|]. intros x. apply Hb.
  - apply catch_response; [|intros e s'; apply Hr].
    apply tryS_bind; [auto with tries|]. intros d. apply tryS_bind; [auto with tries|]. intros x. apply Hb.
  - assert (Hn : ∀ e s, (nack client e s).1 = Ok tt).
    { intros e s0. unfold nack. by destruct (send_json_Ok client Ack
        (json_object [("ok", json_bool false); ("error", json_string e)]) s0) as [s' ->]. }
    intros Hc. destruct op; [|apply Hn]. unfold ws_message. destruct (decode_frame_total message) as [o Ho].
    rewrite (sr_bind_Ok _ _ _ o s) by (by unfold lift; rewrite Ho).
    destruct o as [[[] ? ? data]|]; try apply Hn.
    set (body := document ← lift _; ws_control now client document).
    assert (Ht : tryS false body).
    { intros s0. pose proof (throws_only_parse (bytes_string data)) as Hp. unfold body, mbind, sr_bind, lift.
      destruct (parse_json (bytes_string data)) as [document| | |] eqn:Hd; try done.
      apply try_ws_control. by apply (Hc _ document Ho). }
    specialize (Ht s). unfold catchS. destruct (body s) as [[[]|?|e|] s']; simpl in *; try done.
    destruct e; try done; apply Hn.
Qed.

(** The session after an accepted PUT. *)
Definition replaced (s : Session) (pipeline : json) : Session :=
  with_last_emit (with_runs (with_pipeline s pipeline) 1 ∅) ∅.

(** PUT active accepts exactly the version 0.4 documents and is atomic.  A body
    that parses to an object of version "0.4" with nodes and edges becomes the
    active pipeline, the run records and the thumbnail times are reset, clients
    and subscriptions stay, and a following GET active returns the very response
    of the PUT; for every other body the answer is 400 and the session is
    unchanged. *)
Theorem put_active_exact (s : Session) (chunks : list string) :
  match (document ← parse_json (body_of chunks); good ← is_pipeline_v04 document; Ok (document, good)) with
  | Ok (document, true) => ∃ text,
      put_active chunks s = (Ok (mkResponse "200 OK" "application/json" text), replaced s document) ∧
      get_active (replaced s document) = Ok (mkResponse "200 OK" "application/json" text)
  | _ => ∃ text, put_active chunks s = (Ok (mkResponse "400 Bad Request" "application/json" text), s)
  end.
Proof.
  assert (Hcatch : ∀ e (m : sr Session Response), e ≠ aborted → m s = (Thrown e, s) → ∃ text,
    catchS m (λ e, lift (json_response (error_envelope "bad_json" (what e)) "400 Bad Request")) s =
    (Ok (mkResponse "400 Bad Request" "application/json" text), s)).
  { intros e m He Hm. destruct (json_response_Ok (error_envelope "bad_json" (what e)) "400 Bad Request") as [t Ht].
    exists t. unfold catchS. rewrite Hm. unfold lift. destruct e; try done; by rewrite Ht. }
  pose proof (throws_only_parse (body_of chunks)) as Hp. unfold put_active.
  destruct (parse_json (body_of chunks)) as [document|?|e|] eqn:Ep; simpl in Hp |- *; try done.
  2: { by apply (Hcatch e). }
  pose proof (throws_only_v04 document) as Hv.
  destruct (is_pipeline_v04 document) as [[]|?|e|] eqn:Ev; simpl in Hv |- *; try done.
  - destruct (json_response_Ok (ok (json_object [("pipeline", document)])) "200 OK") as [t Ht]. exists t.
    split.
    + unfold catchS, mbind, sr_bind, lift, attempt, replace_active_pipeline, mbind, sr_bind, lift.
      rewrite Ev. simpl. by rewrite Ht.
    + unfold get_active. simpl. apply is_pipeline_v04_true in Ev as (Ho & _).
      by rewrite (is_null_object document Ho).
  - destruct (json_response_Ok (error_envelope "bad_pipeline" "expected pipeline-v0.4 JSON object")
      "400 Bad Request") as [t Ht]. exists t.
    unfold catchS, mbind, sr_bind, lift, attempt, replace_active_pipeline, mbind, sr_bind, lift.
    rewrite Ev. simpl. by rewrite Ht.
  - apply (Hcatch e); [done|]. unfold mbind, sr_bind, lift, attempt, replace_active_pipeline, mbind, sr_bind, lift.
    by rewrite Ev.
Qed.

(** A node whose id can be read. *)
Definition profilable (node : json) : Prop := ∃ id, value_or get_string node "id" "" = Ok id.

Lemma profile_nodes nodes acc :
  (Forall profilable nodes ∧ ∃ l, foldM (λ acc node, p ← profile_node node; Ok (acc ++ [p])) acc nodes = Ok l) ∨
  (¬ Forall profilable nodes ∧
    foldM (λ acc node, p ← profile_node node; Ok (acc ++ [p])) acc nodes = Thrown type_error).
Proof.
  revert acc. induction nodes as [|node nodes IH]; intros acc; [by left; eauto|]. simpl.
  destruct (value_or_string node "id" "") as [[id Hid]|Hid].
  - assert (∃ p, profile_node node = Ok p) as [p ->] by (unfold profile_node; rewrite Hid; simpl; eauto).
    rewrite Ok_bind. destruct (IH (acc ++ [p])) as [[Hn Hl]|[Hn Hl]]; [left|right]; split; try done.
    + constructor; [by exists id|done].
    + by intros [_ ?]%Forall_cons.
  - assert (profile_node node = Thrown type_error) as -> by (unfold profile_node; by rewrite Hid).
    right. split; [|done]. intros [[id' Hid'] _]%Forall_cons. by rewrite Hid in Hid'.
Qed.

(** The nodes of the active pipeline, none before one is set. *)
Definition active_nodes (s : Session) : list json :=
  match find_key (active_pipeline_ s) "nodes" with Some nodes => elements nodes | None => [] end.

Lemma profile_payload_exact run_id s :
  active_pipeline_ s = json_null ∨ is_pipeline_v04 (active_pipeline_ s) = Ok true →
  (Forall profilable (active_nodes s) ∧ ∃ p, profile_payload run_id s = Ok p) ∨
  (¬ Forall profilable (active_nodes s) ∧ profile_payload run_id s = Thrown type_error).
Proof.
  intros Hp. unfold profile_payload, active_nodes.
  destruct Hp as [Hp|(Ho & _ & [nodes Hn] & _)%is_pipeline_v04_true].
  - assert (Ho : is_object (active_pipeline_ s) = false).
    { rewrite Hp. destruct (is_object json_null) eqn:E; [|done].
      apply is_null_object in E. by rewrite is_object_null in E. }
    rewrite Ho, find_key_non_object by done. left. simpl. eauto.
  - unfold contains. rewrite Ho, Hn, (at_key_found _ _ _ Hn). simpl.
    destruct (profile_nodes (elements nodes) []) as [[Hf [l ->]]|[Hf ->]]; [left|right]; simpl; eauto.
Qed.

Lemma push_Ok now s : ∃ s', push_thumbnail_frames now s = (Ok tt, s') ∧
  active_pipeline_ s' = active_pipeline_ s.
Proof.
  assert (Hf : ∀ A (f : A → sr Session unit) l, (∀ x s, (f x s).1 = Ok tt) → ∀ s, (forS f l s).1 = Ok tt).
  { intros A f l Hf. induction l as [|x l IH]; intros s0; [done|]. simpl.
    specialize (Hf x s0). destruct (f x s0) as [r s1] eqn:E. simpl in Hf. subst r.
    rewrite (sr_bind_Ok _ _ _ _ _ E). apply IH. }
  assert (Hout : (push_thumbnail_frames now s).1 = Ok tt).
  { unfold push_thumbnail_frames. rewrite (sr_bind_Ok _ _ _ (thumbnail_groups s) s) by done.
    apply Hf. intros [key targets] s0. unfold push_group. destruct targets as [|first rest]; [done|].
    rewrite (sr_bind_Ok _ _ _ (thumbnail_last_emit_ s0) s0) by done. cbv zeta. destruct (negb _); [done|].
    rewrite (sr_bind_Ok _ _ _ tt (with_last_emit s0 (<[key := now]> (thumbnail_last_emit_ s0)))) by done.
    rewrite encode_placeholder_Ok. cbv zeta.
    rewrite (sr_bind_Ok (lift (Ok _)) _ _ _ _ eq_refl). destruct (bool_decide _); [done|]. by apply Hf. }
  exists (push_thumbnail_frames now s).2. split; [by rewrite <-Hout; destruct (push_thumbnail_frames now s)|].
  assert (Hk : keeps (λ s', active_pipeline_ s' = active_pipeline_ s) (push_thumbnail_frames now)).
  { unfold push_thumbnail_frames. apply keeps_bind; [apply keeps_gets|]. intros groups. apply keeps_for.
    intros [key targets] _. unfold push_group. keeps_steps; try by apply keeps_modify.
    apply keeps_for. intros. by apply keeps_modify. }
  by apply Hk.
Qed.

Lemma emit_run_exact now s :
  session_ok s →
  (Forall profilable (active_nodes s) →
    ∃ s', emit_completed_run now s = (Ok (run_json (next_run_id_ s) completed_run), s')) ∧
  (¬ Forall profilable (active_nodes s) → (emit_completed_run now s).1 = Thrown type_error).
Proof.
  intros Hs. set (id := next_run_id_ s). unfold emit_completed_run.
  destruct (create_run_record s) as [r s1] eqn:Ec.
  assert (r = Ok (run_json id completed_run) ∧ active_pipeline_ s1 = active_pipeline_ s) as [-> Ha1].
  { unfold create_run_record, mbind, sr_bind, gets, modify in Ec. simpl in Ec. by injection Ec as <- <-. }
  assert (Hid : (at_key (run_json id completed_run) "run_id" ≫= get_u64) = Ok id).
  { rewrite (at_key_found _ _ (json_uint id)).
    - apply get_u64_uint. destruct (ok_next s Hs). unfold is_u, id. lia.
    - unfold run_json. by rewrite find_key_mk by (repeat constructor; set_solver). }
  destruct (push_Ok now s1) as (s2 & Hpush & Ha2).
  assert (Ha : active_nodes s2 = active_nodes s) by (unfold active_nodes; by rewrite Ha2, Ha1).
  rewrite (sr_bind_Ok _ _ _ _ _ Ec), (sr_bind_Ok _ _ _ id s1) by (unfold lift; by rewrite Hid).
  rewrite (sr_bind_Ok _ _ _ _ _ Hpush), <-Ha.
  destruct (profile_payload_exact id s2) as [[Hf [p Hp]]|[Hf Hp]].
  { rewrite Ha2, Ha1. apply (ok_pipeline s Hs). }
  - split; [|done]. intros _. rewrite (sr_bind_Ok _ _ _ p s2) by (by rewrite Hp).
    destruct (broadcast_Ok Profile p s2) as [s3 H3]. rewrite (sr_bind_Ok _ _ _ _ _ H3).
    destruct (broadcast_Ok Log (run_log id) s3) as [s4 H4]. rewrite (sr_bind_Ok _ _ _ _ _ H4). by eexists.
  - split; [done|]. intros _. unfold mbind, sr_bind. by rewrite Hp.
Qed.

(** a run fails exactly on a node without a readable id.  On every session the
    server can be in, POST run returns 200 if every node of the active
    pipeline is an object whose id (if any) is a string; otherwise the
    [type_error] of the JSON library leaves the handler, which has no [try], although
    the PUT that set the pipeline was answered with 200. *)
Theorem post_run_exact (s : Session) (root node_schema pipeline_schema : string) (now : Z) :
  session_ok s →
  let run := handle_request root node_schema pipeline_schema now PostRun s in
  (Forall profilable (active_nodes s) →
    ∃ text, run.1 = Ok (mkResponse "200 OK" "application/json" text)) ∧
  (¬ Forall profilable (active_nodes s) → run.1 = Thrown type_error).
Proof.
  intros Hs. destruct (emit_run_exact now s Hs) as [Hok Hbad]. split; intros Hn.
  - destruct (Hok Hn) as [s' E]. unfold handle_request. rewrite (sr_bind_Ok _ _ _ _ _ E).
    destruct (json_response_Ok (ok (run_json (next_run_id_ s) completed_run)) "200 OK") as [t ->]. by exists t.
  - specialize (Hbad Hn). unfold handle_request, mbind, sr_bind.
    destruct (emit_completed_run now s) as [r s']. simpl in Hbad. by subst.
Qed.

End Dump.

(** ** Thumbnails, group by group *)

Section Groups.

(** An unordered map is walked in some order, each entry once. *)
Hypothesis subscription_order_perm : ∀ m, subscription_order m ≡ₚ map_to_list m.
Hypothesis group_order_perm : ∀ m, group_order m ≡ₚ map_to_list m.

Definition sub_key (t : Z * ThumbnailSubscription) : string :=
  thumbnail_key (sub_node_id t.2) (sub_port t.2).

(** The connected subscribers of a key, in the order of the walk. *)
Definition group_of (s : Session) (key : string) : list (Z * ThumbnailSubscription) :=
  filter (λ t, t.1 ∈ ws_clients_ s ∧ sub_key t = key) (subscription_order (thumbnail_subscriptions_ s)).

Definition connected (s : Session) : list (Z * ThumbnailSubscription) :=
  filter (λ t, t.1 ∈ ws_clients_ s) (subscription_order (thumbnail_subscriptions_ s)).

Definition all_targets (groups : gmap string (list (Z * ThumbnailSubscription))) :=
  concat (map_to_list groups).*2.

Lemma all_targets_insert groups key x :
  groups !! key = None → all_targets (<[key := x]> groups) ≡ₚ x ++ all_targets groups.
Proof. intros Hk. unfold all_targets. by rewrite map_to_list_insert. Qed.

Lemma all_targets_push groups key t :
  all_targets (<[key := default [] (groups !! key) ++ [t]]> groups) ≡ₚ all_targets groups ++ [t].
Proof.
  destruct (groups !! key) as [l|] eqn:Hk; simpl.
  - rewrite <-(insert_delete_id groups key l Hk) at 2. rewrite <-insert_delete_eq.
    rewrite !all_targets_insert by apply lookup_delete_eq.
    rewrite <-!app_assoc. f_equiv. apply Permutation_app_comm.
  - rewrite all_targets_insert by done. apply Permutation_app_comm.
Qed.

(** The groups partition the connected subscribers by key. *)
Lemma thumbnail_groups_spec s :
  all_targets (thumbnail_groups s) ≡ₚ connected s ∧
  ∀ key, default [] (thumbnail_groups s !! key) = group_of s key ∧ thumbnail_groups s !! key ≠ Some [].
Proof.
  unfold thumbnail_groups, connected, group_of. set (f := λ groups t, _).
  induction (subscription_order (thumbnail_subscriptions_ s)) as [|[c sub] l IH] using rev_ind.
  { split; [done|]. intros key. simpl. by rewrite lookup_empty. }
  rewrite foldl_app, filter_app. set (groups := foldl f ∅ l) in *. destruct IH as [IHp IHk].
  cbn [foldl]. unfold f at 1 2 3. rewrite filter_cons, filter_nil. case_decide as Hc; simpl.
  - rewrite decide_True by done. change (thumbnail_key _ _) with (sub_key (c, sub)).
    split; [by rewrite all_targets_push, IHp|]. intros key.
    rewrite filter_app, filter_cons, filter_nil. destruct (IHk key) as [Hg Hn].
    destruct (decide (key = sub_key (c, sub))) as [->|Hne].
    + rewrite decide_True by done. rewrite lookup_insert_eq. cbn [default from_option].
      split; [by rewrite <-Hg|]. intros [= H]. by destruct (default [] _).
    + rewrite decide_False by naive_solver. rewrite app_nil_r, lookup_insert_ne; [done|].
      intros E. by apply Hne.
  - rewrite decide_False by done. rewrite app_nil_r. split; [done|]. intros key.
    rewrite filter_app, filter_cons, filter_nil, decide_False by naive_solver. rewrite app_nil_r. apply IHk.
Qed.

(** The rate and the size of a group: the largest wished for, two per second for
    more than four subscribers. *)
Definition group_max (key : ThumbnailSubscription → Z) (g : list (Z * ThumbnailSubscription)) : Z :=
  foldr Z.max 0 ((key ∘ snd) <$> g).
Definition group_fps (g : list (Z * ThumbnailSubscription)) : Z :=
  if decide (4 < length g)%nat then 2 else group_max sub_fps g.

Definition due (now : Z) (last : option Z) (g : list (Z * ThumbnailSubscription)) : Prop :=
  match last with Some last => interval (group_fps g) ≤ now - last | None => True end.
#[local] Instance due_dec now last g : Decision (due now last g).
Proof. destruct last; simpl; apply _. Defined.

Definition group_thumbnail (g : list (Z * ThumbnailSubscription)) : bytes :=
  let size := clamp (group_max sub_max_size g) 1 256 in
  default [] (webp (gradient size) size size (size * 4)).

Definition group_frames (now : Z) (last : option Z) (g : list (Z * ThumbnailSubscription)) : list (Z * bytes) :=
  if decide (due now last g ∧ group_thumbnail g ≠ [])
  then (λ t, (t.1, encode_frame Thumbnail 0 0 (group_thumbnail g))) <$> g else [].

Lemma max_key_max {A} (key : A → Z) x l :
  Forall (λ y, 0 ≤ key y) (x :: l) → max_key key x l = foldr Z.max 0 (key <$> x :: l).
Proof.
  unfold max_key. revert x. induction l as [|y l IH]; intros x Hx.
  { apply Forall_cons in Hx as [Hx _]. simpl. lia. }
  apply Forall_cons in Hx as [Hx Hl]. pose proof Hl as [Hy Hl']%Forall_cons.
  simpl. destruct (Z.ltb_spec (key x) (key y)); rewrite IH by (by constructor); simpl; lia.
Qed.

Lemma send_all frame g s :
  forS (λ t : Z * ThumbnailSubscription, send t.1 frame) g s =
  (Ok tt, with_sent s (sent_ s ++ ((λ t, (t.1, frame)) <$> g))).
Proof.
  revert s. induction g as [|t g IH]; intros s; [simpl; rewrite app_nil_r; by destruct s|]. simpl.
  rewrite (sr_bind_Ok _ _ _ tt (with_sent s (sent_ s ++ [(t.1, frame)]))) by done.
  rewrite IH. simpl. by rewrite <-app_assoc.
Qed.

(** One group. *)
Lemma push_group_spec now key g s :
  g ≠ [] → Forall (λ t, 0 ≤ sub_fps t.2 ∧ 0 ≤ sub_max_size t.2) g →
  push_group now key g s = (Ok tt,
    with_sent (with_last_emit s (if decide (due now (thumbnail_last_emit_ s !! key) g)
      then <[key := now]> (thumbnail_last_emit_ s) else thumbnail_last_emit_ s))
    (sent_ s ++ group_frames now (thumbnail_last_emit_ s !! key) g)).
Proof.
  intros Hg Hpos. destruct g as [|first rest]; [done|]. unfold push_group.
  rewrite (sr_bind_Ok _ _ _ (thumbnail_last_emit_ s) s) by done.
  assert (Hfps : effective_fps first rest = group_fps (first :: rest)).
  { unfold effective_fps, group_fps, len. destruct (Z.ltb_spec 4 (Z.of_nat (length (first :: rest))));
      [by rewrite decide_True by lia|rewrite decide_False by lia].
    rewrite max_key_max; [done|]. eapply Forall_impl; [exact Hpos|]. naive_solver. }
  assert (Hsize : max_key (λ t, sub_max_size t.2) first rest = group_max sub_max_size (first :: rest)).
  { rewrite max_key_max; [done|]. eapply Forall_impl; [exact Hpos|]. naive_solver. }
  set (g := first :: rest) in *. rewrite Hfps, Hsize. unfold group_frames. cbv zeta.
  assert (Hdue : match thumbnail_last_emit_ s !! key with
    | Some last => negb (now - last <? interval (group_fps g)) | None => true end =
    bool_decide (due now (thumbnail_last_emit_ s !! key) g)).
  { destruct (thumbnail_last_emit_ s !! key) as [last|]; [|done]. simpl.
    rewrite <-Z.leb_antisym. by destruct (Z.leb_spec (interval (group_fps g)) (now - last));
      [rewrite bool_decide_eq_true_2|rewrite bool_decide_eq_false_2 by lia]. }
  rewrite Hdue. clearbody g. case_bool_decide as Hd; cbn [negb].
  2: { rewrite !decide_False by naive_solver. rewrite app_nil_r. by destruct s. }
  rewrite (decide_True (P := due _ _ _)) by done.
  rewrite (sr_bind_Ok _ _ _ tt (with_last_emit s (<[key := now]> (thumbnail_last_emit_ s)))) by done.
  rewrite encode_placeholder_Ok. cbv zeta. rewrite (sr_bind_Ok (lift (Ok _)) _ _ _ _ eq_refl).
  fold (group_thumbnail g). case_bool_decide as Ht.
  - rewrite decide_False by naive_solver. rewrite app_nil_r. by destruct s.
  - rewrite decide_True by done. by rewrite send_all.
Qed.

(** All groups: a group does not touch the time of another. *)
Lemma push_groups_spec now gs s :
  NoDup gs.*1 → Forall (λ kg, kg.2 ≠ [] ∧ Forall (λ t, 0 ≤ sub_fps t.2 ∧ 0 ≤ sub_max_size t.2) kg.2) gs →
  ∃ s', forS (λ '(key, g), push_group now key g) gs s = (Ok tt, s') ∧
    sent_ s' = sent_ s ++ concat ((λ kg, group_frames now (thumbnail_last_emit_ s !! kg.1) kg.2) <$> gs) ∧
    (∀ key g, (key, g) ∈ gs → thumbnail_last_emit_ s' !! key =
      if decide (due now (thumbnail_last_emit_ s !! key) g) then Some now
      else thumbnail_last_emit_ s !! key) ∧
    (∀ key, key ∉ gs.*1 → thumbnail_last_emit_ s' !! key = thumbnail_last_emit_ s !! key).
Proof.
  intros Hnd Hgs. revert s Hnd. induction Hgs as [|[key g] gs [Hg Hpos] Hgs IH]; intros s Hnd.
  { exists s. split_and!; [done|by rewrite app_nil_r|set_solver|done]. }
  apply NoDup_cons in Hnd as [Hkey Hnd]. cbn [forS].
  rewrite (sr_bind_Ok _ _ _ _ _ (push_group_spec now key g s Hg Hpos)).
  set (le := if decide _ then _ else _). set (s1 := with_sent (with_last_emit s le) _).
  assert (Hle : ∀ k, k ≠ key → thumbnail_last_emit_ s1 !! k = thumbnail_last_emit_ s !! k).
  { intros k Hk. simpl. unfold le. case_decide; [by rewrite lookup_insert_ne|done]. }
  assert (Hother : ∀ k g', (k, g') ∈ gs → k ≠ key).
  { intros k g' Hin ->. apply Hkey. apply list_elem_of_fmap. by exists (key, g'). }
  destruct (IH s1 Hnd) as (s' & Hrun & Hsent & Hin & Hout). exists s'. split_and!; [done|..].
  - rewrite Hsent. simpl. rewrite <-app_assoc. do 3 f_equal.
    apply list_fmap_ext. intros i [k g'] Hi. apply list_elem_of_lookup_2 in Hi. simpl.
    f_equal. apply Hle. by eapply Hother.
  - intros k g' [[= -> ->]|Hg']%elem_of_cons.
    + rewrite Hout by done. simpl. unfold le. case_decide; [by rewrite lookup_insert_eq|done].
    + rewrite (Hin k g' Hg'), Hle; [done|]. by eapply Hother.
  - intros k Hk. rewrite fmap_cons in Hk. apply not_elem_of_cons in Hk as [Hne Hk].
    rewrite Hout by done. by apply Hle.
Qed.

Lemma connected_NoDup s : NoDup (connected s).*1.
Proof.
  unfold connected. eapply sublist_NoDup; [|apply fmap_sublist, sublist_filter].
  rewrite subscription_order_perm. apply NoDup_fst_map_to_list.
Qed.

(** Frames are sent to targets of groups only, each target at most once. *)
Lemma group_frames_targets now le gs :
  (concat ((λ kg : string * _, group_frames now (le kg.1) kg.2) <$> gs)).*1 `sublist_of` (concat gs.*2).*1.
Proof.
  induction gs as [|[k g] gs IH]; [done|]. simpl. rewrite !fmap_app. apply sublist_app; [|done].
  unfold group_frames. case_decide; [|apply sublist_nil_l]. by rewrite <-list_fmap_compose.
Qed.

Lemma group_in_order s key g :
  (key, g) ∈ group_order (thumbnail_groups s) ↔ g = group_of s key ∧ g ≠ [].
Proof.
  rewrite group_order_perm, elem_of_map_to_list. destruct (thumbnail_groups_spec s) as [_ Hs].
  destruct (Hs key) as [<- Hne]. destruct (thumbnail_groups s !! key) as [l|]; simpl; naive_solver.
Qed.

Lemma interval_bound fps : 1 ≤ fps ≤ 60 → 16 * 1000000 ≤ interval fps.
Proof.
  intros. unfold interval. assert (16 ≤ 1000 / fps); [|lia]. apply Z.div_le_lower_bound; lia.
Qed.

Lemma group_max_bound key g lo hi :
  0 ≤ lo → g ≠ [] → Forall (λ t : Z * ThumbnailSubscription, lo ≤ key t.2 ≤ hi) g →
  lo ≤ group_max key g ≤ hi.
Proof.
  intros Hlo Hg Hf. unfold group_max, compose. destruct Hf as [|t g [Ht1 Ht2] Hf]; [done|].
  assert (foldr Z.max 0 ((λ t, key t.2) <$> g) ≤ hi).
  { induction Hf as [|t' g' Ht' Hf IH]; [simpl; lia|]. rewrite fmap_cons. cbn [foldr].
    specialize (IH ltac:(done)). lia. }
  rewrite fmap_cons. cbn [foldr]. lia.
Qed.

(** The members of a group, and the range of their wishes. *)
Lemma group_of_member s key c sub :
  (c, sub) ∈ group_of s key ↔
  thumbnail_subscriptions_ s !! c = Some sub ∧ c ∈ ws_clients_ s ∧ sub_key (c, sub) = key.
Proof.
  unfold group_of. rewrite list_elem_of_filter, subscription_order_perm, elem_of_map_to_list. naive_solver.
Qed.

Lemma group_of_range s key :
  session_ok s → Forall (λ t, 1 ≤ sub_max_size t.2 ≤ 256 ∧ 1 ≤ sub_fps t.2 ≤ 60) (group_of s key).
Proof.
  intros [_ _ _ Hsubs]. apply Forall_forall. intros [c sub] (Hc & _)%group_of_member.
  by destruct (Hsubs c sub Hc).
Qed.

Lemma group_frames_member now last g c f :
  (c, f) ∈ group_frames now last g ↔
  (∃ sub, (c, sub) ∈ g) ∧ due now last g ∧ group_thumbnail g ≠ [] ∧
  f = encode_frame Thumbnail 0 0 (group_thumbnail g).
Proof.
  unfold group_frames. case_decide as Hd; [|set_solver]. rewrite list_elem_of_fmap. split.
  - intros ([c' sub] & [= -> ->] & Hin). split; [by exists sub|]. by destruct Hd.
  - intros ([sub Hin] & _ & _ & ->). by exists (c, sub).
Qed.

Lemma elem_of_concat_fmap {A B} (F : A → list B) l x : x ∈ concat (F <$> l) ↔ ∃ y, y ∈ l ∧ x ∈ F y.
Proof. induction l as [|y l IH]; simpl; [set_solver|]. rewrite elem_of_app, IH. set_solver. Qed.

(** The group of a subscriber is among those walked. *)
Lemma subscriber_group s c sub :
  session_ok s → thumbnail_subscriptions_ s !! c = Some sub →
  (c, sub) ∈ group_of s (sub_key (c, sub)) ∧
  (sub_key (c, sub), group_of s (sub_key (c, sub))) ∈ group_order (thumbnail_groups s).
Proof.
  intros Hs Hc. assert (Hin : (c, sub) ∈ group_of s (sub_key (c, sub))).
  { apply group_of_member. split_and!; [done| |done]. by destruct (ok_subs s Hs c sub Hc). }
  split; [done|]. apply group_in_order. split; [done|]. intros E. rewrite E in Hin. by apply elem_of_nil in Hin.
Qed.

Lemma due_bounds now last key s :
  session_ok s → group_of s key ≠ [] → due now (Some last) (group_of s key) →
  16 * 1000000 ≤ now - last ∧ ((4 < length (group_of s key))%nat → 500 * 1000000 ≤ now - last).
Proof.
  intros Hs Hne Hd. simpl in Hd. pose proof (group_of_range s key Hs) as Hr.
  assert (Hf : 1 ≤ group_fps (group_of s key) ≤ 60).
  { unfold group_fps. case_decide; [lia|]. apply group_max_bound; [lia|done|].
    eapply Forall_impl; [exact Hr|]. naive_solver. }
  apply interval_bound in Hf. split; [lia|]. intros Hl. unfold group_fps in Hd.
  rewrite decide_True in Hd by done. change (interval 2) with (500 * 1000000) in Hd. lia.
Qed.

(** thumbnails are delivered to exactly the due subscribers, one each.  A push
    sends every subscriber of a node and port the same thumbnail, of the largest
    size wished for by the subscribers of that port, if that port is due, and sends
    nothing else; a port is due at most every 16 ms, and every 500 ms when it has
    more than four subscribers, whatever rates they wish for; and the time of the
    push is remembered for each port served. *)
Theorem push_thumbnail_exact (now : Z) (s : Session) :
  session_ok s → ∃ s' frames,
  push_thumbnail_frames now s = (Ok tt, s') ∧ sent_ s' = sent_ s ++ frames ∧ NoDup frames.*1 ∧
  (∀ c f, (c, f) ∈ frames ↔ ∃ sub, thumbnail_subscriptions_ s !! c = Some sub ∧
    let g := group_of s (sub_key (c, sub)) in
    due now (thumbnail_last_emit_ s !! sub_key (c, sub)) g ∧ group_thumbnail g ≠ [] ∧
    f = encode_frame Thumbnail 0 0 (group_thumbnail g)) ∧
  (∀ c f sub, (c, f) ∈ frames → thumbnail_subscriptions_ s !! c = Some sub →
    let g := group_of s (sub_key (c, sub)) in
    thumbnail_last_emit_ s' !! sub_key (c, sub) = Some now ∧
    ∀ last, thumbnail_last_emit_ s !! sub_key (c, sub) = Some last →
      16 * 1000000 ≤ now - last ∧ ((4 < length g)%nat → 500 * 1000000 ≤ now - last)).
Proof.
  intros Hs. set (gs := group_order (thumbnail_groups s)).
  assert (Hnd : NoDup gs.*1) by (unfold gs; rewrite group_order_perm; apply NoDup_fst_map_to_list).
  assert (Hgs : Forall (λ kg, kg.2 ≠ [] ∧ Forall (λ t, 0 ≤ sub_fps t.2 ∧ 0 ≤ sub_max_size t.2) kg.2) gs).
  { apply Forall_forall. intros [k g] [-> Hne]%group_in_order. split; [done|].
    eapply Forall_impl; [by apply group_of_range|]. simpl. lia. }
  destruct (push_groups_spec now gs s Hnd Hgs) as (s' & Hrun & Hsent & Hin & _).
  set (frames := concat _) in Hsent. exists s', frames.
  assert (Hmem : ∀ c f, (c, f) ∈ frames ↔ ∃ sub, thumbnail_subscriptions_ s !! c = Some sub ∧
    let g := group_of s (sub_key (c, sub)) in
    due now (thumbnail_last_emit_ s !! sub_key (c, sub)) g ∧ group_thumbnail g ≠ [] ∧
    f = encode_frame Thumbnail 0 0 (group_thumbnail g)).
  { intros c f. unfold frames. rewrite elem_of_concat_fmap. split.
    - intros ([k g] & [-> _]%group_in_order & ([sub Hm] & Hd & Ht & ->)%group_frames_member).
      apply group_of_member in Hm as (Hc & _ & <-). by exists sub.
    - intros (sub & Hc & Hd & Ht & ->). destruct (subscriber_group s c sub Hs Hc) as [Hm Hg].
      eexists; split; [exact Hg|]. apply group_frames_member. eauto. }
  split_and!; [done|done| |done|].
  - eapply sublist_NoDup; [|apply (group_frames_targets now (λ k, thumbnail_last_emit_ s !! k))].
    assert (concat gs.*2 ≡ₚ connected s) as ->; [|apply connected_NoDup].
    unfold gs. rewrite group_order_perm. apply thumbnail_groups_spec.
  - intros c f sub (sub' & Hc' & Hd & _)%Hmem Hc. rewrite Hc in Hc'. injection Hc' as <-.
    destruct (subscriber_group s c sub Hs Hc) as [Hm Hg]. split.
    + rewrite (Hin _ _ Hg). by rewrite decide_True.
    + intros last Hl. rewrite Hl in Hd. apply due_bounds; [done| |done].
      intros E. rewrite E in Hm. by apply elem_of_nil in Hm.
Qed.

End Groups.

End Server.

(** ** Witnesses *)

Module ServerExample.

Import Json.Tree.

Definition pipeline_doc (nodes : list tree) : tree :=
  JObject [("edges", JArray []); ("nodes", JArray nodes); ("version", JString "0.4")].

Definition tone_node : tree := JObject [("id", JString "tone"); ("params", JObject [("ev", JInt 0)])].

Definition update_doc : tree :=
  JObject [("key", JString "ev"); ("node_id", JString "tone"); ("type", JString "node.update_param");
    ("value", JInt 2)].

Definition docs (text : string) : option tree :=
  if decide (text = "good") then Some (pipeline_doc [tone_node])
  else if decide (text = "bad") then Some (pipeline_doc [JInt 1])
  else if decide (text = "update") then Some update_doc
  else if decide (text = "subscribe") then
    Some (JObject [("fps", JUint 30); ("node_id", JString "tone"); ("port", JString "out");
      ("type", JString "node.subscribe_thumbnail")])
  else None.

#[local] Instance example_lib : JsonLib := lib docs.
#[local] Instance example_write : JsonWrite example_lib := write docs.

Definition update_json : json := update_doc.
Definition pipeline_json (nodes : list tree) : json := pipeline_doc nodes.

Definition what (e : exn) : string := "error".
Definition webp (rgba : bytes) (width height stride : Z) : option bytes := Some [82; 73; 70; 70].

Definition step (ev : Event) (s : Session) : Session :=
  (handle_event what webp example_fs map_to_list map_to_list "/srv/www" "{}" "{}" ev s).2.
Definition control_message (text : string) : bytes := encode_frame Control 0 0 (string_bytes text).

Definition put_good : Session := step (EvRequest 0 (PutActive ["go"; "od"])) new_session.
Definition opened : Session := step (EvOpen 7) put_good.
Definition subscribed : Session := step (EvMessage 5 7 BINARY (control_message "subscribe")) opened.

Lemma dump_total (j : json) : ∃ text, json_dump j = Ok text.
Proof. by eexists. Defined.

Lemma replaced_ok (p : json) : is_pipeline_v04 p = Ok true → session_ok (replaced new_session p).
Proof.
  intros Hp. split; simpl; [by right|lia| |apply map_Forall_empty]. intros id.
  rewrite lookup_empty. by rewrite decide_False by lia.
Defined.

Lemma steps_subscribed :
  nsteps (session_step what webp example_fs map_to_list map_to_list) 3 new_session subscribed.
Proof.
  apply nsteps_l with put_good; [by apply step_event|].
  apply nsteps_l with opened; [by apply step_event|].
  apply nsteps_once. apply step_event. intros now client op message [= <- <- <- <-].
  vm_compute. reflexivity.
Defined.

Lemma session_invariant_witness : session_ok subscribed.
Proof. apply (session_invariant what webp example_fs map_to_list map_to_list 3 _ steps_subscribed). lia. Defined.

(** The subscription and the acknowledgement of the example. *)
Example subscribed_client :
  thumbnail_subscriptions_ subscribed !! 7 = Some (mkSub "tone" "out" 256 30) ∧
  (fst <$> sent_ subscribed) = [7].
Proof. vm_compute. split; reflexivity. Qed.


(** The session of a good pipeline and the one of a node that is a number. *)
Definition good : Session := replaced new_session (pipeline_json [tone_node]).
Definition bad : Session := replaced new_session (pipeline_json [JInt 1]).

Lemma param_delta_exact_witness :
  ∃ nodes' node' params,
    find_key (active_pipeline_ (apply_param_delta update_json good).2) "nodes" = Some nodes' ∧
    find_key node' "params" = Some params ∧ node' ∈ elements nodes' ∧
    find_key params "ev" = Some (JInt 2).
Proof.
  destruct (param_delta_exact what update_json good (apply_param_delta update_json good).2 (Ok tt)
    (replaced_ok (pipeline_json [tone_node]) eq_refl) eq_refl)
    as (id & key & value & nodes & nodes' & i & node & node' & params & Hid & Hkey & Hv & _ & _ & _ &
      Hn' & Hi & Helem & _ & _ & _ & Hp & Hpk & _).
  exists nodes', node', params. split; [exact Hn'|]. split; [exact Hp|]. split.
  - rewrite Helem. apply list_elem_of_lookup_2 with i. apply list_lookup_insert_eq.
    by apply lookup_lt_Some in Hi.
  - simpl in Hkey, Hv. injection Hkey as <-. injection Hv as <-. exact Hpk.
Defined.

Lemma client_input_contained_witness :
  ∃ r, (put_active what ["{"] good).1 = Ok r.
Proof. exact (proj1 (client_input_contained what dump_total good ["{"] 0 7 BINARY [])). Defined.

Lemma put_active_exact_witness :
  ∃ text, put_active what ["go"; "od"] bad = (Ok (mkResponse "200 OK" "application/json" text), replaced bad (pipeline_json [tone_node])) ∧
    get_active (replaced bad (pipeline_json [tone_node])) = Ok (mkResponse "200 OK" "application/json" text).
Proof. exact (put_active_exact what dump_total bad ["go"; "od"]). Defined.

Lemma post_run_exact_witness :
  (∃ text, (handle_request what webp example_fs map_to_list map_to_list "" "" "" 0 PostRun good).1 =
    Ok (mkResponse "200 OK" "application/json" text)) ∧
  (handle_request what webp example_fs map_to_list map_to_list "" "" "" 0 PostRun bad).1 = Thrown type_error ∧
  ∃ text, put_active what ["bad"] new_session = (Ok (mkResponse "200 OK" "application/json" text), bad).
Proof.
  split_and!.
  - apply (post_run_exact what webp example_fs map_to_list map_to_list dump_total good "" "" "" 0
      (replaced_ok (pipeline_json [tone_node]) eq_refl)).
    constructor; [by eexists|constructor].
  - apply (post_run_exact what webp example_fs map_to_list map_to_list dump_total bad "" "" "" 0
      (replaced_ok (pipeline_json [JInt 1]) eq_refl)).
    intros [[id Hid] _]%Forall_cons. discriminate Hid.
  - eexists. reflexivity.
Defined.

Lemma push_thumbnail_exact_witness :
  ∃ s' frames, push_thumbnail_frames webp map_to_list map_to_list 9 subscribed = (Ok tt, s') ∧
    sent_ s' = sent_ subscribed ++ frames ∧ NoDup frames.*1.
Proof.
  assert (Hok : session_ok subscribed).
  { apply (session_ok_reachable what webp example_fs map_to_list map_to_list 3 _ steps_subscribed). lia. }
  destruct (push_thumbnail_exact webp map_to_list map_to_list (λ m, reflexivity _) (λ m, reflexivity _) 9
    subscribed Hok) as (s' & frames & Hrun & Hsent & Hnd & _).
  exact (ex_intro _ s' (ex_intro _ frames (conj Hrun (conj Hsent Hnd)))).
Defined.

End ServerExample.
