(* ===== verification/EditorThreads.v ===== *)
(** * The threads of the editor server

    Models the concurrent part of src/cpipe/server/EditorServer.cpp.

    [Debounce]: [schedule_param_rerun], [param_debounce_loop] and
    [stop_param_debounce].  The loop holds its mutex except while it waits and
    while it defers the run to the I/O thread; a thread that needs the mutex can
    act only there, so the program points are the two waits, the window after
    [lock.unlock()], and the exit.  Condition variables wake a waiter whose
    predicate holds; a timed wait also ends when the time has come.

    [Handshake]: [start] with its I/O thread up to the return of [start], and the
    join in [stop].

    The theorems: a parameter update is followed by exactly one run, not before
    200 ms of quiet, and never lost; [stop] ends the loop; [start] returns with the
    right status, except that it deadlocks when it times out. *)

From Stdlib Require Import ZArith Lia.
From stdpp Require Import prelude strings relations.
From S2P Require Import Prelude.

Local Open Scope Z_scope.

(** [P] holds now, or the thread under study can step whatever the environment
    does before, and after each such step [P] holds eventually. *)
Inductive eventually {S} (env : S → S → Prop) (step : S → option S) (P : S → Prop) (s : S) : Prop :=
| eventually_now : P s → eventually env step P s
| eventually_step :
    (∀ s1, rtc env s s1 → is_Some (step s1)) →
    (∀ s1 s2, rtc env s s1 → step s1 = Some s2 → eventually env step P s2) →
    eventually env step P s.

Lemma eventually_weaken {S} (env : S → S → Prop) step (P Q : S → Prop) s :
  eventually env step P s → (∀ s, P s → Q s) → eventually env step Q s.
Proof. intros H HPQ. induction H; [apply eventually_now|apply eventually_step]; auto. Qed.

Module Debounce.

Inductive Pc : Type := AtWait | AtWaitUntil (deadline : Z) | AtDefer | Exited.

#[export] Instance Pc_eq_dec : EqDecision Pc.
Proof. solve_decision. Defined.

(** The members of the class the loop uses, its program point, the clock, the
    callbacks handed to the I/O loop that have not run; and, for the statements,
    the number of schedules, of runs decided and of callbacks handed over so far
    and the time of the last schedule. *)
Record DebounceState : Type := mkDebounce {
  stop_ : bool;
  pending_ : bool;
  deadline_ : Z;
  pc : Pc;
  loop_ : bool;
  clock : Z;
  deferred : nat;
  schedules : nat;
  fired : nat;
  handed : nat;
  last_schedule : Z
}.

Definition debounce_ns : Z := 200 * 1000000.

(** From the head of the inner loop to the next point where the mutex is free. *)
Definition inner_loop (s : DebounceState) : DebounceState :=
  let pc' := if negb (stop_ s) && pending_ s then AtWaitUntil (deadline_ s)
             else if stop_ s then Exited else AtWait in
  mkDebounce (stop_ s) (pending_ s) (deadline_ s) pc' (loop_ s) (clock s) (deferred s)
    (schedules s) (fired s) (handed s) (last_schedule s).

(** [loop->defer([this] { emit_completed_run(); })]. *)
Definition defer_run (s : DebounceState) : DebounceState :=
  mkDebounce (stop_ s) (pending_ s) (deadline_ s) (pc s) (loop_ s) (clock s) (S (deferred s))
    (schedules s) (fired s) (S (handed s)) (last_schedule s).

(** The next step of the thread that runs [param_debounce_loop]; [None] while it is
    blocked or after it returned. *)
Definition param_debounce_loop (s : DebounceState) : option DebounceState :=
  match pc s with
  | AtWait =>
      if stop_ s || pending_ s then Some (inner_loop s) else None
  | AtWaitUntil d =>
      if stop_ s || negb (deadline_ s =? d) then Some (inner_loop s)
      else if d <=? clock s then
        Some (mkDebounce (stop_ s) false (deadline_ s) AtDefer (loop_ s) (clock s) (deferred s)
          (schedules s) (S (fired s)) (handed s) (last_schedule s))
      else None
  | AtDefer => Some (inner_loop (if loop_ s then defer_run s else s))
  | Exited => None
  end.

Definition schedule_param_rerun (s : DebounceState) : DebounceState :=
  mkDebounce (stop_ s) true (clock s + debounce_ns) (pc s) (loop_ s) (clock s) (deferred s)
    (S (schedules s)) (fired s) (handed s) (clock s).

(** [stop_param_debounce] up to the join. *)
Definition stop_param_debounce (s : DebounceState) : DebounceState :=
  mkDebounce true false (deadline_ s) (pc s) (loop_ s) (clock s) (deferred s)
    (schedules s) (fired s) (handed s) (last_schedule s).

Definition with_clock (s : DebounceState) (t : Z) : DebounceState :=
  mkDebounce (stop_ s) (pending_ s) (deadline_ s) (pc s) (loop_ s) t (deferred s)
    (schedules s) (fired s) (handed s) (last_schedule s).
Definition with_deferred (s : DebounceState) (n : nat) : DebounceState :=
  mkDebounce (stop_ s) (pending_ s) (deadline_ s) (pc s) (loop_ s) (clock s) n
    (schedules s) (fired s) (handed s) (last_schedule s).
Definition loop_down (s : DebounceState) : DebounceState :=
  mkDebounce (stop_ s) (pending_ s) (deadline_ s) (pc s) false (clock s) (deferred s)
    (schedules s) (fired s) (handed s) (last_schedule s).

(** The thread as [start] creates it. *)
Definition started (now : Z) : DebounceState := mkDebounce false false 0 AtWait true now 0 0 0 0 0.

(** The I/O thread runs a deferred callback, and time passes. *)
Inductive quiet_env : DebounceState → DebounceState → Prop :=
| env_tick s t : clock s ≤ t → quiet_env s (with_clock s t)
| env_run_deferred s n : deferred s = S n → quiet_env s (with_deferred s n).

(** What the other threads do. *)
Inductive other_step : DebounceState → DebounceState → Prop :=
| other_quiet s s' : quiet_env s s' → other_step s s'
| other_schedule s : other_step s (schedule_param_rerun s)
| other_stop s : other_step s (stop_param_debounce s)
| other_loop_down s : other_step s (loop_down s).

Definition system_step (s s' : DebounceState) : Prop := param_debounce_loop s = Some s' ∨ other_step s s'.

(** ** The invariant *)

Record inv (s : DebounceState) : Prop := {
  (** Every run was asked for, and a pending request has not been served. *)
  inv_count : (fired s + (if pending_ s then 1 else 0) ≤ schedules s)%nat;
  inv_deadline : (0 < schedules s)%nat → deadline_ s = last_schedule s + debounce_ns;
  (** The timed wait is entered with a request, which only [stop] withdraws. *)
  inv_wait d : pc s = AtWaitUntil d → stop_ s = false → pending_ s = true;
  inv_exited : pc s = Exited → stop_ s = true;
  (** As long as there is a loop, every run decided is handed to it. *)
  inv_handed : loop_ s = true → fired s = (handed s + if decide (pc s = AtDefer) then 1 else 0)%nat
}.

Lemma inv_started now : inv (started now).
Proof. split; simpl; (lia || done). Qed.

Lemma inv_thread s s' : inv s → param_debounce_loop s = Some s' → inv s'.
Proof.
  intros [Hc Hd Hw He Hh] Hstep. unfold param_debounce_loop, inner_loop, defer_run in Hstep.
  destruct s as [[] [] dl p [] ck df sc fi hd ls]; destruct p as [|d| |]; simpl in *; try discriminate;
    try (destruct (dl =? d)); simpl in *; try (destruct (d <=? ck)); simplify_eq;
    split; simpl in *; try done; lia || naive_solver lia.
Qed.

Lemma inv_other s s' : inv s → other_step s s' → inv s'.
Proof.
  intros Hi Hst. revert Hi. destruct Hst as [s0 s1 [? t Ht|? n Hn]|s0|s0|s0]; intros [Hc Hd Hw He Hh];
    split; simpl; try done; destruct (pending_ s0); lia.
Qed.

Lemma inv_reachable now s : rtc system_step (started now) s → inv s.
Proof.
  revert s. apply rtc_ind_r; [apply inv_started|]. intros y z _ [Hs|Hs] Hy.
  - by eapply inv_thread.
  - by eapply inv_other.
Qed.

(** ** Theorems *)

(** C33: runs are debounced.  In every interleaving of updates, the loop, the clock,
    the I/O thread and [stop]: the loop decides on a run only when 200 ms have
    passed since the last update, and never decides on more runs than there were
    updates; and whenever the loop is blocked without a request, every update so
    far has been served or withdrawn by [stop], so none is lost. *)
Theorem debounce_safe (now : Z) (s : DebounceState) :
  rtc system_step (started now) s →
  (fired s ≤ schedules s)%nat ∧
  (∀ s', param_debounce_loop s = Some s' → fired s' ≠ fired s →
    fired s' = S (fired s) ∧ last_schedule s + debounce_ns ≤ clock s ∧ pending_ s' = false) ∧
  (param_debounce_loop s = None → pc s = AtWait → pending_ s = false).
Proof.
  intros [Hc Hd Hw He _]%inv_reachable. split_and!; [lia| |].
  - intros s' Hs Hf. unfold param_debounce_loop, inner_loop, defer_run in Hs.
    destruct s as [[] pend dl p lp ck df sc fi hd ls]; destruct p as [|d| |]; simpl in *; try discriminate;
      try (destruct pend, lp; by simplify_eq/=); try (by simplify_eq/=).
    specialize (Hw d eq_refl eq_refl). subst pend.
    destruct (Z.eqb_spec dl d); simpl in Hs; [|by simplify_eq/=].
    destruct (Z.leb_spec d ck); simplify_eq/=. split_and!; [done| |done]. rewrite <-Hd by lia. lia.
  - unfold param_debounce_loop. intros Hs Hp. rewrite Hp in Hs. by destruct (stop_ s), (pending_ s).
Qed.

(** The quiet environment changes the clock, forward, and the queue only. *)
Lemma quiet_rtc s s1 :
  rtc quiet_env s s1 → ∃ t n, s1 = with_clock (with_deferred s n) t ∧ clock s ≤ t.
Proof.
  induction 1 as [s|s s1 s2 Hs _ (t & n & -> & Ht)].
  - exists (clock s), (deferred s). by destruct s.
  - destruct Hs as [s t0 Ht0|s n0 Hn0]; simpl in *.
    + exists t, n. split; [done|lia].
    + by exists t, n.
Qed.

(** The run decided on is handed over at the next step. *)
Lemma eventually_handed (P : DebounceState → Prop) s :
  pc s = AtDefer → stop_ s = false → loop_ s = true → pending_ s = false →
  (∀ t n, P (inner_loop (defer_run (with_clock (with_deferred s n) t)))) →
  eventually quiet_env param_debounce_loop P s.
Proof.
  intros Hp Hst Hl Hpe HP. apply eventually_step.
  - intros s1 (t & n & -> & Ht)%quiet_rtc. unfold param_debounce_loop. simpl. by rewrite Hp.
  - intros s1 s2 (t & n & -> & Ht)%quiet_rtc Hs. unfold param_debounce_loop in Hs. simpl in Hs.
    rewrite Hp, Hl in Hs. injection Hs as <-. apply eventually_now. apply HP.
Qed.

(** What is left to show of a state: one more run decided, and handed over. *)
Definition served (k h : nat) (s : DebounceState) : Prop :=
  fired s = S k ∧ handed s = S h ∧ pending_ s = false ∧ pc s = AtWait.

Lemma eventually_timeout k h s :
  pc s = AtWaitUntil (deadline_ s) → deadline_ s ≤ clock s → stop_ s = false → loop_ s = true →
  fired s = k → handed s = h → eventually quiet_env param_debounce_loop (served k h) s.
Proof.
  intros Hp Hd Hst Hl Hk Hh. apply eventually_step.
  - intros s1 (t & n & -> & Ht)%quiet_rtc. unfold param_debounce_loop. simpl.
    rewrite Hp, Hst, Z.eqb_refl. simpl. by rewrite (proj2 (Z.leb_le _ _)) by lia.
  - intros s1 s2 (t & n & -> & Ht)%quiet_rtc Hs. unfold param_debounce_loop in Hs. simpl in Hs.
    rewrite Hp, Hst, Z.eqb_refl in Hs. simpl in Hs. rewrite (proj2 (Z.leb_le _ _)) in Hs by lia.
    injection Hs as <-. apply eventually_handed; simpl; try done.
    intros t' n'. unfold served. simpl. split_and!; congruence || done.
Qed.

(** C32: an update is always followed by a run.  In every reachable state with a
    pending request whose time has come, in which the server is neither stopped
    nor updated again: whatever the clock and the I/O thread do between the
    steps of the loop, the loop is never blocked until it has decided on one more
    run and handed it to the I/O thread. *)
Theorem debounce_fires (now : Z) (s : DebounceState) :
  rtc system_step (started now) s → stop_ s = false → loop_ s = true →
  pending_ s = true → deadline_ s ≤ clock s →
  eventually quiet_env param_debounce_loop (λ s', fired s' = S (fired s) ∧ handed s' = fired s') s.
Proof.
  intros [_ _ _ He Hh]%inv_reachable Hst Hl Hp Hd. specialize (Hh Hl).
  (* After any other step of the loop the timed wait for this deadline is on. *)
  assert (Hstep : ∀ h, (∀ t n, clock s ≤ t → ∃ s2,
      param_debounce_loop (with_clock (with_deferred s n) t) = Some s2 ∧
      pc s2 = AtWaitUntil (deadline_ s2) ∧ deadline_ s2 ≤ clock s2 ∧ stop_ s2 = false ∧ loop_ s2 = true ∧
      fired s2 = fired s ∧ handed s2 = h) → fired s = h →
    eventually quiet_env param_debounce_loop (served (fired s) h) s).
  { intros h Hnext Hf. apply eventually_step.
    - intros s1 (t & n & -> & Ht)%quiet_rtc. destruct (Hnext t n Ht) as (s2 & -> & _). done.
    - intros s1 s2 (t & n & -> & Ht)%quiet_rtc Hs. destruct (Hnext t n Ht) as (s3 & Hs3 & H).
      rewrite Hs in Hs3. injection Hs3 as <-. destruct_and! H. by apply eventually_timeout. }
  apply (eventually_weaken _ _ (served (fired s) (fired s))).
  2: { intros s' (-> & -> & _). done. }
  destruct (pc s) as [|d| |] eqn:Epc; simpl in Hh.
  - apply Hstep; [|done]. intros t n Ht. eexists. unfold param_debounce_loop. simpl.
    rewrite Epc, Hst, Hp. split; [done|]. simpl. rewrite Hst, Hp. split_and!; try done; lia.
  - destruct (decide (deadline_ s = d)) as [<-|Hne]; [apply eventually_timeout; done || lia|].
    apply Hstep; [|done]. intros t n Ht. eexists. unfold param_debounce_loop. simpl.
    rewrite Epc, Hst, (proj2 (Z.eqb_neq _ _) Hne). split; [done|]. simpl. rewrite Hst, Hp.
    split_and!; try done; lia.
  - apply Hstep; [|done]. intros t n Ht. eexists. unfold param_debounce_loop. simpl.
    rewrite Epc, Hl. split; [done|]. simpl. rewrite Hst, Hp. split_and!; try done; lia.
  - by rewrite He in Hst.
Qed.

(** [stop] ends the loop.  Once the stop flag is set, the thread reaches its
    exit without ever being blocked, whatever the other threads do meanwhile
    (further updates included), so the join in [stop_param_debounce] returns. *)
Theorem debounce_stops (s : DebounceState) :
  stop_ s = true → eventually other_step param_debounce_loop (λ s', pc s' = Exited) s.
Proof.
  assert (Hother : ∀ s s1, rtc other_step s s1 → pc s1 = pc s ∧ (stop_ s = true → stop_ s1 = true)).
  { induction 1 as [s0|s0 s1 s2 Hs _ IH]; [done|]. destruct IH as [-> IH2].
    destruct Hs as [s0 s1 [? t Ht|? n Hn]|s0|s0|s0]; simpl in *; auto. }
  intros Hst. destruct (decide (pc s = Exited)) as [He|Hne]; [by apply eventually_now|].
  assert (Hstep : ∀ s1, pc s1 ≠ Exited → stop_ s1 = true →
    ∃ s2, param_debounce_loop s1 = Some s2 ∧ pc s2 = Exited).
  { intros s1 Hp Hs. unfold param_debounce_loop, inner_loop.
    destruct (pc s1); simpl; rewrite ?Hs; simpl; try done; eexists; (split; [done|]);
      try done; destruct (loop_ s1); simpl; by rewrite Hs. }
  apply eventually_step.
  - intros s1 [Hp Hs]%Hother. destruct (Hstep s1) as (s2 & -> & _); [congruence|auto|done].
  - intros s1 s2 [Hp Hs]%Hother H2. destruct (Hstep s1) as (s3 & H3 & He); [congruence|auto|].
    rewrite H2 in H3. injection H3 as <-. by apply eventually_now.
Qed.

(** ** Witnesses *)

(** Two updates 50 ms apart, then time passes. *)
Definition twice : DebounceState :=
  with_clock (schedule_param_rerun (with_clock (schedule_param_rerun (started 0)) (50 * 1000000)))
    (300 * 1000000).

Lemma twice_reachable : rtc system_step (started 0) twice.
Proof.
  apply rtc_l with (schedule_param_rerun (started 0)); [right; apply other_schedule|].
  apply rtc_l with (with_clock (schedule_param_rerun (started 0)) (50 * 1000000));
    [right; apply other_quiet, env_tick; simpl; lia|].
  eapply rtc_l; [right; apply other_schedule|].
  apply rtc_once. right. apply other_quiet, env_tick. simpl. lia.
Defined.

Lemma debounce_safe_witness : (fired twice ≤ schedules twice)%nat.
Proof. exact (proj1 (debounce_safe 0 twice twice_reachable)). Defined.

Lemma debounce_fires_witness :
  eventually quiet_env param_debounce_loop (λ s', fired s' = 1%nat ∧ handed s' = fired s') twice.
Proof.
  apply (debounce_fires 0 twice twice_reachable); [reflexivity..|]. simpl. unfold debounce_ns. lia.
Defined.

Lemma debounce_stops_witness :
  eventually other_step param_debounce_loop (λ s', pc s' = Exited) (stop_param_debounce twice).
Proof. apply debounce_stops. reflexivity. Defined.

End Debounce.

(** ** Starting and stopping *)

Module Handshake.

(** The caller of [start], after it created the I/O thread: before it locks
    [start_mutex_], in [wait_for], after the wait with the mutex ([timed_out] when
    the predicate still failed), in [stop] before and during the join, returned. *)
Inductive MainPc : Type :=
| MainLock
| MainWait
| MainWoken (timed_out : bool)
| MainStop
| MainJoin
| MainReturned (status : cpipe_status_t).

(** The I/O thread: building the routes, in the listen callback with the outcome of
    the bind, in the exception handler, in [app.run], storing the null pointers,
    ended. *)
Inductive IoPc : Type := IoInit | IoListen (bound : bool) | IoCatch | IoRun | IoCleanup | IoDone.

Record HandshakeState : Type := mkHandshake {
  main : MainPc;
  io : IoPc;
  main_holds : bool;        (* the caller holds [start_mutex_] *)
  start_complete_ : bool;
  start_success_ : bool;
  running_ : bool;
  loop_ : bool;             (* the pointer is not null *)
  listen_socket_ : bool;
  close_requested : bool    (* the deferred [us_listen_socket_close] *)
}.

Definition initial : HandshakeState := mkHandshake MainLock IoInit false false false false false false false.

(** [start] up to the creation of the I/O thread. *)
Definition start_entry (s : HandshakeState) : res HandshakeState :=
  if running_ s then Fail CPIPE_FAILED "editor server is already running"
  else Ok (mkHandshake MainLock IoInit false false false false (loop_ s) (listen_socket_ s) false).

(** The I/O thread.  Its critical sections do not block, so they are one step that
    needs the mutex free.  [app.run] returns without a socket, and once its socket
    is closed. *)
Inductive io_step : HandshakeState → HandshakeState → Prop :=
| io_create m h c s r ls cr bound :
    io_step (mkHandshake m IoInit h c s r false ls cr) (mkHandshake m (IoListen bound) h c s r true ls cr)
| io_throw m h c s r l ls cr :
    io_step (mkHandshake m IoInit h c s r l ls cr) (mkHandshake m IoCatch h c s r l ls cr)
| io_listen m c s r l ls cr bound :
    io_step (mkHandshake m (IoListen bound) false c s r l ls cr)
      (mkHandshake m IoRun false true bound bound l bound cr)
| io_catch m c s r l ls cr :
    io_step (mkHandshake m IoCatch false c s r l ls cr) (mkHandshake m IoCleanup false true false r l ls cr)
| io_run_returns m h c s r l ls cr :
    ls = false ∨ cr = true →
    io_step (mkHandshake m IoRun h c s r l ls cr) (mkHandshake m IoCleanup h c s r l ls cr)
| io_cleanup m h c s r l ls cr :
    io_step (mkHandshake m IoCleanup h c s r l ls cr) (mkHandshake m IoDone h c s false false false cr).

(** The caller.  [wait_for] returns with the mutex, at once or woken when the start is
    complete, or on a timeout; the success path also starts the debounce thread. *)
Inductive main_step : HandshakeState → HandshakeState → Prop :=
| main_lock i c s r l ls cr :
    main_step (mkHandshake MainLock i false c s r l ls cr)
      (mkHandshake (if c then MainWoken false else MainWait) i c c s r l ls cr)
| main_wake i s r l ls cr :
    main_step (mkHandshake MainWait i false true s r l ls cr) (mkHandshake (MainWoken false) i true true s r l ls cr)
| main_ok i c r l ls cr :
    main_step (mkHandshake (MainWoken false) i true c true r l ls cr)
      (mkHandshake (MainReturned CPIPE_OK) i false c true r l ls cr)
| main_fail i c r l ls cr :
    main_step (mkHandshake (MainWoken false) i true c false r l ls cr) (mkHandshake MainStop i false c false r l ls cr)
| main_timed_out i c s r l ls cr :
    main_step (mkHandshake (MainWoken true) i true c s r l ls cr) (mkHandshake MainStop i true c s r l ls cr)
| main_stop i h c s r l ls cr :
    main_step (mkHandshake MainStop i h c s r l ls cr) (mkHandshake MainJoin i h c s r l ls (cr || (l && ls)))
| main_join h c s r l ls cr :
    main_step (mkHandshake MainJoin IoDone h c s r l ls cr)
      (mkHandshake (MainReturned CPIPE_FAILED) IoDone false c s false false false cr).

(** Five seconds are over before the I/O thread has reported. *)
Inductive timeout_step : HandshakeState → HandshakeState → Prop :=
| main_timeout i s r l ls cr :
    timeout_step (mkHandshake MainWait i false false s r l ls cr) (mkHandshake (MainWoken true) i true false s r l ls cr).

(** Executions in time, and all executions. *)
Definition step (s s' : HandshakeState) : Prop := io_step s s' ∨ main_step s s'.
Definition any_step (s s' : HandshakeState) : Prop := step s s' ∨ timeout_step s s'.

(** ** In time, [start] returns *)

Definition main_left (m : MainPc) : nat :=
  match m with
  | MainLock => 5 | MainWait => 4 | MainWoken _ => 3 | MainStop => 2 | MainJoin => 1 | MainReturned _ => 0
  end.
Definition io_left (i : IoPc) : nat :=
  match i with IoInit => 4 | IoListen _ | IoCatch => 3 | IoRun => 2 | IoCleanup => 1 | IoDone => 0 end.
Definition left (s : HandshakeState) : nat := main_left (main s) + io_left (io s).

Lemma step_left s s' : step s s' → (left s' < left s)%nat.
Proof. intros [[]|[]]; unfold left; simpl; try lia. destruct c; simpl; lia. Qed.

#[export] Instance MainPc_eq_dec : EqDecision MainPc.
Proof. solve_decision. Defined.

(** The I/O thread has taken the mutex to report. *)
Definition reported (i : IoPc) : bool :=
  match i with IoInit | IoListen _ | IoCatch => false | IoRun | IoCleanup | IoDone => true end.

(** The invariant of the executions in time. *)
Record inv (s : HandshakeState) : Prop := {
  inv_holds : main_holds s = bool_decide (main s = MainWoken false);
  inv_complete : start_complete_ s = reported (io s);
  inv_main : match main s with
    | MainLock | MainWait => close_requested s = false
    | MainWoken timed_out => timed_out = false ∧ start_complete_ s = true ∧ close_requested s = false
    | MainReturned CPIPE_OK => start_success_ s = true ∧ close_requested s = false
    | MainReturned CPIPE_FAILED => start_success_ s = false ∧ io s = IoDone ∧ running_ s = false
    | MainReturned _ => False
    | MainStop | MainJoin => start_complete_ s = true ∧ start_success_ s = false
    end;
  inv_io : match io s with
    | IoInit => loop_ s = false ∧ running_ s = false ∧ start_success_ s = false
    | IoListen _ | IoCatch => running_ s = false ∧ start_success_ s = false
    | IoRun => listen_socket_ s = start_success_ s ∧ running_ s = start_success_ s
    | IoCleanup | IoDone => start_success_ s = true → close_requested s = true
    end
}.

Lemma inv_initial : inv initial.
Proof. by split. Qed.

Lemma inv_io_step s s' : inv s → io_step s s' → inv s'.
Proof.
  intros Hi Hs. revert Hi. destruct Hs; intros [Hh Hc Hm Hio]; simpl in *;
    split; simpl in *; try done; destruct m as [| |[]| | |[]]; naive_solver.
Qed.

Lemma inv_main_step s s' : inv s → main_step s s' → inv s'.
Proof.
  intros Hi Hs. revert Hi. destruct Hs; intros [Hh Hc Hm Hio]; simpl in *;
    split; simpl in *; try done; try (destruct c); try (destruct i); naive_solver.
Qed.

Lemma handshake_inv_reachable s : rtc step initial s → inv s.
Proof.
  revert s. apply rtc_ind_r; [apply inv_initial|]. intros y z _ [Hs|Hs] Hy.
  - by eapply inv_io_step.
  - by eapply inv_main_step.
Qed.

(** In time there is always a step, until the caller has its result. *)
Lemma stuck_returned s : inv s → (∀ s', ¬ step s s') → ∃ status, main s = MainReturned status.
Proof.
  intros [Hh Hc Hm Hio] Hstuck. destruct s as [m i h c su r l ls cr]; simpl in *.
  destruct m as [| |w| | |status]; [exfalso..|by eexists]; subst h; simpl in *.
  - eapply Hstuck. right. constructor.
  - destruct i as [|bound| | | |]; simpl in Hc; subst c.
    + eapply Hstuck. left. apply io_throw.
    + eapply Hstuck. left. apply io_listen.
    + eapply Hstuck. left. apply io_catch.
    + eapply Hstuck. right. apply main_wake.
    + eapply Hstuck. right. apply main_wake.
    + eapply Hstuck. right. apply main_wake.
  - destruct Hm as (-> & -> & ->). destruct su; eapply Hstuck; right; [apply main_ok|apply main_fail].
  - eapply Hstuck. right. apply main_stop.
  - destruct Hm as [-> ->]. destruct i as [|bound| | | |]; simpl in Hc; try discriminate.
    + destruct Hio as [-> _]. eapply Hstuck. left. apply io_run_returns. by left.
    + eapply Hstuck. left. apply io_cleanup.
    + eapply Hstuck. right. apply main_join.
Qed.

(** C34: [start] returns with the right status unless it times out.  Every execution
    of the caller and the I/O thread without a timeout has at most nine steps; one
    that cannot go on has ended with CPIPE_OK, the I/O thread serving and the server
    running, or with CPIPE_FAILED, the I/O thread ended and the server not
    running; and the start mutex is free. *)
Theorem start_returns (n : nat) (s : HandshakeState) :
  nsteps step n initial s →
  (n ≤ 9)%nat ∧
  ((∀ s', ¬ step s s') → main_holds s = false ∧
    (main s = MainReturned CPIPE_OK ∧ io s = IoRun ∧ running_ s = true ∨
     main s = MainReturned CPIPE_FAILED ∧ io s = IoDone ∧ running_ s = false)).
Proof.
  intros Hs. split.
  - cut (n + left s ≤ left initial)%nat; [unfold left at 2; simpl; lia|].
    revert Hs. generalize initial as s0. induction n as [|n IH]; intros s0 Hs; inversion Hs; subst; [lia|].
    specialize (IH _ ltac:(eassumption)). pose proof (step_left _ _ ltac:(eassumption)). lia.
  - intros Hstuck. assert (Hi : inv s) by (apply handshake_inv_reachable; by eapply rtc_nsteps_2).
    destruct (stuck_returned s Hi Hstuck) as [status Hm]. destruct Hi as [Hh Hc Hmain Hio].
    rewrite Hm in *. split; [done|]. destruct status; try done; simpl in Hmain.
    + left. destruct Hmain as [Hsu Hcr]. rewrite Hsu in Hio.
      destruct (io s); [naive_solver..| |]; rewrite Hio in Hcr by done; discriminate.
    + right. naive_solver.
Qed.

(** After a timeout the caller keeps the mutex, which the I/O thread needs to get
    any further. *)
Definition locked_out (s : HandshakeState) : Prop :=
  main_holds s = true ∧ main s ∈ [MainWoken true; MainStop; MainJoin] ∧ reported (io s) = false.

Lemma locked_out_step s s' : locked_out s → any_step s s' → locked_out s'.
Proof.
  intros (Hh & Hm & Hr) Hs. revert Hh Hm Hr.
  destruct Hs as [[Hs|Hs]|Hs]; destruct Hs; simpl; intros; subst; try done;
    first [split; [done|split; [|done]]; set_solver|exfalso; set_solver].
Qed.

(** C40: a start that times out never returns.  The timeout branch of [start] calls
    [stop] while it holds the start mutex, [stop] joins the I/O thread, and the I/O
    thread needs that mutex to report: in no continuation of an execution in
    which the wait timed out does [start] return. *)
Theorem start_timeout_deadlocks (s s' : HandshakeState) (status : cpipe_status_t) :
  rtc any_step initial s → main s = MainWoken true → rtc any_step s s' → main s' ≠ MainReturned status.
Proof.
  intros Hs Hm Hs'. assert (Hl : locked_out s).
  { assert (Hi : start_complete_ s = reported (io s) ∧ (main s = MainWoken true →
      main_holds s = true ∧ start_complete_ s = false)).
    { clear Hm Hs'. revert s Hs. apply rtc_ind_r; [done|]. intros y z _ Hst.
      destruct Hst as [[Hst|Hst]|Hst]; destruct Hst; simpl; try naive_solver. destruct c; naive_solver. }
    destruct Hi as [Hc Hi]. destruct (Hi Hm) as [Hh Hf]. split_and!; [done|set_solver|congruence]. }
  assert (Hl' : locked_out s').
  { clear Hs Hm. induction Hs' as [|x y z Hxy _ IH]; [done|]. apply IH. by eapply locked_out_step. }
  destruct Hl' as (_ & Hin & _). intros E. rewrite E in Hin. set_solver.
Qed.

(** ** Witnesses *)

Definition serving : HandshakeState :=
  mkHandshake (MainReturned CPIPE_OK) IoRun false true true true true true false.

Lemma steps_serving : nsteps step 5 initial serving.
Proof.
  eapply nsteps_l; [right; apply main_lock|]. eapply nsteps_l; [left; apply (io_create _ _ _ _ _ _ _ true)|].
  eapply nsteps_l; [left; apply io_listen|]. eapply nsteps_l; [right; apply main_wake|].
  apply nsteps_once. right. apply main_ok.
Defined.

Lemma start_returns_witness : (5 ≤ 9)%nat ∧ main_holds serving = false.
Proof.
  destruct (start_returns 5 serving steps_serving) as [Hn Hend]. split; [exact Hn|].
  apply Hend. intros s' [Hs|Hs]; inversion Hs. naive_solver.
Defined.

Definition timed_out : HandshakeState := mkHandshake (MainWoken true) IoInit true false false false false false false.

Lemma start_timeout_deadlocks_witness :
  main (mkHandshake MainJoin (IoListen true) true false false false true false false) ≠ MainReturned CPIPE_FAILED.
Proof.
  apply (start_timeout_deadlocks timed_out).
  - eapply rtc_l; [left; right; apply main_lock|]. apply rtc_once. right. apply main_timeout.
  - reflexivity.
  - eapply rtc_l; [left; right; apply main_timed_out|]. eapply rtc_l; [left; right; apply main_stop|].
    apply rtc_once. left. left. apply io_create.
Defined.

End Handshake.
