(* ===== verification/IccWriter.v ===== *)
(** * The ICC profile writer

    Models src/cpipe/color/IccV4_4Writer.cpp: a base profile made by Little CMS (a
    parameter) is taken apart into its tags, a cicp and an A2B0 tag are added,
    and a version 4.4 profile is laid out again: the 128-byte header, the tag
    count, a table of twelve-byte records, and the tag data, each tag aligned to
    four bytes.  [std::sort] leaves the order of equal signatures open, so it is a
    parameter with its contract.

    The theorem: the reader of the writer accepts the output and gets every tag
    back. *)

From Stdlib Require Import ZArith Lia Ascii String.
From stdpp Require Import prelude strings list sorting.
From S2P Require Import Prelude EditorProtocol StateRes.

Local Open Scope Z_scope.

Record TagRecord : Type := mkTag { tag_signature : Z; tag_offset : Z; tag_size : Z }.
Record Payload : Type := mkPayload { pl_signature : Z; pl_bytes : bytes }.

(** The four characters of a signature; [value[i]] of a shorter text is undefined. *)
Definition fourcc (value : string) : Z :=
  match string_bytes value with
  | [a; b; c; d] => be32 a b c d
  | _ => 0
  end.

Definition read_u32_be (bs : bytes) (offset : Z) : res Z :=
  b0 ← byte_at bs (offset + 0);
  b1 ← byte_at bs (offset + 1);
  b2 ← byte_at bs (offset + 2);
  b3 ← byte_at bs (offset + 3);
  Ok (be32 b0 b1 b2 b3).

Definition write_u32_be (bs : bytes) (offset value : Z) : res bytes :=
  write4 bs offset (Z.land (Z.shiftr value 24) 255) (Z.land (Z.shiftr value 16) 255)
    (Z.land (Z.shiftr value 8) 255) (Z.land value 255).

Definition append_u32_be (bs : bytes) (value : Z) : bytes := bs ++ be32_bytes value.

(** [while (bytes.size() % 4 != 0) bytes.push_back(0)]: at most three times. *)
Fixpoint align_loop (fuel : nat) (bs : bytes) : bytes :=
  match fuel with
  | O => bs
  | S n => if len bs `mod` 4 =? 0 then bs else align_loop n (bs ++ [0])
  end.
Definition align4 (bs : bytes) : bytes := align_loop 4 bs.

Definition read_tag_record (profile : bytes) (i : Z) : res TagRecord :=
  let offset := 132 + i * 12 in
  signature ← read_u32_be profile offset;
  tag_offset ← read_u32_be profile (offset + 4);
  size ← read_u32_be profile (offset + 8);
  if len profile <? tag_offset + size then Thrown runtime_error
  else Ok (mkTag signature tag_offset size).

Definition read_tag_records (profile : bytes) : res (list TagRecord) :=
  bad ← (if len profile <? 132 then Ok true
         else magic ← read_u32_be profile 36; Ok (negb (magic =? fourcc "acsp")));
  if bad : bool then Thrown runtime_error else
  count ← read_u32_be profile 128;
  if len profile <? 132 + count * 12 then Thrown runtime_error else
  foldM (λ records i, record ← read_tag_record profile i; Ok (records ++ [record])) [] (seqZ 0 count).

Definition cicp_tag : bytes :=
  append_u32_be (append_u32_be [] (fourcc "cicp")) 0 ++ [9; 16; 9; 1].

Definition a2b0_float_tag : bytes :=
  append_u32_be (append_u32_be
    (append_u32_be (append_u32_be [] (fourcc "mABF")) 0 ++ [3; 3; 0; 0]) 16) 0.

(** The tags of the base profile that are kept, then the two new ones. *)
Definition make_payloads (base : bytes) (records : list TagRecord) : list Payload :=
  ((λ r, mkPayload (tag_signature r) (subspan base (tag_offset r) (tag_size r))) <$>
    filter (λ r, ¬ (tag_signature r = fourcc "cicp" ∨ tag_signature r = fourcc "A2B0")) records) ++
  [mkPayload (fourcc "cicp") cicp_tag; mkPayload (fourcc "A2B0") a2b0_float_tag].

(** The loop that appends the tag data. *)
Definition place_payload (acc : bytes * list TagRecord) (p : Payload) : bytes * list TagRecord :=
  let '(out, records) := acc in
  let out := align4 out in
  (out ++ pl_bytes p, records ++ [mkTag (pl_signature p) (u32 (len out)) (u32 (len (pl_bytes p)))]).

Definition write_record (out : bytes) (ir : Z * TagRecord) : res bytes :=
  let '(i, r) := ir in
  let record_offset := 132 + i * 12 in
  out ← write_u32_be out record_offset (tag_signature r);
  out ← write_u32_be out (record_offset + 4) (tag_offset r);
  write_u32_be out (record_offset + 8) (tag_size r).

Definition write_version (out : bytes) : res bytes := write4 out 8 0x04 0x40 0x00 0x00.

(** [out.resize(n, 0)]. *)
Definition resize (out : bytes) (n : Z) : bytes :=
  take (Z.to_nat n) out ++ replicate (Z.to_nat n - length out) 0.

Section Writer.

Variable std_sort : list Payload → list Payload.

Definition bt2020_pq (make_base_profile : res bytes) : res bytes :=
  base ← make_base_profile;
  base_records ← read_tag_records base;
  let payloads := std_sort (make_payloads base base_records) in
  let tag_table_end := 132 + len payloads * 12 in
  let out := take 128 base in
  let out := resize (append_u32_be out (u32 (len payloads))) tag_table_end in
  let '(out, new_records) := foldl place_payload (out, []) payloads in
  out ← write_u32_be out 0 (u32 (len out));
  out ← write_version out;
  foldM write_record out (zip (seqZ 0 (len new_records)) new_records).

End Writer.

(** ** Lemmas *)

Lemma read_u32_be_eq bs off : read_u32_be bs off = read_be32 bs off.
Proof. unfold read_u32_be, read_be32. by rewrite Z.add_0_r. Qed.

Lemma write_u32_be_app pre b0 b1 b2 b3 suf v i :
  i = len pre →
  write_u32_be (pre ++ b0 :: b1 :: b2 :: b3 :: suf) i v = Ok (pre ++ be32_bytes v ++ suf).
Proof. intros Hi. unfold write_u32_be, be32_bytes. by rewrite write4_app. Qed.

(** ** Alignment *)

Lemma align4_pad bs : ∃ n, (n < 4)%nat ∧ align4 bs = bs ++ replicate n 0 ∧ len (align4 bs) `mod` 4 = 0.
Proof.
  assert (H : ∀ n bs, (4 - len bs `mod` 4) `mod` 4 = Z.of_nat n → (n < 4)%nat →
    ∀ fuel, (n < fuel)%nat → align_loop fuel bs = bs ++ replicate n 0).
  { clear bs. induction n as [|n IH]; intros bs Hn Hlt [|fuel] Hf; try lia; simpl.
    - rewrite (proj2 (Z.eqb_eq _ _)); [by rewrite app_nil_r|]. Z.to_euclidean_division_equations; lia.
    - rewrite (proj2 (Z.eqb_neq _ _)) by (Z.to_euclidean_division_equations; lia).
      rewrite IH; [by rewrite <-app_assoc|rewrite len_app; change (len [0]) with 1|lia..].
      Z.to_euclidean_division_equations; lia. }
  set (n := Z.to_nat ((4 - len bs `mod` 4) `mod` 4)).
  assert (Hn : (4 - len bs `mod` 4) `mod` 4 = Z.of_nat n).
  { unfold n. rewrite Z2Nat.id; [done|]. apply Z.mod_pos_bound. lia. }
  assert (Hlt : (n < 4)%nat) by (pose proof (Z.mod_pos_bound (4 - len bs `mod` 4) 4); lia).
  exists n. unfold align4. rewrite (H n bs Hn Hlt) by lia. split_and!; [done..|].
  rewrite len_app. unfold len at 2. rewrite length_replicate, <-Hn.
  Z.to_euclidean_division_equations; lia.
Qed.

(** ** Layout *)

(** A record describes where the data of a payload is. *)
Definition describes (out : bytes) (r : TagRecord) (p : Payload) : Prop :=
  tag_signature r = pl_signature p ∧ tag_size r = len (pl_bytes p) ∧ tag_offset r `mod` 4 = 0 ∧
  ∃ pre suf, out = pre ++ pl_bytes p ++ suf ∧ len pre = tag_offset r.

Lemma describes_app out r p more : describes out r p → describes (out ++ more) r p.
Proof.
  intros (? & ? & ? & pre & suf & -> & ?). split_and!; [done..|]. exists pre, (suf ++ more).
  by rewrite <-!app_assoc.
Qed.

(** Tags do not overlap: each starts after the end of the one before. *)
Definition after (r1 r2 : TagRecord) : Prop := tag_offset r1 + tag_size r1 ≤ tag_offset r2.

(** The data loop only appends; below 4 GiB every record describes its payload. *)
Lemma place_payloads_spec ps : ∀ out recs out' recs',
  foldl place_payload (out, recs) ps = (out', recs') → len out' < 2 ^ 32 →
  ∃ body new, out' = out ++ body ∧ recs' = recs ++ new ∧ Forall2 (describes out') new ps ∧
    Forall (λ r, len out ≤ tag_offset r) new ∧ StronglySorted after new ∧
    Forall (λ r, tag_offset r + tag_size r ≤ len out') new.
Proof.
  induction ps as [|p ps IH]; intros out recs out' recs' Hf Hlt.
  { injection Hf as <- <-. exists [], []. rewrite !app_nil_r. split_and!; constructor || done. }
  destruct (align4_pad out) as (n & Hn & Ha & Hmod). cbn [foldl] in Hf. unfold place_payload at 2 in Hf.
  set (out1 := align4 out) in *.
  apply IH in Hf as (body & new & -> & -> & Hdesc & Hge & Hsorted & Hend); [|done].
  set (r := mkTag (pl_signature p) (u32 (len out1)) (u32 (len (pl_bytes p)))).
  rewrite !len_app in Hlt. pose proof (len_nonneg out1). pose proof (len_nonneg (pl_bytes p)).
  pose proof (len_nonneg body).
  assert (Hr : tag_offset r = len out1 ∧ tag_size r = len (pl_bytes p)).
  { unfold r. simpl. by rewrite !u32_small by lia. }
  destruct Hr as [Hro Hrs].
  exists (replicate n 0 ++ pl_bytes p ++ body), (r :: new).
  split_and!.
  - rewrite Ha. by rewrite <-!app_assoc.
  - by rewrite <-app_assoc.
  - constructor; [|done]. split_and!; [done|done|by rewrite Hro|]. exists out1, body.
    by rewrite <-app_assoc.
  - assert (len out ≤ len out1) by (rewrite Ha, len_app; pose proof (len_nonneg (replicate n 0)); lia).
    constructor; [by rewrite Hro|]. eapply Forall_impl; [exact Hge|]. intros r' Hr'.
    rewrite len_app in Hr'. lia.
  - constructor; [done|]. eapply Forall_impl; [exact Hge|]. intros r' Hr'. unfold after.
    rewrite Hro, Hrs. rewrite len_app in Hr'. lia.
  - constructor; [|done]. rewrite Hro, Hrs, !len_app. lia.
Qed.

(** An upper bound of the size of the output. *)
Definition layout_bound (ps : list Payload) : Z :=
  132 + foldr (λ p acc, 12 + (len (pl_bytes p) + 3) + acc) 0 ps.

Lemma layout_bound_parts ps :
  layout_bound ps = 132 + 12 * len ps + foldr (λ p acc, (len (pl_bytes p) + 3) + acc) 0 ps ∧
  0 ≤ foldr (λ p acc, (len (pl_bytes p) + 3) + acc) 0 ps.
Proof.
  unfold layout_bound. induction ps as [|p ps [IH1 IH2]]; [done|]. rewrite len_cons. simpl.
  pose proof (len_nonneg (pl_bytes p)). lia.
Qed.

Lemma layout_bound_perm ps ps' : ps ≡ₚ ps' → layout_bound ps = layout_bound ps'.
Proof. unfold layout_bound. induction 1; simpl in *; lia. Qed.

Lemma place_payloads_len ps : ∀ out recs out' recs',
  foldl place_payload (out, recs) ps = (out', recs') →
  len out' ≤ len out + foldr (λ p acc, (len (pl_bytes p) + 3) + acc) 0 ps ∧
  length recs' = (length recs + length ps)%nat.
Proof.
  induction ps as [|p ps IH]; intros out recs out' recs' Hf.
  { injection Hf as <- <-. simpl. lia. }
  cbn [foldl] in Hf. unfold place_payload at 2 in Hf. apply IH in Hf as [Hl Hr].
  destruct (align4_pad out) as (n & Hn & Ha & _). rewrite Ha, !len_app in Hl.
  unfold len at 3 in Hl. rewrite length_replicate in Hl. rewrite length_app in Hr. simpl in *. lia.
Qed.

Lemma cons4 (l : bytes) : len l = 4 → ∃ a b c d, l = [a; b; c; d].
Proof. destruct l as [|a [|b [|c [|d [|]]]]]; unfold len; simpl; intros; try lia. by exists a, b, c, d. Qed.

Lemma write_u32_be_at pre mid suf v i :
  len mid = 4 → i = len pre → write_u32_be (pre ++ mid ++ suf) i v = Ok (pre ++ be32_bytes v ++ suf).
Proof. intros (a & b & c & d & ->)%cons4 Hi. by apply write_u32_be_app. Qed.

Lemma write_u32_be_0 mid suf v :
  len mid = 4 → write_u32_be (mid ++ suf) 0 v = Ok (be32_bytes v ++ suf).
Proof. intros. by apply (write_u32_be_at [] mid). Qed.

Definition record_bytes (r : TagRecord) : bytes :=
  be32_bytes (tag_signature r) ++ be32_bytes (tag_offset r) ++ be32_bytes (tag_size r).

Lemma len_record_bytes r : len (record_bytes r) = 12.
Proof. unfold record_bytes. by rewrite !len_app, !len_be32_bytes. Qed.

Lemma len_records rs : len (concat (record_bytes <$> rs)) = 12 * len rs.
Proof.
  induction rs as [|r rs IH]; [done|]. cbn [fmap list_fmap concat]. rewrite len_app, len_record_bytes.
  rewrite len_cons. change (list_fmap _ _ record_bytes rs) with (record_bytes <$> rs). rewrite IH. lia.
Qed.

(** One record. *)
Lemma write_record_app pre suf k r :
  len pre = 132 + k * 12 →
  write_record (pre ++ replicate 12 0 ++ suf) (k, r) = Ok (pre ++ record_bytes r ++ suf).
Proof.
  intros Hpre. unfold write_record, record_bytes.
  change (replicate 12 0 ++ suf) with ([0; 0; 0; 0] ++ [0; 0; 0; 0] ++ [0; 0; 0; 0] ++ suf).
  rewrite write_u32_be_at by done. rewrite Ok_bind, app_assoc.
  rewrite write_u32_be_at by (rewrite ?len_app, ?len_be32_bytes; lia || done). rewrite Ok_bind, app_assoc.
  rewrite write_u32_be_at by (rewrite ?len_app, ?len_be32_bytes; lia || done).
  by rewrite <-!app_assoc.
Qed.

(** The table is filled record by record. *)
Lemma write_records_spec rs : ∀ k pre suf,
  0 ≤ k → len pre = 132 + k * 12 →
  foldM write_record (pre ++ replicate (12 * length rs) 0 ++ suf) (zip (seqZ k (len rs)) rs) =
  Ok (pre ++ concat (record_bytes <$> rs) ++ suf).
Proof.
  induction rs as [|r rs IH]; intros k pre suf Hk Hpre; [done|].
  rewrite len_cons, seqZ_cons by (pose proof (len_nonneg rs); lia).
  replace (Z.pred (1 + len rs)) with (len rs) by lia.
  replace (12 * length (r :: rs))%nat with (12 + 12 * length rs)%nat by (simpl; lia).
  rewrite replicate_add, <-app_assoc. cbn [zip zip_with foldM].
  rewrite write_record_app, Ok_bind, app_assoc by done.
  fold (zip (seqZ (Z.succ k) (len rs)) rs).
  rewrite IH by (rewrite ?len_app, ?len_record_bytes; lia).
  cbn [fmap list_fmap concat]. by rewrite <-!app_assoc.
Qed.

Lemma read_u32_be_in pre v suf i :
  is_u 32 v → i = len pre → read_u32_be (pre ++ be32_bytes v ++ suf) i = Ok v.
Proof. intros Hv Hi. rewrite read_u32_be_eq. by eapply read_be32_at. Qed.

Definition record_ok (r : TagRecord) : Prop :=
  is_u 32 (tag_signature r) ∧ is_u 32 (tag_offset r) ∧ is_u 32 (tag_size r).

Lemma read_tag_record_at head table rs suf j r :
  len head = 132 → table = concat (record_bytes <$> rs) → rs !! j = Some r → record_ok r →
  tag_offset r + tag_size r ≤ len (head ++ table ++ suf) →
  read_tag_record (head ++ table ++ suf) (Z.of_nat j) = Ok r.
Proof.
  intros Hh -> Hj (Hs & Ho & Hz) Hend. rewrite <-(take_drop_middle rs j r Hj) in *.
  set (l1 := take j rs) in *. set (l2 := drop (S j) rs) in *.
  assert (Hl1 : len l1 = Z.of_nat j).
  { unfold l1, len. rewrite length_take. apply lookup_lt_Some in Hj. lia. }
  rewrite fmap_app, concat_app in *. cbn [fmap list_fmap concat] in *. unfold record_bytes at 2 in Hend.
  unfold record_bytes at 2. rewrite <-!app_assoc in *.
  set (pre := head ++ concat (record_bytes <$> l1)).
  assert (Hpre : len pre = 132 + Z.of_nat j * 12) by (unfold pre; rewrite len_app, len_records; lia).
  rewrite (app_assoc head) in *. fold pre in Hend |- *. unfold read_tag_record.
  clearbody pre. rewrite (read_u32_be_in pre _ _ _ Hs (eq_sym Hpre)), Ok_bind.
  set (pre1 := pre ++ be32_bytes (tag_signature r)).
  assert (Hpre1 : 132 + Z.of_nat j * 12 + 4 = len pre1) by (unfold pre1; rewrite len_app, len_be32_bytes; lia).
  rewrite (app_assoc pre) in *. fold pre1 in Hend |- *. clearbody pre1.
  rewrite (read_u32_be_in pre1 _ _ _ Ho Hpre1), Ok_bind.
  set (pre2 := pre1 ++ be32_bytes (tag_offset r)).
  assert (Hpre2 : 132 + Z.of_nat j * 12 + 8 = len pre2) by (unfold pre2; rewrite len_app, len_be32_bytes; lia).
  rewrite (app_assoc pre1) in *. fold pre2 in Hend |- *. clearbody pre2.
  rewrite (read_u32_be_in pre2 _ _ _ Hz Hpre2), Ok_bind.
  rewrite (proj2 (Z.ltb_ge _ _)) by done. by destruct r.
Qed.

Lemma subspan_at (pre mid suf : bytes) off n :
  len pre = off → len mid = n → subspan (pre ++ mid ++ suf) off n = mid.
Proof. intros <- <-. apply subspan_app. Qed.

(** ** The header *)

Lemma len_split {A} (l : list A) n : 0 ≤ n ≤ len l → ∃ l1 l2, l = l1 ++ l2 ∧ len l1 = n.
Proof.
  intros Hn. exists (take (Z.to_nat n) l), (drop (Z.to_nat n) l). rewrite take_drop. split; [done|].
  unfold len in *. rewrite length_take. lia.
Qed.

(** The five fields of the header the writer and the reader touch. *)
Record HeaderOf (base h0 h4 h8 h12 magic h40 : bytes) : Prop := mkHeader {
  header_bytes : take 128 base = h0 ++ h4 ++ h8 ++ h12 ++ magic ++ h40;
  len_h0 : len h0 = 4; len_h4 : len h4 = 4; len_h8 : len h8 = 4;
  len_h12 : len h12 = 24; header_magic : magic = be32_bytes (fourcc "acsp");
  len_h40 : len h40 = 88 }.

Lemma read_tag_records_inv base records :
  bytes_ok base → read_tag_records base = Ok records →
  132 ≤ len base ∧ ∃ h0 h4 h8 h12 magic h40, HeaderOf base h0 h4 h8 h12 magic h40.
Proof.
  intros Hok H. unfold read_tag_records in H. destruct (Z.ltb_spec (len base) 132); [done|].
  apply bind_Ok_inv in H as (bad & (magic & Hm & Hb)%bind_Ok_inv & H). injection Hb as <-.
  destruct (Z.eqb_spec magic (fourcc "acsp")) as [->|]; [|done].
  rewrite read_u32_be_eq in Hm. apply read_be32_slice in Hm as [Hm _]; [|done]. split; [done|].
  destruct (len_split base 128) as (h & rest & -> & Hh); [lia|].
  assert (Ht : take 128 (h ++ rest) = h) by (rewrite take_app_length'; [done|unfold len in Hh; lia]).
  destruct (len_split h 4) as (h0 & h' & -> & ?); [lia|]. rewrite len_app in Hh.
  destruct (len_split h' 4) as (h4 & h'' & -> & ?); [lia|]. rewrite len_app in Hh.
  destruct (len_split h'' 4) as (h8 & h3 & -> & ?); [lia|]. rewrite len_app in Hh.
  destruct (len_split h3 24) as (h12 & h5 & -> & ?); [lia|]. rewrite len_app in Hh.
  destruct (len_split h5 4) as (magic & h40 & -> & Hmg); [lia|]. rewrite len_app in Hh.
  exists h0, h4, h8, h12, magic, h40. split; [done|lia..| |lia]. rewrite Hm.
  assert (Hs : ((h0 ++ h4 ++ h8 ++ h12 ++ magic ++ h40) ++ rest) =
    (h0 ++ h4 ++ h8 ++ h12) ++ magic ++ (h40 ++ rest)) by (by rewrite <-!app_assoc).
  rewrite Hs, drop_app_length', take_app_length'; [done|unfold len in *; lia|].
  rewrite !length_app. unfold len in *. lia.
Qed.

(** ** The output of the writer *)

(** The header and the tag count. *)
Definition header_of (h4 h12 h40 size version : bytes) (count : Z) : bytes :=
  size ++ h4 ++ version ++ h12 ++ be32_bytes (fourcc "acsp") ++ h40 ++ be32_bytes count.

(** The profile with header fields, tag records and tag data in their places. *)
Definition profile_of (h4 h12 h40 : bytes) (recs : list TagRecord) (body : bytes) (size : Z) : bytes :=
  header_of h4 h12 h40 (be32_bytes size) [0x04; 0x40; 0x00; 0x00] (len recs) ++
  concat (record_bytes <$> recs) ++ body.

Section Output.

Variables (base h0 h4 h8 h12 magic h40 : bytes).
Hypothesis Hheader : HeaderOf base h0 h4 h8 h12 magic h40.

Lemma len_header size version n :
  len size = 4 → len version = 4 → len (header_of h4 h12 h40 size version n) = 132.
Proof using Hheader.
  destruct Hheader. intros. unfold header_of. rewrite !len_app, !len_be32_bytes. lia.
Qed.

(** The bytes before the tag data are appended, as the code builds them. *)
Lemma out_table n :
  0 ≤ n < 2 ^ 32 →
  resize (append_u32_be (take 128 base) (u32 n)) (132 + n * 12) =
  header_of h4 h12 h40 h0 h8 n ++ replicate (12 * Z.to_nat n) 0.
Proof using Hheader.
  intros Hn. destruct Hheader as [-> ? ? ? ? -> ?]. unfold append_u32_be, resize, header_of.
  rewrite u32_small by done. rewrite <-!app_assoc.
  set (h := h0 ++ _). assert (Hl : length h = 132%nat).
  { unfold h. rewrite !length_app. unfold len in *. simpl length. lia. }
  rewrite take_ge, Hl by lia. unfold h. rewrite <-!app_assoc. repeat f_equal. lia.
Qed.

(** The size, the version and the records are written over the bytes already there. *)
Lemma writes_spec recs body size :
  (out ← write_u32_be (header_of h4 h12 h40 h0 h8 (len recs) ++ replicate (12 * length recs) 0 ++ body) 0 size;
   out ← write_version out;
   foldM write_record out (zip (seqZ 0 (len recs)) recs)) =
  Ok (profile_of h4 h12 h40 recs body size).
Proof using Hheader.
  pose proof (len_header (be32_bytes size) [0x04; 0x40; 0x00; 0x00] (len recs) eq_refl eq_refl) as Hlen.
  unfold header_of at 1. destruct Hheader. rewrite <-!app_assoc.
  rewrite write_u32_be_0 by done. rewrite Ok_bind. unfold write_version.
  destruct (cons4 h8) as (a & b & c & d & ->); [done|]. simpl app at 1.
  set (pre := be32_bytes size ++ h4). set (suf := h12 ++ _).
  transitivity (out ← write4 (pre ++ a :: b :: c :: d :: suf) 8 0x04 0x40 0x00 0x00;
    foldM write_record out (zip (seqZ 0 (len recs)) recs)).
  { unfold pre. by rewrite <-app_assoc. }
  rewrite write4_app by (unfold pre; rewrite len_app, len_be32_bytes; lia). rewrite Ok_bind.
  transitivity (foldM write_record (header_of h4 h12 h40 (be32_bytes size) [0x04; 0x40; 0x00; 0x00] (len recs) ++
    replicate (12 * length recs) 0 ++ body) (zip (seqZ 0 (len recs)) recs)).
  { unfold header_of, pre, suf. by rewrite <-!app_assoc. }
  by rewrite write_records_spec.
Qed.

Lemma read_profile recs body size :
  is_u 32 size → len recs < 2 ^ 32 →
  Forall record_ok recs →
  Forall (λ r, tag_offset r + tag_size r ≤ len (profile_of h4 h12 h40 recs body size)) recs →
  read_tag_records (profile_of h4 h12 h40 recs body size) = Ok recs ∧
  read_u32_be (profile_of h4 h12 h40 recs body size) 0 = Ok size.
Proof using Hheader.
  intros Hsize Hn Hok Hend. set (out := profile_of _ _ _ _ _ _) in *.
  pose proof (len_nonneg recs) as Hn0. pose proof (len_nonneg body).
  assert (Hh := len_header (be32_bytes size) [0x04; 0x40; 0x00; 0x00] (len recs) eq_refl eq_refl).
  assert (Hout : len out = 132 + len recs * 12 + len body).
  { unfold out, profile_of. rewrite len_app, Hh, len_app, len_records. lia. }
  split.
  2:{ unfold out, profile_of, header_of. rewrite <-!app_assoc. by apply (read_u32_be_in []). }
  unfold read_tag_records. rewrite (proj2 (Z.ltb_ge _ _)) by lia.
  assert (read_u32_be out 36 = Ok (fourcc "acsp")) as ->.
  { unfold out, profile_of, header_of. rewrite (app_assoc h4), (app_assoc (h4 ++ _)), (app_assoc (be32_bytes size)).
    rewrite <-!(app_assoc _ (be32_bytes (fourcc "acsp") ++ _)), <-!(app_assoc (be32_bytes (fourcc "acsp"))).
    apply read_u32_be_in; [done|]. destruct Hheader. rewrite !len_app, !len_be32_bytes, ?len_cons, ?len_nil. lia. }
  rewrite !Ok_bind, Z.eqb_refl. cbn [negb].
  assert (read_u32_be out 128 = Ok (len recs)) as ->.
  { unfold out, profile_of, header_of. rewrite !app_assoc. rewrite <-!(app_assoc _ (be32_bytes (len recs))), <-app_assoc.
    apply read_u32_be_in; [done|]. destruct Hheader. rewrite !len_app, !len_be32_bytes, ?len_cons, ?len_nil. lia. }
  rewrite Ok_bind, (proj2 (Z.ltb_ge _ _)) by lia.
  rewrite (foldM_collect (read_tag_record out) recs 0 []); [done|]. intros j r Hj.
  apply read_tag_record_at with (rs := recs) (r := r); [done..| |].
  - by eapply Forall_lookup_1 in Hok.
  - by eapply Forall_lookup_1 in Hend.
Qed.

(** The header fields of the profile: only the size and the version change. *)
Lemma profile_header recs body size :
  let out := profile_of h4 h12 h40 recs body size in
  subspan out 8 4 = [0x04; 0x40; 0x00; 0x00] ∧ subspan out 4 4 = subspan base 4 4 ∧
  subspan out 12 116 = subspan base 12 116.
Proof using Hheader.
  destruct Hheader as [Hb ? ? ? ? -> ?]. intros out.
  assert (Hbase : base = h0 ++ h4 ++ h8 ++ (h12 ++ be32_bytes (fourcc "acsp") ++ h40) ++ drop 128 base).
  { rewrite <-(take_drop 128 base) at 1. rewrite Hb. by rewrite <-!app_assoc. }
  set (tl := h12 ++ _ ++ h40) in *.
  assert (Hout : ∃ rest, out = be32_bytes size ++ h4 ++ [0x04; 0x40; 0x00; 0x00] ++ tl ++ rest).
  { eexists. unfold out, profile_of, header_of, tl. by rewrite <-!app_assoc. }
  destruct Hout as [rest Hout]. rewrite Hbase, Hout. clear Hbase Hout.
  assert (len tl = 116) by (unfold tl; rewrite !len_app, len_be32_bytes; lia). clearbody tl out.
  split_and!.
  - rewrite (app_assoc _ h4). apply subspan_at; [rewrite len_app, len_be32_bytes; lia|done].
  - rewrite !subspan_at by done. done.
  - rewrite (app_assoc _ h4), (app_assoc (_ ++ h4)), (app_assoc h0), (app_assoc (h0 ++ h4)).
    rewrite !subspan_at; [done|..]; rewrite ?len_app, ?len_be32_bytes, ?len_cons, ?len_nil; lia.
Qed.

End Output.

(** ** The whole profile *)

Lemma read_tag_records_ok base records :
  bytes_ok base → read_tag_records base = Ok records → Forall record_ok records.
Proof.
  intros Hok H. unfold read_tag_records in H.
  apply bind_Ok_inv in H as (bad & _ & H). destruct bad; [done|].
  apply bind_Ok_inv in H as (count & _ & H). destruct (_ <? _); [done|].
  revert H. apply (foldM_invariant (λ _, Forall record_ok)); [constructor|].
  intros pre i acc acc' _ Hacc H. apply bind_Ok_inv in H as (r & Hr & [= <-]).
  apply Forall_app; split; [done|]. constructor; [|done].
  unfold read_tag_record in Hr. rewrite !read_u32_be_eq in Hr. res_inv. destruct (_ <? _); [done|].
  injection Hr as <-. split_and!; by eapply read_be32_slice.
Qed.

Lemma make_payloads_sig base records :
  Forall record_ok records → Forall (λ p, is_u 32 (pl_signature p)) (make_payloads base records).
Proof.
  intros H. unfold make_payloads. apply Forall_app; split; [|by rewrite !Forall_cons].
  apply Forall_fmap, Forall_forall. intros r [_ Hr]%list_elem_of_filter.
  rewrite Forall_forall in H. by destruct (H r Hr).
Qed.

Lemma describes_subspan out r p :
  describes out r p → mkPayload (tag_signature r) (subspan out (tag_offset r) (tag_size r)) = p.
Proof. intros (-> & -> & _ & pre & suf & -> & <-). rewrite subspan_app. by destruct p. Qed.

Lemma describes_record_ok out r p :
  describes out r p → len out < 2 ^ 32 → is_u 32 (pl_signature p) → record_ok r.
Proof.
  intros (Hs & Hz & _ & pre & suf & -> & Ho) Hlt Hp. rewrite !len_app in Hlt.
  pose proof (len_nonneg pre). pose proof (len_nonneg (pl_bytes p)). pose proof (len_nonneg suf).
  unfold record_ok, is_u in *. rewrite Hs. lia.
Qed.

(** Only the bytes past the table matter for data that starts past the table. *)
Lemma describes_replace head head' body r p :
  len head = len head' → len head ≤ tag_offset r →
  describes (head ++ body) r p → describes (head' ++ body) r p.
Proof.
  intros Hl Hge (Hs & Hz & Hm & pre & suf & Heq & Ho). split_and!; [done..|].
  destruct (len_split pre (len head)) as (p1 & p2 & -> & Hp1); [pose proof (len_nonneg head); lia|].
  rewrite <-app_assoc in Heq. apply app_inj_1 in Heq as [<- ->]; [|unfold len in *; lia].
  exists (head' ++ p2), suf. rewrite <-app_assoc. split; [done|]. rewrite !len_app in *. lia.
Qed.

Lemma describes_replace_all head head' body recs ps n :
  len head = n ∧ len head' = n → Forall (λ r, n ≤ tag_offset r) recs →
  Forall2 (describes (head ++ body)) recs ps → Forall2 (describes (head' ++ body)) recs ps.
Proof.
  intros [Hl Hl'] Hge. induction 1 as [|r p recs ps Hd _ IH]; [constructor|].
  apply Forall_cons in Hge as [? ?]. constructor; [|by apply IH].
  eapply describes_replace; [..|exact Hd]; lia.
Qed.

Lemma describes_all_ok out recs ps :
  Forall2 (describes out) recs ps → len out < 2 ^ 32 → Forall (λ p, is_u 32 (pl_signature p)) ps →
  Forall record_ok recs.
Proof.
  induction 1; intros Hlt Hp; [constructor|]. apply Forall_cons in Hp as [? ?].
  constructor; [by eapply describes_record_ok|auto].
Qed.

Lemma describes_payloads out recs ps :
  Forall2 (describes out) recs ps →
  ((λ r, mkPayload (tag_signature r) (subspan out (tag_offset r) (tag_size r))) <$> recs) = ps.
Proof. induction 1; [done|]. cbn [fmap list_fmap]. f_equal; [by apply describes_subspan|done]. Qed.

Lemma describes_sorted out recs ps :
  Forall2 (describes out) recs ps → Sorted (λ a b, pl_signature a ≤ pl_signature b) ps →
  Sorted (λ r1 r2, tag_signature r1 ≤ tag_signature r2) recs.
Proof.
  induction 1 as [|r p recs ps Hd Hds IH]; intros Hs; [constructor|]. inversion_clear Hs as [|? ? Hs' Hhd].
  constructor; [by apply IH|]. destruct Hds as [|r' p' recs ps Hd' Hds]; constructor.
  destruct Hd as [-> _], Hd' as [-> _]. by inversion Hhd.
Qed.

Section Profile.

Variable std_sort : list Payload → list Payload.
Hypothesis std_sort_perm : ∀ l, std_sort l ≡ₚ l.
Hypothesis std_sort_sorted : ∀ l, Sorted (λ a b, pl_signature a ≤ pl_signature b) (std_sort l).

(** What the writer returns, field by field. *)
Lemma bt2020_pq_layout base records h0 h4 h8 h12 magic h40 :
  HeaderOf base h0 h4 h8 h12 magic h40 → read_tag_records base = Ok records →
  layout_bound (make_payloads base records) < 2 ^ 32 →
  ∃ recs body, let size := 132 + 12 * len recs + len body in
    let out := profile_of h4 h12 h40 recs body size in
    bt2020_pq std_sort (Ok base) = Ok out ∧ len out = size ∧ size < 2 ^ 32 ∧
    Forall2 (describes out) recs (std_sort (make_payloads base records)) ∧ StronglySorted after recs ∧
    Forall (λ r, 132 + 12 * len recs ≤ tag_offset r ∧ tag_offset r + tag_size r ≤ size) recs.
Proof using std_sort_perm.
  intros Hheader Hrec Hbound. unfold bt2020_pq. rewrite Ok_bind, Hrec, Ok_bind.
  rewrite <-(layout_bound_perm (std_sort (make_payloads base records))) in Hbound by apply std_sort_perm.
  set (ps := std_sort _) in *. pose proof (len_nonneg ps). pose proof (layout_bound_parts ps).
  rewrite (out_table _ _ _ _ _ _ _ Hheader) by lia.
  destruct (foldl place_payload _ ps) as [out recs] eqn:Hf.
  destruct (place_payloads_len _ _ _ _ _ Hf) as [Hlen Hnum].
  assert (Hlr : len recs = len ps) by (unfold len; simpl in Hnum; lia).
  rewrite <-Hlr in Hf, Hlen.
  replace (12 * Z.to_nat (len recs))%nat with (12 * length recs)%nat in Hf, Hlen by (unfold len; lia).
  assert (Hzeros : len (replicate (12 * length recs) 0) = 12 * len recs).
  { unfold len. rewrite length_replicate. lia. }
  assert (Hh : ∀ size version n, len size = 4 → len version = 4 →
    len (header_of h4 h12 h40 size version n) = 132) by (by eapply len_header).
  pose proof (len_h0 _ _ _ _ _ _ _ Hheader). pose proof (len_h8 _ _ _ _ _ _ _ Hheader).
  rewrite len_app, Hh, Hzeros in Hlen by done.
  apply place_payloads_spec in Hf as (body & new & Hout & Hnew & Hdesc & Hge & Hsorted & Hend); [|lia].
  simpl in Hnew. subst new. rewrite len_app, Hh, Hzeros in Hge by done.
  assert (Hl : len out = 132 + 12 * len recs + len body) by (rewrite Hout, !len_app, Hh by done; lia).
  exists recs, body. rewrite u32_small by (pose proof (len_nonneg out); lia).
  rewrite Hl, Hout, <-app_assoc. split; [by apply (writes_spec base h0 h4 h8 h12 magic h40)|].
  unfold profile_of. split_and!; [rewrite !len_app, Hh, len_records by done; lia|lia| |done|].
  - rewrite app_assoc. eapply describes_replace_all; [|exact Hge|by rewrite <-Hout].
    split; rewrite len_app, Hh, ?Hzeros, ?len_records; done || lia.
  - apply Forall_and. split; [done|]. by rewrite Hl in Hend.
Qed.

(** C37: the colour profile of the HDR output: for every base profile the tag
    reader accepts whose tags fit in 4 GiB, and for every sort by signature, the
    writer returns a profile that the same reader accepts; its tags are exactly
    the base tags without cicp and A2B0 and the two new ones, the table is
    ordered by signature, tag data starts past the table, is aligned to four
    bytes and does not overlap, the size field is the size of the file, the
    version is 4.4 and the rest of the header is the base profile's. *)
Theorem bt2020_pq_roundtrip base records :
  bytes_ok base → read_tag_records base = Ok records →
  layout_bound (make_payloads base records) < 2 ^ 32 →
  ∃ out recs, bt2020_pq std_sort (Ok base) = Ok out ∧ read_tag_records out = Ok recs ∧
    ((λ r, mkPayload (tag_signature r) (subspan out (tag_offset r) (tag_size r))) <$> recs)
      ≡ₚ make_payloads base records ∧
    Sorted (λ r1 r2, tag_signature r1 ≤ tag_signature r2) recs ∧ StronglySorted after recs ∧
    Forall (λ r, 132 + 12 * len recs ≤ tag_offset r ∧ tag_offset r `mod` 4 = 0) recs ∧
    read_u32_be out 0 = Ok (len out) ∧ subspan out 8 4 = [0x04; 0x40; 0x00; 0x00] ∧
    subspan out 4 4 = subspan base 4 4 ∧ subspan out 12 116 = subspan base 12 116.
Proof using std_sort_perm std_sort_sorted.
  intros Hok Hrec Hbound.
  destruct (read_tag_records_inv _ _ Hok Hrec) as (Hlen & h0 & h4 & h8 & h12 & magic & h40 & Hheader).
  destruct (bt2020_pq_layout _ _ _ _ _ _ _ _ Hheader Hrec Hbound)
    as (recs & body & Hout & Hl & Hlt & Hdesc & Hafter & Hplace).
  set (out := profile_of _ _ _ _ _ _) in *. exists out, recs. apply Forall_and in Hplace as [Hge Hend].
  assert (Hrok : Forall record_ok recs).
  { eapply describes_all_ok; [exact Hdesc|lia|].
    rewrite std_sort_perm. by eapply make_payloads_sig, read_tag_records_ok. }
  pose proof (len_nonneg recs). pose proof (len_nonneg body).
  destruct (read_profile _ _ _ _ _ _ _ Hheader recs body (132 + 12 * len recs + len body))
    as [Hread Hsize]; [unfold is_u; lia|lia|done|fold out; by rewrite Hl|].
  fold out in Hread, Hsize. rewrite <-Hl in Hsize.
  destruct (profile_header _ _ _ _ _ _ _ Hheader recs body (132 + 12 * len recs + len body)) as (? & ? & ?).
  split_and!; try done.
  - rewrite (describes_payloads _ _ _ Hdesc). apply std_sort_perm.
  - eapply describes_sorted; [exact Hdesc|apply std_sort_sorted].
  - apply Forall_and. split; [done|].
    eapply Forall2_Forall_l; [exact Hdesc|]. apply Forall_true. by intros ? ? (_ & _ & ? & _).
Qed.

End Profile.

(** ** Witness *)

(** A base profile with a description, and an old cicp tag that is replaced. *)
Definition example_base : bytes :=
  replicate 36 0 ++ be32_bytes (fourcc "acsp") ++ replicate 88 7 ++ be32_bytes 2 ++
  record_bytes (mkTag (fourcc "desc") 156 5) ++ record_bytes (mkTag (fourcc "cicp") 164 4) ++
  [1; 2; 3; 4; 5; 0; 0; 0; 9; 9; 9; 9].

Definition by_signature (a b : Payload) : Prop := pl_signature a ≤ pl_signature b.
#[local] Instance by_signature_dec : RelDecision by_signature := λ a b, decide (_ ≤ _).

Lemma bt2020_pq_roundtrip_witness :
  ∃ out recs, bt2020_pq (merge_sort by_signature) (Ok example_base) = Ok out ∧
    read_tag_records out = Ok recs ∧ (tag_signature <$> recs) = fourcc <$> ["A2B0"; "cicp"; "desc"].
Proof.
  destruct (bt2020_pq_roundtrip (merge_sort by_signature)) with (base := example_base)
    (records := [mkTag (fourcc "desc") 156 5; mkTag (fourcc "cicp") 164 4]) as (out & recs & Hout & Hrecs & _).
  - apply merge_sort_Permutation.
  - apply (@Sorted_merge_sort _ by_signature by_signature_dec). intros a b. unfold by_signature. lia.
  - unfold example_base, bytes_ok. rewrite !Forall_app. split_and!; try apply be32_bytes_ok.
    1,2: by apply Forall_replicate.
    1,2: unfold record_bytes; rewrite !Forall_app; split_and!; apply be32_bytes_ok.
    by rewrite !Forall_cons.
  - vm_compute. reflexivity.
  - vm_compute. reflexivity.
  - exists out, recs. split_and!; [done..|].
    assert (bt2020_pq (merge_sort by_signature) (Ok example_base) ≫= read_tag_records = Ok recs) as H.
    { by rewrite Hout. }
    vm_compute in H. injection H as <-. reflexivity.
Defined.
