(* ===== verification/DngReader.v ===== *)
(** * Reading a DNG file into a buffer

    Models src/cpipe/ingest/dng/DngReader.cpp on top of [DngParser] and [Core]:
    the metadata is parsed, the raw samples come from LibRaw (a parameter: what it
    decoded, or [None] when it refused the file) or, failing that, from the file's
    first strip, and both end up in a CPU buffer of 16-bit samples.

    The parser and the strip decoder open the file separately: the contents each
    sees are separate arguments, so safety does not rely on the file staying the
    same.  Allocation is a parameter too: [vector_fails] is the exception a vector
    of so many bytes throws, [alloc] the aligned allocation of [CpuBuffer]. *)

From Stdlib Require Import ZArith Lia SpecFloat String Znumtheory Zpow_facts.
From stdpp Require Import prelude strings list gmap.
From S2P Require Import Prelude Core HalfFloat Float32 DngParser.

Local Open Scope Z_scope.

(** The members of [LibRaw::imgdata] the reader looks at, after a successful
    [open_file] and [unpack] with a raw image; an empty list stands for a null
    pointer or a zero length. *)
Record LibRawData : Type := mkLibRaw {
  lr_make : string;
  lr_model : string;
  lr_iso_speed : float32;
  lr_shutter : float32;
  lr_timestamp : Z;
  lr_aperture : float32;
  lr_focal_len : float32;
  lr_maximum : Z;
  lr_black : Z;
  lr_xmpdata : bytes;
  lr_profile : bytes;
  lr_rawopcode_1 : bytes;
  lr_rawopcode_2 : bytes;
  lr_rawopcode_3 : bytes;
  lr_raw_width : Z;
  lr_raw_height : Z;
  lr_raw_image : list Z
}.

Record DecodedRaw : Type := mkDecoded { dec_bytes : bytes; dec_metadata : ParsedDngMetadata }.

Record DngReadResult : Type := mkRead {
  dr_status : cpipe_status_t;
  dr_buffer : option CpuBuffer;
  dr_message : string
}.

Definition read_failed (status : cpipe_status_t) (message : string) : DngReadResult :=
  mkRead status None message.

(** [static_cast<std::int32_t>(value)]. *)
Definition to_int32 (value : float32) : res Z :=
  z ← to_int64 value; if (- 2 ^ 31 <=? z) && (z <? 2 ^ 31) then Ok z else Undef.

(** Signed 64-bit multiplication. *)
Definition mul_int64 (a b : Z) : res Z :=
  if (- 2 ^ 63 <=? a * b) && (a * b <? 2 ^ 63) then Ok (a * b) else Undef.

Definition positive (x : float32) : bool := SFltb f_zero x.

(** [if (blob.empty()) blob = other]. *)
Definition or_else (blob other : bytes) : bytes := if len blob =? 0 then other else blob.

Definition libraw_capture (image : LibRawData) (m : ParsedDngMetadata) : res CaptureBlock :=
  let c := d_capture m in
  let camera := if bool_decide (d_make m = "") then lr_make image else camera_id c in
  let physical := if bool_decide (d_model m = "") then lr_model image else physical_camera_id c in
  speed ← (if (iso c =? 0) && positive (lr_iso_speed image) then to_int32 (lr_iso_speed image)
           else Ok (iso c));
  exposure ← (if (exposure_time_ns c =? 0) && positive (lr_shutter image)
              then to_int64 (SFmul 24 128 (lr_shutter image) f_1e9) else Ok (exposure_time_ns c));
  stamp ← (if (sensor_timestamp_ns c =? 0) && (0 <? lr_timestamp image)
           then mul_int64 (lr_timestamp image) 1000000000 else Ok (sensor_timestamp_ns c));
  let aperture := if SFeqb (lens_aperture c) f_zero && positive (lr_aperture image)
                  then lr_aperture image else lens_aperture c in
  let focal := if SFeqb (lens_focal_length_mm c) f_zero && positive (lr_focal_len image)
               then lr_focal_len image else lens_focal_length_mm c in
  Ok (mkCapture stamp exposure speed focal aperture (lens_focus_distance_d c) (as_shot_neutral c)
        (orientation c) camera physical (burst_index c) (burst_size c)).

Definition libraw_calibration (image : LibRawData) (cal : CalibrationBlock) : CalibrationBlock :=
  let white := if (white_level cal =? 0) && (0 <? lr_maximum image) then lr_maximum image
               else white_level cal in
  let black := if forallb (λ x, SFeqb x f_zero) (black_level cal) && (0 <? lr_black image)
               then replicate 4 (float_of_int (lr_black image)) else black_level cal in
  mkCalibration (cfa cal) black white (linearization_table cal) (color_matrix1 cal) (color_matrix2 cal)
    (forward_matrix1 cal) (forward_matrix2 cal) (camera_calibration1 cal) (camera_calibration2 cal)
    (calibration_illuminant1 cal) (calibration_illuminant2 cal) (noise_profile cal)
    (lens_distortion cal) (lens_intrinsic cal).

Definition apply_libraw_metadata (image : LibRawData) (m : ParsedDngMetadata) : res ParsedDngMetadata :=
  capture ← libraw_capture image m;
  let make := if bool_decide (d_make m = "") then lr_make image else d_make m in
  let model := if bool_decide (d_model m = "") then lr_model image else d_model m in
  Ok (mkParsed (d_width m) (d_height m) (d_bits_per_sample m) (d_strip_offset m) (d_strip_byte_count m)
        (libraw_calibration image (d_calibration m)) capture (d_active_area m) make model
        (d_linearization_table m) (d_exif_blob m)
        (or_else (d_xmp_blob m) (lr_xmpdata image)) (or_else (d_icc_blob m) (lr_profile image))
        (or_else (d_opcode_list_1 m) (lr_rawopcode_1 image))
        (or_else (d_opcode_list_2 m) (lr_rawopcode_2 image))
        (or_else (d_opcode_list_3 m) (lr_rawopcode_3 image))).

(** [std::copy_n(src + from, n, dst + to)]: undefined outside either array. *)
Definition copy_samples (src dst : list Z) (from to n : Z) : res (list Z) :=
  if (len src <? from + n) || (len dst <? to + n) then Undef else
  Ok (take (Z.to_nat to) dst ++ take (Z.to_nat n) (drop (Z.to_nat from) src) ++
      drop (Z.to_nat (to + n)) dst).

(** The 16-bit samples as the host stores them, little endian. *)
Definition sample_bytes (samples : list Z) : bytes := samples ≫= le16_bytes.

Section Reader.

Variable vector_fails : Z → option exn.
Variable alloc : Z → option bytes.

(** [std::vector<std::byte>(n)]. *)
Definition zero_vector (n : Z) : res bytes :=
  match vector_fails n with Some e => Thrown e | None => Ok (replicate (Z.to_nat n) 0) end.

Definition decode_with_libraw (libraw : option LibRawData) (m : ParsedDngMetadata)
  : res (option DecodedRaw) :=
  match libraw with
  | None => Ok None
  | Some image =>
      m ← apply_libraw_metadata image m;
      let width := d_width m in
      let height := d_height m in
      let raw_width := lr_raw_width image in
      if (width =? 0) || (height =? 0) || (raw_width <? width) || (lr_raw_height image <? height)
      then Ok None else
      raw ← zero_vector (u64 (width * height * 2));
      samples ← foldM (λ output y,
          copy_samples (lr_raw_image image) output (y * raw_width) (y * width) width)
        (replicate (Z.to_nat (len raw / 2)) 0) (seqZ 0 height);
      Ok (Some (mkDecoded (sample_bytes samples) m))
  end.

(** [std::memcpy(dst, src, n)] over the whole of [dst] and [src]. *)
Definition memcpy (dst src : bytes) (n : Z) : res bytes :=
  if (len src <? n) || (len dst <? n) then Undef else
  Ok (take (Z.to_nat n) src ++ drop (Z.to_nat n) dst).

Definition decode_single_strip (file : option bytes) (m : ParsedDngMetadata) : res (option DecodedRaw) :=
  match file with
  | None => Ok None
  | Some bs =>
      if (len bs <? d_strip_offset m) || (len bs - d_strip_offset m <? d_strip_byte_count m)
      then Ok None else
      let expected := u64 (d_width m * d_height m * 2) in
      raw ← zero_vector expected;
      let copy_bytes := Z.min expected (d_strip_byte_count m) in
      raw ← memcpy raw (drop (Z.to_nat (d_strip_offset m)) bs) copy_bytes;
      Ok (Some (mkDecoded raw m))
  end.

Definition make_blob (bs : bytes) : option bytes := if len bs =? 0 then None else Some bs.

Definition insert_blob (key : string) (bs : bytes) (blobs : gmap string bytes) : gmap string bytes :=
  if len bs =? 0 then blobs else <[key := bs]> blobs.

Definition make_metadata (info : ParsedDngMetadata) : BufferMetadata :=
  mkMetadata 1 (Some (d_calibration info)) (d_capture info) [] "raw_camera" (d_active_area info)
    (make_blob (d_exif_blob info)) (make_blob (d_xmp_blob info)) (make_blob (d_icc_blob info))
    None None None default_quant
    (insert_blob "com.cpipe.dng.opcode_list_3_bytes" (d_opcode_list_3 info)
      (insert_blob "com.cpipe.dng.opcode_list_2_bytes" (d_opcode_list_2 info)
        (insert_blob "com.cpipe.dng.opcode_list_1_bytes" (d_opcode_list_1 info) ∅))).

Definition raw_layout (width height : Z) : BufferLayout :=
  mkLayout Image2D R16_UINT 2 [width; height; 0; 0; 0; 0; 0; 0] zeros8.

(** Copy the decoded bytes into the buffer: lock, [memcpy], unlock. *)
Definition fill_buffer (buffer : CpuBuffer) (src : bytes) : res CpuBuffer :=
  '(output, buffer) ← lock_cpu AccessWrite buffer;
  data ← memcpy (default [] output) src (Z.min (len src) (cb_size_bytes buffer));
  unlock_cpu (mkCpuBuffer (cb_layout buffer) (cb_usage buffer) (cb_color_role buffer)
    (cb_metadata buffer) ((λ _, data) <$> output) (cb_size_bytes buffer) (cb_locked buffer)).

(** The second half of [read], once a decoder has succeeded. *)
Definition make_raw_buffer (decoded : DecodedRaw) : res DngReadResult :=
  let m := dec_metadata decoded in
  buffer ← make_cpu_buffer alloc (raw_layout (d_width m) (d_height m))
    (usage_or (usage_or usage_Input usage_CpuRead) usage_CpuWrite) "raw_camera";
  buffer ← fill_buffer buffer (dec_bytes decoded);
  Ok (mkRead CPIPE_OK (Some (buffer_with_metadata buffer (Some (make_metadata m)))) "").

Definition read (file strip_file : option bytes) (libraw : option LibRawData) : res DngReadResult :=
  parsed ← parse file;
  if negb (bool_decide (pr_status parsed = CPIPE_OK)) then
    Ok (read_failed (if bool_decide (pr_status parsed = CPIPE_UNSUPPORTED) then CPIPE_FAILED
                     else pr_status parsed) (pr_message parsed))
  else
  decoded ← decode_with_libraw libraw (pr_metadata parsed);
  decoded ← match decoded with
            | Some d => Ok (Some d)
            | None => decode_single_strip strip_file (pr_metadata parsed)
            end;
  match decoded with
  | None => Ok (read_failed CPIPE_FAILED "failed to decode DNG RAW16 payload")
  | Some d => make_raw_buffer d
  end.

End Reader.

(** ** Specification *)

(** What the reader relies on of LibRaw: the raw image has a sample for every
    pixel. *)
Record libraw_ok (image : LibRawData) : Prop := {
  lr_width_ok : is_u 16 (lr_raw_width image);
  lr_height_ok : is_u 16 (lr_raw_height image);
  lr_image_ok : len (lr_raw_image image) = lr_raw_width image * lr_raw_height image
}.

(** The file lacks a value that LibRaw has, and it does not fit the member it is
    converted to: the speed an [int32_t], the exposure time and the time stamp in
    nanoseconds an [int64_t]. *)
Definition unrepresentable (image : LibRawData) (m : ParsedDngMetadata) : Prop :=
  let c := d_capture m in
  (iso c = 0 ∧ positive (lr_iso_speed image) = true ∧ to_int32 (lr_iso_speed image) = Undef) ∨
  (exposure_time_ns c = 0 ∧ positive (lr_shutter image) = true ∧
     to_int64 (SFmul 24 128 (lr_shutter image) f_1e9) = Undef) ∨
  (sensor_timestamp_ns c = 0 ∧ 2 ^ 63 ≤ lr_timestamp image * 1000000000).

(** A value that the file [gives] is kept; otherwise it becomes what LibRaw has. *)
Definition completed {A} (gives has : bool) (own : A) (new : A → Prop) (result : A) : Prop :=
  if gives || negb has then result = own else new result.

(** The metadata [m'] is [m] with what the file lacks taken from LibRaw. *)
Record completes (image : LibRawData) (m m' : ParsedDngMetadata) : Prop := {
  cp_image : d_width m' = d_width m ∧ d_height m' = d_height m ∧ d_bits_per_sample m' = d_bits_per_sample m ∧
    d_strip_offset m' = d_strip_offset m ∧ d_strip_byte_count m' = d_strip_byte_count m ∧
    d_active_area m' = d_active_area m ∧ d_exif_blob m' = d_exif_blob m;
  cp_make : completed (negb (bool_decide (d_make m = ""))) true (d_make m, camera_id (d_capture m))
    (eq (lr_make image, lr_make image)) (d_make m', camera_id (d_capture m'));
  cp_model : completed (negb (bool_decide (d_model m = ""))) true (d_model m, physical_camera_id (d_capture m))
    (eq (lr_model image, lr_model image)) (d_model m', physical_camera_id (d_capture m'));
  cp_iso : completed (negb (iso (d_capture m) =? 0)) (positive (lr_iso_speed image)) (iso (d_capture m))
    (λ z, to_int32 (lr_iso_speed image) = Ok z) (iso (d_capture m'));
  cp_exposure : completed (negb (exposure_time_ns (d_capture m) =? 0)) (positive (lr_shutter image))
    (exposure_time_ns (d_capture m)) (λ z, to_int64 (SFmul 24 128 (lr_shutter image) f_1e9) = Ok z)
    (exposure_time_ns (d_capture m'));
  cp_stamp : completed (negb (sensor_timestamp_ns (d_capture m) =? 0)) (0 <? lr_timestamp image)
    (sensor_timestamp_ns (d_capture m)) (eq (lr_timestamp image * 1000000000)) (sensor_timestamp_ns (d_capture m'));
  cp_aperture : completed (negb (SFeqb (lens_aperture (d_capture m)) f_zero)) (positive (lr_aperture image))
    (lens_aperture (d_capture m)) (eq (lr_aperture image)) (lens_aperture (d_capture m'));
  cp_focal : completed (negb (SFeqb (lens_focal_length_mm (d_capture m)) f_zero)) (positive (lr_focal_len image))
    (lens_focal_length_mm (d_capture m)) (eq (lr_focal_len image)) (lens_focal_length_mm (d_capture m'));
  cp_white : completed (negb (white_level (d_calibration m) =? 0)) (0 <? lr_maximum image)
    (white_level (d_calibration m)) (eq (lr_maximum image)) (white_level (d_calibration m'));
  cp_black : completed (negb (forallb (λ x, SFeqb x f_zero) (black_level (d_calibration m)))) (0 <? lr_black image)
    (black_level (d_calibration m)) (eq (replicate 4 (float_of_int (lr_black image)))) (black_level (d_calibration m'));
  cp_cfa : cfa (d_calibration m') = cfa (d_calibration m) ∧
    linearization_table (d_calibration m') = linearization_table (d_calibration m) ∧
    color_matrix1 (d_calibration m') = color_matrix1 (d_calibration m) ∧
    color_matrix2 (d_calibration m') = color_matrix2 (d_calibration m);
  cp_blobs : Forall2 (λ own p, completed (negb (len own =? 0)) true own (eq p.1) p.2)
    [d_xmp_blob m; d_icc_blob m; d_opcode_list_1 m; d_opcode_list_2 m; d_opcode_list_3 m]
    [(lr_xmpdata image, d_xmp_blob m'); (lr_profile image, d_icc_blob m'); (lr_rawopcode_1 image, d_opcode_list_1 m');
     (lr_rawopcode_2 image, d_opcode_list_2 m'); (lr_rawopcode_3 image, d_opcode_list_3 m')]
}.

(** The image a file stands for: the cropped samples of LibRaw when it decoded an
    image that is large enough, otherwise the bytes of the first strip, cut or
    padded with zeros to the size of the image. *)
Definition cropped (image : LibRawData) (width height : Z) : list Z :=
  y ← seqZ 0 height; (λ x, default 0 (lr_raw_image image !! Z.to_nat (y * lr_raw_width image + x))) <$> seqZ 0 width.

Definition covers (image : LibRawData) (m : ParsedDngMetadata) : bool :=
  (d_width m <=? lr_raw_width image) && (d_height m <=? lr_raw_height image).

Definition image_size (m : ParsedDngMetadata) : Z := u64 (d_width m * d_height m * 2).

Definition strip_image (strip_file : option bytes) (m : ParsedDngMetadata) : option bytes :=
  bs ← strip_file;
  if bool_decide (d_strip_offset m + d_strip_byte_count m ≤ len bs)
  then Some (take (Z.to_nat (image_size m))
         (subspan bs (d_strip_offset m) (d_strip_byte_count m) ++ replicate (Z.to_nat (image_size m)) 0))
  else None.

Definition raw_image (strip_file : option bytes) (libraw : option LibRawData) (m : ParsedDngMetadata)
  : option bytes :=
  match libraw with
  | Some image => if covers image m then Some (sample_bytes (cropped image (d_width m) (d_height m)))
                  else strip_image strip_file m
  | None => strip_image strip_file m
  end.

(** The metadata the buffer carries: completed by LibRaw when its image is used. *)
Definition carries (libraw : option LibRawData) (m m' : ParsedDngMetadata) : Prop :=
  match libraw with
  | Some image => if covers image m then completes image m m' else m' = m
  | None => m' = m
  end.

(** ** Lemmas *)

Lemma odd_pow_divide k w h : 0 ≤ k → ¬ (2 | w) → (2 ^ k | w * h) → (2 ^ k | h).
Proof.
  intros Hk Hw Hd. apply Gauss with w; [done|]. apply rel_prime_sym, rel_prime_Zpower_r; [lia|].
  apply rel_prime_sym, prime_rel_prime; [apply prime_2|done].
Qed.

(** A product of two 32-bit numbers has no 63 factors of two. *)
Lemma two_pow_split (m n : nat) w h :
  (2 ^ (Z.of_nat m + Z.of_nat n + 1) | w * h) →
  (2 ^ (Z.of_nat m + 1) | w) ∨ (2 ^ (Z.of_nat n + 1) | h).
Proof.
  revert w. induction m as [|m IH]; intros w H.
  - destruct (Zdivide_dec 2 w); [by left|right]. apply (odd_pow_divide _ w); [lia|done..].
  - destruct (Zdivide_dec 2 w) as [[v ->]|Hw].
    + replace (Z.of_nat (S m) + Z.of_nat n + 1) with (1 + (Z.of_nat m + Z.of_nat n + 1)) in H by lia.
      rewrite Z.pow_add_r in H by lia. replace (v * 2 * h) with (2 ^ 1 * (v * h)) in H by lia.
      apply Z.mul_divide_cancel_l in H; [|done].
      destruct (IH v H) as [[c ->]|?]; [left|by right]. exists c. rewrite <-Z.mul_assoc. f_equal.
      rewrite <-(Z.pow_1_r 2) at 2. rewrite <-Z.pow_add_r by lia. f_equal. lia.
    + right. apply odd_pow_divide in H; [|lia|done]. etransitivity; [|exact H].
      exists (2 ^ Z.of_nat (S m)). rewrite <-Z.pow_add_r by lia. f_equal. lia.
Qed.

Lemma image_size_nonzero w h :
  is_u 32 w → is_u 32 h → w ≠ 0 → h ≠ 0 → 0 < u64 (w * h * 2) < 2 ^ 64.
Proof.
  unfold is_u. intros Hw Hh Hw0 Hh0. unfold u64, wrap.
  pose proof (Z.mod_pos_bound (w * h * 2) (2 ^ 64)). cut ((w * h * 2) `mod` 2 ^ 64 ≠ 0); [lia|].
  intros H0%Z.mod_divide; [|done].
  assert (Hd : (2 ^ (Z.of_nat 31 + Z.of_nat 31 + 1) | w * h)).
  { destruct H0 as [c Hc]. exists c. change (2 ^ (Z.of_nat 31 + Z.of_nat 31 + 1)) with (2 ^ 63).
    change (2 ^ 64) with (2 ^ 63 * 2) in Hc. lia. }
  apply two_pow_split in Hd as [Hd|Hd]; apply Z.divide_pos_le in Hd; simpl in Hd; lia.
Qed.

Lemma slice_samples (l : list Z) from n :
  0 ≤ from → 0 ≤ n → from + n ≤ len l →
  take (Z.to_nat n) (drop (Z.to_nat from) l) = (λ x, default 0 (l !! Z.to_nat (from + x))) <$> seqZ 0 n.
Proof.
  intros Hf Hn Hl. unfold len in Hl. apply list_eq. intros i. rewrite list_lookup_fmap.
  destruct (decide (i < Z.to_nat n)%nat) as [Hi|Hi].
  - rewrite lookup_take_lt, lookup_drop by done. rewrite (lookup_seqZ_lt 0 n i) by lia. simpl.
    replace (Z.to_nat (from + (0 + Z.of_nat i))) with (Z.to_nat from + i)%nat by lia.
    destruct (lookup_lt_is_Some_2 l (Z.to_nat from + i)) as [x ->]; [lia|done].
  - rewrite (lookup_seqZ_ge 0 n i) by lia. rewrite lookup_take_ge by lia. done.
Qed.

Section Copy.

Variables (image : LibRawData) (width height : Z).
Hypothesis Himage : libraw_ok image.
Hypothesis Hwidth : 0 ≤ width ≤ lr_raw_width image.
Hypothesis Hheight : 0 ≤ height ≤ lr_raw_height image.

Lemma cropped_snoc n : 0 ≤ n →
  cropped image width (n + 1) = cropped image width n ++
    ((λ x, default 0 (lr_raw_image image !! Z.to_nat (n * lr_raw_width image + x))) <$> seqZ 0 width).
Proof.
  intros Hn. unfold cropped. rewrite seqZ_app by lia. rewrite bind_app. simpl. by rewrite app_nil_r.
Qed.

Lemma len_cropped n : 0 ≤ n → len (cropped image width n) = n * width.
Proof using Hwidth.
  intros Hn. rewrite <-(Z2Nat.id n) by done. induction (Z.to_nat n) as [|k IH]; [done|].
  rewrite Nat2Z.inj_succ, <-Z.add_1_r, cropped_snoc, len_app, IH by lia.
  unfold len. rewrite length_fmap, length_seqZ. lia.
Qed.

(** The rows copied so far are in place, the rest is still zero. *)
Lemma copy_rows (n : nat) : Z.of_nat n ≤ height →
  foldM (λ output y, copy_samples (lr_raw_image image) output (y * lr_raw_width image) (y * width) width)
    (replicate (Z.to_nat (height * width)) 0) (seqZ 0 (Z.of_nat n)) =
  Ok (cropped image width (Z.of_nat n) ++ replicate (Z.to_nat ((height - Z.of_nat n) * width)) 0).
Proof using All.
  destruct Himage as [Hw Hh Himg]. unfold is_u in *.
  induction n as [|n IH]; intros Hn; [simpl; by rewrite Z.sub_0_r|].
  rewrite Nat2Z.inj_succ, <-Z.add_1_r, seqZ_app, foldM_app, IH by lia. simpl.
  pose proof (len_cropped (Z.of_nat n) ltac:(lia)) as Hlc.
  set (k := Z.of_nat n) in *. assert (0 ≤ k) by lia.
  assert (Hsplit : Z.to_nat ((height - k) * width) =
    (Z.to_nat width + Z.to_nat ((height - (k + 1)) * width))%nat) by nia.
  unfold copy_samples. rewrite !Z.add_0_l.
  destruct (Z.ltb_spec (len (lr_raw_image image)) (k * lr_raw_width image + width)); [nia|].
  rewrite len_app, Hlc. unfold len at 1. rewrite length_replicate.
  destruct (Z.ltb_spec (k * width + Z.of_nat (Z.to_nat ((height - k) * width))) (k * width + width)); [nia|].
  simpl. f_equal. rewrite cropped_snoc, slice_samples by nia.
  rewrite take_app_length' by (unfold len in Hlc; lia).
  rewrite <-app_assoc. do 2 f_equal. rewrite drop_app_ge by (unfold len in Hlc; nia).
  rewrite drop_replicate. f_equal. unfold len in Hlc. nia.
Qed.

End Copy.

Lemma len_sample_bytes samples : len (sample_bytes samples) = 2 * len samples.
Proof.
  unfold sample_bytes. induction samples as [|v l IH]; [done|]. rewrite bind_cons, len_app, IH, len_cons.
  change (len (le16_bytes v)) with 2. lia.
Qed.

Lemma to_int64_cases x : to_int64 x = Undef ∨ ∃ z, to_int64 x = Ok z.
Proof. unfold to_int64. destruct x; try (by left); [by right; eexists|]. case_match; [by right; eexists|by left]. Qed.

Lemma to_int32_cases x : to_int32 x = Undef ∨ ∃ z, to_int32 x = Ok z.
Proof.
  unfold to_int32. destruct (to_int64_cases x) as [->|[z ->]]; [by left|]. rewrite Ok_bind.
  case_match; [by right; eexists|by left].
Qed.

Lemma mul_int64_positive t : 0 < t → t * 1000000000 < 2 ^ 63 → mul_int64 t 1000000000 = Ok (t * 1000000000).
Proof. intros. unfold mul_int64. by rewrite (proj2 (Z.leb_le _ _)), (proj2 (Z.ltb_lt _ _)) by lia. Qed.

Lemma completed_if {A} (absent has : bool) (own : A) (new : A → Prop) (value result : A) :
  result = (if absent && has then value else own) → (absent && has = true → new value) →
  completed (negb absent) has own new result.
Proof. intros ->. unfold completed. destruct absent, has; simpl; auto. Qed.

Lemma completed_or (own other : bytes) : completed (negb (len own =? 0)) true own (eq other) (or_else own other).
Proof. apply (completed_if _ _ _ _ other); [by rewrite andb_true_r|done]. Qed.

Lemma completed_text (own own' other : string) :
  completed (negb (bool_decide (own = ""))) true (own, own') (eq (other, other))
    ((if bool_decide (own = "") then other else own), (if bool_decide (own = "") then other else own')).
Proof. apply (completed_if _ _ _ _ (other, other)); [rewrite andb_true_r; by destruct (bool_decide _)|done]. Qed.

(** The conversions of [libraw_capture], one by one. *)
Lemma converted_value (absent has : bool) (own : Z) (convert : res Z) (new : Z → Prop) :
  (absent && has = true → ∃ z, convert = Ok z ∧ new z) →
  ∃ z, (if absent && has then convert else Ok own) = Ok z ∧ completed (negb absent) has own new z.
Proof.
  intros H. unfold completed. destruct absent, has; simpl in *; try (by eexists; split; [done|]).
  destruct (H eq_refl) as (z & -> & Hz). by exists z.
Qed.

(** The file's metadata is completed, or a conversion is undefined. *)
Lemma apply_libraw_metadata_Ok image m :
  ¬ unrepresentable image m → ∃ m', apply_libraw_metadata image m = Ok m' ∧ completes image m m'.
Proof.
  intros Hu. unfold unrepresentable in Hu. unfold apply_libraw_metadata, libraw_capture.
  destruct (converted_value (iso (d_capture m) =? 0) (positive (lr_iso_speed image)) (iso (d_capture m))
    (to_int32 (lr_iso_speed image)) (λ z, to_int32 (lr_iso_speed image) = Ok z)) as (z1 & -> & C1).
  { intros [Hi%Z.eqb_eq Hp]%andb_true_iff. destruct (to_int32_cases (lr_iso_speed image)) as [?|[z Hz]]; [tauto|]. by exists z. }
  destruct (converted_value (exposure_time_ns (d_capture m) =? 0) (positive (lr_shutter image)) (exposure_time_ns (d_capture m))
    (to_int64 (SFmul 24 128 (lr_shutter image) f_1e9)) (λ z, to_int64 (SFmul 24 128 (lr_shutter image) f_1e9) = Ok z)) as (z2 & -> & C2).
  { intros [Hi%Z.eqb_eq Hp]%andb_true_iff.
    destruct (to_int64_cases (SFmul 24 128 (lr_shutter image) f_1e9)) as [?|[z Hz]]; [tauto|]. by exists z. }
  destruct (converted_value (sensor_timestamp_ns (d_capture m) =? 0) (0 <? lr_timestamp image) (sensor_timestamp_ns (d_capture m))
    (mul_int64 (lr_timestamp image) 1000000000) (eq (lr_timestamp image * 1000000000))) as (z3 & -> & C3).
  { intros [Hi%Z.eqb_eq Hp%Z.ltb_lt]%andb_true_iff. eexists. split; [apply mul_int64_positive; [done|]|done].
    destruct (Z.lt_ge_cases (lr_timestamp image * 1000000000) (2 ^ 63)); [done|tauto]. }
  rewrite !Ok_bind. eexists. split; [done|]. split; simpl; try done.
  - apply completed_text.
  - apply completed_text.
  - by apply (completed_if _ _ _ _ (lr_aperture image)).
  - by apply (completed_if _ _ _ _ (lr_focal_len image)).
  - by apply (completed_if _ _ _ _ (lr_maximum image)).
  - by apply (completed_if _ _ _ _ (replicate 4 (float_of_int (lr_black image)))).
  - repeat constructor; apply completed_or.
Qed.

Lemma mul_int64_cases a b : mul_int64 a b = Undef ∨ ∃ z, mul_int64 a b = Ok z.
Proof. unfold mul_int64. case_match; [by right; eexists|by left]. Qed.

Lemma conditional_cases (b : bool) (own : Z) (convert : res Z) :
  convert = Undef ∨ (∃ z, convert = Ok z) →
  (if b then convert else Ok own) = Undef ∨ ∃ z, (if b then convert else Ok own) = Ok z.
Proof. destruct b; [done|]. intros _. right. by eexists. Qed.

Lemma bind3_undef {A} (a b c : res Z) (k : Z → Z → Z → res A) :
  a = Undef ∨ (∃ z, a = Ok z) → b = Undef ∨ (∃ z, b = Ok z) → a = Undef ∨ b = Undef ∨ c = Undef →
  (x ← a; y ← b; z ← c; k x y z) = Undef.
Proof.
  intros [->|[x ->]]; [done|]. intros [->|[y ->]]; [done|]. intros [?|[?| ->]]; done.
Qed.

Lemma apply_libraw_metadata_undef image m : unrepresentable image m → apply_libraw_metadata image m = Undef.
Proof.
  intros Hu. unfold apply_libraw_metadata, libraw_capture. rewrite bind3_undef; [done|..].
  - apply conditional_cases, to_int32_cases.
  - apply conditional_cases, to_int64_cases.
  - destruct Hu as [(-> & -> & ->)|[(-> & -> & ->)|[-> Ht]]]; [by left|right; by left|right; right].
    rewrite (proj2 (Z.ltb_lt 0 _)) by lia. simpl. unfold mul_int64. by rewrite (proj2 (Z.ltb_ge _ _)), andb_false_r by lia.
Qed.

(** ** The decoders *)

Section Decoders.

Variable vector_fails : Z → option exn.
Variable alloc : Z → option bytes.
Variable m : ParsedDngMetadata.
Hypothesis Hw : is_u 32 (d_width m) ∧ d_width m ≠ 0.
Hypothesis Hh : is_u 32 (d_height m) ∧ d_height m ≠ 0.
Hypothesis Hstrip : is_u 32 (d_strip_offset m) ∧ is_u 32 (d_strip_byte_count m).

Lemma image_size_pos : 0 < image_size m < 2 ^ 64.
Proof using Hw Hh. destruct Hw, Hh. by apply image_size_nonzero. Qed.

Lemma covers_size image :
  libraw_ok image → covers image m = true →
  image_size m = d_width m * d_height m * 2 ∧ d_width m ≤ lr_raw_width image ∧
  d_height m ≤ lr_raw_height image.
Proof using Hw Hh Hstrip.
  intros [Hrw Hrh _] [?%Z.leb_le ?%Z.leb_le]%andb_true_iff. split; [|done]. unfold image_size, is_u in *.
  apply u64_small. nia.
Qed.

(** LibRaw's image, when it covers the picture; without enough memory, an exception. *)
Lemma decode_with_libraw_spec image :
  libraw_ok image → ¬ unrepresentable image m → ∃ m', completes image m m' ∧
  decode_with_libraw vector_fails (Some image) m =
    (if covers image m then
       match vector_fails (image_size m) with
       | Some e => Thrown e
       | None => Ok (Some (mkDecoded (sample_bytes (cropped image (d_width m) (d_height m))) m'))
       end
     else Ok None).
Proof using Hw Hh Hstrip.
  intros Hl Hu. destruct (apply_libraw_metadata_Ok image m Hu) as (m' & Hm' & Hcomp). exists m'. split; [done|].
  destruct (cp_image _ _ _ Hcomp) as (Ew & Eh & _).
  simpl. rewrite Hm', Ok_bind, Ew, Eh. rewrite !(proj2 (Z.eqb_neq _ _)) by tauto. simpl.
  rewrite !Z.ltb_antisym, <-negb_andb. fold (covers image m).
  destruct (covers image m) eqn:Hc; [simpl|done].
  destruct (covers_size image Hl Hc) as (Hs & ? & ?). fold (image_size m). unfold zero_vector.
  destruct (vector_fails (image_size m)); [done|]. rewrite Ok_bind.
  replace (len (replicate (Z.to_nat (image_size m)) 0) / 2) with (d_height m * d_width m).
  2: { unfold len. rewrite length_replicate, Z2Nat.id by (pose proof image_size_pos; lia). rewrite Hs.
       rewrite Z.div_mul by done. lia. }
  unfold is_u in *. replace (seqZ 0 (d_height m)) with (seqZ 0 (Z.of_nat (Z.to_nat (d_height m))))
    by (f_equal; lia).
  rewrite (copy_rows image (d_width m) (d_height m)) by (done || lia). rewrite Ok_bind.
  rewrite Z2Nat.id, Z.sub_diag by lia. simpl. by rewrite app_nil_r.
Qed.

Lemma decode_single_strip_spec file :
  decode_single_strip vector_fails file m =
  match strip_image file m with
  | None => Ok None
  | Some data => match vector_fails (image_size m) with
                 | Some e => Thrown e
                 | None => Ok (Some (mkDecoded data m))
                 end
  end.
Proof using Hw Hh Hstrip.
  destruct file as [bs|]; [|done]. pose proof image_size_pos as Hs. destruct Hstrip as [Ho Hc].
  unfold is_u in *. simpl. fold (image_size m).
  assert (Hcheck : (len bs <? d_strip_offset m) || (len bs - d_strip_offset m <? d_strip_byte_count m) =
    negb (bool_decide (d_strip_offset m + d_strip_byte_count m ≤ len bs))).
  { destruct (bool_decide_reflect (d_strip_offset m + d_strip_byte_count m ≤ len bs)); simpl.
    - apply orb_false_iff. split; apply Z.ltb_ge; lia.
    - apply orb_true_iff. destruct (Z.ltb_spec (len bs) (d_strip_offset m)); [by left|right].
      apply Z.ltb_lt. lia. }
  rewrite Hcheck. destruct (bool_decide_reflect (d_strip_offset m + d_strip_byte_count m ≤ len bs)); [simpl|done].
  unfold zero_vector. destruct (vector_fails (image_size m)); [done|]. rewrite Ok_bind.
  unfold memcpy, len in *. rewrite length_drop, length_replicate.
  rewrite !(proj2 (Z.ltb_ge _ _)) by lia. simpl. do 3 f_equal.
  set (rest := drop _ bs). unfold subspan. fold rest. rewrite take_app, take_take, take_replicate, drop_replicate.
  assert (Hlr : Z.of_nat (length rest) = Z.of_nat (length bs) - d_strip_offset m)
    by (unfold rest; rewrite length_drop; lia).
  rewrite length_take. f_equal; f_equal; lia.
Qed.

Lemma len_raw_image file libraw data :
  (∀ image, libraw = Some image → libraw_ok image) →
  raw_image file libraw m = Some data → len data = image_size m.
Proof using Hw Hh Hstrip.
  pose proof image_size_pos. intros Hl. unfold raw_image.
  assert (Hst : strip_image file m = Some data → len data = image_size m).
  { destruct file as [bs|]; simpl; [|done]. destruct (bool_decide _); [|done]. intros [= <-].
    unfold len. rewrite length_take, length_app, length_replicate. lia. }
  destruct libraw as [image|]; [|done]. specialize (Hl image eq_refl).
  destruct (covers image m) eqn:Hc; [|done]. destruct (covers_size image Hl Hc) as (-> & ? & ?). intros [= <-].
  unfold is_u in *. rewrite len_sample_bytes, len_cropped by (done || lia). lia.
Qed.

(** The buffer that is returned. *)
Definition raw_buffer (m' : ParsedDngMetadata) (data : bytes) : CpuBuffer :=
  mkCpuBuffer (raw_layout (d_width m) (d_height m))
    (usage_or (usage_or usage_Input usage_CpuRead) usage_CpuWrite) "raw_camera"
    (Some (make_metadata m')) (Some data) (image_size m) false.

Lemma make_raw_buffer_spec m' data :
  d_width m' = d_width m → d_height m' = d_height m → len data = image_size m →
  (∀ n d, alloc n = Some d → len d = n) →
  make_raw_buffer alloc (mkDecoded data m') =
  match alloc (image_size m) with
  | None => Thrown aborted
  | Some _ => Ok (mkRead CPIPE_OK (Some (raw_buffer m' data)) "")
  end.
Proof using Hw Hh Hstrip.
  intros Ew Eh Hlen Halloc. pose proof image_size_pos as Hs.
  unfold make_raw_buffer. simpl dec_metadata. rewrite Ew, Eh. unfold make_cpu_buffer.
  assert (size_bytes (raw_layout (d_width m) (d_height m)) = image_size m) as ->.
  { rewrite size_bytes_dense; [|done|simpl; lia|by repeat constructor]. unfold image_size. simpl.
    f_equal. lia. }
  rewrite (proj2 (Z.eqb_neq _ _)) by lia.
  destruct (alloc (image_size m)) as [d|] eqn:Ha; [|done]. apply Halloc in Ha. rewrite Ok_bind.
  unfold fill_buffer, lock_cpu. simpl. unfold memcpy. rewrite Hlen, Z.min_id, Ha, Z.ltb_irrefl. simpl.
  unfold buffer_with_metadata, buffer_with_lock, raw_buffer. simpl. unfold len in *.
  rewrite take_ge, drop_ge, app_nil_r by lia. done.
Qed.

End Decoders.

(** What the reader makes of accepted metadata [m], completed to [m']. *)
Definition decoded_result (vector_fails : Z → option exn) (alloc : Z → option bytes)
    (strip_file : option bytes) (libraw : option LibRawData) (m m' : ParsedDngMetadata) : res DngReadResult :=
  match raw_image strip_file libraw m with
  | None => Ok (read_failed CPIPE_FAILED "failed to decode DNG RAW16 payload")
  | Some data =>
      match vector_fails (image_size m), alloc (image_size m) with
      | Some e, _ => Thrown e
      | None, None => Thrown aborted
      | None, Some _ => Ok (mkRead CPIPE_OK (Some (raw_buffer m m' data)) "")
      end
  end.

Section Decoded.

Variables (vector_fails : Z → option exn) (alloc : Z → option bytes) (strip_file : option bytes)
  (m : ParsedDngMetadata).
Hypothesis Hw : is_u 32 (d_width m) ∧ d_width m ≠ 0.
Hypothesis Hh : is_u 32 (d_height m) ∧ d_height m ≠ 0.
Hypothesis Hstrip : is_u 32 (d_strip_offset m) ∧ is_u 32 (d_strip_byte_count m).
Hypothesis Halloc : ∀ n d, alloc n = Some d → len d = n.

(** The rest of [read] once the metadata is accepted. *)
Definition decode_all (libraw : option LibRawData) : res DngReadResult :=
  decoded ← decode_with_libraw vector_fails libraw m;
  decoded ← match decoded with
            | Some d => Ok (Some d)
            | None => decode_single_strip vector_fails strip_file m
            end;
  match decoded with
  | None => Ok (read_failed CPIPE_FAILED "failed to decode DNG RAW16 payload")
  | Some d => make_raw_buffer alloc d
  end.

Lemma strip_decoded libraw :
  decode_with_libraw vector_fails libraw m = Ok None → raw_image strip_file libraw m = strip_image strip_file m →
  decode_all libraw = decoded_result vector_fails alloc strip_file libraw m m.
Proof using All.
  intros Hd Hr. unfold decode_all, decoded_result. rewrite Hd, Ok_bind, decode_single_strip_spec, Hr by done.
  destruct (strip_image strip_file m) as [data|] eqn:Hs; [|done]. destruct (vector_fails _); [done|]. rewrite Ok_bind.
  apply make_raw_buffer_spec; try done. by apply (len_raw_image m Hw Hh Hstrip strip_file None).
Qed.

Lemma read_decoded libraw :
  (∀ image, libraw = Some image → libraw_ok image ∧ ¬ unrepresentable image m) →
  ∃ m', carries libraw m m' ∧ decode_all libraw = decoded_result vector_fails alloc strip_file libraw m m'.
Proof using All.
  intros Hl. destruct libraw as [image|]; [|exists m; split; [done|by apply strip_decoded]].
  destruct (Hl image eq_refl) as [Hok Hu].
  destruct (decode_with_libraw_spec vector_fails m Hw Hh Hstrip image Hok Hu) as (m' & Hc & Hd). simpl carries.
  destruct (covers image m) eqn:Hcov; [|exists m; split; [done|by apply strip_decoded; [|simpl; rewrite Hcov]]].
  exists m'. split; [done|]. unfold decode_all, decoded_result. rewrite Hd. simpl raw_image. rewrite Hcov.
  destruct (vector_fails _); [done|]. rewrite !Ok_bind. destruct (cp_image _ _ _ Hc) as (? & ? & _).
  apply make_raw_buffer_spec; try done.
  apply (len_raw_image m Hw Hh Hstrip strip_file (Some image)); [by intros ? [= <-]|]. simpl. by rewrite Hcov.
Qed.

Lemma read_undecoded image : unrepresentable image m → decode_all (Some image) = Undef.
Proof. intros Hu. unfold decode_all. simpl. by rewrite apply_libraw_metadata_undef. Qed.

End Decoded.

(** ** Theorem *)


(** ** Witness *)

Definition example_libraw : LibRawData :=
  mkLibRaw "Make" "Model" (float_of_int 100) (float_of_int 1) 1700000000 (float_of_int 2) (float_of_int 24)
    1023 64 [] [] [] [] [1; 2] 5 2 [10; 11; 12; 13; 99; 20; 21; 22; 23; 99].

Definition example_alloc (n : Z) : option bytes :=
  if 0 <=? n then Some (replicate (Z.to_nat n) 255) else None.

(** A time stamp that overflows. *)
Definition late_libraw : LibRawData :=
  mkLibRaw "Make" "Model" (float_of_int 100) (float_of_int 1) (2 ^ 62) (float_of_int 2) (float_of_int 24)
    1023 64 [] [] [] [] [1; 2] 5 2 [10; 11; 12; 13; 99; 20; 21; 22; 23; 99].

