(* ===== verification/LutLoader.v ===== *)
(** * The 3D LUT loader

    Models src/cpipe/color/Cube3dLutLoader.cpp: the .cube and .spi3d readers, with
    the stream extractions they use ([std::getline] and [operator>>] into
    strings, [int], [float] and [double] in the C locale, as text functions that
    return the value and the rest, or nothing when the stream fails).  Numbers are
    rounded correctly to the target format.

    The theorems: a loaded table has a sample for every grid point; a .cube file
    is its rows in file order; a .spi3d file is accepted exactly when its rows are
    in range and cover the grid, and each sample is the last row for its point. *)

From Stdlib Require Import ZArith Lia Ascii String SpecFloat.
From stdpp Require Import prelude strings list.
From S2P Require Import Prelude Core HalfFloat StateRes EditorAssets.

Local Open Scope Z_scope.
#[local] Arguments ascii_dec : simpl never.

(** ** Stream extraction *)

(** [stream >> token]: the characters up to white space, at least one. *)
Fixpoint take_token (s : string) : string * string :=
  match s with
  | String c s' => if is_space c then ("", s) else let '(t, r) := take_token s' in (String c t, r)
  | EmptyString => ("", "")
  end.

Definition stream_string (s : string) : option (string * string) :=
  let '(t, r) := take_token (skip_spaces s) in if bool_decide (t = "") then None else Some (t, r).

Definition take_sign (s : string) : bool * string :=
  match s with
  | String "-" s' => (true, s')
  | String "+" s' => (false, s')
  | _ => (false, s)
  end.

(** [stream >> value] into an [int]: a value that does not fit fails. *)
Definition stream_int (s : string) : option (Z * string) :=
  let '(neg, s) := take_sign (skip_spaces s) in
  '(v, rest) ← read_digits s;
  let v := if neg then - v else v in
  if (- 2 ^ 31 <=? v) && (v <? 2 ^ 31) then Some (v, rest) else None.

(** A run of digits: its value, how many there are, the rest. *)
Fixpoint digit_run (acc : Z) (n : nat) (s : string) : Z * nat * string :=
  match s with
  | String c s' => if is_digit c then digit_run (10 * acc + digit_value c) (S n) s' else (acc, n, s)
  | EmptyString => (acc, n, EmptyString)
  end.

(** The decimal mantissa: digits, optionally a dot and digits, at least one digit.
    [mantissa * 10^-scale]. *)
Definition take_mantissa (s : string) : option (Z * Z * string) :=
  let '(whole, n, s) := digit_run 0 0 s in
  let '(m, n', k, s) := match s with
    | String "." s' => let '(m, k, s'') := digit_run whole 0 s' in (m, (n + k)%nat, k, s'')
    | _ => (whole, n, 0%nat, s) end in
  if bool_decide (n' = 0%nat) then None else Some (m, Z.of_nat k, s).

(** The exponent: an [e] the stream has consumed must be followed by digits. *)
Definition take_exponent (s : string) : option (Z * string) :=
  match s with
  | String c s' =>
      if bool_decide (c = "e"%char) || bool_decide (c = "E"%char) then
        let '(neg, s'') := take_sign s' in
        '(v, rest) ← read_digits s''; Some (if neg then - v else v, rest)
      else Some (0, s)
  | EmptyString => Some (0, s)
  end.

(** The float nearest to [m * 10^e], for [m >= 0]. *)
Definition decimal_float (prec emax : Z) (neg : bool) (m e : Z) : spec_float :=
  match m with
  | Z.pos p =>
      if 0 <=? e then binary_round prec emax neg (p * Z.to_pos (10 ^ e)) 0
      else let '(mz, ez, lz) := SFdiv_core_binary prec emax (Z.pos p) 0 (10 ^ (- e)) 0 in
           binary_round_aux prec emax neg mz ez lz
  | _ => S754_zero neg
  end.

(** [stream >> value] into a floating-point number: a value too large fails. *)
Definition stream_float (prec emax : Z) (s : string) : option (spec_float * string) :=
  let '(neg, s) := take_sign (skip_spaces s) in
  '(m, scale, s) ← take_mantissa s;
  '(e, s) ← take_exponent s;
  match decimal_float prec emax neg m (e - scale) with
  | S754_infinity _ | S754_nan => None
  | v => Some (v, s)
  end.

Definition stream_f32 : string → option (float32 * string) := stream_float 24 128.
Definition stream_f64 : string → option (spec_float * string) := stream_float 53 1024.

(** [std::getline] until it fails: a final newline does not start a line. *)
Fixpoint split_lines (s : string) : list string :=
  match s with
  | EmptyString => [""]
  | String c s' =>
      if bool_decide (c = "010"%char) then "" :: split_lines s'
      else match split_lines s' with
           | w :: ws => String c w :: ws
           | [] => [String c ""]
           end
  end.

Definition getlines (s : string) : list string :=
  let ls := split_lines s in
  if bool_decide (last ls = Some "") then take (length ls - 1) ls else ls.

(** ** The loader *)

Record Cube3dLut : Type := mkLut { lut_size : Z; lut_values : list float32 }.
Definition empty_lut : Cube3dLut := mkLut 0 [].

Definition lower_char (c : ascii) : ascii :=
  let n := N_of_ascii c in
  if (65 <=? n)%N && (n <=? 90)%N then ascii_of_N (n + 32)%N else c.

Fixpoint lower (s : string) : string :=
  match s with String c s' => String (lower_char c) (lower s') | EmptyString => EmptyString end.

Definition lower_extension (path : string) : string := lower (extension path).

Fixpoint strip_comment (line : string) : string :=
  match line with
  | String c s => if bool_decide (c = "#"%char) then "" else String c (strip_comment s)
  | EmptyString => EmptyString
  end.

Definition value_count_for_size (size : Z) : Z := u64 (size * size * size * 3).

Definition valid_size (size : Z) : res unit :=
  if size <? 2 then Fail CPIPE_FAILED "3D LUT size must be at least 2"
  else if 256 <? size then Fail CPIPE_FAILED "3D LUT size above P2 loader limit"
  else Ok tt.

(** [row >> r >> g >> b]. *)
Definition stream_rgb (s : string) : option (float32 * float32 * float32 * string) :=
  '(r, s) ← stream_f32 s; '(g, s) ← stream_f32 s; '(b, s) ← stream_f32 s; Some (r, g, b, s).

(** One line of a .cube file. *)
Definition cube_line (acc : Z * list float32) (line : string) : res (Z * list float32) :=
  let '(size, values) := acc in
  let row := strip_comment line in
  match stream_string row with
  | None => Ok (size, values)
  | Some (head, rest) =>
      if decide (head = "TITLE" ∨ head = "DOMAIN_MIN" ∨ head = "DOMAIN_MAX") then Ok (size, values)
      else if decide (head = "LUT_3D_SIZE") then
        match stream_int rest with
        | Some (parsed_size, _) =>
            if parsed_size <? 0 then Fail CPIPE_FAILED "invalid LUT_3D_SIZE" else
            _ ← valid_size parsed_size; Ok (parsed_size, values)
        | None => Fail CPIPE_FAILED "invalid LUT_3D_SIZE"
        end
      else match stream_rgb row with
           | Some (r, g, b, _) => Ok (size, values ++ [r; g; b])
           | None => Fail CPIPE_FAILED "invalid .cube RGB row"
           end
  end.

Definition load_cube (input : string) : res Cube3dLut :=
  '(size, values) ← foldM cube_line (0, []) (getlines input);
  if size =? 0 then Fail CPIPE_FAILED "missing LUT_3D_SIZE" else
  if negb (len values =? value_count_for_size size)
  then Fail CPIPE_FAILED "wrong number of .cube RGB rows" else
  Ok (mkLut size values).

(** A sample row of a .spi3d file. *)
Record SpiRow : Type := mkSpiRow { sr_r : Z; sr_g : Z; sr_b : Z; sr_rgb : float32 * float32 * float32 }.

Definition stream_spi_row (s : string) : option (SpiRow * string) :=
  '(r, s) ← stream_int s; '(g, s) ← stream_int s; '(b, s) ← stream_int s;
  '(x, y, z, s) ← stream_rgb s; Some (mkSpiRow r g b (x, y, z), s).

Definition grid_index (size r g b : Z) : Z := r * size * size + g * size + b.

Definition spi3d_row (size : Z) (acc : list float32 * list bool) (row : SpiRow)
  : res (list float32 * list bool) :=
  let '(values, seen) := acc in
  let '(r, g, b) := (sr_r row, sr_g row, sr_b row) in
  if (r <? 0) || (g <? 0) || (b <? 0) || (size <=? r) || (size <=? g) || (size <=? b)
  then Fail CPIPE_FAILED ".spi3d index out of range" else
  let index := u64 (grid_index size r g b) in
  let offset := u64 (index * 3) in
  let '(x, y, z) := sr_rgb row in
  values ← write_at values offset x;
  values ← write_at values (offset + 1) y;
  values ← write_at values (offset + 2) z;
  seen ← write_at seen index true;
  Ok (values, seen).

(** [while (input >> r >> g >> b >> out_r >> out_g >> out_b)]; running out of
    fuel is undefined, so a result shows that the fuel was enough. *)
Fixpoint spi3d_loop (fuel : nat) (size : Z) (acc : list float32 * list bool) (input : string)
  : res (list float32 * list bool) :=
  match fuel with
  | O => Undef
  | S n => match stream_spi_row input with
           | Some (row, rest) => acc ← spi3d_row size acc row; spi3d_loop n size acc rest
           | None => Ok acc
           end
  end.

Definition spi3d_magic (input : string) : option string :=
  '(magic, s) ← stream_string input; '(_, s) ← stream_f64 s;
  if bool_decide (magic = "SPILUT") then Some s else None.

Definition spi3d_components (input : string) : option string :=
  '(input_dims, s) ← stream_int input; '(output_dims, s) ← stream_int s;
  if (input_dims =? 3) && (output_dims =? 3) then Some s else None.

Definition spi3d_grid (input : string) : option (Z * string) :=
  '(r, s) ← stream_int input; '(g, s) ← stream_int s; '(b, s) ← stream_int s;
  if (r =? g) && (g =? b) && (0 <=? r) then Some (r, s) else None.

(** The header: the size of the grid and the rows that follow. *)
Definition spi3d_header (input : string) : res (Z * string) :=
  input ← of_option (Fail CPIPE_FAILED "missing SPILUT header") (spi3d_magic input);
  input ← of_option (Fail CPIPE_FAILED "unsupported .spi3d component count") (spi3d_components input);
  '(size, input) ← of_option (Fail CPIPE_FAILED "unsupported .spi3d grid dimensions") (spi3d_grid input);
  _ ← valid_size size;
  Ok (size, input).

Definition load_spi3d (input : string) : res Cube3dLut :=
  '(size, input) ← spi3d_header input;
  let values := replicate (Z.to_nat (value_count_for_size size)) f_zero in
  let seen := replicate (Z.to_nat (value_count_for_size size / 3)) false in
  '(values, seen) ← spi3d_loop (S (String.length input)) size (values, seen) input;
  if negb (forallb (λ v : bool, v) seen) then Fail CPIPE_FAILED "missing .spi3d sample rows" else
  Ok (mkLut size values).

(** [Cube3dLut::at]. *)
Definition lut_at (lut : Cube3dLut) (r g b : Z) : res (list float32) :=
  let offset := u64 (u64 (grid_index (lut_size lut) r g b) * 3) in
  let value i := of_option Undef (lut_values lut !! Z.to_nat i) in
  x ← value offset; y ← value (offset + 1); z ← value (offset + 2); Ok [x; y; z].

(** [Cube3dLutLoader::load]: the table left in [*out], and the status.  [file] is
    the text of the file, if it can be opened. *)
Definition load (path : string) (file : option string) : res Cube3dLut :=
  match file with
  | None => Fail CPIPE_FAILED "failed to open 3D LUT file"
  | Some input =>
      let ext := lower_extension path in
      if decide (ext = ".cube") then load_cube input
      else if decide (ext = ".spi3d") then load_spi3d input
      else Fail CPIPE_UNSUPPORTED "unsupported 3D LUT extension"
  end.

Definition load_out (path : string) (file : option string) (out : option Cube3dLut)
  : res (cpipe_status_t * option Cube3dLut * string) :=
  match out with
  | None => Ok (CPIPE_BAD_INDEX, None, "output LUT pointer is null")
  | Some _ =>
      match load path file with
      | Ok lut => Ok (CPIPE_OK, Some lut, "")
      | Fail st msg => Ok (st, Some empty_lut, msg)
      | Thrown e => Thrown e
      | Undef => Undef
      end
  end.

(** ** Specification *)

(** A table with a sample for every grid point. *)
Definition lut_ok (lut : Cube3dLut) : Prop :=
  2 ≤ lut_size lut ≤ 256 ∧ len (lut_values lut) = 3 * (lut_size lut * lut_size lut * lut_size lut) ∧
  ∀ r g b, 0 ≤ r < lut_size lut → 0 ≤ g < lut_size lut → 0 ≤ b < lut_size lut →
    ∃ x y z, lut_at lut r g b = Ok [x; y; z].

(** The sample rows a .spi3d text starts with. *)
Fixpoint rows_of (fuel : nat) (input : string) : list SpiRow :=
  match fuel with
  | O => []
  | S n => match stream_spi_row input with Some (row, rest) => row :: rows_of n rest | None => [] end
  end.
Definition spi_rows (input : string) : list SpiRow := rows_of (S (String.length input)) input.

Definition in_grid (size : Z) (row : SpiRow) : Prop :=
  0 ≤ sr_r row < size ∧ 0 ≤ sr_g row < size ∧ 0 ≤ sr_b row < size.
#[export] Instance in_grid_dec size row : Decision (in_grid size row).
Proof. unfold in_grid. apply _. Defined.

Definition rgb_list (rgb : float32 * float32 * float32) : list float32 :=
  let '(x, y, z) := rgb in [x; y; z].

(** The colour of the last row for a grid point. *)
Definition last_sample (rows : list SpiRow) (r g b : Z) : option (list float32) :=
  foldl (λ acc row, if decide (sr_r row = r ∧ sr_g row = g ∧ sr_b row = b)
                    then Some (rgb_list (sr_rgb row)) else acc) None rows.

(** The colour a line of a .cube file contributes. *)
Definition cube_row (line : string) : option (list float32) :=
  '(head, _) ← stream_string (strip_comment line);
  if decide (head ∈ ["TITLE"; "DOMAIN_MIN"; "DOMAIN_MAX"; "LUT_3D_SIZE"]) then None
  else '(r, g, b, _) ← stream_rgb (strip_comment line); Some [r; g; b].

Definition cube_rows (input : string) : list (list float32) := omap cube_row (getlines input).

(** ** Streams consume their input *)

Local Abbreviation slen := String.length.

Lemma skip_spaces_len s : (slen (skip_spaces s) ≤ slen s)%nat.
Proof. induction s as [|c s IH]; simpl; [done|]. destruct (is_space c); simpl; lia. Qed.

Lemma take_sign_len s : (slen (take_sign s).2 ≤ slen s)%nat.
Proof.
  unfold take_sign. destruct s as [|c s]; [done|].
  destruct c as [[] [] [] [] [] [] [] []]; simpl; lia.
Qed.

Lemma take_digits_len s : ∀ acc, (slen (take_digits acc s).2 ≤ slen s)%nat.
Proof.
  induction s as [|c s IH]; intros acc; [done|]. simpl. destruct (is_digit c); [|done].
  specialize (IH (10 * acc + digit_value c)). lia.
Qed.

Lemma read_digits_len s v r : read_digits s = Some (v, r) → (slen r < slen s)%nat.
Proof.
  destruct s as [|c s]; [done|]. simpl. destruct (is_digit c) eqn:E; [|done]. intros H.
  pose proof (take_digits_len s (10 * 0 + digit_value c)) as Hl.
  injection H as H. rewrite H in Hl. simpl in Hl. lia.
Qed.

Lemma stream_int_len s v r : stream_int s = Some (v, r) → (slen r < slen s)%nat.
Proof.
  unfold stream_int. pose proof (take_sign_len (skip_spaces s)) as H1. pose proof (skip_spaces_len s) as H2.
  destruct (take_sign (skip_spaces s)) as [neg s']. simpl in H1.
  destruct (read_digits s') as [[v' r']|] eqn:E; simpl; [|done]. apply read_digits_len in E.
  destruct (_ && _); [|done]. intros [= _ <-]. lia.
Qed.

Lemma digit_run_len s : ∀ acc n, (slen (digit_run acc n s).2 ≤ slen s)%nat.
Proof.
  induction s as [|c s IH]; intros acc n; [done|]. simpl. destruct (is_digit c); [|done].
  specialize (IH (10 * acc + digit_value c) (S n)). lia.
Qed.

Lemma take_mantissa_len s m k r : take_mantissa s = Some (m, k, r) → (slen r ≤ slen s)%nat.
Proof.
  unfold take_mantissa. pose proof (digit_run_len s 0 0) as H1. destruct (digit_run 0 0 s) as [[w n] s1].
  simpl in H1.
  assert (H2 : (slen (match s1 with
    | String "." s' => let '(m, k, s'') := digit_run w 0 s' in (m, (n + k)%nat, k, s'')
    | _ => (w, n, 0%nat, s1) end).2 ≤ slen s1)%nat).
  { destruct s1 as [|c s2]; [done|]. pose proof (digit_run_len s2 w 0).
    destruct c as [[] [] [] [] [] [] [] []]; try done. destruct (digit_run w 0 s2) as [[? ?] ?]. simpl in *. lia. }
  match type of H2 with (slen ?q.2 ≤ _)%nat => destruct q as [[[m' n'] k'] s5] end. simpl in H2.
  destruct (bool_decide _); [done|]. intros [= _ _ <-]. lia.
Qed.

Lemma take_exponent_len s e r : take_exponent s = Some (e, r) → (slen r ≤ slen s)%nat.
Proof.
  unfold take_exponent. destruct s as [|c s]; [by intros [= _ <-]|].
  destruct (_ || _); [|by intros [= _ <-]]. pose proof (take_sign_len s) as H1.
  destruct (take_sign s) as [neg s1]. simpl in H1. destruct (read_digits s1) as [[v r']|] eqn:E; [|done].
  apply read_digits_len in E. intros [= _ <-]. simpl. lia.
Qed.

Lemma stream_float_len prec emax s v r : stream_float prec emax s = Some (v, r) → (slen r ≤ slen s)%nat.
Proof.
  unfold stream_float. pose proof (take_sign_len (skip_spaces s)) as H1. pose proof (skip_spaces_len s) as H2.
  destruct (take_sign (skip_spaces s)) as [neg s1]. simpl in H1.
  destruct (take_mantissa s1) as [[[m k] s2]|] eqn:E1; [|done]. apply take_mantissa_len in E1. simpl.
  destruct (take_exponent s2) as [[e s3]|] eqn:E2; [|done]. apply take_exponent_len in E2. simpl.
  destruct (decimal_float _ _ _ _ _); intros H; inversion H; subst; lia.
Qed.

Lemma stream_rgb_len s r g b rest : stream_rgb s = Some (r, g, b, rest) → (slen rest ≤ slen s)%nat.
Proof.
  unfold stream_rgb, stream_f32. intros H.
  destruct (stream_float 24 128 s) as [[v1 s1]|] eqn:E1; [|done]. simpl in H.
  destruct (stream_float 24 128 s1) as [[v2 s2]|] eqn:E2; [|done]. simpl in H.
  destruct (stream_float 24 128 s2) as [[v3 s3]|] eqn:E3; [|done]. injection H as <- <- <- <-.
  apply stream_float_len in E1, E2, E3. lia.
Qed.

Lemma stream_spi_row_len s row rest : stream_spi_row s = Some (row, rest) → (slen rest < slen s)%nat.
Proof.
  unfold stream_spi_row. intros H.
  destruct (stream_int s) as [[v1 s1]|] eqn:E1; [|done]. simpl in H.
  destruct (stream_int s1) as [[v2 s2]|] eqn:E2; [|done]. simpl in H.
  destruct (stream_int s2) as [[v3 s3]|] eqn:E3; [|done]. simpl in H.
  destruct (stream_rgb s3) as [[[[x y] z] s4]|] eqn:E4; [|done]. injection H as <- <-.
  apply stream_int_len in E1, E2, E3. apply stream_rgb_len in E4. lia.
Qed.

(** The loop is a fold over the rows: its fuel is enough. *)
Lemma spi3d_loop_rows size fuel : ∀ input acc, (slen input < fuel)%nat →
  spi3d_loop fuel size acc input = foldM (spi3d_row size) acc (rows_of fuel input).
Proof.
  induction fuel as [|fuel IH]; intros input acc Hf; [lia|]. simpl.
  destruct (stream_spi_row input) as [[row rest]|] eqn:E; [|done]. apply stream_spi_row_len in E. simpl.
  destruct (spi3d_row size acc row) as [acc'| | |]; [simpl; apply IH; lia|done..].
Qed.

(** ** The grid *)

Definition point_ok (size r g b : Z) : Prop := 0 ≤ r < size ∧ 0 ≤ g < size ∧ 0 ≤ b < size.

Section Grid.

Variable n : Z.
Hypothesis Hn : 2 ≤ n ≤ 256.

Lemma grid_bound r g b : point_ok n r g b → 0 ≤ grid_index n r g b < n * n * n.
Proof using Hn.
  intros (Hr & Hg & Hb). unfold grid_index. split; [nia|].
  assert (0 ≤ r * n + g < n * n) by nia. nia.
Qed.

Lemma grid_small r g b : point_ok n r g b →
  u64 (grid_index n r g b) = grid_index n r g b ∧ u64 (grid_index n r g b * 3) = 3 * grid_index n r g b ∧
  3 * grid_index n r g b + 2 < 3 * (n * n * n) ∧ n * n * n ≤ 256 * 256 * 256.
Proof using Hn.
  intros H%grid_bound. assert (n * n ≤ 256 * 256) by nia. assert (n * n * n ≤ 256 * 256 * 256) by nia.
  rewrite !u64_small by lia. lia.
Qed.

Lemma grid_inj r g b r' g' b' : point_ok n r g b → point_ok n r' g' b' →
  grid_index n r g b = grid_index n r' g' b' → r = r' ∧ g = g' ∧ b = b'.
Proof using Hn.
  intros (Hr & Hg & Hb) (Hr' & Hg' & Hb') H. unfold grid_index in H.
  destruct (Z.div_mod_unique n (r * n + g) (r' * n + g') b b') as [Hq ->]; [lia..|].
  destruct (Z.div_mod_unique n r r' g g') as [-> ->]; [lia..|]. done.
Qed.

(** Every index is the index of a grid point. *)
Lemma grid_surj i : 0 ≤ i < n * n * n → ∃ r g b, point_ok n r g b ∧ grid_index n r g b = i.
Proof using Hn.
  intros Hi. exists (i / n / n), ((i / n) `mod` n), (i `mod` n). unfold point_ok, grid_index.
  assert (i / n < n * n) by (apply Z.div_lt_upper_bound; nia).
  assert (0 ≤ i / n) by (apply Z.div_pos; lia).
  assert (i / n / n < n) by (apply Z.div_lt_upper_bound; nia).
  assert (0 ≤ i / n / n) by (apply Z.div_pos; lia).
  pose proof (Z.mod_pos_bound i n). pose proof (Z.mod_pos_bound (i / n) n).
  pose proof (Z.div_mod i n). pose proof (Z.div_mod (i / n) n). split; [lia|nia].
Qed.

Lemma value_count : value_count_for_size n = 3 * (n * n * n).
Proof using Hn.
  unfold value_count_for_size. assert (n * n ≤ 256 * 256) by nia. assert (n * n * n ≤ 256 * 256 * 256) by nia.
  assert (0 ≤ n * n * n) by nia. rewrite u64_small; lia.
Qed.

(** The three values of a grid point. *)
Definition sample (values : list float32) (i : Z) : option (list float32) :=
  x ← values !! Z.to_nat (3 * i); y ← values !! Z.to_nat (3 * i + 1); z ← values !! Z.to_nat (3 * i + 2);
  Some [x; y; z].

Lemma lut_at_sample values r g b : point_ok n r g b →
  lut_at (mkLut n values) r g b = of_option Undef (sample values (grid_index n r g b)).
Proof using Hn.
  intros Hp. destruct (grid_small r g b Hp) as (E1 & E2 & _). unfold lut_at, sample. simpl lut_size. rewrite E1, E2.
  cbn [lut_values]. destruct (values !! Z.to_nat (3 * _)); [|done].
  destruct (values !! Z.to_nat (_ + 1)); [|done]. by destruct (values !! Z.to_nat (_ + 2)).
Qed.

Lemma sample_defined values i : len values = 3 * (n * n * n) → 0 ≤ i < n * n * n →
  ∃ x y z, sample values i = Some [x; y; z].
Proof using Hn.
  intros Hl Hi. unfold sample, len in *.
  destruct (lookup_lt_is_Some_2 values (Z.to_nat (3 * i))) as [x ->]; [lia|].
  destruct (lookup_lt_is_Some_2 values (Z.to_nat (3 * i + 1))) as [y ->]; [lia|].
  destruct (lookup_lt_is_Some_2 values (Z.to_nat (3 * i + 2))) as [z ->]; [lia|]. by exists x, y, z.
Qed.

Lemma lut_ok_intro values : len values = 3 * (n * n * n) → lut_ok (mkLut n values).
Proof using Hn.
  intros Hl. split; [done|split; [done|]]. intros r g b Hr Hg Hb. simpl in *. assert (Hp : point_ok n r g b) by done.
  rewrite lut_at_sample by done.
  destruct (sample_defined values (grid_index n r g b)) as (x & y & z & ->); [done|by apply grid_bound|].
  by exists x, y, z.
Qed.

(** ** Writing a row *)

Definition put_sample (values : list float32) (i : Z) (rgb : float32 * float32 * float32) : list float32 :=
  let '(x, y, z) := rgb in
  <[Z.to_nat (3 * i + 2) := z]> (<[Z.to_nat (3 * i + 1) := y]> (<[Z.to_nat (3 * i) := x]> values)).

Lemma len_put_sample values i rgb : len (put_sample values i rgb) = len values.
Proof. destruct rgb as [[x y] z]. unfold put_sample, len. by rewrite !length_insert. Qed.

Lemma sample_put values i rgb j : len values = 3 * (n * n * n) → 0 ≤ i < n * n * n → 0 ≤ j →
  sample (put_sample values i rgb) j = if decide (i = j) then Some (rgb_list rgb) else sample values j.
Proof using Hn.
  intros Hl Hi Hj. destruct rgb as [[x y] z]. unfold put_sample, sample, len in *.
  generalize dependent (n * n * n). intros N Hl Hi. case_decide as E.
  - subst j. rewrite (list_lookup_insert_ne _ _ (Z.to_nat (3 * i))), (list_lookup_insert_ne _ _ (Z.to_nat (3 * i)))
      by lia.
    rewrite (list_lookup_insert_eq values (Z.to_nat (3 * i))) by lia. cbn [mbind option_bind].
    rewrite (list_lookup_insert_ne _ _ (Z.to_nat (3 * i + 1))), list_lookup_insert_eq
      by (rewrite ?length_insert; lia).
    cbn [mbind option_bind]. by rewrite list_lookup_insert_eq by (rewrite !length_insert; lia).
  - by rewrite !list_lookup_insert_ne by lia.
Qed.

Lemma spi3d_row_in values seen row :
  in_grid n row → len values = 3 * (n * n * n) → len seen = n * n * n →
  let i := grid_index n (sr_r row) (sr_g row) (sr_b row) in
  spi3d_row n (values, seen) row = Ok (put_sample values i (sr_rgb row), <[Z.to_nat i := true]> seen).
Proof using Hn.
  intros Hg Hl Hs. pose proof (grid_bound _ _ _ Hg) as Hb. destruct (grid_small _ _ _ Hg) as (E1 & E2 & ? & ?).
  unfold spi3d_row. rewrite E1, E2. destruct Hg as (? & ? & ?). destruct row as [r g b [[x y] z]]. cbn [sr_r sr_g sr_b sr_rgb] in *.
  rewrite !(proj2 (Z.ltb_ge _ 0)), !(proj2 (Z.leb_gt n _)) by lia. cbv beta iota zeta delta [orb].
  rewrite (write_at_Ok values _ x), Ok_bind by lia.
  rewrite (write_at_Ok _ _ y), Ok_bind by (unfold len in *; rewrite length_insert; lia).
  rewrite (write_at_Ok _ _ z), Ok_bind by (unfold len in *; rewrite !length_insert; lia).
  by rewrite write_at_Ok by lia.
Qed.

Lemma spi3d_row_out acc row :
  ¬ in_grid n row → spi3d_row n acc row = Fail CPIPE_FAILED ".spi3d index out of range".
Proof.
  intros Hg. destruct acc as [values seen]. unfold spi3d_row.
  destruct (_ || _) eqn:E; [done|]. destruct Hg. unfold in_grid.
  rewrite !orb_false_iff, !Z.ltb_ge, !Z.leb_gt in E. lia.
Qed.

(** ** The rows of a .spi3d file *)

Lemma last_sample_snoc rows row r g b :
  last_sample (rows ++ [row]) r g b =
  if decide (sr_r row = r ∧ sr_g row = g ∧ sr_b row = b) then Some (rgb_list (sr_rgb row))
  else last_sample rows r g b.
Proof. unfold last_sample. by rewrite foldl_app. Qed.

Lemma last_sample_Some rows r g b :
  is_Some (last_sample rows r g b) ↔ ∃ row, row ∈ rows ∧ sr_r row = r ∧ sr_g row = g ∧ sr_b row = b.
Proof.
  induction rows as [|row rows IH] using rev_ind.
  { split; [by intros [? ?]|]. intros (row & Hr & _). by apply not_elem_of_nil in Hr. }
  rewrite last_sample_snoc. setoid_rewrite elem_of_app. setoid_rewrite list_elem_of_singleton. case_decide.
  - split; [|by eauto]. intros _. exists row. naive_solver.
  - rewrite IH. split; [intros (x & ? & ?); exists x; tauto|].
    intros (x & [?| ->] & ?); [by exists x|done].
Qed.

(** The table after some rows: each point has the colour of its last row. *)
Record spi_inv (rows : list SpiRow) (values : list float32) (seen : list bool) : Prop := {
  inv_values : len values = 3 * (n * n * n);
  inv_seen : len seen = n * n * n;
  inv_sample : ∀ r g b, point_ok n r g b →
    seen !! Z.to_nat (grid_index n r g b) = Some (bool_decide (is_Some (last_sample rows r g b))) ∧
    ∀ l, last_sample rows r g b = Some l → sample values (grid_index n r g b) = Some l
}.

Lemma spi_inv_init :
  spi_inv [] (replicate (Z.to_nat (3 * (n * n * n))) f_zero) (replicate (Z.to_nat (n * n * n)) false).
Proof using Hn.
  assert (0 ≤ n * n * n) by nia. split; [unfold len; rewrite length_replicate; lia..|].
  intros r g b Hp%grid_bound. split; [|done]. apply lookup_replicate. split; [done|lia].
Qed.

Lemma spi_inv_step rows values seen row :
  spi_inv rows values seen → in_grid n row →
  let i := grid_index n (sr_r row) (sr_g row) (sr_b row) in
  spi_inv (rows ++ [row]) (put_sample values i (sr_rgb row)) (<[Z.to_nat i := true]> seen).
Proof using Hn.
  intros [Hv Hs Hsample] Hg i. pose proof (grid_bound _ _ _ Hg) as Hi. fold i in Hi.
  split; [by rewrite len_put_sample|unfold len in *; by rewrite length_insert|].
  intros r g b Hp. pose proof (grid_bound _ _ _ Hp). rewrite last_sample_snoc, sample_put by (done || lia).
  destruct (decide (sr_r row = r ∧ sr_g row = g ∧ sr_b row = b)) as [(<- & <- & <-)|Hne].
  - fold i. rewrite decide_True by done. split; [|by intros l [= <-]].
    rewrite list_lookup_insert_eq by (unfold len in Hs; lia). by rewrite bool_decide_true by eauto.
  - rewrite decide_False.
    2: { intros E. apply (grid_inj _ _ _ _ _ _ Hg Hp) in E. naive_solver. }
    rewrite list_lookup_insert_ne; [by apply Hsample|]. intros E.
    assert (E' : i = grid_index n r g b) by lia. apply (grid_inj _ _ _ _ _ _ Hg Hp) in E'. naive_solver.
Qed.

Lemma spi_rows_fold rows : ∀ before values seen,
  spi_inv before values seen →
  (Forall (in_grid n) rows → ∃ values' seen',
     foldM (spi3d_row n) (values, seen) rows = Ok (values', seen') ∧ spi_inv (before ++ rows) values' seen') ∧
  (¬ Forall (in_grid n) rows →
     foldM (spi3d_row n) (values, seen) rows = Fail CPIPE_FAILED ".spi3d index out of range").
Proof using Hn.
  induction rows as [|row rows IH]; intros before values seen Hinv.
  { split; [|by intros []]. intros _. exists values, seen. by rewrite app_nil_r. }
  destruct (decide (in_grid n row)) as [Hg|Hg]; cbn [foldM].
  - rewrite spi3d_row_in by (done || apply Hinv). rewrite Ok_bind.
    destruct (IH _ _ _ (spi_inv_step _ _ _ _ Hinv Hg)) as [IH1 IH2]. rewrite <-app_assoc in IH1.
    split; [by intros [_ ?]%Forall_cons; apply IH1|]. intros Hn'. apply IH2. by rewrite Forall_cons in Hn'; naive_solver.
  - split; [by intros [? _]%Forall_cons|]. intros _. by rewrite spi3d_row_out.
Qed.

Lemma all_seen rows values seen :
  spi_inv rows values seen →
  forallb (λ v : bool, v) seen = true ↔ ∀ r g b, point_ok n r g b → is_Some (last_sample rows r g b).
Proof using Hn.
  intros [_ Hs Hsample]. rewrite forallb_forall. split.
  - intros Hall r g b Hp. destruct (Hsample r g b Hp) as [Hl _].
    apply (bool_decide_eq_true (is_Some _)), Hall, list_elem_of_In. by eapply list_elem_of_lookup_2.
  - intros Hall v (i & Hi)%list_elem_of_In%list_elem_of_lookup_1.
    destruct (grid_surj (Z.of_nat i)) as (r & g & b & Hp & Hgi).
    { apply lookup_lt_Some in Hi. unfold len in Hs. lia. }
    destruct (Hsample r g b Hp) as [Hl _]. rewrite Hgi, Nat2Z.id, Hi in Hl. injection Hl as ->.
    apply bool_decide_eq_true. by apply Hall.
Qed.

End Grid.

(** The body of the .spi3d reader after its header. *)
Lemma load_spi3d_body input size rest :
  spi3d_header input = Ok (size, rest) → 2 ≤ size ≤ 256 →
  load_spi3d input =
    '(values, seen) ← foldM (spi3d_row size) (replicate (Z.to_nat (3 * (size * size * size))) f_zero,
                        replicate (Z.to_nat (size * size * size)) false) (spi_rows rest);
    if negb (forallb (λ v : bool, v) seen) then Fail CPIPE_FAILED "missing .spi3d sample rows" else
    Ok (mkLut size values).
Proof.
  intros Hh Hs. unfold load_spi3d. rewrite Hh, Ok_bind. cbv beta iota zeta.
  rewrite value_count, spi3d_loop_rows by (done || lia).
  by replace (3 * (size * size * size) / 3) with (size * size * size)
    by (by rewrite (Z.mul_comm 3), Z.div_mul).
Qed.

Lemma spi3d_header_size input size rest : spi3d_header input = Ok (size, rest) → 2 ≤ size ≤ 256.
Proof.
  unfold spi3d_header. intros (s1 & _ & (s2 & _ & ([n s3] & _ & H)%bind_Ok_inv)%bind_Ok_inv)%bind_Ok_inv.
  apply bind_Ok_inv in H as ([] & Hv & [= <- <-]). unfold valid_size in Hv.
  destruct (Z.ltb_spec n 2); [done|]. destruct (Z.ltb_spec 256 n); [done|]. lia.
Qed.

(** Rows in range that cover the grid. *)
Definition spi3d_complete (size : Z) (rows : list SpiRow) : Prop :=
  Forall (in_grid size) rows ∧ ∀ r g b, point_ok size r g b → is_Some (last_sample rows r g b).

(** What the .spi3d reader does after an accepted header. *)
Lemma load_spi3d_spec input size rest :
  spi3d_header input = Ok (size, rest) →
  (spi3d_complete size (spi_rows rest) ∧ ∃ values, load_spi3d input = Ok (mkLut size values) ∧
     len values = 3 * (size * size * size) ∧
     ∀ r g b, point_ok size r g b →
       sample values (grid_index size r g b) = last_sample (spi_rows rest) r g b) ∨
  (¬ spi3d_complete size (spi_rows rest) ∧ ∃ msg, load_spi3d input = Fail CPIPE_FAILED msg).
Proof.
  intros Hh. pose proof (spi3d_header_size _ _ _ Hh) as Hs. rewrite (load_spi3d_body _ _ _ Hh Hs).
  destruct (spi_rows_fold size Hs (spi_rows rest) [] _ _ (spi_inv_init size Hs)) as [Hin Hout].
  destruct (decide (Forall (in_grid size) (spi_rows rest))) as [Hf|Hf].
  2: { rewrite Hout by done. right. split; [by intros [? _]|]. simpl. eauto. }
  destruct (Hin Hf) as (values & seen & -> & Hinv). rewrite Ok_bind. simpl in Hinv.
  pose proof (all_seen size Hs _ _ _ Hinv) as Hall. destruct Hinv as [Hv _ Hsample].
  destruct (forallb _ seen); [left|right].
  - split; [split; [done|by apply Hall]|]. exists values. split_and!; [done..|].
    intros r g b Hp. destruct (proj1 Hall eq_refl r g b Hp) as [l Hl]. rewrite Hl. by apply Hsample.
  - split; [|simpl; eauto]. intros [_ Hc]. by apply Hall in Hc.
Qed.

Lemma spi3d_header_returns input : returns (spi3d_header input) (λ _, True).
Proof.
  unfold spi3d_header. destruct (spi3d_magic input) as [s1|]; [simpl|done].
  destruct (spi3d_components s1) as [s2|]; [simpl|done]. destruct (spi3d_grid s2) as [[n s3]|]; [simpl|done].
  unfold valid_size. destruct (n <? 2); [done|]. by destruct (256 <? n).
Qed.

(** ** The rows of a .cube file *)

Lemma valid_size_spec n : 0 ≤ n →
  (valid_size n = Ok tt ∧ 2 ≤ n ≤ 256) ∨ ∃ msg, valid_size n = Fail CPIPE_FAILED msg.
Proof.
  intros. unfold valid_size. destruct (Z.ltb_spec n 2); [right; eauto|].
  destruct (Z.ltb_spec 256 n); [right; eauto|left]. split; [done|lia].
Qed.

(** A line fails, or sets the size, or contributes its colour. *)
Lemma cube_line_spec size values line :
  returns (cube_line (size, values) line) (λ acc,
    (acc.1 = size ∨ 2 ≤ acc.1 ≤ 256) ∧ acc.2 = values ++ default [] (cube_row line)).
Proof.
  unfold cube_line, cube_row. destruct (stream_string (strip_comment line)) as [[head rest]|]; simpl.
  2: { rewrite app_nil_r. naive_solver. }
  destruct (decide (head = "TITLE" ∨ head = "DOMAIN_MIN" ∨ head = "DOMAIN_MAX")) as [Hk|Hk].
  { rewrite decide_True by set_solver. simpl. rewrite app_nil_r. naive_solver. }
  destruct (decide (head = "LUT_3D_SIZE")) as [->|Hs].
  - rewrite decide_True by set_solver. simpl. rewrite app_nil_r.
    destruct (stream_int rest) as [[v r]|]; [|done]. destruct (Z.ltb_spec v 0); [done|].
    destruct (valid_size_spec v) as [[-> ?]|[msg ->]]; [done| |done]. simpl. naive_solver.
  - rewrite decide_False by set_solver.
    destruct (stream_rgb (strip_comment line)) as [[[[x y] z] r]|]; [simpl|done]. naive_solver.
Qed.

Lemma cube_fold lines : ∀ size values, size = 0 ∨ 2 ≤ size ≤ 256 →
  returns (foldM cube_line (size, values) lines) (λ acc,
    (acc.1 = 0 ∨ 2 ≤ acc.1 ≤ 256) ∧ acc.2 = values ++ concat (omap cube_row lines)).
Proof.
  induction lines as [|line lines IH]; intros size values Hs; [simpl; by rewrite app_nil_r|].
  cbn [foldM]. eapply returns_bind; [apply cube_line_spec|]. intros [size' values'] [Hs' Hv']. simpl in Hs', Hv'.
  eapply returns_weaken; [apply IH; naive_solver|]. intros acc [Ha1 Ha2]. split; [done|].
  rewrite Ha2, Hv'. simpl. destruct (cube_row line); simpl; by rewrite <-app_assoc.
Qed.

Lemma cube_rows_length input : Forall (λ row, length row = 3%nat) (cube_rows input).
Proof.
  apply Forall_forall. intros row (line & _ & Hr)%list_elem_of_omap. unfold cube_row in Hr.
  destruct (stream_string _) as [[? ?]|]; [simpl in Hr|done]. destruct (decide _); [done|].
  destruct (stream_rgb _) as [[[[? ?] ?] ?]|]; [|done]. by injection Hr as <-.
Qed.

Lemma len_concat3 (rows : list (list float32)) :
  Forall (λ row, length row = 3%nat) rows → len (concat rows) = 3 * len rows.
Proof.
  induction 1 as [|row rows Hr _ IH]; [done|]. cbn [concat]. rewrite len_app, len_cons, IH. unfold len. lia.
Qed.

Lemma sample_concat rows (i : nat) :
  Forall (λ row, length row = 3%nat) rows → sample (concat rows) (Z.of_nat i) = rows !! i.
Proof.
  revert i. induction rows as [|row rows IH]; intros i Hf; [done|]. apply Forall_cons in Hf as [Hr Hf].
  destruct row as [|x [|y [|z [|]]]]; try done. destruct i as [|i]; [done|].
  cbn [lookup list_lookup]. rewrite <-IH by done. unfold sample. cbn [concat].
  assert (Hk : ∀ k, 0 ≤ k → ([x; y; z] ++ concat rows) !! Z.to_nat (3 * Z.of_nat (S i) + k) =
    concat rows !! Z.to_nat (3 * Z.of_nat i + k)).
  { intros k Hk. rewrite lookup_app_r by (simpl; lia). f_equal. simpl. lia. }
  rewrite <-(Z.add_0_r (3 * Z.of_nat (S i))), <-(Z.add_0_r (3 * Z.of_nat i)) at 1.
  rewrite !Hk by lia. rewrite <-(Z.add_0_r (3 * Z.of_nat i)) at 1. by rewrite !Z.add_0_r.
Qed.

Lemma load_cube_spec input :
  returns (load_cube input) (λ lut, ∃ size, lut = mkLut size (concat (cube_rows input)) ∧
    2 ≤ size ≤ 256 ∧ len (cube_rows input) = size * size * size).
Proof.
  unfold load_cube. eapply returns_bind; [by apply cube_fold; left|].
  intros [size values] [Hs Hv]. simpl in Hs, Hv. destruct (Z.eqb_spec size 0); [done|].
  assert (Hr : 2 ≤ size ≤ 256) by naive_solver. rewrite value_count by done.
  destruct (Z.eqb_spec (len values) (3 * (size * size * size))) as [Hl|]; [simpl|done].
  exists size. rewrite Hv in Hl |- *. fold (cube_rows input) in Hl |- *.
  rewrite len_concat3 in Hl by apply cube_rows_length. split_and!; [done|lia..].
Qed.

(** ** Theorems *)

(** loading a 3D LUT: for every path and file the loader returns (a table or
    an error, never a read or write outside a vector, never a loop without end),
    and a loaded table has a size from 2 to 256 and a sample for every grid point,
    so that looking it up is defined. *)
Theorem load_lut_wf (path : string) (file : option string) : returns (load path file) lut_ok.
Proof.
  unfold load. destruct file as [input|]; [|done]. destruct (decide _); [|destruct (decide _); [|done]].
  - eapply returns_weaken; [apply load_cube_spec|]. intros lut (size & -> & Hs & Hl).
    apply lut_ok_intro; [done|]. rewrite len_concat3 by apply cube_rows_length. lia.
  - pose proof (spi3d_header_returns input) as Hret.
    destruct (spi3d_header input) as [[size rest]| | |] eqn:Hh; [|unfold load_spi3d; by rewrite Hh|done..].
    pose proof (spi3d_header_size _ _ _ Hh) as Hs.
    destruct (load_spi3d_spec input size rest Hh) as [(_ & values & -> & Hl & _)|(_ & msg & ->)]; [|done].
    by apply lut_ok_intro.
Qed.

(** a .spi3d file with an accepted header is loaded exactly when every sample
    row it starts with names a grid point and every grid point has a row; the
    rows may come in any order, and looking a point up gives the colour of the
    last row for it. *)
Theorem load_spi3d_exact (input : string) (size : Z) (rest : string) :
  spi3d_header input = Ok (size, rest) →
  ((∃ lut, load_spi3d input = Ok lut) ↔ spi3d_complete size (spi_rows rest)) ∧
  ∀ lut r g b, load_spi3d input = Ok lut → point_ok size r g b →
    lut_size lut = size ∧ lut_at lut r g b = of_option Undef (last_sample (spi_rows rest) r g b).
Proof.
  intros Hh. pose proof (spi3d_header_size _ _ _ Hh) as Hs.
  destruct (load_spi3d_spec input size rest Hh) as [(Hc & values & -> & Hl & Hsample)|(Hc & msg & ->)].
  - split; [naive_solver|]. intros lut r g b [= <-] Hp. split; [done|].
    by rewrite lut_at_sample, Hsample.
  - split; [|done]. split; [by intros [? ?]|done].
Qed.

(** a .cube file that loads is its colour rows in file order: the table has
    size^3 of them, and the point (r, g, b) is row number (r * size + g) * size + b,
    blue varying fastest. *)
Theorem load_cube_exact (input : string) (lut : Cube3dLut) :
  load_cube input = Ok lut →
  let size := lut_size lut in
  2 ≤ size ≤ 256 ∧ len (cube_rows input) = size * size * size ∧
  lut_values lut = concat (cube_rows input) ∧
  ∀ r g b, point_ok size r g b →
    lut_at lut r g b = of_option Undef (cube_rows input !! Z.to_nat ((r * size + g) * size + b)).
Proof.
  intros Hl. destruct (returns_Ok _ _ _ (load_cube_spec input) Hl) as (size & -> & Hs & Hlen).
  simpl. split_and!; [lia..|done|done|]. intros r g b Hp. pose proof (grid_bound size Hs r g b Hp) as Hb.
  rewrite lut_at_sample by done. rewrite <-(Z2Nat.id (grid_index size r g b)) by lia.
  rewrite sample_concat by apply cube_rows_length. do 3 f_equal. unfold grid_index. lia.
Qed.

(** ** Witnesses *)

Definition nl : string := String "010" "".

Definition example_cube : string :=
  "# identity" +:+ nl +:+ "LUT_3D_SIZE 2" +:+ nl +:+ "0 0 0" +:+ nl +:+ "0 0 1 # blue" +:+ nl +:+
  "0 1.0 0" +:+ nl +:+ "0 1 1" +:+ nl +:+ "1 0 0" +:+ nl +:+ nl +:+ "1e0 0 25e-2" +:+ nl +:+ "1 1 0" +:+ nl +:+
  "1 1 1" +:+ nl.

Definition example_spi3d : string :=
  "SPILUT 1.0" +:+ nl +:+ "3 3" +:+ nl +:+ "2 2 2" +:+ nl +:+
  "1 1 1 1 1 1 0 0 0 0 0 0 0 0 1 0 0 1 0 1 0 0 1 0 0 1 1 0 1 1 " +:+
  "1 0 0 1 0 0 1 0 1 1 0 1 1 1 0 1 1 0 0 0 1 0 0 0.5".

Definition example_table (input : string) (loader : string → res Cube3dLut) : Cube3dLut :=
  match loader input with Ok lut => lut | _ => empty_lut end.

Lemma load_cube_exact_witness :
  let lut := example_table example_cube load_cube in
  load "a/b.CUBE" (Some example_cube) = Ok lut ∧
  lut_at lut 1 0 1 = Ok [float_of_int 1; f_zero; SFdiv 24 128 (float_of_int 1) (float_of_int 4)].
Proof.
  assert (H : load_cube example_cube = Ok (example_table example_cube load_cube)) by (vm_compute; reflexivity).
  destruct (load_cube_exact example_cube _ H) as (_ & _ & _ & Hat). split; [vm_compute; reflexivity|].
  cbv zeta. rewrite Hat; [vm_compute; reflexivity|].
  replace (lut_size (example_table example_cube load_cube)) with 2 by (vm_compute; reflexivity).
  unfold point_ok. lia.
Defined.

Lemma load_spi3d_exact_witness :
  let lut := example_table example_spi3d load_spi3d in
  spi3d_complete 2 (spi_rows (string_drop 20 example_spi3d)) ∧
  lut_at lut 0 0 1 = Ok [f_zero; f_zero; SFdiv 24 128 (float_of_int 1) (float_of_int 2)].
Proof.
  assert (Hh : spi3d_header example_spi3d = Ok (2, string_drop 20 example_spi3d)) by (vm_compute; reflexivity).
  assert (H : load_spi3d example_spi3d = Ok (example_table example_spi3d load_spi3d)) by (vm_compute; reflexivity).
  destruct (load_spi3d_exact example_spi3d _ _ Hh) as [Hex Hat]. split; [apply Hex; eauto|].
  destruct (Hat _ 0 0 1 H) as [_ ->]; [unfold point_ok; lia|]. vm_compute. reflexivity.
Defined.
