(* ===== verification/LensBlob.v ===== *)
(** * The parameter blob of the lens-correction filter

    The node src/cpipe/nodes/lens/dng_opcode_list_3.cpp packs the opcodes that
    [OpcodeList3.parse] returned into one block of bytes (a header, fixed-size
    records, bad points, bad rectangles; the structs of
    src/cpipe/nodes/detail/P1ParamDispatch.hpp in their x86-64 layout) and hands
    it to the filter of dng_opcode_list_3_dispatch.cpp, which casts the bytes
    back.  This file models both sides at the byte level: the packing, and
    [checked_param_blob] with the accesses behind the pointers it returns.

    The theorems: whatever bytes arrive, the check accepts only blobs in which
    every access of the filter stays inside; a packed list of opcodes is accepted
    and unpacked to the same records, points and rectangles. *)

From Stdlib Require Import ZArith Lia.
From stdpp Require Import prelude strings list.
From S2P Require Import Prelude OpcodeReader OpcodeList3.

Local Open Scope Z_scope.

(** ** Little-endian fields *)

(** The bytes of a field of [n] bytes, as the host stores them. *)
Fixpoint le_bytes (n : nat) (v : Z) : bytes :=
  match n with O => [] | S n' => v `mod` 256 :: le_bytes n' (v / 256) end.

Fixpoint le_value (bs : bytes) : Z :=
  match bs with [] => 0 | b :: bs' => b + 256 * le_value bs' end.

(** The fields of a struct, one after the other, from their widths. *)
Fixpoint decode_fields (widths : list nat) (bs : bytes) : list Z :=
  match widths with
  | [] => []
  | w :: ws => le_value (take w bs) :: decode_fields ws (drop w bs)
  end.

Definition encode_fields (fields : list (nat * Z)) : bytes :=
  concat ((λ f, le_bytes f.1 f.2) <$> fields).

Definition struct_size (widths : list nat) : Z := Z.of_nat (sum_list widths).

(** Read a struct at an offset: undefined outside the blob. *)
Definition read_struct (widths : list nat) (bs : bytes) (off : Z) : res (list Z) :=
  if (0 <=? off) && (off + struct_size widths <=? len bs)
  then Ok (decode_fields widths (drop (Z.to_nat off) bs)) else Undef.

Definition field (l : list Z) (i : nat) : Z := default 0 (l !! i).

(** ** The structs *)

Record Opcode3DispatchRecord : Type := mkRecord {
  rec_id : Z;
  rec_optional : Z;
  rec_coefficient_count : Z;
  rec_coefficients : list WarpCoefficient;
  rec_cx_hat : Z;
  rec_cy_hat : Z;
  rec_vignette_k : list Z;
  rec_vignette_cx_hat : Z;
  rec_vignette_cy_hat : Z;
  rec_constant : Z;
  rec_bayer_phase : Z;
  rec_point_offset : Z;
  rec_point_count : Z;
  rec_rect_offset : Z;
  rec_rect_count : Z;
  rec_top : Z;
  rec_left : Z;
  rec_bottom : Z;
  rec_right : Z
}.

Definition header_widths : list nat := [4; 4]%nat.
(** Three words, four bytes of padding, 33 doubles, ten words: 320 bytes. *)
Definition record_widths : list nat := replicate 4 4%nat ++ replicate 33 8%nat ++ replicate 10 4%nat.
Definition point_widths : list nat := [4; 4]%nat.
Definition rect_widths : list nat := [4; 4; 4; 4]%nat.

Definition coefficient_fields (c : WarpCoefficient) : list Z :=
  [kr0 c; kr1 c; kr2 c; kr3 c; kt0 c; kt1 c].

Definition coefficient_at (l : list Z) (i : nat) : WarpCoefficient :=
  mkCoeff (field l i) (field l (i + 1)) (field l (i + 2)) (field l (i + 3)) (field l (i + 4)) (field l (i + 5)).

(** The members of a record in memory order; [padding] is what the compiler left
    in the gap before the doubles. *)
Definition record_fields (padding : Z) (r : Opcode3DispatchRecord) : list Z :=
  [rec_id r; rec_optional r; rec_coefficient_count r; padding] ++
  (rec_coefficients r ≫= coefficient_fields) ++
  [rec_cx_hat r; rec_cy_hat r] ++ rec_vignette_k r ++ [rec_vignette_cx_hat r; rec_vignette_cy_hat r] ++
  [rec_constant r; rec_bayer_phase r; rec_point_offset r; rec_point_count r; rec_rect_offset r;
   rec_rect_count r; rec_top r; rec_left r; rec_bottom r; rec_right r].

Definition record_of_fields (l : list Z) : Opcode3DispatchRecord :=
  let f := field l in
  mkRecord (f 0%nat) (f 1%nat) (f 2%nat)
    [coefficient_at l 4; coefficient_at l 10; coefficient_at l 16; coefficient_at l 22]
    (f 28%nat) (f 29%nat) [f 30%nat; f 31%nat; f 32%nat; f 33%nat; f 34%nat] (f 35%nat) (f 36%nat)
    (f 37%nat) (f 38%nat) (f 39%nat) (f 40%nat) (f 41%nat) (f 42%nat) (f 43%nat) (f 44%nat) (f 45%nat) (f 46%nat).

(** ** Packing *)

Definition zero_coefficient : WarpCoefficient := mkCoeff 0 0 0 0 0 0.

(** [Opcode3DispatchRecord{}] with the id and the flag. *)
Definition fresh_record (o : Opcode) : Opcode3DispatchRecord :=
  mkRecord (u32 (opcode_id_value (op_id o))) (if optional o then 1 else 0) 0 (replicate 4 zero_coefficient)
    0 0 (replicate 5 0) 0 0 0 0 0 0 0 0 0 0 0 0.

Definition pack_warp (w : Warp) (r : Opcode3DispatchRecord) : Opcode3DispatchRecord :=
  let count := u32 (Z.min (len (coefficients w)) (len (rec_coefficients r))) in
  mkRecord (rec_id r) (rec_optional r) count
    (take (Z.to_nat count) (coefficients w) ++ drop (Z.to_nat count) (rec_coefficients r))
    (warp_cx w) (warp_cy w) (rec_vignette_k r) (rec_vignette_cx_hat r) (rec_vignette_cy_hat r)
    (rec_constant r) (rec_bayer_phase r) (rec_point_offset r) (rec_point_count r) (rec_rect_offset r)
    (rec_rect_count r) (rec_top r) (rec_left r) (rec_bottom r) (rec_right r).

Definition pack_vignette (v : Vignette) (r : Opcode3DispatchRecord) : Opcode3DispatchRecord :=
  mkRecord (rec_id r) (rec_optional r) (rec_coefficient_count r) (rec_coefficients r) (rec_cx_hat r)
    (rec_cy_hat r) (vig_k v) (vig_cx v) (vig_cy v) (rec_constant r) (rec_bayer_phase r)
    (rec_point_offset r) (rec_point_count r) (rec_rect_offset r) (rec_rect_count r)
    (rec_top r) (rec_left r) (rec_bottom r) (rec_right r).

Definition pack_constant (c : BadConstant) (r : Opcode3DispatchRecord) : Opcode3DispatchRecord :=
  mkRecord (rec_id r) (rec_optional r) (rec_coefficient_count r) (rec_coefficients r) (rec_cx_hat r)
    (rec_cy_hat r) (rec_vignette_k r) (rec_vignette_cx_hat r) (rec_vignette_cy_hat r)
    (bc_constant c) (bc_bayer_phase c) (rec_point_offset r) (rec_point_count r) (rec_rect_offset r)
    (rec_rect_count r) (rec_top r) (rec_left r) (rec_bottom r) (rec_right r).

Definition pack_list (points : list BadPoint) (rects : list BadRect) (l : BadList)
    (r : Opcode3DispatchRecord) : Opcode3DispatchRecord :=
  mkRecord (rec_id r) (rec_optional r) (rec_coefficient_count r) (rec_coefficients r) (rec_cx_hat r)
    (rec_cy_hat r) (rec_vignette_k r) (rec_vignette_cx_hat r) (rec_vignette_cy_hat r)
    (rec_constant r) (bl_bayer_phase l) (u32 (len points)) (u32 (len (bad_points l)))
    (u32 (len rects)) (u32 (len (bad_rects l))) (rec_top r) (rec_left r) (rec_bottom r) (rec_right r).

Definition pack_trim (t : Trim) (r : Opcode3DispatchRecord) : Opcode3DispatchRecord :=
  mkRecord (rec_id r) (rec_optional r) (rec_coefficient_count r) (rec_coefficients r) (rec_cx_hat r)
    (rec_cy_hat r) (rec_vignette_k r) (rec_vignette_cx_hat r) (rec_vignette_cy_hat r)
    (rec_constant r) (rec_bayer_phase r) (rec_point_offset r) (rec_point_count r) (rec_rect_offset r)
    (rec_rect_count r) (tr_top t) (tr_left t) (tr_bottom t) (tr_right t).

(** [if (field)] followed by a use of its value. *)
Definition when {A B} (o : option A) (f : A → B → B) (b : B) : B :=
  match o with Some a => f a b | None => b end.

(** The body of the loop over the opcodes. *)
Definition pack_opcode (acc : list Opcode3DispatchRecord * list BadPoint * list BadRect) (o : Opcode)
  : list Opcode3DispatchRecord * list BadPoint * list BadRect :=
  let '(records, points, rects) := acc in
  let r := fresh_record o in
  let r := when (warp_rectilinear o) pack_warp r in
  let r := when (fix_vignette_radial o) pack_vignette r in
  let r := when (fix_bad_pixels_constant o) pack_constant r in
  let r := when (fix_bad_pixels_list o) (pack_list points rects) r in
  let points := when (fix_bad_pixels_list o) (λ l ps, ps ++ bad_points l) points in
  let rects := when (fix_bad_pixels_list o) (λ l rs, rs ++ bad_rects l) rects in
  let r := when (trim_bounds o) pack_trim r in
  (records ++ [r], points, rects).

Definition struct_bytes (widths : list nat) (fields : list Z) : bytes :=
  encode_fields (zip widths fields).

Definition point_fields (p : BadPoint) : list Z := [bp_row p; bp_column p].
Definition rect_fields (r : BadRect) : list Z := [br_top r; br_left r; br_bottom r; br_right r].

(** [paddings i] is the gap of record [i]. *)
Definition pack_opcode_list_3 (paddings : nat → Z) (opcodes : list Opcode) : bytes :=
  let '(records, points, rects) := foldl pack_opcode ([], [], []) opcodes in
  struct_bytes header_widths [u32 (len opcodes); 0] ++
  concat (imap (λ i r, struct_bytes record_widths (record_fields (paddings i) r)) records) ++
  concat ((λ p, struct_bytes point_widths (point_fields p)) <$> points) ++
  concat ((λ r, struct_bytes rect_widths (rect_fields r)) <$> rects).

(** ** Unpacking *)

(** What [checked_param_blob] leaves behind: the records, and the offsets the
    point and rectangle pointers have in the blob. *)
Record Unpacked : Type := mkUnpacked {
  up_records : list Opcode3DispatchRecord;
  up_points_offset : Z;
  up_rects_offset : Z
}.

Definition read_record (blob : bytes) (i : Z) : res Opcode3DispatchRecord :=
  l ← read_struct record_widths blob (8 + i * 320); Ok (record_of_fields l).

Definition checked_param_blob (blob : option bytes) : res (option Unpacked) :=
  match blob with
  | None => Ok None
  | Some blob =>
      if len blob <? 8 then Ok None else
      header ← read_struct header_widths blob 0;
      let opcode_count := field header 0 in
      let records_bytes := u64 (opcode_count * 320) in
      if len blob <? u64 (8 + records_bytes) then Ok None else
      records ← foldM (λ acc i, r ← read_record blob i; Ok (acc ++ [r])) [] (seqZ 0 opcode_count);
      let point_count := foldl (λ m r, Z.max m (rec_point_offset r + rec_point_count r)) 0 records in
      let rect_count := foldl (λ m r, Z.max m (rec_rect_offset r + rec_rect_count r)) 0 records in
      let points_offset := u64 (8 + records_bytes) in
      let rects_offset := u64 (points_offset + u64 (point_count * 8)) in
      if len blob <? u64 (rects_offset + u64 (rect_count * 16)) then Ok None else
      Ok (Some (mkUnpacked records points_offset rects_offset))
  end.

(** [points[k]] and [rects[k]]. *)
Definition point_at (blob : bytes) (u : Unpacked) (k : Z) : res BadPoint :=
  l ← read_struct point_widths blob (up_points_offset u + k * 8); Ok (mkPoint (field l 0) (field l 1)).

Definition rect_at (blob : bytes) (u : Unpacked) (k : Z) : res BadRect :=
  l ← read_struct rect_widths blob (up_rects_offset u + k * 16);
  Ok (mkBadRect (field l 0) (field l 1) (field l 2) (field l 3)).

(** ** Fields *)

Lemma length_field_bytes n v : length (le_bytes n v) = n.
Proof. revert v. induction n as [|n IH]; intros v; simpl; [done|by rewrite IH]. Qed.

Lemma le_value_le_bytes n : ∀ v, 0 ≤ v < 256 ^ Z.of_nat n → le_value (le_bytes n v) = v.
Proof.
  induction n as [|n IH]; intros v Hv; [simpl in *; lia|]. simpl.
  rewrite Nat2Z.inj_succ, Z.pow_succ_r in Hv by lia.
  rewrite IH by (Z.to_euclidean_division_equations; nia). Z.to_euclidean_division_equations; lia.
Qed.

Lemma le_value_bound bs : bytes_ok bs → 0 ≤ le_value bs < 256 ^ len bs.
Proof.
  induction 1 as [|b bs Hb _ IH]; [done|]. rewrite len_cons, Z.pow_add_r by (pose proof (len_nonneg bs); lia).
  unfold is_u in Hb. simpl le_value. lia.
Qed.

(** A value fits a field. *)
Definition fits (w : nat) (v : Z) : Prop := 0 ≤ v < 256 ^ Z.of_nat w.

Lemma fits4 v : is_u 32 v → fits 4 v.
Proof. done. Qed.
Lemma fits8 v : is_u 64 v → fits 8 v.
Proof. done. Qed.

Lemma struct_bytes_cons w ws v vs : struct_bytes (w :: ws) (v :: vs) = le_bytes w v ++ struct_bytes ws vs.
Proof. done. Qed.

Lemma length_struct_bytes ws vs :
  length vs = length ws → length (struct_bytes ws vs) = sum_list ws.
Proof.
  revert vs. induction ws as [|w ws IH]; intros [|v vs] H; try done. injection H as H.
  rewrite struct_bytes_cons, length_app, length_field_bytes, IH by done. done.
Qed.

Lemma decode_struct_bytes ws vs rest :
  Forall2 fits ws vs → decode_fields ws (struct_bytes ws vs ++ rest) = vs.
Proof.
  induction 1 as [|w v ws vs Hf _ IH]; [done|]. rewrite struct_bytes_cons, <-app_assoc. simpl.
  rewrite take_app_length', drop_app_length' by (by rewrite length_field_bytes). by rewrite le_value_le_bytes, IH.
Qed.

Lemma read_struct_at ws vs pre suf off :
  Forall2 fits ws vs → off = len pre → read_struct ws (pre ++ struct_bytes ws vs ++ suf) off = Ok vs.
Proof.
  intros Hf ->. unfold read_struct, struct_size. pose proof (len_nonneg pre). pose proof (len_nonneg suf).
  assert (Hl : len (struct_bytes ws vs) = Z.of_nat (sum_list ws)).
  { unfold len. rewrite length_struct_bytes; [done|]. by apply Forall2_length in Hf. }
  rewrite (proj2 (Z.leb_le _ _)), (proj2 (Z.leb_le _ _)) by (rewrite ?len_app; lia). simpl.
  unfold len. rewrite Nat2Z.id, drop_app_length, decode_struct_bytes by done. done.
Qed.

(** Any struct read inside the blob gives fields in range. *)
Lemma decode_fields_fits ws : ∀ bs, bytes_ok bs → (sum_list ws ≤ length bs)%nat →
  Forall2 fits ws (decode_fields ws bs).
Proof.
  induction ws as [|w ws IH]; intros bs Hok Hl; [constructor|]. simpl in *. constructor.
  - pose proof (le_value_bound (take w bs) (Forall_take _ _ _ Hok)) as Hb. unfold len in Hb.
    rewrite length_take, Nat.min_l in Hb by lia. done.
  - apply IH; [by apply Forall_drop|rewrite length_drop; lia].
Qed.

Lemma read_struct_ok ws bs off :
  bytes_ok bs → 0 ≤ off → off + struct_size ws ≤ len bs →
  ∃ l, read_struct ws bs off = Ok l ∧ Forall2 fits ws l.
Proof.
  intros Hok Ho Hl. unfold read_struct. rewrite !(proj2 (Z.leb_le _ _)) by lia.
  eexists. split; [done|]. apply decode_fields_fits; [by apply Forall_drop|].
  unfold struct_size, len in Hl. rewrite length_drop. lia.
Qed.

Lemma field_fits ws l i w : Forall2 fits ws l → ws !! i = Some w → fits w (field l i).
Proof.
  intros Hf Hw. destruct (Forall2_lookup_l _ _ _ _ _ Hf Hw) as (v & Hv & ?). unfold field. by rewrite Hv.
Qed.

(** ** The check *)

(** The words of a record that index the tables. *)
Definition indices_ok (r : Opcode3DispatchRecord) : Prop :=
  is_u 32 (rec_point_offset r) ∧ is_u 32 (rec_point_count r) ∧ is_u 32 (rec_rect_offset r) ∧
  is_u 32 (rec_rect_count r).

Lemma read_record_ok blob i :
  bytes_ok blob → 0 ≤ i → 8 + (i + 1) * 320 ≤ len blob → ∃ r, read_record blob i = Ok r ∧ indices_ok r.
Proof.
  intros Hok Hi Hl. unfold read_record.
  destruct (read_struct_ok record_widths blob (8 + i * 320)) as (l & -> & Hf);
    [done|lia|change (struct_size record_widths) with 320; lia|].
  eexists. split; [done|]. unfold indices_ok. simpl. split_and!; by apply (field_fits _ _ _ 4%nat Hf).
Qed.

Lemma read_records_ok blob n : ∀ k acc,
  bytes_ok blob → 0 ≤ k → 8 + (k + Z.of_nat n) * 320 ≤ len blob → Forall indices_ok acc →
  ∃ rs, foldM (λ acc i, r ← read_record blob i; Ok (acc ++ [r])) acc (seqZ k (Z.of_nat n)) = Ok rs ∧
    Forall indices_ok rs ∧ length rs = (length acc + n)%nat.
Proof.
  induction n as [|n IH]; intros k acc Hok Hk Hl Hacc; [exists acc; simpl; split_and!; [done..|lia]|].
  rewrite seqZ_cons by lia. replace (Z.pred (Z.of_nat (S n))) with (Z.of_nat n) by lia. cbn [foldM].
  destruct (read_record_ok blob k) as (r & -> & Hr); [done|lia|lia|]. rewrite !Ok_bind.
  destruct (IH (Z.succ k) (acc ++ [r])) as (rs & -> & ? & Hlen); [done|lia|lia|by apply Forall_app; split; [|constructor]|].
  exists rs. split_and!; [done..|]. rewrite length_app in Hlen. simpl in Hlen. lia.
Qed.

Lemma foldl_max_spec {A} (f : A → Z) l : ∀ m,
  let M := foldl (λ m r, Z.max m (f r)) m l in m ≤ M ∧ (∀ r, r ∈ l → f r ≤ M) ∧
    (M = m ∨ ∃ r, r ∈ l ∧ M = f r).
Proof.
  induction l as [|r l IH]; intros m; simpl; [split_and!; [lia|set_solver|by left]|].
  destruct (IH (Z.max m (f r))) as (H1 & H2 & H3). split_and!; [lia| |].
  - intros r' [->|Hr']%elem_of_cons; [lia|by apply H2].
  - destruct H3 as [H3|(r' & Hr' & H3)]; [|right; exists r'; set_solver].
    destruct (Z.max_spec m (f r)) as [[? Hm]|[? Hm]]; rewrite Hm in *; [right; exists r; set_solver|by left].
Qed.

(** An upper bound of the two counts: no arithmetic of the check wraps. *)
Lemma table_count_bound (f : Opcode3DispatchRecord → Z) rs :
  Forall (λ r, 0 ≤ f r < 2 ^ 33) rs → 0 ≤ foldl (λ m r, Z.max m (f r)) 0 rs < 2 ^ 33.
Proof.
  intros Hf. destruct (foldl_max_spec f rs 0) as (H1 & _ & [->|(r & Hr & ->)]); [lia|].
  rewrite Forall_forall in Hf. by apply Hf.
Qed.

(** Every access of the filter through the pointers of the check is inside. *)
Definition accesses_ok (blob : bytes) (u : Unpacked) : Prop :=
  Forall (λ r, indices_ok r ∧
    (∀ k, 0 ≤ k < rec_point_count r → ∃ p, point_at blob u (rec_point_offset r + k) = Ok p) ∧
    (∀ k, 0 ≤ k < rec_rect_count r → ∃ q, rect_at blob u (rec_rect_offset r + k) = Ok q)) (up_records u).

Lemma checked_param_blob_defined blob :
  bytes_ok blob → ∃ o, checked_param_blob (Some blob) = Ok o ∧ ∀ u, o = Some u → accesses_ok blob u.
Proof.
  intros Hok. simpl. destruct (Z.ltb_spec (len blob) 8); [by exists None|].
  destruct (read_struct_ok header_widths blob 0) as (h & -> & Hh); [done|lia|done|]. rewrite Ok_bind.
  pose proof (field_fits _ _ 0 4%nat Hh eq_refl) as Hc. unfold fits in Hc. simpl in Hc.
  set (count := field h 0) in *. clearbody count.
  rewrite (u64_small (count * 320)), (u64_small (8 + count * 320)) by lia.
  destruct (Z.ltb_spec (len blob) (8 + count * 320)); [by exists None|].
  rewrite <-(Z2Nat.id count) by lia.
  destruct (read_records_ok blob (Z.to_nat count) 0 []) as (rs & -> & Hrs & Hlen); [done|lia|lia|constructor|].
  rewrite Z2Nat.id, Ok_bind by lia. unfold indices_ok, is_u in Hrs.
  assert (Hp := table_count_bound (λ r, rec_point_offset r + rec_point_count r) rs
    ltac:(eapply Forall_impl; [exact Hrs|simpl; intros; lia])).
  assert (Hq := table_count_bound (λ r, rec_rect_offset r + rec_rect_count r) rs
    ltac:(eapply Forall_impl; [exact Hrs|simpl; intros; lia])).
  pose proof (foldl_max_spec (λ r, rec_point_offset r + rec_point_count r) rs 0) as (_ & HP & _).
  pose proof (foldl_max_spec (λ r, rec_rect_offset r + rec_rect_count r) rs 0) as (_ & HQ & _).
  set (np := foldl (λ m r, Z.max m (rec_point_offset r + rec_point_count r)) 0 rs) in *.
  set (nq := foldl (λ m r, Z.max m (rec_rect_offset r + rec_rect_count r)) 0 rs) in *.
  rewrite (u64_small (np * 8)), (u64_small (nq * 16)), (u64_small (8 + count * 320 + np * 8)) by lia.
  rewrite (u64_small (8 + count * 320 + np * 8 + nq * 16)) by lia.
  destruct (Z.ltb_spec (len blob) (8 + count * 320 + np * 8 + nq * 16)); [by exists None|].
  eexists. split; [done|]. intros u [= <-]. unfold accesses_ok. simpl. apply Forall_forall. intros r Hr.
  rewrite Forall_forall in Hrs. specialize (Hrs r Hr). specialize (HP r Hr). specialize (HQ r Hr).
  split; [done|]. split; intros k Hk; unfold point_at, rect_at; simpl.
  - destruct (read_struct_ok point_widths blob (8 + count * 320 + (rec_point_offset r + k) * 8))
      as (l & -> & _); [done|lia|change (struct_size point_widths) with 8; lia|]. simpl. eauto.
  - destruct (read_struct_ok rect_widths blob (8 + count * 320 + np * 8 + (rec_rect_offset r + k) * 16))
      as (l & -> & _); [done|lia|change (struct_size rect_widths) with 16; lia|]. simpl. eauto.
Qed.

(** ** Tables of structs *)

Lemma len_table ws (xs : list (list Z)) :
  Forall (Forall2 fits ws) xs → len (concat (struct_bytes ws <$> xs)) = len xs * struct_size ws.
Proof.
  induction 1 as [|x xs Hx _ IH]; [done|]. cbn [fmap list_fmap concat]. rewrite len_app, len_cons.
  fold (struct_bytes ws <$> xs). rewrite IH. unfold len at 1.
  rewrite length_struct_bytes by (by apply Forall2_length in Hx). unfold struct_size. lia.
Qed.

Lemma read_struct_table ws xs pre suf (k : nat) x :
  Forall (Forall2 fits ws) xs → xs !! k = Some x →
  read_struct ws (pre ++ concat (struct_bytes ws <$> xs) ++ suf) (len pre + Z.of_nat k * struct_size ws) = Ok x.
Proof.
  intros Hf Hk. assert (Hx : Forall2 fits ws x) by (by eapply Forall_lookup_1 in Hk).
  rewrite <-(take_drop_middle xs k x Hk), fmap_app, concat_app. cbn [fmap list_fmap concat].
  rewrite <-!app_assoc, (app_assoc pre). apply read_struct_at; [done|].
  rewrite len_app, len_table by (by apply Forall_take). unfold len at 3. rewrite length_take.
  apply lookup_lt_Some in Hk. rewrite Nat.min_l by lia. done.
Qed.

(** ** Records in memory *)

Definition record_in_range (r : Opcode3DispatchRecord) : Prop :=
  length (rec_coefficients r) = 4%nat ∧ Forall coeff_ok (rec_coefficients r) ∧
  length (rec_vignette_k r) = 5%nat ∧ Forall (is_u 64) (rec_vignette_k r) ∧
  Forall (is_u 64) [rec_cx_hat r; rec_cy_hat r; rec_vignette_cx_hat r; rec_vignette_cy_hat r] ∧
  Forall (is_u 32) [rec_id r; rec_optional r; rec_coefficient_count r; rec_constant r; rec_bayer_phase r;
    rec_point_offset r; rec_point_count r; rec_rect_offset r; rec_rect_count r; rec_top r; rec_left r;
    rec_bottom r; rec_right r].

Lemma record_fields_fit pad r :
  is_u 32 pad → record_in_range r → Forall2 fits record_widths (record_fields pad r).
Proof.
  intros Hpad (Hc & Hcs & Hk & Hks & Hd & Hw).
  destruct r as [i o n cs cx cy ks vx vy a b c d e f g h j k]. cbn [rec_id rec_optional rec_coefficient_count
    rec_coefficients rec_cx_hat rec_cy_hat rec_vignette_k rec_vignette_cx_hat rec_vignette_cy_hat rec_constant
    rec_bayer_phase rec_point_offset rec_point_count rec_rect_offset rec_rect_count rec_top rec_left rec_bottom
    rec_right] in *.
  destruct cs as [|c1 [|c2 [|c3 [|c4 [|]]]]]; try done. destruct ks as [|k1 [|k2 [|k3 [|k4 [|k5 [|]]]]]]; try done.
  rewrite !Forall_cons in *. unfold coeff_ok in Hcs. destruct_and!.
  unfold record_widths, record_fields. simpl. repeat (constructor; [done|]). constructor.
Qed.

Lemma record_of_record_fields pad r :
  record_in_range r → record_of_fields (record_fields pad r) = r.
Proof.
  intros (Hc & _ & Hk & _). destruct r as [i o n cs cx cy ks vx vy a b c d e f g h j k]. simpl in *.
  destruct cs as [|[] [|[] [|[] [|[] [|]]]]]; try done. by destruct ks as [|? [|? [|? [|? [|? [|]]]]]].
Qed.

(** ** What a record carries *)

Definition points_of (p : payload) : list BadPoint := match p with PBadList l => bad_points l | _ => [] end.
Definition rects_of (p : payload) : list BadRect := match p with PBadList l => bad_rects l | _ => [] end.

(** The content of a record, as the filter reads it; an unknown opcode only keeps
    that it is unknown. *)
Definition unpack_record (blob : bytes) (u : Unpacked) (r : Opcode3DispatchRecord) : res payload :=
  if rec_id r =? 1 then Ok (PWarp (mkWarp (take (Z.to_nat (rec_coefficient_count r)) (rec_coefficients r))
                                     (rec_cx_hat r) (rec_cy_hat r)))
  else if rec_id r =? 3 then
    Ok (PVignette (mkVignette (rec_vignette_k r) (rec_vignette_cx_hat r) (rec_vignette_cy_hat r)))
  else if rec_id r =? 4 then Ok (PBadConstant (mkBadConstant (rec_constant r) (rec_bayer_phase r)))
  else if rec_id r =? 5 then
    ps ← foldM (λ acc i, p ← point_at blob u i; Ok (acc ++ [p])) [] (seqZ (rec_point_offset r) (rec_point_count r));
    qs ← foldM (λ acc i, q ← rect_at blob u i; Ok (acc ++ [q])) [] (seqZ (rec_rect_offset r) (rec_rect_count r));
    Ok (PBadList (mkBadList (rec_bayer_phase r) ps qs))
  else if rec_id r =? 6 then Ok (PTrim (mkTrim (rec_top r) (rec_left r) (rec_bottom r) (rec_right r)))
  else Ok (PUnknown 0 []).

Definition forget_raw (p : payload) : payload := match p with PUnknown _ _ => PUnknown 0 [] | _ => p end.

(** Bad points and rectangles of a record start at [np] and [nr]. *)
Definition packed (p : payload) (opt : bool) (np nr : Z) (r : Opcode3DispatchRecord) : Prop :=
  record_in_range r ∧ rec_optional r = (if opt then 1 else 0) ∧
  (rec_point_offset r, rec_point_count r, rec_rect_offset r, rec_rect_count r) =
    (match p with PBadList l => (np, len (bad_points l), nr, len (bad_rects l)) | _ => (0, 0, 0, 0) end) ∧
  ∀ blob u,
    foldM (λ acc i, p ← point_at blob u i; Ok (acc ++ [p])) [] (seqZ np (len (points_of p))) = Ok (points_of p) →
    foldM (λ acc i, q ← rect_at blob u i; Ok (acc ++ [q])) [] (seqZ nr (len (rects_of p))) = Ok (rects_of p) →
    unpack_record blob u r = Ok (forget_raw p).

Lemma zero_coefficients_ok n : Forall coeff_ok (replicate n zero_coefficient).
Proof. by apply Forall_replicate. Qed.

Lemma fresh_in_range version fl p raw :
  payload_ok p → record_in_range (fresh_record (with_raw_params (opcode_of version fl p) raw)).
Proof.
  intros Hp. unfold fresh_record, record_in_range. cbn [rec_coefficients rec_vignette_k rec_cx_hat rec_cy_hat
    rec_vignette_cx_hat rec_vignette_cy_hat rec_id rec_optional rec_coefficient_count rec_constant rec_bayer_phase
    rec_point_offset rec_point_count rec_rect_offset rec_rect_count rec_top rec_left rec_bottom rec_right].
  split_and!; try done; [apply zero_coefficients_ok|by apply Forall_replicate|by rewrite !Forall_cons|].
  rewrite !Forall_cons. split_and!; try done; [apply wrap_bound; lia|by destruct (optional _)].
Qed.

(** The steps of the packing keep a record in range. *)
Ltac in_range :=
  unfold record_in_range; simpl; rewrite ?Forall_cons;
  intros (? & ? & ? & ? & ? & ?); intros; rewrite ?Forall_cons in *; destruct_and?; split_and?; try done.

Lemma pack_warp_in_range w r :
  record_in_range r → Forall coeff_ok (coefficients w) → is_u 64 (warp_cx w) → is_u 64 (warp_cy w) →
  record_in_range (pack_warp w r).
Proof.
  intros Hr Hc Hx Hy. revert Hr. in_range.
  - unfold len in *. rewrite u32_small by lia. rewrite length_app, length_take, length_drop. lia.
  - apply Forall_app; split; [by apply Forall_take|by apply Forall_drop].
  - apply wrap_bound. lia.
Qed.

Lemma pack_vignette_in_range v r :
  record_in_range r → length (vig_k v) = 5%nat → Forall (is_u 64) (vig_k v) → is_u 64 (vig_cx v) →
  is_u 64 (vig_cy v) → record_in_range (pack_vignette v r).
Proof. intros Hr Hk Hks Hx Hy. revert Hr. in_range. Qed.

Lemma pack_constant_in_range c r :
  record_in_range r → is_u 32 (bc_constant c) → is_u 32 (bc_bayer_phase c) → record_in_range (pack_constant c r).
Proof. intros Hr Hc Hb. revert Hr. in_range. Qed.

Lemma pack_list_in_range pts rcts l r :
  record_in_range r → is_u 32 (bl_bayer_phase l) → record_in_range (pack_list pts rcts l r).
Proof. intros Hr Hb. revert Hr. in_range; apply wrap_bound; lia. Qed.

Lemma pack_trim_in_range t r :
  record_in_range r → is_u 32 (tr_top t) → is_u 32 (tr_left t) → is_u 32 (tr_bottom t) → is_u 32 (tr_right t) →
  record_in_range (pack_trim t r).
Proof. intros Hr H1 H2 H3 H4. revert Hr. in_range. Qed.

Lemma pack_step version fl p raw recs pts rcts :
  payload_ok p → len pts + len (points_of p) < 2 ^ 32 → len rcts + len (rects_of p) < 2 ^ 32 →
  let o := with_raw_params (opcode_of version fl p) raw in
  ∃ r, pack_opcode (recs, pts, rcts) o = (recs ++ [r], pts ++ points_of p, rcts ++ rects_of p) ∧
    packed p (optional o) (len pts) (len rcts) r.
Proof.
  intros Hp Hlp Hlr o. pose proof (fresh_in_range version fl p raw Hp) as Hf. fold o in Hf.
  pose proof (len_nonneg pts). pose proof (len_nonneg rcts).
  unfold packed. destruct p as [w|v|c|l|t|raw' params]; (eexists; split; [cbn [pack_opcode o with_raw_params
    opcode_of when warp_rectilinear fix_vignette_radial fix_bad_pixels_constant fix_bad_pixels_list trim_bounds
    points_of rects_of]; rewrite ?app_nil_r; reflexivity|]).
  - destruct Hp as (Hn & Hc & Hx & Hy). split; [by apply pack_warp_in_range|]. split; [done|]. split; [done|].
    intros blob u _ _. unfold unpack_record. simpl. do 2 f_equal.
    destruct w as [cs cx cy]. simpl in *. f_equal. unfold len in *. rewrite u32_small by (simpl; lia).
    rewrite take_app_le by (rewrite length_take; simpl; lia). rewrite take_take, take_ge by (simpl; lia). done.
  - destruct Hp as (? & ? & ? & ?). split; [by apply pack_vignette_in_range|]. split_and!; [done..|].
    intros blob u _ _. by destruct v.
  - destruct Hp. split; [by apply pack_constant_in_range|]. split_and!; [done..|]. intros blob u _ _. by destruct c.
  - destruct Hp as (? & ? & ?). split; [by apply pack_list_in_range|]. split; [done|]. simpl in *.
    pose proof (len_nonneg (bad_points l)). pose proof (len_nonneg (bad_rects l)).
    rewrite !u32_small by lia. split; [done|]. intros blob u Hps Hqs. unfold unpack_record. simpl.
    rewrite !u32_small by lia. rewrite Hps, Ok_bind, Hqs, Ok_bind. by destruct l.
  - destruct Hp as (? & ? & ? & ?). split; [by apply pack_trim_in_range|]. split_and!; [done..|].
    intros blob u _ _. by destruct t.
  - destruct Hp as (? & Hid & ?). split; [done|]. split_and!; [done..|]. intros blob u _ _.
    unfold unpack_record, o. simpl. by rewrite Hid.
Qed.

(** ** The whole list *)

Definition op_points (o : Opcode) : list BadPoint :=
  match fix_bad_pixels_list o with Some l => bad_points l | None => [] end.
Definition op_rects (o : Opcode) : list BadRect :=
  match fix_bad_pixels_list o with Some l => bad_rects l | None => [] end.

(** The content of a well-formed opcode. *)
Definition content (o : Opcode) (p : payload) : Prop :=
  payload_ok p ∧ o = with_raw_params (opcode_of (dng_version o) (flags o) p) (raw_params o).

Lemma content_tables o p : content o p → op_points o = points_of p ∧ op_rects o = rects_of p.
Proof. intros [_ ->]. by destruct p. Qed.

Definition point_end (r : Opcode3DispatchRecord) : Z := rec_point_offset r + rec_point_count r.
Definition rect_end (r : Opcode3DispatchRecord) : Z := rec_rect_offset r + rec_rect_count r.

Lemma packed_ends p opt np nr r :
  packed p opt np nr r → 0 ≤ np → 0 ≤ nr →
  Z.max np (point_end r) = np + len (points_of p) ∧ Z.max nr (rect_end r) = nr + len (rects_of p).
Proof.
  intros (_ & _ & Heq & _) Hp Hr. unfold point_end, rect_end.
  destruct p as [| | |l| |]; injection Heq as -> -> -> ->; cbn [points_of rects_of]; rewrite ?(len_nil (A:=BadPoint)), ?(len_nil (A:=BadRect)); [lia..| |lia|lia].
  pose proof (len_nonneg (bad_points l)). pose proof (len_nonneg (bad_rects l)). lia.
Qed.

Lemma pack_fold ops : ∀ recs pts rcts,
  Forall opcode_wf ops → len pts + len (ops ≫= op_points) < 2 ^ 32 → len rcts + len (ops ≫= op_rects) < 2 ^ 32 →
  ∃ new, foldl pack_opcode (recs, pts, rcts) ops =
      (recs ++ new, pts ++ (ops ≫= op_points), rcts ++ (ops ≫= op_rects)) ∧
    length new = length ops ∧
    foldl (λ m r, Z.max m (point_end r)) (len pts) new = len pts + len (ops ≫= op_points) ∧
    foldl (λ m r, Z.max m (rect_end r)) (len rcts) new = len rcts + len (ops ≫= op_rects) ∧
    ∀ i o r, ops !! i = Some o → new !! i = Some r → ∃ p, content o p ∧
      packed p (optional o) (len pts + len (take i ops ≫= op_points)) (len rcts + len (take i ops ≫= op_rects)) r.
Proof.
  induction ops as [|o ops IH]; intros recs pts rcts Hwf Hp Hr.
  { exists []. simpl. rewrite !app_nil_r, len_nil, !Z.add_0_r. done. }
  apply Forall_cons in Hwf as [(p & Hpok & Ho & _) Hwf]. assert (Hc : content o p) by done.
  destruct (content_tables o p Hc) as [Ep Er]. rewrite !bind_cons, !len_app, Ep, Er in *.
  pose proof (len_nonneg pts). pose proof (len_nonneg rcts).
  pose proof (len_nonneg (ops ≫= op_points)). pose proof (len_nonneg (ops ≫= op_rects)).
  destruct (pack_step (dng_version o) (flags o) p (raw_params o) recs pts rcts Hpok) as (r & Hstep & Hr1); [lia..|].
  cbv zeta in Hstep, Hr1. rewrite <-Ho in Hstep, Hr1. cbn [foldl]. rewrite Hstep.
  destruct (IH (recs ++ [r]) (pts ++ points_of p) (rcts ++ rects_of p) Hwf)
    as (new & -> & Hl & Hmp & Hmr & Hnew); [rewrite len_app; lia..|].
  exists (r :: new). rewrite <-!app_assoc. split; [done|]. split; [simpl; by rewrite Hl|].
  destruct (packed_ends _ _ _ _ _ Hr1) as [Hep Her]; [lia..|]. rewrite !len_app in *. cbn [foldl].
  split; [rewrite Hep, Hmp; lia|]. split; [rewrite Her, Hmr; lia|].
  intros [|i] o' r' Ho' Hr'.
  - injection Ho' as <-. injection Hr' as <-. exists p. split; [done|]. simpl. by rewrite len_nil, !Z.add_0_r.
  - destruct (Hnew i o' r' Ho' Hr') as (p' & Hp' & Hpk). exists p'. split; [done|].
    cbn [take]. by rewrite !bind_cons, !len_app, Ep, Er, !Z.add_assoc.
Qed.

Lemma imap_fields_fit pad recs :
  (∀ i, is_u 32 (pad i)) → Forall record_in_range recs →
  Forall (Forall2 fits record_widths) (imap (λ i r, record_fields (pad i) r) recs).
Proof.
  intros Hpad Hin. apply Forall_lookup. intros i x (r & Hr & ->)%list_lookup_imap_Some.
  apply record_fields_fit; [done|]. by eapply Forall_lookup_1 in Hin.
Qed.

Lemma len_record_table pad recs :
  (∀ i, is_u 32 (pad i)) → Forall record_in_range recs →
  len (concat (struct_bytes record_widths <$> imap (λ i r, record_fields (pad i) r) recs)) = len recs * 320.
Proof. intros. rewrite len_table by (by apply imap_fields_fit). unfold len. by rewrite length_imap. Qed.

(** The records are read back from the blob. *)
Lemma read_packed_records blob pad fields recs pre suf :
  (∀ i, is_u 32 (pad i)) → Forall record_in_range recs →
  fields = imap (λ i r, record_fields (pad i) r) recs →
  blob = pre ++ concat (struct_bytes record_widths <$> fields) ++ suf → len pre = 8 →
  foldM (λ acc i, r ← read_record blob i; Ok (acc ++ [r])) [] (seqZ 0 (len recs)) = Ok recs.
Proof.
  intros Hpad Hin -> -> Hpre.
  pose proof (imap_fields_fit pad recs Hpad Hin) as Hfit.
  rewrite (foldM_collect (read_record _) recs 0 []); [done|]. intros j r Hj. unfold read_record.
  assert (Hx : imap (λ i r, record_fields (pad i) r) recs !! j = Some (record_fields (pad j) r)).
  { by rewrite list_lookup_imap, Hj. }
  pose proof (read_struct_table record_widths _ pre suf j _ Hfit Hx) as Hread. rewrite Hpre in Hread.
  change (struct_size record_widths) with 320 in Hread. rewrite Z.add_0_l, Hread, Ok_bind.
  rewrite record_of_record_fields; [done|]. by eapply Forall_lookup_1 in Hin.
Qed.

Lemma op_tables_ok ops :
  Forall opcode_wf ops → Forall point_ok (ops ≫= op_points) ∧ Forall rect_ok (ops ≫= op_rects).
Proof.
  induction 1 as [|o ops (p & Hp & Ho & _) _ [IH1 IH2]]; [by split|].
  destruct (content_tables o p (conj Hp Ho)) as [E1 E2]. rewrite !bind_cons, !Forall_app, E1, E2.
  destruct p as [| | |l| |]; simpl; try (by split_and!). by destruct Hp as (_ & ? & ?).
Qed.

(** The layout of a packed blob. *)
Record blob_layout (blob : bytes) (recs : list Opcode3DispatchRecord) (pts : list BadPoint)
    (rcts : list BadRect) : Prop := {
  lay_count : len recs < 2 ^ 32;
  lay_points : len pts < 2 ^ 32;
  lay_rects : len rcts < 2 ^ 32;
  lay_point_ok : Forall point_ok pts;
  lay_rect_ok : Forall rect_ok rcts;
  lay_bytes : ∃ pad, (∀ i, is_u 32 (pad i)) ∧ Forall record_in_range recs ∧
    blob = struct_bytes header_widths [len recs; 0] ++
      concat (struct_bytes record_widths <$> imap (λ i r, record_fields (pad i) r) recs) ++
      concat (struct_bytes point_widths <$> (point_fields <$> pts)) ++
      concat (struct_bytes rect_widths <$> (rect_fields <$> rcts))
}.

Lemma point_fields_fit pts : Forall point_ok pts → Forall (Forall2 fits point_widths) (point_fields <$> pts).
Proof.
  intros H. apply Forall_fmap. eapply Forall_impl; [exact H|]. intros p [? ?].
  repeat (constructor; [done|]). constructor.
Qed.

Lemma rect_fields_fit rcts : Forall rect_ok rcts → Forall (Forall2 fits rect_widths) (rect_fields <$> rcts).
Proof.
  intros H. apply Forall_fmap. eapply Forall_impl; [exact H|]. intros r (? & ? & ? & ?).
  repeat (constructor; [done|]). constructor.
Qed.

Lemma len_point_table pts :
  Forall point_ok pts → len (concat (struct_bytes point_widths <$> (point_fields <$> pts))) = len pts * 8.
Proof. intros. rewrite len_table by (by apply point_fields_fit). unfold len. by rewrite length_fmap. Qed.

Lemma len_rect_table rcts :
  Forall rect_ok rcts → len (concat (struct_bytes rect_widths <$> (rect_fields <$> rcts))) = len rcts * 16.
Proof. intros. rewrite len_table by (by apply rect_fields_fit). unfold len. by rewrite length_fmap. Qed.

Section Layout.

Variables (blob : bytes) (recs : list Opcode3DispatchRecord) (pts : list BadPoint) (rcts : list BadRect).
Hypothesis Hlay : blob_layout blob recs pts rcts.
Let u : Unpacked := mkUnpacked recs (8 + len recs * 320) (8 + len recs * 320 + len pts * 8).

Lemma layout_points k p : pts !! k = Some p → point_at blob u (Z.of_nat k) = Ok p.
Proof using Hlay.
  destruct Hlay as [? ? ? Hp Hr (pad & Hpad & Hin & ->)]. intros Hk. unfold point_at.
  assert (Hx : (point_fields <$> pts) !! k = Some (point_fields p)) by (by rewrite list_lookup_fmap, Hk).
  set (hd := struct_bytes header_widths _). set (tb := concat (struct_bytes record_widths <$> _)).
  assert (Htb : len tb = len recs * 320) by (by apply len_record_table).
  pose proof (read_struct_table point_widths _ (hd ++ tb) (concat (struct_bytes rect_widths <$> (rect_fields <$> rcts)))
    k _ (point_fields_fit _ Hp) Hx) as Hread.
  rewrite len_app, Htb, <-app_assoc in Hread. change (len hd) with 8 in Hread.
  change (struct_size point_widths) with 8 in Hread. simpl up_points_offset. rewrite Hread. by destruct p.
Qed.

Lemma layout_rects k r : rcts !! k = Some r → rect_at blob u (Z.of_nat k) = Ok r.
Proof using Hlay.
  destruct Hlay as [? ? ? Hp Hr (pad & Hpad & Hin & ->)]. intros Hk. unfold rect_at.
  assert (Hx : (rect_fields <$> rcts) !! k = Some (rect_fields r)) by (by rewrite list_lookup_fmap, Hk).
  set (hd := struct_bytes header_widths _). set (tb := concat (struct_bytes record_widths <$> _)).
  assert (Htb : len tb = len recs * 320) by (by apply len_record_table).
  set (pt := concat (struct_bytes point_widths <$> _)).
  assert (Hpt : len pt = len pts * 8) by (by apply len_point_table).
  pose proof (read_struct_table rect_widths _ (hd ++ tb ++ pt) [] k _ (rect_fields_fit _ Hr) Hx) as Hread.
  rewrite !len_app, Htb, Hpt, app_nil_r, <-!app_assoc in Hread. change (len hd) with 8 in Hread.
  change (struct_size rect_widths) with 16 in Hread. simpl up_rects_offset. rewrite Z.add_assoc in Hread.
  rewrite Hread. by destruct r.
Qed.

(** The check accepts the layout. *)
Lemma layout_checked :
  foldl (λ m r, Z.max m (point_end r)) 0 recs = len pts →
  foldl (λ m r, Z.max m (rect_end r)) 0 recs = len rcts →
  checked_param_blob (Some blob) = Ok (Some u).
Proof using Hlay.
  destruct Hlay as [Hc Hnp Hnr Hp Hr (pad & Hpad & Hin & Hblob)]. intros Hep Her.
  pose proof (len_nonneg recs). pose proof (len_nonneg pts). pose proof (len_nonneg rcts).
  assert (Hlen : len blob = 8 + len recs * 320 + len pts * 8 + len rcts * 16).
  { rewrite Hblob, !len_app, len_record_table by done.
    rewrite len_point_table, len_rect_table by done. change (len (struct_bytes header_widths _)) with 8. lia. }
  simpl. rewrite (proj2 (Z.ltb_ge _ _)) by lia.
  assert (read_struct header_widths blob 0 = Ok [len recs; 0]) as ->.
  { rewrite Hblob. apply (read_struct_at _ _ []); [|done]. repeat (constructor; [unfold fits; simpl; lia|]). constructor. }
  rewrite Ok_bind. unfold field at 1 2 3 4 5. simpl. rewrite (u64_small (len recs * 320)), (u64_small (8 + _)) by lia.
  rewrite (proj2 (Z.ltb_ge _ _)) by lia.
  rewrite (read_packed_records blob pad _ recs (struct_bytes header_widths [len recs; 0]) _ Hpad Hin eq_refl Hblob)
    by done. rewrite Ok_bind. unfold point_end, rect_end in *. rewrite Hep, Her.
  rewrite (u64_small (len pts * 8)), (u64_small (len rcts * 16)) by lia. rewrite (u64_small (8 + _ + _)) by lia.
  rewrite (u64_small (8 + _ + _ + _)) by lia. by rewrite (proj2 (Z.ltb_ge _ _)) by lia.
Qed.

End Layout.

(** A part of a table, collected by index. *)
Lemma collect_slice {A} (f : Z → res A) (l : list A) pre mid suf :
  (∀ k x, l !! k = Some x → f (Z.of_nat k) = Ok x) → l = pre ++ mid ++ suf →
  foldM (λ acc i, x ← f i; Ok (acc ++ [x])) [] (seqZ (len pre) (len mid)) = Ok mid.
Proof.
  intros Hf ->. rewrite (foldM_collect f mid); [done|]. intros j x Hj.
  replace (len pre + Z.of_nat j) with (Z.of_nat (length pre + j)) by (unfold len; lia). apply Hf.
  rewrite lookup_app_r by lia. replace (length pre + j - length pre)%nat with j by lia. by apply lookup_app_l_Some.
Qed.

Lemma bind_split {A B} (f : A → list B) (l : list A) i x :
  l !! i = Some x → l ≫= f = (take i l ≫= f) ++ f x ++ (drop (S i) l ≫= f).
Proof. intros Hi. rewrite <-(take_drop_middle l i x Hi) at 1. by rewrite bind_app, bind_cons. Qed.

(** ** Theorems *)

(** the check of the lens filter's parameter blob is sound: whatever bytes
    arrive, it reads inside the blob, and when it accepts, every point and every
    rectangle that any record of the blob refers to lies inside the blob. *)
Theorem checked_param_blob_safe (blob : bytes) :
  bytes_ok blob → ∃ o, checked_param_blob (Some blob) = Ok o ∧ ∀ u, o = Some u → accesses_ok blob u.
Proof. apply checked_param_blob_defined. Qed.

(** packing the opcodes of a DNG file for the lens filter loses nothing: the
    filter's check accepts the packed blob, and reading its records back, with
    the points and rectangles they refer to, gives the contents of the opcodes in
    order, whatever the padding of the structs holds. *)
Theorem pack_unpack (pad : nat → Z) (ops : list Opcode) :
  (∀ i, is_u 32 (pad i)) → Forall opcode_wf ops → len ops < 2 ^ 32 →
  len (ops ≫= op_points) < 2 ^ 32 → len (ops ≫= op_rects) < 2 ^ 32 →
  let blob := pack_opcode_list_3 pad ops in
  ∃ u, checked_param_blob (Some blob) = Ok (Some u) ∧
    Forall2 (λ o r, rec_optional r = (if optional o then 1 else 0) ∧
      ∃ p, content o p ∧ unpack_record blob u r = Ok (forget_raw p)) ops (up_records u).
Proof.
  intros Hpad Hwf Hn Hnp Hnr blob.
  destruct (pack_fold ops [] [] []) as (recs & Hf & Hl & Hep & Her & Hrec); [done..|].
  simpl in Hf, Hep, Her, Hrec. destruct (op_tables_ok ops Hwf) as [Hpok Hrok].
  assert (Hlr : len recs = len ops) by (unfold len; lia).
  assert (Hin : Forall record_in_range recs).
  { apply Forall_lookup. intros i r Hr. pose proof (lookup_lt_Some _ _ _ Hr).
    destruct (lookup_lt_is_Some_2 ops i) as [o Ho]; [lia|]. by destruct (Hrec i o r Ho Hr) as (p & _ & ? & _). }
  assert (Hlay : blob_layout blob recs (ops ≫= op_points) (ops ≫= op_rects)).
  { split; [lia|done..|]. exists pad. split_and!; [done..|]. unfold blob, pack_opcode_list_3. rewrite Hf.
    rewrite u32_small, <-Hlr by (pose proof (len_nonneg ops); lia). rewrite fmap_imap, <-!list_fmap_compose. done. }
  eexists. split; [by apply (layout_checked _ _ _ _ Hlay)|]. simpl. apply Forall2_same_length_lookup_2; [done|].
  intros i o r Ho Hr. destruct (Hrec i o r Ho Hr) as (p & Hc & _ & Hopt & _ & Hunpack). split; [done|].
  exists p. split; [done|]. destruct (content_tables o p Hc) as [Ep Er]. apply Hunpack.
  - rewrite <-Ep. eapply collect_slice; [apply (layout_points _ _ _ _ Hlay)|]. by apply bind_split.
  - rewrite <-Er. eapply collect_slice; [apply (layout_rects _ _ _ _ Hlay)|]. by apply bind_split.
Qed.

(** ** Witnesses *)

Definition example_opcodes : list Opcode :=
  [opcode_of 1 0 (PTrim (mkTrim 0 0 2 2));
   opcode_of 1 1 (PBadList (mkBadList 0 [mkPoint 1 2] [mkBadRect 0 0 1 1]));
   opcode_of 1 1 (PUnknown 77 [5]);
   opcode_of 1 0 (PBadList (mkBadList 3 [mkPoint 3 4; mkPoint 5 6] []))].

Lemma example_opcodes_wf : Forall opcode_wf example_opcodes.
Proof.
  unfold example_opcodes. rewrite !Forall_cons. split_and!; [exists (PTrim (mkTrim 0 0 2 2))|
    exists (PBadList (mkBadList 0 [mkPoint 1 2] [mkBadRect 0 0 1 1]))|exists (PUnknown 77 [5])|
    exists (PBadList (mkBadList 3 [mkPoint 3 4; mkPoint 5 6] []))|done];
  (split; [simpl; unfold bytes_ok; rewrite ?Forall_cons; unfold point_ok, rect_ok, is_u; simpl; split_and?;
    first [apply Forall_nil_2|done|lia]|by split]).
Qed.

Lemma checked_param_blob_safe_witness :
  ∃ o, checked_param_blob (Some (pack_opcode_list_3 (λ _, 7) example_opcodes)) = Ok o ∧
    ∀ u, o = Some u → accesses_ok (pack_opcode_list_3 (λ _, 7) example_opcodes) u.
Proof.
  apply (checked_param_blob_safe (pack_opcode_list_3 (λ _, 7) example_opcodes)).
  apply Forall_forall. intros b Hb. assert (Hall : forallb (λ b, (0 <=? b) && (b <? 256))
    (pack_opcode_list_3 (λ _, 7) example_opcodes) = true) by (vm_compute; reflexivity).
  rewrite forallb_forall in Hall. apply list_elem_of_In in Hb. specialize (Hall b Hb). unfold is_u. lia.
Defined.

Lemma pack_unpack_witness :
  ∃ u, checked_param_blob (Some (pack_opcode_list_3 (λ _, 7) example_opcodes)) = Ok (Some u) ∧
    length (up_records u) = 4%nat ∧
    point_at (pack_opcode_list_3 (λ _, 7) example_opcodes) u 2 = Ok (mkPoint 5 6).
Proof.
  destruct (pack_unpack (λ _, 7) example_opcodes) as (u & Hu & Hall);
    [done|apply example_opcodes_wf|vm_compute; reflexivity..|].
  exists u. split; [done|]. split; [by apply Forall2_length in Hall|].
  assert (∀ v, checked_param_blob (Some (pack_opcode_list_3 (λ _, 7) example_opcodes)) = Ok (Some v) →
    point_at (pack_opcode_list_3 (λ _, 7) example_opcodes) v 2 = Ok (mkPoint 5 6)) as H; [|by apply H].
  intros v Hv. vm_compute in Hv. injection Hv as <-. vm_compute. reflexivity.
Defined.
