(* ===== verification/Float64.v ===== *)
(** * Comparing doubles with integers

    The lens filters clamp binary64 coordinates to the image and truncate them to
    [int].  [SpecFloat]'s comparison looks at exponents first, so it is the order
    of the values only for mantissas that fit the format.  The lemmas here show
    that rounded results fit ([narrow_mul], [narrow_add]), that an integer below
    2^53 is represented exactly ([f64_int]), and that a double clamped between
    zero and an integer truncates to an integer of that range
    ([clamp_floor], [floor_below]). *)

From Stdlib Require Import ZArith Lia SpecFloat.
From stdpp Require Import prelude.
From S2P Require Import Prelude Float32.

Local Open Scope Z_scope.

Local Abbreviation prec := 53.
Local Abbreviation emax := 1024.

(** [m * 2^e] as a double. *)
Definition f64 (m e : Z) : spec_float := binary_normalize prec emax m e false.

(** The mantissa fits the format. *)
Definition narrow (v : spec_float) : Prop :=
  match v with S754_finite _ m _ => Z.pos m < 2 ^ 53 | _ => True end.

(** ** Rounding *)

Lemma iter_shr_m p : ∀ r, 0 ≤ shr_m r → shr_m (SpecFloat.iter_pos shr_1 p r) = shr_m r / 2 ^ Z.pos p.
Proof.
  induction p as [p IH|p IH|]; intros r Hr; simpl SpecFloat.iter_pos.
  - destruct (shr_1_spec r Hr) as [H1 _].
    assert (0 ≤ shr_m (shr_1 r)) by (rewrite H1; apply Z.div_pos; lia).
    assert (0 ≤ shr_m (shr_1 r) / 2 ^ Z.pos p) by (apply Z.div_pos; lia).
    rewrite IH, IH, H1 by (rewrite ?IH; lia). rewrite !Z.div_div by lia. f_equal.
    rewrite (Pos2Z.inj_xI p). replace (2 * Z.pos p + 1) with (1 + Z.pos p + Z.pos p) by lia.
    rewrite !Z.pow_add_r by lia. lia.
  - assert (0 ≤ shr_m r / 2 ^ Z.pos p) by (apply Z.div_pos; lia).
    rewrite IH, IH by (rewrite ?IH; lia). rewrite Z.div_div by lia. f_equal.
    rewrite (Pos2Z.inj_xO p). replace (2 * Z.pos p) with (Z.pos p + Z.pos p) by lia.
    by rewrite Z.pow_add_r by lia.
  - by destruct (shr_1_spec r Hr) as [-> _].
Qed.

Lemma shr_record_m m l : shr_m (shr_record_of_loc m l) = m.
Proof. by destruct l as [|[]]. Qed.

Lemma digits_lt m : 0 ≤ m → m < 2 ^ Zdigits2 m.
Proof. destruct m as [|p|p]; simpl; [done| |lia]. intros _. apply digits2_bounds. Qed.

(** Shifting to the canonical exponent leaves at most 53 bits. *)
Lemma shr_fexp_narrow m e l :
  0 ≤ m → 0 ≤ shr_m (fst (shr_fexp prec emax m e l)) < 2 ^ 53.
Proof.
  intros Hm. unfold shr_fexp. set (k := fexp prec emax (Zdigits2 m + e) - e).
  assert (Hk : Zdigits2 m - 53 ≤ k) by (unfold k, fexp, emin; lia). pose proof (digits_lt m Hm) as Hd.
  unfold shr. destruct k as [|p|p]; simpl fst; rewrite ?iter_shr_m, shr_record_m; rewrite ?shr_record_m; try done.
  - split; [done|]. eapply Z.lt_le_trans; [exact Hd|]. apply Z.pow_le_mono_r; lia.
  - split; [apply Z.div_pos; lia|]. apply Z.div_lt_upper_bound; [lia|]. rewrite <-Z.pow_add_r by lia.
    eapply Z.lt_le_trans; [exact Hd|]. apply Z.pow_le_mono_r; lia.
  - split; [done|]. eapply Z.lt_le_trans; [exact Hd|]. apply Z.pow_le_mono_r; lia.
Qed.

Lemma narrow_round s m e l : 0 ≤ m → narrow (binary_round_aux prec emax s m e l).
Proof.
  intros Hm. unfold binary_round_aux. pose proof (shr_fexp_narrow m e l Hm) as H1.
  destruct (shr_fexp prec emax m e l) as [r e']. simpl in H1.
  set (m' := round_nearest_even _ _). assert (0 ≤ m').
  { unfold m', round_nearest_even. destruct (loc_of_shr_record r) as [|[]]; try destruct (Z.even _); lia. }
  pose proof (shr_fexp_narrow m' e' loc_Exact ltac:(done)) as H2.
  destruct (shr_fexp prec emax m' e' loc_Exact) as [r' e'']. simpl in H2.
  destruct (shr_m r') as [|p|p]; [done| |lia]. destruct (_ <=? _); [|done]. simpl. lia.
Qed.

Lemma narrow_normalize m e b : narrow (binary_normalize prec emax m e b).
Proof.
  destruct m as [|p|p]; [done|..]; unfold binary_normalize, binary_round;
    destruct (shl_align _ _ _); by apply narrow_round.
Qed.

Lemma narrow_mul x y : narrow (SFmul prec emax x y).
Proof. destruct x, y; try done. by apply narrow_round. Qed.

Lemma narrow_add x y : narrow x → narrow y → narrow (SFadd prec emax x y).
Proof.
  intros Hx Hy. destruct x as [[]|[]| |], y as [[]|[]| |]; try done; apply narrow_normalize.
Qed.

(** ** Integers *)

Lemma digits_of m : 2 ^ 52 ≤ Z.pos m < 2 ^ 53 → Z.pos (digits2_pos m) = 53.
Proof.
  intros Hm. destruct (digits2_bounds m) as [H1 H2].
  assert (Z.pos (digits2_pos m) - 1 < 53) by (apply (Z.pow_lt_mono_r_iff 2); lia).
  assert (52 < Z.pos (digits2_pos m)) by (apply (Z.pow_lt_mono_r_iff 2); lia). lia.
Qed.

Lemma shr_fexp_exact m e l :
  2 ^ 52 ≤ Z.pos m < 2 ^ 53 → -1074 ≤ e → shr_fexp prec emax (Z.pos m) e l = (shr_record_of_loc (Z.pos m) l, e).
Proof.
  intros Hm He. unfold shr_fexp. simpl Zdigits2. rewrite digits_of by done.
  replace (fexp prec emax (53 + e) - e) with 0 by (unfold fexp, emin; lia). done.
Qed.

Lemma round_exact s m e :
  2 ^ 52 ≤ Z.pos m < 2 ^ 53 → -1074 ≤ e ≤ 971 →
  binary_round_aux prec emax s (Z.pos m) e loc_Exact = S754_finite s m e.
Proof.
  intros Hm He. unfold binary_round_aux. rewrite shr_fexp_exact by (done || lia). simpl.
  rewrite shr_fexp_exact by (done || lia). simpl. by rewrite (proj2 (Z.leb_le _ _)) by lia.
Qed.

(** An integer below 2^53 is exact. *)
Lemma f64_int n :
  0 < n < 2 ^ 53 → ∃ m e, f64 n 0 = S754_finite false m e ∧ e ≤ 0 ∧ Z.pos m = n * 2 ^ (- e) ∧
    2 ^ 52 ≤ Z.pos m < 2 ^ 53.
Proof.
  intros Hn. destruct n as [|p|p]; [lia| |lia]. unfold f64, binary_normalize, binary_round.
  destruct (digits2_bounds p) as [H1 H2]. set (d := Z.pos (digits2_pos p)) in *.
  assert (Hd : d - 1 < 53) by (apply (Z.pow_lt_mono_r_iff 2); lia). assert (0 < d) by (unfold d; lia).
  rewrite Z.add_0_r. replace (fexp prec emax d) with (d - 53) by (unfold fexp, emin; lia).
  destruct (shl_align_spec p (d - 53)) as (k & Hk & E1 & E2).
  assert (Hk' : k = 53 - d).
  { unfold shl_align in E1. rewrite Z.sub_0_r in E1.
    destruct (d - 53) as [|q|q] eqn:E; simpl in E1; lia. }
  destruct (shl_align p 0 (d - 53)) as [mz ez]. simpl in E1, E2. subst ez k.
  assert (Hm : 2 ^ 52 ≤ Z.pos mz < 2 ^ 53).
  { assert (E52 : 2 ^ 52 = 2 ^ (d - 1) * 2 ^ (53 - d)) by (rewrite <-Z.pow_add_r by lia; f_equal; lia).
    assert (E53 : 2 ^ 53 = 2 ^ d * 2 ^ (53 - d)) by (rewrite <-Z.pow_add_r by lia; f_equal; lia).
    pose proof (Z.pow_pos_nonneg 2 (53 - d) ltac:(lia) ltac:(lia)). rewrite E2, E52, E53.
    split; [apply Z.mul_le_mono_nonneg_r; lia|apply Z.mul_lt_mono_pos_r; lia]. }
  rewrite round_exact by (done || lia). exists mz, (- (53 - d)). split_and!; [done|lia|by rewrite Z.opp_involutive|lia..].
Qed.

(** ** Truncation *)

(** [static_cast<int>(std::floor(v))]. *)
Definition floor_int (v : spec_float) : res Z :=
  match v with
  | S754_zero _ => Ok 0
  | S754_finite s m e =>
      let z := (if s then Z.neg m else Z.pos m) in
      let f := if 0 <=? e then z * 2 ^ e else z / 2 ^ (- e) in
      if (- 2 ^ 31 <=? f) && (f <? 2 ^ 31) then Ok f else Undef
  | _ => Undef
  end.

(** [std::clamp] on doubles: a NaN passes through. *)
Definition clamp_double (v lo hi : spec_float) : spec_float :=
  if SFltb v lo then lo else if SFltb hi v then hi else v.

(** The integer part of a positive double. *)
Definition int_part (m : positive) (e : Z) : Z := if 0 <=? e then Z.pos m * 2 ^ e else Z.pos m / 2 ^ (- e).

Lemma floor_int_pos m e n :
  0 ≤ int_part m e ≤ n → n < 2 ^ 31 → floor_int (S754_finite false m e) = Ok (int_part m e).
Proof.
  intros Hi Hn. unfold floor_int. fold (int_part m e).
  by rewrite (proj2 (Z.leb_le _ _)), (proj2 (Z.ltb_lt _ _)) by lia.
Qed.

Lemma int_part_le m e n : e ≤ 0 → Z.pos m ≤ n * 2 ^ (- e) → 0 ≤ int_part m e ≤ n.
Proof.
  intros He Hm. unfold int_part. pose proof (Z.pow_pos_nonneg 2 (- e) ltac:(lia) ltac:(lia)).
  destruct (Z.leb_spec 0 e); [replace e with 0 in * by lia; simpl in *; lia|].
  split; [apply Z.div_pos; lia|]. apply Z.div_le_upper_bound; lia.
Qed.

Lemma int_part_lt m e n : e ≤ 0 → Z.pos m < n * 2 ^ (- e) → 0 ≤ int_part m e < n.
Proof.
  intros He Hm. unfold int_part. pose proof (Z.pow_pos_nonneg 2 (- e) ltac:(lia) ltac:(lia)).
  destruct (Z.leb_spec 0 e); [replace e with 0 in * by lia; simpl in *; lia|].
  split; [apply Z.div_pos; lia|]. apply Z.div_lt_upper_bound; lia.
Qed.

(** Comparing a positive double with the double of an integer compares the values. *)
Lemma compare_int m e n :
  0 < n < 2 ^ 53 → Z.pos m < 2 ^ 53 →
  match SFcompare (S754_finite false m e) (f64 n 0) with
  | Some Lt => e ≤ 0 ∧ Z.pos m < n * 2 ^ (- e)
  | Some Eq => e ≤ 0 ∧ Z.pos m = n * 2 ^ (- e)
  | Some Gt => True
  | None => False
  end.
Proof.
  intros Hn Hm. destruct (f64_int n Hn) as (mh & eh & -> & Heh & Hmh & Hb). simpl.
  destruct (Z.compare_spec e eh) as [->|Hlt|Hgt]; [|split; [lia|]|done].
  - change (Pos.compare_cont Eq m mh) with (m ?= mh)%positive. rewrite <-Hmh.
    destruct (Pos.compare_spec m mh); [split; [done|by subst]|split; [done|lia]|done].
  - replace (- e) with (- eh + (eh - e)) by lia. rewrite Z.pow_add_r, Z.mul_assoc, <-Hmh by lia.
    assert (2 ^ 1 ≤ 2 ^ (eh - e)) by (apply Z.pow_le_mono_r; lia). nia.
Qed.

Lemma compare_sym x y : SFcompare x y = (CompOpp <$> SFcompare y x).
Proof.
  destruct x as [s1|s1| |s1 m1 e1], y as [s2|s2| |s2 m2 e2]; try done; try (by destruct s1);
    try (by destruct s2); try (by destruct s1, s2).
  simpl. rewrite (Z.compare_antisym e2 e1). change (Pos.compare_cont Eq) with Pos.compare.
  rewrite (Pos.compare_antisym m2 m1). by destruct s1, s2, (e2 ?= e1), (m2 ?= m1)%positive.
Qed.

(** A double that is not NaN, clamped between zero and an integer, truncates to an
    integer of that range. *)
Lemma clamp_floor v n :
  0 ≤ n < 2 ^ 31 → narrow v → v ≠ S754_nan →
  ∃ i, floor_int (clamp_double v (f64 0 0) (f64 n 0)) = Ok i ∧ 0 ≤ i ≤ n.
Proof.
  intros Hn Hv Hnan. unfold clamp_double. change (f64 0 0) with (S754_zero false).
  destruct (SFltb v (S754_zero false)) eqn:E1; [exists 0; split; [done|lia]|].
  assert (Hhi : ∃ i, floor_int (f64 n 0) = Ok i ∧ 0 ≤ i ≤ n).
  { destruct (decide (n = 0)) as [->|]; [by exists 0|].
    destruct (f64_int n ltac:(lia)) as (mh & eh & -> & Heh & Hmh & _).
    pose proof (int_part_le mh eh n Heh ltac:(lia)). exists (int_part mh eh).
    split; [apply (floor_int_pos _ _ n); lia|done]. }
  destruct (SFltb (f64 n 0) v) eqn:E2; [done|].
  destruct v as [s|s| |s m e]; [exists 0; split; [done|lia]| |done|].
  - unfold SFltb in *. destruct s; [done|]. exfalso. destruct (decide (n = 0)) as [->|]; [done|].
    by destruct (f64_int n ltac:(lia)) as (mh & eh & Hf & _); rewrite Hf in E2.
  - destruct s; [done|]. destruct (decide (n = 0)) as [->|]; [done|].
    pose proof (compare_int m e n ltac:(lia) Hv) as Hc. unfold SFltb in E2. rewrite compare_sym in E2.
    destruct (SFcompare (S754_finite false m e) (f64 n 0)) as [[]|]; try done; simpl in E2; try done.
    all: assert (Hi : 0 ≤ int_part m e ≤ n) by (apply int_part_le; lia).
    all: exists (int_part m e); split; [apply (floor_int_pos _ _ n); lia|done].
Qed.

(** ** Quotients *)

Lemma SFdiv_core_nonneg m1 e1 m2 e2 : 0 ≤ (SFdiv_core_binary prec emax (Z.pos m1) e1 (Z.pos m2) e2).1.1.
Proof.
  unfold SFdiv_core_binary. set (m := match _ with Z.pos _ => _ | _ => _ end).
  assert (0 ≤ m) by (unfold m; destruct (_ - _) as [|p|p]; [lia|by apply Z.shiftl_nonneg|lia]).
  pose proof (Z_div_mod m (Z.pos m2) ltac:(lia)) as Hd. destruct (Z.div_eucl m (Z.pos m2)) as [q r]. simpl. nia.
Qed.

Lemma narrow_div x y : narrow (SFdiv prec emax x y).
Proof.
  destruct x as [| | |s m e], y as [| | |s' m' e']; try done. unfold SFdiv.
  pose proof (SFdiv_core_nonneg m e m' e') as H. destruct (SFdiv_core_binary _ _ _ _ _ _) as [[mz ez] lz].
  by apply narrow_round.
Qed.

(** Rounding does not make a NaN. *)
Lemma round_not_nan s m e l : 0 ≤ m → binary_round_aux prec emax s m e l ≠ S754_nan.
Proof.
  intros Hm. unfold binary_round_aux. pose proof (shr_fexp_narrow m e l Hm) as H1.
  destruct (shr_fexp prec emax m e l) as [r e']. simpl in H1.
  set (m' := round_nearest_even _ _). assert (0 ≤ m').
  { unfold m', round_nearest_even. destruct (loc_of_shr_record r) as [|[]]; try destruct (Z.even _); lia. }
  pose proof (shr_fexp_narrow m' e' loc_Exact ltac:(done)) as H2.
  destruct (shr_fexp prec emax m' e' loc_Exact) as [r' e'']. simpl in H2.
  destruct (shr_m r') as [|p|p]; [done| |lia]. by destruct (_ <=? _).
Qed.

Lemma normalize_not_nan m e b : binary_normalize prec emax m e b ≠ S754_nan.
Proof.
  destruct m as [|p|p]; [done|..]; unfold binary_normalize, binary_round;
    destruct (shl_align _ _ _); by apply round_not_nan.
Qed.

(** Zero or a finite number. *)
Definition finite (v : spec_float) : Prop :=
  match v with S754_zero _ | S754_finite _ _ _ => True | _ => False end.

Lemma sub_not_nan x y : finite x → finite y → SFsub prec emax x y ≠ S754_nan.
Proof. destruct x as [[]| | |], y as [[]| | |]; try done; intros _ _; apply normalize_not_nan. Qed.

Lemma div_not_nan x m e : x ≠ S754_nan → SFdiv prec emax x (S754_finite false m e) ≠ S754_nan.
Proof.
  destruct x as [| | |s m' e']; try done. intros _. unfold SFdiv.
  pose proof (SFdiv_core_nonneg m' e' m e) as H. destruct (SFdiv_core_binary _ _ _ _ _ _) as [[mz ez] lz].
  by apply round_not_nan.
Qed.

Lemma f64_finite n : 0 ≤ n < 2 ^ 53 → finite (f64 n 0).
Proof.
  intros Hn. destruct (decide (n = 0)) as [->|]; [done|].
  by destruct (f64_int n ltac:(lia)) as (m & e & -> & _).
Qed.

(** [static_cast<std::uint32_t>(std::floor(v))]. *)
Definition floor_u32 (v : spec_float) : res Z :=
  match v with
  | S754_zero _ => Ok 0
  | S754_finite s m e =>
      let z := (if s then Z.neg m else Z.pos m) in
      let f := if 0 <=? e then z * 2 ^ e else z / 2 ^ (- e) in
      if (0 <=? f) && (f <? 2 ^ 32) then Ok f else Undef
  | _ => Undef
  end.

(** A double strictly between zero and an integer truncates to a smaller integer. *)
Lemma floor_below v n :
  0 < n < 2 ^ 32 → narrow v → v ≠ S754_nan → SFleb v (f64 0 0) = false → SFleb (f64 n 0) v = false →
  ∃ i, floor_u32 v = Ok i ∧ 0 ≤ i < n.
Proof.
  intros Hn Hv Hnan H0 H1. change (f64 0 0) with (S754_zero false) in H0.
  destruct v as [s|s| |s m e]; [done| |done|].
  - destruct s; [done|]. destruct (f64_int n ltac:(lia)) as (mh & eh & Hf & _). by rewrite Hf in H1.
  - destruct s; [done|]. pose proof (compare_int m e n ltac:(lia) Hv) as Hc.
    unfold SFleb in H1. rewrite compare_sym in H1.
    destruct (SFcompare (S754_finite false m e) (f64 n 0)) as [[]|]; try done.
    destruct Hc as [He Hm]. assert (Hi := int_part_lt m e n He Hm). exists (int_part m e). split; [|done].
    unfold floor_u32. fold (int_part m e). by rewrite (proj2 (Z.leb_le _ _)), (proj2 (Z.ltb_lt _ _)) by lia.
Qed.
