(* ===== verification/LensFilter.v ===== *)
(** * The lens-correction filter

    Models src/cpipe/nodes/lens/dng_opcode_list_3_dispatch.cpp: the filter that
    applies the opcodes of a blob ([LensBlob]) to an interleaved RGBA image of
    half floats.  Images are lists of 16-bit patterns; arithmetic is binary32 and
    binary64, correctly rounded, as the source writes it; [int] arithmetic and
    casts that leave the type are undefined.

    Each correction is characterised as a painting: which pixels and channels it
    overwrites, with which value, computed from the image before the correction.
    The filter is the composition of its records' paintings. *)

From Stdlib Require Import ZArith Lia SpecFloat.
From stdpp Require Import prelude strings list.
From S2P Require Import Prelude Core HalfFloat Float64 OpcodeReader OpcodeList3 LensBlob ComputeContext.

Local Open Scope Z_scope.

(** ** Floating point *)

Local Abbreviation fadd := (SFadd 24 128).
Local Abbreviation fsub := (SFsub 24 128).
Local Abbreviation fmul := (SFmul 24 128).
Local Abbreviation fdiv := (SFdiv 24 128).
Local Abbreviation dadd := (SFadd 53 1024).
Local Abbreviation dsub := (SFsub 53 1024).
Local Abbreviation dmul := (SFmul 53 1024).
Local Abbreviation ddiv := (SFdiv 53 1024).

(** [m * 2^e] as a float. *)
Definition f32 (m e : Z) : float32 := binary_normalize 24 128 m e false.

(** Conversions between the two formats. *)
Definition to_f32 (v : spec_float) : float32 :=
  match v with S754_finite s m e => binary_round 24 128 s m e | _ => v end.
Definition to_f64 (v : spec_float) : spec_float :=
  match v with S754_finite s m e => binary_round 53 1024 s m e | _ => v end.

(** The double of a bit pattern. *)
Definition double_of_bits (bits : Z) : spec_float :=
  let sign := Z.testbit bits 63 in
  let exponent := Z.land (Z.shiftr bits 52) 2047 in
  let mantissa := Z.land bits (2 ^ 52 - 1) in
  if exponent =? 2047 then (if mantissa =? 0 then S754_infinity sign else S754_nan)
  else if exponent =? 0 then
    match mantissa with Z.pos m => S754_finite sign m (-1074) | _ => S754_zero sign end
  else match mantissa + 2 ^ 52 with Z.pos m => S754_finite sign m (exponent - 1075) | _ => S754_zero sign end.

(** detail/Float16.hpp: the conversions of [_Float16]. *)
Definition half_value (bits : Z) : float32 :=
  let sign := Z.testbit bits 15 in
  let exponent := Z.land (Z.shiftr bits 10) 31 in
  let mantissa := Z.land bits 1023 in
  if exponent =? 31 then (if mantissa =? 0 then S754_infinity sign else S754_nan)
  else if exponent =? 0 then
    match mantissa with Z.pos m => binary_round 24 128 sign m (-24) | _ => S754_zero sign end
  else match mantissa + 1024 with
       | Z.pos m => binary_round 24 128 sign m (exponent - 25)
       | _ => S754_zero sign
       end.

Section Filter.

(** The pattern a NaN is converted to: its payload is not modelled. *)
Variable nan_half : Z.

Definition half_bits (v : spec_float) : Z := u16
  (let sign (s : bool) := if s then 32768 else 0 in
  match v with
  | S754_zero s => sign s
  | S754_infinity s => sign s + 0x7c00
  | S754_nan => nan_half
  | S754_finite s m e =>
      match binary_round 11 16 s m e with
      | S754_zero s => sign s
      | S754_infinity s => sign s + 0x7c00
      | S754_nan => nan_half
      | S754_finite s m e => sign s + (if Z.pos m <? 1024 then Z.pos m else (e + 25) * 1024 + (Z.pos m - 1024))
      end
  end).

(** ** Pixels *)

Definition kChannels : Z := 4.

Definition pixel_offset (width x y c : Z) : Z :=
  u64 ((u64 y * u64 width + u64 x) * kChannels + u64 c).

(** [int] addition. *)
Definition iadd32 (a b : Z) : res Z :=
  if (- 2 ^ 31 <=? a + b) && (a + b <? 2 ^ 31) then Ok (a + b) else Undef.

Definition clamp_int (v lo hi : Z) : Z := if v <? lo then lo else if hi <? v then hi else v.

(** [v[i]]. *)
Definition read_at (l : list Z) (i : Z) : res Z :=
  if (0 <=? i) && (i <? len l) then of_option Undef (l !! Z.to_nat i) else Undef.

Section Image.

Variables width height : Z.

Definition sample_pixel (image : list Z) (x y c : Z) : res float32 :=
  let x := clamp_int x 0 (width - 1) in
  let y := clamp_int y 0 (height - 1) in
  bits ← read_at image (pixel_offset width x y c); Ok (half_value bits).

Definition cubic (p0 p1 p2 p3 t : float32) : float32 :=
  let a0 := fadd (fsub (fadd (fmul (f32 (-1) (-1)) p0) (fmul (f32 3 (-1)) p1)) (fmul (f32 3 (-1)) p2))
              (fmul (f32 1 (-1)) p3) in
  let a1 := fsub (fadd (fsub p0 (fmul (f32 5 (-1)) p1)) (fmul (f32 2 0) p2)) (fmul (f32 1 (-1)) p3) in
  let a2 := fadd (fmul (f32 (-1) (-1)) p0) (fmul (f32 1 (-1)) p2) in
  fadd (fmul (fadd (fmul (fadd (fmul a0 t) a1) t) a2) t) p1.

(** One row of the bicubic kernel. *)
Definition bicubic_row (image : list Z) (ix iy c : Z) (tx : float32) (row : Z) : res float32 :=
  s ← iadd32 iy row; sy ← iadd32 s (-1);
  x0 ← iadd32 ix (-1); p0 ← sample_pixel image x0 sy c;
  p1 ← sample_pixel image ix sy c;
  x2 ← iadd32 ix 1; p2 ← sample_pixel image x2 sy c;
  x3 ← iadd32 ix 2; p3 ← sample_pixel image x3 sy c;
  Ok (cubic p0 p1 p2 p3 tx).

Definition sample_bicubic (image : list Z) (x y : spec_float) (c : Z) : res float32 :=
  let x := clamp_double x (f64 0 0) (f64 (width - 1) 0) in
  let y := clamp_double y (f64 0 0) (f64 (height - 1) 0) in
  ix ← floor_int x;
  iy ← floor_int y;
  let tx := to_f32 (dsub x (f64 ix 0)) in
  let ty := to_f32 (dsub y (f64 iy 0)) in
  r0 ← bicubic_row image ix iy c tx 0;
  r1 ← bicubic_row image ix iy c tx 1;
  r2 ← bicubic_row image ix iy c tx 2;
  r3 ← bicubic_row image ix iy c tx 3;
  Ok (cubic r0 r1 r2 r3 ty).

(** [std::max({...})]. *)
Definition max_double (a b : spec_float) : spec_float := if SFltb a b then b else a.

Definition max_corner_distance (cx cy : spec_float) : spec_float :=
  let x1 := f64 (width - 1) 0 in
  let y1 := f64 (height - 1) 0 in
  let d00 := dadd (dmul cx cx) (dmul cy cy) in
  let d10 := dadd (dmul (dsub x1 cx) (dsub x1 cx)) (dmul cy cy) in
  let d01 := dadd (dmul cx cx) (dmul (dsub y1 cy) (dsub y1 cy)) in
  let d11 := dadd (dmul (dsub x1 cx) (dsub x1 cx)) (dmul (dsub y1 cy) (dsub y1 cy)) in
  SFsqrt 53 1024 (max_double (max_double (max_double d00 d10) d01) d11).

(** [std::numeric_limits<double>::epsilon()]. *)
Definition epsilon : spec_float := f64 1 (-52).

(** The pixels in the order of the two loops. *)
Definition pixels : list (Z * Z) := y ← seqZ 0 height; (λ x, (x, y)) <$> seqZ 0 width.

(** Overwrite channels of a pixel, one after the other. *)
Definition put_channels (channels : list Z) (value : Z → res Z) (x y : Z) (dst : list Z) : res (list Z) :=
  foldM (λ dst c, v ← value c; write_at dst (pixel_offset width x y c) v) dst channels.

(** ** The corrections *)

(** Centre and radius of a correction. *)
Definition centre (cx_hat cy_hat : Z) : spec_float * spec_float :=
  (dmul (double_of_bits cx_hat) (f64 (width - 1) 0), dmul (double_of_bits cy_hat) (f64 (height - 1) 0)).

(** The source coordinates of a pixel under a warp. *)
Definition warp_point (record : Opcode3DispatchRecord) (x y c : Z) : spec_float * spec_float :=
  let '(cx, cy) := centre (rec_cx_hat record) (rec_cy_hat record) in
  let m := max_corner_distance cx cy in
  let dx := ddiv (dsub (f64 x 0) cx) m in
  let dy := ddiv (dsub (f64 y 0) cy) m in
  let r2 := dadd (dmul dx dx) (dmul dy dy) in
  let r4 := dmul r2 r2 in
  let r6 := dmul r4 r2 in
  let index := Z.min c (rec_coefficient_count record - 1) in
  let k := default zero_coefficient (rec_coefficients record !! Z.to_nat index) in
  let d := double_of_bits in
  let f := dadd (dadd (dadd (d (kr0 k)) (dmul (d (kr1 k)) r2)) (dmul (d (kr2 k)) r4)) (dmul (d (kr3 k)) r6) in
  let two := f64 2 0 in
  let tangential_x := dadd (dmul (dmul (dmul two (d (kt0 k))) dx) dy)
                        (dmul (d (kt1 k)) (dadd r2 (dmul (dmul two dx) dx))) in
  let tangential_y := dadd (dmul (d (kt0 k)) (dadd r2 (dmul (dmul two dy) dy)))
                        (dmul (dmul (dmul two (d (kt1 k))) dx) dy) in
  (dadd cx (dmul m (dadd (dmul f dx) tangential_x)), dadd cy (dmul m (dadd (dmul f dy) tangential_y))).

(** [coefficients[index]] beyond the four of the record is undefined. *)
Definition warp_value (record : Opcode3DispatchRecord) (src : list Z) (x y c : Z) : res Z :=
  if 4 <=? Z.min c (rec_coefficient_count record - 1) then Undef else
  let '(sx, sy) := warp_point record x y c in
  v ← sample_bicubic src sx sy c; Ok (half_bits v).

(** The corrections return early on a degenerate image or radius. *)
Definition degenerate (cx_hat cy_hat : Z) : bool :=
  (width <=? 1) || (height <=? 1) ||
  let '(cx, cy) := centre cx_hat cy_hat in SFleb (max_corner_distance cx cy) epsilon.

Definition apply_warp (record : Opcode3DispatchRecord) (src : list Z) : res (list Z) :=
  if (rec_coefficient_count record =? 0) || degenerate (rec_cx_hat record) (rec_cy_hat record) then Ok src else
  foldM (λ dst '(x, y), put_channels [0; 1; 2; 3] (warp_value record src x y) x y dst) src pixels.

Definition vignette_gain (record : Opcode3DispatchRecord) (x y : Z) : spec_float :=
  let '(cx, cy) := centre (rec_vignette_cx_hat record) (rec_vignette_cy_hat record) in
  let m := max_corner_distance cx cy in
  let dx := ddiv (dsub (f64 x 0) cx) m in
  let dy := ddiv (dsub (f64 y 0) cy) m in
  let r2 := dadd (dmul dx dx) (dmul dy dy) in
  let r4 := dmul r2 r2 in
  let r6 := dmul r4 r2 in
  let r8 := dmul r4 r4 in
  let r10 := dmul r8 r2 in
  let k i := double_of_bits (field (rec_vignette_k record) i) in
  dadd (dadd (dadd (dadd (dadd (f64 1 0) (dmul (k 0%nat) r2)) (dmul (k 1%nat) r4)) (dmul (k 2%nat) r6))
    (dmul (k 3%nat) r8)) (dmul (k 4%nat) r10).

Definition vignette_value (record : Opcode3DispatchRecord) (src : list Z) (x y c : Z) : res Z :=
  bits ← read_at src (pixel_offset width x y c);
  Ok (half_bits (to_f32 (dmul (to_f64 (half_value bits)) (vignette_gain record x y)))).

Definition apply_vignette (record : Opcode3DispatchRecord) (src : list Z) : res (list Z) :=
  if degenerate (rec_vignette_cx_hat record) (rec_vignette_cy_hat record) then Ok src else
  foldM (λ dst '(x, y), put_channels [0; 1; 2] (vignette_value record src x y) x y dst) src pixels.

(** The mean of the neighbours inside the image. *)
Definition neighbour (src : list Z) (x y c : Z) (acc : float32 * Z) (d : Z * Z) : res (float32 * Z) :=
  let '(sum, count) := acc in
  let nx := x + d.1 in
  let ny := y + d.2 in
  if (nx <? 0) || (width <=? nx) || (ny <? 0) || (height <=? ny) then Ok (sum, count) else
  v ← sample_pixel src nx ny c; Ok (fadd sum v, count + 1).

Definition patched_channel (src : list Z) (x y c : Z) : res float32 :=
  '(sum, count) ← foldM (neighbour src x y c) (f_zero, 0) [(-1, 0); (1, 0); (0, -1); (0, 1)];
  if count =? 0 then sample_pixel src x y c else Ok (fdiv sum (float_of_int count)).

Definition patched_value (src : list Z) (x y c : Z) : res Z :=
  v ← patched_channel src x y c; Ok (half_bits v).

Definition inside (x y : Z) : bool := negb ((x <? 0) || (width <=? x) || (y <? 0) || (height <=? y)).

Definition patch_pixel (src : list Z) (x y : Z) (dst : list Z) : res (list Z) :=
  if inside x y then put_channels [0; 1; 2] (patched_value src x y) x y dst else Ok dst.

(** [0.0001F]. *)
Definition tolerance : float32 := SFdiv 24 128 (float_of_int 1) (float_of_int 10000).

Definition near (constant v : float32) : bool := SFleb (SFabs (fsub v constant)) tolerance.

Definition is_bad (record : Opcode3DispatchRecord) (src : list Z) (x y : Z) : res bool :=
  let constant := float_of_int (rec_constant record) in
  foldM (λ patch c, v ← sample_pixel src x y c; Ok (patch || near constant v)) false [0; 1; 2].

Definition apply_bad_pixels_constant (record : Opcode3DispatchRecord) (src : list Z) : res (list Z) :=
  foldM (λ dst '(x, y), patch ← is_bad record src x y;
    if patch : bool then patch_pixel src x y dst else Ok dst) src pixels.

(** [int y = std::max(0, std::min<int>(a, n)); y < std::max(0, std::min<int>(b, n))]. *)
Definition clipped_range (a b n : Z) : list Z :=
  let lo := Z.max 0 (Z.min (i32 a) n) in
  let hi := Z.max 0 (Z.min (i32 b) n) in
  seqZ lo (hi - lo).

Definition rect_pixels (r : BadRect) : list (Z * Z) :=
  y ← clipped_range (br_top r) (br_bottom r) height;
  (λ x, (x, y)) <$> clipped_range (br_left r) (br_right r) width.

Definition apply_bad_pixels_list (blob : bytes) (u : Unpacked) (record : Opcode3DispatchRecord) (src : list Z)
  : res (list Z) :=
  dst ← foldM (λ dst i, p ← point_at blob u (rec_point_offset record + i);
      patch_pixel src (i32 (bp_column p)) (i32 (bp_row p)) dst) src (seqZ 0 (rec_point_count record));
  foldM (λ dst i, r ← rect_at blob u (rec_rect_offset record + i);
      foldM (λ dst '(x, y), patch_pixel src x y dst) dst (rect_pixels r))
    dst (seqZ 0 (rec_rect_count record)).

Definition trim_inside (record : Opcode3DispatchRecord) (x y : Z) : bool :=
  (rec_top record <=? u32 y) && (u32 y <? rec_bottom record) &&
  (rec_left record <=? u32 x) && (u32 x <? rec_right record).

Definition apply_trim_bounds (record : Opcode3DispatchRecord) (src : list Z) : res (list Z) :=
  foldM (λ dst '(x, y), if trim_inside record x y then Ok dst
    else put_channels [0; 1; 2; 3] (λ _, Ok (half_bits f_zero)) x y dst) src pixels.

End Image.

(** ** The filter *)

(** [host[i]] of a [uint16_t] pointer. *)
Definition host_read (mem : bytes) (i : Z) : res Z :=
  l ← read_struct [2%nat] mem (2 * i); Ok (field l 0).

Definition host_write (mem : bytes) (i v : Z) : res bytes :=
  mem ← write_at mem (2 * i) (v `mod` 256); write_at mem (2 * i + 1) ((v / 256) `mod` 256).

Definition dim_at (b : halide_buffer_t) (i : nat) : res halide_dimension_t := of_option Undef (hb_dim b !! i).

(** [(y * dim[1].stride) + (x * dim[0].stride) + (c * dim[2].stride)] in [int]. *)
Definition host_offset (b : halide_buffer_t) (x y c : Z) : res Z :=
  d0 ← dim_at b 0; d1 ← dim_at b 1; d2 ← dim_at b 2;
  a ← imul32 y (hd_stride d1); b ← imul32 x (hd_stride d0); s ← iadd32 a b;
  e ← imul32 c (hd_stride d2); iadd32 s e.

Definition samples (width height : Z) : list (Z * Z * Z) :=
  '(x, y) ← pixels width height; [(x, y, 0); (x, y, 1); (x, y, 2); (x, y, 3)].

(** [dimensions != 3 || dim[2].extent != kChannels || host == nullptr]. *)
Definition bad_image (b : halide_buffer_t) (mem : option bytes) : res bool :=
  if negb (len (hb_dim b) =? 3) then Ok true else
  d2 ← dim_at b 2;
  Ok (negb (hd_extent d2 =? kChannels) || bool_decide (mem = None)).

Definition read_image (b : halide_buffer_t) (mem : option bytes) (width height : Z) : res (option (list Z)) :=
  bad ← bad_image b mem;
  if bad : bool then Ok None else
  image ← foldM (λ image '(x, y),
      put_channels width [0; 1; 2; 3] (λ c, off ← host_offset b x y c; host_read (default [] mem) off) x y image)
    (replicate (Z.to_nat (u64 (width * height * kChannels))) 0) (pixels width height);
  Ok (Some image).

Definition write_image (image : list Z) (b : halide_buffer_t) (mem : option bytes) (width height : Z)
  : res (option bytes) :=
  bad ← bad_image b mem;
  if bad : bool then Ok None else
  d0 ← dim_at b 0; d1 ← dim_at b 1;
  if negb (hd_extent d0 =? width) || negb (hd_extent d1 =? height) then Ok None else
  mem ← foldM (λ mem '(x, y, c),
      off ← host_offset b x y c; v ← read_at image (pixel_offset width x y c);
      host_write mem off v) (default [] mem) (samples width height);
  Ok (Some mem).

(** One record of the loop: [Fail] is the early return. *)
Definition apply_record (width height : Z) (blob : bytes) (u : Unpacked) (working : list Z)
    (record : Opcode3DispatchRecord) : res (list Z) :=
  if rec_id record =? 0 then
    if rec_optional record =? 0 then Fail CPIPE_UNSUPPORTED "" else Ok working
  else if rec_id record =? 1 then apply_warp width height record working
  else if rec_id record =? 3 then apply_vignette width height record working
  else if rec_id record =? 4 then apply_bad_pixels_constant width height record working
  else if rec_id record =? 5 then apply_bad_pixels_list width height blob u record working
  else if rec_id record =? 6 then apply_trim_bounds width height record working
  else Fail CPIPE_UNSUPPORTED "".

(** The result is the new contents of the output; [Fail] is a non-zero status with
    the output as it was. *)
Definition filter_image (input output : halide_buffer_t) (in_mem out_mem : option bytes)
    (blob : option bytes) : res bytes :=
  u ← checked_param_blob blob;
  match u with
  | None => Fail CPIPE_BAD_INDEX ""
  | Some u =>
      i0 ← dim_at input 0; i1 ← dim_at input 1;
      let width := hd_extent i0 in
      let height := hd_extent i1 in
      bad ← (if (width <=? 0) || (height <=? 0) then Ok true else
             o0 ← dim_at output 0;
             if negb (hd_extent o0 =? width) then Ok true else
             o1 ← dim_at output 1; Ok (negb (hd_extent o1 =? height)));
      if bad : bool then Fail CPIPE_BAD_INDEX "" else
      working ← read_image input in_mem width height;
      match working with
      | None => Fail CPIPE_BAD_INDEX ""
      | Some working =>
          working ← foldM (apply_record width height (default [] blob) u) working (up_records u);
          mem ← write_image working output out_mem width height;
          of_option (Fail CPIPE_BAD_INDEX "") mem
      end
  end.

(** The buffers come with their memory. *)
Definition lens_dng_opcode_list_3_param (inputs outputs : list (halide_buffer_t * option bytes))
    (blob : option bytes) : res bytes :=
  match inputs, outputs with
  | [(input, in_mem)], [(output, out_mem)] => filter_image input output in_mem out_mem blob
  | _, _ => Fail CPIPE_BAD_INDEX ""
  end.

End Filter.

(** ** Painting *)

Section Painting.

Variables width height : Z.
Hypothesis Hw : 0 < width.
Hypothesis Hh : 0 < height.
Hypothesis Hsize : width * height * 4 < 2 ^ 31.

Definition image_ok (image : list Z) : Prop := len image = width * height * 4.
Definition in_image (x y : Z) : Prop := 0 ≤ x < width ∧ 0 ≤ y < height.
#[local] Instance in_image_dec x y : Decision (in_image x y).
Proof. unfold in_image. apply _. Defined.

Lemma size_bounds : width ≤ width * height * 4 ∧ height ≤ width * height * 4.
Proof using Hw Hh. nia. Qed.

Lemma pixel_offset_in x y c :
  in_image x y → 0 ≤ c < 4 →
  pixel_offset width x y c = (y * width + x) * 4 + c ∧ 0 ≤ (y * width + x) * 4 + c < width * height * 4.
Proof using Hw Hh Hsize.
  intros [Hx Hy] Hc. pose proof size_bounds. unfold pixel_offset, kChannels.
  assert (0 ≤ y * width + x < width * height) by nia.
  rewrite !(u64_small x), !(u64_small y), !(u64_small width), !(u64_small c) by lia.
  rewrite u64_small by lia. lia.
Qed.

Lemma pixel_offset_inj x y c x' y' c' :
  in_image x y → 0 ≤ c < 4 → in_image x' y' → 0 ≤ c' < 4 →
  (y * width + x) * 4 + c = (y' * width + x') * 4 + c' → x = x' ∧ y = y' ∧ c = c'.
Proof using Hw.
  intros [Hx Hy] Hc [Hx' Hy'] Hc' Heq. assert (c = c') by lia. subst c'.
  assert (y * width + x = y' * width + x') by lia.
  destruct (Z.div_mod_unique width y y' x x') as [-> ->]; [lia..|]. done.
Qed.

(** The sample at a pixel and a channel. *)
Definition px (image : list Z) (x y c : Z) : option Z := image !! Z.to_nat ((y * width + x) * 4 + c).

Lemma px_defined image x y c : image_ok image → in_image x y → 0 ≤ c < 4 → ∃ v, px image x y c = Some v.
Proof using Hw Hh Hsize.
  intros Hi Hp Hc. destruct (pixel_offset_in x y c Hp Hc) as [_ Hb].
  apply lookup_lt_is_Some_2. unfold image_ok, len in Hi. lia.
Qed.

Lemma read_px image x y c :
  image_ok image → in_image x y → 0 ≤ c < 4 →
  read_at image (pixel_offset width x y c) = of_option Undef (px image x y c).
Proof using Hw Hh Hsize.
  intros Hi Hp Hc. destruct (pixel_offset_in x y c Hp Hc) as [-> Hb]. unfold read_at. rewrite Hi.
  by rewrite (proj2 (Z.leb_le _ _)), (proj2 (Z.ltb_lt _ _)) by lia.
Qed.

Lemma write_px image x y c v :
  image_ok image → in_image x y → 0 ≤ c < 4 →
  ∃ image', write_at image (pixel_offset width x y c) v = Ok image' ∧ image_ok image' ∧
    ∀ x' y' c', in_image x' y' → 0 ≤ c' < 4 →
      px image' x' y' c' = if decide (x' = x ∧ y' = y ∧ c' = c) then Some v else px image x' y' c'.
Proof using Hw Hh Hsize.
  intros Hi Hp Hc. destruct (pixel_offset_in x y c Hp Hc) as [-> Hb].
  rewrite write_at_Ok by (rewrite Hi; lia). eexists. split; [done|].
  split; [unfold image_ok, len in *; by rewrite length_insert|]. intros x' y' c' Hp' Hc'.
  destruct (pixel_offset_in x' y' c' Hp' Hc') as [_ Hb']. unfold px. case_decide as Heq.
  - destruct Heq as (-> & -> & ->). apply list_lookup_insert_eq. unfold image_ok, len in Hi. lia.
  - apply list_lookup_insert_ne. intros E. apply Heq.
    destruct (pixel_offset_inj x y c x' y' c') as (-> & -> & ->); try done. lia.
Qed.

(** The image is the source, except where pixel [x, y] of [ps] is selected: there
    the channels [cs] have the value [val]. *)
Definition painted (ps : list (Z * Z)) (sel : Z → Z → bool) (cs : list Z) (val : Z → Z → Z → Z)
    (src dst : list Z) : Prop :=
  image_ok dst ∧ ∀ x y c, in_image x y → 0 ≤ c < 4 →
    px dst x y c = if decide ((x, y) ∈ ps ∧ sel x y = true ∧ c ∈ cs) then Some (val x y c) else px src x y c.

Lemma put_channels_spec cs value val x y dst :
  image_ok dst → in_image x y → Forall (λ c, 0 ≤ c < 4) cs → (∀ c, c ∈ cs → value c = Ok (val c)) →
  ∃ dst', put_channels width cs value x y dst = Ok dst' ∧ image_ok dst' ∧
    ∀ x' y' c', in_image x' y' → 0 ≤ c' < 4 →
      px dst' x' y' c' = if decide (x' = x ∧ y' = y ∧ c' ∈ cs) then Some (val c') else px dst x' y' c'.
Proof using Hw Hh Hsize.
  intros Hd Hp Hcs Hval. revert dst Hd. induction cs as [|c cs IH]; intros dst Hd.
  { exists dst. split_and!; [done..|]. intros x' y' c' _ _. rewrite decide_False; [done|]. set_solver. }
  apply Forall_cons in Hcs as [Hc Hcs]. unfold put_channels. cbn [foldM]. rewrite Hval by set_solver.
  rewrite Ok_bind. destruct (write_px dst x y c (val c) Hd Hp Hc) as (d1 & -> & Hd1 & Hpx1). rewrite Ok_bind.
  destruct (IH Hcs ltac:(set_solver) d1 Hd1) as (d2 & Hput & Hd2 & Hpx2). exists d2. split_and!; [done..|].
  intros x' y' c' Hp' Hc'. rewrite Hpx2, Hpx1 by done.
  destruct (decide (x' = x ∧ y' = y ∧ c' ∈ cs)) as [H1|H1].
  - rewrite decide_True; [done|]. set_solver.
  - destruct (decide (x' = x ∧ y' = y ∧ c' = c)) as [(-> & -> & ->)|H2].
    + rewrite decide_True; [done|]. set_solver.
    + rewrite decide_False; [done|]. set_solver.
Qed.

(** A loop over pixels that overwrites the selected ones is a painting. *)
Lemma paint_loop step sel cs val src ps :
  image_ok src → Forall (λ c, 0 ≤ c < 4) cs →
  (∀ x y, (x, y) ∈ ps → sel x y = true → in_image x y) →
  (∀ x y dst, (x, y) ∈ ps → image_ok dst → step dst (x, y) =
     if sel x y then put_channels width cs (λ c, Ok (val x y c)) x y dst else Ok dst) →
  ∃ dst, foldM step src ps = Ok dst ∧ painted ps sel cs val src dst.
Proof using Hw Hh Hsize.
  intros Hsrc Hcs. induction ps as [|[x y] ps IH] using rev_ind; intros Hin Hstep.
  { exists src. split; [done|]. split; [done|]. intros x y c _ _. rewrite decide_False; [done|]. set_solver. }
  destruct IH as (dst & Hf & Hd & Hpx); [intros; apply Hin; set_solver|intros; apply Hstep; set_solver|].
  rewrite foldM_app, Hf, Ok_bind. cbn [foldM]. rewrite Hstep by set_solver.
  destruct (sel x y) eqn:Hs.
  - destruct (put_channels_spec cs (λ c, Ok (val x y c)) (val x y) x y dst) as (d2 & -> & Hd2 & Hpx2);
      [done|apply Hin; [set_solver|done]|done|done|].
    exists d2. split; [done|]. split; [done|]. intros x' y' c' Hp' Hc'. rewrite Hpx2, Hpx by done.
    destruct (decide (x' = x ∧ y' = y ∧ c' ∈ cs)) as [(-> & -> & ?)|H1].
    + rewrite decide_True; [done|]. set_solver.
    + destruct (decide ((x', y') ∈ ps ∧ sel x' y' = true ∧ c' ∈ cs)) as [H2|H2].
      * rewrite decide_True; [done|]. set_solver.
      * rewrite decide_False; [done|]. rewrite elem_of_app, list_elem_of_singleton.
        intros ([?|[= -> ->]] & ? & ?); [by apply H2|by apply H1].
  - exists dst. split; [done|]. split; [done|]. intros x' y' c' Hp' Hc'. rewrite Hpx by done.
    destruct (decide ((x', y') ∈ ps ∧ sel x' y' = true ∧ c' ∈ cs)) as [H2|H2].
    + rewrite decide_True; [done|]. set_solver.
    + rewrite decide_False; [done|]. rewrite elem_of_app, list_elem_of_singleton.
      intros ([?|[= -> ->]] & ? & ?); [by apply H2|congruence].
Qed.

(** ** The values are defined *)

Variable nan_half : Z.

Lemma clamp_int_in x n : 0 ≤ n → 0 ≤ clamp_int x 0 n ≤ n.
Proof. intros. unfold clamp_int. destruct (Z.ltb_spec x 0); [lia|]. destruct (Z.ltb_spec n x); lia. Qed.

Lemma sample_pixel_Ok image x y c :
  image_ok image → 0 ≤ c < 4 → ∃ v, sample_pixel width height image x y c = Ok v.
Proof using Hw Hh Hsize.
  intros Hi Hc. unfold sample_pixel. pose proof (clamp_int_in x (width - 1)). pose proof (clamp_int_in y (height - 1)).
  rewrite read_px by (done || (split; lia)).
  destruct (px_defined image (clamp_int x 0 (width - 1)) (clamp_int y 0 (height - 1)) c) as [v ->]; [done|split; lia|done|].
  simpl. eauto.
Qed.

Lemma iadd32_Ok a b : - 2 ^ 31 ≤ a + b < 2 ^ 31 → iadd32 a b = Ok (a + b).
Proof. intros. unfold iadd32. by rewrite (proj2 (Z.leb_le _ _)), (proj2 (Z.ltb_lt _ _)) by lia. Qed.

Lemma bicubic_row_Ok image ix iy c tx row :
  image_ok image → 0 ≤ c < 4 → 0 ≤ ix < width → 0 ≤ iy < height → 0 ≤ row ≤ 3 →
  ∃ v, bicubic_row width height image ix iy c tx row = Ok v.
Proof using Hw Hh Hsize.
  intros Hi Hc Hx Hy Hr. pose proof size_bounds. unfold bicubic_row.
  assert (width * height * 4 ≤ 2 ^ 31 - 4) by lia.
  rewrite (iadd32_Ok iy row), Ok_bind by nia. rewrite (iadd32_Ok (iy + row) (-1)), Ok_bind by nia.
  rewrite (iadd32_Ok ix (-1)), Ok_bind by nia.
  destruct (sample_pixel_Ok image (ix + -1) (iy + row + -1) c Hi Hc) as [p0 ->]. rewrite Ok_bind.
  destruct (sample_pixel_Ok image ix (iy + row + -1) c Hi Hc) as [p1 ->]. rewrite Ok_bind.
  rewrite (iadd32_Ok ix 1), Ok_bind by nia.
  destruct (sample_pixel_Ok image (ix + 1) (iy + row + -1) c Hi Hc) as [p2 ->]. rewrite Ok_bind.
  rewrite (iadd32_Ok ix 2), Ok_bind by nia.
  destruct (sample_pixel_Ok image (ix + 2) (iy + row + -1) c Hi Hc) as [p3 ->]. simpl. eauto.
Qed.

Lemma sample_bicubic_Ok image x y c :
  image_ok image → 0 ≤ c < 4 → narrow x → narrow y → x ≠ S754_nan → y ≠ S754_nan →
  ∃ v, sample_bicubic width height image x y c = Ok v.
Proof using Hw Hh Hsize.
  intros Hi Hc Hnx Hny Hx Hy. pose proof size_bounds. unfold sample_bicubic.
  destruct (clamp_floor x (width - 1)) as (ix & -> & Hix); [lia|done..|].
  destruct (clamp_floor y (height - 1)) as (iy & -> & Hiy); [lia|done..|]. rewrite !Ok_bind.
  set (tx := to_f32 (SFsub 53 1024 _ (f64 ix 0))).
  destruct (bicubic_row_Ok image ix iy c tx 0) as [r0 ->]; [done|done|lia..|].
  destruct (bicubic_row_Ok image ix iy c tx 1) as [r1 ->]; [done|done|lia..|].
  destruct (bicubic_row_Ok image ix iy c tx 2) as [r2 ->]; [done|done|lia..|].
  destruct (bicubic_row_Ok image ix iy c tx 3) as [r3 ->]; [done|done|lia..|]. simpl. eauto.
Qed.

(** The warp leaves the image as it is. *)
Definition warp_idle (record : Opcode3DispatchRecord) : bool :=
  (rec_coefficient_count record =? 0) || degenerate width height (rec_cx_hat record) (rec_cy_hat record).

(** A source coordinate of a sample is NaN. *)
Definition warp_nan (record : Opcode3DispatchRecord) (x y c : Z) : Prop :=
  (warp_point width height record x y c).1 = S754_nan ∨ (warp_point width height record x y c).2 = S754_nan.

(** A warp is usable when it does nothing or samples at no NaN coordinate, and
    undefined otherwise. *)
Definition warp_usable (record : Opcode3DispatchRecord) : Prop :=
  warp_idle record = true ∨ ∀ x y c, in_image x y → 0 ≤ c < 4 → ¬ warp_nan record x y c.

Definition warp_undefined (record : Opcode3DispatchRecord) : Prop :=
  warp_idle record = false ∧ ∃ x y c, in_image x y ∧ 0 ≤ c < 4 ∧ warp_nan record x y c.

#[local] Instance nan_dec (v : spec_float) : Decision (v = S754_nan).
Proof. destruct v; first [by left|by right]. Defined.

Lemma warp_narrow record x y c :
  narrow (warp_point width height record x y c).1 ∧ narrow (warp_point width height record x y c).2.
Proof. unfold warp_point, centre. split; apply narrow_add; apply narrow_mul. Qed.

Lemma warp_value_Ok record src x y c :
  image_ok src → ¬ warp_nan record x y c → in_image x y → 0 ≤ c < 4 →
  ∃ v, warp_value nan_half width height record src x y c = Ok v.
Proof using Hw Hh Hsize.
  intros Hi Hu Hp Hc. unfold warp_value. rewrite (proj2 (Z.leb_gt _ _)) by lia.
  pose proof (warp_narrow record x y c) as [Hnx Hny]. unfold warp_nan in Hu.
  destruct (warp_point width height record x y c) as [sx sy]. simpl in *.
  destruct (sample_bicubic_Ok src sx sy c) as [v ->]; [tauto..|]. simpl. eauto.
Qed.

Lemma clamp_nan lo n : clamp_double S754_nan (f64 lo 0) (f64 n 0) = S754_nan.
Proof. unfold clamp_double, SFltb. by destruct (f64 lo 0), (f64 n 0). Qed.

Lemma warp_value_undef record src x y c :
  warp_nan record x y c → in_image x y → 0 ≤ c < 4 →
  warp_value nan_half width height record src x y c = Undef.
Proof using Hw Hh Hsize.
  intros Hn Hp Hc. unfold warp_value. rewrite (proj2 (Z.leb_gt _ _)) by lia.
  pose proof (warp_narrow record x y c) as [Hnx Hny]. unfold warp_nan in Hn. pose proof size_bounds.
  destruct (warp_point width height record x y c) as [sx sy]. simpl in *. unfold sample_bicubic.
  destruct (decide (sx = S754_nan)) as [->|Hx]; [by rewrite clamp_nan|].
  destruct Hn as [?| ->]; [done|].
  destruct (clamp_floor sx (width - 1)) as (ix & -> & _); [lia|done..|]. by rewrite clamp_nan.
Qed.

Lemma vignette_value_Ok record src x y c :
  image_ok src → in_image x y → 0 ≤ c < 4 → ∃ v, vignette_value nan_half width height record src x y c = Ok v.
Proof using Hw Hh Hsize.
  intros Hi Hp Hc. unfold vignette_value. rewrite read_px by done.
  destruct (px_defined src x y c Hi Hp Hc) as [v ->]. simpl. eauto.
Qed.

Lemma neighbour_Ok src x y c acc d :
  image_ok src → 0 ≤ c < 4 → ∃ acc', neighbour width height src x y c acc d = Ok acc'.
Proof using Hw Hh Hsize.
  intros Hi Hc. destruct acc as [sum count]. unfold neighbour. destruct (_ || _); [eauto|].
  destruct (sample_pixel_Ok src (x + d.1) (y + d.2) c Hi Hc) as [v ->]. simpl. eauto.
Qed.

Lemma patched_value_Ok src x y c :
  image_ok src → 0 ≤ c < 4 → ∃ v, patched_value nan_half width height src x y c = Ok v.
Proof using Hw Hh Hsize.
  intros Hi Hc. unfold patched_value, patched_channel. cbn [foldM].
  destruct (neighbour_Ok src x y c (f_zero, 0) (-1, 0) Hi Hc) as [a1 ->]. rewrite Ok_bind.
  destruct (neighbour_Ok src x y c a1 (1, 0) Hi Hc) as [a2 ->]. rewrite Ok_bind.
  destruct (neighbour_Ok src x y c a2 (0, -1) Hi Hc) as [a3 ->]. rewrite Ok_bind.
  destruct (neighbour_Ok src x y c a3 (0, 1) Hi Hc) as [[sum count] ->]. rewrite !Ok_bind.
  destruct (count =? 0); [destruct (sample_pixel_Ok src x y c Hi Hc) as [v ->]|]; simpl; eauto.
Qed.

Lemma is_bad_Ok record src x y : image_ok src → ∃ b, is_bad width height record src x y = Ok b.
Proof using Hw Hh Hsize.
  intros Hi. unfold is_bad. cbn [foldM].
  destruct (sample_pixel_Ok src x y 0 Hi ltac:(lia)) as [v0 ->]. rewrite !Ok_bind.
  destruct (sample_pixel_Ok src x y 1 Hi ltac:(lia)) as [v1 ->]. rewrite !Ok_bind.
  destruct (sample_pixel_Ok src x y 2 Hi ltac:(lia)) as [v2 ->]. simpl. eauto.
Qed.

(** ** Each correction is a painting *)

Lemma pixels_in x y : (x, y) ∈ pixels width height ↔ in_image x y.
Proof.
  unfold pixels, in_image. rewrite list_elem_of_bind. split.
  - intros (y' & Hx & Hy%elem_of_seqZ). apply list_elem_of_fmap in Hx as (x' & [= -> ->] & Hx%elem_of_seqZ). lia.
  - intros [Hx Hy]. exists y. split; [|apply elem_of_seqZ; lia]. apply list_elem_of_fmap. exists x.
    split; [done|apply elem_of_seqZ; lia].
Qed.

(** The value of a computation that succeeds. *)
Definition value_of {A} (d : A) (m : res A) : A := match m with Ok v => v | _ => d end.

Lemma put_channels_ext cs value value' x y dst :
  (∀ c, c ∈ cs → value c = value' c) →
  put_channels width cs value x y dst = put_channels width cs value' x y dst.
Proof.
  intros H. unfold put_channels. revert dst. induction cs as [|c cs IH]; intros dst; [done|].
  cbn [foldM]. rewrite H by set_solver. destruct (value' c); try done. rewrite !Ok_bind.
  destruct (write_at _ _ _); try done. rewrite !Ok_bind. apply IH. set_solver.
Qed.

Lemma put_value cs value x y dst :
  (∀ c, c ∈ cs → ∃ v, value c = Ok v) →
  put_channels width cs value x y dst = put_channels width cs (λ c, Ok (value_of 0 (value c))) x y dst.
Proof. intros H. apply put_channels_ext. intros c Hc. by destruct (H c Hc) as [v ->]. Qed.

Lemma channels3 : Forall (λ c, 0 ≤ c < 4) [0; 1; 2].
Proof. rewrite !Forall_cons. split_and!; try lia. apply Forall_nil_2. Qed.
Lemma channels4 : Forall (λ c, 0 ≤ c < 4) [0; 1; 2; 3].
Proof. rewrite !Forall_cons. split_and!; try lia. apply Forall_nil_2. Qed.
Lemma channel_bound cs c : Forall (λ c, 0 ≤ c < 4) cs → c ∈ cs → 0 ≤ c < 4.
Proof. rewrite Forall_forall. auto. Qed.

(** What a record makes of an image: which pixels it selects, which channels it
    overwrites and with what. *)
Definition warp_paints (record : Opcode3DispatchRecord) (src dst : list Z) : Prop :=
  painted (pixels width height)
    (λ _ _, negb ((rec_coefficient_count record =? 0) ||
                  degenerate width height (rec_cx_hat record) (rec_cy_hat record)))
    [0; 1; 2; 3] (λ x y c, value_of 0 (warp_value nan_half width height record src x y c)) src dst.

Definition vignette_paints (record : Opcode3DispatchRecord) (src dst : list Z) : Prop :=
  painted (pixels width height)
    (λ _ _, negb (degenerate width height (rec_vignette_cx_hat record) (rec_vignette_cy_hat record)))
    [0; 1; 2] (λ x y c, value_of 0 (vignette_value nan_half width height record src x y c)) src dst.

Definition constant_paints (record : Opcode3DispatchRecord) (src dst : list Z) : Prop :=
  painted (pixels width height) (λ x y, value_of false (is_bad width height record src x y))
    [0; 1; 2] (λ x y c, value_of 0 (patched_value nan_half width height src x y c)) src dst.

Definition list_paints (ps : list (Z * Z)) (src dst : list Z) : Prop :=
  painted ps (inside width height)
    [0; 1; 2] (λ x y c, value_of 0 (patched_value nan_half width height src x y c)) src dst.

Definition trim_paints (record : Opcode3DispatchRecord) (src dst : list Z) : Prop :=
  painted (pixels width height) (λ x y, negb (trim_inside record x y))
    [0; 1; 2; 3] (λ _ _ _, 0) src dst.

Lemma painted_none ps cs val src : image_ok src → painted ps (λ _ _, false) cs val src src.
Proof. intros H. split; [done|]. intros. rewrite decide_False; [done|]. by intros (_ & ? & _). Qed.

Lemma apply_warp_paints record src :
  image_ok src → warp_usable record →
  ∃ dst, apply_warp nan_half width height record src = Ok dst ∧ warp_paints record src dst.
Proof using Hw Hh Hsize.
  intros Hi Hu. unfold apply_warp, warp_paints. fold (warp_idle record).
  destruct (warp_idle record) eqn:E; simpl negb.
  { exists src. split; [done|by apply painted_none]. }
  destruct Hu as [?|Hu]; [congruence|].
  apply paint_loop; [done|apply channels4|by intros x y ?%pixels_in|].
  intros x y dst Hp Hd. apply pixels_in in Hp. apply put_value. intros c Hc.
  pose proof (channel_bound _ _ channels4 Hc). by apply warp_value_Ok; auto.
Qed.

(** A loop whose steps keep an invariant or are undefined is undefined as soon as
    one of them is. *)
Lemma foldM_undef {A B} (P : A → Prop) (f : A → B → res A) (l : list B) :
  (∀ a b, P a → b ∈ l → f a b = Undef ∨ ∃ a', f a b = Ok a' ∧ P a') →
  (∃ b, b ∈ l ∧ ∀ a, P a → f a b = Undef) → ∀ a, P a → foldM f a l = Undef.
Proof.
  induction l as [|b l IH]; intros Hstep (b' & Hb & Hu) a Ha; [by apply not_elem_of_nil in Hb|]. cbn [foldM].
  destruct (Hstep a b Ha) as [->|(a' & Hf & Ha')]; [by left|done|]. rewrite Hf, Ok_bind.
  apply elem_of_cons in Hb as [<-|Hb]; [by rewrite Hu in Hf|].
  apply IH; [|by exists b'|done]. intros. apply Hstep; [done|by right].
Qed.

Lemma warp_channel record src x y dst c :
  image_ok src → in_image x y → image_ok dst → c ∈ [0; 1; 2; 3] →
  let step := v ← warp_value nan_half width height record src x y c; write_at dst (pixel_offset width x y c) v in
  (warp_nan record x y c → step = Undef) ∧ (¬ warp_nan record x y c → ∃ dst', step = Ok dst' ∧ image_ok dst').
Proof using Hw Hh Hsize.
  intros Hi Hp Hd Hc. pose proof (channel_bound _ _ channels4 Hc). split; intros Hn.
  - by rewrite warp_value_undef.
  - destruct (warp_value_Ok record src x y c) as [v ->]; [done..|]. rewrite Ok_bind.
    destruct (write_px dst x y c v) as (dst' & -> & ? & _); [done..|]. eauto.
Qed.

#[local] Instance warp_nan_dec record x y c : Decision (warp_nan record x y c).
Proof. apply or_dec; apply nan_dec. Defined.

Lemma apply_warp_undef record src :
  image_ok src → warp_undefined record → apply_warp nan_half width height record src = Undef.
Proof using Hw Hh Hsize.
  intros Hi (E & x & y & c & Hp & Hc & Hn). unfold apply_warp. fold (warp_idle record). rewrite E.
  assert (Hc' : c ∈ [0; 1; 2; 3]) by (set_unfold; lia).
  apply foldM_undef with (P := image_ok); [|exists (x, y); split; [by apply pixels_in|]|done].
  - intros dst [x' y'] Hd Hin%pixels_in. unfold put_channels.
    destruct (decide (Exists (warp_nan record x' y') [0; 1; 2; 3])) as [Hex|Hex].
    + left. apply Exists_exists in Hex as (c' & Hc1 & Hn'). eapply (foldM_undef image_ok); [| |done].
      * intros a b Ha Hb. destruct (warp_channel record src x' y' a b) as [Hu Ho]; [done..|].
        destruct (decide (warp_nan record x' y' b)); auto.
      * exists c'. split; [done|]. intros a Ha. by apply warp_channel.
    + right. destruct (put_channels_spec [0; 1; 2; 3] (warp_value nan_half width height record src x' y')
        (λ c, value_of 0 (warp_value nan_half width height record src x' y' c)) x' y' dst)
        as (dst' & Hput & Hd' & _); [done|done|apply channels4| |by exists dst'].
      intros b Hb. destruct (warp_value_Ok record src x' y' b) as [v ->]; [done| |done|
        by eapply channel_bound, Hb; apply channels4|done].
      intros Hn'. apply Hex, Exists_exists. eauto.
  - intros dst Hd. unfold put_channels. eapply (foldM_undef image_ok); [| |done].
    + intros a b Ha Hb. destruct (warp_channel record src x y a b) as [Hu Ho]; [done..|].
      destruct (decide (warp_nan record x y b)); auto.
    + exists c. split; [done|]. intros a Ha. by apply warp_channel.
Qed.

Lemma warp_cases record : warp_usable record ∨ warp_undefined record.
Proof.
  unfold warp_usable, warp_undefined. destruct (warp_idle record); [by left; left|].
  destruct (decide (Exists (λ p, Exists (warp_nan record p.1 p.2) [0; 1; 2; 3]) (pixels width height))) as [H|H].
  - right. split; [done|]. apply Exists_exists in H as ([x y] & Hp%pixels_in & H).
    apply Exists_exists in H as (c & Hc & Hn). exists x, y, c. split_and!; [done|..|done];
      pose proof (channel_bound _ _ channels4 Hc); lia.
  - left. right. intros x y c Hp Hc Hn. apply H, Exists_exists. exists (x, y). split; [by apply pixels_in|].
    apply Exists_exists. exists c. split; [set_unfold; lia|done].
Qed.

Lemma apply_vignette_paints record src :
  image_ok src → ∃ dst, apply_vignette nan_half width height record src = Ok dst ∧ vignette_paints record src dst.
Proof using Hw Hh Hsize.
  intros Hi. unfold apply_vignette, vignette_paints. destruct (degenerate _ _ _ _) eqn:E; simpl negb.
  { exists src. split; [done|by apply painted_none]. }
  apply paint_loop; [done|apply channels3|by intros x y ?%pixels_in|].
  intros x y dst Hp Hd. apply pixels_in in Hp. apply put_value. intros c Hc.
  apply vignette_value_Ok; try done. by eapply channel_bound, Hc; apply channels3.
Qed.

Lemma inside_in x y : inside width height x y = true ↔ in_image x y.
Proof.
  unfold inside, in_image. rewrite negb_true_iff, !orb_false_iff, !Z.ltb_ge, !Z.leb_gt. lia.
Qed.

Lemma patch_pixel_value src x y dst :
  image_ok src → in_image x y →
  patch_pixel nan_half width height src x y dst =
    put_channels width [0; 1; 2] (λ c, Ok (value_of 0 (patched_value nan_half width height src x y c))) x y dst.
Proof using Hw Hh Hsize.
  intros Hi Hp. unfold patch_pixel. rewrite (proj2 (inside_in x y)) by done. apply put_value. intros c Hc.
  apply patched_value_Ok; [done|]. by eapply channel_bound, Hc; apply channels3.
Qed.

Lemma apply_constant_paints record src :
  image_ok src →
  ∃ dst, apply_bad_pixels_constant nan_half width height record src = Ok dst ∧ constant_paints record src dst.
Proof using Hw Hh Hsize.
  intros Hi. apply paint_loop; [done|apply channels3|by intros x y ?%pixels_in|].
  intros x y dst Hp Hd. apply pixels_in in Hp. destruct (is_bad_Ok record src x y Hi) as [b ->]. simpl.
  destruct b; [|done]. by apply patch_pixel_value.
Qed.

Lemma apply_trim_paints record src :
  image_ok src → ∃ dst, apply_trim_bounds nan_half width height record src = Ok dst ∧ trim_paints record src dst.
Proof using Hw Hh Hsize.
  intros Hi. apply paint_loop; [done|apply channels4|by intros x y ?%pixels_in|].
  intros x y dst Hp Hd. by destruct (trim_inside record x y).
Qed.

(** ** The bad-pixel list *)

Lemma foldM_indexed {A B} (f : Z → res A) (g : B → A → res B) (l : list A) : ∀ k b,
  (∀ j a, l !! j = Some a → f (k + Z.of_nat j) = Ok a) →
  foldM (λ b i, a ← f i; g b a) b (seqZ k (len l)) = foldM g b l.
Proof.
  induction l as [|a l IH]; intros k b Hf; [done|].
  rewrite len_cons, seqZ_cons by (pose proof (len_nonneg l); lia).
  replace (Z.pred (1 + len l)) with (len l) by lia. cbn [foldM].
  assert (f k = Ok a) as -> by (rewrite <-(Hf 0%nat a eq_refl); f_equal; lia). rewrite Ok_bind.
  destruct (g b a); try done. rewrite !Ok_bind. apply IH. intros j a' Hj. rewrite <-(Hf (S j) a' Hj). f_equal. lia.
Qed.

Lemma foldM_nested {A B C} (f : A → list B) (g : C → B → res C) (l : list A) : ∀ c,
  foldM (λ c a, foldM g c (f a)) c l = foldM g c (l ≫= f).
Proof.
  induction l as [|a l IH]; intros c; [done|]. rewrite bind_cons, foldM_app. cbn [foldM].
  destruct (foldM g c (f a)); try done. rewrite !Ok_bind. apply IH.
Qed.

(** The pixels a record lists, given its points and rectangles. *)
Definition listed (pts : list BadPoint) (rcts : list BadRect) : list (Z * Z) :=
  ((λ p, (i32 (bp_column p), i32 (bp_row p))) <$> pts) ++ (rcts ≫= rect_pixels width height).

Lemma apply_list_paints blob u record src pts rcts :
  image_ok src → len pts = rec_point_count record → len rcts = rec_rect_count record →
  (∀ j p, pts !! j = Some p → point_at blob u (rec_point_offset record + Z.of_nat j) = Ok p) →
  (∀ j r, rcts !! j = Some r → rect_at blob u (rec_rect_offset record + Z.of_nat j) = Ok r) →
  ∃ dst, apply_bad_pixels_list nan_half width height blob u record src = Ok dst ∧
    list_paints (listed pts rcts) src dst.
Proof using Hw Hh Hsize.
  intros Hi Hlp Hlr Hp Hr. unfold apply_bad_pixels_list. rewrite <-Hlp, <-Hlr.
  rewrite (foldM_indexed (λ i, point_at blob u (rec_point_offset record + i))
    (λ dst p, patch_pixel nan_half width height src (i32 (bp_column p)) (i32 (bp_row p)) dst) pts)
    by (intros; by apply Hp).
  assert (Hpts : ∀ dst, foldM (λ dst p, patch_pixel nan_half width height src (i32 (bp_column p)) (i32 (bp_row p)) dst)
    dst pts = foldM (λ dst '(x, y), patch_pixel nan_half width height src x y dst) dst
    ((λ p, (i32 (bp_column p), i32 (bp_row p))) <$> pts)).
  { clear. induction pts as [|p pts IH]; intros dst; [done|]. cbn [fmap list_fmap foldM].
    destruct (patch_pixel _ _ _ _ _ _ _); try done. rewrite !Ok_bind. apply IH. }
  rewrite Hpts.
  destruct (paint_loop (λ dst '(x, y), patch_pixel nan_half width height src x y dst) (inside width height) [0; 1; 2]
    (λ x y c, value_of 0 (patched_value nan_half width height src x y c)) src (listed pts rcts))
    as (dst & Hf & Hpaint); [done|apply channels3|by intros x y _ ?%inside_in| |].
  { intros x y d _ Hd. destruct (inside width height x y) eqn:E; [by apply patch_pixel_value; [|apply inside_in]|].
    unfold patch_pixel. by rewrite E. }
  exists dst. split; [|done]. unfold listed in Hf. rewrite foldM_app in Hf.
  destruct (foldM _ src (_ <$> pts)) as [d1| | |]; try done. rewrite Ok_bind in Hf |- *.
  rewrite (foldM_indexed (λ i, rect_at blob u (rec_rect_offset record + i))
    (λ dst r, foldM (λ dst '(x, y), patch_pixel nan_half width height src x y dst) dst (rect_pixels width height r)) rcts)
    by (intros; by apply Hr).
  by rewrite foldM_nested.
Qed.

(** ** Host memory *)

(** The description of a dense RGBA image, as the adapter makes it. *)
Definition rgba_buffer (b : halide_buffer_t) : Prop :=
  hb_dim b = [mkHDim 0 width 4; mkHDim 0 height (4 * width); mkHDim 0 4 1].

Definition memory_ok (mem : bytes) : Prop := len mem = 2 * (width * height * 4).

(** The sample of a pixel in memory. *)
Definition host_px (mem : bytes) (x y c : Z) : res Z := host_read mem ((y * width + x) * 4 + c).

(** Memory holds an image of 16-bit samples. *)
Definition holds (mem : bytes) (image : list Z) : Prop :=
  image_ok image ∧ ∀ x y c, in_image x y → 0 ≤ c < 4 → ∃ v, px image x y c = Some v ∧ host_px mem x y c = Ok (u16 v).

Lemma imul32_Ok a b : - 2 ^ 31 ≤ a * b < 2 ^ 31 → imul32 a b = Ok (a * b).
Proof. intros. unfold imul32. by rewrite (proj2 (Z.leb_le _ _)), (proj2 (Z.ltb_lt _ _)) by lia. Qed.

Lemma host_offset_in b x y c :
  rgba_buffer b → in_image x y → 0 ≤ c < 4 → host_offset b x y c = Ok ((y * width + x) * 4 + c).
Proof using Hw Hh Hsize.
  intros Hb Hp Hc. destruct (pixel_offset_in x y c Hp Hc) as [_ Hr]. destruct Hp as [Hx Hy].
  unfold host_offset, dim_at. rewrite Hb. simpl. assert (0 ≤ y * (4 * width)) by nia.
  rewrite (imul32_Ok y (4 * width)), Ok_bind by nia. rewrite (imul32_Ok x 4), Ok_bind by nia.
  rewrite (iadd32_Ok (y * (4 * width)) (x * 4)), Ok_bind by nia. rewrite (imul32_Ok c 1), Ok_bind by lia.
  rewrite iadd32_Ok by nia. f_equal. lia.
Qed.

Lemma host_read_bytes mem i a b :
  0 ≤ i → mem !! Z.to_nat (2 * i) = Some a → mem !! Z.to_nat (2 * i + 1) = Some b → host_read mem i = Ok (a + 256 * b).
Proof.
  intros Hi Ha Hb. unfold host_read, read_struct. change (struct_size [2%nat]) with 2.
  pose proof (lookup_lt_Some _ _ _ Hb). rewrite !(proj2 (Z.leb_le _ _)) by (unfold len; lia). simpl.
  rewrite (drop_S mem a (Z.to_nat (2 * i)) Ha). replace (S (Z.to_nat (2 * i))) with (Z.to_nat (2 * i + 1)) by lia.
  rewrite (drop_S mem b _ Hb). simpl. unfold field. simpl. do 2 f_equal. lia.
Qed.

Lemma host_read_defined mem i : bytes_ok mem → 0 ≤ i → 2 * i + 2 ≤ len mem → ∃ v, host_read mem i = Ok v ∧ is_u 16 v.
Proof.
  intros Hok Hi Hl. unfold len in Hl.
  destruct (lookup_lt_is_Some_2 mem (Z.to_nat (2 * i))) as [a Ha]; [lia|].
  destruct (lookup_lt_is_Some_2 mem (Z.to_nat (2 * i + 1))) as [b Hb]; [lia|].
  exists (a + 256 * b). split; [by apply host_read_bytes|].
  pose proof (Forall_lookup_1 _ _ _ _ Hok Ha). pose proof (Forall_lookup_1 _ _ _ _ Hok Hb). unfold is_u in *. lia.
Qed.

Lemma host_write_spec mem i v :
  0 ≤ i → 2 * i + 2 ≤ len mem →
  ∃ mem', host_write mem i v = Ok mem' ∧ len mem' = len mem ∧ host_read mem' i = Ok (u16 v) ∧
    ∀ j, 0 ≤ j → j ≠ i → host_read mem' j = host_read mem j.
Proof.
  intros Hi Hl. unfold host_write. rewrite write_at_Ok, Ok_bind by lia.
  assert (Hlen : len (<[Z.to_nat (2 * i) := v `mod` 256]> mem) = len mem) by (unfold len; by rewrite length_insert).
  rewrite write_at_Ok by lia. eexists. split; [done|]. split; [unfold len in *; by rewrite !length_insert|]. split.
  - rewrite (host_read_bytes _ i (v `mod` 256) ((v / 256) `mod` 256)); [|lia|..].
    + f_equal. unfold u16, wrap. Z.to_euclidean_division_equations; lia.
    + rewrite list_lookup_insert_ne by lia. apply list_lookup_insert_eq. unfold len in *. lia.
    + apply list_lookup_insert_eq. unfold len in *. rewrite length_insert. lia.
  - intros j Hj Hne. unfold host_read, read_struct, len. rewrite !length_insert. destruct (_ && _); [|done].
    unfold decode_fields. do 4 f_equal. apply list_eq. intros k.
    destruct (decide (k < 2)%nat); [|by rewrite !lookup_take_ge by lia].
    rewrite !lookup_take_lt, !lookup_drop by done. by rewrite !list_lookup_insert_ne by lia.
Qed.

Lemma dim_at_rgba b i :
  rgba_buffer b → dim_at b i = of_option Undef ([mkHDim 0 width 4; mkHDim 0 height (4 * width); mkHDim 0 4 1] !! i).
Proof. intros Hb. unfold dim_at. by rewrite Hb. Qed.

Lemma bad_image_rgba b mem : rgba_buffer b → bad_image b (Some mem) = Ok false.
Proof. intros Hb. unfold bad_image, dim_at. by rewrite Hb. Qed.

Lemma read_image_holds b mem :
  rgba_buffer b → bytes_ok mem → memory_ok mem →
  ∃ image, read_image b (Some mem) width height = Ok (Some image) ∧ holds mem image.
Proof using Hw Hh Hsize.
  intros Hb Hok Hm. unfold read_image. rewrite bad_image_rgba, Ok_bind by done.
  assert (Hread : ∀ x y c, in_image x y → 0 ≤ c < 4 → ∃ v, host_px mem x y c = Ok v ∧ is_u 16 v).
  { intros x y c Hp Hc. destruct (pixel_offset_in x y c Hp Hc) as [_ Hr].
    apply host_read_defined; [done|lia|]. unfold memory_ok in Hm. lia. }
  rewrite u64_small by (unfold kChannels; nia).
  destruct (paint_loop (λ image '(x, y), put_channels width [0; 1; 2; 3]
      (λ c, off ← host_offset b x y c; host_read (default [] (Some mem)) off) x y image) (λ _ _, true) [0; 1; 2; 3]
    (λ x y c, value_of 0 (host_px mem x y c)) (replicate (Z.to_nat (width * height * kChannels)) 0)
    (pixels width height)) as (image & -> & Hi & Hpx).
  - unfold image_ok, len, kChannels. rewrite length_replicate. lia.
  - apply channels4.
  - by intros x y ?%pixels_in.
  - intros x y dst Hp _. apply pixels_in in Hp. apply put_channels_ext. intros c Hc.
    assert (Hc4 := channel_bound _ _ channels4 Hc). rewrite host_offset_in, Ok_bind by done.
    by destruct (Hread x y c Hp Hc4) as (v & Hv & _); unfold host_px in *; rewrite Hv.
  - exists image. split; [done|]. split; [done|]. intros x y c Hp Hc. destruct (Hread x y c Hp Hc) as (v & Hv & Hu).
    exists v. rewrite Hpx by done. rewrite decide_True, Hv.
    2: { split_and!; [by apply pixels_in|done|]. assert (c = 0 ∨ c = 1 ∨ c = 2 ∨ c = 3) by lia. set_solver. }
    split; [done|]. unfold u16. by rewrite wrap_small.
Qed.

Lemma samples_in x y c : (x, y, c) ∈ samples width height ↔ in_image x y ∧ 0 ≤ c < 4.
Proof.
  unfold samples. rewrite list_elem_of_bind. split.
  - intros ([x' y'] & Hs & Hp%pixels_in). set_unfold in Hs. destruct_or? Hs; simplify_eq; (split; [done|lia]).
  - intros [Hp Hc]. exists (x, y). split; [|by apply pixels_in].
    assert (c = 0 ∨ c = 1 ∨ c = 2 ∨ c = 3) by lia. set_solver.
Qed.

Lemma write_samples b image ps : ∀ mem,
  rgba_buffer b → image_ok image → memory_ok mem →
  (∀ x y c, (x, y, c) ∈ ps → in_image x y ∧ 0 ≤ c < 4) →
  ∃ mem', foldM (λ mem '(x, y, c), off ← host_offset b x y c; v ← read_at image (pixel_offset width x y c);
      host_write mem off v) mem ps = Ok mem' ∧ memory_ok mem' ∧
    ∀ x y c, (x, y, c) ∈ ps → ∃ v, px image x y c = Some v ∧ host_px mem' x y c = Ok (u16 v).
Proof using Hw Hh Hsize.
  intros mem Hb Hi Hm. induction ps as [|[[x y] c] ps IH] using rev_ind; intros Hin.
  { exists mem. split_and!; [done..|]. set_solver. }
  destruct IH as (m1 & Hf & Hm1 & Hpx); [intros; apply Hin; set_solver|].
  rewrite foldM_app, Hf, Ok_bind. cbn [foldM]. destruct (Hin x y c ltac:(set_solver)) as [Hp Hc].
  rewrite host_offset_in, Ok_bind, read_px by done. destruct (px_defined image x y c Hi Hp Hc) as [v Hv].
  rewrite Hv. simpl. destruct (pixel_offset_in x y c Hp Hc) as [_ Hr].
  destruct (host_write_spec m1 ((y * width + x) * 4 + c) v) as (m2 & -> & Hl2 & Hsame & Hother);
    [lia|unfold memory_ok in Hm1; lia|].
  exists m2. split; [done|]. split; [unfold memory_ok in *; lia|].
  intros x' y' c' Hs. destruct (Hin x' y' c' Hs) as [Hp' Hc'].
  destruct (decide ((y' * width + x') * 4 + c' = (y * width + x) * 4 + c)) as [Heq|Hne].
  - destruct (pixel_offset_inj x' y' c' x y c Hp' Hc' Hp Hc Heq) as (-> & -> & ->). by exists v.
  - apply elem_of_app in Hs as [Hs|Hs%list_elem_of_singleton]; [|naive_solver].
    destruct (Hpx x' y' c' Hs) as (v' & ? & Hh'). exists v'. split; [done|].
    destruct (pixel_offset_in x' y' c' Hp' Hc') as [_ ?]. unfold host_px in *. by rewrite Hother by lia.
Qed.

Lemma write_image_holds b image mem :
  rgba_buffer b → image_ok image → memory_ok mem →
  ∃ mem', write_image image b (Some mem) width height = Ok (Some mem') ∧ memory_ok mem' ∧ holds mem' image.
Proof using Hw Hh Hsize.
  intros Hb Hi Hm. unfold write_image. rewrite bad_image_rgba, Ok_bind by done. unfold dim_at. rewrite Hb. simpl.
  rewrite !Z.eqb_refl. simpl.
  destruct (write_samples b image (samples width height) mem Hb Hi Hm) as (mem' & Hf & Hm' & Hpx);
    [by intros x y c ?%samples_in|].
  rewrite Hf. simpl. exists mem'. split_and!; [done..|]. split; [done|]. intros x y c Hp Hc.
  by apply Hpx, samples_in.
Qed.

(** ** Running the records *)

(** The points (or rectangles) of a record. *)
Definition collected {A} (f : Z → res A) (off n : Z) (l : list A) : Prop :=
  len l = n ∧ ∀ j a, l !! j = Some a → f (off + Z.of_nat j) = Ok a.

Definition corrects (blob : bytes) (u : Unpacked) (r : Opcode3DispatchRecord) (src dst : list Z) : Prop :=
  (rec_id r = 1 ∧ warp_paints r src dst) ∨ (rec_id r = 3 ∧ vignette_paints r src dst) ∨
  (rec_id r = 4 ∧ constant_paints r src dst) ∨ (rec_id r = 6 ∧ trim_paints r src dst) ∨
  (rec_id r = 5 ∧ ∃ pts rcts, collected (point_at blob u) (rec_point_offset r) (rec_point_count r) pts ∧
     collected (rect_at blob u) (rec_rect_offset r) (rec_rect_count r) rcts ∧ list_paints (listed pts rcts) src dst).

Inductive runs (blob : bytes) (u : Unpacked) : list Opcode3DispatchRecord → list Z → list Z → Prop :=
| runs_nil image : runs blob u [] image image
| runs_skip r rs image dst :
    rec_id r = 0 → rec_optional r ≠ 0 → runs blob u rs image dst → runs blob u (r :: rs) image dst
| runs_step r rs image mid dst :
    corrects blob u r image mid → runs blob u rs mid dst → runs blob u (r :: rs) image dst.

(** A record the filter can apply. *)
Definition usable (r : Opcode3DispatchRecord) : Prop :=
  (rec_id r = 0 ∧ rec_optional r ≠ 0) ∨ (rec_id r = 1 ∧ warp_usable r) ∨ rec_id r ∈ [3; 4; 5; 6].

(** A record that ends the filter: a mandatory unknown opcode or an unknown id. *)
Definition unsupported (r : Opcode3DispatchRecord) : Prop :=
  (rec_id r = 0 ∧ rec_optional r = 0) ∨ rec_id r ∉ [0; 1; 3; 4; 5; 6].

Lemma collect_exists {A} (f : Z → res A) off (n : nat) :
  (∀ k, 0 ≤ k < Z.of_nat n → ∃ a, f (off + k) = Ok a) → ∃ l, collected f off (Z.of_nat n) l.
Proof.
  induction n as [|n IH]; intros Hf; [by exists []|].
  destruct IH as (l & Hl & Hall); [intros; apply Hf; lia|]. destruct (Hf (Z.of_nat n)) as [a Ha]; [lia|].
  exists (l ++ [a]). split; [rewrite len_app; unfold len in *; simpl; lia|]. intros j b Hj.
  apply lookup_app_Some in Hj as [Hj|[Hj Hb]]; [by apply Hall|].
  destruct (j - length l)%nat eqn:E; [|done]. injection Hb as <-. unfold len in Hl.
  by replace (Z.of_nat j) with (Z.of_nat n) by lia.
Qed.

Lemma painted_ok ps sel cs val src dst : painted ps sel cs val src dst → image_ok dst.
Proof. by intros [? _]. Qed.

Lemma apply_record_usable blob u r src :
  image_ok src → indices_ok r → usable r →
  (∀ k, 0 ≤ k < rec_point_count r → ∃ p, point_at blob u (rec_point_offset r + k) = Ok p) →
  (∀ k, 0 ≤ k < rec_rect_count r → ∃ q, rect_at blob u (rec_rect_offset r + k) = Ok q) →
  ∃ dst, apply_record nan_half width height blob u src r = Ok dst ∧ image_ok dst ∧
    ((rec_id r = 0 ∧ rec_optional r ≠ 0 ∧ dst = src) ∨ corrects blob u r src dst).
Proof using Hw Hh Hsize.
  intros Hi Hix Hu Hp Hq. unfold apply_record, corrects.
  destruct Hu as [[Hid Ho]|[[Hid Hus]|Hid]].
  - rewrite Hid. simpl. rewrite (proj2 (Z.eqb_neq _ _)) by done. exists src. naive_solver.
  - rewrite Hid. simpl. destruct (apply_warp_paints r src Hi Hus) as (dst & -> & Hd).
    exists dst. split; [done|]. split; [by eapply painted_ok|naive_solver].
  - set_unfold in Hid. destruct Hid as [Hid|[Hid|[Hid|[Hid|[]]]]]; rewrite Hid; simpl.
    + destruct (apply_vignette_paints r src Hi) as (dst & -> & Hd). exists dst.
      split; [done|]. split; [by eapply painted_ok|naive_solver].
    + destruct (apply_constant_paints r src Hi) as (dst & -> & Hd). exists dst.
      split; [done|]. split; [by eapply painted_ok|naive_solver].
    + destruct Hix as (_ & Hpc & _ & Hrc). unfold is_u in *.
      destruct (collect_exists (point_at blob u) (rec_point_offset r) (Z.to_nat (rec_point_count r))) as (pts & Hpts);
        [intros; apply Hp; lia|].
      destruct (collect_exists (rect_at blob u) (rec_rect_offset r) (Z.to_nat (rec_rect_count r))) as (rcts & Hrcts);
        [intros; apply Hq; lia|].
      rewrite Z2Nat.id in Hpts, Hrcts by lia.
      destruct (apply_list_paints blob u r src pts rcts Hi) as (dst & -> & Hd); [apply Hpts|apply Hrcts|apply Hpts|apply Hrcts|].
      exists dst. split; [done|]. split; [by eapply painted_ok|]. right. do 4 right. split; [done|]. eauto.
    + destruct (apply_trim_paints r src Hi) as (dst & -> & Hd). exists dst.
      split; [done|]. split; [by eapply painted_ok|naive_solver].
Qed.

(** A record is applied, unsupported, or a warp that samples at NaN. *)
Lemma record_cases r : usable r ∨ unsupported r ∨ (rec_id r = 1 ∧ warp_undefined r).
Proof.
  unfold usable, unsupported. destruct (decide (rec_id r = 1)) as [Hid|Hid]; [destruct (warp_cases r); tauto|].
  destruct (decide (rec_id r = 0)); [destruct (decide (rec_optional r = 0)); tauto|].
  destruct (decide (rec_id r ∈ [3; 4; 5; 6])); [tauto|]. right. left. right. set_solver.
Qed.

Lemma first_unusable rs :
  Forall usable rs ∨ ∃ pre r post, rs = pre ++ r :: post ∧ Forall usable pre ∧
    (unsupported r ∨ (rec_id r = 1 ∧ warp_undefined r)).
Proof.
  induction rs as [|r rs IH]; [by left|]. destruct (record_cases r) as [Hr|Hr].
  - destruct IH as [IH|(pre & r' & post & -> & Hpre & Hr')]; [left; by constructor|].
    right. exists (r :: pre), r', post. split; [done|]. split; [by constructor|done].
  - right. by exists [], r, rs.
Qed.

Lemma apply_record_unsupported blob u r src :
  unsupported r → apply_record nan_half width height blob u src r = Fail CPIPE_UNSUPPORTED "".
Proof.
  unfold unsupported, apply_record. intros [[-> ->]|Hid]; [done|].
  rewrite !(proj2 (Z.eqb_neq _ _)); [done|set_solver..].
Qed.

(** Running a list of records: to its end, or to the first unsupported one. *)
Lemma run_records blob u rs : ∀ src,
  image_ok src →
  Forall (λ r, indices_ok r ∧
    (∀ k, 0 ≤ k < rec_point_count r → ∃ p, point_at blob u (rec_point_offset r + k) = Ok p) ∧
    (∀ k, 0 ≤ k < rec_rect_count r → ∃ q, rect_at blob u (rec_rect_offset r + k) = Ok q)) rs →
  Forall usable rs →
  ∃ dst, foldM (apply_record nan_half width height blob u) src rs = Ok dst ∧ image_ok dst ∧ runs blob u rs src dst.
Proof using Hw Hh Hsize.
  induction rs as [|r rs IH]; intros src Hi Hacc Hu; [exists src; split_and!; [done..|constructor]|].
  apply Forall_cons in Hacc as [(Hix & Hp & Hq) Hacc]. apply Forall_cons in Hu as [Hr Hu]. cbn [foldM].
  destruct (apply_record_usable blob u r src Hi Hix Hr Hp Hq) as (mid & -> & Hmid & Hc). rewrite Ok_bind.
  destruct (IH mid Hmid Hacc Hu) as (dst & -> & Hd & Hruns). exists dst. split_and!; [done..|].
  destruct Hc as [(Hid & Ho & ->)|Hc]; [by apply runs_skip|by eapply runs_step].
Qed.

End Painting.

(** ** Theorems *)

(** C11: the lens filter on dense RGBA images below 2^29 pixels, for every blob:
    a blob that fails the check gives CPIPE_BAD_INDEX.  Otherwise there are three
    cases, by the first record that cannot be applied, and no other: there is
    none, and the filter succeeds, the output memory holding the image that the
    records' corrections, each painted from the result of the one before, make of
    the input; it is a mandatory unknown opcode or an unknown id, and the filter
    gives CPIPE_UNSUPPORTED; or it is a warp one of whose source coordinates is
    NaN, and the filter has undefined behaviour (the coordinate is converted to
    [int] unchecked).  Outside the last case nothing is read or written outside
    the images or the blob. *)
Theorem lens_filter_exact (nan_half width height : Z) (input output : halide_buffer_t)
    (in_mem out_mem blob : bytes) :
  0 < width → 0 < height → width * height * 4 < 2 ^ 31 →
  rgba_buffer width height input → rgba_buffer width height output →
  bytes_ok in_mem → memory_ok width height in_mem → memory_ok width height out_mem → bytes_ok blob →
  let filter := lens_dng_opcode_list_3_param nan_half [(input, Some in_mem)] [(output, Some out_mem)] (Some blob) in
  ∃ o, checked_param_blob (Some blob) = Ok o ∧
    match o with
    | None => filter = Fail CPIPE_BAD_INDEX ""
    | Some u =>
        (Forall (usable width height) (up_records u) → ∃ src dst out, filter = Ok out ∧
           memory_ok width height out ∧ holds width height in_mem src ∧
           runs width height nan_half blob u (up_records u) src dst ∧ holds width height out dst) ∧
        (∀ pre r post, up_records u = pre ++ r :: post → Forall (usable width height) pre → unsupported r →
           filter = Fail CPIPE_UNSUPPORTED "") ∧
        (∀ pre r post, up_records u = pre ++ r :: post → Forall (usable width height) pre →
           rec_id r = 1 → warp_undefined width height r → filter = Undef) ∧
        (Forall (usable width height) (up_records u) ∨
         ∃ pre r post, up_records u = pre ++ r :: post ∧ Forall (usable width height) pre ∧
           (unsupported r ∨ (rec_id r = 1 ∧ warp_undefined width height r)))
    end.
Proof.
  intros Hw Hh Hsize Hin Hout Hok Hmin Hmout Hblob filter.
  destruct (checked_param_blob_defined blob Hblob) as (o & Ho & Hacc). exists o. split; [done|].
  destruct o as [u|].
  2: { unfold filter, lens_dng_opcode_list_3_param, filter_image. by rewrite Ho. }
  specialize (Hacc u eq_refl). unfold accesses_ok in Hacc.
  destruct (read_image_holds width height Hw Hh Hsize input in_mem Hin Hok Hmin) as (src & Hsrc & Hholds).
  assert (Hfilter : filter =
    (working ← foldM (apply_record nan_half width height blob u) src (up_records u);
     mem ← write_image working output (Some out_mem) width height;
     of_option (Fail CPIPE_BAD_INDEX "") mem)).
  { unfold filter, lens_dng_opcode_list_3_param, filter_image. rewrite Ho, Ok_bind.
    rewrite (dim_at_rgba width height input 0 Hin), (dim_at_rgba width height input 1 Hin),
      (dim_at_rgba width height output 0 Hout), (dim_at_rgba width height output 1 Hout).
    simpl of_option. rewrite !Ok_bind. simpl hd_extent.
    rewrite !(proj2 (Z.leb_gt _ 0)) by lia. simpl. rewrite !Z.eqb_refl. simpl. by rewrite Hsrc. }
  rewrite Hfilter. split_and!.
  - intros Hu. destruct (run_records width height Hw Hh Hsize nan_half blob u (up_records u) src (proj1 Hholds) Hacc Hu)
      as (dst & -> & Hdst & Hruns). rewrite Ok_bind.
    destruct (write_image_holds width height Hw Hh Hsize output dst out_mem Hout Hdst Hmout) as (out & -> & Hm & Hh').
    exists src, dst, out. done.
  - intros pre r post Hrs Hpre Hr. rewrite Hrs in *. apply Forall_app in Hacc as [Hacc _].
    destruct (run_records width height Hw Hh Hsize nan_half blob u pre src (proj1 Hholds) Hacc Hpre)
      as (mid & Hmid & _ & _). rewrite foldM_app, Hmid, Ok_bind. cbn [foldM].
    by rewrite apply_record_unsupported.
  - intros pre r post Hrs Hpre Hid Hr. rewrite Hrs in *. apply Forall_app in Hacc as [Hacc _].
    destruct (run_records width height Hw Hh Hsize nan_half blob u pre src (proj1 Hholds) Hacc Hpre)
      as (mid & Hmid & Himg & _). rewrite foldM_app, Hmid, Ok_bind. cbn [foldM]. unfold apply_record. rewrite Hid. simpl.
    by rewrite (apply_warp_undef width height Hw Hh Hsize).
  - by apply first_unusable.
Qed.

(** ** Witnesses *)

Definition example_blob : bytes :=
  pack_opcode_list_3 (λ _, 0)
    [opcode_of 1 0 (PTrim (mkTrim 0 0 1 2));
     opcode_of 1 0 (PWarp (mkWarp [mkCoeff 0x3ff0000000000000 0 0 0 0 0] 0x3fe0000000000000 0x3fe0000000000000))].

Definition example_rgba_buffer : halide_buffer_t :=
  mkHalide 0 (mkHType halide_type_float 16) false [mkHDim 0 2 4; mkHDim 0 2 8; mkHDim 0 4 1].

Definition example_in : bytes := concat (replicate 16 [0x00; 0x3c]).
Definition example_out : bytes := replicate 32 9.

Definition example_unpacked : Unpacked :=
  match checked_param_blob (Some example_blob) with Ok (Some u) => u | _ => mkUnpacked [] 0 0 end.

Lemma bytes_ok_dec bs : forallb (λ b, (0 <=? b) && (b <? 256)) bs = true → bytes_ok bs.
Proof.
  intros H. apply Forall_forall. intros b Hb%list_elem_of_In. rewrite forallb_forall in H.
  specialize (H b Hb). unfold is_u. lia.
Qed.

Lemma example_usable : Forall (usable 2 2) (up_records example_unpacked).
Proof.
  assert (∃ r1 r2, up_records example_unpacked = [r1; r2] ∧ rec_id r1 = 6 ∧ rec_id r2 = 1 ∧ warp_usable 2 2 r2)
    as (r1 & r2 & -> & H1 & H2 & H3).
  { eexists _, _. split; [vm_compute; reflexivity|]. split; [reflexivity|]. split; [reflexivity|].
    right. intros x y c [Hx Hy] Hc. assert (x = 0 ∨ x = 1) by lia. assert (y = 0 ∨ y = 1) by lia.
    assert (c = 0 ∨ c = 1 ∨ c = 2 ∨ c = 3) by lia. clear Hx Hy Hc.
    destruct_or!; subst; vm_compute; intros [|]; discriminate. }
  apply Forall_cons; split; [right; right; rewrite H1; set_solver|]. apply Forall_singleton. by right; left.
Qed.

(** The same list with a warp whose kr0 is NaN. *)
Definition example_nan_blob : bytes :=
  pack_opcode_list_3 (λ _, 0)
    [opcode_of 1 0 (PTrim (mkTrim 0 0 1 2));
     opcode_of 1 0 (PWarp (mkWarp [mkCoeff 0x7ff8000000000000 0 0 0 0 0] 0x3fe0000000000000 0x3fe0000000000000))].

Definition example_nan_unpacked : Unpacked :=
  match checked_param_blob (Some example_nan_blob) with Ok (Some u) => u | _ => mkUnpacked [] 0 0 end.

(** A 2x2 image of ones: the lower row is trimmed to zero, the identity warp
    keeps the rest; the NaN warp is undefined. *)
Lemma lens_filter_exact_witness :
  ∃ src dst out, lens_dng_opcode_list_3_param 0x7e00 [(example_rgba_buffer, Some example_in)]
      [(example_rgba_buffer, Some example_out)] (Some example_blob) = Ok out ∧
    runs 2 2 0x7e00 example_blob example_unpacked (up_records example_unpacked) src dst ∧ holds 2 2 out dst ∧
    host_px 2 out 1 0 2 = Ok 0x3c00 ∧ host_px 2 out 1 1 2 = Ok 0 ∧
    lens_dng_opcode_list_3_param 0x7e00 [(example_rgba_buffer, Some example_in)]
      [(example_rgba_buffer, Some example_out)] (Some example_nan_blob) = Undef.
Proof.
  assert (Hnan : lens_dng_opcode_list_3_param 0x7e00 [(example_rgba_buffer, Some example_in)]
      [(example_rgba_buffer, Some example_out)] (Some example_nan_blob) = Undef).
  { destruct (lens_filter_exact 0x7e00 2 2 example_rgba_buffer example_rgba_buffer example_in example_out example_nan_blob)
      as (o & Ho & H); [lia|lia|lia|reflexivity|reflexivity|apply bytes_ok_dec; vm_compute; reflexivity
      |reflexivity|reflexivity|apply bytes_ok_dec; vm_compute; reflexivity|].
    assert (Hu : checked_param_blob (Some example_nan_blob) = Ok (Some example_nan_unpacked)) by (vm_compute; reflexivity).
    rewrite Hu in Ho. injection Ho as <-. destruct H as (_ & _ & H & _).
    eapply (H (take 1 (up_records example_nan_unpacked)) _ []); [vm_compute; reflexivity| |reflexivity|].
    - apply Forall_singleton. right. right. vm_compute. right. right. right. left.
    - split; [vm_compute; reflexivity|]. exists 0, 0, 0. split; [split; lia|]. split; [lia|].
      left. vm_compute. reflexivity. }
  destruct (lens_filter_exact 0x7e00 2 2 example_rgba_buffer example_rgba_buffer example_in example_out example_blob)
    as (o & Ho & H); [lia|lia|lia|reflexivity|reflexivity|apply bytes_ok_dec; vm_compute; reflexivity
    |reflexivity|reflexivity|apply bytes_ok_dec; vm_compute; reflexivity|].
  assert (Hu : checked_param_blob (Some example_blob) = Ok (Some example_unpacked)) by (vm_compute; reflexivity).
  rewrite Hu in Ho. injection Ho as <-. destruct H as [H _].
  destruct (H example_usable) as (src & dst & out & Hf & _ & _ & Hruns & Hholds). exists src, dst, out.
  split; [done|]. split; [done|]. split; [done|]. clear - Hf Hnan. vm_compute in Hf. injection Hf as <-.
  split; [vm_compute; reflexivity|]. split; [vm_compute; reflexivity|exact Hnan].
Defined.
