(* ===== verification/GainFilter.v ===== *)
(** * Lens shading: the gain-map node's parameters and its filter

    Models [validate_gain_maps] and [pack_gain_maps] of
    src/cpipe/nodes/lens/shading_gainmap.cpp, the structs of
    nodes/detail/P1ParamDispatch.hpp they fill, and the filter of
    shading_gainmap_dispatch.cpp: the gain of a pixel is interpolated in the map of
    its CFA plane and multiplied into a single-channel binary32 image.

    The main theorem composes the parser ([OpcodeList2]), the validation, the
    packing and the filter: on every opcode list that parses, no coordinate is NaN,
    every table access is inside the map it belongs to, and each output sample is
    the product of the input sample with the bilinear interpolation of that map. *)

From Stdlib Require Import ZArith Lia SpecFloat.
From stdpp Require Import prelude strings list.
From S2P Require Import Prelude Core HalfFloat Float64 OpcodeReader OpcodeList2 LensBlob ComputeContext LensFilter.

Local Open Scope Z_scope.

Local Abbreviation fadd := (SFadd 24 128).
Local Abbreviation fsub := (SFsub 24 128).
Local Abbreviation fmul := (SFmul 24 128).
Local Abbreviation dsub := (SFsub 53 1024).
Local Abbreviation ddiv := (SFdiv 53 1024).

(** ** The parameter block *)

(** [GainMapDispatchHeader]: a count, 2 + 16 CFA bytes and two bytes of padding. *)
Definition gain_header_widths : list nat := 4%nat :: replicate 18 1%nat ++ [2%nat].

Record GainMapDispatchPlane : Type := mkPlane {
  gp_top : Z; gp_left : Z; gp_bottom : Z; gp_right : Z;
  gp_plane : Z; gp_planes : Z;
  gp_points_v : Z; gp_points_h : Z;
  gp_spacing_v : Z; gp_spacing_h : Z;
  gp_origin_v : Z; gp_origin_h : Z;
  gp_gain_offset : Z; gp_gain_count : Z
}.

Definition plane_widths : list nat := replicate 8 4%nat ++ replicate 4 8%nat ++ replicate 2 4%nat.

Definition plane_fields (p : GainMapDispatchPlane) : list Z :=
  [gp_top p; gp_left p; gp_bottom p; gp_right p; gp_plane p; gp_planes p; gp_points_v p; gp_points_h p;
   gp_spacing_v p; gp_spacing_h p; gp_origin_v p; gp_origin_h p; gp_gain_offset p; gp_gain_count p].

Definition plane_of_fields (l : list Z) : GainMapDispatchPlane :=
  mkPlane (field l 0) (field l 1) (field l 2) (field l 3) (field l 4) (field l 5) (field l 6) (field l 7)
    (field l 8) (field l 9) (field l 10) (field l 11) (field l 12) (field l 13).

(** ** The node *)

(** One map of the loop over [seen]. *)
Definition see_plane (seen : list bool) (map : GainMap) : res (list bool) :=
  if negb (planes map =? 4) || (4 <=? plane map) || default false (seen !! Z.to_nat (plane map))
  then Fail CPIPE_UNSUPPORTED "GainMap plane set invalid"
  else Ok (<[Z.to_nat (plane map) := true]> seen).

Definition validate_gain_maps (gain_maps : list GainMap) : res unit :=
  match gain_maps with
  | [] => Fail CPIPE_NEED_METADATA "GainMap opcode missing"
  | m :: _ =>
      if (len gain_maps =? 1) && (planes m =? 1) && (plane m =? 0) then Ok tt else
      if negb (len gain_maps =? 4) then Fail CPIPE_UNSUPPORTED "GainMap plane set incomplete" else
      _ ← foldM see_plane (replicate 4 false) gain_maps; Ok tt
  end.

Definition plane_of (m : GainMap) (gain_offset : Z) : GainMapDispatchPlane :=
  mkPlane (top m) (left m) (bottom m) (right m) (plane m) (planes m) (map_points_v m) (map_points_h m)
    (map_spacing_v m) (map_spacing_h m) (map_origin_v m) (map_origin_h m) gain_offset (u32 (len (gain m))).

Definition pack_plane (acc : list GainMapDispatchPlane * Z) (m : GainMap) : list GainMapDispatchPlane * Z :=
  let '(packed, gain_offset) := acc in
  (packed ++ [plane_of m gain_offset], u32 (gain_offset + u32 (len (gain m)))).

(** The CFA arrays of the calibration have two and sixteen bytes; [padding] is the
    gap at the end of the header. *)
Definition pack_gain_maps (padding : Z) (cfa_repeat cfa_pattern : list Z) (gain_maps : list GainMap) : bytes :=
  struct_bytes gain_header_widths (u32 (len gain_maps) :: cfa_repeat ++ cfa_pattern ++ [padding]) ++
  concat ((λ p, struct_bytes plane_widths (plane_fields p)) <$> (foldl pack_plane ([], 0) gain_maps).1) ++
  concat ((λ m, concat ((λ g, struct_bytes [4%nat] [g]) <$> gain m)) <$> gain_maps).

(** ** The filter *)

Record AxisSample : Type := mkAxis { ax_low : Z; ax_high : Z; ax_weight : float32 }.

Definition sample_axis (coord : spec_float) (points : Z) : res AxisSample :=
  if (points <=? 1) || SFleb coord (f64 0 0) then Ok (mkAxis 0 0 f_zero) else
  let last := f64 (points - 1) 0 in
  if SFleb last coord then Ok (mkAxis (points - 1) (points - 1) f_zero) else
  low ← floor_u32 coord;
  Ok (mkAxis low (u32 (low + 1)) (to_f32 (dsub coord (f64 low 0)))).

Definition lerp (a b t : float32) : float32 := fadd a (fmul (fsub b a) t).

(** The CFA plane of a pixel; quad-Bayer sensors repeat every four pixels. *)
Definition cfa_plane (cfa_repeat : list Z) (x y : Z) : Z :=
  if (field cfa_repeat 0 =? 4) && (field cfa_repeat 1 =? 4)
  then (y mod 4) / 2 * 2 + (x mod 4) / 2
  else Z.land y 1 * 2 + Z.land x 1.

Definition select_map (map_count : Z) (cfa_repeat : list Z) (maps : list GainMapDispatchPlane) (x y : Z)
  : option GainMapDispatchPlane :=
  if map_count =? 1 then head maps
  else List.find (λ p, gp_plane p =? cfa_plane cfa_repeat x y) maps.

(** [gains[i]]: the table starts at byte [base] of the blob. *)
Definition gain_at (blob : bytes) (base i : Z) : res float32 :=
  l ← read_struct [4%nat] blob (base + 4 * i); Ok (float_of_bits (field l 0)).

(** [(coord - origin) / spacing]. *)
Definition grid (origin spacing coord : Z) : spec_float :=
  ddiv (dsub (f64 coord 0) (double_of_bits origin)) (double_of_bits spacing).

Definition sample_gain (blob : bytes) (base : Z) (map : GainMapDispatchPlane) (x y : Z) : res float32 :=
  sy ← sample_axis (grid (gp_origin_v map) (gp_spacing_v map) y) (gp_points_v map);
  sx ← sample_axis (grid (gp_origin_h map) (gp_spacing_h map) x) (gp_points_h map);
  let row_stride := gp_points_h map in
  let at_ r c := gain_at blob base (gp_gain_offset map + u32 (u32 (r * row_stride) + c)) in
  g00 ← at_ (ax_low sy) (ax_low sx);
  g10 ← at_ (ax_low sy) (ax_high sx);
  g01 ← at_ (ax_high sy) (ax_low sx);
  g11 ← at_ (ax_high sy) (ax_high sx);
  Ok (lerp (lerp g00 g10 (ax_weight sx)) (lerp g01 g11 (ax_weight sx)) (ax_weight sy)).

(** Overwrite a struct in memory. *)
Definition write_struct (widths : list nat) (mem : bytes) (off : Z) (fields : list Z) : res bytes :=
  if (0 <=? off) && (off + struct_size widths <=? len mem)
  then Ok (take (Z.to_nat off) mem ++ struct_bytes widths fields ++ drop (Z.to_nat (off + struct_size widths)) mem)
  else Undef.

(** [host[i]] of a [float] pointer. *)
Definition read_float_at (mem : bytes) (i : Z) : res float32 :=
  l ← read_struct [4%nat] mem (4 * i); Ok (float_of_bits (field l 0)).

(** [(y * dim[1].stride) + (x * dim[0].stride)] in [int]. *)
Definition plane_offset (b : halide_buffer_t) (x y : Z) : res Z :=
  d0 ← dim_at b 0; d1 ← dim_at b 1;
  a ← imul32 y (hd_stride d1); b ← imul32 x (hd_stride d0); iadd32 a b.

(** The test of one map against the size of the gain table. *)
Definition plane_fits (gain_bytes : Z) (p : GainMapDispatchPlane) : bool :=
  negb ((gp_points_v p =? 0) || (gp_points_h p =? 0) || (gp_gain_count p =? 0) ||
        (gain_bytes <? u64 ((gp_gain_offset p + gp_gain_count p) * 4))).

Definition read_plane (blob : bytes) (i : Z) : res GainMapDispatchPlane :=
  l ← read_struct plane_widths blob (24 + i * 72); Ok (plane_of_fields l).

Section Filter.

(** The pattern a NaN is stored as: its payload is not modelled. *)
Variable nan_bits : Z.

(** The bit pattern of a float. *)
Definition bits_of_float (v : float32) : Z := u32
  (let sign (s : bool) := if s then 2 ^ 31 else 0 in
  match v with
  | S754_zero s => sign s
  | S754_infinity s => sign s + 0x7f800000
  | S754_nan => nan_bits
  | S754_finite s m e => sign s + (if Z.pos m <? 2 ^ 23 then Z.pos m else (e + 150) * 2 ^ 23 + (Z.pos m - 2 ^ 23))
  end).

(** The loop over the pixels: a pixel whose plane has no map ends it. *)
Fixpoint gain_loop (input output : halide_buffer_t) (in_mem blob : bytes) (base map_count : Z) (cfa_repeat : list Z)
    (maps : list GainMapDispatchPlane) (ps : list (Z * Z)) (out_mem : bytes) : res (cpipe_status_t * bytes) :=
  match ps with
  | [] => Ok (CPIPE_OK, out_mem)
  | (x, y) :: ps =>
      match select_map map_count cfa_repeat maps (u32 x) (u32 y) with
      | None => Ok (CPIPE_NEED_METADATA, out_mem)
      | Some map =>
          in_offset ← plane_offset input x y;
          out_offset ← plane_offset output x y;
          v ← read_float_at in_mem in_offset;
          g ← sample_gain blob base map (u32 x) (u32 y);
          out_mem ← write_struct [4%nat] out_mem (4 * out_offset) [bits_of_float (fmul v g)];
          gain_loop input output in_mem blob base map_count cfa_repeat maps ps out_mem
      end
  end.

(** The status with the contents of the output. *)
Definition gain_image (input output : halide_buffer_t) (in_mem out_mem blob : bytes)
  : res (cpipe_status_t * bytes) :=
  if len blob <? 24 then Ok (CPIPE_BAD_INDEX, out_mem) else
  header ← read_struct gain_header_widths blob 0;
  let map_count := field header 0 in
  if (map_count =? 0) || (4 <? map_count) then Ok (CPIPE_NEED_METADATA, out_mem) else
  let map_bytes := u64 (map_count * 72) in
  if len blob <? u64 (24 + map_bytes) then Ok (CPIPE_BAD_INDEX, out_mem) else
  maps ← foldM (λ acc i, p ← read_plane blob i; Ok (acc ++ [p])) [] (seqZ 0 map_count);
  let gain_bytes := u64 (len blob - 24 - map_bytes) in
  if negb (forallb (plane_fits gain_bytes) maps) then Ok (CPIPE_BAD_INDEX, out_mem) else
  i0 ← dim_at input 0; i1 ← dim_at input 1;
  gain_loop input output in_mem blob (24 + map_bytes) map_count [field header 1; field header 2] maps
    (pixels (hd_extent i0) (hd_extent i1)) out_mem.

(** The buffers come with their memory; [None]: no output to write to. *)
Definition lens_shading_gainmap_param (inputs outputs : list (halide_buffer_t * bytes)) (blob : option bytes)
  : res (cpipe_status_t * option bytes) :=
  match inputs, outputs, blob with
  | [(input, in_mem)], [(output, out_mem)], Some blob =>
      '(status, mem) ← gain_image input output in_mem out_mem blob; Ok (status, Some mem)
  | _, _, _ => Ok (CPIPE_BAD_INDEX, None)
  end.

End Filter.

(** ** Specification *)

(** The gain table of a map, by row and column. *)
Definition table (m : GainMap) (r c : Z) : float32 :=
  float_of_bits (default 0 (gain m !! Z.to_nat (r * map_points_h m + c))).

(** The grid points around a coordinate, and the weight of the upper one. *)
Definition axis (origin spacing points coord : Z) : AxisSample :=
  value_of (mkAxis 0 0 f_zero) (sample_axis (grid origin spacing coord) points).

Definition bilinear (m : GainMap) (x y : Z) : float32 :=
  let sy := axis (map_origin_v m) (map_spacing_v m) (map_points_v m) y in
  let sx := axis (map_origin_h m) (map_spacing_h m) (map_points_h m) x in
  lerp (lerp (table m (ax_low sy) (ax_low sx)) (table m (ax_low sy) (ax_high sx)) (ax_weight sx))
       (lerp (table m (ax_high sy) (ax_low sx)) (table m (ax_high sy) (ax_high sx)) (ax_weight sx)) (ax_weight sy).

(** The map of a pixel: the only one, or the one of its plane. *)
Definition map_of (cfa_repeat : list Z) (maps : list GainMap) (x y : Z) (m : GainMap) : Prop :=
  maps = [m] ∨ (m ∈ maps ∧ plane m = cfa_plane cfa_repeat x y).

(** ** Coordinates *)

Lemma double_of_bits_positive bits :
  isfinite64 bits = true → gt_zero64 bits = true → ∃ m e, double_of_bits bits = S754_finite false m e.
Proof.
  unfold isfinite64, gt_zero64, double_of_bits. rewrite negb_true_iff, andb_true_iff, Z.ltb_lt, Z.leb_le.
  intros -> [Hp Hm]. assert (Z.testbit bits 63 = false) as ->.
  { apply Z.testbit_false; [lia|]. rewrite Z.div_small by lia. done. }
  set (e := Z.land (Z.shiftr bits 52) 2047).
  assert (Hland : ∀ n, Z.land bits (2 ^ 52 - 1) = n → n = bits `mod` 2 ^ 52).
  { intros n <-. change (2 ^ 52 - 1) with (Z.ones 52). apply Z.land_ones. lia. }
  specialize (Hland _ eq_refl). rewrite Hland. pose proof (Z.mod_pos_bound bits (2 ^ 52) ltac:(lia)).
  destruct (Z.eqb_spec e 0) as [He|He].
  - assert (Hb : bits < 2 ^ 52).
    { unfold e in He. change 2047 with (Z.ones 11) in He. rewrite Z.land_ones, Z.shiftr_div_pow2 in He by lia.
      rewrite Z.mod_small in He; [apply Z.div_small_iff in He; lia|].
      split; [apply Z.div_pos; lia|]. apply Z.div_lt_upper_bound; lia. }
    rewrite Z.mod_small by lia. destruct bits; [lia|eauto|lia].
  - destruct (bits `mod` 2 ^ 52 + 2 ^ 52) eqn:E; [lia|eauto|lia].
Qed.

Lemma double_of_bits_finite bits : isfinite64 bits = true → finite (double_of_bits bits).
Proof.
  unfold isfinite64, double_of_bits. rewrite negb_true_iff. intros ->.
  destruct (_ =? 0); [by destruct (Z.land bits (2 ^ 52 - 1))|by destruct (Z.land bits (2 ^ 52 - 1) + 2 ^ 52)].
Qed.

(** The coordinates of an accepted map are not NaN. *)
Lemma grid_not_nan origin spacing coord :
  isfinite64 origin = true → isfinite64 spacing = true → gt_zero64 spacing = true → 0 ≤ coord < 2 ^ 32 →
  grid origin spacing coord ≠ S754_nan.
Proof.
  intros Ho Hs Hg Hc. unfold grid. destruct (double_of_bits_positive spacing Hs Hg) as (m & e & ->).
  apply div_not_nan, sub_not_nan; [apply f64_finite; lia|by apply double_of_bits_finite].
Qed.

Lemma sample_axis_in coord points :
  0 < points < 2 ^ 32 → narrow coord → coord ≠ S754_nan →
  ∃ s, sample_axis coord points = Ok s ∧ 0 ≤ ax_low s < points ∧ 0 ≤ ax_high s < points.
Proof.
  intros Hp Hn Hnan. unfold sample_axis.
  destruct (Z.leb_spec points 1); cbn [orb]; [eexists; split; [done|]; simpl; lia|].
  destruct (SFleb coord (f64 0 0)) eqn:E0; [eexists; split; [done|]; simpl; lia|].
  destruct (SFleb (f64 (points - 1) 0) coord) eqn:E1; [eexists; split; [done|]; simpl; lia|].
  destruct (floor_below coord (points - 1)) as (i & -> & Hi); [lia|done..|]. rewrite Ok_bind.
  eexists. split; [done|]. simpl. rewrite u32_small by lia. lia.
Qed.

Lemma axis_in origin spacing points coord :
  isfinite64 origin = true → isfinite64 spacing = true → gt_zero64 spacing = true → 0 ≤ coord < 2 ^ 32 →
  0 < points < 2 ^ 32 →
  let s := axis origin spacing points coord in
  sample_axis (grid origin spacing coord) points = Ok s ∧ 0 ≤ ax_low s < points ∧ 0 ≤ ax_high s < points.
Proof.
  intros Ho Hs Hg Hc Hp. unfold axis.
  destruct (sample_axis_in (grid origin spacing coord) points) as (s & -> & Hl & Hh);
    [done|apply narrow_div|by apply grid_not_nan|done].
Qed.

(** ** The layout of the block *)

(** The offsets at which the tables of the maps start. *)
Fixpoint planes_from (off : Z) (maps : list GainMap) : list GainMapDispatchPlane :=
  match maps with
  | [] => []
  | m :: maps => plane_of m off :: planes_from (off + len (gain m)) maps
  end.

Definition all_gains (maps : list GainMap) : list Z := concat (gain <$> maps).

Lemma pack_planes maps : ∀ packed off,
  0 ≤ off → off + len (all_gains maps) < 2 ^ 32 →
  foldl pack_plane (packed, off) maps = (packed ++ planes_from off maps, off + len (all_gains maps)).
Proof.
  induction maps as [|m maps IH]; intros packed off Ho Hl; simpl.
  { rewrite app_nil_r. f_equal. unfold all_gains, len. simpl. lia. }
  unfold all_gains in Hl |- *. cbn [fmap list_fmap concat] in Hl |- *. rewrite len_app in Hl |- *.
  pose proof (len_nonneg (gain m)). pose proof (len_nonneg (all_gains maps)). unfold all_gains in *.
  rewrite (u32_small (len (gain m))), u32_small by lia. rewrite IH by lia.
  by rewrite <-app_assoc, Z.add_assoc.
Qed.

Lemma length_planes_from maps : ∀ off, length (planes_from off maps) = length maps.
Proof. induction maps as [|m maps IH]; intros off; simpl; [done|by rewrite IH]. Qed.

(** The table of a map stands at its offset. *)
Lemma planes_from_lookup maps : ∀ off (i : nat) p, 0 ≤ off →
  planes_from off maps !! i = Some p → ∃ m, maps !! i = Some m ∧ p = plane_of m (gp_gain_offset p) ∧
    off ≤ gp_gain_offset p ∧ gp_gain_offset p + len (gain m) ≤ off + len (all_gains maps) ∧
    ∀ k, 0 ≤ k < len (gain m) →
      all_gains maps !! Z.to_nat (gp_gain_offset p - off + k) = gain m !! Z.to_nat k.
Proof.
  induction maps as [|m maps IH]; intros off i p Ho Hp; [done|]. simpl planes_from in Hp.
  unfold all_gains. cbn [fmap list_fmap concat]. fold (all_gains maps). rewrite len_app.
  pose proof (len_nonneg (gain m)). destruct i as [|i]; simpl in Hp.
  - injection Hp as <-. exists m. simpl. split_and!; [done|done|lia|pose proof (len_nonneg (all_gains maps)); lia|].
    intros k Hk. replace (off - off + k) with k by lia. rewrite lookup_app_l by (unfold len in Hk; lia). done.
  - destruct (IH (off + len (gain m)) i p ltac:(lia) Hp) as (m' & Hm' & Heq & Hlo & Hhi & Hk). exists m'.
    split_and!; [done|done|lia|lia|]. intros k Hk'. specialize (Hk k Hk'). rewrite lookup_app_r by (unfold len in *; lia).
    rewrite <-Hk. f_equal. unfold len in *. lia.
Qed.

Lemma in_planes_from maps m : ∀ off, m ∈ maps → ∃ p, p ∈ planes_from off maps ∧ gp_plane p = plane m.
Proof.
  induction maps as [|m' maps IH]; intros off Hm; [by apply not_elem_of_nil in Hm|]. simpl.
  apply elem_of_cons in Hm as [->|Hm]; [exists (plane_of m' off); set_solver|].
  destruct (IH (off + len (gain m')) Hm) as (p & ? & ?). exists p. set_solver.
Qed.

(** The CFA bytes of a calibration. *)
Definition cfa_ok (cfa_repeat cfa_pattern : list Z) : Prop :=
  length cfa_repeat = 2%nat ∧ length cfa_pattern = 16%nat ∧ bytes_ok cfa_repeat ∧ bytes_ok cfa_pattern.

Lemma len_all_gains maps b : Forall (λ m, len (gain m) ≤ b) maps → len (all_gains maps) ≤ len maps * b.
Proof.
  induction 1 as [|m maps Hm _ IH]; [done|]. unfold all_gains in *. cbn [fmap list_fmap concat].
  rewrite len_app, len_cons. fold (all_gains maps). unfold all_gains. lia.
Qed.

Lemma gain_bytes_concat maps :
  concat ((λ m, concat ((λ g, struct_bytes [4%nat] [g]) <$> gain m)) <$> maps) =
  concat (struct_bytes [4%nat] <$> ((λ g, [g]) <$> all_gains maps)).
Proof.
  rewrite <-list_fmap_compose. induction maps as [|m maps IH]; [done|].
  unfold all_gains. cbn [fmap list_fmap concat]. rewrite fmap_app, concat_app. f_equal. exact IH.
Qed.

Section Packed.

Variables (padding : Z) (cfa_repeat cfa_pattern : list Z) (maps : list GainMap).
Hypothesis Hpad : is_u 16 padding.
Hypothesis Hcfa : cfa_ok cfa_repeat cfa_pattern.
Hypothesis Hmaps : Forall parsed_ok maps.
Hypothesis Hcount : 0 < len maps ≤ 4.

Local Abbreviation blob := (pack_gain_maps padding cfa_repeat cfa_pattern maps).
Local Abbreviation header := (u32 (len maps) :: cfa_repeat ++ cfa_pattern ++ [padding]).
Local Abbreviation planes := (planes_from 0 maps).
Local Abbreviation base := (24 + u64 (len maps * 72)).

Lemma gains_small : len (all_gains maps) < 2 ^ 32.
Proof using Hmaps Hcount.
  assert (len (all_gains maps) ≤ len maps * (2 ^ 30 - 1)); [|lia]. apply len_all_gains.
  eapply Forall_impl; [exact Hmaps|]. intros m (_ & _ & ?). lia.
Qed.

Lemma blob_eq :
  blob = struct_bytes gain_header_widths header ++ concat (struct_bytes plane_widths <$> (plane_fields <$> planes)) ++
    concat (struct_bytes [4%nat] <$> ((λ g, [g]) <$> all_gains maps)).
Proof using Hmaps Hcount.
  unfold pack_gain_maps. rewrite pack_planes by (try lia; rewrite Z.add_0_l; apply gains_small).
  cbn [fst app]. by rewrite gain_bytes_concat, <-(list_fmap_compose plane_fields).
Qed.

Lemma header_fits : Forall2 fits gain_header_widths header.
Proof using Hpad Hcfa Hcount.
  destruct Hcfa as (H2 & H16 & B2 & B16). constructor; [by apply fits4, wrap_bound|].
  change (replicate 18 1%nat ++ [2%nat]) with (replicate 2 1%nat ++ replicate 16 1%nat ++ [2%nat]).
  assert (Hb : ∀ l : list Z, bytes_ok l → Forall2 fits (replicate (length l) 1%nat) l).
  { intros l. induction 1; constructor; [done|done]. }
  apply Forall2_app; [rewrite <-H2; by apply Hb|]. apply Forall2_app; [rewrite <-H16; by apply Hb|].
  constructor; [done|constructor].
Qed.

Lemma plane_of_fits m off : parsed_ok m → is_u 32 off → Forall2 fits plane_widths (plane_fields (plane_of m off)).
Proof.
  intros (_ & (H32 & H64 & _) & _) Ho. rewrite !Forall_cons in H32. rewrite !Forall_cons in H64.
  destruct_and! H32. destruct_and! H64.
  unfold plane_fields, plane_widths. simpl. repeat (constructor; [first [by apply fits4|by apply fits8]|]).
  constructor; [by apply fits4, wrap_bound|constructor].
Qed.

Lemma planes_fit : Forall (Forall2 fits plane_widths) (plane_fields <$> planes).
Proof using Hmaps Hcount.
  apply Forall_fmap, Forall_lookup. intros i p Hp.
  destruct (planes_from_lookup maps 0 i p ltac:(lia) Hp) as (m & Hm & Heq & Hlo & Hhi & _).
  rewrite Heq. apply plane_of_fits; [by eapply Forall_lookup_1 in Hm|]. pose proof gains_small. pose proof (len_nonneg (gain m)).
  unfold is_u. lia.
Qed.

Lemma gains_fit : Forall (Forall2 fits [4%nat]) ((λ g, [g]) <$> all_gains maps).
Proof using Hmaps.
  apply Forall_fmap. unfold all_gains. apply Forall_concat, Forall_fmap. eapply Forall_impl; [exact Hmaps|].
  intros m (_ & (_ & _ & Hg) & _). eapply Forall_impl; [exact Hg|]. intros g Hg'. constructor; [done|constructor].
Qed.

Lemma len_gain_header : len (struct_bytes gain_header_widths header) = 24.
Proof using Hpad Hcfa Hcount.
  unfold len. rewrite length_struct_bytes; [done|]. symmetry. apply (Forall2_length _ _ _ header_fits).
Qed.

Lemma len_planes : len (concat (struct_bytes plane_widths <$> (plane_fields <$> planes))) = len maps * 72.
Proof using Hmaps Hcount.
  rewrite len_table by apply planes_fit. unfold len. by rewrite length_fmap, length_planes_from.
Qed.

Lemma base_eq : base = 24 + len maps * 72.
Proof using Hcount. by rewrite u64_small by lia. Qed.

Lemma len_blob : len blob = 24 + len maps * 72 + 4 * len (all_gains maps).
Proof using Hpad Hcfa Hmaps Hcount.
  rewrite blob_eq, !len_app, len_gain_header, len_planes, len_table by apply gains_fit. unfold len at 2.
  rewrite length_fmap. change (struct_size [4%nat]) with 4. unfold len. lia.
Qed.

Lemma read_header : read_struct gain_header_widths blob 0 = Ok header.
Proof using Hpad Hcfa Hmaps Hcount.
  rewrite blob_eq. rewrite <-(app_nil_l (struct_bytes gain_header_widths header ++ _)).
  apply read_struct_at; [apply header_fits|done].
Qed.

Lemma read_plane_at i p : planes !! i = Some p → read_plane blob (Z.of_nat i) = Ok p.
Proof using Hpad Hcfa Hmaps Hcount.
  intros Hp. unfold read_plane. rewrite blob_eq.
  replace (24 + Z.of_nat i * 72) with (len (struct_bytes gain_header_widths header) + Z.of_nat i * struct_size plane_widths)
    by (rewrite len_gain_header; done).
  erewrite read_struct_table; [|apply planes_fit|by rewrite list_lookup_fmap, Hp]. simpl. by destruct p.
Qed.

Lemma read_gain_at i g : 0 ≤ i → all_gains maps !! Z.to_nat i = Some g → gain_at blob base i = Ok (float_of_bits g).
Proof using Hpad Hcfa Hmaps Hcount.
  intros Hi Hg. unfold gain_at. rewrite base_eq, blob_eq, app_assoc. 
  set (pre := struct_bytes gain_header_widths header ++ concat (struct_bytes plane_widths <$> (plane_fields <$> planes))).
  replace (24 + len maps * 72 + 4 * i) with (len pre + Z.of_nat (Z.to_nat i) * struct_size [4%nat])
    by (unfold pre; rewrite len_app, len_gain_header, len_planes; change (struct_size [4%nat]) with 4; lia).
  rewrite <-(app_nil_r (pre ++ _)), <-app_assoc.
  erewrite read_struct_table; [|apply gains_fit|by rewrite list_lookup_fmap, Hg]. done.
Qed.

Lemma read_planes :
  foldM (λ acc i, p ← read_plane blob i; Ok (acc ++ [p])) [] (seqZ 0 (len maps)) = Ok planes.
Proof using Hpad Hcfa Hmaps Hcount.
  replace (len maps) with (len planes) by (unfold len; by rewrite length_planes_from).
  rewrite foldM_collect; [done|]. intros j p Hp. by apply read_plane_at.
Qed.

Lemma planes_accepted : forallb (plane_fits (u64 (len blob - 24 - u64 (len maps * 72)))) planes = true.
Proof using Hpad Hcfa Hmaps Hcount.
  apply forallb_forall. intros p Hp%list_elem_of_In. apply list_elem_of_lookup in Hp as [i Hp].
  destruct (planes_from_lookup maps 0 i p ltac:(lia) Hp) as (m & Hm & Heq & Hlo & Hhi & _).
  assert (parsed_ok m) as ((_ & Hv & Hh & Hl) & _ & Hg) by (by eapply Forall_lookup_1 in Hm).
  pose proof gains_small. pose proof (len_nonneg (gain m)). rewrite len_blob, (u64_small (len maps * 72)) by lia.
  rewrite u64_small by lia. unfold plane_fits. rewrite Heq. simpl. rewrite (u32_small (len _)) by lia.
  rewrite u64_small by lia. rewrite !(proj2 (Z.eqb_neq _ 0)) by nia. simpl. rewrite (proj2 (Z.ltb_ge _ _)) by lia. done.
Qed.

End Packed.

(** ** The planes of a validated set *)

Lemma see_planes maps : ∀ seen seen' (past : list Z),
  length seen = 4%nat → (∀ p, p ∈ past → 0 ≤ p < 4 ∧ seen !! Z.to_nat p = Some true) → NoDup past →
  Forall (λ m, 0 ≤ plane m) maps → foldM see_plane seen maps = Ok seen' →
  NoDup (past ++ (plane <$> maps)) ∧ ∀ p, p ∈ past ++ (plane <$> maps) → 0 ≤ p < 4.
Proof.
  induction maps as [|m maps IH]; intros seen seen' past Hl Hd Hnd Hp Hf.
  { rewrite app_nil_r. split; [exact Hnd|]. intros p Hp'. apply (Hd p Hp'). }
  apply Forall_cons in Hp as [Hm Hp]. cbn [foldM] in Hf.
  destruct (see_plane seen m) as [seen1| | |] eqn:H1; [|done..]. rewrite Ok_bind in Hf. unfold see_plane in H1.
  destruct (planes m =? 4); [|done]. destruct (Z.leb_spec 4 (plane m)); [done|].
  destruct (seen !! Z.to_nat (plane m)) as [[]|] eqn:Hs; [done| |apply lookup_ge_None in Hs; lia].
  simpl in H1. injection H1 as <-. rewrite fmap_cons.
  change (plane m :: (plane <$> maps)) with ([plane m] ++ (plane <$> maps)).
  rewrite app_assoc. eapply IH; [..|exact Hp|exact Hf]; [by rewrite length_insert| |].
  - intros p Hpast. apply elem_of_app in Hpast as [Hin|Hin%list_elem_of_singleton]; [|subst p].
    + destruct (Hd p Hin) as [Hr Hlk]. split; [exact Hr|]. rewrite list_lookup_insert_ne; [exact Hlk|congruence].
    + split; [lia|]. apply list_lookup_insert_eq. lia.
  - apply NoDup_app. split_and!; [exact Hnd| |apply NoDup_singleton].
    intros p Hin Heq%list_elem_of_singleton. subst p. destruct (Hd _ Hin). congruence.
Qed.

(** A validated set is one map, or four maps that cover the four planes. *)
Lemma validated maps :
  Forall parsed_ok maps → validate_gain_maps maps = Ok tt →
  (∃ m, maps = [m]) ∨ (len maps = 4 ∧ ∀ p, 0 ≤ p < 4 → ∃ m, m ∈ maps ∧ plane m = p).
Proof.
  intros Hok Hv. destruct maps as [|m0 maps']; [done|]. unfold validate_gain_maps in Hv.
  set (maps := m0 :: maps') in *. destruct ((len maps =? 1) && (planes m0 =? 1) && (plane m0 =? 0)) eqn:E.
  { apply andb_true_iff in E as [[E _]%andb_true_iff _]. apply Z.eqb_eq in E. left. exists m0. unfold maps.
    destruct maps'; [done|]. unfold len in E. simpl in E. lia. }
  destruct (Z.eqb_spec (len maps) 4) as [H4|]; [|done]. cbn [negb] in Hv. right. split; [done|].
  destruct (foldM see_plane (replicate 4 false) maps) as [seen| | |] eqn:Hf; try done.
  destruct (see_planes maps (replicate 4 false) seen []) as [Hnd Hin];
    [done|set_solver|constructor| |done|].
  { eapply Forall_impl; [exact Hok|]. intros m (_ & (H32 & _) & _). rewrite !Forall_cons in H32. unfold is_u in H32. lia. }
  simpl in Hnd, Hin. assert (Hperm : plane <$> maps ≡ₚ seqZ 0 4).
  { apply submseteq_length_Permutation.
    - apply NoDup_submseteq; [done|]. intros p Hp. apply elem_of_seqZ. specialize (Hin p Hp). lia.
    - rewrite length_fmap, length_seqZ. unfold len in H4. lia. }
  intros p Hp. assert (p ∈ plane <$> maps) as Hp' by (rewrite Hperm; apply elem_of_seqZ; lia).
  apply list_elem_of_fmap in Hp' as (m & -> & ?). by exists m.
Qed.

Lemma cfa_plane_range cfa_repeat x y : 0 ≤ x → 0 ≤ y → 0 ≤ cfa_plane cfa_repeat x y < 4.
Proof.
  intros Hx Hy. unfold cfa_plane. change 1 with (Z.ones 1). rewrite !Z.land_ones by lia.
  destruct (_ && _); Z.to_euclidean_division_equations; lia.
Qed.

(** The filter finds the plane of the map of a pixel. *)
Lemma select_map_found cfa_repeat maps x y :
  Forall parsed_ok maps → validate_gain_maps maps = Ok tt → 0 ≤ x → 0 ≤ y →
  ∃ i p m, select_map (len maps) cfa_repeat (planes_from 0 maps) x y = Some p ∧ planes_from 0 maps !! i = Some p ∧
    maps !! i = Some m ∧ map_of cfa_repeat maps x y m.
Proof.
  intros Hok Hv Hx Hy. unfold select_map, map_of.
  destruct (validated maps Hok Hv) as [[m ->]|[H4 Hall]].
  { exists 0%nat, (plane_of m 0), m. split_and!; [done..|]. by left. }
  rewrite (proj2 (Z.eqb_neq _ _)) by lia.
  destruct (Hall (cfa_plane cfa_repeat x y)) as (m & Hm & Hpl); [by apply cfa_plane_range|].
  destruct (List.find _ _) as [p|] eqn:Hf.
  - apply find_some in Hf as [Hp%list_elem_of_In Heq%Z.eqb_eq]. apply list_elem_of_lookup in Hp as [i Hp].
    destruct (planes_from_lookup maps 0 i p ltac:(lia) Hp) as (m' & Hm' & Hpe & _). exists i, p, m'. split_and!; [done..|].
    right. split; [by eapply list_elem_of_lookup_2|]. rewrite <-Heq, Hpe. done.
  - destruct (in_planes_from maps m 0 Hm) as (p & Hp & Hpp). exfalso.
    apply list_elem_of_In in Hp. apply (List.find_none _ _ Hf p), Z.eqb_neq in Hp. congruence.
Qed.

(** ** The gain of a pixel *)

Lemma shape_finite m :
  valid_required_shape m = true →
  (isfinite64 (map_origin_v m) = true ∧ isfinite64 (map_spacing_v m) = true ∧ gt_zero64 (map_spacing_v m) = true) ∧
  (isfinite64 (map_origin_h m) = true ∧ isfinite64 (map_spacing_h m) = true ∧ gt_zero64 (map_spacing_h m) = true).
Proof. unfold valid_required_shape. rewrite !andb_true_iff. tauto. Qed.

Lemma sample_gain_packed padding cfa_repeat cfa_pattern maps i p m x y :
  is_u 16 padding → cfa_ok cfa_repeat cfa_pattern → Forall parsed_ok maps → 0 < len maps ≤ 4 →
  planes_from 0 maps !! i = Some p → maps !! i = Some m → 0 ≤ x < 2 ^ 32 → 0 ≤ y < 2 ^ 32 →
  sample_gain (pack_gain_maps padding cfa_repeat cfa_pattern maps) (24 + u64 (len maps * 72)) p x y
  = Ok (bilinear m x y).
Proof.
  intros Hpad Hcfa Hmaps Hcount Hp Hm Hx Hy.
  destruct (planes_from_lookup maps 0 i p ltac:(lia) Hp) as (m' & Hm' & Hpe & Hlo & Hhi & Hk).
  rewrite Hm in Hm'. injection Hm' as <-.
  assert (parsed_ok m) as ((Hshape & Hv & Hh & Hl) & (H32 & _) & Hg) by (by eapply Forall_lookup_1 in Hm).
  rewrite !Forall_cons in H32. unfold is_u in H32. destruct (shape_finite m Hshape) as [(Hv1 & Hv2 & Hv3) (Hh1 & Hh2 & Hh3)].
  destruct (axis_in (map_origin_v m) (map_spacing_v m) (map_points_v m) y) as (Ey & Hyl & Hyh); [done..|lia|].
  destruct (axis_in (map_origin_h m) (map_spacing_h m) (map_points_h m) x) as (Ex & Hxl & Hxh); [done..|lia|].
  assert (Hat : ∀ r c, 0 ≤ r < map_points_v m → 0 ≤ c < map_points_h m →
    gain_at (pack_gain_maps padding cfa_repeat cfa_pattern maps) (24 + u64 (len maps * 72))
      (gp_gain_offset p + u32 (u32 (r * map_points_h m) + c)) = Ok (table m r c)).
  { intros r c Hr Hc. assert (0 ≤ r * map_points_h m + c < len (gain m)) by nia.
    rewrite (u32_small (r * _)), u32_small by nia. specialize (Hk (r * map_points_h m + c) ltac:(done)).
    rewrite Z.sub_0_r in Hk. destruct (lookup_lt_is_Some_2 (gain m) (Z.to_nat (r * map_points_h m + c))) as [g Hgk];
      [unfold len in *; lia|].
    unfold table. rewrite Hgk in *. by apply read_gain_at; [..|lia|]. }
  unfold sample_gain. rewrite Hpe. simpl gp_origin_v. simpl gp_spacing_v. simpl gp_points_v.
  simpl gp_origin_h. simpl gp_spacing_h. simpl gp_points_h. simpl gp_gain_offset. rewrite Ey, Ok_bind, Ex, Ok_bind.
  cbv zeta. rewrite !Hat by done. done.
Qed.

(** ** Float memory *)

Lemma write_struct_other (mem : bytes) off v j mem' :
  write_struct [4%nat] mem (4 * off) [v] = Ok mem' → 0 ≤ j → j ≠ off →
  read_struct [4%nat] mem' (4 * j) = read_struct [4%nat] mem (4 * j).
Proof.
  unfold write_struct, read_struct. change (struct_size [4%nat]) with 4.
  set (sb := struct_bytes [4%nat] [v]). assert (Hs : length sb = 4%nat) by done. clearbody sb.
  destruct ((0 <=? 4 * off) && (4 * off + 4 <=? len mem)) eqn:E; [|done]. intros [= <-] Hj Hne.
  apply andb_true_iff in E as [E1%Z.leb_le E2%Z.leb_le]. unfold len in E2.
  assert (Hl : len (take (Z.to_nat (4 * off)) mem ++ sb ++ drop (Z.to_nat (4 * off + 4)) mem) = len mem).
  { unfold len. rewrite !length_app, length_take, length_drop, Hs. lia. }
  rewrite Hl. destruct (_ && _); [|done]. unfold decode_fields. do 3 f_equal. apply list_eq. intros k.
  destruct (decide (k < 4)%nat); [|by rewrite !lookup_take_ge by lia]. rewrite !lookup_take_lt, !lookup_drop by done.
  destruct (decide (j < off)).
  - rewrite lookup_app_l by (rewrite length_take; lia). by rewrite lookup_take_lt by lia.
  - rewrite lookup_app_r by (rewrite length_take; lia). rewrite lookup_app_r by (rewrite length_take, Hs; lia).
    rewrite length_take, Hs, lookup_drop. f_equal. lia.
Qed.

Lemma write_struct_same (mem : bytes) off v :
  is_u 32 v → 0 ≤ off → 4 * off + 4 ≤ len mem →
  ∃ mem', write_struct [4%nat] mem (4 * off) [v] = Ok mem' ∧ len mem' = len mem ∧
    read_struct [4%nat] mem' (4 * off) = Ok [v].
Proof.
  intros Hv Ho Hl. unfold write_struct. change (struct_size [4%nat]) with 4. rewrite !(proj2 (Z.leb_le _ _)) by lia.
  eexists. split; [done|]. unfold len in Hl. split.
  - unfold len. rewrite !length_app, length_take, length_drop. change (length (struct_bytes [4%nat] [v])) with 4%nat. lia.
  - apply read_struct_at; [by constructor; [|constructor]|]. unfold len. rewrite length_take. lia.
Qed.

(** A dense single-channel image of floats. *)
Definition r32_buffer (width height : Z) (b : halide_buffer_t) : Prop :=
  hb_dim b = [mkHDim 0 width 1; mkHDim 0 height width].

Lemma dim_at_r32 width height b i :
  r32_buffer width height b → dim_at b i = of_option Undef ([mkHDim 0 width 1; mkHDim 0 height width] !! i).
Proof. intros Hb. unfold dim_at. by rewrite Hb. Qed.

Lemma plane_offset_in width height b x y :
  0 < width → 0 < height → width * height < 2 ^ 31 → r32_buffer width height b → in_image width height x y →
  plane_offset b x y = Ok (y * width + x) ∧ 0 ≤ y * width + x < width * height.
Proof.
  intros Hw Hh Hs Hb [Hx Hy]. assert (0 ≤ y * width + x < width * height) by nia. split; [|done].
  unfold plane_offset. rewrite (dim_at_r32 _ _ b 0 Hb), (dim_at_r32 _ _ b 1 Hb). simpl of_option. rewrite !Ok_bind.
  simpl hd_stride.
  assert (0 ≤ y * width) by nia. rewrite (imul32_Ok y width), Ok_bind by nia.
  rewrite (imul32_Ok x 1), Ok_bind by nia. rewrite iadd32_Ok by nia. f_equal. lia.
Qed.

(** ** The loop *)

Section Image.

Variables (nan_bits width height : Z) (input output : halide_buffer_t) (in_mem : bytes).
Hypothesis Hw : 0 < width.
Hypothesis Hh : 0 < height.
Hypothesis Hsize : width * height < 2 ^ 31.
Hypothesis Hin : r32_buffer width height input.
Hypothesis Hout : r32_buffer width height output.
Hypothesis Hok : bytes_ok in_mem.
Hypothesis Hlen : len in_mem = 4 * (width * height).

Variables (padding : Z) (cfa_repeat cfa_pattern : list Z) (maps : list GainMap).
Hypothesis Hpad : is_u 16 padding.
Hypothesis Hcfa : cfa_ok cfa_repeat cfa_pattern.
Hypothesis Hmaps : Forall parsed_ok maps.
Hypothesis Hvalid : validate_gain_maps maps = Ok tt.

(** The output sample of a pixel: the input sample times the gain of its map. *)
Definition shaded (out : bytes) (x y : Z) : Prop :=
  ∃ m v, map_of cfa_repeat maps x y m ∧ read_float_at in_mem (y * width + x) = Ok v ∧
    read_struct [4%nat] out (4 * (y * width + x)) = Ok [bits_of_float nan_bits (fmul v (bilinear m x y))].

Lemma valid_count : 0 < len maps ≤ 4.
Proof using Hmaps Hvalid. destruct (validated maps Hmaps Hvalid) as [[m ->]|[H4 _]]; [done|lia]. Qed.

Lemma read_float_in i : 0 ≤ i < width * height → ∃ v, read_float_at in_mem i = Ok v.
Proof using Hok Hlen.
  intros Hi. unfold read_float_at. destruct (read_struct_ok [4%nat] in_mem (4 * i)) as (l & -> & _);
    [done|lia|change (struct_size [4%nat]) with 4; lia|]. simpl. eauto.
Qed.

Local Abbreviation blob := (pack_gain_maps padding cfa_repeat cfa_pattern maps).
Local Abbreviation run := (gain_loop nan_bits input output in_mem blob (24 + u64 (len maps * 72)) (len maps) cfa_repeat
  (planes_from 0 maps)).

(** One pixel is written, the others keep their sample. *)
Lemma gain_pixel x y ps mem :
  in_image width height x y → len mem = 4 * (width * height) →
  ∃ mem', run ((x, y) :: ps) mem = run ps mem' ∧ len mem' = 4 * (width * height) ∧ shaded mem' x y ∧
    ∀ x' y', in_image width height x' y' → shaded mem x' y' → shaded mem' x' y'.
Proof using Hw Hh Hsize Hin Hout Hok Hlen Hpad Hcfa Hmaps Hvalid.
  intros Hp Hm. pose proof valid_count as Hcount. destruct Hp as [Hx Hy].
  destruct (plane_offset_in width height input x y Hw Hh Hsize Hin (conj Hx Hy)) as [Ei Hr].
  destruct (plane_offset_in width height output x y Hw Hh Hsize Hout (conj Hx Hy)) as [Eo _].
  assert (Hx32 : 0 ≤ x < 2 ^ 32) by nia. assert (Hy32 : 0 ≤ y < 2 ^ 32) by nia.
  destruct (select_map_found cfa_repeat maps x y) as (i & p & m & Hsel & Hpi & Hmi & Hof); [done|done|lia|lia|].
  destruct (read_float_in (y * width + x) Hr) as [v Hv].
  set (bits := bits_of_float nan_bits (fmul v (bilinear m x y))).
  destruct (write_struct_same mem (y * width + x) bits) as (mem' & Hwr & Hl' & Hrd);
    [by apply wrap_bound|lia|lia|]. exists mem'.
  assert (Hs : shaded mem' x y) by (by exists m, v). split_and!; [|lia|done|].
  - cbn [gain_loop]. rewrite (u32_small x), (u32_small y), Hsel, Ei, Ok_bind, Eo, Ok_bind, Hv, Ok_bind by done.
    rewrite (sample_gain_packed padding cfa_repeat cfa_pattern maps i p m x y), Ok_bind by done.
    fold bits. by rewrite Hwr, Ok_bind.
  - intros x' y' Hp' (m' & v' & Hm' & Hv' & Hrd'). destruct (decide (y' * width + x' = y * width + x)) as [Heq|Hne].
    + assert (x' = x ∧ y' = y) as [-> ->]; [|done]. destruct Hp' as [Hx' Hy'].
      destruct (Z.div_mod_unique width y' y x' x) as [-> ->]; [lia..|done].
    + exists m', v'. split_and!; [done..|].
      destruct (plane_offset_in width height output x' y' Hw Hh Hsize Hout Hp') as [_ Hr'].
      by rewrite (write_struct_other _ _ _ _ _ Hwr) by lia.
Qed.

Lemma gain_loop_shades ps : ∀ mem (past : list (Z * Z)),
  (∀ x y, (x, y) ∈ ps → in_image width height x y) → len mem = 4 * (width * height) →
  (∀ x y, (x, y) ∈ past → in_image width height x y ∧ shaded mem x y) →
  ∃ out, run ps mem = Ok (CPIPE_OK, out) ∧ len out = 4 * (width * height) ∧
    ∀ x y, (x, y) ∈ past ++ ps → shaded out x y.
Proof using Hw Hh Hsize Hin Hout Hok Hlen Hpad Hcfa Hmaps Hvalid.
  induction ps as [|[x y] ps IH]; intros mem past Hps Hm Hpast.
  { exists mem. split_and!; [done..|]. intros x y H. rewrite app_nil_r in H. by apply Hpast. }
  destruct (gain_pixel x y ps mem) as (mem' & -> & Hl & Hs & Hkeep); [apply Hps; set_solver|done|].
  destruct (IH mem' (past ++ [(x, y)])) as (out & Hrun & Hlo & Hall); [set_solver|done| |].
  { intros x' y' H. apply elem_of_app in H as [H|[= -> ->]%list_elem_of_singleton].
    - destruct (Hpast x' y' H) as [Hp' Hs']. split; [done|by apply Hkeep].
    - split; [apply Hps; set_solver|done]. }
  exists out. split_and!; [done..|]. intros x' y' H. apply Hall. set_solver.
Qed.

End Image.

(** ** Theorems *)

Lemma gainmap_pixels (nan_bits width height : Z) (input output : halide_buffer_t) (in_mem out_mem list2 : bytes)
    (padding : Z) (cfa_repeat cfa_pattern : list Z) (maps : list GainMap) :
  0 < width → 0 < height → width * height < 2 ^ 31 →
  r32_buffer width height input → r32_buffer width height output → bytes_ok in_mem →
  len in_mem = 4 * (width * height) → len out_mem = 4 * (width * height) →
  is_u 16 padding → cfa_ok cfa_repeat cfa_pattern →
  bytes_ok list2 → parse_gain_maps list2 = Ok maps → validate_gain_maps maps = Ok tt →
  ∃ out, lens_shading_gainmap_param nan_bits [(input, in_mem)] [(output, out_mem)]
      (Some (pack_gain_maps padding cfa_repeat cfa_pattern maps)) = Ok (CPIPE_OK, Some out) ∧
    len out = 4 * (width * height) ∧
    ∀ x y, in_image width height x y → ∃ m v, map_of cfa_repeat maps x y m ∧
      read_float_at in_mem (y * width + x) = Ok v ∧
      read_struct [4%nat] out (4 * (y * width + x)) = Ok [bits_of_float nan_bits (fmul v (bilinear m x y))].
Proof.
  intros Hw Hh Hs Hin Hout Hok Hl Hlo Hpad Hcfa Hb Hparse Hvalid.
  assert (Hmaps := returns_Ok _ _ _ (parse_gain_maps_returns list2 Hb) Hparse).
  assert (Hcount := valid_count maps Hmaps Hvalid).
  destruct (gain_loop_shades nan_bits width height input output in_mem Hw Hh Hs Hin Hout Hok Hl padding cfa_repeat
    cfa_pattern maps Hpad Hcfa Hmaps Hvalid (pixels width height) out_mem []) as (out & Hrun & Hlen & Hall);
    [by intros x y ?%pixels_in|done|set_solver|].
  exists out. split; [|split; [done|]].
  2: { intros x y Hp. apply (Hall x y). by apply pixels_in. }
  unfold lens_shading_gainmap_param, gain_image. rewrite len_blob by done. pose proof (len_nonneg (all_gains maps)).
  rewrite (proj2 (Z.ltb_ge _ _)), read_header, Ok_bind by (done || lia). cbv zeta.
  change (field (u32 (len maps) :: _) 0) with (u32 (len maps)). rewrite (u32_small (len maps)) by lia.
  rewrite (proj2 (Z.eqb_neq _ _)), (proj2 (Z.ltb_ge 4 _)) by lia. cbn [orb].
  rewrite (u64_small (24 + _)) by (rewrite u64_small by lia; lia).
  rewrite (proj2 (Z.ltb_ge _ _)) by (rewrite u64_small by lia; lia).
  rewrite read_planes, Ok_bind, <-(len_blob padding cfa_repeat cfa_pattern maps), planes_accepted by done. cbn [negb].
  rewrite (dim_at_r32 _ _ input 0 Hin), (dim_at_r32 _ _ input 1 Hin). simpl of_option. rewrite !Ok_bind. simpl hd_extent.
  destruct Hcfa as (H2 & _). destruct cfa_repeat as [|c0 [|c1 []]]; try done.
  change (field (_ :: [c0; c1] ++ _) 1) with c0. change (field (_ :: [c0; c1] ++ _) 2) with c1. by rewrite Hrun.
Qed.

(** ** Example data *)

Definition example_r32_buffer : halide_buffer_t :=
  mkHalide 0 (mkHType halide_type_float 32) false [mkHDim 0 2 1; mkHDim 0 1 2].

(** Two samples of 1.0. *)
Definition example_r32 : bytes := [0; 0; 128; 63; 0; 0; 128; 63].

Definition example_block : bytes := pack_gain_maps 0 [2; 2] (replicate 16 0) [example_map].
