(* ===== verification/Sdk.v ===== *)
(** * The plugin SDK

    Models src/include/cpipe/sdk/sdk.hpp, the C++ layer between a node and the
    host suites ([HostContext], [ComputeContext]): the wrappers of buffers, metadata,
    builders, parameters and the compute context, and [dispatch], the entry point
    of a plugin.  [Result<T>] is [res]: [Fail code message] is an unexpected
    [Error].  A call works on a [World]: the shared buffers, the metadata builders
    and the live node objects.

    The theorems: the views of a buffer's metadata are complete and exact, although
    they are read in two steps through a C interface; and the life cycle of a node
    object through [dispatch]. *)

From Stdlib Require Import ZArith Lia SpecFloat.
From stdpp Require Import prelude strings list gmap.
From S2P Require Import Prelude Core Json HostContext Float32 Float64 ComputeContext LensFilter StateRes.

Local Open Scope Z_scope.

(** ** The state of a call *)

Record World : Type := mkWorld {
  w_store : store;
  w_builders : list cpipe_metadata_builder_s;
  w_instances : gset nat
}.

Definition with_store (w : World) (st : store) : World := mkWorld st (w_builders w) (w_instances w).
Definition with_builders (w : World) (bs : list cpipe_metadata_builder_s) : World :=
  mkWorld (w_store w) bs (w_instances w).
Definition with_instances (w : World) (is_ : gset nat) : World := mkWorld (w_store w) (w_builders w) is_.

Abbreviation sdk := (sr World).

(** The status of a suite call with the message of the wrapper. *)
Definition expect {A} (m : res A) (message : string) : res A :=
  match m with Fail st _ => Fail st message | _ => m end.

(** [static_cast<cpipe_status_t>]: a value that is no enumerator has no
    counterpart here. *)
Definition status_of_int (z : Z) : res cpipe_status_t :=
  of_option Undef (List.find (λ s, status_int s =? z)
    [CPIPE_OK; CPIPE_FAILED; CPIPE_REPLY_DEFAULT; CPIPE_OOM; CPIPE_BAD_PRECISION; CPIPE_BAD_INDEX;
     CPIPE_NEED_PARAM; CPIPE_INTERNAL_ERROR; CPIPE_UNSUPPORTED; CPIPE_NEED_METADATA; CPIPE_NOT_IMPLEMENTED]).

(** ** Buffers *)

(** A handle pointer, null or not; the handle shares a buffer of the store or
    nothing. *)
Abbreviation handle := (option (option nat)).

Record Buffer : Type := mkSdkBuffer {
  sb_impl : handle;
  sb_suite : option suite;
  sb_metadata_suite : option suite
}.

Definition handle_of (w : World) (impl : handle) : option cpipe_buffer_s :=
  option_map (λ b, make_buffer_handle (b ≫= λ loc, w_store w !! loc)) impl.

(** The buffer behind a handle after a suite call. *)
Definition store_back (impl : handle) (h : cpipe_buffer_s) (w : World) : World :=
  match impl, bh_buffer h with
  | Some (Some loc), Some b => with_store w (<[loc := b]> (w_store w))
  | _, _ => w
  end.

Definition null {A} (o : option A) : bool := match o with None => true | Some _ => false end.

Definition buffer_call {A} (b : Buffer) (f : option cpipe_buffer_s → res A) (message : string) : sdk A := λ w,
  (if null (sb_suite b) || null (sb_impl b) then Fail CPIPE_BAD_INDEX "buffer suite unavailable"
   else expect (f (handle_of w (sb_impl b))) message, w).

Definition buffer_dims (b : Buffer) : sdk (list Z) :=
  '(n, raw) ← buffer_call b (λ h, get_dims h false false) "get_dims failed";
  mret (take (Z.to_nat n) raw).

Definition buffer_format (b : Buffer) : sdk Z := buffer_call b (λ h, get_format h false) "get_format failed".

(** The pointer is the location whose memory it points to. *)
Definition buffer_lock_cpu (b : Buffer) (access : Z) : sdk nat := λ w,
  if null (sb_suite b) || null (sb_impl b) then (Fail CPIPE_BAD_INDEX "buffer suite unavailable", w) else
  match host_lock_cpu (handle_of w (sb_impl b)) access false with
  | Ok (data, h) =>
      let w := store_back (sb_impl b) h w in
      match data, sb_impl b with
      | Some _, Some (Some loc) => (Ok loc, w)
      | _, _ => (Fail CPIPE_OK "lock_cpu failed", w)
      end
  | Fail st _ => (Fail st "lock_cpu failed", w)
  | Thrown e => (Thrown e, w)
  | Undef => (Undef, w)
  end.

Definition buffer_unlock_cpu (b : Buffer) : sdk unit := λ w,
  if null (sb_suite b) || null (sb_impl b) then (Fail CPIPE_BAD_INDEX "buffer suite unavailable", w) else
  match host_unlock_cpu (handle_of w (sb_impl b)) with
  | Ok h => (Ok tt, store_back (sb_impl b) h w)
  | Fail st _ => (Fail st "unlock_cpu failed", w)
  | Thrown e => (Thrown e, w)
  | Undef => (Undef, w)
  end.

Definition buffer_flush_cpu_writes (b : Buffer) : sdk unit :=
  buffer_call b host_flush_cpu_writes "flush_cpu_writes failed".

(** ** Metadata *)

Record SdkMetadata : Type := mkSdkMetadata {
  sm_impl : option cpipe_metadata_s;
  sm_suite : option suite
}.

(** A null pointer when there is no metadata.  The function is [noexcept]: an
    exception ends the process. *)
Definition buffer_metadata (b : Buffer) : sdk (option SdkMetadata) := λ w,
  (match sb_suite b, sb_metadata_suite b with
   | Some _, Some _ =>
       match get_metadata (handle_of w (sb_impl b)) false with
       | Ok (Some m, _) => Ok (Some (mkSdkMetadata (Some m) (sb_metadata_suite b)))
       | Ok (None, _) | Fail _ _ => Ok None
       | Thrown _ => Thrown aborted
       | Undef => Undef
       end
   | _, _ => Ok None
   end, w).

Record CalibrationView : Type := mkCalibrationView {
  has_cfa : bool;
  cfa_repeat : list Z;
  cfa_pattern : list Z;
  view_black_level : list float32;
  view_white_level : Z;
  view_linearization_table : list Z;
  view_color_matrix1 : option Matrix3;
  view_color_matrix2 : option Matrix3;
  view_forward_matrix1 : option Matrix3;
  view_forward_matrix2 : option Matrix3;
  view_illuminant1 : Z;
  view_illuminant2 : Z;
  view_noise_profile : list (float32 * float32)
}.

Definition no_metadata_suite {A} (m : SdkMetadata) (k : res A) : res A :=
  if null (sm_suite m) || null (sm_impl m) then Fail CPIPE_NEED_METADATA "metadata suite unavailable" else k.

(** [vector.resize(n)]: truncate, or append value-initialised elements. *)
Definition resize_with {A} (d : A) (n : nat) (l : list A) : list A := take n l ++ replicate (n - length l) d.

(** The count is asked for first, then the pairs; [a[i]] and [b[i]] outside the
    vectors are undefined. *)
Definition fill_noise_profile (m : SdkMetadata) : res (list (float32 * float32)) :=
  '(total, _) ← expect (get_noise_profile (sm_impl m) 0 false true true) "get_noise_profile count failed";
  '(total', ab) ← (if (0 <? total)%nat
    then '(n, pairs) ← expect (get_noise_profile (sm_impl m) total false false false) "get_noise_profile read failed";
         Ok (n, resize_with (f_zero, f_zero) total pairs)
    else Ok (total, []));
  if (total' <=? length ab)%nat then Ok (take total' ab) else Undef.

Definition fill_linearization_table (m : SdkMetadata) (raw : cpipe_calibration_view) : res (list Z) :=
  if negb (cv_has_linearization_table raw) then Ok [] else
  '(total, _) ← expect (get_linearization_table (sm_impl m) 0 false true) "get_linearization_table count failed";
  if (0 <? total)%nat
  then '(n, values) ← expect (get_linearization_table (sm_impl m) total false false)
         "get_linearization_table read failed";
       Ok (resize_with 0 n (resize_with 0 total values))
  else Ok [].

Definition metadata_calibration (m : SdkMetadata) : res CalibrationView :=
  no_metadata_suite m (
    raw ← expect (get_calibration (sm_impl m) false) "get_calibration failed";
    let cfa := default (replicate 2 0, replicate 16 0) (cv_cfa raw) in
    noise ← fill_noise_profile m;
    table ← fill_linearization_table m raw;
    Ok (mkCalibrationView (negb (null (cv_cfa raw))) cfa.1 cfa.2 (cv_black_level raw) (cv_white_level raw) table
      (cv_color_matrix1 raw) (cv_color_matrix2 raw) (cv_forward_matrix1 raw) (cv_forward_matrix2 raw)
      (cv_calibration_illuminant1 raw) (cv_calibration_illuminant2 raw) noise)).

(** [CaptureView]: the neutral only. *)
Definition metadata_capture (m : SdkMetadata) : res (list float32) :=
  no_metadata_suite m (raw ← expect (get_capture (sm_impl m) false) "get_capture failed"; Ok (cp_as_shot_neutral raw)).

(** The wrappers that cannot fail give an empty value instead. *)
Definition or_value {A} (d : A) (m : res A) : res A := match m with Fail _ _ => Ok d | _ => m end.

(** The value, or nothing when the call fails. *)
Definition found {A} (m : res A) : res (option A) :=
  match m with Ok a => Ok (Some a) | Fail _ _ => Ok None | Thrown e => Thrown e | Undef => Undef end.

(** An exception that reaches a [noexcept] function ends the process. *)
Definition noexcept {A} (m : res A) : res A := match m with Thrown _ => Thrown aborted | _ => m end.

Definition metadata_cs_role (m : SdkMetadata) : res string :=
  if null (sm_suite m) || null (sm_impl m) then Ok "" else noexcept (or_value "" (get_cs_role (sm_impl m) false)).

Definition metadata_active_area (m : SdkMetadata) : res (option Rect2u) :=
  if null (sm_suite m) || null (sm_impl m) then Ok None else
  match get_active_area (sm_impl m) false with
  | Ok (x, y, width, height) => Ok (if (width =? 0) || (height =? 0) then None else Some (mkRect x y width height))
  | Fail _ _ => Ok None
  | Thrown _ => Thrown aborted
  | Undef => Undef
  end.

(** An empty blob counts as missing, with the status of the call. *)
Definition metadata_blob (m : SdkMetadata) (key : string) : res bytes :=
  no_metadata_suite m (
    '(blob, size) ← expect (get_blob (sm_impl m) (Some key) false false) "metadata blob missing";
    if size =? 0 then Fail CPIPE_OK "metadata blob missing" else Ok (take (Z.to_nat size) blob)).

Definition metadata_has_step (m : SdkMetadata) (step : string) : res bool :=
  if null (sm_suite m) || null (sm_impl m) then Ok false else
  noexcept (or_value false (out ← has_applied_step (sm_impl m) (Some step) false; Ok (negb (out =? 0)))).

(** [raw] has one entry per announced step; entries the second call leaves alone
    are null and skipped. *)
Definition metadata_applied_steps (m : SdkMetadata) : res (list string) :=
  if null (sm_suite m) || null (sm_impl m) then Ok [] else
  or_value [] (
    '(total, _) ← list_applied_steps (sm_impl m) 0 false true;
    if (total =? 0)%nat then Ok [] else
    '(_, steps) ← list_applied_steps (sm_impl m) total false false;
    Ok (omap id (resize_with None total (Some <$> steps)))).

(** ** Metadata builders *)

Record SdkBuilder : Type := mkSdkBuilder { sbu_impl : option nat; sbu_suite : option suite }.

Definition builder_call (b : SdkBuilder) (f : option cpipe_metadata_builder_s → res cpipe_metadata_builder_s)
    (message : string) : sdk unit := λ w,
  if null (sbu_suite b) || null (sbu_impl b)
  then (Fail CPIPE_UNSUPPORTED "metadata builder suite unavailable", w) else
  match f (sbu_impl b ≫= λ u, w_builders w !! u) with
  | Ok h => (Ok tt, match sbu_impl b with Some u => with_builders w (<[u := h]> (w_builders w)) | None => w end)
  | Fail st _ => (Fail st message, w)
  | Thrown e => (Thrown e, w)
  | Undef => (Undef, w)
  end.

Definition builder_set_cs_role (b : SdkBuilder) (role : string) : sdk unit :=
  builder_call b (λ h, host_set_cs_role h (Some role)) "set_cs_role failed".
Definition builder_add_applied_step (b : SdkBuilder) (step : string) : sdk unit :=
  builder_call b (λ h, host_add_applied_step h (Some step)) "add_applied_step failed".
(** [bytes.data()] of an empty span may be null: no byte is read through it. *)
Definition builder_set_blob (b : SdkBuilder) (key : string) (bs : bytes) : sdk unit :=
  builder_call b (λ h, host_set_blob h (Some key) (Some bs) (length bs)) "set_blob failed".
Definition builder_set_as_shot_neutral (b : SdkBuilder) (neutral : list float32) : sdk unit :=
  builder_call b (λ h, host_set_as_shot_neutral h (Some neutral)) "set_as_shot_neutral failed".
Definition builder_clear_cfa (b : SdkBuilder) : sdk unit := builder_call b host_clear_cfa "clear_cfa failed".
Definition builder_set_cfa (b : SdkBuilder) (repeat pattern : list Z) : sdk unit :=
  builder_call b (λ h, host_set_cfa h (Some repeat) (Some pattern)) "set_cfa failed".

(** ** The compute context *)

Record SdkCompute : Type := mkSdkCompute { sc_impl_null : bool; sc_suite : option suite }.

(** [input->impl()] of each buffer; a null pointer is dereferenced. *)
Definition raw_handles (buffers : list (option Buffer)) : res (list handle) :=
  foldM (λ acc b, match b with Some b => Ok (acc ++ [sb_impl b]) | None => Undef end) [] buffers.

(** The status of a submission and the store it leaves. *)
Definition submitted (m : res (Z * store)) (message : string) : sdk unit := λ w,
  match m with
  | Ok (status, st) =>
      match status_of_int status with
      | Ok CPIPE_OK => (Ok tt, with_store w st)
      | Ok code => (Fail code message, with_store w st)
      | _ => (Undef, with_store w st)
      end
  | Fail st _ => (Fail st message, w)
  | Thrown e => (Thrown e, w)
  | Undef => (Undef, w)
  end.

Section Compute.

Variable filters : HalideFilterRegistry.

Definition compute_submit_halide (c : SdkCompute) (aot_id : string) (inputs outputs : list (option Buffer)) : sdk unit :=
  if null (sc_suite c) then failS CPIPE_UNSUPPORTED "compute suite unavailable" else
  raw_inputs ← lift (raw_handles inputs);
  raw_outputs ← lift (raw_handles outputs);
  st ← gets w_store;
  submitted (host_submit_halide (sc_impl_null c) filters (Some aot_id) raw_inputs raw_outputs st)
    "submit_halide failed".

Definition compute_submit_halide_with_params (c : SdkCompute) (aot_id : string) (inputs outputs : list (option Buffer))
    (param_blob : bytes) : sdk unit :=
  if null (sc_suite c) then failS CPIPE_UNSUPPORTED "compute suite params unavailable" else
  raw_inputs ← lift (raw_handles inputs);
  raw_outputs ← lift (raw_handles outputs);
  st ← gets w_store;
  submitted (host_submit_halide_with_params (sc_impl_null c) filters (Some aot_id) raw_inputs raw_outputs
    (Some param_blob) (length param_blob) st) "submit_halide_with_params failed".

End Compute.

(** ** Parameters *)

Section Params.

Context `{JsonLib}.

Record ParamView : Type := mkParamView { pv_impl : option json; pv_suite : option suite }.

Definition no_params (p : ParamView) : bool := null (pv_suite p) || null (pv_impl p).

Definition param_string (p : ParamView) (key : string) : res string :=
  if no_params p then Fail CPIPE_NEED_PARAM "param suite unavailable"
  else expect (get_param_enum (pv_impl p) (Some key) false) "string param missing".

(** The helpers of nodes/ParamUtils.hpp. *)
Definition param_double_or (p : ParamView) (key : string) (fallback : float64) : res float64 :=
  if no_params p then Ok fallback else or_value fallback (get_param_double (pv_impl p) (Some key) false).

(** [std::clamp] on [float]: a NaN passes through. *)
Definition clamp_float (v lo hi : float32) : float32 := if SFltb v lo then lo else if SFltb hi v then hi else v.

Definition clamped_param_float_or (p : ParamView) (key : string) (fallback min_value max_value : float32)
    : res float32 :=
  v ← param_double_or p key (to_f64 fallback);
  Ok (clamp_float (to_f32 v) min_value max_value).

(** [static_cast<int>]: the truncated value, undefined when it is no [int]. *)
Definition int_of_double (v : float64) : res Z :=
  z ← to_int64 v; if (- 2 ^ 31 <=? z) && (z <? 2 ^ 31) then Ok z else Undef.

Definition clamped_param_int_or (p : ParamView) (key : string) (fallback min_value max_value : Z) : res Z :=
  v ← param_double_or p key (f64 fallback 0);
  i ← int_of_double v;
  Ok (clamp_int i min_value max_value).

Definition param_bool_or (p : ParamView) (key : string) (fallback : bool) : res bool :=
  if no_params p then Ok fallback
  else or_value fallback (v ← get_param_bool (pv_impl p) (Some key) false; Ok (negb (v =? 0))).

Definition param_string_or (p : ParamView) (key fallback : string) : res string :=
  if no_params p then Ok fallback else or_value fallback (get_param_enum (pv_impl p) (Some key) false).

(** ** The entry point of a plugin *)

(** A node class: its overridden methods.  The inference context has no operations. *)
Class NodeClass : Type := {
  node_create : ParamView → sdk unit;
  node_prepare : SdkCompute → ParamView → sdk unit;
  node_process : SdkCompute → ParamView → list (option Buffer) → list (option Buffer) →
    list (option SdkBuilder) → sdk unit
}.

Record cpipe_process_ctx : Type := mkProcessCtx {
  px_compute_null : bool;
  px_inputs : list handle;
  px_outputs : list handle;
  px_out_metadata : option (list (option nat))
}.

(** What a [void*] context points to. *)
Inductive context_ptr : Type :=
| CtxNull
| CtxInstance (i : nat)
| CtxCompute
| CtxProcess (c : cpipe_process_ctx).

(** [detail::get_suite]. *)
Definition sdk_get_suite (host_null : bool) (name : string) : option suite :=
  if host_null then None else get_suite false name 1.

(** [new T()] and [delete]. *)
Definition new_instance : sdk nat := λ w,
  let i := fresh (w_instances w) in (Ok i, with_instances w ({[i]} ∪ w_instances w)).
Definition delete_instance (p : option nat) : sdk unit := λ w,
  match p with
  | None => (Ok tt, w)
  | Some i => if decide (i ∈ w_instances w) then (Ok tt, with_instances w (w_instances w ∖ {[i]})) else (Undef, w)
  end.

(** A member call on a pointer. *)
Definition on_instance (p : option nat) (m : sdk unit) : sdk unit := λ w,
  match p with
  | Some i => if decide (i ∈ w_instances w) then m w else (Undef, w)
  | None => (Undef, w)
  end.

Definition result_to_status (m : sdk unit) : sdk cpipe_status_t := r ← attempt m; mret r.1.

(** The views of the builders: [out_metadata] has an entry per output. *)
Definition builder_views (c : cpipe_process_ctx) (s : option suite) : res (list (option SdkBuilder)) :=
  match px_out_metadata c with
  | None => Ok []
  | Some l =>
      if (length (px_outputs c) <=? length l)%nat
      then Ok ((λ b, Some (mkSdkBuilder b s)) <$> take (length (px_outputs c)) l) else Undef
  end.

Section Dispatch.

Context {T : NodeClass}.

Definition dispatch_create (pv : ParamView) (out_ctx_null : bool) : sdk (cpipe_status_t * option nat) :=
  instance ← new_instance;
  status ← result_to_status (node_create pv);
  if decide (status ≠ CPIPE_OK) then _ ← delete_instance (Some instance); mret (status, None) else
  if out_ctx_null then lift Undef else mret (CPIPE_OK, Some instance).

Definition dispatch_destroy (in_ctx : context_ptr) : sdk (cpipe_status_t * option nat) :=
  match in_ctx with
  | CtxNull => _ ← delete_instance None; mret (CPIPE_OK, None)
  | CtxInstance i => _ ← delete_instance (Some i); mret (CPIPE_OK, None)
  | _ => lift Undef
  end.

Definition dispatch_prepare (host_null : bool) (node : option nat) (pv : ParamView) (in_ctx : context_ptr)
    : sdk (cpipe_status_t * option nat) :=
  compute_null ← lift (match in_ctx with CtxNull => Ok true | CtxCompute => Ok false | _ => Undef end);
  status ← result_to_status (on_instance node
    (node_prepare (mkSdkCompute compute_null (sdk_get_suite host_null "compute")) pv));
  mret (status, None).

Definition dispatch_process (host_null : bool) (node : option nat) (pv : ParamView) (in_ctx : context_ptr)
    : sdk (cpipe_status_t * option nat) :=
  match in_ctx with
  | CtxProcess c =>
      let compute := mkSdkCompute (px_compute_null c) (sdk_get_suite host_null "compute") in
      let view (b : handle) :=
        Some (mkSdkBuffer b (sdk_get_suite host_null "buffer") (sdk_get_suite host_null "metadata")) in
      builders ← lift (builder_views c (sdk_get_suite host_null "metadata_builder"));
      status ← result_to_status (on_instance node
        (node_process compute pv (view <$> px_inputs c) (view <$> px_outputs c) builders));
      mret (status, None)
  | _ => lift Undef
  end.

(** The status, and the pointer stored through [out_ctx]. *)
Definition dispatch (action : string) (host_null : bool) (node : option nat) (params : option json)
    (in_ctx : context_ptr) (out_ctx_null : bool) : sdk (cpipe_status_t * option nat) :=
  catchS (
    let pv := mkParamView params (sdk_get_suite host_null "param") in
    if String.eqb action "describe" then mret (CPIPE_REPLY_DEFAULT, None) else
    if String.eqb action "create" then dispatch_create pv out_ctx_null else
    if String.eqb action "destroy" then dispatch_destroy in_ctx else
    if String.eqb action "prepare" then dispatch_prepare host_null node pv in_ctx else
    if String.eqb action "process" then dispatch_process host_null node pv in_ctx else
    mret (CPIPE_REPLY_DEFAULT, None))
  (λ _, mret (CPIPE_INTERNAL_ERROR, None)).

End Dispatch.

End Params.

(** ** The views are exact *)

Lemma resize_exact {A} (d : A) (l : list A) : resize_with d (length l) l = l.
Proof. unfold resize_with. by rewrite firstn_all, Nat.sub_diag, app_nil_r. Qed.

(** Asking for the count and then for that many values gives all of them. *)
Lemma copy_out_all {A} (l : list A) : copy_out (length l) l = (length l, l).
Proof. unfold copy_out. by rewrite Nat.min_id, firstn_all. Qed.

Lemma copy_out_none {A} (l : list A) : copy_out 0 l = (length l, []).
Proof. done. Qed.

Definition view_of_calibration (c : CalibrationBlock) : CalibrationView :=
  let cfa := default (mkCFA (replicate 2 0) (replicate 16 0)) (cfa c) in
  mkCalibrationView (bool_decide (is_Some (Core.cfa c))) (repeat cfa) (pattern cfa) (black_level c) (white_level c)
    (default [] (linearization_table c)) (color_matrix1 c) (color_matrix2 c) (forward_matrix1 c) (forward_matrix2 c)
    (calibration_illuminant1 c) (calibration_illuminant2 c) (noise_profile c).

Definition empty_view : CalibrationView :=
  mkCalibrationView false (replicate 2 0) (replicate 16 0) (replicate 4 f_zero) 0 [] None None None None 0 0 [].

Section Views.

Variables (m : BufferMetadata) (s : suite).
Local Abbreviation v := (mkSdkMetadata (Some (Some m)) (Some s)).

Lemma fill_noise_exact :
  fill_noise_profile v = Ok (match calibration m with Some c => noise_profile c | None => [] end).
Proof.
  unfold fill_noise_profile, get_noise_profile. change (0 <? 0)%nat with false. cbn [sm_impl metadata_from_handle mbind option_bind orb andb].
  destruct (calibration m) as [c|]; [|done]. rewrite copy_out_none. cbn [expect mbind res_bind].
  destruct (noise_profile c) as [|p l] eqn:E; [done|]. rewrite <-E.
  destruct (Nat.ltb_spec 0 (length (noise_profile c))) as [|Hc]; [|rewrite E in Hc; simpl in Hc; lia].
  cbn [orb andb]. rewrite copy_out_all. cbn [expect mbind res_bind].
  rewrite resize_exact, Nat.leb_refl.
  by rewrite firstn_all.
Qed.

Lemma fill_table_exact raw :
  cv_has_linearization_table raw = bool_decide (is_Some (calibration m ≫= linearization_table)) →
  fill_linearization_table v raw = Ok (default [] (calibration m ≫= linearization_table)).
Proof.
  unfold fill_linearization_table, get_linearization_table. intros ->.
  change (0 <? 0)%nat with false. cbn [sm_impl metadata_from_handle mbind option_bind orb andb].
  destruct (calibration m) as [c|]; [|done]. change (Some c ≫= linearization_table) with (linearization_table c).
  destruct (linearization_table c) as [l|]; [|done].
  simpl negb. rewrite copy_out_none. cbn [expect mbind res_bind default from_option].
  destruct l as [|z l]; [done|]. set (t := z :: l). destruct (Nat.ltb_spec 0 (length t)); [|unfold t in *; simpl in *; lia].
  cbn [orb andb]. rewrite copy_out_all. cbn [expect mbind res_bind]. by rewrite !resize_exact.
Qed.

Lemma calibration_exact :
  metadata_calibration v = Ok (match calibration m with Some c => view_of_calibration c | None => empty_view end).
Proof.
  unfold metadata_calibration, no_metadata_suite. cbn [sm_impl sm_suite null orb].
  unfold get_calibration. cbn [metadata_from_handle mbind option_bind].
  pose proof fill_noise_exact as Hn. pose proof fill_table_exact as Ht.
  destruct (calibration m) as [c|] eqn:E; cbn [expect mbind res_bind]; rewrite Hn; cbn [mbind res_bind];
    (rewrite Ht; [|done]); simpl; [|done].
  unfold view_of_calibration. by destruct (cfa c).
Qed.

Lemma applied_steps_exact : metadata_applied_steps v = Ok (applied_steps m).
Proof.
  unfold metadata_applied_steps, list_applied_steps. change (0 <? 0)%nat with false.
  cbn [sm_impl sm_suite null orb metadata_from_handle mbind option_bind andb].
  rewrite copy_out_none. cbn [mbind res_bind]. destruct (applied_steps m) as [|x l]; [done|]. set (t := x :: l).
  replace (length t =? 0)%nat with false by done. rewrite andb_false_r, copy_out_all. cbn [mbind res_bind or_value].
  f_equal. rewrite <-(length_fmap Some t), resize_exact. clearbody t. induction t as [|y t IH]; [done|]. cbn. f_equal. exact IH.
Qed.

Lemma has_step_exact step : metadata_has_step v step = Ok (bool_decide (step ∈ applied_steps m)).
Proof. unfold metadata_has_step. simpl. by case_bool_decide. Qed.

Lemma blob_exact key :
  metadata_blob v key = match find_blob m key with
    | None => Fail CPIPE_FAILED "metadata blob missing"
    | Some [] => Fail CPIPE_OK "metadata blob missing"
    | Some b => Ok b
    end.
Proof.
  unfold metadata_blob, no_metadata_suite, get_blob. cbn [sm_impl sm_suite null orb metadata_from_handle mbind option_bind].
  destruct (find_blob m key) as [[|x b]|]; [done| |done]. cbn [expect mbind res_bind].
  rewrite (proj2 (Z.eqb_neq _ _)) by (rewrite len_cons; pose proof (len_nonneg b); lia).
  unfold len. by rewrite Nat2Z.id, firstn_all.
Qed.

End Views.

(** the metadata a node sees through the C interface is the metadata of the
    buffer: the calibration view with the complete noise profile and linearization
    table although both are fetched with a count and then a copy, the applied
    steps in order, and the test for one step.  A blob is its bytes, except that an
    empty blob is reported as missing with the status [CPIPE_OK]. *)
Theorem metadata_views_exact (m : BufferMetadata) (s : suite) :
  let v := mkSdkMetadata (Some (Some m)) (Some s) in
  metadata_calibration v = Ok (match calibration m with Some c => view_of_calibration c | None => empty_view end) ∧
  metadata_applied_steps v = Ok (applied_steps m) ∧
  (∀ step, metadata_has_step v step = Ok (bool_decide (step ∈ applied_steps m))) ∧
  (∀ key, metadata_blob v key = match find_blob m key with
     | None => Fail CPIPE_FAILED "metadata blob missing"
     | Some [] => Fail CPIPE_OK "metadata blob missing"
     | Some b => Ok b
     end).
Proof.
  split_and!; [apply calibration_exact|apply applied_steps_exact|apply has_step_exact|apply blob_exact].
Qed.

(** ** The life of a node object *)

Section Session.

Context `{JsonLib} {T : NodeClass}.

(** A method that neither aborts the process nor is undefined, and leaves the
    other node objects alone. *)
Definition tame (m : sdk unit) : Prop := ∀ w,
  w_instances (m w).2 = w_instances w ∧ (m w).1 ≠ Thrown aborted ∧ (m w).1 ≠ Undef.

(** The calls the runtime makes for one node: the status of the node, and the
    status of its destruction when it was created. *)
Definition host_session (params : option json) (c : cpipe_process_ctx)
    : sdk (cpipe_status_t * option cpipe_status_t) :=
  created ← dispatch "create" false None params CtxNull false;
  match created.2 with
  | None => mret (created.1, None)
  | Some i =>
      processed ← dispatch "process" false (Some i) params (CtxProcess c) true;
      destroyed ← dispatch "destroy" false None None (CtxInstance i) true;
      mret (processed.1, Some destroyed.1)
  end.

(** What the caller of a method sees. *)
Definition seen_status (r : res unit) : cpipe_status_t :=
  match r with Ok _ => CPIPE_OK | Fail st _ => st | _ => CPIPE_INTERNAL_ERROR end.

Definition threw (r : res unit) : bool := match r with Thrown _ => true | _ => false end.

Lemma fresh_not_live w : fresh (w_instances w) ∉ w_instances w.
Proof. apply is_fresh. Qed.

(** [create] either stores a fresh object, or fails and frees it, or - when it
    throws - fails and does not free it. *)
Lemma dispatch_create_exact params w :
  let i := fresh (w_instances w) in
  let w1 := with_instances w ({[i]} ∪ w_instances w) in
  let r := node_create (mkParamView params (Some SuiteParam)) w1 in
  tame (node_create (mkParamView params (Some SuiteParam))) →
  dispatch "create" false None params CtxNull false w
  = (Ok (seen_status r.1, if decide (seen_status r.1 = CPIPE_OK) then Some i else None),
     if decide (seen_status r.1 = CPIPE_OK ∨ threw r.1 = true) then r.2 else with_instances r.2 (w_instances w)).
Proof.
  intros i w1 r Ht. specialize (Ht w1). fold r in Ht. destruct Ht as (Hi & Ha & Hu).
  unfold dispatch, catchS. cbn [String.eqb Ascii.eqb Bool.eqb]. unfold dispatch_create, mbind, sr_bind, new_instance.
  fold i w1. unfold result_to_status, mbind, sr_bind, attempt. fold r.
  pose proof (fresh_not_live w) as Hf. fold i in Hf. unfold sdk_get_suite. simpl get_suite.
  change (mkParamView params _) with (mkParamView params (Some SuiteParam)). fold r.
  destruct r as [[[]|st msg|e|] w2]; cbn [fst snd seen_status] in *; [done| | |done].
  - destruct (decide (st = CPIPE_OK)) as [->|Hst]; [done|]. cbn.
    rewrite decide_True by done. unfold delete_instance. rewrite Hi. cbn.
    rewrite !decide_True by set_solver. rewrite decide_False by (by intros [?|?]). cbn.
    do 3 f_equal. set_solver.
  - destruct e; try done; cbn; rewrite decide_True by by right; done.
Qed.

(** The arguments [process] gets. *)
Definition process_call (params : option json) (c : cpipe_process_ctx) (builders : list (option SdkBuilder)) : sdk unit :=
  let view (b : handle) := Some (mkSdkBuffer b (Some SuiteBuffer) (Some SuiteMetadata)) in
  node_process (mkSdkCompute (px_compute_null c) (Some SuiteCompute)) (mkParamView params (Some SuiteParam))
    (view <$> px_inputs c) (view <$> px_outputs c) builders.

(** [process] reports what the node returns, an exception as an internal error. *)
Lemma dispatch_process_exact i params c builders w :
  i ∈ w_instances w → builder_views c (Some SuiteMetadataBuilder) = Ok builders →
  (process_call params c builders w).1 ≠ Thrown aborted → (process_call params c builders w).1 ≠ Undef →
  dispatch "process" false (Some i) params (CtxProcess c) true w
  = (Ok (seen_status (process_call params c builders w).1, None), (process_call params c builders w).2).
Proof.
  intros Hi Hb Ha Hu. set (r := process_call params c builders w) in *.
  unfold dispatch, catchS. cbn [String.eqb Ascii.eqb Bool.eqb]. unfold dispatch_process, lift, mbind, sr_bind.
  change (sdk_get_suite false "metadata_builder") with (Some SuiteMetadataBuilder). rewrite Hb.
  unfold result_to_status, mbind, sr_bind, attempt, on_instance. rewrite decide_True by done.
  change (node_process _ _ _ _ _ w) with r.
  destruct r as [[[]|st msg|[]|] w2]; try done.
Qed.

Lemma dispatch_process_undef i params c builders w :
  i ∈ w_instances w → builder_views c (Some SuiteMetadataBuilder) = Ok builders →
  (process_call params c builders w).1 = Undef →
  (dispatch "process" false (Some i) params (CtxProcess c) true w).1 = Undef.
Proof.
  intros Hi Hb Hu. set (r := process_call params c builders w) in *.
  unfold dispatch, catchS. cbn [String.eqb Ascii.eqb Bool.eqb]. unfold dispatch_process, lift, mbind, sr_bind.
  change (sdk_get_suite false "metadata_builder") with (Some SuiteMetadataBuilder). rewrite Hb.
  unfold result_to_status, mbind, sr_bind, attempt, on_instance. rewrite decide_True by done.
  change (node_process _ _ _ _ _ w) with r. destruct r as [[] w2]; done.
Qed.

Lemma dispatch_destroy_exact i w :
  i ∈ w_instances w →
  dispatch "destroy" false None None (CtxInstance i) true w
  = (Ok (CPIPE_OK, None), with_instances w (w_instances w ∖ {[i]})).
Proof.
  intros Hi. unfold dispatch, catchS. cbn [String.eqb Ascii.eqb Bool.eqb]. unfold dispatch_destroy, mbind, sr_bind, delete_instance.
  by rewrite decide_True.
Qed.

(** C29: the life of a node object through the plugin's entry point.  Whatever the
    node's methods do short of undefined behaviour or an abort, the runtime's calls
    return: an exception becomes [CPIPE_INTERNAL_ERROR], the status of [process] is
    reported unchanged, and no node object is left behind - except when [create]
    throws, which leaks exactly the new object. *)
Theorem session_balanced (params : option json) (c : cpipe_process_ctx) (builders : list (option SdkBuilder)) (w : World) :
  builder_views c (Some SuiteMetadataBuilder) = Ok builders →
  tame (node_create (mkParamView params (Some SuiteParam))) → tame (process_call params c builders) →
  let i := fresh (w_instances w) in
  let created := node_create (mkParamView params (Some SuiteParam)) (with_instances w ({[i]} ∪ w_instances w)) in
  let processed := process_call params c builders created.2 in
  ∃ w', host_session params c w
    = (Ok (if decide (seen_status created.1 = CPIPE_OK) then (seen_status processed.1, Some CPIPE_OK)
           else (seen_status created.1, None)), w') ∧
    w_instances w' = if threw created.1 then {[i]} ∪ w_instances w else w_instances w.
Proof.
  intros Hb Hc Hp i created processed. destruct (Hc (with_instances w ({[i]} ∪ w_instances w))) as (Hi & Ha & _).
  fold created in Hi, Ha. pose proof (fresh_not_live w) as Hf. fold i in Hf.
  unfold host_session, mbind, sr_bind. rewrite dispatch_create_exact by done. fold i. fold created.
  destruct (decide (seen_status created.1 = CPIPE_OK)) as [Hok|Hok].
  - rewrite decide_True by (by left). cbn [snd]. destruct (Hp created.2) as (Hi' & Hpa & Hpu). fold processed in Hi'.
    rewrite (dispatch_process_exact i params c builders) by (done || (rewrite Hi; set_solver)). fold processed. cbn [fst].
    rewrite dispatch_destroy_exact by (rewrite Hi', Hi; set_solver). eexists. split; [done|].
    replace (threw created.1) with false by (by destruct created.1). simpl. rewrite Hi', Hi. cbn. set_solver.
  - eexists. split; [done|]. destruct (threw created.1) eqn:Et.
    + rewrite decide_True by (by right). exact Hi.
    + rewrite decide_False by (intros [?|?]; done). done.
Qed.

End Session.

(** ** Witness *)

(** A node whose [create] throws and one that does nothing. *)
Definition example_node (throws : bool) : NodeClass (H := Tree.lib (λ _, None)) := {|
  node_create := λ _, if throws then lift (Thrown bad_alloc) else mret tt;
  node_prepare := λ _ _, mret tt;
  node_process := λ _ _ _ _ _, failS CPIPE_FAILED "no"
|}.

Definition example_process : cpipe_process_ctx := mkProcessCtx false [] [] None.

(** A throwing [create] is reported and leaks its object; otherwise the failure of
    [process] is reported and nothing is left. *)
Lemma session_balanced_witness :
  let w := mkWorld [] [] ∅ in
  (∃ w', host_session (T := example_node true) None example_process w = (Ok (CPIPE_INTERNAL_ERROR, None), w') ∧
     w_instances w' = {[0%nat]}) ∧
  (∃ w', host_session (T := example_node false) None example_process w = (Ok (CPIPE_FAILED, Some CPIPE_OK), w') ∧
     w_instances w' = ∅).
Proof.
  intros w. split.
  - destruct (session_balanced (T := example_node true) None example_process [] w eq_refl) as (w' & Hs & Hi);
      [by intros ?; split_and!..|]. exists w'. split; [exact Hs|]. rewrite Hi. by vm_compute.
  - destruct (session_balanced (T := example_node false) None example_process [] w eq_refl) as (w' & Hs & Hi);
      [by intros ?; split_and!..|]. exists w'. split; [exact Hs|]. rewrite Hi. by vm_compute.
Defined.
