(* ===== verification/Nodes.v ===== *)
(** * The image nodes

    Models the [process] methods of the nodes under src/cpipe/nodes that take one
    image and give one: linearize, blacklevel, the lens nodes, the demosaic nodes,
    colormatrix, precision_convert, passthrough, and the denoise, tone and sharpen
    nodes.  A method checks its buffers, formats and metadata, builds the parameter
    block of its filter, submits the filter and records what it did in the metadata
    of the output; the checks, their order and their messages are the source's.
    The filters are those of the registry a [ComputeContext] is given.

    [node_contract] is the theorem about all of them. *)

From Stdlib Require Import ZArith Lia SpecFloat.
From stdpp Require Import prelude strings list gmap.
From S2P Require Import Prelude Core Json HalfFloat HostContext Float64 ComputeContext OpcodeReader.
From S2P Require Import OpcodeList2 OpcodeList3 LensBlob LensFilter GainFilter StateRes Sdk.

Local Open Scope Z_scope.

Local Abbreviation fadd := (SFadd 24 128).
Local Abbreviation fmul := (SFmul 24 128).

(** A decimal literal [n / d] with numerator and denominator below 2^24. *)
Definition f_lit (n d : Z) : float32 := SFdiv 24 128 (float_of_int n) (float_of_int d).

(** ** Shared checks *)

(** The guard most [process] methods start with. *)
Definition one_to_one (inputs outputs : list (option Buffer)) (out_metadata : list (option SdkBuilder)) (message : string)
    : res (Buffer * Buffer * SdkBuilder) :=
  match inputs, outputs, out_metadata with
  | [Some i], [Some o], Some u :: _ => Ok (i, o, u)
  | _, _, _ => Fail CPIPE_BAD_INDEX message
  end.

(** Both formats are asked for; the input's error comes first. *)
Definition check_formats (input output : Buffer) (input_format output_format : PixelFormat) (message : string) : sdk unit :=
  i ← buffer_format input;
  o ← buffer_format output;
  if negb (i =? format_value input_format) || negb (o =? format_value output_format)
  then failS CPIPE_BAD_PRECISION message else mret tt.

(** Two dimensions, neither of them zero. *)
Definition check_image2d (input : Buffer) (message : string) : sdk (list Z) :=
  dims ← buffer_dims input;
  match dims with
  | [d0; d1] => if (d0 =? 0) || (d1 =? 0) then failS CPIPE_BAD_INDEX message else mret dims
  | _ => failS CPIPE_BAD_INDEX message
  end.

Definition checked_pair (input output : Buffer) (input_format output_format : PixelFormat) (format_message dims_message : string)
    : sdk (list Z) :=
  _ ← check_formats input output input_format output_format format_message;
  check_image2d input dims_message.

Definition require_metadata (input : Buffer) (message : string) : sdk SdkMetadata :=
  m ← buffer_metadata input;
  match m with Some m => mret m | None => failS CPIPE_NEED_METADATA message end.

(** ** Copying an image *)

(** [std::memcpy] between the memories of two buffers: undefined beyond either of
    them, and when they overlap. *)
Definition memcpy (dst src : nat) (n : Z) : sdk unit := λ w,
  match w_store w !! dst, w_store w !! src with
  | Some d, Some s =>
      match cb_data d, cb_data s with
      | Some to, Some from =>
          if (n <=? len to) && (n <=? len from) && ((n =? 0) || negb (dst =? src)%nat)
          then (Ok tt, with_store w (<[dst := buffer_with_data d (Some (take (Z.to_nat n) from ++ drop (Z.to_nat n) to))]> (w_store w)))
          else (Undef, w)
      | _, _ => (Undef, w)
      end
  | _, _ => (Undef, w)
  end.

(** [if (!r) { cleanup; return unexpected(r.error()); }]. *)
Definition or_cleanup {A} (m : sdk A) (cleanup : sdk unit) : sdk A := λ w,
  match m w with
  | (Fail st msg, w') =>
      match attempt cleanup w' with
      | (Ok _, w'') => (Fail st msg, w'')
      | (Thrown e, w'') => (Thrown e, w'')
      | (_, w'') => (Undef, w'')
      end
  | r => r
  end.

(** [copy_r16_image], [copy_r32_image] and [copy_rgba16_image]: two, four and eight
    bytes per pixel. *)
Definition copy_image (bytes_per_pixel : Z) (input output : Buffer) : sdk unit :=
  dims ← buffer_dims input;
  input_lock ← buffer_lock_cpu input 0;
  output_lock ← or_cleanup (buffer_lock_cpu output 1) (buffer_unlock_cpu input);
  d0 ← lift (of_option Undef (dims !! 0%nat));
  d1 ← lift (of_option Undef (dims !! 1%nat));
  _ ← memcpy output_lock input_lock (u64 (d0 * d1 * bytes_per_pixel));
  _ ← attempt (buffer_unlock_cpu input);
  _ ← buffer_unlock_cpu output;
  buffer_flush_cpu_writes output.

(** ** Decisions on the CFA *)

Definition supported_bayer : list (list Z) := [[0; 1; 1; 2]; [2; 1; 1; 0]; [1; 0; 2; 1]; [1; 2; 0; 1]].

Definition is_supported_bayer_cfa (c : CalibrationView) : bool :=
  has_cfa c && (field (cfa_repeat c) 0 =? 2) && (field (cfa_repeat c) 1 =? 2) &&
  existsb (λ p, bool_decide (p = take 4 (cfa_pattern c))) supported_bayer.

Definition kSonyQbc : list Z := [0; 0; 1; 1; 0; 0; 1; 1; 1; 1; 2; 2; 1; 1; 2; 2].
Definition kRggbRepeat : list Z := [2; 2].
Definition kRggbPattern : list Z := [0; 1; 1; 2] ++ replicate 12 0.

Definition is_sony_quad_bayer_cfa (c : CalibrationView) : bool :=
  has_cfa c && bool_decide (cfa_repeat c = [4; 4]) && bool_decide (take 16 (cfa_pattern c) = kSonyQbc).

Definition is_regular_bayer_cfa (c : CalibrationView) : bool :=
  has_cfa c && bool_decide (cfa_repeat c = [2; 2]).

(** ** Precision conversion *)

Definition filter_for (input : Z) (target : string) : string :=
  if (input =? format_value R16_UINT) && String.eqb target "R32_SFLOAT" then "precision_convert_r16u_to_f32" else
  if (input =? format_value R32_SFLOAT) && String.eqb target "R16G16B16A16_SFLOAT"
  then "precision_convert_f32_to_rgba16f" else
  if (input =? format_value R16G16B16A16_SFLOAT) && String.eqb target "R8G8B8A8_UNORM"
  then "precision_convert_rgba16f_to_rgba8" else
  if (input =? format_value R16G16B16A16_SFLOAT) && String.eqb target "R16G16B16A16_UNORM"
  then "precision_convert_rgba16f_to_rgba16u" else "".

Definition target_matches_output (output : Z) (target : string) : bool :=
  (output =? format_value R32_SFLOAT) && String.eqb target "R32_SFLOAT" ||
  (output =? format_value R16G16B16A16_SFLOAT) && String.eqb target "R16G16B16A16_SFLOAT" ||
  (output =? format_value R8G8B8A8_UNORM) && String.eqb target "R8G8B8A8_UNORM" ||
  (output =? format_value R16G16B16A16_UNORM) && String.eqb target "R16G16B16A16_UNORM".

(** ** Colour matrices *)

Definition kD50ToD65 : list float32 :=
  [f_lit 9555766 10000000; f_lit (-230393) 10000000; f_lit 631636 10000000; f_lit (-282895) 10000000;
   f_lit 10099416 10000000; f_lit 210077 10000000; f_lit 122982 10000000; f_lit (-204830) 10000000;
   f_lit 13299098 10000000].

(** 1.7166512 is 8583256 / 5000000: its seven decimals exceed 2^24. *)
Definition kXyzD65ToRec2020 : list float32 :=
  [f_lit 8583256 5000000; f_lit (-3556708) 10000000; f_lit (-2533663) 10000000; f_lit (-6666844) 10000000;
   f_lit 16164812 10000000; f_lit 157685 10000000; f_lit 176399 10000000; f_lit (-427706) 10000000;
   f_lit 9421031 10000000].

Definition entry (m : list float32) (i : nat) : float32 := default f_zero (m !! i).

(** Row [r] times column [c]: products from left to right. *)
Definition dot3 (lhs rhs : list float32) (r c : nat) : float32 :=
  fadd (fadd (fmul (entry lhs (3 * r)) (entry rhs c)) (fmul (entry lhs (3 * r + 1)) (entry rhs (3 + c))))
       (fmul (entry lhs (3 * r + 2)) (entry rhs (6 + c))).

Definition mul3 (lhs rhs : list float32) : list float32 :=
  [dot3 lhs rhs 0 0; dot3 lhs rhs 0 1; dot3 lhs rhs 0 2; dot3 lhs rhs 1 0; dot3 lhs rhs 1 1; dot3 lhs rhs 1 2;
   dot3 lhs rhs 2 0; dot3 lhs rhs 2 1; dot3 lhs rhs 2 2].

Definition isfinite32 (bits : Z) : bool := negb (Z.land (Z.shiftr bits 23) 255 =? 255).

Definition kCameraToXyzBlob : string := "com.cpipe.wb.camera_to_xyz_d50_f32".

(** The bits of the nine floats. *)
Definition required_camera_to_xyz_blob (metadata : SdkMetadata) : res (list float32) :=
  match metadata_blob metadata kCameraToXyzBlob with
  | Ok blob =>
      if negb (len blob =? 36) then Fail CPIPE_NEED_METADATA "colormatrix invalid WB camera-to-XYZ blob" else
      bits ← read_struct (replicate 9 4%nat) blob 0;
      if forallb isfinite32 bits then Ok (float_of_bits <$> bits)
      else Fail CPIPE_NEED_METADATA "colormatrix non-finite WB camera-to-XYZ blob"
  | Fail _ _ => Fail CPIPE_NEED_METADATA "colormatrix missing WB camera-to-XYZ blob"
  | Thrown e => Thrown e
  | Undef => Undef
  end.

Definition kOpcodeList2BlobKey : string := "com.cpipe.dng.opcode_list_2_bytes".
Definition kOpcodeList3BlobKey : string := "com.cpipe.dng.opcode_list_3_bytes".

(** ** The nodes *)

Section Nodes.

Context `{JsonLib}.

Variable filters : HalideFilterRegistry.

(** What the model leaves open: the payload of a NaN, the bytes of padding in the
    parameter blocks, and whether a large allocation succeeds. *)
Variables (nan_bits padding : Z) (paddings : nat → Z) (reserve_ok : Z → bool).

Abbreviation process_method := (SdkCompute → ParamView → list (option Buffer) → list (option Buffer) →
  list (option SdkBuilder) → sdk unit).

Definition float_word (v : float32) : bytes := struct_bytes [4%nat] [bits_of_float nan_bits v].
(** A [std::int32_t]. *)
Definition int_word (v : Z) : bytes := struct_bytes [4%nat] [u32 v].

Definition LinearizeDngLut_process : process_method := λ compute _ inputs outputs out_metadata,
  '(i, o, u) ← lift (one_to_one inputs outputs out_metadata "linearize missing buffers");
  _ ← checked_pair i o R16_UINT R32_SFLOAT "linearize format mismatch" "linearize needs Image2D input";
  metadata ← require_metadata i "linearize missing metadata";
  calibration ← lift (metadata_calibration metadata);
  match view_linearization_table calibration with
  | [] => failS CPIPE_NEED_METADATA "linearize missing LinearizationTable"
  | table =>
      let param_blob := struct_bytes [4%nat] [u32 (len table)] ++ concat ((λ v, struct_bytes [2%nat] [v]) <$> table) in
      _ ← compute_submit_halide_with_params filters compute "linearize_dng_lut" inputs outputs param_blob;
      builder_add_applied_step u "linearization"
  end.

Definition blacklevel_widths : list nat := replicate 5 4%nat ++ replicate 4 1%nat.

Definition BlacklevelDngLevels_process : process_method := λ compute _ inputs outputs out_metadata,
  '(i, o, u) ← lift (one_to_one inputs outputs out_metadata "blacklevel missing buffers");
  _ ← checked_pair i o R32_SFLOAT R32_SFLOAT "blacklevel format mismatch" "blacklevel needs Image2D input";
  metadata ← require_metadata i "blacklevel missing metadata";
  calibration ← lift (metadata_calibration metadata);
  if negb (has_cfa calibration) || negb (field (cfa_repeat calibration) 0 =? 2) ||
     negb (field (cfa_repeat calibration) 1 =? 2) || (view_white_level calibration =? 0)
  then failS CPIPE_NEED_METADATA "blacklevel missing DNG levels" else
  let param_blob := struct_bytes blacklevel_widths
    ((bits_of_float nan_bits <$> view_black_level calibration) ++ [view_white_level calibration] ++
     take 4 (cfa_pattern calibration)) in
  _ ← compute_submit_halide_with_params filters compute "blacklevel_dng_levels" inputs outputs param_blob;
  builder_add_applied_step u "black_white_scaling".

(** The two ways without a gain map: no blob, and a blob without maps. *)
Definition LensShadingGainMap_process : process_method := λ compute _ inputs outputs out_metadata,
  '(i, o, u) ← lift (one_to_one inputs outputs out_metadata "gainmap missing buffers");
  _ ← checked_pair i o R32_SFLOAT R32_SFLOAT "gainmap format mismatch" "gainmap needs Image2D input";
  metadata ← require_metadata i "gainmap missing metadata";
  calibration ← lift (metadata_calibration metadata);
  if negb (has_cfa calibration) then failS CPIPE_NEED_METADATA "gainmap missing CFA" else
  opcode_list_2 ← lift (found (metadata_blob metadata kOpcodeList2BlobKey));
  match opcode_list_2 with
  | None => _ ← copy_image 4 i o; builder_add_applied_step u "lens_shading_gainmap"
  | Some blob =>
      gain_maps ← lift (parse_gain_maps blob);
      match gain_maps with
      | [] => _ ← copy_image 4 i o; builder_add_applied_step u "lens_shading_gainmap"
      | _ =>
          _ ← lift (validate_gain_maps gain_maps);
          let param_blob := pack_gain_maps padding (cfa_repeat calibration) (cfa_pattern calibration) gain_maps in
          _ ← compute_submit_halide_with_params filters compute "lens_shading_gainmap" inputs outputs param_blob;
          builder_add_applied_step u "lens_shading_gainmap"
      end
  end.

Definition LensDngOpcodeList3_process : process_method := λ compute _ inputs outputs out_metadata,
  '(i, o, u) ← lift (one_to_one inputs outputs out_metadata "OpcodeList3 missing buffers");
  _ ← checked_pair i o R16G16B16A16_SFLOAT R16G16B16A16_SFLOAT "OpcodeList3 format mismatch"
        "OpcodeList3 needs Image2D input";
  metadata ← require_metadata i "OpcodeList3 missing metadata";
  opcode_list_3 ← lift (found (metadata_blob metadata kOpcodeList3BlobKey));
  match opcode_list_3 with
  | None => _ ← copy_image 8 i o; builder_add_applied_step u "opcode_list_3"
  | Some blob =>
      opcodes ← lift (parse reserve_ok blob);
      match opcodes with
      | [] => _ ← copy_image 8 i o; builder_add_applied_step u "opcode_list_3"
      | _ =>
          _ ← compute_submit_halide_with_params filters compute "lens_dng_opcode_list_3" inputs outputs
                (pack_opcode_list_3 paddings opcodes);
          builder_add_applied_step u "opcode_list_3"
      end
  end.

(** The demosaic nodes check for an input and an output, but dereference the
    pointers without a test. *)
Definition demosaic_guard (inputs outputs : list (option Buffer)) (out_metadata : list (option SdkBuilder)) (message : string)
    : res (option Buffer * option Buffer * SdkBuilder) :=
  match inputs, outputs, out_metadata with
  | [i], [o], Some u :: _ => Ok (i, o, u)
  | _, _, _ => Fail CPIPE_BAD_INDEX message
  end.

Definition optional_metadata (input : option Buffer) (message : string) : sdk SdkMetadata :=
  match input with Some i => require_metadata i message | None => failS CPIPE_NEED_METADATA message end.

(** [process] of DemosaicBilinear, DemosaicRcd and DemosaicAmaze, which differ in
    the name of the filter and in the messages. *)
Definition demosaic_process (name aot_id bayer_name : string) : process_method := λ compute _ inputs outputs out_metadata,
  '(i, _, u) ← lift (demosaic_guard inputs outputs out_metadata (name +:+ " missing buffers"));
  metadata ← optional_metadata i (name +:+ " missing metadata");
  calibration ← lift (metadata_calibration metadata);
  if negb (is_supported_bayer_cfa calibration)
  then failS CPIPE_UNSUPPORTED (bayer_name +:+ " requires Bayer 2x2 CFA") else
  let param_blob := struct_bytes (replicate 4 1%nat) (take 4 (cfa_pattern calibration)) in
  _ ← compute_submit_halide_with_params filters compute aot_id inputs outputs param_blob;
  _ ← builder_clear_cfa u;
  builder_add_applied_step u "demosaic".

Definition DemosaicBilinear_process : process_method := demosaic_process "demosaic" "demosaic_bilinear" "demosaic.bilinear".
Definition DemosaicRcd_process : process_method := demosaic_process "demosaic.rcd" "demosaic_rcd" "demosaic.rcd".
Definition DemosaicAmaze_process : process_method := demosaic_process "demosaic.amaze" "demosaic_amaze" "demosaic.amaze".

Definition DemosaicQuadBayerRemosaic_process : process_method := λ compute _ inputs outputs out_metadata,
  '(i, o, u) ← lift (demosaic_guard inputs outputs out_metadata "quad_bayer_remosaic missing buffers");
  metadata ← optional_metadata i "quad_bayer_remosaic missing metadata";
  calibration ← lift (metadata_calibration metadata);
  if is_regular_bayer_cfa calibration then
    i ← lift (of_option Undef i);
    o ← lift (of_option Undef o);
    _ ← copy_image 2 i o;
    builder_add_applied_step u "quad_bayer_remosaic"
  else if negb (is_sony_quad_bayer_cfa calibration)
  then failS CPIPE_UNSUPPORTED "quad_bayer_remosaic requires Sony 4x4 QBC CFA" else
  _ ← compute_submit_halide filters compute "demosaic_quad_bayer_remosaic" inputs outputs;
  _ ← builder_set_cfa u kRggbRepeat kRggbPattern;
  builder_add_applied_step u "quad_bayer_remosaic".

Definition ColormatrixDngToWorking_process : process_method := λ compute _ inputs outputs out_metadata,
  '(i, o, u) ← lift (one_to_one inputs outputs out_metadata "colormatrix missing buffers");
  _ ← checked_pair i o R16G16B16A16_SFLOAT R16G16B16A16_SFLOAT "colormatrix format mismatch"
        "colormatrix needs Image2D input";
  metadata ← require_metadata i "colormatrix missing metadata";
  role ← lift (metadata_cs_role metadata);
  balanced ← lift (if String.eqb role "raw_camera" then metadata_has_step metadata "white_balance" else Ok false);
  if negb balanced then failS CPIPE_NEED_METADATA "colormatrix requires raw_camera white balance" else
  camera_to_xyz_d50 ← lift (required_camera_to_xyz_blob metadata);
  let transform := mul3 kXyzD65ToRec2020 (mul3 kD50ToD65 camera_to_xyz_d50) in
  _ ← compute_submit_halide_with_params filters compute "colormatrix_dng_to_working" inputs outputs
        (concat (float_word <$> transform));
  _ ← builder_set_cs_role u "scene_linear_rec2020";
  builder_add_applied_step u "color_matrix".

Definition PrecisionConvert_process : process_method := λ compute params inputs outputs out_metadata,
  '(i, o, u) ← lift (one_to_one inputs outputs out_metadata "precision_convert missing buffers");
  target ← lift (param_string params "target_format");
  input_format ← buffer_format i;
  output_format ← buffer_format o;
  if negb (target_matches_output output_format target)
  then failS CPIPE_BAD_PRECISION "precision_convert target/output mismatch" else
  let filter := filter_for input_format target in
  if String.eqb filter "" then failS CPIPE_BAD_PRECISION "precision_convert unsupported conversion" else
  _ ← compute_submit_halide filters compute filter inputs outputs;
  builder_add_applied_step u "precision_convert".

Definition Passthrough_process : process_method := λ compute _ inputs outputs _,
  compute_submit_halide filters compute "passthrough_copy" inputs outputs.

(** The nodes that only read parameters. *)
Definition param_node (name aot_id step : string) (block : ParamView → res bytes) : process_method :=
  λ compute params inputs outputs out_metadata,
  '(_, _, u) ← lift (one_to_one inputs outputs out_metadata (name +:+ " missing buffers"));
  bytes ← lift (block params);
  _ ← compute_submit_halide_with_params filters compute aot_id inputs outputs bytes;
  builder_add_applied_step u step.

Definition guided_params (p : ParamView) : res bytes :=
  radius ← clamped_param_int_or p "radius" 1 1 32;
  eps ← clamped_param_float_or p "eps" (f_lit 15 1000) (f_lit 1 100000) (f_lit 1 10);
  Ok (int_word radius ++ float_word eps).
Definition DenoiseGuidedFilter_process : process_method :=
  param_node "denoise.guided_filter" "denoise_guided_filter" "denoise.guided_filter" guided_params.

Definition wavelet_params (p : ParamView) : res bytes :=
  s ← clamped_param_float_or p "chroma_strength" (f_lit 1 1) (f_lit 0 1) (f_lit 2 1); Ok (float_word s).
Definition DenoiseWaveletBayesShrink_process : process_method :=
  param_node "denoise.wavelet_bayes_shrink" "denoise_wavelet_bayes_shrink" "denoise.wavelet_bayes_shrink" wavelet_params.

Definition filmic_params (p : ParamView) : res bytes :=
  ev ← clamped_param_float_or p "ev" (f_lit 0 1) (f_lit (-2) 1) (f_lit 2 1);
  contrast ← clamped_param_float_or p "contrast" (f_lit 1 1) (f_lit 1 2) (f_lit 2 1);
  saturation ← clamped_param_float_or p "saturation" (f_lit 1 1) (f_lit 0 1) (f_lit 2 1);
  highlights ← clamped_param_float_or p "highlights" (f_lit 1 1) (f_lit 0 1) (f_lit 2 1);
  shadows ← clamped_param_float_or p "shadows" (f_lit 1 1) (f_lit 0 1) (f_lit 2 1);
  Ok (concat (float_word <$> [ev; contrast; saturation; highlights; shadows])).
Definition ToneFilmicRgb_process : process_method :=
  param_node "tone.filmic_rgb" "tone_filmic_rgb" "tone.filmic_rgb" filmic_params.

Definition reinhard_params (p : ParamView) : res bytes :=
  v ← param_double_or p "white_point" (f64 (-1) 0);
  let white_point := to_f32 v in
  Ok (float_word (if SFltb white_point (f_lit 0 1) then f_lit 1000000 1
                  else clamp_float white_point (f_lit 1 10) (f_lit 10 1))).
Definition ToneReinhard_process : process_method :=
  param_node "tone.reinhard" "tone_reinhard" "tone.reinhard" reinhard_params.

Definition aces_params (p : ParamView) : res bytes :=
  enabled ← param_bool_or p "toggle" true; Ok (int_word (if enabled : bool then 1 else 0)).
Definition ToneAcesFilmic_process : process_method :=
  param_node "tone.aces_filmic" "tone_aces_filmic" "tone.aces_filmic" aces_params.

Definition usm_params (p : ParamView) : res bytes :=
  strength ← clamped_param_float_or p "strength" (f_lit 3 4) (f_lit 0 1) (f_lit 2 1);
  radius ← clamped_param_int_or p "radius" 1 1 32;
  threshold ← clamped_param_float_or p "threshold" (f_lit 0 1) (f_lit 0 1) (f_lit 1 10);
  Ok (float_word strength ++ int_word radius ++ float_word threshold).
Definition SharpenEdgeAwareUsm_process : process_method :=
  param_node "sharpen.edge_aware_usm" "sharpen_edge_aware_usm" "sharpen.edge_aware_usm" usm_params.

(** ** Noise *)

(** [std::max(0.0F, v)]: a NaN counts as zero. *)
Definition positive_part (v : float32) : float32 := if SFltb f_zero v then v else f_zero.

(** The mean over the channels of the variance at a quarter of the range. *)
Definition sigma_of_profile (profile : list (float32 * float32)) : float32 :=
  let variance := foldl (λ acc '(beta, lambda),
    SFadd 53 1024 acc (to_f64 (positive_part (fadd beta (fmul lambda (f_lit 1 4)))))) (f64 0 0) profile in
  to_f32 (SFsqrt 53 1024 (SFdiv 53 1024 variance (f64 (len profile) 0))).

(** An override, a value, the metadata, or 0.03. *)
Definition sigma_from_params_or_metadata (params : ParamView) (input : Buffer) : sdk float32 :=
  let given key := if no_params params then Ok None
    else found (get_param_double (pv_impl params) (Some key) false) in
  let bounded v := clamp_float (to_f32 v) (f_lit 0 1) (f_lit 1 5) in
  sigma ← lift (given "sigma");
  match sigma with
  | Some v => mret (bounded v)
  | None =>
    override ← lift (given "sigma_override");
    match override with
    | Some v => mret (bounded v)
    | None =>
      metadata ← buffer_metadata input;
      match metadata with
      | None => mret (f_lit 3 100)
      | Some m =>
        calibration ← lift (found (metadata_calibration m));
        match calibration with
        | None => mret (f_lit 3 100)
        | Some c =>
            mret (match view_noise_profile c with [] => f_lit 3 100 | profile => sigma_of_profile profile end)
        end
      end
    end
  end.

Definition DenoiseBm3d_process : process_method := λ compute params inputs outputs out_metadata,
  '(i, o, u) ← lift (one_to_one inputs outputs out_metadata "denoise.bm3d missing buffers");
  _ ← check_formats i o R16G16B16A16_SFLOAT R16G16B16A16_SFLOAT "denoise.bm3d format mismatch";
  sigma ← sigma_from_params_or_metadata params i;
  _ ← compute_submit_halide_with_params filters compute "denoise_bm3d_step1" inputs outputs (float_word sigma);
  builder_add_applied_step u "denoise.bm3d".

(** ** The node classes *)

(** A class that overrides [process] only. *)
Definition class_of (m : process_method) : NodeClass :=
  {| node_create := λ _, mret tt; node_prepare := λ _ _, mret tt; node_process := m |}.

End Nodes.
