(* ===== verification/NodeContract.v ===== *)
(** * The contract of the image nodes

    Whatever a node of [Nodes] finds, it keeps to one contract, which the pipeline
    relies on: it touches nothing but the data of its output, it leaves every
    buffer unlocked, it records its step exactly when it succeeds, and it returns -
    unless a radius is no [int], whose conversion is unchecked.  The registered filters
    are arbitrary functions to the declared statuses. *)

From Stdlib Require Import ZArith Lia SpecFloat.
From stdpp Require Import prelude strings list gmap.
From S2P Require Import Prelude Core Json HostContext Float64 ComputeContext OpcodeReader OpcodeList2.
From S2P Require Import OpcodeList3 LensBlob LensFilter GainFilter StateRes Sdk Nodes.

Local Open Scope Z_scope.

(** ** The nodes of the contract *)

Inductive node : Type :=
| Linearize | Blacklevel | GainMapNode | Opcode3Node | Bilinear | Rcd | Amaze | Remosaic | Colormatrix
| PrecisionConvertNode | GuidedFilter | Wavelet | Bm3d | FilmicRgb | Reinhard | AcesFilmic | Usm.

(** The step a node records. *)
Definition step_of (n : node) : string :=
  match n with
  | Linearize => "linearization" | Blacklevel => "black_white_scaling" | GainMapNode => "lens_shading_gainmap"
  | Opcode3Node => "opcode_list_3" | Bilinear | Rcd | Amaze => "demosaic" | Remosaic => "quad_bayer_remosaic"
  | Colormatrix => "color_matrix" | PrecisionConvertNode => "precision_convert"
  | GuidedFilter => "denoise.guided_filter" | Wavelet => "denoise.wavelet_bayes_shrink" | Bm3d => "denoise.bm3d"
  | FilmicRgb => "tone.filmic_rgb" | Reinhard => "tone.reinhard" | AcesFilmic => "tone.aces_filmic"
  | Usm => "sharpen.edge_aware_usm"
  end.

(** What else it says about the output. *)
Definition noted (n : node) (m : BufferMetadata) : Prop :=
  match n with
  | Bilinear | Rcd | Amaze => calibration m ≫= cfa = None
  | Colormatrix => cs_role m = "scene_linear_rec2020"
  | _ => True
  end.

(** The bytes per pixel of the image a node may copy. *)
Definition copies (n : node) : option Z :=
  match n with GainMapNode => Some 4 | Opcode3Node => Some 8 | Remosaic => Some 2 | _ => None end.

(** ** Locks *)

Definition buffer_view (loc : nat) : Buffer := mkSdkBuffer (Some (Some loc)) (Some SuiteBuffer) (Some SuiteMetadata).

(** The call's world with the buffers of [L] locked. *)
Definition locking (w : World) (L : gset nat) (st : store) : World := with_store w (with_locks L st).

Lemma handle_locking w L st loc b :
  st !! loc = Some b → handle_of (locking w L st) (Some (Some loc))
  = Some (make_buffer_handle (Some (buffer_with_lock b (cb_locked b || bool_decide (loc ∈ L))))).
Proof. intros Hb. unfold handle_of, locking. cbn. by rewrite lookup_with_locks, Hb. Qed.

Lemma lock_view w L st loc b d access :
  st !! loc = Some b → ready st loc → cb_data b = Some d → loc ∉ L →
  buffer_lock_cpu (buffer_view loc) access (locking w L st) = (Ok loc, locking w ({[loc]} ∪ L) st).
Proof.
  intros Hb (b' & dim & Hb' & Hl & Hr & Hw & _) Hd HL. rewrite Hb in Hb'. injection Hb' as <-.
  unfold buffer_lock_cpu. cbn [null orb sb_suite sb_impl buffer_view]. rewrite (handle_locking w L st loc b) by done.
  unfold host_lock_cpu. cbn [make_buffer_handle bh_buffer]. rewrite lock_ready, Hl, (bool_decide_eq_false_2 (loc ∈ L)) by done.
  cbn [orb mbind res_bind store_back bh_buffer]. rewrite Hd. unfold locking. cbn [with_store w_store w_builders w_instances].
  do 2 f_equal. apply (insert_with_locks L _ st loc b); [done| |set_solver].
  by rewrite Hl, bool_decide_eq_true_2 by set_solver.
Qed.

Lemma unlock_view w L st loc b :
  st !! loc = Some b → cb_locked b = false → loc ∈ L →
  buffer_unlock_cpu (buffer_view loc) (locking w L st) = (Ok tt, locking w (L ∖ {[loc]}) st).
Proof.
  intros Hb Hl HL. unfold buffer_unlock_cpu. cbn [null orb sb_suite sb_impl buffer_view].
  rewrite (handle_locking w L st loc b), Hl, (bool_decide_eq_true_2 (loc ∈ L)) by done.
  unfold host_unlock_cpu, unlock_cpu, cassert. cbn [make_buffer_handle bh_buffer buffer_with_lock cb_locked orb mbind res_bind store_back].
  unfold locking. cbn [with_store w_store w_builders w_instances]. do 2 f_equal.
  apply (insert_with_locks L _ st loc b); [done| |set_solver]. rewrite Hl, bool_decide_eq_false_2 by set_solver. by destruct b.
Qed.

Lemma memcpy_view w L st dst src b s from to n :
  st !! dst = Some b → st !! src = Some s → cb_data b = Some to → cb_data s = Some from →
  n ≤ len to → n ≤ len from → dst ≠ src →
  memcpy dst src n (locking w L st)
  = (Ok tt, locking w L (<[dst := buffer_with_data b (Some (take (Z.to_nat n) from ++ drop (Z.to_nat n) to))]> st)).
Proof.
  intros Hb Hs Hto Hfrom H1 H2 Hne. unfold memcpy, locking. cbn [with_store w_store].
  rewrite !lookup_with_locks, Hb, Hs. cbn [fmap option_fmap option_map buffer_with_lock cb_data]. rewrite Hto, Hfrom.
  rewrite !(proj2 (Z.leb_le _ _)), (proj2 (Nat.eqb_neq dst src)) by done. cbn [andb negb]. rewrite orb_true_r.
  do 2 f_equal. apply list_eq. intros k. rewrite lookup_with_locks. destruct (decide (k = dst)) as [->|Hk].
  - assert (dst < length st)%nat by (by eapply lookup_lt_Some).
    rewrite !list_lookup_insert_eq by (unfold with_locks; rewrite ?length_imap; done). by destruct b.
  - by rewrite !list_lookup_insert_ne, lookup_with_locks by done.
Qed.

(** ** Parameters *)

Section Getters.

Context {J : JsonLib} {JL : JsonLaws J}.

Lemma getter_returns {A} (is_type : json → bool) (conv : json → res A) params key :
  (∀ v, is_type v = true → ∃ a, conv v = Ok a) →
  returns (v ← param_value params (Some key) false is_type; conv v) (λ _, True).
Proof using JL.
  intros Hc. destruct (param_value_spec params (Some key) false is_type) as [(v & -> & Ht & _)|[-> _]]; [|done].
  rewrite Ok_bind. by destruct (Hc v Ht) as [a ->].
Qed.

Lemma or_value_returns {A} (d : A) m : returns m (λ _, True) → returns (or_value d m) (λ _, True).
Proof. by destruct m. Qed.

Lemma found_returns {A} (m : res A) : returns m (λ _, True) → returns (found m) (λ _, True).
Proof. by destruct m. Qed.

Lemma double_returns params key : returns (get_param_double params (Some key) false) (λ _, True).
Proof using JL. apply getter_returns, get_double_number. Qed.

Lemma double_or_returns p key d : returns (param_double_or p key d) (λ _, True).
Proof using JL. unfold param_double_or. destruct (no_params p); [done|]. apply or_value_returns, double_returns. Qed.

Lemma double_or_Ok p key d : ∃ v, param_double_or p key d = Ok v.
Proof using JL.
  unfold param_double_or. destruct (no_params p); [by eexists|]. pose proof (double_returns (pv_impl p) key) as Hr.
  unfold or_value. destruct (get_param_double (pv_impl p) (Some key) false); try done; by eexists.
Qed.

Lemma float_or_Ok p key d lo hi : ∃ v, clamped_param_float_or p key d lo hi = Ok v.
Proof using JL. unfold clamped_param_float_or. destruct (double_or_Ok p key (to_f64 d)) as [v ->]. by eexists. Qed.

Lemma float_or_returns p key d lo hi : returns (clamped_param_float_or p key d lo hi) (λ _, True).
Proof using JL. eapply returns_bind; [apply double_or_returns|done]. Qed.

Lemma int_of_double_cases v : int_of_double v = Undef ∨ ∃ z, int_of_double v = Ok z.
Proof.
  unfold int_of_double, Float32.to_int64. destruct v; cbn [mbind res_bind]; auto.
  - right. by eexists.
  - destruct (_ && _); [|auto]. cbn [mbind res_bind]. destruct (_ && _); eauto.
Qed.

Lemma int_or_returns p key d lo hi :
  defined (clamped_param_int_or p key d lo hi) → returns (clamped_param_int_or p key d lo hi) (λ _, True).
Proof using JL.
  unfold clamped_param_int_or. pose proof (double_or_returns p key (f64 d 0)) as Hr.
  destruct (param_double_or p key (f64 d 0)) as [v| | |]; try done. rewrite !Ok_bind.
  by destruct (int_of_double_cases v) as [->|[z ->]].
Qed.

Lemma bool_or_returns p key d : returns (param_bool_or p key d) (λ _, True).
Proof using JL.
  unfold param_bool_or. destruct (no_params p); [done|]. apply or_value_returns. eapply returns_bind; [|done].
  apply getter_returns. intros v Hv. destruct (get_bool_boolean v Hv) as [b ->]. by eexists.
Qed.

Lemma string_returns p key : returns (param_string p key) (λ _, True).
Proof using JL.
  unfold param_string. destruct (no_params p); [done|].
  assert (Hr : returns (get_param_enum (pv_impl p) (Some key) false) (λ _, True)).
  { apply getter_returns. intros v Hv. by apply get_string_type. }
  by destruct (get_param_enum (pv_impl p) (Some key) false).
Qed.

End Getters.

Lemma validate_returns maps : returns (validate_gain_maps maps) (λ _, True).
Proof.
  unfold validate_gain_maps. destruct maps as [|m maps]; [done|]. destruct (_ && _); [done|]. destruct (len _ =? 4); [|done].
  cbn [negb]. eapply returns_bind with (P := λ _, True); [|done]. generalize (replicate 4 false).
  induction (m :: maps) as [|x l IH]; intros seen; [done|]. cbn [foldM]. eapply returns_bind with (P := λ _, True).
  - unfold see_plane. by destruct (_ || _).
  - intros seen' _. apply IH.
Qed.

Section Contract.

Context {J : JsonLib} {JL : JsonLaws J}.

Variables (filters : HalideFilterRegistry) (nan_bits padding : Z) (paddings : nat → Z) (reserve_ok : Z → bool).

Definition method (n : node) : SdkCompute → ParamView → list (option Buffer) → list (option Buffer) →
    list (option SdkBuilder) → sdk unit :=
  match n with
  | Linearize => LinearizeDngLut_process filters
  | Blacklevel => BlacklevelDngLevels_process filters nan_bits
  | GainMapNode => LensShadingGainMap_process filters padding
  | Opcode3Node => LensDngOpcodeList3_process filters paddings reserve_ok
  | Bilinear => DemosaicBilinear_process filters
  | Rcd => DemosaicRcd_process filters
  | Amaze => DemosaicAmaze_process filters
  | Remosaic => DemosaicQuadBayerRemosaic_process filters
  | Colormatrix => ColormatrixDngToWorking_process filters nan_bits
  | PrecisionConvertNode => PrecisionConvert_process filters
  | GuidedFilter => DenoiseGuidedFilter_process filters nan_bits
  | Wavelet => DenoiseWaveletBayesShrink_process filters nan_bits
  | Bm3d => DenoiseBm3d_process filters nan_bits
  | FilmicRgb => ToneFilmicRgb_process filters nan_bits
  | Reinhard => ToneReinhard_process filters nan_bits
  | AcesFilmic => ToneAcesFilmic_process filters
  | Usm => SharpenEdgeAwareUsm_process filters nan_bits
  end.

Variables (i o u : nat).

Definition builder_view : SdkBuilder := mkSdkBuilder (Some u) (Some SuiteMetadataBuilder).
Definition compute_view : SdkCompute := mkSdkCompute false (Some SuiteCompute).

(** What a node may assume of its call: two ready images, distinct, an output
    builder still open, and metadata blobs made of bytes. *)
Record node_env (w : World) (bi bo : CpuBuffer) (h : cpipe_metadata_builder_s) : Prop := {
  ne_in : w_store w !! i = Some bi;
  ne_out : w_store w !! o = Some bo;
  ne_ready_in : ready (w_store w) i;
  ne_ready_out : ready (w_store w) o;
  ne_distinct : i ≠ o;
  ne_builder : w_builders w !! u = Some h;
  ne_open : frozen_ (bu_builder h) = None;
  ne_ndim : ndim (cb_layout bi) ≤ 8;
  ne_blobs : ∀ m key blob, cb_metadata bi = Some m → find_blob m key = Some blob → bytes_ok blob
}.

(** The images have memory for [n] bytes per pixel. *)
Definition holds_pixels (bi bo : CpuBuffer) (n : Z) : Prop :=
  ∃ from to d0 d1 rest, cb_data bi = Some from ∧ cb_data bo = Some to ∧ ndim (cb_layout bi) = 2 ∧
    dims (cb_layout bi) = d0 :: d1 :: rest ∧ u64 (d0 * d1 * n) ≤ len from ∧ u64 (d0 * d1 * n) ≤ len to.

(** Only the data of the output differs. *)
Definition written (w w' : World) : Prop :=
  ∃ b d, w_store w !! o = Some b ∧ w' = with_store w (<[o := buffer_with_data b d]> (w_store w)).

(** The output's metadata tells of the step. *)
Definition recorded (n : node) (h : cpipe_metadata_builder_s) (w w' : World) : Prop :=
  ∃ w1 h', written w w1 ∧ w' = with_builders w1 (<[u := h']> (w_builders w)) ∧
    applied_steps (metadata_ (bu_builder h')) = applied_steps (metadata_ (bu_builder h)) ++ [step_of n] ∧
    noted n (metadata_ (bu_builder h')).

Section Env.

Variables (w : World) (bi bo : CpuBuffer) (h : cpipe_metadata_builder_s).
Hypothesis Henv : node_env w bi bo h.

Local Abbreviation vi := (buffer_view i).
Local Abbreviation vo := (buffer_view o).

Lemma written_refl : written w w.
Proof using Henv.
  exists bo, (cb_data bo). split; [apply Henv|]. rewrite list_insert_id; [by destruct w|].
  rewrite (ne_out _ _ _ _ Henv). by destruct bo.
Qed.

(** *** Reading *)

Lemma handle_in : handle_of w (Some (Some i)) = Some (make_buffer_handle (Some bi)).
Proof using Henv. unfold handle_of. simpl. by rewrite (ne_in _ _ _ _ Henv). Qed.

Lemma handle_out : handle_of w (Some (Some o)) = Some (make_buffer_handle (Some bo)).
Proof using Henv. unfold handle_of. simpl. by rewrite (ne_out _ _ _ _ Henv). Qed.

Lemma quiet_format loc b :
  handle_of w (Some (Some loc)) = Some (make_buffer_handle (Some b)) →
  quiet (buffer_format (buffer_view loc)) w (λ f, f = format_value (format (cb_layout b))).
Proof. intros Hh. unfold buffer_format, buffer_call, quiet. cbn [null orb sb_suite sb_impl buffer_view]. by rewrite Hh. Qed.

Lemma quiet_dims :
  quiet (buffer_dims vi) w (λ ds, ds = take (Z.to_nat (ndim (cb_layout bi))) (dims (cb_layout bi))).
Proof using Henv.
  unfold buffer_dims, buffer_call, mbind, sr_bind, quiet. cbn [null orb sb_suite sb_impl buffer_view]. rewrite handle_in.
  unfold get_dims, copy8. cbn. pose proof (ne_ndim _ _ _ _ Henv). rewrite (proj2 (Z.ltb_ge 8 _)) by done. cbn.
  by rewrite take_take, Nat.min_id.
Qed.

Lemma quiet_metadata message :
  quiet (require_metadata vi message) w (λ m, ∃ meta, cb_metadata bi = Some meta ∧ m = mkSdkMetadata (Some (Some meta)) (Some SuiteMetadata)).
Proof using Henv.
  unfold require_metadata, buffer_metadata, quiet, mbind, sr_bind. cbn [sb_suite sb_metadata_suite buffer_view sb_impl].
  rewrite handle_in. unfold get_metadata. cbn. destruct (cb_metadata bi) as [meta|]; cbn; [eauto|done].
Qed.

Lemma quiet_formats fi fo message : quiet (check_formats vi vo fi fo message) w (λ _, True).
Proof using Henv.
  unfold check_formats. eapply quiet_bind; [apply quiet_format, handle_in|]. intros ? ->.
  eapply quiet_bind; [apply quiet_format, handle_out|]. intros ? ->. destruct (_ || _); [by apply quiet_fail|by apply quiet_ret].
Qed.

Lemma quiet_image2d message : quiet (check_image2d vi message) w (λ _, True).
Proof using Henv.
  unfold check_image2d. eapply quiet_bind; [apply quiet_dims|]. intros ds _.
  destruct ds as [|d0 [|d1 []]]; try by apply quiet_fail. destruct (_ || _); [by apply quiet_fail|by apply quiet_ret].
Qed.

Lemma quiet_pair fi fo m1 m2 : quiet (checked_pair vi vo fi fo m1 m2) w (λ _, True).
Proof using Henv. eapply quiet_bind; [apply quiet_formats|]. intros _ _. apply quiet_image2d. Qed.

(** *** Submitting a filter *)

Definition named (z : Z) : Prop := ∃ s, z = status_int s.

Lemma status_of_named s : status_of_int (status_int s) = Ok s.
Proof. by destruct s. Qed.

Lemma written_back contents : written w (with_store w (write_back [o] contents (w_store w))).
Proof using Henv.
  destruct contents as [|d contents]; [change (write_back [o] [] (w_store w)) with (w_store w);
    destruct written_refl as (b & d & ? & ?); exists b, d; split; [done|]; by destruct w|].
  exists bo, d. split; [apply Henv|]. f_equal. unfold write_back. simpl.
  apply list_eq. intros k. destruct (decide (k = o)) as [->|Hk].
  - pose proof (ne_out _ _ _ _ Henv) as Ho. rewrite list_lookup_insert_eq by (by eapply lookup_lt_Some).
    cbn. by rewrite list_lookup_alter_eq, Ho.
  - rewrite list_lookup_insert_ne by done. cbn. by rewrite list_lookup_alter_ne.
Qed.

(** The world after a submission: the output may have been written. *)
Lemma submitted_spec m message (Q : unit → World → Prop) :
  (∃ z contents, m = Ok (z, write_back [o] contents (w_store w)) ∧ named z) ∨ (∃ z, m = Ok (z, w_store w) ∧ named z) →
  (∀ w', written w w' → Q tt w') → wp (submitted m message) w Q (written w).
Proof using Henv.
  assert (Hself : with_store w (w_store w) = w) by (by destruct w).
  intros [(z & contents & -> & s & ->)|(z & -> & s & ->)] HQ; unfold wp, submitted; rewrite status_of_named.
  - pose proof (written_back contents). destruct s; by auto.
  - rewrite Hself. pose proof written_refl. destruct s; by auto.
Qed.

Hypothesis Hfilters : ∀ id f, find_filter (halide_param_filters filters) id = Some f →
  ∀ hi ho params mem, named (f hi ho params mem).1.

Lemma distinct_ready : Forall (ready (w_store w)) ([i] ++ [o]) ∧ NoDup ([i] ++ [o]).
Proof using Henv.
  split; [repeat constructor; apply Henv|]. simpl. apply NoDup_cons. split; [|apply NoDup_singleton].
  intros Hin%list_elem_of_singleton. by apply (ne_distinct _ _ _ _ Henv).
Qed.

Lemma wp_submit_params id blob (Q : unit → World → Prop) :
  (∀ w', written w w' → Q tt w') →
  wp (compute_submit_halide_with_params filters compute_view id [Some vi] [Some vo] blob) w Q (written w).
Proof using Henv Hfilters.
  intros HQ. unfold compute_submit_halide_with_params. simpl null. cbn [sc_suite compute_view].
  unfold raw_handles, mbind, sr_bind, lift, gets, wp. cbn [foldM mbind res_bind app buffer_view sb_impl sc_impl_null].
  change (wp (submitted (submit_halide_with_params filters id [Some i] [Some o] (take (length blob) blob) (w_store w))
    "submit_halide_with_params failed") w Q (written w)).
  apply submitted_spec; [|done]. destruct (find_filter (halide_param_filters filters) id) as [f|] eqn:Hf.
  - left. destruct distinct_ready as [Hr Hnd].
    destruct (submit_distinct filters id f Hf [i] [o] (take (length blob) blob) (w_store w) Hr Hnd) as (hi & ho & _ & _ & Hs).
    pose proof (Hfilters id f Hf hi ho (take (length blob) blob) (memory (w_store w))) as Hn.
    destruct (f hi ho _ _) as [status contents]. simpl in Hs, Hn. eexists _, contents. split; [exact Hs|].
    destruct (Z.eqb_spec status 0); [by exists CPIPE_OK|done].
  - right. unfold submit_halide_with_params. rewrite Hf. eexists. split; [done|]. by exists CPIPE_UNSUPPORTED.
Qed.

Lemma wp_submit id (Q : unit → World → Prop) :
  (∀ w', written w w' → Q tt w') →
  wp (compute_submit_halide filters compute_view id [Some vi] [Some vo]) w Q (written w).
Proof using Henv.
  intros HQ. clear - Henv HQ. unfold compute_submit_halide. simpl null. cbn [sc_suite compute_view].
  unfold raw_handles, mbind, sr_bind, lift, gets, wp. cbn [foldM mbind res_bind app buffer_view sb_impl sc_impl_null].
  change (wp (submitted (submit_halide filters id [Some i] [Some o] (w_store w)) "submit_halide failed") w Q (written w)).
  apply submitted_spec; [|done]. unfold submit_halide. destruct (find_filter (halide_filters filters) id) as [f|].
  2: { right. eexists. split; [done|]. by exists CPIPE_UNSUPPORTED. }
  left. pose proof (ne_ready_in _ _ _ _ Henv) as Hri. pose proof (ne_ready_out _ _ _ _ Henv) as Hro.
  pose proof (ne_distinct _ _ _ _ Henv) as Hne.
  destruct (proj2 (make_adapter_spec AccessRead ∅ (w_store w) i Hri)) as (hi & Hi & _); [set_solver|].
  destruct (proj2 (make_adapter_spec AccessWrite ({[i]} ∪ ∅) (w_store w) o Hro)) as (ho & Ho & _); [set_solver|].
  rewrite with_locks_empty in Hi. rewrite Hi, Ok_bind, Ho, Ok_bind, memory_with_locks.
  destruct (f hi ho _) as [status contents]. exists (status_int (if status =? 0 then CPIPE_OK else CPIPE_FAILED)), [contents].
  split; [|by eexists]. rewrite write_back_with_locks, destroy_adapters_spec.
  - rewrite Ok_bind. do 3 f_equal. rewrite <-(with_locks_empty (write_back _ _ _)) at 2. f_equal. set_solver.
  - repeat constructor; by apply write_back_ready.
  - apply NoDup_cons. split; [set_solver|apply NoDup_singleton].
  - set_solver.
Qed.

(** *** Copying *)

Lemma dims_exact d0 d1 rest :
  ndim (cb_layout bi) = 2 → dims (cb_layout bi) = d0 :: d1 :: rest → buffer_dims vi w = (Ok [d0; d1], w).
Proof using Henv.
  intros Hn Hd. unfold buffer_dims, buffer_call, mbind, sr_bind. cbn [null orb sb_suite sb_impl buffer_view].
  rewrite handle_in. unfold get_dims, copy8. cbn. by rewrite Hn, Hd.
Qed.

Lemma env_unlocked : cb_locked bi = false ∧ cb_locked bo = false.
Proof using Henv.
  destruct (ne_ready_in _ _ _ _ Henv) as (b & _ & Hb & Hl & _). destruct (ne_ready_out _ _ _ _ Henv) as (b' & _ & Hb' & Hl' & _).
  rewrite (ne_in _ _ _ _ Henv) in Hb. rewrite (ne_out _ _ _ _ Henv) in Hb'. by simplify_eq.
Qed.

Lemma copy_image_exact n from to d0 d1 rest :
  cb_data bi = Some from → cb_data bo = Some to → ndim (cb_layout bi) = 2 → dims (cb_layout bi) = d0 :: d1 :: rest →
  u64 (d0 * d1 * n) ≤ len from → u64 (d0 * d1 * n) ≤ len to →
  let N := Z.to_nat (u64 (d0 * d1 * n)) in
  copy_image n vi vo w = (Ok tt, with_store w (<[o := buffer_with_data bo (Some (take N from ++ drop N to))]> (w_store w))).
Proof using Henv.
  clear - Henv. intros Hfrom Hto Hn Hd Hl1 Hl2. cbv zeta. destruct env_unlocked as [Ui Uo].
  pose proof (ne_in _ _ _ _ Henv) as Hi. pose proof (ne_out _ _ _ _ Henv) as Ho. pose proof (ne_distinct _ _ _ _ Henv) as Hne.
  set (N := u64 (d0 * d1 * n)) in *. set (bo' := buffer_with_data bo (Some (take (Z.to_nat N) from ++ drop (Z.to_nat N) to))).
  fold bo'. assert (Hst : ∀ st, with_store w st = locking w ∅ st) by (intros; unfold locking; by rewrite with_locks_empty).
  assert (Hw : w = locking w ∅ (w_store w)) by (rewrite <-Hst; by destruct w).
  assert (Ho' : <[o := bo']> (w_store w) !! o = Some bo') by (apply list_lookup_insert_eq; by eapply lookup_lt_Some).
  unfold copy_image. erewrite sr_bind_Ok by (by apply (dims_exact d0 d1 rest)). rewrite Hw at 1.
  erewrite sr_bind_Ok by (eapply lock_view; [done|apply Henv|done|set_solver]).
  erewrite sr_bind_Ok by (unfold or_cleanup; erewrite lock_view; [done|done|apply Henv|done|set_solver]).
  erewrite sr_bind_Ok by (cbn; reflexivity). erewrite sr_bind_Ok by (cbn; reflexivity). cbv beta. fold N.
  erewrite sr_bind_Ok by (by eapply memcpy_view). fold bo'.
  erewrite sr_bind_Ok.
  2: { unfold attempt. erewrite unlock_view; [reflexivity|by rewrite list_lookup_insert_ne|done|set_solver]. }
  erewrite sr_bind_Ok by (eapply unlock_view; [exact Ho'|done|set_solver]).
  replace (({[o]} ∪ ({[i]} ∪ ∅)) ∖ {[i]} ∖ {[o]}) with (∅ : gset nat) by set_solver. rewrite <-Hst.
  unfold buffer_flush_cpu_writes, buffer_call. cbn [null orb sb_suite sb_impl buffer_view].
  unfold handle_of. cbn [option_map mbind option_bind w_store with_store]. by rewrite Ho'.
Qed.

Lemma wp_copy n (Q : unit → World → Prop) :
  holds_pixels bi bo n → (∀ w', written w w' → Q tt w') → wp (copy_image n vi vo) w Q (written w).
Proof using Henv.
  intros (from & to & d0 & d1 & rest & H1 & H2 & H3 & H4 & H5 & H6) HQ. unfold wp.
  rewrite (copy_image_exact n from to d0 d1 rest) by done. apply HQ. eexists bo, _. split; [apply Henv|done].
Qed.

(** *** Recording the step *)

Lemma wp_builder w1 h1 h2 f message (Q : unit → World → Prop) (F : World → Prop) :
  w_builders w1 !! u = Some h1 → f (Some h1) = Ok h2 → Q tt (with_builders w1 (<[u := h2]> (w_builders w1))) →
  wp (builder_call builder_view f message) w1 Q F.
Proof.
  intros Hh Hf HQ. unfold wp, builder_call. cbn [builder_view sbu_suite sbu_impl null orb mbind option_bind]. by rewrite Hh, Hf.
Qed.

Lemma add_step_open h1 step :
  frozen_ (bu_builder h1) = None → ∃ h2, host_add_applied_step (Some h1) (Some step) = Ok h2 ∧
    applied_steps (metadata_ (bu_builder h2)) = applied_steps (metadata_ (bu_builder h1)) ++ [step] ∧
    calibration (metadata_ (bu_builder h2)) = calibration (metadata_ (bu_builder h1)) ∧
    cs_role (metadata_ (bu_builder h2)) = cs_role (metadata_ (bu_builder h1)).
Proof.
  intros Hf. unfold host_add_applied_step, with_builder, add_applied_step, set_steps.
  rewrite mutate_unfrozen by done. rewrite Ok_bind. eexists. by split_and!.
Qed.

Lemma written_builders w1 : written w w1 → w_builders w1 = w_builders w.
Proof. by intros (b & d & _ & ->). Qed.

Lemma wp_record n w1 :
  written w w1 → (∀ m, noted n m) →
  wp (builder_add_applied_step builder_view (step_of n)) w1 (λ _, recorded n h w) (written w).
Proof using Henv.
  intros Hw Hn. pose proof (written_builders w1 Hw) as Hb.
  destruct (add_step_open h (step_of n) (ne_open _ _ _ _ Henv)) as (h2 & H2 & Hs & _).
  eapply wp_builder; [rewrite Hb; apply Henv|exact H2|]. rewrite Hb. by exists w1, h2.
Qed.

(** Another change of the metadata comes first. *)
Lemma wp_change_record n w1 h1 f message :
  written w w1 → f (Some h) = Ok h1 → frozen_ (bu_builder h1) = None →
  applied_steps (metadata_ (bu_builder h1)) = applied_steps (metadata_ (bu_builder h)) →
  (∀ m, calibration m = calibration (metadata_ (bu_builder h1)) → cs_role m = cs_role (metadata_ (bu_builder h1)) → noted n m) →
  wp (_ ← builder_call builder_view f message; builder_add_applied_step builder_view (step_of n)) w1
    (λ _, recorded n h w) (written w).
Proof using Henv.
  intros Hw Hf Hfr Hs Hn. pose proof (written_builders w1 Hw) as Hb. pose proof (ne_builder _ _ _ _ Henv) as Hu.
  apply wp_bind. eapply wp_builder; [rewrite Hb; exact Hu|exact Hf|].
  destruct (add_step_open h1 (step_of n) Hfr) as (h2 & H2 & Hs2 & Hc & Hr).
  eapply wp_builder; [|exact H2|].
  - cbn. rewrite Hb. apply list_lookup_insert_eq. by eapply lookup_lt_Some.
  - exists w1, h2. split_and!; [done| |by rewrite Hs2, Hs|by apply Hn]. cbn. rewrite Hb.
    by rewrite list_insert_insert_eq.
Qed.

Lemma clear_cfa_open :
  ∃ h1, host_clear_cfa (Some h) = Ok h1 ∧ frozen_ (bu_builder h1) = None ∧
    applied_steps (metadata_ (bu_builder h1)) = applied_steps (metadata_ (bu_builder h)) ∧
    calibration (metadata_ (bu_builder h1)) ≫= cfa = None.
Proof using Henv.
  pose proof (ne_open _ _ _ _ Henv) as Hf. unfold host_clear_cfa, with_builder, clear_cfa.
  rewrite ensure_mutable_unfrozen, Ok_bind by done.
  destruct (calibration (metadata_ (bu_builder h))) as [c|] eqn:Ec.
  - unfold set_calibration. rewrite mutate_unfrozen by done. rewrite Ok_bind. eexists. by split_and!.
  - rewrite Ok_bind. eexists. split_and!; [done|done|done|]. cbn. by rewrite Ec.
Qed.

Lemma set_cfa_open repeat pattern :
  ∃ h1, host_set_cfa (Some h) (Some repeat) (Some pattern) = Ok h1 ∧ frozen_ (bu_builder h1) = None ∧
    applied_steps (metadata_ (bu_builder h1)) = applied_steps (metadata_ (bu_builder h)).
Proof using Henv.
  pose proof (ne_open _ _ _ _ Henv) as Hf. unfold host_set_cfa, with_builder, set_cfa, set_calibration.
  rewrite ensure_mutable_unfrozen, Ok_bind, mutate_unfrozen, Ok_bind by done. eexists. by split_and!.
Qed.

Lemma set_role_open role :
  ∃ h1, host_set_cs_role (Some h) (Some role) = Ok h1 ∧ frozen_ (bu_builder h1) = None ∧
    applied_steps (metadata_ (bu_builder h1)) = applied_steps (metadata_ (bu_builder h)) ∧
    cs_role (metadata_ (bu_builder h1)) = role.
Proof using Henv.
  pose proof (ne_open _ _ _ _ Henv) as Hf. unfold host_set_cs_role, with_builder, set_cs_role.
  rewrite mutate_unfrozen, Ok_bind by done. eexists. by split_and!.
Qed.

(** *** Metadata *)

Local Abbreviation view meta := (mkSdkMetadata (Some (Some meta)) (Some SuiteMetadata)).

Lemma calibration_returns meta : returns (metadata_calibration (view meta)) (λ _, True).
Proof. by rewrite calibration_exact. Qed.

Lemma blob_cases meta key :
  cb_metadata bi = Some meta →
  (∃ st msg, metadata_blob (view meta) key = Fail st msg) ∨ ∃ blob, metadata_blob (view meta) key = Ok blob ∧ bytes_ok blob.
Proof using Henv.
  intros Hm. rewrite blob_exact. destruct (find_blob meta key) as [[|x b]|] eqn:E; [left; eauto| |left; eauto].
  right. eexists. split; [done|]. by eapply (ne_blobs _ _ _ _ Henv).
Qed.

Lemma found_blob_returns meta key :
  cb_metadata bi = Some meta → returns (found (metadata_blob (view meta) key)) (λ ob, ∀ b, ob = Some b → bytes_ok b).
Proof using Henv.
  intros Hm. destruct (blob_cases meta key Hm) as [(st & msg & ->)|(blob & -> & Hb)]; [done|]. by intros b [= <-].
Qed.

Lemma camera_returns meta :
  cb_metadata bi = Some meta → returns (required_camera_to_xyz_blob (view meta)) (λ _, True).
Proof using Henv.
  intros Hm. unfold required_camera_to_xyz_blob. destruct (blob_cases meta kCameraToXyzBlob Hm) as [(st & msg & ->)|(blob & -> & Hb)]; [done|].
  destruct (Z.eqb_spec (len blob) 36) as [Hl|]; [|done]. cbn [negb].
  destruct (read_struct_ok (replicate 9 4%nat) blob 0) as (l & -> & _); [done|lia|rewrite Hl; done|].
  rewrite Ok_bind. by destruct (forallb isfinite32 l).
Qed.

(** *** The nodes *)

Local Abbreviation runs n m := (wp m w (λ _, recorded n h w) (written w)).

Ltac quietly := eapply wp_quiet; [|apply written_refl|].

(** The guard at the start of a method passes. *)
Ltac start := quietly; [by apply quiet_lift with (P := λ x, x = (vi, vo, builder_view))|]; intros ? ->.

(** The input's metadata and its calibration. *)
Ltac with_metadata meta Hm := quietly; [apply quiet_metadata|]; intros ? (meta & Hm & ->).
Ltac with_calibration c := quietly; [apply quiet_lift, calibration_returns|]; intros c _.

Variable pv : ParamView.
Local Abbreviation call n := (method n compute_view pv [Some vi] [Some vo] [Some builder_view]).

(** A submission followed by the record. *)
Lemma submit_record n id blob :
  (∀ m, noted n m) →
  runs n (_ ← compute_submit_halide_with_params filters compute_view id [Some vi] [Some vo] blob;
          builder_add_applied_step builder_view (step_of n)).
Proof using Henv Hfilters. intros Hn. apply wp_bind, wp_submit_params. intros w1 Hw. by apply wp_record. Qed.

Lemma copy_record n bpp :
  holds_pixels bi bo bpp → (∀ m, noted n m) →
  runs n (_ ← copy_image bpp vi vo; builder_add_applied_step builder_view (step_of n)).
Proof using Henv. intros Hp Hn. apply wp_bind, wp_copy; [done|]. intros w1 Hw. by apply wp_record. Qed.

Lemma linearize_runs : runs Linearize (call Linearize).
Proof using Henv Hfilters.
  unfold method, LinearizeDngLut_process. start. quietly; [apply quiet_pair|]. intros _ _. with_metadata meta Hm.
  with_calibration c. destruct (view_linearization_table c); [by apply wp_fail, written_refl|]. by apply (submit_record Linearize).
Qed.

Lemma blacklevel_runs : runs Blacklevel (call Blacklevel).
Proof using Henv Hfilters.
  unfold method, BlacklevelDngLevels_process. start. quietly; [apply quiet_pair|]. intros _ _. with_metadata meta Hm.
  with_calibration c. destruct (_ || _); [by apply wp_fail, written_refl|]. by apply (submit_record Blacklevel).
Qed.

Lemma gainmap_runs : holds_pixels bi bo 4 → runs GainMapNode (call GainMapNode).
Proof using Henv Hfilters.
  intros Hp. unfold method, LensShadingGainMap_process. start. quietly; [apply quiet_pair|]. intros _ _. with_metadata meta Hm.
  with_calibration c. destruct (has_cfa c); [|by apply wp_fail, written_refl]. cbn [negb].
  quietly; [by apply quiet_lift, found_blob_returns|]. intros [blob|] Hb; [|by apply (copy_record GainMapNode)].
  quietly; [apply quiet_lift, parse_gain_maps_returns; by apply Hb|]. intros maps _.
  destruct maps as [|m maps]; [by apply (copy_record GainMapNode)|].
  quietly; [apply quiet_lift with (P := λ _, True)|intros _ _; by apply (submit_record GainMapNode)].
  apply validate_returns.
Qed.

Lemma opcode3_runs : holds_pixels bi bo 8 → runs Opcode3Node (call Opcode3Node).
Proof using Henv Hfilters.
  intros Hp. unfold method, LensDngOpcodeList3_process. start. quietly; [apply quiet_pair|]. intros _ _. with_metadata meta Hm.
  quietly; [by apply quiet_lift, found_blob_returns|]. intros [blob|] Hb; [|by apply (copy_record Opcode3Node)].
  destruct (parse_reserve reserve_ok blob ltac:(by apply Hb)) as [->|Hparse]; [apply wp_bind, wp_throw; [done|apply written_refl]|].
  quietly; [by apply quiet_lift|]. intros ops _.
  destruct ops; [by apply (copy_record Opcode3Node)|]. by apply (submit_record Opcode3Node).
Qed.

Ltac start_demosaic :=
  quietly; [by apply quiet_lift with (P := λ x, x = (Some vi, Some vo, builder_view))|]; intros ? ->; cbn [optional_metadata].

Lemma demosaic_runs n name aot_id bayer_name :
  step_of n = "demosaic" → (∀ m, calibration m ≫= cfa = None → noted n m) →
  runs n (demosaic_process filters name aot_id bayer_name compute_view pv [Some vi] [Some vo] [Some builder_view]).
Proof using Henv Hfilters.
  intros Hs Hn. unfold demosaic_process. start_demosaic. with_metadata meta Hm. with_calibration c.
  destruct (is_supported_bayer_cfa c); [|by apply wp_fail, written_refl]. cbn [negb].
  apply wp_bind, wp_submit_params. intros w1 Hw. destruct clear_cfa_open as (h1 & H1 & Hf & Hst & Hc). rewrite <-Hs.
  eapply wp_change_record; [done|exact H1|done|done|]. intros m Hm' _. apply Hn. by rewrite Hm'.
Qed.

Lemma remosaic_runs : holds_pixels bi bo 2 → runs Remosaic (call Remosaic).
Proof using Henv Hfilters.
  intros Hp. unfold method, DemosaicQuadBayerRemosaic_process. start_demosaic. with_metadata meta Hm. with_calibration c.
  destruct (is_regular_bayer_cfa c); [by apply (copy_record Remosaic)|].
  destruct (is_sony_quad_bayer_cfa c); [|by apply wp_fail, written_refl]. cbn [negb].
  apply wp_bind, wp_submit. intros w1 Hw. destruct (set_cfa_open kRggbRepeat kRggbPattern) as (h1 & H1 & Hf & Hst).
  by apply (wp_change_record Remosaic w1 h1).
Qed.

Lemma colormatrix_runs : runs Colormatrix (call Colormatrix).
Proof using Henv Hfilters.
  unfold method, ColormatrixDngToWorking_process. start. quietly; [apply quiet_pair|]. intros _ _. with_metadata meta Hm.
  quietly; [by apply quiet_lift with (P := λ _, True)|]. intros role _.
  quietly; [apply quiet_lift with (P := λ _, True)|].
  { destruct (String.eqb role "raw_camera"); [|done]. by rewrite has_step_exact. }
  intros balanced _. destruct balanced; [|by apply wp_fail, written_refl]. cbn [negb].
  quietly; [by apply quiet_lift, camera_returns|]. intros camera _.
  apply wp_bind, wp_submit_params. intros w1 Hw. destruct (set_role_open "scene_linear_rec2020") as (h1 & H1 & Hf & Hst & Hr).
  eapply (wp_change_record Colormatrix w1 h1); [done..|]. intros m _ Hm'. cbn. by rewrite Hm'.
Qed.

Lemma precision_runs : runs PrecisionConvertNode (call PrecisionConvertNode).
Proof using Henv JL.
  unfold method, PrecisionConvert_process. start. quietly; [apply quiet_lift, string_returns|]. intros target _.
  quietly; [apply quiet_format, handle_in|]. intros fi _. quietly; [apply quiet_format, handle_out|]. intros fo _.
  destruct (target_matches_output fo target); [|by apply wp_fail, written_refl]. cbn [negb].
  destruct (String.eqb _ ""); [by apply wp_fail, written_refl|]. apply wp_bind, wp_submit. intros w1 Hw.
  by apply (wp_record PrecisionConvertNode).
Qed.

Lemma param_node_runs n name aot_id block :
  returns (block pv) (λ _, True) → (∀ m, noted n m) →
  runs n (param_node filters name aot_id (step_of n) block compute_view pv [Some vi] [Some vo] [Some builder_view]).
Proof using Henv Hfilters.
  intros Hb Hn. unfold param_node. start. quietly; [by apply quiet_lift|]. intros bs _. by apply submit_record.
Qed.

Lemma quiet_sigma : quiet (sigma_from_params_or_metadata pv vi) w (λ _, True).
Proof using Henv JL.
  unfold sigma_from_params_or_metadata.
  assert (Hg : ∀ key, returns (if no_params pv then Ok None else found (get_param_double (pv_impl pv) (Some key) false)) (λ _, True)).
  { intros key. destruct (no_params pv); [done|]. apply found_returns, double_returns. }
  eapply quiet_bind; [apply quiet_lift, Hg|]. intros [v|] _; [by apply quiet_ret|].
  eapply quiet_bind; [apply quiet_lift, Hg|]. intros [v|] _; [by apply quiet_ret|].
  unfold buffer_metadata, quiet, mbind, sr_bind. cbn [sb_suite sb_metadata_suite buffer_view sb_impl].
  rewrite handle_in. unfold get_metadata. cbn [make_buffer_handle bh_buffer].
  destruct (cb_metadata bi) as [meta|]; [|done]. unfold lift. by rewrite calibration_exact.
Qed.

Lemma bm3d_runs : runs Bm3d (call Bm3d).
Proof using Henv Hfilters JL.
  unfold method, DenoiseBm3d_process. start. quietly; [apply quiet_formats|]. intros _ _. quietly; [apply quiet_sigma|].
  intros sigma _. by apply (submit_record Bm3d).
Qed.

(** The radius of the two nodes that have one is converted to [int] unchecked. *)
Definition radius_undefined (n : node) (p : ParamView) : Prop :=
  (n = GuidedFilter ∨ n = Usm) ∧ ∃ v, param_double_or p "radius" (f64 1 0) = Ok v ∧ int_of_double v = Undef.

Lemma radius_defined n :
  ¬ radius_undefined n pv → n = GuidedFilter ∨ n = Usm → defined (clamped_param_int_or pv "radius" 1 1 32).
Proof using JL.
  intros Hu Hn. unfold clamped_param_int_or. pose proof (double_or_returns pv "radius" (f64 1 0)) as Hr.
  destruct (param_double_or pv "radius" (f64 1 0)) as [v| | |] eqn:E; [|done..]. rewrite Ok_bind.
  destruct (int_of_double_cases v) as [Hv|[z ->]]; [|done]. exfalso. apply Hu. split; [done|eauto].
Qed.

Lemma radius_undef_runs n : radius_undefined n pv → call n w = (Undef, w).
Proof using JL.
  intros [Hn (v & Hd & Hv)].
  assert (Hr : clamped_param_int_or pv "radius" 1 1 32 = Undef).
  { unfold clamped_param_int_or. rewrite Hd, Ok_bind, Hv. done. }
  assert (Hb : ∀ name aot_id step block, block pv = Undef →
    param_node filters name aot_id step block compute_view pv [Some vi] [Some vo] [Some builder_view] w = (Undef, w)).
  { intros name aot_id step block Hb. unfold param_node, mbind, sr_bind, lift. cbn. by rewrite Hb. }
  destruct Hn as [-> | ->]; apply Hb; [unfold guided_params|unfold usm_params]; [by rewrite Hr|].
  destruct (float_or_Ok pv "strength" (f_lit 3 4) (f_lit 0 1) (f_lit 2 1)) as [x ->]. by rewrite Ok_bind, Hr.
Qed.

Lemma method_runs n :
  (∀ bpp, copies n = Some bpp → holds_pixels bi bo bpp) → ¬ radius_undefined n pv → runs n (call n).
Proof using Henv Hfilters JL.
  intros Hp Hu. pose proof (radius_defined n Hu) as Hr. destruct n.
  - apply linearize_runs.
  - apply blacklevel_runs.
  - by apply gainmap_runs, Hp.
  - by apply opcode3_runs, Hp.
  - by apply (demosaic_runs Bilinear).
  - by apply (demosaic_runs Rcd).
  - by apply (demosaic_runs Amaze).
  - by apply remosaic_runs, Hp.
  - apply colormatrix_runs.
  - apply precision_runs.
  - apply (param_node_runs GuidedFilter); [|done]. eapply returns_bind; [apply int_or_returns, Hr; by left|].
    intros r _. eapply returns_bind; [apply float_or_returns|done].
  - apply (param_node_runs Wavelet); [|done]. eapply returns_bind; [apply float_or_returns|done].
  - apply bm3d_runs.
  - apply (param_node_runs FilmicRgb); [|done]. do 5 (eapply returns_bind; [apply float_or_returns|intros ? _]). done.
  - apply (param_node_runs Reinhard); [|done]. eapply returns_bind; [apply double_or_returns|done].
  - apply (param_node_runs AcesFilmic); [|done]. eapply returns_bind; [apply bool_or_returns|done].
  - apply (param_node_runs Usm); [|done]. eapply returns_bind; [apply float_or_returns|]. intros s _.
    eapply returns_bind; [apply int_or_returns, Hr; by right|]. intros r _. eapply returns_bind; [apply float_or_returns|done].
Qed.

End Env.

(** C12: the contract of the image nodes, at the entry point of their plugins, for
    two distinct ready images, any metadata and parameters, and registered filters
    that return one of the declared statuses.  The one undefined case is the radius
    of the guided filter and of the sharpening: a parameter that is NaN or does not
    fit [int] is converted unchecked.  Otherwise the [process] call returns a
    status, an exception (a list of opcodes that does not fit in memory) included.
    On success exactly the node's step is appended to the metadata being built -
    and the CFA is gone after a demosaic, the colour role set after the colour
    matrix.  On failure the metadata is untouched.  In either case no buffer but
    the output has changed, of the output only the data, and every lock is
    released. *)
Theorem node_contract (n : node) (params : option json) (inst : nat) (w : World) (bi bo : CpuBuffer)
    (h : cpipe_metadata_builder_s) :
  node_env w bi bo h → inst ∈ w_instances w →
  (∀ id f, find_filter (halide_param_filters filters) id = Some f → ∀ hi ho blob mem, named (f hi ho blob mem).1) →
  (∀ bpp, copies n = Some bpp → holds_pixels bi bo bpp) →
  let call := dispatch (T := class_of (method n)) "process" false (Some inst) params
    (CtxProcess (mkProcessCtx false [Some (Some i)] [Some (Some o)] (Some [Some u]))) true w in
  (radius_undefined n (mkParamView params (Some SuiteParam)) → call.1 = Undef) ∧
  (¬ radius_undefined n (mkParamView params (Some SuiteParam)) →
   ∃ status w', call = (Ok (status, None), w') ∧
     (status = CPIPE_OK ∧ recorded n h w w' ∨ status ≠ CPIPE_OK ∧ written w w')).
Proof using JL.
  intros Henv Hinst Hf Hp call. set (pv := mkParamView params (Some SuiteParam)) in *.
  set (c := mkProcessCtx false [Some (Some i)] [Some (Some o)] (Some [Some u])) in *.
  assert (Hc : process_call (T := class_of (method n)) params c [Some builder_view]
    = method n compute_view pv [Some (buffer_view i)] [Some (buffer_view o)] [Some builder_view]) by done.
  split; intros Hr.
  - pose proof (radius_undef_runs w pv n Hr) as Hwp. rewrite <-Hc in Hwp.
    unfold call. by rewrite (dispatch_process_undef (T := class_of (method n)) inst params c [Some builder_view] w) by (done || by rewrite Hwp).
  - pose proof (method_runs w bi bo h Henv Hf pv n Hp Hr) as Hwp. unfold wp in Hwp. rewrite <-Hc in Hwp.
    unfold call. rewrite (dispatch_process_exact (T := class_of (method n)) inst params c [Some builder_view] w);
      [|done|done|by intros E; destruct (process_call _ _ _ w) as [[] ?]; naive_solver..].
    eexists _, _. split; [done|].
    destruct (process_call _ _ _ w) as [[[]|? ?|?|] w'] eqn:E; try done; [left; done|by right|right; by destruct Hwp].
Qed.

End Contract.

(** ** Witness *)

(** Two pixels. *)
Definition pair_layout (fmt : PixelFormat) : BufferLayout := mkLayout Image2D fmt 2 [2; 1; 0; 0; 0; 0; 0; 0] zeros8.

Definition pair_image (fmt : PixelFormat) (m : BufferMetadata) (data : bytes) : CpuBuffer :=
  mkCpuBuffer (pair_layout fmt) (usage_or usage_CpuRead usage_CpuWrite) "" (Some m) (Some data) (len data) false.

Definition pair_builder (m : BufferMetadata) : cpipe_metadata_builder_s := make_metadata_builder_handle (Some m) [Some m].

(** An input, an output and a builder; the node object is number seven. *)
Definition pair_world (bi bo : CpuBuffer) (h : cpipe_metadata_builder_s) : World := mkWorld [bi; bo] [h] {[7%nat]}.

Lemma pair_env fi fo m im om di do_ :
  halide_dimensions (pair_layout fi) = Ok di → halide_dimensions (pair_layout fo) = Ok do_ →
  (∀ key blob, find_blob m key = Some blob → bytes_ok blob) →
  node_env 0 1 0 (pair_world (pair_image fi m im) (pair_image fo m om) (pair_builder m))
    (pair_image fi m im) (pair_image fo m om) (pair_builder m).
Proof.
  intros Hi Ho Hb. split; try done.
  - exists (pair_image fi m im), di. by split_and!.
  - exists (pair_image fo m om), do_. by split_and!.
  - intros meta key blob [= <-]. apply Hb.
Qed.

(** The sharpening node with a filter that fills its output. *)
Definition example_registry : HalideFilterRegistry :=
  register_halide_param_filter (mkFilters ∅ ∅) "sharpen_edge_aware_usm" (Some example_filter).

Lemma node_contract_witness :
  let J := Tree.lib (λ _, None) in
  let b := pair_image R16G16B16A16_SFLOAT default_metadata (replicate 16 0) in
  let w := pair_world b b (pair_builder default_metadata) in
  ∃ status w',
    dispatch (H := J) (T := class_of (H := J) (method (J := J) example_registry 0 0 (λ _, 0) (λ _, true) Usm)) "process" false (Some 7%nat) None
      (CtxProcess (mkProcessCtx false [Some (Some 0%nat)] [Some (Some 1%nat)] (Some [Some 0%nat]))) true w = (Ok (status, None), w') ∧
    recorded 1 0 Usm (pair_builder default_metadata) w w'.
Proof.
  intros J b w.
  destruct (node_contract (J := J) (JL := Tree.lib_laws (λ _, None)) example_registry 0 0 (λ _, 0) (λ _, true) 0 1 0 Usm None 7%nat w b b
    (pair_builder default_metadata)) as [_ H]; [..|destruct H as (status & w' & Hcall & Hres)].
  - eapply pair_env; [reflexivity|reflexivity|]. intros key blob Hk. exfalso. revert Hk. unfold find_blob. cbn.
    by rewrite !andb_false_r.
  - reflexivity.
  - intros id f Hf hi ho blob mem. unfold find_filter, example_registry, register_halide_param_filter in Hf. cbn in Hf.
    destruct (decide (id = "sharpen_edge_aware_usm")) as [->|Hne].
    + rewrite lookup_insert_eq in Hf. simplify_eq. by exists CPIPE_OK.
    + by rewrite lookup_insert_ne in Hf by done.
  - done.
  - intros (_ & v & Hv & Hi). vm_compute in Hv. injection Hv as <-. by vm_compute in Hi.
  - exists status, w'. split; [exact Hcall|]. destruct Hres as [[_ H]|[Hs _]]; [exact H|]. exfalso. apply Hs.
    clear Hs. vm_compute in Hcall. by injection Hcall.
Defined.
