(* ===== verification/PointFilters.v ===== *)
(** * The pixel-wise filters of the raw nodes

    Models linearize_dng_lut_dispatch.cpp, blacklevel_dng_levels_dispatch.cpp,
    wb_dual_illuminant_dispatch.cpp and colormatrix_dng_to_working_dispatch.cpp of
    src/cpipe/nodes: each output sample depends on the samples of the same pixel
    and on the parameter block.  The descriptions of the buffers, their memory and
    the bit patterns of the samples are as in [LensFilter] and [GainFilter].

    The theorems: on the parameter block of its node and on dense images, each
    filter succeeds inside its buffers and every output sample is the documented
    function of the input pixel; the black-level filter stops on levels without
    range and otherwise stays between zero and one. *)

From Stdlib Require Import ZArith Lia SpecFloat.
From stdpp Require Import prelude strings list.
From S2P Require Import Prelude Core HalfFloat Float64 ComputeContext LensBlob LensFilter GainFilter StateRes Sdk Nodes.

Local Open Scope Z_scope.

Local Abbreviation fadd := (SFadd 24 128).
Local Abbreviation fsub := (SFsub 24 128).
Local Abbreviation fmul := (SFmul 24 128).
Local Abbreviation fdiv := (SFdiv 24 128).

(** A filter entry: the buffers come with their memory. *)
Abbreviation filter_type := (list (halide_buffer_t * bytes) → list (halide_buffer_t * bytes) → option bytes →
  res (cpipe_status_t * option bytes)).

(** The guard all four filters start with: one input, one output, a block that is
    long enough. *)
Definition param_filter (size : Z) (body : halide_buffer_t → halide_buffer_t → bytes → bytes → bytes →
    res (cpipe_status_t * bytes)) : filter_type := λ inputs outputs blob,
  match inputs, outputs, blob with
  | [(input, in_mem)], [(output, out_mem)], Some blob =>
      if len blob <? size then Ok (CPIPE_BAD_INDEX, Some out_mem) else
      '(status, mem) ← body input output in_mem out_mem blob; Ok (status, Some mem)
  | _, _, _ => Ok (CPIPE_BAD_INDEX, None)
  end.

(** The loops over rows and columns; a step may end them with a status. *)
Fixpoint pixel_loop (step : Z → Z → bytes → res (cpipe_status_t * bytes)) (ps : list (Z * Z)) (mem : bytes)
    : res (cpipe_status_t * bytes) :=
  match ps with
  | [] => Ok (CPIPE_OK, mem)
  | (x, y) :: ps =>
      '(status, mem) ← step x y mem;
      if decide (status = CPIPE_OK) then pixel_loop step ps mem else Ok (status, mem)
  end.

Definition over_image (input : halide_buffer_t) (step : Z → Z → bytes → res (cpipe_status_t * bytes)) (mem : bytes)
    : res (cpipe_status_t * bytes) :=
  d0 ← dim_at input 0; d1 ← dim_at input 1;
  pixel_loop step (pixels (hd_extent d0) (hd_extent d1)) mem.

Section Filters.

Variables (nan_bits nan_half : Z).

(** [out[i] = v] of a [float] pointer. *)
Definition write_float_at (mem : bytes) (i : Z) (v : float32) : res bytes :=
  write_struct [4%nat] mem (4 * i) [bits_of_float nan_bits v].

(** ** Linearization *)

Definition linearize_pixel (input output : halide_buffer_t) (in_mem blob : bytes) (last x y : Z) (mem : bytes)
    : res (cpipe_status_t * bytes) :=
  in_offset ← plane_offset input x y;
  out_offset ← plane_offset output x y;
  v ← host_read in_mem in_offset;
  l ← read_struct [2%nat] blob (4 + 2 * Z.min v last);
  mem ← write_float_at mem out_offset (float_of_int (field l 0));
  Ok (CPIPE_OK, mem).

Definition linearize_dng_lut_param : filter_type := param_filter 4 (λ input output in_mem out_mem blob,
  header ← read_struct [4%nat] blob 0;
  let table_size := field header 0 in
  if (table_size =? 0) || (len blob <? 4 + table_size * 2) then Ok (CPIPE_NEED_METADATA, out_mem) else
  over_image input (linearize_pixel input output in_mem blob (table_size - 1)) out_mem).

(** ** Black and white levels *)

Definition level_channel (params : list Z) (x y : Z) : Z :=
  Z.min (field params (5 + Z.to_nat (Z.land (u32 y) 1 * 2 + Z.land (u32 x) 1))) 3.

Definition level_black (params : list Z) (x y : Z) : float32 := float_of_bits (field params (Z.to_nat (level_channel params x y))).

Definition level_range (params : list Z) (x y : Z) : float32 := fsub (float_of_int (field params 4)) (level_black params x y).

Definition level_value (params : list Z) (x y : Z) (v : float32) : float32 :=
  clamp_float (fdiv (fsub v (level_black params x y)) (level_range params x y)) (f_lit 0 1) (f_lit 1 1).

Definition blacklevel_pixel (input output : halide_buffer_t) (in_mem : bytes) (params : list Z) (x y : Z) (mem : bytes)
    : res (cpipe_status_t * bytes) :=
  if SFleb (level_range params x y) (f_lit 0 1) then Ok (CPIPE_NEED_METADATA, mem) else
  in_offset ← plane_offset input x y;
  out_offset ← plane_offset output x y;
  v ← read_float_at in_mem in_offset;
  mem ← write_float_at mem out_offset (level_value params x y v);
  Ok (CPIPE_OK, mem).

Definition blacklevel_dng_levels_param : filter_type := param_filter 24 (λ input output in_mem out_mem blob,
  params ← read_struct blacklevel_widths blob 0;
  over_image input (blacklevel_pixel input output in_mem params) out_mem).

(** ** White balance *)

(** The channels of a pixel in order; the fourth is copied. *)
Definition wb_pixel (input output : halide_buffer_t) (in_mem : bytes) (neutral : list Z) (x y : Z) (mem : bytes)
    : res (cpipe_status_t * bytes) :=
  mem ← foldM (λ mem c,
    offset ← host_offset input x y c;
    out_offset ← host_offset output x y c;
    v ← host_read in_mem offset;
    host_write mem out_offset
      (if c =? 3 then v
       else half_bits nan_half (fdiv (half_value v) (float_of_bits (field neutral (Z.to_nat c)))))) mem [0; 1; 2; 3];
  Ok (CPIPE_OK, mem).

(** [WbParams]: fourteen floats. *)
Definition wb_dual_illuminant_param : filter_type := param_filter 56 (λ input output in_mem out_mem blob,
  params ← read_struct (replicate 14 4%nat) blob 0;
  over_image input (wb_pixel input output in_mem params) out_mem).

(** ** Colour matrix *)

Definition transform_row (t : list Z) (rgb : list float32) (r : nat) : float32 :=
  let m i := float_of_bits (field t i) in
  fadd (fadd (fmul (m (3 * r)%nat) (entry rgb 0)) (fmul (m (3 * r + 1)%nat) (entry rgb 1)))
       (fmul (m (3 * r + 2)%nat) (entry rgb 2)).

Definition colormatrix_pixel (input output : halide_buffer_t) (in_mem : bytes) (t : list Z) (x y : Z) (mem : bytes)
    : res (cpipe_status_t * bytes) :=
  rgb ← foldM (λ rgb c, offset ← host_offset input x y c; v ← host_read in_mem offset; Ok (rgb ++ [half_value v])) [] [0; 1; 2];
  mem ← foldM (λ mem c,
    out_offset ← host_offset output x y c;
    host_write mem out_offset (half_bits nan_half (transform_row t rgb (Z.to_nat c)))) mem [0; 1; 2];
  alpha_in ← host_offset input x y 3;
  alpha_out ← host_offset output x y 3;
  alpha ← host_read in_mem alpha_in;
  mem ← host_write mem alpha_out alpha;
  Ok (CPIPE_OK, mem).

Definition colormatrix_dng_to_working_param : filter_type := param_filter 36 (λ input output in_mem out_mem blob,
  t ← read_struct (replicate 9 4%nat) blob 0;
  over_image input (colormatrix_pixel input output in_mem t) out_mem).

End Filters.

(** ** Loops of writes *)

(** A loop whose steps each write one cell and keep the others fills all of them. *)
Lemma fill_cells {A} `{EqDecision A} (good : bytes → Prop) (cell : A → Prop) (get : bytes → A → res Z) (val : A → Z)
    (step : bytes → A → res bytes) (l : list A) (mem : bytes) :
  (∀ mem a, good mem → cell a → ∃ mem', step mem a = Ok mem' ∧ good mem' ∧ get mem' a = Ok (val a) ∧
     ∀ b, cell b → b ≠ a → get mem' b = get mem b) →
  Forall cell l → good mem →
  ∃ out, foldM step mem l = Ok out ∧ good out ∧ ∀ a, a ∈ l → get out a = Ok (val a).
Proof.
  intros Hstep Hl Hg. induction l as [|a l IH] using rev_ind; [exists mem; set_solver|].
  apply Forall_app in Hl as [Hl Ha]. apply Forall_cons in Ha as [Ha _]. destruct IH as (m1 & H1 & Hg1 & Hget); [done|].
  destruct (Hstep m1 a Hg1 Ha) as (m2 & H2 & Hg2 & Hsame & Hother). exists m2.
  rewrite foldM_app, H1, Ok_bind. cbn [foldM]. rewrite H2. split_and!; [done..|].
  intros b Hb. destruct (decide (b = a)) as [->|Hne]; [done|].
  apply elem_of_app in Hb as [Hb|Hb%list_elem_of_singleton]; [|done].
  rewrite Hother; [by apply Hget| |done]. rewrite Forall_forall in Hl. by apply Hl.
Qed.

Lemma foldM_ext {A B} (f g : B → A → res B) (l : list A) : ∀ b,
  (∀ b a, a ∈ l → f b a = g b a) → foldM f b l = foldM g b l.
Proof.
  induction l as [|a l IH]; intros b Hfg; [done|]. cbn [foldM]. rewrite Hfg by set_solver.
  destruct (g b a); try done. rewrite !Ok_bind. apply IH. set_solver.
Qed.

(** A loop without early returns is a fold. *)
Lemma pixel_loop_fold step (g : bytes → Z * Z → res bytes) ps : ∀ mem,
  (∀ x y mem, (x, y) ∈ ps → step x y mem = (m ← g mem (x, y); Ok (CPIPE_OK, m))) →
  pixel_loop step ps mem = (m ← foldM g mem ps; Ok (CPIPE_OK, m)).
Proof.
  induction ps as [|[x y] ps IH]; intros mem Hs; [done|]. cbn [pixel_loop foldM]. rewrite Hs by set_solver.
  destruct (g mem (x, y)) as [m| | |]; try done. rewrite !Ok_bind, decide_True by done. apply IH. set_solver.
Qed.

(** A filter on a block that is one struct of the expected size. *)
Lemma block_filter size widths fields (body : list Z → halide_buffer_t → halide_buffer_t → bytes → bytes → res (cpipe_status_t * bytes))
    input output in_mem out_mem :
  Forall2 fits widths fields → struct_size widths = size →
  param_filter size (λ input output in_mem out_mem blob, l ← read_struct widths blob 0; body l input output in_mem out_mem)
    [(input, in_mem)] [(output, out_mem)] (Some (struct_bytes widths fields))
  = (r ← body fields input output in_mem out_mem; Ok (r.1, Some r.2)).
Proof.
  intros Hf Hs. unfold param_filter.
  assert (len (struct_bytes widths fields) = size) as ->.
  { unfold len. rewrite length_struct_bytes by (symmetry; by apply (Forall2_length _ _ _ Hf)). done. }
  rewrite Z.ltb_irrefl. pose proof (read_struct_at widths fields [] [] 0 Hf eq_refl) as Hr.
  rewrite app_nil_l, app_nil_r in Hr. rewrite Hr, Ok_bind. by destruct (body _ _ _ _ _) as [[]| | |].
Qed.

Section Image.

Variables (nan_bits nan_half width height : Z) (input output : halide_buffer_t) (in_mem out_mem : bytes).
Hypothesis Hw : 0 < width.
Hypothesis Hh : 0 < height.
Hypothesis Hin_ok : bytes_ok in_mem.

(** *** Single-channel images *)

Section Plane.

Hypothesis Hsize : width * height < 2 ^ 31.
Hypothesis Hout : r32_buffer width height output.
Hypothesis Hlen_out : len out_mem = 4 * (width * height).

(** The bits of the output sample of a pixel. *)
Definition float_px (mem : bytes) (p : Z * Z) : res Z :=
  l ← read_struct [4%nat] mem (4 * (p.2 * width + p.1)); Ok (field l 0).

Lemma pixel_index_inj x y x' y' :
  in_image width height x y → in_image width height x' y' → y * width + x = y' * width + x' → x = x' ∧ y = y'.
Proof using Hw. intros [Hx Hy] [Hx' Hy'] Heq. destruct (Z.div_mod_unique width y y' x x') as [-> ->]; lia. Qed.

(** A loop that computes one float per pixel. *)
Lemma float_loop (step : Z → Z → bytes → res (cpipe_status_t * bytes)) (val : Z → Z → float32) :
  (∀ x y mem, in_image width height x y →
     step x y mem = (m ← write_float_at nan_bits mem (y * width + x) (val x y); Ok (CPIPE_OK, m))) →
  ∃ out, pixel_loop step (pixels width height) out_mem = Ok (CPIPE_OK, out) ∧ len out = 4 * (width * height) ∧
    ∀ x y, in_image width height x y → float_px out (x, y) = Ok (bits_of_float nan_bits (val x y)).
Proof using Hw Hh Hlen_out.
  intros Hs. rewrite (pixel_loop_fold step (λ mem p, write_float_at nan_bits mem (p.2 * width + p.1) (val p.1 p.2)))
    by (intros x y mem Hp%pixels_in; by apply Hs).
  destruct (fill_cells (λ mem, len mem = 4 * (width * height)) (λ p, in_image width height p.1 p.2) float_px
    (λ p, bits_of_float nan_bits (val p.1 p.2)) (λ mem p, write_float_at nan_bits mem (p.2 * width + p.1) (val p.1 p.2))
    (pixels width height) out_mem) as (out & Hf & Hl & Hpx); [| |done|].
  - intros mem [x y] Hm [Hx Hy]. cbn [fst snd]. unfold write_float_at, float_px. cbn [fst snd] in *.
    destruct (write_struct_same mem (y * width + x) (bits_of_float nan_bits (val x y))) as (mem' & Hwr & Hl' & Hrd);
      [by apply wrap_bound|nia|nia|]. exists mem'. split_and!; [done|lia|by rewrite Hrd|].
    intros [x' y'] [Hx' Hy'] Hne. cbn [fst snd] in *. rewrite (write_struct_other _ _ _ _ _ Hwr); [done|nia|].
    intros Heq. apply Hne. destruct (pixel_index_inj x y x' y') as [-> ->]; [split; lia..|lia|done].
  - apply Forall_forall. intros [x y] Hp. by apply pixels_in.
  - exists out. rewrite Hf. split_and!; [done..|]. intros x y Hp. by apply (Hpx (x, y)), pixels_in.
Qed.

(** *** Linearization *)

Hypothesis Hin : r32_buffer width height input.

Lemma over_plane step : over_image input step out_mem = pixel_loop step (pixels width height) out_mem.
Proof using Hin. unfold over_image. by rewrite !(dim_at_r32 width height input _ Hin). Qed.

Lemma plane_offsets x y :
  in_image width height x y → plane_offset input x y = Ok (y * width + x) ∧ plane_offset output x y = Ok (y * width + x) ∧
  0 ≤ y * width + x < width * height.
Proof using Hw Hh Hsize Hin Hout.
  intros Hp. destruct (plane_offset_in width height input x y Hw Hh Hsize Hin Hp) as [H1 Hr].
  by destruct (plane_offset_in width height output x y Hw Hh Hsize Hout Hp) as [H2 _].
Qed.

(** The block the node builds. *)
Definition linearize_blob (table : list Z) : bytes :=
  struct_bytes [4%nat] [u32 (len table)] ++ concat ((λ v, struct_bytes [2%nat] [v]) <$> table).

Lemma linearize_blob_reads table :
  Forall (is_u 16) table → len table < 2 ^ 32 →
  len (linearize_blob table) = 4 + len table * 2 ∧ read_struct [4%nat] (linearize_blob table) 0 = Ok [len table] ∧
  ∀ k t, table !! k = Some t → read_struct [2%nat] (linearize_blob table) (4 + 2 * Z.of_nat k) = Ok [t].
Proof.
  intros Ht Hl. pose proof (len_nonneg table).
  assert (Hfit : Forall (Forall2 fits [2%nat]) ((λ v, [v]) <$> table)).
  { apply Forall_fmap. eapply Forall_impl; [exact Ht|]. intros v Hv. constructor; [done|constructor]. }
  assert (Heq : linearize_blob table = struct_bytes [4%nat] [len table] ++ concat (struct_bytes [2%nat] <$> ((λ v, [v]) <$> table))).
  { unfold linearize_blob. by rewrite u32_small, <-list_fmap_compose by lia. }
  rewrite Heq. split_and!.
  - rewrite len_app, len_table by done. change (struct_size [2%nat]) with 2.
    change (len (struct_bytes [4%nat] [len table])) with 4. unfold len. rewrite length_fmap. lia.
  - rewrite <-(app_nil_l (struct_bytes [4%nat] _ ++ _)). apply read_struct_at; [|done]. constructor; [by apply fits4|constructor].
  - intros k t Hk. rewrite <-(app_nil_r (_ ++ _)), <-app_assoc.
    replace (4 + 2 * Z.of_nat k) with (len (struct_bytes [4%nat] [len table]) + Z.of_nat k * struct_size [2%nat])
      by (change (len (struct_bytes [4%nat] [len table])) with 4; change (struct_size [2%nat]) with 2; lia).
    erewrite read_struct_table; [done|done|by rewrite list_lookup_fmap, Hk].
Qed.

(** The table entry of a sample: samples beyond the table take its last entry. *)
Definition table_value (table : list Z) (v : Z) : Z := default 0 (table !! Z.to_nat (Z.min v (len table - 1))).

Lemma linearize_pixels (table : list Z) :
  len in_mem = 2 * (width * height) → Forall (is_u 16) table → 0 < len table < 2 ^ 32 →
  ∃ out, linearize_dng_lut_param nan_bits [(input, in_mem)] [(output, out_mem)] (Some (linearize_blob table))
      = Ok (CPIPE_OK, Some out) ∧
    len out = 4 * (width * height) ∧
    ∀ x y, in_image width height x y → ∃ v, host_read in_mem (y * width + x) = Ok v ∧
      float_px out (x, y) = Ok (bits_of_float nan_bits (float_of_int (table_value table v))).
Proof using Hw Hh Hin_ok Hsize Hout Hlen_out Hin.
  intros Hl Ht Htl. destruct (linearize_blob_reads table) as (Hbl & Hhd & Hent); [done|lia|].
  assert (Hrd : ∀ x y, in_image width height x y → ∃ v, host_read in_mem (y * width + x) = Ok v ∧ 0 ≤ v).
  { intros x y Hp. destruct (plane_offsets x y Hp) as (_ & _ & Hr).
    destruct (host_read_defined in_mem (y * width + x)) as (v & Hv & Hu); [done|lia|lia|]. exists v. unfold is_u in Hu. split; [done|lia]. }
  set (val x y := float_of_int (table_value table (value_of 0 (host_read in_mem (y * width + x))))).
  destruct (float_loop (linearize_pixel nan_bits input output in_mem (linearize_blob table) (len table - 1)) val)
    as (out & Hrun & Hlo & Hpx).
  - intros x y mem Hp. unfold linearize_pixel, val. destruct (plane_offsets x y Hp) as (-> & -> & _). rewrite !Ok_bind.
    destruct (Hrd x y Hp) as (v & -> & Hv). rewrite Ok_bind. cbn [value_of].
    destruct (lookup_lt_is_Some_2 table (Z.to_nat (Z.min v (len table - 1)))) as [t Hlk]; [unfold len in *; lia|].
    unfold table_value. rewrite Hlk. specialize (Hent _ _ Hlk). rewrite Z2Nat.id in Hent by lia. by rewrite Hent.
  - exists out. split_and!; [|done|].
    + unfold linearize_dng_lut_param, param_filter. rewrite Hbl, (proj2 (Z.ltb_ge _ _)), Hhd, Ok_bind by lia.
      change (field [len table] 0) with (len table). rewrite (proj2 (Z.eqb_neq _ _)), (proj2 (Z.ltb_ge _ _)) by lia.
      cbn [orb]. by rewrite over_plane, Hrun.
    + intros x y Hp. destruct (Hrd x y Hp) as (v & Hv & _). exists v. split; [done|]. rewrite (Hpx x y Hp). unfold val. by rewrite Hv.
Qed.

(** *** Black and white levels *)

Hypothesis Hlen_in : len in_mem = 4 * (width * height).

Variables (params : list Z).
Hypothesis Hparams : Forall2 fits blacklevel_widths params.

Local Abbreviation block := (struct_bytes blacklevel_widths params).
Local Abbreviation blacklevel := (blacklevel_dng_levels_param nan_bits [(input, in_mem)] [(output, out_mem)] (Some block)).

Lemma blacklevel_body :
  blacklevel = (r ← pixel_loop (blacklevel_pixel nan_bits input output in_mem params) (pixels width height) out_mem; Ok (r.1, Some r.2)).
Proof using Hparams Hin.
  unfold blacklevel_dng_levels_param. erewrite block_filter; [|exact Hparams|done]. by rewrite over_plane.
Qed.

Lemma read_float_px x y : in_image width height x y → ∃ v, read_float_at in_mem (y * width + x) = Ok v.
Proof using Hw Hh Hin_ok Hsize Hout Hin Hlen_in.
  intros Hp. destruct (plane_offsets x y Hp) as (_ & _ & Hr). by apply (read_float_in width height in_mem).
Qed.

Lemma blacklevel_pixels :
  (∀ x y, in_image width height x y → SFleb (level_range params x y) (f_lit 0 1) = false) →
  ∃ out, blacklevel = Ok (CPIPE_OK, Some out) ∧ len out = 4 * (width * height) ∧
    ∀ x y, in_image width height x y → ∃ v, read_float_at in_mem (y * width + x) = Ok v ∧
      float_px out (x, y) = Ok (bits_of_float nan_bits (level_value params x y v)).
Proof using Hw Hh Hin_ok Hsize Hout Hlen_out Hin Hlen_in Hparams.
  intros Hrange. rewrite blacklevel_body.
  set (val x y := level_value params x y (value_of f_zero (read_float_at in_mem (y * width + x)))).
  destruct (float_loop (blacklevel_pixel nan_bits input output in_mem params) val) as (out & Hrun & Hlo & Hpx).
  - intros x y mem Hp. unfold blacklevel_pixel, val. rewrite Hrange by done. destruct (plane_offsets x y Hp) as (-> & -> & _).
    rewrite !Ok_bind. by destruct (read_float_px x y Hp) as [v ->].
  - exists out. rewrite Hrun. split_and!; [done|done|]. intros x y Hp. destruct (read_float_px x y Hp) as [v Hv]. exists v.
    split; [done|]. rewrite (Hpx x y Hp). unfold val. by rewrite Hv.
Qed.

(** Levels without range end the loop. *)
Lemma blacklevel_stops x y :
  in_image width height x y → SFleb (level_range params x y) (f_lit 0 1) = true →
  ∃ out, blacklevel = Ok (CPIPE_NEED_METADATA, Some out).
Proof using Hw Hh Hin_ok Hsize Hout Hlen_out Hin Hlen_in Hparams.
  intros Hp Hr. rewrite blacklevel_body. apply pixels_in in Hp.
  assert (Hin_all : ∀ x y, (x, y) ∈ pixels width height → in_image width height x y) by (intros ? ?; by apply pixels_in).
  set (step := blacklevel_pixel nan_bits input output in_mem params).
  assert (Hst : ∀ x y mem, step x y mem = blacklevel_pixel nan_bits input output in_mem params x y mem) by done. clearbody step.
  revert Hp Hin_all Hlen_out. generalize out_mem. generalize (pixels width height).
  induction l as [|[x' y'] ps IH]; intros mem Hp Hin_all Hm; [by apply not_elem_of_nil in Hp|]. cbn [pixel_loop]. rewrite (Hst x' y').
  unfold blacklevel_pixel.   destruct (SFleb (level_range params x' y') (f_lit 0 1)) eqn:E; [by eexists|].
  assert (Hp' : in_image width height x' y') by (apply Hin_all; set_solver).
  destruct (plane_offsets x' y' Hp') as (-> & -> & Hoff). rewrite !Ok_bind.
  destruct (read_float_px x' y' Hp') as [v ->]. rewrite !Ok_bind.
  unfold write_float_at. destruct (write_struct_same mem (y' * width + x') (bits_of_float nan_bits (level_value params x' y' v)))
    as (mem' & -> & Hl' & _); [by apply wrap_bound|lia|lia|]. rewrite !Ok_bind, decide_True by done.
  apply IH; [|intros; apply Hin_all; set_solver|lia]. apply elem_of_cons in Hp as [[= -> ->]|Hp]; [congruence|done].
Qed.

End Plane.
End Image.

(** A clamped value is between the bounds, unless it is NaN. *)
Lemma clamp_unit v :
  clamp_float v (f_lit 0 1) (f_lit 1 1) = S754_nan ∨
  (SFleb (f_lit 0 1) (clamp_float v (f_lit 0 1) (f_lit 1 1)) = true ∧ SFleb (clamp_float v (f_lit 0 1) (f_lit 1 1)) (f_lit 1 1) = true).
Proof.
  unfold clamp_float. destruct (SFltb v (f_lit 0 1)) eqn:E0; [right; by vm_compute|].
  destruct (SFltb (f_lit 1 1) v) eqn:E1; [right; by vm_compute|].
  assert (v = S754_nan ∨ v ≠ S754_nan) as [->|Hn] by (destruct v; auto); [by left|right]. revert E0 E1. unfold SFltb, SFleb.
  rewrite (compare_sym (f_lit 0 1) v), (compare_sym v (f_lit 1 1)).
  change (f_lit 0 1) with (S754_zero false). set (one := f_lit 1 1).
  assert (Hone : one = S754_finite false 8388608 (-23)) by (by vm_compute). clearbody one. subst one.
  destruct (SFcompare v (S754_zero false)) as [[]|] eqn:C0, (SFcompare (S754_finite false 8388608 (-23)) v) as [[]|] eqn:C1; try done.
  all: exfalso; destruct v; simpl in *; congruence.
Qed.

(** *** Images with four channels *)

Section Rgba.

Variables (nan_half width height : Z) (input output : halide_buffer_t) (in_mem out_mem : bytes).
Hypothesis Hw : 0 < width.
Hypothesis Hh : 0 < height.
Hypothesis Hsize : width * height * 4 < 2 ^ 31.
Hypothesis Hin : rgba_buffer width height input.
Hypothesis Hout : rgba_buffer width height output.
Hypothesis Hin_ok : bytes_ok in_mem.
Hypothesis Hlen_in : memory_ok width height in_mem.
Hypothesis Hlen_out : memory_ok width height out_mem.

Lemma over_rgba step : over_image input step out_mem = pixel_loop step (pixels width height) out_mem.
Proof using Hin. unfold over_image. by rewrite !(dim_at_rgba width height input _ Hin). Qed.

Lemma rgba_loop (step : Z → Z → bytes → res (cpipe_status_t * bytes)) (val : Z → Z → Z → Z) :
  (∀ x y mem, in_image width height x y →
     step x y mem = (m ← foldM (λ mem c, host_write mem ((y * width + x) * 4 + c) (val x y c)) mem [0; 1; 2; 3]; Ok (CPIPE_OK, m))) →
  ∃ out, pixel_loop step (pixels width height) out_mem = Ok (CPIPE_OK, out) ∧ memory_ok width height out ∧
    ∀ x y c, in_image width height x y → 0 ≤ c < 4 → host_px width out x y c = Ok (u16 (val x y c)).
Proof using Hw Hh Hsize Hlen_out.
  intros Hs. set (g mem (s : Z * Z * Z) := let '(x, y, c) := s in host_write mem ((y * width + x) * 4 + c) (val x y c)).
  rewrite (pixel_loop_fold step (λ mem p, foldM g mem (let '(x, y) := p in [(x, y, 0); (x, y, 1); (x, y, 2); (x, y, 3)])))
    by (intros x y mem Hp%pixels_in; by apply Hs).
  rewrite (foldM_nested (λ p : Z * Z, let '(x, y) := p in [(x, y, 0); (x, y, 1); (x, y, 2); (x, y, 3)]) g).
  change (pixels width height ≫= _) with (samples width height).
  destruct (fill_cells (memory_ok width height) (λ s, in_image width height s.1.1 s.1.2 ∧ 0 ≤ s.2 < 4)
    (λ mem s, host_px width mem s.1.1 s.1.2 s.2) (λ s, u16 (val s.1.1 s.1.2 s.2)) g (samples width height) out_mem)
    as (out & Hf & Hl & Hpx); [| |done|].
  - intros mem [[x y] c] Hm [Hp Hc]. cbn [fst snd] in *. destruct (pixel_offset_in width height Hw Hh Hsize x y c Hp Hc) as [_ Hr].
    destruct (host_write_spec mem ((y * width + x) * 4 + c) (val x y c)) as (mem' & H1 & H2 & H3 & H4);
      [lia|unfold memory_ok in Hm; lia|]. exists mem'. split_and!; [done|unfold memory_ok in *; lia|done|].
    intros [[x' y'] c'] [Hp' Hc'] Hne. cbn [fst snd] in *. unfold host_px.
    destruct (pixel_offset_in width height Hw Hh Hsize x' y' c' Hp' Hc') as [_ Hr']. apply H4; [lia|]. intros Heq. apply Hne.
    by destruct (pixel_offset_inj width height Hw x' y' c' x y c Hp' Hc' Hp Hc Heq) as (-> & -> & ->).
  - apply Forall_forall. intros [[x y] c] Hp. by apply samples_in.
  - exists out. rewrite Hf. split_and!; [done..|]. intros x y c Hp Hc. by apply (Hpx (x, y, c)), samples_in.
Qed.

Lemma rgba_read x y c :
  in_image width height x y → 0 ≤ c < 4 → ∃ v, host_read in_mem ((y * width + x) * 4 + c) = Ok v ∧ is_u 16 v.
Proof using Hw Hh Hsize Hin_ok Hlen_in.
  intros Hp Hc. destruct (pixel_offset_in width height Hw Hh Hsize x y c Hp Hc) as [_ Hr].
  apply host_read_defined; [done|lia|unfold memory_ok in Hlen_in; lia].
Qed.

Lemma rgba_offsets x y c :
  in_image width height x y → 0 ≤ c < 4 →
  host_offset input x y c = Ok ((y * width + x) * 4 + c) ∧ host_offset output x y c = Ok ((y * width + x) * 4 + c).
Proof using Hw Hh Hsize Hin Hout. intros Hp Hc. split; by apply (host_offset_in width height). Qed.

(** The sample of a channel, as the filters read it. *)
Definition sample (x y c : Z) : Z := value_of 0 (host_px width in_mem x y c).

Lemma sample_read x y c :
  in_image width height x y → 0 ≤ c < 4 → host_read in_mem ((y * width + x) * 4 + c) = Ok (sample x y c) ∧ is_u 16 (sample x y c).
Proof using Hw Hh Hsize Hin_ok Hlen_in.
  intros Hp Hc. unfold sample, host_px. by destruct (rgba_read x y c Hp Hc) as (v & -> & Hv).
Qed.

(** *** White balance *)

Definition balanced (neutral : list Z) (x y c : Z) : Z :=
  if c =? 3 then sample x y 3
  else half_bits nan_half (SFdiv 24 128 (half_value (sample x y c)) (float_of_bits (field neutral (Z.to_nat c)))).

Lemma wb_pixels (params : list Z) :
  Forall2 fits (replicate 14 4%nat) params →
  ∃ out, wb_dual_illuminant_param nan_half [(input, in_mem)] [(output, out_mem)]
      (Some (struct_bytes (replicate 14 4%nat) params)) = Ok (CPIPE_OK, Some out) ∧ memory_ok width height out ∧
    ∀ x y c, in_image width height x y → 0 ≤ c < 4 → host_px width out x y c = Ok (u16 (balanced params x y c)).
Proof using Hw Hh Hsize Hin Hout Hin_ok Hlen_in Hlen_out.
  intros Hp. destruct (rgba_loop (wb_pixel nan_half input output in_mem params) (balanced params)) as (out & Hrun & Hl & Hpx).
  - intros x y mem Hpx. unfold wb_pixel. f_equal. apply foldM_ext. intros m c Hc%(channel_bound _ _ channels4).
    destruct (rgba_offsets x y c Hpx Hc) as [-> ->]. rewrite !Ok_bind, (proj1 (sample_read x y c Hpx Hc)), Ok_bind.
    unfold balanced. destruct (Z.eqb_spec c 3) as [->|]; done.
  - exists out. split_and!; [|done|done]. unfold wb_dual_illuminant_param. erewrite block_filter; [|exact Hp|done].
    by rewrite over_rgba, Hrun.
Qed.

(** *** Colour matrix *)

(** The three colour channels of a pixel as floats. *)
Definition rgb_of (x y : Z) : list float32 := [half_value (sample x y 0); half_value (sample x y 1); half_value (sample x y 2)].

Definition transformed (t : list Z) (x y c : Z) : Z :=
  if c =? 3 then sample x y 3 else half_bits nan_half (transform_row t (rgb_of x y) (Z.to_nat c)).

Lemma colormatrix_pixel_exact t x y mem :
  in_image width height x y →
  colormatrix_pixel nan_half input output in_mem t x y mem
  = (m ← foldM (λ mem c, host_write mem ((y * width + x) * 4 + c) (transformed t x y c)) mem [0; 1; 2; 3]; Ok (CPIPE_OK, m)).
Proof using Hw Hh Hsize Hin Hout Hin_ok Hlen_in Hlen_out.
  intros Hp. change [0; 1; 2; 3] with ([0; 1; 2] ++ [3]). rewrite foldM_app. unfold colormatrix_pixel.
  assert (Hrgb : foldM (λ rgb c, offset ← host_offset input x y c; v ← host_read in_mem offset; Ok (rgb ++ [half_value v])) [] [0; 1; 2]
    = Ok (rgb_of x y)).
  { rewrite (foldM_ext _ (λ rgb c, Ok (rgb ++ [half_value (sample x y c)]))); [done|]. intros l c Hc%(channel_bound _ _ channels3).
    destruct (rgba_offsets x y c Hp Hc) as [-> _]. by rewrite Ok_bind, (proj1 (sample_read x y c Hp Hc)). }
  rewrite Hrgb, Ok_bind.
  rewrite (foldM_ext _ (λ mem c, host_write mem ((y * width + x) * 4 + c) (transformed t x y c)) [0; 1; 2]).
  2: { intros m c Hc. pose proof (channel_bound _ _ channels3 Hc) as Hc4. destruct (rgba_offsets x y c Hp Hc4) as [_ ->].
       rewrite Ok_bind. unfold transformed. destruct (Z.eqb_spec c 3) as [->|]; [set_solver|done]. }
  destruct (foldM _ mem [0; 1; 2]) as [m| | |]; try done. rewrite !Ok_bind. cbn [foldM].
  destruct (rgba_offsets x y 3 Hp ltac:(lia)) as [-> ->]. rewrite !Ok_bind, (proj1 (sample_read x y 3 Hp ltac:(lia))), Ok_bind.
  unfold transformed. cbn [Z.eqb Pos.eqb]. by destruct (host_write m _ _).
Qed.

Lemma colormatrix_pixels (t : list Z) :
  Forall2 fits (replicate 9 4%nat) t →
  ∃ out, colormatrix_dng_to_working_param nan_half [(input, in_mem)] [(output, out_mem)]
      (Some (struct_bytes (replicate 9 4%nat) t)) = Ok (CPIPE_OK, Some out) ∧ memory_ok width height out ∧
    ∀ x y c, in_image width height x y → 0 ≤ c < 4 → host_px width out x y c = Ok (u16 (transformed t x y c)).
Proof using Hw Hh Hsize Hin Hout Hin_ok Hlen_in Hlen_out.
  intros Ht. destruct (rgba_loop (colormatrix_pixel nan_half input output in_mem t) (transformed t)) as (out & Hrun & Hl & Hpx);
    [intros x y mem; apply colormatrix_pixel_exact|].
  exists out. split_and!; [|done|done]. unfold colormatrix_dng_to_working_param. erewrite block_filter; [|exact Ht|done].
  by rewrite over_rgba, Hrun.
Qed.

End Rgba.
