(* ===== verification/RawDevelop.v ===== *)
(** * Raw development, from the call to the pixels

    [NodeContract] holds for arbitrary filters.  Here the registered filters are
    the ones of the program: [implements] says that the compiled filter does what
    its C++ body does whenever that is defined.  For the nodes of the raw front end
    a [process] call at the plugin entry point, on dense images, is followed
    through the SDK, the host suites, the compute context, the Halide description
    of the buffers and the filter to the value of every output sample. *)

From Stdlib Require Import ZArith Lia SpecFloat.
From stdpp Require Import prelude strings list gmap.
From S2P Require Import Prelude Core Json HalfFloat HostContext Float32 Float64 ComputeContext OpcodeReader OpcodeList2.
From S2P Require Import OpcodeList3 LensBlob LensFilter GainFilter StateRes Sdk Nodes NodeContract PointFilters.

Local Open Scope Z_scope.

(** The registered entry runs the filter on the memory of the described buffers. *)
Definition implements (f : HalideParamFilterEntry) (g : filter_type) : Prop :=
  ∀ hi ho im om blob mem st out,
    mem !! hb_host hi = Some (Some im) → mem !! hb_host ho = Some (Some om) →
    g [(hi, im)] [(ho, om)] (Some blob) = Ok (st, Some out) → f [hi] [ho] blob mem = (status_int st, [Some out]).

(** Such an entry exists for every filter. *)
Definition filter_entry (g : filter_type) : HalideParamFilterEntry := λ his hos blob mem,
  match his, hos with
  | [hi], [ho] =>
      match mem !! hb_host hi, mem !! hb_host ho with
      | Some (Some im), Some (Some om) =>
          match g [(hi, im)] [(ho, om)] (Some blob) with
          | Ok (st, Some out) => (status_int st, [Some out])
          | _ => (status_int CPIPE_FAILED, [])
          end
      | _, _ => (status_int CPIPE_FAILED, [])
      end
  | _, _ => (status_int CPIPE_FAILED, [])
  end.

Lemma filter_entry_implements g : implements (filter_entry g) g.
Proof. intros hi ho im om blob mem st out Hi Ho Hg. unfold filter_entry. by rewrite Hi, Ho, Hg. Qed.

(** ** Floats in memory *)

(** The fields of a bit pattern. *)
Lemma bit_fields (s : bool) (e m : Z) :
  0 ≤ e < 256 → 0 ≤ m < 2 ^ 23 →
  let b := (if s then 2 ^ 31 else 0) + e * 2 ^ 23 + m in
  u32 b = b ∧ Z.testbit b 31 = s ∧ Z.land (Z.shiftr b 23) 0xff = e ∧ Z.land b 0x7fffff = m.
Proof.
  intros He Hm b. assert (Hb : 0 ≤ b < 2 ^ 32) by (unfold b; destruct s; lia). split; [by apply u32_small|].
  assert (Hd : b / 2 ^ 23 = (if s then 256 else 0) + e).
  { unfold b. symmetry. apply (Z.div_unique_pos _ _ _ m); destruct s; lia. }
  assert (Hh : b / 2 ^ 31 = if s then 1 else 0).
  { symmetry. apply (Z.div_unique_pos _ _ _ (e * 2 ^ 23 + m)); unfold b; destruct s; lia. }
  split_and!.
  - apply Z.b2z_inj. rewrite Z.testbit_spec', Hh by lia. by destruct s.
  - change 0xff with (Z.ones 8). rewrite Z.land_ones, Z.shiftr_div_pow2, Hd by lia.
    symmetry. apply (Z.mod_unique_pos _ _ (if s then 1 else 0)); destruct s; lia.
  - change 0x7fffff with (Z.ones 23). rewrite Z.land_ones by lia.
    symmetry. apply (Z.mod_unique_pos _ _ ((if s then 256 else 0) + e)); unfold b; destruct s; lia.
Qed.

(** A float of the program: its mantissa and exponent are those of a [float]. *)
Definition is_float (v : float32) : Prop := valid_binary 24 128 v = true.

Lemma finite_cases s m e :
  is_float (S754_finite s m e) → (Z.pos m < 2 ^ 23 ∧ e = -149) ∨ (2 ^ 23 ≤ Z.pos m < 2 ^ 24 ∧ -149 ≤ e ≤ 104).
Proof.
  unfold is_float, valid_binary, bounded, canonical_mantissa, fexp, emin. intros [Hc%Zeq_bool_eq He%Zle_bool_imp_le]%andb_true_iff.
  pose proof (digits2_bounds m) as [Hlo Hhi]. set (d := Z.pos (digits2_pos m)) in *.
  destruct (decide (d < 24)).
  - left. split; [|lia]. assert (2 ^ d ≤ 2 ^ 23) by (apply Z.pow_le_mono_r; lia). lia.
  - right. assert (d = 24) as Hd by lia. rewrite Hd in Hlo, Hhi. lia.
Qed.

(** Storing a float and loading it again gives the same value. *)
Lemma float_bits_roundtrip nan_bits v :
  is_float v → float_of_bits (u32 nan_bits) = S754_nan → float_of_bits (bits_of_float nan_bits v) = v.
Proof.
  intros Hv Hn. destruct v as [s|s| |s m e]; [by destruct s|by destruct s|exact Hn|]. unfold bits_of_float.
  destruct (finite_cases s m e Hv) as [[Hm ->]|[Hm He]].
  - rewrite (proj2 (Z.ltb_lt _ _)) by done. destruct (bit_fields s 0 (Z.pos m)) as (Hu & Hs & Hx & Hl); [lia..|].
    rewrite Z.mul_0_l, Z.add_0_r in *. rewrite Hu. unfold float_of_bits. by rewrite Hs, Hx, Hl.
  - rewrite (proj2 (Z.ltb_ge _ _)) by lia. destruct (bit_fields s (e + 150) (Z.pos m - 2 ^ 23)) as (Hu & Hs & Hx & Hl); [lia..|].
    rewrite Z.add_assoc, Hu. unfold float_of_bits. rewrite Hs, Hx, Hl.
    rewrite (proj2 (Z.eqb_neq (e + 150) 255)), (proj2 (Z.eqb_neq (e + 150) 0)) by lia.
    assert (Z.lor (Z.pos m - 2 ^ 23) 0x800000 = Z.pos m) as ->; [|f_equal; lia].
    change 0x800000 with (2 ^ 23). rewrite <-Z.add_nocarry_lor; [lia|].
    apply Z.bits_inj'. intros k Hk. rewrite Z.land_spec, Z.pow2_bits_eqb, Z.bits_0 by lia.
    destruct (Z.eqb_spec 23 k) as [<-|]; [|apply andb_false_r]. rewrite andb_true_r.
    apply Z.testbit_false; [lia|]. by rewrite Z.div_small by lia.
Qed.

(** ** Dense images *)

Record dense_image (fmt : PixelFormat) (width height : Z) (b : CpuBuffer) (mem : bytes) : Prop := {
  di_kind : kind (cb_layout b) = Image2D;
  di_format : format (cb_layout b) = fmt;
  di_ndim : ndim (cb_layout b) = 2;
  di_dims : ∃ rest, dims (cb_layout b) = width :: height :: rest;
  di_stride : Forall (λ s, s = 0) (stride (cb_layout b));
  di_data : cb_data b = Some mem;
  di_len : len mem = bytes_per_pixel fmt * (width * height)
}.

(** One dimension of a dense image. *)
Lemma dense_step l cb n i s d :
  array8 (stride l) i = Ok 0 → array8 (dims l) i = Ok d → 0 ≤ d < 2 ^ 31 → 0 ≤ s * d < 2 ^ 31 →
  dense_dimensions l cb (S n) i s = (rest ← dense_dimensions l cb n (S i) (s * d); Ok (mkHDim 0 d s :: rest)).
Proof.
  intros Hs Hd Hb Hp. cbn [dense_dimensions]. rewrite Hs, Ok_bind. cbn [Z.eqb].
  by rewrite Ok_bind, Hd, Ok_bind, i32_small, imul32_Ok, Ok_bind by lia.
Qed.

(** A single-channel image is described by its two extents. *)
Lemma plane_dimensions fmt width height b mem :
  dense_image fmt width height b mem → channel_count fmt = 1 → 0 < width → 0 < height → width * height < 2 ^ 31 →
  halide_dimensions (cb_layout b) = Ok [mkHDim 0 width 1; mkHDim 0 height width].
Proof.
  intros [Hk Hf Hn [rest Hd] Hs _ _] Hc Hw Hh Hsz. unfold halide_dimensions. rewrite Hk, Hf, Hc, Hn.
  cbn [Z.ltb Z.compare Pos.compare Pos.compare_cont andb]. rewrite andb_false_r. change (Z.to_nat 2) with 2%nat.
  assert (width < 2 ^ 31 ∧ height < 2 ^ 31) as [? ?] by nia.
  assert (A : ∀ i, (i < 8)%nat → array8 (stride (cb_layout b)) i = Ok 0).
  { intros i Hi. unfold array8. by rewrite (proj2 (Nat.ltb_lt _ _)), nth8_stride_zero by done. }
  assert (D0 : array8 (dims (cb_layout b)) 0 = Ok width) by by rewrite Hd.
  assert (D1 : array8 (dims (cb_layout b)) 1 = Ok height) by by rewrite Hd.
  rewrite (dense_step _ _ _ _ _ width), (dense_step _ _ _ _ _ height) by (done || (apply A; lia) || lia).
  by rewrite Z.mul_1_l.
Qed.

Lemma rgba_dimensions width height b mem :
  dense_image R16G16B16A16_SFLOAT width height b mem → 0 < width → 0 < height → width * height * 4 < 2 ^ 31 →
  halide_dimensions (cb_layout b) = Ok [mkHDim 0 width 4; mkHDim 0 height (4 * width); mkHDim 0 4 1].
Proof.
  intros [Hk Hf Hn [rest Hd] Hs _ _] Hw Hh Hsz. rewrite (image_dimensions (cb_layout b) width height rest);
    rewrite ?Hf; try done; try lia. cbn [channel_count]. lia.
Qed.

(** ** A call that succeeds *)

Section Develop.

Context {J : JsonLib}.

Variables (filters : HalideFilterRegistry) (i o u : nat) (w : World) (bi bo : CpuBuffer) (h : cpipe_metadata_builder_s).
Hypothesis Henv : node_env i o u w bi bo h.

Local Abbreviation vi := (buffer_view i).
Local Abbreviation vo := (buffer_view o).
Local Abbreviation view meta := (mkSdkMetadata (Some (Some meta)) (Some SuiteMetadata)).

Lemma format_exact loc b :
  handle_of w (Some (Some loc)) = Some (make_buffer_handle (Some b)) →
  buffer_format (buffer_view loc) w = (Ok (format_value (format (cb_layout b))), w).
Proof using. intros Hh. unfold buffer_format, buffer_call. cbn [null orb sb_suite sb_impl buffer_view]. by rewrite Hh. Qed.

Lemma formats_exact width height im om fi fo message :
  dense_image fi width height bi im → dense_image fo width height bo om → check_formats vi vo fi fo message w = (Ok tt, w).
Proof using Henv.
  intros Hi Ho. unfold check_formats. erewrite sr_bind_Ok by (eapply format_exact, handle_in, Henv).
  erewrite sr_bind_Ok by (eapply format_exact, handle_out, Henv).
  by rewrite (di_format _ _ _ _ _ Hi), (di_format _ _ _ _ _ Ho), !Z.eqb_refl.
Qed.

Lemma checked_pair_exact width height im om fi fo m1 m2 :
  dense_image fi width height bi im → dense_image fo width height bo om → 0 < width → 0 < height →
  checked_pair vi vo fi fo m1 m2 w = (Ok [width; height], w).
Proof using Henv.
  intros Hi Ho Hw Hh. unfold checked_pair, check_image2d. erewrite sr_bind_Ok by (by eapply formats_exact).
  destruct (di_dims _ _ _ _ _ Hi) as [rest Hd].
  erewrite sr_bind_Ok by (by eapply (dims_exact i o u w bi bo h Henv), Hd; apply Hi).
  cbv iota. by rewrite !(proj2 (Z.eqb_neq _ _)) by lia.
Qed.

Lemma metadata_exact m message : cb_metadata bi = Some m → require_metadata vi message w = (Ok (view m), w).
Proof using Henv.
  intros Hm. unfold require_metadata, buffer_metadata, mbind, sr_bind. cbn [sb_suite sb_metadata_suite buffer_view sb_impl].
  rewrite (handle_in _ _ _ _ _ _ _ Henv). unfold get_metadata. cbn. by rewrite Hm.
Qed.

(** The world in which the output holds [out]. *)
Definition developed (out : bytes) : World := with_store w (<[o := buffer_with_data bo (Some out)]> (w_store w)).

Lemma write_back_out out : write_back [o] [Some out] (w_store w) = <[o := buffer_with_data bo (Some out)]> (w_store w).
Proof using Henv.
  unfold write_back. simpl. apply list_eq. intros k. pose proof (ne_out _ _ _ _ _ _ _ Henv) as Ho.
  destruct (decide (k = o)) as [->|Hk].
  - rewrite list_lookup_insert_eq by (by eapply lookup_lt_Some). cbn. by rewrite list_lookup_alter_eq, Ho.
  - rewrite list_lookup_insert_ne by done. cbn. by rewrite list_lookup_alter_ne.
Qed.

(** A submission runs the filter on the described buffers. *)
Lemma submit_runs id f g im om di do_ blob st P :
  find_filter (halide_param_filters filters) id = Some f → implements f g →
  cb_data bi = Some im → cb_data bo = Some om →
  halide_dimensions (cb_layout bi) = Ok di → halide_dimensions (cb_layout bo) = Ok do_ →
  (∀ hi ho, hb_dim hi = di → hb_dim ho = do_ → ∃ out, g [(hi, im)] [(ho, om)] (Some blob) = Ok (st, Some out) ∧ P out) →
  ∃ out, P out ∧ compute_submit_halide_with_params filters compute_view id [Some vi] [Some vo] blob w
    = (if decide (st = CPIPE_OK) then Ok tt else Fail st "submit_halide_with_params failed", developed out).
Proof using Henv.
  intros Hf Himp Him Hom Hdi Hdo Hg. destruct (distinct_ready i o u w bi bo h Henv) as [Hr Hnd].
  destruct (submit_distinct filters id f Hf [i] [o] (take (length blob) blob) (w_store w) Hr Hnd) as (his & hos & Hi & Ho & Hs).
  destruct (Forall2_cons_inv_l _ _ _ _ Hi) as (hi & l1 & (b1 & Hb1 & Hhi & _ & _ & Hd1) & Hn1 & ->). apply Forall2_nil_inv_l in Hn1 as ->.
  destruct (Forall2_cons_inv_l _ _ _ _ Ho) as (ho & l2 & (b2 & Hb2 & Hho & _ & _ & Hd2) & Hn2 & ->). apply Forall2_nil_inv_l in Hn2 as ->.
  rewrite (ne_in _ _ _ _ _ _ _ Henv) in Hb1. rewrite (ne_out _ _ _ _ _ _ _ Henv) in Hb2.
  injection Hb1 as <-. injection Hb2 as <-.
  rewrite Hdi in Hd1. rewrite Hdo in Hd2. injection Hd1 as Hd1. injection Hd2 as Hd2.
  destruct (Hg hi ho (eq_sym Hd1) (eq_sym Hd2)) as (out & Hrun & HP). exists out. split; [done|].
  rewrite firstn_all in Hs. rewrite (Himp hi ho im om blob (memory (w_store w)) st out) in Hs;
    [|by unfold memory; rewrite list_lookup_fmap, Hhi, (ne_in _ _ _ _ _ _ _ Henv); simpl; rewrite Him
     |by unfold memory; rewrite list_lookup_fmap, Hho, (ne_out _ _ _ _ _ _ _ Henv); simpl; rewrite Hom|done].
  unfold compute_submit_halide_with_params. simpl null. cbn [sc_suite compute_view].
  unfold raw_handles, mbind, sr_bind, lift, gets. cbn [foldM mbind res_bind app buffer_view sb_impl sc_impl_null].
  change (submitted (submit_halide_with_params filters id [Some i] [Some o] (take (length blob) blob) (w_store w))
    "submit_halide_with_params failed" w = (if decide (st = CPIPE_OK) then Ok tt else Fail st "submit_halide_with_params failed", developed out)).
  rewrite firstn_all. simpl fmap in Hs. rewrite Hs. unfold submitted, developed. rewrite write_back_out. by destruct st.
Qed.

(** The step is recorded in the output's metadata; [h'] is the builder afterwards. *)
Definition tells (step : string) (h' : cpipe_metadata_builder_s) : Prop :=
  applied_steps (metadata_ (bu_builder h')) = applied_steps (metadata_ (bu_builder h)) ++ [step].

(** The world after the call. *)
Definition finished (out : bytes) (h' : cpipe_metadata_builder_s) : World :=
  with_builders (developed out) (<[u := h']> (w_builders w)).

Lemma record_exact step out :
  ∃ h', builder_add_applied_step (builder_view u) step (developed out) = (Ok tt, finished out h') ∧ tells step h'.
Proof using Henv.
  destruct (add_step_open h step (ne_open _ _ _ _ _ _ _ Henv)) as (h' & Hh & Hs & _). exists h'. split; [|done].
  unfold builder_add_applied_step, builder_call. cbn [builder_view sbu_suite sbu_impl null orb mbind option_bind developed with_store w_builders].
  by rewrite (ne_builder _ _ _ _ _ _ _ Henv), Hh.
Qed.

(** The call of a node at its plugin's entry point. *)
Definition process_node (m : SdkCompute → ParamView → list (option Buffer) → list (option Buffer) → list (option SdkBuilder) → sdk unit)
    (inst : nat) (params : option json) : sdk (cpipe_status_t * option nat) :=
  dispatch (T := class_of m) "process" false (Some inst) params
    (CtxProcess (mkProcessCtx false [Some (Some i)] [Some (Some o)] (Some [Some u]))) true.

Lemma process_node_exact m inst params r w' :
  inst ∈ w_instances w →
  m compute_view (mkParamView params (Some SuiteParam)) [Some vi] [Some vo] [Some (builder_view u)] w = (r, w') →
  r ≠ Thrown aborted → r ≠ Undef → process_node m inst params w = (Ok (seen_status r, None), w').
Proof.
  intros Hinst Hm Ha Hu. unfold process_node. set (c := mkProcessCtx false [Some (Some i)] [Some (Some o)] (Some [Some u])).
  assert (Hc : process_call (T := class_of m) params c [Some (builder_view u)] w = (r, w')) by done.
  rewrite (dispatch_process_exact (T := class_of m) inst params c [Some (builder_view u)] w), Hc by (done || by rewrite Hc). done.
Qed.

(** A submission that succeeds, then the record. *)
Lemma submit_then_record id step f g im om di do_ blob P :
  find_filter (halide_param_filters filters) id = Some f → implements f g →
  cb_data bi = Some im → cb_data bo = Some om →
  halide_dimensions (cb_layout bi) = Ok di → halide_dimensions (cb_layout bo) = Ok do_ →
  (∀ hi ho, hb_dim hi = di → hb_dim ho = do_ → ∃ out, g [(hi, im)] [(ho, om)] (Some blob) = Ok (CPIPE_OK, Some out) ∧ P out) →
  ∃ out h', P out ∧ tells step h' ∧
    (_ ← compute_submit_halide_with_params filters compute_view id [Some vi] [Some vo] blob;
     builder_add_applied_step (builder_view u) step) w = (Ok tt, finished out h').
Proof using Henv.
  intros Hf Hi H1 H2 H3 H4 Hg. destruct (submit_runs id f g im om di do_ blob CPIPE_OK P Hf Hi H1 H2 H3 H4 Hg) as (out & HP & Hs).
  destruct (record_exact step out) as (h' & Hr & Ht). exists out, h'. split_and!; [done..|].
  by erewrite sr_bind_Ok by exact Hs.
Qed.

End Develop.

(** ** The nodes *)

(** A call on two dense images of the same size. *)
Record develop_env (i o u inst : nat) (w : World) (bi bo : CpuBuffer) (h : cpipe_metadata_builder_s) (fi fo : PixelFormat)
    (width height : Z) (im om : bytes) (m : BufferMetadata) : Prop := {
  de_node : node_env i o u w bi bo h;
  de_instance : inst ∈ w_instances w;
  de_in : dense_image fi width height bi im;
  de_out : dense_image fo width height bo om;
  de_bytes : bytes_ok im;
  de_width : 0 < width;
  de_height : 0 < height;
  de_metadata : cb_metadata bi = Some m
}.

Arguments de_node {i o u inst w bi bo h fi fo width height im om m} _.
Arguments de_in {i o u inst w bi bo h fi fo width height im om m} _.
Arguments de_out {i o u inst w bi bo h fi fo width height im om m} _.
Arguments de_bytes {i o u inst w bi bo h fi fo width height im om m} _.
Arguments de_width {i o u inst w bi bo h fi fo width height im om m} _.
Arguments de_height {i o u inst w bi bo h fi fo width height im om m} _.
Arguments de_metadata {i o u inst w bi bo h fi fo width height im om m} _.

Section Nodes.

Context {J : JsonLib}.

Variables (filters : HalideFilterRegistry) (nan_bits : Z) (i o u inst : nat) (params : option json).
Variables (w : World) (bi bo : CpuBuffer) (h : cpipe_metadata_builder_s) (width height : Z) (im om : bytes) (m : BufferMetadata).

Local Abbreviation vi := (buffer_view i).
Local Abbreviation vo := (buffer_view o).
Local Abbreviation env fi fo := (develop_env i o u inst w bi bo h fi fo width height im om m).
Local Abbreviation pv := (mkParamView params (Some SuiteParam)).

(** The checks of a node, up to the calibration. *)
Lemma checks_pass fi fo m1 m2 m3 {A} (k : SdkMetadata → sdk A) :
  env fi fo →
  (_ ← checked_pair vi vo fi fo m1 m2; metadata ← require_metadata vi m3; k metadata) w
  = k (mkSdkMetadata (Some (Some m)) (Some SuiteMetadata)) w.
Proof.
  intros E. erewrite sr_bind_Ok by (eapply checked_pair_exact; by apply E).
  by erewrite sr_bind_Ok by (eapply metadata_exact; apply E).
Qed.

Lemma lift_bind {A B} (r : res A) (a : A) (k : A → sdk B) w0 : r = Ok a → (x ← lift r; k x) w0 = k a w0.
Proof. by intros ->. Qed.

Lemma plane_described fi fo :
  env fi fo → channel_count fi = 1 → channel_count fo = 1 → width * height < 2 ^ 31 →
  halide_dimensions (cb_layout bi) = Ok [mkHDim 0 width 1; mkHDim 0 height width] ∧
  halide_dimensions (cb_layout bo) = Ok [mkHDim 0 width 1; mkHDim 0 height width].
Proof. intros E Hi Ho Hs. split; eapply plane_dimensions; (apply E || done). Qed.

(** A filter on single-channel images, then the record. *)
Lemma plane_filter fi fo id step f g blob P :
  env fi fo → channel_count fi = 1 → channel_count fo = 1 → width * height < 2 ^ 31 →
  find_filter (halide_param_filters filters) id = Some f → implements f g →
  (∀ hi ho, r32_buffer width height hi → r32_buffer width height ho →
     ∃ out, g [(hi, im)] [(ho, om)] (Some blob) = Ok (CPIPE_OK, Some out) ∧ P out) →
  ∃ out h', P out ∧ tells h step h' ∧
    (_ ← compute_submit_halide_with_params filters compute_view id [Some vi] [Some vo] blob;
     builder_add_applied_step (builder_view u) step) w = (Ok tt, finished o u w bo out h').
Proof.
  intros E Hc1 Hc2 Hs Hf Hi Hg. destruct (plane_described fi fo E Hc1 Hc2 Hs) as [Hd1 Hd2].
  eapply (submit_then_record filters i o u w bi bo h); [apply E|exact Hf|exact Hi|apply E|apply E|exact Hd1|exact Hd2|exact Hg].
Qed.

(** What linearization computes. *)
Definition linearized (table : list Z) (out : bytes) : Prop :=
  len out = 4 * (width * height) ∧
  ∀ x y, in_image width height x y → ∃ v, host_read im (y * width + x) = Ok v ∧
    float_px width out (x, y) = Ok (bits_of_float nan_bits (float_of_int (table_value table v))).

(** linearization, from the call of the plugin to the pixels.  On a dense
    16-bit image whose metadata has a table, the call succeeds, records the step,
    changes nothing but the data of the output, and every output sample is the
    float of the table entry of the input sample; samples beyond the table take the
    last entry. *)
Theorem linearize_develops (f : HalideParamFilterEntry) (c : CalibrationBlock) (table : list Z) :
  env R16_UINT R32_SFLOAT → width * height < 2 ^ 31 →
  find_filter (halide_param_filters filters) "linearize_dng_lut" = Some f → implements f (linearize_dng_lut_param nan_bits) →
  calibration m = Some c → linearization_table c = Some table → Forall (is_u 16) table → 0 < len table < 2 ^ 32 →
  ∃ out h',
    process_node i o u (LinearizeDngLut_process filters) inst params w = (Ok (CPIPE_OK, None), finished o u w bo out h') ∧
    tells h "linearization" h' ∧ linearized table out.
Proof.
  intros E Hs Hf Hi Hc Ht Htab Hl. pose proof (di_len _ _ _ _ _ (de_in E)).
  pose proof (di_len _ _ _ _ _ (de_out E)).
  destruct (plane_filter R16_UINT R32_SFLOAT "linearize_dng_lut" "linearization" f (linearize_dng_lut_param nan_bits)
    (linearize_blob table) (linearized table)) as (out & h' & Hpx & Htl & Hrun); [done..| |].
  { intros hi ho Hhi Hho. apply (linearize_pixels nan_bits width height); (done || apply E). }
  exists out, h'. split_and!; [|done..]. change CPIPE_OK with (seen_status (Ok tt)).
  eapply process_node_exact; [apply E| |done..]. unfold LinearizeDngLut_process. rewrite (lift_bind _ (vi, vo, builder_view u)) by done.
  rewrite checks_pass by done. rewrite (lift_bind _ (view_of_calibration c)) by (by rewrite calibration_exact, Hc).
  unfold view_of_calibration. cbn [view_linearization_table]. rewrite Ht. cbn [default from_option id].
  destruct table; [unfold len in Hl; simpl in Hl; lia|]. exact Hrun.
Qed.

(** *** Black and white levels *)

(** The black level of a pixel: that of its colour in the 2x2 pattern. *)
Definition black_at (c : CalibrationBlock) (p : CFADescriptor) (x y : Z) : float32 :=
  entry (black_level c) (Z.to_nat (Z.min (field (pattern p) (Z.to_nat (y mod 2 * 2 + x mod 2))) 3)).

Definition range_at (c : CalibrationBlock) (p : CFADescriptor) (x y : Z) : float32 :=
  SFsub 24 128 (float_of_int (white_level c)) (black_at c p x y).

(** The sample relative to its levels, between zero and one. *)
Definition scaled (c : CalibrationBlock) (p : CFADescriptor) (x y : Z) (v : float32) : float32 :=
  clamp_float (SFdiv 24 128 (SFsub 24 128 v (black_at c p x y)) (range_at c p x y)) (f_lit 0 1) (f_lit 1 1).

(** Levels and a pattern as the metadata of a Bayer image has them. *)
Record levels_ok (c : CalibrationBlock) (p : CFADescriptor) : Prop := {
  lo_cfa : cfa c = Some p;
  lo_repeat : repeat p = [2; 2];
  lo_pattern : length (pattern p) = 16%nat;
  lo_bytes : bytes_ok (pattern p);
  lo_black : length (black_level c) = 4%nat;
  lo_floats : Forall is_float (black_level c);
  lo_white : is_u 32 (white_level c);
  lo_nonzero : white_level c ≠ 0
}.

(** The parameter block of a calibration. *)
Definition level_params (c : CalibrationBlock) (p : CFADescriptor) : list Z :=
  (bits_of_float nan_bits <$> black_level c) ++ [white_level c] ++ take 4 (pattern p).

Lemma level_params_fit c p : levels_ok c p → Forall2 fits blacklevel_widths (level_params c p).
Proof.
  intros [_ _ Hp Hok Hb _ Hwl _]. unfold level_params. destruct (black_level c) as [|b0 [|b1 [|b2 [|b3 []]]]]; try done.
  destruct (pattern p) as [|p0 [|p1 [|p2 [|p3 l]]]]; try done.
  do 4 (apply Forall_cons in Hok as [? Hok]). repeat (constructor; [done || by apply wrap_bound|]). constructor.
Qed.

Hypothesis Hnan : float_of_bits (u32 nan_bits) = S754_nan.

Lemma level_black_exact c p x y :
  levels_ok c p → in_image width height x y → width * height < 2 ^ 31 → level_black (level_params c p) x y = black_at c p x y.
Proof using Hnan.
  intros L [Hx Hy] Hs. assert (x < 2 ^ 31 ∧ y < 2 ^ 31) by nia.
  assert (Hland : ∀ z, 0 ≤ z < 2 ^ 31 → Z.land (u32 z) 1 = z mod 2).
  { intros z Hz. rewrite u32_small by lia. change 1 with (Z.ones 1). by rewrite Z.land_ones by lia. }
  unfold level_black, level_channel, black_at. rewrite !Hland by lia.
  pose proof (Z.mod_pos_bound x 2 ltac:(lia)). pose proof (Z.mod_pos_bound y 2 ltac:(lia)).
  set (k := Z.to_nat (y mod 2 * 2 + x mod 2)). assert (k < 4)%nat by lia.
  destruct L as [_ _ Hp Hok Hb Hfl _ _].
  assert (Hk : field (level_params c p) (5 + k) = field (pattern p) k).
  { unfold level_params, field. rewrite app_assoc, lookup_app_r; rewrite length_app, length_fmap, Hb; [|simpl; lia].
    rewrite lookup_take. simpl length. f_equal. rewrite decide_True by lia. f_equal. lia. }
  rewrite Hk. set (ch := field (pattern p) k).
  assert (0 ≤ ch) by (unfold ch, field; destruct (pattern p !! k) eqn:E; [apply (Forall_lookup_1 _ _ _ _ Hok) in E; unfold is_u in E; simpl; lia|done]).
  destruct (lookup_lt_is_Some_2 (black_level c) (Z.to_nat (Z.min ch 3))) as [b Hlk]; [lia|].
  unfold entry. rewrite Hlk. unfold level_params, field. rewrite lookup_app_l by (rewrite length_fmap; lia).
  rewrite list_lookup_fmap, Hlk. simpl. apply float_bits_roundtrip; [|done]. by apply (Forall_lookup_1 _ _ _ _ Hfl) in Hlk.
Qed.

Lemma level_range_exact c p x y :
  levels_ok c p → in_image width height x y → width * height < 2 ^ 31 → level_range (level_params c p) x y = range_at c p x y.
Proof using Hnan.
  intros L Hp Hs. unfold level_range, range_at. rewrite level_black_exact by done. f_equal. f_equal.
  pose proof (lo_black _ _ L) as Hb. unfold level_params, field. by destruct (black_level c) as [|? [|? [|? [|? []]]]].
Qed.

Lemma level_value_exact c p x y v :
  levels_ok c p → in_image width height x y → width * height < 2 ^ 31 → level_value (level_params c p) x y v = scaled c p x y v.
Proof using Hnan. intros L Hp Hs. unfold level_value, scaled. by rewrite level_black_exact, level_range_exact. Qed.

(** The call comes down to the submission. *)
Lemma blacklevel_call c p r w' :
  env R32_SFLOAT R32_SFLOAT → calibration m = Some c → levels_ok c p →
  (_ ← compute_submit_halide_with_params filters compute_view "blacklevel_dng_levels" [Some vi] [Some vo]
         (struct_bytes blacklevel_widths (level_params c p));
   builder_add_applied_step (builder_view u) "black_white_scaling") w = (r, w') →
  r ≠ Thrown aborted → r ≠ Undef →
  process_node i o u (BlacklevelDngLevels_process filters nan_bits) inst params w = (Ok (seen_status r, None), w').
Proof.
  intros E Hc L Hrun Ha Hu. eapply process_node_exact; [apply E| |done..]. unfold BlacklevelDngLevels_process.
  rewrite (lift_bind _ (vi, vo, builder_view u)) by done. rewrite checks_pass by done.
  rewrite (lift_bind _ (view_of_calibration c)) by (by rewrite calibration_exact, Hc). cbv beta.
  unfold view_of_calibration. cbn [has_cfa cfa_repeat cfa_pattern view_white_level view_black_level].
  rewrite (lo_cfa _ _ L). cbn [default from_option id]. rewrite (lo_repeat _ _ L), (proj2 (Z.eqb_neq _ 0)) by apply L. exact Hrun.
Qed.

Lemma blacklevel_filter_ok c p hi ho :
  env R32_SFLOAT R32_SFLOAT → width * height < 2 ^ 31 → levels_ok c p →
  r32_buffer width height hi → r32_buffer width height ho →
  (∀ x y, in_image width height x y → SFleb (range_at c p x y) (f_lit 0 1) = false) →
  ∃ out, blacklevel_dng_levels_param nan_bits [(hi, im)] [(ho, om)] (Some (struct_bytes blacklevel_widths (level_params c p)))
      = Ok (CPIPE_OK, Some out) ∧ len out = 4 * (width * height) ∧
    ∀ x y, in_image width height x y → ∃ v, read_float_at im (y * width + x) = Ok v ∧
      float_px width out (x, y) = Ok (bits_of_float nan_bits (scaled c p x y v)).
Proof using Hnan.
  intros E Hs L Hhi Hho Hr. pose proof (di_len _ _ _ _ _ (de_in E)).
  pose proof (di_len _ _ _ _ _ (de_out E)).
  destruct (blacklevel_pixels nan_bits width height hi ho im om (de_width E)
    (de_height E) (de_bytes E) Hs Hho ltac:(done) Hhi ltac:(done)
    (level_params c p) (level_params_fit c p L)) as (out & Hrun & Hlo & Hpx).
  - intros x y Hp. rewrite level_range_exact by done. by apply Hr.
  - exists out. split_and!; [done..|]. intros x y Hp. destruct (Hpx x y Hp) as (v & Hv & Ho). exists v. split; [done|].
    by rewrite Ho, level_value_exact.
Qed.

(** C14: black and white levels, from the call of the plugin to the pixels.  On a
    dense float image with Bayer levels whose range is positive everywhere, the
    call succeeds, records the step, changes nothing but the data of the output,
    and every output sample is the input sample relative to the black level of its
    colour and the white level, between zero and one or NaN.  When the range of
    some pixel is empty the call reports [CPIPE_NEED_METADATA] and records
    nothing. *)
Theorem blacklevel_develops (f : HalideParamFilterEntry) (c : CalibrationBlock) (p : CFADescriptor) :
  env R32_SFLOAT R32_SFLOAT → width * height < 2 ^ 31 →
  find_filter (halide_param_filters filters) "blacklevel_dng_levels" = Some f → implements f (blacklevel_dng_levels_param nan_bits) →
  calibration m = Some c → levels_ok c p →
  ((∀ x y, in_image width height x y → SFleb (range_at c p x y) (f_lit 0 1) = false) →
   ∃ out h', process_node i o u (BlacklevelDngLevels_process filters nan_bits) inst params w
       = (Ok (CPIPE_OK, None), finished o u w bo out h') ∧
     tells h "black_white_scaling" h' ∧ len out = 4 * (width * height) ∧
     ∀ x y, in_image width height x y → ∃ v, read_float_at im (y * width + x) = Ok v ∧
       float_px width out (x, y) = Ok (bits_of_float nan_bits (scaled c p x y v)) ∧
       (scaled c p x y v = S754_nan ∨
        SFleb (f_lit 0 1) (scaled c p x y v) = true ∧ SFleb (scaled c p x y v) (f_lit 1 1) = true)) ∧
  (∀ x y, in_image width height x y → SFleb (range_at c p x y) (f_lit 0 1) = true →
   ∃ out, process_node i o u (BlacklevelDngLevels_process filters nan_bits) inst params w
     = (Ok (CPIPE_NEED_METADATA, None), developed o w bo out)).
Proof using Hnan.
  intros E Hs Hf Hi Hc L. split.
  - intros Hr. destruct (plane_filter R32_SFLOAT R32_SFLOAT "blacklevel_dng_levels" "black_white_scaling" f
      (blacklevel_dng_levels_param nan_bits) (struct_bytes blacklevel_widths (level_params c p)) (λ out, len out = 4 * (width * height) ∧
      ∀ x y, in_image width height x y → ∃ v, read_float_at im (y * width + x) = Ok v ∧
        float_px width out (x, y) = Ok (bits_of_float nan_bits (scaled c p x y v)))) as (out & h' & [Hlo Hpx] & Htl & Hrun);
      [done..|intros hi ho Hhi Hho; by apply blacklevel_filter_ok|].
    exists out, h'. split_and!; [by apply (blacklevel_call c p (Ok tt))|done..|].
    intros x y Hp. destruct (Hpx x y Hp) as (v & Hv & Ho). exists v. split_and!; [done..|]. apply clamp_unit.
  - intros x y Hp Hr. destruct (plane_described _ _ E eq_refl eq_refl Hs) as [Hd1 Hd2].
    pose proof (di_len _ _ _ _ _ (de_in E)).
    pose proof (di_len _ _ _ _ _ (de_out E)).
    edestruct (submit_runs filters i o u w bi bo h) as (out & _ & Hrun);
      [apply E|exact Hf|exact Hi|apply E|apply E|exact Hd1|exact Hd2| |].
    { intros hi ho Hhi Hho. destruct (blacklevel_stops nan_bits width height hi ho im om) with (params := level_params c p) (x := x) (y := y)
        as [out Ho]; try (done || apply E); [by apply level_params_fit|by rewrite level_range_exact|].
      exists out. split; [exact Ho|]. exact I. }
    exists out. rewrite decide_False in Hrun by done.
    apply (blacklevel_call c p (Fail CPIPE_NEED_METADATA "submit_halide_with_params failed")); try done.
    unfold mbind, sr_bind. by rewrite Hrun.
Qed.

(** *** Gain maps *)

(** The gain maps the metadata asks for; none when there is no list. *)
Definition gain_maps_of : res (list GainMap) :=
  match find_blob m kOpcodeList2BlobKey with
  | None | Some [] => Ok []
  | Some blob =>
      maps ← parse_gain_maps blob;
      match maps with [] => Ok [] | _ => _ ← validate_gain_maps maps; Ok maps end
  end.

(** Without a filter the image is copied. *)
Lemma copy_then_record fmt step n :
  env fmt fmt → bytes_per_pixel fmt = n → width * height * n < 2 ^ 64 →
  ∃ h', tells h step h' ∧
    (_ ← copy_image n vi vo; builder_add_applied_step (builder_view u) step) w = (Ok tt, finished o u w bo im h').
Proof.
  intros E Hn Hs. destruct (di_dims _ _ _ _ _ (de_in E)) as [rest Hd]. pose proof (bytes_per_pixel_bound fmt) as Hb.
  pose proof (de_width E). pose proof (de_height E). pose proof (di_len _ _ _ _ _ (de_in E)) as Hl1.
  pose proof (di_len _ _ _ _ _ (de_out E)) as Hl2. assert (Hu : u64 (width * height * n) = width * height * n) by (apply u64_small; nia).
  destruct (record_exact i o u w bi bo h (de_node E) step im) as (h' & Hr & Ht). exists h'. split; [done|].
  erewrite sr_bind_Ok; [exact Hr|]. rewrite (copy_image_exact i o u w bi bo h (de_node E) n im om width height rest);
    [|apply E|apply E|apply E|done|lia..]. rewrite Hu.
  rewrite take_ge, drop_ge, app_nil_r by (unfold len in *; lia). done.
Qed.

(** The maps applied: every sample times the interpolated gain of its map. *)
Definition shaded (cfa_repeat : list Z) (maps : list GainMap) (out : bytes) : Prop :=
  len out = 4 * (width * height) ∧
  ∀ x y, in_image width height x y → ∃ g v, map_of cfa_repeat maps x y g ∧ read_float_at im (y * width + x) = Ok v ∧
    read_struct [4%nat] out (4 * (y * width + x)) = Ok [bits_of_float nan_bits (SFmul 24 128 v (bilinear g x y))].

Variable padding : Z.
Hypothesis Hpad : is_u 16 padding.

(** The call comes down to the gain maps. *)
Lemma gainmap_call c p r w' :
  env R32_SFLOAT R32_SFLOAT → calibration m = Some c → cfa c = Some p →
  (maps ← lift gain_maps_of;
   match maps with
   | [] => _ ← copy_image 4 vi vo; builder_add_applied_step (builder_view u) "lens_shading_gainmap"
   | _ => _ ← compute_submit_halide_with_params filters compute_view "lens_shading_gainmap" [Some vi] [Some vo]
                (pack_gain_maps padding (repeat p) (pattern p) maps);
          builder_add_applied_step (builder_view u) "lens_shading_gainmap"
   end) w = (r, w') →
  r ≠ Thrown aborted → r ≠ Undef →
  process_node i o u (LensShadingGainMap_process filters padding) inst params w = (Ok (seen_status r, None), w').
Proof.
  intros E Hc Hp Hrun Ha Hu. eapply process_node_exact; [apply E| |done..]. unfold LensShadingGainMap_process.
  rewrite (lift_bind _ (vi, vo, builder_view u)) by done. rewrite checks_pass by done.
  rewrite (lift_bind _ (view_of_calibration c)) by (by rewrite calibration_exact, Hc). cbv beta.
  unfold view_of_calibration. cbn [has_cfa cfa_repeat cfa_pattern]. rewrite Hp. cbn [default from_option id].
  change (negb (bool_decide (is_Some (Some p)))) with false. cbv iota. rewrite blob_exact. unfold gain_maps_of in Hrun.
  destruct (find_blob m kOpcodeList2BlobKey) as [[|x b]|]; [exact Hrun| |exact Hrun]. rewrite (lift_bind _ (Some (x :: b))) by done.
  revert Hrun. unfold mbind, sr_bind, lift. destruct (parse_gain_maps (x :: b)) as [[|g maps]| | |]; try done. cbn [mbind res_bind].
  by destruct (validate_gain_maps (g :: maps)).
Qed.

Lemma gain_maps_cases :
  env R32_SFLOAT R32_SFLOAT →
  (∃ st msg, gain_maps_of = Fail st msg ∧ st ≠ CPIPE_OK) ∨ gain_maps_of = Ok [] ∨
  ∃ list2 g maps, gain_maps_of = Ok (g :: maps) ∧ bytes_ok list2 ∧ parse_gain_maps list2 = Ok (g :: maps) ∧
    validate_gain_maps (g :: maps) = Ok tt.
Proof.
  intros E. unfold gain_maps_of. destruct (find_blob m kOpcodeList2BlobKey) as [[|x b]|] eqn:Hb; [by auto| |by auto].
  pose proof (ne_blobs _ _ _ _ _ _ _ (de_node E) m _ _ (de_metadata E) Hb) as Hok.
  pose proof (parse_gain_maps_returns (x :: b) Hok) as Hr. set (b' := x :: b) in *. clearbody b'.
  destruct (parse_gain_maps b') as [[|g maps]|st msg| |] eqn:Hparse; try done; [by auto| |left; eauto].
  cbn [mbind res_bind]. pose proof (validate_returns (g :: maps)) as Hv.
  destruct (validate_gain_maps (g :: maps)) as [[]|st msg| |] eqn:Hval; try done; [|left; eauto].
  right. right. by exists b', g, maps.
Qed.

(** C13: gain maps, from the call of the plugin to the pixels.  On a dense float
    image with a CFA, what the node does is decided by its OpcodeList2: without
    gain maps the image is copied, a list that does not parse or is not valid is
    reported and nothing is changed, and otherwise every sample is multiplied by
    the gain that is interpolated in the map of its CFA position.  The step is
    recorded exactly when the call succeeds. *)
Theorem gainmap_develops (f : HalideParamFilterEntry) (c : CalibrationBlock) (p : CFADescriptor) :
  env R32_SFLOAT R32_SFLOAT → width * height < 2 ^ 31 →
  find_filter (halide_param_filters filters) "lens_shading_gainmap" = Some f → implements f (lens_shading_gainmap_param nan_bits) →
  calibration m = Some c → cfa c = Some p → cfa_ok (repeat p) (pattern p) →
  let call := process_node i o u (LensShadingGainMap_process filters padding) inst params w in
  match gain_maps_of with
  | Ok [] => ∃ h', call = (Ok (CPIPE_OK, None), finished o u w bo im h') ∧ tells h "lens_shading_gainmap" h'
  | Ok maps => ∃ out h', call = (Ok (CPIPE_OK, None), finished o u w bo out h') ∧ tells h "lens_shading_gainmap" h' ∧
      shaded (repeat p) maps out
  | Fail st _ => call = (Ok (st, None), w) ∧ st ≠ CPIPE_OK
  | _ => False
  end.
Proof using Hpad.
  intros E Hs Hf Hi Hc Hp Hcfa call. pose proof (gainmap_call c p) as Hcall. pose proof (de_width E). pose proof (de_height E).
  destruct (gain_maps_cases E) as [(st & msg & Hm & Hst)|[Hm|(list2 & g & maps & Hm & Hok & Hparse & Hval)]]; rewrite Hm in Hcall |- *.
  - split; [|done]. by apply (Hcall (Fail st msg)).
  - destruct (copy_then_record R32_SFLOAT "lens_shading_gainmap" 4 E eq_refl) as (h' & Ht & Hrun); [lia|].
    exists h'. split; [|done]. by apply (Hcall (Ok tt)).
  - pose proof (di_len _ _ _ _ _ (de_in E)). pose proof (di_len _ _ _ _ _ (de_out E)).
    destruct (plane_filter R32_SFLOAT R32_SFLOAT "lens_shading_gainmap" "lens_shading_gainmap" f (lens_shading_gainmap_param nan_bits)
      (pack_gain_maps padding (repeat p) (pattern p) (g :: maps)) (shaded (repeat p) (g :: maps)))
      as (out & h' & Hpx & Ht & Hrun); [done..| |].
    { intros hi ho Hhi Hho. by apply (gainmap_pixels nan_bits width height hi ho im om list2); try apply E. }
    exists out, h'. split_and!; [|done..]. by apply (Hcall (Ok tt)).
Qed.

(** *** Colour matrix *)

Variable nan_half : Z.

Local Abbreviation half := R16G16B16A16_SFLOAT.
Local Abbreviation view := (mkSdkMetadata (Some (Some m)) (Some SuiteMetadata)).

(** The camera matrix, for a white-balanced image in the camera's space. *)
Definition camera_of : res (list float32) :=
  if decide (cs_role m = "raw_camera" ∧ "white_balance" ∈ applied_steps m) then required_camera_to_xyz_blob view
  else Fail CPIPE_NEED_METADATA "colormatrix requires raw_camera white balance".

Definition working_matrix (camera : list float32) : list Z :=
  bits_of_float nan_bits <$> mul3 kXyzD65ToRec2020 (mul3 kD50ToD65 camera).

Lemma camera_cases :
  env half half →
  (∃ msg, camera_of = Fail CPIPE_NEED_METADATA msg) ∨ ∃ camera, camera_of = Ok camera.
Proof.
  intros E. unfold camera_of. case_decide; [|by eauto]. unfold required_camera_to_xyz_blob.
  destruct (blob_cases i o u w bi bo h (de_node E) m kCameraToXyzBlob (de_metadata E)) as [(st & msg & ->)|(blob & -> & Hb)]; [by eauto|].
  destruct (Z.eqb_spec (len blob) 36) as [Hl|]; [|by eauto]. cbn [negb].
  destruct (read_struct_ok (replicate 9 4%nat) blob 0) as (l & -> & _); [done|lia|rewrite Hl; done|].
  rewrite Ok_bind. destruct (forallb isfinite32 l); eauto.
Qed.

Lemma colormatrix_call r w' :
  env half half →
  (camera ← lift camera_of;
   _ ← compute_submit_halide_with_params filters compute_view "colormatrix_dng_to_working" [Some vi] [Some vo]
         (struct_bytes (replicate 9 4%nat) (working_matrix camera));
   _ ← builder_set_cs_role (builder_view u) "scene_linear_rec2020";
   builder_add_applied_step (builder_view u) "color_matrix") w = (r, w') →
  r ≠ Thrown aborted → r ≠ Undef →
  process_node i o u (ColormatrixDngToWorking_process filters nan_bits) inst params w = (Ok (seen_status r, None), w').
Proof.
  intros E Hrun Ha Hu. eapply process_node_exact; [apply E| |done..]. unfold ColormatrixDngToWorking_process.
  rewrite (lift_bind _ (vi, vo, builder_view u)) by done. rewrite checks_pass by done.
  rewrite (lift_bind _ (cs_role m)) by done. rewrite has_step_exact. unfold camera_of in Hrun.
  destruct (String.eqb_spec (cs_role m) "raw_camera") as [Hr|Hr].
  - rewrite (lift_bind _ (bool_decide ("white_balance" ∈ applied_steps m))) by done. case_bool_decide as Hw; cbn [negb].
    + rewrite decide_True in Hrun by done. rewrite <-Hrun. unfold mbind, sr_bind, lift.
      by destruct (required_camera_to_xyz_blob view).
    + rewrite decide_False in Hrun by tauto. exact Hrun.
  - rewrite (lift_bind _ false) by done. rewrite decide_False in Hrun by tauto. exact Hrun.
Qed.

Lemma working_matrix_fits camera : Forall2 fits (replicate 9 4%nat) (working_matrix camera).
Proof. unfold working_matrix, mul3. repeat (constructor; [by apply wrap_bound|]). constructor. Qed.

Lemma set_role_record out role step fi fo :
  env fi fo →
  ∃ h', (_ ← builder_set_cs_role (builder_view u) role; builder_add_applied_step (builder_view u) step) (developed o w bo out)
    = (Ok tt, finished o u w bo out h') ∧ tells h step h' ∧ cs_role (metadata_ (bu_builder h')) = role.
Proof.
  intros E. pose proof (ne_builder _ _ _ _ _ _ _ (de_node E)) as Hb.
  destruct (set_role_open i o u w bi bo h (de_node E) role) as (h1 & H1 & Hf1 & Hs1 & Hr1).
  destruct (add_step_open h1 step Hf1) as (h' & H2 & Hs2 & _ & Hr2). exists h'. unfold tells. rewrite Hs2, Hs1, Hr2, Hr1.
  split_and!; [|done..]. unfold builder_set_cs_role, builder_add_applied_step, builder_call, mbind, sr_bind.
  cbn [builder_view sbu_suite sbu_impl null orb mbind option_bind developed with_store w_builders with_builders].
  rewrite Hb, H1. cbn [w_builders with_builders]. rewrite list_lookup_insert_eq, H2 by (by eapply lookup_lt_Some).
  unfold finished. cbn [w_builders with_builders w_store w_instances]. by rewrite list_insert_insert_eq.
Qed.

(** the colour matrix, from the call of the plugin to the pixels.  A
    white-balanced camera image whose metadata has a finite camera matrix is
    multiplied by the matrix to the working space, alpha is kept, the step and the
    new colour role are recorded and only the data of the output changes.  Without
    them the call reports [CPIPE_NEED_METADATA] and changes nothing. *)
Theorem colormatrix_develops (f : HalideParamFilterEntry) :
  env half half → width * height * 4 < 2 ^ 31 →
  find_filter (halide_param_filters filters) "colormatrix_dng_to_working" = Some f →
  implements f (colormatrix_dng_to_working_param nan_half) →
  let call := process_node i o u (ColormatrixDngToWorking_process filters nan_bits) inst params w in
  match camera_of with
  | Ok camera => ∃ out h', call = (Ok (CPIPE_OK, None), finished o u w bo out h') ∧ tells h "color_matrix" h' ∧
      cs_role (metadata_ (bu_builder h')) = "scene_linear_rec2020" ∧ memory_ok width height out ∧
      ∀ x y c, in_image width height x y → 0 ≤ c < 4 →
        host_px width out x y c = Ok (u16 (transformed nan_half width im (working_matrix camera) x y c))
  | Fail st _ => call = (Ok (st, None), w) ∧ st = CPIPE_NEED_METADATA
  | _ => False
  end.
Proof.
  intros E Hs Hf Hi call. pose proof colormatrix_call as Hcall.
  destruct (camera_cases E) as [[msg Hc]|[camera Hc]]; rewrite Hc in Hcall |- *.
  { split; [|done]. by apply (Hcall (Fail CPIPE_NEED_METADATA msg)). }
  pose proof (de_width E). pose proof (de_height E).
  edestruct (submit_runs filters i o u w bi bo h (de_node E)) as (out & Hpx & Hrun); [exact Hf|exact Hi|apply E|apply E
    |eapply rgba_dimensions; [apply E|lia..]|eapply rgba_dimensions; [apply E|lia..]| |].
  { intros hi ho Hhi Hho. apply (colormatrix_pixels nan_half width height hi ho im om); try (done || apply E).
    - unfold memory_ok. rewrite (di_len _ _ _ _ _ (de_in E)). cbn [bytes_per_pixel]. lia.
    - unfold memory_ok. rewrite (di_len _ _ _ _ _ (de_out E)). cbn [bytes_per_pixel]. lia.
    - apply working_matrix_fits. }
  destruct (set_role_record out "scene_linear_rec2020" "color_matrix" half half E) as (h' & Hrec & Ht & Hr).
  exists out, h'. split_and!; [|done|done|apply Hpx..]. apply (Hcall (Ok tt)); try done.
  rewrite (lift_bind _ camera) by done. by erewrite sr_bind_Ok by exact Hrun.
Qed.

End Nodes.

(** ** Witnesses *)

(** An input and an output of two pixels with the same metadata. *)
Lemma pair_develop fi fo m im om di do_ :
  halide_dimensions (pair_layout fi) = Ok di → halide_dimensions (pair_layout fo) = Ok do_ →
  (∀ key blob, find_blob m key = Some blob → bytes_ok blob) → bytes_ok im →
  len im = bytes_per_pixel fi * 2 → len om = bytes_per_pixel fo * 2 →
  develop_env 0 1 0 7 (pair_world (pair_image fi m im) (pair_image fo m om) (pair_builder m))
    (pair_image fi m im) (pair_image fo m om) (pair_builder m) fi fo 2 1 im om m.
Proof.
  intros Hi Ho Hb Hok Hli Hlo. split; try done; [by eapply pair_env|..].
  - split; try done; [by eexists|repeat constructor].
  - split; try done; [by eexists|repeat constructor].
Qed.

(** The blobs of an image that has at most one. *)
Lemma one_blob m k b :
  exif_blob m = None → xmp_blob m = None → icc_blob m = None → ext_blobs m = {[k := b]} → bytes_ok b →
  ∀ key blob, find_blob m key = Some blob → bytes_ok blob.
Proof.
  intros He Hx Hi Hb Hok key blob. unfold find_blob. rewrite He, Hx, Hi, Hb, !andb_false_r. by intros [_ ->]%lookup_singleton_Some.
Qed.

(** A Bayer image with levels, a linearization table, a gain map and a camera matrix. *)
Definition example_levels : CalibrationBlock :=
  mkCalibration (Some (mkCFA [2; 2] ([0; 1; 1; 2] ++ replicate 12 0))) (replicate 4 (f_lit 1 1)) 3 (Some [5; 6; 7])
    None None None None None None 0 0 [] [] [].

Definition example_raw (key : string) (blob : bytes) : BufferMetadata :=
  mkMetadata 1 (Some example_levels) default_capture ["white_balance"] "raw_camera" None None None None None None None
    default_quant {[key := blob]}.

Definition only_filter (id : string) (g : filter_type) : HalideFilterRegistry :=
  register_halide_param_filter (mkFilters ∅ ∅) id (Some (filter_entry g)).

Lemma only_filter_found id g : find_filter (halide_param_filters (only_filter id g)) id = Some (filter_entry g).
Proof. unfold find_filter, only_filter. simpl. by rewrite lookup_insert_eq. Qed.

Local Abbreviation qnan := 0x7fc00000.
Local Abbreviation JT := (Tree.lib (λ _, None)).

(** The samples 1 and 9: the entries 6 and 7. *)
Lemma linearize_develops_witness :
  let m := example_raw "k" [1] in
  let w := pair_world (pair_image R16_UINT m [1; 0; 9; 0]) (pair_image R32_SFLOAT m (replicate 8 0)) (pair_builder m) in
  ∃ w', process_node (J := JT) 0 1 0
      (LinearizeDngLut_process (only_filter "linearize_dng_lut" (linearize_dng_lut_param qnan))) 7 None w = (Ok (CPIPE_OK, None), w') ∧
    (cb_data <$> w_store w' !! 1%nat) = Some (Some (struct_bytes [4; 4]%nat [bits_of_float qnan (f_lit 6 1); bits_of_float qnan (f_lit 7 1)])).
Proof.
  intros m w.
  destruct (linearize_develops (J := JT) (only_filter "linearize_dng_lut" (linearize_dng_lut_param qnan)) qnan 0 1 0 7 None w
    (pair_image R16_UINT m [1; 0; 9; 0]) (pair_image R32_SFLOAT m (replicate 8 0)) (pair_builder m) 2 1 [1; 0; 9; 0] (replicate 8 0) m
    (filter_entry (linearize_dng_lut_param qnan)) example_levels [5; 6; 7]) as (out & h' & Hcall & _);
    [|done|apply only_filter_found|apply filter_entry_implements|done|done|repeat constructor; done|done|].
  { eapply pair_develop; try reflexivity; [eapply one_blob; try reflexivity|]; apply bytes_ok_dec; reflexivity. }
  eexists. split; [exact Hcall|]. clear - Hcall. vm_compute in Hcall. injection Hcall as <- _. by vm_compute.
Defined.

Definition example_cfa : CFADescriptor := mkCFA [2; 2] ([0; 1; 1; 2] ++ replicate 12 0).

Lemma example_levels_ok : levels_ok example_levels example_cfa.
Proof. split; try done; [apply bytes_ok_dec; by vm_compute|repeat constructor; by vm_compute]. Qed.

(** The samples 2.0 and 1.0 between 1.0 and 3.0: a half and zero. *)
Lemma blacklevel_develops_witness :
  let m := example_raw "k" [1] in
  let im := struct_bytes [4; 4]%nat [0x40000000; 0x3f800000] in
  let w := pair_world (pair_image R32_SFLOAT m im) (pair_image R32_SFLOAT m (replicate 8 0)) (pair_builder m) in
  ∃ w', process_node (J := JT) 0 1 0
      (BlacklevelDngLevels_process (only_filter "blacklevel_dng_levels" (blacklevel_dng_levels_param qnan)) qnan) 7 None w
      = (Ok (CPIPE_OK, None), w') ∧
    (cb_data <$> w_store w' !! 1%nat) = Some (Some (struct_bytes [4; 4]%nat [0x3f000000; 0])).
Proof.
  intros m im w.
  destruct (blacklevel_develops (J := JT) (only_filter "blacklevel_dng_levels" (blacklevel_dng_levels_param qnan)) qnan 0 1 0 7 None w
    (pair_image R32_SFLOAT m im) (pair_image R32_SFLOAT m (replicate 8 0)) (pair_builder m) 2 1 im (replicate 8 0) m eq_refl
    (filter_entry (blacklevel_dng_levels_param qnan)) example_levels example_cfa) as [Hok _];
    [|done|apply only_filter_found|apply filter_entry_implements|done|apply example_levels_ok|].
  { eapply pair_develop; try reflexivity; [eapply one_blob; try reflexivity|]; apply bytes_ok_dec; reflexivity. }
  destruct Hok as (out & h' & Hcall & _).
  { intros x y [Hx Hy]. assert (x = 0 ∨ x = 1) as [->| ->] by lia; assert (y = 0) as -> by lia; by vm_compute. }
  eexists. split; [exact Hcall|]. clear - Hcall. vm_compute in Hcall. injection Hcall as <- _. by vm_compute.
Defined.

(** The gains 1.0 and 2.0 of the map applied to two samples of 1.0. *)
Lemma gainmap_develops_witness :
  let m := example_raw kOpcodeList2BlobKey (list2_bytes [OpGain 0x01030000 0 example_map]) in
  let w := pair_world (pair_image R32_SFLOAT m example_r32) (pair_image R32_SFLOAT m (replicate 8 9)) (pair_builder m) in
  ∃ w', process_node (J := JT) 0 1 0
      (LensShadingGainMap_process (only_filter "lens_shading_gainmap" (lens_shading_gainmap_param qnan)) 0) 7 None w
      = (Ok (CPIPE_OK, None), w') ∧
    (cb_data <$> w_store w' !! 1%nat) = Some (Some (struct_bytes [4; 4]%nat [0x3f800000; 0x40000000])).
Proof.
  intros m w.
  assert (Hthm := gainmap_develops (J := JT) (only_filter "lens_shading_gainmap" (lens_shading_gainmap_param qnan)) qnan 0 1 0 7 None w
    (pair_image R32_SFLOAT m example_r32) (pair_image R32_SFLOAT m (replicate 8 9)) (pair_builder m) 2 1 example_r32 (replicate 8 9) m
    0 ltac:(done) (filter_entry (lens_shading_gainmap_param qnan)) example_levels example_cfa).
  assert (Hg : gain_maps_of m = Ok [example_map]) by (by vm_compute). rewrite Hg in Hthm.
  destruct Hthm as (out & h' & Hcall & _); [|done|apply only_filter_found|apply filter_entry_implements|done|done| |].
  { eapply pair_develop; try reflexivity; [eapply one_blob; try reflexivity|]; apply bytes_ok_dec; vm_compute; reflexivity. }
  { split_and!; [reflexivity|reflexivity|apply bytes_ok_dec; reflexivity|apply bytes_ok_dec; reflexivity]. }
  eexists. split; [exact Hcall|]. clear - Hcall. vm_compute in Hcall. injection Hcall as <- _. by vm_compute.
Defined.

(** The identity as camera matrix; a black and a transparent pixel stay so. *)
Lemma colormatrix_develops_witness :
  let m := example_raw kCameraToXyzBlob (struct_bytes (replicate 9 4%nat)
    [0x3f800000; 0; 0; 0; 0x3f800000; 0; 0; 0; 0x3f800000]) in
  let w := pair_world (pair_image R16G16B16A16_SFLOAT m (replicate 16 0)) (pair_image R16G16B16A16_SFLOAT m (replicate 16 9)) (pair_builder m) in
  ∃ w', process_node (J := JT) 0 1 0
      (ColormatrixDngToWorking_process (only_filter "colormatrix_dng_to_working" (colormatrix_dng_to_working_param 0x7e00)) qnan) 7 None w
      = (Ok (CPIPE_OK, None), w') ∧
    (cb_data <$> w_store w' !! 1%nat) = Some (Some (replicate 16 0)).
Proof.
  intros m w.
  assert (Hthm := colormatrix_develops (J := JT) (only_filter "colormatrix_dng_to_working" (colormatrix_dng_to_working_param 0x7e00)) qnan
    0 1 0 7 None w (pair_image R16G16B16A16_SFLOAT m (replicate 16 0)) (pair_image R16G16B16A16_SFLOAT m (replicate 16 9)) (pair_builder m)
    2 1 (replicate 16 0) (replicate 16 9) m 0x7e00 (filter_entry (colormatrix_dng_to_working_param 0x7e00))).
  assert (∃ camera, camera_of m = Ok camera) as [camera Hc] by (eexists; vm_compute; reflexivity). rewrite Hc in Hthm.
  destruct Hthm as (out & h' & Hcall & _); [|done|apply only_filter_found|apply filter_entry_implements|].
  { eapply pair_develop; try reflexivity; [eapply one_blob; try reflexivity|]; apply bytes_ok_dec; vm_compute; reflexivity. }
  eexists. split; [exact Hcall|]. clear - Hcall. vm_compute in Hcall. injection Hcall as <- _. by vm_compute.
Defined.
