(* ===== verification/WhiteBalance.v ===== *)
(** * White balance

    Models src/cpipe/nodes/wb: the search for the colour temperature of a scene by
    Brent's method, the interpolation of the calibration between two illuminants,
    the metadata both white-balance nodes emit, and their [process] methods.
    WbMetadata.hpp and wb_dual_illuminant.cpp hold two copies of the search and of
    the matrix functions; they are the same definitions here.  [float] is binary32
    and [double] binary64, both correctly rounded.

    The theorems: the search evaluates at most 81 temperatures and returns one whose
    error none of the evaluated ones beats; the two nodes, from the call to the
    pixels and the metadata; and the camera matrix a node emits is the one the
    colour-matrix node reads. *)

From Stdlib Require Import ZArith Lia SpecFloat.
From stdpp Require Import prelude strings list gmap.
From S2P Require Import Prelude Core Json HalfFloat HostContext Float32 Float64 ComputeContext.
From S2P Require Import LensBlob LensFilter GainFilter StateRes Sdk Nodes NodeContract PointFilters RawDevelop.

Local Open Scope Z_scope.

Local Abbreviation fadd := (SFadd 24 128).
Local Abbreviation fsub := (SFsub 24 128).
Local Abbreviation fmul := (SFmul 24 128).
Local Abbreviation fdiv := (SFdiv 24 128).
Local Abbreviation dadd := (SFadd 53 1024).
Local Abbreviation dsub := (SFsub 53 1024).
Local Abbreviation dmul := (SFmul 53 1024).
Local Abbreviation ddiv := (SFdiv 53 1024).

(** A decimal literal [n / d]; [n] and [d] are doubles. *)
Definition d_lit (n d : Z) : float64 := ddiv (f64 n 0) (f64 d 0).

Definition is_finite (v : spec_float) : bool := match v with S754_zero _ | S754_finite _ _ _ => true | _ => false end.

(** ** Temperatures and matrices *)

Definition kCameraDiagBlob : string := "com.cpipe.wb.camera_diag_f32".
Definition kSceneCctBlob : string := "com.cpipe.wb.scene_cct_f32".
Definition kBlendWeightBlob : string := "com.cpipe.wb.dual_illuminant_weight_f32".
Definition kSearchMinCct : float64 := f64 1500 0.
Definition kSearchMaxCct : float64 := f64 10000 0.
Definition kBrentGoldenStep : float64 := d_lit 3819660112501051 (10 ^ 16).
Definition kBrentTolerance : float64 := d_lit 1 100000.

Definition required_matrix (matrix : option Matrix3) (message : string) : res Matrix3 :=
  match matrix with Some m => Ok m | None => Fail CPIPE_NEED_METADATA message end.

Definition calibration_illuminant_cct (illuminant : Z) : option float64 :=
  if illuminant =? 17 then Some (f64 2850 0) else
  if illuminant =? 20 then Some (f64 5500 0) else
  if illuminant =? 21 then Some (f64 6500 0) else
  if illuminant =? 22 then Some (f64 7500 0) else
  if illuminant =? 23 then Some (f64 5000 0) else
  if illuminant =? 24 then Some (f64 3200 0) else None.

Definition reciprocal (v : float64) : float64 := ddiv (f64 1 0) v.

Definition reciprocal_cct_weight (cct1 cct2 cct : float64) : float32 :=
  let denom := dsub (reciprocal cct1) (reciprocal cct2) in
  if SFleb (SFabs denom) epsilon then f_lit 1 1 else
  let weight := ddiv (dsub (reciprocal cct) (reciprocal cct2)) denom in
  to_f32 (clamp_double weight (f64 0 0) (f64 1 0)).

Definition lerp_matrix (first second : Matrix3) (weight : float32) : Matrix3 :=
  (λ i, fadd (fmul weight (entry first i)) (fmul (fsub (f_lit 1 1) weight) (entry second i))) <$> seq 0 9.

(** [m[a] * m[b] - m[c] * m[d]]. *)
Definition minor (m : Matrix3) (a b c d : nat) : float32 :=
  fsub (fmul (entry m a) (entry m b)) (fmul (entry m c) (entry m d)).

Definition determinant (m : Matrix3) : float32 :=
  fadd (fsub (fmul (entry m 0) (minor m 4 8 5 7)) (fmul (entry m 1) (minor m 3 8 5 6)))
       (fmul (entry m 2) (minor m 3 7 4 6)).

(** [std::numeric_limits<float>::epsilon()]. *)
Definition float_epsilon : float32 := f_lit 1 8388608.

Definition inverse_matrix (m : Matrix3) : option Matrix3 :=
  let det := determinant m in
  if negb (is_finite det) || SFleb (SFabs det) float_epsilon then None else
  let inv_det := fdiv (f_lit 1 1) det in
  Some ((λ v, fmul v inv_det) <$>
    [minor m 4 8 5 7; minor m 2 7 1 8; minor m 1 5 2 4; minor m 5 6 3 8; minor m 0 8 2 6; minor m 2 3 0 5;
     minor m 3 7 4 6; minor m 1 6 0 7; minor m 0 4 1 3]).

Definition mul_matrix_vec (matrix value : list float32) : list float32 :=
  (λ r, fadd (fadd (fmul (entry matrix (3 * r)) (entry value 0)) (fmul (entry matrix (3 * r + 1)) (entry value 1)))
             (fmul (entry matrix (3 * r + 2)) (entry value 2))) <$> seq 0 3.

(** [a * x * x * x - b * x * x + c * x - d]. *)
Definition locus_y (a b c d x : float64) : float64 :=
  dsub (dadd (dsub (dmul (dmul (dmul a x) x) x) (dmul (dmul b x) x)) (dmul c x)) d.

Definition planckian_locus_xy (cct : float64) : float64 * float64 :=
  let cct2 := dmul cct cct in
  let cct3 := dmul cct2 cct in
  let x :=
    if SFltb cct (f64 4000 0)
    then dadd (dadd (dsub (ddiv (f64 (-266123900) 0) cct3) (ddiv (f64 234358 0) cct2)) (ddiv (d_lit 8776956 10000) cct))
           (d_lit 179910 1000000)
    else dadd (dadd (dadd (ddiv (f64 (-3025846900) 0) cct3) (ddiv (d_lit 21070379 10) cct2)) (ddiv (d_lit 2226347 10000) cct))
           (d_lit 240390 1000000) in
  let y :=
    if SFltb cct (f64 2222 0)
    then locus_y (d_lit (-11063814) (10 ^ 7)) (d_lit 134811020 (10 ^ 8)) (d_lit 218555832 (10 ^ 8)) (d_lit 20219683 (10 ^ 8)) x
    else if SFltb cct (f64 4000 0)
    then locus_y (d_lit (-9549476) (10 ^ 7)) (d_lit 137418593 (10 ^ 8)) (d_lit 209137015 (10 ^ 8)) (d_lit 16748867 (10 ^ 8)) x
    else locus_y (d_lit 30817580 (10 ^ 7)) (d_lit 587338670 (10 ^ 8)) (d_lit 375112997 (10 ^ 8)) (d_lit 37001483 (10 ^ 8)) x in
  (x, y).

Definition cct_error (neutral color_matrix1 color_matrix2 : list float32) (cct1 cct2 cct : float64) : float64 :=
  let weight := reciprocal_cct_weight cct1 cct2 cct in
  match inverse_matrix (lerp_matrix color_matrix1 color_matrix2 weight) with
  | None => S754_infinity false
  | Some inverse =>
      let xyz := mul_matrix_vec inverse neutral in
      let sum := to_f64 (fadd (fadd (entry xyz 0) (entry xyz 1)) (entry xyz 2)) in
      if negb (is_finite sum) || SFleb sum (f64 0 0) then S754_infinity false else
      let xy := planckian_locus_xy cct in
      let dx := dsub (ddiv (to_f64 (entry xyz 0)) sum) xy.1 in
      let dy := dsub (ddiv (to_f64 (entry xyz 1)) sum) xy.2 in
      dadd (dmul dx dx) (dmul dy dy)
  end.

(** ** Brent's search *)

Record BrentSearchState : Type := mkBrent {
  lower : float64;
  upper : float64;
  best : float64;
  previous : float64;
  previous2 : float64;
  best_error : float64;
  previous_error : float64;
  previous2_error : float64;
  step : float64;
  previous_step : float64
}.

Definition with_step (s : BrentSearchState) (v : float64) : BrentSearchState :=
  mkBrent (lower s) (upper s) (best s) (previous s) (previous2 s) (best_error s) (previous_error s) (previous2_error s)
    v (previous_step s).
Definition with_previous_step (s : BrentSearchState) (v : float64) : BrentSearchState :=
  mkBrent (lower s) (upper s) (best s) (previous s) (previous2 s) (best_error s) (previous_error s) (previous2_error s)
    (step s) v.
Definition with_bounds (s : BrentSearchState) (lo hi : float64) : BrentSearchState :=
  mkBrent lo hi (best s) (previous s) (previous2 s) (best_error s) (previous_error s) (previous2_error s)
    (step s) (previous_step s).

Definition interval_step (s : BrentSearchState) (midpoint : float64) : float64 :=
  if SFltb (best s) midpoint then dsub (upper s) (best s) else dsub (lower s) (best s).

Definition accept_trial (s : BrentSearchState) (trial trial_error : float64) : BrentSearchState :=
  let '(lo, hi) := if SFltb trial (best s) then (lower s, best s) else (best s, upper s) in
  mkBrent lo hi trial (best s) (previous s) trial_error (best_error s) (previous_error s) (step s) (previous_step s).

Definition reject_trial (s : BrentSearchState) (trial trial_error : float64) : BrentSearchState :=
  let s := if SFltb trial (best s) then with_bounds s trial (upper s) else with_bounds s (lower s) trial in
  if SFleb trial_error (previous_error s) || SFeqb (previous s) (best s) then
    mkBrent (lower s) (upper s) (best s) trial (previous s) (best_error s) trial_error (previous_error s)
      (step s) (previous_step s)
  else if SFleb trial_error (previous2_error s) || SFeqb (previous2 s) (best s) || SFeqb (previous2 s) (previous s) then
    mkBrent (lower s) (upper s) (best s) (previous s) trial (best_error s) (previous_error s) trial_error
      (step s) (previous_step s)
  else s.

Section Search.

(** The sign of a NaN is left open. *)
Variable nan_sign : bool.

Definition signbit (v : spec_float) : bool :=
  match v with S754_zero s | S754_infinity s | S754_finite s _ _ => s | S754_nan => nan_sign end.

Definition copysign (magnitude sign : float64) : float64 :=
  if signbit sign then SFopp (SFabs magnitude) else SFabs magnitude.

(** The state is changed also when there is no parabolic step. *)
Definition parabolic_step (s : BrentSearchState) (midpoint tolerance : float64) : option float64 * BrentSearchState :=
  let a := dmul (dsub (best s) (previous s)) (dsub (best_error s) (previous2_error s)) in
  let b := dmul (dsub (best s) (previous2 s)) (dsub (best_error s) (previous_error s)) in
  let numerator := dsub (dmul (dsub (best s) (previous2 s)) b) (dmul (dsub (best s) (previous s)) a) in
  let denominator := dmul (f64 2 0) (dsub b a) in
  if SFleb denominator (f64 0 0) then (None, s) else
  let numerator := SFopp numerator in
  let old_step := previous_step s in
  let s := with_previous_step s (step s) in
  if SFleb (SFabs (dmul (dmul (f64 1 (-1)) denominator) old_step)) (SFabs numerator) ||
     SFleb numerator (dmul denominator (dsub (lower s) (best s))) ||
     SFleb (dmul denominator (dsub (upper s) (best s))) numerator
  then (None, s) else
  let trial_step := ddiv numerator denominator in
  let trial := dadd (best s) trial_step in
  (Some (if SFltb (dsub trial (lower s)) (dmul (f64 2 0) tolerance) || SFltb (dsub (upper s) trial) (dmul (f64 2 0) tolerance)
         then copysign tolerance (dsub midpoint (best s)) else trial_step), s).

Definition next_brent_step (s : BrentSearchState) (midpoint tolerance : float64) : float64 * BrentSearchState :=
  let golden s :=
    let s := with_previous_step s (interval_step s midpoint) in (dmul kBrentGoldenStep (previous_step s), s) in
  if SFltb tolerance (SFabs (previous_step s)) then
    match parabolic_step s midpoint tolerance with
    | (Some trial_step, s) => (trial_step, s)
    | (None, s) => golden s
    end
  else golden s.

Section Estimate.

Variable error : float64 → float64.

Definition midpoint_of (s : BrentSearchState) : float64 := dmul (f64 1 (-1)) (dadd (lower s) (upper s)).
Definition tolerance_of (s : BrentSearchState) : float64 := dadd (dmul kBrentTolerance (SFabs (best s))) kBrentTolerance.

(** The interval is small enough. *)
Definition converged (s : BrentSearchState) : bool :=
  SFleb (SFabs (dsub (best s) (midpoint_of s)))
    (dsub (dmul (f64 2 0) (tolerance_of s)) (dmul (f64 1 (-1)) (dsub (upper s) (lower s)))).

(** The state with the new step, and the temperature to try. *)
Definition next_trial (s : BrentSearchState) : float64 * BrentSearchState :=
  let '(v, s') := next_brent_step s (midpoint_of s) (tolerance_of s) in
  let s' := with_step s' v in
  let trial_step := if SFleb (tolerance_of s) (SFabs v) then v else copysign (tolerance_of s) v in
  (dadd (best s') trial_step, s').

Definition try (s : BrentSearchState) (trial : float64) : BrentSearchState :=
  if SFleb (error trial) (best_error s) then accept_trial s trial (error trial) else reject_trial s trial (error trial).

Fixpoint brent_loop (fuel : nat) (s : BrentSearchState) : BrentSearchState :=
  match fuel with
  | O => s
  | S fuel =>
      if converged s then s else
      let '(trial, s) := next_trial s in brent_loop fuel (try s trial)
  end.

Definition initial_search : BrentSearchState :=
  let start := dmul (f64 1 (-1)) (dadd kSearchMinCct kSearchMaxCct) in
  mkBrent kSearchMinCct kSearchMaxCct start start start (error start) (error start) (error start) (f64 0 0) (f64 0 0).

Definition brent_search : float64 := best (brent_loop 80 initial_search).

End Estimate.

Definition estimate_scene_cct (neutral color_matrix1 color_matrix2 : list float32) (cct1 cct2 : float64) : float64 :=
  brent_search (cct_error neutral color_matrix1 color_matrix2 cct1 cct2).

(** ** The calibration of a scene *)

Record CalibrationResult : Type := mkCalibrationResult {
  camera_to_xyz_d50 : Matrix3;
  scene_cct : float64;
  blend_weight : float32
}.

Definition interpolate_calibration (calibration : CalibrationView) (neutral : list float32) : res CalibrationResult :=
  color_matrix1 ← required_matrix (view_color_matrix1 calibration) "wb missing ColorMatrix1";
  color_matrix2 ← required_matrix (view_color_matrix2 calibration) "wb missing ColorMatrix2";
  match calibration_illuminant_cct (view_illuminant1 calibration), calibration_illuminant_cct (view_illuminant2 calibration) with
  | Some cct1, Some cct2 =>
      let scene_cct := estimate_scene_cct neutral color_matrix1 color_matrix2 cct1 cct2 in
      let blend_weight := reciprocal_cct_weight cct1 cct2 scene_cct in
      match view_forward_matrix1 calibration, view_forward_matrix2 calibration with
      | Some forward1, Some forward2 =>
          Ok (mkCalibrationResult (lerp_matrix forward1 forward2 blend_weight) scene_cct blend_weight)
      | _, _ =>
          match inverse_matrix (lerp_matrix color_matrix1 color_matrix2 blend_weight) with
          | Some inverse => Ok (mkCalibrationResult inverse scene_cct blend_weight)
          | None => Fail CPIPE_NEED_METADATA "wb singular ColorMatrix"
          end
      end
  | _, _ => Fail CPIPE_NEED_METADATA "wb unsupported calibration illuminant"
  end.

(** ** The metadata *)

Variable nan_bits : Z.

Definition set_float_blob (builder : SdkBuilder) (key : string) (values : list float32) : sdk unit :=
  builder_set_blob builder key (concat (float_word nan_bits <$> values)).

Definition emit_wb_blobs (builder : SdkBuilder) (neutral : list float32) (calibration : CalibrationResult) : sdk unit :=
  let camera_diag := (λ i, fdiv (f_lit 1 1) (entry neutral i)) <$> [0; 1; 2]%nat in
  _ ← set_float_blob builder kCameraDiagBlob camera_diag;
  _ ← set_float_blob builder kCameraToXyzBlob (camera_to_xyz_d50 calibration);
  _ ← set_float_blob builder kSceneCctBlob [to_f32 (scene_cct calibration)];
  set_float_blob builder kBlendWeightBlob [blend_weight calibration].

(** ** The nodes *)

Context {J : JsonLib}.

Variable filters : HalideFilterRegistry.

(** The calculation of [WbDualIlluminant]: the checks of the metadata in their
    order, the search and the matrix. *)
Definition dual_calibration (neutral : list float32) (calibration : CalibrationView) : res CalibrationResult :=
  color_matrix1 ← required_matrix (view_color_matrix1 calibration) "wb missing ColorMatrix1";
  color_matrix2 ← required_matrix (view_color_matrix2 calibration) "wb missing ColorMatrix2";
  match calibration_illuminant_cct (view_illuminant1 calibration), calibration_illuminant_cct (view_illuminant2 calibration) with
  | Some cct1, Some cct2 =>
      if existsb (λ v, negb (is_finite v) || SFleb v (f_lit 0 1)) neutral
      then Fail CPIPE_NEED_METADATA "wb invalid AsShotNeutral" else
      let scene_cct := estimate_scene_cct neutral color_matrix1 color_matrix2 cct1 cct2 in
      let blend_weight := reciprocal_cct_weight cct1 cct2 scene_cct in
      camera ← match view_forward_matrix1 calibration, view_forward_matrix2 calibration with
        | Some forward1, Some forward2 => Ok (lerp_matrix forward1 forward2 blend_weight)
        | _, _ => of_option (Fail CPIPE_NEED_METADATA "wb singular ColorMatrix")
                    (inverse_matrix (lerp_matrix color_matrix1 color_matrix2 blend_weight))
        end;
      Ok (mkCalibrationResult camera scene_cct blend_weight)
  | _, _ => Fail CPIPE_NEED_METADATA "wb unsupported calibration illuminant"
  end.

(** [WbParams]. *)
Definition wb_params (neutral : list float32) (c : CalibrationResult) : list float32 :=
  neutral ++ camera_to_xyz_d50 c ++ [to_f32 (scene_cct c); blend_weight c].

Definition WbDualIlluminant_process (compute : SdkCompute) (_ : ParamView) (inputs outputs : list (option Buffer))
    (out_metadata : list (option SdkBuilder)) : sdk unit :=
  '(i, o, u) ← lift (one_to_one inputs outputs out_metadata "wb missing buffers");
  _ ← checked_pair i o R16G16B16A16_SFLOAT R16G16B16A16_SFLOAT "wb format mismatch" "wb needs Image2D input";
  metadata ← require_metadata i "wb missing metadata";
  neutral ← lift (metadata_capture metadata);
  calibration ← lift (metadata_calibration metadata);
  result ← lift (dual_calibration neutral calibration);
  _ ← compute_submit_halide_with_params filters compute "wb_dual_illuminant" inputs outputs
        (concat (float_word nan_bits <$> wb_params neutral result));
  _ ← emit_wb_blobs u neutral result;
  builder_add_applied_step u "white_balance".

(** *** Grey world *)

(** The sums of the channels, in the order of the pixels. *)
Definition channel_sums (pixels : bytes) (pixel_count : Z) : res (list float64) :=
  foldM (λ sums i,
    r ← host_read pixels (i * 4); g ← host_read pixels (i * 4 + 1); b ← host_read pixels (i * 4 + 2);
    Ok (zip_with (λ sum v, dadd sum (to_f64 (half_value v))) sums [r; g; b])) (replicate 3 (f64 0 0)) (seqZ 0 pixel_count).

Definition estimate_neutral_from_pixels (pixels : bytes) (pixel_count : Z) : res (list float32) :=
  sums ← channel_sums pixels pixel_count;
  if existsb (λ sum, negb (is_finite sum) || SFleb sum (f64 0 0)) sums
  then Fail CPIPE_NEED_METADATA "wb.greyworld invalid channel mean"
  else Ok [to_f32 (ddiv (entry sums 0) (entry sums 1)); f_lit 1 1; to_f32 (ddiv (entry sums 2) (entry sums 1))].

Variable nan_half : Z.

Definition apply_neutral (input : bytes) (pixel_count : Z) (neutral : list float32) (output : bytes) : res bytes :=
  foldM (λ mem i,
    mem ← foldM (λ mem c, v ← host_read input (i * 4 + c);
      host_write mem (i * 4 + c) (half_bits nan_half (fdiv (half_value v) (entry neutral (Z.to_nat c))))) mem [0; 1; 2];
    v ← host_read input (i * 4 + 3); host_write mem (i * 4 + 3) v) output (seqZ 0 pixel_count).

(** The memory behind a locked pointer. *)
Definition memory_at (loc : nat) : sdk bytes := λ w,
  (of_option Undef (w_store w !! loc ≫= cb_data), w).
Definition set_memory (loc : nat) (mem : bytes) : sdk unit := λ w,
  (Ok tt, with_store w (alter (λ b, buffer_with_data b (Some mem)) loc (w_store w))).

(** The value or the error of a call, to be looked at later. *)
Definition result {A} (m : sdk A) : sdk (res A) := λ w,
  match m w with
  | (Thrown e, w') => (Thrown e, w')
  | (Undef, w') => (Undef, w')
  | (r, w') => (Ok r, w')
  end.

(** Both locks are released; the output's error comes first. *)
Definition unlock_both (i o : Buffer) : sdk unit :=
  out_unlock ← result (buffer_unlock_cpu o);
  in_unlock ← result (buffer_unlock_cpu i);
  _ ← lift out_unlock;
  lift in_unlock.

Definition WbGreyworldAuto_process (_ : SdkCompute) (_ : ParamView) (inputs outputs : list (option Buffer))
    (out_metadata : list (option SdkBuilder)) : sdk unit :=
  '(i, o, u) ← lift (one_to_one inputs outputs out_metadata "wb.greyworld missing buffers");
  dims ← checked_pair i o R16G16B16A16_SFLOAT R16G16B16A16_SFLOAT "wb.greyworld format mismatch"
           "wb.greyworld needs Image2D input";
  metadata ← require_metadata i "wb.greyworld missing metadata";
  calibration ← lift (metadata_calibration metadata);
  let pixel_count := u64 (field dims 0 * field dims 1) in
  input_lock ← buffer_lock_cpu i 0;
  output_lock ← result (buffer_lock_cpu o 1);
  match output_lock with
  | Ok output_lock =>
      input_pixels ← memory_at input_lock;
      neutral ← result (lift (estimate_neutral_from_pixels input_pixels pixel_count));
      match neutral with
      | Ok neutral =>
          output_pixels ← memory_at output_lock;
          output_pixels ← lift (apply_neutral input_pixels pixel_count neutral output_pixels);
          _ ← set_memory output_lock output_pixels;
          _ ← unlock_both i o;
          _ ← buffer_flush_cpu_writes o;
          wb_calibration ← lift (interpolate_calibration calibration neutral);
          _ ← builder_set_as_shot_neutral u neutral;
          _ ← emit_wb_blobs u neutral wb_calibration;
          builder_add_applied_step u "white_balance"
      | r => _ ← unlock_both i o; _ ← lift r; mret tt
      end
  | r => _ ← buffer_unlock_cpu i; _ ← lift r; mret tt
  end.

End Search.

(** ** The search *)

(** Floats compare like their keys: class, exponent, mantissa. *)
Definition key (v : spec_float) : option (Z * Z * Z) :=
  match v with
  | S754_nan => None
  | S754_infinity s => Some (if s then -2 else 2, 0, 0)
  | S754_zero _ => Some (0, 0, 0)
  | S754_finite s m e => Some (if s then (-1, - e, - Z.pos m) else (1, e, Z.pos m))
  end.

Definition key_lt (a b : Z * Z * Z) : Prop :=
  a.1.1 < b.1.1 ∨ (a.1.1 = b.1.1 ∧ (a.1.2 < b.1.2 ∨ (a.1.2 = b.1.2 ∧ a.2 < b.2))).

Lemma compare_key x y :
  match SFcompare x y, key x, key y with
  | Some Lt, Some a, Some b => key_lt a b
  | Some Eq, Some a, Some b => a = b
  | Some Gt, Some a, Some b => key_lt b a
  | None, a, b => a = None ∨ b = None
  | _, _, _ => False
  end.
Proof.
  destruct x as [[]|[]| |[] m e], y as [[]|[]| |[] m' e']; try (simpl; unfold key_lt; simpl; lia || by auto).
  - simpl. unfold key_lt. simpl. destruct (Z.compare_spec e e') as [->| |]; [|lia..].
    change (Pos.compare_cont Eq m m') with (Pos.compare m m'). destruct (Pos.compare_spec m m') as [->| |]; simpl; [done|lia|lia].
  - simpl. unfold key_lt. simpl. destruct (Z.compare_spec e e') as [->| |]; [|lia..].
    change (Pos.compare_cont Eq m m') with (Pos.compare m m'). destruct (Pos.compare_spec m m') as [->| |]; simpl; [done|lia|lia].
Qed.

Lemma SFltb_key x y : SFltb x y = true ↔ ∃ a b, key x = Some a ∧ key y = Some b ∧ key_lt a b.
Proof.
  unfold SFltb. pose proof (compare_key x y) as H. destruct (SFcompare x y) as [[]|] eqn:E, (key x) as [a|], (key y) as [b|]; try done.
  all: split; [try done; intros _; eauto 6|intros (? & ? & ? & ? & Hlt); simplify_eq; try done].
  all: unfold key_lt in *; lia || (destruct H; done) || idtac.
Qed.

Lemma SFleb_key x y : SFleb x y = true ↔ ∃ a b, key x = Some a ∧ key y = Some b ∧ (a = b ∨ key_lt a b).
Proof.
  unfold SFleb. pose proof (compare_key x y) as H. destruct (SFcompare x y) as [[]|] eqn:E, (key x) as [a|], (key y) as [b|]; try done.
  all: split; [try done; intros _; subst; eauto 7|intros (? & ? & ? & ? & Hlt); simplify_eq; try done].
  all: unfold key_lt in *; destruct Hlt as [->|?]; lia || (destruct H; done) || idtac.
Qed.

Lemma key_lt_le_trans x y z : SFltb x y = true → SFleb y z = true → SFltb x z = true.
Proof.
  rewrite !SFltb_key, SFleb_key. intros (a & b & Ha & Hb & Hab) (b' & c & Hb' & Hc & Hbc). simplify_eq.
  exists a, c. split_and!; [done..|]. destruct Hbc as [->|Hbc]; [done|]. unfold key_lt in *. lia.
Qed.

Lemma SFltb_SFleb x y : SFltb x y = true → SFleb x y = true.
Proof. rewrite SFltb_key, SFleb_key. naive_solver. Qed.

(** A value that another is not above stays so when the other decreases. *)
Lemma not_below_trans e b b' : SFltb e b = false → SFleb b' b = true → SFltb e b' = false.
Proof.
  intros He Hb. apply not_true_iff_false. intros Hlt. apply not_true_iff_false in He. apply He. by eapply key_lt_le_trans.
Qed.

Section Best.

Variables (nan_sign : bool) (error : float64 → float64).

(** The temperatures the loop evaluates. *)
Fixpoint brent_trials (fuel : nat) (s : BrentSearchState) : list float64 :=
  match fuel with
  | O => []
  | S fuel =>
      if converged s then [] else
      let '(trial, s) := next_trial nan_sign s in trial :: brent_trials fuel (try error s trial)
  end.

Lemma parabolic_keeps s mid tol :
  best (parabolic_step nan_sign s mid tol).2 = best s ∧ best_error (parabolic_step nan_sign s mid tol).2 = best_error s.
Proof. unfold parabolic_step. destruct (SFleb _ _); [done|]. by destruct (_ || _ || _). Qed.

(** A step moves neither the best temperature nor its error. *)
Lemma next_trial_keeps s : best (next_trial nan_sign s).2 = best s ∧ best_error (next_trial nan_sign s).2 = best_error s.
Proof.
  unfold next_trial, next_brent_step. destruct (SFltb _ _); [|done].
  pose proof (parabolic_keeps s (midpoint_of s) (tolerance_of s)) as Hp.
  by destruct (parabolic_step nan_sign s (midpoint_of s) (tolerance_of s)) as [[] s'].
Qed.

Lemma try_accepts s t : SFleb (error t) (best_error s) = true → best (try error s t) = t ∧ best_error (try error s t) = error t.
Proof. intros H. unfold try, accept_trial. rewrite H. by destruct (SFltb t (best s)). Qed.

Lemma try_rejects s t : SFleb (error t) (best_error s) = false → best (try error s t) = best s ∧ best_error (try error s t) = best_error s.
Proof.
  intros H. unfold try, reject_trial. rewrite H. destruct (SFltb t (best s)); simpl; destruct (_ || _); try done; by destruct (_ || _).
Qed.

Lemma length_trials fuel : ∀ s, (length (brent_trials fuel s) ≤ fuel)%nat.
Proof.
  induction fuel as [|fuel IH]; intros s; cbn [brent_trials length]; [lia|]. destruct (converged s); [cbn [length]; lia|].
  destruct (next_trial nan_sign s) as [t s']. cbn [length]. specialize (IH (try error s' t)). lia.
Qed.

(** The error of the best temperature only decreases. *)
Lemma loop_decreases fuel : ∀ s,
  best_error s = error (best s) →
  let r := best (brent_loop nan_sign error fuel s) in
  r ∈ best s :: brent_trials fuel s ∧ (error r = error (best s) ∨ SFleb (error r) (error (best s)) = true).
Proof.
  induction fuel as [|fuel IH]; intros s Hs; cbn [brent_loop brent_trials]; [split; [set_solver|by left]|].
  destruct (converged s); [split; [set_solver|by left]|].
  pose proof (next_trial_keeps s) as [Hb He]. destruct (next_trial nan_sign s) as [t s']. simpl in Hb, He.
  destruct (SFleb (error t) (best_error s')) eqn:E.
  - destruct (try_accepts s' t E) as [H1 H2]. destruct (IH (try error s' t)) as [Hin Hle]; [by rewrite H1, H2|].
    rewrite H1 in Hin, Hle. split; [set_solver|]. right. rewrite He, Hs in E. destruct Hle as [->|Hle]; [done|].
    apply SFleb_key in E as (a & b & Ha & Hb' & Hab). apply SFleb_key in Hle as (c & a' & Hc & Ha' & Hca). simplify_eq.
    apply SFleb_key. exists c, b. split_and!; [done..|]. unfold key_lt in *. destruct Hab as [->|?], Hca as [->|?]; auto; right; lia.
  - destruct (try_rejects s' t E) as [H1 H2]. destruct (IH (try error s' t)) as [Hin Hle]; [by rewrite H1, H2, He, Hb|].
    rewrite H1, Hb in Hin, Hle. split; [|done]. apply elem_of_cons in Hin as [?|?]; set_solver.
Qed.

Lemma SFltb_irrefl x : SFltb x x = false.
Proof. apply not_true_iff_false. rewrite SFltb_key. intros (a & b & Ha & Hb & Hlt). simplify_eq. unfold key_lt in Hlt. lia. Qed.

(** No temperature that was evaluated has a smaller error. *)
Lemma loop_best fuel : ∀ s,
  best_error s = error (best s) →
  Forall (λ t, SFltb (error t) (error (best (brent_loop nan_sign error fuel s))) = false) (best s :: brent_trials fuel s).
Proof.
  induction fuel as [|fuel IH]; intros s Hs; [repeat constructor; apply SFltb_irrefl|].
  pose proof (proj2 (loop_decreases (S fuel) s Hs)) as Hdec. cbn [brent_loop brent_trials] in Hdec |- *.
  assert (Hstart : SFltb (error (best s)) (error (best (brent_loop nan_sign error (S fuel) s))) = false).
  { destruct (proj2 (loop_decreases (S fuel) s Hs)) as [->|Hle]; [apply SFltb_irrefl|].
    by eapply not_below_trans; [apply SFltb_irrefl|]. }
  cbn [brent_loop brent_trials] in Hstart. destruct (converged s); [by repeat constructor|].
  pose proof (next_trial_keeps s) as [Hb He]. destruct (next_trial nan_sign s) as [t s']. simpl in Hb, He.
  constructor; [done|]. destruct (SFleb (error t) (best_error s')) eqn:E.
  - destruct (try_accepts s' t E) as [H1 H2]. specialize (IH (try error s' t)). rewrite H1, H2 in IH. by apply IH.
  - destruct (try_rejects s' t E) as [H1 H2]. specialize (IH (try error s' t)). rewrite H1, H2, He, Hb in IH.
    specialize (IH Hs). apply Forall_cons in IH as [_ IH]. constructor; [|done].
    apply not_true_iff_false. intros Hlt. apply not_true_iff_false in E. apply E. rewrite He, Hs.
    destruct Hdec as [<-|Hdec]; [by apply SFltb_SFleb|]. apply SFltb_SFleb. by eapply key_lt_le_trans.
Qed.

End Best.

(** C15: the search for the temperature of a scene.  For any neutral and calibration
    the search evaluates the error at no more than 81 temperatures, the first of
    them in the middle of the range, and returns one of these: one that no
    evaluated temperature beats.  An error that is NaN never counts as better. *)
Theorem scene_cct_best (nan_sign : bool) (neutral color_matrix1 color_matrix2 : list float32) (cct1 cct2 : float64) :
  let error := cct_error neutral color_matrix1 color_matrix2 cct1 cct2 in
  let evaluated := f64 5750 0 :: brent_trials nan_sign error 80 (initial_search error) in
  let estimate := estimate_scene_cct nan_sign neutral color_matrix1 color_matrix2 cct1 cct2 in
  (length evaluated ≤ 81)%nat ∧ estimate ∈ evaluated ∧ ∀ t, t ∈ evaluated → SFltb (error t) (error estimate) = false.
Proof.
  intros error evaluated estimate. assert (Hs : best (initial_search error) = f64 5750 0) by (by vm_compute).
  split_and!.
  - pose proof (length_trials nan_sign error 80 (initial_search error)). unfold evaluated. cbn [length]. lia.
  - unfold evaluated. rewrite <-Hs. by apply (loop_decreases nan_sign error 80 (initial_search error)).
  - apply Forall_forall. unfold evaluated. rewrite <-Hs. by apply (loop_best nan_sign error 80 (initial_search error)).
Qed.

(** ** The metadata a node builds *)

(** A builder whose metadata was changed by [f]. *)
Definition edited (h : cpipe_metadata_builder_s) (f : BufferMetadata → BufferMetadata) : cpipe_metadata_builder_s :=
  mkBuilderHandle (mkBuilder (f (metadata_ (bu_builder h))) None) (bu_input_metadata h).

Definition with_blob (key : string) (b : bytes) (m : BufferMetadata) : BufferMetadata :=
  mkMetadata (schema_version m) (calibration m) (capture m) (applied_steps m) (cs_role m) (active_area m) (exif_blob m)
    (xmp_blob m) (icc_blob m) (mdcv m) (clli m) (ultrahdr m) (tensor_quant m) (<[key := b]> (ext_blobs m)).

Definition with_added_step (s : string) (m : BufferMetadata) : BufferMetadata :=
  mkMetadata (schema_version m) (calibration m) (capture m) (applied_steps m ++ [s]) (cs_role m) (active_area m) (exif_blob m)
    (xmp_blob m) (icc_blob m) (mdcv m) (clli m) (ultrahdr m) (tensor_quant m) (ext_blobs m).

Definition with_neutral (n : list float32) (m : BufferMetadata) : BufferMetadata :=
  mkMetadata (schema_version m) (calibration m) (capture_with_neutral (capture m) n) (applied_steps m) (cs_role m)
    (active_area m) (exif_blob m) (xmp_blob m) (icc_blob m) (mdcv m) (clli m) (ultrahdr m) (tensor_quant m) (ext_blobs m).

(** The world in which builder [u] is [h]. *)
Definition building (u : nat) (w : World) (h : cpipe_metadata_builder_s) : World := with_builders w (<[u := h]> (w_builders w)).

Definition edits (f : option cpipe_metadata_builder_s → res cpipe_metadata_builder_s) (g : BufferMetadata → BufferMetadata) : Prop :=
  ∀ h, frozen_ (bu_builder h) = None → f (Some h) = Ok (edited h g).

Lemma call_edits u w h f g message :
  (u < length (w_builders w))%nat → frozen_ (bu_builder h) = None → edits f g →
  builder_call (builder_view u) f message (building u w h) = (Ok tt, building u w (edited h g)).
Proof.
  intros Hu Hf Hg. unfold builder_call. cbn [builder_view sbu_suite sbu_impl null orb mbind option_bind building with_builders w_builders].
  rewrite list_lookup_insert_eq, (Hg h) by done. unfold building. cbn [w_builders with_builders w_store w_instances].
  by rewrite list_insert_insert_eq.
Qed.

Lemma set_blob_edits key b : b ≠ [] → edits (λ h, host_set_blob h (Some key) (Some b) (length b)) (with_blob key b).
Proof.
  intros Hb h Hf. unfold host_set_blob. destruct b as [|x b]; [done|].
  rewrite (bool_decide_eq_false_2 (Some _ = None)), andb_false_r by done.
  change (length (x :: b) =? 0)%nat with false. cbn [default from_option id]. rewrite (firstn_all (x :: b)).
  unfold with_builder, set_blob. by rewrite mutate_unfrozen.
Qed.

Lemma add_step_edits s : edits (λ h, host_add_applied_step h (Some s)) (with_added_step s).
Proof. intros h Hf. unfold host_add_applied_step, with_builder, add_applied_step, set_steps. by rewrite mutate_unfrozen. Qed.

Lemma set_neutral_edits n : edits (λ h, host_set_as_shot_neutral h (Some n)) (with_neutral (take 3 n)).
Proof. intros h Hf. unfold host_set_as_shot_neutral, with_builder, set_as_shot_neutral, set_capture. by rewrite mutate_unfrozen. Qed.

Section Emit.

Variables (nan_bits : Z) (neutral : list float32) (c : CalibrationResult).

Definition words (l : list float32) : bytes := concat (float_word nan_bits <$> l).

(** What white balance says about the image. *)
Definition wb_blobs (m : BufferMetadata) : BufferMetadata :=
  with_blob kBlendWeightBlob (words [blend_weight c]) (with_blob kSceneCctBlob (words [to_f32 (scene_cct c)])
    (with_blob kCameraToXyzBlob (words (camera_to_xyz_d50 c))
      (with_blob kCameraDiagBlob (words ((λ i, fdiv (f_lit 1 1) (entry neutral i)) <$> [0; 1; 2]%nat)) m))).

Lemma words_nonempty v l : words (v :: l) ≠ [].
Proof. done. Qed.

Lemma emit_exact u w h :
  (u < length (w_builders w))%nat → frozen_ (bu_builder h) = None → camera_to_xyz_d50 c ≠ [] →
  emit_wb_blobs nan_bits (builder_view u) neutral c (building u w h) = (Ok tt, building u w (edited h wb_blobs)).
Proof.
  intros Hu Hf Hc. unfold emit_wb_blobs, set_float_blob, builder_set_blob.
  erewrite sr_bind_Ok by (apply call_edits; [done|done|by apply set_blob_edits]).
  erewrite sr_bind_Ok by (apply call_edits; [done|done|apply set_blob_edits; by destruct (camera_to_xyz_d50 c)]).
  erewrite sr_bind_Ok by (apply call_edits; [done|done|by apply set_blob_edits]).
  erewrite call_edits; [reflexivity|done|done|by apply set_blob_edits].
Qed.

End Emit.

Lemma words_struct nan_bits l : words nan_bits l = struct_bytes (replicate (length l) 4%nat) (bits_of_float nan_bits <$> l).
Proof. induction l as [|v l IH]; [done|]. cbn [fmap list_fmap length replicate]. rewrite struct_bytes_cons, <-IH. done. Qed.

Lemma bits_fit nan_bits l : Forall2 fits (replicate (length l) 4%nat) (bits_of_float nan_bits <$> l).
Proof. induction l as [|v l IH]; [constructor|]. constructor; [by apply wrap_bound|exact IH]. Qed.

(** ** The calibration *)

Definition neutral_ok (neutral : list float32) : bool :=
  negb (existsb (λ v, negb (is_finite v) || SFleb v (f_lit 0 1)) neutral).

(** The calculation of the dual-illuminant node is the shared one, once the neutral
    is valid. *)
Lemma dual_calibration_shared nan_sign neutral v :
  neutral_ok neutral = true → dual_calibration nan_sign neutral v = interpolate_calibration nan_sign v neutral.
Proof.
  intros Hn%negb_true_iff. unfold dual_calibration, interpolate_calibration.
  destruct (view_color_matrix1 v), (view_color_matrix2 v); try done. cbn [required_matrix mbind res_bind].
  destruct (calibration_illuminant_cct (view_illuminant1 v)), (calibration_illuminant_cct (view_illuminant2 v)); try done.
  rewrite Hn. destruct (view_forward_matrix1 v), (view_forward_matrix2 v); try done; by destruct (inverse_matrix _).
Qed.

Lemma interpolate_cases nan_sign v neutral :
  (∃ msg, interpolate_calibration nan_sign v neutral = Fail CPIPE_NEED_METADATA msg) ∨
  ∃ c, interpolate_calibration nan_sign v neutral = Ok c ∧ length (camera_to_xyz_d50 c) = 9%nat.
Proof.
  assert (Hi : ∀ a b, inverse_matrix a = Some b → length b = 9%nat).
  { intros a b. unfold inverse_matrix. destruct (_ || _); [done|]. by intros [= <-]. }
  unfold interpolate_calibration. destruct (view_color_matrix1 v), (view_color_matrix2 v); try (left; by eexists).
  cbn [required_matrix mbind res_bind].
  destruct (calibration_illuminant_cct (view_illuminant1 v)), (calibration_illuminant_cct (view_illuminant2 v)); try (left; by eexists).
  destruct (view_forward_matrix1 v), (view_forward_matrix2 v); try (right; eexists; by split);
    (destruct (inverse_matrix _) eqn:E; [right; eexists; split; [done|by apply (Hi _ _ E)]|left; by eexists]).
Qed.

Lemma dual_cases nan_sign neutral v :
  (∃ msg, dual_calibration nan_sign neutral v = Fail CPIPE_NEED_METADATA msg) ∨
  ∃ c, dual_calibration nan_sign neutral v = Ok c ∧ length (camera_to_xyz_d50 c) = 9%nat.
Proof.
  destruct (neutral_ok neutral) eqn:Hn; [rewrite dual_calibration_shared by done; apply interpolate_cases|].
  left. apply negb_false_iff in Hn. unfold dual_calibration.
  destruct (view_color_matrix1 v), (view_color_matrix2 v); try by eexists. cbn [required_matrix mbind res_bind].
  destruct (calibration_illuminant_cct (view_illuminant1 v)), (calibration_illuminant_cct (view_illuminant2 v)); try by eexists.
  rewrite Hn. by eexists.
Qed.

(** ** The dual-illuminant node *)

Section DualIlluminant.

Context {J : JsonLib}.

Variables (filters : HalideFilterRegistry) (nan_sign : bool) (nan_bits nan_half : Z) (i o u inst : nat) (params : option json).
Variables (w : World) (bi bo : CpuBuffer) (h : cpipe_metadata_builder_s) (width height : Z) (im om : bytes) (m : BufferMetadata).

Local Abbreviation half := R16G16B16A16_SFLOAT.
Local Abbreviation vi := (buffer_view i).
Local Abbreviation vo := (buffer_view o).
Local Abbreviation env := (develop_env i o u inst w bi bo h half half width height im om m).

Definition view_of (m : BufferMetadata) : CalibrationView :=
  match calibration m with Some c => view_of_calibration c | None => empty_view end.

Local Abbreviation neutral := (as_shot_neutral (capture m)).

(** A sample divided by its channel of the neutral. *)
Definition divided (n : list float32) (x y c : Z) : Z :=
  if c =? 3 then sample width im x y 3
  else half_bits nan_half (fdiv (half_value (sample width im x y c)) (entry n (Z.to_nat c))).

Hypothesis Hnan : float_of_bits (u32 nan_bits) = S754_nan.

Lemma balanced_divided n r x y c :
  Forall is_float n → length n = 3%nat → 0 ≤ c < 4 →
  balanced nan_half width im (bits_of_float nan_bits <$> wb_params n r) x y c = divided n x y c.
Proof using Hnan.
  intros Hf Hl Hc. unfold balanced, divided. destruct (Z.eqb_spec c 3); [done|]. do 2 f_equal.
  destruct (lookup_lt_is_Some_2 n (Z.to_nat c)) as [v Hv]; [lia|]. unfold entry, field, wb_params.
  rewrite list_lookup_fmap, lookup_app_l, Hv by lia. simpl. apply float_bits_roundtrip; [|done].
  by apply (Forall_lookup_1 _ _ _ _ Hf) in Hv.
Qed.

Lemma finish_building out (g : BufferMetadata → BufferMetadata) :
  env → developed o w bo out = building u (developed o w bo out) h ∧ (u < length (w_builders (developed o w bo out)))%nat.
Proof using.
  intros E. pose proof (ne_builder _ _ _ _ _ _ _ (de_node E)) as Hb. split; [|by eapply lookup_lt_Some].
  unfold building. rewrite list_insert_id; [done|]. exact Hb.
Qed.

Lemma emit_then_record n r out :
  env → camera_to_xyz_d50 r ≠ [] →
  (_ ← emit_wb_blobs nan_bits (builder_view u) n r; builder_add_applied_step (builder_view u) "white_balance") (developed o w bo out)
  = (Ok tt, finished o u w bo out (edited h (λ m, with_added_step "white_balance" (wb_blobs nan_bits n r m)))).
Proof using.
  intros E Hr. destruct (finish_building out id E) as [Hb Hu]. rewrite Hb at 1.
  pose proof (ne_open _ _ _ _ _ _ _ (de_node E)) as Hf.
  erewrite sr_bind_Ok by (by apply emit_exact).
  unfold builder_add_applied_step. erewrite call_edits; [reflexivity|done|done|apply add_step_edits].
Qed.

Lemma white_balance_call r w' :
  env →
  (result ← lift (dual_calibration nan_sign neutral (view_of m));
   _ ← compute_submit_halide_with_params filters compute_view "wb_dual_illuminant" [Some vi] [Some vo]
         (words nan_bits (wb_params neutral result));
   _ ← emit_wb_blobs nan_bits (builder_view u) neutral result;
   builder_add_applied_step (builder_view u) "white_balance") w = (r, w') → r ≠ Thrown aborted → r ≠ Undef →
  process_node i o u (WbDualIlluminant_process nan_sign nan_bits filters) inst params w = (Ok (seen_status r, None), w').
Proof using.
  intros E Hrun Ha Hu. eapply process_node_exact; [apply E| |done..]. unfold WbDualIlluminant_process.
  rewrite (lift_bind _ (vi, vo, builder_view u)) by done. erewrite checks_pass by exact E.
  rewrite (lift_bind _ neutral) by done. rewrite (lift_bind _ (view_of m)) by apply calibration_exact. exact Hrun.
Qed.

(** C16: dual-illuminant white balance, from the call of the plugin to the pixels
    and the metadata.  With valid metadata every colour sample is divided by its
    channel of the neutral and alpha is kept; the output's metadata gets the four
    blobs of the calibration and the step, and nothing else changes.  Without a
    neutral, two colour matrices, two known illuminants and a usable matrix the
    call reports [CPIPE_NEED_METADATA] and changes nothing. *)
Theorem white_balance_develops (f : HalideParamFilterEntry) :
  env → width * height * 4 < 2 ^ 31 →
  find_filter (halide_param_filters filters) "wb_dual_illuminant" = Some f → implements f (wb_dual_illuminant_param nan_half) →
  Forall is_float neutral → length neutral = 3%nat →
  let call := process_node i o u (WbDualIlluminant_process nan_sign nan_bits filters) inst params w in
  match dual_calibration nan_sign neutral (view_of m) with
  | Ok r => ∃ out,
      call = (Ok (CPIPE_OK, None),
              finished o u w bo out (edited h (λ m', with_added_step "white_balance" (wb_blobs nan_bits neutral r m')))) ∧
      memory_ok width height out ∧
      ∀ x y c, in_image width height x y → 0 ≤ c < 4 → host_px width out x y c = Ok (u16 (divided neutral x y c))
  | Fail st _ => call = (Ok (st, None), w) ∧ st = CPIPE_NEED_METADATA
  | _ => False
  end.
Proof using Hnan.
  intros E Hs Hf Hi Hfl Hln call. pose proof (de_width E). pose proof (de_height E).
  pose proof white_balance_call as Hcall.
  destruct (dual_cases nan_sign neutral (view_of m)) as [[msg Hc]|(r & Hc & Hl9)]; rewrite Hc in Hcall |- *.
  { split; [|done]. by apply (Hcall (Fail CPIPE_NEED_METADATA msg)). }
  assert (Hlen : length (wb_params neutral r) = 14%nat) by (unfold wb_params; rewrite !length_app, Hln, Hl9; done).
  pose proof (submit_runs filters i o u w bi bo h (de_node E) "wb_dual_illuminant" f) as Hsub.
  edestruct Hsub with (blob := words nan_bits (wb_params neutral r)) as (out & Hpx & Hrun); [exact Hf|exact Hi|apply E|apply E
    |eapply rgba_dimensions; [apply E|lia..]|eapply rgba_dimensions; [apply E|lia..]| |].
  { intros hi ho Hhi Hho. rewrite words_struct, Hlen. apply (wb_pixels nan_half width height hi ho im om); try (done || apply E).
    - unfold memory_ok. rewrite (di_len _ _ _ _ _ (de_in E)). cbn [bytes_per_pixel]. lia.
    - unfold memory_ok. rewrite (di_len _ _ _ _ _ (de_out E)). cbn [bytes_per_pixel]. lia.
    - rewrite <-Hlen. apply bits_fit. }
  exists out. split_and!; [|apply Hpx|].
  - apply (Hcall (Ok tt)); try done. rewrite (lift_bind _ r) by done. erewrite sr_bind_Ok by exact Hrun.
    apply emit_then_record; [done|]. by destruct (camera_to_xyz_d50 r).
  - intros x y c Hp Hcc. destruct Hpx as [_ Hpx]. by rewrite (Hpx x y c Hp Hcc), balanced_divided.
Qed.

End DualIlluminant.

(** ** The grey-world node *)

Section Pixels.

Variables (nan_half n : Z) (input : bytes).
Hypothesis Hok : bytes_ok input.
Hypothesis Hlen : len input = 8 * n.

(** The sample of a channel. *)
Local Abbreviation px i c := (value_of 0 (host_read input (i * 4 + c))).

Lemma px_read i c : 0 ≤ i < n → 0 ≤ c < 4 → host_read input (i * 4 + c) = Ok (px i c).
Proof using Hok Hlen.
  intros Hi Hc. destruct (host_read_defined input (i * 4 + c)) as (v & -> & _); [done|lia|lia|done].
Qed.

(** The value [apply_neutral] gives a sample. *)
Definition greyed (neutral : list float32) (i c : Z) : Z :=
  if c =? 3 then px i c else half_bits nan_half (fdiv (half_value (px i c)) (entry neutral (Z.to_nat c))).

Lemma greyed_pixel neutral i mem :
  0 ≤ i < n →
  (mem ← foldM (λ mem c, v ← host_read input (i * 4 + c);
     host_write mem (i * 4 + c) (half_bits nan_half (fdiv (half_value v) (entry neutral (Z.to_nat c))))) mem [0; 1; 2];
   v ← host_read input (i * 4 + 3); host_write mem (i * 4 + 3) v)
  = foldM (λ mem c, host_write mem (i * 4 + c) (greyed neutral i c)) mem [0; 1; 2; 3].
Proof using Hok Hlen.
  intros Hi. change [0; 1; 2; 3] with ([0; 1; 2] ++ [3]). rewrite foldM_app.
  rewrite (foldM_ext _ (λ mem c, host_write mem (i * 4 + c) (greyed neutral i c)) [0; 1; 2]).
  2: { intros b c Hc. pose proof (channel_bound _ _ channels3 Hc). rewrite px_read, Ok_bind by done. unfold greyed.
       destruct (Z.eqb_spec c 3) as [->|]; [set_solver|done]. }
  destruct (foldM _ mem [0; 1; 2]) as [m| | |]; try done. rewrite !Ok_bind, px_read, Ok_bind by lia. cbn [foldM].
  unfold greyed. cbn [Z.eqb Pos.eqb]. by destruct (host_write m _ _).
Qed.

Definition cells : list (Z * Z) := seqZ 0 n ≫= λ i, [(i, 0); (i, 1); (i, 2); (i, 3)].

Lemma cells_in i c : (i, c) ∈ cells ↔ 0 ≤ i < n ∧ 0 ≤ c < 4.
Proof.
  unfold cells. rewrite list_elem_of_bind. setoid_rewrite elem_of_seqZ. split.
  - intros (j & Hc & Hj). rewrite !elem_of_cons, elem_of_nil in Hc. naive_solver lia.
  - intros [Hi Hc]. exists i. split; [|lia]. assert (c = 0 ∨ c = 1 ∨ c = 2 ∨ c = 3) as [->|[->|[->| ->]]] by lia; set_solver.
Qed.

Lemma apply_neutral_exact neutral output :
  len output = 8 * n →
  ∃ out, apply_neutral nan_half input n neutral output = Ok out ∧ len out = 8 * n ∧
    ∀ i c, 0 ≤ i < n → 0 ≤ c < 4 → host_read out (i * 4 + c) = Ok (u16 (greyed neutral i c)).
Proof using Hok Hlen.
  intros Hlo. unfold apply_neutral. set (g mem (s : Z * Z) := host_write mem (s.1 * 4 + s.2) (greyed neutral s.1 s.2)).
  rewrite (foldM_ext _ (λ mem i, foldM g mem [(i, 0); (i, 1); (i, 2); (i, 3)]))
    by (intros mem i Hi%elem_of_seqZ; rewrite greyed_pixel by lia; done).
  rewrite (foldM_nested (λ i : Z, [(i, 0); (i, 1); (i, 2); (i, 3)]) g). fold cells.
  destruct (fill_cells (λ mem, len mem = 8 * n) (λ s, 0 ≤ s.1 < n ∧ 0 ≤ s.2 < 4) (λ mem s, host_read mem (s.1 * 4 + s.2))
    (λ s, u16 (greyed neutral s.1 s.2)) g cells output) as (out & Hf & Hl & Hpx); [| |done|].
  - intros mem [i c] Hm [Hi Hc]. cbn [fst snd] in *.
    destruct (host_write_spec mem (i * 4 + c) (greyed neutral i c)) as (mem' & H1 & H2 & H3 & H4); [lia|lia|].
    exists mem'. split_and!; [done|lia|done|]. intros [i' c'] [Hi' Hc'] Hne. cbn [fst snd] in *. apply H4; [lia|].
    intros Heq. apply Hne. f_equal; lia.
  - apply Forall_forall. intros [i c] Hin. by apply cells_in.
  - exists out. split_and!; [done..|]. intros i c Hi Hc. by apply (Hpx (i, c)), cells_in.
Qed.

Lemma sums_length k : ∀ sums : list float64, length sums = 3%nat → k ≤ n →
  ∃ sums', foldM (λ sums i,
    r ← host_read input (i * 4); g ← host_read input (i * 4 + 1); b ← host_read input (i * 4 + 2);
    Ok (zip_with (λ sum v, dadd sum (to_f64 (half_value v))) sums [r; g; b])) sums (seqZ 0 k) = Ok sums' ∧ length sums' = 3%nat.
Proof using Hok Hlen.
  destruct (decide (k ≤ 0)); [intros sums Hs _; rewrite seqZ_nil by lia; eauto|].
  intros sums Hs Hk. assert (Hr : ∀ i, i ∈ seqZ 0 k → 0 ≤ i < n) by (intros i Hi%elem_of_seqZ; lia).
  revert sums Hs Hr. induction (seqZ 0 k) as [|i l IH]; intros sums Hs Hr; [eauto|]. cbn [foldM].
  assert (Hi : 0 ≤ i < n) by (apply Hr; set_solver). pose proof (px_read i 0 Hi ltac:(lia)) as H0. rewrite Z.add_0_r in H0.
  rewrite H0, (px_read i 1), (px_read i 2), !Ok_bind by lia. apply IH; [|set_solver].
  by destruct sums as [|? [|? [|? []]]].
Qed.

Lemma estimate_cases :
  (∃ msg, estimate_neutral_from_pixels input n = Fail CPIPE_NEED_METADATA msg) ∨
  ∃ neutral, estimate_neutral_from_pixels input n = Ok neutral ∧ length neutral = 3%nat.
Proof using Hok Hlen.
  unfold estimate_neutral_from_pixels, channel_sums.
  destruct (sums_length n (replicate 3 (f64 0 0)) eq_refl ltac:(lia)) as (sums & -> & _). rewrite Ok_bind.
  destruct (existsb _ sums); [left|right]; by eexists.
Qed.

End Pixels.

Section Greyworld.

Context {J : JsonLib}.

Variables (nan_sign : bool) (nan_bits nan_half : Z) (i o u inst : nat) (params : option json).
Variables (w : World) (bi bo : CpuBuffer) (h : cpipe_metadata_builder_s) (width height : Z) (im om : bytes) (m : BufferMetadata).

Local Abbreviation half := R16G16B16A16_SFLOAT.
Local Abbreviation vi := (buffer_view i).
Local Abbreviation vo := (buffer_view o).
Local Abbreviation env := (develop_env i o u inst w bi bo h half half width height im om m).
Local Abbreviation call := (process_node i o u (WbGreyworldAuto_process nan_sign nan_bits nan_half) inst params w).
Local Abbreviation both := ({[o]} ∪ ({[i]} ∪ ∅) : gset nat).

Lemma memory_locked loc b d L st : st !! loc = Some b → cb_data b = Some d → memory_at loc (locking w L st) = (Ok d, locking w L st).
Proof using.
  intros Hb Hd. unfold memory_at, locking. cbn [with_store w_store]. rewrite lookup_with_locks, Hb. cbn. by rewrite Hd.
Qed.

Lemma set_memory_locked mem L :
  env → set_memory o mem (locking w L (w_store w)) = (Ok tt, locking w L (<[o := buffer_with_data bo (Some mem)]> (w_store w))).
Proof using.
  intros E. unfold set_memory, locking. cbn [with_store w_store w_builders w_instances]. rewrite alter_with_locks.
  do 3 f_equal. pose proof (write_back_out i o u w bi bo h (de_node E) mem) as Hw. unfold write_back in Hw. simpl in Hw. exact Hw.
Qed.

(** Both locks are released and the output is flushed. *)
Lemma unlock_both_exact st bi' bo' :
  i ≠ o → st !! i = Some bi' → st !! o = Some bo' → cb_locked bi' = false → cb_locked bo' = false →
  unlock_both vi vo (locking w both st) = (Ok tt, with_store w st).
Proof using.
  intros Hne Hi Ho Ui Uo. unfold unlock_both.
  erewrite sr_bind_Ok by (unfold result; erewrite unlock_view by (done || set_solver); reflexivity).
  erewrite sr_bind_Ok by (unfold result; erewrite unlock_view by (done || set_solver); reflexivity).
  cbn [lift mbind sr_bind]. unfold mbind, sr_bind, lift. f_equal. unfold locking.
  replace (both ∖ {[o]} ∖ {[i]}) with (∅ : gset nat) by set_solver. by rewrite with_locks_empty.
Qed.

(** The calls after the locks were taken. *)
Definition after_locks : sdk unit :=
  input_pixels ← memory_at i;
  neutral ← result (lift (estimate_neutral_from_pixels input_pixels (width * height)));
  match neutral with
  | Ok neutral =>
      output_pixels ← memory_at o;
      output_pixels ← lift (apply_neutral nan_half input_pixels (width * height) neutral output_pixels);
      _ ← set_memory o output_pixels;
      _ ← unlock_both vi vo;
      _ ← buffer_flush_cpu_writes vo;
      wb_calibration ← lift (interpolate_calibration nan_sign (view_of m) neutral);
      _ ← builder_set_as_shot_neutral (builder_view u) neutral;
      _ ← emit_wb_blobs nan_bits (builder_view u) neutral wb_calibration;
      builder_add_applied_step (builder_view u) "white_balance"
  | r => _ ← unlock_both vi vo; _ ← lift r; mret tt
  end.

Lemma greyworld_call r w' :
  env → width * height * 4 < 2 ^ 31 → after_locks (locking w both (w_store w)) = (r, w') →
  r ≠ Thrown aborted → r ≠ Undef → call = (Ok (seen_status r, None), w').
Proof using.
  intros E Hs Hrun Ha Hu. pose proof (de_width E). pose proof (de_height E).
  assert (Hw : w = locking w ∅ (w_store w)) by (unfold locking; rewrite with_locks_empty; by destruct w).
  eapply process_node_exact; [apply E| |done..]. unfold WbGreyworldAuto_process. rewrite (lift_bind _ (vi, vo, builder_view u)) by done.
  erewrite sr_bind_Ok by (eapply checked_pair_exact; apply E). erewrite sr_bind_Ok by (eapply metadata_exact; apply E).
  rewrite (lift_bind _ (view_of m)) by apply calibration_exact.
  change (field [width; height] 0) with width. change (field [width; height] 1) with height.
  rewrite u64_small by nia. rewrite Hw at 1.
  erewrite sr_bind_Ok by (eapply lock_view; [apply (de_node E)|apply (de_node E)|apply E|set_solver]).
  erewrite sr_bind_Ok by (unfold result; erewrite lock_view by (apply (de_node E) || apply E ||
    (pose proof (ne_distinct _ _ _ _ _ _ _ (de_node E)); set_solver)); reflexivity).
  exact Hrun.
Qed.

(** *** The branches *)

Lemma flush_exact w0 b : w_store w0 !! o = Some b → buffer_flush_cpu_writes vo w0 = (Ok tt, w0).
Proof using.
  intros Hb. unfold buffer_flush_cpu_writes, buffer_call. cbn [null orb sb_suite sb_impl buffer_view].
  unfold handle_of. cbn [option_map mbind option_bind]. by rewrite Hb.
Qed.

Lemma neutral_emit_record n r out :
  env → camera_to_xyz_d50 r ≠ [] → length n = 3%nat →
  (_ ← builder_set_as_shot_neutral (builder_view u) n; _ ← emit_wb_blobs nan_bits (builder_view u) n r;
   builder_add_applied_step (builder_view u) "white_balance") (developed o w bo out)
  = (Ok tt, finished o u w bo out (edited h (λ m', with_added_step "white_balance" (wb_blobs nan_bits n r (with_neutral n m'))))).
Proof using.
  intros E Hr Hn. destruct (finish_building i o u inst w bi bo h width height im om m out id E) as [Hb Hu]. rewrite Hb at 1.
  pose proof (ne_open _ _ _ _ _ _ _ (de_node E)) as Hf.
  erewrite sr_bind_Ok by (apply call_edits; [done|done|apply set_neutral_edits]). rewrite take_ge by lia.
  erewrite sr_bind_Ok by (by apply emit_exact).
  unfold builder_add_applied_step. erewrite call_edits; [reflexivity|done|done|apply add_step_edits].
Qed.

Lemma bad_sums st msg :
  env → estimate_neutral_from_pixels im (width * height) = Fail st msg →
  after_locks (locking w both (w_store w)) = (Fail st msg, w).
Proof using.
  intros E He. destruct (env_unlocked i o u w bi bo h (de_node E)) as [Ui Uo]. unfold after_locks.
  erewrite sr_bind_Ok by (eapply memory_locked; [apply (de_node E)|apply E]).
  rewrite He. erewrite sr_bind_Ok by reflexivity. cbv iota beta.
  erewrite sr_bind_Ok by (eapply unlock_both_exact; [apply (de_node E)..|done|done]). unfold mbind, sr_bind, lift.
  by destruct w.
Qed.

Lemma good_sums n out :
  env → estimate_neutral_from_pixels im (width * height) = Ok n → apply_neutral nan_half im (width * height) n om = Ok out →
  after_locks (locking w both (w_store w))
  = (wb_calibration ← lift (interpolate_calibration nan_sign (view_of m) n);
     _ ← builder_set_as_shot_neutral (builder_view u) n; _ ← emit_wb_blobs nan_bits (builder_view u) n wb_calibration;
     builder_add_applied_step (builder_view u) "white_balance") (developed o w bo out).
Proof using.
  intros E He Hout. destruct (env_unlocked i o u w bi bo h (de_node E)) as [Ui Uo].
  pose proof (ne_distinct _ _ _ _ _ _ _ (de_node E)) as Hne. pose proof (ne_out _ _ _ _ _ _ _ (de_node E)) as Hbo.
  assert (Ho : <[o := buffer_with_data bo (Some out)]> (w_store w) !! o = Some (buffer_with_data bo (Some out)))
    by (apply list_lookup_insert_eq; by eapply lookup_lt_Some).
  unfold after_locks. erewrite sr_bind_Ok by (eapply memory_locked; [apply (de_node E)|apply E]).
  rewrite He. erewrite sr_bind_Ok by reflexivity. cbv iota beta.
  erewrite sr_bind_Ok by (eapply memory_locked; [apply (de_node E)|apply E]).
  rewrite (lift_bind _ out) by done. erewrite sr_bind_Ok by (by apply set_memory_locked).
  erewrite sr_bind_Ok by (eapply unlock_both_exact; [done|rewrite list_lookup_insert_ne by done; apply (de_node E)|exact Ho|done|done]).
  erewrite sr_bind_Ok by (eapply flush_exact; exact Ho). done.
Qed.

(** grey-world white balance, from the call of the plugin to the pixels and the
    metadata.  The neutral is the ratio of the channel sums to the green one.  With
    positive finite sums every colour sample is divided by its channel of the
    neutral and alpha is kept; when the calibration can be interpolated, the
    neutral, the four blobs and the step are recorded.  Otherwise the call reports
    [CPIPE_NEED_METADATA]: before the image is touched when the sums are at fault,
    after it was written when the calibration is.  All locks are released. *)
Theorem greyworld_develops :
  env → width * height * 4 < 2 ^ 31 →
  match estimate_neutral_from_pixels im (width * height) with
  | Ok n => ∃ out, len out = 8 * (width * height) ∧
      (∀ p c, 0 ≤ p < width * height → 0 ≤ c < 4 → host_read out (p * 4 + c) = Ok (u16 (greyed nan_half im n p c))) ∧
      match interpolate_calibration nan_sign (view_of m) n with
      | Ok r => call = (Ok (CPIPE_OK, None), finished o u w bo out
          (edited h (λ m', with_added_step "white_balance" (wb_blobs nan_bits n r (with_neutral n m')))))
      | Fail st _ => call = (Ok (st, None), developed o w bo out) ∧ st = CPIPE_NEED_METADATA
      | _ => False
      end
  | Fail st _ => call = (Ok (st, None), w) ∧ st = CPIPE_NEED_METADATA
  | _ => False
  end.
Proof using.
  intros E Hs. pose proof greyworld_call as Hcall.
  assert (Hli : len im = 8 * (width * height)) by apply (di_len _ _ _ _ _ (de_in E)).
  assert (Hlo : len om = 8 * (width * height)) by apply (di_len _ _ _ _ _ (de_out E)).
  destruct (estimate_cases (width * height) im (de_bytes E) Hli) as [[msg He]|(n & He & Hn)]; rewrite He.
  { split; [|done]. apply (Hcall (Fail CPIPE_NEED_METADATA msg)); try done. by apply bad_sums. }
  destruct (apply_neutral_exact nan_half (width * height) im (de_bytes E) Hli n om Hlo) as (out & Hout & Hl & Hpx).
  exists out. split_and!; [done..|]. pose proof (good_sums n out E He Hout) as Hgood.
  destruct (interpolate_cases nan_sign (view_of m) n) as [[msg Hc]|(r & Hc & Hl9)]; rewrite Hc in Hgood |- *.
  - split; [|done]. by apply (Hcall (Fail CPIPE_NEED_METADATA msg)).
  - apply (Hcall (Ok tt)); try done. rewrite Hgood, (lift_bind _ r) by done.
    apply neutral_emit_record; [done| |done]. by destruct (camera_to_xyz_d50 r).
Qed.

End Greyworld.

(** ** From white balance to the colour matrix *)

Lemma isfinite_bits nan_bits v :
  is_float v → float_of_bits (u32 nan_bits) = S754_nan → isfinite32 (bits_of_float nan_bits v) = is_finite v.
Proof.
  intros Hv Hn. unfold isfinite32. destruct v as [[]|[]| |s m e]; try done.
  - unfold bits_of_float. unfold float_of_bits in Hn. change 255 with 0xff.
    destruct (Z.eqb_spec (Z.land (Z.shiftr (u32 nan_bits) 23) 0xff) 255) as [|_]; [done|].
    destruct (_ =? 0); [by destruct (Z.land _ _)|by destruct (Z.lor _ _)].
  - unfold bits_of_float. change 255 with 0xff at 1. cbn [is_finite]. destruct (finite_cases s m e Hv) as [[Hm ->]|[Hm He]].
    + rewrite (proj2 (Z.ltb_lt _ _)) by done. destruct (bit_fields s 0 (Z.pos m)) as (Hu & _ & Hx & _); [lia..|].
      rewrite Z.mul_0_l, Z.add_0_r in *. by rewrite Hu, Hx.
    + rewrite (proj2 (Z.ltb_ge _ _)) by lia.
      destruct (bit_fields s (e + 150) (Z.pos m - 2 ^ 23)) as (Hu & _ & Hx & _); [lia..|].
      rewrite Z.add_assoc, Hu, Hx, (proj2 (Z.eqb_neq _ _)) by lia. done.
Qed.

Lemma words_read nan_bits l :
  read_struct (replicate (length l) 4%nat) (words nan_bits l) 0 = Ok (bits_of_float nan_bits <$> l).
Proof.
  pose proof (read_struct_at (replicate (length l) 4%nat) (bits_of_float nan_bits <$> l) [] [] 0 (bits_fit nan_bits l) eq_refl) as Hr.
  by rewrite app_nil_l, app_nil_r, <-words_struct in Hr.
Qed.

Lemma wb_blobs_camera nan_bits neutral r m :
  find_blob (with_added_step "white_balance" (wb_blobs nan_bits neutral r m)) kCameraToXyzBlob = Some (words nan_bits (camera_to_xyz_d50 r)).
Proof.
  unfold find_blob. cbn [String.eqb Ascii.eqb Bool.eqb andb kCameraToXyzBlob]. unfold wb_blobs. cbn [with_added_step with_blob ext_blobs].
  by rewrite !lookup_insert_ne, lookup_insert_eq by done.
Qed.

(** what a white-balance node says about an image is what the colour-matrix node
    needs to know: on the metadata white balance leaves, in the camera's colour
    space, the colour-matrix node finds the step and reads back exactly the emitted
    camera matrix; it refuses only a matrix with an infinite or NaN entry. *)
Theorem camera_matrix_handed_over (nan_bits : Z) (neutral : list float32) (r : CalibrationResult) (m : BufferMetadata) :
  float_of_bits (u32 nan_bits) = S754_nan → length (camera_to_xyz_d50 r) = 9%nat → Forall is_float (camera_to_xyz_d50 r) →
  cs_role m = "raw_camera" →
  camera_of (with_added_step "white_balance" (wb_blobs nan_bits neutral r m))
  = if forallb is_finite (camera_to_xyz_d50 r) then Ok (camera_to_xyz_d50 r)
    else Fail CPIPE_NEED_METADATA "colormatrix non-finite WB camera-to-XYZ blob".
Proof.
  intros Hn Hl Hf Hr. unfold camera_of.
  rewrite decide_True by (split; [done|]; unfold wb_blobs; cbn [with_added_step applied_steps]; set_solver).
  unfold required_camera_to_xyz_blob. rewrite blob_exact, wb_blobs_camera.
  pose proof (words_read nan_bits (camera_to_xyz_d50 r)) as Hread. rewrite Hl in Hread.
  assert (Hlen : len (words nan_bits (camera_to_xyz_d50 r)) = 36).
  { rewrite words_struct, Hl. unfold len. rewrite length_struct_bytes by (by rewrite length_fmap). done. }
  destruct (words nan_bits (camera_to_xyz_d50 r)) as [|b bs] eqn:E; [done|]. rewrite Hlen, Z.eqb_refl. cbn [negb].
  rewrite Hread, Ok_bind. clear - Hn Hf. assert (Hall : forallb isfinite32 (bits_of_float nan_bits <$> camera_to_xyz_d50 r)
    = forallb is_finite (camera_to_xyz_d50 r)).
  { induction Hf as [|v l Hv _ IH]; [done|]. cbn [fmap list_fmap forallb]. by rewrite isfinite_bits, <-IH. }
  rewrite Hall. destruct (forallb is_finite _); [|done]. f_equal. rewrite <-list_fmap_compose. clear Hall.
  induction Hf as [|v l Hv _ IH]; [done|]. cbn [fmap list_fmap]. rewrite IH. f_equal. by apply float_bits_roundtrip.
Qed.

(** ** Witnesses *)

Definition example_matrix : Matrix3 :=
  [f_lit 1 1; f_lit 0 1; f_lit 0 1; f_lit 0 1; f_lit 1 1; f_lit 0 1; f_lit 0 1; f_lit 0 1; f_lit 1 1].

Definition example_wb : BufferMetadata :=
  mkMetadata 1 (Some (mkCalibration None (replicate 4 f_zero) 0 None (Some example_matrix) (Some example_matrix)
      None None None None 17 21 [] [] []))
    (capture_with_neutral default_capture [f_lit 1 2; f_lit 1 1; f_lit 1 4]) [] "raw_camera" None None None None None None None
    default_quant {["k" := [1]]}.

(** Two grey pixels of 1.0 in every channel. *)
Definition example_half : bytes := concat (replicate 8 [0; 60]).

Local Abbreviation qnan := 0x7fc00000.
Local Abbreviation JT := (Tree.lib (λ _, None)).
Local Abbreviation hf := R16G16B16A16_SFLOAT.

Lemma example_wb_env :
  develop_env 0 1 0 7 (pair_world (pair_image hf example_wb example_half) (pair_image hf example_wb (replicate 16 0)) (pair_builder example_wb))
    (pair_image hf example_wb example_half) (pair_image hf example_wb (replicate 16 0)) (pair_builder example_wb) hf hf 2 1
    example_half (replicate 16 0) example_wb.
Proof.
  eapply pair_develop; try reflexivity; [eapply one_blob; try reflexivity|]; apply bytes_ok_dec; vm_compute; reflexivity.
Qed.

(** The samples become 2.0, 1.0, 4.0 and alpha stays 1.0. *)
Lemma white_balance_develops_witness :
  let w := pair_world (pair_image hf example_wb example_half) (pair_image hf example_wb (replicate 16 0)) (pair_builder example_wb) in
  ∃ w', process_node (J := JT) 0 1 0
      (WbDualIlluminant_process false qnan (only_filter "wb_dual_illuminant" (wb_dual_illuminant_param 0x7e00))) 7 None w
      = (Ok (CPIPE_OK, None), w') ∧
    (cb_data <$> w_store w' !! 1%nat) = Some (Some (concat (replicate 2 [0; 64; 0; 60; 0; 68; 0; 60]))).
Proof.
  intros w.
  assert (Hthm := white_balance_develops (J := JT) (only_filter "wb_dual_illuminant" (wb_dual_illuminant_param 0x7e00)) false qnan 0x7e00
    0 1 0 7 None w _ _ _ 2 1 _ _ _ eq_refl (filter_entry (wb_dual_illuminant_param 0x7e00)) example_wb_env).
  assert (∃ r, dual_calibration false (as_shot_neutral (capture example_wb)) (view_of example_wb) = Ok r) as [r Hr]
    by (eexists; vm_compute; reflexivity). rewrite Hr in Hthm.
  destruct Hthm as (out & Hcall & _); [done|apply only_filter_found|apply filter_entry_implements
    |repeat constructor; by vm_compute|done|].
  eexists. split; [exact Hcall|]. match type of Hcall with ?c = _ => transitivity (cb_data <$> w_store c.2 !! 1%nat) end;
    [by rewrite Hcall|]. clear. vm_compute. reflexivity.
Defined.

(** Equal sums leave the image as it is. *)
Lemma greyworld_develops_witness :
  let w := pair_world (pair_image hf example_wb example_half) (pair_image hf example_wb (replicate 16 0)) (pair_builder example_wb) in
  ∃ w', process_node (J := JT) 0 1 0 (WbGreyworldAuto_process false qnan 0x7e00) 7 None w = (Ok (CPIPE_OK, None), w') ∧
    (cb_data <$> w_store w' !! 1%nat) = Some (Some example_half).
Proof.
  intros w. assert (Hthm := greyworld_develops (J := JT) false qnan 0x7e00 0 1 0 7 None w _ _ _ 2 1 _ _ _ example_wb_env ltac:(done)).
  assert (∃ n r, estimate_neutral_from_pixels example_half (2 * 1) = Ok n ∧
    interpolate_calibration false (view_of example_wb) n = Ok r) as (n & r & Hn & Hr)
    by (eexists _, _; split; [vm_compute; reflexivity|]; vm_compute; reflexivity). rewrite Hn, Hr in Hthm.
  destruct Hthm as (out & _ & _ & Hcall). eexists. split; [exact Hcall|].
  match type of Hcall with ?c = _ => transitivity (cb_data <$> w_store c.2 !! 1%nat) end; [by rewrite Hcall|].
  clear. vm_compute. reflexivity.
Defined.

Lemma camera_matrix_handed_over_witness :
  camera_of (with_added_step "white_balance" (wb_blobs qnan [f_lit 1 2] (mkCalibrationResult example_matrix (f64 5000 0) (f_lit 1 1)) example_wb))
  = Ok example_matrix.
Proof.
  exact (camera_matrix_handed_over qnan [f_lit 1 2] (mkCalibrationResult example_matrix (f64 5000 0) (f_lit 1 1)) example_wb
    eq_refl eq_refl ltac:(repeat constructor; by vm_compute) eq_refl).
Defined.
