(* ===== verification/FloatValid.v ===== *)
(** * The results of float operations are floats

    The operations of SpecFloat work on arbitrary mantissas and exponents; the ones a
    [float] can hold are those with [valid_binary].  Rounding always gives one of them
    when its argument is at least as precise as the format, which conversions see to
    themselves and products of floats are: so every conversion and every sum and
    product of floats is a float again, and survives being stored in memory.

    Sums and differences keep the power-of-two bounds of [Float32], so that code on
    bounded floats meets no infinity and no NaN. *)

From Stdlib Require Import ZArith Lia SpecFloat.
From stdpp Require Import prelude.
From S2P Require Import Prelude Float32 Float64.

Local Open Scope Z_scope.

Section Valid.

Variables prec emax : Z.
Hypothesis Hprec : 1 < prec.

Local Abbreviation fexp := (fexp prec emax).
Local Abbreviation emin := (emin prec emax).

Definition good (v : spec_float) : Prop := valid_binary prec emax v = true.

(** The number of digits is determined by the bounds. *)
Lemma digits_unique m d : 0 < d → 2 ^ (d - 1) ≤ Z.pos m < 2 ^ d → Z.pos (digits2_pos m) = d.
Proof using.
  intros Hd Hm. pose proof (digits2_bounds m) as [Hl Hh]. set (k := Z.pos (digits2_pos m)) in *.
  destruct (Z.lt_trichotomy k d) as [H|[H|H]]; [|done|].
  - assert (2 ^ k ≤ 2 ^ (d - 1)) by (apply Z.pow_le_mono_r; lia). lia.
  - assert (2 ^ d ≤ 2 ^ (k - 1)) by (apply Z.pow_le_mono_r; lia). lia.
Qed.

Lemma digits_shift m n p : 0 ≤ n → Z.pos m / 2 ^ n = Z.pos p → Z.pos (digits2_pos p) = Z.pos (digits2_pos m) - n.
Proof using.
  intros Hn Hp. pose proof (digits2_bounds m) as [Hl Hh]. set (d := Z.pos (digits2_pos m)) in *.
  assert (Hd : n < d).
  { destruct (decide (n < d)); [done|]. assert (2 ^ d ≤ 2 ^ n) by (apply Z.pow_le_mono_r; lia).
    rewrite Z.div_small in Hp by lia. done. }
  assert (0 < 2 ^ n) by lia. apply digits_unique; [lia|]. rewrite <-Hp. split.
  - apply Z.div_le_lower_bound; [lia|]. rewrite <-Z.pow_add_r by lia. replace (n + (d - n - 1)) with (d - 1) by lia. done.
  - apply Z.div_lt_upper_bound; [lia|]. rewrite <-Z.pow_add_r by lia. by replace (n + (d - n)) with d by lia.
Qed.

Lemma digits_mono p q : Z.pos p ≤ Z.pos q → Z.pos (digits2_pos p) ≤ Z.pos (digits2_pos q).
Proof using.
  intros Hpq. pose proof (digits2_bounds p) as [Hl _]. pose proof (digits2_bounds q) as [_ Hh].
  set (a := Z.pos (digits2_pos p)) in *. set (b := Z.pos (digits2_pos q)) in *. destruct (decide (a ≤ b)); [done|].
  assert (2 ^ b ≤ 2 ^ (a - 1)) by (apply Z.pow_le_mono_r; lia). lia.
Qed.

(** Shifting to the exponent of the format. *)
Lemma shr_fexp_canonical m e l :
  0 ≤ m → e ≤ fexp (Zdigits2 m + e) →
  let r := shr_fexp prec emax m e l in
  r.2 = fexp (Zdigits2 m + e) ∧ shr_m r.1 = m / 2 ^ (r.2 - e) ∧
  (∀ p, shr_m r.1 = Z.pos p → fexp (Z.pos (digits2_pos p) + r.2) = r.2).
Proof using.
  intros Hm He r. set (n := fexp (Zdigits2 m + e) - e).
  assert (E : r.2 = fexp (Zdigits2 m + e) ∧ shr_m r.1 = m / 2 ^ n).
  { unfold r, shr_fexp. fold n. assert (0 ≤ n) by lia. destruct n as [|p|p] eqn:En; [| |lia]; cbn [shr fst snd].
    - rewrite shr_record_m, Z.div_1_r. lia.
    - rewrite iter_shr_m, shr_record_m by (by rewrite shr_record_m). lia. }
  destruct E as [E1 E2]. split_and!; [done|rewrite E2, E1; done|]. intros p Hp. rewrite E2 in Hp.
  destruct m as [|q|q]; [by rewrite Z.div_0_l in Hp by lia| |lia].
  rewrite (digits_shift q n p) by (done || lia). rewrite E1. cbn [Zdigits2] in *. f_equal. lia.
Qed.

Lemma round_cases m l : round_nearest_even m l = m ∨ round_nearest_even m l = m + 1.
Proof using. destruct l as [|[]]; cbn; [lia| |lia|lia]. destruct (Z.even m); lia. Qed.

(** Rounding an argument that has all the digits of the format, or all below [emin]. *)
Lemma round_aux_good s m e l : 0 ≤ m → e ≤ fexp (Zdigits2 m + e) → good (binary_round_aux prec emax s m e l).
Proof using Hprec.
  intros Hm He. unfold binary_round_aux. destruct (shr_fexp_canonical m e l Hm He) as (E1 & M1 & C1).
  destruct (shr_fexp prec emax m e l) as [r e']. cbn [fst snd] in *.
  pose proof (round_cases (shr_m r) (loc_of_shr_record r)) as Hr.
  remember (round_nearest_even (shr_m r) (loc_of_shr_record r)) as m1 eqn:Em. clear Em.
  assert (Hs : 0 ≤ shr_m r) by (rewrite M1; apply Z.div_pos; lia).
  assert (Hm1 : m1 = 0 ∨ e' ≤ fexp (Zdigits2 m1 + e')).
  { destruct (shr_m r) as [|p|p] eqn:Ep; [|right|lia].
    - destruct Hr as [->| ->]; [by left|right]. cbn [Zdigits2 digits2_pos Z.add].
      assert (e' = emin); [|unfold SpecFloat.fexp in *; lia].
      destruct m as [|q|q]; [unfold SpecFloat.fexp in *; cbn [Zdigits2] in *; lia| |lia]. cbn [Zdigits2] in *.
      pose proof (digits2_bounds q) as [Hl _]. set (d := Z.pos (digits2_pos q)) in *.
      destruct (decide (e' = emin)) as [|Hne]; [done|]. assert (e' - e ≤ d - 1) by (unfold SpecFloat.fexp in *; lia).
      assert (2 ^ (e' - e) ≤ 2 ^ (d - 1)) by (apply Z.pow_le_mono_r; lia).
      assert (1 ≤ Z.pos q / 2 ^ (e' - e)) by (apply Z.div_le_lower_bound; lia). lia.
    - specialize (C1 p eq_refl). rewrite <-C1 at 1. unfold SpecFloat.fexp.
      assert (Z.pos (digits2_pos p) ≤ Zdigits2 m1); [|lia].
      destruct m1 as [|q|q]; [lia| |lia]. cbn [Zdigits2]. apply digits_mono. lia. }
  destruct Hm1 as [->|Hm1].
  - destruct (shr_fexp prec emax 0 e' loc_Exact) as [r2 e2] eqn:E2. assert (shr_m r2 = 0) as ->; [|done].
    unfold shr_fexp, shr in E2. destruct (_ - e') in E2; injection E2 as <- <-; [done| |done].
    rewrite iter_shr_m by done. cbn [shr_m]. apply Z.div_0_l. lia.
  - destruct (shr_fexp_canonical m1 e' loc_Exact ltac:(lia) Hm1) as (_ & _ & C2).
    destruct (shr_fexp prec emax m1 e' loc_Exact) as [r2 e2]. cbn [fst snd] in *.
    destruct (shr_m r2) as [|p|p]; [done| |done]. destruct (Z.leb_spec e2 (emax - prec)); [|done].
    unfold good, valid_binary, bounded, canonical_mantissa. rewrite (C2 p eq_refl), Z.eqb_refl. by apply Z.leb_le.
Qed.

Lemma round_good s m e : good (binary_round prec emax s m e).
Proof using Hprec.
  unfold binary_round, shl_align. set (t := fexp (Z.pos (digits2_pos m) + e)).
  destruct (t - e) as [|p|p] eqn:Et; try (apply round_aux_good; [lia|cbn [Zdigits2]; fold t; lia]).
  assert (D : Z.pos (digits2_pos (Pos.iter xO m p)) = Z.pos (digits2_pos m) + Z.pos p).
  { pose proof (digits2_bounds m) as [Hl Hh]. apply digits_unique; [lia|]. rewrite Pos_iter_xO.
    replace (Z.pos (digits2_pos m) + Z.pos p - 1) with (Z.pos (digits2_pos m) - 1 + Z.pos p) by lia.
    rewrite !Z.pow_add_r by lia. nia. }
  apply round_aux_good; [lia|]. cbn [Zdigits2]. rewrite D. replace (Z.pos (digits2_pos m) + Z.pos p + t) with (Z.pos (digits2_pos m) + e) by lia.
  done.
Qed.

Lemma normalize_good m e b : good (binary_normalize prec emax m e b).
Proof using Hprec. unfold binary_normalize. destruct m; [done|apply round_good..]. Qed.

Lemma add_good x y : good x → good y → good (SFadd prec emax x y).
Proof using Hprec.
  intros Hx Hy. destruct x as [a|a| |a m e], y as [b|b| |b n f]; cbn [SFadd]; try done;
    try (by destruct a, b). apply normalize_good.
Qed.

(** The exponent of a float is the one its mantissa asks for. *)
Lemma good_exponent s m e : good (S754_finite s m e) → prec ≤ Z.pos (digits2_pos m) ∨ e = emin.
Proof using Hprec.
  unfold good, valid_binary, bounded, canonical_mantissa, SpecFloat.fexp. intros [Hc%Z.eqb_eq _]%andb_true_iff. lia.
Qed.

Lemma digits_mul m n : Z.pos (digits2_pos m) + Z.pos (digits2_pos n) - 1 ≤ Z.pos (digits2_pos (m * n)).
Proof using.
  pose proof (digits2_bounds m) as [Hm _]. pose proof (digits2_bounds n) as [Hn _]. pose proof (digits2_bounds (m * n)) as [_ Hmn].
  set (a := Z.pos (digits2_pos m)) in *. set (b := Z.pos (digits2_pos n)) in *. set (c := Z.pos (digits2_pos (m * n))) in *.
  destruct (decide (a + b - 1 ≤ c)); [done|]. assert (2 ^ c ≤ 2 ^ ((a - 1) + (b - 1))) as H by (apply Z.pow_le_mono_r; lia).
  rewrite Z.pow_add_r in H by lia. rewrite Pos2Z.inj_mul in Hmn.
  assert (2 ^ (a - 1) * 2 ^ (b - 1) ≤ Z.pos m * Z.pos n) by (apply Z.mul_le_mono_nonneg; lia). lia.
Qed.

Lemma mul_good x y : emin ≤ 0 → good x → good y → good (SFmul prec emax x y).
Proof using Hprec.
  intros Hmin Hx Hy. destruct x as [a|a| |a m e], y as [b|b| |b n f]; cbn [SFmul]; try done.
  apply round_aux_good; [lia|]. cbn [Zdigits2]. pose proof (digits_mul m n).
  destruct (good_exponent _ _ _ Hx) as [Dm|Em], (good_exponent _ _ _ Hy) as [Dn|En]; unfold SpecFloat.fexp; lia.
Qed.

(** A quotient is computed with at least the digits of the format, whatever its
    arguments. *)
Lemma div_core_good m1 e1 m2 e2 :
  let r := SFdiv_core_binary prec emax (Z.pos m1) e1 (Z.pos m2) e2 in 0 ≤ r.1.1 ∧ r.1.2 ≤ fexp (Zdigits2 r.1.1 + r.1.2).
Proof using.
  unfold SFdiv_core_binary. cbn [Zdigits2]. set (d1 := Z.pos (digits2_pos m1)). set (d2 := Z.pos (digits2_pos m2)).
  set (e' := Z.min (fexp (d1 + e1 - (d2 + e2))) (e1 - e2)). set (s := e1 - e2 - e'). assert (Hs : 0 ≤ s) by lia.
  set (m' := match s with Z.pos _ => Z.shiftl (Z.pos m1) s | Z0 => Z.pos m1 | Z.neg _ => 0 end).
  assert (Hm : m' = Z.pos m1 * 2 ^ s) by (unfold m'; destruct s; [lia|by rewrite Z.shiftl_mul_pow2|lia]).
  pose proof (Z_div_mod m' (Z.pos m2) eq_refl) as Hq. destruct (Z.div_eucl m' (Z.pos m2)) as [q r]. destruct Hq as [Hq Hr].
  cbn [fst snd]. assert (Hq0 : 0 ≤ q) by nia. split; [done|].
  assert (D : d1 + s - d2 ≤ Zdigits2 q); [|unfold SpecFloat.fexp in *; lia].
  pose proof (digits2_bounds m1) as [Hl1 _]. pose proof (digits2_bounds m2) as [_ Hh2]. fold d1 in Hl1. fold d2 in Hh2.
  destruct (decide (d1 + s - d2 ≤ Zdigits2 q)) as [|Hn]; [done|]. exfalso.
  assert (Hz : 0 ≤ Zdigits2 q) by (by destruct q). pose proof (digits_lt q Hq0) as Hd.
  assert (q + 1 ≤ 2 ^ (d1 + s - d2 - 1)) by (assert (2 ^ Zdigits2 q ≤ 2 ^ (d1 + s - d2 - 1)) by (apply Z.pow_le_mono_r; lia); lia).
  assert (H2 : 2 ^ (d1 - 1) * 2 ^ s = 2 ^ d2 * 2 ^ (d1 + s - d2 - 1)) by (rewrite <-!Z.pow_add_r by lia; f_equal; lia).
  assert (2 ^ (d1 - 1) * 2 ^ s ≤ m') by (rewrite Hm; apply Z.mul_le_mono_nonneg_r; lia).
  assert (m' < Z.pos m2 * (q + 1)) by lia.
  assert (Z.pos m2 * (q + 1) ≤ 2 ^ d2 * 2 ^ (d1 + s - d2 - 1)) by (apply Z.mul_le_mono_nonneg; lia). lia.
Qed.

Lemma div_good x y : good (SFdiv prec emax x y).
Proof using Hprec.
  destruct x as [a|a| |a m e], y as [b|b| |b n f]; cbn [SFdiv]; try done.
  destruct (div_core_good m e n f) as [Hq He]. destruct (SFdiv_core_binary _ _ _ _ _ _) as [[q e'] l]. by apply round_aux_good.
Qed.

End Valid.

(** ** Sums of bounded floats are bounded *)

Lemma below_mono k k' x : k ≤ k' → below k x → below k' x.
Proof.
  destruct x as [s| | |s m e]; try done. cbn [below]. intros Hk [He Hm]. split; [lia|].
  assert (2 ^ (k - e) ≤ 2 ^ (k' - e)) by (apply Z.pow_le_mono_r; lia). lia.
Qed.

(** Rounding an integer multiple of [2^e] of magnitude at most [2^k]. *)
Lemma binary_round_below k s m e :
  -125 ≤ k ≤ 104 → e ≤ k → Z.pos m ≤ 2 ^ (k - e) → below k (binary_round 24 128 s m e).
Proof.
  intros Hk He Hm. unfold binary_round, shl_align. set (t := SpecFloat.fexp _ _ _).
  destruct (t - e) as [|p|p] eqn:Ht; try (apply round_below; [lia|split_and!; cbn; [lia|lia|lia|done]]).
  apply round_below; [lia|]. split_and!; cbn [shr_record_of_loc shr_m]; [lia|lia| |done].
  rewrite Pos_iter_xO. replace (k - t) with (k - e + Z.pos p) by lia. rewrite Z.pow_add_r by lia. nia.
Qed.

Lemma normalize_below k m e b :
  -125 ≤ k ≤ 104 → e ≤ k → - 2 ^ (k - e) ≤ m ≤ 2 ^ (k - e) → below k (binary_normalize 24 128 m e b).
Proof. intros Hk He Hm. unfold binary_normalize. destruct m; [done|apply binary_round_below; lia..]. Qed.

Lemma shl_align_value m e e' : e' ≤ e → Z.pos (shl_align m e e').1 = Z.pos m * 2 ^ (e - e').
Proof.
  intros He. unfold shl_align. destruct (e' - e) as [|p|p] eqn:Hd; cbn [fst].
  - replace (e - e') with 0 by lia. lia.
  - lia.
  - rewrite Pos_iter_xO. by replace (e - e') with (Z.pos p) by lia.
Qed.

Lemma add_below k x y : -125 ≤ k ≤ 103 → below k x → below k y → below (k + 1) (SFadd 24 128 x y).
Proof.
  intros Hk Hx Hy. destruct x as [a|a| |a m e], y as [b|b| |b n f]; cbn [below SFadd] in *; try done.
  - by destruct a, b.
  - split; [lia|]. destruct Hy. replace (k + 1 - f) with (k - f + 1) by lia. rewrite Z.pow_add_r by lia. lia.
  - split; [lia|]. destruct Hx. replace (k + 1 - e) with (k - e + 1) by lia. rewrite Z.pow_add_r by lia. lia.
  - destruct Hx as [He Hm], Hy as [Hf Hn]. set (z := Z.min e f). apply normalize_below; [lia|lia|].
    unfold cond_Zopp. rewrite !shl_align_value by lia.
    assert (∀ m e, z ≤ e → e ≤ k → Z.pos m ≤ 2 ^ (k - e) → Z.pos m * 2 ^ (e - z) ≤ 2 ^ (k - z)) as B.
    { intros m' e' ? ? Hb. replace (k - z) with (k - e' + (e' - z)) by lia. rewrite Z.pow_add_r by lia. nia. }
    pose proof (B m e ltac:(lia) He Hm). pose proof (B n f ltac:(lia) Hf Hn).
    replace (k + 1 - z) with (k - z + 1) by lia. rewrite Z.pow_add_r by lia.
    pose proof (Z.pow_pos_nonneg 2 (e - z)). pose proof (Z.pow_pos_nonneg 2 (f - z)). destruct a, b; nia.
Qed.

Lemma opp_below k x : below k x → below k (SFopp x).
Proof. by destruct x. Qed.

Lemma sub_below k x y : -125 ≤ k ≤ 103 → below k x → below k y → below (k + 1) (SFsub 24 128 x y).
Proof.
  intros Hk Hx Hy. replace (SFsub 24 128 x y) with (SFadd 24 128 x (SFopp y)); [by apply add_below; [|done|apply opp_below]|].
  destruct x as [a|a| |a m e], y as [b|b| |b n f]; cbn [SFsub SFadd SFopp] in *; try done; by destruct a, b.
Qed.
