(* ===== verification/HalideStage.v ===== *)
(** * Halide stages

    The generators under src/cpipe/nodes build Halide algorithms: pure functions from
    coordinates to values.  Halide compiles them to the filters the nodes submit.
    This file holds what the models of the generators share: [HalideOps], the scalar
    operations an algorithm is written with, the boundary condition, and the two
    carriers used in theorems and examples.

    What an operation on floats computes is decided by Halide's code generator, which
    may contract and reassociate; the algorithms are therefore written over an
    arbitrary instance of [HalideOps].  [ieee_ops] rounds every operation to binary32;
    the exact instance over the reals is in [ExactOps]. *)

From Stdlib Require Import ZArith Lia SpecFloat.
From stdpp Require Import prelude strings list.
From S2P Require Import Prelude Core HalfFloat Float64 LensFilter Nodes.

Local Open Scope Z_scope.

(** ** Scalars *)

(** [F] is the type of [Halide::Expr]s of type float, [H] the one of float16. *)
Class HalideOps (F H : Type) : Type := mkOps {
  h_lit : Z → Z → F;
  h_add : F → F → F;
  h_sub : F → F → F;
  h_mul : F → F → F;
  h_div : F → F → F;
  h_opp : F → F;
  h_abs : F → F;
  h_max : F → F → F;
  h_min : F → F → F;
  h_lt : F → F → bool;
  h_le : F → F → bool;
  h_eq : F → F → bool;
  h_sqrt : F → F;
  h_exp : F → F;
  h_log : F → F;
  h_pow : F → F → F;
  h_of_int : Z → F;
  h_floor : F → F;
  h_to_int : F → Z;
  h_of_half : H → F;
  h_to_half : F → H
}.

Declare Scope halide_scope.
Delimit Scope halide_scope with H.
Infix "+" := h_add : halide_scope.
Infix "-" := h_sub : halide_scope.
Infix "*" := h_mul : halide_scope.
Infix "/" := h_div : halide_scope.
Infix "<?" := h_lt : halide_scope.
Infix "<=?" := h_le : halide_scope.
Infix "=?" := h_eq : halide_scope.

(** [Halide::clamp(v, lo, hi)], on floats and on integers. *)
Definition h_clamp {F H} `{HalideOps F H} (v lo hi : F) : F := h_max (h_min v hi) lo.
Definition z_clamp (v lo hi : Z) : Z := Z.max (Z.min v hi) lo.

(** The constant [z.0F]. *)
Definition h_num {F H} `{HalideOps F H} (z : Z) : F := h_lit z 1.

(** ** Boundaries *)

(** [Halide::BoundaryConditions::repeat_edge] of a buffer that starts at the origin. *)
Definition repeat_edge {A} (width height : Z) (input : Z → Z → A) (x y : Z) : A :=
  input (z_clamp x 0 (width - 1)) (z_clamp y 0 (height - 1)).

(** The same with the channels of a colour image. *)
Definition repeat_edge3 {A} (width height channels : Z) (input : Z → Z → Z → A) (x y c : Z) : A :=
  input (z_clamp x 0 (width - 1)) (z_clamp y 0 (height - 1)) (z_clamp c 0 (channels - 1)).

Lemma z_clamp_in v lo hi : lo ≤ v ≤ hi → z_clamp v lo hi = v.
Proof. unfold z_clamp. lia. Qed.

Lemma z_clamp_range v lo hi : lo ≤ hi → lo ≤ z_clamp v lo hi ≤ hi.
Proof. unfold z_clamp. lia. Qed.

Lemma repeat_edge_in {A} width height (input : Z → Z → A) x y :
  0 ≤ x < width → 0 ≤ y < height → repeat_edge width height input x y = input x y.
Proof. intros Hx Hy. unfold repeat_edge. by rewrite !z_clamp_in by lia. Qed.

Lemma repeat_edge3_in {A} width height channels (input : Z → Z → Z → A) x y c :
  0 ≤ x < width → 0 ≤ y < height → 0 ≤ c < channels → repeat_edge3 width height channels input x y c = input x y c.
Proof. intros Hx Hy Hc. unfold repeat_edge3. by rewrite !z_clamp_in by lia. Qed.

(** Whatever is read is a sample of the image. *)
Lemma repeat_edge_inside {A} (P : A → Prop) width height (input : Z → Z → A) x y :
  0 < width → 0 < height → (∀ x y, 0 ≤ x < width → 0 ≤ y < height → P (input x y)) → P (repeat_edge width height input x y).
Proof.
  intros Hw Hh HP. pose proof (z_clamp_range x 0 (width - 1)). pose proof (z_clamp_range y 0 (height - 1)). apply HP; lia.
Qed.

Lemma repeat_edge3_inside {A} (P : A → Prop) width height (input : Z → Z → Z → A) x y c :
  0 < width → 0 < height → 0 ≤ c < 4 → (∀ x y, 0 ≤ x < width → 0 ≤ y < height → P (input x y c)) →
  P (repeat_edge3 width height 4 input x y c).
Proof.
  intros Hw Hh Hc HP. unfold repeat_edge3. rewrite (z_clamp_in c) by lia.
  pose proof (z_clamp_range x 0 (width - 1)). pose proof (z_clamp_range y 0 (height - 1)). apply HP; lia.
Qed.

(** ** Parity *)

(** [x & 1] *)
Lemma land_one x : Z.land x 1 = x mod 2.
Proof. change 1 with (Z.ones 1) at 1. by rewrite Z.land_ones by lia. Qed.

(** ** Single precision

    Every operation rounds to binary32; [exp], [log] and [pow] are the ones of the
    runtime library. *)

Section Ieee.

Variables (nan_half : Z) (lib_exp lib_log : float32 → float32) (lib_pow : float32 → float32 → float32).

(** The largest integer below, for values of magnitude below 2^23; others are
    integers. *)
Definition f_floor (v : float32) : float32 :=
  match v with
  | S754_finite s m e =>
      if e <? 0 then float_of_int ((if s then - Z.pos m else Z.pos m) / 2 ^ (- e)) else v
  | _ => v
  end.

Definition f_trunc (v : float32) : Z :=
  match v with
  | S754_finite s m e =>
      let a := if e <? 0 then Z.pos m / 2 ^ (- e) else Z.pos m * 2 ^ e in if s then - a else a
  | _ => 0
  end.

Definition ieee_ops : HalideOps float32 Z := {|
  h_lit := f_lit;
  h_add := SFadd 24 128;
  h_sub := SFsub 24 128;
  h_mul := SFmul 24 128;
  h_div := SFdiv 24 128;
  h_opp := SFopp;
  h_abs := SFabs;
  h_max a b := if SFltb a b then b else a;
  h_min a b := if SFltb b a then b else a;
  h_lt := SFltb;
  h_le := SFleb;
  h_eq := SFeqb;
  h_sqrt := SFsqrt 24 128;
  h_exp := lib_exp;
  h_log := lib_log;
  h_pow := lib_pow;
  h_of_int := float_of_int;
  h_floor := f_floor;
  h_to_int := f_trunc;
  h_of_half := half_value;
  h_to_half := half_bits nan_half
|}.

End Ieee.
