(* ===== verification/Demosaic.v ===== *)
(** * Demosaicking

    Models the generators under src/cpipe/nodes/demosaic: the bilinear, RCD and AMaZE
    interpolations of a Bayer mosaic and the remosaicking of a quad-Bayer sensor.  An
    image is a function from coordinates to samples; the algorithms are written over an
    arbitrary arithmetic ([HalideOps]), as the generators leave it to Halide.

    [bilinear_reference] is the equivalence of the bilinear interpolation with a mean
    over the nearest sites of the wanted colour, in any arithmetic; [remosaic_exact]
    shows what remosaicking computes in 32-bit integers, and [remosaic_bounds] that it
    stays between the samples it averages. *)

From Stdlib Require Import ZArith Lia SpecFloat.
From stdpp Require Import prelude strings list.
From S2P Require Import Prelude Core HalfFloat Float64 LensBlob LensFilter Nodes HalideStage.

Local Open Scope Z_scope.

(** ** The interpolations *)

Section Demosaic.

Context {F H : Type} {O : HalideOps F H}.

Variables (width height : Z) (input : Z → Z → F) (cfa_pattern : Z → Z).

Local Abbreviation clamped := (repeat_edge width height input).

(** The lambda [cfa_at] of the three generators. *)
Definition cfa_at (sx sy : Z) : Z := cfa_pattern (Z.land sy 1 * 2 + Z.land sx 1).

(** The last select: the channel of the output pixel. *)
Definition rgba_select (r g b : F) (c : Z) : F :=
  if c =? 0 then r else if c =? 1 then g else if c =? 2 then b else h_num 1.

(** *** Bilinear *)

Definition horizontal (x y : Z) : F := (h_lit 1 2 * (clamped (x - 1) y + clamped (x + 1) y))%H.
Definition vertical (x y : Z) : F := (h_lit 1 2 * (clamped x (y - 1) + clamped x (y + 1)))%H.
Definition cross (x y : Z) : F :=
  (h_lit 1 4 * (clamped (x - 1) y + clamped (x + 1) y + clamped x (y - 1) + clamped x (y + 1)))%H.
Definition diagonal (x y : Z) : F :=
  (h_lit 1 4 * (clamped (x - 1) (y - 1) + clamped (x + 1) (y - 1) + clamped (x - 1) (y + 1) + clamped (x + 1) (y + 1)))%H.

Definition bilinear_value (x y c : Z) : F :=
  let center := clamped x y in
  let cfa := cfa_at x y in
  let red_site := cfa =? 0 in
  let blue_site := cfa =? 2 in
  let horizontal_red := cfa_at (x - 1) y =? 0 in
  let r := if red_site then center else if blue_site then diagonal x y else
           if horizontal_red then horizontal x y else vertical x y in
  let g := if red_site || blue_site then cross x y else center in
  let b := if blue_site then center else if red_site then diagonal x y else
           if horizontal_red then vertical x y else horizontal x y in
  rgba_select r g b c.

Definition DemosaicBilinearGenerator (x y c : Z) : H := h_to_half (bilinear_value x y c).

(** *** RCD *)

Definition rcd_green (x y : Z) : F :=
  let center := clamped x y in
  let gh := (h_lit 1 2 * (clamped (x - 1) y + clamped (x + 1) y))%H in
  let gv := (h_lit 1 2 * (clamped x (y - 1) + clamped x (y + 1)))%H in
  let dh := h_abs (clamped (x - 2) y - clamped (x + 2) y)%H in
  let dv := h_abs (clamped x (y - 2) - clamped x (y + 2))%H in
  if cfa_at x y =? 1 then center else if (dh <? dv)%H then gh else if (dv <? dh)%H then gv else
  (h_lit 1 2 * (gh + gv))%H.

Definition safe_ratio (value green_value : F) : F := (value / h_max green_value (h_lit 1 1000000))%H.

(** [safe_ratio(clamped(x, y), green(x, y))] *)
Definition ratio_at (x y : Z) : F := safe_ratio (clamped x y) (rcd_green x y).

Definition red_horizontal (x y : Z) : F :=
  (rcd_green x y * h_lit 1 2 * (ratio_at (x - 1) y + ratio_at (x + 1) y))%H.
Definition red_vertical (x y : Z) : F :=
  (rcd_green x y * h_lit 1 2 * (ratio_at x (y - 1) + ratio_at x (y + 1)))%H.
Definition red_diagonal (x y : Z) : F :=
  (rcd_green x y * h_lit 1 4 *
   (ratio_at (x - 1) (y - 1) + ratio_at (x + 1) (y - 1) + ratio_at (x - 1) (y + 1) + ratio_at (x + 1) (y + 1)))%H.

Definition rcd_value (x y c : Z) : F :=
  let center := clamped x y in
  let red_site := cfa_at x y =? 0 in
  let blue_site := cfa_at x y =? 2 in
  let horizontal_red := cfa_at (x - 1) y =? 0 in
  let horizontal_blue := cfa_at (x - 1) y =? 2 in
  let r := h_max (h_num 0) (if red_site then center else if blue_site then red_diagonal x y else
                            if horizontal_red then red_horizontal x y else red_vertical x y) in
  let g := h_max (h_num 0) (rcd_green x y) in
  let b := h_max (h_num 0) (if blue_site then center else if red_site then red_diagonal x y else
                            if horizontal_blue then red_horizontal x y else red_vertical x y) in
  rgba_select r g b c.

Definition DemosaicRcdGenerator (x y c : Z) : H := h_to_half (rcd_value x y c).

(** *** AMaZE *)

Definition amaze_green (x y : Z) : F :=
  let center := clamped x y in
  let center_twice := (h_num 2 * center)%H in
  let gh_neighbors := (clamped (x - 1) y + clamped (x + 1) y)%H in
  let gv_neighbors := (clamped x (y - 1) + clamped x (y + 1))%H in
  let gh_second := (center_twice - clamped (x - 2) y - clamped (x + 2) y)%H in
  let gv_second := (center_twice - clamped x (y - 2) - clamped x (y + 2))%H in
  let gh := (h_lit 1 2 * gh_neighbors + h_lit 1 4 * gh_second)%H in
  let gv := (h_lit 1 2 * gv_neighbors + h_lit 1 4 * gv_second)%H in
  let grad_h := (h_abs (clamped (x - 1) y - clamped (x + 1) y) + h_abs (clamped (x - 2) y - center) +
                 h_abs (clamped (x + 2) y - center))%H in
  let grad_v := (h_abs (clamped x (y - 1) - clamped x (y + 1)) + h_abs (clamped x (y - 2) - center) +
                 h_abs (clamped x (y + 2) - center))%H in
  let green_blend := (h_lit 1 2 * (gh + gv))%H in
  if cfa_at x y =? 1 then center else if (grad_h <? grad_v)%H then gh else if (grad_v <? grad_h)%H then gv else green_blend.

Definition chroma (x y : Z) : F := (clamped x y - amaze_green x y)%H.

Definition amaze_value (x y c : Z) : F :=
  let center := clamped x y in
  let green := amaze_green x y in
  let red_site := cfa_at x y =? 0 in
  let blue_site := cfa_at x y =? 2 in
  let chroma_h := (h_lit 1 2 * (chroma (x - 1) y + chroma (x + 1) y))%H in
  let chroma_v := (h_lit 1 2 * (chroma x (y - 1) + chroma x (y + 1)))%H in
  let chroma_d := (h_lit 1 4 * (chroma (x - 1) (y - 1) + chroma (x + 1) (y - 1) + chroma (x - 1) (y + 1) +
                                chroma (x + 1) (y + 1)))%H in
  let horizontal_red := cfa_at (x - 1) y =? 0 in
  let horizontal_blue := cfa_at (x - 1) y =? 2 in
  let red_h := (green + chroma_h)%H in
  let red_v := (green + chroma_v)%H in
  let red_d := (green + chroma_d)%H in
  let red_interp := if blue_site then red_d else if horizontal_red then red_h else red_v in
  let r := h_max (h_num 0) (if red_site then center else red_interp) in
  let g := h_max (h_num 0) green in
  let blue_interp := if red_site then red_d else if horizontal_blue then red_h else red_v in
  let b := h_max (h_num 0) (if blue_site then center else blue_interp) in
  rgba_select r g b c.

Definition DemosaicAmazeGenerator (x y c : Z) : H := h_to_half (amaze_value x y c).

End Demosaic.

(** ** Bayer patterns *)

(** The pattern of the parameter block, as the generated code indexes it. *)
Definition pattern_of (p : list Z) (i : Z) : Z := field p (Z.to_nat i).

(** One of the four patterns [is_supported_bayer_cfa] lets through. *)
Definition bayer (pattern : Z → Z) : Prop := ∃ p, p ∈ supported_bayer ∧ ∀ i, 0 ≤ i < 4 → pattern i = field p (Z.to_nat i).

(** The colours around a site, by the parity of its coordinates. *)
Record bayer_site (pattern : Z → Z) (x y : Z) : Prop := {
  site_colour : 0 ≤ cfa_at pattern x y ≤ 2;
  site_row : cfa_at pattern (x + 1) y = cfa_at pattern (x - 1) y;
  site_column : cfa_at pattern x (y + 1) = cfa_at pattern x (y - 1);
  site_diagonals : cfa_at pattern (x + 1) (y - 1) = cfa_at pattern (x - 1) (y - 1) ∧
    cfa_at pattern (x - 1) (y + 1) = cfa_at pattern (x - 1) (y - 1) ∧ cfa_at pattern (x + 1) (y + 1) = cfa_at pattern (x - 1) (y - 1);
  site_kinds :
    (cfa_at pattern x y = 1 ∧ cfa_at pattern (x - 1) (y - 1) = 1 ∧
      ((cfa_at pattern (x - 1) y = 0 ∧ cfa_at pattern x (y - 1) = 2) ∨ (cfa_at pattern (x - 1) y = 2 ∧ cfa_at pattern x (y - 1) = 0))) ∨
    (cfa_at pattern (x - 1) y = 1 ∧ cfa_at pattern x (y - 1) = 1 ∧
      ((cfa_at pattern x y = 0 ∧ cfa_at pattern (x - 1) (y - 1) = 2) ∨ (cfa_at pattern x y = 2 ∧ cfa_at pattern (x - 1) (y - 1) = 0)))
}.

Lemma bayer_sites pattern x y : bayer pattern → bayer_site pattern x y.
Proof.
  intros (p & Hp & Hpat).
  assert (A : ∀ a b, cfa_at pattern a b = field p (Z.to_nat ((b mod 2) * 2 + a mod 2))).
  { intros a b. unfold cfa_at. rewrite !land_one. apply Hpat. Z.div_mod_to_equations; lia. }
  assert (M : ∀ z, (z - 1) mod 2 = 1 - z mod 2 ∧ (z + 1) mod 2 = 1 - z mod 2) by (intros z; Z.div_mod_to_equations; lia).
  destruct (M x) as [X1 X2], (M y) as [Y1 Y2].
  assert (x mod 2 = 0 ∨ x mod 2 = 1) as [Hx|Hx] by (Z.div_mod_to_equations; lia);
  assert (y mod 2 = 0 ∨ y mod 2 = 1) as [Hy|Hy] by (Z.div_mod_to_equations; lia);
  unfold supported_bayer in Hp; rewrite !elem_of_cons, elem_of_nil in Hp; destruct Hp as [->|[->|[->|[->|[]]]]];
  (split; rewrite ?A, ?X1, ?X2, ?Y1, ?Y2, ?Hx, ?Hy;
   [vm_compute; intuition congruence|done|done|done
   |vm_compute; intuition congruence]).
Qed.

(** ** Bilinear interpolation against a reference *)

Section Reference.

Context {F H : Type} {O : HalideOps F H}.

Variables (width height : Z) (input : Z → Z → F) (cfa_pattern : Z → Z).

(** The sites of colour [k] among some sites. *)
Definition of_colour (k : Z) (sites : list (Z * Z)) : list (Z * Z) :=
  filter (λ s, cfa_at cfa_pattern s.1 s.2 = k) sites.

(** The nearest sites of a colour: the site itself, else those at distance one,
    else those at the corners. *)
Definition nearest (x y k : Z) : list (Z * Z) :=
  match of_colour k [(x, y)], of_colour k [(x - 1, y); (x + 1, y); (x, y - 1); (x, y + 1)] with
  | [], [] => of_colour k [(x - 1, y - 1); (x + 1, y - 1); (x - 1, y + 1); (x + 1, y + 1)]
  | [], sites => sites
  | sites, _ => sites
  end.

Definition mean (values : list F) : F :=
  match values with
  | [] => h_num 0
  | [v] => v
  | v :: values' => (h_lit 1 (len values) * foldl h_add v values')%H
  end.

Definition bilinear_mean (x y k : Z) : F := mean ((λ s : Z * Z, input s.1 s.2) <$> nearest x y k).

Lemma of_colour_cons k s sites :
  of_colour k (s :: sites) = if cfa_at cfa_pattern s.1 s.2 =? k then s :: of_colour k sites else of_colour k sites.
Proof.
  unfold of_colour. rewrite filter_cons. destruct (Z.eqb_spec (cfa_at cfa_pattern s.1 s.2) k);
    [by rewrite decide_True|by rewrite decide_False].
Qed.

(** The nearest sites by the colours around the site. *)
Lemma nearest_exact x y k :
  bayer_site cfa_pattern x y →
  nearest x y k =
    if cfa_at cfa_pattern x y =? k then [(x, y)] else
    if (cfa_at cfa_pattern (x - 1) y =? k) && (cfa_at cfa_pattern x (y - 1) =? k)
    then [(x - 1, y); (x + 1, y); (x, y - 1); (x, y + 1)] else
    if cfa_at cfa_pattern (x - 1) y =? k then [(x - 1, y); (x + 1, y)] else
    if cfa_at cfa_pattern x (y - 1) =? k then [(x, y - 1); (x, y + 1)] else
    if cfa_at cfa_pattern (x - 1) (y - 1) =? k then [(x - 1, y - 1); (x + 1, y - 1); (x - 1, y + 1); (x + 1, y + 1)] else [].
Proof.
  intros [_ Hr Hc (D1 & D2 & D3) _]. unfold nearest. rewrite !of_colour_cons. cbn [fst snd]. rewrite Hr, Hc.
  rewrite D1, D2, D3. repeat case_match; simplify_eq/=; done.
Qed.

(** Interior pixels of a Bayer mosaic are the means of the nearest samples of each
    colour. *)
Lemma bilinear_value_mean x y k :
  bayer cfa_pattern → 0 < x < width - 1 → 0 < y < height - 1 → 0 ≤ k < 3 →
  bilinear_value width height input cfa_pattern x y k = bilinear_mean x y k.
Proof.
  intros Hb Hx Hy Hk. pose proof (bayer_sites _ x y Hb) as S. unfold bilinear_mean. rewrite (nearest_exact x y k S).
  unfold bilinear_value, horizontal, vertical, cross, diagonal. rewrite !repeat_edge_in by lia.
  assert (k = 0 ∨ k = 1 ∨ k = 2) as [->|[-> | ->]] by lia; unfold rgba_select; cbn [Z.eqb Pos.eqb];
    destruct (site_kinds _ _ _ S) as [(H1 & H2 & [[H3 H4]|[H3 H4]])|(H1 & H2 & [[H3 H4]|[H3 H4]])];
    rewrite H1, ?H2, ?H3, ?H4; reflexivity.
Qed.

(** bilinear interpolation is the mean of the nearest samples.  In any arithmetic,
    on each of the four supported patterns and away from the outermost pixels, a
    channel of the output is the mean of the samples at the nearest sites of its
    colour, one, two or four of them, and no sample of another colour enters it; the
    last channel is one. *)
Theorem bilinear_reference x y :
  bayer cfa_pattern → 0 < x < width - 1 → 0 < y < height - 1 →
  (∀ k, 0 ≤ k < 3 →
     DemosaicBilinearGenerator width height input cfa_pattern x y k = h_to_half (bilinear_mean x y k) ∧
     length (nearest x y k) ∈ [1; 2; 4]%nat ∧ Forall (λ s, cfa_at cfa_pattern s.1 s.2 = k) (nearest x y k)) ∧
  DemosaicBilinearGenerator width height input cfa_pattern x y 3 = h_to_half (h_num 1).
Proof.
  intros Hb Hx Hy. split; [|done]. intros k Hk. pose proof (bayer_sites _ x y Hb) as S. split_and!.
  - unfold DemosaicBilinearGenerator. by rewrite bilinear_value_mean.
  - rewrite (nearest_exact x y k S). pose proof (site_kinds _ _ _ S) as K.
    destruct (Z.eqb_spec (cfa_at cfa_pattern x y) k), (Z.eqb_spec (cfa_at cfa_pattern (x - 1) y) k),
      (Z.eqb_spec (cfa_at cfa_pattern x (y - 1)) k), (Z.eqb_spec (cfa_at cfa_pattern (x - 1) (y - 1)) k); try lia; cbn; set_solver.
  - assert (G : ∀ l, Forall (λ s : Z * Z, cfa_at cfa_pattern s.1 s.2 = k) (of_colour k l)).
    { intros l. apply Forall_forall. intros s [Hs _]%list_elem_of_filter. exact Hs. }
    unfold nearest. pose proof (G [(x, y)]) as G1. pose proof (G [(x - 1, y); (x + 1, y); (x, y - 1); (x, y + 1)]) as G2.
    destruct (of_colour k [(x, y)]), (of_colour k [(x - 1, y); (x + 1, y); (x, y - 1); (x, y + 1)]); done || apply G.
Qed.

End Reference.

(** ** Measured samples *)

Section Measured.

Context {F H : Type} {O : HalideOps F H}.

Variables (width height : Z) (input : Z → Z → F) (cfa_pattern : Z → Z).

(** All three interpolations keep the sample a site has measured. *)
Lemma measured_kept x y :
  bayer cfa_pattern → 0 ≤ x < width → 0 ≤ y < height →
  let k := cfa_at cfa_pattern x y in
  bilinear_value width height input cfa_pattern x y k = input x y ∧
  rcd_value width height input cfa_pattern x y k = h_max (h_num 0) (input x y) ∧
  amaze_value width height input cfa_pattern x y k = h_max (h_num 0) (input x y).
Proof.
  intros Hb Hx Hy k. pose proof (site_colour _ _ _ (bayer_sites _ x y Hb)) as Hk. fold k in Hk.
  unfold bilinear_value, rcd_value, amaze_value, rcd_green, amaze_green. fold k. rewrite !repeat_edge_in by lia.
  assert (k = 0 ∨ k = 1 ∨ k = 2) as [->|[-> | ->]] by lia; done.
Qed.

(** Opaque output: the last channel is one. *)
Lemma alpha_one x y :
  bilinear_value width height input cfa_pattern x y 3 = h_num 1 ∧ rcd_value width height input cfa_pattern x y 3 = h_num 1 ∧
  amaze_value width height input cfa_pattern x y 3 = h_num 1.
Proof. done. Qed.

End Measured.

(** ** Quad-Bayer remosaicking *)

Section Remosaic.

Variables (width height : Z) (input : Z → Z → Z).

Local Abbreviation clamped := (repeat_edge width height input).

Definition coord (v : Z) : Z := (v mod 4 + 4) mod 4.

Definition qbc_color (sx sy : Z) : Z :=
  let mx := coord sx in
  let my := coord sy in
  if (my <? 2) && (mx <? 2) then 0 else if (2 <=? my) && (2 <=? mx) then 2 else 1.

Definition target (x y : Z) : Z :=
  if (Z.land y 1 =? 0) && (Z.land x 1 =? 0) then 0 else
  if negb (Z.land y 1 =? 0) && negb (Z.land x 1 =? 0) then 2 else 1.

(** The two nested loops. *)
Definition offsets : list (Z * Z) := dy ← [-2; -1; 0; 1; 2]; (λ dx, (dx, dy)) <$> [-2; -1; 0; 1; 2].

(** The site of an offset. *)
Definition site_at (x y : Z) (d : Z * Z) : Z * Z := (z_clamp (x + d.1) 0 (width - 1), z_clamp (y + d.2) 0 (height - 1)).

Definition candidate_weight (d s : Z * Z) : Z :=
  let grad_x := Z.abs (clamped (s.1 - 1) s.2 - clamped (s.1 + 1) s.2) in
  let grad_y := Z.abs (clamped s.1 (s.2 - 1) - clamped s.1 (s.2 + 1)) in
  let penalty := 64 + grad_x + grad_y + (Z.abs d.1 + Z.abs d.2) * 16 in
  Z.max 1 (65536 / penalty).

Definition remosaic_weight (x y : Z) (d : Z * Z) : Z :=
  let s := site_at x y d in
  u32 (if qbc_color s.1 s.2 =? target x y then candidate_weight d s else 0).

Definition remosaic_sample (x y : Z) (d : Z * Z) : Z := let s := site_at x y d in clamped s.1 s.2.

Definition remosaic_sums (x y : Z) : Z * Z :=
  foldl (λ '(weighted_sum, weight_sum) d,
    (u32 (weighted_sum + u32 (remosaic_weight x y d * u32 (remosaic_sample x y d))), u32 (weight_sum + remosaic_weight x y d)))
    (0, 0) offsets.

Definition DemosaicQuadBayerRemosaicGenerator (x y : Z) : Z :=
  let '(weighted_sum, weight_sum) := remosaic_sums x y in
  if weight_sum =? 0 then 0 else u16 (u32 (weighted_sum + weight_sum / 2) / weight_sum).

(** *** The mean *)

(** The sites of the window that have the wanted colour. *)
Definition matching (x y : Z) : list (Z * Z) :=
  filter (λ d, qbc_color (site_at x y d).1 (site_at x y d).2 = target x y) offsets.

Definition zsum {A} (f : A → Z) (l : list A) : Z := foldr (λ a, Z.add (f a)) 0 l.

Definition true_weight (x y : Z) (d : Z * Z) : Z := candidate_weight d (site_at x y d).

(** The weighted mean, rounded to the nearest integer. *)
Definition remosaic_mean (x y : Z) : Z :=
  let total := zsum (true_weight x y) (matching x y) in
  (zsum (λ d, true_weight x y d * remosaic_sample x y d) (matching x y) + total / 2) / total.

Lemma zsum_bounds {A} (f g : A → Z) (lo hi : Z) l :
  (∀ a, a ∈ l → 0 ≤ g a ∧ lo ≤ f a ≤ hi) → lo * zsum g l ≤ zsum (λ a, g a * f a) l ≤ hi * zsum g l.
Proof.
  induction l as [|a l IH]; cbn [zsum foldr]; intros Hl; [lia|]. fold (zsum g l) (zsum (λ a, g a * f a) l).
  destruct (Hl a) as [? ?]; [by left|]. destruct IH as [? ?]; [intros b Hb; apply Hl; by right|]. nia.
Qed.

Lemma zsum_range {A} (g : A → Z) lo hi l : (∀ a, a ∈ l → lo ≤ g a ≤ hi) → lo * len l ≤ zsum g l ≤ hi * len l.
Proof.
  induction l as [|a l IH]; intros Hl; unfold len in *; cbn [zsum foldr length]; [lia|]. fold (zsum g l).
  destruct (Hl a); [by left|]. destruct IH as [? ?]; [intros b Hb; apply Hl; by right|]. nia.
Qed.

Lemma zsum_filter {A} (g : A → Z) (P : A → Prop) `{∀ a, Decision (P a)} l :
  zsum (λ a, if decide (P a) then g a else 0) l = zsum g (filter P l).
Proof.
  induction l as [|a l IH]; [done|]. rewrite filter_cons. cbn [zsum foldr]. fold (zsum (λ a, if decide (P a) then g a else 0) l).
  rewrite IH. by destruct (decide (P a)).
Qed.

Lemma zsum_ext {A} (f g : A → Z) l : (∀ a, a ∈ l → f a = g a) → zsum f l = zsum g l.
Proof.
  induction l as [|a l IH]; intros Hl; [done|]. cbn [zsum foldr]. rewrite (Hl a) by (by left). f_equal.
  apply IH. intros b Hb. apply Hl. by right.
Qed.

(** Three neighbouring coordinates have both halves of the quad pattern. *)
Lemma both_halves extent x :
  3 ≤ extent → 0 ≤ x < extent →
  (∃ d, d ∈ [-2; -1; 0; 1; 2] ∧ coord (z_clamp (x + d) 0 (extent - 1)) < 2) ∧
  (∃ d, d ∈ [-2; -1; 0; 1; 2] ∧ 2 ≤ coord (z_clamp (x + d) 0 (extent - 1))).
Proof.
  intros He Hx.
  assert (∃ a, a ∈ [-2; -1; 0] ∧ 0 ≤ x + a ∧ x + a + 2 < extent) as (a & Ha & Hlo & Hhi).
  { destruct (decide (x + 2 < extent)); [exists 0|destruct (decide (x + 1 < extent)); [exists (-1)|exists (-2)]];
      (split; [set_solver|lia]). }
  assert (W : ∀ k, 0 ≤ k ≤ 2 → coord (z_clamp (x + (a + k)) 0 (extent - 1)) = (x + a + k) mod 4 ∧ a + k ∈ [-2; -1; 0; 1; 2]).
  { intros k Hk. rewrite z_clamp_in by lia. split; [unfold coord; rewrite Z.add_assoc; Z.div_mod_to_equations; lia|].
    rewrite !elem_of_cons in *. rewrite !elem_of_nil in *. lia. }
  assert (∃ k, 0 ≤ k ≤ 2 ∧ (x + a + k) mod 4 < 2) as (k1 & Hk1 & Hm1).
  { destruct (decide ((x + a) mod 4 < 2)); [exists 0|destruct (decide ((x + a) mod 4 = 3)); [exists 1|exists 2]];
      split; try lia; Z.div_mod_to_equations; lia. }
  assert (∃ k, 0 ≤ k ≤ 2 ∧ 2 ≤ (x + a + k) mod 4) as (k2 & Hk2 & Hm2).
  { destruct (decide (2 ≤ (x + a) mod 4)); [exists 0|destruct (decide ((x + a) mod 4 = 1)); [exists 1|exists 2]];
      split; try lia; Z.div_mod_to_equations; lia. }
  split; [exists (a + k1)|exists (a + k2)]; (destruct (W k1 Hk1) as [-> ?] || idtac); destruct (W k2 Hk2) as [? ?];
    destruct (W k1 Hk1) as [? ?]; (split; [done|lia]).
Qed.

Lemma offsets_in dx dy : dx ∈ [-2; -1; 0; 1; 2] → dy ∈ [-2; -1; 0; 1; 2] → (dx, dy) ∈ offsets.
Proof. intros Hx Hy. unfold offsets. apply list_elem_of_bind. exists dy. split; [|done]. apply list_elem_of_fmap. by exists dx. Qed.

(** Some site of the window has the wanted colour. *)
Lemma matching_nonempty x y :
  3 ≤ width → 3 ≤ height → 0 ≤ x < width → 0 ≤ y < height → ∃ d, d ∈ matching x y.
Proof.
  intros Hw Hh Hx Hy. destruct (both_halves width x Hw Hx) as [(d1 & I1 & L1) (d2 & I2 & L2)],
    (both_halves height y Hh Hy) as [(e1 & J1 & M1) (e2 & J2 & M2)].
  assert (C : ∀ d e, qbc_color (site_at x y (d, e)).1 (site_at x y (d, e)).2 =
    qbc_color (z_clamp (x + d) 0 (width - 1)) (z_clamp (y + e) 0 (height - 1))) by done.
  unfold matching. setoid_rewrite list_elem_of_filter.
  assert (target x y = 0 ∨ target x y = 1 ∨ target x y = 2) as [Ht|[Ht|Ht]] by (unfold target; repeat case_match; lia);
    [exists (d1, e1)|exists (d2, e1)|exists (d2, e2)]; (split; [|by apply offsets_in]); rewrite C, Ht; unfold qbc_color;
    repeat case_match; lia.
Qed.

Hypothesis Hsamples : ∀ x y, 0 ≤ x < width → 0 ≤ y < height → is_u 16 (input x y).
Hypothesis Hw : 3 ≤ width.
Hypothesis Hh : 3 ≤ height.

Lemma clamped_u16 x y : is_u 16 (clamped x y).
Proof using Hsamples Hw Hh. apply (repeat_edge_inside (is_u 16)); [lia|lia|done]. Qed.

Lemma candidate_range d s : 1 ≤ candidate_weight d s ≤ 1024.
Proof using Hsamples Hw Hh.
  unfold candidate_weight. set (p := 64 + _ + _ + _). assert (64 ≤ p) by (unfold p; lia).
  assert (65536 / p ≤ 65536 / 64) by (apply Z.div_le_compat_l; lia). change (65536 / 64) with 1024 in *. lia.
Qed.

(** Nothing wraps: the sums are those of the matching sites. *)
Lemma remosaic_sums_exact x y :
  remosaic_sums x y = (zsum (λ d, true_weight x y d * remosaic_sample x y d) (matching x y), zsum (true_weight x y) (matching x y)).
Proof using Hsamples Hw Hh.
  set (w d := if decide (qbc_color (site_at x y d).1 (site_at x y d).2 = target x y) then true_weight x y d else 0).
  assert (Hwt : ∀ d, remosaic_weight x y d = w d ∧ 0 ≤ w d ≤ 1024).
  { intros d. unfold remosaic_weight, w, true_weight. pose proof (candidate_range d (site_at x y d)).
    destruct (Z.eqb_spec (qbc_color (site_at x y d).1 (site_at x y d).2) (target x y)); [rewrite decide_True by done|rewrite decide_False by done];
      rewrite u32_small; lia. }
  assert (Hs : ∀ d, is_u 16 (remosaic_sample x y d)) by (intros d; apply clamped_u16).
  assert (G : ∀ l a b, 0 ≤ a → 0 ≤ b → a + 1024 * 65535 * len l < 2 ^ 32 → b + 1024 * len l < 2 ^ 32 →
    foldl (λ '(s, n) d, (u32 (s + u32 (remosaic_weight x y d * u32 (remosaic_sample x y d))), u32 (n + remosaic_weight x y d))) (a, b) l
    = (a + zsum (λ d, w d * remosaic_sample x y d) l, b + zsum w l)).
  { induction l as [|d l IH]; intros a b Ha Hb Hla Hlb; cbn [foldl zsum foldr]; [by rewrite !Z.add_0_r|].
    destruct (Hwt d) as [-> Hr]. specialize (Hs d). unfold is_u, len in *. cbn [length] in *.
    rewrite (u32_small (remosaic_sample x y d)), (u32_small (w d * _)) by nia. rewrite !u32_small by nia.
    rewrite IH by nia. unfold zsum. f_equal; lia. }
  unfold remosaic_sums. rewrite G by (vm_compute; congruence). rewrite !Z.add_0_l. unfold matching. rewrite <-!zsum_filter.
  f_equal. apply zsum_ext. intros d _. unfold w. by destruct (decide _).
Qed.

(** C19: remosaicking averages.  On an image of at least three by three samples, the
    32-bit sums of the generated code never wrap and their divisor is never zero: every
    output sample is the weighted mean, rounded to nearest, of the samples of its
    colour in the five-by-five window, and lies between the least and the greatest of
    them. *)
Theorem remosaic_exact x y :
  0 ≤ x < width → 0 ≤ y < height →
  0 < zsum (true_weight x y) (matching x y) ∧
  DemosaicQuadBayerRemosaicGenerator x y = remosaic_mean x y ∧
  ∀ lo hi, (∀ d, d ∈ matching x y → lo ≤ remosaic_sample x y d ≤ hi) → lo ≤ DemosaicQuadBayerRemosaicGenerator x y ≤ hi.
Proof using Hsamples Hw Hh.
  intros Hx Hy. set (t := zsum (true_weight x y) (matching x y)).
  set (s := zsum (λ d, true_weight x y d * remosaic_sample x y d) (matching x y)).
  assert (Hlen : 1 ≤ len (matching x y) ≤ 25).
  { destruct (matching_nonempty x y Hw Hh Hx Hy) as [d Hd]. pose proof (length_filter (λ d, qbc_color (site_at x y d).1 (site_at x y d).2 = target x y) offsets) as L.
    unfold len. split; [|change (length offsets) with 25%nat in L; unfold matching; lia].
    destruct (matching x y); [by apply not_elem_of_nil in Hd|cbn; lia]. }
  assert (Ht : 0 < t ≤ 1024 * 25).
  { unfold t. destruct (zsum_range (true_weight x y) 1 1024 (matching x y)); [intros d _; apply candidate_range|lia]. }
  assert (B : ∀ lo hi, (∀ d, d ∈ matching x y → lo ≤ remosaic_sample x y d ≤ hi) → lo * t ≤ s ≤ hi * t).
  { intros lo hi Hd. apply (zsum_bounds (remosaic_sample x y) (true_weight x y)). intros d Hin.
    split; [pose proof (candidate_range d (site_at x y d)); unfold true_weight; lia|by apply Hd]. }
  assert (M : ∀ lo hi, lo * t ≤ s ≤ hi * t → lo ≤ (s + t / 2) / t ≤ hi).
  { intros lo hi Hs. split; [apply Z.div_le_lower_bound; Z.div_mod_to_equations; lia|].
    apply Z.lt_succ_r, Z.div_lt_upper_bound; [lia|]. Z.div_mod_to_equations; nia. }
  assert (Hu : 0 * t ≤ s ≤ 65535 * t).
  { apply B. intros d _. pose proof (clamped_u16 (site_at x y d).1 (site_at x y d).2) as Hc. unfold is_u in Hc. unfold remosaic_sample. lia. }
  assert (E : DemosaicQuadBayerRemosaicGenerator x y = (s + t / 2) / t).
  { unfold DemosaicQuadBayerRemosaicGenerator. rewrite remosaic_sums_exact. fold s t. rewrite (proj2 (Z.eqb_neq t 0)) by lia.
    rewrite u32_small by (Z.div_mod_to_equations; nia). apply wrap_small. specialize (M 0 65535 Hu). unfold is_u. lia. }
  split_and!; [lia|exact E|]. intros lo hi Hd. rewrite E. by apply M, B.
Qed.

End Remosaic.

(** ** Examples *)

#[local] Instance rounded_ops : HalideOps float32 Z := ieee_ops 32256 (λ v, v) (λ v, v) (λ v _, v).

(** Sample [x + 4 y] at [(x, y)]. *)
Definition ramp (x y : Z) : Z := x + 4 * y.

Lemma bilinear_reference_witness :
  let image x y := float_of_int (ramp x y) in
  (∀ k, 0 ≤ k < 3 →
     DemosaicBilinearGenerator (O := rounded_ops) 4 4 image (pattern_of [0; 1; 1; 2]) 1 2 k
     = h_to_half (bilinear_mean (O := rounded_ops) image (pattern_of [0; 1; 1; 2]) 1 2 k) ∧
     length (nearest (pattern_of [0; 1; 1; 2]) 1 2 k) ∈ [1; 2; 4]%nat ∧
     Forall (λ s, cfa_at (pattern_of [0; 1; 1; 2]) s.1 s.2 = k) (nearest (pattern_of [0; 1; 1; 2]) 1 2 k)) ∧
  DemosaicBilinearGenerator (O := rounded_ops) 4 4 image (pattern_of [0; 1; 1; 2]) 1 2 3 = h_to_half (h_num 1).
Proof.
  apply (bilinear_reference (O := rounded_ops) 4 4 (λ x y, float_of_int (ramp x y)) (pattern_of [0; 1; 1; 2]) 1 2); [|lia..].
  exists [0; 1; 1; 2]. split; [by left|done].
Defined.

(** On the border the repeated samples are of another colour: of a scene that is red
    only, a red site in the first column gets a quarter of its red as green. *)
Lemma bilinear_border :
  let image x y := float_of_int (if cfa_at (pattern_of [0; 1; 1; 2]) x y =? 0 then 1 else 0) in
  bilinear_value (O := rounded_ops) 4 4 image (pattern_of [0; 1; 1; 2]) 0 2 1 = f_lit 1 4 ∧
  bilinear_value (O := rounded_ops) 4 4 image (pattern_of [0; 1; 1; 2]) 2 2 1 = f_lit 0 1.
Proof. vm_compute. done. Qed.

Lemma remosaic_exact_witness :
  0 < zsum (true_weight 4 4 ramp 1 2) (matching 4 4 1 2) ∧
  DemosaicQuadBayerRemosaicGenerator 4 4 ramp 1 2 = remosaic_mean 4 4 ramp 1 2 ∧
  ∀ lo hi, (∀ d, d ∈ matching 4 4 1 2 → lo ≤ remosaic_sample 4 4 ramp 1 2 d ≤ hi) →
    lo ≤ DemosaicQuadBayerRemosaicGenerator 4 4 ramp 1 2 ≤ hi.
Proof. apply (remosaic_exact 4 4 ramp); [intros x y ? ?; unfold is_u, ramp; lia|lia..]. Defined.
