(* ===== verification/ExactOps.v ===== *)
(** * Exact arithmetic for the Halide stages

    The instance of [HalideOps] over the real numbers, without rounding and with the
    identity as the conversion to half floats: what the generators mean their
    algorithms to compute.  Theorems about a filter's response (reproduction of
    gradients, monotone curves, bounds) are stated in it. *)

From Stdlib Require Import ZArith Lia Reals Lra.
From stdpp Require Import prelude strings list.
From S2P Require Import Prelude HalideStage.

Local Open Scope R_scope.

Definition r_ltb (a b : R) : bool := if Rlt_dec a b then true else false.
Definition r_leb (a b : R) : bool := if Rle_dec a b then true else false.
Definition r_eqb (a b : R) : bool := if Req_dec_T a b then true else false.

(** [pow] on a base that is not negative. *)
Definition r_pow (a b : R) : R :=
  if Req_dec_T a 0 then (if Req_dec_T b 0 then 1 else 0) else Rpower a b.

(** The integer below a number. *)
Definition r_floor (a : R) : Z := (up a - 1)%Z.

#[export] Instance exact_ops : HalideOps R R := {|
  h_lit n d := IZR n / IZR d;
  h_add := Rplus;
  h_sub := Rminus;
  h_mul := Rmult;
  h_div := Rdiv;
  h_opp := Ropp;
  h_abs := Rabs;
  h_max := Rmax;
  h_min := Rmin;
  h_lt := r_ltb;
  h_le := r_leb;
  h_eq := r_eqb;
  h_sqrt := sqrt;
  h_exp := exp;
  h_log := ln;
  h_pow := r_pow;
  h_of_int := IZR;
  h_floor a := IZR (r_floor a);
  h_to_int := r_floor;
  h_of_half a := a;
  h_to_half a := a
|}.

(** ** Specifications of the operations *)

Lemma r_ltb_spec a b : BoolSpec (a < b) (b <= a) (r_ltb a b).
Proof. unfold r_ltb. destruct (Rlt_dec a b); constructor; lra. Qed.

Lemma r_leb_spec a b : BoolSpec (a <= b) (b < a) (r_leb a b).
Proof. unfold r_leb. destruct (Rle_dec a b); constructor; lra. Qed.

Lemma r_eqb_spec a b : BoolSpec (a = b) (a <> b) (r_eqb a b).
Proof. unfold r_eqb. destruct (Req_dec_T a b); constructor; lra. Qed.

Lemma r_floor_spec a : IZR (r_floor a) <= a < IZR (r_floor a) + 1.
Proof. unfold r_floor. rewrite minus_IZR. destruct (archimed a). lra. Qed.

Lemma r_floor_unique a z : IZR z <= a < IZR z + 1 -> r_floor a = z.
Proof.
  intros Hz. destruct (r_floor_spec a) as [Hl Hh].
  assert (IZR z < IZR (r_floor a + 1) /\ IZR (r_floor a) < IZR (z + 1)) as [A B] by (rewrite !plus_IZR; lra).
  apply lt_IZR in A, B. lia.
Qed.

Lemma Rmax_cases a b : (a <= b /\ Rmax a b = b) \/ (b <= a /\ Rmax a b = a).
Proof. unfold Rmax. destruct (Rle_dec a b); [left|right]; lra. Qed.

Lemma Rmin_cases a b : (a <= b /\ Rmin a b = a) \/ (b <= a /\ Rmin a b = b).
Proof. unfold Rmin. destruct (Rle_dec a b); [left|right]; lra. Qed.

Lemma Rabs_cases a : (0 <= a /\ Rabs a = a) \/ (a <= 0 /\ Rabs a = - a).
Proof. unfold Rabs. destruct (Rcase_abs a); [right|left]; lra. Qed.

(** ** Unfolding

    [exact_unfold] turns a term of the class into one of the reals. *)

Ltac exact_unfold :=
  unfold h_clamp, h_num in *;
  cbn [h_lit h_add h_sub h_mul h_div h_opp h_abs h_max h_min h_lt h_le h_eq h_sqrt h_exp h_log h_pow h_of_int h_floor
       h_to_int h_of_half h_to_half exact_ops] in *.

(** Case analysis on the comparisons. *)
Ltac exact_cases :=
  repeat match goal with
  | |- context [r_ltb ?a ?b] => destruct (r_ltb_spec a b)
  | |- context [r_leb ?a ?b] => destruct (r_leb_spec a b)
  | |- context [r_eqb ?a ?b] => destruct (r_eqb_spec a b)
  | |- context [Rmax ?a ?b] => let E := fresh in destruct (Rmax_cases a b) as [[? E]|[? E]]; rewrite E in *; clear E
  | |- context [Rmin ?a ?b] => let E := fresh in destruct (Rmin_cases a b) as [[? E]|[? E]]; rewrite E in *; clear E
  | |- context [Rabs ?a] => let E := fresh in destruct (Rabs_cases a) as [[? E]|[? E]]; rewrite E in *; clear E
  | _ : context [Rmax ?a ?b] |- _ => let E := fresh in destruct (Rmax_cases a b) as [[? E]|[? E]]; rewrite E in *; clear E
  | _ : context [Rmin ?a ?b] |- _ => let E := fresh in destruct (Rmin_cases a b) as [[? E]|[? E]]; rewrite E in *; clear E
  | _ : context [Rabs ?a] |- _ => let E := fresh in destruct (Rabs_cases a) as [[? E]|[? E]]; rewrite E in *; clear E
  end.

(** ** Bounds *)

Definition unit_interval (v : R) : Prop := 0 <= v <= 1.

(** [Halide::clamp(v, 0, 1)] *)
Lemma clamp_unit_range v : unit_interval (h_clamp v (h_num 0) (h_num 1)).
Proof. unfold unit_interval. exact_unfold. exact_cases; lra. Qed.

Lemma clamp_unit_id v : unit_interval v -> h_clamp v (h_num 0) (h_num 1) = v.
Proof. unfold unit_interval. intros Hv. exact_unfold. exact_cases; lra. Qed.

Lemma clamp_mono a b lo hi : a <= b -> h_clamp a lo hi <= h_clamp b lo hi.
Proof. intros Hab. exact_unfold. exact_cases; lra. Qed.

Lemma clamp_range v lo hi : lo <= hi -> lo <= h_clamp v lo hi <= hi.
Proof. intros Hlh. exact_unfold. exact_cases; lra. Qed.
