(* ===== verification/DemosaicExact.v ===== *)
(** * Demosaicking in exact arithmetic

    What the three interpolations reconstruct: a scene is three planes of colour, the
    mosaic keeps one of them at every site, and away from the border each interpolation
    gives back the planes of the scenes its design assumes (linear planes for the
    bilinear one, a constant colour difference for AMaZE, a constant colour ratio for
    RCD, with a linear green plane). *)

From Stdlib Require Import ZArith Lia Reals Lra.
From stdpp Require Import prelude strings list.
From S2P Require Import Prelude Nodes HalideStage Demosaic ExactOps.

Local Open Scope R_scope.

Section Scene.

Variables (pattern : Z -> Z) (scene : Z -> Z -> Z -> R).

(** The sample of a site: the plane of its colour. *)
Definition mosaic (x y : Z) : R := scene (cfa_at pattern x y) x y.

(** A plane that changes by the same amount at every step. *)
Definition affine (plane : Z -> Z -> R) : Prop :=
  exists a b c, forall x y, plane x y = a * IZR x + b * IZR y + c.

Lemma affine_shift plane dx dy :
  affine plane -> exists a b, forall x y, plane x y = plane (x - dx)%Z (y - dy)%Z + a * IZR dx + b * IZR dy.
Proof. intros (a & b & c & Hp). exists a, b. intros x y. rewrite !Hp, !minus_IZR. lra. Qed.

(** The middle of two opposite neighbours. *)
Lemma affine_middle plane dx dy x y :
  affine plane -> plane (x - dx)%Z (y - dy)%Z + plane (x + dx)%Z (y + dy)%Z = 2 * plane x y.
Proof. intros (a & b & c & Hp). rewrite !Hp, !minus_IZR, !plus_IZR. lra. Qed.

Lemma cfa_two x y :
  cfa_at pattern (x - 2) y = cfa_at pattern x y /\ cfa_at pattern (x + 2) y = cfa_at pattern x y /\
  cfa_at pattern x (y - 2) = cfa_at pattern x y /\ cfa_at pattern x (y + 2) = cfa_at pattern x y.
Proof.
  unfold cfa_at. rewrite !land_one.
  assert (forall z, ((z - 2) mod 2 = z mod 2 /\ (z + 2) mod 2 = z mod 2)%Z) as E by (intros z; Z.div_mod_to_equations; lia).
  by rewrite !(proj1 (E x)), !(proj2 (E x)), !(proj1 (E y)), !(proj2 (E y)).
Qed.

Hypothesis Hbayer : bayer pattern.

(** At a red or blue site the four neighbours are green. *)
Lemma green_around x y :
  cfa_at pattern x y <> 1%Z ->
  cfa_at pattern (x - 1) y = 1%Z /\ cfa_at pattern (x + 1) y = 1%Z /\ cfa_at pattern x (y - 1) = 1%Z /\ cfa_at pattern x (y + 1) = 1%Z.
Proof using Hbayer.
  intros Hn. destruct (bayer_sites pattern x y Hbayer) as [_ -> -> _ K]. destruct K as [(? & _)|(? & ? & _)]; [done|]. done.
Qed.

(** *** Bilinear *)

(** Linear planes, whatever their slopes, away from the outermost pixels. *)
Lemma bilinear_reconstructs width height x y k :
  (forall k, affine (scene k)) -> (0 < x < width - 1)%Z -> (0 < y < height - 1)%Z -> (0 <= k < 3)%Z ->
  DemosaicBilinearGenerator width height mosaic pattern x y k = scene k x y.
Proof using Hbayer.
  intros Haff Hx Hy Hk. pose proof (bayer_sites pattern x y Hbayer) as S. unfold DemosaicBilinearGenerator.
  rewrite (bilinear_value_mean width height mosaic pattern x y k Hbayer Hx Hy Hk). unfold bilinear_mean.
  rewrite (nearest_exact pattern x y k S).
  assert (M : forall dx dy, scene k (x - dx)%Z (y - dy)%Z + scene k (x + dx)%Z (y + dy)%Z = 2 * scene k x y)
    by (intros; by apply affine_middle).
  pose proof (M 1 0)%Z as M1. pose proof (M 0 1)%Z as M2. pose proof (M 1 1)%Z as M3. pose proof (M 1 (-1))%Z as M4.
  rewrite !Z.sub_0_r, !Z.add_0_r in M1, M2. replace (y - -1)%Z with (y + 1)%Z in M4 by lia. change (y + -1)%Z with (y - 1)%Z in M4.
  destruct (Z.eqb_spec (cfa_at pattern x y) k) as [E|E]; [by cbn; unfold mosaic; rewrite E|].
  destruct (site_diagonals _ _ _ S) as (D1 & D2 & D3). pose proof (site_row _ _ _ S) as R1. pose proof (site_column _ _ _ S) as R2.
  pose proof (site_kinds _ _ _ S) as K.
  destruct (Z.eqb_spec (cfa_at pattern (x - 1) y) k) as [E1|E1]; destruct (Z.eqb_spec (cfa_at pattern x (y - 1)) k) as [E2|E2];
    [..|destruct (Z.eqb_spec (cfa_at pattern (x - 1) (y - 1)) k) as [E3|E3]; [|lia]];
    cbn [andb fmap list_fmap fst snd mean foldl]; unfold mosaic; rewrite ?D1, ?D2, ?D3, ?R1, ?R2, ?E1, ?E2, ?E3;
    exact_unfold; unfold len; cbn [length]; change (Z.of_nat 2) with 2%Z; change (Z.of_nat 4) with 4%Z; lra.
Qed.

Section Linear.

Variables width height : Z.
Hypothesis Hgreen : affine (scene 1).

(** *** Green planes *)

Lemma amaze_green_exact d0 d2 x y :
  (forall x y, scene 0 x y = scene 1 x y + d0) -> (forall x y, scene 2 x y = scene 1 x y + d2) ->
  (2 <= x < width - 2)%Z -> (2 <= y < height - 2)%Z -> amaze_green width height mosaic pattern x y = scene 1 x y.
Proof using Hbayer Hgreen.
  intros H0 H2 Hx Hy. unfold amaze_green. rewrite !repeat_edge_in by lia. unfold mosaic.
  destruct (Z.eqb_spec (cfa_at pattern x y) 1) as [->|Hn]; [done|].
  destruct (cfa_two x y) as (-> & -> & -> & ->). destruct (green_around x y Hn) as (-> & -> & -> & ->).
  assert (C : exists d, forall x' y', scene (cfa_at pattern x y) x' y' = scene 1 x' y' + d).
  { destruct (site_colour _ _ _ (bayer_sites pattern x y Hbayer)) as [? ?].
    assert (cfa_at pattern x y = 0 \/ cfa_at pattern x y = 2)%Z as [->| ->] by lia; eauto. }
  destruct C as [d C]. rewrite !C.
  pose proof (affine_middle (scene 1) 1 0 x y Hgreen) as A1. pose proof (affine_middle (scene 1) 0 1 x y Hgreen) as A2.
  pose proof (affine_middle (scene 1) 2 0 x y Hgreen) as A3. pose proof (affine_middle (scene 1) 0 2 x y Hgreen) as A4.
  rewrite !Z.sub_0_r, !Z.add_0_r in A1, A2, A3, A4.
  exact_unfold. destruct (r_ltb _ _); [lra|]. destruct (r_ltb _ _); lra.
Qed.

(** C18: AMaZE on a linear green plane.  In exact arithmetic, on every Bayer pattern
    and at least three pixels away from the border, a scene whose red and blue planes
    differ from a linear green plane by constants is reconstructed: the three channels
    are the scene's (negative values become zero) and alpha is one. *)
Theorem amaze_reconstructs d0 d2 x y :
  (forall x y, scene 0 x y = scene 1 x y + d0) -> (forall x y, scene 2 x y = scene 1 x y + d2) ->
  (3 <= x < width - 3)%Z -> (3 <= y < height - 3)%Z ->
  (forall k, (0 <= k < 3)%Z -> DemosaicAmazeGenerator width height mosaic pattern x y k = Rmax 0 (scene k x y)) /\
  DemosaicAmazeGenerator width height mosaic pattern x y 3 = 1.
Proof using Hbayer Hgreen.
  intros H0 H2 Hx Hy.
  assert (C : forall x' y', (2 <= x' < width - 2)%Z -> (2 <= y' < height - 2)%Z ->
    chroma width height mosaic pattern x' y' = scene (cfa_at pattern x' y') x' y' - scene 1 x' y').
  { intros x' y' Hx' Hy'. unfold chroma. rewrite (amaze_green_exact d0 d2), repeat_edge_in by (done || lia). done. }
  split; [|unfold DemosaicAmazeGenerator, amaze_value, rgba_select; exact_unfold; cbn [Z.eqb Pos.eqb]; lra].
  intros k Hk. pose proof (bayer_sites pattern x y Hbayer) as S. unfold DemosaicAmazeGenerator, amaze_value.
  rewrite !C, (amaze_green_exact d0 d2), repeat_edge_in by (done || lia). unfold mosaic.
  rewrite (site_row _ _ _ S), (site_column _ _ _ S).
  destruct (site_diagonals _ _ _ S) as (-> & -> & ->).
  assert (k = 0 \/ k = 1 \/ k = 2)%Z as [->|[-> | ->]] by lia; unfold rgba_select; cbn [Z.eqb Pos.eqb];
    destruct (site_kinds _ _ _ S) as [(E1 & E2 & [[E3 E4]|[E3 E4]])|(E1 & E2 & [[E3 E4]|[E3 E4]])];
    rewrite ?E1, ?E2, ?E3, ?E4; exact_unfold; cbn [Z.eqb Pos.eqb]; rewrite ?H0, ?H2; f_equal; lra.
Qed.

(** *** RCD *)

(** Colours in a constant ratio to green. *)
Lemma rcd_green_exact x y :
  (2 <= x < width - 2)%Z -> (2 <= y < height - 2)%Z -> rcd_green width height mosaic pattern x y = scene 1 x y.
Proof using Hbayer Hgreen.
  intros Hx Hy. unfold rcd_green. rewrite !repeat_edge_in by lia. unfold mosaic.
  destruct (Z.eqb_spec (cfa_at pattern x y) 1) as [->|Hn]; [done|].
  destruct (green_around x y Hn) as (-> & -> & -> & ->).
  pose proof (affine_middle (scene 1) 1 0 x y Hgreen) as A1. pose proof (affine_middle (scene 1) 0 1 x y Hgreen) as A2.
  rewrite !Z.sub_0_r, !Z.add_0_r in A1, A2.
  exact_unfold. destruct (r_ltb _ _); [lra|]. destruct (r_ltb _ _); lra.
Qed.

(** RCD on a linear green plane.  In exact arithmetic, on every Bayer pattern and
    at least three pixels away from the border, a scene whose red and blue planes are
    constant multiples of a linear green plane that is nowhere below 0.000001 is
    reconstructed: the three channels are the scene's (negative values become zero)
    and alpha is one. *)
Theorem rcd_reconstructs k0 k2 x y :
  (forall x y, scene 0 x y = k0 * scene 1 x y) -> (forall x y, scene 2 x y = k2 * scene 1 x y) ->
  (forall x y, (0 <= x < width)%Z -> (0 <= y < height)%Z -> 1 / 1000000 <= scene 1 x y) ->
  (3 <= x < width - 3)%Z -> (3 <= y < height - 3)%Z ->
  (forall k, (0 <= k < 3)%Z -> DemosaicRcdGenerator width height mosaic pattern x y k = Rmax 0 (scene k x y)) /\
  DemosaicRcdGenerator width height mosaic pattern x y 3 = 1.
Proof using Hbayer Hgreen.
  intros H0 H2 Hpos Hx Hy.
  assert (C : forall x' y', (2 <= x' < width - 2)%Z -> (2 <= y' < height - 2)%Z ->
    ratio_at width height mosaic pattern x' y' = scene (cfa_at pattern x' y') x' y' / scene 1 x' y').
  { intros x' y' Hx' Hy'. unfold ratio_at, safe_ratio. rewrite rcd_green_exact, repeat_edge_in by lia.
    specialize (Hpos x' y' ltac:(lia) ltac:(lia)). exact_unfold. rewrite Rmax_left; [done|lra]. }
  assert (P : forall x' y', (2 <= x' < width - 2)%Z -> (2 <= y' < height - 2)%Z -> scene 1 x' y' <> 0).
  { intros x' y' Hx' Hy'. specialize (Hpos x' y' ltac:(lia) ltac:(lia)). lra. }
  split; [|unfold DemosaicRcdGenerator, rcd_value, rgba_select; exact_unfold; cbn [Z.eqb Pos.eqb]; lra].
  intros k Hk. pose proof (bayer_sites pattern x y Hbayer) as S. unfold DemosaicRcdGenerator, rcd_value, red_diagonal, red_horizontal, red_vertical.
  rewrite !C, rcd_green_exact, repeat_edge_in by lia. unfold mosaic.
  rewrite (site_row _ _ _ S), (site_column _ _ _ S). destruct (site_diagonals _ _ _ S) as (-> & -> & ->).
  assert (k = 0 \/ k = 1 \/ k = 2)%Z as [->|[-> | ->]] by lia; unfold rgba_select; cbn [Z.eqb Pos.eqb];
    destruct (site_kinds _ _ _ S) as [(E1 & E2 & [[E3 E4]|[E3 E4]])|(E1 & E2 & [[E3 E4]|[E3 E4]])];
    rewrite ?E1, ?E2, ?E3, ?E4; exact_unfold; cbn [Z.eqb Pos.eqb]; rewrite ?H0, ?H2; f_equal; try lra; field; repeat split; apply P; lia.
Qed.

End Linear.

End Scene.

(** ** An example *)

Definition rggb : Z -> Z := pattern_of [0; 1; 1; 2]%Z.

Lemma rggb_bayer : bayer rggb.
Proof. exists [0; 1; 1; 2]%Z. split; [by left|done]. Qed.

(** Green rises to the right; red is brighter by two, blue darker by one. *)
Definition shifted (k x y : Z) : R := IZR x + 2 + (if (k =? 0)%Z then 2 else if (k =? 2)%Z then -1 else 0).

(** Red and blue are multiples of the same green. *)
Definition tinted (k x y : Z) : R := (IZR x + 2) * (if (k =? 0)%Z then 2 else if (k =? 2)%Z then / 2 else 1).

Lemma amaze_reconstructs_witness :
  (forall k, (0 <= k < 3)%Z -> DemosaicAmazeGenerator 8 8 (mosaic rggb shifted) rggb 3 4 k = Rmax 0 (shifted k 3 4)) /\
  DemosaicAmazeGenerator 8 8 (mosaic rggb shifted) rggb 3 4 3 = 1.
Proof.
  apply (amaze_reconstructs rggb shifted rggb_bayer 8 8) with (d0 := 2) (d2 := -1); try lia; try (intros; unfold shifted; cbn; lra).
  exists 1, 0, 2. intros x y. unfold shifted. cbn. lra.
Defined.

Lemma rcd_reconstructs_witness :
  (forall k, (0 <= k < 3)%Z -> DemosaicRcdGenerator 8 8 (mosaic rggb tinted) rggb 3 4 k = Rmax 0 (tinted k 3 4)) /\
  DemosaicRcdGenerator 8 8 (mosaic rggb tinted) rggb 3 4 3 = 1.
Proof.
  apply (rcd_reconstructs rggb tinted rggb_bayer 8 8) with (k0 := 2) (k2 := / 2); try lia; try (intros; unfold tinted; cbn; lra).
  - exists 1, 0, 2. intros x y. unfold tinted. cbn. lra.
  - intros x y Hx _. assert (0 <= IZR x) by (apply IZR_le; lia). unfold tinted. cbn. lra.
Defined.
