(* ===== verification/ToneStage.v ===== *)
(** * Tone curves, exposure fusion and colour tables

    Models the generators of nodes/tone (reinhard, aces_filmic, filmic_rgb,
    mertens_local) and nodes/color/lut3d_generator.cpp over an arbitrary arithmetic,
    and shows in exact arithmetic what they do to an image: the curves are monotone
    into the unit interval, fusion is a weighted mean of the exposures, a table is
    interpolated without overshoot and linear tables are reproduced.  That a table is
    never read outside holds in any arithmetic. *)

From Stdlib Require Import ZArith Lia Reals Lra.
From stdpp Require Import prelude strings list.
From S2P Require Import Prelude HalideStage ExactOps.

Local Open Scope Z_scope.

(** ** The generators *)

Section Tone.

Context {F H : Type} {O : HalideOps F H}.

Local Abbreviation image := (Z → Z → Z → H).

(** [cast<float>(input(x, y, c))] *)
Definition value_at (input : image) (x y c : Z) : F := h_of_half (input x y c).

Definition unit_clamp (v : F) : F := h_clamp v (h_num 0) (h_num 1).

(** *** Reinhard *)

Definition reinhard (value white_point : F) : F :=
  let clamped_value := h_max (h_num 0) value in
  unit_clamp ((clamped_value * (h_num 1 + clamped_value / (white_point * white_point))) / (h_num 1 + clamped_value))%H.

Definition ToneReinhardGenerator (input : image) (white_point : F) (x y c : Z) : H :=
  h_to_half (if c =? 3 then value_at input x y c else reinhard (value_at input x y c) white_point).

(** *** ACES *)

Definition aces_fit (value : F) : F :=
  let value := h_max (h_num 0) value in
  unit_clamp ((value * (h_lit 251 100 * value + h_lit 3 100)) /
              (value * (h_lit 243 100 * value + h_lit 59 100) + h_lit 14 100))%H.

Definition ToneAcesFilmicGenerator (input : image) (enabled x y c : Z) : H :=
  h_to_half (if (c =? 3) || (enabled =? 0) then value_at input x y c else aces_fit (value_at input x y c)).

(** *** Filmic *)

Definition filmic_curve (value : F) : F :=
  let value := h_max (h_num 0) value in
  unit_clamp (h_log (h_num 1 + h_num 6 * value) / h_log (h_num 1 + h_num 6 * h_num 18))%H.

Definition adjust_range (value highlights shadows : F) : F :=
  let shadow_delta := ((shadows - h_num 1) * h_lit 8 100 * (h_num 1 - value) * (h_num 1 - value))%H in
  let highlight_delta := ((highlights - h_num 1) * h_lit 8 100 * value * value)%H in
  unit_clamp (value + shadow_delta + highlight_delta)%H.

Record FilmicParams : Type := mkFilmic { ev : F; contrast : F; saturation : F; highlights : F; shadows : F }.

(** The curve of one channel. *)
Definition filmic_tone (p : FilmicParams) (value : F) : F :=
  let exposed := (value * h_pow (h_num 2) (ev p))%H in
  let curved := filmic_curve exposed in
  let contrasted := h_pow (h_max (h_num 0) curved) (h_num 1 / contrast p)%H in
  adjust_range contrasted (highlights p) (shadows p).

Definition ToneFilmicRgbGenerator (input : image) (p : FilmicParams) (x y c : Z) : H :=
  let toned c := filmic_tone p (value_at input x y c) in
  let luma := (h_lit 2126 10000 * toned 0 + h_lit 7152 10000 * toned 1 + h_lit 722 10000 * toned 2)%H in
  let saturated := unit_clamp (luma + (toned c - luma) * saturation p)%H in
  h_to_half (if c =? 3 then value_at input x y c else saturated).

(** *** Exposure fusion *)

Definition channel_exposure_weight (value : F) : F :=
  let distance := (value - h_lit 1 2)%H in
  h_exp (h_opp (distance * distance) / (h_num 2 * h_lit 20 100 * h_lit 20 100))%H.

Record MertensWeights : Type := mkMertens { weight_contrast : F; weight_saturation : F; weight_well_exposedness : F }.

Definition mertens_luma (input : image) (x y : Z) : F :=
  ((value_at input x y 0 + value_at input x y 1 + value_at input x y 2) / h_num 3)%H.

Definition exposure_weight (input : image) (x y : Z) (w : MertensWeights) : F :=
  let red := h_max (h_num 0) (value_at input x y 0) in
  let green := h_max (h_num 0) (value_at input x y 1) in
  let blue := h_max (h_num 0) (value_at input x y 2) in
  let mean := mertens_luma input x y in
  let saturation :=
    h_sqrt (((red - mean) * (red - mean) + (green - mean) * (green - mean) + (blue - mean) * (blue - mean)) / h_num 3 +
            h_lit 1 10000)%H in
  let well_exposed := (channel_exposure_weight red * channel_exposure_weight green * channel_exposure_weight blue)%H in
  let contrast := h_abs (mertens_luma input x y - h_lit 1 2)%H in
  let contrast_factor := if (weight_contrast w =? h_num 0)%H then h_num 1
                         else h_pow (contrast + h_lit 1 100)%H (weight_contrast w) in
  let saturation_factor := if (weight_saturation w =? h_num 1)%H then (saturation + h_lit 1 100)%H
                           else h_pow (saturation + h_lit 1 100)%H (weight_saturation w) in
  let exposure_factor := if (weight_well_exposedness w =? h_num 1)%H then well_exposed
                         else h_pow (well_exposed + h_lit 1 10000)%H (weight_well_exposedness w) in
  (contrast_factor * saturation_factor * exposure_factor)%H.

Definition fused (under normal over : image) (w : MertensWeights) (x y c : Z) : F :=
  let under_weight := exposure_weight under x y w in
  let normal_weight := exposure_weight normal x y w in
  let over_weight := exposure_weight over x y w in
  let total_weight := h_max (under_weight + normal_weight + over_weight)%H (h_lit 1 1000000) in
  ((under_weight * value_at under x y c + normal_weight * value_at normal x y c + over_weight * value_at over x y c) /
   total_weight)%H.

Definition ToneMertensLocalGenerator (under normal over : image) (w : MertensWeights) (x y c : Z) : H :=
  h_to_half (if c =? 3 then value_at normal x y c else unit_clamp (fused under normal over w x y c)).

(** *** Colour tables *)

Definition add_delta (base from to weight : F) : F := (base + (to - from) * weight)%H.

(** The entry of a lattice point. *)
Definition lut_index (lut_size r g b : Z) : Z := (r * lut_size + g) * lut_size + b.

Section Lut.

Variables (lut : Z → Z → F) (lut_size : Z).

Definition lut_sample (channel r g b : Z) : F := lut channel (lut_index lut_size r g b).

Definition tetrahedral (channel r0 g0 b0 : Z) (dr dg db : F) : F :=
  let c000 := lut_sample channel r0 g0 b0 in
  let c100 := lut_sample channel (r0 + 1) g0 b0 in
  let c010 := lut_sample channel r0 (g0 + 1) b0 in
  let c001 := lut_sample channel r0 g0 (b0 + 1) in
  let c110 := lut_sample channel (r0 + 1) (g0 + 1) b0 in
  let c101 := lut_sample channel (r0 + 1) g0 (b0 + 1) in
  let c011 := lut_sample channel r0 (g0 + 1) (b0 + 1) in
  let c111 := lut_sample channel (r0 + 1) (g0 + 1) (b0 + 1) in
  let rgb_order := add_delta (add_delta (add_delta c000 c000 c100 dr) c100 c110 dg) c110 c111 db in
  let rbg_order := add_delta (add_delta (add_delta c000 c000 c100 dr) c100 c101 db) c101 c111 dg in
  let brg_order := add_delta (add_delta (add_delta c000 c000 c001 db) c001 c101 dr) c101 c111 dg in
  let grb_order := add_delta (add_delta (add_delta c000 c000 c010 dg) c010 c110 dr) c110 c111 db in
  let gbr_order := add_delta (add_delta (add_delta c000 c000 c010 dg) c010 c011 db) c011 c111 dr in
  let bgr_order := add_delta (add_delta (add_delta c000 c000 c001 db) c001 c011 dg) c011 c111 dr in
  if ((dg <=? dr) && (db <=? dg))%H then rgb_order else if ((db <=? dr) && (dg <=? db))%H then rbg_order else
  if ((dr <=? db) && (dg <=? dr))%H then brg_order else if ((dr <=? dg) && (db <=? dr))%H then grb_order else
  if ((db <=? dg) && (dr <=? db))%H then gbr_order else bgr_order.

Definition trilinear (channel r0 g0 b0 : Z) (dr dg db : F) : F :=
  let c000 := lut_sample channel r0 g0 b0 in
  let c100 := lut_sample channel (r0 + 1) g0 b0 in
  let c010 := lut_sample channel r0 (g0 + 1) b0 in
  let c001 := lut_sample channel r0 g0 (b0 + 1) in
  let c110 := lut_sample channel (r0 + 1) (g0 + 1) b0 in
  let c101 := lut_sample channel (r0 + 1) g0 (b0 + 1) in
  let c011 := lut_sample channel r0 (g0 + 1) (b0 + 1) in
  let c111 := lut_sample channel (r0 + 1) (g0 + 1) (b0 + 1) in
  let c00 := (c000 + (c100 - c000) * dr)%H in
  let c10 := (c010 + (c110 - c010) * dr)%H in
  let c01 := (c001 + (c101 - c001) * dr)%H in
  let c11 := (c011 + (c111 - c011) * dr)%H in
  let c0 := (c00 + (c10 - c00) * dg)%H in
  let c1 := (c01 + (c11 - c01) * dg)%H in
  (c0 + (c1 - c0) * db)%H.

(** A channel in units of the lattice, and the lattice point below it. *)
Definition lut_scaled (v : F) : F := (unit_clamp v * h_of_int (lut_size - 1))%H.
Definition lut_base (v : F) : Z := z_clamp (h_to_int (h_floor (lut_scaled v))) 0 (lut_size - 2).
Definition lut_fraction (v : F) : F := (lut_scaled v - h_of_int (lut_base v))%H.

Definition lut_value (interpolation : Z) (r g b : F) (c : Z) : F :=
  let rgb_channel := Z.min c 2 in
  (if interpolation =? 1 then trilinear else tetrahedral) rgb_channel (lut_base r) (lut_base g) (lut_base b)
    (lut_fraction r) (lut_fraction g) (lut_fraction b).

Definition Color3dLutGenerator (input : image) (interpolation x y c : Z) : H :=
  h_to_half (if c =? 3 then value_at input x y c
             else unit_clamp (lut_value interpolation (value_at input x y 0) (value_at input x y 1) (value_at input x y 2) c)).

End Lut.

(** ** Every read is inside the table, in any arithmetic *)

Lemma lut_base_range n v : 2 ≤ n → 0 ≤ lut_base n v ≤ n - 2.
Proof. intros Hn. apply z_clamp_range. lia. Qed.

Lemma lut_index_range n r g b : 0 ≤ r < n → 0 ≤ g < n → 0 ≤ b < n → 0 ≤ lut_index n r g b < n * n * n.
Proof. unfold lut_index. nia. Qed.

(** Two tables that agree on the lattice and on the three channels give the same
    colours: nothing else is read. *)
Lemma lut_value_reads lut lut' n interpolation r g b c :
  2 ≤ n → 0 ≤ c → (∀ ch i, 0 ≤ ch < 3 → 0 ≤ i < n * n * n → lut ch i = lut' ch i) →
  lut_value lut n interpolation r g b c = lut_value lut' n interpolation r g b c.
Proof.
  intros Hn Hc Hl. pose proof (lut_base_range n r Hn). pose proof (lut_base_range n g Hn). pose proof (lut_base_range n b Hn).
  assert (S : ∀ dr dg db, 0 ≤ dr ≤ 1 → 0 ≤ dg ≤ 1 → 0 ≤ db ≤ 1 →
    lut_sample lut n (Z.min c 2) (lut_base n r + dr) (lut_base n g + dg) (lut_base n b + db) =
    lut_sample lut' n (Z.min c 2) (lut_base n r + dr) (lut_base n g + dg) (lut_base n b + db)).
  { intros. apply Hl; [lia|]. apply lut_index_range; lia. }
  assert (E : ∀ z : Z, z = z + 0) by lia.
  unfold lut_value. destruct (interpolation =? 1); unfold trilinear, tetrahedral;
    rewrite (E (lut_base n r)), (E (lut_base n g)), (E (lut_base n b)), <-!Z.add_assoc; cbn [Z.add];
    rewrite !S by lia; done.
Qed.

End Tone.
Arguments FilmicParams : clear implicits.
Arguments MertensWeights : clear implicits.

(** ** The curves in exact arithmetic *)

Local Open Scope R_scope.

Lemma unit_clamp_mono a b : a <= b -> unit_clamp a <= unit_clamp b.
Proof. apply clamp_mono. Qed.

Lemma unit_clamp_range (v : R) : unit_interval (unit_clamp v).
Proof. apply clamp_unit_range. Qed.

Lemma Rmax0_mono a b : a <= b -> Rmax 0 a <= Rmax 0 b.
Proof. intros Hab. exact_cases; lra. Qed.

(** Comparing fractions. *)
Lemma frac_le a b c d : 0 < b -> 0 < d -> a * d <= c * b -> a / b <= c / d.
Proof.
  intros Hb Hd H. apply (Rmult_le_reg_r (b * d)); [nra|]. unfold Rdiv.
  replace (a * / b * (b * d)) with (a * d) by (field; lra). replace (c * / d * (b * d)) with (c * b) by (field; lra). done.
Qed.

Lemma reinhard_mono a b white : 0 < white -> a <= b -> reinhard a white <= reinhard b white.
Proof.
  intros Hw Hab%Rmax0_mono. unfold reinhard. exact_unfold. rewrite !(Rdiv_1_r). apply unit_clamp_mono.
  assert (0 <= Rmax 0 a) by apply Rmax_l. set (u := Rmax 0 a) in *. set (v := Rmax 0 b) in *.
  assert (Hk : 0 < / (white * white)) by (apply Rinv_0_lt_compat; nra). unfold Rdiv at 2 4. set (k := / (white * white)) in *.
  apply frac_le; [lra..|]. assert (0 <= k * (v - u) * (u + v + u * v)) by (apply Rmult_le_pos; nra). nra.
Qed.

Lemma reinhard_white white : 0 < white -> reinhard white white = 1.
Proof.
  intros Hw. unfold reinhard. exact_unfold. rewrite Rmax_right by lra.
  replace (_ / _) with (1 : R) by (field; repeat split; nra). apply clamp_unit_id. unfold unit_interval. lra.
Qed.

Lemma aces_mono a b : a <= b -> aces_fit a <= aces_fit b.
Proof.
  intros Hab%Rmax0_mono. unfold aces_fit. exact_unfold. rewrite !(Rdiv_1_r). apply unit_clamp_mono.
  assert (0 <= Rmax 0 a) by apply Rmax_l. set (u := Rmax 0 a) in *. set (v := Rmax 0 b) in *.
  apply frac_le; [nra..|]. assert (0 <= (v - u) * (u * v)) by (apply Rmult_le_pos; nra). nra.
Qed.

(** *** Powers *)

Lemma r_pow_range a p : 0 <= a <= 1 -> 0 < p -> unit_interval (r_pow a p).
Proof.
  intros Ha Hp. unfold unit_interval, r_pow. destruct (Req_dec_T a 0) as [->|Hn]; [destruct (Req_dec_T p 0); lra|].
  unfold Rpower. assert (ln a <= 0) by (rewrite <-ln_1; destruct (Req_dec a 1) as [->|]; [lra|left; apply ln_increasing; lra]).
  split; [left; apply exp_pos|]. rewrite <-exp_0. destruct (Req_dec (p * ln a) 0) as [->|]; [lra|]. left. apply exp_increasing. nra.
Qed.

Lemma r_pow_mono a b p : 0 <= a <= b -> 0 < p -> r_pow a p <= r_pow b p.
Proof.
  intros Ha Hp. unfold r_pow. destruct (Req_dec_T a 0) as [->|Hn].
  - destruct (Req_dec_T p 0); [lra|]. destruct (Req_dec_T b 0); [lra|]. left. apply exp_pos.
  - destruct (Req_dec_T b 0); [lra|]. unfold Rpower. destruct (Req_dec a b) as [->|]; [lra|]. left. apply exp_increasing.
    apply Rmult_lt_compat_l; [lra|]. apply ln_increasing; lra.
Qed.

Lemma ln_mono a b : 0 < a -> a <= b -> ln a <= ln b.
Proof. intros Ha Hab. destruct (Req_dec a b) as [->|]; [lra|]. left. apply ln_increasing; lra. Qed.

Lemma filmic_curve_mono a b : a <= b -> filmic_curve a <= filmic_curve b.
Proof.
  intros Hab%Rmax0_mono. unfold filmic_curve. exact_unfold. rewrite !(Rdiv_1_r). apply unit_clamp_mono.
  assert (0 <= Rmax 0 a) by apply Rmax_l. assert (0 < ln (1 + 6 * 18)) by (rewrite <-ln_1; apply ln_increasing; lra).
  apply Rmult_le_compat_r; [left; by apply Rinv_0_lt_compat|]. apply ln_mono; lra.
Qed.

(** The parameters the node hands over. *)
Record filmic_ok (p : FilmicParams R) : Prop := {
  contrast_ok : 1 / 2 <= contrast p <= 2;
  highlights_ok : 0 <= highlights p <= 2;
  shadows_ok : 0 <= shadows p <= 2
}.

Lemma adjust_mono a b h s :
  0 <= a <= b -> b <= 1 -> 0 <= h <= 2 -> 0 <= s <= 2 -> adjust_range a h s <= adjust_range b h s.
Proof.
  intros Hab Hb Hh Hs. unfold adjust_range. exact_unfold. rewrite !(Rdiv_1_r). apply unit_clamp_mono.
  assert ((b - a) * (1 - 8 / 100 * (s - 1) * (2 - a - b) + 8 / 100 * (h - 1) * (a + b)) >= 0); [|nra].
  apply Rle_ge, Rmult_le_pos; [lra|]. nra.
Qed.

Lemma filmic_tone_mono p a b : filmic_ok p -> a <= b -> filmic_tone p a <= filmic_tone p b.
Proof.
  intros [Hc Hh Hs] Hab. unfold filmic_tone.
  assert (P : 0 < r_pow 2 (ev p)) by (unfold r_pow; destruct (Req_dec_T 2 0); [lra|apply exp_pos]).
  assert (C : forall v, unit_interval (filmic_curve v)) by (intros v; apply unit_clamp_range).
  exact_unfold. rewrite !(Rdiv_1_r). set (e := r_pow 2 (ev p)) in *.
  pose proof (filmic_curve_mono (a * e) (b * e) ltac:(nra)) as M. pose proof (C (a * e)) as Ca. pose proof (C (b * e)) as Cb.
  unfold unit_interval in Ca, Cb.
  rewrite !(Rmax_right 0) by lra.
  assert (Q : 0 < 1 / contrast p) by (apply Rdiv_lt_0_compat; lra).
  pose proof (r_pow_range _ _ Ca Q) as [? ?]. pose proof (r_pow_range _ _ Cb Q) as [? ?].
  pose proof (r_pow_mono _ _ _ (conj (proj1 Ca) M) Q). apply adjust_mono; lra.
Qed.

(** Grey stays grey: the weights of the luma add up to one. *)
Lemma filmic_grey p (input : Z -> Z -> Z -> R) x y c v :
  (0 <= c < 3)%Z -> (forall c, (0 <= c < 3)%Z -> input x y c = v) -> ToneFilmicRgbGenerator input p x y c = filmic_tone p v.
Proof.
  intros Hc Hv. unfold ToneFilmicRgbGenerator, value_at. destruct (Z.eqb_spec c 3); [lia|].
  cbn [h_of_half exact_ops].
  rewrite !Hv by lia. set (t := filmic_tone p v). assert (Ht : unit_interval t) by apply unit_clamp_range.
  exact_unfold. transitivity (unit_clamp t); [|by apply clamp_unit_id]. f_equal. lra.
Qed.

(** C26: the tone curves are monotone into the unit interval.  In exact arithmetic,
    with any positive white point and with filmic parameters in the ranges the node
    clamps them to: a brighter channel is never mapped to a darker one by Reinhard or
    ACES, a brighter grey never to a darker one by the filmic curve, which keeps grey
    pixels grey; results lie between 0 and 1; Reinhard maps its white point to 1; ACES
    switched off is the identity; alpha is never changed. *)
Theorem tone_curves_monotone white p (a b : Z -> Z -> Z -> R) x y c :
  0 < white -> filmic_ok p -> (0 <= c < 3)%Z -> a x y c <= b x y c ->
  (0 <= ToneReinhardGenerator a white x y c <= ToneReinhardGenerator b white x y c /\ ToneReinhardGenerator b white x y c <= 1) /\
  (0 <= ToneAcesFilmicGenerator a 1 x y c <= ToneAcesFilmicGenerator b 1 x y c /\ ToneAcesFilmicGenerator b 1 x y c <= 1) /\
  ((forall c', (0 <= c' < 3)%Z -> a x y c' = a x y c /\ b x y c' = b x y c) ->
   0 <= ToneFilmicRgbGenerator a p x y c <= ToneFilmicRgbGenerator b p x y c /\ ToneFilmicRgbGenerator b p x y c <= 1 /\
   forall c', (0 <= c' < 3)%Z -> ToneFilmicRgbGenerator a p x y c' = ToneFilmicRgbGenerator a p x y c) /\
  (a x y c = white -> ToneReinhardGenerator a white x y c = 1) /\
  ToneAcesFilmicGenerator a 0 x y c = a x y c /\
  ToneReinhardGenerator a white x y 3 = a x y 3%Z /\ ToneAcesFilmicGenerator a 1 x y 3 = a x y 3%Z /\
  ToneFilmicRgbGenerator a p x y 3 = a x y 3%Z.
Proof.
  intros Hw Hp Hc Hab.
  assert (R : forall i, ToneReinhardGenerator i white x y c = reinhard (i x y c) white).
  { intros i. unfold ToneReinhardGenerator. destruct (Z.eqb_spec c 3); [lia|done]. }
  assert (A : forall i, ToneAcesFilmicGenerator i 1 x y c = aces_fit (i x y c)).
  { intros i. unfold ToneAcesFilmicGenerator. destruct (Z.eqb_spec c 3); [lia|done]. }
  split_and!; rewrite ?R, ?A; try (apply unit_clamp_range).
  - by apply reinhard_mono.
  - by apply aces_mono.
  - intros G. assert (Ga : forall c', (0 <= c' < 3)%Z -> ToneFilmicRgbGenerator a p x y c' = filmic_tone p (a x y c))
      by (intros c' Hc'; apply filmic_grey; [done|intros; by apply G]).
    rewrite (filmic_grey p b x y c (b x y c)) by (done || intros; by apply G). rewrite (Ga c Hc).
    split_and!; [apply unit_clamp_range|by apply filmic_tone_mono|apply unit_clamp_range|done].
  - intros ->. by apply reinhard_white.
  - unfold ToneAcesFilmicGenerator. by rewrite orb_true_r.
  - done.
  - done.
  - done.
Qed.

(** Two grey pixels under the node's default parameters. *)
Lemma tone_curves_monotone_witness :
  let p := mkFilmic 0 1 1 1 1 in let a (_ _ _ : Z) := 1 / 4 in let b (_ _ _ : Z) := 1 / 2 in
  (0 <= ToneReinhardGenerator a 4 0 0 1 <= ToneReinhardGenerator b 4 0 0 1 /\ ToneReinhardGenerator b 4 0 0 1 <= 1) /\
  (0 <= ToneFilmicRgbGenerator a p 0 0 1 <= ToneFilmicRgbGenerator b p 0 0 1 /\ ToneFilmicRgbGenerator b p 0 0 1 <= 1).
Proof.
  cbv zeta. set (p := mkFilmic 0 1 1 1 1).
  assert (Hp : filmic_ok p) by (split; cbn; lra).
  destruct (tone_curves_monotone 4 p (fun _ _ _ => 1 / 4) (fun _ _ _ => 1 / 2) 0 0 1 ltac:(lra) Hp ltac:(lia) ltac:(lra))
    as (H1 & _ & H3 & _).
  split; [exact H1|]. destruct H3 as (? & ? & _); done.
Defined.

(** ** Exposure fusion *)

Lemma r_pow_pos a p : 0 < a -> 0 < r_pow a p.
Proof. intros Ha. unfold r_pow. destruct (Req_dec_T a 0); [lra|apply exp_pos]. Qed.

Lemma exposure_weight_pos (input : Z -> Z -> Z -> R) x y w : 0 < exposure_weight input x y w.
Proof.
  unfold exposure_weight, channel_exposure_weight. exact_unfold.
  set (s := sqrt _). assert (0 <= s) by apply sqrt_pos. set (l := Rabs _). assert (0 <= l) by apply Rabs_pos.
  apply Rmult_lt_0_compat; [apply Rmult_lt_0_compat|].
  - destruct (r_eqb _ _); [lra|apply r_pow_pos; lra].
  - destruct (r_eqb _ _); [lra|apply r_pow_pos; lra].
  - assert (P : forall a b c, 0 < exp a * exp b * exp c) by (intros; repeat apply Rmult_lt_0_compat; apply exp_pos).
    destruct (r_eqb _ _); [apply P|]. apply r_pow_pos. match goal with |- 0 < ?e + _ => assert (0 < e) by apply P end. lra.
Qed.

(** A mean with positive weights, over at least their sum. *)
Lemma weighted_mean u v w a b c lo hi m :
  0 < u -> 0 < v -> 0 < w -> 0 <= lo -> lo <= a <= hi -> lo <= b <= hi -> lo <= c <= hi -> u + v + w <= m ->
  (u * a + v * b + w * c) / m <= hi /\ (m = u + v + w -> lo <= (u * a + v * b + w * c) / m).
Proof.
  intros Hu Hv Hw Hlo Ha Hb Hc Hm. split.
  - apply (Rmult_le_reg_r m); [lra|]. unfold Rdiv. rewrite Rmult_assoc, Rinv_l by lra. nra.
  - intros ->. apply (Rmult_le_reg_r (u + v + w)); [lra|]. unfold Rdiv. rewrite Rmult_assoc, Rinv_l by lra. nra.
Qed.

Lemma exp_nat_bound n : exp (INR n) <= 3 ^ n.
Proof.
  induction n as [|n IH]; [cbn [INR pow]; rewrite exp_0; lra|]. rewrite S_INR, exp_plus. simpl.
  pose proof exp_le_3. pose proof (exp_pos (INR n)). pose proof (exp_pos 1). nra.
Qed.

Lemma exp_mono a b : a <= b -> exp a <= exp b.
Proof. intros Hab. destruct (Req_dec a b) as [->|]; [lra|]. left. apply exp_increasing. lra. Qed.

(** With the default weights an exposure inside the unit interval keeps a weight
    above a third of the floor of the divisor. *)
Lemma default_weight (input : Z -> Z -> Z -> R) x y :
  (forall c, (0 <= c < 3)%Z -> unit_interval (input x y c)) -> 1 / 3000000 <= exposure_weight input x y (mkMertens 0 1 1).
Proof.
  intros Hi. unfold exposure_weight, value_at. cbn [weight_contrast weight_saturation weight_well_exposedness]. exact_unfold.
  destruct (r_eqb_spec 0 (0 / 1)); [|lra]. destruct (r_eqb_spec 1 (1 / 1)); [|lra].
  assert (C : forall v, unit_interval v -> exp (- (125 / 40)) <= channel_exposure_weight (Rmax (0 / 1) v)).
  { intros v Hv. unfold channel_exposure_weight, unit_interval in *. exact_unfold. rewrite Rmax_right by lra. apply exp_mono.
    assert ((v - 1 / 2) * (v - 1 / 2) <= 1 / 4) by nra. lra. }
  pose proof (C _ (Hi 0 ltac:(lia)))%Z as C0. pose proof (C _ (Hi 1 ltac:(lia)))%Z as C1. pose proof (C _ (Hi 2 ltac:(lia)))%Z as C2.
  set (e := exp (- (125 / 40))) in *. assert (E : 1 / 59049 <= e * e * e).
  { unfold e. rewrite <-!exp_plus. apply Rle_trans with (exp (- INR 10)); [|apply exp_mono; simpl; lra].
    rewrite exp_Ropp. unfold Rdiv. rewrite Rmult_1_l. apply Rinv_le_contravar; [apply exp_pos|].
    pose proof (exp_nat_bound 10) as B. simpl (3 ^ 10) in B. lra. }
  assert (0 < e) by apply exp_pos. set (s := sqrt _). assert (S : 1 / 100 <= s).
  { unfold s. rewrite <-(sqrt_square (1 / 100)) by lra. apply sqrt_le_1_alt.
    match goal with |- _ <= (?a * ?a + ?b * ?b + ?c * ?c) / _ + _ =>
      pose proof (Rle_0_sqr a); pose proof (Rle_0_sqr b); pose proof (Rle_0_sqr c) end. unfold Rsqr in *. lra. }
  match goal with |- _ <= _ * ?q => set (p := q) end. assert (P : e * e * e <= p).
  { unfold p. apply Rmult_le_compat; [nra|lra|apply Rmult_le_compat; lra|done]. }
  assert (0 <= (s + 1 / 100 - 2 / 100) * p) by (apply Rmult_le_pos; lra). lra.
Qed.

(** The sum of the weights. *)
Definition total_weight (under normal over : Z -> Z -> Z -> R) (w : MertensWeights R) (x y : Z) : R :=
  exposure_weight under x y w + exposure_weight normal x y w + exposure_weight over x y w.

(** fusion mixes the exposures.  In exact arithmetic and for any weights, a fused
    channel is at most the brightest of its three exposures, and at least the darkest
    of them as long as the weights add up to the 0.000001 the divisor is kept above;
    with the default weights and exposures in the unit interval they do.  Alpha is that
    of the normal exposure. *)
Theorem mertens_mixes (under normal over : Z -> Z -> Z -> R) (w : MertensWeights R) x y c lo hi :
  (0 <= c < 3)%Z -> 0 <= lo -> hi <= 1 -> lo <= under x y c <= hi -> lo <= normal x y c <= hi -> lo <= over x y c <= hi ->
  ToneMertensLocalGenerator under normal over w x y c <= hi /\
  (1 / 1000000 <= total_weight under normal over w x y -> lo <= ToneMertensLocalGenerator under normal over w x y c) /\
  ((forall c, (0 <= c < 3)%Z -> unit_interval (under x y c) /\ unit_interval (normal x y c) /\ unit_interval (over x y c)) ->
   1 / 1000000 <= total_weight under normal over (mkMertens 0 1 1) x y) /\
  ToneMertensLocalGenerator under normal over w x y 3 = normal x y 3%Z.
Proof.
  intros Hc Hlo Hhi Hu Hn Ho. assert (G : ToneMertensLocalGenerator under normal over w x y c = unit_clamp (fused under normal over w x y c)).
  { unfold ToneMertensLocalGenerator. destruct (Z.eqb_spec c 3); [lia|done]. }
  pose proof (exposure_weight_pos under x y w) as P1. pose proof (exposure_weight_pos normal x y w) as P2.
  pose proof (exposure_weight_pos over x y w) as P3.
  destruct (weighted_mean _ _ _ _ _ _ lo hi (Rmax (total_weight under normal over w x y) (1 / 1000000)) P1 P2 P3 Hlo Hu Hn Ho
    (Rmax_l _ _)) as [Hle Hge].
  assert (F : fused under normal over w x y c = (exposure_weight under x y w * under x y c + exposure_weight normal x y w * normal x y c +
    exposure_weight over x y w * over x y c) / Rmax (total_weight under normal over w x y) (1 / 1000000)) by done.
  rewrite <-F in Hle, Hge. rewrite G. split_and!; [| |  |done].
  - unfold unit_clamp. exact_unfold. exact_cases; lra.
  - intros Ht. rewrite Rmax_left in Hge by lra. specialize (Hge eq_refl). unfold unit_clamp. exact_unfold. exact_cases; lra.
  - intros Hi. pose proof (default_weight under x y) as W1. pose proof (default_weight normal x y) as W2.
    pose proof (default_weight over x y) as W3. unfold total_weight.
    specialize (W1 ltac:(intros; by apply Hi)). specialize (W2 ltac:(intros; by apply Hi)). specialize (W3 ltac:(intros; by apply Hi)). lra.
Qed.

Lemma mertens_mixes_witness :
  let under (_ _ _ : Z) := 1 / 4 in let normal (_ _ _ : Z) := 1 / 2 in let over (_ _ _ : Z) := 3 / 4 in
  1 / 4 <= ToneMertensLocalGenerator under normal over (mkMertens 0 1 1) 0 0 1 <= 3 / 4.
Proof.
  cbv zeta. destruct (mertens_mixes (fun _ _ _ => 1 / 4) (fun _ _ _ => 1 / 2) (fun _ _ _ => 3 / 4) (mkMertens 0 1 1) 0 0 1 (1 / 4) (3 / 4)
    ltac:(lia) ltac:(lra) ltac:(lra) ltac:(lra) ltac:(lra) ltac:(lra)) as (Hle & Hge & Ht & _).
  split; [|exact Hle]. apply Hge, Ht. intros. unfold unit_interval. lra.
Defined.

(** ** Colour tables *)

Lemma lut_fraction_range n (v : R) : (2 <= n)%Z -> 0 <= lut_fraction n v <= 1.
Proof.
  intros Hn. unfold lut_fraction, lut_base. pose proof (unit_clamp_range v) as [Hu1 Hu2].
  assert (H2 : 1 <= IZR (n - 1)) by (apply IZR_le; lia).
  assert (Hs : 0 <= lut_scaled n v <= IZR (n - 1)) by (unfold lut_scaled; cbn [h_mul h_of_int exact_ops]; split; nra). set (s := lut_scaled n v) in *.
  exact_unfold. rewrite (r_floor_unique (IZR (r_floor s)) (r_floor s)) by lra. destruct (r_floor_spec s) as [Hl Hh].
  assert (0 <= r_floor s)%Z by (assert (IZR (-1) < IZR (r_floor s)) as A%lt_IZR by lra; lia).
  unfold z_clamp. rewrite Z.max_l by lia. destruct (Z.min_spec (r_floor s) (n - 2)) as [[_ ->]|[Hm ->]]; [lra|].
  apply IZR_le in Hm. replace (n - 2)%Z with (n - 1 - 1)%Z in Hm |- * by lia. rewrite (minus_IZR (n - 1) 1) in Hm |- *. lra.
Qed.

Section Table.

Variables (lut : Z -> Z -> R) (n channel r0 g0 b0 : Z) (dr dg db : R).
Hypothesis Hn : (2 <= n)%Z.
Hypothesis Hr0 : (0 <= r0 <= n - 2)%Z.
Hypothesis Hg0 : (0 <= g0 <= n - 2)%Z.
Hypothesis Hb0 : (0 <= b0 <= n - 2)%Z.
Hypothesis Hdr : 0 <= dr <= 1.
Hypothesis Hdg : 0 <= dg <= 1.
Hypothesis Hdb : 0 <= db <= 1.

(** A chain of three steps along the edges of a cell is a mean of its corners. *)
Lemma chain_between lo hi a b c d u v w :
  lo <= a <= hi -> lo <= b <= hi -> lo <= c <= hi -> lo <= d <= hi -> 0 <= w <= v -> v <= u -> u <= 1 ->
  lo <= add_delta (add_delta (add_delta a a b u) b c v) c d w <= hi.
Proof using. intros. unfold add_delta. exact_unfold. nra. Qed.

Lemma lerp_between lo hi a b t : lo <= a <= hi -> lo <= b <= hi -> 0 <= t <= 1 -> lo <= a + (b - a) * t <= hi.
Proof using. intros. nra. Qed.

Lemma tetrahedral_between lo hi :
  (forall i, (0 <= i < n * n * n)%Z -> lo <= lut channel i <= hi) ->
  lo <= tetrahedral lut n channel r0 g0 b0 dr dg db <= hi /\ lo <= trilinear lut n channel r0 g0 b0 dr dg db <= hi.
Proof using Hn Hr0 Hg0 Hb0 Hdr Hdg Hdb.
  intros Hl. assert (S : forall r g b, (0 <= r < n)%Z -> (0 <= g < n)%Z -> (0 <= b < n)%Z -> lo <= lut_sample lut n channel r g b <= hi).
  { intros. apply Hl. by apply lut_index_range. }
  split.
  - unfold tetrahedral. cbn [h_le exact_ops].
    destruct (r_leb_spec dg dr), (r_leb_spec db dg), (r_leb_spec db dr), (r_leb_spec dg db), (r_leb_spec dr db), (r_leb_spec dr dg);
      cbn [andb]; try lra; apply chain_between; (apply S; lia) || lra.
  - unfold trilinear. exact_unfold. repeat apply lerp_between; (apply S; lia) || lra.
Qed.

Lemma tetrahedral_affine a b c d :
  (forall r g b', (0 <= r < n)%Z -> (0 <= g < n)%Z -> (0 <= b' < n)%Z ->
     lut_sample lut n channel r g b' = a * IZR r + b * IZR g + c * IZR b' + d) ->
  let value := a * (IZR r0 + dr) + b * (IZR g0 + dg) + c * (IZR b0 + db) + d in
  tetrahedral lut n channel r0 g0 b0 dr dg db = value /\ trilinear lut n channel r0 g0 b0 dr dg db = value.
Proof using Hn Hr0 Hg0 Hb0.
  intros Hl value. unfold tetrahedral, trilinear, add_delta, value. rewrite !Hl by lia. exact_unfold. rewrite !plus_IZR.
  split; [|lra]. repeat match goal with |- context [if ?b then _ else _] => destruct b end; lra.
Qed.

End Table.

(** C25: colour tables are interpolated.  In exact arithmetic and for both
    interpolations: a channel of the output stays between the least and the greatest
    entry of its table, and where the entries are a linear function of the lattice
    coordinates the output is that function of the (clamped and scaled) input, so that
    the identity table changes nothing but clamping.  Alpha is kept. *)
Theorem lut_interpolates (lut : Z -> Z -> R) (n : Z) (interpolation : Z) (input : Z -> Z -> Z -> R) x y c :
  (2 <= n)%Z -> (0 <= c < 3)%Z ->
  (forall lo hi, 0 <= lo -> hi <= 1 -> (forall i, (0 <= i < n * n * n)%Z -> lo <= lut c i <= hi) ->
     lo <= Color3dLutGenerator lut n input interpolation x y c <= hi) /\
  (forall kr kg kb k0,
     (forall r g b, (0 <= r < n)%Z -> (0 <= g < n)%Z -> (0 <= b < n)%Z ->
        lut c (lut_index n r g b) = kr * IZR r + kg * IZR g + kb * IZR b + k0) ->
     Color3dLutGenerator lut n input interpolation x y c =
       unit_clamp (kr * lut_scaled n (input x y 0%Z) + kg * lut_scaled n (input x y 1%Z) + kb * lut_scaled n (input x y 2%Z) + k0)) /\
  ((forall r g b, (0 <= r < n)%Z -> (0 <= g < n)%Z -> (0 <= b < n)%Z ->
      lut c (lut_index n r g b) = IZR (if (c =? 0)%Z then r else if (c =? 1)%Z then g else b) / IZR (n - 1)) ->
   Color3dLutGenerator lut n input interpolation x y c = unit_clamp (input x y c)) /\
  Color3dLutGenerator lut n input interpolation x y 3 = input x y 3%Z.
Proof.
  intros Hn Hc. set (r := input x y 0%Z). set (g := input x y 1%Z). set (b := input x y 2%Z).
  pose proof (lut_base_range n r Hn) as B1. pose proof (lut_base_range n g Hn) as B2. pose proof (lut_base_range n b Hn) as B3.
  pose proof (lut_fraction_range n r Hn) as F1. pose proof (lut_fraction_range n g Hn) as F2. pose proof (lut_fraction_range n b Hn) as F3.
  assert (G : Color3dLutGenerator lut n input interpolation x y c = unit_clamp (if (interpolation =? 1)%Z
    then trilinear lut n c (lut_base n r) (lut_base n g) (lut_base n b) (lut_fraction n r) (lut_fraction n g) (lut_fraction n b)
    else tetrahedral lut n c (lut_base n r) (lut_base n g) (lut_base n b) (lut_fraction n r) (lut_fraction n g) (lut_fraction n b))).
  { unfold Color3dLutGenerator, lut_value, value_at. destruct (Z.eqb_spec c 3); [lia|]. rewrite Z.min_l by lia. by destruct (interpolation =? 1)%Z. }
  assert (A : forall kr kg kb k0,
     (forall r g b, (0 <= r < n)%Z -> (0 <= g < n)%Z -> (0 <= b < n)%Z ->
        lut c (lut_index n r g b) = kr * IZR r + kg * IZR g + kb * IZR b + k0) ->
     Color3dLutGenerator lut n input interpolation x y c = unit_clamp (kr * lut_scaled n r + kg * lut_scaled n g + kb * lut_scaled n b + k0)).
  { intros kr kg kb k0 Hl. destruct (tetrahedral_affine lut n c _ _ _ (lut_fraction n r) (lut_fraction n g) (lut_fraction n b) Hn B1 B2 B3
      kr kg kb k0 Hl) as [E1 E2]. rewrite G, E1, E2. unfold lut_fraction. exact_unfold. destruct (interpolation =? 1)%Z; f_equal; lra. }
  split_and!; [|exact A| |done].
  - intros lo hi Hlo Hhi Hl. destruct (tetrahedral_between lut n c _ _ _ _ _ _ Hn B1 B2 B3 F1 F2 F3 lo hi Hl) as [T1 T2].
    rewrite G. unfold unit_clamp. rewrite clamp_unit_id; [by destruct (interpolation =? 1)%Z|].
    unfold unit_interval. destruct (interpolation =? 1)%Z; lra.
  - intros Hl. assert (Hp : IZR (n - 1) <> 0) by (apply not_0_IZR; lia).
    pose (k i := if (c =? i)%Z then / IZR (n - 1) else 0). rewrite (A (k 0%Z) (k 1%Z) (k 2%Z) 0).
    + rewrite <-(clamp_unit_id (unit_clamp (input x y c))) by apply unit_clamp_range. unfold unit_clamp at 1. f_equal.
      unfold k, lut_scaled, r, g, b. exact_unfold.
      assert (c = 0 \/ c = 1 \/ c = 2)%Z as [->|[-> | ->]] by lia; cbn [Z.eqb Pos.eqb]; field; done.
    + intros r' g' b' Hr Hg Hb. rewrite Hl by done. unfold k.
      assert (c = 0 \/ c = 1 \/ c = 2)%Z as [->|[-> | ->]] by lia; cbn [Z.eqb Pos.eqb]; field; done.
Qed.

(** The identity table of two points per axis. *)
Lemma lut_interpolates_witness :
  let lut (c i : Z) := IZR (if (c =? 0)%Z then i / 4 else if (c =? 1)%Z then (i / 2) mod 2 else i mod 2) in
  Color3dLutGenerator lut 2 (fun _ _ _ => 1 / 3) 0 5 7 1 = unit_clamp (1 / 3).
Proof.
  cbv zeta. apply (lut_interpolates _ 2 0 (fun _ _ _ => 1 / 3) 5 7 1); [lia..|].
  intros r g b Hr Hg Hb. cbn [Z.eqb Pos.eqb]. change (IZR (2 - 1)) with 1. rewrite Rdiv_1_r. f_equal. unfold lut_index.
  Z.div_mod_to_equations; lia.
Defined.
