(* ===== verification/DenoiseStage.v ===== *)
(** * Denoising, sharpening and precision conversion

    Models the generators of nodes/denoise (guided_filter, wavelet_bayes_shrink, the
    two BM3D stages), nodes/sharpen/edge_aware_usm and nodes/precision over an
    arbitrary arithmetic.  In exact arithmetic the smoothing filters create no new
    extremes, wavelet shrinkage without a threshold is the identity and keeps luma and
    block means with one, and flat regions are fixed points.  [radius_saturates] holds
    in any arithmetic: the filters have two sizes only. *)

From Stdlib Require Import ZArith Lia Reals Lra.
From stdpp Require Import prelude strings list.
From S2P Require Import Prelude HalideStage ExactOps ToneStage.

Local Open Scope Z_scope.

(** ** The generators *)

Section Denoise.

Context {F H : Type} {O : HalideOps F H}.

Local Abbreviation image := (Z → Z → Z → H).
Local Abbreviation func := (Z → Z → Z → F).

Definition mean3x3 (value : func) (x y c : Z) : F :=
  ((value (x - 1)%Z (y - 1)%Z c + value x (y - 1)%Z c + value (x + 1)%Z (y - 1)%Z c +
    value (x - 1)%Z y c + value x y c + value (x + 1)%Z y c + value (x - 1)%Z (y + 1)%Z c +
    value x (y + 1)%Z c + value (x + 1)%Z (y + 1)%Z c) / h_num 9)%H.

(** The offsets of the two loops, in their order. *)
Definition window5 : list (Z * Z) := dy ← [-2; -1; 0; 1; 2]; (λ dx, (dx, dy)) <$> [-2; -1; 0; 1; 2].

Definition mean5x5 (value : func) (x y c : Z) : F :=
  (foldl (λ sum d, h_add sum (value (x + d.1)%Z (y + d.2)%Z c)) (h_num 0) window5 / h_num 25)%H.

(** [Halide::select(radius <= 1, mean3x3(...), mean5x5(...))] *)
Definition box_mean (radius : Z) (value : func) (x y c : Z) : F :=
  if radius <=? 1 then mean3x3 value x y c else mean5x5 value x y c.

Section Filters.

Variables (width height : Z) (input : image).

(** [value] of the generators: the sample as a float, edges repeated. *)
Definition edge_value (x y c : Z) : F := h_of_half (repeat_edge3 width height 4 input x y c).

(** *** Guided filter *)

Definition square (x y c : Z) : F := (edge_value x y c * edge_value x y c)%H.
Definition guided_mean (radius : Z) : func := box_mean radius edge_value.
Definition guided_corr (radius : Z) : func := box_mean radius square.

Definition guided_a (radius : Z) (eps : F) (x y c : Z) : F :=
  let variance := h_max (h_num 0) (guided_corr radius x y c - guided_mean radius x y c * guided_mean radius x y c)%H in
  (variance / (variance + eps))%H.

Definition guided_b (radius : Z) (eps : F) (x y c : Z) : F :=
  (guided_mean radius x y c - guided_a radius eps x y c * guided_mean radius x y c)%H.

Definition guided_filtered (radius : Z) (eps : F) (x y c : Z) : F :=
  (box_mean radius (guided_a radius eps) x y c * edge_value x y c + box_mean radius (guided_b radius eps) x y c)%H.

Definition DenoiseGuidedFilterGenerator (radius : Z) (eps : F) (x y c : Z) : H :=
  h_to_half (if c =? 3 then edge_value x y c else h_max (h_num 0) (guided_filtered radius eps x y c)).

(** *** Wavelet shrinkage *)

Definition soft_threshold (value threshold : F) : F :=
  if (threshold <? value)%H then (value - threshold)%H else
  if (value <? h_opp threshold)%H then (value + threshold)%H else h_num 0.

Definition block_value (plane : Z → Z → F) (x y ox oy : Z) (threshold : F) : F :=
  let bx := x / 2 * 2 in
  let by_ := y / 2 * 2 in
  let p00 := plane bx by_ in
  let p10 := plane (bx + 1) by_ in
  let p01 := plane bx (by_ + 1) in
  let p11 := plane (bx + 1) (by_ + 1) in
  let ll := (h_lit 1 4 * (p00 + p10 + p01 + p11))%H in
  let h := soft_threshold (h_lit 1 4 * (p00 - p10 + p01 - p11))%H threshold in
  let v := soft_threshold (h_lit 1 4 * (p00 + p10 - p01 - p11))%H threshold in
  let d := soft_threshold (h_lit 1 4 * (p00 - p10 - p01 + p11))%H threshold in
  if (ox =? 0) && (oy =? 0) then (ll + h + v + d)%H else
  if (ox =? 1) && (oy =? 0) then (ll - h + v - d)%H else
  if (ox =? 0) && (oy =? 1) then (ll + h - v - d)%H else (ll - h - v + d)%H.

Definition wavelet_luma (x y : Z) : F := ((edge_value x y 0 + h_num 2 * edge_value x y 1 + edge_value x y 2) * h_lit 1 4)%H.
Definition wavelet_co (x y : Z) : F := (edge_value x y 0 - edge_value x y 2)%H.
Definition wavelet_cg (x y : Z) : F := (edge_value x y 1 - (edge_value x y 0 + edge_value x y 2) * h_lit 1 2)%H.

Definition wavelet_rgb (chroma_strength : F) (x y c : Z) : F :=
  let threshold := (h_lit 35 1000 * chroma_strength)%H in
  let denoised_co := block_value wavelet_co x y (Z.land x 1) (Z.land y 1) threshold in
  let denoised_cg := block_value wavelet_cg x y (Z.land x 1) (Z.land y 1) threshold in
  let t := (wavelet_luma x y - h_lit 1 2 * denoised_cg)%H in
  let out_r := (t + h_lit 1 2 * denoised_co)%H in
  let out_g := (t + denoised_cg)%H in
  let out_b := (t - h_lit 1 2 * denoised_co)%H in
  if c =? 0 then out_r else if c =? 1 then out_g else if c =? 2 then out_b else edge_value x y 3.

Definition DenoiseWaveletBayesShrinkGenerator (chroma_strength : F) (x y c : Z) : H :=
  h_to_half (h_max (h_num 0) (wavelet_rgb chroma_strength x y c)).

(** *** BM3D *)

Definition mean2x2 (value : func) (x y c : Z) : F :=
  let bx := x / 2 * 2 in
  let by_ := y / 2 * 2 in
  ((value bx by_ c + value (bx + 1)%Z by_ c + value bx (by_ + 1)%Z c + value (bx + 1)%Z (by_ + 1)%Z c) * h_lit 1 4)%H.

Definition bm3d_strength (sigma : F) : F := h_min (h_num 1) (h_max (h_num 0) (sigma / h_lit 3 100)%H).

Definition bm3d_denoised (sigma : F) (x y c : Z) : F :=
  let basic := mean2x2 edge_value x y c in
  let strength := bm3d_strength sigma in
  (edge_value x y c * (h_num 1 - strength) + basic * strength)%H.

Definition DenoiseBm3dStep1Generator (sigma : F) (x y c : Z) : H :=
  h_to_half (if c =? 3 then edge_value x y c else h_max (h_num 0) (bm3d_denoised sigma x y c)).

Definition DenoiseBm3dStep2Generator (sigma : F) (x y c : Z) : H :=
  h_to_half (edge_value x y c + sigma * h_num 0)%H.

(** *** Sharpening *)

Definition usm_sharpened (strength : F) (radius : Z) (threshold : F) (x y c : Z) : F :=
  let blur := box_mean radius edge_value x y c in
  let mask := (edge_value x y c - blur)%H in
  if (threshold <=? h_abs mask)%H then (edge_value x y c + strength * mask)%H else edge_value x y c.

Definition SharpenEdgeAwareUsmGenerator (strength : F) (radius : Z) (threshold : F) (x y c : Z) : H :=
  h_to_half (if c =? 3 then edge_value x y c else h_max (h_num 0) (usm_sharpened strength radius threshold x y c)).

(** the filters have two radii.  In any arithmetic and for every image, the guided
    filter and the sharpening filter compute the same for every radius from 2 on: only
    the step from 1 to 2 has an effect, although both nodes take a radius up to 32. *)
Theorem radius_saturates (eps strength threshold : F) (r x y c : Z) :
  1 < r →
  DenoiseGuidedFilterGenerator r eps x y c = DenoiseGuidedFilterGenerator 2 eps x y c ∧
  SharpenEdgeAwareUsmGenerator strength r threshold x y c = SharpenEdgeAwareUsmGenerator strength 2 threshold x y c.
Proof.
  intros Hr. unfold DenoiseGuidedFilterGenerator, guided_filtered, guided_b, guided_a, guided_corr, guided_mean,
    SharpenEdgeAwareUsmGenerator, usm_sharpened, box_mean. by rewrite !(proj2 (Z.leb_gt r 1)) by lia.
Qed.

End Filters.

(** *** Precision conversion *)

Definition PrecisionConvertR16ToF32 (input : Z → Z → Z) (x y : Z) : F := h_of_int (input x y).

Definition PrecisionConvertF32ToRgba16f (input : Z → Z → F) (x y c : Z) : H :=
  h_to_half (if c =? 3 then h_num 1 else input x y).

(** [cast<uint8_t>] and [cast<uint16_t>] of a scaled value. *)
Definition PrecisionConvertRgba16fToRgba8 (input : image) (x y c : Z) : Z :=
  u8 (h_to_int (unit_clamp (value_at input x y c) * h_num 255 + h_lit 1 2)%H).

Definition PrecisionConvertRgba16fToRgba16u (input : image) (x y c : Z) : Z :=
  u16 (h_to_int (unit_clamp (value_at input x y c) * h_num 65535 + h_lit 1 2)%H).

End Denoise.

(** ** Exact arithmetic *)

Local Open Scope R_scope.

(** The mean of 25 values, written out. *)
Lemma mean5x5_sum (f : Z -> Z -> Z -> R) x y c :
  mean5x5 f x y c = foldr (fun d s => f (x + d.1)%Z (y + d.2)%Z c + s) 0 window5 / 25.
Proof.
  unfold mean5x5. exact_unfold. f_equal; [|lra].
  assert (G : forall l s, foldl (fun sum d => sum + f (x + d.1)%Z (y + d.2)%Z c) s l = s + foldr (fun d s => f (x + d.1)%Z (y + d.2)%Z c + s) 0 l).
  { induction l as [|d l IH]; intros s; cbn [foldl foldr]; [lra|]. rewrite IH. lra. }
  rewrite G. lra.
Qed.

Lemma sum_between (f : Z * Z -> R) lo hi l :
  (forall d, lo <= f d <= hi) -> lo * INR (length l) <= foldr (fun d s => f d + s) 0 l <= hi * INR (length l).
Proof.
  intros Hf. induction l as [|d l IH]; [cbn [length foldr INR]; lra|].
  cbn [length foldr]. rewrite S_INR. specialize (Hf d). lra.
Qed.

Lemma sum_linear (f g : Z * Z -> R) v l :
  foldr (fun d s => f d + s) 0 l * v + foldr (fun d s => g d + s) 0 l = foldr (fun d s => (f d * v + g d) + s) 0 l.
Proof. induction l as [|d l IH]; cbn [foldr]; [lra|]. rewrite <-IH. lra. Qed.

(** A box mean lies between the values it averages. *)
Lemma box_mean_between radius (f : Z -> Z -> Z -> R) x y c lo hi :
  (forall x y, lo <= f x y c <= hi) -> lo <= box_mean radius f x y c <= hi.
Proof.
  intros Hf. unfold box_mean. destruct (radius <=? 1)%Z.
  - unfold mean3x3. exact_unfold. pose proof (Hf (x - 1) (y - 1))%Z. pose proof (Hf x (y - 1))%Z. pose proof (Hf (x + 1) (y - 1))%Z.
    pose proof (Hf (x - 1) y)%Z. pose proof (Hf x y). pose proof (Hf (x + 1) y)%Z. pose proof (Hf (x - 1) (y + 1))%Z.
    pose proof (Hf x (y + 1))%Z. pose proof (Hf (x + 1) (y + 1))%Z. lra.
  - rewrite mean5x5_sum. pose proof (sum_between (fun d => f (x + d.1)%Z (y + d.2)%Z c) lo hi window5 ltac:(intros; apply Hf)) as B.
    change (length window5) with 25%nat in B. replace (INR 25) with 25 in B by (simpl; lra). lra.
Qed.

(** Box means are linear. *)
Lemma box_mean_linear radius (f g : Z -> Z -> Z -> R) v x y c :
  box_mean radius f x y c * v + box_mean radius g x y c = box_mean radius (fun x y c => f x y c * v + g x y c) x y c.
Proof.
  unfold box_mean. destruct (radius <=? 1)%Z; [unfold mean3x3; exact_unfold; lra|]. rewrite !mean5x5_sum.
  rewrite <-(sum_linear (fun d => f (x + d.1)%Z (y + d.2)%Z c) (fun d => g (x + d.1)%Z (y + d.2)%Z c)). lra.
Qed.

(** The four samples of a block, rebuilt from its coefficients. *)
Lemma block_value_zero (plane : Z -> Z -> R) x y :
  block_value plane x y (Z.land x 1) (Z.land y 1) 0 = plane x y.
Proof.
  unfold block_value. rewrite !land_one.
  assert (T : forall v : R, soft_threshold v 0 = v).
  { intros v. unfold soft_threshold. exact_unfold. destruct (r_ltb_spec 0 v); [lra|]. destruct (r_ltb_spec v (- 0)); lra. }
  rewrite !T. pose proof (Z.div_mod x 2 ltac:(lia)) as Ex. pose proof (Z.div_mod y 2 ltac:(lia)) as Ey.
  assert (x mod 2 = 0 \/ x mod 2 = 1)%Z as [Mx|Mx] by (Z.div_mod_to_equations; lia);
  assert (y mod 2 = 0 \/ y mod 2 = 1)%Z as [My|My] by (Z.div_mod_to_equations; lia);
  rewrite Mx in Ex |- *; rewrite My in Ey |- *; cbn [Z.eqb Pos.eqb andb]; exact_unfold;
  [replace (plane x y) with (plane (x / 2 * 2) (y / 2 * 2))%Z by (f_equal; lia)
  |replace (plane x y) with (plane (x / 2 * 2) (y / 2 * 2 + 1))%Z by (f_equal; lia)
  |replace (plane x y) with (plane (x / 2 * 2 + 1) (y / 2 * 2))%Z by (f_equal; lia)
  |replace (plane x y) with (plane (x / 2 * 2 + 1) (y / 2 * 2 + 1))%Z by (f_equal; lia)]; lra.
Qed.

(** The mean of a block does not depend on the threshold. *)
Lemma block_sum (plane : Z -> Z -> R) x y t :
  (x mod 2 = 0)%Z -> (y mod 2 = 0)%Z ->
  block_value plane x y (Z.land x 1) (Z.land y 1) t + block_value plane (x + 1) y (Z.land (x + 1) 1) (Z.land y 1) t +
  block_value plane x (y + 1) (Z.land x 1) (Z.land (y + 1) 1) t + block_value plane (x + 1) (y + 1) (Z.land (x + 1) 1) (Z.land (y + 1) 1) t
  = plane x y + plane (x + 1)%Z y + plane x (y + 1)%Z + plane (x + 1)%Z (y + 1)%Z.
Proof.
  intros Mx My. assert (P : forall z, (z mod 2 = 0 -> (z + 1) mod 2 = 1 /\ (z + 1) / 2 * 2 = z /\ z / 2 * 2 = z)%Z)
    by (intros z Hz; Z.div_mod_to_equations; lia).
  destruct (P x Mx) as (X1 & X2 & X3), (P y My) as (Y1 & Y2 & Y3). unfold block_value. rewrite !land_one, X1, Y1, Mx, My, X2, X3, Y2, Y3.
  cbn [Z.eqb Pos.eqb andb]. exact_unfold. lra.
Qed.

(** The sum of a plane over the block at an even position. *)
Definition block_total (plane : Z -> Z -> R) (x y : Z) : R :=
  plane x y + plane (x + 1)%Z y + plane x (y + 1)%Z + plane (x + 1)%Z (y + 1)%Z.

Section Exact.

Variables (width height : Z) (input : Z -> Z -> Z -> R).
Hypothesis Hwidth : (0 < width)%Z.
Hypothesis Hheight : (0 < height)%Z.

Local Abbreviation value := (edge_value width height input).

Lemma edge_value_in x y c :
  (0 <= x < width)%Z -> (0 <= y < height)%Z -> (0 <= c < 4)%Z -> value x y c = input x y c.
Proof using. intros. unfold edge_value. by rewrite repeat_edge3_in. Qed.

Lemma edge_value_between lo hi c :
  (0 <= c < 4)%Z -> (forall x y, (0 <= x < width)%Z -> (0 <= y < height)%Z -> lo <= input x y c <= hi) ->
  forall x y, lo <= value x y c <= hi.
Proof using Hwidth Hheight.
  intros Hc Hi x y. apply (repeat_edge3_inside (fun v => lo <= v <= hi) width height input x y c); done.
Qed.

Lemma guided_a_range radius eps x y c : 0 < eps -> 0 <= guided_a width height input radius eps x y c <= 1.
Proof using.
  intros He. unfold guided_a. set (v := h_max _ _). assert (0 <= v) by (unfold v; exact_unfold; exact_cases; lra). exact_unfold.
  split; [apply Rmult_le_pos; [done|]; left; apply Rinv_0_lt_compat; lra|].
  apply (Rmult_le_reg_r (v + eps)); [lra|]. unfold Rdiv. rewrite Rmult_assoc, Rinv_l by lra. lra.
Qed.

(** smoothing creates no new extremes.  In exact arithmetic, if every sample of a
    channel lies between two bounds that are not negative, so does every sample of that
    channel after the guided filter (any radius, any positive eps) and after the first
    BM3D stage (any sigma): in particular flat images are left as they are.  BM3D with
    sigma zero is the identity, and alpha is kept by both. *)
Theorem smoothing_between (radius : Z) (eps sigma lo hi : R) x y c :
  0 < eps -> (0 <= c < 3)%Z -> 0 <= lo ->
  (forall x y, (0 <= x < width)%Z -> (0 <= y < height)%Z -> lo <= input x y c <= hi) ->
  (0 <= x < width)%Z -> (0 <= y < height)%Z ->
  lo <= DenoiseGuidedFilterGenerator width height input radius eps x y c <= hi /\
  lo <= DenoiseBm3dStep1Generator width height input sigma x y c <= hi /\
  DenoiseBm3dStep1Generator width height input 0 x y c = input x y c /\
  DenoiseGuidedFilterGenerator width height input radius eps x y 3 = input x y 3%Z /\
  DenoiseBm3dStep1Generator width height input sigma x y 3 = input x y 3%Z.
Proof using Hwidth Hheight.
  intros He Hc Hlo Hi Hx Hy. assert (V : forall x y, lo <= value x y c <= hi) by (apply edge_value_between; [lia|done]).
  assert (c <> 3)%Z as N%Z.eqb_neq by lia. unfold DenoiseGuidedFilterGenerator, DenoiseBm3dStep1Generator. rewrite N.
  assert (M : forall v, lo <= v <= hi -> Rmax 0 v = v) by (intros v Hv; apply Rmax_right; lra).
  assert (lo <= guided_filtered width height input radius eps x y c <= hi) as G.
  { unfold guided_filtered. change h_add with Rplus. change h_mul with Rmult. rewrite box_mean_linear. apply box_mean_between. intros x' y'.
    pose proof (guided_a_range radius eps x' y' c He) as A. pose proof (box_mean_between radius value x' y' c lo hi V) as B.
    unfold guided_b, guided_mean. exact_unfold. set (a := guided_a _ _ _ _ _ _ _ _) in *. set (m := box_mean _ _ _ _ _) in *.
    specialize (V x y). nra. }
  assert (forall s, lo <= bm3d_denoised width height input s x y c <= hi) as B.
  { intros s. unfold bm3d_denoised. assert (0 <= bm3d_strength s <= 1) as S by (unfold bm3d_strength; exact_unfold; exact_cases; lra).
    set (k := bm3d_strength s) in *. assert (lo <= mean2x2 value x y c <= hi) as Hm.
    { unfold mean2x2. exact_unfold. set (bx := (x / 2 * 2)%Z). set (b_ := (y / 2 * 2)%Z).
      pose proof (V bx b_). pose proof (V (bx + 1) b_)%Z. pose proof (V bx (b_ + 1))%Z. pose proof (V (bx + 1) (b_ + 1))%Z. lra. }
    exact_unfold. specialize (V x y). nra. }
  rewrite Z.eqb_refl, !edge_value_in by lia. exact_unfold. rewrite !Rdiv_1_r. rewrite !M by apply B || apply G.
  split_and!; try (apply B || apply G); try done.
  unfold bm3d_denoised, bm3d_strength. rewrite edge_value_in by lia. exact_unfold.
  replace (0 / (3 / 100)) with 0 by lra. rewrite !Rdiv_1_r, (Rmax_left 0 0), Rmin_right by lra. lra.
Qed.

(** *** Wavelet shrinkage *)

Local Abbreviation out strength := (wavelet_rgb width height input strength).

(** wavelet shrinkage touches chroma detail only.  In exact arithmetic and for any
    strength, before negative values are cut off: the luma (R + 2 G + B) / 4 of every
    pixel is kept, and so are the sums of R - B and of G - (R + B) / 2 over every block
    of two by two; with strength zero the filter is the identity.  Alpha is kept. *)
Theorem wavelet_keeps (strength : R) x y :
  (0 <= x < width)%Z -> (0 <= y < height)%Z ->
  (out strength x y 0 + 2 * out strength x y 1 + out strength x y 2) / 4 = (input x y 0%Z + 2 * input x y 1%Z + input x y 2%Z) / 4 /\
  ((x mod 2 = 0)%Z -> (y mod 2 = 0)%Z -> (x + 1 < width)%Z -> (y + 1 < height)%Z ->
   block_total (fun x y => out strength x y 0 - out strength x y 2) x y = block_total (fun x y => input x y 0%Z - input x y 2%Z) x y /\
   block_total (fun x y => out strength x y 1 - (out strength x y 0 + out strength x y 2) / 2) x y =
   block_total (fun x y => input x y 1%Z - (input x y 0%Z + input x y 2%Z) / 2) x y) /\
  (forall c, (0 <= c < 4)%Z -> DenoiseWaveletBayesShrinkGenerator width height input 0 x y c = Rmax 0 (input x y c)) /\
  DenoiseWaveletBayesShrinkGenerator width height input strength x y 3 = Rmax 0 (input x y 3%Z).
Proof using Hwidth Hheight.
  intros Hx Hy. split_and!.
  - unfold wavelet_rgb, wavelet_luma. rewrite !edge_value_in by lia. exact_unfold. cbn [Z.eqb Pos.eqb]. lra.
  - intros Mx My Hx1 Hy1. pose proof (block_sum (wavelet_co width height input) x y (h_lit 35 1000 * strength)%H Mx My) as S1.
    pose proof (block_sum (wavelet_cg width height input) x y (h_lit 35 1000 * strength)%H Mx My) as S2.
    unfold wavelet_co at 5 6 7 8 in S1. unfold wavelet_cg at 5 6 7 8 in S2. repeat rewrite edge_value_in in S1 by lia. repeat rewrite edge_value_in in S2 by lia.
    unfold block_total, wavelet_rgb. cbn [Z.eqb Pos.eqb]. exact_unfold. split; lra.
  - intros c Hc. unfold DenoiseWaveletBayesShrinkGenerator, wavelet_rgb. cbn [h_mul exact_ops]. rewrite !Rmult_0_r, !block_value_zero.
    unfold wavelet_luma, wavelet_co, wavelet_cg. rewrite !edge_value_in by lia. exact_unfold. rewrite Rdiv_1_r.
    assert (c = 0 \/ c = 1 \/ c = 2 \/ c = 3)%Z as [->|[->|[-> | ->]]] by lia; cbn [Z.eqb Pos.eqb]; f_equal; lra.
  - unfold DenoiseWaveletBayesShrinkGenerator, wavelet_rgb. cbn [Z.eqb Pos.eqb]. rewrite edge_value_in by lia. exact_unfold. f_equal. lra.
Qed.

(** *** Sharpening *)

(** Strength zero, a detail below the threshold and a flat neighbourhood are left
    alone. *)
Lemma usm_identity (strength : R) radius (threshold : R) x y c :
  (0 <= c < 4)%Z -> (0 <= x < width)%Z -> (0 <= y < height)%Z ->
  strength = 0 \/ Rabs (value x y c - box_mean radius value x y c) < threshold \/ (forall x' y', value x' y' c = value x y c) ->
  usm_sharpened width height input strength radius threshold x y c = input x y c.
Proof using.
  intros Hc Hx Hy Hs. rewrite <-(edge_value_in x y c) by done. unfold usm_sharpened. exact_unfold. destruct (r_leb_spec threshold (Rabs (value x y c - box_mean radius value x y c))); [|done].
  destruct Hs as [->|[?|Hf]]; [lra|lra|]. pose proof (box_mean_between radius value x y c (value x y c) (value x y c)) as B.
  assert (box_mean radius value x y c = value x y c) as ->; [|lra]. specialize (B ltac:(intros x' y'; rewrite (Hf x' y'); lra)). lra.
Qed.

End Exact.

(** ** Precision conversion *)

Lemma rounds_to_nearest (v m : R) (k : Z) :
  unit_interval v -> m = IZR k -> (0 <= k)%Z -> let r := r_floor (v * m + 1 / 2) in (0 <= r <= k)%Z /\ Rabs (IZR r - v * m) <= 1 / 2.
Proof.
  intros Hv -> Hk r. unfold unit_interval in Hv. apply IZR_le in Hk as Hk'. destruct (r_floor_spec (v * IZR k + 1 / 2)) as [Hl Hh]. fold r in Hl, Hh.
  assert (0 <= v * IZR k <= IZR k) by (split; nra). split; [|exact_cases; lra].
  assert (IZR (-1) < IZR r) as A%lt_IZR by lra. assert (IZR r < IZR (k + 1)) as B%lt_IZR by (rewrite plus_IZR; lra). lia.
Qed.

(** conversion to integers rounds to nearest and never wraps.  In exact arithmetic,
    the 8-bit and 16-bit results lie in their range and differ from the clamped sample
    times 255 or 65535 by at most one half. *)
Theorem precision_rounds (input : Z -> Z -> Z -> R) x y c :
  let v := unit_clamp (input x y c) in
  (0 <= PrecisionConvertRgba16fToRgba8 input x y c <= 255)%Z /\
  Rabs (IZR (PrecisionConvertRgba16fToRgba8 input x y c) - v * 255) <= 1 / 2 /\
  (0 <= PrecisionConvertRgba16fToRgba16u input x y c <= 65535)%Z /\
  Rabs (IZR (PrecisionConvertRgba16fToRgba16u input x y c) - v * 65535) <= 1 / 2.
Proof.
  intros v. assert (Hv : unit_interval v) by apply unit_clamp_range.
  destruct (rounds_to_nearest v 255 255 Hv eq_refl ltac:(lia)) as [R1 D1]. destruct (rounds_to_nearest v 65535 65535 Hv eq_refl ltac:(lia)) as [R2 D2].
  assert (E1 : PrecisionConvertRgba16fToRgba8 input x y c = r_floor (v * 255 + 1 / 2)).
  { unfold PrecisionConvertRgba16fToRgba8, value_at. cbn [h_of_half exact_ops]. fold v. exact_unfold. rewrite Rdiv_1_r. apply wrap_small. unfold is_u. lia. }
  assert (E2 : PrecisionConvertRgba16fToRgba16u input x y c = r_floor (v * 65535 + 1 / 2)).
  { unfold PrecisionConvertRgba16fToRgba16u, value_at. cbn [h_of_half exact_ops]. fold v. exact_unfold. rewrite Rdiv_1_r. apply wrap_small. unfold is_u. lia. }
  rewrite E1, E2. done.
Qed.

(** ** Examples *)

Lemma radius_saturates_witness :
  DenoiseGuidedFilterGenerator 4 4 (fun x y c => IZR x) 32 (1 / 10) 1 1 0 = DenoiseGuidedFilterGenerator 4 4 (fun x y c => IZR x) 2 (1 / 10) 1 1 0 /\
  SharpenEdgeAwareUsmGenerator 4 4 (fun x y c => IZR x) 1 32 0 1 1 0 = SharpenEdgeAwareUsmGenerator 4 4 (fun x y c => IZR x) 1 2 0 1 1 0.
Proof. apply (radius_saturates 4 4 (fun x y c => IZR x) (1 / 10) 1 0 32 1 1 0). lia. Defined.

(** A flat image. *)
Lemma smoothing_between_witness :
  1 / 2 <= DenoiseGuidedFilterGenerator 4 4 (fun _ _ _ => 1 / 2) 2 (15 / 1000) 1 1 0 <= 1 / 2 /\
  1 / 2 <= DenoiseBm3dStep1Generator 4 4 (fun _ _ _ => 1 / 2) (1 / 10) 1 1 0 <= 1 / 2.
Proof.
  destruct (smoothing_between 4 4 (fun _ _ _ => 1 / 2) ltac:(lia) ltac:(lia) 2 (15 / 1000) (1 / 10) (1 / 2) (1 / 2) 1 1 0
    ltac:(lra) ltac:(lia) ltac:(lra) ltac:(intros; lra) ltac:(lia) ltac:(lia)) as (H1 & H2 & _). split; [exact H1|exact H2].
Defined.

Lemma wavelet_keeps_witness :
  let input (x y c : Z) := IZR (x + 2 * y + c) in
  DenoiseWaveletBayesShrinkGenerator 4 4 input 0 2 3 1 = Rmax 0 (input 2%Z 3%Z 1%Z).
Proof.
  cbv zeta. apply (wavelet_keeps 4 4 (fun x y c => IZR (x + 2 * y + c)) ltac:(lia) ltac:(lia) 0 2 3 ltac:(lia) ltac:(lia)). lia.
Defined.
