(* ===== verification/FilterDispatch.v ===== *)
(** * From the nodes to the generated filters

    Models the dispatch files of the filters Halide generates (nodes/demosaic,
    nodes/denoise, nodes/tone, nodes/sharpen and nodes/color): each checks the buffers
    and the size of the parameter block, unpacks the block and calls the compiled
    function.  The compiled functions are parameters; [compiled] states what Halide
    documents of them: on buffers of the declared types and of the shape the generator
    asks for, the function returns zero and the output holds the values of the
    algorithm, in an arithmetic that is left open.

    [tuned_nodes_develop] follows a [process] call of the nodes with parameters from
    the plugin's entry point to the output samples ([bm3d_develops] that of BM3D, whose
    generator is the first of the two steps the documentation has), [demosaic_develops]
    those of the demosaic nodes. *)

From Stdlib Require Import ZArith Lia SpecFloat.
From stdpp Require Import prelude strings list gmap.
From S2P Require Import Prelude Core Json HalfFloat HostContext Float32 Float64 ComputeContext OpcodeReader OpcodeList2.
From S2P Require Import OpcodeList3 LensBlob LensFilter GainFilter StateRes Sdk Nodes NodeContract PointFilters RawDevelop.
From S2P Require Import FloatValid WhiteBalance HalideStage Demosaic ToneStage DenoiseStage.

Local Open Scope Z_scope.

(** ** The dispatch functions *)

Abbreviation memories := (list (option bytes)).

(** What a compiled function does: the status and the new contents of the output. *)
Definition outcome : Type := Z * memories.

Definition bad_index : outcome := (status_int CPIPE_BAD_INDEX, []).

(** The guard on the counts and the size of the block, then the fields of the block.
    The pointers to the buffers are those of a submission, which are not null. *)
Definition with_block (n_inputs : nat) (widths : list nat) (run : list halide_buffer_t → halide_buffer_t → list Z → memories → outcome)
    : HalideParamFilterEntry := λ inputs outputs blob mem,
  match outputs with
  | [output] =>
      if negb (length inputs =? n_inputs)%nat || (len blob <? struct_size widths) then bad_index else
      match read_struct widths blob 0 with
      | Ok fields => run inputs output fields mem
      | _ => bad_index
      end
  | _ => bad_index
  end.

(** The same with one input. *)
Definition one_input (widths : list nat) (run : halide_buffer_t → halide_buffer_t → list Z → memories → outcome)
    : HalideParamFilterEntry :=
  with_block 1 widths (λ inputs output fields mem, match inputs with [input] => run input output fields mem | _ => bad_index end).

(** A compiled function with one image and parameters [P]. *)
Abbreviation aot P := (halide_buffer_t → P → halide_buffer_t → memories → outcome).

Local Abbreviation float_at p i := (float_of_bits (field p i)).
(** An [std::int32_t]. *)
Local Abbreviation int_at p i := (i32 (field p i)).

Definition denoise_guided_filter_param (denoise_guided_filter : aot (Z * float32)) : HalideParamFilterEntry :=
  one_input [4; 4]%nat (λ input output p, denoise_guided_filter input (int_at p 0%nat, float_at p 1%nat) output).

Definition denoise_wavelet_bayes_shrink_param (denoise_wavelet_bayes_shrink : aot float32) : HalideParamFilterEntry :=
  one_input [4]%nat (λ input output p, denoise_wavelet_bayes_shrink input (float_at p 0%nat) output).

Definition denoise_bm3d_step1_param (denoise_bm3d_step1 : aot float32) : HalideParamFilterEntry :=
  one_input [4]%nat (λ input output p, denoise_bm3d_step1 input (float_at p 0%nat) output).

Definition denoise_bm3d_step2_param (denoise_bm3d_step2 : aot float32) : HalideParamFilterEntry :=
  one_input [4]%nat (λ input output p, denoise_bm3d_step2 input (float_at p 0%nat) output).

Definition tone_aces_filmic_param (tone_aces_filmic : aot Z) : HalideParamFilterEntry :=
  one_input [4]%nat (λ input output p, tone_aces_filmic input (int_at p 0%nat) output).

Definition tone_reinhard_param (tone_reinhard : aot float32) : HalideParamFilterEntry :=
  one_input [4]%nat (λ input output p, tone_reinhard input (float_at p 0%nat) output).

Definition tone_filmic_rgb_param (tone_filmic_rgb : aot (FilmicParams float32)) : HalideParamFilterEntry :=
  one_input (replicate 5 4%nat) (λ input output p,
    tone_filmic_rgb input (mkFilmic (float_at p 0%nat) (float_at p 1%nat) (float_at p 2%nat) (float_at p 3%nat) (float_at p 4%nat)) output).

Definition sharpen_edge_aware_usm_param (sharpen_edge_aware_usm : aot (float32 * Z * float32)) : HalideParamFilterEntry :=
  one_input [4; 4; 4]%nat (λ input output p,
    sharpen_edge_aware_usm input (float_at p 0%nat, int_at p 1%nat, float_at p 2%nat) output).

Definition tone_mertens_local_param
    (tone_mertens_local : halide_buffer_t → halide_buffer_t → halide_buffer_t → MertensWeights float32 → halide_buffer_t → memories → outcome)
    : HalideParamFilterEntry :=
  with_block 3 [4; 4; 4]%nat (λ inputs output p mem,
    match inputs with
    | [under; normal; over] =>
        tone_mertens_local under normal over (mkMertens (float_at p 0%nat) (float_at p 1%nat) (float_at p 2%nat)) output mem
    | _ => bad_index
    end).

(** A buffer of the dispatch function itself: its dimensions and its elements. *)
Record local_buffer : Type := mkLocal { lb_dim : list halide_dimension_t; lb_values : list Z }.

(** The pattern as four 32-bit integers. *)
Definition cfa_buffer (pattern : list Z) : local_buffer := mkLocal [mkHDim 0 4 1] pattern.

Definition demosaic_param (demosaic : aot local_buffer) : HalideParamFilterEntry :=
  one_input (replicate 4 1%nat) (λ input output p, demosaic input (cfa_buffer (take 4 p)) output).

Definition demosaic_bilinear_param : aot local_buffer → HalideParamFilterEntry := demosaic_param.
Definition demosaic_rcd_param : aot local_buffer → HalideParamFilterEntry := demosaic_param.
Definition demosaic_amaze_param : aot local_buffer → HalideParamFilterEntry := demosaic_param.

(** The entry without parameters assumes RGGB. *)
Definition demosaic_bilinear_rggb (demosaic_bilinear : aot local_buffer) : HalideFilterEntry := λ input output mem,
  let '(status, contents) := demosaic_bilinear input (cfa_buffer [0; 1; 1; 2]) output mem in (status, contents !! 0%nat ≫= id).

(** The table as rows of three floats. *)
Definition color_3d_lut_param (color_3d_lut : aot (local_buffer * Z * Z)) : HalideParamFilterEntry := λ inputs outputs blob mem,
  match inputs, outputs with
  | [input], [output] =>
      if len blob <? 12 then bad_index else
      match read_struct [4; 4; 4]%nat blob 0 with
      | Ok [size; value_count; interpolation] =>
          if (size <? 2) || (value_count =? 0) || negb (value_count mod 3 =? 0) then bad_index else
          if negb (len blob =? 12 + value_count * 4) || (2 ^ 31 - 1 <? size) then bad_index else
          match read_struct (replicate (Z.to_nat value_count) 4%nat) blob 12 with
          | Ok values =>
              color_3d_lut input
                (mkLocal [mkHDim 0 3 1; mkHDim 0 (i32 (value_count / 3)) 3] values, i32 size, i32 interpolation) output mem
          | _ => bad_index
          end
      | _ => bad_index
      end
  | _, _ => bad_index
  end.

(** ** What Halide promises *)

(** A description of a dense image of half floats, with its memory. *)
Record rgba_view (width height : Z) (mem : memories) (h : halide_buffer_t) (data : bytes) : Prop := {
  rv_type : hb_type h = mkHType halide_type_float 16;
  rv_shape : rgba_buffer width height h;
  rv_memory : mem !! hb_host h = Some (Some data);
  rv_size : memory_ok width height data
}.

(** A description of a dense plane of floats. *)
Record plane_view (width height : Z) (mem : memories) (h : halide_buffer_t) (data : bytes) : Prop := {
  pv_type : hb_type h = mkHType halide_type_float 32;
  pv_shape : r32_buffer width height h;
  pv_memory : mem !! hb_host h = Some (Some data);
  pv_size : len data = 4 * (width * height)
}.

(** The output of a filter on half floats: the values of an algorithm. *)
Definition computes (width height : Z) (value : Z → Z → Z → Z) (out : bytes) : Prop :=
  memory_ok width height out ∧
  ∀ x y c, in_image width height x y → 0 ≤ c < 4 → host_px width out x y c = Ok (u16 (value x y c)).

(** The function Halide compiled from an algorithm on an image of half floats. *)
Definition compiled {P} (f : aot P) (algorithm : Z → Z → (Z → Z → Z → Z) → P → Z → Z → Z → Z) : Prop :=
  ∀ width height mem hi ho im om p,
    0 < width → 0 < height → width * height * 4 < 2 ^ 31 → rgba_view width height mem hi im → rgba_view width height mem ho om →
    hb_host hi ≠ hb_host ho →
    ∃ out, f hi p ho mem = (0, [Some out]) ∧ computes width height (algorithm width height (sample width im) p) out.

(** The function Halide compiled from a demosaic algorithm; the pattern is a buffer of
    four integers. *)
Definition compiled_demosaic (f : aot local_buffer) (algorithm : Z → Z → (Z → Z → float32) → (Z → Z) → Z → Z → Z → Z) : Prop :=
  ∀ width height mem hi ho im om pattern,
    0 < width → 0 < height → width * height * 4 < 2 ^ 31 → plane_view width height mem hi im → rgba_view width height mem ho om →
    hb_host hi ≠ hb_host ho → length pattern = 4%nat →
    ∃ out, f hi (cfa_buffer pattern) ho mem = (0, [Some out]) ∧
      computes width height (algorithm width height (λ x y, value_of f_zero (read_float_at im (y * width + x))) (pattern_of pattern)) out.

(** ** The blocks *)

Lemma with_block_runs n widths fields run his ho mem :
  length his = n → Forall2 fits widths fields →
  with_block n widths run his [ho] (struct_bytes widths fields) mem = run his ho fields mem.
Proof.
  intros <- Hf. unfold with_block. rewrite Nat.eqb_refl. cbn [negb orb].
  assert (len (struct_bytes widths fields) = struct_size widths) as ->.
  { unfold len, struct_size. rewrite length_struct_bytes; [done|]. by apply Forall2_length in Hf. }
  rewrite Z.ltb_irrefl. pose proof (read_struct_at widths fields [] [] 0 Hf eq_refl) as Hr.
  rewrite app_nil_l, app_nil_r in Hr. by rewrite Hr.
Qed.

Lemma one_input_runs widths fields run hi ho mem :
  Forall2 fits widths fields → one_input widths run [hi] [ho] (struct_bytes widths fields) mem = run hi ho fields mem.
Proof. intros Hf. unfold one_input. by rewrite with_block_runs. Qed.

(** A parameter of type [float] is a float. *)
Lemma to_f32_good v : good 24 128 (to_f32 v).
Proof. destruct v; [done..|]. apply round_good. lia. Qed.

Lemma clamp_good v lo hi : good 24 128 v → good 24 128 lo → good 24 128 hi → good 24 128 (clamp_float v lo hi).
Proof. intros. unfold clamp_float. by repeat case_match. Qed.

Lemma float_param_good `{JsonLib} p key fallback lo hi v :
  good 24 128 lo → good 24 128 hi → clamped_param_float_or p key fallback lo hi = Ok v → good 24 128 v.
Proof.
  intros Hl Hh. unfold clamped_param_float_or. destruct (param_double_or p key _); [|done..]. rewrite Ok_bind. intros [= <-].
  apply clamp_good; [apply to_f32_good|done..].
Qed.

Lemma int_param_range `{JsonLib} p key fallback lo hi v : lo ≤ hi → clamped_param_int_or p key fallback lo hi = Ok v → lo ≤ v ≤ hi.
Proof.
  intros Hl. unfold clamped_param_int_or. destruct (param_double_or p key _); [|done..]. rewrite Ok_bind.
  destruct (int_of_double _) as [z| | |]; [|done..]. rewrite Ok_bind. intros [= <-]. unfold clamp_int. repeat case_match; lia.
Qed.

(** Storing a parameter in the block and reading it. *)
Lemma stored_int v : - 2 ^ 31 ≤ v < 2 ^ 31 → i32 (u32 v) = v.
Proof.
  intros Hv. unfold i32, u32, wrap. rewrite Zplus_mod_idemp_l. by apply i32_small.
Qed.

(** ** The nodes *)

Section Nodes.

Context {J : JsonLib} {O : HalideOps float32 Z}.

Variables (filters : HalideFilterRegistry) (nan_bits : Z) (i o u inst : nat) (params : option json).
Variables (w : World) (bi bo : CpuBuffer) (h : cpipe_metadata_builder_s) (width height : Z) (im om : bytes) (m : BufferMetadata).

Local Abbreviation vi := (buffer_view i).
Local Abbreviation vo := (buffer_view o).
Local Abbreviation env fi fo := (develop_env i o u inst w bi bo h fi fo width height im om m).
Local Abbreviation pv := (mkParamView params (Some SuiteParam)).
Local Abbreviation half := R16G16B16A16_SFLOAT.
Local Abbreviation mem := (memory (w_store w)).

Hypothesis Hsize : width * height * 4 < 2 ^ 31.

(** A submission hands the described buffers to the registered entry. *)
Lemma submit_entry fi id f blob P di do_ :
  env fi half → find_filter (halide_param_filters filters) id = Some f →
  halide_dimensions (cb_layout bi) = Ok di → halide_dimensions (cb_layout bo) = Ok do_ →
  (∀ hi ho, hb_host hi = i → hb_host ho = o → hb_type hi = halide_type_for fi → hb_type ho = halide_type_for half →
     hb_dim hi = di → hb_dim ho = do_ → mem !! hb_host hi = Some (Some im) → mem !! hb_host ho = Some (Some om) →
     ∃ out, f [hi] [ho] blob mem = (0, [Some out]) ∧ P out) →
  ∃ out, P out ∧ compute_submit_halide_with_params filters compute_view id [Some vi] [Some vo] blob w = (Ok tt, developed o w bo out).
Proof using.
  intros E Hf Hdi Hdo Hrun. pose proof (de_node E) as Henv. destruct (distinct_ready i o u w bi bo h Henv) as [Hr Hnd].
  destruct (submit_distinct filters id f Hf [i] [o] (take (length blob) blob) (w_store w) Hr Hnd) as (his & hos & Hi & Ho & Hs).
  destruct (Forall2_cons_inv_l _ _ _ _ Hi) as (hi & l1 & (b1 & Hb1 & Hhi & Ht1 & _ & Hd1) & Hn1 & ->). apply Forall2_nil_inv_l in Hn1 as ->.
  destruct (Forall2_cons_inv_l _ _ _ _ Ho) as (ho & l2 & (b2 & Hb2 & Hho & Ht2 & _ & Hd2) & Hn2 & ->). apply Forall2_nil_inv_l in Hn2 as ->.
  rewrite (ne_in _ _ _ _ _ _ _ Henv) in Hb1. rewrite (ne_out _ _ _ _ _ _ _ Henv) in Hb2. injection Hb1 as <-. injection Hb2 as <-.
  rewrite Hdi in Hd1. rewrite Hdo in Hd2. injection Hd1 as Hd1. injection Hd2 as Hd2.
  rewrite (di_format _ _ _ _ _ (de_in E)) in Ht1. rewrite (di_format _ _ _ _ _ (de_out E)) in Ht2.
  destruct (Hrun hi ho Hhi Hho Ht1 Ht2 (eq_sym Hd1) (eq_sym Hd2)) as (out & Hout & HP);
    [by unfold memory; rewrite list_lookup_fmap, Hhi, (ne_in _ _ _ _ _ _ _ Henv); simpl; rewrite (di_data _ _ _ _ _ (de_in E))
    |by unfold memory; rewrite list_lookup_fmap, Hho, (ne_out _ _ _ _ _ _ _ Henv); simpl; rewrite (di_data _ _ _ _ _ (de_out E))|].
  exists out. split; [done|]. rewrite firstn_all, Hout in Hs. unfold compute_submit_halide_with_params. simpl null. cbn [sc_suite compute_view].
  unfold raw_handles, mbind, sr_bind, lift, gets. cbn [foldM mbind res_bind app buffer_view sb_impl sc_impl_null].
  change (submitted (submit_halide_with_params filters id [Some i] [Some o] (take (length blob) blob) (w_store w))
    "submit_halide_with_params failed" w = (Ok tt, developed o w bo out)).
  rewrite firstn_all. simpl fmap in Hs. rewrite Hs. unfold submitted, developed. by rewrite (write_back_out i o u w bi bo h Henv).
Qed.

(** A compiled function behind a dispatch function, on half floats. *)
Lemma submit_compiled {P} (f : aot P) algorithm id widths decode fields :
  env half half → compiled f algorithm →
  find_filter (halide_param_filters filters) id = Some (one_input widths (λ input output p, f input (decode p) output)) →
  Forall2 fits widths fields →
  ∃ out, computes width height (algorithm width height (sample width im) (decode fields)) out ∧
    compute_submit_halide_with_params filters compute_view id [Some vi] [Some vo] (struct_bytes widths fields) w
    = (Ok tt, developed o w bo out).
Proof using Hsize.
  intros E Hc Hf Hfit. pose proof (de_width E). pose proof (de_height E).
  eapply (submit_entry half); [exact E|exact Hf|eapply rgba_dimensions; [apply E|lia..]|eapply rgba_dimensions; [apply E|lia..]|].
  intros hi ho Hhi Hho Ht1 Ht2 Hd1 Hd2 Hm1 Hm2. rewrite one_input_runs by done. apply (Hc width height mem hi ho im om); [lia..| | |].
  - split; [done|exact Hd1|done|]. unfold memory_ok. rewrite (di_len _ _ _ _ _ (de_in E)). cbn [bytes_per_pixel]. lia.
  - split; [done|exact Hd2|done|]. unfold memory_ok. rewrite (di_len _ _ _ _ _ (de_out E)). cbn [bytes_per_pixel]. lia.
  - rewrite Hhi, Hho. apply (ne_distinct _ _ _ _ _ _ _ (de_node E)).
Qed.

(** A call of a node: it succeeds, records its step, changes nothing else but the
    data of the output, and the output holds the values of an algorithm. *)
Definition develops (process : SdkCompute → ParamView → list (option Buffer) → list (option Buffer) → list (option SdkBuilder) → sdk unit)
    (step : string) (value : Z → Z → Z → Z) : Prop :=
  ∃ out h', process_node i o u process inst params w = (Ok (CPIPE_OK, None), finished o u w bo out h') ∧
    tells h step h' ∧ computes width height value out.

Lemma param_node_develops {P} (f : aot P) algorithm name id step block widths decode fields :
  env half half → compiled f algorithm →
  find_filter (halide_param_filters filters) id = Some (one_input widths (λ input output p, f input (decode p) output)) →
  block pv = Ok (struct_bytes widths fields) → Forall2 fits widths fields →
  develops (param_node filters name id step block) step (algorithm width height (sample width im) (decode fields)).
Proof using Hsize.
  intros E Hc Hf Hb Hfit. destruct (submit_compiled f algorithm id widths decode fields E Hc Hf Hfit) as (out & Hout & Hs).
  destruct (record_exact i o u w bi bo h (de_node E) step out) as (h' & Hr & Ht). exists out, h'. split_and!; [|done|done].
  apply (process_node_exact i o u w) with (r := Ok tt); [apply E| |done|done].
  unfold param_node. rewrite (lift_bind _ (vi, vo, builder_view u)) by done. rewrite (lift_bind _ (struct_bytes widths fields)) by done.
  erewrite sr_bind_Ok by exact Hs. exact Hr.
Qed.

(** *** The nodes with parameters *)

Record TunedFunctions : Type := mkTuned {
  denoise_guided_filter : aot (Z * float32);
  denoise_wavelet_bayes_shrink : aot float32;
  denoise_bm3d_step1 : aot float32;
  tone_filmic_rgb : aot (FilmicParams float32);
  tone_reinhard : aot float32;
  tone_aces_filmic : aot Z;
  sharpen_edge_aware_usm : aot (float32 * Z * float32)
}.

(** The functions are compiled from the generators, in the arithmetic [O]. *)
Record tuned_compiled (a : TunedFunctions) : Prop := {
  tc_guided : compiled (denoise_guided_filter a) (λ w h img p, DenoiseGuidedFilterGenerator w h img p.1 p.2);
  tc_wavelet : compiled (denoise_wavelet_bayes_shrink a) (λ w h img, DenoiseWaveletBayesShrinkGenerator w h img);
  tc_bm3d : compiled (denoise_bm3d_step1 a) (λ w h img, DenoiseBm3dStep1Generator w h img);
  tc_filmic : compiled (tone_filmic_rgb a) (λ _ _ img, ToneFilmicRgbGenerator img);
  tc_reinhard : compiled (tone_reinhard a) (λ _ _ img, ToneReinhardGenerator img);
  tc_aces : compiled (tone_aces_filmic a) (λ _ _ img, ToneAcesFilmicGenerator img);
  tc_usm : compiled (sharpen_edge_aware_usm a) (λ w h img p, SharpenEdgeAwareUsmGenerator w h img p.1.1 p.1.2 p.2)
}.

(** The dispatch functions are registered under the names the nodes use. *)
Definition tuned_entries (a : TunedFunctions) : list (string * HalideParamFilterEntry) :=
  [("denoise_guided_filter", denoise_guided_filter_param (denoise_guided_filter a));
   ("denoise_wavelet_bayes_shrink", denoise_wavelet_bayes_shrink_param (denoise_wavelet_bayes_shrink a));
   ("denoise_bm3d_step1", denoise_bm3d_step1_param (denoise_bm3d_step1 a));
   ("tone_filmic_rgb", tone_filmic_rgb_param (tone_filmic_rgb a));
   ("tone_reinhard", tone_reinhard_param (tone_reinhard a));
   ("tone_aces_filmic", tone_aces_filmic_param (tone_aces_filmic a));
   ("sharpen_edge_aware_usm", sharpen_edge_aware_usm_param (sharpen_edge_aware_usm a))].

Definition registered (entries : list (string * HalideParamFilterEntry)) : Prop :=
  Forall (λ e, find_filter (halide_param_filters filters) e.1 = Some e.2) entries.

Hypothesis Hnan : float_of_bits (u32 nan_bits) = S754_nan.

Lemma stored_float v : good 24 128 v → float_of_bits (bits_of_float nan_bits v) = v.
Proof using Hnan. intros Hv. by apply float_bits_roundtrip. Qed.

Lemma word_fits v : fits 4 (bits_of_float nan_bits v).
Proof using. by apply wrap_bound. Qed.

Lemma int_fits v : fits 4 (u32 v).
Proof using. by apply wrap_bound. Qed.

(** The fields of a block have four bytes each. *)
Ltac block_fits := repeat (apply Forall2_cons; split; [apply word_fits || apply int_fits|]); apply Forall2_nil; exact I.

Lemma sigma_exact sigma w' :
  env half half → sigma_from_params_or_metadata pv vi w = (Ok sigma, w') → w' = w ∧ good 24 128 sigma.
Proof using.
  intros E. assert (B : ∀ v, good 24 128 (clamp_float (to_f32 v) (f_lit 0 1) (f_lit 1 5))) by (intros v; apply clamp_good; [apply to_f32_good|done..]).
  unfold sigma_from_params_or_metadata.
  unfold mbind, sr_bind, lift.
  destruct (if no_params pv then Ok None else found (get_param_double (pv_impl pv) (Some "sigma") false)) as [[v|]| | |];
    try done; [by intros [= <- <-]|].
  destruct (if no_params pv then Ok None else found (get_param_double (pv_impl pv) (Some "sigma_override") false)) as [[v|]| | |];
    try done; [by intros [= <- <-]|].
  pose proof (metadata_exact i o u w bi bo h (de_node E) m "" (de_metadata E)) as Hm. unfold require_metadata, mbind, sr_bind in Hm.
  destruct (buffer_metadata vi w) as [[[md|]| | |] w0]; try done. injection Hm as -> ->.
  destruct (found _) as [[c|]| | |]; try done; [|by intros [= <- <-]].
  destruct (view_noise_profile c); intros [= <- <-]; split; try done. apply to_f32_good.
Qed.

(** The BM3D node runs its first step alone, at one noise level for all channels. *)
Lemma bm3d_develops (a : TunedFunctions) sigma w' :
  env half half → tuned_compiled a → registered (tuned_entries a) →
  sigma_from_params_or_metadata pv vi w = (Ok sigma, w') →
  develops (DenoiseBm3d_process filters nan_bits) "denoise.bm3d" (DenoiseBm3dStep1Generator width height (sample width im) sigma).
Proof using Hsize Hnan.
  intros E Hc Hreg Hs. unfold registered, tuned_entries in Hreg. rewrite !Forall_cons in Hreg. cbn [fst snd] in Hreg.
  destruct Hreg as (_ & _ & Rb & _). destruct (sigma_exact sigma w' E Hs) as [-> Gs]. rewrite <-(stored_float sigma) by done.
  destruct (submit_compiled _ _ _ [4]%nat _ [bits_of_float nan_bits sigma] E (tc_bm3d a Hc) Rb) as (out & Hout & Hsub); [by block_fits|].
  destruct (record_exact i o u w bi bo h (de_node E) "denoise.bm3d" out) as (h' & Hr & Ht). exists out, h'. split_and!; [|done|done].
  apply (process_node_exact i o u w) with (r := Ok tt); [apply E| |done|done].
  unfold DenoiseBm3d_process. rewrite (lift_bind _ (vi, vo, builder_view u)) by done. erewrite sr_bind_Ok by (eapply formats_exact; apply E).
  erewrite sr_bind_Ok by exact Hs. erewrite sr_bind_Ok by exact Hsub. exact Hr.
Qed.

(** C20: nodes with parameters, from the call of the plugin to the pixels.  On dense
    images of half floats, with the generated filters registered, a call of the guided
    filter, wavelet, filmic, Reinhard, ACES or sharpening node succeeds, records the
    node's step and changes nothing but the data of the output, whose samples are those
    of the generator's algorithm on the input, at exactly the parameter values the node
    read and clamped to the documented ranges: no parameter is lost, rounded or swapped
    in the block.  The guided filter and the sharpening are covered at the radii 1 and 2,
    whose windows are the 3x3 and 5x5 ones of that radius; larger radii are taken but do
    not widen the window ([DenoiseStage.radius_saturates]), against the documentation. *)
Theorem tuned_nodes_develop (a : TunedFunctions) :
  env half half → tuned_compiled a → registered (tuned_entries a) →
  let image := sample width im in
  (∀ radius eps, clamped_param_int_or pv "radius" 1 1 32 = Ok radius → radius ≤ 2 →
     clamped_param_float_or pv "eps" (f_lit 15 1000) (f_lit 1 100000) (f_lit 1 10) = Ok eps →
     develops (DenoiseGuidedFilter_process filters nan_bits) "denoise.guided_filter"
       (DenoiseGuidedFilterGenerator width height image radius eps)) ∧
  (∀ s, clamped_param_float_or pv "chroma_strength" (f_lit 1 1) (f_lit 0 1) (f_lit 2 1) = Ok s →
     develops (DenoiseWaveletBayesShrink_process filters nan_bits) "denoise.wavelet_bayes_shrink"
       (DenoiseWaveletBayesShrinkGenerator width height image s)) ∧
  (∀ ev contrast saturation highlights shadows,
     clamped_param_float_or pv "ev" (f_lit 0 1) (f_lit (-2) 1) (f_lit 2 1) = Ok ev →
     clamped_param_float_or pv "contrast" (f_lit 1 1) (f_lit 1 2) (f_lit 2 1) = Ok contrast →
     clamped_param_float_or pv "saturation" (f_lit 1 1) (f_lit 0 1) (f_lit 2 1) = Ok saturation →
     clamped_param_float_or pv "highlights" (f_lit 1 1) (f_lit 0 1) (f_lit 2 1) = Ok highlights →
     clamped_param_float_or pv "shadows" (f_lit 1 1) (f_lit 0 1) (f_lit 2 1) = Ok shadows →
     develops (ToneFilmicRgb_process filters nan_bits) "tone.filmic_rgb"
       (ToneFilmicRgbGenerator image (mkFilmic ev contrast saturation highlights shadows))) ∧
  (∀ v, param_double_or pv "white_point" (f64 (-1) 0) = Ok v →
     develops (ToneReinhard_process filters nan_bits) "tone.reinhard"
       (ToneReinhardGenerator image (if SFltb (to_f32 v) (f_lit 0 1) then f_lit 1000000 1 else clamp_float (to_f32 v) (f_lit 1 10) (f_lit 10 1)))) ∧
  (∀ enabled, param_bool_or pv "toggle" true = Ok enabled →
     develops (ToneAcesFilmic_process filters) "tone.aces_filmic" (ToneAcesFilmicGenerator image (if enabled : bool then 1 else 0))) ∧
  (∀ strength radius threshold,
     clamped_param_float_or pv "strength" (f_lit 3 4) (f_lit 0 1) (f_lit 2 1) = Ok strength →
     clamped_param_int_or pv "radius" 1 1 32 = Ok radius → radius ≤ 2 →
     clamped_param_float_or pv "threshold" (f_lit 0 1) (f_lit 0 1) (f_lit 1 10) = Ok threshold →
     develops (SharpenEdgeAwareUsm_process filters nan_bits) "sharpen.edge_aware_usm"
       (SharpenEdgeAwareUsmGenerator width height image strength radius threshold)).
Proof using Hsize Hnan.
  intros E Hc Hreg image. unfold registered, tuned_entries in Hreg. rewrite !Forall_cons in Hreg. cbn [fst snd] in Hreg.
  destruct Hreg as (Rg & Rw & _ & Rf & Rr & Ra & Ru & _).
  split_and!.
  - intros radius eps Hr _ He. apply float_param_good in He as Ge; [|done..]. apply int_param_range in Hr as Br; [|lia].
    rewrite <-(stored_int radius), <-(stored_float eps) by (done || lia).
    apply (param_node_develops _ _ _ _ _ _ [4; 4]%nat _ [u32 radius; bits_of_float nan_bits eps] E (tc_guided a Hc) Rg); [|by block_fits].
    unfold guided_params. by rewrite Hr, Ok_bind, He, Ok_bind.
  - intros s Hs. apply float_param_good in Hs as Gs; [|done..]. rewrite <-(stored_float s) by done.
    apply (param_node_develops _ _ _ _ _ _ [4]%nat _ [bits_of_float nan_bits s] E (tc_wavelet a Hc) Rw); [|by block_fits].
    unfold wavelet_params. by rewrite Hs, Ok_bind.
  - intros ev co sa hi sh H1 H2 H3 H4 H5. apply float_param_good in H1 as G1; [|done..]. apply float_param_good in H2 as G2; [|done..].
    apply float_param_good in H3 as G3; [|done..]. apply float_param_good in H4 as G4; [|done..]. apply float_param_good in H5 as G5; [|done..].
    rewrite <-(stored_float ev), <-(stored_float co), <-(stored_float sa), <-(stored_float hi), <-(stored_float sh) by done.
    apply (param_node_develops _ _ _ _ _ _ [4; 4; 4; 4; 4]%nat _ [bits_of_float nan_bits ev; bits_of_float nan_bits co;
      bits_of_float nan_bits sa; bits_of_float nan_bits hi; bits_of_float nan_bits sh] E (tc_filmic a Hc) Rf);
      [|by block_fits]. unfold filmic_params. by rewrite H1, Ok_bind, H2, Ok_bind, H3, Ok_bind, H4, Ok_bind, H5, Ok_bind.
  - intros v Hv. set (wp := if SFltb _ _ then _ else _). assert (Gw : good 24 128 wp).
    { unfold wp. destruct (SFltb _ _); [done|]. apply clamp_good; [apply to_f32_good|done..]. }
    rewrite <-(stored_float wp) by done.
    apply (param_node_develops _ _ _ _ _ _ [4]%nat _ [bits_of_float nan_bits wp] E (tc_reinhard a Hc) Rr); [|by block_fits].
    unfold reinhard_params. by rewrite Hv, Ok_bind.
  - intros enabled He. rewrite <-(stored_int (if enabled then 1 else 0)) by (destruct enabled; lia).
    apply (param_node_develops _ _ _ _ _ _ [4]%nat _ [u32 (if enabled : bool then 1 else 0)] E (tc_aces a Hc) Ra); [|by block_fits].
    unfold aces_params. by rewrite He, Ok_bind.
  - intros st ra th H1 H2 _ H3. apply float_param_good in H1 as G1; [|done..]. apply int_param_range in H2 as B2; [|lia].
    apply float_param_good in H3 as G3; [|done..]. rewrite <-(stored_float st), <-(stored_int ra), <-(stored_float th) by (done || lia).
    apply (param_node_develops _ _ _ _ _ _ [4; 4; 4]%nat _ [bits_of_float nan_bits st; u32 ra; bits_of_float nan_bits th] E (tc_usm a Hc) Ru);
      [|by block_fits]. unfold usm_params. by rewrite H1, Ok_bind, H2, Ok_bind, H3, Ok_bind.
Qed.

(** *** The demosaic nodes *)

Record DemosaicFunctions : Type := mkDemosaic {
  demosaic_bilinear : aot local_buffer;
  demosaic_rcd : aot local_buffer;
  demosaic_amaze : aot local_buffer
}.

Record demosaic_compiled (a : DemosaicFunctions) : Prop := {
  dc_bilinear : compiled_demosaic (demosaic_bilinear a) DemosaicBilinearGenerator;
  dc_rcd : compiled_demosaic (demosaic_rcd a) DemosaicRcdGenerator;
  dc_amaze : compiled_demosaic (demosaic_amaze a) DemosaicAmazeGenerator
}.

Definition demosaic_entries (a : DemosaicFunctions) : list (string * HalideParamFilterEntry) :=
  [("demosaic_bilinear", demosaic_bilinear_param (demosaic_bilinear a)); ("demosaic_rcd", demosaic_rcd_param (demosaic_rcd a));
   ("demosaic_amaze", demosaic_amaze_param (demosaic_amaze a))].

(** The pattern of the input's metadata. *)
Definition mosaic_pattern : list Z := take 4 (cfa_pattern (view_of m)).

(** The samples of the input. *)
Definition mosaic_samples (x y : Z) : float32 := value_of f_zero (read_float_at im (y * width + x)).

Lemma supported_pattern :
  is_supported_bayer_cfa (view_of m) = true →
  bayer (pattern_of mosaic_pattern) ∧ length mosaic_pattern = 4%nat ∧ Forall2 fits (replicate 4 1%nat) mosaic_pattern.
Proof using.
  unfold is_supported_bayer_cfa, mosaic_pattern. intros [_ (p & Hp & Heq)%existsb_exists]%andb_true_iff.
  apply bool_decide_eq_true in Heq. rewrite <-Heq. apply list_elem_of_In in Hp. split; [by exists p|].
  unfold supported_bayer in Hp. rewrite !elem_of_cons, elem_of_nil in Hp.
  destruct Hp as [->|[->|[->|[->|[]]]]]; (split; [done|]); repeat (apply Forall2_cons; split; [done|]); by apply Forall2_nil.
Qed.

(** A call of a demosaic node: as [develops], and the output has no CFA any more. *)
Definition demosaics (process : SdkCompute → ParamView → list (option Buffer) → list (option Buffer) → list (option SdkBuilder) → sdk unit)
    (value : Z → Z → Z → Z) : Prop :=
  ∃ out h', process_node i o u process inst params w = (Ok (CPIPE_OK, None), finished o u w bo out h') ∧
    tells h "demosaic" h' ∧ calibration (metadata_ (bu_builder h')) ≫= cfa = None ∧ computes width height value out.

Lemma clear_cfa_record out fi fo :
  env fi fo →
  ∃ h', (_ ← builder_clear_cfa (builder_view u); builder_add_applied_step (builder_view u) "demosaic") (developed o w bo out)
    = (Ok tt, finished o u w bo out h') ∧ tells h "demosaic" h' ∧ calibration (metadata_ (bu_builder h')) ≫= cfa = None.
Proof using.
  intros E. pose proof (ne_builder _ _ _ _ _ _ _ (de_node E)) as Hb. pose proof (ne_open _ _ _ _ _ _ _ (de_node E)) as Hf.
  destruct (clear_cfa_open i o u w bi bo h (de_node E)) as (h1 & H1 & Hf1 & Hs1 & Hc1).
  exists (edited h1 (with_added_step "demosaic")). unfold tells. cbn [edited bu_builder metadata_ with_added_step applied_steps calibration].
  rewrite Hs1. split_and!; [|done|done]. unfold builder_clear_cfa, builder_add_applied_step, builder_call, mbind, sr_bind.
  cbn [builder_view sbu_suite sbu_impl null orb mbind option_bind developed with_store w_builders with_builders].
  rewrite Hb, H1. cbn [w_builders with_builders]. rewrite list_lookup_insert_eq by (by eapply lookup_lt_Some).
  rewrite (add_step_edits "demosaic" h1 Hf1). unfold finished. cbn [w_builders with_builders w_store w_instances].
  by rewrite list_insert_insert_eq.
Qed.

Lemma demosaic_develop name id bayer_name f algorithm :
  env R32_SFLOAT half → is_supported_bayer_cfa (view_of m) = true → compiled_demosaic f algorithm →
  find_filter (halide_param_filters filters) id = Some (demosaic_param f) →
  demosaics (demosaic_process filters name id bayer_name) (algorithm width height mosaic_samples (pattern_of mosaic_pattern)).
Proof using Hsize.
  intros E Hs Hc Hf. destruct (supported_pattern Hs) as (_ & Hl & Hfit). pose proof (de_width E). pose proof (de_height E).
  edestruct (submit_entry R32_SFLOAT id (demosaic_param f) (struct_bytes (replicate 4 1%nat) mosaic_pattern)
    (computes width height (algorithm width height mosaic_samples (pattern_of mosaic_pattern)))) as (out & Hout & Hsub);
    [exact E|exact Hf|eapply plane_dimensions; [apply E|done|lia..]|eapply rgba_dimensions; [apply E|lia..]| |].
  { intros hi ho Hhi Hho Ht1 Ht2 Hd1 Hd2 Hm1 Hm2. unfold demosaic_param. rewrite one_input_runs by done.
    rewrite (firstn_all2 mosaic_pattern) by lia. apply (Hc width height mem hi ho im om); [lia..| | | |done].
    - split; [done|exact Hd1|done|]. rewrite (di_len _ _ _ _ _ (de_in E)). done.
    - split; [done|exact Hd2|done|]. unfold memory_ok. rewrite (di_len _ _ _ _ _ (de_out E)). cbn [bytes_per_pixel]. lia.
    - rewrite Hhi, Hho. apply (ne_distinct _ _ _ _ _ _ _ (de_node E)). }
  destruct (clear_cfa_record out R32_SFLOAT half E) as (h' & Hr & Ht & Hcfa). exists out, h'. split_and!; [|done..].
  apply (process_node_exact i o u w) with (r := Ok tt); [apply E| |done|done].
  unfold demosaic_process. rewrite (lift_bind _ (Some vi, Some vo, builder_view u)) by done. cbn [optional_metadata].
  erewrite sr_bind_Ok by (eapply metadata_exact; apply E). rewrite (lift_bind _ (view_of m)) by apply calibration_exact.
  rewrite Hs. cbn [negb]. erewrite sr_bind_Ok by exact Hsub. exact Hr.
Qed.

(** C17: demosaicking, from the call of the plugin to the pixels.  On a dense plane of
    floats whose metadata has one of the four Bayer patterns, with the generated filters
    registered, a call of each of the three nodes succeeds, records the step, removes
    the CFA from the output's metadata, changes nothing else but the data of the output,
    and the output holds the interpolation of the input under exactly the pattern of the
    metadata, which is a Bayer pattern.  With any other pattern the calls report
    [CPIPE_UNSUPPORTED] and change nothing. *)
Theorem demosaic_develops (a : DemosaicFunctions) :
  env R32_SFLOAT half → demosaic_compiled a → registered (demosaic_entries a) →
  let pattern := pattern_of mosaic_pattern in
  if is_supported_bayer_cfa (view_of m) then
    bayer pattern ∧
    demosaics (DemosaicBilinear_process filters) (DemosaicBilinearGenerator width height mosaic_samples pattern) ∧
    demosaics (DemosaicRcd_process filters) (DemosaicRcdGenerator width height mosaic_samples pattern) ∧
    demosaics (DemosaicAmaze_process filters) (DemosaicAmazeGenerator width height mosaic_samples pattern)
  else
    process_node i o u (DemosaicBilinear_process filters) inst params w = (Ok (CPIPE_UNSUPPORTED, None), w) ∧
    process_node i o u (DemosaicRcd_process filters) inst params w = (Ok (CPIPE_UNSUPPORTED, None), w) ∧
    process_node i o u (DemosaicAmaze_process filters) inst params w = (Ok (CPIPE_UNSUPPORTED, None), w).
Proof using Hsize.
  intros E Hc Hreg pattern. unfold registered, demosaic_entries in Hreg. rewrite !Forall_cons in Hreg. cbn [fst snd] in Hreg.
  destruct Hreg as (Rb & Rr & Ra & _). destruct (is_supported_bayer_cfa (view_of m)) eqn:Hs.
  - split; [by apply supported_pattern|]. split_and!; (eapply demosaic_develop; [done..|apply Hc|done]).
  - assert (U : ∀ name id bayer_name, process_node i o u (demosaic_process filters name id bayer_name) inst params w = (Ok (CPIPE_UNSUPPORTED, None), w)).
    { intros name id bayer_name. apply (process_node_exact i o u w) with (r := Fail CPIPE_UNSUPPORTED (bayer_name +:+ " requires Bayer 2x2 CFA"));
        [apply E| |done|done]. unfold demosaic_process. rewrite (lift_bind _ (Some vi, Some vo, builder_view u)) by done. cbn [optional_metadata].
      erewrite sr_bind_Ok by (eapply metadata_exact; apply E). rewrite (lift_bind _ (view_of m)) by apply calibration_exact. by rewrite Hs. }
    split_and!; apply U.
Qed.

End Nodes.

(** ** Functions that do what Halide promises

    For every algorithm there is one: it writes the values sample by sample. *)

Definition write_rgba (width height : Z) (value : Z → Z → Z → Z) (om : bytes) : outcome :=
  match pixel_loop (λ x y mem, m ← foldM (λ mem c, host_write mem ((y * width + x) * 4 + c) (value x y c)) mem [0; 1; 2; 3]; Ok (CPIPE_OK, m))
          (pixels width height) om with
  | Ok (_, out) => (0, [Some out])
  | _ => (status_int CPIPE_FAILED, [])
  end.

Lemma write_rgba_computes width height value om :
  0 < width → 0 < height → width * height * 4 < 2 ^ 31 → memory_ok width height om →
  ∃ out, write_rgba width height value om = (0, [Some out]) ∧ computes width height value out.
Proof.
  intros Hw Hh Hs Ho. unfold write_rgba.
  destruct (rgba_loop width height om Hw Hh Hs Ho (λ x y mem,
    m ← foldM (λ mem c, host_write mem ((y * width + x) * 4 + c) (value x y c)) mem [0; 1; 2; 3]; Ok (CPIPE_OK, m)) value)
    as (out & -> & Hm & Hpx); [done|]. exists out. split; [done|]. by split.
Qed.

Definition run_algorithm {P} (algorithm : Z → Z → (Z → Z → Z → Z) → P → Z → Z → Z → Z) : aot P := λ hi p ho mem,
  match hb_dim hi, mem !! hb_host hi, mem !! hb_host ho with
  | dx :: dy :: _, Some (Some im), Some (Some om) =>
      write_rgba (hd_extent dx) (hd_extent dy) (algorithm (hd_extent dx) (hd_extent dy) (sample (hd_extent dx) im) p) om
  | _, _, _ => (status_int CPIPE_FAILED, [])
  end.

Lemma run_algorithm_compiled {P} (algorithm : Z → Z → (Z → Z → Z → Z) → P → Z → Z → Z → Z) : compiled (run_algorithm algorithm) algorithm.
Proof.
  intros width height mem hi ho im om p Hw Hh Hs Hi Ho _. unfold run_algorithm.
  rewrite (rv_shape _ _ _ _ _ Hi), (rv_memory _ _ _ _ _ Hi), (rv_memory _ _ _ _ _ Ho). cbn [hd_extent].
  by apply write_rgba_computes, (rv_size _ _ _ _ _ Ho).
Qed.

Definition run_demosaic (algorithm : Z → Z → (Z → Z → float32) → (Z → Z) → Z → Z → Z → Z) : aot local_buffer := λ hi p ho mem,
  match hb_dim hi, mem !! hb_host hi, mem !! hb_host ho with
  | dx :: dy :: _, Some (Some im), Some (Some om) =>
      write_rgba (hd_extent dx) (hd_extent dy) (algorithm (hd_extent dx) (hd_extent dy)
        (λ x y, value_of f_zero (read_float_at im (y * hd_extent dx + x))) (pattern_of (lb_values p))) om
  | _, _, _ => (status_int CPIPE_FAILED, [])
  end.

Lemma run_demosaic_compiled algorithm : compiled_demosaic (run_demosaic algorithm) algorithm.
Proof.
  intros width height mem hi ho im om p Hw Hh Hs Hi Ho _ _. unfold run_demosaic.
  rewrite (pv_shape _ _ _ _ _ Hi), (pv_memory _ _ _ _ _ Hi), (rv_memory _ _ _ _ _ Ho). cbn [hd_extent cfa_buffer lb_values].
  by apply write_rgba_computes, (rv_size _ _ _ _ _ Ho).
Qed.

(** A registry with some entries. *)
Definition registry_of (entries : list (string * HalideParamFilterEntry)) : HalideFilterRegistry :=
  mkFilters ∅ (list_to_map ((λ e, (e.1, Some e.2)) <$> entries)).

Lemma registry_registered entries : NoDup (entries.*1) → registered (registry_of entries) entries.
Proof.
  intros Hnd. apply Forall_forall. intros [name f] Hin. unfold find_filter, registry_of. cbn [halide_param_filters fst snd].
  rewrite (elem_of_list_to_map_1 _ name (Some f)); [reflexivity|by rewrite <-list_fmap_compose|]. apply list_elem_of_fmap. by exists (name, f).
Qed.

Local Abbreviation qnan := 0x7fc00000.
Local Abbreviation JT := (Tree.lib (λ _, None)).
Local Abbreviation hf := R16G16B16A16_SFLOAT.

#[local] Instance example_ops : HalideOps float32 Z := ieee_ops 0x7e00 (λ v, v) (λ v, v) (λ v _, v).

Definition example_tuned : TunedFunctions := mkTuned
  (run_algorithm (λ w h img p, DenoiseGuidedFilterGenerator w h img p.1 p.2))
  (run_algorithm (λ w h img, DenoiseWaveletBayesShrinkGenerator w h img)) (run_algorithm (λ w h img, DenoiseBm3dStep1Generator w h img))
  (run_algorithm (λ _ _ img, ToneFilmicRgbGenerator img)) (run_algorithm (λ _ _ img, ToneReinhardGenerator img))
  (run_algorithm (λ _ _ img, ToneAcesFilmicGenerator img))
  (run_algorithm (λ w h img p, SharpenEdgeAwareUsmGenerator w h img p.1.1 p.1.2 p.2)).

Definition example_demosaic : DemosaicFunctions := mkDemosaic
  (run_demosaic DemosaicBilinearGenerator) (run_demosaic DemosaicRcdGenerator) (run_demosaic DemosaicAmazeGenerator).

(** Reinhard without parameters, on two pixels of 1.0: the colours become one half,
    alpha stays. *)
Lemma tuned_nodes_develop_witness :
  let m := example_raw "k" [1] in
  let filters := registry_of (tuned_entries example_tuned) in
  let w := pair_world (pair_image hf m (concat (replicate 8 [0; 60]))) (pair_image hf m (replicate 16 0)) (pair_builder m) in
  ∃ w', process_node (J := JT) 0 1 0 (ToneReinhard_process filters qnan) 7 None w = (Ok (CPIPE_OK, None), w') ∧
    (cb_data <$> w_store w' !! 1%nat) = Some (Some (concat (replicate 2 [0; 56; 0; 56; 0; 56; 0; 60]))).
Proof.
  intros m filters w.
  destruct (tuned_nodes_develop (J := JT) filters qnan 0 1 0 7 None w (pair_image hf m (concat (replicate 8 [0; 60])))
    (pair_image hf m (replicate 16 0)) (pair_builder m) 2 1 (concat (replicate 8 [0; 60])) (replicate 16 0) m ltac:(lia) eq_refl example_tuned)
    as (_ & _ & _ & Hr & _).
  - eapply pair_develop; try reflexivity; [eapply one_blob; try reflexivity|]; apply bytes_ok_dec; vm_compute; reflexivity.
  - split; apply run_algorithm_compiled.
  - apply registry_registered. apply (bool_decide_unpack _). by vm_compute.
  - destruct (Hr (f64 (-1) 0) eq_refl) as (out & h' & Hcall & _). eexists. split; [exact Hcall|].
    clear - Hcall. vm_compute in Hcall. injection Hcall as <- _. by vm_compute.
Defined.

(** The bilinear node on two samples of 1.0. *)
Lemma demosaic_develops_witness :
  let m := example_raw "k" [1] in
  let filters := registry_of (demosaic_entries example_demosaic) in
  let im := struct_bytes [4; 4]%nat [0x3f800000; 0x3f800000] in
  let w := pair_world (pair_image R32_SFLOAT m im) (pair_image hf m (replicate 16 0)) (pair_builder m) in
  ∃ w', process_node (J := JT) 0 1 0 (DemosaicBilinear_process filters) 7 None w = (Ok (CPIPE_OK, None), w') ∧
    (cb_data <$> w_store w' !! 1%nat) = Some (Some (concat (replicate 8 [0; 60]))).
Proof.
  intros m filters im w.
  destruct (demosaic_develops (J := JT) filters 0 1 0 7 None w (pair_image R32_SFLOAT m im)
    (pair_image hf m (replicate 16 0)) (pair_builder m) 2 1 im (replicate 16 0) m ltac:(lia) example_demosaic)
    as (_ & Hr & _).
  - eapply pair_develop; try reflexivity; [eapply one_blob; try reflexivity|]; apply bytes_ok_dec; vm_compute; reflexivity.
  - split; apply run_demosaic_compiled.
  - apply registry_registered. apply (bool_decide_unpack _). by vm_compute.
  - destruct Hr as (out & h' & Hcall & _). eexists. split; [exact Hcall|].
    clear - Hcall. vm_compute in Hcall. injection Hcall as <- _. by vm_compute.
Defined.
