(* ===== verification/ColorNodes.v ===== *)
(** * The 3D LUT node and the exposure-fusion node

    Models nodes/color/lut3d.cpp, which loads the table named by a parameter and hands
    it to the filter in the parameter block, and nodes/tone/mertens_local.cpp, the one
    node with three input images.

    [lut_develops] follows a [process] call of the LUT node from the text of the file
    to the output samples; [mertens_develops] follows the fusion node. *)

From Stdlib Require Import ZArith Lia SpecFloat.
From stdpp Require Import prelude strings list gmap.
From S2P Require Import Prelude Core Json HalfFloat HostContext StateRes LutLoader Float32 Float64 ComputeContext OpcodeReader OpcodeList2.
From S2P Require Import OpcodeList3 LensBlob LensFilter GainFilter Sdk Nodes NodeContract PointFilters RawDevelop.
From S2P Require Import FloatValid WhiteBalance HalideStage Demosaic ToneStage DenoiseStage FilterDispatch.

Local Open Scope Z_scope.

Local Abbreviation process_method := (SdkCompute → ParamView → list (option Buffer) → list (option Buffer) →
  list (option SdkBuilder) → sdk unit).

Section Processes.

Context {J : JsonLib}.

Variables (filters : HalideFilterRegistry) (nan_bits : Z).

(** ** The 3D LUT node *)

Definition require_rgba16_pair (input output : Buffer) : sdk unit :=
  _ ← check_formats input output R16G16B16A16_SFLOAT R16G16B16A16_SFLOAT "color.3d_lut format mismatch";
  input_dims ← buffer_dims input;
  output_dims ← buffer_dims output;
  if bool_decide (input_dims = output_dims) then mret tt else failS CPIPE_BAD_INDEX "color.3d_lut dimension mismatch".

(** The header and the words of the table. *)
Definition make_param_blob_words (lut : Cube3dLut) (interpolation : Z) : bytes :=
  struct_bytes [4; 4; 4]%nat [lut_size lut; u32 (len (lut_values lut)); interpolation] ++
  struct_bytes (replicate (length (lut_values lut)) 4%nat) (bits_of_float nan_bits <$> lut_values lut).

(** [files]: the text of the file at a path, if it can be opened. *)
Definition Color3dLut_process (files : string → option string) : process_method := λ compute params inputs outputs out_metadata,
  '(i, o, u) ← lift (one_to_one inputs outputs out_metadata "color.3d_lut missing buffers");
  _ ← require_rgba16_pair i o;
  lut_path ← lift (param_string params "lut_path");
  lut ← lift (load lut_path (files lut_path));
  interpolation ← lift (param_string_or params "interpolation" "tetrahedral");
  let interpolation_id := if String.eqb interpolation "trilinear" then 1 else 0 in
  _ ← compute_submit_halide_with_params filters compute "color_3d_lut" inputs outputs (make_param_blob_words lut interpolation_id);
  builder_add_applied_step u "color.3d_lut".

(** ** The exposure-fusion node *)

Definition require_rgba16_stack (inputs : list Buffer) (output : Buffer) : sdk unit :=
  output_format ← buffer_format output;
  if negb (output_format =? format_value R16G16B16A16_SFLOAT)
  then failS CPIPE_BAD_PRECISION "tone.mertens_local output format mismatch" else
  output_dims ← buffer_dims output;
  foldr (λ input rest,
    input_format ← buffer_format input;
    if negb (input_format =? format_value R16G16B16A16_SFLOAT)
    then failS CPIPE_BAD_PRECISION "tone.mertens_local input format mismatch" else
    input_dims ← buffer_dims input;
    if bool_decide (input_dims = output_dims) then rest else failS CPIPE_BAD_INDEX "tone.mertens_local dimension mismatch")
    (mret tt) inputs.

Definition mertens_params (p : ParamView) : res bytes :=
  contrast ← clamped_param_float_or p "weight_contrast" (f_lit 0 1) (f_lit 0 1) (f_lit 2 1);
  saturation ← clamped_param_float_or p "weight_saturation" (f_lit 1 1) (f_lit 0 1) (f_lit 2 1);
  well_exposedness ← clamped_param_float_or p "weight_well_exposedness" (f_lit 1 1) (f_lit 0 1) (f_lit 2 1);
  Ok (float_word nan_bits contrast ++ float_word nan_bits saturation ++ float_word nan_bits well_exposedness).

Definition ToneMertensLocal_process : process_method := λ compute params inputs outputs out_metadata,
  match inputs, outputs, out_metadata with
  | [Some under; Some normal; Some over], [Some output], Some u :: _ =>
      _ ← require_rgba16_stack [under; normal; over] output;
      bytes ← lift (mertens_params params);
      _ ← compute_submit_halide_with_params filters compute "tone_mertens_local" inputs outputs bytes;
      builder_add_applied_step u "tone_mertens_local"
  | _, _, _ => failS CPIPE_BAD_INDEX "tone.mertens_local missing buffers"
  end.

End Processes.

(** ** What a file holds are floats *)

Lemma decimal_good neg m e : good 24 128 (decimal_float 24 128 neg m e).
Proof.
  destruct m as [|m|m]; try done. cbn [decimal_float]. destruct (Z.leb_spec 0 e) as [|He]; [apply round_good; lia|].
  assert (∃ d, 10 ^ (- e) = Z.pos d) as [d ->].
  { pose proof (Z.pow_pos_nonneg 10 (- e) ltac:(lia) ltac:(lia)) as Hp. destruct (10 ^ (- e)) as [|d|d]; try lia. by exists d. }
  destruct (div_core_good 24 128 m 0 d 0) as [Hq Hx].
  destruct (SFdiv_core_binary _ _ _ _ _ _) as [[q e'] l]. apply round_aux_good; [lia|done..].
Qed.

Lemma stream_f32_good s v r : stream_f32 s = Some (v, r) → good 24 128 v.
Proof.
  unfold stream_f32, stream_float. destruct (take_sign _) as [neg s1]. destruct (take_mantissa s1) as [[[m k] s2]|]; [|done].
  cbn [mbind option_bind]. destruct (take_exponent s2) as [[e s3]|]; [|done]. cbn [mbind option_bind].
  pose proof (decimal_good neg m (e - k)) as Hg. by destruct (decimal_float _ _ _ _ _); intros [= <- <-].
Qed.

Lemma stream_rgb_good s r g b rest : stream_rgb s = Some (r, g, b, rest) → good 24 128 r ∧ good 24 128 g ∧ good 24 128 b.
Proof.
  unfold stream_rgb. destruct (stream_f32 s) as [[r' s1]|] eqn:H1; [|done]. cbn [mbind option_bind].
  destruct (stream_f32 s1) as [[g' s2]|] eqn:H2; [|done]. cbn [mbind option_bind].
  destruct (stream_f32 s2) as [[b' s3]|] eqn:H3; [|done]. cbn [mbind option_bind]. intros [= <- <- <- <-].
  split_and!; by eapply stream_f32_good.
Qed.

Lemma cube_rows_good input : Forall (good 24 128) (concat (cube_rows input)).
Proof.
  apply Forall_concat, Forall_forall. intros row (line & _ & Hr)%list_elem_of_omap. unfold cube_row in Hr.
  destruct (stream_string _) as [[? ?]|]; [simpl in Hr|done]. destruct (decide _); [done|].
  destruct (stream_rgb _) as [[[[? ?] ?] ?]|] eqn:Hs; [|done]. injection Hr as <-. apply stream_rgb_good in Hs as (? & ? & ?). by repeat constructor.
Qed.

Lemma write_at_good (l l' : list float32) i v : Forall (good 24 128) l → good 24 128 v → write_at l i v = Ok l' → Forall (good 24 128) l'.
Proof. intros Hl Hv. unfold write_at. case_match; [|done]. intros [= <-]. by apply Forall_insert. Qed.

Lemma spi3d_loop_good size fuel : ∀ values seen input values' seen',
  Forall (good 24 128) values → spi3d_loop fuel size (values, seen) input = Ok (values', seen') → Forall (good 24 128) values'.
Proof.
  induction fuel as [|fuel IH]; intros values seen input values' seen' Hv; [done|]. cbn [spi3d_loop].
  destruct (stream_spi_row input) as [[row rest]|] eqn:Hr; [|by intros [= <- <-]].
  destruct (spi3d_row size (values, seen) row) as [[v2 s2]| | |] eqn:Hw; [|done..]. rewrite Ok_bind. apply IH. clear IH.
  unfold stream_spi_row in Hr. destruct (stream_int input) as [[? ?]|]; [cbn [mbind option_bind] in Hr|done].
  destruct (stream_int _) as [[? ?]|]; [cbn [mbind option_bind] in Hr|done].
  destruct (stream_int _) as [[? ?]|]; [cbn [mbind option_bind] in Hr|done].
  destruct (stream_rgb _) as [[[[cr cg] cb] ?]|] eqn:Hs; [cbn [mbind option_bind] in Hr|done]. injection Hr as <- <-.
  apply stream_rgb_good in Hs as (Hr & Hg & Hb). unfold spi3d_row in Hw. cbn [sr_r sr_g sr_b sr_rgb] in Hw. case_match; [done|].
  destruct (write_at values _ cr) as [l1| | |] eqn:H1; [rewrite Ok_bind in Hw|done..].
  destruct (write_at l1 _ cg) as [l2| | |] eqn:H2; [rewrite Ok_bind in Hw|done..].
  destruct (write_at l2 _ cb) as [l3| | |] eqn:H3; [rewrite Ok_bind in Hw|done..].
  destruct (write_at seen _ true) as [sn| | |]; [rewrite Ok_bind in Hw|done..]. injection Hw as <- <-. eauto using write_at_good.
Qed.

Lemma load_good path file lut : load path file = Ok lut → Forall (good 24 128) (lut_values lut).
Proof.
  unfold load. destruct file as [input|]; [|done]. destruct (decide _); [|destruct (decide _); [|done]].
  - intros Hl. pose proof (load_cube_spec input) as Hs. rewrite Hl in Hs. destruct Hs as (size & -> & _). apply cube_rows_good.
  - unfold load_spi3d. destruct (spi3d_header input) as [[size rest]| | |]; [rewrite Ok_bind|done..].
    destruct (spi3d_loop _ _ _ _) as [[values seen]| | |] eqn:Hloop; [rewrite Ok_bind|done..]. destruct (negb _); [done|].
    intros [= <-]. eapply spi3d_loop_good, Hloop. by apply Forall_replicate.
Qed.

(** ** The block of the LUT node *)

(** The samples of a table as a buffer: entry [i] of a channel. *)
Definition lut_table (lut : Cube3dLut) (channel i : Z) : float32 := default f_zero (lut_values lut !! Z.to_nat (3 * i + channel)).

(** The same from the words of a block. *)
Definition word_table (words : list Z) (channel i : Z) : float32 := float_of_bits (field words (Z.to_nat (3 * i + channel))).

(** The grid of the filter and that of the loader are the same. *)
Lemma lut_table_at lut r g b :
  2 ≤ lut_size lut ≤ 256 → len (lut_values lut) = 3 * (lut_size lut * lut_size lut * lut_size lut) → LutLoader.point_ok (lut_size lut) r g b →
  lut_at lut r g b = Ok ((λ c, lut_sample (lut_table lut) (lut_size lut) c r g b) <$> [0; 1; 2]).
Proof.
  intros Hs Hl Hp. destruct lut as [n values]. cbn [lut_size lut_values] in *. rewrite (lut_at_sample n Hs) by done.
  destruct (grid_bound n Hs r g b Hp) as [Hlo Hhi].
  destruct (sample_defined n Hs values (grid_index n r g b) Hl) as (x & y & z & Hv); [done|]. rewrite Hv.
  unfold LutLoader.sample in Hv. unfold lut_sample, lut_table. cbn [lut_values].
  replace (lut_index n r g b) with (grid_index n r g b) by (unfold lut_index, grid_index; ring). cbn [fmap list_fmap].
  rewrite Z.add_0_r. destruct (values !! Z.to_nat (3 * grid_index n r g b)); [|done]. cbn [mbind option_bind] in Hv.
  destruct (values !! Z.to_nat (3 * grid_index n r g b + 1)); [|done]. cbn [mbind option_bind] in Hv.
  destruct (values !! Z.to_nat (3 * grid_index n r g b + 2)); [|done]. cbn [mbind option_bind] in Hv. cbn [default]. by simplify_eq.
Qed.

Lemma word_table_lut nan_bits lut channel i :
  float_of_bits (u32 nan_bits) = S754_nan → Forall (good 24 128) (lut_values lut) →
  word_table (bits_of_float nan_bits <$> lut_values lut) channel i = lut_table lut channel i.
Proof.
  intros Hn Hg. unfold word_table, lut_table, field. rewrite list_lookup_fmap.
  destruct (lut_values lut !! _) as [v|] eqn:Hv; [|done]. cbn [fmap option_fmap option_map default].
  apply float_bits_roundtrip; [|done]. by eapply Forall_lookup in Hv.
Qed.

(** The buffer the dispatch function makes of a table with [n] points per axis. *)
Definition lut_buffer (n : Z) (words : list Z) : local_buffer := mkLocal [mkHDim 0 3 1; mkHDim 0 (n * n * n) 3] words.

(** The dispatch function accepts the node's block and finds the table in it. *)
Lemma lut_block_runs nan_bits (f : aot (local_buffer * Z * Z)) lut id hi ho mem :
  2 ≤ lut_size lut ≤ 256 → len (lut_values lut) = 3 * (lut_size lut * lut_size lut * lut_size lut) → 0 ≤ id < 2 →
  color_3d_lut_param f [hi] [ho] (make_param_blob_words nan_bits lut id) mem
  = f hi (lut_buffer (lut_size lut) (bits_of_float nan_bits <$> lut_values lut), lut_size lut, id) ho mem.
Proof.
  intros Hs Hl Hid. destruct lut as [n values]. cbn [lut_size lut_values] in *. set (words := bits_of_float nan_bits <$> values).
  assert (n * n * n ≤ 256 * 256 * 256) by nia. assert (8 ≤ n * n * n) by nia.
  assert (u32 (len values) = len values) as Hu by (unfold u32, wrap; apply Z.mod_small; lia).
  assert (Hh : Forall2 fits [4; 4; 4]%nat [n; u32 (len values); id])
    by (rewrite Hu; repeat (apply Forall2_cons; split; [unfold fits; lia|]); by apply Forall2_nil).
  assert (Hw : Forall2 fits (replicate (length values) 4%nat) words).
  { apply Forall2_same_length_lookup. split; [unfold words; by rewrite length_replicate, length_fmap|].
    intros k x y [-> _]%lookup_replicate Hy. unfold words in Hy. rewrite list_lookup_fmap in Hy.
    destruct (values !! k); [|done]. injection Hy as <-. apply word_fits. }
  set (header := struct_bytes [4; 4; 4]%nat [n; u32 (len values); id]). set (body := struct_bytes (replicate (length values) 4%nat) words).
  assert (Lh : len header = 12) by (unfold len, header; by rewrite length_struct_bytes).
  assert (Lb : len body = len values * 4).
  { unfold len, body. rewrite length_struct_bytes; [|unfold words; by rewrite length_replicate, length_fmap].
    rewrite sum_list_replicate. lia. }
  unfold color_3d_lut_param, make_param_blob_words. cbn [lut_size lut_values]. fold words header body.
  rewrite len_app, Lh, Lb. rewrite (proj2 (Z.ltb_ge _ _)) by lia.
  rewrite (read_struct_at [4; 4; 4]%nat [n; u32 (len values); id] [] body 0 Hh eq_refl : read_struct _ (header ++ body) 0 = _).
  rewrite Hu, (proj2 (Z.ltb_ge n 2)), (proj2 (Z.eqb_neq (len values) 0)) by lia.
  assert (len values mod 3 = 0) as -> by (rewrite Hl, Z.mul_comm; by apply Z.mod_mul).
  rewrite (proj2 (Z.ltb_ge _ n)) by lia. cbn [Z.eqb negb orb].
  assert (read_struct (replicate (Z.to_nat (len values)) 4%nat) (header ++ body) 12 = Ok words) as ->.
  { unfold len. rewrite Nat2Z.id. pose proof (read_struct_at _ _ header [] 12 Hw ltac:(lia)) as Hr. by rewrite app_nil_r in Hr. }
  assert (len values / 3 = n * n * n) as -> by (rewrite Hl, Z.mul_comm; by apply Z.div_mul).
  rewrite Z.eqb_refl. cbn [negb orb]. unfold lut_buffer. by rewrite !i32_small by lia.
Qed.

(** ** From the call to the pixels *)

(** The function Halide compiled from the LUT generator: the table must have an entry
    for every point the algorithm can read. *)
Definition compiled_lut `{HalideOps float32 Z} (f : aot (local_buffer * Z * Z)) : Prop :=
  ∀ width height mem hi ho im om n words interpolation,
    0 < width → 0 < height → width * height * 4 < 2 ^ 31 → rgba_view width height mem hi im → rgba_view width height mem ho om →
    hb_host hi ≠ hb_host ho → 2 ≤ n → len words = 3 * (n * n * n) →
    ∃ out, f hi (lut_buffer n words, n, interpolation) ho mem = (0, [Some out]) ∧
      computes width height (Color3dLutGenerator (word_table words) n (sample width im) interpolation) out.

Lemma dims_at w loc b d0 d1 rest :
  handle_of w (Some (Some loc)) = Some (make_buffer_handle (Some b)) → ndim (cb_layout b) = 2 →
  dims (cb_layout b) = d0 :: d1 :: rest → buffer_dims (buffer_view loc) w = (Ok [d0; d1], w).
Proof.
  intros Hh Hn Hd. unfold buffer_dims, buffer_call, mbind, sr_bind. cbn [null orb sb_suite sb_impl buffer_view].
  rewrite Hh. unfold get_dims, copy8. cbn. by rewrite Hn, Hd.
Qed.

Section Lut.

Context {J : JsonLib} {O : HalideOps float32 Z}.

Variables (filters : HalideFilterRegistry) (nan_bits : Z) (files : string → option string) (i o u inst : nat) (params : option json).
Variables (w : World) (bi bo : CpuBuffer) (h : cpipe_metadata_builder_s) (width height : Z) (im om : bytes) (m : BufferMetadata).

Local Abbreviation half := R16G16B16A16_SFLOAT.
Local Abbreviation env := (develop_env i o u inst w bi bo h half half width height im om m).
Local Abbreviation pv := (mkParamView params (Some SuiteParam)).
Local Abbreviation run := (process_node i o u (Color3dLut_process filters nan_bits files) inst params w).

Hypothesis Hsize : width * height * 4 < 2 ^ 31.
Hypothesis Hnan : float_of_bits (u32 nan_bits) = S754_nan.

Lemma pair_exact : env → require_rgba16_pair (buffer_view i) (buffer_view o) w = (Ok tt, w).
Proof using.
  intros E. unfold require_rgba16_pair. erewrite sr_bind_Ok by (eapply formats_exact; apply E).
  destruct (di_dims _ _ _ _ _ (de_in E)) as [r1 H1]. destruct (di_dims _ _ _ _ _ (de_out E)) as [r2 H2].
  erewrite sr_bind_Ok by (eapply dims_at; [eapply handle_in, E|apply E|exact H1]).
  erewrite sr_bind_Ok by (eapply dims_at; [eapply handle_out, E|apply E|exact H2]). by rewrite bool_decide_true.
Qed.

(** The submission: a loaded table reaches the filter unchanged. *)
Lemma submit_lut f lut id :
  env → compiled_lut f → find_filter (halide_param_filters filters) "color_3d_lut" = Some (color_3d_lut_param f) →
  2 ≤ lut_size lut ≤ 256 → len (lut_values lut) = 3 * (lut_size lut * lut_size lut * lut_size lut) →
  Forall (good 24 128) (lut_values lut) → 0 ≤ id < 2 →
  ∃ out, computes width height (Color3dLutGenerator (lut_table lut) (lut_size lut) (sample width im) id) out ∧
    compute_submit_halide_with_params filters compute_view "color_3d_lut" [Some (buffer_view i)] [Some (buffer_view o)]
      (make_param_blob_words nan_bits lut id) w = (Ok tt, developed o w bo out).
Proof using Hsize Hnan.
  intros E Hc Hf Hs Hl Hg Hid. pose proof (de_width E). pose proof (de_height E).
  eapply (submit_entry filters i o u inst w bi bo h width height im om m half);
    [exact E|exact Hf|eapply rgba_dimensions; [apply E|lia..]|eapply rgba_dimensions; [apply E|lia..]|].
  intros hi ho Hhi Hho Ht1 Ht2 Hd1 Hd2 Hm1 Hm2. rewrite lut_block_runs by done.
  destruct (Hc width height (memory (w_store w)) hi ho im om (lut_size lut) (bits_of_float nan_bits <$> lut_values lut) id)
    as (out & Hout & Hm & Hpx); [lia..| | | |lia| |].
  - split; [done|exact Hd1|done|]. unfold memory_ok. rewrite (di_len _ _ _ _ _ (de_in E)). cbn [bytes_per_pixel]. lia.
  - split; [done|exact Hd2|done|]. unfold memory_ok. rewrite (di_len _ _ _ _ _ (de_out E)). cbn [bytes_per_pixel]. lia.
  - rewrite Hhi, Hho. apply (ne_distinct _ _ _ _ _ _ _ (de_node E)).
  - unfold len. by rewrite length_fmap.
  - exists out. split; [done|]. split; [done|]. intros x y c Hxy Hcc. rewrite Hpx by done. unfold Color3dLutGenerator.
    destruct (c =? 3); [done|]. do 3 f_equal.
    rewrite (lut_value_reads _ (lut_table lut)); [done|lia..|]. intros. by apply word_table_lut.
Qed.

(** C21: colour grading, from the text of the file to the pixels.  On dense images of
    half floats, with the generated filter registered, a call of the 3D LUT node loads
    the file its parameter names.  When the file is not accepted, the call reports the
    loader's status and changes nothing.  Otherwise the call succeeds, records the step,
    changes nothing but the data of the output, and every output sample is the
    interpolation, of the kind the parameter asks for, in the loaded table: the grid
    point the filter reads is the one [Cube3dLut::at] gives, no value is lost in the
    block, and every read is inside the table. *)
Theorem lut_develops (f : aot (local_buffer * Z * Z)) (path interpolation : string) :
  env → compiled_lut f → find_filter (halide_param_filters filters) "color_3d_lut" = Some (color_3d_lut_param f) →
  param_string pv "lut_path" = Ok path → param_string_or pv "interpolation" "tetrahedral" = Ok interpolation →
  match load path (files path) with
  | Ok lut =>
      (∀ r g b, LutLoader.point_ok (lut_size lut) r g b →
         lut_at lut r g b = Ok ((λ c, lut_sample (lut_table lut) (lut_size lut) c r g b) <$> [0; 1; 2])) ∧
      ∃ out h', run = (Ok (CPIPE_OK, None), finished o u w bo out h') ∧ tells h "color.3d_lut" h' ∧
        computes width height (Color3dLutGenerator (lut_table lut) (lut_size lut) (sample width im)
          (if String.eqb interpolation "trilinear" then 1 else 0)) out
  | Fail status _ => run = (Ok (status, None), w)
  | _ => False
  end.
Proof using Hsize Hnan.
  intros E Hc Hf Hp Hi. pose proof (load_lut_wf path (files path)) as Hwf.
  assert (P : ∀ r w', (lut ← lift (load path (files path)); interpolation ← lift (param_string_or pv "interpolation" "tetrahedral");
      _ ← compute_submit_halide_with_params filters compute_view "color_3d_lut" [Some (buffer_view i)] [Some (buffer_view o)]
        (make_param_blob_words nan_bits lut (if String.eqb interpolation "trilinear" then 1 else 0));
      builder_add_applied_step (builder_view u) "color.3d_lut") w = (r, w') →
    r ≠ Thrown aborted → r ≠ Undef → run = (Ok (seen_status r, None), w')).
  { intros r w' Hr Ha Hu. apply (process_node_exact i o u w); [apply E| |done..]. unfold Color3dLut_process.
    rewrite (lift_bind _ (buffer_view i, buffer_view o, builder_view u)) by done. erewrite sr_bind_Ok by (by apply pair_exact).
    by rewrite (lift_bind _ path) by done. }
  destruct (load path (files path)) as [lut|status msg| |] eqn:Hload; [|by apply (P (Fail status msg))|done..].
  destruct Hwf as (Hs & Hl & _). pose proof (load_good _ _ _ Hload) as Hg. split; [intros; by apply lut_table_at|].
  destruct (submit_lut f lut (if String.eqb interpolation "trilinear" then 1 else 0) E Hc Hf Hs Hl Hg) as (out & Hout & Hsub);
    [case_match; lia|].
  destruct (record_exact i o u w bi bo h (de_node E) "color.3d_lut" out) as (h' & Hr & Ht). exists out, h'. split_and!; [|done..].
  apply (P (Ok tt)); [|done..]. rewrite (lift_bind _ lut) by done. rewrite (lift_bind _ interpolation) by done.
  by erewrite sr_bind_Ok by exact Hsub.
Qed.

End Lut.

(** ** Exposure fusion *)

Section Mertens.

Context {J : JsonLib} {O : HalideOps float32 Z}.

Variables (filters : HalideFilterRegistry) (nan_bits : Z) (under normal over o u inst : nat) (params : option json).
Variables (w : World) (bu bn bv bo : CpuBuffer) (h : cpipe_metadata_builder_s) (width height : Z) (mu mn mv om : bytes).

Local Abbreviation half := R16G16B16A16_SFLOAT.
Local Abbreviation pv := (mkParamView params (Some SuiteParam)).
Local Abbreviation inputs := [Some (buffer_view under); Some (buffer_view normal); Some (buffer_view over)].
Local Abbreviation mem := (memory (w_store w)).

(** The function Halide compiled from the fusion generator. *)
Definition compiled_mertens
    (f : halide_buffer_t → halide_buffer_t → halide_buffer_t → MertensWeights float32 → halide_buffer_t → memories → outcome) : Prop :=
  ∀ width height mem hu hn hv ho mu mn mv om weights,
    0 < width → 0 < height → width * height * 4 < 2 ^ 31 → rgba_view width height mem hu mu → rgba_view width height mem hn mn →
    rgba_view width height mem hv mv → rgba_view width height mem ho om → hb_host ho ∉ [hb_host hu; hb_host hn; hb_host hv] →
    ∃ out, f hu hn hv weights ho mem = (0, [Some out]) ∧
      computes width height (ToneMertensLocalGenerator (sample width mu) (sample width mn) (sample width mv) weights) out.

(** A call on three images and an output, four distinct buffers of the same size. *)
Record stack_env : Prop := {
  se_node : node_env under o u w bu bo h;
  se_instance : inst ∈ w_instances w;
  se_normal : w_store w !! normal = Some bn ∧ ready (w_store w) normal;
  se_over : w_store w !! over = Some bv ∧ ready (w_store w) over;
  se_distinct : NoDup [under; normal; over; o];
  se_dense_under : dense_image half width height bu mu;
  se_dense_normal : dense_image half width height bn mn;
  se_dense_over : dense_image half width height bv mv;
  se_dense_out : dense_image half width height bo om;
  se_size : 0 < width ∧ 0 < height ∧ width * height * 4 < 2 ^ 31
}.

Hypothesis E : stack_env.
Hypothesis Hnan : float_of_bits (u32 nan_bits) = S754_nan.

Lemma stored_at loc b : w_store w !! loc = Some b → handle_of w (Some (Some loc)) = Some (make_buffer_handle (Some b)).
Proof using. intros Hb. unfold handle_of. simpl. by rewrite Hb. Qed.

(** What the node asks of one image. *)
Lemma image_exact loc b data :
  w_store w !! loc = Some b → dense_image half width height b data →
  buffer_format (buffer_view loc) w = (Ok (format_value half), w) ∧ buffer_dims (buffer_view loc) w = (Ok [width; height], w).
Proof using.
  intros Hb Hd. destruct (di_dims _ _ _ _ _ Hd) as [rest Hr]. split.
  - rewrite (format_exact w loc b) by (by apply stored_at). by rewrite (di_format _ _ _ _ _ Hd).
  - eapply dims_at; [by apply stored_at|apply Hd|exact Hr].
Qed.

Lemma stack_exact : require_rgba16_stack (buffer_view <$> [under; normal; over]) (buffer_view o) w = (Ok tt, w).
Proof using E.
  destruct E as [Hn _ [En _] [Ev _] _ Du Dn Dv Do _].
  destruct (image_exact _ _ _ (ne_out _ _ _ _ _ _ _ Hn) Do) as [Fo So]. destruct (image_exact _ _ _ (ne_in _ _ _ _ _ _ _ Hn) Du) as [Fu Su].
  destruct (image_exact _ _ _ En Dn) as [Fn Sn]. destruct (image_exact _ _ _ Ev Dv) as [Fv Sv].
  unfold require_rgba16_stack. cbn [fmap list_fmap foldr]. erewrite sr_bind_Ok by exact Fo. cbn [Z.eqb negb]. rewrite Z.eqb_refl. cbn [negb].
  erewrite sr_bind_Ok by exact So.
  do 3 (erewrite sr_bind_Ok by eassumption; rewrite Z.eqb_refl; cbn [negb]; erewrite sr_bind_Ok by eassumption; rewrite bool_decide_true by done).
  done.
Qed.

(** The description a submission makes of a dense image. *)
Lemma described_rgba access loc b data hb :
  w_store w !! loc = Some b → dense_image half width height b data → describes (w_store w) access loc hb →
  hb_host hb = loc ∧ rgba_view width height mem hb data.
Proof using E.
  intros Hb Hd (b' & Hb' & Hh & Ht & _ & Hdim). rewrite Hb in Hb'. injection Hb' as <-. destruct (se_size E) as (? & ? & ?).
  rewrite (rgba_dimensions width height b data Hd) in Hdim by lia. injection Hdim as Hdim. split; [done|]. split.
  - by rewrite Ht, (di_format _ _ _ _ _ Hd).
  - exact (eq_sym Hdim).
  - unfold memory. rewrite list_lookup_fmap, Hh, Hb. simpl. by rewrite (di_data _ _ _ _ _ Hd).
  - unfold memory_ok. rewrite (di_len _ _ _ _ _ Hd). cbn [bytes_per_pixel]. lia.
Qed.

(** The submission: the three images in their order and the weights reach the filter. *)
Lemma submit_mertens f contrast saturation exposedness :
  compiled_mertens f → find_filter (halide_param_filters filters) "tone_mertens_local" = Some (tone_mertens_local_param f) →
  good 24 128 contrast → good 24 128 saturation → good 24 128 exposedness →
  ∃ out, computes width height (ToneMertensLocalGenerator (sample width mu) (sample width mn) (sample width mv)
      (mkMertens contrast saturation exposedness)) out ∧
    compute_submit_halide_with_params filters compute_view "tone_mertens_local" inputs [Some (buffer_view o)]
      (float_word nan_bits contrast ++ float_word nan_bits saturation ++ float_word nan_bits exposedness) w
    = (Ok tt, developed o w bo out).
Proof using E Hnan.
  intros Hc Hf Gc Gs Ge. destruct (se_size E) as (? & ? & ?). pose proof (se_node E) as Henv.
  set (fields := [bits_of_float nan_bits contrast; bits_of_float nan_bits saturation; bits_of_float nan_bits exposedness]).
  change (_ ++ _ ++ _) with (struct_bytes [4; 4; 4]%nat fields).
  assert (Hfit : Forall2 fits [4; 4; 4]%nat fields) by (repeat (apply Forall2_cons; split; [apply word_fits|]); by apply Forall2_nil).
  destruct (submit_distinct filters "tone_mertens_local" _ Hf [under; normal; over] [o] (struct_bytes [4; 4; 4]%nat fields) (w_store w))
    as (his & hos & Hi & Ho & Hs); [|exact (se_distinct E)|].
  { repeat constructor; [apply Henv|apply (se_normal E)|apply (se_over E)|apply Henv]. }
  destruct (Forall2_cons_inv_l _ _ _ _ Hi) as (hu & l1 & Hu & (hn & l2 & Hn & (hv & l3 & Hv & ->%Forall2_nil_inv_l & ->)%Forall2_cons_inv_l & ->)%Forall2_cons_inv_l & ->).
  destruct (Forall2_cons_inv_l _ _ _ _ Ho) as (ho & l4 & Hout & ->%Forall2_nil_inv_l & ->).
  destruct (described_rgba _ _ _ _ _ (ne_in _ _ _ _ _ _ _ Henv) (se_dense_under E) Hu) as [Eu Vu].
  destruct (described_rgba _ _ _ _ _ (proj1 (se_normal E)) (se_dense_normal E) Hn) as [En Vn].
  destruct (described_rgba _ _ _ _ _ (proj1 (se_over E)) (se_dense_over E) Hv) as [Ev Vv].
  destruct (described_rgba _ _ _ _ _ (ne_out _ _ _ _ _ _ _ Henv) (se_dense_out E) Hout) as [Eo Vo].
  destruct (Hc width height mem hu hn hv ho mu mn mv om (mkMertens contrast saturation exposedness)) as (out & Hrun & Hpx); try done.
  { rewrite Eu, En, Ev, Eo. pose proof (se_distinct E) as Hd. rewrite !NoDup_cons in Hd. set_solver. }
  exists out. split; [done|]. unfold tone_mertens_local_param in Hs. rewrite with_block_runs in Hs by done.
  change (field fields 0) with (bits_of_float nan_bits contrast) in Hs. change (field fields 1) with (bits_of_float nan_bits saturation) in Hs.
  change (field fields 2) with (bits_of_float nan_bits exposedness) in Hs. rewrite !(stored_float nan_bits Hnan), Hrun in Hs by done.
  unfold compute_submit_halide_with_params. simpl null. cbn [sc_suite compute_view].
  unfold raw_handles, mbind, sr_bind, lift, gets. cbn [foldM mbind res_bind app buffer_view sb_impl sc_impl_null].
  change (submitted (submit_halide_with_params filters "tone_mertens_local" (Some <$> [under; normal; over]) (Some <$> [o])
    (take (length (struct_bytes [4; 4; 4]%nat fields)) (struct_bytes [4; 4; 4]%nat fields)) (w_store w))
    "submit_halide_with_params failed" w = (Ok tt, developed o w bo out)).
  rewrite firstn_all, Hs. unfold submitted, developed. by rewrite (write_back_out under o u w bu bo h Henv).
Qed.

(** The call of the node at its plugin's entry point. *)
Definition mertens_call : sdk (cpipe_status_t * option nat) :=
  dispatch (T := class_of (ToneMertensLocal_process filters nan_bits)) "process" false (Some inst) params
    (CtxProcess (mkProcessCtx false [Some (Some under); Some (Some normal); Some (Some over)] [Some (Some o)] (Some [Some u]))) true.

(** exposure fusion, from the call of the plugin to the pixels.  On three dense
    images of half floats and an output of the same size, four distinct buffers, with
    the generated filter registered, the call succeeds, records the step and changes
    nothing but the data of the output, whose samples are those of the fusion of the
    three images in the order under, normal, over, at exactly the weights the node read
    and clamped. *)
Theorem mertens_develops f contrast saturation exposedness :
  compiled_mertens f → find_filter (halide_param_filters filters) "tone_mertens_local" = Some (tone_mertens_local_param f) →
  clamped_param_float_or pv "weight_contrast" (f_lit 0 1) (f_lit 0 1) (f_lit 2 1) = Ok contrast →
  clamped_param_float_or pv "weight_saturation" (f_lit 1 1) (f_lit 0 1) (f_lit 2 1) = Ok saturation →
  clamped_param_float_or pv "weight_well_exposedness" (f_lit 1 1) (f_lit 0 1) (f_lit 2 1) = Ok exposedness →
  ∃ out h', mertens_call w = (Ok (CPIPE_OK, None), finished o u w bo out h') ∧ tells h "tone_mertens_local" h' ∧
    computes width height (ToneMertensLocalGenerator (sample width mu) (sample width mn) (sample width mv)
      (mkMertens contrast saturation exposedness)) out.
Proof using E Hnan.
  intros Hc Hf H1 H2 H3. apply float_param_good in H1 as G1; [|done..]. apply float_param_good in H2 as G2; [|done..].
  apply float_param_good in H3 as G3; [|done..].
  destruct (submit_mertens f contrast saturation exposedness Hc Hf G1 G2 G3) as (out & Hout & Hs).
  destruct (record_exact under o u w bu bo h (se_node E) "tone_mertens_local" out) as (h' & Hr & Ht). exists out, h'. split_and!; [|done..].
  unfold mertens_call. set (c := mkProcessCtx false _ _ _).
  assert (Hcall : process_call (T := class_of (ToneMertensLocal_process filters nan_bits)) params c [Some (builder_view u)] w
    = (Ok tt, finished o u w bo out h')).
  { change (ToneMertensLocal_process filters nan_bits compute_view pv inputs [Some (buffer_view o)] [Some (builder_view u)] w
      = (Ok tt, finished o u w bo out h')).
    unfold ToneMertensLocal_process. erewrite sr_bind_Ok by exact stack_exact.
    rewrite (lift_bind _ (float_word nan_bits contrast ++ float_word nan_bits saturation ++ float_word nan_bits exposedness))
      by (unfold mertens_params; by rewrite H1, Ok_bind, H2, Ok_bind, H3, Ok_bind).
    erewrite sr_bind_Ok by exact Hs. exact Hr. }
  rewrite (dispatch_process_exact (T := class_of _) inst params c [Some (builder_view u)] w), Hcall
    by (done || apply (se_instance E) || by rewrite Hcall). done.
Qed.

End Mertens.

(** ** Witnesses *)

Local Abbreviation qnan := 0x7fc00000.
Local Abbreviation JT := (Tree.lib (λ _, None)).
Local Abbreviation hf := R16G16B16A16_SFLOAT.

#[local] Instance colour_ops : HalideOps float32 Z := ieee_ops 0x7e00 (λ _, f_lit 1 1) (λ v, v) (λ v _, v).

Definition run_lut : aot (local_buffer * Z * Z) :=
  run_algorithm (λ _ _ img p, Color3dLutGenerator (word_table (lb_values p.1.1)) p.1.2 img p.2).

Lemma run_lut_compiled : compiled_lut run_lut.
Proof.
  intros width height mem hi ho im om n words interpolation Hw Hh Hs Hi Ho Hd _ _.
  exact (run_algorithm_compiled (λ _ _ img (p : local_buffer * Z * Z), Color3dLutGenerator (word_table (lb_values p.1.1)) p.1.2 img p.2)
    width height mem hi ho im om (lut_buffer n words, n, interpolation) Hw Hh Hs Hi Ho Hd).
Qed.

(** The table of [example_cube] on two pixels that are grid points. *)
Lemma lut_develops_witness :
  let m := example_raw "k" [1] in
  let filters := registry_of [("color_3d_lut", color_3d_lut_param run_lut)] in
  let files := (λ path, if String.eqb path "grade.cube" then Some example_cube else None) in
  let params := Some (Tree.JObject [("lut_path", Tree.JString "grade.cube")]) in
  let im := concat (replicate 2 [0; 60; 0; 0; 0; 60; 0; 60]) in
  let w := pair_world (pair_image hf m im) (pair_image hf m (replicate 16 0)) (pair_builder m) in
  ∃ w', process_node (J := JT) 0 1 0 (Color3dLut_process filters qnan files) 7 params w = (Ok (CPIPE_OK, None), w') ∧
    (cb_data <$> w_store w' !! 1%nat) = Some (Some (concat (replicate 2 [0; 60; 0; 0; 0; 52; 0; 60]))).
Proof.
  intros m filters files params im w.
  pose proof (lut_develops (J := JT) filters qnan files 0 1 0 7 params w (pair_image hf m im) (pair_image hf m (replicate 16 0))
    (pair_builder m) 2 1 im (replicate 16 0) m ltac:(lia) eq_refl run_lut "grade.cube" "tetrahedral") as H.
  destruct (load "grade.cube" (files "grade.cube")) as [lut| | |] eqn:Hload.
  - destruct H as (_ & out & h' & Hcall & _).
    + eapply pair_develop; try reflexivity; [eapply one_blob; try reflexivity|]; apply bytes_ok_dec; vm_compute; reflexivity.
    + apply run_lut_compiled.
    + apply (Forall_inv (registry_registered [("color_3d_lut", color_3d_lut_param run_lut)] ltac:(apply (bool_decide_unpack _); by vm_compute))).
    + reflexivity.
    + reflexivity.
    + eexists. split; [exact Hcall|]. clear - Hcall. vm_compute in Hcall. injection Hcall as <- _. by vm_compute.
  - clear - Hload. by vm_compute in Hload.
  - clear - Hload. by vm_compute in Hload.
  - clear - Hload. by vm_compute in Hload.
Defined.

Definition run_mertens (hu hn hv : halide_buffer_t) (weights : MertensWeights float32) (ho : halide_buffer_t) (mem : memories) : outcome :=
  match hb_dim hu, mem !! hb_host hu, mem !! hb_host hn, mem !! hb_host hv, mem !! hb_host ho with
  | dx :: dy :: _, Some (Some mu), Some (Some mn), Some (Some mv), Some (Some om) =>
      let s := sample (hd_extent dx) in
      write_rgba (hd_extent dx) (hd_extent dy) (ToneMertensLocalGenerator (s mu) (s mn) (s mv) weights) om
  | _, _, _, _, _ => (status_int CPIPE_FAILED, [])
  end.

Lemma run_mertens_compiled : compiled_mertens run_mertens.
Proof.
  intros width height mem hu hn hv ho mu mn mv om weights Hw Hh Hs Hu Hn Hv Ho _. unfold run_mertens.
  rewrite (rv_shape _ _ _ _ _ Hu), (rv_memory _ _ _ _ _ Hu), (rv_memory _ _ _ _ _ Hn), (rv_memory _ _ _ _ _ Hv), (rv_memory _ _ _ _ _ Ho).
  by apply write_rgba_computes, (rv_size _ _ _ _ _ Ho).
Qed.

(** Three equal images, and alpha of the normal one. *)
Lemma mertens_develops_witness :
  let m := example_raw "k" [1] in
  let filters := registry_of [("tone_mertens_local", tone_mertens_local_param run_mertens)] in
  let im := concat (replicate 2 [0; 56; 0; 56; 0; 56; 0; 60]) in
  let b := pair_image hf m im in
  let w := mkWorld [b; b; b; pair_image hf m (replicate 16 0)] [pair_builder m] {[7%nat]} in
  ∃ w', mertens_call (J := JT) filters qnan 0 1 2 3 0 7 None w = (Ok (CPIPE_OK, None), w') ∧
    (cb_data <$> w_store w' !! 3%nat) = Some (Some im).
Proof.
  intros m filters im b w.
  assert (R : ∀ k, (k < 4)%nat → ready (w_store w) k).
  { intros k Hk. do 4 (destruct k as [|k]; [by repeat eexists|]). lia. }
  assert (D : ∀ data, len data = 16 → dense_image hf 2 1 (pair_image hf m data) data).
  { intros data Hd. split; try done; [by eexists|repeat constructor]. }
  edestruct (mertens_develops (J := JT) filters qnan 0 1 2 3 0 7 None w b b b (pair_image hf m (replicate 16 0)) (pair_builder m) 2 1
    im im im (replicate 16 0)) as (out & h' & Hcall & _).
  - split; try (by apply D); try done; try (split; [done|apply R; lia]); [|by apply (bool_decide_unpack _); vm_compute].
    split; try done; [apply R; lia|apply R; lia|]. intros m' key blob [= <-].
    eapply one_blob; try reflexivity. apply bytes_ok_dec; vm_compute; reflexivity.
  - reflexivity.
  - apply run_mertens_compiled.
  - apply (Forall_inv (registry_registered [("tone_mertens_local", tone_mertens_local_param run_mertens)]
      ltac:(apply (bool_decide_unpack _); by vm_compute))).
  - reflexivity.
  - reflexivity.
  - reflexivity.
  - eexists. split; [exact Hcall|]. clear - Hcall. vm_compute in Hcall. injection Hcall as <- _. by vm_compute.
Defined.
