(* ===== verification/HeifPlanes.v ===== *)
(** * The planes of a HEIF file

    Models the colour conversion of src/cpipe/color/HeifWriter.cpp: an RGBA image
    becomes YCbCr with chroma subsampled by two in both directions, with 8 bits for the
    SDR file and 10 bits for the HDR one, in correctly rounded binary32; and the light
    levels the HDR file announces, where [std::pow] is a parameter.

    [ycbcr_exact]: the conversion succeeds inside its vectors; a luma sample is that of
    its pixel and a chroma sample the mean of the one to four pixels of its block.
    [grey_tinted]: rounding gives some greys a chroma that is not neutral. *)

From Stdlib Require Import ZArith Lia SpecFloat.
From stdpp Require Import prelude strings list.
From S2P Require Import Prelude Core HalfFloat HostContext StateRes Float32 Float64 LensBlob LensFilter Nodes FloatValid.

Local Open Scope Z_scope.

(** ** Images *)

(** [Rgba8ImageView], [Rgba16ImageView]: the samples behind [pixels]. *)
Record ImageView : Type := mkView { iv_pixels : option (list Z); iv_width : Z; iv_height : Z; iv_stride_pixels : Z }.

(** [Ycbcr4208], [Ycbcr42010]. *)
Record Ycbcr420 : Type := mkYcbcr { yc_y : list Z; yc_cb : list Z; yc_cr : list Z; yc_chroma_width : Z; yc_chroma_height : Z }.

Definition valid_image (image : ImageView) : bool :=
  bool_decide (iv_pixels image ≠ None) && (0 <? iv_width image) && (0 <? iv_height image) &&
  (iv_width image <=? iv_stride_pixels image) && (iv_width image <=? 2 ^ 31 - 1) && (iv_height image <=? 2 ^ 31 - 1).

(** The constants of [rgb_to_ycbcr420_sdr] and [rgb_to_ycbcr420_hdr], which are the same
    otherwise. *)
Record Coding : Type := mkCoding {
  cd_shift : Z; cd_max : Z; cd_red : float32; cd_green : float32; cd_blue : float32; cd_cb : float32; cd_cr : float32
}.

Definition sdr_coding : Coding :=
  mkCoding 0 255 (f_lit 2126 10000) (f_lit 7152 10000) (f_lit 722 10000) (f_lit 18556 10000) (f_lit 15748 10000).
Definition hdr_coding : Coding :=
  mkCoding 6 1023 (f_lit 2627 10000) (f_lit 6780 10000) (f_lit 593 10000) (f_lit 18814 10000) (f_lit 14746 10000).

Section Convert.

Variable k : Coding.

(** [quantize_unorm8], [quantize_unorm10]. *)
Definition quantize_unorm (value : float32) : res Z :=
  rounded ← lround (SFmul 24 128 (clamp01 value) (float_of_int (cd_max k)));
  Ok (clamp_int (i32 rounded) 0 (cd_max k)).

Definition unit_value (sample : Z) : float32 := SFdiv 24 128 (float_of_int (Z.shiftr sample (cd_shift k))) (float_of_int (cd_max k)).

Definition luma_of (r g b : float32) : float32 :=
  SFadd 24 128 (SFadd 24 128 (SFmul 24 128 (cd_red k) r) (SFmul 24 128 (cd_green k) g)) (SFmul 24 128 (cd_blue k) b).

(** The chroma a colour difference contributes. *)
Definition chroma_of (divisor v luma : float32) : float32 :=
  SFadd 24 128 (SFdiv 24 128 (SFsub 24 128 v luma) divisor) (f_lit 1 2).

(** [v[i] += ...] on a vector. *)
Definition update_at {A} (l : list A) (i : Z) (f : A → A) : res (list A) :=
  match l !! Z.to_nat i with Some v => write_at l i (f v) | None => Undef end.

Variable image : ImageView.
Local Abbreviation width := (iv_width image).
Local Abbreviation height := (iv_height image).

Definition chroma_width : Z := u32 (width + 1) / 2.
Definition chroma_height : Z := u32 (height + 1) / 2.
Definition chroma_index (x y : Z) : Z := u64 (y / 2 * chroma_width + x / 2).

(** [row[in_base + c]]. *)
Definition read_sample (pixels : list Z) (x y c : Z) : res Z := read_at pixels (u64 (y * iv_stride_pixels image * 4) + u64 (x * 4) + c).

Record Accum : Type := mkAccum { ac_y : list Z; ac_cb : list float32; ac_cr : list float32; ac_counts : list Z }.

Definition convert_pixel (pixels : list Z) (acc : Accum) (p : Z * Z) : res Accum :=
  let '(x, y) := p in
  r ← read_sample pixels x y 0;
  g ← read_sample pixels x y 1;
  b ← read_sample pixels x y 2;
  let '(r, g, b) := (unit_value r, unit_value g, unit_value b) in
  let luma := luma_of r g b in
  q ← quantize_unorm luma;
  out_y ← write_at (ac_y acc) (u64 (y * width + x)) q;
  let i := chroma_index x y in
  cb ← update_at (ac_cb acc) i (λ v, SFadd 24 128 v (chroma_of (cd_cb k) b luma));
  cr ← update_at (ac_cr acc) i (λ v, SFadd 24 128 v (chroma_of (cd_cr k) r luma));
  counts ← update_at (ac_counts acc) i (λ n, u8 (n + 1));
  Ok (mkAccum out_y cb cr counts).

(** The mean of a block, for both channels. *)
Definition block_means (acc : Accum) (i : nat) : res (Z * Z) :=
  match ac_counts acc !! i, ac_cb acc !! i, ac_cr acc !! i with
  | Some n, Some cb, Some cr =>
      a ← quantize_unorm (SFdiv 24 128 cb (float_of_int n));
      b ← quantize_unorm (SFdiv 24 128 cr (float_of_int n));
      Ok (a, b)
  | _, _, _ => Undef
  end.

(** [rgb_to_ycbcr420_sdr], [rgb_to_ycbcr420_hdr]. *)
Definition rgb_to_ycbcr420 : res Ycbcr420 :=
  match iv_pixels image with
  | None => Undef
  | Some samples =>
      let n := Z.to_nat (u64 (chroma_width * chroma_height)) in
      acc ← foldM (convert_pixel samples)
        (mkAccum (replicate (Z.to_nat (u64 (width * height))) 0) (replicate n f_zero) (replicate n f_zero) (replicate n 0))
        (pixels width height);
      chroma ← map_res (block_means acc) (seq 0 n);
      Ok (mkYcbcr (ac_y acc) (fst <$> chroma) (snd <$> chroma) chroma_width chroma_height)
  end.

End Convert.

(** ** Lists *)

Lemma map_res_exact {A B} (f : A → res B) (g : A → B) l : (∀ x, x ∈ l → f x = Ok (g x)) → map_res f l = Ok (g <$> l).
Proof.
  induction l as [|x l IH]; intros Hl; [done|]. cbn [map_res]. rewrite Hl, Ok_bind, IH by set_solver. done.
Qed.

Lemma filter_iff_in {A} (P Q : A → Prop) `{∀ x, Decision (P x), ∀ x, Decision (Q x)} (l : list A) :
  (∀ x, x ∈ l → P x ↔ Q x) → filter P l = filter Q l.
Proof.
  induction l as [|x l IH]; intros Hl; [done|]. rewrite !filter_cons, IH by set_solver. specialize (Hl x ltac:(set_solver)).
  destruct (decide (P x)), (decide (Q x)); tauto.
Qed.

Lemma pixels_NoDup w h : NoDup (pixels w h).
Proof.
  unfold pixels. apply NoDup_bind.
  - intros y1 y2 p _ _ (x1 & -> & _)%list_elem_of_fmap (x2 & [= _ ->] & _)%list_elem_of_fmap. done.
  - intros y _. apply NoDup_fmap; [intros ?? [= ->]; done|apply NoDup_seqZ].
  - apply NoDup_seqZ.
Qed.

(** ** Every value is a number *)

(** The constants are at most one, and chroma is divided by at least one. *)
Record coding_ok (k : Coding) : Prop := {
  co_max : 1 ≤ cd_max k ≤ 1023;
  co_red : below 0 (cd_red k);
  co_green : below 0 (cd_green k);
  co_blue : below 0 (cd_blue k);
  co_cb : above 0 (cd_cb k);
  co_cr : above 0 (cd_cr k)
}.

Lemma sdr_coding_ok : coding_ok sdr_coding.
Proof. split; vm_compute; repeat split; congruence. Qed.

Lemma hdr_coding_ok : coding_ok hdr_coding.
Proof. split; vm_compute; repeat split; congruence. Qed.

(** The value written for a float. *)
Definition level (k : Coding) (v : float32) : Z := value_of 0 (quantize_unorm k v).

Section Numbers.

Variable k : Coding.
Hypothesis Hk : coding_ok k.

Lemma max_below : below 10 (float_of_int (cd_max k)).
Proof using Hk. apply of_int_below; [lia|]. destruct (co_max k Hk). lia. Qed.

Lemma lround_below j v : below j v → ∃ z, lround v = Ok z.
Proof using. destruct v; try done; eexists; done. Qed.

Lemma level_exact v : below 20 v → quantize_unorm k v = Ok (level k v) ∧ 0 ≤ level k v ≤ cd_max k.
Proof using Hk.
  intros Hv. unfold level, quantize_unorm.
  assert (Hc : below 20 (clamp01 v)) by (unfold clamp01; repeat case_match; [done|by apply (below_mono 0)|done]).
  destruct (lround_below (20 + 10) (SFmul 24 128 (clamp01 v) (float_of_int (cd_max k)))) as [z ->];
    [apply mul_below; [lia|done|apply max_below]|].
  rewrite Ok_bind. cbn [value_of]. split; [done|]. destruct (co_max k Hk). unfold clamp_int. repeat case_match; lia.
Qed.

(** A sample as the filter of the sensor range gives it. *)
Definition sample_in (s : Z) : Prop := 0 ≤ Z.shiftr s (cd_shift k) ≤ cd_max k.

Lemma unit_below s : sample_in s → below 10 (unit_value k s).
Proof using Hk.
  intros Hs. destruct (co_max k Hk). unfold unit_value, sample_in in *.
  destruct (of_int_above 10 (cd_max k)) as (j & Hj & Ha); [lia..|]. apply (div_below 10 _ _ j); [lia..| |done].
  apply of_int_below; lia.
Qed.

Lemma luma_below r g b : below 10 r → below 10 g → below 10 b → below 12 (luma_of k r g b).
Proof using Hk.
  intros Hr Hg Hb. unfold luma_of. change 12 with (11 + 1). apply add_below; [lia| |].
  - change 11 with (10 + 1). apply add_below; [lia| |]; (apply (mul_below 0 10); [lia|apply Hk|done]).
  - apply (below_mono 10); [lia|]. apply (mul_below 0 10); [lia|apply Hk|done].
Qed.

Lemma chroma_below d v l : above 0 d → below 10 v → below 12 l → below 14 (chroma_of d v l).
Proof using.
  intros Hd Hv Hl. unfold chroma_of. change 14 with (13 + 1). apply add_below; [lia| |by apply (below_mono 0)].
  apply (div_below 13 _ _ 0); [lia..| |done]. change 13 with (12 + 1). apply sub_below; [lia| |done]. by apply (below_mono 10).
Qed.

(** A sum of [n] chroma values, from left to right. *)
Lemma sum_below (terms : list float32) j v :
  14 ≤ j → j + Z.of_nat (length terms) ≤ 100 → Forall (below 14) terms → below j v →
  below (j + Z.of_nat (length terms)) (foldl (SFadd 24 128) v terms).
Proof using.
  revert j v. induction terms as [|t terms IH]; intros j v Hj Hn Ht Hv; cbn [foldl length] in *; [by rewrite Z.add_0_r|].
  apply Forall_cons in Ht as [Ht Hts]. replace (j + Z.of_nat (S (length terms))) with (j + 1 + Z.of_nat (length terms)) by lia.
  apply IH; [lia|lia|done|]. apply add_below; [lia|done|]. by apply (below_mono 14).
Qed.

End Numbers.

(** ** The conversion *)

(** An image in memory: every row has its samples. *)
Record view_ok (k : Coding) (image : ImageView) (samples : list Z) : Prop := {
  vo_pixels : iv_pixels image = Some samples;
  vo_width : 0 < iv_width image < 2 ^ 31;
  vo_height : 0 < iv_height image < 2 ^ 31;
  vo_stride : iv_width image ≤ iv_stride_pixels image;
  vo_len : 4 * ((iv_height image - 1) * iv_stride_pixels image + iv_width image) ≤ len samples < 2 ^ 63;
  vo_samples : Forall (sample_in k) samples
}.

Section Conversion.

Variables (k : Coding) (image : ImageView) (samples : list Z).
Hypothesis Hk : coding_ok k.
Hypothesis Hv : view_ok k image samples.

Local Abbreviation width := (iv_width image).
Local Abbreviation height := (iv_height image).
Local Abbreviation stride := (iv_stride_pixels image).

(** The colour of a pixel. *)
Definition colour (x y c : Z) : float32 := unit_value k (default 0 (samples !! Z.to_nat (4 * (y * stride + x) + c))).
Definition pixel_luma (p : Z * Z) : float32 := luma_of k (colour p.1 p.2 0) (colour p.1 p.2 1) (colour p.1 p.2 2).
Definition pixel_cb (p : Z * Z) : float32 := chroma_of (cd_cb k) (colour p.1 p.2 2) (pixel_luma p).
Definition pixel_cr (p : Z * Z) : float32 := chroma_of (cd_cr k) (colour p.1 p.2 0) (pixel_luma p).

(** The pixels of a chroma sample, and their mean. *)
Definition block (i j : Z) : list (Z * Z) := filter (λ p, p.1 / 2 = i ∧ p.2 / 2 = j) (pixels width height).
Definition block_mean (chroma : Z * Z → float32) (i j : Z) : float32 :=
  SFdiv 24 128 (foldl (SFadd 24 128) f_zero (chroma <$> block i j)) (float_of_int (len (block i j))).

Lemma sizes :
  chroma_width image = (width + 1) / 2 ∧ chroma_height image = (height + 1) / 2 ∧
  0 < (width + 1) / 2 ≤ 2 ^ 30 ∧ 0 < (height + 1) / 2 ≤ 2 ^ 30.
Proof using Hv.
  destruct Hv as [_ Hw Hh _ _ _]. unfold chroma_width, chroma_height. rewrite !u32_small by lia.
  Z.div_mod_to_equations. lia.
Qed.

Lemma read_exact x y c :
  in_image width height x y → 0 ≤ c < 4 →
  read_sample image samples x y c = Ok (default 0 (samples !! Z.to_nat (4 * (y * stride + x) + c))) ∧
  sample_in k (default 0 (samples !! Z.to_nat (4 * (y * stride + x) + c))).
Proof using Hv.
  intros [Hx Hy] Hc. destruct Hv as [_ Hw Hh Hs Hl Hin].
  assert (0 ≤ y * stride ≤ (height - 1) * stride) by nia.
  assert (Hi : 0 ≤ 4 * (y * stride + x) + c < len samples) by lia. unfold read_sample, read_at.
  rewrite !u64_small by lia. replace (y * stride * 4 + x * 4 + c) with (4 * (y * stride + x) + c) by lia.
  rewrite (proj2 (Z.leb_le _ _)), (proj2 (Z.ltb_lt _ _)) by lia. cbn [andb].
  destruct (lookup_lt_is_Some_2 samples (Z.to_nat (4 * (y * stride + x) + c))) as [s Hs']; [unfold len in Hi; lia|].
  rewrite Hs'. cbn [of_option default]. split; [done|]. by eapply Forall_lookup in Hs'.
Qed.

Lemma colour_below x y c : in_image width height x y → 0 ≤ c < 4 → below 10 (colour x y c).
Proof using Hv Hk. intros Hp Hc. apply unit_below; [done|]. by apply read_exact. Qed.

Lemma pixel_below x y :
  in_image width height x y → below 12 (pixel_luma (x, y)) ∧ below 14 (pixel_cb (x, y)) ∧ below 14 (pixel_cr (x, y)).
Proof using Hv Hk.
  intros Hp. assert (L : below 12 (pixel_luma (x, y))) by (apply luma_below; [done|apply colour_below; [done|cbn; lia]..]).
  split_and!; [done|..]; (apply chroma_below; [apply Hk|apply colour_below; [done|lia]|done]).
Qed.

Lemma chroma_index_exact x y :
  in_image width height x y → chroma_index image x y = y / 2 * chroma_width image + x / 2 ∧
  0 ≤ x / 2 < chroma_width image ∧ 0 ≤ y / 2 < chroma_height image ∧
  0 ≤ y / 2 * chroma_width image + x / 2 < chroma_width image * chroma_height image.
Proof using Hv.
  intros [Hx Hy]. destruct sizes as (-> & -> & Hcw & Hch).
  assert (0 ≤ x / 2 < (width + 1) / 2 ∧ 0 ≤ y / 2 < (height + 1) / 2) as [? ?] by (Z.div_mod_to_equations; lia).
  assert (0 ≤ y / 2 * ((width + 1) / 2) + x / 2 < (width + 1) / 2 * ((height + 1) / 2)) by nia.
  unfold chroma_index. destruct sizes as (-> & _). rewrite u64_small by nia. done.
Qed.

(** The pixels that contribute to a chroma sample, as the loop meets them. *)
Definition group (done : list (Z * Z)) (n : nat) : list (Z * Z) := filter (λ p, chroma_index image p.1 p.2 = Z.of_nat n) done.

Local Abbreviation total := (Z.to_nat (chroma_width image * chroma_height image)).

Record accumulated (done : list (Z * Z)) (acc : Accum) : Prop := {
  ad_y_len : len (ac_y acc) = width * height;
  ad_y : ∀ x y, (x, y) ∈ done → in_image width height x y → ac_y acc !! Z.to_nat (y * width + x) = Some (level k (pixel_luma (x, y)));
  ad_y_range : Forall (λ v, 0 ≤ v ≤ cd_max k) (ac_y acc);
  ad_cb : ac_cb acc = (λ n, foldl (SFadd 24 128) f_zero (pixel_cb <$> group done n)) <$> seq 0 total;
  ad_cr : ac_cr acc = (λ n, foldl (SFadd 24 128) f_zero (pixel_cr <$> group done n)) <$> seq 0 total;
  ad_counts : ac_counts acc = (λ n, u8 (len (group done n))) <$> seq 0 total
}.

(** Updating the entry of one more pixel. *)
Lemma update_group {A} (f : list (Z * Z) → A) (g : A → A) done x y :
  in_image width height x y → (∀ l, f (l ++ [(x, y)]) = g (f l)) →
  update_at ((λ n, f (group done n)) <$> seq 0 total) (chroma_index image x y) g
  = Ok ((λ n, f (group (done ++ [(x, y)]) n)) <$> seq 0 total).
Proof using Hv.
  intros Hp Hf. destruct (chroma_index_exact x y Hp) as (Hi & _ & _ & Hr). rewrite <-Hi in Hr. set (i := chroma_index image x y) in *.
  assert (Hn : seq 0 total !! Z.to_nat i = Some (Z.to_nat i)) by (apply lookup_seq; lia).
  unfold update_at. rewrite list_lookup_fmap, Hn. cbn [fmap option_fmap option_map].
  rewrite write_at_Ok by (unfold len; rewrite length_fmap, length_seq; lia). f_equal. apply list_eq. intros n.
  rewrite list_lookup_fmap. destruct (decide (n = Z.to_nat i)) as [->|Hne].
  - rewrite list_lookup_insert_eq, Hn by (rewrite length_fmap, length_seq; lia). cbn [fmap option_fmap option_map]. f_equal.
    unfold group. rewrite filter_app, filter_cons_True, filter_nil by (cbn [fst snd]; fold i; lia). symmetry. apply Hf.
  - rewrite list_lookup_insert_ne, list_lookup_fmap by done. destruct (seq 0 total !! n) as [m|] eqn:Hm; [|done].
    apply lookup_seq in Hm as [-> _]. cbn [fmap option_fmap option_map]. f_equal.
    unfold group. rewrite filter_app, filter_cons_False, filter_nil by (cbn [fst snd]; fold i; lia). by rewrite app_nil_r.
Qed.

Lemma index_inj x y x' y' :
  in_image width height x y → in_image width height x' y' → y * width + x = y' * width + x' → (x, y) = (x', y').
Proof using.
  intros [Hx Hy] [Hx' Hy'] H. destruct (Z.div_mod_unique width y y' x x') as [-> ->]; [lia..|done].
Qed.

Lemma index_range x y : in_image width height x y → 0 ≤ y * width + x < width * height ∧ u64 (y * width + x) = y * width + x.
Proof using Hv.
  intros [Hx Hy]. destruct Hv as [_ Hw Hh _ _ _]. assert (0 ≤ y * width + x < width * height) by nia.
  split; [done|]. apply u64_small. nia.
Qed.

Lemma convert_pixel_exact done acc x y :
  in_image width height x y → accumulated done acc →
  ∃ acc', convert_pixel k image samples acc (x, y) = Ok acc' ∧ accumulated (done ++ [(x, y)]) acc'.
Proof using Hv Hk.
  intros Hp [Hyl Hy Hyr Hcb Hcr Hn]. unfold convert_pixel.
  destruct (read_exact x y 0 Hp) as [-> _]; [lia|]. destruct (read_exact x y 1 Hp) as [-> _]; [lia|].
  destruct (read_exact x y 2 Hp) as [-> _]; [lia|]. rewrite !Ok_bind.
  destruct (pixel_below x y Hp) as (Hl & _ & _).
  destruct (level_exact k Hk (pixel_luma (x, y)) (below_mono 12 20 _ ltac:(lia) Hl)) as [Hq Hqr].
  change (luma_of k _ _ _) with (pixel_luma (x, y)). rewrite Hq, Ok_bind.
  destruct (index_range x y Hp) as [Hir Hiu]. rewrite Hiu, write_at_Ok, Ok_bind by lia.
  rewrite Hcb, Hcr, Hn.
  rewrite (update_group (λ l, foldl (SFadd 24 128) f_zero (pixel_cb <$> l))), Ok_bind;
    [|done|intros l; by rewrite fmap_app, foldl_app].
  rewrite (update_group (λ l, foldl (SFadd 24 128) f_zero (pixel_cr <$> l))), Ok_bind;
    [|done|intros l; by rewrite fmap_app, foldl_app].
  rewrite (update_group (λ l, u8 (len l))), Ok_bind;
    [|done|intros l; rewrite len_app; unfold u8, wrap; by rewrite Zplus_mod_idemp_l].
  eexists. split; [done|]. split; cbn [ac_y ac_cb ac_cr ac_counts]; try done.
  - unfold len. by rewrite length_insert.
  - intros x' y' Hin Hp'. destruct (decide ((x', y') = (x, y))) as [[= -> ->]|Hne].
    + rewrite list_lookup_insert_eq; [done|]. unfold len in Hyl. lia.
    + rewrite list_lookup_insert_ne; [apply Hy; [set_solver|done]|].
      intros Heq. apply Hne. symmetry. destruct (index_range x' y' Hp'). apply index_inj; [done..|lia].
  - by apply Forall_insert.
Qed.

Lemma convert_loop l : ∀ done acc,
  Forall (λ p, in_image width height p.1 p.2) l → accumulated done acc →
  ∃ acc', foldM (convert_pixel k image samples) acc l = Ok acc' ∧ accumulated (done ++ l) acc'.
Proof using Hv Hk.
  induction l as [|[x y] l IH]; intros done acc Hl Ha; [exists acc; by rewrite app_nil_r|].
  apply Forall_cons in Hl as [Hp Hl]. destruct (convert_pixel_exact done acc x y Hp Ha) as (acc1 & H1 & Ha1).
  destruct (IH (done ++ [(x, y)]) acc1 Hl Ha1) as (acc2 & H2 & Ha2). exists acc2. cbn [foldM]. rewrite H1, Ok_bind.
  split; [done|]. by rewrite <-app_assoc in Ha2.
Qed.

(** A block has one to four pixels. *)
Lemma block_size i j : 0 ≤ i < chroma_width image → 0 ≤ j < chroma_height image → 1 ≤ len (block i j) ≤ 4.
Proof using Hv Hk.
  destruct sizes as (-> & -> & _ & _). intros Hi Hj. destruct Hv as [_ Hw Hh _ _ _].
  assert (Hin : (2 * i, 2 * j) ∈ block i j).
  { apply list_elem_of_filter. split; [cbn; Z.div_mod_to_equations; lia|]. apply pixels_in. split; Z.div_mod_to_equations; lia. }
  assert (Hsub : block i j ⊆+ [(2 * i, 2 * j); (2 * i + 1, 2 * j); (2 * i, 2 * j + 1); (2 * i + 1, 2 * j + 1)]).
  { apply NoDup_submseteq; [apply NoDup_filter, pixels_NoDup|]. intros [x y] [[Hx Hy] _]%list_elem_of_filter. cbn [fst snd] in *.
    assert (x = 2 * i ∨ x = 2 * i + 1) as [-> | ->] by (Z.div_mod_to_equations; lia);
      assert (y = 2 * j ∨ y = 2 * j + 1) as [-> | ->] by (Z.div_mod_to_equations; lia); set_solver. }
  apply submseteq_length in Hsub. cbn [length] in Hsub. unfold len.
  destruct (block i j); [by apply not_elem_of_nil in Hin|cbn [length] in *; lia].
Qed.

Lemma group_block i j :
  0 ≤ i < chroma_width image → 0 ≤ j < chroma_height image →
  group (pixels width height) (Z.to_nat (j * chroma_width image + i)) = block i j.
Proof using Hv.
  intros Hi Hj. unfold group, block. apply filter_iff_in. intros [x y] Hp%pixels_in. cbn [fst snd].
  destruct (chroma_index_exact x y Hp) as (-> & Hx & Hy & _). rewrite Z2Nat.id by nia. split; [|by intros [-> ->]].
  intros H. destruct (Z.div_mod_unique (chroma_width image) (y / 2) j (x / 2) i) as [-> ->]; [lia..|done].
Qed.

Lemma mean_below chroma i j :
  (∀ x y, in_image width height x y → below 14 (chroma (x, y))) →
  0 ≤ i < chroma_width image → 0 ≤ j < chroma_height image → below 20 (block_mean chroma i j).
Proof using Hv Hk.
  intros Hc Hi Hj. pose proof (block_size i j Hi Hj) as Hn. unfold block_mean.
  destruct (of_int_above 10 (len (block i j))) as (m & Hm & Ha); [lia..|]. apply (div_below 20 _ _ m); [lia..| |done].
  assert (Forall (below 14) (chroma <$> block i j)) as Hf.
  { apply Forall_fmap, Forall_forall. intros [x y] [_ Hp%pixels_in]%list_elem_of_filter. by apply Hc. }
  eapply below_mono; [|apply (sum_below _ 14); [lia| |exact Hf|done]]; rewrite length_fmap; unfold len in Hn; lia.
Qed.

(** The chroma sample at an index. *)
Definition mean_at (chroma : Z * Z → float32) (n : nat) : Z :=
  level k (block_mean chroma (Z.of_nat n mod chroma_width image) (Z.of_nat n / chroma_width image)).

Lemma position (n : nat) :
  (n < total)%nat → let i := Z.of_nat n mod chroma_width image in let j := Z.of_nat n / chroma_width image in
  0 ≤ i < chroma_width image ∧ 0 ≤ j < chroma_height image ∧ n = Z.to_nat (j * chroma_width image + i).
Proof using Hv.
  intros Hn. destruct sizes as (Ew & Eh & Bw & Bh). cbv zeta. pose proof (Z.div_mod (Z.of_nat n) (chroma_width image)).
  pose proof (Z.mod_pos_bound (Z.of_nat n) (chroma_width image)).
  split_and!; [lia|lia|apply Z.div_pos; lia|apply Z.div_lt_upper_bound; lia|lia].
Qed.

Lemma mean_at_position chroma i j :
  0 ≤ i < chroma_width image → mean_at chroma (Z.to_nat (j * chroma_width image + i)) = level k (block_mean chroma i j) ∨ j < 0.
Proof using.
  intros Hi. destruct (decide (j < 0)) as [|Hj]; [by right|left]. unfold mean_at. rewrite Z2Nat.id by nia.
  rewrite Z.add_comm, Z.mod_add, Z.mod_small, Z.div_add, Z.div_small by lia. by rewrite Z.add_0_l.
Qed.

Lemma block_means_exact acc n :
  accumulated (pixels width height) acc → (n < total)%nat →
  block_means k acc n = Ok (mean_at pixel_cb n, mean_at pixel_cr n) ∧
  0 ≤ mean_at pixel_cb n ≤ cd_max k ∧ 0 ≤ mean_at pixel_cr n ≤ cd_max k.
Proof using Hv Hk.
  intros [_ _ _ Hcb Hcr Hcn] Hn. destruct (position n Hn) as (Hi & Hj & Hp). set (i := Z.of_nat n mod _) in *. set (j := Z.of_nat n / _) in *.
  pose proof (block_size i j Hi Hj) as Hb. unfold block_means. rewrite Hcb, Hcr, Hcn, !list_lookup_fmap.
  rewrite (proj2 (lookup_seq 0 total n n)) by lia. cbn [fmap option_fmap option_map].
  assert (group (pixels width height) n = block i j) as -> by (rewrite Hp; by apply group_block).
  assert (u8 (len (block i j)) = len (block i j)) as -> by (unfold u8, wrap; apply Z.mod_small; lia).
  destruct (level_exact k Hk (block_mean pixel_cb i j)) as [Q1 R1]; [apply mean_below; [intros; by apply pixel_below|done..]|].
  destruct (level_exact k Hk (block_mean pixel_cr i j)) as [Q2 R2]; [apply mean_below; [intros; by apply pixel_below|done..]|].
  unfold block_mean in Q1, Q2. rewrite Q1, Ok_bind, Q2, Ok_bind. split; [done|]. split; [exact R1|exact R2].
Qed.

Lemma conversion_loop :
  ∃ acc, foldM (convert_pixel k image samples)
      (mkAccum (replicate (Z.to_nat (width * height)) 0) (replicate total f_zero) (replicate total f_zero) (replicate total 0))
      (pixels width height) = Ok acc ∧ accumulated (pixels width height) acc.
Proof using Hv Hk.
  apply (convert_loop (pixels width height) []).
  - apply Forall_forall. intros [x y] Hp. by apply pixels_in.
  - pose proof (vo_width _ _ _ Hv). pose proof (vo_height _ _ _ Hv). pose proof (co_max k Hk).
    assert (F : ∀ A (v : A), replicate total v = (λ _, v) <$> seq 0 total) by (intros A v; rewrite (const_fmap (λ _ : nat, v) _ v), length_seq; done).
    split; cbn [ac_y ac_cb ac_cr ac_counts]; try apply F; try (intros x y Hin; by apply elem_of_nil in Hin).
    + unfold len. rewrite length_replicate. nia.
    + apply Forall_replicate. lia.
Qed.

(** The planes the conversion gives. *)
Lemma conversion_planes :
  ∃ acc, accumulated (pixels width height) acc ∧
    rgb_to_ycbcr420 k image = Ok (mkYcbcr (ac_y acc) (mean_at pixel_cb <$> seq 0 total) (mean_at pixel_cr <$> seq 0 total)
      (chroma_width image) (chroma_height image)).
Proof using Hv Hk.
  destruct sizes as (Ew & Eh & Bw & Bh). pose proof Hv as [Hpx Hw Hh _ _ _]. destruct conversion_loop as (acc & Hloop & Ha).
  exists acc. split; [done|].
  assert (u64 (width * height) = width * height) as Hwh by (apply u64_small; nia).
  assert (u64 (chroma_width image * chroma_height image) = chroma_width image * chroma_height image) as Hn by (apply u64_small; nia).
  unfold rgb_to_ycbcr420. rewrite Hpx, Hwh, Hn, Hloop, Ok_bind.
  rewrite (map_res_exact _ (λ n, (mean_at pixel_cb n, mean_at pixel_cr n)))
    by (intros n Hin%elem_of_seq; by apply block_means_exact; [|lia]).
  rewrite Ok_bind, <-!list_fmap_compose. done.
Qed.

Lemma plane_size (f : nat → Z) : len (f <$> seq 0 total) = chroma_width image * chroma_height image.
Proof using Hv. destruct sizes as (Ew & Eh & Bw & Bh). unfold len. rewrite length_fmap, length_seq. nia. Qed.

(** C24: the colour conversion of the HEIF files.  For every image in memory, of any
    size and stride, and both codings, the conversion reads and writes inside its
    memory, counts without overflow and divides by no zero, and gives planes of the
    sizes of 4:2:0 subsampling whose values fit the bit depth: the luma of a pixel is
    its quantised weighted sum, the chroma of a block the quantised mean over the one
    to four pixels of the block that are in the image. *)
Theorem ycbcr_exact :
  ∃ out, rgb_to_ycbcr420 k image = Ok out ∧
    len (yc_y out) = width * height ∧ yc_chroma_width out = (width + 1) / 2 ∧ yc_chroma_height out = (height + 1) / 2 ∧
    len (yc_cb out) = yc_chroma_width out * yc_chroma_height out ∧ len (yc_cr out) = len (yc_cb out) ∧
    Forall (λ v, 0 ≤ v ≤ cd_max k) (yc_y out ++ yc_cb out ++ yc_cr out) ∧
    (∀ x y, in_image width height x y → yc_y out !! Z.to_nat (y * width + x) = Some (level k (pixel_luma (x, y)))) ∧
    (∀ i j, in_image (yc_chroma_width out) (yc_chroma_height out) i j →
       1 ≤ len (block i j) ≤ 4 ∧
       yc_cb out !! Z.to_nat (j * yc_chroma_width out + i) = Some (level k (block_mean pixel_cb i j)) ∧
       yc_cr out !! Z.to_nat (j * yc_chroma_width out + i) = Some (level k (block_mean pixel_cr i j))).
Proof using Hv Hk.
  destruct sizes as (Ew & Eh & Bw & Bh). destruct conversion_planes as (acc & Ha & Hout). eexists. split; [exact Hout|].
  cbn [yc_y yc_cb yc_cr yc_chroma_width yc_chroma_height]. rewrite !plane_size. split_and!; [apply Ha|done..| | |].
  - rewrite !Forall_app, !Forall_fmap, !Forall_forall. split_and!; [apply Forall_forall, Ha|..];
      intros n Hin%elem_of_seq; apply (block_means_exact acc n Ha); lia.
  - intros x y Hp. apply Ha; [|done]. by apply pixels_in.
  - intros i j [Hi Hj]. pose proof (block_size i j Hi Hj). split; [done|]. rewrite !list_lookup_fmap.
    rewrite (proj2 (lookup_seq 0 total _ (Z.to_nat (j * chroma_width image + i)))) by nia. cbn [fmap option_fmap option_map].
    destruct (mean_at_position pixel_cb i j Hi) as [-> |]; [|lia]. by destruct (mean_at_position pixel_cr i j Hi) as [-> |]; [|lia].
Qed.

End Conversion.

(** ** Light levels *)

Section LightLevels.

(** [std::pow] on floats. *)
Variable pow : float32 → float32 → float32.

Definition std_max (a b : spec_float) : spec_float := if SFltb a b then b else a.

Definition pq_eotf_nits (code : float32) : float32 :=
  let m1 := f_lit 2610 16384 in
  let m2 := f_lit 2523 32 in
  let c1 := f_lit 3424 4096 in
  let c2 := f_lit 2413 128 in
  let c3 := f_lit 2392 128 in
  let normalized := clamp01 code in
  let p := pow normalized (SFdiv 24 128 (f_lit 1 1) m2) in
  let numerator := std_max (SFsub 24 128 p c1) f_zero in
  let denominator := SFsub 24 128 c2 (SFmul 24 128 c3 p) in
  if SFleb denominator f_zero then f_lit 10000 1 else
  SFmul 24 128 (f_lit 10000 1) (pow (SFdiv 24 128 numerator denominator) (SFdiv 24 128 (f_lit 1 1) m1)).

(** One pixel: the maximum so far and the sum so far, in [double]. *)
Definition light_pixel (image : ImageView) (samples : list Z) (acc : float32 * spec_float) (p : Z * Z) : res (float32 * spec_float) :=
  let '(x, y) := p in
  let '(max_cll, fall_sum) := acc in
  let nits c := v ← read_sample image samples x y c; Ok (pq_eotf_nits (unit_value hdr_coding v)) in
  r ← nits 0; g ← nits 1; b ← nits 2;
  Ok (std_max max_cll (std_max (std_max r g) b), SFadd 53 1024 fall_sum (to_f64 (luma_of hdr_coding r g b))).

(** A level in nits, from 1 to 65535. *)
Definition light_level (v : spec_float) : res Z := r ← lround v; Ok (clamp_int (i32 r) 1 65535).

Definition compute_clli (image : ImageView) : res (Z * Z) :=
  match iv_pixels image with
  | None => Undef
  | Some samples =>
      '(max_cll, fall_sum) ← foldM (light_pixel image samples) (f_zero, f64 0 0) (pixels (iv_width image) (iv_height image));
      let pixel_count := SFmul 53 1024 (f64 (iv_width image) 0) (f64 (iv_height image) 0) in
      let max_fall := if SFltb (f64 0 0) pixel_count then SFdiv 53 1024 fall_sum pixel_count else f64 0 0 in
      cll ← light_level max_cll;
      fall ← light_level max_fall;
      Ok (cll, fall)
  end.

End LightLevels.

(** ** Greys *)

(** The chroma of an image of one grey pixel. *)
Definition grey_chroma (v : Z) : res (list Z * list Z) :=
  out ← rgb_to_ycbcr420 sdr_coding (mkView (Some [v; v; v; 255]) 1 1 1); Ok (yc_cb out, yc_cr out).

Definition tinted_greys : list Z :=
  [70; 94; 101; 105; 107; 113; 117; 123; 140; 167; 183; 187; 188; 202; 207; 210; 214; 226; 234; 239; 246].

(** Grey is not always neutral: the luma of a grey is rounded, so that for 21 of the
    256 levels the colour difference is a tiny negative number and the chroma 127, one
    below the 128 of all other greys. *)
Theorem grey_tinted (v : Z) :
  0 ≤ v < 256 → grey_chroma v = Ok (if bool_decide (v ∈ tinted_greys) then ([127], [127]) else ([128], [128])).
Proof.
  intros Hv. assert (Forall (λ v, grey_chroma v = Ok (if bool_decide (v ∈ tinted_greys) then ([127], [127]) else ([128], [128])))
    (Z.of_nat <$> seq 0 256)) as Hall by (apply (bool_decide_unpack _); vm_compute; exact I).
  rewrite Forall_forall in Hall. apply Hall, list_elem_of_fmap. exists (Z.to_nat v). split; [lia|]. apply elem_of_seq. lia.
Qed.

(** ** Witnesses *)

Definition example_view : ImageView :=
  mkView (Some [255; 0; 0; 1; 0; 255; 0; 1; 0; 0; 255; 1; 255; 255; 255; 1; 7; 7; 7; 0; 9; 9; 9; 9]) 3 2 3.

Lemma example_view_ok : view_ok sdr_coding example_view (default [] (iv_pixels example_view)).
Proof.
  split; try done; try (cbn; lia). cbn [example_view iv_pixels default]. unfold sample_in. cbn [sdr_coding cd_shift cd_max].
  repeat (apply Forall_cons; split; [rewrite Z.shiftr_0_r; lia|]). by apply Forall_nil.
Qed.

Lemma ycbcr_exact_witness :
  ∃ out, rgb_to_ycbcr420 sdr_coding example_view = Ok out ∧ yc_y out !! 4%nat = Some (level sdr_coding (pixel_luma sdr_coding example_view
    (default [] (iv_pixels example_view)) (1, 1))) ∧ len (yc_cb out) = 2.
Proof.
  destruct (ycbcr_exact sdr_coding example_view (default [] (iv_pixels example_view)) sdr_coding_ok example_view_ok)
    as (out & Hout & _ & Hw & Hh & Hl & _ & _ & Hy & _). exists out. split_and!; [done| |by rewrite Hl, Hw, Hh].
  apply (Hy 1 1). split; cbn; lia.
Defined.

Lemma grey_tinted_witness : grey_chroma 70 = Ok ([127], [127]) ∧ grey_chroma 71 = Ok ([128], [128]).
Proof. split; [apply (grey_tinted 70); lia|apply (grey_tinted 71); lia]. Defined.
