(* ===== verification/HeifWriter.v ===== *)
(** * The HEIF writers

    Models the rest of src/cpipe/color/HeifWriter.cpp: the two writers convert the
    image ([HeifPlanes]), fill an image of libheif plane by plane, attach the colour
    profiles and hand it to an encoder.  libheif and Little CMS are parameters
    ([HeifLib]): every call may refuse.  [HeifLaws] is what is documented of plane
    memory: rows are a stride apart that is at least their length.

    [write_heif_exact]: whatever libheif refuses, a writer stays inside the planes
    and reports [CPIPE_FAILED], while an exception of the profile writer leaves the HDR
    writer; a file that is written holds the converted samples row
    by row, the profiles and, for HDR, the light levels; and it is written when nothing
    is refused. *)

From Stdlib Require Import ZArith Lia SpecFloat.
From stdpp Require Import prelude strings list.
From S2P Require Import Prelude Core HalfFloat HostContext StateRes Float32 Float64 ComputeContext LensBlob LensFilter Nodes IccWriter HeifPlanes.

Local Open Scope Z_scope.

(** ** libheif *)

Inductive heif_error : Type := heif_error_Ok | HeifError (message : option string).
Inductive heif_channel : Type := heif_channel_Y | heif_channel_Cb | heif_channel_Cr.
Inductive heif_compression_format : Type := heif_compression_HEVC | heif_compression_uncompressed.

#[global] Instance heif_channel_dec : EqDecision heif_channel.
Proof. solve_decision. Defined.

(** Colour primaries, transfer characteristics and matrix of [heif_color_profile_nclx],
    by their numbers in ISO/IEC 23091-2, and the full-range flag. *)
Record Nclx : Type := mkNclx { color_primaries : Z; transfer_characteristics : Z; matrix_coefficients : Z; full_range_flag : Z }.

Record Mdcv : Type := mkMdcv {
  display_primaries_x : list Z; display_primaries_y : list Z; white_point_x : Z; white_point_y : Z;
  max_display_mastering_luminance : Z; min_display_mastering_luminance : Z
}.

Record Plane : Type := mkPlane { pn_channel : heif_channel; pn_width : Z; pn_height : Z; pn_depth : Z; pn_stride : Z; pn_memory : bytes }.

Record heif_image : Type := mkHeifImage {
  hm_width : Z; hm_height : Z; hm_planes : list Plane; hm_icc : option bytes; hm_nclx : option Nclx;
  hm_mdcv : option Mdcv; hm_clli : option (Z * Z)
}.

(** An encoder with what is asked of it; libheif may ignore parameters. *)
Record heif_encoder : Type := mkEncoder { en_descriptor : nat; en_quality : option Z; en_parameters : list (string * string) }.

(** The file a context writes: the encoded image, its encoder and the profile of the
    options. *)
Record HeifFile : Type := mkHeifFile { hf_path : string; hf_image : heif_image; hf_encoder : heif_encoder; hf_nclx : Nclx }.

Class HeifLib : Type := {
  heif_context_alloc : bool;
  heif_image_create : Z → Z → heif_error;
  (** the message of an error, or the stride and the memory of the new plane *)
  heif_image_add_plane : heif_image → heif_channel → Z → Z → Z → option string + (Z * bytes);
  (** whether the pointer is not null *)
  heif_image_get_plane2 : heif_image → heif_channel → bool;
  heif_nclx_color_profile_alloc : bool;
  heif_image_set_raw_color_profile : heif_image → bytes → heif_error;
  heif_image_set_nclx_color_profile : heif_image → Nclx → heif_error;
  (** the number of encoders, and the first of them *)
  heif_get_encoder_descriptors : heif_compression_format → option string → Z * option nat;
  heif_context_get_encoder : nat → heif_error;
  heif_encoder_set_lossy_quality : nat → Z → heif_error;
  heif_encoding_options_alloc : bool;
  heif_context_encode_image : heif_image → heif_encoder → Nclx → heif_error;
  heif_context_write_to_file : string → heif_error;
  (** Little CMS: a profile, its size, its bytes *)
  cmsCreate_sRGBProfile : bool;
  cmsSaveProfileSize : option Z;
  cmsSaveProfileToMem : Z → option bytes
}.

(** Rows are a stride apart. *)
Class HeifLaws (L : HeifLib) : Prop := {
  plane_memory : ∀ img ch w h depth stride mem, heif_image_add_plane img ch w h depth = inr (stride, mem) →
    0 < w → 0 < h → bytes_ok mem ∧ w * (if depth =? 8 then 1 else 2) ≤ stride ∧ stride * h ≤ len mem < 2 ^ 63
}.

Section Writer.

Context {L : HeifLib}.

Definition failed_if {A} (o : option A) (message : string) : res A := of_option (Fail CPIPE_FAILED message) o.
Definition require (b : bool) (message : string) : res unit := if b then Ok tt else Fail CPIPE_FAILED message.

Definition heif_message (e : option string) : string := default "libheif error" e.

Definition check_heif (status : heif_error) (action : string) : res unit :=
  match status with heif_error_Ok => Ok tt | HeifError m => Fail CPIPE_FAILED (action +:+ ": " +:+ heif_message m) end.

(** The bytes of the profile, none when it cannot be made. *)
Definition create_srgb_v4_icc : bytes :=
  if negb cmsCreate_sRGBProfile then [] else
  match cmsSaveProfileSize with
  | Some size => if size =? 0 then [] else default [] (cmsSaveProfileToMem size)
  | None => []
  end.

Definition with_planes (img : heif_image) (planes : list Plane) : heif_image :=
  mkHeifImage (hm_width img) (hm_height img) planes (hm_icc img) (hm_nclx img) (hm_mdcv img) (hm_clli img).

Definition add_plane (img : heif_image) (ch : heif_channel) (w h depth : Z) (action : string) : res heif_image :=
  match heif_image_add_plane img ch (i32 w) (i32 h) depth with
  | inl message => _ ← check_heif (HeifError message) action; Ok img
  | inr (stride, mem) => Ok (with_planes img (hm_planes img ++ [mkPlane ch w h depth stride mem]))
  end.

(** [std::memcpy] of a row into a plane: undefined outside either. *)
Definition copy_row (src : bytes) (stride row_bytes : Z) (mem : bytes) (y : Z) : res bytes :=
  let to := u64 (y * stride) in
  let from := u64 (y * row_bytes) in
  if (to + row_bytes <=? len mem) && (from + row_bytes <=? len src)
  then Ok (take (Z.to_nat to) mem ++ subspan src from row_bytes ++ drop (Z.to_nat (to + row_bytes)) mem)
  else Undef.

(** [copy_plane8], [copy_plane10]: [src] are the bytes of the samples. *)
Definition copy_plane (img : heif_image) (ch : heif_channel) (src : bytes) (row_bytes height : Z) : res heif_image :=
  if negb (heif_image_get_plane2 img ch) then Fail CPIPE_FAILED "failed to access HEIF image plane" else
  planes ← map_res (λ p,
    if decide (pn_channel p = ch) then
      mem ← foldM (copy_row src (pn_stride p) row_bytes) (pn_memory p) (seqZ 0 height);
      Ok (mkPlane (pn_channel p) (pn_width p) (pn_height p) (pn_depth p) (pn_stride p) mem)
    else Ok p) (hm_planes img);
  Ok (with_planes img planes).

(** The bytes of samples of a depth. *)
Definition sample_width (depth : Z) : nat := if depth =? 8 then 1 else 2.
Definition plane_bytes (depth : Z) (values : list Z) : bytes := values ≫= HostContext.le_bytes (sample_width depth).

Definition add_ycbcr_planes (img : heif_image) (ycbcr : Ycbcr420) (width height depth : Z) : res heif_image :=
  let '(cw, ch) := (yc_chroma_width ycbcr, yc_chroma_height ycbcr) in
  let row w := w * Z.of_nat (sample_width depth) in
  img ← add_plane img heif_channel_Y width height depth "heif_image_add_plane(Y)";
  img ← add_plane img heif_channel_Cb cw ch depth "heif_image_add_plane(Cb)";
  img ← add_plane img heif_channel_Cr cw ch depth "heif_image_add_plane(Cr)";
  img ← copy_plane img heif_channel_Y (plane_bytes depth (yc_y ycbcr)) (row width) height;
  img ← copy_plane img heif_channel_Cb (plane_bytes depth (yc_cb ycbcr)) (row cw) ch;
  copy_plane img heif_channel_Cr (plane_bytes depth (yc_cr ycbcr)) (row cw) ch.

Definition attach_icc_profile (img : heif_image) (icc : bytes) : res heif_image :=
  match icc with
  | [] => Fail CPIPE_FAILED "empty ICC profile"
  | _ =>
      _ ← check_heif (heif_image_set_raw_color_profile img icc) "heif_image_set_raw_color_profile";
      Ok (mkHeifImage (hm_width img) (hm_height img) (hm_planes img) (Some icc) (hm_nclx img) (hm_mdcv img) (hm_clli img))
  end.

Definition create_nclx (primaries transfer matrix : Z) : option Nclx :=
  if heif_nclx_color_profile_alloc then Some (mkNclx primaries transfer matrix 1) else None.

(** Planes and profiles; the failed allocation of the profile is noticed last. *)
Definition fill_image (img : heif_image) (ycbcr : Ycbcr420) (width height depth : Z) (icc : bytes) (nclx : option Nclx)
    : res (heif_image * Nclx) :=
  img ← add_ycbcr_planes img ycbcr width height depth;
  img ← attach_icc_profile img icc;
  nclx ← failed_if nclx "failed to allocate NCLX profile";
  _ ← check_heif (heif_image_set_nclx_color_profile img nclx) "heif_image_set_nclx_color_profile";
  Ok (mkHeifImage (hm_width img) (hm_height img) (hm_planes img) (hm_icc img) (Some nclx) (hm_mdcv img) (hm_clli img), nclx).

Definition make_encoder (format : heif_compression_format) (name : option string) : res heif_encoder :=
  match heif_get_encoder_descriptors format name with
  | (count, Some d) =>
      if count <=? 0 then Fail CPIPE_FAILED "requested HEIF encoder is unavailable" else
      _ ← check_heif (heif_context_get_encoder d) "heif_context_get_encoder"; Ok (mkEncoder d None [])
  | (_, None) => Fail CPIPE_FAILED "requested HEIF encoder is unavailable"
  end.

Definition kvazaar_encoder (quality : Z) : res heif_encoder :=
  encoder ← make_encoder heif_compression_HEVC (Some "kvazaar");
  _ ← check_heif (heif_encoder_set_lossy_quality (en_descriptor encoder) quality) "heif_encoder_set_lossy_quality";
  Ok (mkEncoder (en_descriptor encoder) (Some quality) []).

Definition encode_options : res unit := require heif_encoding_options_alloc "failed to allocate HEIF encoding options".

(** Both are made before either is checked, and the later message stays. *)
Definition encoder_and_options (encoder : res heif_encoder) : res heif_encoder := _ ← encode_options; encoder.

Definition encode_and_write (path : string) (img : heif_image) (encoder : heif_encoder) (nclx : Nclx) : res HeifFile :=
  _ ← check_heif (heif_context_encode_image img encoder nclx) "heif_context_encode_image";
  _ ← check_heif (heif_context_write_to_file path) "heif_context_write_to_file";
  Ok (mkHeifFile path img encoder nclx).

(** The context and the empty image. *)
Definition new_image (image : ImageView) (mdcv : option Mdcv) (clli : option (Z * Z)) : heif_image :=
  mkHeifImage (iv_width image) (iv_height image) [] None None mdcv clli.

Definition start_image (image : ImageView) : res unit :=
  _ ← require heif_context_alloc "failed to allocate HEIF context";
  check_heif (heif_image_create (i32 (iv_width image)) (i32 (iv_height image))) "heif_image_create".

Definition write_heif_sdr (path : string) (image : ImageView) (quality : Z) : res HeifFile :=
  if negb (valid_image image) then Fail CPIPE_BAD_INDEX "invalid HEIF input image" else
  ycbcr ← rgb_to_ycbcr420 sdr_coding image;
  _ ← start_image image;
  '(img, nclx) ← fill_image (new_image image None None) ycbcr (iv_width image) (iv_height image) 8 create_srgb_v4_icc (create_nclx 1 13 1);
  encoder ← encoder_and_options (make_encoder heif_compression_uncompressed None);
  encode_and_write path img encoder nclx.

Definition default_mdcv : Mdcv := mkMdcv [35400; 8500; 6550] [14600; 39850; 2300] 15635 16450 1000 50.

(** [icc]: the profile of [IccV4_4Writer::bt2020_pq]. *)
Definition write_heif_hdr_pq (pow : float32 → float32 → float32) (icc : res bytes) (path : string) (image : ImageView) (quality : Z)
    : res HeifFile :=
  if negb (valid_image image) then Fail CPIPE_BAD_INDEX "invalid HEIF input image" else
  ycbcr ← rgb_to_ycbcr420 hdr_coding image;
  _ ← start_image image;
  icc ← icc;
  clli ← compute_clli pow image;
  '(img, nclx) ← fill_image (new_image image (Some default_mdcv) (Some clli)) ycbcr (iv_width image) (iv_height image) 10 icc (create_nclx 9 16 9);
  encoder ← encoder_and_options (kvazaar_encoder quality);
  encode_and_write path img (mkEncoder (en_descriptor encoder) (en_quality encoder) [("preset", "medium"); ("bit-depth", "10")]) nclx.

End Writer.

(** ** Copying rows *)

Lemma copy_row_exact src stride row mem y :
  0 ≤ row → 0 ≤ y * stride → y * stride + row ≤ len mem < 2 ^ 63 → 0 ≤ y * row → y * row + row ≤ len src < 2 ^ 63 →
  ∃ mem', copy_row src stride row mem y = Ok mem' ∧ len mem' = len mem ∧ subspan mem' (y * stride) row = subspan src (y * row) row ∧
    ∀ off, 0 ≤ off → off + row ≤ y * stride ∨ y * stride + row ≤ off → subspan mem' off row = subspan mem off row.
Proof.
  intros Hr Ht Hm Hf Hs. unfold copy_row. rewrite !u64_small by lia. rewrite !(proj2 (Z.leb_le _ _)) by lia. cbn [andb].
  eexists. split; [done|]. set (to := y * stride) in *. set (B := subspan src (y * row) row).
  assert (HB : length B = Z.to_nat row) by (unfold B, subspan, len in *; rewrite length_take, length_drop; lia).
  assert (HA : length (take (Z.to_nat to) mem) = Z.to_nat to) by (unfold len in *; rewrite length_take; lia).
  split_and!.
  - unfold len in *. rewrite !length_app, HA, HB, length_drop. lia.
  - unfold subspan at 1. rewrite drop_app_length' by done. by rewrite take_app_length' by done.
  - intros off Ho [Hbefore|Hafter]; unfold subspan.
    + rewrite drop_app_le, take_app_le by (rewrite ?length_drop, ?HA; lia). rewrite <-(take_drop (Z.to_nat to) mem) at 2.
      by rewrite drop_app_le, take_app_le by (rewrite ?length_drop, ?HA; lia).
    + rewrite drop_app_ge, drop_app_ge by (rewrite ?HA, ?HB; lia). rewrite HA, HB, drop_drop. do 2 f_equal. lia.
Qed.

Lemma copy_rows_exact src stride row mem h :
  0 ≤ row ≤ stride → 0 ≤ h → stride * h ≤ len mem < 2 ^ 63 → len src = row * h → len src < 2 ^ 63 →
  ∃ mem', foldM (copy_row src stride row) mem (seqZ 0 h) = Ok mem' ∧ len mem' = len mem ∧
    ∀ y, 0 ≤ y < h → subspan mem' (y * stride) row = subspan src (y * row) row.
Proof.
  intros Hr Hh Hm Hs Hb.
  assert (G : ∀ n : nat, Z.of_nat n ≤ h → ∃ mem', foldM (copy_row src stride row) mem (seqZ 0 (Z.of_nat n)) = Ok mem' ∧
    len mem' = len mem ∧ ∀ y, 0 ≤ y < Z.of_nat n → subspan mem' (y * stride) row = subspan src (y * row) row).
  { induction n as [|n IH]; intros Hn; [exists mem; split_and!; [done..|lia]|].
    destruct IH as (m1 & H1 & L1 & P1); [lia|]. replace (Z.of_nat (S n)) with (Z.of_nat n + 1) by lia.
    rewrite seqZ_app, foldM_app, H1, Ok_bind by lia. rewrite Z.add_0_l.
    destruct (copy_row_exact src stride row m1 (Z.of_nat n)) as (m2 & H2 & L2 & P2 & K2); [nia..|].
    change (seqZ (Z.of_nat n) 1) with [Z.of_nat 0 + Z.of_nat n]. rewrite Z.add_0_l. cbn [foldM]. rewrite H2, Ok_bind.
    exists m2. split_and!; [done|lia|]. intros y Hy. destruct (decide (y = Z.of_nat n)) as [->|Hne]; [done|].
    rewrite K2 by nia. apply P1. lia. }
  destruct (G (Z.to_nat h)) as (mem' & H1 & H2 & H3); [lia|]. rewrite Z2Nat.id in H1, H3 by lia. by exists mem'.
Qed.

(** ** The bytes of samples *)

Lemma length_plane_bytes depth values : length (plane_bytes depth values) = (sample_width depth * length values)%nat.
Proof.
  unfold plane_bytes. induction values as [|v values IH]; [by rewrite Nat.mul_0_r|]. rewrite bind_cons, length_app, IH, HostContext.length_le_bytes.
  cbn [length]. lia.
Qed.

Lemma plane_bytes_drop depth n : ∀ values, drop (sample_width depth * n) (plane_bytes depth values) = plane_bytes depth (drop n values).
Proof.
  induction n as [|n IH]; intros values; [by rewrite Nat.mul_0_r, !drop_0|]. destruct values as [|v values].
  - unfold plane_bytes. cbn [mbind list_bind]. by rewrite !drop_nil.
  - cbn [drop]. rewrite <-IH. unfold plane_bytes. rewrite bind_cons.
    rewrite drop_app_ge by (rewrite HostContext.length_le_bytes; lia). f_equal. rewrite HostContext.length_le_bytes. lia.
Qed.

Lemma plane_bytes_take depth n : ∀ values, take (sample_width depth * n) (plane_bytes depth values) = plane_bytes depth (take n values).
Proof.
  induction n as [|n IH]; intros values; [by rewrite Nat.mul_0_r, !take_0|]. destruct values as [|v values].
  - unfold plane_bytes. cbn [mbind list_bind]. by rewrite !take_nil.
  - unfold plane_bytes. cbn [take]. rewrite !bind_cons. unfold plane_bytes in IH. rewrite <-IH.
    rewrite take_app_ge by (rewrite HostContext.length_le_bytes; lia). do 2 f_equal. rewrite HostContext.length_le_bytes. lia.
Qed.

(** A row of the bytes is the bytes of a row. *)
Lemma plane_bytes_row depth values w y :
  0 ≤ w → 0 ≤ y →
  subspan (plane_bytes depth values) (y * (w * Z.of_nat (sample_width depth))) (w * Z.of_nat (sample_width depth))
  = plane_bytes depth (take (Z.to_nat w) (drop (Z.to_nat (y * w)) values)).
Proof.
  intros Hw Hy. unfold subspan.
  replace (Z.to_nat (y * (w * Z.of_nat (sample_width depth)))) with (sample_width depth * Z.to_nat (y * w))%nat by nia.
  replace (Z.to_nat (w * Z.of_nat (sample_width depth))) with (sample_width depth * Z.to_nat w)%nat by nia.
  by rewrite plane_bytes_drop, plane_bytes_take.
Qed.

(** ** What the writers report *)

(** A result with a property, or the status of a refusal. *)
Definition reports {A} (r : res A) (P : A → Prop) : Prop :=
  match r with Ok a => P a | Fail st _ => st = CPIPE_FAILED | _ => False end.

Lemma reports_bind {A B} (m : res A) (f : A → res B) P Q : reports m P → (∀ a, P a → reports (f a) Q) → reports (m ≫= f) Q.
Proof. intros Hm Hf. destruct m as [a|st msg| |]; try done. by apply Hf. Qed.

Section Planes.

Context {L : HeifLib} `{!HeifLaws L}.

Lemma check_reports e action : reports (check_heif e action) (λ _, True).
Proof using. by destruct e. Qed.

(** A plane of libheif with room for its rows. *)
Record plane_ok (p : Plane) (ch : heif_channel) (w h depth : Z) : Prop := {
  po_channel : pn_channel p = ch;
  po_width : pn_width p = w;
  po_height : pn_height p = h;
  po_depth : pn_depth p = depth;
  po_stride : w * Z.of_nat (sample_width depth) ≤ pn_stride p;
  po_memory : pn_stride p * h ≤ len (pn_memory p) < 2 ^ 63
}.

(** The rows of a plane are the rows of the samples. *)
Definition plane_holds (p : Plane) (ch : heif_channel) (w h depth : Z) (values : list Z) : Prop :=
  plane_ok p ch w h depth ∧
  ∀ y, 0 ≤ y < h → subspan (pn_memory p) (y * pn_stride p) (w * Z.of_nat (sample_width depth))
    = plane_bytes depth (take (Z.to_nat w) (drop (Z.to_nat (y * w)) values)).

Lemma add_plane_reports img ch w h depth action :
  0 < w < 2 ^ 31 → 0 < h < 2 ^ 31 → depth = 8 ∨ depth = 10 →
  reports (add_plane img ch w h depth action) (λ img', ∃ p, plane_ok p ch w h depth ∧ img' = with_planes img (hm_planes img ++ [p])).
Proof using HeifLaws0.
  intros Hw Hh Hd. unfold add_plane. rewrite !i32_small by lia.
  destruct (heif_image_add_plane img ch w h depth) as [e|[stride mem]] eqn:Ha.
  - done.
  - destruct (plane_memory _ _ _ _ _ _ _ Ha) as (_ & Hs & Hm); [lia..|]. cbn [reports]. eexists. split; [|done].
    split; try done. cbn [pn_stride]. unfold sample_width. destruct Hd as [-> | ->]; cbn in *; lia.
Qed.

(** Filling one plane of the image. *)
Lemma copy_plane_reports img before p after ch w h depth values :
  hm_planes img = before ++ p :: after → Forall (λ q, pn_channel q ≠ ch) (before ++ after) → plane_ok p ch w h depth →
  0 < w < 2 ^ 31 → 0 < h < 2 ^ 31 → len values = w * h →
  reports (copy_plane img ch (plane_bytes depth values) (w * Z.of_nat (sample_width depth)) h)
    (λ img', ∃ p', plane_holds p' ch w h depth values ∧ img' = with_planes img (before ++ p' :: after)).
Proof using HeifLaws0.
  intros Hp Hne Hok Hw Hh Hl. unfold copy_plane. destruct (negb _); [done|].
  assert (B : (1 ≤ sample_width depth ≤ 2)%nat) by (unfold sample_width; case_match; lia).
  assert (Hlen : len (plane_bytes depth values) = w * Z.of_nat (sample_width depth) * h)
    by (unfold len in *; rewrite length_plane_bytes; nia).
  assert (Hwh : 0 ≤ w * h ≤ (2 ^ 31 - 1) * (2 ^ 31 - 1)) by nia.
  assert (Hbytes : len (plane_bytes depth values) < 2 ^ 63).
  { rewrite Hlen. replace (w * Z.of_nat (sample_width depth) * h) with (w * h * Z.of_nat (sample_width depth)) by ring. nia. }
  destruct (copy_rows_exact (plane_bytes depth values) (pn_stride p) (w * Z.of_nat (sample_width depth)) (pn_memory p) h)
    as (mem & Hmem & Hml & Hrows); [split; [nia|apply Hok]|lia|apply Hok|done|done|].
  set (p' := mkPlane (pn_channel p) (pn_width p) (pn_height p) (pn_depth p) (pn_stride p) mem).
  rewrite (map_res_exact _ (λ q, if decide (pn_channel q = ch) then p' else q)).
  - rewrite Ok_bind. cbn [reports]. exists p'. split; cycle 1.
    + f_equal. rewrite Hp, fmap_app, fmap_cons. rewrite decide_True by apply Hok.
      apply Forall_app in Hne as [Hb Ha].
      assert (F : ∀ l, Forall (λ q, pn_channel q ≠ ch) l → (λ q, if decide (pn_channel q = ch) then p' else q) <$> l = l).
      { intros l Hf. induction Hf as [|q l Hq _ IH]; [done|]. rewrite fmap_cons, IH, decide_False by done. done. }
      rewrite !F by done. done.
    + destruct Hok as [H1 H2 H3 H4 H5 H6]. split; [split; cbn; try done; by rewrite Hml|]. intros y Hy. cbn [pn_stride pn_memory].
      rewrite Hrows by done. apply plane_bytes_row; lia.
  - intros q Hq. destruct (decide (pn_channel q = ch)) as [Hc|]; [|done]. rewrite Hp in Hq.
    assert (q = p) as ->.
    { rewrite Forall_forall in Hne. apply elem_of_app in Hq as [Hq|[->|Hq]%elem_of_cons]; [|done|];
        exfalso; apply (Hne q); [set_solver|done|set_solver|done]. }
    by rewrite Hmem, Ok_bind.
Qed.

(** The planes of a conversion. *)
Definition holds_ycbcr (planes : list Plane) (out : Ycbcr420) (w h depth : Z) : Prop :=
  ∃ py pcb pcr, planes = [py; pcb; pcr] ∧ plane_holds py heif_channel_Y w h depth (yc_y out) ∧
    plane_holds pcb heif_channel_Cb (yc_chroma_width out) (yc_chroma_height out) depth (yc_cb out) ∧
    plane_holds pcr heif_channel_Cr (yc_chroma_width out) (yc_chroma_height out) depth (yc_cr out).

(** A conversion of an image of a size. *)
Record ycbcr_ok (out : Ycbcr420) (w h : Z) : Prop := {
  yo_width : 0 < w < 2 ^ 31;
  yo_height : 0 < h < 2 ^ 31;
  yo_chroma_width : 0 < yc_chroma_width out < 2 ^ 31;
  yo_chroma_height : 0 < yc_chroma_height out < 2 ^ 31;
  yo_y : len (yc_y out) = w * h;
  yo_cb : len (yc_cb out) = yc_chroma_width out * yc_chroma_height out;
  yo_cr : len (yc_cr out) = yc_chroma_width out * yc_chroma_height out
}.

Lemma add_ycbcr_reports img out w h depth :
  hm_planes img = [] → ycbcr_ok out w h → depth = 8 ∨ depth = 10 →
  reports (add_ycbcr_planes img out w h depth) (λ img', ∃ planes, holds_ycbcr planes out w h depth ∧ img' = with_planes img planes).
Proof using HeifLaws0.
  intros Hp [Hw Hh Hcw Hch Hy Hcb Hcr] Hd. unfold add_ycbcr_planes.
  eapply reports_bind; [by apply add_plane_reports|]. intros i1 (py & Ky & ->). cbn [hm_planes with_planes]. rewrite Hp, app_nil_l.
  eapply reports_bind; [by apply add_plane_reports|]. intros i2 (pcb & Kb & ->). cbn [hm_planes with_planes app].
  eapply reports_bind; [by apply add_plane_reports|]. intros i3 (pcr & Kr & ->). cbn [hm_planes with_planes app].
  pose proof (po_channel _ _ _ _ _ Ky) as Cy. pose proof (po_channel _ _ _ _ _ Kb) as Cb. pose proof (po_channel _ _ _ _ _ Kr) as Cr.
  eapply reports_bind.
  { apply (copy_plane_reports _ [] py [pcb; pcr] heif_channel_Y w h depth); try done. repeat constructor; congruence. }
  intros i4 (py' & Hpy & ->). pose proof (po_channel _ _ _ _ _ (proj1 Hpy)) as Cy'. eapply reports_bind.
  { apply (copy_plane_reports _ [py'] pcb [pcr]); try done. repeat constructor; congruence. }
  intros i5 (pcb' & Hpb & ->). pose proof (po_channel _ _ _ _ _ (proj1 Hpb)) as Cb'.
  assert (R : ∀ (m : res heif_image) P Q, reports m P → (∀ a, P a → Q a) → reports m Q) by (intros [] P Q HP HQ; cbn in *; auto).
  eapply R; [apply (copy_plane_reports _ [py'; pcb'] pcr []); try done; repeat constructor; congruence|].
  intros i6 (pcr' & Hpr & ->). exists [py'; pcb'; pcr']. split; [by exists py', pcb', pcr'|done].
Qed.

(** The image a writer hands to the encoder. *)
Record image_holds (img : heif_image) (out : Ycbcr420) (w h depth : Z) (icc : bytes) (nclx : Nclx) (mdcv : option Mdcv)
    (clli : option (Z * Z)) : Prop := {
  ih_size : hm_width img = w ∧ hm_height img = h;
  ih_planes : holds_ycbcr (hm_planes img) out w h depth;
  ih_icc : hm_icc img = Some icc;
  ih_nclx : hm_nclx img = Some nclx;
  ih_light : hm_mdcv img = mdcv ∧ hm_clli img = clli
}.

Lemma fill_image_reports image out depth icc a b c mdcv clli :
  ycbcr_ok out (iv_width image) (iv_height image) → depth = 8 ∨ depth = 10 →
  reports (fill_image (new_image image mdcv clli) out (iv_width image) (iv_height image) depth icc (create_nclx a b c))
    (λ r, r.2 = mkNclx a b c 1 ∧ image_holds r.1 out (iv_width image) (iv_height image) depth icc (mkNclx a b c 1) mdcv clli).
Proof using HeifLaws0.
  intros Ho Hd. unfold fill_image. eapply reports_bind; [by apply add_ycbcr_reports|]. intros i1 (planes & Hp & ->).
  destruct icc as [|b0 icc]; [done|]. cbn [attach_icc_profile].
  destruct (check_heif _ _) as [[]| | |] eqn:Hc; [rewrite Ok_bind| | |];
    try (by pose proof (check_reports (heif_image_set_raw_color_profile (with_planes (new_image image mdcv clli) planes) (b0 :: icc))
      "heif_image_set_raw_color_profile") as Hr; rewrite Hc in Hr).
  rewrite Ok_bind. unfold create_nclx. destruct heif_nclx_color_profile_alloc; [|done]. cbn [failed_if of_option]. rewrite Ok_bind.
  eapply reports_bind; [apply check_reports|]. intros _ _. cbn [reports fst snd]. by repeat split.
Qed.

Lemma start_reports image : reports (start_image image) (λ _, True).
Proof using. unfold start_image, require. destruct heif_context_alloc; [|done]. rewrite Ok_bind. apply check_reports. Qed.

Lemma encoder_reports format name : reports (make_encoder format name) (λ e, en_quality e = None).
Proof using.
  unfold make_encoder. destruct (heif_get_encoder_descriptors format name) as [count [d|]]; [|done]. destruct (count <=? 0); [done|].
  eapply reports_bind; [apply check_reports|]. by intros _ _.
Qed.

Lemma kvazaar_reports quality : reports (kvazaar_encoder quality) (λ e, en_quality e = Some quality).
Proof using.
  unfold kvazaar_encoder. eapply reports_bind; [apply encoder_reports|]. intros e _. eapply reports_bind; [apply check_reports|].
  by intros _ _.
Qed.

Lemma options_reports e P : reports e P → reports (encoder_and_options e) P.
Proof using. intros He. unfold encoder_and_options, encode_options, require. destruct heif_encoding_options_alloc; [by rewrite Ok_bind|done]. Qed.

Lemma write_reports path img e nclx :
  reports (encode_and_write path img e nclx) (λ f, f = mkHeifFile path img e nclx).
Proof using.
  unfold encode_and_write. eapply reports_bind; [apply check_reports|]. intros _ _. eapply reports_bind; [apply check_reports|]. by intros _ _.
Qed.

(** ** Nothing else stops a writer *)

(** A library that refuses nothing. *)
Record accepting : Prop := {
  ac_context : heif_context_alloc = true;
  ac_create : ∀ w h, heif_image_create w h = heif_error_Ok;
  ac_add : ∀ img ch w h depth, 0 < w < 2 ^ 31 → 0 < h < 2 ^ 31 →
    is_Some (match heif_image_add_plane img ch w h depth with inr r => Some r | inl _ => None end);
  ac_plane : ∀ img ch, heif_image_get_plane2 img ch = true;
  ac_nclx : heif_nclx_color_profile_alloc = true;
  ac_raw : ∀ img icc, heif_image_set_raw_color_profile img icc = heif_error_Ok;
  ac_set_nclx : ∀ img nclx, heif_image_set_nclx_color_profile img nclx = heif_error_Ok;
  ac_descriptors : ∀ format name, ∃ n d, heif_get_encoder_descriptors format name = (n, Some d) ∧ 0 < n;
  ac_encoder : ∀ d, heif_context_get_encoder d = heif_error_Ok;
  ac_quality : ∀ d q, heif_encoder_set_lossy_quality d q = heif_error_Ok;
  ac_options : heif_encoding_options_alloc = true;
  ac_encode : ∀ img e nclx, heif_context_encode_image img e nclx = heif_error_Ok;
  ac_write : ∀ path, heif_context_write_to_file path = heif_error_Ok
}.

Definition accepted {A} (m : res A) : Prop := match m with Fail _ _ => False | _ => True end.

Lemma accepted_bind {A B} (m : res A) (f : A → res B) : accepted m → (∀ a, accepted (f a)) → accepted (m ≫= f).
Proof using. destruct m; by cbn. Qed.

Lemma reports_accepted {A} (m : res A) P : reports m P → accepted m → ∃ a, m = Ok a.
Proof using. destruct m; cbn; try done. by exists a. Qed.

Lemma copy_plane_accepted img ch src row h : accepting → accepted (copy_plane img ch src row h).
Proof using.
  intros Ha. unfold copy_plane. rewrite (ac_plane Ha). cbn [negb]. apply accepted_bind; [|done].
  assert (F : ∀ mem stride l, accepted (foldM (copy_row src stride row) mem l)).
  { intros mem stride l. revert mem. induction l as [|y l IH]; intros mem; [done|]. cbn [foldM]. apply accepted_bind; [|done].
    unfold copy_row. by destruct (_ && _). }
  induction (hm_planes img) as [|p l IH]; [done|]. cbn [map_res]. apply accepted_bind.
  - destruct (decide _); [|done]. apply accepted_bind; [apply F|done].
  - intros q. by apply accepted_bind.
Qed.

Lemma add_plane_accepted img ch w h depth action :
  accepting → 0 < w < 2 ^ 31 → 0 < h < 2 ^ 31 → accepted (add_plane img ch w h depth action).
Proof using.
  intros Ha Hw Hh. unfold add_plane. rewrite !i32_small by lia. destruct (ac_add Ha img ch w h depth Hw Hh) as [r Hr].
  by destruct (heif_image_add_plane img ch w h depth) as [|[]].
Qed.

Lemma fill_accepted img out w h depth icc a b c : 
  accepting → icc ≠ [] → ycbcr_ok out w h → accepted (fill_image img out w h depth icc (create_nclx a b c)).
Proof using.
  intros Ha Hi [? ? ? ? _ _ _]. unfold fill_image, create_nclx, failed_if. rewrite (ac_nclx Ha). apply accepted_bind.
  - unfold add_ycbcr_planes. repeat (apply accepted_bind; [by apply add_plane_accepted|intros ?]).
    repeat (apply accepted_bind; [by apply copy_plane_accepted|intros ?]). by apply copy_plane_accepted.
  - intros i. destruct icc; [done|]. cbn [attach_icc_profile of_option]. rewrite (ac_raw Ha). cbn [check_heif]. rewrite !Ok_bind.
    by rewrite (ac_set_nclx Ha).
Qed.

Lemma encoder_accepted format name : accepting → accepted (make_encoder format name).
Proof using.
  intros Ha. unfold make_encoder. destruct (ac_descriptors Ha format name) as (n & d & -> & Hn).
  by rewrite (proj2 (Z.leb_gt _ _)), (ac_encoder Ha) by lia.
Qed.

Lemma start_accepted image : accepting → accepted (start_image image).
Proof using. intros Ha. unfold start_image, require. rewrite (ac_context Ha), (ac_create Ha). done. Qed.

Lemma finish_accepted (e : res heif_encoder) (path : string) (g : heif_encoder → heif_encoder) img nclx :
  accepting → accepted e → accepted (encoder ← encoder_and_options e; encode_and_write path img (g encoder) nclx).
Proof using.
  intros Ha He. unfold encoder_and_options, encode_options, require. rewrite (ac_options Ha), Ok_bind. apply accepted_bind; [done|].
  intros enc. unfold encode_and_write. rewrite (ac_encode Ha), (ac_write Ha). done.
Qed.

(** ** The writers *)

Lemma view_valid k image samples : view_ok k image samples → valid_image image = true.
Proof using.
  intros [Hp Hw Hh Hs _ _]. unfold valid_image. rewrite Hp, bool_decide_true by done.
  by rewrite !(proj2 (Z.ltb_lt _ _)), !(proj2 (Z.leb_le _ _)) by lia.
Qed.

Lemma converted k image samples :
  coding_ok k → view_ok k image samples → ∃ out, rgb_to_ycbcr420 k image = Ok out ∧ ycbcr_ok out (iv_width image) (iv_height image).
Proof using.
  intros Hk Hv. destruct (conversion_planes k image samples Hk Hv) as (acc & Ha & Hout). eexists. split; [exact Hout|].
  destruct (sizes k image samples Hv) as (Hw & Hh & Bw & Bh). pose proof (plane_size k image samples Hv).
  split; cbn [yc_y yc_cb yc_cr yc_chroma_width yc_chroma_height]; try done; [apply Hv|apply Hv|lia|lia|apply Ha].
Qed.

Lemma write_sdr_spec (path : string) (image : ImageView) (samples : list Z) (quality : Z) :
  view_ok sdr_coding image samples →
  ∃ out, rgb_to_ycbcr420 sdr_coding image = Ok out ∧
    reports (write_heif_sdr path image quality) (λ f, hf_path f = path ∧ hf_nclx f = mkNclx 1 13 1 1 ∧
      image_holds (hf_image f) out (iv_width image) (iv_height image) 8 create_srgb_v4_icc (mkNclx 1 13 1 1) None None) ∧
    (accepting → create_srgb_v4_icc ≠ [] → ∃ f, write_heif_sdr path image quality = Ok f).
Proof using HeifLaws0.
  intros Hv. destruct (converted _ _ _ sdr_coding_ok Hv) as (out & Hout & Ho). exists out. split; [done|].
  assert (R : reports (write_heif_sdr path image quality) (λ f, hf_path f = path ∧ hf_nclx f = mkNclx 1 13 1 1 ∧
     image_holds (hf_image f) out (iv_width image) (iv_height image) 8 create_srgb_v4_icc (mkNclx 1 13 1 1) None None)).
  { unfold write_heif_sdr. rewrite (view_valid _ _ _ Hv), Hout, Ok_bind. eapply reports_bind; [apply start_reports|]. intros _ _.
    eapply reports_bind; [apply fill_image_reports; [done|by left]|]. intros [img nclx] [Hn Hi]. cbn [fst snd] in Hn, Hi.
    eapply reports_bind; [apply options_reports, encoder_reports|]. intros e _.
    pose proof (write_reports path img e nclx) as Hr. destruct (encode_and_write path img e nclx); try done. cbn in Hr |- *. by rewrite Hr, Hn. }
  split; [done|]. intros Ha Hi. apply (reports_accepted _ _ R). unfold write_heif_sdr. rewrite (view_valid _ _ _ Hv), Hout, Ok_bind.
  apply accepted_bind; [by apply start_accepted|]. intros _. apply accepted_bind; [by apply fill_accepted|]. intros [img nclx].
  by apply (finish_accepted _ path id); [|apply encoder_accepted].
Qed.

Lemma write_hdr_spec pow (path : string) (image : ImageView) (samples : list Z) (quality : Z) icc clli :
  view_ok hdr_coding image samples → compute_clli pow image = Ok clli →
  ∃ out, rgb_to_ycbcr420 hdr_coding image = Ok out ∧
    reports (write_heif_hdr_pq pow (Ok icc) path image quality) (λ f, hf_path f = path ∧ hf_nclx f = mkNclx 9 16 9 1 ∧
      en_quality (hf_encoder f) = Some quality ∧
      image_holds (hf_image f) out (iv_width image) (iv_height image) 10 icc (mkNclx 9 16 9 1) (Some default_mdcv) (Some clli)) ∧
    (accepting → icc ≠ [] → ∃ f, write_heif_hdr_pq pow (Ok icc) path image quality = Ok f).
Proof using HeifLaws0.
  intros Hv Hc. destruct (converted _ _ _ hdr_coding_ok Hv) as (out & Hout & Ho). exists out. split; [done|].
  assert (R : reports (write_heif_hdr_pq pow (Ok icc) path image quality) (λ f, hf_path f = path ∧ hf_nclx f = mkNclx 9 16 9 1 ∧
     en_quality (hf_encoder f) = Some quality ∧
     image_holds (hf_image f) out (iv_width image) (iv_height image) 10 icc (mkNclx 9 16 9 1) (Some default_mdcv) (Some clli))).
  { unfold write_heif_hdr_pq. rewrite (view_valid _ _ _ Hv), Hout, Ok_bind. eapply reports_bind; [apply start_reports|]. intros _ _.
    rewrite Ok_bind, Hc, Ok_bind. eapply reports_bind; [apply fill_image_reports; [done|by right]|]. intros [img nclx] [Hn Hi].
    cbn [fst snd] in Hn, Hi. eapply reports_bind; [apply options_reports, kvazaar_reports|]. intros e He. cbv beta in He.
    set (e' := mkEncoder _ _ _). pose proof (write_reports path img e' nclx) as Hr. destruct (encode_and_write path img e' nclx); try done.
    cbn in Hr |- *. by rewrite Hr, Hn. }
  split; [done|]. intros Ha Hi. apply (reports_accepted _ _ R). unfold write_heif_hdr_pq. rewrite (view_valid _ _ _ Hv), Hout, Ok_bind.
  apply accepted_bind; [by apply start_accepted|]. intros _. rewrite Ok_bind, Hc, Ok_bind. apply accepted_bind; [by apply fill_accepted|].
  intros [img nclx]. apply (finish_accepted _ path (λ e, mkEncoder (en_descriptor e) (en_quality e) _)); [done|].
  unfold kvazaar_encoder. apply accepted_bind; [by apply encoder_accepted|]. intros e. by rewrite (ac_quality Ha).
Qed.

(** The HDR writer up to the planes, for any result of the profile writer. *)
Lemma write_hdr_errors pow (path : string) (image : ImageView) (samples : list Z) (quality : Z) (icc : res bytes) :
  view_ok hdr_coding image samples →
  let file := write_heif_hdr_pq pow icc path image quality in
  (∀ st msg, start_image image = Fail st msg → file = Fail CPIPE_FAILED msg) ∧
  (∀ e, start_image image = Ok tt → icc = Thrown e → file = Thrown e) ∧
  (∀ profile, start_image image = Ok tt → icc = Ok profile → compute_clli pow image = Undef → file = Undef).
Proof using.
  intros Hv file. destruct (converted _ _ _ hdr_coding_ok Hv) as (out & Hout & _).
  assert (E : file = (_ ← start_image image; icc ← icc; clli ← compute_clli pow image;
    '(img, nclx) ← fill_image (new_image image (Some default_mdcv) (Some clli)) out (iv_width image) (iv_height image) 10 icc (create_nclx 9 16 9);
    encoder ← encoder_and_options (kvazaar_encoder quality);
    encode_and_write path img (mkEncoder (en_descriptor encoder) (en_quality encoder) [("preset", "medium"); ("bit-depth", "10")]) nclx))
    by (unfold file, write_heif_hdr_pq; rewrite (view_valid _ _ _ Hv), Hout, Ok_bind; done).
  rewrite E. split_and!.
  - intros st msg Hs. pose proof (start_reports image) as Hr. rewrite Hs in Hr |- *. cbn in Hr. by subst.
  - by intros e -> ->.
  - intros profile -> -> Hc. by rewrite !Ok_bind, Hc.
Qed.

(** C23: writing HEIF files.  For every image in memory and every behaviour of libheif
    and Little CMS.  The SDR writer stays inside the planes it is given and reports
    [CPIPE_FAILED] when a step is refused; so does the HDR writer, except that an
    exception of the profile writer (Little CMS refused) leaves it as it is.  A file
    that is written holds an image of the input's size with three planes, whose rows
    are the rows of the conversion with 8 or 10 bits, the ICC profile, and the code
    points of sRGB (1, 13, 1) or of BT.2020 PQ (9, 16, 9) with full range, in the image
    and in the encoding options; the HDR file also the light levels of the image and
    the wished quality.  When nothing is refused and there is a profile, the file is
    written.  When [pow] gives light levels that no integer represents, the HDR writer
    is undefined once the image has been started and the profile made. *)
Theorem write_heif_exact (path : string) (image : ImageView) (samples : list Z) (quality : Z) :
  let '(w, h) := (iv_width image, iv_height image) in
  (view_ok sdr_coding image samples →
   ∃ out, rgb_to_ycbcr420 sdr_coding image = Ok out ∧
     reports (write_heif_sdr path image quality) (λ f, hf_path f = path ∧ hf_nclx f = mkNclx 1 13 1 1 ∧
       image_holds (hf_image f) out w h 8 create_srgb_v4_icc (mkNclx 1 13 1 1) None None) ∧
     (accepting → create_srgb_v4_icc ≠ [] → ∃ f, write_heif_sdr path image quality = Ok f)) ∧
  (∀ pow icc, view_ok hdr_coding image samples →
   let file := write_heif_hdr_pq pow icc path image quality in
   (∀ st msg, start_image image = Fail st msg → file = Fail CPIPE_FAILED msg) ∧
   (∀ e, start_image image = Ok tt → icc = Thrown e → file = Thrown e) ∧
   (∀ profile, start_image image = Ok tt → icc = Ok profile → compute_clli pow image = Undef → file = Undef) ∧
   (∀ profile clli, icc = Ok profile → compute_clli pow image = Ok clli →
    ∃ out, rgb_to_ycbcr420 hdr_coding image = Ok out ∧
      reports file (λ f, hf_path f = path ∧ hf_nclx f = mkNclx 9 16 9 1 ∧ en_quality (hf_encoder f) = Some quality ∧
        image_holds (hf_image f) out w h 10 profile (mkNclx 9 16 9 1) (Some default_mdcv) (Some clli)) ∧
      (accepting → profile ≠ [] → ∃ f, file = Ok f))).
Proof using HeifLaws0.
  split; [apply write_sdr_spec|]. intros pow icc Hv file.
  destruct (write_hdr_errors pow path image samples quality icc Hv) as (H1 & H2 & H3). split_and!; [done..|].
  intros profile clli -> Hc. by apply (write_hdr_spec pow path image samples).
Qed.

End Planes.

(** ** Witnesses *)

(** A library that refuses nothing; its rows are longer than they need to be. *)
#[local] Instance example_lib : HeifLib := {|
  heif_context_alloc := true;
  heif_image_create _ _ := heif_error_Ok;
  heif_image_add_plane _ _ w h _ :=
    if (0 <? w) && (w <? 2 ^ 31) && (0 <? h) && (h <? 2 ^ 31) then inr (2 * w, replicate (Z.to_nat (2 * w * h)) 0) else inl None;
  heif_image_get_plane2 _ _ := true;
  heif_nclx_color_profile_alloc := true;
  heif_image_set_raw_color_profile _ _ := heif_error_Ok;
  heif_image_set_nclx_color_profile _ _ := heif_error_Ok;
  heif_get_encoder_descriptors _ _ := (1, Some 0%nat);
  heif_context_get_encoder _ := heif_error_Ok;
  heif_encoder_set_lossy_quality _ _ := heif_error_Ok;
  heif_encoding_options_alloc := true;
  heif_context_encode_image _ _ _ := heif_error_Ok;
  heif_context_write_to_file _ := heif_error_Ok;
  cmsCreate_sRGBProfile := true;
  cmsSaveProfileSize := Some 1;
  cmsSaveProfileToMem _ := Some [7]
|}.

Lemma example_laws : HeifLaws example_lib.
Proof.
  split. intros img ch w h depth stride mem Ha Hw Hh. cbn in Ha.
  destruct ((0 <? w) && (w <? 2 ^ 31) && (0 <? h) && (h <? 2 ^ 31)) eqn:Hb; [|done]. injection Ha as <- <-.
  rewrite !andb_true_iff, !Z.ltb_lt in Hb. assert (w * h ≤ (2 ^ 31 - 1) * (2 ^ 31 - 1)) by nia. split_and!.
  - by apply Forall_replicate.
  - case_match; lia.
  - unfold len. rewrite length_replicate. nia.
  - unfold len. rewrite length_replicate. nia.
Qed.

Lemma example_accepting : accepting.
Proof.
  split; try done.
  - intros img ch w h depth Hw Hh. cbn. rewrite !(proj2 (Z.ltb_lt _ _)) by lia. by eexists.
  - intros format name. by exists 1, 0%nat.
Qed.

Lemma example_icc : create_srgb_v4_icc ≠ [].
Proof. by vm_compute. Qed.

(** White and black in 16 bits, and a power function that keeps the unit interval. *)
Definition example_hdr_view : ImageView := mkView (Some [65535; 65535; 65535; 65535; 0; 0; 0; 65535]) 2 1 2.

Definition example_pow (v _ : float32) : float32 := v.

Lemma example_hdr_view_ok : view_ok hdr_coding example_hdr_view (default [] (iv_pixels example_hdr_view)).
Proof.
  split; try done; try (cbn; lia). cbn [example_hdr_view iv_pixels default]. unfold sample_in.
  repeat (apply Forall_cons; split; [by vm_compute|]). by apply Forall_nil.
Qed.

(** SDR: an image of two rows, the second row of luma starts at the stride.  HDR: the
    light levels of white and black, and the exception when there is no profile. *)
Lemma write_heif_exact_witness :
  (∃ f p rest, write_heif_sdr "out.heif" example_view 58 = Ok f ∧ hm_planes (hf_image f) = p :: rest ∧
    subspan (pn_memory p) (1 * pn_stride p) 3 = [255; 7; 9]) ∧
  (∃ f, write_heif_hdr_pq example_pow (Ok [7]) "out.heif" example_hdr_view 58 = Ok f ∧ hm_clli (hf_image f) = Some (10000, 5000)) ∧
  write_heif_hdr_pq example_pow (Thrown runtime_error) "out.heif" example_hdr_view 58 = Thrown runtime_error.
Proof.
  split; [|split].
  - destruct (write_heif_exact (HeifLaws0 := example_laws) "out.heif" example_view (default [] (iv_pixels example_view)) 58)
      as [(out & Hout & Hr & Hw) _]; [apply example_view_ok|].
    destruct (Hw example_accepting example_icc) as [f Hf]. rewrite Hf in Hr. destruct Hr as (_ & _ & Hi).
    destruct (ih_planes _ _ _ _ _ _ _ _ _ Hi) as (py & pcb & pcr & Hp & [_ Hy] & _). exists f, py, [pcb; pcr]. split_and!; [done..|].
    trans (subspan (pn_memory py) (1 * pn_stride py) (iv_width example_view * Z.of_nat (sample_width 8))); [done|].
    rewrite (Hy 1) by (cbn; lia). clear - Hout. vm_compute in Hout. injection Hout as <-. by vm_compute.
  - destruct (write_heif_exact (HeifLaws0 := example_laws) "out.heif" example_hdr_view (default [] (iv_pixels example_hdr_view)) 58)
      as [_ H]. destruct (H example_pow (Ok [7]) example_hdr_view_ok) as (_ & _ & _ & Hf).
    destruct (Hf [7] (10000, 5000) eq_refl) as (out & _ & Hr & Hw); [vm_compute; reflexivity|].
    assert (Hi : [7] ≠ []) by discriminate.
    destruct (Hw example_accepting Hi) as [f E]. exists f. split; [exact E|]. rewrite E in Hr. clear - Hr.
    destruct Hr as (_ & _ & _ & Hl). exact (proj2 (ih_light _ _ _ _ _ _ _ _ _ Hl)).
  - destruct (write_heif_exact (HeifLaws0 := example_laws) "out.heif" example_hdr_view (default [] (iv_pixels example_hdr_view)) 58)
      as [_ H]. destruct (H example_pow (Thrown runtime_error) example_hdr_view_ok) as (_ & He & _). apply (He runtime_error); reflexivity.
Defined.
