(* ===== verification/IoNodes.v ===== *)
(** * The nodes at the ends of a pipeline

    Models nodes/dng_input, which puts a file's image into the pipeline,
    nodes/fusion/hdr_plus_derivative.cpp, which hands on its reference frame,
    nodes/color/scene_linear_to_display.cpp, which encodes the image for a display, and
    nodes/output/heif_sdr.cpp and heif_hdr_pq.cpp, which write it to a file; and the
    wrappers of sdk.hpp for colour processors.

    [display_to_file] follows an image from scene-linear light through the display node
    into the file; [only_display_images_written] is about every call of an output node,
    [reference_frame_copied] about the fusion node. *)

From Stdlib Require Import ZArith Lia SpecFloat.
From stdpp Require Import prelude strings list gmap.
From S2P Require Import Prelude Core Json HalfFloat HostContext StateRes Float32 Float64 ComputeContext OpcodeList3 LensFilter Sdk Nodes.
From S2P Require Import DngParser DngReader FloatValid NodeContract HeifPlanes HeifWriter.

Local Open Scope Z_scope.

(** ** State *)

(** A call of these nodes also reaches the colour processors of the host and the files
    that have been written. *)
Record IoWorld : Type := mkIo { io_world : World; io_processors : list cpipe_ocio_processor_s; io_files : list HeifFile }.

Abbreviation io := (sr IoWorld).

Definition on_world {A} (m : sdk A) : io A := λ s, let '(r, w) := m (io_world s) in (r, mkIo w (io_processors s) (io_files s)).

(** A call whose error is looked at later. *)
Definition outcome {S A} (m : sr S A) : sr S (res A) := λ s,
  match m s with
  | (Thrown e, s') => (Thrown e, s')
  | (Undef, s') => (Undef, s')
  | (r, s') => (Ok r, s')
  end.

(** ** Wrappers *)

Definition buffer_cs_role (b : Buffer) : sdk string :=
  view ← buffer_metadata b;
  match view with None => mret "" | Some m => lift (metadata_cs_role m) end.

Section Ocio.

(** OpenColorIO, and whether GPU processors are made. *)
Variables (create : string → string → string → res (list Z → list Z)) (vulkan_enabled : bool).

Definition compute_get_ocio_processor (host_null : bool) (config_path src_cs dst_cs : string) : io (option nat) := λ s,
  if host_null then (Ok None, s) else
  let '(found, processors) := get_ocio_processor create vulkan_enabled false (io_processors s) (Some config_path) (Some src_cs) (Some dst_cs) in
  (Ok found, mkIo (io_world s) processors (io_files s)).

Definition compute_submit_ocio_processor (c : SdkCompute) (processor : nat) (input output : Buffer) : io unit := λ s,
  if null (sc_suite c) then (Fail CPIPE_UNSUPPORTED "compute suite OCIO unavailable", s) else
  let w := io_world s in
  match submit_ocio_processor (io_processors s !! processor) (handle_of w (sb_impl input)) (handle_of w (sb_impl output)) with
  | Ok (i, o) =>
      let w := store_back (sb_impl input) (make_buffer_handle (Some i)) w in
      let w := store_back (sb_impl output) (make_buffer_handle (Some o)) w in
      (Ok tt, mkIo w (io_processors s) (io_files s))
  | Fail st _ => (Fail st "submit_ocio_processor failed", s)
  | Thrown e => (Thrown e, s)
  | Undef => (Undef, s)
  end.

End Ocio.

Section Processes.

Context {J : JsonLib}.

(** ** The fusion node *)

Definition checked_raw16_size (input output : Buffer) : sdk Z :=
  _ ← check_formats input output R16_UINT R16_UINT "hdr_plus_derivative needs R16";
  input_dims ← buffer_dims input;
  output_dims ← buffer_dims output;
  match input_dims with
  | [d0; d1] =>
      if negb (bool_decide (input_dims = output_dims)) || (d0 =? 0) || (d1 =? 0)
      then failS CPIPE_BAD_INDEX "hdr_plus_derivative layout mismatch"
      else mret (u64 (d0 * d1 * bytes_per_pixel R16_UINT))
  | _ => failS CPIPE_BAD_INDEX "hdr_plus_derivative layout mismatch"
  end.

(** Both buffers are unlocked before the errors are looked at, the output first. *)
Definition copy_ref_frame (input output : Buffer) (n : Z) : sdk unit :=
  input_lock ← buffer_lock_cpu input 0;
  locked ← outcome (buffer_lock_cpu output 1);
  match locked with
  | Ok output_lock =>
      _ ← Nodes.memcpy output_lock input_lock n;
      output_unlock ← outcome (buffer_unlock_cpu output);
      input_unlock ← outcome (buffer_unlock_cpu input);
      _ ← lift output_unlock;
      _ ← lift input_unlock;
      buffer_flush_cpu_writes output
  | error => _ ← buffer_unlock_cpu input; _ ← lift error; mret tt
  end.

Definition HdrPlusDerivative_process (inputs outputs : list (option Buffer)) (out_metadata : list (option SdkBuilder)) : sdk unit :=
  match inputs, outputs, out_metadata with
  | [Some reference; Some _], [Some output], Some u :: _ =>
      n ← checked_raw16_size reference output;
      _ ← copy_ref_frame reference output n;
      builder_add_applied_step u "burst_fusion_stub"
  | _, _, _ => failS CPIPE_BAD_INDEX "hdr_plus_derivative missing buffers"
  end.

(** ** The display node *)

Definition kInputRole : string := "scene_linear_rec2020".
Definition kStep : string := "color.scene_linear_to_display".

(** The destination of a display target is also its metadata role. *)
Record TargetInfo : Type := mkTarget { dst_cs : string; metadata_role : string; output_format : PixelFormat }.

Definition srgb_target : TargetInfo := mkTarget "output_srgb" "output_srgb" R8G8B8A8_UNORM.
Definition pq_target : TargetInfo := mkTarget "output_pq_rec2020" "output_pq_rec2020" R16G16B16A16_UNORM.

Definition target_info (params : ParamView) : res TargetInfo :=
  target ← param_string params "target";
  if String.eqb target "sRGB" then Ok srgb_target else
  if String.eqb target "BT2020-PQ" then Ok pq_target else
  if String.eqb target "DisplayP3" || String.eqb target "BT2020-HLG"
  then Fail CPIPE_UNSUPPORTED "display target reserved for v1.1"
  else Fail CPIPE_NEED_PARAM "unknown display target".

Definition require_buffers (input output : Buffer) (output_format : PixelFormat) : sdk unit :=
  _ ← check_formats input output R16G16B16A16_SFLOAT output_format "scene_linear_to_display format mismatch";
  input_dims ← buffer_dims input;
  output_dims ← buffer_dims output;
  if negb (bool_decide (input_dims = output_dims)) || negb (length input_dims =? 2)%nat
  then failS CPIPE_BAD_INDEX "scene_linear_to_display dimension mismatch" else
  role ← buffer_cs_role input;
  if String.eqb role kInputRole then mret tt
  else failS CPIPE_NEED_METADATA "scene_linear_to_display needs Rec2020 scene linear".

(** [CPIPE_OCIO_CONFIG] of the environment, else the path of the build. *)
Definition default_ocio_config_path (env : option string) (installed : string) : string :=
  match env with Some path => if String.eqb path "" then installed else path | None => installed end.

Definition SceneLinearToDisplay_process (create : string → string → string → res (list Z → list Z)) (vulkan_enabled host_null : bool)
    (env : option string) (installed : string) (compute : SdkCompute) (params : ParamView) (inputs outputs : list (option Buffer))
    (out_metadata : list (option SdkBuilder)) : io unit :=
  '(i, o, u) ← lift (one_to_one inputs outputs out_metadata "scene_linear_to_display missing buffers");
  target ← lift (target_info params);
  _ ← on_world (require_buffers i o (output_format target));
  processor ← compute_get_ocio_processor create vulkan_enabled host_null (default_ocio_config_path env installed) kInputRole (dst_cs target);
  match processor with
  | None => failS CPIPE_FAILED "scene_linear_to_display OCIO processor unavailable"
  | Some processor =>
      _ ← compute_submit_ocio_processor compute processor i o;
      _ ← on_world (builder_set_cs_role u (metadata_role target));
      on_world (builder_add_applied_step u kStep)
  end.

(** ** The output nodes *)

Definition checked_input (input : Buffer) (format : PixelFormat) (name : string) : sdk (list Z) :=
  f ← buffer_format input;
  if negb (f =? format_value format) then failS CPIPE_BAD_PRECISION (name +:+ " format mismatch") else
  check_image2d input (name +:+ " needs Image2D input").

(** The samples behind a [const std::uint16_t*]. *)
Fixpoint uint16_samples (bs : bytes) : list Z :=
  match bs with
  | lo :: hi :: bs => lo + 256 * hi :: uint16_samples bs
  | _ => []
  end.

(** The role and the step an image for the file has. *)
Definition displayed_as (role : string) (metadata : option SdkMetadata) : res bool :=
  match metadata with
  | None => Ok false
  | Some m =>
      r ← metadata_cs_role m;
      if String.eqb r role then metadata_has_step m kStep else Ok false
  end.

(** A written file is one more file. *)
Definition write_file (m : res HeifFile) : io unit := λ s,
  match m with
  | Ok f => (Ok tt, mkIo (io_world s) (io_processors s) (io_files s ++ [f]))
  | Fail st msg => (Fail st msg, s)
  | Thrown e => (Thrown e, s)
  | Undef => (Undef, s)
  end.

(** What the two output nodes differ in. *)
Record Output : Type := mkOutput {
  ou_name : string; ou_role : string; ou_format : PixelFormat; ou_samples : bytes → list Z;
  ou_write : string → ImageView → Z → res HeifFile
}.

(** [process] of OutputHeifSdr and OutputHeifHdrPq. *)
Definition heif_process (out : Output) (params : ParamView) (inputs outputs : list (option Buffer)) : io unit :=
  match inputs, outputs with
  | [Some input], [] =>
      dims ← on_world (checked_input input (ou_format out) (ou_name out));
      metadata ← on_world (buffer_metadata input);
      displayed ← lift (displayed_as (ou_role out) metadata);
      if negb displayed then failS CPIPE_NEED_METADATA (ou_name out +:+ " needs " +:+ ou_role out) else
      path ← lift (param_string params "path");
      loc ← on_world (buffer_lock_cpu input 0);
      memory ← gets (λ s, w_store (io_world s) !! loc ≫= cb_data);
      match dims with
      | [d0; d1] =>
          status ← outcome (write_file (ou_write out path (mkView (ou_samples out <$> memory) d0 d1 d0) 58));
          _ ← attempt (on_world (buffer_unlock_cpu input));
          lift status
      | _ => lift Undef
      end
  | _, _ => failS CPIPE_BAD_INDEX (ou_name out +:+ " expects one input")
  end.

Section Outputs.

Context {L : HeifLib}.

Definition sdr_output : Output := mkOutput "heif_sdr" "output_srgb" R8G8B8A8_UNORM id write_heif_sdr.

Definition OutputHeifSdr_process : ParamView → list (option Buffer) → list (option Buffer) → io unit := heif_process sdr_output.

(** [std::pow] and the outcome of the ICC writer are parameters of the HDR writer. *)
Definition hdr_output (pow : float32 → float32 → float32) (icc : res bytes) : Output :=
  mkOutput "heif_hdr_pq" "output_pq_rec2020" R16G16B16A16_UNORM uint16_samples (write_heif_hdr_pq pow icc).

Definition OutputHeifHdrPq_process pow icc : ParamView → list (option Buffer) → list (option Buffer) → io unit :=
  heif_process (hdr_output pow icc).

End Outputs.

(** ** The input node *)

(** A handle of a buffer that was not in the store. *)
Definition share_buffer (b : option CpuBuffer) : sdk handle := λ w,
  match b with
  | Some b => (Ok (Some (Some (length (w_store w)))), with_store w (w_store w ++ [b]))
  | None => (Ok (Some None), w)
  end.

(** What the output handle shares afterwards: the image is a new buffer.  The reader
    opens the file at the path, for the strip once more, and asks LibRaw for it. *)
Definition DngInput_process vector_fails alloc (files strip_files : string → option bytes) (libraw : string → option LibRawData)
    (params : ParamView) (outputs : list (option Buffer)) : sdk handle :=
  match outputs with
  | Some o :: _ =>
      if null (sb_impl o) then failS CPIPE_BAD_INDEX "dng_input missing output" else
      path ← lift (param_string params "path");
      result ← lift (DngReader.read vector_fails alloc (files path) (strip_files path) (libraw path));
      if decide (dr_status result = CPIPE_OK) then share_buffer (dr_buffer result)
      else failS (dr_status result) (dr_message result)
  | _ => failS CPIPE_BAD_INDEX "dng_input missing output"
  end.

End Processes.

(** ** Samples *)

Lemma load_all_words bs n : ∀ k, (length bs = 2 * (k + n))%nat →
  load_all (Some bs) 2 k n = Ok (uint16_samples (drop (k * 2) bs)).
Proof.
  induction n as [|n IH]; intros k Hl; cbn [load_all].
  - by rewrite drop_ge by lia.
  - unfold load_le. rewrite (proj2 (Nat.ltb_ge _ _)) by lia. rewrite Ok_bind, IH, Ok_bind by lia. do 2 f_equal.
    replace (S k * 2)%nat with (2 + k * 2)%nat by lia. rewrite Nat.add_comm, <-drop_drop.
    destruct (drop (k * 2) bs) as [|lo [|hi t]] eqn:Hd; apply (f_equal length) in Hd; rewrite length_drop in Hd; cbn in Hd; [lia..|].
    change (drop 2 (lo :: hi :: t)) with (drop 0 t). rewrite drop_0. simpl. by rewrite Z.add_0_r.
Qed.

Lemma words_bytes values : Forall (λ v, 0 ≤ v < 65536) values → uint16_samples (values ≫= le_bytes 2) = values.
Proof.
  induction 1 as [|v values Hv _ IH]; [done|].
  change (v `mod` 256 + 256 * ((v / 256) `mod` 256) :: uint16_samples (values ≫= le_bytes 2) = v :: values). rewrite IH. f_equal.
  rewrite (Z.mod_small (v / 256)) by (Z.div_mod_to_equations; lia). pose proof (Z.div_mod v 256). lia.
Qed.

Lemma bytes_bytes values : Forall (λ v, 0 ≤ v < 256) values → values ≫= le_bytes 1 = values.
Proof.
  induction 1 as [|v values Hv _ IH]; [done|]. rewrite bind_cons, IH. simpl. by rewrite Z.mod_small.
Qed.

(** A sample of a display image: a number that is not NaN is clamped and rounded. *)
Lemma clamp01_below bits : float_of_bits bits ≠ S754_nan → below 1 (clamp01 (float_of_bits bits)).
Proof.
  intros Hn. unfold clamp01. destruct (SFltb (float_of_bits bits) f_zero) eqn:H0; [done|].
  destruct (SFltb f32_one (float_of_bits bits)) eqn:H1; [vm_compute; split; congruence|].
  destruct (float_of_bits bits) as [| [] | |sg m e] eqn:Hb; [done|done|done|done|]. destruct sg; [done|].
  assert (Z.pos m < 2 ^ 24) as Hm.
  { assert (0 ≤ Z.land bits 0x7fffff < 2 ^ 23) as Hr by (change 0x7fffff with (Z.ones 23); rewrite Z.land_ones by lia; apply Z.mod_pos_bound; lia).
    unfold float_of_bits in Hb. destruct (_ =? 255); [by destruct (_ =? 0)|]. destruct (_ =? 0).
    - destruct (Z.land bits 0x7fffff); [done|injection Hb as _ <- _; lia|done].
    - assert (Z.lor (Z.land bits 0x7fffff) 0x800000 < 2 ^ 24) as Hl.
      { destruct (decide (Z.lor (Z.land bits 0x7fffff) 0x800000 = 0)); [lia|]. apply Z.log2_lt_cancel. rewrite Z.log2_lor by lia.
        change (Z.log2 (2 ^ 24)) with 24. apply Z.max_lub_lt; [|done]. destruct (decide (Z.land bits 0x7fffff = 0)) as [->|]; [done|].
        apply Z.log2_lt_pow2; lia. }
      destruct (Z.lor _ _) as [|m'|]; [done|injection Hb as _ <- _; lia|done]. }
  change f32_one with (S754_finite false 8388608 (-23)) in H1. unfold SFltb, SFcompare in H1. cbn [below].
  destruct (Z.compare_spec (-23) e) as [Ee|Ee|Ee]; [|done|].
  - subst e. split; [lia|]. change (1 - -23) with 24. lia.
  - split; [lia|]. pose proof (Z.pow_le_mono_r 2 24 (1 - e)). lia.
Qed.

(** The two display targets. *)
Definition target_of (hdr : bool) : TargetInfo := if hdr then pq_target else srgb_target.
Definition target_name (hdr : bool) : string := if hdr then "BT2020-PQ" else "sRGB".
Definition coding_of (hdr : bool) : Coding := if hdr then hdr_coding else sdr_coding.
Definition sample_bytes_of (hdr : bool) : nat := if hdr then 2%nat else 1%nat.

Definition display_code (hdr : bool) (bits : Z) : res Z :=
  if hdr then float_to_unorm10_top_aligned (float_of_bits bits) else float_to_unorm8 (float_of_bits bits).
Definition display_sample (hdr : bool) (bits : Z) : Z := value_of 0 (display_code hdr bits).

Definition number (bits : Z) : Prop := float_of_bits bits ≠ S754_nan.

Lemma code_rounds bits n : number bits → 0 ≤ n < 1024 → ∃ r, lround (SFmul 24 128 (clamp01 (float_of_bits bits)) (float_of_int n)) = Ok r.
Proof.
  intros Hb Hn. apply (lround_below (1 + 10)), mul_below; [lia|by apply clamp01_below|]. apply of_int_below; lia.
Qed.

Lemma display_sample_exact hdr bits :
  number bits → display_code hdr bits = Ok (display_sample hdr bits) ∧
    0 ≤ display_sample hdr bits < 256 ^ Z.of_nat (sample_bytes_of hdr) ∧ sample_in (coding_of hdr) (display_sample hdr bits).
Proof.
  intros Hb. unfold display_sample, display_code, sample_in. destruct hdr; unfold float_to_unorm10_top_aligned, float_to_unorm8.
  - destruct (code_rounds bits 1023 Hb) as [r ->]; [lia|]. rewrite !Ok_bind. cbn [value_of coding_of hdr_coding cd_shift cd_max].
    unfold u16, wrap. set (v := Z.shiftl _ _). pose proof (Z.mod_pos_bound v (2 ^ 16) ltac:(lia)).
    split_and!; [done|lia|cbn; lia|..]; rewrite Z.shiftr_div_pow2 by lia; Z.div_mod_to_equations; lia.
  - destruct (code_rounds bits 255 Hb) as [r ->]; [lia|]. rewrite !Ok_bind. cbn [value_of coding_of sdr_coding cd_shift cd_max].
    rewrite Z.shiftr_0_r. unfold u8, wrap. pose proof (Z.mod_pos_bound r (2 ^ 8) ltac:(lia)). cbn. split_and!; [done|lia..].
Qed.

Lemma display_samples_ok hdr l :
  Forall number l → map_res (display_code hdr) l = Ok (display_sample hdr <$> l) ∧
    Forall (λ v, 0 ≤ v < 256 ^ Z.of_nat (sample_bytes_of hdr)) (display_sample hdr <$> l) ∧
    Forall (sample_in (coding_of hdr)) (display_sample hdr <$> l).
Proof.
  intros Hl. rewrite Forall_forall in Hl. split; [|rewrite !Forall_fmap, !Forall_forall; split];
    [apply map_res_exact|..]; intros x Hx; by apply display_sample_exact, Hl.
Qed.

(** ** Images *)

(** An image in the memory of an unlocked CPU buffer. *)
Record image_in (b : CpuBuffer) (f : PixelFormat) (w h : Z) (data : bytes) : Prop := {
  ii_kind : kind (cb_layout b) = Image2D;
  ii_ndim : ndim (cb_layout b) = 2;
  ii_dims : ∃ rest, dims (cb_layout b) = w :: h :: rest;
  ii_format : format (cb_layout b) = f;
  ii_data : cb_data b = Some data;
  ii_len : len data = w * h * bytes_per_pixel f;
  ii_width : 0 < w < 2 ^ 31;
  ii_height : 0 < h < 2 ^ 31;
  ii_small : w * h < 2 ^ 58;
  ii_unlocked : cb_locked b = false;
  ii_read : has_usage (cb_usage b) usage_CpuRead = true;
  ii_write : has_usage (cb_usage b) usage_CpuWrite = true
}.

Section Image.

Context (b : CpuBuffer) (f : PixelFormat) (w h : Z) (data : bytes).
Hypothesis Hb : image_in b f w h data.

Lemma image_lock access : lock_cpu access b = Ok (Some data, buffer_with_lock b true).
Proof using Hb.
  destruct Hb as [_ _ _ _ Hd _ _ _ _ Hl Hr Hw]. pose proof (lock_ready access b false Hr Hw) as H.
  rewrite <-Hd. rewrite <-H. f_equal. destruct b. cbn in *. by rewrite Hl.
Qed.

Lemma image_unlock : buffer_with_lock (buffer_with_lock b true) false = b.
Proof using Hb. pose proof (ii_unlocked _ _ _ _ _ Hb). destruct b. cbn in *. by subst. Qed.

Lemma image_dims : nth8 (dims (cb_layout b)) 0 = w ∧ nth8 (dims (cb_layout b)) 1 = h.
Proof using Hb. destruct (ii_dims _ _ _ _ _ Hb) as [rest ->]. done. Qed.

(** The floats of a half image. *)
Lemma read_ocio_exact :
  f = R16G16B16A16_SFLOAT → read_ocio_input b (cb_layout b) = Ok (half_to_bits <$> uint16_samples data, b).
Proof using Hb.
  intros Hf. destruct image_dims as [Hw Hh]. pose proof (ii_width _ _ _ _ _ Hb). pose proof (ii_height _ _ _ _ _ Hb).
  pose proof (ii_small _ _ _ _ _ Hb). unfold read_ocio_input. rewrite Hw, Hh, (u64_small (w * h)), u64_small by lia.
  rewrite image_lock, Ok_bind, (ii_format _ _ _ _ _ Hb), Hf. rewrite decide_False by done.
  pose proof (ii_len _ _ _ _ _ Hb) as Hl. rewrite Hf in Hl. change (bytes_per_pixel R16G16B16A16_SFLOAT) with 8 in Hl.
  rewrite load_all_words by (unfold len in Hl; lia). cbn [Nat.mul Nat.add]. rewrite drop_0, !Ok_bind. unfold unlock_cpu. cbn.
  by rewrite image_unlock.
Qed.

(** The samples of a display image. *)
Lemma write_ocio_exact hdr samples :
  f = output_format (target_of hdr) → len samples = w * h * 4 → Forall number samples →
  write_ocio_output b (cb_layout b) samples
  = Ok (buffer_with_data b (Some ((display_sample hdr <$> samples) ≫= le_bytes (sample_bytes_of hdr)))).
Proof using Hb.
  intros Hf Hl Hs. destruct (display_samples_ok hdr samples Hs) as (Hm & _ & _). pose proof (ii_len _ _ _ _ _ Hb) as Hd. rewrite Hf in Hd.
  assert (length ((display_sample hdr <$> samples) ≫= le_bytes (sample_bytes_of hdr)) = length data) as Hlen.
  { rewrite length_bind_le_bytes, length_fmap. unfold len in *. destruct hdr; cbn in *; lia. }
  assert (Hst : store_all (Some data) (sample_bytes_of hdr) (display_sample hdr <$> samples)
    = Ok (Some ((display_sample hdr <$> samples) ≫= le_bytes (sample_bytes_of hdr)))).
  { pose proof Hlen as Hlen'. rewrite length_bind_le_bytes in Hlen'. unfold store_all. rewrite <-Hlen' in *.
    destruct (display_sample hdr <$> samples) as [|v l] eqn:E.
    - cbn in Hlen'. by destruct data.
    - rewrite Hlen', (proj2 (Nat.ltb_ge _ _)) by lia. by rewrite drop_ge, app_nil_r by lia. }
  unfold write_ocio_output. rewrite (ii_format _ _ _ _ _ Hb), Hf. pose proof (ii_unlocked _ _ _ _ _ Hb) as Hu.
  destruct hdr; cbn [sample_bytes_of] in *; rewrite !decide_False by done; rewrite decide_True by done; rewrite image_lock, Ok_bind;
    [change (λ x : Z, float_to_unorm10_top_aligned (float_of_bits x)) with (display_code true)
    |change (λ x : Z, float_to_unorm8 (float_of_bits x)) with (display_code false)];
    rewrite Hm, Ok_bind, Hst, Ok_bind; unfold unlock_cpu; cbn; destruct b; cbn in *; by subst.
Qed.

End Image.

(** ** Views of an image *)

Section View.

Context (st : World) (loc : nat) (b : CpuBuffer) (f : PixelFormat) (w h : Z) (data : bytes).
Hypothesis Hloc : w_store st !! loc = Some b.
Hypothesis Hb : image_in b f w h data.

Lemma view_handle : handle_of st (Some (Some loc)) = Some (make_buffer_handle (Some b)).
Proof using Hloc. unfold handle_of. cbn. by rewrite Hloc. Qed.

Lemma view_format : buffer_format (buffer_view loc) st = (Ok (format_value f), st).
Proof using Hloc Hb.
  unfold buffer_format, buffer_call. cbn [null orb sb_suite sb_impl buffer_view]. rewrite view_handle. cbn. by rewrite (ii_format _ _ _ _ _ Hb).
Qed.

Lemma view_dims : buffer_dims (buffer_view loc) st = (Ok [w; h], st).
Proof using Hloc Hb.
  unfold buffer_dims, buffer_call, mbind, sr_bind. cbn [null orb sb_suite sb_impl buffer_view]. rewrite view_handle.
  unfold get_dims, copy8. cbn. rewrite (ii_ndim _ _ _ _ _ Hb). destruct (ii_dims _ _ _ _ _ Hb) as [rest ->]. done.
Qed.

Lemma view_metadata m :
  cb_metadata b = Some m → buffer_metadata (buffer_view loc) st = (Ok (Some (mkSdkMetadata (Some (Some m)) (Some SuiteMetadata))), st).
Proof using Hloc. intros Hm. unfold buffer_metadata. cbn [sb_suite sb_metadata_suite sb_impl buffer_view]. rewrite view_handle. cbn. by rewrite Hm. Qed.

Lemma view_lock access :
  buffer_lock_cpu (buffer_view loc) access st = (Ok loc, with_store st (<[loc := buffer_with_lock b true]> (w_store st))).
Proof using Hloc Hb.
  unfold buffer_lock_cpu. cbn [null orb sb_suite sb_impl buffer_view]. rewrite view_handle. unfold host_lock_cpu. cbn [make_buffer_handle bh_buffer].
  by rewrite (image_lock _ _ _ _ _ Hb), Ok_bind.
Qed.

(** Unlocking gives the state before the lock. *)
Lemma view_unlock :
  buffer_unlock_cpu (buffer_view loc) (with_store st (<[loc := buffer_with_lock b true]> (w_store st))) = (Ok tt, st).
Proof using Hloc Hb.
  unfold buffer_unlock_cpu. cbn [null orb sb_suite sb_impl buffer_view]. unfold handle_of. cbn [option_map mbind option_bind with_store w_store].
  rewrite list_lookup_insert_eq by (by eapply lookup_lt_Some). cbn -[insert]. rewrite (image_unlock _ _ _ _ _ Hb).
  unfold with_store. cbn -[insert]. rewrite list_insert_insert_eq, list_insert_id by done. by destruct st.
Qed.

Lemma check_image_view message : check_image2d (buffer_view loc) message st = (Ok [w; h], st).
Proof using Hloc Hb.
  unfold check_image2d, mbind, sr_bind. rewrite view_dims. pose proof (ii_width _ _ _ _ _ Hb). pose proof (ii_height _ _ _ _ _ Hb).
  by rewrite !(proj2 (Z.eqb_neq _ 0)) by lia.
Qed.

End View.

Lemma check_formats_views st i o bi bo fi fo w h di w' h' do_ message :
  w_store st !! i = Some bi → w_store st !! o = Some bo → image_in bi fi w h di → image_in bo fo w' h' do_ →
  check_formats (buffer_view i) (buffer_view o) fi fo message st = (Ok tt, st).
Proof.
  intros Hi Ho Hbi Hbo. unfold check_formats, mbind, sr_bind. rewrite (view_format _ _ _ _ _ _ _ Hi Hbi), (view_format _ _ _ _ _ _ _ Ho Hbo).
  by rewrite !Z.eqb_refl.
Qed.

(** ** The display node *)

Lemma builder_open st u h f message h' :
  w_builders st !! u = Some h → f (Some h) = Ok h' →
  builder_call (builder_view u) f message st = (Ok tt, with_builders st (<[u := h']> (w_builders st))).
Proof. intros Hu Hf. unfold builder_call. cbn [builder_view sbu_suite sbu_impl null orb mbind option_bind]. by rewrite Hu, Hf. Qed.

Lemma on_world_Ok {A} (m : sdk A) s a w :
  m (io_world s) = (Ok a, w) → on_world m s = (Ok a, mkIo w (io_processors s) (io_files s)).
Proof. unfold on_world. by intros ->. Qed.

Section Display.

Context {J : JsonLib}.
Context (create : string → string → string → res (list Z → list Z)) (vulkan_enabled : bool) (env : option string) (installed : string).
Context (hdr : bool) (s : IoWorld) (i o u : nat) (bi bo : CpuBuffer) (w h : Z) (from to : bytes) (m : BufferMetadata).
Context (builder : cpipe_metadata_builder_s) (p : nat) (processors : list cpipe_ocio_processor_s) (proc : cpipe_ocio_processor_s).
Context (apply : list Z → list Z).

(** A call of the display node: a scene-linear half image, an output of the target's
    format, an open builder, a processor for the target, whose output has no NaN. *)
Record display_call : Prop := {
  dc_in : w_store (io_world s) !! i = Some bi;
  dc_out : w_store (io_world s) !! o = Some bo;
  dc_input : image_in bi R16G16B16A16_SFLOAT w h from;
  dc_output : image_in bo (output_format (target_of hdr)) w h to;
  dc_metadata : cb_metadata bi = Some m;
  dc_role : cs_role m = kInputRole;
  dc_builder : w_builders (io_world s) !! u = Some builder;
  dc_open : frozen_ (bu_builder builder) = None;
  dc_processor : get_ocio_processor create vulkan_enabled false (io_processors s) (Some (default_ocio_config_path env installed))
    (Some kInputRole) (Some (dst_cs (target_of hdr))) = (Some p, processors);
  dc_found : processors !! p = Some proc;
  dc_cpu : oc_cpu_processor proc = Some apply;
  dc_length : ∀ l, length (apply l) = length l;
  dc_numbers : Forall number (apply (half_to_bits <$> uint16_samples from))
}.

(** The samples of the display image, and its bytes. *)
Definition display_samples : list Z := display_sample hdr <$> apply (half_to_bits <$> uint16_samples from).
Definition display_bytes : bytes := display_samples ≫= le_bytes (sample_bytes_of hdr).

Hypothesis Hc : display_call.

Lemma require_view : require_buffers (buffer_view i) (buffer_view o) (output_format (target_of hdr)) (io_world s) = (Ok tt, io_world s).
Proof using Hc.
  destruct Hc as [Hi Ho Hbi Hbo Hm Hr _ _ _ _ _ _ _]. unfold require_buffers, mbind, sr_bind.
  rewrite (check_formats_views _ _ _ _ _ _ _ _ _ _ _ _ _ _ Hi Ho Hbi Hbo), (view_dims _ _ _ _ _ _ _ Hi Hbi), (view_dims _ _ _ _ _ _ _ Ho Hbo).
  rewrite bool_decide_true by done. cbn [negb orb length Nat.eqb]. unfold buffer_cs_role, mbind, sr_bind. rewrite (view_metadata _ _ _ Hi m Hm).
  unfold lift, metadata_cs_role. cbn. by rewrite Hr.
Qed.

Lemma length_words bs : (length (uint16_samples bs) = length bs / 2)%nat.
Proof.
  assert (∀ n bs, (length bs ≤ n)%nat → (length (uint16_samples bs) = length bs / 2)%nat) as H; [|by apply (H (length bs))].
  clear bs. induction n as [|n IH]; intros [|x [|y bs]] Hl; try done; cbn [length] in Hl; [lia|].
  cbn [uint16_samples length]. rewrite IH by lia. replace (S (S (length bs))) with (length bs + 1 * 2)%nat by lia.
  rewrite Nat.div_add by lia. lia.
Qed.

Lemma length_applied : len (apply (half_to_bits <$> uint16_samples from)) = w * h * 4.
Proof using Hc.
  destruct Hc as [_ _ Hbi _ _ _ _ _ _ _ _ Hl _]. unfold len. rewrite Hl, length_fmap, length_words.
  pose proof (ii_len _ _ _ _ _ Hbi) as H. change (bytes_per_pixel R16G16B16A16_SFLOAT) with 8 in H. unfold len in H.
  replace (length from) with (Z.to_nat (w * h * 4) * 2)%nat by lia. rewrite Nat.div_mul by lia.
  pose proof (ii_width _ _ _ _ _ Hbi). pose proof (ii_height _ _ _ _ _ Hbi). nia.
Qed.

Lemma submit_view :
  submit_ocio_processor (Some proc) (Some (make_buffer_handle (Some bi))) (Some (make_buffer_handle (Some bo)))
  = Ok (bi, buffer_with_data bo (Some display_bytes)).
Proof using Hc.
  destruct Hc as [_ _ Hbi Hbo _ _ _ _ _ _ Hp _ Hn]. unfold submit_ocio_processor. cbn [mbind option_bind make_buffer_handle bh_buffer]. rewrite Hp.
  destruct (image_dims _ _ _ _ _ Hbi) as [D1 D2]. destruct (image_dims _ _ _ _ _ Hbo) as [D3 D4].
  assert (validate_ocio_layouts (cb_layout bi) (cb_layout bo) = CPIPE_OK) as ->.
  { unfold validate_ocio_layouts. rewrite (ii_kind _ _ _ _ _ Hbi), (ii_kind _ _ _ _ _ Hbo), (ii_ndim _ _ _ _ _ Hbi), (ii_ndim _ _ _ _ _ Hbo).
    by rewrite D1, D2, D3, D4, !Z.eqb_refl, (ii_format _ _ _ _ _ Hbi). }
  rewrite decide_False by (intros []; done). rewrite (read_ocio_exact _ _ _ _ _ Hbi), Ok_bind by done.
  rewrite (write_ocio_exact _ _ _ _ _ Hbo hdr), Ok_bind by (done || apply length_applied). done.
Qed.

(** The metadata the node gives its output. *)
Definition displayed (b : cpipe_metadata_builder_s) : cpipe_metadata_builder_s :=
  let m := metadata_ (bu_builder b) in
  mkBuilderHandle (mkBuilder (mkMetadata (schema_version m) (calibration m) (capture m) (applied_steps m ++ [kStep])
    (metadata_role (target_of hdr)) (active_area m) (exif_blob m) (xmp_blob m) (icc_blob m) (mdcv m) (clli m) (ultrahdr m)
    (tensor_quant m) (ext_blobs m)) None) (bu_input_metadata b).

(** The state the display node leaves. *)
Definition display_world : World :=
  mkWorld (<[o := buffer_with_data bo (Some display_bytes)]> (w_store (io_world s))) (<[u := displayed builder]> (w_builders (io_world s)))
    (w_instances (io_world s)).

Lemma display_spec params :
  param_string params "target" = Ok (target_name hdr) →
  SceneLinearToDisplay_process create vulkan_enabled false env installed compute_view params
    [Some (buffer_view i)] [Some (buffer_view o)] [Some (builder_view u)] s
  = (Ok tt, mkIo display_world processors (io_files s)).
Proof using Hc.
  intros Ht. pose proof require_view as Hreq. pose proof submit_view as Hsub.
  destruct Hc as [Hi Ho Hbi Hbo _ _ Hu Hopen Hget Hfound _ _ _].
  unfold SceneLinearToDisplay_process, lift. cbn [one_to_one]. unfold mbind at 1. unfold sr_bind at 1.
  assert (target_info params = Ok (target_of hdr)) as -> by (unfold target_info; rewrite Ht; by destruct hdr).
  unfold mbind, sr_bind. unfold on_world at 1. rewrite Hreq. unfold compute_get_ocio_processor. cbn [io_processors io_world io_files].
  rewrite Hget. unfold compute_submit_ocio_processor. cbn [compute_view sc_suite null io_world io_processors io_files sb_impl buffer_view].
  rewrite Hfound, (view_handle _ _ _ Hi), (view_handle _ _ _ Ho), Hsub. cbn [store_back make_buffer_handle bh_buffer with_store w_store].
  rewrite (list_insert_id _ _ _ Hi). unfold on_world. cbn [io_world io_processors io_files]. unfold builder_set_cs_role, builder_add_applied_step.
  erewrite builder_open; [|exact Hu|unfold host_set_cs_role, with_builder, set_cs_role; by rewrite mutate_unfrozen].
  erewrite builder_open; cycle 1.
  { cbn -[insert]. apply list_lookup_insert_eq. by eapply lookup_lt_Some. }
  { unfold host_add_applied_step, with_builder, add_applied_step, set_steps. by rewrite mutate_unfrozen. }
  cbn -[insert]. rewrite list_insert_insert_eq. unfold display_world, displayed. reflexivity.
Qed.

End Display.

(** ** The output nodes *)

Definition with_file (s : IoWorld) (f : HeifFile) : IoWorld := mkIo (io_world s) (io_processors s) (io_files s ++ [f]).

(** What a call of an output node gives when its writer reports a file with [P]. *)
Definition file_added (P : HeifFile → Prop) (s : IoWorld) (r : res unit * IoWorld) : Prop :=
  match r with
  | (Ok _, s') => ∃ f, P f ∧ s' = with_file s f
  | (Fail st _, s') => st = CPIPE_FAILED ∧ s' = s
  | _ => False
  end.

Section Files.

Context {J : JsonLib}.

(** An image the display node made is handed to the writer, and the buffer is
    unlocked whatever the writer reports. *)
Lemma heif_exact (out : Output) params s loc b w h data m path :
  w_store (io_world s) !! loc = Some b → image_in b (ou_format out) w h data →
  cb_metadata b = Some m → cs_role m = ou_role out → kStep ∈ applied_steps m → param_string params "path" = Ok path →
  let r := ou_write out path (mkView (Some (ou_samples out data)) w h w) 58 in
  reports r (λ _, True) →
  heif_process out params [Some (buffer_view loc)] [] s
  = match r with Ok f => (Ok tt, with_file s f) | Fail st msg => (Fail st msg, s) | Thrown e => (Thrown e, s) | Undef => (Undef, s) end.
Proof.
  intros Hloc Hb Hm Hr Hstep Hp r Hrep. unfold heif_process, mbind, sr_bind. unfold on_world at 1. unfold checked_input at 1. unfold mbind, sr_bind.
  rewrite (view_format _ _ _ _ _ _ _ Hloc Hb), Z.eqb_refl. cbn [negb]. rewrite (check_image_view _ _ _ _ _ _ _ Hloc Hb).
  unfold on_world at 1. cbn [io_world io_processors io_files]. rewrite (view_metadata _ _ _ Hloc m Hm). unfold lift at 1.
  unfold displayed_as at 1, metadata_cs_role, get_cs_role. cbn [sm_suite sm_impl null orb metadata_from_handle mbind option_bind or_value noexcept res_bind].
  rewrite Hr, String.eqb_refl, has_step_exact, bool_decide_true by done. cbn [negb]. unfold lift at 1. rewrite Hp.
  unfold on_world at 1. cbn [io_world io_processors io_files]. rewrite (view_lock _ _ _ _ _ _ _ Hloc Hb). unfold gets.
  cbn [io_world with_store w_store]. rewrite list_lookup_insert_eq by (by eapply lookup_lt_Some). cbn [mbind option_bind buffer_with_lock cb_data].
  rewrite (ii_data _ _ _ _ _ Hb). cbn [fmap option_fmap option_map]. fold r. unfold outcome, attempt, on_world, write_file, lift.
  destruct r as [f|st msg| |]; try done; cbn [io_world io_processors io_files]; rewrite (view_unlock _ _ _ _ _ _ _ Hloc Hb); [done|].
  by destruct s.
Qed.

Lemma heif_spec (out : Output) params s loc b w h data m path P :
  w_store (io_world s) !! loc = Some b → image_in b (ou_format out) w h data →
  cb_metadata b = Some m → cs_role m = ou_role out → kStep ∈ applied_steps m → param_string params "path" = Ok path →
  let r := ou_write out path (mkView (Some (ou_samples out data)) w h w) 58 in
  reports r P →
  file_added P s (heif_process out params [Some (buffer_view loc)] [] s) ∧
  (∀ f, r = Ok f → (heif_process out params [Some (buffer_view loc)] [] s).1 = Ok tt).
Proof.
  intros Hloc Hb Hm Hr Hstep Hp r Hrep. rewrite (heif_exact out params s loc b w h data m path); try done; fold r; [|by destruct r].
  destruct r as [f|st msg| |]; try done. split; [by exists f|done].
Qed.

End Files.

(** ** Only display images are written *)

Lemma keeps_on_world {A} (P : list HeifFile → Prop) (m : sdk A) : keeps (λ s, P (io_files s)) (on_world m).
Proof. intros s Hs. unfold on_world. by destruct (m (io_world s)). Qed.

Lemma keeps_buffer_call {A} P b (f : option cpipe_buffer_s → res A) message : keeps P (buffer_call b f message).
Proof. by intros w. Qed.

Lemma checked_input_state input f name w : (checked_input input f name w).2 = w.
Proof.
  enough (keeps (λ x, x = w) (checked_input input f name)) as H by by apply H.
  pose proof @keeps_buffer_call. unfold checked_input, check_image2d, buffer_format, buffer_dims. keeps_steps.
Qed.
Lemma displayed_as_true role metadata :
  displayed_as role metadata = Ok true →
  ∃ m s, metadata = Some (mkSdkMetadata (Some (Some m)) (Some s)) ∧ cs_role m = role ∧ kStep ∈ applied_steps m.
Proof.
  destruct metadata as [[[[m|]|] [s|]]|]; try done; cbn [displayed_as]; unfold metadata_cs_role; cbn; try (case_match; done).
  destruct (String.eqb_spec (cs_role m) role); [|done]. unfold metadata_has_step. cbn. case_bool_decide; [|done]. intros _. by exists m, s.
Qed.

Lemma buffer_metadata_state input w : (buffer_metadata input w).2 = w.
Proof. done. Qed.

Lemma buffer_metadata_found input w m s :
  (buffer_metadata input w).1 = Ok (Some (mkSdkMetadata (Some (Some m)) s)) →
  ∃ h b, handle_of w (sb_impl input) = Some h ∧ bh_buffer h = Some b ∧ cb_metadata b = Some m.
Proof.
  unfold buffer_metadata. cbn [fst]. destruct (sb_suite input); [|done]. destruct (sb_metadata_suite input); [|done].
  unfold get_metadata. destruct (handle_of w (sb_impl input)) as [h|]; [|done]. destruct (bh_buffer h) as [b|] eqn:Hb; [|done].
  destruct (cb_metadata b) as [m'|] eqn:Hm; [|done]. intros [= -> _]. by exists h, b.
Qed.

Section Written.

Context {J : JsonLib}.

Lemma keeps_outcome {S A} (P : S → Prop) (m : sr S A) : keeps P m → keeps P (outcome m).
Proof. intros Hm s Hs. specialize (Hm s Hs). unfold outcome. by destruct (m s) as [[] s']. Qed.

(** What follows the checks adds at most one file. *)
Lemma one_more_file (out : Output) path_of input ds s :
  let m : io unit := path ← lift path_of;
    loc ← on_world (buffer_lock_cpu input 0);
    memory ← gets (λ s, w_store (io_world s) !! loc ≫= cb_data);
    match ds with
    | [d0; d1] =>
        status ← outcome (write_file (ou_write out path (mkView (ou_samples out <$> memory) d0 d1 d0) 58));
        _ ← attempt (on_world (buffer_unlock_cpu input));
        lift status
    | _ => lift Undef
    end in
  io_files (m s).2 ≠ io_files s → ∃ f, io_files (m s).2 = io_files s ++ [f].
Proof.
  intros m Hne. set (F := io_files s) in *.
  set (Q := λ x, io_files x = F ∨ ∃ f, io_files x = F ++ [f]).
  enough (moves (λ x, io_files x = F) Q m) as H by (destruct (H s eq_refl); done).
  clear Hne. clearbody F. clear s. unfold m, moves. intros s Hs. unfold mbind at 1, sr_bind at 1, lift at 1. destruct path_of as [path| | |]; try (by left).
  unfold mbind at 1, sr_bind at 1. pose proof (keeps_on_world (λ l, l = F) (buffer_lock_cpu input 0) s Hs) as H1. cbv beta in H1.
  destruct (on_world (buffer_lock_cpu input 0) s) as [[loc| | |] s1]; try (by left). cbn [snd] in H1. clear s Hs.
  unfold mbind at 1, sr_bind at 1, gets at 1. destruct ds as [|d0 [|d1 []]]; try (by left). cbv beta iota.
  unfold mbind at 1, sr_bind at 1, outcome at 1, write_file at 1. set (wr := ou_write _ _ _ _). clearbody wr.
  assert (K : ∀ F' (r : res unit), keeps (λ x, io_files x = F') (_ ← attempt (on_world (buffer_unlock_cpu input)); lift r)).
  { intros F' r. apply keeps_bind; [|intros; apply keeps_lift]. apply keeps_attempt, (keeps_on_world (λ l, l = F')). }
  destruct wr as [f|st msg| |]; try (by left).
  - right. exists f. apply (K (F ++ [f]) (Ok tt)). cbn. by rewrite H1.
  - left. by apply (K F (Fail st msg)).
Qed.

(** only images for a display are written: whatever buffers, parameters and writers
    an output node is called with, it adds at most one file, and if it adds one, its
    one input shares a buffer whose metadata has the node's colour role and the step
    of the display node. *)
Theorem only_display_images_written (out : Output) (params : ParamView) (inputs outputs : list (option Buffer)) (s : IoWorld) :
  io_files (heif_process out params inputs outputs s).2 ≠ io_files s →
  (∃ f, io_files (heif_process out params inputs outputs s).2 = io_files s ++ [f]) ∧
  ∃ input h b m, inputs = [Some input] ∧ handle_of (io_world s) (sb_impl input) = Some h ∧ bh_buffer h = Some b ∧
    cb_metadata b = Some m ∧ cs_role m = ou_role out ∧ kStep ∈ applied_steps m.
Proof.
  remember (heif_process out params inputs outputs s) as r eqn:Hr. unfold heif_process in Hr.
  destruct inputs as [|[input|] [|]]; try (by subst; intros []). destruct outputs; [|by subst; intros []].
  unfold mbind at 1, sr_bind at 1, on_world at 1 in Hr.
  pose proof (checked_input_state input (ou_format out) (ou_name out) (io_world s)) as Hs.
  destruct (checked_input _ _ _ (io_world s)) as [[ds| | |] w1]; try (by subst; intros []). cbn [snd] in Hs. subst w1.
  unfold mbind at 1, sr_bind at 1, on_world at 1 in Hr. cbn [io_world io_processors io_files] in Hr.
  pose proof (buffer_metadata_found input (io_world s)) as Hf. pose proof (buffer_metadata_state input (io_world s)) as Hs.
  destruct (buffer_metadata input (io_world s)) as [[md| | |] w1]; try (by subst; intros []). cbn [fst snd] in Hs, Hf. subst w1.
  unfold mbind at 1, sr_bind at 1, lift at 1 in Hr.
  destruct (displayed_as (ou_role out) md) as [[]| | |] eqn:Hd; try (by subst; intros []). cbn [negb] in Hr.
  apply displayed_as_true in Hd as (m & su & -> & Hrole & Hstep). destruct (Hf m (Some su) eq_refl) as (h & b & Hh & Hb & Hm).
  intros Hne. split; [|by exists input, h, b, m]. revert Hne. rewrite Hr.
  apply (one_more_file out (param_string params "path") input ds (mkIo (io_world s) (io_processors s) (io_files s))).
Qed.

End Written.

(** ** From scene to file *)

(** The runtime's step after a node: the frozen metadata becomes that of the output. *)
Definition attach_metadata (o u : nat) (s : IoWorld) : IoWorld :=
  let w := io_world s in
  mkIo (with_store w (alter (λ b, buffer_with_metadata b (freeze_metadata_builder (w_builders w !! u)).1) o (w_store w)))
    (io_processors s) (io_files s).

Section SceneToFile.

Context {J : JsonLib} {L : HeifLib} `{!HeifLaws L}.
Context (pow : float32 → float32 → float32) (icc : bytes).

Definition output_of (hdr : bool) : Output := if hdr then hdr_output pow (Ok icc) else sdr_output.

(** The image of the file of a display target. *)
Definition file_holds (hdr : bool) (path : string) (planes : Ycbcr420) (w h : Z) (clli : Z * Z) (f : HeifFile) : Prop :=
  hf_path f = path ∧
  (if hdr then image_holds (hf_image f) planes w h 10 icc (mkNclx 9 16 9 1) (Some default_mdcv) (Some clli)
   else image_holds (hf_image f) planes w h 8 create_srgb_v4_icc (mkNclx 1 13 1 1) None None).

Lemma writer_spec hdr path view samples clli :
  view_ok (coding_of hdr) view samples → (hdr = true → compute_clli pow view = Ok clli) →
  ∃ planes, rgb_to_ycbcr420 (coding_of hdr) view = Ok planes ∧
    reports (ou_write (output_of hdr) path view 58) (file_holds hdr path planes (iv_width view) (iv_height view) clli) ∧
    (accepting → (if hdr then icc else create_srgb_v4_icc) ≠ [] → ∃ f, ou_write (output_of hdr) path view 58 = Ok f).
Proof using HeifLaws0.
  intros Hv Hcl. destruct hdr; cbn [coding_of output_of ou_write hdr_output sdr_output] in *.
  - destruct (write_hdr_spec pow path view samples 58 icc clli Hv (Hcl eq_refl)) as (planes & Hp & Hr & Ha). exists planes. split_and!; [done| |done].
    destruct (write_heif_hdr_pq _ _ _ _ _); try done. cbn in *. by destruct Hr as (? & _ & _ & ?).
  - destruct (write_sdr_spec path view samples 58 Hv) as (planes & Hp & Hr & Ha). exists planes. split_and!; [done| |done].
    destruct (write_heif_sdr _ _ _); try done. cbn in *. by destruct Hr as (? & _ & ?).
Qed.

Context (create : string → string → string → res (list Z → list Z)) (vulkan_enabled : bool) (env : option string) (installed : string).
Context (hdr : bool) (s : IoWorld) (i o u : nat) (bi bo : CpuBuffer) (w h : Z) (from to : bytes) (m : BufferMetadata).
Context (builder : cpipe_metadata_builder_s) (p : nat) (processors : list cpipe_ocio_processor_s) (proc : cpipe_ocio_processor_s).
Context (apply : list Z → list Z).

Local Abbreviation call := (display_call create vulkan_enabled env installed hdr s i o u bi bo w h from to m builder p processors proc apply).

Definition display_view : ImageView := mkView (Some (display_samples hdr from apply)) w h w.

Lemma display_image : call →
  image_in (buffer_with_data bo (Some (display_bytes hdr from apply))) (ou_format (output_of hdr)) w h (display_bytes hdr from apply) ∧
  ou_samples (output_of hdr) (display_bytes hdr from apply) = display_samples hdr from apply ∧
  view_ok (coding_of hdr) display_view (display_samples hdr from apply).
Proof.
  intros Hc. pose proof Hc as [_ _ _ [Hk Hn Hd Hf _ _ Hw Hh Hs Hu Hr Hwr] _ _ _ _ _ _ _ _ Hnum].
  pose proof (length_applied _ _ _ _ _ _ _ _ _ _ _ _ _ _ _ _ _ _ _ _ _ Hc) as Hlen.
  destruct (display_samples_ok hdr _ Hnum) as (_ & Hrange & Hin). fold (display_samples hdr from apply) in Hrange, Hin.
  assert (len (display_samples hdr from apply) = w * h * 4) as Hl by (unfold display_samples, len in *; by rewrite length_fmap).
  split_and!.
  - split; try done; [destruct hdr; done|]. unfold display_bytes, len in *. rewrite length_bind_le_bytes. destruct hdr; cbn in *; lia.
  - unfold display_bytes. destruct hdr; cbn in *; [by apply words_bytes|by apply bytes_bytes].
  - split; cbn [display_view iv_pixels iv_width iv_height iv_stride_pixels]; try done. rewrite Hl. nia.
Qed.

(** C22: from scene-linear light to a file.  An image that the display node accepts is
    encoded by the colour processor for the target and rounded to the samples of the
    output, and nothing but the output's data and metadata changes.  With the metadata
    the runtime freezes, the output node of the same target accepts the result: the file
    it writes holds the YCbCr planes of exactly these samples, and when the file
    library refuses, the node reports it and leaves the state as it was.  When nothing
    is refused, the file is written. *)
Theorem display_to_file (display_params file_params : ParamView) (path : string) (clli : Z * Z) :
  call → param_string display_params "target" = Ok (target_name hdr) → param_string file_params "path" = Ok path →
  (hdr = true → compute_clli pow display_view = Ok clli) →
  let '(shown, s1) := SceneLinearToDisplay_process create vulkan_enabled false env installed compute_view display_params
    [Some (buffer_view i)] [Some (buffer_view o)] [Some (builder_view u)] s in
  let s2 := attach_metadata o u s1 in
  let stored := heif_process (output_of hdr) file_params [Some (buffer_view o)] [] s2 in
  shown = Ok tt ∧ io_world s1 = display_world hdr s o u bo from builder apply ∧
  ∃ planes, rgb_to_ycbcr420 (coding_of hdr) display_view = Ok planes ∧
    file_added (file_holds hdr path planes w h clli) s2 stored ∧
    (accepting → (if hdr then icc else create_srgb_v4_icc) ≠ [] → stored.1 = Ok tt).
Proof using HeifLaws0.
  intros Hc Ht Hp Hcl. rewrite (display_spec _ _ _ _ hdr s i o u bi bo w h from to m builder p processors proc apply Hc display_params Ht).
  destruct (display_image Hc) as (Hb & Hs & Hv). destruct (writer_spec hdr path display_view _ clli Hv Hcl) as (planes & Hpl & Hr & Ha).
  intros s2 stored. split_and!; [done..|]. exists planes. split; [done|].
  destruct Hc as [_ Ho _ _ _ _ Hu _ _ _ _ _ _]. pose proof (lookup_lt_Some _ _ _ Ho). pose proof (lookup_lt_Some _ _ _ Hu).
  set (b2 := buffer_with_metadata (buffer_with_data bo (Some (display_bytes hdr from apply))) (Some (metadata_ (bu_builder (displayed hdr builder))))).
  assert (w_store (io_world s2) !! o = Some b2) as Ho2.
  { unfold s2, attach_metadata, display_world. cbn -[alter insert lookup]. rewrite list_lookup_alter_eq, list_lookup_insert_eq by done. cbn -[insert lookup].
    by rewrite list_lookup_insert_eq by done. }
  destruct (heif_spec (output_of hdr) file_params s2 o b2 w h (display_bytes hdr from apply) (metadata_ (bu_builder (displayed hdr builder))) path
    (file_holds hdr path planes w h clli)) as [Hadd Hok]; try done.
  - by destruct Hb; split.
  - by destruct hdr.
  - cbn. set_solver.
  - rewrite Hs. exact Hr.
  - split; [done|]. intros Hacc Hicc. destruct (Ha Hacc Hicc) as [f Hf]. apply (Hok f). by rewrite Hs.
Qed.

End SceneToFile.

(** ** The copy of the fusion node *)

Section Fusion.

Context {J : JsonLib} (s : World) (i o u : nat) (bi bo : CpuBuffer) (w h : Z) (from to : bytes) (builder : cpipe_metadata_builder_s).

(** Two raw frames of the same size. *)
Record fusion_call : Prop := {
  fc_in : w_store s !! i = Some bi;
  fc_out : w_store s !! o = Some bo;
  fc_distinct : i ≠ o;
  fc_input : image_in bi R16_UINT w h from;
  fc_output : image_in bo R16_UINT w h to;
  fc_builder : w_builders s !! u = Some builder;
  fc_open : frozen_ (bu_builder builder) = None
}.

Hypothesis Hc : fusion_call.

Lemma raw16_size : checked_raw16_size (buffer_view i) (buffer_view o) s = (Ok (w * h * 2), s).
Proof using Hc.
  destruct Hc as [Hi Ho _ Hbi Hbo _ _]. unfold checked_raw16_size, mbind, sr_bind.
  rewrite (check_formats_views _ _ _ _ _ _ _ _ _ _ _ _ _ _ Hi Ho Hbi Hbo), (view_dims _ _ _ _ _ _ _ Hi Hbi), (view_dims _ _ _ _ _ _ _ Ho Hbo).
  pose proof (ii_width _ _ _ _ _ Hbi). pose proof (ii_height _ _ _ _ _ Hbi). pose proof (ii_small _ _ _ _ _ Hbi).
  rewrite bool_decide_true, !(proj2 (Z.eqb_neq _ 0)) by (done || lia). cbn [negb orb]. change (bytes_per_pixel R16_UINT) with 2.
  by rewrite u64_small by lia.
Qed.

Lemma frame_copied :
  copy_ref_frame (buffer_view i) (buffer_view o) (w * h * 2) s
  = (Ok tt, with_store s (<[o := buffer_with_data bo (Some from)]> (w_store s))).
Proof using Hc.
  destruct Hc as [Hi Ho Hne Hbi Hbo _ _]. unfold copy_ref_frame, mbind, sr_bind. rewrite (view_lock _ _ _ _ _ _ _ Hi Hbi).
  set (s1 := with_store s _). assert (Ho1 : w_store s1 !! o = Some bo) by (cbn -[insert]; by rewrite list_lookup_insert_ne).
  unfold outcome at 1. rewrite (view_lock _ _ _ _ _ _ _ Ho1 Hbo). set (s2 := with_store s1 _).
  pose proof (ii_len _ _ _ _ _ Hbi) as L1. pose proof (ii_len _ _ _ _ _ Hbo) as L2. change (bytes_per_pixel R16_UINT) with 2 in L1, L2.
  pose proof (lookup_lt_Some _ _ _ Hi). pose proof (lookup_lt_Some _ _ _ Ho).
  assert (H2o : w_store s2 !! o = Some (buffer_with_lock bo true)) by (cbn -[insert]; rewrite list_lookup_insert_eq; rewrite ?length_insert; done).
  assert (H2i : w_store s2 !! i = Some (buffer_with_lock bi true)).
  { cbn -[insert]. rewrite list_lookup_insert_ne by done. by apply list_lookup_insert_eq. }
  unfold Nodes.memcpy. rewrite H2o, H2i. cbn [buffer_with_lock cb_data]. rewrite (ii_data _ _ _ _ _ Hbi), (ii_data _ _ _ _ _ Hbo).
  rewrite L1, L2, Z.leb_refl, (proj2 (Nat.eqb_neq o i)) by done. cbn [andb negb]. rewrite orb_true_r.
  rewrite take_ge, drop_ge, app_nil_r by (unfold len in *; lia).
  set (bo' := buffer_with_data bo (Some from)).
  assert (image_in bo' R16_UINT w h from) as Hbo' by (destruct Hbo; by split).
  set (s3 := with_store s (<[o := bo']> (w_store s))).
  assert (H3o : w_store s3 !! o = Some bo') by (by apply list_lookup_insert_eq).
  assert (H3i : w_store s3 !! i = Some bi) by (cbn -[insert]; by rewrite list_lookup_insert_ne).
  set (s4 := with_store s3 (<[i := buffer_with_lock bi true]> (w_store s3))).
  assert (H4o : w_store s4 !! o = Some bo') by (cbn -[insert]; by rewrite list_lookup_insert_ne).
  assert (with_store s2 (<[o := buffer_with_data (buffer_with_lock bo true) (Some from)]> (w_store s2))
    = with_store s4 (<[o := buffer_with_lock bo' true]> (w_store s4))) as ->.
  { unfold with_store, s4, s3, s2, s1. cbn -[insert]. f_equal. rewrite list_insert_insert_eq, (list_insert_insert_ne _ i o), list_insert_insert_eq by done. done. }
  unfold outcome. rewrite (view_unlock _ _ _ _ _ _ _ H4o Hbo'). unfold s4. rewrite (view_unlock _ _ _ _ _ _ _ H3i Hbi). unfold lift.
  unfold buffer_flush_cpu_writes, buffer_call. cbn [null orb sb_suite sb_impl buffer_view]. by rewrite (view_handle _ _ _ H3o).
Qed.

(** the fusion node: the output becomes the reference frame, byte by byte, its
    metadata says that fusion was skipped, and both buffers are unlocked; the other
    frame is not looked at. *)
Theorem reference_frame_copied (other : Buffer) :
  ∃ h', HdrPlusDerivative_process [Some (buffer_view i); Some other] [Some (buffer_view o)] [Some (builder_view u)] s
    = (Ok tt, mkWorld (<[o := buffer_with_data bo (Some from)]> (w_store s)) (<[u := h']> (w_builders s)) (w_instances s)) ∧
    applied_steps (metadata_ (bu_builder h')) = applied_steps (metadata_ (bu_builder builder)) ++ ["burst_fusion_stub"].
Proof using Hc.
  destruct (add_step_open builder "burst_fusion_stub" (fc_open Hc)) as (h' & Hh & Hs & _). exists h'. split; [|done].
  unfold HdrPlusDerivative_process, mbind, sr_bind. rewrite raw16_size, frame_copied. unfold builder_add_applied_step.
  erewrite builder_open; [done|apply (fc_builder Hc)|exact Hh].
Qed.

End Fusion.

(** ** Witnesses *)

Definition raw_layout_of (f : PixelFormat) : BufferLayout := mkLayout Image2D f 2 [2; 1; 0; 0; 0; 0; 0; 0] zeros8.

(** Two pixels, in memory that may be read and written. *)
Definition two_pixels (f : PixelFormat) (role : string) (data : bytes) : CpuBuffer :=
  mkCpuBuffer (raw_layout_of f) (usage_or usage_CpuRead usage_CpuWrite) ""
    (Some (mkMetadata 1 None default_capture [] role None None None None None None None default_quant ∅)) (Some data) (len data) false.

Lemma two_pixels_in f role data : len data = 2 * bytes_per_pixel f → image_in (two_pixels f role data) f 2 1 data.
Proof. intros Hl. split; try done. by eexists. Qed.

(** White and black in half floats. *)
Definition scene_bytes : bytes := [0; 60; 0; 60; 0; 60; 0; 60; 0; 0; 0; 0; 0; 0; 0; 60].

Definition example_store : store :=
  [two_pixels R16G16B16A16_SFLOAT kInputRole scene_bytes; two_pixels R8G8B8A8_UNORM "" (replicate 8 0)].
Definition example_io : IoWorld := mkIo (mkWorld example_store [pair_builder default_metadata] ∅) [] [].
Definition example_ocio (_ _ _ : string) : res (list Z → list Z) := Ok id.
Definition example_processor : cpipe_ocio_processor_s := mkOcio (Some id) false "config.ocio" kInputRole "output_srgb".
Definition text_param (key value : string) : ParamView (H := Tree.lib (λ _, None)) :=
  mkParamView (Some (Tree.JObject [(key, Tree.JString value)] : json (JsonLib := Tree.lib (λ _, None)))) (Some SuiteParam).

Lemma example_display_call :
  display_call example_ocio false None "config.ocio" false example_io 0 1 0 (two_pixels R16G16B16A16_SFLOAT kInputRole scene_bytes)
    (two_pixels R8G8B8A8_UNORM "" (replicate 8 0)) 2 1 scene_bytes (replicate 8 0)
    (mkMetadata 1 None default_capture [] kInputRole None None None None None None None default_quant ∅)
    (pair_builder default_metadata) 0 [example_processor] example_processor id.
Proof.
  split; try done; try by apply two_pixels_in. cbn. unfold number. repeat (apply Forall_cons; split; [by vm_compute|]). by apply Forall_nil.
Qed.

(** The two pixels get into a file. *)
Lemma display_to_file_witness :
  ∃ s1 f, SceneLinearToDisplay_process (J := Tree.lib (λ _, None)) example_ocio false false None "config.ocio" compute_view (text_param "target" "sRGB")
      [Some (buffer_view 0)] [Some (buffer_view 1)] [Some (builder_view 0)] example_io = (Ok tt, s1) ∧
    io_files (OutputHeifSdr_process (J := Tree.lib (λ _, None)) (L := example_lib) (text_param "path" "out.heif") [Some (buffer_view 1)] []
      (attach_metadata 1 0 s1)).2 = [f] ∧ hf_path f = "out.heif" ∧ hm_width (hf_image f) = 2.
Proof.
  pose proof (display_to_file (J := Tree.lib (λ _, None)) (HeifLaws0 := example_laws) (λ x _, x) [] example_ocio false None "config.ocio" false
    example_io 0 1 0 _ _ 2 1 scene_bytes _ _ _ 0 _ _ id (text_param "target" "sRGB") (text_param "path" "out.heif") "out.heif" (0, 0)
    example_display_call eq_refl eq_refl ltac:(done)) as H.
  destruct (SceneLinearToDisplay_process _ _ _ _ _ _ _ _ _ _ _) as [shown s1] eqn:Hs. destruct H as (-> & Hw & planes & _ & Hf & Hok).
  specialize (Hok example_accepting example_icc). destruct (heif_process _ _ _ _ _) as [[[]| | |] s3] eqn:Hh; try done.
  destruct Hf as (f & [Hp Hi] & ->). exists s1, f. split; [done|].
  assert (OutputHeifSdr_process (L := example_lib) (text_param "path" "out.heif") [Some (buffer_view 1)] [] (attach_metadata 1 0 s1)
    = (Ok tt, with_file (attach_metadata 1 0 s1) f)) as -> by exact Hh. cbn [snd with_file io_files attach_metadata]. split_and!; [|done|apply Hi].
  unfold SceneLinearToDisplay_process in Hs. vm_compute in Hs. by injection Hs as <-.
Defined.

(** A display image is written, so its buffer has the role and the step. *)
Definition shown_image : CpuBuffer :=
  buffer_with_metadata (two_pixels R8G8B8A8_UNORM "" (replicate 8 9))
    (Some (mkMetadata 1 None default_capture [kStep] "output_srgb" None None None None None None None default_quant ∅)).
Definition shown_io : IoWorld := mkIo (mkWorld [shown_image] [] ∅) [] [].

Lemma only_display_images_written_witness :
  ∃ f, io_files (OutputHeifSdr_process (J := Tree.lib (λ _, None)) (L := example_lib) (text_param "path" "a.heif") [Some (buffer_view 0)] [] shown_io).2
    = [f].
Proof.
  apply (only_display_images_written (J := Tree.lib (λ _, None)) (sdr_output (L := example_lib)) (text_param "path" "a.heif")
    [Some (buffer_view 0)] [] shown_io). by vm_compute.
Defined.

(** The frame, not the second one, is in the output. *)
Definition frame (data : bytes) : CpuBuffer := two_pixels R16_UINT "" data.
Definition burst : World := mkWorld [frame [1; 2; 3; 4]; frame [5; 6; 7; 8]; frame [0; 0; 0; 0]] [pair_builder default_metadata] ∅.

Lemma reference_frame_copied_witness :
  ∃ w', HdrPlusDerivative_process [Some (buffer_view 0); Some (buffer_view 1)] [Some (buffer_view 2)] [Some (builder_view 0)] burst = (Ok tt, w') ∧
    (w_store w' !! 2%nat ≫= cb_data) = Some [1; 2; 3; 4].
Proof.
  destruct (reference_frame_copied burst 0 2 0 (frame [1; 2; 3; 4]) (frame [0; 0; 0; 0]) 2 1 [1; 2; 3; 4] [0; 0; 0; 0]
    (pair_builder default_metadata)) with (other := buffer_view 1) as (h' & Hp & _).
  - split; try done; by apply two_pixels_in.
  - eexists. split; [exact Hp|done].
Defined.
