(* ===== verification/Cli.v ===== *)
(** * The command line

    Models src/cpipe/cli/main.cpp: the configuration of [cpipe serve], from the
    installed files, ~/.config/cpipe/settings.json, the environment and the flags; the
    command itself up to the wait for a signal; and [cpipe run].  CLI11 parses the
    arguments: a command starts with the strings it found, an option that was not given
    being the empty string.

    [serve_configured]: the server is started exactly with the value of the last layer
    that has one, on a port from 1 to 65535, and with a warning when it can be reached
    from other machines; otherwise the command ends with an error and starts nothing.
    [run_binds_input] and [run_zero_complete]: what [cpipe run] binds as the source, and
    what an exit code of zero says. *)

From Stdlib Require Import ZArith Lia Ascii String.
From stdpp Require Import prelude strings list gmap pretty.
From S2P Require Import Prelude Json HostContext StateRes ComputeContext Sdk Registry Pipeline PipelineRun EditorAssets EditorServer.

Local Open Scope Z_scope.

(** ** Configuration *)

Record ServeCommandConfig : Type := mkConfig { cf_port : string; cf_bind : string; cf_pipeline : string; cf_editor_static : string }.

Definition empty_config : ServeCommandConfig := mkConfig "" "" "" "".

(** [EditorServerOptions]. *)
Record EditorServerOptions : Type := mkOptions { op_bind : string; op_port : Z; op_editor_static : string }.

Definition default_options : EditorServerOptions := mkOptions "127.0.0.1" 4747 "".

(** A letter in lower case, in the C locale. *)
Definition tolower (c : ascii) : ascii :=
  if (65 <=? N_of_ascii c)%N && (N_of_ascii c <=? 90)%N then ascii_of_N (N_of_ascii c + 32) else c.

Fixpoint lower (s : string) : string :=
  match s with EmptyString => EmptyString | String c s' => String (tolower c) (lower s') end.

Definition has_dng_extension (path : string) : bool := String.eqb (lower (extension path)) ".dng".

(** [std::stoul]: leading white space and a sign are skipped, what follows the digits
    is ignored, a minus sign negates modulo 2^64. *)
Definition stoul (s : string) : res Z :=
  let s := skip_spaces s in
  let '(neg, s) := match s with String "-" s' => (true, s') | String "+" s' => (false, s') | _ => (false, s) end in
  match read_digits s with
  | None => Thrown logic_error
  | Some (v, _) => if v <=? 2 ^ 64 - 1 then Ok (if neg then u64 (- v) else v) else Thrown out_of_range
  end.

(** [CLI::ValidationError] is a [validation_error]. *)
Definition parse_port (value : string) (fallback : Z) : res Z :=
  if String.eqb value "" then Ok fallback else
  parsed ← stoul value;
  if (parsed =? 0) || (65535 <? parsed) then Thrown validation_error else Ok parsed.

Definition is_loopback_bind (bind : string) : bool :=
  String.eqb bind "localhost" || String.eqb bind "::1" || String.prefix "127." bind.

Section Cli.

Context {J : JsonLib}.

(** [get<std::uint16_t>] and [std::to_string] of its value; the environment and the
    files; the directory of the installed editor. *)
Variables (get_u16 : json → res Z) (what : exn → string) (getenv : string → option string) (fs : FileSystem) (installed : string).

Definition env_string (key : string) : option string :=
  match getenv key with Some value => if String.eqb value "" then None else Some value | None => None end.

(** The empty path without a home. *)
Definition settings_path : string :=
  match env_string "HOME" with
  | Some home => path_append (path_append (path_append home ".config") "cpipe") "settings.json"
  | None => ""
  end.

(** A stream that cannot be read has no text, which is no JSON. *)
Definition parse_file (path : string) : res json := parse_json (default "" (read_file fs path)).

(** A member of the server object. *)
Definition setting (server : json) (key : string) (conv : json → res string) : res string :=
  if contains server key then v ← at_key server key; conv v else Ok "".

Definition to_string_u16 (j : json) : res string := v ← get_u16 j; Ok (pretty v).

Definition load_settings_config : res ServeCommandConfig :=
  if String.eqb settings_path "" || negb (is_regular_file fs settings_path) then Ok empty_config else
  document ← parse_file settings_path;
  server ← value_or get_json document "server" (json_object []);
  port ← setting server "port" to_string_u16;
  bind ← setting server "bind" get_string;
  pipeline ← setting server "pipeline" get_string;
  editor_static ← setting server "editor_static" get_string;
  Ok (mkConfig port bind pipeline editor_static).

Definition default_serve_config : ServeCommandConfig :=
  if is_regular_file fs (path_append installed "index.html") then mkConfig "" "" "" installed else empty_config.

(** [if (!value.empty()) field = value]. *)
Definition override (field value : string) : string := if String.eqb value "" then field else value.

Definition override_config (c over : ServeCommandConfig) : ServeCommandConfig :=
  mkConfig (override (cf_port c) (cf_port over)) (override (cf_bind c) (cf_bind over))
    (override (cf_pipeline c) (cf_pipeline over)) (override (cf_editor_static c) (cf_editor_static over)).

Definition apply_settings_config (c : ServeCommandConfig) : res ServeCommandConfig :=
  settings ← load_settings_config; Ok (override_config c settings).

Definition apply_env_config (c : ServeCommandConfig) : ServeCommandConfig :=
  mkConfig (default (cf_port c) (env_string "CPIPE_SERVER_PORT")) (default (cf_bind c) (env_string "CPIPE_SERVER_BIND"))
    (default (cf_pipeline c) (env_string "CPIPE_PIPELINE")) (default (cf_editor_static c) (env_string "CPIPE_EDITOR_STATIC")).

Definition resolve_serve_config (flags : ServeCommandConfig) : res ServeCommandConfig :=
  config ← apply_settings_config default_serve_config; Ok (override_config (apply_env_config config) flags).

(** ** [cpipe serve] *)

(** What was written to the standard error stream, the server, and the options it was
    started with. *)
Record CliState : Type := mkCli { cl_stderr : list string; cl_session : Session; cl_started : option EditorServerOptions }.

Abbreviation cli := (sr CliState).

Definition cerr (line : string) : cli unit := modify (λ s, mkCli (cl_stderr s ++ [line]) (cl_session s) (cl_started s)).

(** A call of the server. *)
Definition on_server {A} (m : sr Session A) : cli A := λ s,
  let '(r, session) := m (cl_session s) in (r, mkCli (cl_stderr s) session (cl_started s)).

(** Yellow, and back. *)
Definition escape (code : string) : string := String (ascii_of_nat 27) ("[" +:+ code +:+ "m").

Definition lan_warning (bind : string) (port : Z) : string :=
  escape "33" +:+ "WARNING: binding to " +:+ bind +:+ ":" +:+ pretty port +:+ "; this server has no authentication and may expose your runtime to anyone on the LAN. RD-8 documents this risk." +:+ escape "0".

Definition warn_on_lan_bind (options : EditorServerOptions) : cli unit :=
  if is_loopback_bind (op_bind options) then mret tt else cerr (lan_warning (op_bind options) (op_port options)).

(** The outcome of [EditorServer::start], which [EditorThreads] derives from its
    threads, and the readings of [g_stop_server] and [running] every 50 ms. *)
Variables (start : EditorServerOptions → cpipe_status_t * string) (polls : list (bool * bool)).

Fixpoint wait_for_stop (polls : list (bool * bool)) : bool :=
  match polls with
  | [] => false
  | (stop_requested, running) :: polls => stop_requested || negb running || wait_for_stop polls
  end.

(** The port, or the message of the exception. *)
Definition port_option (value : string) : cli (option Z) :=
  match parse_port value (op_port default_options) with
  | Ok port => mret (Some port)
  | Thrown validation_error => _ ← cerr (what validation_error); mret None
  | Thrown e => if decide (e = aborted) then lift (Thrown e) else _ ← cerr ("invalid --port: " +:+ what e); mret None
  | Fail _ _ | Undef => lift Undef
  end.

(** The status of the active pipeline the command line names. *)
Definition load_active_pipeline (path : string) : cli cpipe_status_t :=
  if String.eqb path "" then mret CPIPE_OK else
  match read_file fs path with
  | None => _ ← cerr ("failed to open pipeline: " +:+ path); mret CPIPE_BAD_INDEX
  | Some text =>
      document ← lift (parse_json text);
      '(status, error) ← on_server (attempt (set_active_pipeline document));
      if decide (status = CPIPE_OK) then mret CPIPE_OK else _ ← cerr error; mret status
  end.

Definition start_server (options : EditorServerOptions) : cli (cpipe_status_t * string) := λ s,
  let '(status, error) := start options in
  (Ok (status, error), mkCli (cl_stderr s) (cl_session s) (if decide (status = CPIPE_OK) then Some options else None)).

(** The exit code; [None] while the command is waiting.  [registry] holds the nodes
    that are built in. *)
Definition run_serve_command (registry : Registry) (flags : ServeCommandConfig) : cli (option Z) :=
  config ← lift (resolve_serve_config flags);
  port ← port_option (cf_port config);
  match port with
  | None => mret (Some (status_int CPIPE_BAD_INDEX))
  | Some port =>
      let options := mkOptions (override (op_bind default_options) (cf_bind config)) port
        (override (op_editor_static default_options) (cf_editor_static config)) in
      _ ← warn_on_lan_bind options;
      _ ← on_server (set_registry (Some registry));
      loaded ← load_active_pipeline (cf_pipeline config);
      if decide (loaded ≠ CPIPE_OK) then mret (Some (status_int loaded)) else
      '(status, error) ← start_server options;
      if decide (status ≠ CPIPE_OK) then _ ← cerr error; mret (Some (status_int status)) else
      mret (if wait_for_stop polls then Some 0 else None)
  end.

(** ** Commands *)

Definition kNotImplementedExit : Z := 100.

Definition not_implemented (command : string) : cli (option Z) :=
  _ ← cerr ("cpipe " +:+ command +:+ " is not implemented in Phase 3.A"); mret (Some kNotImplementedExit).

(** The commands but [run], which is below. *)
Inductive Command : Type := Serve (flags : ServeCommandConfig) | Info | Iqa | Bench.

Definition cpipe_main (registry : Registry) (c : Command) : cli (option Z) :=
  match c with
  | Serve flags => run_serve_command registry flags
  | Info => not_implemented "info"
  | Iqa => not_implemented "iqa"
  | Bench => not_implemented "bench"
  end.

(** The pipeline of [cpipe run] with its source bound; the error text that is printed. *)
Definition prepare_run (schema_validate : json → res unit) (registry : Registry) (input pipeline_path : string) : res Pipeline :=
  pipeline ← load what schema_validate (read_file fs pipeline_path) registry (Some empty_pipeline);
  if has_dng_extension input then
    match set_source pipeline "raw" "com.cpipe.builtin.dng_input" (json_object [("path", json_string input)]) with
    | Fail st _ => Fail st "failed to bind DNG source"
    | r => r
    end
  else Ok pipeline.

(** [main] turns an exception into an exit code. *)
Definition main (registry : Registry) (c : Command) : cli (option Z) :=
  catchS (cpipe_main registry c) (λ e, _ ← cerr (what e); mret (Some (status_int CPIPE_BAD_INDEX))).

End Cli.

(** [cpipe run] as [main] ends it: the exit code and what the run left. *)
Section Run.

Context {J : JsonLib} {W : Type}.
Variables (plugins : plugin W) (alloc : Z → option bytes) (what : exn → string) (fs : FileSystem) (schema_validate : json → res unit).
Variables (registry : Registry) (input pipeline_path output : string) (w : W).

(** The contents of the input, and whether the output can be opened and written. *)
Variables (input_file : option bytes) (open_output write_output : bool).

Abbreviation prepared := (prepare_run what fs schema_validate registry input pipeline_path).

Inductive run_command : Z → Prop :=
| run_refused st msg : prepared = Fail st msg → run_command (status_int st)
| run_threw e : prepared = Thrown e → e ≠ aborted → run_command (status_int CPIPE_BAD_INDEX)
| run_dng p st final :
    prepared = Ok p → has_dng_extension input = true → run_to_file plugins alloc p output w st final → run_command (status_int st)
| run_raw p r :
    prepared = Ok p → has_dng_extension input = false → run_file plugins alloc p input_file open_output write_output w = Ok r → run_command 0
| run_raw_failed p st msg :
    prepared = Ok p → has_dng_extension input = false →
    run_file plugins alloc p input_file open_output write_output w = Fail st msg → run_command (status_int st)
| run_raw_threw p e :
    prepared = Ok p → has_dng_extension input = false →
    run_file plugins alloc p input_file open_output write_output w = Thrown e → e ≠ aborted → run_command (status_int CPIPE_BAD_INDEX).

End Run.

(** ** Layers *)

(** The first value that is not empty. *)
Fixpoint first_set (l : list string) : string :=
  match l with [] => "" | v :: l => if String.eqb v "" then first_set l else v end.

Lemma override_set d v : override d v = first_set [v; d].
Proof. cbn. unfold override. destruct (String.eqb v ""); [|done]. by destruct (String.eqb_spec d "") as [->|]. Qed.

Lemma override_empty v : override "" v = v.
Proof. unfold override. by destruct (String.eqb_spec v "") as [->|]. Qed.

Lemma first_set_cons v d l : override (first_set (d :: l)) v = first_set (v :: d :: l).
Proof. unfold override. cbn [first_set]. by destruct (String.eqb v ""). Qed.

Section Layers.

Context {J : JsonLib}.
Variables (get_u16 : json → res Z) (what : exn → string) (getenv : string → option string) (fs : FileSystem) (installed : string).

(** The value of an option: the flag, the environment, the settings file, the default. *)
Definition layered (flags settings : ServeCommandConfig) (field : ServeCommandConfig → string) (variable : string) : string :=
  first_set [field flags; default "" (getenv variable); field settings; field (default_serve_config fs installed)].

Lemma env_first d variable : default d (env_string getenv variable) = override d (default "" (getenv variable)).
Proof. unfold env_string, override. destruct (getenv variable) as [v|]; [|done]. cbn. by destruct (String.eqb v ""). Qed.

Lemma layers_of flag variable setting d :
  override (default (override d setting) (env_string getenv variable)) flag = first_set [flag; default "" (getenv variable); setting; d].
Proof. by rewrite env_first, (override_set d), !first_set_cons. Qed.

Lemma resolve_layered flags settings :
  load_settings_config get_u16 getenv fs = Ok settings →
  resolve_serve_config get_u16 getenv fs installed flags
  = Ok (mkConfig (layered flags settings cf_port "CPIPE_SERVER_PORT") (layered flags settings cf_bind "CPIPE_SERVER_BIND")
      (layered flags settings cf_pipeline "CPIPE_PIPELINE") (layered flags settings cf_editor_static "CPIPE_EDITOR_STATIC")).
Proof.
  intros Hs. unfold resolve_serve_config, apply_settings_config. rewrite Hs, !Ok_bind. f_equal. unfold override_config, apply_env_config.
  cbn [cf_port cf_bind cf_pipeline cf_editor_static]. by rewrite !layers_of.
Qed.

End Layers.

(** ** Ports *)

Lemma take_digits_nonneg s : ∀ acc, 0 ≤ acc → 0 ≤ (take_digits acc s).1.
Proof.
  induction s as [|c s IH]; intros acc Ha; [done|]. cbn [take_digits]. destruct (is_digit c) eqn:Hc; [|done]. apply IH.
  unfold is_digit in Hc. apply andb_true_iff in Hc as [Hc _]. apply N.leb_le in Hc. unfold digit_value. lia.
Qed.

Lemma stoul_nonneg value v : stoul value = Ok v → 0 ≤ v.
Proof.
  unfold stoul. destruct (match skip_spaces value with String "-" s' => _ | _ => _ end) as [neg s].
  destruct (read_digits s) as [[d rest]|] eqn:Hd; [|done]. destruct (d <=? 2 ^ 64 - 1); [|done]. intros [= <-].
  destruct neg; [unfold u64, wrap; apply Z.mod_pos_bound; lia|].
  unfold read_digits in Hd. destruct s as [|c s]; [done|]. destruct (is_digit c); [|done].
  pose proof (take_digits_nonneg (String c s) 0 ltac:(lia)) as H. assert (take_digits 0 (String c s) = (d, rest)) as E by congruence.
  by rewrite E in H.
Qed.

Lemma parse_port_range value fallback n : 1 ≤ fallback ≤ 65535 → parse_port value fallback = Ok n → 1 ≤ n ≤ 65535.
Proof.
  intros Hf. unfold parse_port. destruct (String.eqb value ""); [intros [= <-]; lia|].
  destruct (stoul value) as [p| | |] eqn:Hp; try done. rewrite Ok_bind. apply stoul_nonneg in Hp.
  destruct (Z.eqb_spec p 0); [done|]. destruct (Z.ltb_spec 65535 p); [done|]. intros [= <-]. lia.
Qed.

(** A port of the settings file is printed and parsed again. *)
Lemma char_digit (d : N) : (d < 10)%N → is_digit (pretty_N_char d) = true ∧ digit_value (pretty_N_char d) = Z.of_N d.
Proof.
  intros Hd. assert (d ∈ N.of_nat <$> seq 0 10) as Hin.
  { apply list_elem_of_fmap. exists (N.to_nat d). split; [lia|]. apply elem_of_seq. lia. }
  clear Hd. revert d Hin. apply Forall_forall. by repeat constructor.
Qed.

Lemma pretty_go_digits x : (0 < x)%N → ∀ s, take_digits 0 (pretty_N_go x s) = take_digits (Z.of_N x) s.
Proof.
  induction (N.lt_wf_0 x) as [x _ IH]. intros Hx s. rewrite pretty_N_go_step by done.
  destruct (char_digit (x `mod` 10)) as [Hc Hv]; [apply N.mod_lt; lia|].
  assert (E : take_digits (Z.of_N (x / 10)) (String (pretty_N_char (x `mod` 10)) s) = take_digits (Z.of_N x) s).
  { cbn [take_digits]. rewrite Hc, Hv. f_equal. pose proof (N.div_mod x 10). lia. }
  rewrite <-E. destruct (decide (x / 10 = 0)%N) as [E0|E0]; [by rewrite E0, pretty_N_go_0|].
  apply IH; [by apply N.div_lt|by apply N.neq_0_lt_0].
Qed.

Lemma pretty_go_head x : (0 < x)%N → ∀ s, ∃ c t, pretty_N_go x s = String c t ∧ is_digit c = true.
Proof.
  induction (N.lt_wf_0 x) as [x _ IH]. intros Hx s. rewrite pretty_N_go_step by done.
  destruct (char_digit (x `mod` 10)) as [Hc _]; [apply N.mod_lt; lia|].
  destruct (decide (x / 10 = 0)%N) as [E0|E0]; [rewrite E0, pretty_N_go_0; by eexists _, _|]. apply IH; [by apply N.div_lt|by apply N.neq_0_lt_0].
Qed.

Lemma port_roundtrip n : 1 ≤ n ≤ 65535 → parse_port (pretty n) 4747 = Ok n.
Proof.
  intros Hn. destruct n as [|p|p]; [lia| |lia]. assert (Hp : pretty (Z.pos p) = pretty_N_go (N.pos p) "") by done.
  destruct (pretty_go_head (N.pos p) ltac:(lia) "") as (c & t & Ht & Hc). pose proof (pretty_go_digits (N.pos p) ltac:(lia) "") as Hd.
  rewrite Hp. rewrite Ht in *. unfold parse_port, stoul. cbn [String.eqb].
  assert (skip_spaces (String c t) = String c t) as -> by (clear - Hc; by destruct c as [[] [] [] [] [] [] [] []]).
  assert (match String c t with String "-" s' => (true, s') | String "+" s' => (false, s') | _ => (false, String c t) end = (false, String c t)) as ->
    by (clear - Hc; by destruct c as [[] [] [] [] [] [] [] []]).
  cbn [read_digits]. rewrite Hc, Hd. cbn [take_digits]. rewrite (proj2 (Z.leb_le _ _)), Ok_bind by lia.
  destruct (Z.eqb_spec (Z.of_N (N.pos p)) 0); [lia|]. destruct (Z.ltb_spec 65535 (Z.of_N (N.pos p))); [lia|done].
Qed.

(** ** The server command *)

Lemma status_int_zero st : status_int st = 0 → st = CPIPE_OK.
Proof. by destruct st. Qed.

Section Serve.

Context {J : JsonLib} {JL : JsonLaws J}.
Variables (get_u16 : json → res Z) (what : exn → string) (getenv : string → option string) (fs : FileSystem) (installed : string).
Variables (start : EditorServerOptions → cpipe_status_t * string) (polls : list (bool * bool)) (registry : Registry).
Variables (flags settings : ServeCommandConfig).

Local Abbreviation value := (layered getenv fs installed flags settings).
Local Abbreviation serve := (run_serve_command get_u16 what getenv fs installed start polls registry flags).

(** The options of the server, for a port. *)
Definition options_for (port : Z) : EditorServerOptions :=
  mkOptions (override "127.0.0.1" (value cf_bind "CPIPE_SERVER_BIND")) port (value cf_editor_static "CPIPE_EDITOR_STATIC").

(** What the command wrote before anything else. *)
Definition warning_for (port : Z) : list string :=
  if is_loopback_bind (op_bind (options_for port)) then [] else [lan_warning (op_bind (options_for port)) port].

(** A command that starts nothing ends with an error. *)
Definition ended (r : res (option Z) * CliState) : Prop :=
  cl_started r.2 = None ∧ match r.1 with Ok (Some code) => code ≠ 0 | Ok None => False | _ => True end.

(** The document the server starts with: its own when the option names no file,
    otherwise what the file holds, when that is a document of version 0.4. *)
Definition served_document (path : string) (s : CliState) : option json :=
  if String.eqb path "" then Some (active_pipeline_ (cl_session s)) else
  text ← read_file fs path;
  document ← json_parse text;
  match is_pipeline_v04 document with Ok true => Some document | _ => None end.

(** The server runs with exactly these options, this document and these nodes. *)
Definition serving (port : Z) (document : json) (s : CliState) (r : res (option Z) * CliState) : Prop :=
  r.1 = Ok (if wait_for_stop polls then Some 0 else None) ∧ cl_started r.2 = Some (options_for port) ∧
  cl_stderr r.2 = cl_stderr s ++ warning_for port ∧
  active_pipeline_ (cl_session r.2) = document ∧ registry_ (cl_session r.2) = Some registry.

Lemma port_option_spec v s :
  match parse_port v 4747 with
  | Ok n => port_option what v s = (Ok (Some n), s)
  | _ => ∃ r, port_option what v s = r ∧ cl_started r.2 = cl_started s ∧ ∀ n, r.1 ≠ Ok (Some n)
  end.
Proof using.
  unfold port_option. change (op_port default_options) with 4747. destruct (parse_port v 4747) as [n|st msg|e|]; [done| | |];
    eexists; (split; [reflexivity|]); [done| |done]. by destruct e.
Qed.

(** A named pipeline is installed, or an error is reported. *)
Lemma load_active_spec path s :
  let '(r, s') := load_active_pipeline fs path s in
  cl_started s' = cl_started s ∧
  match served_document path s with
  | Some document => r = Ok CPIPE_OK ∧ cl_stderr s' = cl_stderr s ∧
      active_pipeline_ (cl_session s') = document ∧ registry_ (cl_session s') = registry_ (cl_session s)
  | None => r ≠ Ok CPIPE_OK
  end.
Proof using JL.
  unfold load_active_pipeline, served_document. destruct (String.eqb_spec path "") as [->|Hne]; [done|].
  destruct (read_file fs path) as [text|]; [|done]. cbn [mbind option_bind].
  unfold mbind, sr_bind, lift, parse_json. destruct (json_parse text) as [doc|]; [|done]. cbn.
  unfold on_server, attempt, set_active_pipeline, replace_active_pipeline, mbind, sr_bind, lift.
  pose proof (throws_only_v04 doc) as Hv.
  destruct (is_pipeline_v04 doc) as [[]| | |]; [..|done|done|done]; cbn; by split_and!.
Qed.

Lemma start_spec options s :
  let m := '(status, error) ← start_server start options;
    if decide (status ≠ CPIPE_OK) then _ ← cerr error; mret (Some (status_int status)) else mret (if wait_for_stop polls then Some 0 else None) in
  if decide ((start options).1 = CPIPE_OK) then
    m s = (Ok (if wait_for_stop polls then Some 0 else None), mkCli (cl_stderr s) (cl_session s) (Some options))
  else ended (m s).
Proof using.
  intros m. unfold m, mbind, sr_bind, start_server. destruct (start options) as [status error]. cbn [fst]. case_decide as Hst.
  - by subst.
  - rewrite decide_True by done. split; [done|]. cbn. intros H0%status_int_zero. done.
Qed.

(** What follows the options: the nodes, the document, the server and the wait. *)
Definition launch (port : Z) : sr CliState (option Z) :=
  _ ← warn_on_lan_bind (options_for port);
  _ ← on_server (set_registry (Some registry));
  loaded ← load_active_pipeline fs (value cf_pipeline "CPIPE_PIPELINE");
  if decide (loaded ≠ CPIPE_OK) then mret (Some (status_int loaded)) else
  '(status, error) ← start_server start (options_for port);
  if decide (status ≠ CPIPE_OK) then _ ← cerr error; mret (Some (status_int status)) else
  mret (if wait_for_stop polls then Some 0 else None).

Lemma serve_launch s :
  load_settings_config get_u16 getenv fs = Ok settings → cl_started s = None →
  match parse_port (value cf_port "CPIPE_SERVER_PORT") 4747 with
  | Ok port => serve s = launch port s
  | _ => ended (serve s)
  end.
Proof using.
  intros Hset Hs. pose proof (port_option_spec (value cf_port "CPIPE_SERVER_PORT") s) as Hp. remember (serve s) as r eqn:Hr.
  unfold run_serve_command in Hr. unfold mbind at 1, sr_bind at 1, lift at 1 in Hr. rewrite (resolve_layered _ _ _ _ _ settings Hset) in Hr.
  cbn [cf_port cf_bind cf_pipeline cf_editor_static] in Hr. unfold mbind at 1, sr_bind at 1 in Hr.
  destruct (parse_port (value cf_port "CPIPE_SERVER_PORT") 4747) as [port| | |] eqn:Hport.
  2-4: destruct Hp as ([r1 s1] & Hp & Hst & Hno); rewrite Hp in Hr; cbn [fst snd] in *;
    destruct r1 as [[n|]| | |]; [by destruct (Hno n)|..]; subst r; split; cbn; congruence || done.
  rewrite Hp in Hr. change (op_bind default_options) with "127.0.0.1" in Hr. change (op_editor_static default_options) with "" in Hr.
  by rewrite override_empty in Hr.
Qed.

Lemma launch_spec port s :
  cl_started s = None →
  match served_document (value cf_pipeline "CPIPE_PIPELINE") s with
  | Some document =>
      if decide ((start (options_for port)).1 = CPIPE_OK) then serving port document s (launch port s) else ended (launch port s)
  | None => ended (launch port s)
  end.
Proof using JL.
  intros Hs. set (s1 := mkCli (cl_stderr s ++ warning_for port) (set_registry (Some registry) (cl_session s)).2 (cl_started s)).
  assert (Hl : launch port s = (loaded ← load_active_pipeline fs (value cf_pipeline "CPIPE_PIPELINE");
    if decide (loaded ≠ CPIPE_OK) then mret (Some (status_int loaded)) else
    '(status, error) ← start_server start (options_for port);
    if decide (status ≠ CPIPE_OK) then _ ← cerr error; mret (Some (status_int status)) else
    mret (if wait_for_stop polls then Some 0 else None)) s1).
  { unfold launch, s1, warning_for. unfold mbind at 1, sr_bind at 1, warn_on_lan_bind at 1.
    destruct (is_loopback_bind _); [|done]. rewrite app_nil_r. by destruct s. }
  pose proof (load_active_spec (value cf_pipeline "CPIPE_PIPELINE") s1) as Hd.
  change (served_document (value cf_pipeline "CPIPE_PIPELINE") s1) with (served_document (value cf_pipeline "CPIPE_PIPELINE") s) in Hd.
  revert Hl. generalize (launch port s) as result. unfold mbind at 1, sr_bind at 1.
  destruct (load_active_pipeline _ _ s1) as [r s2]. destruct Hd as [Hst Hd]. intros result ->.
  change (cl_started s1) with (cl_started s) in Hst.
  destruct (served_document _ s) as [document|].
  - destruct Hd as (-> & He & Ha & Hr). rewrite (decide_False (P := CPIPE_OK ≠ CPIPE_OK)) by (intros []; done).
    pose proof (start_spec (options_for port) s2) as Hm. cbv zeta in Hm. destruct (decide ((start (options_for port)).1 = CPIPE_OK)); [|done]. rewrite Hm. by split_and!.
  - destruct r as [loaded| | |]; [|split; [cbn; congruence|done]..]. rewrite decide_True by (intros ->; done).
    split; [cbn; congruence|]. intros ->%status_int_zero. done.
Qed.


End Serve.

(** ** The run command *)

Section Source.

Context {J : JsonLib} {JL : JsonLaws J}.

(** The path of the input as the source node reads it. *)
Lemma path_param input :
  param_string (mkParamView (Some (json_object [("path", json_string input)])) (Some SuiteParam)) "path" = Ok input.
Proof using JL.
  set (params := json_object _). assert (Hf : find_key params "path" = Some (json_string input)).
  { unfold params. rewrite find_key_mk; [done|]. repeat constructor. set_solver. }
  assert (Hs : is_string (json_string input) = true) by (apply get_string_type; exists input; apply get_string_mk).
  unfold param_string, no_params, get_param_enum, param_value. cbn [null pv_suite pv_impl orb]. unfold contains.
  rewrite Hf, bool_decide_true by done. cbn [negb]. rewrite (at_key_found _ _ _ Hf), Ok_bind, Hs, Ok_bind. by rewrite get_string_mk.
Qed.

(** the input of [cpipe run]: a file whose extension is .dng in any case is bound to
    the port named raw, as the source plugin of DNG files, which reads exactly the path
    that was given; any other input leaves the pipeline without a source. *)
Theorem run_binds_input what fs schema_validate (registry : Registry) (input pipeline_path : string) (p : Pipeline) :
  prepare_run what fs schema_validate registry input pipeline_path = Ok p →
  if has_dng_extension input then
    ∃ desc source, sources_ p !! "raw" = Some source ∧ Exists (λ i, in_name i = "raw") (inputs_ p) ∧
      sb_plugin_id source = "com.cpipe.builtin.dng_input" ∧ sb_descriptor source = Some desc ∧
      find registry "com.cpipe.builtin.dng_input" = Some desc ∧
      param_string (mkParamView (Some (sb_params source)) (Some SuiteParam)) "path" = Ok input
  else sources_ p = ∅.
Proof using JL.
  unfold prepare_run. destruct (load _ _ _ _ _) as [q| | |] eqn:Hl; try done. rewrite Ok_bind.
  assert (sources_ q = ∅ ∧ Pipeline.registry_ q = Some registry) as [Hq Hr].
  { destruct (read_file fs pipeline_path) as [text|]; [|done]. destruct (json_parse text) as [document|] eqn:Hp.
    - by destruct (load_stages _ _ _ _ _ _ _ Hp Hl) as (? & ? & ? & ? & ? & ? & ? & ? & ? & _ & _ & _ & _ & _ & _ & _ & _ & _ & ->).
    - unfold load, parse_json in Hl. by rewrite Hp in Hl. }
  destruct (has_dng_extension input); [|by intros [= <-]]. unfold set_source. case_decide as Hin; [|done]. rewrite Hr. cbn [mbind option_bind].
  destruct (find registry _) as [desc|]; [|done]. intros [= <-]. exists desc. eexists. cbn -[insert lookup]. rewrite lookup_insert_eq.
  split_and!; [done..|apply path_param].
Qed.

End Source.

(** A source that failed has a status that says so. *)
Lemma source_failure {J : JsonLib} {W} (plugins : plugin W) alloc p w st msg : run_source plugins alloc p w = Ok (inl (st, msg)) → st ≠ CPIPE_OK.
Proof.
  unfold run_source. intros H.
  repeat (match type of H with
  | (?m ≫= _) = Ok _ => let E := fresh "E" in destruct m eqn:E; [rewrite Ok_bind in H|done..]
  | (if decide _ then _ else _) = Ok _ => case_decide
  | (match ?x with _ => _ end) = Ok _ => destruct x
  | (let '(_, _) := ?x in _) = Ok _ => destruct x
  end; try (by injection H as <- _); try done).
Qed.

(** an exit code of zero for a DNG file: the pipeline ran to its end; exactly one
    object of the source and one of each of its nodes was created, called and
    destroyed, in the stored order. *)
Theorem run_zero_complete {J : JsonLib} {W} (plugins : plugin W) alloc what fs schema_validate (registry : Registry)
    (input pipeline_path output : string) (w : W) input_file open_output write_output (p : Pipeline) :
  prepare_run what fs schema_validate registry input pipeline_path = Ok p → has_dng_extension input = true →
  run_command plugins alloc what fs schema_validate registry input pipeline_path output w input_file open_output write_output 0 →
  ∃ final source instances, run_to_file plugins alloc p output w CPIPE_OK (Some final) ∧
    trace final = (source :: instances) ≫= lifecycle ∧
    Forall2 (λ node c, main_entry <$> ni_descriptor node = Some (Some c.1)) (nodes_ p) instances.
Proof.
  intros Hp Hd Hrun. inversion Hrun as [st msg H Hz|e H _ Hz|p' st final H _ Hto Hz| | |]; try congruence.
  assert (p' = p) as -> by congruence. apply status_int_zero in Hz as ->. destruct final as [final|].
  - destruct (run_ok_lifecycle _ _ _ _ _ _ Hto) as (source & instances & Ht & Hf). by exists final, source, instances.
  - inversion Hto as [st msg Hs|]; subst. by apply source_failure in Hs.
Qed.

(** ** Witnesses *)

Module CliExample.

Definition docs (text : string) : option Tree.tree :=
  if String.eqb text "settings" then Some (Tree.JObject [("server", Tree.JObject [("port", Tree.JUint 9000); ("bind", Tree.JString "::1")])])
  else if String.eqb text "pipeline" then Some (Tree.JObject
    [("version", Tree.JString "0.4"); ("nodes", Tree.JArray []); ("edges", Tree.JArray []);
     ("inputs", Tree.JArray [Tree.JObject [("port", Tree.JString "raw"); ("format", Tree.JString "R16_UINT");
       ("width", Tree.JUint 4); ("height", Tree.JUint 2)]])])
  else None.

#[local] Instance lib : JsonLib := Tree.lib docs.

Definition get_u16 (j : json) : res Z := v ← get_u64 j; Ok (u16 v).
Definition what (e : exn) : string := "error".
Definition getenv (key : string) : option string :=
  if String.eqb key "HOME" then Some "/home/me" else if String.eqb key "CPIPE_SERVER_BIND" then Some "0.0.0.0" else None.
Definition fs : FileSystem := mkFs (λ _, false) (λ path, String.eqb path "/home/me/.config/cpipe/settings.json")
  (λ path, if String.eqb path "/home/me/.config/cpipe/settings.json" then Some "settings" else Some "pipeline").
Definition flags : ServeCommandConfig := mkConfig "" "" "p.json" "web".
Definition settings : ServeCommandConfig := mkConfig "9000" "::1" "" "".
Definition start (o : EditorServerOptions) : cpipe_status_t * string := (CPIPE_OK, "").
Definition s : CliState := mkCli [] new_session None.
Definition dng_input : cpipe_plugin_desc_t := mkDesc 0 4 (Some "com.cpipe.builtin.dng_input") None None (Some 0%nat).


Lemma run_binds_input_witness :
  ∃ p source, prepare_run what fs (λ _, Ok tt) [dng_input] "shots/IMG_1.DNG" "p.json" = Ok p ∧ sources_ p !! "raw" = Some source ∧
    param_string (mkParamView (Some (sb_params source)) (Some SuiteParam)) "path" = Ok "shots/IMG_1.DNG".
Proof.
  assert (∃ p, prepare_run what fs (λ _, Ok tt) [dng_input] "shots/IMG_1.DNG" "p.json" = Ok p) as [p Hp] by (eexists; reflexivity).
  pose proof (run_binds_input (JL := Tree.lib_laws docs) what fs (λ _, Ok tt) [dng_input] "shots/IMG_1.DNG" "p.json" p Hp)
    as (desc & source & Hs & _ & _ & _ & _ & Hq). by exists p, source.
Defined.

(** What follows the digits of a port is ignored, and a negative port wraps. *)
Example odd_ports : parse_port "8080http" 4747 = Ok 8080 ∧ parse_port "-18446744073709551615" 4747 = Ok 1.
Proof. done. Qed.

(** A port of the settings file that does not fit is cut to 16 bits. *)
Example cut_port : to_string_u16 get_u16 (Tree.JUint 70000 : json) = Ok "4464".
Proof. done. Qed.

End CliExample.
