(* ===== verification/VulkanApi.v ===== *)
(** * The calls of the Vulkan runtime, and what they own

    The files runtime/Vulkan*.cpp and color/OcioVulkanProcessor.cpp are written
    against Vulkan and its memory allocator.  [VkCall] has the calls they make, with
    the arguments they fill in and the type of the reply; the class [VkDriver] is
    the driver that answers, any function on a state of its own.  The state of the
    program, [World], adds the objects of the runtime and a ledger: which handles
    were obtained and not given back, and whether one was given back that was not
    held, or while something made from it still was; and a log of the calls with their
    replies.  Both are computed from the calls and replies only.  [vkm] is the monad of the sources: state, exceptions
    with a text, failed assertions and undefined behaviour. *)

From Stdlib Require Import ZArith Lia.
From stdpp Require Import prelude strings list gmap.
From S2P Require Import Prelude Core.

Open Scope Z_scope.

(** ** Constants and results of vulkan.h *)

Abbreviation VkHandle := Z.
Definition VK_NULL_HANDLE : VkHandle := 0.

Inductive VkResult : Type :=
| VK_SUCCESS | VK_NOT_READY | VK_TIMEOUT
| VK_ERROR_OUT_OF_HOST_MEMORY | VK_ERROR_OUT_OF_DEVICE_MEMORY
| VK_ERROR_INITIALIZATION_FAILED | VK_ERROR_LAYER_NOT_PRESENT
| VK_ERROR_EXTENSION_NOT_PRESENT | VK_ERROR_INCOMPATIBLE_DRIVER
| VK_ERROR_FEATURE_NOT_PRESENT | VK_OTHER (code : Z).

#[export] Instance VkResult_eq_dec : EqDecision VkResult.
Proof. solve_decision. Defined.

Inductive VkImageLayout : Type :=
| LAYOUT_UNDEFINED | LAYOUT_GENERAL | LAYOUT_TRANSFER_SRC_OPTIMAL | LAYOUT_TRANSFER_DST_OPTIMAL.

#[export] Instance VkImageLayout_eq_dec : EqDecision VkImageLayout.
Proof. solve_decision. Defined.

Inductive VkFormat : Type :=
| VK_FORMAT_UNDEFINED | VK_FORMAT_R16_UINT | VK_FORMAT_R8G8B8A8_UNORM
| VK_FORMAT_R16G16B16A16_SFLOAT | VK_FORMAT_R16G16B16A16_UNORM | VK_FORMAT_R32_SFLOAT
| VK_FORMAT_R32G32B32A32_SFLOAT.

#[export] Instance VkFormat_eq_dec : EqDecision VkFormat.
Proof. solve_decision. Defined.

Definition VK_API_VERSION_1_0 : Z := Z.shiftl 1 22.
Definition VK_API_VERSION_1_3 : Z := Z.lor (Z.shiftl 1 22) (Z.shiftl 3 12).
Definition VK_QUEUE_FAMILY_IGNORED : Z := 2 ^ 32 - 1.
Definition VK_QUEUE_GRAPHICS_BIT : Z := 1.
Definition VK_QUEUE_COMPUTE_BIT : Z := 2.
Definition VK_MEMORY_HEAP_DEVICE_LOCAL_BIT : Z := 1.
Definition VK_IMAGE_USAGE_TRANSFER_SRC_BIT : Z := 1.
Definition VK_IMAGE_USAGE_TRANSFER_DST_BIT : Z := 2.
Definition VK_IMAGE_USAGE_SAMPLED_BIT : Z := 4.
Definition VK_IMAGE_USAGE_STORAGE_BIT : Z := 8.
Definition VK_BUFFER_USAGE_TRANSFER_SRC_BIT : Z := 1.
Definition VK_BUFFER_USAGE_TRANSFER_DST_BIT : Z := 2.
Definition VK_BUFFER_USAGE_STORAGE_BUFFER_BIT : Z := 32.
Definition VK_ACCESS_TRANSFER_READ_BIT : Z := 2048.
Definition VK_ACCESS_TRANSFER_WRITE_BIT : Z := 4096.
Definition VK_ACCESS_MEMORY_READ_BIT : Z := 32768.
Definition VK_ACCESS_MEMORY_WRITE_BIT : Z := 65536.
Definition VK_PIPELINE_STAGE_TOP_OF_PIPE_BIT : Z := 1.
Definition VK_PIPELINE_STAGE_TRANSFER_BIT : Z := 4096.
Definition VK_PIPELINE_STAGE_ALL_COMMANDS_BIT : Z := 65536.

(** [VkImageMemoryBarrier] with the stages of its [vkCmdPipelineBarrier]. *)
Record VkImageBarrier : Type := mkBarrier {
  oldLayout : VkImageLayout;
  newLayout : VkImageLayout;
  barrier_image : VkHandle;
  srcAccessMask : Z;
  dstAccessMask : Z;
  srcStage : Z;
  dstStage : Z
}.

(** The commands that are recorded into command buffers.  The copies have one region,
    at the origin of both, with rows and images packed. *)
Inductive VkCommand : Type :=
| vkCmdPipelineBarrier (b : VkImageBarrier)
| vkCmdCopyBufferToImage (buffer image : VkHandle) (layout : VkImageLayout) (width height : Z)
| vkCmdCopyImageToBuffer (image : VkHandle) (layout : VkImageLayout) (buffer : VkHandle)
    (width height : Z)
| vkCmdBindPipeline (pipeline : VkHandle)
| vkCmdBindDescriptorSets (layout set : VkHandle)
| vkCmdDispatch (x y z : Z).

(** ** The calls *)

(** A call that creates something replies with a result and a handle, which means
    something only with [VK_SUCCESS].  [host_store] and [host_load] are [memcpy] to and
    from the mapped memory of an allocation, [host_resize] the growth of a
    [std::vector] by that many bytes, which may run out of memory.  [vkCreateDevice],
    [vkDestroyDevice] and [vmaDestroyAllocator] also name what the object belongs to, and
    the sizes that a first call asks for are folded into one where nothing is decided
    between the two. *)
Inductive VkCall : Type → Type :=
| vkEnumerateInstanceVersion : VkCall (VkResult * Z)
| vkCountInstanceLayers : VkCall (VkResult * Z)
| vkEnumerateInstanceLayerProperties (count : Z) : VkCall (VkResult * list string)
| vkCreateInstance (api_version : Z) (layers : list string) : VkCall (VkResult * VkHandle)
| vkDestroyInstance (instance : VkHandle) : VkCall unit
| vkCountPhysicalDevices (instance : VkHandle) : VkCall (VkResult * Z)
| vkEnumeratePhysicalDevices (instance : VkHandle) (count : Z) : VkCall (VkResult * list VkHandle)
| vkGetPhysicalDeviceProperties (physical_device : VkHandle) : VkCall Z
| vkGetPhysicalDeviceFeatures2 (physical_device : VkHandle) : VkCall bool
| vkGetPhysicalDeviceQueueFamilyProperties (physical_device : VkHandle) : VkCall (list Z)
| vkGetPhysicalDeviceMemoryProperties (physical_device : VkHandle) : VkCall (list (Z * Z))
| vkCreateDevice (instance physical_device : VkHandle) (family : Z) : VkCall (VkResult * VkHandle)
| vkDestroyDevice (instance device : VkHandle) : VkCall unit
| vkDeviceWaitIdle (device : VkHandle) : VkCall VkResult
| vkGetDeviceQueue (device : VkHandle) (family index : Z) : VkCall VkHandle
| vmaCreateAllocator (instance physical_device device : VkHandle) : VkCall (VkResult * VkHandle)
| vmaDestroyAllocator (device allocator : VkHandle) : VkCall unit
| vkCreateCommandPool (device : VkHandle) (family : Z) : VkCall (VkResult * VkHandle)
| vkDestroyCommandPool (device pool : VkHandle) : VkCall unit
| vkAllocateCommandBuffers (device pool : VkHandle) : VkCall (VkResult * VkHandle)
| vkFreeCommandBuffers (device pool command_buffer : VkHandle) : VkCall unit
| vkBeginCommandBuffer (command_buffer : VkHandle) : VkCall VkResult
| vkEndCommandBuffer (command_buffer : VkHandle) : VkCall VkResult
| vkCmd (command_buffer : VkHandle) (command : VkCommand) : VkCall unit
| vkQueueSubmit (queue command_buffer : VkHandle) (signal : option (VkHandle * Z))
    (fence : VkHandle) : VkCall VkResult
| vkCreateFence (device : VkHandle) (signaled : bool) : VkCall (VkResult * VkHandle)
| vkDestroyFence (device fence : VkHandle) : VkCall unit
| vkWaitForFences (device fence : VkHandle) (timeout : Z) : VkCall VkResult
| vkGetFenceStatus (device fence : VkHandle) : VkCall VkResult
| vkResetFences (device fence : VkHandle) : VkCall VkResult
| vkCreateSemaphore (device : VkHandle) (initial : Z) : VkCall (VkResult * VkHandle)
| vkDestroySemaphore (device semaphore : VkHandle) : VkCall unit
| vkGetSemaphoreCounterValue (device semaphore : VkHandle) : VkCall (VkResult * Z)
| vkWaitSemaphores (device semaphore : VkHandle) (value timeout : Z) : VkCall VkResult
| vkSignalSemaphore (device semaphore : VkHandle) (value : Z) : VkCall VkResult
| vmaCreateBuffer (allocator : VkHandle) (size usage : Z)
    : VkCall (VkResult * (VkHandle * VkHandle * bool))
| vmaDestroyBuffer (allocator buffer allocation : VkHandle) : VkCall unit
| vmaMapMemory (allocator allocation : VkHandle) : VkCall VkResult
| vmaFlushAllocation (allocator allocation : VkHandle) : VkCall VkResult
| vmaInvalidateAllocation (allocator allocation : VkHandle) : VkCall VkResult
| vmaCreateImage (allocator : VkHandle) (format : VkFormat) (width height usage : Z)
    : VkCall (VkResult * (VkHandle * VkHandle))
| vmaDestroyImage (allocator image allocation : VkHandle) : VkCall unit
| host_store (allocation : VkHandle) (data : bytes) : VkCall unit
| host_load (allocation : VkHandle) (count : Z) : VkCall bytes
| host_resize (count : Z) : VkCall bool
| vkCreateImageView (device image : VkHandle) (format : VkFormat) : VkCall (VkResult * VkHandle)
| vkDestroyImageView (device view : VkHandle) : VkCall unit
| vkCreateDescriptorPool (device : VkHandle) (count max_sets : Z) : VkCall (VkResult * VkHandle)
| vkDestroyDescriptorPool (device pool : VkHandle) : VkCall unit
| vkAllocateDescriptorSets (device pool set_layout : VkHandle) : VkCall (VkResult * VkHandle)
| vkUpdateDescriptorSets (device set : VkHandle) (views : list (VkHandle * VkImageLayout))
    : VkCall unit
| vkCreateDescriptorSetLayout (device : VkHandle) (bindings : Z) : VkCall (VkResult * VkHandle)
| vkDestroyDescriptorSetLayout (device layout : VkHandle) : VkCall unit
| vkCreatePipelineLayout (device set_layout : VkHandle) : VkCall (VkResult * VkHandle)
| vkDestroyPipelineLayout (device layout : VkHandle) : VkCall unit
| vkCreateShaderModule (device : VkHandle) (code : list Z) : VkCall (VkResult * VkHandle)
| vkDestroyShaderModule (device shader : VkHandle) : VkCall unit
| vkCreateComputePipelines (device shader layout : VkHandle) : VkCall (VkResult * VkHandle)
| vkDestroyPipeline (device pipeline : VkHandle) : VkCall unit.

(** The driver. *)
Class VkDriver : Type := {
  vk_state : Type;
  vk_call : ∀ {A}, VkCall A → vk_state → A * vk_state
}.

(** ** What a call obtains and gives back *)

Inductive VkKind : Type :=
| KInstance | KDevice | KAllocator | KCommandPool | KCommandBuffer | KFence | KSemaphore
| KBuffer | KImage | KImageView | KDescriptorPool | KDescriptorSet | KDescriptorSetLayout
| KPipelineLayout | KShaderModule | KPipeline.

#[export] Instance VkKind_eq_dec : EqDecision VkKind.
Proof. solve_decision. Defined.

(** A held object: its kind, the object it was made from, and its handle. *)
Record resource : Type := Res { r_kind : VkKind; r_parent : VkHandle; r_handle : VkHandle }.

#[export] Instance resource_eq_dec : EqDecision resource.
Proof. solve_decision. Defined.

Definition parent_kind (k : VkKind) : option VkKind :=
  match k with
  | KInstance => None
  | KDevice => Some KInstance
  | KCommandBuffer => Some KCommandPool
  | KDescriptorSet => Some KDescriptorPool
  | KBuffer | KImage => Some KAllocator
  | _ => Some KDevice
  end.

(** [child] was made from [parent]. *)
Definition made_from (parent child : resource) : bool :=
  bool_decide (parent_kind (r_kind child) = Some (r_kind parent)) &&
  (r_parent child =? r_handle parent).

(** Command buffers and descriptor sets go with their pool; for everything else the
    parent must outlive the child. *)
Definition goes_with (parent child : resource) : bool :=
  made_from parent child && bool_decide (r_kind parent = KCommandPool ∨ r_kind parent = KDescriptorPool).
Definition keeps_alive (parent child : resource) : bool :=
  made_from parent child && negb (goes_with parent child).

Definition made (k : VkKind) (parent : VkHandle) (r : VkResult * VkHandle) : option resource :=
  if decide (r.1 = VK_SUCCESS) then Some (Res k parent r.2) else None.

Definition acquired {A} (c : VkCall A) : A → option resource :=
  match c in VkCall A return A → option resource with
  | vkCreateInstance _ _ => made KInstance 0
  | vkCreateDevice i _ _ => made KDevice i
  | vmaCreateAllocator _ _ d => made KAllocator d
  | vkCreateCommandPool d _ => made KCommandPool d
  | vkAllocateCommandBuffers _ p => made KCommandBuffer p
  | vkCreateFence d _ => made KFence d
  | vkCreateSemaphore d _ => made KSemaphore d
  | vmaCreateBuffer a _ _ => λ r, made KBuffer a (r.1, r.2.1.1)
  | vmaCreateImage a _ _ _ _ => λ r, made KImage a (r.1, r.2.1)
  | vkCreateImageView d _ _ => made KImageView d
  | vkCreateDescriptorPool d _ _ => made KDescriptorPool d
  | vkAllocateDescriptorSets _ p _ => made KDescriptorSet p
  | vkCreateDescriptorSetLayout d _ => made KDescriptorSetLayout d
  | vkCreatePipelineLayout d _ => made KPipelineLayout d
  | vkCreateShaderModule d _ => made KShaderModule d
  | vkCreateComputePipelines d _ _ => made KPipeline d
  | _ => λ _, None
  end.

Definition released {A} (c : VkCall A) : option resource :=
  match c with
  | vkDestroyInstance h => Some (Res KInstance 0 h)
  | vkDestroyDevice i h => Some (Res KDevice i h)
  | vmaDestroyAllocator d h => Some (Res KAllocator d h)
  | vkDestroyCommandPool d h => Some (Res KCommandPool d h)
  | vkFreeCommandBuffers _ p h => Some (Res KCommandBuffer p h)
  | vkDestroyFence d h => Some (Res KFence d h)
  | vkDestroySemaphore d h => Some (Res KSemaphore d h)
  | vmaDestroyBuffer a h _ => Some (Res KBuffer a h)
  | vmaDestroyImage a h _ => Some (Res KImage a h)
  | vkDestroyImageView d h => Some (Res KImageView d h)
  | vkDestroyDescriptorPool d h => Some (Res KDescriptorPool d h)
  | vkDestroyDescriptorSetLayout d h => Some (Res KDescriptorSetLayout d h)
  | vkDestroyPipelineLayout d h => Some (Res KPipelineLayout d h)
  | vkDestroyShaderModule d h => Some (Res KShaderModule d h)
  | vkDestroyPipeline d h => Some (Res KPipeline d h)
  | _ => None
  end.

(** The ledger: what is held, and whether something was given back wrongly. *)
Record ledger : Type := mkLedger { held : list resource; misused : bool }.

Definition no_ledger : ledger := mkLedger [] false.

Fixpoint remove1 (r : resource) (l : list resource) : list resource :=
  match l with
  | [] => []
  | x :: l' => if decide (x = r) then l' else x :: remove1 r l'
  end.

Definition give_back (r : resource) (g : ledger) : ledger :=
  let others := remove1 r (held g) in
  mkLedger (filter (λ x, goes_with r x = false) others)
    (misused g || bool_decide (r ∉ held g) || existsb (keeps_alive r) others).

Definition book {A} (c : VkCall A) (a : A) (g : ledger) : ledger :=
  let g := match acquired c a with
           | Some r => mkLedger (r :: held g) (misused g)
           | None => g
           end in
  match released c with Some r => give_back r g | None => g end.

(** A call and the reply it got. *)
Inductive event : Type :=
| Event {A : Type} (c : VkCall A) (a : A).

(** A call that did not succeed. *)
Inductive refused : event → Prop :=
| refused_result (c : VkCall VkResult) r : r ≠ VK_SUCCESS → refused (Event c r)
| refused_creation A (c : VkCall (VkResult * A)) r : r.1 ≠ VK_SUCCESS → refused (Event c r)
| refused_resize n : refused (Event (host_resize n) false).

(** A creation that did not succeed and still wrote a handle: the specification leaves
    the result of a failed call undefined. *)
Inductive stray : event → Prop :=
| stray_handle (c : VkCall (VkResult * VkHandle)) r :
    r.1 ≠ VK_SUCCESS → r.2 ≠ VK_NULL_HANDLE → stray (Event c r).

(** ** The objects of the runtime *)

Record VulkanDevicePlane : Type := mkPlane {
  instance_ : VkHandle;
  physical_device_ : VkHandle;
  device_ : VkHandle;
  allocator_ : VkHandle;
  queue_ : VkHandle;
  queue_family_index_ : Z;
  api_version_ : Z;
  memory_budget_bytes_ : Z;
  validation_requested_ : bool;
  validation_enabled_ : bool;
  command_pools_ : gmap nat VkHandle
}.

(** [plane_] is the position of the plane in the state: the pointer is shared. *)
Record VulkanImage : Type := mkImage {
  plane_ : nat;
  layout_ : BufferLayout;
  usage_ : Z;
  color_role_ : string;
  metadata_ : option BufferMetadata;
  image_ : VkHandle;
  allocation_ : VkHandle;
  format_ : VkFormat;
  current_layout_ : VkImageLayout;
  size_bytes_ : Z;
  staging_ : bytes;
  locked_access_ : CpuAccess;
  locked_ : bool
}.

(** A pipeline of the colour processor (color/OcioVulkanProcessor.cpp). *)
Record PipelineResources : Type := mkResources {
  pr_device : VkHandle;
  set_layout_ : VkHandle;
  pipeline_layout_ : VkHandle;
  shader_ : VkHandle;
  pipeline_ : VkHandle
}.

(** ** The state of the program and its effects *)

Section Effects.
Context {D : VkDriver}.

(** [w_thread] is the calling thread; a destroyed plane or image is [None];
    [w_pipelines] is the cache of the colour processor; [w_log] has the calls so far,
    the latest first. *)
Record World : Type := mkWorld {
  w_driver : vk_state;
  w_ledger : ledger;
  w_thread : nat;
  w_planes : list (option VulkanDevicePlane);
  w_images : list (option VulkanImage);
  w_pipelines : list (PixelFormat * PipelineResources);
  w_log : list event
}.

Definition with_planes (w : World) (p : list (option VulkanDevicePlane)) : World :=
  mkWorld (w_driver w) (w_ledger w) (w_thread w) p (w_images w) (w_pipelines w) (w_log w).
Definition with_images (w : World) (i : list (option VulkanImage)) : World :=
  mkWorld (w_driver w) (w_ledger w) (w_thread w) (w_planes w) i (w_pipelines w) (w_log w).

Inductive outcome (A : Type) : Type :=
| Ret (a : A)
| Raise (what : string)
| Aborted
| Undefined.
#[global] Arguments Ret {A} a.
#[global] Arguments Raise {A} what.
#[global] Arguments Aborted {A}.
#[global] Arguments Undefined {A}.

Definition vkm (A : Type) : Type := World → outcome A * World.

#[global] Instance vkm_ret : MRet vkm := λ A a w, (Ret a, w).
#[global] Instance vkm_bind : MBind vkm := λ A B f m w,
  match m w with
  | (Ret a, w') => f a w'
  | (Raise what, w') => (Raise what, w')
  | (Aborted, w') => (Aborted, w')
  | (Undefined, w') => (Undefined, w')
  end.

Definition vk {A} (c : VkCall A) : vkm A := λ w,
  let '(a, d) := vk_call c (w_driver w) in
  (Ret a, mkWorld d (book c a (w_ledger w)) (w_thread w) (w_planes w) (w_images w)
     (w_pipelines w) (Event c a :: w_log w)).

Definition raise {A} (what : string) : vkm A := λ w, (Raise what, w).
Definition vassert (b : bool) : vkm unit := λ w, (if b then Ret tt else Aborted, w).

(** [try { m } catch (const std::exception& error) { h(error.what()) }]. *)
Definition try_catch {A} (m : vkm A) (h : string → vkm A) : vkm A := λ w,
  match m w with
  | (Raise what, w') => h what w'
  | r => r
  end.

(** The destructor [fin] of a local object runs when its block [m] is left. *)
Definition scoped {A} (m : vkm A) (fin : vkm unit) : vkm A := λ w,
  match m w with
  | (Ret a, w') => (_ ← fin; mret a) w'
  | (Raise what, w') => (_ ← fin; raise what) w'
  | r => r
  end.

(** Dereferencing a plane or an image. *)
Definition plane_at (p : nat) : vkm VulkanDevicePlane := λ w,
  (match w_planes w !! p with Some (Some x) => Ret x | _ => Undefined end, w).
Definition image_at (i : nat) : vkm VulkanImage := λ w,
  (match w_images w !! i with Some (Some x) => Ret x | _ => Undefined end, w).
Definition set_plane (p : nat) (x : VulkanDevicePlane) : vkm unit := λ w,
  (Ret tt, with_planes w (<[p := Some x]> (w_planes w))).
Definition set_image (i : nat) (x : VulkanImage) : vkm unit := λ w,
  (Ret tt, with_images w (<[i := Some x]> (w_images w))).

(** [check_vk] of every file but VulkanDevicePlane.cpp. *)
Definition check_vk (result : VkResult) (operation : string) : vkm unit :=
  if decide (result = VK_SUCCESS) then mret tt else raise operation.

(** A call whose handle is used only when it succeeded. *)
Definition create_checked {A} (c : VkCall (VkResult * A)) (operation : string) : vkm A :=
  r ← vk c; _ ← check_vk r.1 operation; mret r.2.

(** ** Reasoning about them *)

(** What holds after [m] from [w], by its outcome. *)
Definition after {A} (m : vkm A) (w : World) (Q : outcome A → World → Prop) : Prop :=
  Q (m w).1 (m w).2.

Lemma after_mono {A} (m : vkm A) w (Q Q' : outcome A → World → Prop) :
  after m w Q → (∀ o w', Q o w' → Q' o w') → after m w Q'.
Proof. unfold after. auto. Qed.

Lemma after_bind {A B} (m : vkm A) (f : A → vkm B) w Q :
  after m w (λ o w', match o with
    | Ret a => after (f a) w' Q
    | Raise what => Q (Raise what) w'
    | Aborted => Q Aborted w'
    | Undefined => Q Undefined w'
    end) → after (m ≫= f) w Q.
Proof. unfold after, mbind, vkm_bind. by destruct (m w) as [[] w']. Qed.

Lemma after_ret {A} (a : A) w (Q : outcome A → World → Prop) : Q (Ret a) w → after (mret a) w Q.
Proof. done. Qed.

Lemma after_scoped {A} (m : vkm A) fin w (Q : outcome A → World → Prop) :
  after m w (λ o w', match o with
    | Ret a => after fin w' (λ o' w'', o' = Ret tt ∧ Q (Ret a) w'')
    | Raise what => after fin w' (λ o' w'', o' = Ret tt ∧ Q (Raise what) w'')
    | Aborted => Q Aborted w'
    | Undefined => Q Undefined w'
    end) → after (scoped m fin) w Q.
Proof.
  unfold after, scoped. destruct (m w) as [[] w']; simpl; try done;
    unfold mbind, vkm_bind; destruct (fin w') as [[] w'']; simpl; intros [? ?]; simplify_eq; done.
Qed.

Lemma after_catch {A} (m : vkm A) h w (Q : outcome A → World → Prop) :
  after m w (λ o w', match o with
    | Raise what => after (h what) w' Q
    | o => Q o w'
    end) → after (try_catch m h) w Q.
Proof. unfold after, try_catch. by destruct (m w) as [[] w']. Qed.

(** The world after a call and its reply. *)
Definition called {A} (c : VkCall A) (w : World) : World := ((vk c) w).2.
Definition reply {A} (c : VkCall A) (w : World) : A := (vk_call c (w_driver w)).1.

Lemma after_vk {A B} (c : VkCall A) (f : A → vkm B) w Q :
  after (f (reply c w)) (called c w) Q → after (vk c ≫= f) w Q.
Proof. unfold after, mbind, vkm_bind, called, reply, vk. by destruct (vk_call c _). Qed.

Lemma called_driver {A} (c : VkCall A) w :
  w_driver (called c w) = (vk_call c (w_driver w)).2.
Proof. unfold called, vk. by destruct (vk_call c _). Qed.
Lemma called_eq {A} (c : VkCall A) w :
  vk_call c (w_driver w) = (reply c w, w_driver (called c w)).
Proof. rewrite called_driver. unfold reply. by destruct (vk_call c _). Qed.
Lemma called_ledger {A} (c : VkCall A) w :
  w_ledger (called c w) = book c (reply c w) (w_ledger w).
Proof. unfold called, reply, vk. by destruct (vk_call c _). Qed.
Lemma called_rest {A} (c : VkCall A) w :
  w_planes (called c w) = w_planes w ∧ w_images (called c w) = w_images w ∧
  w_thread (called c w) = w_thread w ∧ w_pipelines (called c w) = w_pipelines w.
Proof. unfold called, vk. by destruct (vk_call c _). Qed.

Lemma called_log {A} (c : VkCall A) w : w_log (called c w) = Event c (reply c w) :: w_log w.
Proof. unfold called, reply, vk. by destruct (vk_call c _). Qed.

(** A call of the log was refused; one left a stray handle. *)
Definition call_refused (w : World) : Prop := Exists refused (w_log w).
Definition handle_strayed (w : World) : Prop := Exists stray (w_log w).

Lemma called_refused {A} (c : VkCall A) w : call_refused w → call_refused (called c w).
Proof. unfold call_refused. rewrite called_log. by right. Qed.
Lemma called_strayed {A} (c : VkCall A) w : handle_strayed w → handle_strayed (called c w).
Proof. unfold handle_strayed. rewrite called_log. by right. Qed.

Lemma result_refused (c : VkCall VkResult) w : reply c w ≠ VK_SUCCESS → call_refused (called c w).
Proof. intros H. unfold call_refused. rewrite called_log. left. by constructor. Qed.
Lemma creation_refused {A} (c : VkCall (VkResult * A)) w :
  (reply c w).1 ≠ VK_SUCCESS → call_refused (called c w).
Proof. intros H. unfold call_refused. rewrite called_log. left. by constructor. Qed.

(** The handle a failed creation leaves is null or strays. *)
Lemma creation_strayed (c : VkCall (VkResult * VkHandle)) w :
  (reply c w).1 ≠ VK_SUCCESS → (reply c w).2 = VK_NULL_HANDLE ∨ handle_strayed (called c w).
Proof.
  intros H. destruct (decide ((reply c w).2 = VK_NULL_HANDLE)) as [|Hn]; [by left|right].
  unfold handle_strayed. rewrite called_log. left. by constructor.
Qed.

(** A created object is held, a failed creation changes nothing. *)
Lemma after_create {A B} (c : VkCall (VkResult * A)) op (f : A → vkm B) w Q :
  ((reply c w).1 = VK_SUCCESS → after (f (reply c w).2) (called c w) Q) →
  ((reply c w).1 ≠ VK_SUCCESS → Q (Raise op) (called c w)) →
  after (create_checked c op ≫= f) w Q.
Proof.
  intros Hs Hf. unfold create_checked.
  apply after_bind, after_vk, after_bind. unfold check_vk.
  destruct (decide _) as [E|E]; [|by apply Hf]. by apply after_ret, Hs.
Qed.

(** ** The ledger *)

(** Exactly [l] is held, and nothing was given back wrongly unless a failed creation
    left a handle. *)
Definition owns (w : World) (l : list resource) : Prop :=
  held (w_ledger w) ≡ₚ l ∧ (misused (w_ledger w) = true → handle_strayed w).

#[global] Instance owns_proper w : Proper ((≡ₚ) ==> iff) (owns w).
Proof. intros l l' E. unfold owns. by rewrite E. Qed.

Lemma filter_true (P : resource → Prop) `{∀ x, Decision (P x)} (l : list resource) :
  (∀ x, x ∈ l → P x) → filter P l = l.
Proof.
  induction l as [|x l IH]; intros HP; [done|]. rewrite filter_cons, decide_True by (apply HP; left).
  f_equal. apply IH. intros; apply HP; by right.
Qed.

Lemma remove1_perm (r : resource) (l l' : list resource) : l ≡ₚ r :: l' → remove1 r l ≡ₚ l'.
Proof.
  assert (∀ l, r ∈ l → l ≡ₚ r :: remove1 r l) as Hin.
  { clear. induction l as [|x l IH]; intros H; [by apply elem_of_nil in H|]. simpl.
    destruct (decide (x = r)) as [->|Hne]; [done|].
    apply elem_of_cons in H as [?|H]; [by subst|]. rewrite (IH H) at 1. constructor. }
  intros E. apply (Permutation.Permutation_cons_inv (a := r)). rewrite <-E. symmetry. apply Hin.
  rewrite E. left.
Qed.

Lemma owns_acquire {A} (c : VkCall A) w r l :
  owns w l → acquired c (reply c w) = Some r → released c = None → owns (called c w) (r :: l).
Proof.
  intros [Hh Hm] Ha Hr. unfold owns. rewrite called_ledger. unfold book. rewrite Ha, Hr.
  split; [simpl; by constructor|]. intros H. by apply called_strayed, Hm.
Qed.

Lemma owns_same {A} (c : VkCall A) w l :
  owns w l → acquired c (reply c w) = None → released c = None → owns (called c w) l.
Proof.
  intros [Hh Hm] Ha Hr. unfold owns. rewrite called_ledger. unfold book. rewrite Ha, Hr.
  split; [done|]. intros H. by apply called_strayed, Hm.
Qed.

(** Giving [r] back: what goes with it is gone too, and it is misuse exactly when
    something made from it stays. *)
Lemma release_exact {A} (c : VkCall A) w r l b :
  held (w_ledger w) ≡ₚ r :: l → misused (w_ledger w) = b →
  acquired c (reply c w) = None → released c = Some r →
  held (w_ledger (called c w)) ≡ₚ filter (λ x, goes_with r x = false) l ∧
  misused (w_ledger (called c w)) = b || existsb (keeps_alive r) l.
Proof.
  intros Hh Hm Ha Hr. rewrite called_ledger. unfold book. rewrite Ha, Hr.
  unfold give_back. simpl. pose proof (remove1_perm _ _ _ Hh) as Hp. split; [by rewrite Hp|].
  rewrite Hm, bool_decide_eq_false_2 by (intros H; apply H; rewrite Hh; left).
  rewrite orb_false_r. f_equal. apply eq_bool_prop_intro.
  rewrite !Is_true_true, !existsb_exists.
  split; intros (x & Hx & Hk); exists x; (split; [|done]); apply list_elem_of_In;
    apply list_elem_of_In in Hx; revert Hx; by rewrite Hp.
Qed.

Lemma owns_release {A} (c : VkCall A) w r l :
  owns w (r :: l) → acquired c (reply c w) = None → released c = Some r →
  (∀ x, x ∈ l → keeps_alive r x = false) →
  owns (called c w) (filter (λ x, goes_with r x = false) l).
Proof.
  intros [Hh Hm] Ha Hr Hl. destruct (release_exact c w r l _ Hh eq_refl Ha Hr) as [Hh' Hm'].
  split; [done|]. rewrite Hm'. intros [H|(x & Hx & Hk)%existsb_exists]%orb_true_iff; [by apply called_strayed, Hm|].
  rewrite (Hl x) in Hk; [done|]. by apply list_elem_of_In.
Qed.

Lemma remove1_none (r : resource) l : r ∉ l → remove1 r l = l.
Proof.
  induction l as [|x l IH]; intros H; [done|]. simpl. rewrite decide_False by (intros ->; apply H; left).
  by rewrite IH by (intros ?; apply H; by right).
Qed.

(** Giving back a stray handle takes nothing away. *)
Lemma owns_release_stray {A} (c : VkCall A) w r l :
  owns w l → handle_strayed w → acquired c (reply c w) = None → released c = Some r →
  (∀ x, x ∈ l → r_kind x ≠ r_kind r ∧ goes_with r x = false) → owns (called c w) l.
Proof.
  intros [Hh Hm] Hs Ha Hr Hl. unfold owns. split; [|intros _; by apply called_strayed].
  rewrite called_ledger. unfold book, give_back. rewrite Ha, Hr. simpl.
  assert (∀ x, x ∈ held (w_ledger w) → x ∈ l) as Hin by (intros x; by rewrite Hh).
  rewrite remove1_none by (intros [Hk _]%Hin%Hl; done).
  rewrite filter_true; [done|]. intros x [_ Hg]%Hin%Hl. done.
Qed.

(** A resource of a kind nothing is made from. *)
Definition leaf (r : resource) : bool :=
  match r_kind r with
  | KInstance | KDevice | KAllocator | KCommandPool | KDescriptorPool => false
  | _ => true
  end.

Lemma leaf_made_from r x : leaf r = true → made_from r x = false.
Proof. unfold leaf, made_from. by destruct r as [[] ? ?], x as [[] ? ?]. Qed.

Lemma owns_release_leaf {A} (c : VkCall A) w r l l' :
  owns w l → l ≡ₚ r :: l' → acquired c (reply c w) = None → released c = Some r → leaf r = true →
  owns (called c w) l'.
Proof.
  intros Ho E Ha Hr Hleaf. rewrite E in Ho.
  pose proof (owns_release c w r l' Ho Ha Hr) as H. rewrite filter_true in H.
  - apply H. intros x _. unfold keeps_alive. by rewrite leaf_made_from.
  - intros x _. unfold goes_with. by rewrite leaf_made_from.
Qed.

(** ** Computations that only ask *)

(** [w'] has the objects, the ledger and the thread of [w]. *)
Definition same_objects (w w' : World) : Prop :=
  w_ledger w' = w_ledger w ∧ w_planes w' = w_planes w ∧ w_images w' = w_images w ∧
  w_thread w' = w_thread w ∧ w_pipelines w' = w_pipelines w ∧ suffix (w_log w) (w_log w').

#[global] Instance same_objects_preorder : PreOrder same_objects.
Proof.
  split; [done|]. unfold same_objects. intros x y z (? & ? & ? & ? & ? & ?) (? & ? & ? & ? & ? & ?).
  split_and!; [congruence..|by etrans].
Qed.

Lemma suffix_Exists {A} (P : A → Prop) l l' : l `suffix_of` l' → Exists P l → Exists P l'.
Proof. intros [k ->] H. apply Exists_app. by right. Qed.

Lemma same_owns w w' l : same_objects w w' → owns w l → owns w' l.
Proof.
  intros (E & _ & _ & _ & _ & Hl) [Hh Hm]. unfold owns. rewrite E. split; [done|].
  intros H. by eapply suffix_Exists, Hm.
Qed.

(** Neither obtains nor gives back anything, and returns or throws. *)
Definition silent {A} (m : vkm A) : Prop := ∀ w,
  after m w (λ o w', same_objects w w' ∧ match o with Ret _ | Raise _ => True | _ => False end).

Lemma silent_ret {A} (a : A) : silent (mret a).
Proof. done. Qed.
Lemma silent_raise {A} what : silent (@raise A what).
Proof. done. Qed.
Lemma silent_check r op : silent (check_vk r op).
Proof. unfold check_vk. by case_decide. Qed.

Lemma silent_vk {A} (c : VkCall A) :
  (∀ a, acquired c a = None) → released c = None → silent (vk c).
Proof.
  intros Ha Hr w. unfold after. split; [|by unfold vk; destruct (vk_call c _)].
  pose proof (called_rest c w) as (? & ? & ? & ?). pose proof (called_ledger c w) as E.
  unfold book in E. rewrite Ha, Hr in E. change (vk c w).2 with (called c w).
  split_and!; try done. rewrite called_log. by apply suffix_cons_r.
Qed.

Lemma silent_bind {A B} (m : vkm A) (f : A → vkm B) :
  silent m → (∀ a, silent (f a)) → silent (m ≫= f).
Proof.
  intros Hm Hf w. apply after_bind. eapply after_mono; [apply Hm|].
  intros [a|what| |] w' [Hs Ho]; try done. eapply after_mono; [apply Hf|].
  intros o w'' [Hs' Ho']. split; [by trans w'|done].
Qed.

Lemma silent_if {A} (b : bool) (m m' : vkm A) : silent m → silent m' → silent (if b then m else m').
Proof. by destruct b. Qed.

Lemma after_silent {A B} (m : vkm A) (f : A → vkm B) w Q :
  silent m →
  (∀ a w', same_objects w w' → after (f a) w' Q) →
  (∀ what w', same_objects w w' → Q (Raise what) w') →
  after (m ≫= f) w Q.
Proof.
  intros Hm Hf Hr. apply after_bind. eapply after_mono; [apply Hm|].
  intros [a|what| |] w' [Hs Ho]; try done; auto.
Qed.

End Effects.

#[export] Hint Resolve silent_ret silent_raise silent_check : cpipe.

(** Split a [silent] goal along the computation. *)
Ltac silent_steps :=
  repeat first
    [ progress intros
    | solve [auto with cpipe]
    | apply silent_bind | apply silent_if
    | apply silent_vk; done
    | match goal with |- silent (match ?x with _ => _ end) => destruct x end ].

(** A driver's creation calls return a handle that is not null when they succeed; nothing
    is known of the handle a failed one leaves. *)
Definition handle_of {A} (c : VkCall A) : A → option (VkResult * VkHandle) :=
  match c in VkCall A return A → option (VkResult * VkHandle) with
  | vkCreateInstance _ _ | vkCreateDevice _ _ _ | vmaCreateAllocator _ _ _
  | vkCreateCommandPool _ _ | vkAllocateCommandBuffers _ _ | vkCreateFence _ _
  | vkCreateSemaphore _ _ | vkCreateImageView _ _ _ | vkCreateDescriptorPool _ _ _
  | vkAllocateDescriptorSets _ _ _ | vkCreateDescriptorSetLayout _ _ | vkCreatePipelineLayout _ _
  | vkCreateShaderModule _ _ | vkCreateComputePipelines _ _ _ => Some
  | _ => λ _, None
  end.

Class VkHandles (D : VkDriver) : Prop := {
  creation_handle : ∀ A (c : VkCall A) (s : vk_state) r,
    handle_of c (vk_call c s).1 = Some r → r.1 = VK_SUCCESS → r.2 ≠ VK_NULL_HANDLE;
  buffer_handle : ∀ a size usage s,
    (vk_call (vmaCreateBuffer a size usage) s).1.1 = VK_SUCCESS →
    (vk_call (vmaCreateBuffer a size usage) s).1.2.1.1 ≠ VK_NULL_HANDLE;
  image_handle : ∀ a f width height usage s,
    (vk_call (vmaCreateImage a f width height usage) s).1.1 = VK_SUCCESS →
    (vk_call (vmaCreateImage a f width height usage) s).1.2.1 ≠ VK_NULL_HANDLE
}.

#[global] Arguments World D : clear implicits.
