(* ===== verification/VulkanDevice.v ===== *)
(** * The Vulkan device, its submissions and its synchronisation objects

    runtime/VulkanDevicePlane.cpp (the choice of a device, its creation with the
    cleanup on every path, immediate submission, the pool of each thread),
    runtime/Sync.cpp (fences and timeline semaphores) and
    runtime/VulkanCommandBuffer.cpp, over the calls of [VulkanApi].  The theorems
    follow the ledger: creation holds exactly what the plane owns, or nothing, on every
    path through it; an immediate submission gives back what it took when it returns,
    and [submit_leak] says what it keeps when it throws.  The queue and pool mutexes
    order calls of different threads; each function here is one thread's. *)

From Stdlib Require Import ZArith Lia Ascii String.
From stdpp Require Import prelude strings list gmap.
From S2P Require Import Prelude Core StateRes VulkanApi.

Open Scope Z_scope.

(** ** VulkanDevicePlane.cpp: choosing a device *)

Definition kValidationLayer : string := "VK_LAYER_KHRONOS_validation".

Definition vk_result_name (result : VkResult) : string :=
  match result with
  | VK_SUCCESS => "VK_SUCCESS"
  | VK_NOT_READY => "VK_NOT_READY"
  | VK_TIMEOUT => "VK_TIMEOUT"
  | VK_ERROR_OUT_OF_HOST_MEMORY => "VK_ERROR_OUT_OF_HOST_MEMORY"
  | VK_ERROR_OUT_OF_DEVICE_MEMORY => "VK_ERROR_OUT_OF_DEVICE_MEMORY"
  | VK_ERROR_INITIALIZATION_FAILED => "VK_ERROR_INITIALIZATION_FAILED"
  | VK_ERROR_LAYER_NOT_PRESENT => "VK_ERROR_LAYER_NOT_PRESENT"
  | VK_ERROR_EXTENSION_NOT_PRESENT => "VK_ERROR_EXTENSION_NOT_PRESENT"
  | VK_ERROR_INCOMPATIBLE_DRIVER => "VK_ERROR_INCOMPATIBLE_DRIVER"
  | VK_ERROR_FEATURE_NOT_PRESENT => "VK_ERROR_FEATURE_NOT_PRESENT"
  | VK_OTHER _ => "VK_ERROR_UNKNOWN"
  end.

(** [std::from_chars(first, last, int&)]: an optional minus sign and digits, in range;
    the value and the rest of the text. *)
Definition from_chars_int (s : string) : option (Z * string) :=
  let '(neg, digits) := match s with String "-" s' => (true, s') | _ => (false, s) end in
  match read_digits digits with
  | Some (v, rest) =>
      let v := if neg : bool then - v else v in
      if (- 2 ^ 31 <=? v) && (v <? 2 ^ 31) then Some (v, rest) else None
  | None => None
  end.

(** [env] is the variable CPIPE_VULKAN_DEVICE_INDEX. *)
Definition requested_device_index (env : option string) : Z :=
  match env with
  | None | Some EmptyString => -2
  | Some s => match from_chars_int s with
              | Some (value, EmptyString) => value
              | _ => -2
              end
  end.

Record VulkanDevicePlaneCreateResult : Type := mkCreated {
  cr_status : StatusCode;
  cr_plane : option nat;
  cr_message : string
}.

Definition unsupported (message : string) : VulkanDevicePlaneCreateResult :=
  mkCreated StUnsupported None message.

Section Device.
Context {D : VkDriver}.

(** [check_vk] of VulkanDevicePlane.cpp, with the name of the result. *)
Definition check_vk_named (result : VkResult) (operation : string) : vkm unit :=
  if decide (result = VK_SUCCESS) then mret tt
  else raise (operation +:+ " failed: " +:+ vk_result_name result).

Definition has_validation_layer : vkm bool :=
  r ← vk vkCountInstanceLayers;
  if bool_decide (r.1 ≠ VK_SUCCESS) || (r.2 =? 0) then mret false else
  layers ← vk (vkEnumerateInstanceLayerProperties r.2);
  _ ← check_vk_named layers.1 "vkEnumerateInstanceLayerProperties";
  mret (existsb (String.eqb kValidationLayer) layers.2).

Definition device_local_budget (physical_device : VkHandle) : vkm Z :=
  heaps ← vk (vkGetPhysicalDeviceMemoryProperties physical_device);
  mret (foldl (λ total heap,
    if negb (Z.land heap.1 VK_MEMORY_HEAP_DEVICE_LOCAL_BIT =? 0) then u64 (total + heap.2) else total)
    0 heaps).

Definition graphics_and_compute (flags : Z) : bool :=
  negb (Z.land flags VK_QUEUE_GRAPHICS_BIT =? 0) && negb (Z.land flags VK_QUEUE_COMPUTE_BIT =? 0).

Definition find_graphics_compute_queue (physical_device : VkHandle) : vkm Z :=
  families ← vk (vkGetPhysicalDeviceQueueFamilyProperties physical_device);
  mret (match list_find (λ flags, graphics_and_compute flags = true) families with
        | Some (i, _) => Z.of_nat i
        | None => VK_QUEUE_FAMILY_IGNORED
        end).

Definition is_eligible_device (physical_device : VkHandle) : vkm bool :=
  api_version ← vk (vkGetPhysicalDeviceProperties physical_device);
  if api_version <? VK_API_VERSION_1_3 then mret false else
  timeline ← vk (vkGetPhysicalDeviceFeatures2 physical_device);
  if negb timeline then mret false else
  family ← find_graphics_compute_queue physical_device;
  mret (negb (family =? VK_QUEUE_FAMILY_IGNORED)).

(** The first eligible candidate, or null. *)
Fixpoint first_eligible (candidates : list VkHandle) : vkm VkHandle :=
  match candidates with
  | [] => mret VK_NULL_HANDLE
  | c :: cs => ok ← is_eligible_device c; if ok : bool then mret c else first_eligible cs
  end.

(** [Some device], or [None] when the requested one is refused. *)
Definition select_device (requested_index : Z) (physical_devices : list VkHandle)
    : vkm (option VkHandle) :=
  if 0 <=? requested_index then
    match physical_devices !! Z.to_nat requested_index with
    | None => mret None
    | Some d => ok ← is_eligible_device d; mret (if ok : bool then Some d else None)
    end
  else d ← first_eligible physical_devices; mret (Some d).

(** ** VulkanDevicePlane.cpp: creation *)

(** The locals the handler of [create] reads: instance, device, allocator. *)
Record Locals : Type := mkLocals { l_instance : VkHandle; l_device : VkHandle; l_allocator : VkHandle }.

Definition when_held (h : VkHandle) (c : VkCall unit) : vkm unit :=
  if h =? VK_NULL_HANDLE then mret tt else vk c.

(** The handler: release in reverse order, and report. *)
Definition create_failed (l : Locals) (what : string) : vkm VulkanDevicePlaneCreateResult :=
  _ ← when_held (l_allocator l) (vmaDestroyAllocator (l_device l) (l_allocator l));
  _ ← when_held (l_device l) (vkDestroyDevice (l_instance l) (l_device l));
  _ ← when_held (l_instance l) (vkDestroyInstance (l_instance l));
  mret (mkCreated StFailed None what).

(** A statement [m] of the [try] block, with the locals as they are when it runs, and
    the statements after it. *)
Definition trying {A} (l : Locals) (m : vkm A) (rest : A → vkm VulkanDevicePlaneCreateResult)
    : vkm VulkanDevicePlaneCreateResult := λ w,
  match m w with
  | (Ret a, w') => rest a w'
  | (Raise what, w') => create_failed l what w'
  | (Aborted, w') => (Aborted, w')
  | (Undefined, w') => (Undefined, w')
  end.

(** [std::make_shared]-like: the new plane's position. *)
Definition new_plane (p : VulkanDevicePlane) : vkm nat := λ w,
  (Ret (length (w_planes w)), with_planes w (w_planes w ++ [Some p])).

(** From the selected device on: the device, its queue and the allocator. *)
Definition create_on (instance selected : VkHandle) (validation_requested validation_enabled : bool)
    : vkm VulkanDevicePlaneCreateResult :=
  let l := mkLocals instance VK_NULL_HANDLE VK_NULL_HANDLE in
  trying l (vk (vkGetPhysicalDeviceProperties selected)) (λ api_version,
  trying l (find_graphics_compute_queue selected) (λ family,
  trying l (vk (vkCreateDevice instance selected family)) (λ device,
  let l := mkLocals instance device.2 VK_NULL_HANDLE in
  trying l (check_vk_named device.1 "vkCreateDevice") (λ _,
  trying l (vk (vkGetDeviceQueue device.2 family 0)) (λ queue,
  trying l (vk (vmaCreateAllocator instance selected device.2)) (λ allocator,
  let l := mkLocals instance device.2 allocator.2 in
  trying l (check_vk_named allocator.1 "vmaCreateAllocator") (λ _,
  trying l (device_local_budget selected) (λ memory_budget,
  trying l (new_plane (mkPlane instance selected device.2 allocator.2 queue family api_version
    memory_budget validation_requested validation_enabled ∅)) (λ p,
  mret (mkCreated StOk (Some p) "")))))))))).

(** From the created instance on: the choice of a device. *)
Definition create_with (instance : VkHandle) (requested_index : Z)
    (validation_requested validation_enabled : bool) : vkm VulkanDevicePlaneCreateResult :=
  let l := mkLocals instance VK_NULL_HANDLE VK_NULL_HANDLE in
  trying l (vk (vkCountPhysicalDevices instance)) (λ count,
  trying l (check_vk_named count.1 "vkEnumeratePhysicalDevices") (λ _,
  if count.2 =? 0 then
    _ ← vk (vkDestroyInstance instance); mret (unsupported "no Vulkan physical devices found")
  else
  trying l (vk (vkEnumeratePhysicalDevices instance count.2)) (λ devices,
  trying l (check_vk_named devices.1 "vkEnumeratePhysicalDevices") (λ _,
  let physical_devices :=
    take (Z.to_nat count.2) (devices.2 ++ replicate (Z.to_nat count.2) VK_NULL_HANDLE) in
  trying l (select_device requested_index physical_devices) (λ selected,
  match selected with
  | None =>
      _ ← vk (vkDestroyInstance instance);
      mret (unsupported "requested Vulkan device is unavailable or ineligible")
  | Some selected =>
      if selected =? VK_NULL_HANDLE then
        _ ← vk (vkDestroyInstance instance);
        mret (unsupported "no Vulkan 1.3 graphics+compute device with timeline semaphore found")
      else create_on instance selected validation_requested validation_enabled
  end))))).

(** [icd] is VK_ICD_FILENAMES, [index] CPIPE_VULKAN_DEVICE_INDEX and
    [validation_requested] the build type. *)
Definition create (icd index : option string) (validation_requested : bool)
    : vkm VulkanDevicePlaneCreateResult :=
  if bool_decide (icd = Some "") then mret (unsupported "VK_ICD_FILENAMES is empty") else
  if requested_device_index index =? -1
  then mret (unsupported "CPIPE_VULKAN_DEVICE_INDEX disables Vulkan") else
  let l := mkLocals VK_NULL_HANDLE VK_NULL_HANDLE VK_NULL_HANDLE in
  trying l (vk vkEnumerateInstanceVersion) (λ loader,
  trying l (check_vk_named loader.1 "vkEnumerateInstanceVersion") (λ _,
  if loader.2 <? VK_API_VERSION_1_3
  then mret (unsupported "Vulkan loader does not support API 1.3") else
  trying l (if validation_requested then has_validation_layer else mret false)
    (λ validation_enabled,
  trying l (vk (vkCreateInstance VK_API_VERSION_1_3
    (if validation_enabled : bool then [kValidationLayer] else []))) (λ instance,
  let l := mkLocals instance.2 VK_NULL_HANDLE VK_NULL_HANDLE in
  if decide (instance.1 = VK_ERROR_INCOMPATIBLE_DRIVER)
  then mret (unsupported ("vkCreateInstance failed: " +:+ vk_result_name instance.1)) else
  trying l (check_vk_named instance.1 "vkCreateInstance") (λ _,
  create_with instance.2 (requested_device_index index) validation_requested validation_enabled))))).

Definition drop_plane (p : nat) : vkm unit := λ w,
  (Ret tt, with_planes w (<[p := None]> (w_planes w))).

(** The destructor. *)
Definition destroy_plane (p : nat) : vkm unit :=
  pl ← plane_at p;
  _ ← (if device_ pl =? VK_NULL_HANDLE then mret tt
       else _ ← vk (vkDeviceWaitIdle (device_ pl)); mret tt);
  _ ← foldr (λ (entry : nat * VkHandle) (m : vkm unit),
        _ ← vk (vkDestroyCommandPool (device_ pl) entry.2); m)
        (mret tt) (map_to_list (command_pools_ pl));
  _ ← when_held (allocator_ pl) (vmaDestroyAllocator (device_ pl) (allocator_ pl));
  _ ← when_held (device_ pl) (vkDestroyDevice (instance_ pl) (device_ pl));
  _ ← when_held (instance_ pl) (vkDestroyInstance (instance_ pl));
  drop_plane p.

(** ** VulkanDevicePlane.cpp: submission *)

Definition with_pool (pl : VulkanDevicePlane) (thread : nat) (pool : VkHandle) : VulkanDevicePlane :=
  mkPlane (instance_ pl) (physical_device_ pl) (device_ pl) (allocator_ pl) (queue_ pl)
    (queue_family_index_ pl) (api_version_ pl) (memory_budget_bytes_ pl)
    (validation_requested_ pl) (validation_enabled_ pl) (<[thread := pool]> (command_pools_ pl)).

Definition this_thread : vkm nat := λ w, (Ret (w_thread w), w).

Definition command_pool_for_current_thread (p : nat) : vkm VkHandle :=
  thread_id ← this_thread;
  pl ← plane_at p;
  match command_pools_ pl !! thread_id with
  | Some pool => mret pool
  | None =>
      r ← vk (vkCreateCommandPool (device_ pl) (queue_family_index_ pl));
      _ ← check_vk_named r.1 "vkCreateCommandPool";
      _ ← set_plane p (with_pool pl thread_id r.2);
      mret r.2
  end.

(** [submit_immediate] with the pool of the thread; [record] issues the commands of the
    closure. *)
Definition submit_on (pl : VulkanDevicePlane) (pool : VkHandle) (record : VkHandle → vkm unit)
    : vkm unit :=
  command_buffer ← vk (vkAllocateCommandBuffers (device_ pl) pool);
  _ ← check_vk_named command_buffer.1 "vkAllocateCommandBuffers";
  begun ← vk (vkBeginCommandBuffer command_buffer.2);
  _ ← check_vk_named begun "vkBeginCommandBuffer";
  _ ← record command_buffer.2;
  ended ← vk (vkEndCommandBuffer command_buffer.2);
  _ ← check_vk_named ended "vkEndCommandBuffer";
  fence ← vk (vkCreateFence (device_ pl) false);
  _ ← check_vk_named fence.1 "vkCreateFence";
  submitted ← vk (vkQueueSubmit (queue_ pl) command_buffer.2 None fence.2);
  _ ← check_vk_named submitted "vkQueueSubmit";
  waited ← vk (vkWaitForFences (device_ pl) fence.2 size_max);
  _ ← check_vk_named waited "vkWaitForFences";
  _ ← vk (vkDestroyFence (device_ pl) fence.2);
  vk (vkFreeCommandBuffers (device_ pl) pool command_buffer.2).

Definition submit_immediate (p : nat) (record : VkHandle → vkm unit) : vkm unit :=
  pool ← command_pool_for_current_thread p;
  pl ← plane_at p;
  submit_on pl pool record.

(** ** Sync.cpp: fences and timeline semaphores *)

(** [timeout.count()] nanoseconds, as the driver takes them. *)
Definition timeout_ns (count : Z) : Z :=
  if count <? 0 then 0 else if size_max <? count then size_max else count.

(** [VulkanFence] and [VulkanTimelineSemaphore] hold a plane and a handle, and differ in
    the calls they make. *)
Record SyncObject : Type := mkSync { s_plane : option nat; s_handle : VkHandle }.

Definition moved_out : SyncObject := mkSync None VK_NULL_HANDLE.

(** Dereferencing the pointer to the plane. *)
Definition device_of (p : option nat) : vkm VkHandle :=
  match p with
  | Some p => pl ← plane_at p; mret (device_ pl)
  | None => λ w, (Undefined, w)
  end.

(** The constructors. *)
Definition make_fence (p : nat) (signaled : bool) : vkm SyncObject :=
  device ← device_of (Some p);
  fence ← create_checked (vkCreateFence device signaled) "vkCreateFence";
  mret (mkSync (Some p) fence).

Definition make_timeline (p : nat) (initial_value : Z) : vkm SyncObject :=
  device ← device_of (Some p);
  semaphore ← create_checked (vkCreateSemaphore device initial_value) "vkCreateSemaphore";
  mret (mkSync (Some p) semaphore).

(** [destroy()], which leaves the object moved out. *)
Definition sync_destroy (call : VkHandle → VkHandle → VkCall unit) (s : SyncObject) : vkm SyncObject :=
  _ ← match s_plane s with
      | Some p =>
          if s_handle s =? VK_NULL_HANDLE then mret tt
          else device ← device_of (Some p); vk (call device (s_handle s))
      | None => mret tt
      end;
  mret moved_out.

(** The move constructor: the new object, and what is left of the old one. *)
Definition sync_move (other : SyncObject) : SyncObject * SyncObject := (other, moved_out).

(** Move assignment; [same] is [this == &other]. *)
Definition sync_assign (call : VkHandle → VkHandle → VkCall unit) (same : bool)
    (this other : SyncObject) : vkm (SyncObject * SyncObject) :=
  if same then mret (this, other) else
  _ ← sync_destroy call this; mret (sync_move other).

Definition wait_host (f : SyncObject) (timeout : Z) : vkm bool :=
  device ← device_of (s_plane f);
  r ← vk (vkWaitForFences device (s_handle f) (timeout_ns timeout));
  mret (bool_decide (r = VK_SUCCESS)).

Definition is_signaled (f : SyncObject) : vkm bool :=
  device ← device_of (s_plane f);
  r ← vk (vkGetFenceStatus device (s_handle f));
  mret (bool_decide (r = VK_SUCCESS)).

Definition fence_reset (f : SyncObject) : vkm unit :=
  device ← device_of (s_plane f);
  r ← vk (vkResetFences device (s_handle f));
  check_vk r "vkResetFences".

Definition current_value (t : SyncObject) : vkm Z :=
  device ← device_of (s_plane t);
  create_checked (vkGetSemaphoreCounterValue device (s_handle t)) "vkGetSemaphoreCounterValue".

Definition wait_value (t : SyncObject) (value timeout : Z) : vkm bool :=
  device ← device_of (s_plane t);
  r ← vk (vkWaitSemaphores device (s_handle t) value (timeout_ns timeout));
  mret (bool_decide (r = VK_SUCCESS)).

Definition signal_value_host (t : SyncObject) (value : Z) : vkm unit :=
  device ← device_of (s_plane t);
  r ← vk (vkSignalSemaphore device (s_handle t) value);
  check_vk r "vkSignalSemaphore".

(** [VulkanDevicePlane::wait_timeline]. *)
Definition wait_timeline (timeline : SyncObject) (value timeout : Z) : vkm bool :=
  wait_value timeline value timeout.

(** ** VulkanCommandBuffer.cpp *)

Record VulkanCommandBuffer : Type := mkCommandBuffer {
  cb_plane : option nat;
  pool_ : VkHandle;
  command_buffer_ : VkHandle
}.

Definition make_command_buffer (plane : option nat) : vkm VulkanCommandBuffer :=
  match plane with
  | None => raise "VulkanCommandBuffer requires a VulkanDevicePlane"
  | Some p =>
      pool ← command_pool_for_current_thread p;
      pl ← plane_at p;
      cb ← create_checked (vkAllocateCommandBuffers (device_ pl) pool) "vkAllocateCommandBuffers";
      mret (mkCommandBuffer (Some p) pool cb)
  end.

Definition command_buffer_begin (cb : VulkanCommandBuffer) : vkm unit :=
  r ← vk (vkBeginCommandBuffer (command_buffer_ cb)); check_vk r "vkBeginCommandBuffer".
Definition command_buffer_end (cb : VulkanCommandBuffer) : vkm unit :=
  r ← vk (vkEndCommandBuffer (command_buffer_ cb)); check_vk r "vkEndCommandBuffer".
Definition bind_compute_pipeline (cb : VulkanCommandBuffer) (pipeline : VkHandle) : vkm unit :=
  vk (vkCmd (command_buffer_ cb) (vkCmdBindPipeline pipeline)).
Definition bind_descriptor_set (cb : VulkanCommandBuffer) (layout set : VkHandle) : vkm unit :=
  vk (vkCmd (command_buffer_ cb) (vkCmdBindDescriptorSets layout set)).
Definition dispatch (cb : VulkanCommandBuffer) (groups_x groups_y groups_z : Z) : vkm unit :=
  vk (vkCmd (command_buffer_ cb) (vkCmdDispatch groups_x groups_y groups_z)).

Definition submit (cb : VulkanCommandBuffer) (signal_timeline : SyncObject) (signal_value : Z)
    : vkm unit :=
  pl ← match cb_plane cb with Some p => plane_at p | None => λ w, (Undefined, w) end;
  r ← vk (vkQueueSubmit (queue_ pl) (command_buffer_ cb)
            (Some (s_handle signal_timeline, signal_value)) VK_NULL_HANDLE);
  check_vk r "vkQueueSubmit".

Definition command_buffer_destroy (cb : VulkanCommandBuffer) : vkm VulkanCommandBuffer :=
  _ ← match cb_plane cb with
      | Some p =>
          if (pool_ cb =? VK_NULL_HANDLE) || (command_buffer_ cb =? VK_NULL_HANDLE) then mret tt
          else device ← device_of (Some p);
               vk (vkFreeCommandBuffers device (pool_ cb) (command_buffer_ cb))
      | None => mret tt
      end;
  mret (mkCommandBuffer None VK_NULL_HANDLE VK_NULL_HANDLE).

(** Move assignment, which takes the fields of [other]. *)
Definition command_buffer_assign (same : bool) (this other : VulkanCommandBuffer)
    : vkm (VulkanCommandBuffer * VulkanCommandBuffer) :=
  if same then mret (this, other) else
  _ ← command_buffer_destroy this;
  mret (other, mkCommandBuffer None VK_NULL_HANDLE VK_NULL_HANDLE).

End Device.

(** ** Creation: what is held on every path *)

Section Creation.
Context {D : VkDriver}.

Lemma silent_check_named (r : VkResult) op : silent (check_vk_named r op).
Proof. unfold check_vk_named. by case_decide. Qed.
#[local] Hint Resolve silent_check_named : cpipe.

Lemma silent_validation : silent has_validation_layer.
Proof. unfold has_validation_layer. silent_steps. Qed.
Lemma silent_queue d : silent (find_graphics_compute_queue d).
Proof. unfold find_graphics_compute_queue. silent_steps. Qed.
#[local] Hint Resolve silent_queue : cpipe.
Lemma silent_eligible d : silent (is_eligible_device d).
Proof. unfold is_eligible_device. silent_steps. Qed.
#[local] Hint Resolve silent_eligible : cpipe.
Lemma silent_first l : silent (first_eligible l).
Proof. induction l as [|d l IH]; simpl; silent_steps. Qed.
#[local] Hint Resolve silent_first : cpipe.
Lemma silent_select i l : silent (select_device i l).
Proof. unfold select_device. silent_steps. Qed.
Lemma silent_budget d : silent (device_local_budget d).
Proof. unfold device_local_budget. silent_steps. Qed.
#[local] Hint Resolve silent_select silent_budget silent_validation : cpipe.

Lemma after_trying {A} l (m : vkm A) rest w Q :
  after m w (λ o w', match o with
    | Ret a => after (rest a) w' Q
    | Raise what => after (create_failed l what) w' Q
    | Aborted => Q Aborted w'
    | Undefined => Q Undefined w'
    end) → after (trying l m rest) w Q.
Proof. unfold after, trying. by destruct (m w) as [[] w']. Qed.

Lemma after_trying_silent {A} l (m : vkm A) rest w Q :
  silent m →
  (∀ a w', same_objects w w' → after (rest a) w' Q) →
  (∀ what w', same_objects w w' → after (create_failed l what) w' Q) →
  after (trying l m rest) w Q.
Proof.
  intros Hm Ha Hr. apply after_trying. eapply after_mono; [apply Hm|].
  intros [a|what| |] w' [Hs Ho]; try done; auto.
Qed.

Lemma after_trying_check l (r : VkResult) op rest w Q :
  (r = VK_SUCCESS → after (rest tt) w Q) →
  (r ≠ VK_SUCCESS → ∀ what, after (create_failed l what) w Q) →
  after (trying l (check_vk_named r op) rest) w Q.
Proof. intros Hs Hf. apply after_trying. unfold check_vk_named. case_decide; [by apply Hs|by apply Hf]. Qed.

Lemma after_trying_vk {A} l (c : VkCall A) rest w Q :
  after (rest (reply c w)) (called c w) Q → after (trying l (vk c) rest) w Q.
Proof.
  intros H. apply after_trying. unfold after at 1. unfold called, reply, vk in *.
  by destruct (vk_call c _).
Qed.

(** What the locals of [create] stand for. *)
Definition when_nonnull (h : VkHandle) (r : resource) : list resource :=
  if h =? VK_NULL_HANDLE then [] else [r].
Definition held_locals (l : Locals) : list resource :=
  when_nonnull (l_allocator l) (Res KAllocator (l_device l) (l_allocator l)) ++
  when_nonnull (l_device l) (Res KDevice (l_instance l) (l_device l)) ++
  when_nonnull (l_instance l) (Res KInstance 0 (l_instance l)).

(** What a plane without command pools holds. *)
Definition plane_base (pl : VulkanDevicePlane) : list resource :=
  held_locals (mkLocals (instance_ pl) (device_ pl) (allocator_ pl)).

(** The three destructions, from what the locals hold to nothing. *)
Definition untouched (w w' : World D) : Prop :=
  w_planes w' = w_planes w ∧ w_images w' = w_images w ∧ w_thread w' = w_thread w ∧
  w_pipelines w' = w_pipelines w.

#[global] Instance untouched_preorder : PreOrder untouched.
Proof. split; [done|]. unfold untouched. intros x y z; naive_solver congruence. Qed.

Lemma same_untouched w w' : same_objects w w' → untouched w w'.
Proof. unfold same_objects, untouched. naive_solver. Qed.

(** A local of [create] and what is held for it: its object, or nothing while it is
    null or holds what a failed creation left. *)
Definition local_held (w : World D) (h : VkHandle) (r : resource) (hs : list resource) : Prop :=
  hs = when_nonnull h r ∨ hs = [] ∧ handle_strayed w.

Definition strays_on (w w' : World D) : Prop := handle_strayed w → handle_strayed w'.

Lemma local_held_on w w' h r hs : strays_on w w' → local_held w h r hs → local_held w' h r hs.
Proof. unfold local_held, strays_on. naive_solver. Qed.

Lemma release_held (h : VkHandle) (c : VkCall unit) r hs l w :
  owns w (hs ++ l) → local_held w h r hs → released c = Some r → acquired c tt = None →
  (∀ x, x ∈ l → made_from r x = false ∧ r_kind x ≠ r_kind r) →
  after (when_held h c) w (λ o w', o = Ret tt ∧ owns w' l ∧ untouched w w' ∧ strays_on w w').
Proof.
  unfold when_held. intros Ho Hh Hr Ha Hx. destruct (h =? VK_NULL_HANDLE) eqn:E.
  { assert (hs = []) as -> by (unfold local_held, when_nonnull in Hh; rewrite E in Hh; naive_solver).
    apply after_ret. split_and!; [done|done|done|by intros ?]. }
  assert (after (vk c) w (λ o w', o = Ret tt ∧ w' = called c w)) as H.
  { unfold after, called, vk. by destruct (vk_call c _) as [[] ?]. }
  assert (∀ x, x ∈ l → goes_with r x = false) as Hg by (intros x Hin; unfold goes_with; by rewrite (proj1 (Hx x Hin))).
  eapply after_mono; [exact H|]. intros o w' [-> ->]. split_and!; [done| |apply called_rest|by intros ?; apply called_strayed].
  destruct Hh as [->|[-> Hs]].
  - unfold when_nonnull in Ho. rewrite E in Ho. rewrite <-(filter_true (λ x, goes_with r x = false) l) by done.
    apply owns_release; [done|by destruct (reply c w)|done|].
    intros x Hin. unfold keeps_alive. by rewrite (proj1 (Hx x Hin)).
  - apply (owns_release_stray c w r); [done..|by destruct (reply c w)|done|].
    intros x Hin. split; [by apply Hx|by apply Hg].
Qed.

Lemma in_when_nonnull h r x : x ∈ when_nonnull h r → x = r.
Proof. unfold when_nonnull. destruct (_ =? _); set_solver. Qed.

(** What is held for the locals of [create]. *)
Definition locals_held (w : World D) (l : Locals) : Prop := ∃ ha hd hi, owns w (ha ++ hd ++ hi) ∧
  local_held w (l_allocator l) (Res KAllocator (l_device l) (l_allocator l)) ha ∧
  local_held w (l_device l) (Res KDevice (l_instance l) (l_device l)) hd ∧
  local_held w (l_instance l) (Res KInstance 0 (l_instance l)) hi.

Lemma owns_locals_held w l : owns w (held_locals l) → locals_held w l.
Proof. intros Ho. eexists _, _, _. split; [exact Ho|]. by split_and!; left. Qed.

Lemma in_local_held w h r hs x : local_held w h r hs → x ∈ hs → x = r.
Proof. intros [->|[-> _]]; [apply in_when_nonnull|by intros ?%elem_of_nil]. Qed.

(** Releasing all of them, with a continuation. *)
Lemma release_all {B} (l : Locals) (k : vkm B) w (Q : outcome B → World D → Prop) :
  locals_held w l →
  (∀ w', owns w' [] → untouched w w' → after k w' Q) →
  after (_ ← when_held (l_allocator l) (vmaDestroyAllocator (l_device l) (l_allocator l));
         _ ← when_held (l_device l) (vkDestroyDevice (l_instance l) (l_device l));
         _ ← when_held (l_instance l) (vkDestroyInstance (l_instance l)); k) w Q.
Proof.
  intros (ha & hd & hi & Ho & Ha & Hd & Hi) Hk.
  apply after_bind. eapply after_mono; [eapply release_held; [exact Ho|exact Ha|done|done|]|].
  { intros x [->%(in_local_held _ _ _ _ _ Hd)| ->%(in_local_held _ _ _ _ _ Hi)]%elem_of_app; done. }
  intros o w1 (-> & Ho1 & Hu1 & Hs1). apply (local_held_on _ _ _ _ _ Hs1) in Hd, Hi. apply after_bind.
  eapply after_mono; [eapply release_held; [exact Ho1|exact Hd|done|done|]|].
  { intros x ->%(in_local_held _ _ _ _ _ Hi). done. }
  intros o w2 (-> & Ho2 & Hu2 & Hs2). apply (local_held_on _ _ _ _ _ Hs2) in Hi.
  rewrite <-(app_nil_r hi) in Ho2. apply after_bind.
  eapply after_mono; [eapply release_held; [exact Ho2|exact Hi|done|done|]|].
  { intros x Hx. by apply elem_of_nil in Hx. }
  intros o w3 (-> & Ho3 & Hu3 & _). apply Hk; [done|]. trans w1; [done|]. by trans w2.
Qed.

Lemma create_failed_releases l what w :
  locals_held w l →
  after (create_failed l what) w (λ o w',
    o = Ret (mkCreated StFailed None what) ∧ owns w' [] ∧ untouched w w').
Proof. intros Ho. unfold create_failed. by apply release_all. Qed.

(** How [create] ends: with a plane that holds what is held, or with nothing held. *)
Definition created (w : World D) (o : outcome VulkanDevicePlaneCreateResult) (w' : World D) : Prop :=
  ∃ r, o = Ret r ∧ w_images w' = w_images w ∧ w_thread w' = w_thread w ∧ w_pipelines w' = w_pipelines w ∧
  match cr_status r, cr_plane r with
  | StOk, Some p => p = length (w_planes w) ∧ ∃ pl, w_planes w' = w_planes w ++ [Some pl] ∧
      owns w' (plane_base pl) ∧ command_pools_ pl = ∅ ∧
      instance_ pl ≠ VK_NULL_HANDLE ∧ device_ pl ≠ VK_NULL_HANDLE ∧ allocator_ pl ≠ VK_NULL_HANDLE
  | StFailed, None | StUnsupported, None => owns w' [] ∧ w_planes w' = w_planes w
  | _, _ => False
  end.

Lemma created_from w w1 o w' : untouched w w1 → created w1 o w' → created w o w'.
Proof.
  intros (Hp & Hi & Ht & Hl) (r & -> & E1 & E2 & E3 & H). exists r. rewrite <-Hp, <-Hi, <-Ht, <-Hl. done.
Qed.

Lemma created_failed l what w w0 :
  locals_held w l → untouched w0 w → after (create_failed l what) w (created w0).
Proof.
  intros Ho Hu. eapply after_mono; [by apply create_failed_releases|].
  intros o w' (-> & Ho' & Hu'). apply (created_from _ w); [done|]. destruct Hu' as (? & ? & ? & ?).
  by eexists.
Qed.

Lemma created_unsupported message w w0 :
  owns w [] → untouched w0 w → created w0 (Ret (unsupported message)) w.
Proof. intros Ho (? & ? & ? & ?). by eexists. Qed.

(** Steps of the [try] block that ask, check and call. *)
Lemma try_silent {A} l (m : vkm A) rest w w0 :
  silent m → owns w (held_locals l) → untouched w0 w →
  (∀ a w', owns w' (held_locals l) → untouched w0 w' → after (rest a) w' (created w0)) →
  after (trying l m rest) w (created w0).
Proof.
  intros Hm Ho Hu Hrest. apply after_trying_silent; [done|intros a w' Hs|intros what w' Hs].
  - apply Hrest; [by eapply same_owns|]. trans w; [done|by apply same_untouched].
  - apply created_failed; [by eapply owns_locals_held, same_owns|]. trans w; [done|by apply same_untouched].
Qed.

Lemma try_check l (r : VkResult) op rest w w0 :
  owns w (held_locals l) → untouched w0 w →
  (r = VK_SUCCESS → after (rest tt) w (created w0)) →
  after (trying l (check_vk_named r op) rest) w (created w0).
Proof. intros Ho Hu Hr. apply after_trying_check; [done|]. intros _ what. by apply created_failed, Hu; apply owns_locals_held. Qed.

Context `{!VkHandles D}.

(** The objects held after a creation that succeeded, and after one that did not. *)
Lemma owns_creation (c : VkCall (VkResult * VkHandle)) k parent w l :
  owns w l → handle_of c = Some → acquired c = made k parent → released c = None → (reply c w).1 = VK_SUCCESS →
  owns (called c w) (when_nonnull (reply c w).2 (Res k parent (reply c w).2) ++ l) ∧ (reply c w).2 ≠ VK_NULL_HANDLE.
Proof.
  intros Ho Hc Ha Hr Hs. pose proof (creation_handle _ c (w_driver w) (reply c w)) as Hh.
  rewrite Hc in Hh. specialize (Hh eq_refl Hs). split; [|done]. unfold when_nonnull.
  rewrite (proj2 (Z.eqb_neq _ _)) by done. apply owns_acquire; [done| |done]. rewrite Ha. unfold made. by rewrite decide_True.
Qed.

Lemma owns_refused (c : VkCall (VkResult * VkHandle)) k parent w l :
  owns w l → acquired c = made k parent → released c = None → (reply c w).1 ≠ VK_SUCCESS →
  owns (called c w) l ∧ ∀ r, local_held (called c w) (reply c w).2 r [].
Proof.
  intros Ho Ha Hr Hf. split; [apply owns_same; [done| |done]; rewrite Ha; unfold made; by rewrite decide_False|].
  intros r. destruct (creation_strayed c w Hf) as [E|E]; [left|by right]. unfold when_nonnull. by rewrite E.
Qed.

Lemma create_on_created instance selected vr ve w w0 :
  instance ≠ VK_NULL_HANDLE → owns w (held_locals (mkLocals instance 0 0)) → untouched w0 w →
  after (create_on instance selected vr ve) w (created w0).
Proof.
  intros Hi Ho Hu. unfold create_on.
  apply try_silent; [by apply silent_vk|done|done|]. clear w Ho Hu. intros api w Ho Hu.
  apply try_silent; [auto with cpipe|done|done|]. clear w Ho Hu. intros family w Ho Hu.
  apply after_trying_vk. set (c := vkCreateDevice instance selected family).
  assert (untouched w0 (called c w)) as Hu1 by (trans w; [done|apply called_rest]).
  apply after_trying_check; intros Hs.
  2:{ intros what. apply created_failed; [|done].
      destruct (owns_refused c KDevice instance w _ Ho eq_refl eq_refl Hs) as [Ho1 Hl].
      eexists [], [], _. split; [exact Ho1|]. split_and!; [by left|apply Hl|by left]. }
  destruct (owns_creation c KDevice instance w _ Ho eq_refl eq_refl eq_refl Hs) as [Ho1 Hd0].
  change (owns (called c w) (held_locals (mkLocals instance (reply c w).2 0))) in Ho1.
  generalize dependent (called c w). generalize dependent (reply c w). clear c w Ho Hu.
  intros device Hs Hd0 w Hu Ho.
  apply try_silent; [by apply silent_vk|done|done|]. clear w Ho Hu. intros queue w Ho Hu.
  apply after_trying_vk. set (c := vmaCreateAllocator instance selected device.2).
  assert (untouched w0 (called c w)) as Hu1 by (trans w; [done|apply called_rest]).
  apply after_trying_check; intros Hs'.
  2:{ intros what. apply created_failed; [|done].
      destruct (owns_refused c KAllocator device.2 w _ Ho eq_refl eq_refl Hs') as [Ho1 Hl].
      exists [], (when_nonnull device.2 (Res KDevice instance device.2)), (when_nonnull instance (Res KInstance 0 instance)).
      split; [exact Ho1|]. split_and!; [apply Hl|by left|by left]. }
  destruct (owns_creation c KAllocator device.2 w _ Ho eq_refl eq_refl eq_refl Hs') as [Ho1 Ha0].
  change (owns (called c w) (held_locals (mkLocals instance device.2 (reply c w).2))) in Ho1.
  generalize dependent (called c w). generalize dependent (reply c w). clear c w Ho Hu.
  intros allocator Hs' Ha0 w Hu Ho.
  apply try_silent; [auto with cpipe|done|done|]. clear w Ho Hu. intros budget w Ho Hu.
  destruct Hu as (Hp & Him & Ht & Hpl). eexists. split; [done|]. simpl. rewrite Hp.
  do 4 (split; [done|]). eexists. done.
Qed.

Lemma create_with_created instance i vr ve w w0 :
  instance ≠ VK_NULL_HANDLE → owns w (held_locals (mkLocals instance 0 0)) → untouched w0 w →
  after (create_with instance i vr ve) w (created w0).
Proof.
  intros Hi Ho Hu. unfold create_with.
  assert (∀ w message, owns w (held_locals (mkLocals instance 0 0)) → untouched w0 w →
    after (_ ← vk (vkDestroyInstance instance); mret (unsupported message)) w (created w0)) as Hun.
  { clear w Ho Hu. intros w message Ho Hu. apply after_vk, after_ret, created_unsupported.
    - apply (owns_release (vkDestroyInstance instance) w (Res KInstance 0 instance) []); [|done..|].
      + unfold held_locals, when_nonnull in Ho. simpl in Ho. by rewrite (proj2 (Z.eqb_neq _ _) Hi) in Ho.
      + intros x Hx. by apply elem_of_nil in Hx.
    - trans w; [done|apply called_rest]. }
  apply try_silent; [by apply silent_vk|done|done|]. clear w Ho Hu. intros count w Ho Hu.
  apply try_check; [done|done|]. intros _. destruct (count.2 =? 0); [by apply Hun|].
  apply try_silent; [by apply silent_vk|done|done|]. clear w Ho Hu. intros devices w Ho Hu.
  apply try_check; [done|done|]. intros _.
  apply try_silent; [auto with cpipe|done|done|]. clear w Ho Hu. intros [d|] w Ho Hu; [|by apply Hun].
  destruct (d =? VK_NULL_HANDLE); [by apply Hun|]. by apply create_on_created.
Qed.

(** Every path through [create], from a state in which nothing is held. *)
Lemma create_created icd index vr w :
  owns w [] → after (create icd index vr) w (created w).
Proof.
  intros Ho. assert (untouched w w) as Hu by done. revert Ho Hu. generalize w at 1 3 4. intros w1 Ho Hu.
  unfold create.
  destruct (bool_decide _); [by apply created_unsupported|].
  destruct (_ =? -1); [by apply created_unsupported|].
  apply try_silent; [by apply silent_vk|done|done|]. clear w1 Ho Hu. intros loader w1 Ho Hu.
  apply try_check; [done|done|]. intros _.
  destruct (_ <? _); [by apply created_unsupported|].
  apply try_silent; [destruct vr; auto with cpipe|done|done|]. clear w1 Ho Hu. intros ve w1 Ho Hu.
  apply after_trying_vk. set (c := vkCreateInstance _ _).
  assert (untouched w (called c w1)) as Hu1 by (trans w1; [done|apply called_rest]).
  case_decide as E.
  { apply created_unsupported; [|done]. apply (owns_refused c KInstance 0 w1 []); [done..|]. by rewrite E. }
  apply after_trying_check; intros Hs.
  2:{ intros what. apply created_failed; [|done].
      destruct (owns_refused c KInstance 0 w1 [] Ho eq_refl eq_refl Hs) as [Ho1 Hl].
      exists [], [], []. split; [exact Ho1|]. split_and!; [by left|by left|apply Hl]. }
  destruct (owns_creation c KInstance 0 w1 [] Ho eq_refl eq_refl eq_refl Hs) as [Ho1 Hi].
  rewrite app_nil_r in Ho1. change (owns (called c w1) (held_locals (mkLocals (reply c w1).2 0 0))) in Ho1.
  by apply create_with_created.
Qed.

End Creation.

(** ** Submission: what is held when it returns, and when it throws *)

Section Submission.
Context {D : VkDriver} `{!VkHandles D}.

(** A recording only issues commands. *)
Definition recording (record : VkHandle → vkm unit) : Prop := ∀ cb w,
  after (record cb) w (λ o w', o = Ret tt ∧ same_objects w w').

Definition plane_pools (pl : VulkanDevicePlane) : list resource :=
  (λ entry : nat * VkHandle, Res KCommandPool (device_ pl) entry.2) <$> map_to_list (command_pools_ pl).

(** The plane [p] is [pl], and beside [extra] exactly what it owns is held. *)
Definition plane_owned (p : nat) (pl : VulkanDevicePlane) (extra : list resource) (w : World D) : Prop :=
  w_planes w !! p = Some (Some pl) ∧ owns w (extra ++ plane_pools pl ++ plane_base pl).

(** [pl'] is [pl] with a pool for [thread] if it had none. *)
Definition pool_ready (thread : nat) (pool : VkHandle) (pl pl' : VulkanDevicePlane) : Prop :=
  command_pools_ pl !! thread = Some pool ∧ pl' = pl ∨
  command_pools_ pl !! thread = None ∧ pl' = with_pool pl thread pool ∧ pool ≠ VK_NULL_HANDLE.

(** The state after a step that only changed the plane. *)
Definition plane_step (p : nat) (pl' : VulkanDevicePlane) (w w' : World D) : Prop :=
  w_planes w' = <[p := Some pl']> (w_planes w) ∧ w_images w' = w_images w ∧ w_thread w' = w_thread w ∧
  w_pipelines w' = w_pipelines w.

Definition failed (op : string) (r : VkResult) : string := op +:+ " failed: " +:+ vk_result_name r.

Lemma after_named {B} (r : VkResult) op (f : unit → vkm B) w (Q : outcome B → World D → Prop) :
  (r = VK_SUCCESS → after (f tt) w Q) →
  (r ≠ VK_SUCCESS → Q (Raise (failed op r)) w) → after (check_vk_named r op ≫= f) w Q.
Proof.
  intros Hs Hf. apply after_bind. unfold check_vk_named.
  case_decide; [by apply Hs|by apply Hf].
Qed.

Lemma plane_at_some {B} p pl (f : VulkanDevicePlane → vkm B) w (Q : outcome B → World D → Prop) :
  w_planes w !! p = Some (Some pl) → after (f pl) w Q → after (plane_at p ≫= f) w Q.
Proof. intros E H. apply after_bind. unfold after, plane_at at 1. simpl. by rewrite E. Qed.

Lemma acquire_same k parent (c : VkCall (VkResult * VkHandle)) (w : World D) l :
  owns w l → acquired c = made k parent → released c = None →
  (reply c w).1 ≠ VK_SUCCESS → owns (called c w) l.
Proof. intros Ho Ha Hr Hf. apply owns_same; [done| |done]. rewrite Ha. unfold made. by rewrite decide_False. Qed.

Lemma acquire_new k parent (c : VkCall (VkResult * VkHandle)) (w : World D) l :
  owns w l → acquired c = made k parent → released c = None →
  (reply c w).1 = VK_SUCCESS → owns (called c w) (Res k parent (reply c w).2 :: l).
Proof. intros Ho Ha Hr Hf. apply owns_acquire; [done| |done]. rewrite Ha. unfold made. by rewrite decide_True. Qed.

Lemma pool_spec p pl extra w :
  plane_owned p pl extra w →
  after (command_pool_for_current_thread p) w (λ o w', match o with
    | Ret pool => ∃ pl', pool_ready (w_thread w) pool pl pl' ∧ plane_owned p pl' extra w' ∧
        plane_step p pl' w w'
    | Raise what => (∃ r, what = failed "vkCreateCommandPool" r) ∧ plane_owned p pl extra w' ∧
        plane_step p pl w w'
    | _ => False
    end).
Proof.
  intros [Hp Ho]. unfold command_pool_for_current_thread. apply after_bind. unfold after at 1. simpl.
  apply (plane_at_some p pl); [done|]. pose proof (list_insert_id _ _ _ Hp) as Hid.
  destruct (command_pools_ pl !! w_thread w) as [pool|] eqn:Et.
  { exists pl. split; [by left|]. split; [done|]. unfold plane_step. by rewrite Hid. }
  apply after_vk. set (c := vkCreateCommandPool _ _). pose proof (called_rest c w) as (Ep & Ei & Eth).
  apply after_named; intros Hs.
  - apply after_bind, after_ret. exists (with_pool pl (w_thread w) (reply c w).2).
    pose proof (creation_handle _ c (w_driver w) _ eq_refl) as Hh. fold (reply c w) in Hh.
    split; [right; by split_and!; [|done|apply Hh]|].
    unfold plane_owned, plane_step. simpl. rewrite Ep. split; [split|].
    + apply list_lookup_insert_eq. by eapply lookup_lt_Some.
    + change (owns (called c w) (extra ++ plane_pools (with_pool pl (w_thread w) (reply c w).2) ++ plane_base pl)).
      unfold plane_pools. simpl. rewrite map_to_list_insert by done. simpl.
      rewrite <-Permutation_middle. by apply acquire_new.
    + done.
  - split; [by eexists|]. unfold plane_owned, plane_step. rewrite Ep, Hid. split; [split|]; [done| |done].
    by eapply acquire_same.
Qed.

(** What a submission that throws [what] keeps. *)
Inductive submit_leak (pl : VulkanDevicePlane) : string → list resource → Prop :=
| leak_nothing op r :
    op ∈ ["vkCreateCommandPool"; "vkAllocateCommandBuffers"] → submit_leak pl (failed op r) []
| leak_command op r thread pool cb :
    op ∈ ["vkBeginCommandBuffer"; "vkEndCommandBuffer"; "vkCreateFence"] →
    command_pools_ pl !! thread = Some pool →
    submit_leak pl (failed op r) [Res KCommandBuffer pool cb]
| leak_fence op r thread pool cb fence :
    op ∈ ["vkQueueSubmit"; "vkWaitForFences"] → command_pools_ pl !! thread = Some pool →
    submit_leak pl (failed op r) [Res KFence (device_ pl) fence; Res KCommandBuffer pool cb].

(** A checked call that asks, and one that creates, in a state with the objects of [w0]. *)
Lemma step_ask {B} (c : VkCall VkResult) op (f : VkResult → vkm B) w w0 l (Q : outcome B → World D → Prop) :
  owns w l → untouched w0 w → (∀ a, acquired c a = None) → released c = None →
  (∀ r w', owns w' l → untouched w0 w' → Q (Raise (failed op r)) w') →
  (∀ r w', owns w' l → untouched w0 w' → after (f r) w' Q) →
  after (r ← vk c; _ ← check_vk_named r op; f r) w Q.
Proof.
  intros Ho Hu Ha Hr Hf Hs. apply after_vk.
  assert (owns (called c w) l) by (by apply owns_same).
  assert (untouched w0 (called c w)) by (trans w; [done|apply called_rest]).
  apply after_named; auto.
Qed.

Lemma step_create {B} k parent (c : VkCall (VkResult * VkHandle)) op (f : VkResult * VkHandle → vkm B)
    w w0 l (Q : outcome B → World D → Prop) :
  owns w l → untouched w0 w → acquired c = made k parent → released c = None →
  (∀ r w', owns w' l → untouched w0 w' → Q (Raise (failed op r)) w') →
  (∀ r w', owns w' (Res k parent r.2 :: l) → untouched w0 w' → after (f r) w' Q) →
  after (r ← vk c; _ ← check_vk_named r.1 op; f r) w Q.
Proof.
  intros Ho Hu Ha Hr Hf Hs. apply after_vk.
  assert (untouched w0 (called c w)) by (trans w; [done|apply called_rest]).
  apply after_named; intros E; [apply Hs; [by apply acquire_new|done]|].
  apply Hf; [by eapply acquire_same|done].
Qed.

Lemma step_release {B} r (c : VkCall unit) (f : unit → vkm B) w w0 l (Q : outcome B → World D → Prop) :
  owns w (r :: l) → untouched w0 w → acquired c tt = None → released c = Some r → leaf r = true →
  (∀ w', owns w' l → untouched w0 w' → after (f tt) w' Q) →
  after (vk c ≫= f) w Q.
Proof.
  intros Ho Hu Ha Hr Hl Hf. apply after_vk. destruct (reply c w) eqn:E. apply Hf.
  - eapply owns_release_leaf; [done|done|by rewrite E|done|done].
  - trans w; [done|apply called_rest].
Qed.

(** [after] of a last call. *)
Lemma after_last {A} (m : vkm A) w (Q : outcome A → World D → Prop) :
  after (m ≫= mret) w Q → after m w Q.
Proof. unfold after, mbind, vkm_bind. by destruct (m w) as [[] w']. Qed.

Lemma submit_on_exact pl thread pool record w0 w l :
  command_pools_ pl !! thread = Some pool → recording record → owns w l → untouched w0 w →
  after (submit_on pl pool record) w (λ o w', untouched w0 w' ∧ match o with
    | Ret _ => owns w' l
    | Raise what => ∃ leaked, submit_leak pl what leaked ∧ owns w' (leaked ++ l)
    | _ => False
    end).
Proof.
  intros Hpool Hrec Ho Hu. unfold submit_on.
  apply (step_create KCommandBuffer pool _ _ _ w w0 l); [done..| |]; clear w Ho Hu; intros r w Ho Hu.
  { split; [done|]. exists []. split; [constructor; set_solver|done]. }
  set (cb := Res KCommandBuffer pool r.2) in *.
  apply (step_ask _ _ _ w w0 (cb :: l)); [done..| |]; clear w Ho Hu; intros r1 w Ho Hu.
  { split; [done|]. exists [cb]. split; [econstructor; [set_solver|done]|done]. }
  apply after_bind. eapply after_mono; [apply Hrec|]. intros o w1 [-> Hsame].
  apply (same_owns _ _ _ Hsame) in Ho. apply same_untouched in Hsame.
  assert (untouched w0 w1) as Hu1 by (by trans w). clear w Hu Hsame.
  apply (step_ask _ _ _ w1 w0 (cb :: l)); [done..| |]; clear w1 Ho Hu1; intros r2 w Ho Hu.
  { split; [done|]. exists [cb]. split; [econstructor; [set_solver|done]|done]. }
  apply (step_create KFence (device_ pl) _ _ _ w w0 (cb :: l)); [done..| |]; clear w Ho Hu; intros r3 w Ho Hu.
  { split; [done|]. exists [cb]. split; [econstructor; [set_solver|done]|done]. }
  set (fence := Res KFence (device_ pl) r3.2) in *.
  apply (step_ask _ _ _ w w0 (fence :: cb :: l)); [done..| |]; clear w Ho Hu; intros r4 w Ho Hu.
  { split; [done|]. exists [fence; cb]. split; [econstructor; [set_solver|done]|done]. }
  apply (step_ask _ _ _ w w0 (fence :: cb :: l)); [done..| |]; clear w Ho Hu; intros r5 w Ho Hu.
  { split; [done|]. exists [fence; cb]. split; [econstructor; [set_solver|done]|done]. }
  apply (step_release fence _ _ w w0 (cb :: l)); [done..|]. clear w Ho Hu; intros w Ho Hu.
  apply after_last, (step_release cb _ _ w w0 l); [done..|]. clear w Ho Hu; intros w Ho Hu. done.
Qed.

(** [submit_immediate] on every exit: the pool of the thread may be new, and beside it
    nothing is kept when it returns. *)
Lemma submit_exact p pl extra record w :
  plane_owned p pl extra w → recording record →
  after (submit_immediate p record) w (λ o w', ∃ pl',
    (pl' = pl ∨ ∃ pool, pool_ready (w_thread w) pool pl pl') ∧ plane_step p pl' w w' ∧
    match o with
    | Ret _ => is_Some (command_pools_ pl' !! w_thread w) ∧ plane_owned p pl' extra w'
    | Raise what => ∃ leaked, submit_leak pl' what leaked ∧ plane_owned p pl' (leaked ++ extra) w'
    | _ => False
    end).
Proof.
  intros Ho Hrec. unfold submit_immediate. apply after_bind.
  eapply after_mono; [by apply (pool_spec p pl extra)|].
  intros [pool|what| |] w1; [|intros ((r & ->) & Ho1 & Hst)|done..].
  2:{ exists pl. split; [by left|]. split; [done|]. exists []. split; [constructor; set_solver|done]. }
  intros (pl' & Hready & [Hp1 Ho1] & Hst1).
  assert (command_pools_ pl' !! w_thread w = Some pool) as Hpool.
  { destruct Hready as [[? ->]|(? & -> & _)]; [done|]. simpl. by rewrite lookup_insert_eq. }
  apply (plane_at_some p pl'); [done|].
  eapply after_mono; [by apply (submit_on_exact pl' (w_thread w) pool record w1)|].
  intros o w' [(Ep & Ei & Et & El) H]. exists pl'. split; [right; by exists pool|].
  split; [unfold plane_step in *; by rewrite Ep, Ei, Et, El|]. unfold plane_owned. rewrite Ep.
  destruct o as [|what| |]; [by rewrite Hpool| |done..]. destruct H as (leaked & Hl & H).
  exists leaked. by rewrite <-(assoc_L (++)).
Qed.

End Submission.

(** ** The life of a device *)

Section Lifecycle.
Context {D : VkDriver} `{!VkHandles D}.

Definition with_thread (t : nat) (w : World D) : World D :=
  mkWorld (w_driver w) (w_ledger w) t (w_planes w) (w_images w) (w_pipelines w) (w_log w).
Definition on_thread {A} (t : nat) (m : vkm A) : vkm A := λ w, m (with_thread t w).

(** Submissions of several threads, whose callers go on after an exception; the texts
    of the exceptions. *)
Fixpoint submit_all (p : nat) (submissions : list (nat * (VkHandle → vkm unit)))
    : vkm (list string) :=
  match submissions with
  | [] => mret []
  | (t, record) :: rest =>
      e ← try_catch (_ ← on_thread t (submit_immediate p record); mret [])
            (λ what, mret [what]);
      es ← submit_all p rest;
      mret (e ++ es)
  end.

(** From creation to destruction. *)
Definition device_life (icd index : option string) (validation_requested : bool)
    (submissions : list (nat * (VkHandle → vkm unit))) : vkm (list string) :=
  r ← create icd index validation_requested;
  match cr_plane r with
  | Some p => es ← submit_all p submissions; _ ← destroy_plane p; mret es
  | None => mret []
  end.

Definition fence_failure (what : string) : bool :=
  String.prefix "vkQueueSubmit" what || String.prefix "vkWaitForFences" what.
Definition fence_failures (es : list string) : nat := length (filter (λ e, fence_failure e = true) es).

(** What failed submissions left: command buffers of the plane's pools, and fences. *)
Definition left_over (pl : VulkanDevicePlane) (x : resource) : Prop :=
  (r_kind x = KCommandBuffer ∧ ∃ thread, command_pools_ pl !! thread = Some (r_parent x)) ∨
  (r_kind x = KFence ∧ r_parent x = device_ pl).

Definition fences (l : list resource) : list resource := filter (λ x, r_kind x = KFence) l.

Lemma submit_leak_left pl what leaked :
  submit_leak pl what leaked →
  Forall (left_over pl) leaked ∧ length (fences leaked) = (if fence_failure what then 1 else 0)%nat.
Proof.
  intros [op r Hop|op r t pool cb Hop Ht|op r t pool cb f Hop Ht]; split.
  - constructor.
  - repeat (apply elem_of_cons in Hop as [->|Hop]; [done|]). by apply elem_of_nil in Hop.
  - apply Forall_singleton. left. split; [done|]. by exists t.
  - repeat (apply elem_of_cons in Hop as [->|Hop]; [done|]). by apply elem_of_nil in Hop.
  - apply Forall_cons. split; [by right|]. apply Forall_singleton. left. split; [done|]. by exists t.
  - repeat (apply elem_of_cons in Hop as [->|Hop]; [done|]). by apply elem_of_nil in Hop.
Qed.

(** [pl'] is [pl] with more pools. *)
Definition more_pools (pl pl' : VulkanDevicePlane) : Prop :=
  instance_ pl' = instance_ pl ∧ device_ pl' = device_ pl ∧ allocator_ pl' = allocator_ pl ∧
  command_pools_ pl ⊆ command_pools_ pl'.

Lemma more_pools_trans pl pl1 pl2 : more_pools pl pl1 → more_pools pl1 pl2 → more_pools pl pl2.
Proof. intros (? & ? & ? & ?) (? & ? & ? & ?). unfold more_pools. split_and!; [congruence..|]. by etrans. Qed.

Lemma left_over_more pl pl' x : more_pools pl pl' → left_over pl x → left_over pl' x.
Proof.
  intros (_ & Ed & _ & Hsub) [[Hk (t & Ht)]|[Hk Hp]]; [left|right; by rewrite Ed].
  split; [done|]. exists t. by eapply lookup_weaken.
Qed.

Lemma submit_all_exact p pl extra submissions w :
  Forall (λ s, recording s.2) submissions → plane_owned p pl extra w → Forall (left_over pl) extra →
  after (submit_all p submissions) w (λ o w', ∃ es pl' extra', o = Ret es ∧ more_pools pl pl' ∧
    plane_owned p pl' extra' w' ∧ Forall (left_over pl') extra' ∧
    length (fences extra') = (length (fences extra) + fence_failures es)%nat).
Proof.
  intros Hrec. revert pl extra w. induction Hrec as [|[t record] rest Hrec _ IH]; intros pl extra w Ho Hl.
  { exists [], pl, extra. unfold more_pools, fence_failures. simpl. rewrite Nat.add_0_r. done. }
  simpl. apply after_bind, after_catch, after_bind.
  change (after (on_thread t ?m) w ?Q) with (after m (with_thread t w) Q).
  eapply after_mono; [by apply (submit_exact p pl extra)|]. intros o w2 (pl1 & Hpl & _ & H).
  assert (more_pools pl pl1) as Hmore.
  { destruct Hpl as [->|(pool & [[? ->]|(Hn & -> & _)])]; [done|done|]. split_and!; [done..|]. simpl.
    by apply insert_subseteq. }
  assert (Forall (left_over pl1) extra) as Hl1 by (eapply Forall_impl; [done|intros; by eapply left_over_more]).
  assert (∀ e extra1, plane_owned p pl1 extra1 w2 → Forall (left_over pl1) extra1 →
    length (fences extra1) = (length (fences extra) + fence_failures e)%nat →
    after (es ← submit_all p rest; mret (e ++ es)) w2 (λ o w', ∃ es pl' extra', o = Ret es ∧
      more_pools pl pl' ∧ plane_owned p pl' extra' w' ∧ Forall (left_over pl') extra' ∧
      length (fences extra') = (length (fences extra) + fence_failures es)%nat)) as Hgo.
  { intros e extra1 Ho1 Hle Hn. apply after_bind. eapply after_mono; [by apply IH|].
    intros o' w3 (es & pl2 & extra2 & -> & Hm & Ho2 & Hl2 & Hn2). apply after_ret.
    exists (e ++ es), pl2, extra2. split_and!; [done|by eapply more_pools_trans|done|done|].
    unfold fence_failures in *. rewrite filter_app, length_app. lia. }
  destruct o as [u|what| |]; [destruct H as [_ H]|destruct H as (leaked & Hleak & Ho1)|done..].
  - apply Hgo with extra; [done|done|]. unfold fence_failures. simpl. lia.
  - apply submit_leak_left in Hleak as [Hll Hn].
    apply after_ret, (Hgo [what] (leaked ++ extra)); [done|by apply Forall_app|].
    unfold fences, fence_failures in *. rewrite filter_app, length_app, Hn.
    rewrite filter_cons, filter_nil. destruct (fence_failure what); simpl; lia.
Qed.

Definition destroy_pools (device : VkHandle) (pools : list (nat * VkHandle)) : vkm unit :=
  foldr (λ (entry : nat * VkHandle) (m : vkm unit), _ ← vk (vkDestroyCommandPool device entry.2); m)
    (mret tt) pools.

(** With the pools go the command buffers that were left in them. *)
Lemma destroy_pools_exact device pools commands rest w :
  Forall (λ x, r_kind x = KCommandBuffer ∧ r_parent x ∈ pools.*2) commands →
  Forall (λ x, r_kind x ≠ KCommandBuffer) rest →
  owns w (commands ++ ((λ entry, Res KCommandPool device entry.2) <$> pools) ++ rest) →
  after (destroy_pools device pools) w (λ o w', o = Ret tt ∧ owns w' rest ∧ untouched w w').
Proof.
  intros Hc Hr. revert commands w Hc. induction pools as [|[t h] pools IH]; intros commands w Hc Ho.
  { destruct commands as [|x commands]; [done|]. apply Forall_cons in Hc as [[_ Hx] _].
    by apply elem_of_nil in Hx. }
  simpl. apply after_vk. set (c := vkDestroyCommandPool device h). set (r := Res KCommandPool device h).
  set (pl := (λ entry : nat * VkHandle, Res KCommandPool device entry.2) <$> pools) in *.
  assert (owns w (r :: commands ++ pl ++ rest)) as Ho1 by (by rewrite Permutation_middle).
  apply (owns_release c) in Ho1; [|by destruct (reply c w)|done|].
  2:{ intros x _. unfold keeps_alive, goes_with. destruct (made_from r x); done. }
  rewrite !filter_app, (filter_true _ pl), (filter_true _ rest) in Ho1.
  - eapply after_mono; [eapply (IH (filter (λ x, goes_with r x = false) commands)); [|done]|].
    + apply Forall_forall. intros x [Hg Hx]%list_elem_of_filter.
      rewrite Forall_forall in Hc. apply Hc in Hx as [Hk Hp]. split; [done|].
      apply elem_of_cons in Hp as [Hp|Hp]; [|done]. unfold goes_with, made_from in Hg.
      rewrite Hk in Hg. simpl in Hg. rewrite Hp in Hg. simpl in Hg. rewrite Z.eqb_refl in Hg. done.
    + intros o w' (-> & Ho' & Hu). split_and!; [done|done|]. trans (called c w); [apply called_rest|done].
  - intros x Hx. rewrite Forall_forall in Hr. apply Hr in Hx. unfold goes_with, made_from.
    by destruct x as [[] ? ?].
  - intros x ([? ?] & -> & _)%list_elem_of_fmap. done.
Qed.

Lemma left_over_split pl extra :
  Forall (left_over pl) extra → ∃ commands, extra ≡ₚ commands ++ fences extra ∧
    Forall (λ x, r_kind x = KCommandBuffer ∧ r_parent x ∈ (map_to_list (command_pools_ pl)).*2) commands.
Proof.
  induction 1 as [|x extra Hx _ (commands & E & Hc)]; [by exists []|].
  unfold fences in *. rewrite filter_cons. destruct Hx as [[Hk (t & Ht)]|[Hk _]].
  - exists (x :: commands). rewrite decide_False by congruence. split; [by rewrite E at 1|].
    constructor; [|done]. split; [done|]. apply list_elem_of_fmap. exists (t, r_parent x).
    split; [done|]. by apply elem_of_map_to_list.
  - exists commands. rewrite decide_True by done. split; [by rewrite <-Permutation_middle, <-E|done].
Qed.

Definition real_plane (pl : VulkanDevicePlane) : Prop :=
  instance_ pl ≠ VK_NULL_HANDLE ∧ device_ pl ≠ VK_NULL_HANDLE ∧ allocator_ pl ≠ VK_NULL_HANDLE.

Lemma plane_base_real pl : real_plane pl →
  plane_base pl = [Res KAllocator (device_ pl) (allocator_ pl); Res KDevice (instance_ pl) (device_ pl);
                   Res KInstance 0 (instance_ pl)].
Proof.
  intros (Hi & Hd & Ha). unfold plane_base, held_locals, when_nonnull. simpl.
  by rewrite !(proj2 (Z.eqb_neq _ _)).
Qed.

(** Calling [c] when the handle is there. *)
Lemma after_held {B} (h : VkHandle) (c : VkCall unit) (f : unit → vkm B) w (Q : outcome B → World D → Prop) :
  h ≠ VK_NULL_HANDLE → after (f tt) (called c w) Q → after (when_held h c ≫= f) w Q.
Proof.
  intros Hh H. unfold when_held. rewrite (proj2 (Z.eqb_neq _ _) Hh). apply after_vk.
  by destruct (reply c w).
Qed.

(** Something was given back wrongly when [b], and otherwise only a stray handle. *)
Definition misuse_is (b : bool) (w : World D) : Prop :=
  (b = true → misused (w_ledger w) = true) ∧ (misused (w_ledger w) = true → b = true ∨ handle_strayed w).

Lemma release_explained {A} (c : VkCall A) w r l b :
  held (w_ledger w) ≡ₚ r :: l → misuse_is b w → acquired c (reply c w) = None → released c = Some r →
  held (w_ledger (called c w)) ≡ₚ filter (λ x, goes_with r x = false) l ∧
  misuse_is (b || existsb (keeps_alive r) l) (called c w).
Proof.
  intros Hh [Hb Hm] Ha Hr. destruct (release_exact c w r l _ Hh eq_refl Ha Hr) as [Hh' Hm']. split; [done|].
  unfold misuse_is. rewrite Hm', !orb_true_iff. split; [naive_solver|].
  intros [H|H]; [destruct (Hm H); [auto|by right; apply called_strayed]|auto].
Qed.

(** Destroying the allocator, the device and the instance while [fs] fences are held. *)
Lemma destroy_base_exact {B} pl fs (k : vkm B) w (Q : outcome B → World D → Prop) :
  real_plane pl → Forall (λ x, r_kind x = KFence ∧ r_parent x = device_ pl) fs →
  owns w (fs ++ plane_base pl) →
  (∀ w', held (w_ledger w') ≡ₚ fs → misuse_is (negb (Nat.eqb (length fs) 0)) w' → after k w' Q) →
  after (_ ← when_held (allocator_ pl) (vmaDestroyAllocator (device_ pl) (allocator_ pl));
         _ ← when_held (device_ pl) (vkDestroyDevice (instance_ pl) (device_ pl));
         _ ← when_held (instance_ pl) (vkDestroyInstance (instance_ pl)); k) w Q.
Proof.
  intros Hreal Hfs Ho Hk. pose proof Hreal as (Hi & Hd & Ha). rewrite plane_base_real in Ho by done.
  assert (∀ r x, r_kind r ≠ KCommandPool → r_kind r ≠ KDescriptorPool → goes_with r x = false) as Hgo.
  { intros r x Hr Hr'. unfold goes_with. rewrite bool_decide_eq_false_2 by naive_solver. apply andb_false_r. }
  destruct Ho as [Hh Hm0]. assert (misuse_is false w) as Hm by (split; [done|by right; apply Hm0]).
  rewrite <-Permutation_middle in Hh. apply after_held; [done|].
  destruct (release_explained (vmaDestroyAllocator (device_ pl) (allocator_ pl)) w _ _ _ Hh Hm) as [Hh1 Hm1];
    [by destruct (reply _ w)|done|]. generalize dependent (called (vmaDestroyAllocator (device_ pl) (allocator_ pl)) w).
  intros w1 Hh1 Hm1. rewrite filter_true in Hh1 by (intros; by apply Hgo).
  assert (existsb (keeps_alive (Res KAllocator (device_ pl) (allocator_ pl))) fs = false) as Hno.
  { apply not_true_iff_false. intros (x & Hx & Hke)%existsb_exists. apply list_elem_of_In in Hx.
    apply (proj1 (Forall_forall _ _) Hfs) in Hx as [Hx _]. unfold keeps_alive, made_from in Hke.
    by rewrite Hx in Hke. }
  rewrite existsb_app, Hno in Hm1. simpl in Hm1. rewrite <-Permutation_middle in Hh1. apply after_held; [done|].
  destruct (release_explained (vkDestroyDevice (instance_ pl) (device_ pl)) w1 _ _ _ Hh1 Hm1) as [Hh2 Hm2];
    [by destruct (reply _ w1)|done|]. generalize dependent (called (vkDestroyDevice (instance_ pl) (device_ pl)) w1).
  intros w2 Hh2 Hm2. rewrite filter_true in Hh2 by (intros; by apply Hgo).
  rewrite existsb_app in Hm2. simpl in Hm2. rewrite orb_false_r in Hm2.
  rewrite (comm (++)) in Hh2. simpl in Hh2. apply after_held; [done|].
  destruct (release_explained (vkDestroyInstance (instance_ pl)) w2 _ _ _ Hh2 Hm2) as [Hh3 Hm3];
    [by destruct (reply _ w2)|done|]. apply Hk; [by rewrite Hh3, filter_true by (intros; by apply Hgo)|].
  revert Hm3. destruct fs as [|f fs]; [done|]. apply Forall_cons in Hfs as [[Hx Hp] _]. simpl.
  unfold keeps_alive, goes_with, made_from. rewrite Hx, Hp. simpl. by rewrite Z.eqb_refl.
Qed.

Lemma fences_left pl extra :
  Forall (left_over pl) extra → Forall (λ x, r_kind x = KFence ∧ r_parent x = device_ pl) (fences extra).
Proof.
  intros H. apply Forall_forall. intros x [Hk Hx]%list_elem_of_filter.
  apply (proj1 (Forall_forall _ _) H) in Hx as [[Hc _]|]; [congruence|done].
Qed.

Lemma destroy_plane_exact p pl extra w :
  plane_owned p pl extra w → Forall (left_over pl) extra → real_plane pl →
  after (destroy_plane p) w (λ o w', o = Ret tt ∧ held (w_ledger w') ≡ₚ fences extra ∧
    misuse_is (negb (Nat.eqb (length (fences extra)) 0)) w').
Proof.
  intros [Hp Ho] Hl Hreal. unfold destroy_plane. apply (plane_at_some p pl); [done|].
  pose proof Hreal as (Hi & Hd & Ha). rewrite (proj2 (Z.eqb_neq _ _) Hd).
  apply after_bind, after_vk, after_ret. set (c := vkDeviceWaitIdle _).
  assert (owns (called c w) (extra ++ plane_pools pl ++ plane_base pl)) as Ho1 by (by apply owns_same).
  destruct (left_over_split pl extra Hl) as (commands & E & Hc). pose proof (fences_left pl extra Hl) as Hf.
  apply after_bind. fold (destroy_pools (device_ pl) (map_to_list (command_pools_ pl))).
  eapply after_mono; [apply (destroy_pools_exact _ _ commands (fences extra ++ plane_base pl))|].
  - done.
  - apply Forall_app. split; [eapply Forall_impl; [exact Hf|]; naive_solver congruence|].
    rewrite plane_base_real by done. by repeat constructor.
  - revert Ho1. rewrite E at 1. unfold plane_pools. apply (owns_proper (called c w)).
    rewrite <-!(assoc_L (++)). f_equiv. rewrite !(assoc_L (++)). f_equiv. apply (comm (++)).
  - intros o w1 (-> & Ho2 & _). apply (destroy_base_exact pl (fences extra)); [done|done|done|].
    intros w2 Hh Hm. done.
Qed.

(** C27: a device from its creation over submissions by any threads, of closures that
    only record commands, to its destruction, for every driver whose successful
    creations give handles: creation ends with a plane or with a status and nothing
    held, on each of its early returns and failures; the destructor returns; and what
    is then still held is exactly one fence for every submission whose submit or wait
    failed.  Such a fence outlives its device.  Without one, nothing is given back that
    was not held, or before what was made from it - except what a failed creation left
    in its handle: Vulkan leaves it undefined, and the handler of [create] destroys
    whatever is there unless it is null. *)
Theorem device_life_exact icd index vr submissions w :
  owns w [] → Forall (λ s, recording s.2) submissions →
  after (device_life icd index vr submissions) w (λ o w', ∃ es, o = Ret es ∧
    length (held (w_ledger w')) = fence_failures es ∧
    Forall (λ x, r_kind x = KFence) (held (w_ledger w')) ∧
    (fence_failures es ≠ 0%nat → misused (w_ledger w') = true) ∧
    (misused (w_ledger w') = true → fence_failures es ≠ 0%nat ∨ handle_strayed w')).
Proof.
  intros Ho Hrec. unfold device_life. apply after_bind. eapply after_mono; [by apply create_created|].
  intros o w1 (r & -> & _ & _ & _ & H).
  assert (∀ w, owns w [] → length (held (w_ledger w)) = 0%nat ∧
    Forall (λ x, r_kind x = KFence) (held (w_ledger w)) ∧ (misused (w_ledger w) = true → handle_strayed w)) as Hnil.
  { intros w2 [Hh%Permutation.Permutation_sym%Permutation.Permutation_nil Hm]. by rewrite Hh. }
  destruct (cr_plane r) as [p|] eqn:Ep.
  2:{ apply after_ret. exists []. split; [done|].
      destruct (Hnil w1) as (? & ? & ?); [destruct (cr_status r); naive_solver|]. split_and!; [done|done|done|intros; right; auto]. }
  destruct (cr_status r); try done. destruct H as (-> & pl & Epl & Ho1 & Hpools & Hi & Hd & Ha).
  apply after_bind. eapply after_mono; [apply (submit_all_exact _ pl [])|]; [done| |done|].
  { split; [rewrite Epl; by apply list_lookup_middle|]. unfold plane_pools. by rewrite Hpools. }
  intros o w2 (es & pl' & extra & -> & (Ei & Ed & Ea & _) & Ho2 & Hl & Hn). apply after_bind.
  eapply after_mono; [apply (destroy_plane_exact _ pl' extra); [done|done|]|].
  { unfold real_plane. by rewrite Ei, Ed, Ea. }
  intros o w3 (-> & Hh & [Hm1 Hm2]). exists es. simpl in Hn. rewrite <-Hn, Hh.
  rewrite negb_true_iff, Nat.eqb_neq in Hm1, Hm2. split_and!; [done|done| |done|done].
  eapply Forall_impl; [by eapply fences_left|]. naive_solver.
Qed.

End Lifecycle.
