(* ===== verification/VulkanImages.v ===== *)
(** * Images and buffers on the device

    runtime/VulkanImage.cpp and runtime/VulkanBuffer.cpp over the calls of [VulkanApi].
    An image lives on the device; the host reads and writes a copy of it, [staging_],
    which [lock_cpu] fetches and [unlock_cpu] sends back, through a temporary buffer and
    with the layout transitions a copy needs.  [VkMemory] states what the documentation
    of Vulkan says of the calls involved: what the device wrote is seen by the host only
    where it was made available to it ([vk_available]), for which the code records no
    barrier.  Against it, an image of packed rows is an array of bytes that the lock
    protocol reads and writes: [image_life_exact]. *)

From Stdlib Require Import ZArith Lia.
From stdpp Require Import prelude strings list gmap.
From S2P Require Import Prelude Core VulkanApi VulkanDevice.

Open Scope Z_scope.

(** ** VulkanImage.cpp *)

Definition to_vk_format (format : PixelFormat) : VkFormat :=
  match format with
  | R16_UINT => VK_FORMAT_R16_UINT
  | R8G8B8A8_UNORM => VK_FORMAT_R8G8B8A8_UNORM
  | R16G16B16A16_SFLOAT => VK_FORMAT_R16G16B16A16_SFLOAT
  | R16G16B16A16_UNORM => VK_FORMAT_R16G16B16A16_UNORM
  | R32_SFLOAT => VK_FORMAT_R32_SFLOAT
  | R32G32B32A32_SFLOAT => VK_FORMAT_R32G32B32A32_SFLOAT
  | _ => VK_FORMAT_UNDEFINED
  end.

Definition vk_usage (usage : Z) : Z :=
  let flags := Z.lor VK_IMAGE_USAGE_TRANSFER_SRC_BIT VK_IMAGE_USAGE_TRANSFER_DST_BIT in
  let flags := if has_usage usage usage_GpuSampled then Z.lor flags VK_IMAGE_USAGE_SAMPLED_BIT else flags in
  if has_usage usage usage_GpuStorage then Z.lor flags VK_IMAGE_USAGE_STORAGE_BIT else flags.

(** The metadata a constructor starts with. *)
Definition initial_metadata (color_role : string) : BufferMetadata :=
  if bool_decide (color_role = "") then default_metadata else
  mkMetadata 1 None default_capture [] color_role None None None None None None None default_quant ∅.

(** The access and stage before and after a transition. *)
Definition barrier_source (old_layout : VkImageLayout) : Z * Z :=
  match old_layout with
  | LAYOUT_UNDEFINED => (0, VK_PIPELINE_STAGE_TOP_OF_PIPE_BIT)
  | LAYOUT_TRANSFER_DST_OPTIMAL => (VK_ACCESS_TRANSFER_WRITE_BIT, VK_PIPELINE_STAGE_TRANSFER_BIT)
  | LAYOUT_TRANSFER_SRC_OPTIMAL => (VK_ACCESS_TRANSFER_READ_BIT, VK_PIPELINE_STAGE_TRANSFER_BIT)
  | _ => (Z.lor VK_ACCESS_MEMORY_READ_BIT VK_ACCESS_MEMORY_WRITE_BIT, VK_PIPELINE_STAGE_ALL_COMMANDS_BIT)
  end.

Definition barrier_destination (new_layout : VkImageLayout) : Z * Z :=
  match new_layout with
  | LAYOUT_TRANSFER_DST_OPTIMAL => (VK_ACCESS_TRANSFER_WRITE_BIT, VK_PIPELINE_STAGE_TRANSFER_BIT)
  | LAYOUT_TRANSFER_SRC_OPTIMAL => (VK_ACCESS_TRANSFER_READ_BIT, VK_PIPELINE_STAGE_TRANSFER_BIT)
  | _ => (Z.lor VK_ACCESS_MEMORY_READ_BIT VK_ACCESS_MEMORY_WRITE_BIT, VK_PIPELINE_STAGE_ALL_COMMANDS_BIT)
  end.

(** The commands a transition records: none if there is nothing to change. *)
Definition transition_image (image : VkHandle) (old_layout new_layout : VkImageLayout) : list VkCommand :=
  if decide (old_layout = new_layout) then [] else
  let src := barrier_source old_layout in
  let dst := barrier_destination new_layout in
  [vkCmdPipelineBarrier (mkBarrier old_layout new_layout image src.1 dst.1 src.2 dst.2)].

(** A [StagingBuffer]: its [data] is the mapped memory of the allocation. *)
Record StagingBuffer : Type := mkStaging {
  sb_allocator : VkHandle;
  sb_buffer : VkHandle;
  sb_allocation : VkHandle
}.

Section Images.
Context {D : VkDriver}.

Definition make_staging (p : nat) (size usage : Z) : vkm StagingBuffer :=
  pl ← plane_at p;
  r ← vk (vmaCreateBuffer (allocator_ pl) size usage);
  _ ← check_vk r.1 "vmaCreateBuffer";
  let '(buffer, allocation, mapped) := r.2 in
  _ ← (if mapped : bool then mret tt
       else m ← vk (vmaMapMemory (allocator_ pl) allocation); check_vk m "vmaMapMemory");
  mret (mkStaging (allocator_ pl) buffer allocation).

Definition destroy_staging (s : StagingBuffer) : vkm unit :=
  when_held (sb_buffer s) (vmaDestroyBuffer (sb_allocator s) (sb_buffer s) (sb_allocation s)).

(** The commands of a closure, recorded in order. *)
Fixpoint record_all (commands : list VkCommand) (command_buffer : VkHandle) : vkm unit :=
  match commands with
  | [] => mret tt
  | c :: rest => _ ← vk (vkCmd command_buffer c); record_all rest command_buffer
  end.

Definition set_layout (im : VulkanImage) (l : VkImageLayout) : VulkanImage :=
  mkImage (plane_ im) (layout_ im) (usage_ im) (color_role_ im) (metadata_ im) (image_ im)
    (allocation_ im) (format_ im) l (size_bytes_ im) (staging_ im) (locked_access_ im) (locked_ im).
Definition set_staging (im : VulkanImage) (s : bytes) : VulkanImage :=
  mkImage (plane_ im) (layout_ im) (usage_ im) (color_role_ im) (metadata_ im) (image_ im)
    (allocation_ im) (format_ im) (current_layout_ im) (size_bytes_ im) s (locked_access_ im) (locked_ im).
Definition set_lock (im : VulkanImage) (access : CpuAccess) (locked : bool) : VulkanImage :=
  mkImage (plane_ im) (layout_ im) (usage_ im) (color_role_ im) (metadata_ im) (image_ im)
    (allocation_ im) (format_ im) (current_layout_ im) (size_bytes_ im) (staging_ im) access locked.
Definition set_image_metadata (im : VulkanImage) (m : option BufferMetadata) : VulkanImage :=
  mkImage (plane_ im) (layout_ im) (usage_ im) (color_role_ im) m (image_ im)
    (allocation_ im) (format_ im) (current_layout_ im) (size_bytes_ im) (staging_ im)
    (locked_access_ im) (locked_ im).

Definition new_image (im : VulkanImage) : vkm nat := λ w,
  (Ret (length (w_images w)), with_images w (w_images w ++ [Some im])).

(** [staging_.resize(count)] of an empty vector. *)
Definition resized (count : Z) : vkm bytes :=
  ok ← vk (host_resize count);
  if ok : bool then mret (replicate (Z.to_nat count) 0) else raise "std::bad_alloc".

(** The constructor; the position of the new image. *)
Definition make_image (p : nat) (layout : BufferLayout) (usage : Z) (color_role : string) : vkm nat :=
  let format := to_vk_format (Core.format layout) in
  if negb (bool_decide (kind layout = Image2D)) || negb (ndim layout =? 2) ||
     bool_decide (format = VK_FORMAT_UNDEFINED)
  then raise "unsupported VulkanImage layout" else
  pl ← plane_at p;
  r ← vk (vmaCreateImage (allocator_ pl) format (nth8 (dims layout) 0) (nth8 (dims layout) 1)
            (vk_usage usage));
  _ ← check_vk r.1 "vmaCreateImage";
  staging ← resized (size_bytes layout);
  new_image (mkImage p layout usage color_role (Some (initial_metadata color_role)) r.2.1 r.2.2 format LAYOUT_UNDEFINED
    (size_bytes layout) staging AccessRead false).

Definition drop_image (i : nat) : vkm unit := λ w,
  (Ret tt, with_images w (<[i := None]> (w_images w))).

Definition destroy_image (i : nat) : vkm unit :=
  im ← image_at i;
  pl ← plane_at (plane_ im);
  _ ← when_held (image_ im) (vmaDestroyImage (allocator_ pl) (image_ im) (allocation_ im));
  drop_image i.

Definition image_set_metadata (i : nat) (m : option BufferMetadata) : vkm unit :=
  im ← image_at i; set_image i (set_image_metadata im m).

Definition transition_to_general (i : nat) : vkm unit :=
  im ← image_at i;
  _ ← submit_immediate (plane_ im)
        (record_all (transition_image (image_ im) (current_layout_ im) LAYOUT_GENERAL));
  set_image i (set_layout im LAYOUT_GENERAL).

(** The width and height of the copied region. *)
Definition region (im : VulkanImage) : Z * Z := (nth8 (dims (layout_ im)) 0, nth8 (dims (layout_ im)) 1).

Definition upload_commands (im : VulkanImage) (buffer : VkHandle) : list VkCommand :=
  transition_image (image_ im) (current_layout_ im) LAYOUT_TRANSFER_DST_OPTIMAL ++
  [vkCmdCopyBufferToImage buffer (image_ im) LAYOUT_TRANSFER_DST_OPTIMAL (region im).1 (region im).2] ++
  transition_image (image_ im) LAYOUT_TRANSFER_DST_OPTIMAL LAYOUT_GENERAL.

Definition upload_from_staging (i : nat) : vkm unit :=
  im ← image_at i;
  staging ← make_staging (plane_ im) (size_bytes_ im) VK_BUFFER_USAGE_TRANSFER_SRC_BIT;
  scoped
    (_ ← vk (host_store (sb_allocation staging) (staging_ im));
     pl ← plane_at (plane_ im);
     flushed ← vk (vmaFlushAllocation (allocator_ pl) (sb_allocation staging));
     _ ← check_vk flushed "vmaFlushAllocation";
     _ ← submit_immediate (plane_ im) (record_all (upload_commands im (sb_buffer staging)));
     set_image i (set_layout im LAYOUT_GENERAL))
    (destroy_staging staging).

Definition download_commands (im : VulkanImage) (buffer : VkHandle) : list VkCommand :=
  transition_image (image_ im) (current_layout_ im) LAYOUT_TRANSFER_SRC_OPTIMAL ++
  [vkCmdCopyImageToBuffer (image_ im) LAYOUT_TRANSFER_SRC_OPTIMAL buffer (region im).1 (region im).2] ++
  transition_image (image_ im) LAYOUT_TRANSFER_SRC_OPTIMAL LAYOUT_GENERAL.

Definition download_to_staging (i : nat) : vkm unit :=
  im ← image_at i;
  staging ← make_staging (plane_ im) (size_bytes_ im) VK_BUFFER_USAGE_TRANSFER_DST_BIT;
  scoped
    (_ ← submit_immediate (plane_ im) (record_all (download_commands im (sb_buffer staging)));
     _ ← set_image i (set_layout im LAYOUT_GENERAL);
     pl ← plane_at (plane_ im);
     invalidated ← vk (vmaInvalidateAllocation (allocator_ pl) (sb_allocation staging));
     _ ← check_vk invalidated "vmaInvalidateAllocation";
     data ← vk (host_load (sb_allocation staging) (len (staging_ im)));
     set_image i (set_staging (set_layout im LAYOUT_GENERAL) data))
    (destroy_staging staging).

(** The pointer that is returned is to [staging_]. *)
Definition image_lock_cpu (i : nat) (access : CpuAccess) : vkm unit :=
  im ← image_at i;
  _ ← vassert (negb (locked_ im));
  _ ← match access with
      | AccessRead =>
          _ ← vassert (has_usage (usage_ im) usage_CpuRead); download_to_staging i
      | AccessWrite => vassert (has_usage (usage_ im) usage_CpuWrite)
      | AccessReadWrite =>
          _ ← vassert (has_usage (usage_ im) usage_CpuRead);
          _ ← vassert (has_usage (usage_ im) usage_CpuWrite);
          download_to_staging i
      end;
  im ← image_at i;
  set_image i (set_lock im access true).

Definition image_unlock_cpu (i : nat) : vkm unit :=
  im ← image_at i;
  _ ← vassert (locked_ im);
  _ ← match locked_access_ im with
      | AccessWrite | AccessReadWrite => upload_from_staging i
      | AccessRead => mret tt
      end;
  im ← image_at i;
  set_image i (set_lock im (locked_access_ im) false).

(** ** VulkanBuffer.cpp *)

Definition vk_buffer_usage (usage : Z) : Z :=
  let flags := Z.lor VK_BUFFER_USAGE_TRANSFER_SRC_BIT VK_BUFFER_USAGE_TRANSFER_DST_BIT in
  if has_usage usage usage_GpuStorage then Z.lor flags VK_BUFFER_USAGE_STORAGE_BUFFER_BIT else flags.

(** Its [mapped_] is the mapped memory of the allocation. *)
Record VulkanBuffer : Type := mkVulkanBuffer {
  vb_plane : nat;
  vb_layout : BufferLayout;
  vb_usage : Z;
  vb_color_role : string;
  vb_metadata : option BufferMetadata;
  vb_buffer : VkHandle;
  vb_allocation : VkHandle;
  vb_size_bytes : Z;
  vb_locked : bool
}.

Definition make_buffer (p : nat) (layout : BufferLayout) (usage : Z) (color_role : string)
    : vkm VulkanBuffer :=
  pl ← plane_at p;
  r ← vk (vmaCreateBuffer (allocator_ pl) (size_bytes layout) (vk_buffer_usage usage));
  _ ← check_vk r.1 "vmaCreateBuffer";
  let '(buffer, allocation, mapped) := r.2 in
  _ ← (if mapped : bool then mret tt
       else m ← vk (vmaMapMemory (allocator_ pl) allocation); check_vk m "vmaMapMemory");
  mret (mkVulkanBuffer p layout usage color_role (Some (initial_metadata color_role)) buffer allocation
    (size_bytes layout) false).

Definition destroy_buffer (b : VulkanBuffer) : vkm unit :=
  pl ← plane_at (vb_plane b);
  when_held (vb_buffer b) (vmaDestroyBuffer (allocator_ pl) (vb_buffer b) (vb_allocation b)).

Definition buffer_with_locked (b : VulkanBuffer) (locked : bool) : VulkanBuffer :=
  mkVulkanBuffer (vb_plane b) (vb_layout b) (vb_usage b) (vb_color_role b) (vb_metadata b)
    (vb_buffer b) (vb_allocation b) (vb_size_bytes b) locked.

Definition invalidate (b : VulkanBuffer) : vkm unit :=
  pl ← plane_at (vb_plane b);
  r ← vk (vmaInvalidateAllocation (allocator_ pl) (vb_allocation b));
  check_vk r "vmaInvalidateAllocation".

Definition buffer_lock_cpu (access : CpuAccess) (b : VulkanBuffer) : vkm VulkanBuffer :=
  _ ← vassert (negb (vb_locked b));
  _ ← match access with
      | AccessRead => _ ← vassert (has_usage (vb_usage b) usage_CpuRead); invalidate b
      | AccessWrite => vassert (has_usage (vb_usage b) usage_CpuWrite)
      | AccessReadWrite =>
          _ ← vassert (has_usage (vb_usage b) usage_CpuRead);
          _ ← vassert (has_usage (vb_usage b) usage_CpuWrite);
          invalidate b
      end;
  mret (buffer_with_locked b true).

Definition buffer_unlock_cpu (b : VulkanBuffer) : vkm VulkanBuffer :=
  _ ← vassert (vb_locked b); mret (buffer_with_locked b false).

Definition buffer_flush_cpu_writes (b : VulkanBuffer) : vkm unit :=
  pl ← plane_at (vb_plane b);
  r ← vk (vmaFlushAllocation (allocator_ pl) (vb_allocation b));
  check_vk r "vmaFlushAllocation".

End Images.

(** ** What Vulkan documents about memory, layouts and command buffers *)

(** One image and one buffer, as the commands of a submission see them. *)
Record cell : Type := mkCell {
  c_layout : VkImageLayout;
  c_extent : Z * Z;
  c_content : bytes;
  c_memory : bytes
}.

(** The effect of a command on image [img] and buffer [buf]; [None] when its use is not
    valid or it concerns something else.  A transition from the undefined layout
    discards the contents of the image, which [junk] replaces. *)
Definition exec (junk : bytes → bytes) (img buf : VkHandle) (c : VkCommand) (x : cell) : option cell :=
  match c with
  | vkCmdPipelineBarrier b =>
      if negb (barrier_image b =? img) then None else
      if decide (oldLayout b = LAYOUT_UNDEFINED) then
        Some (mkCell (newLayout b) (c_extent x) (junk (c_content x)) (c_memory x)) else
      if decide (oldLayout b = c_layout x)
      then Some (mkCell (newLayout b) (c_extent x) (c_content x) (c_memory x)) else None
  | vkCmdCopyBufferToImage b i l width height =>
      if (b =? buf) && (i =? img) && bool_decide (l = LAYOUT_TRANSFER_DST_OPTIMAL) &&
         bool_decide (l = c_layout x) && bool_decide ((width, height) = c_extent x) &&
         (len (c_content x) <=? len (c_memory x))
      then Some (mkCell (c_layout x) (c_extent x) (take (length (c_content x)) (c_memory x)) (c_memory x))
      else None
  | vkCmdCopyImageToBuffer i l b width height =>
      if (b =? buf) && (i =? img) && bool_decide (l = LAYOUT_TRANSFER_SRC_OPTIMAL) &&
         bool_decide (l = c_layout x) && bool_decide ((width, height) = c_extent x) &&
         (len (c_content x) <=? len (c_memory x))
      then Some (mkCell (c_layout x) (c_extent x) (c_content x)
             (c_content x ++ drop (length (c_content x)) (c_memory x)))
      else None
  | _ => None
  end.

Fixpoint exec_all (junk : bytes → bytes) (img buf : VkHandle) (cs : list VkCommand) (x : cell)
    : option cell :=
  match cs with
  | [] => Some x
  | c :: cs' => match exec junk img buf c x with Some x' => exec_all junk img buf cs' x' | None => None end
  end.

(** The bytes of a texel. *)
Definition format_bytes (f : VkFormat) : Z :=
  match f with
  | VK_FORMAT_UNDEFINED => 0
  | VK_FORMAT_R16_UINT => 2
  | VK_FORMAT_R8G8B8A8_UNORM | VK_FORMAT_R32_SFLOAT => 4
  | VK_FORMAT_R16G16B16A16_SFLOAT | VK_FORMAT_R16G16B16A16_UNORM => 8
  | VK_FORMAT_R32G32B32A32_SFLOAT => 16
  end.

(** The calls that neither touch an image nor memory. *)
Definition quiet {A} (c : VkCall A) : bool :=
  match c with
  | vkCreateCommandPool _ _ | vkAllocateCommandBuffers _ _ | vkFreeCommandBuffers _ _ _
  | vkBeginCommandBuffer _ | vkEndCommandBuffer _ | vkCmd _ _ | vkCreateFence _ _
  | vkDestroyFence _ _ | vmaMapMemory _ _ | host_load _ _ => true
  | _ => false
  end.

(** The calls that do not touch an image. *)
Definition host_side {A} (c : VkCall A) : bool :=
  match c with
  | vmaCreateBuffer _ _ _ | vmaDestroyBuffer _ _ _ | vmaFlushAllocation _ _
  | vmaInvalidateAllocation _ _ | host_store _ _ => true
  | c => quiet c
  end.

(** A driver's memory: the layout, size and packed contents of an image, the contents of
    a buffer as the device sees them, those of a mapped allocation as the host does,
    which buffer an allocation belongs to, whether what the device wrote to a buffer is
    available to the host, and the commands in a command buffer. *)
Class VkMemory (D : VkDriver) : Type := {
  vk_layout : vk_state → VkHandle → VkImageLayout;
  vk_extent : vk_state → VkHandle → Z * Z;
  vk_content : vk_state → VkHandle → bytes;
  vk_memory : vk_state → VkHandle → bytes;
  vk_host : vk_state → VkHandle → bytes;
  vk_bound : vk_state → VkHandle → VkHandle → Prop;
  vk_available : vk_state → VkHandle → Prop;
  vk_recorded : vk_state → VkHandle → list VkCommand
}.

Section Laws.
Context {D : VkDriver} {M : VkMemory D}.

Definition cell_of (s : vk_state) (img buf : VkHandle) : cell :=
  mkCell (vk_layout s img) (vk_extent s img) (vk_content s img) (vk_memory s buf).

Definition same_images (s s' : vk_state) : Prop := ∀ img,
  vk_layout s' img = vk_layout s img ∧ vk_extent s' img = vk_extent s img ∧
  vk_content s' img = vk_content s img.

Definition same_memory (s s' : vk_state) : Prop :=
  same_images s s' ∧ (∀ buf, vk_memory s' buf = vk_memory s buf) ∧
  (∀ a, vk_host s' a = vk_host s a) ∧ (∀ buf a, vk_bound s buf a → vk_bound s' buf a).

End Laws.

Class VkMemoryLaws (D : VkDriver) (M : VkMemory D) : Prop := {
  quiet_call : ∀ A (c : VkCall A) s, quiet c = true → same_memory s (vk_call c s).2;
  host_side_call : ∀ A (c : VkCall A) s, host_side c = true → same_images s (vk_call c s).2;
  create_buffer_bound : ∀ a size usage s buf al m s',
    vk_call (vmaCreateBuffer a size usage) s = ((VK_SUCCESS, (buf, al, m)), s') →
    vk_bound s' buf al ∧ len (vk_memory s' buf) = size ∧ len (vk_host s' al) = size;
  (** [memcpy] changes what the host sees; a flush shows it to the device, an
      invalidation shows the host what the device has made available to it. *)
  store_call : ∀ al data s buf s', vk_bound s buf al → len data ≤ len (vk_host s al) →
    vk_call (host_store al data) s = (tt, s') →
    vk_bound s' buf al ∧ vk_host s' al = data ++ drop (length data) (vk_host s al);
  flush_call : ∀ a al s buf s', vk_bound s buf al →
    vk_call (vmaFlushAllocation a al) s = (VK_SUCCESS, s') →
    vk_bound s' buf al ∧ vk_memory s' buf = vk_host s al;
  invalidate_call : ∀ a al s buf s', vk_bound s buf al →
    vk_call (vmaInvalidateAllocation a al) s = (VK_SUCCESS, s') →
    vk_bound s' buf al ∧ len (vk_host s' al) = len (vk_host s al) ∧
    (vk_available s buf → vk_host s' al = vk_memory s buf);
  create_image_call : ∀ a f width height usage s img al s',
    vk_call (vmaCreateImage a f width height usage) s = ((VK_SUCCESS, (img, al)), s') →
    vk_extent s' img = (width, height) ∧ len (vk_content s' img) = format_bytes f * (width * height);
  resize_call : ∀ n s, same_images s (vk_call (host_resize n) s).2;
  load_call : ∀ al n s, (vk_call (host_load al n) s).1 = take (Z.to_nat n) (vk_host s al);
  begin_call : ∀ cb s s', vk_call (vkBeginCommandBuffer cb) s = (VK_SUCCESS, s') → vk_recorded s' cb = [];
  command_call : ∀ cb c s, vk_recorded (vk_call (vkCmd cb c) s).2 cb = vk_recorded s cb ++ [c];
  end_call : ∀ cb s, vk_recorded (vk_call (vkEndCommandBuffer cb) s).2 cb = vk_recorded s cb;
  fence_call : ∀ d b s cb, vk_recorded (vk_call (vkCreateFence d b) s).2 cb = vk_recorded s cb;
  (** A submission that was waited for has executed its commands in order. *)
  submit_call : ∀ q cb d f t s s1 s2 img buf al,
    vk_call (vkQueueSubmit q cb None f) s = (VK_SUCCESS, s1) →
    vk_call (vkWaitForFences d f t) s1 = (VK_SUCCESS, s2) →
    is_Some (exec_all id img buf (vk_recorded s cb) (cell_of s img buf)) →
    (∃ junk, (∀ l, length (junk l) = length l) ∧
       exec_all junk img buf (vk_recorded s cb) (cell_of s img buf) = Some (cell_of s2 img buf)) ∧
    (vk_bound s buf al → vk_bound s2 buf al ∧ len (vk_host s2 al) = len (vk_host s al))
}.

(** ** Submissions and their effect *)

Section Effects.
Context {D : VkDriver} {M : VkMemory D} {L : VkMemoryLaws D M}.

#[global] Instance same_memory_preorder : PreOrder same_memory.
Proof.
  split.
  - intros s. unfold same_memory, same_images. naive_solver.
  - intros s1 s2 s3 (Hi & Hm & Hh & Hb) (Hi' & Hm' & Hh' & Hb'). split_and!.
    + intros img. destruct (Hi img) as (? & ? & ?), (Hi' img) as (? & ? & ?). split_and!; congruence.
    + intros buf. by rewrite Hm', Hm.
    + intros a. by rewrite Hh', Hh.
    + intros buf a Hx. by apply Hb', Hb.
Qed.

Lemma same_memory_cell s s' img buf : same_memory s s' → cell_of s' img buf = cell_of s img buf.
Proof.
  intros (Hi & Hm & _). destruct (Hi img) as (E1 & E2 & E3). unfold cell_of. by rewrite E1, E2, E3, Hm.
Qed.

(** A quiet call leads to a state with the same memory and objects. *)
Lemma called_quiet {A} (c : VkCall A) w :
  quiet c = true → same_memory (w_driver w) (w_driver (called c w)) ∧ untouched w (called c w).
Proof. intros Hq. rewrite called_driver. split; [by apply quiet_call|apply called_rest]. Qed.

(** Recording appends to the command buffer. *)
Lemma record_all_exact cmds cb w :
  after (record_all cmds cb) w (λ o w', o = Ret tt ∧ untouched w w' ∧
    same_memory (w_driver w) (w_driver w') ∧
    vk_recorded (w_driver w') cb = vk_recorded (w_driver w) cb ++ cmds).
Proof.
  revert w. induction cmds as [|c cmds IH]; intros w.
  { apply after_ret. by rewrite app_nil_r. }
  simpl. apply after_vk. eapply after_mono; [apply IH|].
  intros o w' (-> & Hu & Hm & Hr). destruct (called_quiet (vkCmd cb c) w eq_refl) as [Hm1 Hu1].
  split_and!; [done|by etrans|by etrans|].
  by rewrite Hr, called_driver, command_call, <-(assoc_L (++)).
Qed.

(** The plane is there. *)
Definition has_plane (p : nat) (w : World D) : Prop := ∃ pl, w_planes w !! p = Some (Some pl).

Lemma has_plane_untouched p w w' : untouched w w' → has_plane p w → has_plane p w'.
Proof. intros (E & _) (pl & H). exists pl. by rewrite E. Qed.

(** What [m] may change: the planes' pools, and the driver. *)
Definition kept (p : nat) (w w' : World D) : Prop := has_plane p w' ∧ w_images w' = w_images w.

(** The objects and the memory are those of [w]. *)
Definition calm (w w' : World D) : Prop := untouched w w' ∧ same_memory (w_driver w) (w_driver w').

#[global] Instance calm_preorder : PreOrder calm.
Proof. split; [done|]. intros x y z [? ?] [? ?]. split; by etrans. Qed.

Lemma calm_call {A} (c : VkCall A) w0 w : quiet c = true → calm w0 w → calm w0 (called c w).
Proof. intros Hq Hc. trans w; [done|]. destruct (called_quiet c w Hq). by split. Qed.

(** A checked call that is quiet. *)
Lemma step_result {B} (c : VkCall VkResult) op (f : VkResult → vkm B) w0 w (Q : outcome B → World D → Prop) :
  quiet c = true → calm w0 w →
  (∀ what w', calm w0 w' → call_refused w' → Q (Raise what) w') →
  (reply c w = VK_SUCCESS → calm w0 (called c w) → after (f (reply c w)) (called c w) Q) →
  after (r ← vk c; _ ← check_vk_named r op; f r) w Q.
Proof.
  intros Hq Hc Hf Hs. apply (calm_call c w0 w Hq) in Hc. apply after_vk, after_named; intros E; [by apply Hs|].
  apply Hf; [done|]. by apply result_refused.
Qed.

Lemma step_created {B} (c : VkCall (VkResult * VkHandle)) op (f : VkResult * VkHandle → vkm B) w0 w
    (Q : outcome B → World D → Prop) :
  quiet c = true → calm w0 w →
  (∀ what w', calm w0 w' → call_refused w' → Q (Raise what) w') →
  (calm w0 (called c w) → after (f (reply c w)) (called c w) Q) →
  after (r ← vk c; _ ← check_vk_named r.1 op; f r) w Q.
Proof.
  intros Hq Hc Hf Hs. apply (calm_call c w0 w Hq) in Hc. apply after_vk, after_named; intros E; [by apply Hs|].
  apply Hf; [done|]. by apply creation_refused.
Qed.

(** The submission of recorded commands, and the wait. *)
Lemma submitted_effect q cb d fence img buf al cmds w0 w (c := vkQueueSubmit q cb None fence)
    (c' := vkWaitForFences d fence size_max) :
  calm w0 w → vk_recorded (w_driver w) cb = cmds →
  is_Some (exec_all id img buf cmds (cell_of (w_driver w0) img buf)) →
  reply c w = VK_SUCCESS → reply c' (called c w) = VK_SUCCESS →
  (∃ junk, (∀ l, length (junk l) = length l) ∧
    exec_all junk img buf cmds (cell_of (w_driver w0) img buf)
    = Some (cell_of (w_driver (called c' (called c w))) img buf)) ∧
  (vk_bound (w_driver w0) buf al → vk_bound (w_driver (called c' (called c w))) buf al ∧
     len (vk_host (w_driver (called c' (called c w))) al) = len (vk_host (w_driver w0) al)).
Proof.
  intros [Hu Hm] Hr Hex Hs Hs'.
  destruct (submit_call q cb d fence size_max (w_driver w) (w_driver (called c w))
    (w_driver (called c' (called c w))) img buf al) as [(junk & Hj & Hx) Hb].
  - by rewrite <-Hs, <-called_eq.
  - by rewrite <-Hs', <-called_eq.
  - by rewrite Hr, (same_memory_cell (w_driver w0)).
  - rewrite Hr, (same_memory_cell (w_driver w0)) in Hx by done.
    destruct Hm as (_ & _ & Hh & Hbd). split; [by exists junk|]. intros [? Hlen]%Hbd%Hb. split; [done|]. by rewrite Hlen, Hh.
Qed.

Lemma submit_on_effect pl pool img buf al cmds w :
  is_Some (exec_all id img buf cmds (cell_of (w_driver w) img buf)) →
  after (submit_on pl pool (record_all cmds)) w (λ o w', untouched w w' ∧ match o with
    | Ret _ => (∃ junk, (∀ l, length (junk l) = length l) ∧
        exec_all junk img buf cmds (cell_of (w_driver w) img buf) = Some (cell_of (w_driver w') img buf)) ∧
        (vk_bound (w_driver w) buf al → vk_bound (w_driver w') buf al ∧
           len (vk_host (w_driver w') al) = len (vk_host (w_driver w) al))
    | Raise _ => call_refused w'
    | _ => False
    end).
Proof.
  intros Hex. unfold submit_on. assert (calm w w) as Hc by done. revert Hc. generalize w at 2 3.
  intros w1 Hc. apply step_created with (w0 := w); [done|done|intros ? ? []; done|].
  generalize (reply (vkAllocateCommandBuffers (device_ pl) pool) w1).2 as cb.
  generalize (called (vkAllocateCommandBuffers (device_ pl) pool) w1). clear w1 Hc. intros w1 cb Hc.
  apply step_result with (w0 := w); [done|done|intros ? ? []; done|]. clear Hc. intros Hs Hc.
  assert (vk_recorded (w_driver (called (vkBeginCommandBuffer cb) w1)) cb = []) as Hr.
  { apply (begin_call cb (w_driver w1)). by rewrite called_eq, Hs. }
  generalize dependent (called (vkBeginCommandBuffer cb) w1). clear w1 Hs. intros w1 Hc Hr.
  apply after_bind. eapply after_mono; [apply record_all_exact|].
  intros o w2 (-> & Hu & Hm & Hr2). rewrite Hr in Hr2. simpl in Hr2.
  assert (calm w w2) as Hc2 by (trans w1; [done|by split]). clear w1 Hr Hu Hm Hc.
  apply step_result with (w0 := w); [done|done|intros ? ? []; done|]. clear Hc2. intros _ Hc.
  rewrite <-(end_call cb (w_driver w2)), <-called_driver in Hr2.
  generalize dependent (called (vkEndCommandBuffer cb) w2). clear w2. intros w2 Hr Hc.
  apply step_created with (w0 := w); [done|done|intros ? ? []; done|]. clear Hc. intros Hc.
  rewrite <-(fence_call (device_ pl) false (w_driver w2)), <-called_driver in Hr.
  generalize (reply (vkCreateFence (device_ pl) false) w2).2 as fence.
  generalize dependent (called (vkCreateFence (device_ pl) false) w2). clear w2. intros w2 Hr Hc fence.
  apply after_vk. set (c := vkQueueSubmit _ _ _ _).
  assert (untouched w (called c w2)) as Hu3 by (trans w2; [apply Hc|apply called_rest]).
  apply after_named; intros Hs; [|by split; [|by apply result_refused]].
  apply after_vk. set (c' := vkWaitForFences _ _ _).
  assert (untouched w (called c' (called c w2))) as Hu4 by (trans (called c w2); [done|apply called_rest]).
  apply after_named; intros Hs'; [|by split; [|by apply result_refused]].
  destruct (submitted_effect (queue_ pl) cb (device_ pl) fence img buf al cmds w w2 Hc Hr Hex Hs Hs')
    as [(junk & Hj & Hx) Hb]. fold c in Hx, Hb. fold c' in Hx, Hb.
  generalize dependent (called c' (called c w2)). intros w3 Hu Hx Hb.
  apply after_vk, after_last, after_vk, after_ret.
  set (w4 := called _ w3). assert (calm w3 (called (vkFreeCommandBuffers (device_ pl) pool cb) w4)) as [Hu7 Hm7].
  { by apply calm_call, calm_call. }
  pose proof (same_memory_cell _ _ img buf Hm7) as Ecell. destruct Hm7 as (_ & _ & Hh7 & Hb7).
  split; [by trans w3|]. split; [|intros [? Hlen]%Hb; split; [by apply Hb7|by rewrite Hh7]].
  exists junk. split; [done|]. by rewrite Ecell.
Qed.

Lemma pool_effect p w :
  has_plane p w →
  after (command_pool_for_current_thread p) w (λ o w', kept p w w' ∧
    same_memory (w_driver w) (w_driver w') ∧
    match o with Ret _ => True | Raise _ => call_refused w' | _ => False end).
Proof.
  intros (pl & Hp). unfold command_pool_for_current_thread. apply after_bind. unfold after at 1. simpl.
  apply (plane_at_some p pl); [done|]. destruct (command_pools_ pl !! _) as [pool|]; [apply after_ret; by split; [split; [exists pl|]|]|].
  apply after_vk. set (c := vkCreateCommandPool _ _).
  destruct (called_quiet c w eq_refl) as [Hm (Ep & Ei & Et)].
  apply after_named; intros Hs.
  - apply after_bind, after_ret. split; [|done]. split; [|done].
    eexists. simpl. rewrite Ep. apply list_lookup_insert_eq. by eapply lookup_lt_Some.
  - split; [split; [exists pl; by rewrite Ep|done]|]. split; [done|]. by apply creation_refused.
Qed.

(** [submit_immediate] executes the commands its closure records. *)
Lemma submit_effect p img buf al cmds w :
  has_plane p w → is_Some (exec_all id img buf cmds (cell_of (w_driver w) img buf)) →
  after (submit_immediate p (record_all cmds)) w (λ o w', kept p w w' ∧ match o with
    | Ret _ => (∃ junk, (∀ l, length (junk l) = length l) ∧
        exec_all junk img buf cmds (cell_of (w_driver w) img buf) = Some (cell_of (w_driver w') img buf)) ∧
        (vk_bound (w_driver w) buf al → vk_bound (w_driver w') buf al ∧
           len (vk_host (w_driver w') al) = len (vk_host (w_driver w) al))
    | Raise _ => call_refused w'
    | _ => False
    end).
Proof.
  intros Hp Hex. unfold submit_immediate. apply after_bind. eapply after_mono; [by apply pool_effect|].
  intros [pool|what| |] w1 ([[pl Hpl] Hi] & Hm & H); try done; [|by split; [split; [exists pl|]|]].
  apply (plane_at_some p pl); [done|]. pose proof (same_memory_cell _ _ img buf Hm) as Ec.
  eapply after_mono; [apply (submit_on_effect pl pool img buf al cmds w1); by rewrite Ec|].
  rewrite Ec. intros o w2 [(Ep & Ei & _) Ho].
  split; [split; [exists pl; by rewrite Ep|by rewrite Ei]|]. destruct o; [|done..].
  destruct Ho as [Hx Hb], Hm as (_ & _ & Hh & Hbd).
  split; [done|]. intros [? Hlen]%Hbd%Hb. split; [done|by rewrite Hlen, Hh].
Qed.

(** ** The staging buffer *)

Lemma images_untouched {A} (c : VkCall A) w : host_side c = true →
  same_images (w_driver w) (w_driver (called c w)) ∧ untouched w (called c w).
Proof. intros Hq. rewrite called_driver. split; [by apply host_side_call|apply called_rest]. Qed.

#[global] Instance same_images_preorder : PreOrder same_images.
Proof.
  split; [done|]. intros s1 s2 s3 H H' img. destruct (H img) as (? & ? & ?), (H' img) as (? & ? & ?).
  split_and!; congruence.
Qed.

Lemma after_checked {B} (r : VkResult) op (f : unit → vkm B) w (Q : outcome B → World D → Prop) :
  (r = VK_SUCCESS → after (f tt) w Q) → (r ≠ VK_SUCCESS → Q (Raise op) w) →
  after (check_vk r op ≫= f) w Q.
Proof. intros Hs Hf. apply after_bind. unfold check_vk. case_decide; [by apply Hs|by apply Hf]. Qed.

Lemma make_staging_effect p size usage w :
  has_plane p w →
  after (make_staging p size usage) w (λ o w', match o with
    | Ret s => untouched w w' ∧ same_images (w_driver w) (w_driver w') ∧
        vk_bound (w_driver w') (sb_buffer s) (sb_allocation s) ∧
        len (vk_memory (w_driver w') (sb_buffer s)) = size ∧
        len (vk_host (w_driver w') (sb_allocation s)) = size
    | Raise _ => call_refused w'
    | _ => False
    end).
Proof.
  intros (pl & Hp). unfold make_staging. apply (plane_at_some p pl); [done|].
  apply after_vk. set (c := vmaCreateBuffer _ _ _). destruct (images_untouched c w eq_refl) as [Him Hu].
  apply after_checked; intros Hs; [|by apply creation_refused].
  pose proof (called_eq c w) as Ec. destruct (reply c w) as [r [[buf al] mapped]] eqn:Er. simpl in Hs. subst r.
  apply create_buffer_bound in Ec as (Hb & Hm & Hh). simpl. apply after_bind.
  destruct mapped; [by apply after_ret|]. apply after_vk. set (c' := vmaMapMemory _ _).
  destruct (called_quiet c' (called c w) eq_refl) as [(Him' & Hm' & Hh' & Hb') Hu'].
  apply after_last, after_checked; intros Hs; [|by apply result_refused].
  apply after_ret, after_ret. simpl. rewrite Hm', Hh'. split_and!; [by etrans|by etrans|auto..].
Qed.

Lemma destroy_staging_effect s w :
  after (destroy_staging s) w (λ o w', o = Ret tt ∧ untouched w w' ∧
    same_images (w_driver w) (w_driver w') ∧ (call_refused w → call_refused w')).
Proof.
  unfold destroy_staging, when_held. destruct (_ =? _); [done|].
  apply after_last, after_vk, after_ret. set (c := vmaDestroyBuffer _ _ _).
  destruct (images_untouched c w eq_refl) as [Him Hu]. destruct (reply c w).
  split_and!; [done..|apply called_refused].
Qed.

(** ** Uploads and downloads *)

(** The image [i] is [im], and the driver's image fits it: its extent, its size, and its
    layout, if it was used before. *)
Record image_ok (i : nat) (im : VulkanImage) (w : World D) : Prop := {
  ok_image : w_images w !! i = Some (Some im);
  ok_plane : has_plane (plane_ im) w;
  ok_extent : vk_extent (w_driver w) (image_ im) = region im;
  ok_content : len (vk_content (w_driver w) (image_ im)) = size_bytes_ im;
  ok_staging : len (staging_ im) = size_bytes_ im;
  ok_layout : current_layout_ im = LAYOUT_UNDEFINED ∨
              current_layout_ im = vk_layout (w_driver w) (image_ im)
}.

Definition tracked (old : VkImageLayout) (x : cell) : Prop :=
  old = LAYOUT_UNDEFINED ∨ old = c_layout x.

(** A transition from the tracked layout. *)
Lemma exec_transition junk img buf old new cs x :
  tracked old x → (∀ l, length (junk l) = length l) → new ≠ LAYOUT_UNDEFINED →
  ∃ content, length content = length (c_content x) ∧
    (old ≠ LAYOUT_UNDEFINED → content = c_content x) ∧
    exec_all junk img buf (transition_image img old new ++ cs) x
    = exec_all junk img buf cs (mkCell new (c_extent x) content (c_memory x)).
Proof.
  intros Ht Hj Hnew. unfold transition_image. case_decide as E.
  { subst old. exists (c_content x). destruct Ht as [?|Ht]; [done|]. rewrite Ht. by destruct x. }
  simpl. rewrite Z.eqb_refl. simpl. case_decide as Eu.
  - exists (junk (c_content x)). by rewrite Hj.
  - destruct Ht as [?|Ht]; [done|]. exists (c_content x). by rewrite decide_True.
Qed.

Lemma exec_upload junk im buf x :
  tracked (current_layout_ im) x → (∀ l, length (junk l) = length l) → c_extent x = region im →
  len (c_content x) <= len (c_memory x) →
  exec_all junk (image_ im) buf (upload_commands im buf) x
  = Some (mkCell LAYOUT_GENERAL (c_extent x) (take (length (c_content x)) (c_memory x)) (c_memory x)).
Proof.
  intros Ht Hj He Hl. unfold upload_commands.
  destruct (exec_transition junk (image_ im) buf _ LAYOUT_TRANSFER_DST_OPTIMAL
    ([vkCmdCopyBufferToImage buf (image_ im) LAYOUT_TRANSFER_DST_OPTIMAL (region im).1 (region im).2] ++
     transition_image (image_ im) LAYOUT_TRANSFER_DST_OPTIMAL LAYOUT_GENERAL) x Ht Hj)
    as (content & Hc & _ & ->); [done|]. simpl. rewrite !Z.eqb_refl, He. simpl.
  rewrite !bool_decide_eq_true_2 by first [done|by destruct (region im)]. simpl.
  replace (len content) with (len (c_content x)) by (unfold len; by rewrite Hc).
  rewrite (proj2 (Z.leb_le _ _) Hl). simpl. by rewrite Hc.
Qed.

Lemma exec_download junk im buf x :
  tracked (current_layout_ im) x → (∀ l, length (junk l) = length l) → c_extent x = region im →
  len (c_content x) <= len (c_memory x) →
  ∃ content, length content = length (c_content x) ∧
    (current_layout_ im ≠ LAYOUT_UNDEFINED → content = c_content x) ∧
    exec_all junk (image_ im) buf (download_commands im buf) x
    = Some (mkCell LAYOUT_GENERAL (c_extent x) content
              (content ++ drop (length content) (c_memory x))).
Proof.
  intros Ht Hj He Hl. unfold download_commands.
  destruct (exec_transition junk (image_ im) buf _ LAYOUT_TRANSFER_SRC_OPTIMAL
    ([vkCmdCopyImageToBuffer (image_ im) LAYOUT_TRANSFER_SRC_OPTIMAL buf (region im).1 (region im).2] ++
     transition_image (image_ im) LAYOUT_TRANSFER_SRC_OPTIMAL LAYOUT_GENERAL) x Ht Hj)
    as (content & Hc & Hd & ->); [done|]. exists content. split; [done|]. split; [done|].
  simpl. rewrite !Z.eqb_refl, He. simpl.
  rewrite !bool_decide_eq_true_2 by first [done|by destruct (region im)]. simpl.
  replace (len content) with (len (c_content x)) by (unfold len; by rewrite Hc).
  by rewrite (proj2 (Z.leb_le _ _) Hl).
Qed.

Lemma image_at_some {B} i im (f : VulkanImage → vkm B) w (Q : outcome B → World D → Prop) :
  w_images w !! i = Some (Some im) → after (f im) w Q → after (image_at i ≫= f) w Q.
Proof. intros E H. apply after_bind. unfold after, image_at at 1. simpl. by rewrite E. Qed.

(** Moving an [image_ok] along: other objects untouched and images the same, or a new
    value for the image. *)
Lemma image_ok_keep i im w w' :
  image_ok i im w → w_images w' = w_images w → has_plane (plane_ im) w' →
  same_images (w_driver w) (w_driver w') → image_ok i im w'.
Proof.
  intros [Hi Hp He Hc Hs Hl] Ei Hp' Hsame. destruct (Hsame (image_ im)) as (E1 & E2 & E3).
  split; [by rewrite Ei|done|by rewrite E2|by rewrite E3|done|by rewrite E1].
Qed.

(** [m] returns with [P] of the final state, or a call has failed. *)
Definition achieves {A} (m : vkm A) (w : World D) (P : World D → Prop) : Prop :=
  after m w (λ o w', match o with Ret _ => P w' | Raise _ => call_refused w' | _ => False end).

Lemma achieves_bind {A B} (m : vkm A) (f : A → vkm B) w P P' :
  achieves m w P → (∀ a w', P w' → achieves (f a) w' P') → achieves (m ≫= f) w P'.
Proof.
  intros Hm Hf. unfold achieves in Hm. apply after_bind. eapply after_mono; [exact Hm|].
  intros [a|what| |] w' H; [by apply Hf|done..].
Qed.

(** The contents and the record of image [i]. *)
Definition image_is (i : nat) (im : VulkanImage) (content : bytes) (w : World D) : Prop :=
  image_ok i im w ∧ vk_content (w_driver w) (image_ im) = content.

Lemma image_is_keep i im content w w' :
  image_is i im content w → untouched w w' → same_images (w_driver w) (w_driver w') →
  image_is i im content w'.
Proof.
  intros [Hok Hc] Hu Him. split.
  - apply (image_ok_keep _ _ w); [done|apply Hu|eapply has_plane_untouched; [done|apply Hok]|done].
  - destruct (Him (image_ im)) as (_ & _ & ->). done.
Qed.

Lemma achieves_scoped (m : vkm unit) sb w (P : World D → Prop) :
  (∀ w w', P w → untouched w w' → same_images (w_driver w) (w_driver w') → P w') →
  achieves m w P → achieves (scoped m (destroy_staging sb)) w P.
Proof.
  intros HP Hm. unfold achieves in Hm. apply after_scoped. eapply after_mono; [exact Hm|].
  intros [a|what| |] w' H; try done; (eapply after_mono; [apply destroy_staging_effect|]);
    intros o w'' (-> & Hu & Him & Hr); (split; [done|]); [by eapply HP|by apply Hr].
Qed.

(** The image after a submission that left it in the general layout. *)
Lemma image_is_submitted i im staging content memory buf w w' :
  image_ok i im w → kept (plane_ im) w w' → len content = size_bytes_ im → len staging = size_bytes_ im →
  mkCell LAYOUT_GENERAL (region im) content memory = cell_of (w_driver w') (image_ im) buf →
  let im' := set_staging (set_layout im LAYOUT_GENERAL) staging in
  image_is i im' content (with_images w' (<[i := Some im']> (w_images w'))).
Proof.
  intros [Hi _ _ _ _ _] [(pl & Hp) Ei] Hc Hst Ex. unfold cell_of in Ex. injection Ex as El Ee Ec _.
  split; [split; simpl|by simpl].
  - apply list_lookup_insert_eq. rewrite Ei. by eapply lookup_lt_Some.
  - by exists pl.
  - by rewrite <-Ee.
  - by rewrite <-Ec.
  - done.
  - by right.
Qed.

(** From the written staging memory on. *)
Lemma upload_submitted i im sb w :
  image_ok i im w → vk_memory (w_driver w) (sb_buffer sb) = staging_ im →
  achieves (_ ← submit_immediate (plane_ im) (record_all (upload_commands im (sb_buffer sb)));
            set_image i (set_layout im LAYOUT_GENERAL)) w
    (image_is i (set_layout im LAYOUT_GENERAL) (staging_ im)).
Proof.
  intros Hok Hm. pose proof Hok as [Hi Hp He Hc Hsz Hl].
  set (x := cell_of (w_driver w) (image_ im) (sb_buffer sb)).
  assert (∀ junk, (∀ l, length (junk l) = length l) →
    exec_all junk (image_ im) (sb_buffer sb) (upload_commands im (sb_buffer sb)) x
    = Some (mkCell LAYOUT_GENERAL (region im) (staging_ im) (staging_ im))) as Hx.
  { intros junk Hj. rewrite exec_upload; [|done|done|done|].
    - simpl. rewrite Hm, He, take_ge; [done|]. unfold len in *. lia.
    - simpl. rewrite Hm. lia. }
  apply after_bind. eapply after_mono;
    [apply (submit_effect _ (image_ im) (sb_buffer sb) (sb_allocation sb)); [done|]|].
  { fold x. by rewrite Hx. }
  intros [[]|what| |] w2 [Hk Ho]; try done.
  destruct Ho as [(junk & Hj & Ex) _]. fold x in Ex. rewrite Hx in Ex by done. apply (inj Some) in Ex.
  unfold after. simpl. pose proof (image_is_submitted i im (staging_ im) _ _ _ w w2 Hok Hk Hsz Hsz Ex) as H.
  by destruct im.
Qed.

(** The staging memory is written and flushed. *)
Lemma staged i im sb (k : vkm unit) w P :
  image_ok i im w → vk_bound (w_driver w) (sb_buffer sb) (sb_allocation sb) →
  len (vk_host (w_driver w) (sb_allocation sb)) = size_bytes_ im →
  (∀ w', image_ok i im w' → vk_memory (w_driver w') (sb_buffer sb) = staging_ im → achieves k w' P) →
  achieves (_ ← vk (host_store (sb_allocation sb) (staging_ im));
     pl ← plane_at (plane_ im);
     flushed ← vk (vmaFlushAllocation (allocator_ pl) (sb_allocation sb));
     _ ← check_vk flushed "vmaFlushAllocation"; k) w P.
Proof.
  intros Hok Hb Hh Hk. pose proof (ok_staging _ _ _ Hok) as Hst. apply after_vk.
  set (c := host_store (sb_allocation sb) (staging_ im)).
  destruct (images_untouched c w eq_refl) as [Him Hu].
  destruct (store_call (sb_allocation sb) (staging_ im) (w_driver w) (sb_buffer sb) (w_driver (called c w)))
    as [Hb1 Hh1]; [done|lia|by rewrite called_eq; destruct (reply _ _)|].
  rewrite drop_ge, app_nil_r in Hh1 by (unfold len in *; lia).
  destruct (image_is_keep i im _ w (called c w) (conj Hok eq_refl) Hu Him) as [Hok1 _].
  destruct (ok_plane _ _ _ Hok1) as (pl & Hpl). apply (plane_at_some (plane_ im) pl); [done|].
  apply after_vk. set (c' := vmaFlushAllocation _ _).
  destruct (images_untouched c' (called c w) eq_refl) as [Him' Hu'].
  apply after_checked; intros Hs; [|by apply result_refused].
  destruct (flush_call (allocator_ pl) (sb_allocation sb) (w_driver (called c w)) (sb_buffer sb)
    (w_driver (called c' (called c w)))) as [Hb2 Hm2]; [done|by rewrite <-Hs, <-called_eq|].
  apply Hk; [|by rewrite Hm2]. by destruct (image_is_keep i im _ _ _ (conj Hok1 eq_refl) Hu' Him').
Qed.

Lemma upload_effect i im w :
  image_ok i im w →
  achieves (upload_from_staging i) w (image_is i (set_layout im LAYOUT_GENERAL) (staging_ im)).
Proof.
  intros Hok. pose proof Hok as [Hi Hp _ _ Hst _]. unfold upload_from_staging.
  apply (image_at_some i im); [done|]. apply after_bind.
  eapply after_mono; [by apply make_staging_effect|]. intros [sb|what| |] w1; try done.
  intros (Hu & Him & Hb & Hm & Hh).
  destruct (image_is_keep i im _ w w1 (conj Hok eq_refl) Hu Him) as [Hok1 _].
  apply achieves_scoped; [by apply image_is_keep|]. apply (staged i); [done|done|done|]. intros w2 Hok2 Hm2. by apply upload_submitted.
Qed.

(** The device makes what it wrote available to the host by itself.  Vulkan promises
    that only after a barrier to the host, and a download records none. *)
Definition host_visible : Prop := ∀ s buf, vk_available s buf.

(** What a download leaves: on the device the contents of the image, unless it was never
    written, and in the record the bytes that reached the host. *)
Definition downloaded (i : nat) (im : VulkanImage) (content : bytes) (w : World D) : Prop :=
  ∃ data seen, (current_layout_ im ≠ LAYOUT_UNDEFINED → data = content) ∧ (host_visible → seen = data) ∧
    image_is i (set_staging (set_layout im LAYOUT_GENERAL) seen) data w.

(** The memory of the staging buffer is fetched. *)
Lemma fetched i im sb staging data w :
  image_is i (set_staging (set_layout im LAYOUT_GENERAL) staging) data w →
  len data = size_bytes_ im → len (staging_ im) = size_bytes_ im →
  vk_bound (w_driver w) (sb_buffer sb) (sb_allocation sb) →
  vk_memory (w_driver w) (sb_buffer sb) = data → len (vk_host (w_driver w) (sb_allocation sb)) = size_bytes_ im →
  achieves (pl ← plane_at (plane_ im);
     invalidated ← vk (vmaInvalidateAllocation (allocator_ pl) (sb_allocation sb));
     _ ← check_vk invalidated "vmaInvalidateAllocation";
     data ← vk (host_load (sb_allocation sb) (len (staging_ im)));
     set_image i (set_staging (set_layout im LAYOUT_GENERAL) data)) w
    (λ w', ∃ seen, (host_visible → seen = data) ∧ image_is i (set_staging (set_layout im LAYOUT_GENERAL) seen) data w').
Proof.
  intros His Hd Hst Hb Hm Hhost. destruct (ok_plane _ _ _ (proj1 His)) as (pl & Hpl).
  apply (plane_at_some (plane_ im) pl); [done|].
  apply after_vk. set (c := vmaInvalidateAllocation _ _). destruct (images_untouched c w eq_refl) as [Him Hu].
  apply after_checked; intros Hs; [|by apply result_refused].
  destruct (invalidate_call (allocator_ pl) (sb_allocation sb) (w_driver w) (sb_buffer sb) (w_driver (called c w)))
    as (Hb1 & Hl1 & Hh1); [done|by rewrite <-Hs, <-called_eq|].
  apply (image_is_keep _ _ _ w (called c w)) in His; [|done..].
  apply after_vk. set (c' := host_load _ _). destruct (called_quiet c' (called c w) eq_refl) as [[Him' _] Hu'].
  apply (image_is_keep _ _ _ _ (called c' (called c w))) in His; [|done..].
  assert (reply c' (called c w) = vk_host (w_driver (called c w)) (sb_allocation sb)) as ->.
  { unfold reply, c'. rewrite load_call. apply take_ge. unfold len in *. lia. }
  destruct His as [[Hi Hp He Hc Hs' Hl] Hcont]. unfold after. simpl.
  exists (vk_host (w_driver (called c w)) (sb_allocation sb)). split; [intros Hv; by rewrite Hh1|].
  split; [split; simpl|done]; try done; [|by rewrite Hl1].
  apply list_lookup_insert_eq. by eapply lookup_lt_Some.
Qed.

Lemma download_effect i im w :
  image_ok i im w →
  achieves (download_to_staging i) w (downloaded i im (vk_content (w_driver w) (image_ im))).
Proof.
  intros Hok. pose proof Hok as [Hi Hp _ _ Hst _]. unfold download_to_staging.
  apply (image_at_some i im); [done|]. apply after_bind.
  eapply after_mono; [by apply make_staging_effect|]. intros [sb|what| |] w1; try done.
  intros (Hu & Him & Hb & Hm & Hh).
  destruct (image_is_keep i im _ w w1 (conj Hok eq_refl) Hu Him) as [Hok1 <-].
  apply achieves_scoped.
  { intros w2 w3 (data & seen & Hd & Hv & His) Hu2 Him2. exists data, seen. split_and!; [done..|]. by eapply image_is_keep. }
  pose proof Hok1 as [_ Hp1 He Hc _ Hl]. clear w Hok Hi Hp Hu Him.
  set (x := cell_of (w_driver w1) (image_ im) (sb_buffer sb)).
  assert (len (c_content x) <= len (c_memory x)) as Hle by (simpl; lia).
  apply after_bind. eapply after_mono;
    [apply (submit_effect _ (image_ im) (sb_buffer sb) (sb_allocation sb)); [done|]|].
  { destruct (exec_download id im (sb_buffer sb) x Hl (λ l, eq_refl) He Hle) as (? & _ & _ & Ex).
    fold x. by rewrite Ex. }
  intros [[]|what| |] w2 [Hk Ho]; try done. destruct Ho as [(junk & Hj & Ex) Hb2]. destruct (Hb2 Hb) as [Hb3 Hlen2].
  destruct (exec_download junk im (sb_buffer sb) x Hl Hj He Hle) as (data & Hlen & Hdata & Ed).
  fold x in Ex. rewrite Ed in Ex. apply (inj Some) in Ex.
  assert (len data = size_bytes_ im) as Hsize by (simpl in Hlen; unfold len in *; by rewrite Hlen).
  assert (drop (length data) (c_memory x) = []) as Hdrop by (apply drop_ge; simpl; unfold len in *; lia).
  rewrite Hdrop, app_nil_r in Ex. simpl in Ex. rewrite He in Ex.
  pose proof (image_is_submitted i im (staging_ im) data _ _ w1 w2 Hok1 Hk Hsize Hst Ex) as H.
  unfold cell_of in Ex. injection Ex as _ _ _ Emem.
  apply after_bind. unfold after at 1. simpl.
  assert (set_staging (set_layout im LAYOUT_GENERAL) (staging_ im) = set_layout im LAYOUT_GENERAL) as E
    by by destruct im.
  simpl in H. rewrite E in H.
  eapply after_mono; [apply (fetched i im sb (staging_ im) data); [by rewrite E|done|done|done|done|by simpl; rewrite Hlen2]|].
  intros [[]|what| |] w3 H3; try done. destruct H3 as (seen & Hv & H3). exists data, seen. by split_and!.
Qed.

(** ** The lock protocol *)

(** A client locks the image, changes the staged bytes by [f], and unlocks it; what it
    found. *)
Definition visit (i : nat) (access : CpuAccess) (f : bytes → bytes) : vkm bytes :=
  _ ← image_lock_cpu i access;
  im ← image_at i;
  _ ← set_image i (set_staging im (f (staging_ im)));
  _ ← image_unlock_cpu i;
  mret (staging_ im).

Fixpoint visit_all (i : nat) (visits : list (CpuAccess * (bytes → bytes))) : vkm (list bytes) :=
  match visits with
  | [] => mret []
  | (access, f) :: rest =>
      seen ← visit i access f; more ← visit_all i rest; mret (seen :: more)
  end.

(** The specification: an array of bytes, [None] before its first use.  Writing replaces
    its contents by what the writer made of the bytes it was given, reading keeps them;
    what a reader writes is lost.  Readers find the contents if they reach the host. *)
Definition array_visit (access : CpuAccess) (f : bytes → bytes) (seen : bytes) (st st' : option bytes)
    : Prop :=
  match access with
  | AccessRead => ∃ c', st' = Some c' ∧ (∀ c, st = Some c → c' = c) ∧ (host_visible → seen = c')
  | AccessReadWrite => (host_visible → ∀ c, st = Some c → seen = c) ∧ st' = Some (f seen)
  | AccessWrite => st' = Some (f seen)
  end.

Inductive array_visits : list (CpuAccess * (bytes → bytes)) → list bytes → option bytes → option bytes → Prop :=
| visits_nil st : array_visits [] [] st st
| visits_cons access f rest seen more st st1 st2 :
    array_visit access f seen st st1 → array_visits rest more st1 st2 →
    array_visits ((access, f) :: rest) (seen :: more) st st2.

(** The image represents the array. *)
Definition represents (i : nat) (im : VulkanImage) (st : option bytes) (w : World D) : Prop :=
  image_ok i im w ∧ locked_ im = false ∧
  has_usage (usage_ im) usage_CpuRead = true ∧ has_usage (usage_ im) usage_CpuWrite = true ∧
  (∀ c, st = Some c → current_layout_ im ≠ LAYOUT_UNDEFINED ∧ vk_content (w_driver w) (image_ im) = c).

(** Replacing the record of an image by one that still fits. *)
Lemma image_is_set i im im' content w :
  image_is i im content w → plane_ im' = plane_ im → image_ im' = image_ im → region im' = region im →
  size_bytes_ im' = size_bytes_ im → current_layout_ im' = current_layout_ im →
  len (staging_ im') = size_bytes_ im →
  image_is i im' content (with_images w (<[i := Some im']> (w_images w))).
Proof.
  intros [[Hi Hp He Hc Hst Hl] Hcont] E1 E2 E3 E4 E5 E6. split; [split; simpl|].
  - apply list_lookup_insert_eq. by eapply lookup_lt_Some.
  - by rewrite E1.
  - by rewrite E2, E3.
  - by rewrite E2, E4.
  - by rewrite E4.
  - by rewrite E5, E2.
  - simpl. by rewrite E2.
Qed.

Lemma after_vassert {B} (b : bool) (f : unit → vkm B) w (Q : outcome B → World D → Prop) :
  b = true → after (f tt) w Q → after (vassert b ≫= f) w Q.
Proof. intros -> H. by apply after_bind. Qed.

(** Unlocking: a writer's bytes are uploaded. *)
Lemma unlock_effect i im content w :
  image_is i im content w → locked_ im = true →
  achieves (image_unlock_cpu i) w (λ w', ∃ im',
    image_is i im' (match locked_access_ im with AccessRead => content | _ => staging_ im end) w' ∧
    im' = set_lock (match locked_access_ im with AccessRead => im | _ => set_layout im LAYOUT_GENERAL end)
            (locked_access_ im) false).
Proof.
  intros His Hlk. unfold image_unlock_cpu. apply (image_at_some i im); [apply His|].
  apply after_vassert; [done|].
  set (im1 := match locked_access_ im with AccessRead => im | _ => set_layout im LAYOUT_GENERAL end).
  set (c1 := match locked_access_ im with AccessRead => content | _ => staging_ im end).
  assert (locked_access_ im1 = locked_access_ im) as Eacc by (unfold im1; by destruct (locked_access_ im) eqn:E).
  apply (achieves_bind _ _ _ (image_is i im1 c1)).
  { unfold im1, c1. destruct (locked_access_ im); [done|apply upload_effect, His..]. }
  intros _ w1 H1. apply (image_at_some i im1); [apply H1|]. unfold after. simpl.
  exists (set_lock im1 (locked_access_ im) false). split; [|done]. rewrite Eacc.
  apply (image_is_set i im1); try done. apply H1.
Qed.

(** Locking for reading downloads, locking for writing does not. *)
Lemma lock_effect i im access st w :
  represents i im st w →
  achieves (image_lock_cpu i access) w (λ w', ∃ im' content,
    image_is i (set_lock im' access true) content w' ∧ usage_ im' = usage_ im ∧
    (access ≠ AccessWrite → (host_visible → content = staging_ im') ∧ current_layout_ im' = LAYOUT_GENERAL ∧
       ∀ c, st = Some c → content = c)).
Proof.
  intros (Hok & Hlk & Hr & Hw & Hst). unfold image_lock_cpu. apply (image_at_some i im); [apply Hok|].
  apply after_vassert; [by rewrite Hlk|].
  apply (achieves_bind _ _ _ (λ w', ∃ im' content, image_is i im' content w' ∧ usage_ im' = usage_ im ∧
    (access ≠ AccessWrite → (host_visible → content = staging_ im') ∧ current_layout_ im' = LAYOUT_GENERAL ∧
       ∀ c, st = Some c → content = c))).
  - assert (achieves (download_to_staging i) w (λ w', ∃ im' content, image_is i im' content w' ∧
      usage_ im' = usage_ im ∧ (access ≠ AccessWrite → (host_visible → content = staging_ im') ∧
        current_layout_ im' = LAYOUT_GENERAL ∧ ∀ c, st = Some c → content = c))) as Hd.
    { pose proof (download_effect i im w Hok) as H. unfold achieves in H. eapply after_mono; [exact H|].
      intros [|what| |] w' Ho; try done. destruct Ho as (data & seen & Hdata & Hv & His).
      exists (set_staging (set_layout im LAYOUT_GENERAL) seen), data. split; [done|]. split; [done|].
      intros _. split; [by intros ->%Hv|]. split; [done|]. intros c Hc. destruct (Hst c Hc) as [Hne <-]. by apply Hdata. }
    destruct access.
    + by apply after_vassert.
    + apply after_last, after_vassert; [done|]. apply after_ret. exists im, (vk_content (w_driver w) (image_ im)). by split.
    + apply after_vassert; [done|]. by apply after_vassert.
  - intros _ w' (im' & content & His & Hu & Hread). apply (image_at_some i im'); [apply His|].
    unfold after. simpl. exists im', content. split; [|done]. apply (image_is_set i im'); try done. apply His.
Qed.

Lemma visit_effect i im access f st w :
  represents i im st w → (∀ l, length (f l) = length l) →
  after (visit i access f) w (λ o w', match o with
    | Ret seen => ∃ im' st', array_visit access f seen st st' ∧ represents i im' st' w'
    | Raise _ => call_refused w'
    | _ => False
    end).
Proof.
  intros Hrep Hf. unfold visit. apply after_bind.
  pose proof (lock_effect i im access st w Hrep) as H. unfold achieves in H.
  eapply after_mono; [exact H|]. clear H.
  intros [|what| |] w1 Ho; try done. destruct Ho as (im1 & content & His & Hu & Hread).
  destruct Hrep as (_ & _ & Hr & Hw & _). apply (image_at_some i (set_lock im1 access true)); [apply His|].
  set (im2 := set_staging (set_lock im1 access true) (f (staging_ im1))).
  apply after_bind. unfold after at 1. simpl.
  assert (image_is i im2 content (with_images w1 (<[i := Some im2]> (w_images w1)))) as His2.
  { apply (image_is_set i (set_lock im1 access true)); try done. simpl.
    pose proof (ok_staging _ _ _ (proj1 His)) as Hs. unfold len in *. by rewrite Hf. }
  apply after_bind. pose proof (unlock_effect i im2 content _ His2 eq_refl) as H. unfold achieves in H.
  eapply after_mono; [exact H|]. clear H. intros [|what| |] w2 Ho; try done.
  destruct Ho as (im3 & His3 & ->). apply after_ret. simpl in *.
  eexists _, (Some (match access with AccessRead => content | _ => f (staging_ im1) end)). split.
  - destruct access; [|done|]; simpl; destruct (Hread ltac:(done)) as (Hv & _ & Hc).
    + exists content. split_and!; [done|intros; by apply Hc|by intros <-%Hv].
    + split; [|done]. intros V c Hst. rewrite <-(Hv V). by apply Hc.
  - destruct His3 as [Hok3 Hc3]. split; [exact Hok3|]. split_and!; [done|by destruct access; simpl; rewrite Hu..|].
    intros c [= <-]. split; [|done]. destruct access; simpl; try done. by destruct Hread as (_ & -> & _).
Qed.

Lemma visit_all_effect i visits im st w :
  represents i im st w → Forall (λ v, ∀ l, length (v.2 l) = length l) visits →
  after (visit_all i visits) w (λ o w', match o with
    | Ret seen => ∃ im' st', array_visits visits seen st st' ∧ represents i im' st' w'
    | Raise _ => call_refused w'
    | _ => False
    end).
Proof.
  intros Hrep Hv. revert im st w Hrep. induction Hv as [|[access f] visits Hf _ IH]; intros im st w Hrep.
  { apply after_ret. exists im, st. split; [constructor|done]. }
  simpl. apply after_bind. eapply after_mono; [by apply (visit_effect i im access f st)|].
  intros [seen|what| |] w1 Ho; try done. destruct Ho as (im1 & st1 & Ha & Hrep1). apply after_bind.
  eapply after_mono; [by apply (IH im1 st1)|]. intros [more|what| |] w2 Ho; try done.
  destruct Ho as (im2 & st2 & Has & Hrep2). apply after_ret. exists im2, st2. split; [|done].
  by econstructor.
Qed.

(** A two-dimensional layout with packed rows, in a format Vulkan has. *)
Record packed_image (layout : BufferLayout) : Prop := {
  pi_kind : kind layout = Image2D;
  pi_ndim : ndim layout = 2;
  pi_format : to_vk_format (Core.format layout) ≠ VK_FORMAT_UNDEFINED;
  pi_dims : length (dims layout) = 8%nat;
  pi_stride : nth8 (stride layout) 1 = 0;
  pi_range : 0 ≤ nth8 (dims layout) 0 * nth8 (dims layout) 1 < 2 ^ 60;
  pi_width : 0 ≤ nth8 (dims layout) 0;
  pi_height : 0 ≤ nth8 (dims layout) 1
}.

Lemma packed_size layout : packed_image layout →
  size_bytes layout = format_bytes (to_vk_format (Core.format layout)) *
    (nth8 (dims layout) 0 * nth8 (dims layout) 1).
Proof.
  intros [Hk Hn Hf Hd Hs Hr Hw Hh]. unfold size_bytes. rewrite decide_False by congruence. rewrite Hn. simpl.
  change (2 - 1) with 1. rewrite Hs. simpl.
  set (W := nth8 (dims layout) 0) in *. set (H := nth8 (dims layout) 1) in *.
  assert (take (Z.to_nat 2) (dims layout) = [W; H]) as ->.
  { subst W H. unfold nth8. destruct (dims layout) as [|a [|b l]]; simpl in *; try done; lia. }
  assert (bytes_per_pixel (Core.format layout) = format_bytes (to_vk_format (Core.format layout))) as E
    by by destruct (Core.format layout).
  assert (0 < format_bytes (to_vk_format (Core.format layout)) ≤ 16) as Hb
    by by destruct (Core.format layout).
  rewrite E. destruct (_ =? 0) eqn:E0; [apply Z.eqb_eq in E0; lia|]. simpl.
  unfold u64, wrap. set (b := format_bytes _) in *.
  destruct (Z.eq_dec H 0) as [->|HH]; [by rewrite !Z.mul_0_r|].
  assert (W ≤ W * H) by nia. rewrite (Z.mod_small (b * W)) by nia. rewrite Z.mod_small by nia. lia.
Qed.

Lemma make_image_effect p layout usage role w :
  has_plane p w → packed_image layout →
  has_usage usage usage_CpuRead = true → has_usage usage usage_CpuWrite = true →
  after (make_image p layout usage role) w (λ o w', match o with
    | Ret i => ∃ im, represents i im None w'
    | Raise _ => call_refused w'
    | _ => False
    end).
Proof.
  intros (pl & Hp) Hpi Hr Hw. pose proof (packed_size layout Hpi) as Hsize. destruct Hpi as [Hk Hn Hf _ _ Hrange Hw0 Hh0].
  unfold make_image. rewrite Hk, Hn, bool_decide_eq_true_2, bool_decide_eq_false_2 by done. simpl.
  apply (plane_at_some p pl); [done|]. apply after_vk. set (c := vmaCreateImage _ _ _ _ _).
  apply after_checked; intros Hs; [|by apply creation_refused].
  pose proof (called_eq c w) as Ec. destruct (reply c w) as [r [img al]] eqn:Er. simpl in Hs. subst r.
  apply create_image_call in Ec as [Hext Hlen]. apply after_bind. unfold resized.
  pose proof (called_rest c w) as (Ep & Ei & _).
  apply after_vk. set (c' := host_resize _). pose proof (called_rest c' (called c w)) as (Ep' & Ei' & _).
  assert (same_images (w_driver (called c w)) (w_driver (called c' (called c w)))) as Hsame
    by (rewrite (called_driver c'); apply resize_call).
  destruct (reply c' (called c w)) eqn:Eok; [|].
  2:{ change (call_refused (called c' (called c w))). unfold call_refused. rewrite called_log, Eok. left. constructor. }
  apply after_ret. unfold after. simpl. destruct (Hsame img) as (E1 & E2 & E3).
  exists (mkImage p layout usage role (Some (initial_metadata role)) img al (to_vk_format (Core.format layout))
    LAYOUT_UNDEFINED (size_bytes layout) (replicate (Z.to_nat (size_bytes layout)) 0) AccessRead false).
  split_and!; [split; simpl|done|done|done|done].
  - by apply list_lookup_middle.
  - exists pl. simpl. by rewrite Ep', Ep.
  - by rewrite E2, Hext.
  - by rewrite E3, Hlen, Hsize.
  - unfold len. rewrite length_replicate. apply Z2Nat.id. rewrite Hsize.
    assert (0 ≤ format_bytes (to_vk_format (Core.format layout))) by by destruct (to_vk_format _). nia.
  - by left.
Qed.

(** C28: an image of packed rows made on a device is the array of bytes that the lock
    protocol promises: over any sequence of locks, changes and unlocks, the device holds
    what was written last, reading does not change it, whatever the layouts the image
    goes through, and after every step the recorded layout is that of the device; the
    sequence ends, or a call of this run was refused and its exception leaves.  Readers
    find these contents if what the device wrote reaches the host, which Vulkan promises
    only after a barrier to the host; the download records none.  The rows are packed:
    padded ones are uploaded and downloaded at the wrong offsets. *)
Theorem image_life_exact p layout usage role visits w :
  w_log w = [] → has_plane p w → packed_image layout →
  has_usage usage usage_CpuRead = true → has_usage usage usage_CpuWrite = true →
  Forall (λ v, ∀ l, length (v.2 l) = length l) visits →
  after (i ← make_image p layout usage role; seen ← visit_all i visits; mret (i, seen)) w
    (λ o w', match o with
    | Ret (i, seen) => ∃ im st, array_visits visits seen None st ∧ represents i im st w'
    | Raise _ => call_refused w'
    | _ => False
    end).
Proof.
  intros _ Hp Hpi Hr Hw Hv. apply after_bind. eapply after_mono; [by apply make_image_effect|].
  intros [i|what| |] w1 Ho; try done. destruct Ho as (im & Hrep). apply after_bind.
  eapply after_mono; [by apply (visit_all_effect i visits im None)|].
  by intros [seen|what| |] w2 Ho.
Qed.

(** ** Recordings and the ledger *)

Lemma record_all_recording cmds : recording (record_all cmds).
Proof.
  intros cb. induction cmds as [|c cmds IH]; intros w; [done|]. simpl. apply after_vk.
  eapply after_mono; [apply IH|]. intros o w' [-> Hs]. split; [done|].
  trans (called (vkCmd cb c) w); [|done]. pose proof (called_rest (vkCmd cb c) w) as (? & ? & ? & ?).
  split_and!; [by rewrite called_ledger|done..|]. rewrite called_log. by apply suffix_cons_r.
Qed.

(** A staging buffer whose mapping fails is never destroyed: the constructor throws, so
    the destructor does not run. *)
Lemma staging_leak p pl size usage w l :
  w_planes w !! p = Some (Some pl) → owns w l →
  let c := vmaCreateBuffer (allocator_ pl) size usage in
  (reply c w).1 = VK_SUCCESS → (reply c w).2.2 = false →
  reply (vmaMapMemory (allocator_ pl) (reply c w).2.1.2) (called c w) ≠ VK_SUCCESS →
  after (make_staging p size usage) w (λ o w',
    o = Raise "vmaMapMemory" ∧ owns w' (Res KBuffer (allocator_ pl) (reply c w).2.1.1 :: l)).
Proof.
  intros Hp Ho c Hs Hmapped Hmap. unfold make_staging. apply (plane_at_some p pl); [done|].
  apply after_vk, after_checked; [intros _|done]. fold c.
  assert (owns (called c w) (Res KBuffer (allocator_ pl) (reply c w).2.1.1 :: l)) as Ho1.
  { apply owns_acquire; [done| |done]. unfold acquired, c, made. simpl. by rewrite decide_True. }
  destruct (reply c w) as [r [[buf al] mapped]]. simpl in *. subst r mapped.
  apply after_bind, after_vk, after_last, after_checked; [done|]. intros _. split; [done|].
  by apply owns_same.
Qed.

End Effects.
