(* ===== verification/VulkanSoft.v ===== *)
(** * A driver in software

    An instance of the interfaces of [VulkanApi] and [VulkanImages]: a device with
    coherent memory that executes commands when they are submitted, on which the
    theorems about the Vulkan runtime are exercised.  [bad_wait] makes every wait
    for a fence report a lost device; [stray_driver] leaves a number in the handle of a
    creation that fails. *)

From Stdlib Require Import ZArith Lia.
From stdpp Require Import prelude strings list gmap.
From S2P Require Import Prelude Core VulkanApi VulkanDevice VulkanImages.

Open Scope Z_scope.

Record soft_image : Type := mkSoftImage { si_layout : VkImageLayout; si_extent : Z * Z; si_content : bytes }.

Definition no_image : soft_image := mkSoftImage LAYOUT_UNDEFINED (0, 0) [].

(** An allocation has the handle of its buffer. *)
Record soft : Type := mkSoft {
  s_next : positive;
  s_images : gmap Z soft_image;
  s_memory : gmap Z bytes;
  s_recorded : gmap Z (list VkCommand)
}.

Definition soft_start : soft := mkSoft 1 ∅ ∅ ∅.

Definition image_in (s : soft) (h : Z) : soft_image := default no_image (s_images s !! h).
Definition memory_in (s : soft) (h : Z) : bytes := default [] (s_memory s !! h).
Definition recorded_in (s : soft) (h : Z) : list VkCommand := default [] (s_recorded s !! h).

Definition set_soft_image (s : soft) (h : Z) (i : soft_image) : soft :=
  mkSoft (s_next s) (<[h := i]> (s_images s)) (s_memory s) (s_recorded s).
Definition set_soft_memory (s : soft) (h : Z) (m : bytes) : soft :=
  mkSoft (s_next s) (s_images s) (<[h := m]> (s_memory s)) (s_recorded s).
Definition set_recorded (s : soft) (h : Z) (cs : list VkCommand) : soft :=
  mkSoft (s_next s) (s_images s) (s_memory s) (<[h := cs]> (s_recorded s)).

(** A new handle. *)
Definition bump (s : soft) : soft :=
  mkSoft (Pos.succ (s_next s)) (s_images s) (s_memory s) (s_recorded s).
Definition fresh (s : soft) : (VkResult * Z) * soft := ((VK_SUCCESS, Zpos (s_next s)), bump s).

Definition soft_command (c : VkCommand) (s : soft) : soft :=
  match c with
  | vkCmdPipelineBarrier b =>
      let i := image_in s (barrier_image b) in
      set_soft_image s (barrier_image b) (mkSoftImage (newLayout b) (si_extent i) (si_content i))
  | vkCmdCopyBufferToImage b h _ _ _ =>
      let i := image_in s h in
      set_soft_image s h (mkSoftImage (si_layout i) (si_extent i)
        (take (length (si_content i)) (memory_in s b)))
  | vkCmdCopyImageToBuffer h _ b _ _ =>
      let content := si_content (image_in s h) in
      set_soft_memory s b (content ++ drop (length content) (memory_in s b))
  | _ => s
  end.

Definition soft_call (bad_wait : bool) {A} (c : VkCall A) (s : soft) : A * soft :=
  match c in VkCall A return A * soft with
  | vkEnumerateInstanceVersion => ((VK_SUCCESS, VK_API_VERSION_1_3), s)
  | vkCountInstanceLayers => ((VK_SUCCESS, 0), s)
  | vkEnumerateInstanceLayerProperties _ => ((VK_SUCCESS, []), s)
  | vkCreateInstance _ _ => fresh s
  | vkDestroyInstance _ => (tt, s)
  | vkCountPhysicalDevices _ => ((VK_SUCCESS, 1), s)
  | vkEnumeratePhysicalDevices _ _ => ((VK_SUCCESS, [77]), s)
  | vkGetPhysicalDeviceProperties _ => (VK_API_VERSION_1_3, s)
  | vkGetPhysicalDeviceFeatures2 _ => (true, s)
  | vkGetPhysicalDeviceQueueFamilyProperties _ => ([4; 7], s)
  | vkGetPhysicalDeviceMemoryProperties _ => ([(0, 5); (1, 1024)], s)
  | vkCreateDevice _ _ _ => fresh s
  | vkDestroyDevice _ _ => (tt, s)
  | vkDeviceWaitIdle _ => (VK_SUCCESS, s)
  | vkGetDeviceQueue _ _ _ => (9, s)
  | vmaCreateAllocator _ _ _ => fresh s
  | vmaDestroyAllocator _ _ => (tt, s)
  | vkCreateCommandPool _ _ => fresh s
  | vkDestroyCommandPool _ _ => (tt, s)
  | vkAllocateCommandBuffers _ _ => fresh s
  | vkFreeCommandBuffers _ _ _ => (tt, s)
  | vkBeginCommandBuffer cb => (VK_SUCCESS, set_recorded s cb [])
  | vkEndCommandBuffer _ => (VK_SUCCESS, s)
  | vkCmd cb c => (tt, set_recorded s cb (recorded_in s cb ++ [c]))
  | vkQueueSubmit _ cb _ _ => (VK_SUCCESS, foldl (λ s c, soft_command c s) s (recorded_in s cb))
  | vkCreateFence _ _ => fresh s
  | vkDestroyFence _ _ => (tt, s)
  | vkWaitForFences _ _ _ => (if bad_wait then VK_OTHER (-4) else VK_SUCCESS, s)
  | vkGetFenceStatus _ _ => (VK_SUCCESS, s)
  | vkResetFences _ _ => (VK_SUCCESS, s)
  | vkCreateSemaphore _ _ => fresh s
  | vkDestroySemaphore _ _ => (tt, s)
  | vkGetSemaphoreCounterValue _ _ => ((VK_SUCCESS, 0), s)
  | vkWaitSemaphores _ _ _ _ => (VK_SUCCESS, s)
  | vkSignalSemaphore _ _ _ => (VK_SUCCESS, s)
  | vmaCreateBuffer _ size _ =>
      if size <? 0 then ((VK_ERROR_OUT_OF_DEVICE_MEMORY, (0, 0, false)), s) else
      let h := Zpos (s_next s) in
      ((VK_SUCCESS, (h, h, true)), set_soft_memory (bump s) h (replicate (Z.to_nat size) 0))
  | vmaDestroyBuffer _ _ _ => (tt, s)
  | vmaMapMemory _ _ => (VK_SUCCESS, s)
  | vmaFlushAllocation _ _ => (VK_SUCCESS, s)
  | vmaInvalidateAllocation _ _ => (VK_SUCCESS, s)
  | vmaCreateImage _ f width height _ =>
      let size := format_bytes f * (width * height) in
      if size <? 0 then ((VK_ERROR_OUT_OF_DEVICE_MEMORY, (0, 0)), s) else
      let h := Zpos (s_next s) in
      ((VK_SUCCESS, (h, h)), set_soft_image (bump s) h
         (mkSoftImage LAYOUT_UNDEFINED (width, height) (replicate (Z.to_nat size) 0)))
  | vmaDestroyImage _ _ _ => (tt, s)
  | host_store al data => (tt, set_soft_memory s al (data ++ drop (length data) (memory_in s al)))
  | host_load al n => (take (Z.to_nat n) (memory_in s al), s)
  | host_resize _ => (true, s)
  | vkCreateImageView _ _ _ => fresh s
  | vkDestroyImageView _ _ => (tt, s)
  | vkCreateDescriptorPool _ _ _ => fresh s
  | vkDestroyDescriptorPool _ _ => (tt, s)
  | vkAllocateDescriptorSets _ _ _ => fresh s
  | vkUpdateDescriptorSets _ _ _ => (tt, s)
  | vkCreateDescriptorSetLayout _ _ => fresh s
  | vkDestroyDescriptorSetLayout _ _ => (tt, s)
  | vkCreatePipelineLayout _ _ => fresh s
  | vkDestroyPipelineLayout _ _ => (tt, s)
  | vkCreateShaderModule _ _ => fresh s
  | vkDestroyShaderModule _ _ => (tt, s)
  | vkCreateComputePipelines _ _ _ => fresh s
  | vkDestroyPipeline _ _ => (tt, s)
  end.

Section Soft.
Variable bad_wait : bool.

Instance soft_driver : VkDriver := {| vk_state := soft; vk_call A c s := soft_call bad_wait c s |}.

#[global] Instance soft_handles : VkHandles soft_driver.
Proof.
  split.
  - intros A c s r. destruct c; simpl; intros [= <-]; done.
  - intros a size usage s. simpl. by destruct (size <? 0).
  - intros a f width height usage s. simpl. by destruct (_ <? 0).
Qed.

#[global] Instance soft_memory : VkMemory soft_driver := {|
  vk_layout s h := si_layout (image_in s h);
  vk_extent s h := si_extent (image_in s h);
  vk_content s h := si_content (image_in s h);
  vk_memory := memory_in;
  vk_host := memory_in;
  vk_bound _ buffer allocation := buffer = allocation;
  vk_available _ _ := True;
  vk_recorded := recorded_in
|}.

Lemma image_set s h i : image_in (set_soft_image s h i) h = i.
Proof. unfold image_in. simpl. by rewrite lookup_insert_eq. Qed.
Lemma memory_set s h m : memory_in (set_soft_memory s h m) h = m.
Proof. unfold memory_in. simpl. by rewrite lookup_insert_eq. Qed.
Lemma recorded_set s h cs : recorded_in (set_recorded s h cs) h = cs.
Proof. unfold recorded_in. simpl. by rewrite lookup_insert_eq. Qed.

(** Where a command is valid, the device does what it says. *)
Lemma soft_exec img buf c s x :
  exec id img buf c (cell_of (D := soft_driver) s img buf) = Some x →
  x = cell_of (D := soft_driver) (soft_command c s) img buf.
Proof.
  destruct c as [b|b i l width height|i l b width height| | |]; simpl; try done.
  - destruct (barrier_image b =? img) eqn:E; [|done]. apply Z.eqb_eq in E. subst img.
    unfold cell_of. simpl. rewrite image_set. simpl.
    repeat case_decide; by intros [= <-].
  - destruct (_ && _) eqn:E; [|done]. rewrite !andb_true_iff, !Z.eqb_eq in E.
    destruct E as [[[[[-> ->] _] _] _] _]. intros [= <-]. unfold cell_of. simpl.
    by rewrite image_set.
  - destruct (_ && _) eqn:E; [|done]. rewrite !andb_true_iff, !Z.eqb_eq in E.
    destruct E as [[[[[-> ->] _] _] _] _]. intros [= <-]. unfold cell_of. simpl.
    by rewrite memory_set.
Qed.

Lemma soft_exec_all img buf cs s x :
  exec_all id img buf cs (cell_of (D := soft_driver) s img buf) = Some x →
  x = cell_of (D := soft_driver) (foldl (λ s c, soft_command c s) s cs) img buf.
Proof.
  revert s. induction cs as [|c cs IH]; intros s; simpl; [by intros [= <-]|].
  destruct (exec id img buf c _) as [y|] eqn:E; [|done]. apply soft_exec in E as ->. apply IH.
Qed.

Lemma exec_memory junk img buf c x y : exec junk img buf c x = Some y → len (c_memory y) = len (c_memory x).
Proof.
  destruct c; simpl; try done; repeat case_match; try done; intros [= <-]; simpl; try done.
  rewrite len_app. unfold len in *. rewrite length_drop.
  match goal with H : _ && _ = true |- _ => rewrite !andb_true_iff, Z.leb_le in H end. unfold len in *. lia.
Qed.

Lemma exec_all_memory junk img buf cs x y : exec_all junk img buf cs x = Some y → len (c_memory y) = len (c_memory x).
Proof.
  revert x. induction cs as [|c cs IH]; intros x; simpl; [by intros [= ->]|].
  destruct (exec junk img buf c x) eqn:E; [|done]. intros H. rewrite (IH _ H). by eapply exec_memory.
Qed.

#[global] Instance soft_laws : VkMemoryLaws soft_driver soft_memory.
Proof.
  split.
  - intros A c s. by destruct c.
  - intros A c s. destruct c; simpl; try done. by destruct (_ <? 0).
  - intros a size usage s buf al m s'. simpl. destruct (size <? 0) eqn:E; [done|]. intros [= <- <- <- <-].
    apply Z.ltb_ge in E. split; [done|]. rewrite memory_set.
    unfold len. rewrite length_replicate. lia.
  - intros al data s buf s' Hb _ [= <-]. split; [done|]. simpl. by rewrite memory_set.
  - intros a al s buf s' -> [= <-]. done.
  - intros a al s buf s' -> [= <-]. done.
  - intros a f width height usage s img al s'. simpl. destruct (_ <? 0) eqn:E; [done|]. intros [= <- <- <-].
    apply Z.ltb_ge in E. rewrite image_set. simpl. split; [done|].
    unfold len. rewrite length_replicate. lia.
  - done.
  - done.
  - intros cb s s' [= <-]. apply recorded_set.
  - intros cb c s. apply recorded_set.
  - done.
  - done.
  - intros q cb d f t s s1 s2 img buf al. simpl. intros [= <-]. destruct bad_wait; [done|]. intros [= <-].
    intros [x Hx]. pose proof (exec_all_memory _ _ _ _ _ _ Hx) as Hm. apply soft_exec_all in Hx as Ex. split.
    + exists id. split; [done|]. fold (@id bytes). by rewrite <-Ex.
    + intros ->. split; [done|]. rewrite Ex in Hm. exact Hm.
Qed.

End Soft.

(** ** A device and an image on it *)

Definition soft_world (b : bool) : World (soft_driver b) :=
  @mkWorld (soft_driver b) soft_start no_ledger 0 [] [] [] [].

Definition one_dispatch (b : bool) : list (nat * (VkHandle → vkm (D := soft_driver b) unit)) :=
  [(0%nat, record_all [vkCmdDispatch 1 1 1]); (3%nat, record_all [vkCmdDispatch 2 2 1]);
   (0%nat, record_all [])].

(** The device of the example has two pools, one per thread. *)
Example soft_life :
  let r := device_life None None true (one_dispatch false) (soft_world false) in
  r.1 = Ret [] ∧ w_ledger r.2 = no_ledger.
Proof. vm_compute. done. Qed.

(** When waiting fails, the fences outlive the device. *)
Example soft_leak :
  let r := device_life None None true (one_dispatch true) (soft_world true) in
  held (w_ledger r.2) = [Res KFence 2 11; Res KFence 2 9; Res KFence 2 6] ∧ misused (w_ledger r.2) = true.
Proof. vm_compute. done. Qed.

(** A device that cannot be created, by a driver that still writes the handle: the
    handler of [create] destroys it. *)
Definition stray_call {A} (c : VkCall A) (s : soft) : A * soft :=
  match c in VkCall A return A * soft with
  | vkCreateDevice _ _ _ => ((VK_ERROR_INITIALIZATION_FAILED, 0xdead), s)
  | c => soft_call false c s
  end.

Definition stray_driver : VkDriver := {| vk_state := soft; vk_call A c s := stray_call c s |}.

Example stray_destroyed :
  let r := create (D := stray_driver) None None false (@mkWorld stray_driver soft_start no_ledger 0 [] [] [] []) in
  (∃ what, r.1 = Ret (mkCreated StFailed None what)) ∧ held (w_ledger r.2) = [] ∧ misused (w_ledger r.2) = true ∧
  In (Event (vkDestroyDevice 1 0xdead) tt) (w_log r.2).
Proof. vm_compute. split; [by eexists|]. split; [done|]. split; [done|]. auto 20. Qed.

(** A plane on the device, and a layout of three 16-bit pixels. *)
Definition soft_plane : VulkanDevicePlane :=
  mkPlane 101 77 102 103 9 1 VK_API_VERSION_1_3 1024 false false ∅.
Definition plane_world : World (soft_driver false) :=
  @mkWorld (soft_driver false) soft_start no_ledger 0 [Some soft_plane] [] [] [].

Definition three_pixels : BufferLayout :=
  mkLayout Image2D R16_UINT 2 [3; 1; 0; 0; 0; 0; 0; 0] zeros8.
Definition cpu_usage : Z := usage_or usage_CpuRead usage_CpuWrite.

Definition some_visits : list (CpuAccess * (bytes → bytes)) :=
  [(AccessWrite, λ l, replicate (length l) 7); (AccessRead, λ l, l);
   (AccessReadWrite, λ l, (λ b, b + 1) <$> l); (AccessRead, λ l, replicate (length l) 0);
   (AccessRead, λ l, l)].

Definition session (layout : BufferLayout) (visits : list (CpuAccess * (bytes → bytes)))
    : vkm (D := soft_driver false) (nat * list bytes) :=
  i ← make_image (D := soft_driver false) 0 layout cpu_usage "";
  seen ← visit_all (D := soft_driver false) i visits; mret (i, seen).

Example session_seen :
  (session three_pixels some_visits plane_world).1
  = Ret (0%nat, [replicate 6 0; replicate 6 7; replicate 6 7; replicate 6 8; replicate 6 8]).
Proof. vm_compute. done. Qed.

(** Two rows of one 16-bit pixel, each padded to four bytes: the staging has eight bytes,
    the device image four, and what was written to the second row is not read back. *)
Definition padded_rows : BufferLayout :=
  mkLayout Image2D R16_UINT 2 [1; 2; 0; 0; 0; 0; 0; 0] [2; 4; 0; 0; 0; 0; 0; 0].

Example padded_rows_lost :
  (session padded_rows [(AccessWrite, λ _, [1; 2; 0; 0; 3; 4; 0; 0]); (AccessRead, λ l, l)] plane_world).1
  = Ret (0%nat, [replicate 8 0; [1; 2; 0; 0; 0; 0; 0; 0]]).
Proof. vm_compute. done. Qed.

Lemma three_pixels_packed : packed_image three_pixels.
Proof. by split. Qed.

Lemma some_visits_keep : Forall (λ v, ∀ l, length (v.2 l) = length l) some_visits.
Proof. repeat constructor; intros l; simpl; by rewrite ?length_replicate, ?length_fmap. Qed.

Lemma image_life_exact_witness :
  has_plane 0 plane_world ∧ packed_image three_pixels ∧
  Forall (λ v, ∀ l, length (v.2 l) = length l) some_visits ∧
  ∃ im st, array_visits (M := soft_memory false) some_visits
      [replicate 6 0; replicate 6 7; replicate 6 7; replicate 6 8; replicate 6 8] None st ∧
    represents (M := soft_memory false) 0 im st (session three_pixels some_visits plane_world).2.
Proof.
  split; [by exists soft_plane|]. split; [apply three_pixels_packed|]. split; [apply some_visits_keep|].
  pose proof (image_life_exact (M := soft_memory false) 0 three_pixels cpu_usage "" some_visits plane_world) as H.
  specialize (H eq_refl (ex_intro _ soft_plane eq_refl) three_pixels_packed eq_refl eq_refl some_visits_keep).
  pose proof session_seen as E. unfold session in E. unfold after in H. rewrite E in H. exact H.
Defined.

Lemma one_dispatch_records b : Forall (λ s, recording s.2) (one_dispatch b).
Proof. repeat constructor; apply record_all_recording. Qed.

Lemma device_life_exact_witness :
  owns (soft_world true) [] ∧ Forall (λ s, recording s.2) (one_dispatch true) ∧
  ∃ es, (device_life None None true (one_dispatch true) (soft_world true)).1 = Ret es ∧
    fence_failures es = 3%nat.
Proof.
  split; [done|]. split; [apply one_dispatch_records|].
  destruct (device_life_exact None None true (one_dispatch true) (soft_world true))
    as (es & E & Hn & _ & _ & _); [done|apply one_dispatch_records|].
  exists es. split; [exact E|]. rewrite <-Hn. vm_compute. done.
Defined.
