(* ===== verification/OcioVulkan.v ===== *)
(** * The colour processor on the device

    color/OcioVulkanProcessor.cpp: the compute shader built around what OpenColorIO
    generates, the cache of compute pipelines, and the pass over an image.  OpenColorIO
    and the compiler of shaders are parameters.  The theorems: the version lines of the
    generated shader, and only they, are removed; the work groups cover the image; a
    pass that succeeds leaves nothing behind but the pipeline it cached; and
    [pipeline_retry_leaks]: a pipeline whose creation failed half way is forgotten. *)

From Stdlib Require Import ZArith Lia Ascii String.
From stdpp Require Import prelude strings list gmap.
From S2P Require Import Prelude Core StateRes VulkanApi VulkanDevice VulkanImages VulkanSoft.

Open Scope Z_scope.

(** ** The shader *)

Definition kOcioFunctionName : string := "ocio_transform".
Definition kWorkgroupSize : Z := 8.
Definition newline : ascii := "010".
Definition nl : string := String newline "".

(** [None] is the exception. *)
Definition storage_format (format : PixelFormat) : option string :=
  match format with
  | R8G8B8A8_UNORM => Some "rgba8"
  | R16G16B16A16_UNORM => Some "rgba16"
  | R16G16B16A16_SFLOAT => Some "rgba16f"
  | R32G32B32A32_SFLOAT => Some "rgba32f"
  | _ => None
  end.

(** The text up to and with the next newline, and what follows it; [None] if there is no
    newline. *)
Fixpoint cut_line (s : string) : string * option string :=
  match s with
  | EmptyString => (EmptyString, None)
  | String c s' =>
      if (c =? newline)%char then (String c EmptyString, Some s')
      else let '(line, rest) := cut_line s' in (String c line, rest)
  end.

(** The loop; [fuel] bounds its iterations. *)
Fixpoint strip_loop (fuel : nat) (s : string) : string :=
  match fuel, s with
  | S fuel', String _ _ =>
      let '(line, rest) := cut_line s in
      let kept := if String.prefix "#version" line then "" else line in
      match rest with
      | None => kept
      | Some rest => kept +:+ strip_loop fuel' rest
      end
  | _, _ => ""
  end.

(** Every iteration takes at least a character. *)
Definition strip_version_lines (shader_text : string) : string :=
  strip_loop (String.length shader_text) shader_text.

Definition make_compute_shader (ocio_shader : string) (output_format : PixelFormat) : option string :=
  match storage_format output_format with
  | None => None
  | Some fmt => Some (
      "#version 460" +:+ nl +:+
      "layout(local_size_x = 8, local_size_y = 8, local_size_z = 1) in;" +:+ nl +:+
      "layout(set = 0, binding = 0, rgba16f) uniform readonly image2D cpipe_input;" +:+ nl +:+
      "layout(set = 0, binding = 1, " +:+ fmt +:+
      ") uniform writeonly image2D cpipe_output;" +:+ nl +:+
      strip_version_lines ocio_shader +:+
      nl +:+ "void main() {" +:+ nl +:+
      "  ivec2 xy = ivec2(gl_GlobalInvocationID.xy);" +:+ nl +:+
      "  ivec2 size = imageSize(cpipe_input);" +:+ nl +:+
      "  if (xy.x >= size.x || xy.y >= size.y) { return; }" +:+ nl +:+
      "  vec4 pixel = imageLoad(cpipe_input, xy);" +:+ nl +:+
      "  pixel = " +:+ kOcioFunctionName +:+ "(pixel);" +:+ nl +:+
      "  imageStore(cpipe_output, xy, pixel);" +:+ nl +:+
      "}" +:+ nl)
  end.

(** The constructor: what the shader description has of uniforms, textures and 3D
    textures must be nothing; the text is kept. *)
Definition make_impl (uniforms textures textures_3d : Z) (text : string) : option string :=
  if negb (uniforms =? 0) || negb (textures =? 0) || negb (textures_3d =? 0) then None else Some text.

(** ** The pipelines *)

Definition null_resources : PipelineResources := mkResources 0 0 0 0 0.

Section Processor.
Context {D : VkDriver}.
(** glslang: an error text, or the words of the compiled shader. *)
Variable compile_compute_shader : string → string + list Z.
(** The text OpenColorIO generated. *)
Variable ocio_shader_text : string.

Fixpoint find_pipeline (f : PixelFormat) (l : list (PixelFormat * PipelineResources)) : PipelineResources :=
  match l with
  | [] => null_resources
  | (g, r) :: l' => if decide (g = f) then r else find_pipeline f l'
  end.

Fixpoint put_pipeline (f : PixelFormat) (r : PipelineResources) (l : list (PixelFormat * PipelineResources))
    : list (PixelFormat * PipelineResources) :=
  match l with
  | [] => [(f, r)]
  | (g, x) :: l' => if decide (g = f) then (g, r) :: l' else (g, x) :: put_pipeline f r l'
  end.

(** [pipelines_[format]], and assignment through the reference. *)
Definition pipeline_ref (f : PixelFormat) : vkm PipelineResources := λ w,
  (Ret (find_pipeline f (w_pipelines w)), w).
Definition store_pipeline (f : PixelFormat) (r : PipelineResources) : vkm unit := λ w,
  (Ret tt, mkWorld (w_driver w) (w_ledger w) (w_thread w) (w_planes w) (w_images w)
             (put_pipeline f r (w_pipelines w)) (w_log w)).

(** [PipelineResources::destroy]. *)
Definition destroy_resources (r : PipelineResources) : vkm unit :=
  if pr_device r =? VK_NULL_HANDLE then mret tt else
  _ ← when_held (pipeline_ r) (vkDestroyPipeline (pr_device r) (pipeline_ r));
  _ ← when_held (shader_ r) (vkDestroyShaderModule (pr_device r) (shader_ r));
  _ ← when_held (pipeline_layout_ r) (vkDestroyPipelineLayout (pr_device r) (pipeline_layout_ r));
  when_held (set_layout_ r) (vkDestroyDescriptorSetLayout (pr_device r) (set_layout_ r)).

Definition create_descriptor_set_layout (device : VkHandle) (f : PixelFormat) : vkm unit :=
  r ← vk (vkCreateDescriptorSetLayout device 2);
  e ← pipeline_ref f;
  _ ← store_pipeline f (mkResources (pr_device e) r.2 (pipeline_layout_ e) (shader_ e) (pipeline_ e));
  check_vk r.1 "vkCreateDescriptorSetLayout".

Definition create_pipeline_layout (device : VkHandle) (f : PixelFormat) : vkm unit :=
  e ← pipeline_ref f;
  r ← vk (vkCreatePipelineLayout device (set_layout_ e));
  _ ← store_pipeline f (mkResources (pr_device e) (set_layout_ e) r.2 (shader_ e) (pipeline_ e));
  check_vk r.1 "vkCreatePipelineLayout".

Definition create_shader_and_pipeline (device : VkHandle) (f : PixelFormat) : vkm unit :=
  match make_compute_shader ocio_shader_text f with
  | None => raise "unsupported OCIO Vulkan output format"
  | Some source =>
      match compile_compute_shader source with
      | inl what => raise what
      | inr spirv =>
          e ← pipeline_ref f;
          r ← vk (vkCreateShaderModule device spirv);
          _ ← store_pipeline f (mkResources (pr_device e) (set_layout_ e) (pipeline_layout_ e) r.2 (pipeline_ e));
          _ ← check_vk r.1 "vkCreateShaderModule";
          q ← vk (vkCreateComputePipelines device r.2 (pipeline_layout_ e));
          _ ← store_pipeline f (mkResources (pr_device e) (set_layout_ e) (pipeline_layout_ e) r.2 q.2);
          check_vk q.1 "vkCreateComputePipelines"
      end
  end.

(** The creation of a pipeline in its entry, which becomes [e] first. *)
Definition create_pipeline (device : VkHandle) (f : PixelFormat) (e : PipelineResources)
    : vkm PipelineResources :=
  _ ← store_pipeline f e;
  _ ← create_descriptor_set_layout device f;
  _ ← create_pipeline_layout device f;
  _ ← create_shader_and_pipeline device f;
  pipeline_ref f.

Definition with_device (e : PipelineResources) (device : VkHandle) : PipelineResources :=
  mkResources device (set_layout_ e) (pipeline_layout_ e) (shader_ e) (pipeline_ e).

Definition pipeline_for (p : nat) (f : PixelFormat) : vkm PipelineResources :=
  pl ← plane_at p;
  e ← pipeline_ref f;
  if pipeline_ e =? VK_NULL_HANDLE then create_pipeline (device_ pl) f (with_device e (device_ pl)) else
  if pr_device e =? device_ pl then mret e else
  _ ← destroy_resources e;
  create_pipeline (device_ pl) f (with_device null_resources (device_ pl)).

(** The destructor of the processor. *)
Fixpoint destroy_pipelines (l : list (PixelFormat * PipelineResources)) : vkm unit :=
  match l with
  | [] => mret tt
  | (_, r) :: l' => _ ← destroy_resources r; destroy_pipelines l'
  end.

(** ** The pass *)

Definition make_image_view (device image : VkHandle) (format : VkFormat) : vkm VkHandle :=
  create_checked (vkCreateImageView device image format) "vkCreateImageView".
Definition make_descriptor_pool (device : VkHandle) : vkm VkHandle :=
  create_checked (vkCreateDescriptorPool device 2 1) "vkCreateDescriptorPool".
Definition allocate_descriptor_set (device pool set_layout : VkHandle) : vkm VkHandle :=
  create_checked (vkAllocateDescriptorSets device pool set_layout) "vkAllocateDescriptorSets".

Definition groups (extent : Z) : Z := u32 (extent + kWorkgroupSize - 1) / kWorkgroupSize.

(** The commands are recorded, submitted and waited for, two seconds at most. *)
Definition run_pass (cb : VulkanCommandBuffer) (timeline : SyncObject) (e : PipelineResources)
    (set : VkHandle) (width height : Z) : vkm cpipe_status_t :=
  _ ← command_buffer_begin cb;
  _ ← bind_compute_pipeline cb (pipeline_ e);
  _ ← bind_descriptor_set cb (pipeline_layout_ e) set;
  _ ← dispatch cb (groups width) (groups height) 1;
  _ ← command_buffer_end cb;
  _ ← submit cb timeline 1;
  ok ← wait_timeline timeline 1 (2 * 1000000000);
  mret (if ok : bool then CPIPE_OK else CPIPE_FAILED).

(** From the views on, with the destructors of the locals in reverse order. *)
Definition pass_with (p : nat) (device : VkHandle) (e : PipelineResources) (input output : VulkanImage)
    : vkm cpipe_status_t :=
  input_view ← make_image_view device (image_ input) (format_ input);
  scoped (
    output_view ← make_image_view device (image_ output) (format_ output);
    scoped (
      pool ← make_descriptor_pool device;
      scoped (
        set ← allocate_descriptor_set device pool (set_layout_ e);
        _ ← vk (vkUpdateDescriptorSets device set
                  [(input_view, LAYOUT_GENERAL); (output_view, LAYOUT_GENERAL)]);
        timeline ← make_timeline p 0;
        scoped (
          cb ← make_command_buffer (Some p);
          scoped (run_pass cb timeline e set (nth8 (dims (layout_ output)) 0) (nth8 (dims (layout_ output)) 1))
            (_ ← command_buffer_destroy cb; mret tt))
          (_ ← sync_destroy vkDestroySemaphore timeline; mret tt))
        (when_held pool (vkDestroyDescriptorPool device pool)))
      (when_held output_view (vkDestroyImageView device output_view)))
    (when_held input_view (vkDestroyImageView device input_view)).

Definition compute_pass (plane : option nat) (input output : nat) : vkm cpipe_status_t :=
  i ← image_at input;
  o ← image_at output;
  match plane with
  | None => mret CPIPE_BAD_INDEX
  | Some p =>
      if negb (Nat.eqb (plane_ i) p) || negb (Nat.eqb (plane_ o) p) then mret CPIPE_BAD_INDEX else
      if negb (bool_decide (Core.format (layout_ i) = R16G16B16A16_SFLOAT)) ||
         negb (nth8 (dims (layout_ i)) 0 =? nth8 (dims (layout_ o)) 0) ||
         negb (nth8 (dims (layout_ i)) 1 =? nth8 (dims (layout_ o)) 1)
      then mret CPIPE_BAD_PRECISION else
      try_catch (
        e ← pipeline_for p (Core.format (layout_ o));
        _ ← transition_to_general input;
        _ ← transition_to_general output;
        pl ← plane_at p;
        i ← image_at input;
        o ← image_at output;
        pass_with p (device_ pl) e i o)
        (λ _, mret CPIPE_FAILED)
  end.

End Processor.

(** ** The shader text *)

(** The lines of a text, each with its newline. *)
Fixpoint text_lines (s : string) : list string :=
  match s with
  | EmptyString => []
  | String c s' =>
      if (c =? newline)%char then String c "" :: text_lines s' else
      match text_lines s' with
      | [] => [String c ""]
      | l :: ls => String c l :: ls
      end
  end.

Fixpoint join (ls : list string) : string :=
  match ls with [] => "" | l :: ls' => l +:+ join ls' end.

Lemma cut_line_lines c s :
  let '(line, rest) := cut_line (String c s) in
  text_lines (String c s) = line :: match rest with Some r => text_lines r | None => [] end ∧
  match rest with Some r => (String.length r < S (String.length s))%nat | None => True end.
Proof.
  revert c. induction s as [|d s IH]; intros c.
  - cbn [cut_line text_lines]. destruct (c =? newline)%char; split; first [done|simpl; lia].
  - specialize (IH d). destruct (cut_line (String d s)) as [line rest] eqn:E.
    change (cut_line (String c (String d s))) with
      (if (c =? newline)%char then (String c "", Some (String d s))
       else let '(line, rest) := cut_line (String d s) in (String c line, rest)).
    change (text_lines (String c (String d s))) with
      (if (c =? newline)%char then String c "" :: text_lines (String d s) else
       match text_lines (String d s) with [] => [String c ""] | l :: ls => String c l :: ls end).
    destruct (c =? newline)%char; [split; [done|simpl; lia]|]. rewrite E. destruct IH as [-> Hr].
    split; [done|]. destruct rest; simpl; lia.
Qed.

(** Exactly the lines that start with a version directive are removed. *)
Lemma strip_exact s :
  strip_version_lines s = join (filter (λ l, String.prefix "#version" l = false) (text_lines s)).
Proof.
  assert (∀ fuel s, (String.length s ≤ fuel)%nat →
    strip_loop fuel s = join (filter (λ l, String.prefix "#version" l = false) (text_lines s))) as H;
    [|by apply H].
  clear s. induction fuel as [|fuel IH]; intros [|c s] Hf; try done; [simpl in Hf; lia|].
  pose proof (cut_line_lines c s) as Hc. cbn [strip_loop]. destruct (cut_line (String c s)) as [line rest].
  destruct Hc as [-> Hr]. rewrite filter_cons.
  destruct (String.prefix "#version" line); simpl; (destruct rest as [rest|]; [rewrite IH by (simpl in *; lia)|]);
    try done. simpl. by rewrite string_app_empty_r.
Qed.

(** The work groups cover the image, and no group lies outside. *)
Lemma groups_cover extent :
  0 ≤ extent ≤ 2 ^ 32 - 8 → extent ≤ kWorkgroupSize * groups extent < extent + kWorkgroupSize.
Proof.
  intros H. unfold groups, kWorkgroupSize, u32, wrap. rewrite Z.mod_small by lia.
  pose proof (Z.div_mod (extent + 8 - 1) 8). pose proof (Z.mod_pos_bound (extent + 8 - 1) 8). lia.
Qed.

(** ** What a pass leaves *)

Section Passes.
Context {D : VkDriver} `{!VkHandles D}.

(** [m] returns or throws, touches no object, and beside [l] leaves what goes with [r]. *)
Definition settles {A} (m : vkm A) (w : World D) (l : list resource) : Prop :=
  after m w (λ o w', match o with Ret _ | Raise _ => untouched w w' ∧ owns w' l | _ => False end).

Lemma settles_from {A} (m : vkm A) w w1 l : untouched w w1 → settles m w1 l →
  after m w1 (λ o w', match o with Ret _ | Raise _ => untouched w w' ∧ owns w' l | _ => False end).
Proof.
  intros Hu H. unfold settles in H. eapply after_mono; [exact H|].
  intros [a|what| |] w' Ho; try done; (split; [by trans w1; [|apply Ho]|apply Ho]).
Qed.

Lemma settles_bind {A B} (m : vkm A) (f : A → vkm B) w l :
  settles m w l → (∀ a w', untouched w w' → owns w' l → settles (f a) w' l) → settles (m ≫= f) w l.
Proof.
  intros Hm Hf. unfold settles in Hm. apply after_bind. eapply after_mono; [exact Hm|].
  intros [a|what| |] w' Ho; try done. destruct Ho as [Hu Ho]. apply settles_from; auto.
Qed.

Lemma settles_silent {A} (m : vkm A) w l : silent m → owns w l → settles m w l.
Proof.
  intros Hm Ho. eapply after_mono; [apply Hm|]. intros o w' [Hs Hr].
  pose proof (same_untouched _ _ Hs). pose proof (same_owns _ _ _ Hs Ho). by destruct o.
Qed.

(** An object that lives for a block, with what the block made from it. *)
Lemma settles_object {A} k parent (c : VkCall (VkResult * VkHandle)) op (destroy : VkHandle → VkCall unit)
    (body : VkHandle → vkm A) (fin : VkHandle → vkm unit) w l :
  (∀ h w' Q, untouched w w' → after (when_held h (destroy h)) w' Q → after (fin h) w' Q) →
  owns w l → handle_of c = Some → acquired c = made k parent → released c = None →
  (∀ h, released (destroy h) = Some (Res k parent h)) → (∀ h, acquired (destroy h) tt = None) →
  (∀ h x, x ∈ l → made_from (Res k parent h) x = false) →
  (∀ h w', h ≠ VK_NULL_HANDLE → untouched w w' → owns w' (Res k parent h :: l) →
     after (body h) w' (λ o w'', match o with Ret _ | Raise _ => untouched w' w'' ∧ ∃ extra,
       Forall (λ x, goes_with (Res k parent h) x = true) extra ∧ owns w'' (Res k parent h :: extra ++ l)
       | _ => False end)) →
  settles (h ← create_checked c op; scoped (body h) (fin h)) w l.
Proof.
  intros Hf Ho Hc Ha Hr Hd Hd' Hl Hbody. pose proof (called_rest c w) as Hu.
  apply after_create; intros Hs.
  2:{ split; [done|]. by eapply acquire_same. }
  pose proof (creation_handle _ c (w_driver w) (reply c w)) as Hh. rewrite Hc in Hh.
  apply (Hh eq_refl) in Hs as Hnull. set (h := (reply c w).2) in *. clear Hh.
  assert (owns (called c w) (Res k parent h :: l)) as Ho1 by (by apply acquire_new).
  apply after_scoped. eapply after_mono; [by apply Hbody|]. clear Ho1.
  intros o w2 Hpost.
  assert (match o with Ret _ | Raise _ => after (fin h) w2
    (λ o' w3, o' = Ret tt ∧ untouched w w3 ∧ owns w3 l) | _ => False end) as Hfin.
  { destruct o; try done; (destruct Hpost as (Hu2 & extra & Hex & Ho2); apply Hf;
    [by trans (called c w)|]; apply after_last, after_held; [done|];
    apply after_ret; split; [done|]; split; [trans (called c w); [done|]; trans w2; [done|apply called_rest]|];
    apply (owns_release (destroy h)) in Ho2; [|by destruct (reply (destroy h) w2)|by apply Hd|]).
    1,3: rewrite filter_app, (filter_true _ l) in Ho2 by (intros x Hx; unfold goes_with; by rewrite Hl);
      assert (filter (λ x, goes_with (Res k parent h) x = false) extra = []) as E;
      [|by rewrite E in Ho2].
    1,2: clear -Hex; induction Hex as [|x l Hx _ IH]; [done|]; rewrite filter_cons, decide_False by congruence; done.
    1,2: intros x [Hx|Hx]%elem_of_app; [|unfold keeps_alive; by rewrite Hl];
      rewrite Forall_forall in Hex; apply Hex in Hx; unfold keeps_alive; rewrite Hx; apply andb_false_r. }
  destruct o; try done; (eapply after_mono; [exact Hfin|]); intros o' w3 (-> & ? & ?); done.
Qed.

Definition no_sets (l : list resource) : Prop := Forall (λ x, r_kind x ≠ KDescriptorSet) l.

Lemma settles_extra {A} (m : vkm A) w r l : settles m w (r :: l) →
  after m w (λ o w', match o with Ret _ | Raise _ => untouched w w' ∧ ∃ extra,
    Forall (λ x, goes_with r x = true) extra ∧ owns w' (r :: extra ++ l) | _ => False end).
Proof.
  intros H. unfold settles in H. eapply after_mono; [exact H|].
  intros [a|what| |] w' Ho; try done; (split; [apply Ho|]); exists []; (split; [done|apply Ho]).
Qed.

Lemma silent_ask op (c : VkCall VkResult) : (∀ a, acquired c a = None) → released c = None →
  silent (r ← vk c; check_vk r op).
Proof. intros Ha Hr. apply silent_bind; [by apply silent_vk|]. auto with cpipe. Qed.

(** Recording, submitting and waiting keep everything. *)
Lemma run_pass_settles p pl pool cb timeline e set width height w l :
  w_planes w !! p = Some (Some pl) → owns w l →
  settles (run_pass (mkCommandBuffer (Some p) pool cb) (mkSync (Some p) timeline) e set width height) w l.
Proof.
  intros Hp Ho. unfold run_pass.
  apply settles_bind; [by apply settles_silent; [by apply silent_ask|]|]. intros _ w1 Hu1 Ho1.
  do 3 (apply settles_bind; [by apply settles_silent; [by apply silent_vk|]|]; intros _ ? ? ?).
  apply settles_bind; [by apply settles_silent; [by apply silent_ask|]|]. intros _ w2 Hu2 Ho2.
  assert (w_planes w2 !! p = Some (Some pl)) as Hp2.
  { assert (untouched w w2) as (E & _) by (repeat (etrans; [eassumption|]); done). by rewrite E. }
  apply settles_bind.
  { unfold submit. apply (plane_at_some p pl); [done|]. by apply settles_silent; [by apply silent_ask|]. }
  intros _ w3 Hu3 Ho3. assert (w_planes w3 !! p = Some (Some pl)) as Hp3 by (by rewrite (proj1 Hu3)).
  apply settles_bind; [|intros; by apply settles_silent].
  unfold wait_timeline, wait_value. simpl. apply after_bind, (plane_at_some p pl); [done|]. apply after_ret.
  apply settles_silent; [|done]. silent_steps.
Qed.

Lemma leaf_apart k parent h (l : list resource) : leaf (Res k parent h) = true →
  ∀ x, x ∈ l → made_from (Res k parent h) x = false.
Proof. intros Hl x _. by apply leaf_made_from. Qed.

(** The command buffer of the pass, from the pool the thread already has. *)
Lemma command_buffer_settles p pl pool timeline e set width height w l :
  w_planes w !! p = Some (Some pl) → command_pools_ pl !! w_thread w = Some pool →
  pool ≠ VK_NULL_HANDLE → owns w l →
  settles (cb ← make_command_buffer (Some p);
           scoped (run_pass cb (mkSync (Some p) timeline) e set width height)
             (_ ← command_buffer_destroy cb; mret tt)) w l.
Proof.
  intros Hp Hpool Hnull Ho.
  assert (settles (h ← create_checked (vkAllocateCommandBuffers (device_ pl) pool) "vkAllocateCommandBuffers";
    scoped (run_pass (mkCommandBuffer (Some p) pool h) (mkSync (Some p) timeline) e set width height)
      (_ ← command_buffer_destroy (mkCommandBuffer (Some p) pool h); mret tt)) w l) as H.
  { apply (settles_object KCommandBuffer pool _ _ (vkFreeCommandBuffers (device_ pl) pool)); try done.
    - intros h w' Q Hu HQ. apply after_bind, after_bind. simpl.
      rewrite (proj2 (Z.eqb_neq _ _) Hnull). unfold when_held in HQ. simpl.
      destruct (h =? VK_NULL_HANDLE); [exact HQ|].
      apply after_bind, (plane_at_some p pl); [by rewrite (proj1 Hu)|]. apply after_ret.
      unfold after, vk in *. destruct (vk_call _ _) as [[] ?]. exact HQ.
    - intros h. by apply leaf_apart.
    - intros h w' Hh Hu Ho'. apply settles_extra, (run_pass_settles p pl); [by rewrite (proj1 Hu)|done]. }
  unfold settles in *. unfold make_command_buffer. apply after_bind, after_bind.
  unfold command_pool_for_current_thread. apply after_bind. unfold after at 1. simpl.
  apply (plane_at_some p pl); [done|]. rewrite Hpool. apply after_ret, (plane_at_some p pl); [done|].
  revert H. unfold after, mbind, vkm_bind.
  by destruct (create_checked (vkAllocateCommandBuffers (device_ pl) pool) "vkAllocateCommandBuffers" w) as [[] ?].
Qed.

(** The timeline, with the command buffer inside. *)
Lemma timeline_settles p pl pool e set width height w l :
  w_planes w !! p = Some (Some pl) → command_pools_ pl !! w_thread w = Some pool →
  pool ≠ VK_NULL_HANDLE → owns w l →
  settles (timeline ← make_timeline p 0;
           scoped (cb ← make_command_buffer (Some p);
                   scoped (run_pass cb timeline e set width height)
                     (_ ← command_buffer_destroy cb; mret tt))
             (_ ← sync_destroy vkDestroySemaphore timeline; mret tt)) w l.
Proof.
  intros Hp Hpool Hnull Ho.
  assert (settles (h ← create_checked (vkCreateSemaphore (device_ pl) 0) "vkCreateSemaphore";
    scoped (cb ← make_command_buffer (Some p);
            scoped (run_pass cb (mkSync (Some p) h) e set width height)
              (_ ← command_buffer_destroy cb; mret tt))
      (_ ← sync_destroy vkDestroySemaphore (mkSync (Some p) h); mret tt)) w l) as H.
  { apply (settles_object KSemaphore (device_ pl) _ _ (vkDestroySemaphore (device_ pl))); try done.
    - intros h w' Q Hu HQ. apply after_bind, after_bind. simpl. unfold when_held in HQ.
      destruct (h =? VK_NULL_HANDLE); [exact HQ|].
      apply after_bind, (plane_at_some p pl); [by rewrite (proj1 Hu)|]. apply after_ret.
      unfold after, vk in *. destruct (vk_call _ _) as [[] ?]. exact HQ.
    - intros h. by apply leaf_apart.
    - intros h w' Hh (Ep & _ & Et & _) Ho'. apply settles_extra, (command_buffer_settles p pl pool);
        [by rewrite Ep|by rewrite Et|done|done]. }
  unfold settles in *. unfold make_timeline. apply after_bind, after_bind. simpl.
  apply (plane_at_some p pl); [done|]. apply after_ret.
  revert H. unfold after, mbind, vkm_bind.
  by destruct (create_checked (vkCreateSemaphore (device_ pl) 0) "vkCreateSemaphore" w) as [[] ?].
Qed.

Lemma pass_settles p pl pool e input output w l :
  w_planes w !! p = Some (Some pl) → command_pools_ pl !! w_thread w = Some pool →
  pool ≠ VK_NULL_HANDLE → no_sets l → owns w l →
  settles (pass_with p (device_ pl) e input output) w l.
Proof.
  intros Hp Hpool Hnull Hsets Ho. unfold pass_with, make_image_view, make_descriptor_pool.
  apply (settles_object KImageView (device_ pl) _ _ (vkDestroyImageView (device_ pl))); try done.
  { intros h. by apply leaf_apart. }
  intros v1 w1 _ Hu1 Ho1. apply settles_extra.
  apply (settles_object KImageView (device_ pl) _ _ (vkDestroyImageView (device_ pl))); try done.
  { intros h. by apply leaf_apart. }
  intros v2 w2 _ Hu2 Ho2. apply settles_extra. set (l2 := _ :: _ :: l) in *.
  apply (settles_object KDescriptorPool (device_ pl) _ _ (vkDestroyDescriptorPool (device_ pl))); try done.
  { intros h x Hx. assert (no_sets l2) as Hn by (by repeat constructor).
    apply (proj1 (Forall_forall _ _) Hn) in Hx. unfold made_from. by destruct x as [[] ? ?]. }
  intros dp w3 _ Hu3 Ho3. unfold allocate_descriptor_set.
  assert (untouched w w3) as Hu by (trans w1; [done|by trans w2]).
  set (c := vkAllocateDescriptorSets _ _ _). pose proof (called_rest c w3) as Hc.
  apply after_create; intros Hs.
  2:{ split; [done|]. exists []. split; [done|]. by eapply acquire_same. }
  assert (owns (called c w3) (Res KDescriptorSet dp (reply c w3).2 :: Res KDescriptorPool (device_ pl) dp :: l2))
    as Ho4 by (by apply acquire_new).
  set (set := (reply c w3).2) in *.
  assert (settles (_ ← vk (vkUpdateDescriptorSets (device_ pl) set [(v1, LAYOUT_GENERAL); (v2, LAYOUT_GENERAL)]);
    timeline ← make_timeline p 0;
    scoped (cb ← make_command_buffer (Some p);
            scoped (run_pass cb timeline e set (nth8 (dims (layout_ output)) 0) (nth8 (dims (layout_ output)) 1))
              (_ ← command_buffer_destroy cb; mret tt))
      (_ ← sync_destroy vkDestroySemaphore timeline; mret tt)) (called c w3)
    (Res KDescriptorSet dp set :: Res KDescriptorPool (device_ pl) dp :: l2)) as H.
  { apply settles_bind; [by apply settles_silent; [by apply silent_vk|]|]. intros _ w4 Hu4 Ho5.
    assert (untouched w w4) as (Ep & _ & Et & _) by (trans w3; [done|]; by trans (called c w3)).
    apply (timeline_settles p pl pool); [by rewrite Ep|by rewrite Et|done|done]. }
  unfold settles in H. eapply after_mono; [exact H|].
  intros [a|what| |] w5 Hpost; try done; destruct Hpost as [Hu5 Ho5];
    (split; [by trans (called c w3)|]); exists [Res KDescriptorSet dp set]; (split; [repeat constructor|]).
  1,3: unfold goes_with, made_from; simpl; by rewrite Z.eqb_refl.
  all: eapply owns_proper; [apply Permutation.perm_swap|exact Ho5].
Qed.

(** ** The cache *)

Lemma find_put f r l : find_pipeline f (put_pipeline f r l) = r.
Proof.
  induction l as [|[g x] l IH]; simpl; [by rewrite decide_True|].
  destruct (decide (g = f)) as [->|Hne]; simpl; [by rewrite decide_True|by rewrite decide_False].
Qed.

(** [w'] is [w] but for the driver, the ledger and the cache. *)
Definition cache_step (w w' : World D) : Prop :=
  w_planes w' = w_planes w ∧ w_images w' = w_images w ∧ w_thread w' = w_thread w.

Lemma cache_step_call {A} (c : VkCall A) w0 w : cache_step w0 w → cache_step w0 (called c w).
Proof. intros (? & ? & ?). destruct (called_rest c w) as (? & ? & ? & _). split_and!; congruence. Qed.

(** What a complete entry holds. *)
Definition pipeline_held (e : PipelineResources) : list resource :=
  [Res KPipeline (pr_device e) (pipeline_ e); Res KShaderModule (pr_device e) (shader_ e);
   Res KPipelineLayout (pr_device e) (pipeline_layout_ e);
   Res KDescriptorSetLayout (pr_device e) (set_layout_ e)].

(** The end of a step that creates an object: its handle is stored, then its result is
    checked. *)
Definition step_post (f : PixelFormat) (g : VkHandle → PipelineResources) (k : VkKind) (parent : VkHandle)
    (w0 : World D) (l : list resource) (o : outcome unit) (w' : World D) : Prop :=
  cache_step w0 w' ∧ match o with
  | Ret _ => ∃ h, find_pipeline f (w_pipelines w') = g h ∧ owns w' (Res k parent h :: l)
  | Raise _ => owns w' l
  | _ => False
  end.

Lemma stored_create k parent (c : VkCall (VkResult * VkHandle)) op f g w0 w l :
  owns w l → cache_step w0 w → acquired c = made k parent → released c = None →
  after (r ← vk c; _ ← store_pipeline f (g r.2); check_vk r.1 op) w (step_post f g k parent w0 l).
Proof.
  intros Ho Hcs Ha Hr. apply after_vk, after_bind. unfold after at 1. simpl.
  apply (cache_step_call c) in Hcs. destruct Hcs as (E1 & E2 & E3).
  apply after_last, after_checked; intros E; (split; [done|]).
  - exists (reply c w).2. split; [apply find_put|]. change (owns (called c w) (Res k parent (reply c w).2 :: l)).
    by apply acquire_new.
  - change (owns (called c w) l). by eapply acquire_same.
Qed.

Variable compile_compute_shader : string → string + list Z.
Variable ocio_shader_text : string.

Lemma after_ref {B} f (m : PipelineResources → vkm B) w (Q : outcome B → World D → Prop) :
  after (m (find_pipeline f (w_pipelines w))) w Q → after (pipeline_ref f ≫= m) w Q.
Proof. intros H. by apply after_bind. Qed.

Lemma after_vk_inv {A B} (c : VkCall A) (f : A → vkm B) (w : World D) Q :
  after (vk c ≫= f) w Q → after (f (reply c w)) (called c w) Q.
Proof. unfold after, mbind, vkm_bind, called, reply, vk. by destruct (vk_call c _). Qed.

Lemma set_layout_step device f w0 w l :
  owns w l → cache_step w0 w →
  after (create_descriptor_set_layout device f) w
    (step_post f (λ h, let e := find_pipeline f (w_pipelines w) in
       mkResources (pr_device e) h (pipeline_layout_ e) (shader_ e) (pipeline_ e))
       KDescriptorSetLayout device w0 l).
Proof.
  intros Ho Hcs. unfold create_descriptor_set_layout. apply after_vk, after_ref.
  set (c := vkCreateDescriptorSetLayout device 2).
  pose proof (stored_create KDescriptorSetLayout device c "vkCreateDescriptorSetLayout" f (λ h,
    let e := find_pipeline f (w_pipelines w) in
    mkResources (pr_device e) h (pipeline_layout_ e) (shader_ e) (pipeline_ e)) w0 w l Ho Hcs eq_refl eq_refl) as H.
  destruct (called_rest c w) as (_ & _ & _ & ->). by apply after_vk_inv in H.
Qed.

Lemma pipeline_layout_step device f w0 w l :
  owns w l → cache_step w0 w →
  after (create_pipeline_layout device f) w
    (step_post f (λ h, let e := find_pipeline f (w_pipelines w) in
       mkResources (pr_device e) (set_layout_ e) h (shader_ e) (pipeline_ e)) KPipelineLayout device w0 l).
Proof. intros Ho Hcs. unfold create_pipeline_layout. apply after_ref. by apply stored_create. Qed.

Lemma shader_step device f w0 w l :
  owns w l → cache_step w0 w →
  after (create_shader_and_pipeline compile_compute_shader ocio_shader_text device f) w (λ o w',
    cache_step w0 w' ∧ match o with
    | Ret _ => ∃ s h, (let e := find_pipeline f (w_pipelines w) in find_pipeline f (w_pipelines w')
          = mkResources (pr_device e) (set_layout_ e) (pipeline_layout_ e) s h) ∧
        owns w' (Res KPipeline device h :: Res KShaderModule device s :: l)
    | Raise _ => ∃ part, owns w' (part ++ l)
    | _ => False
    end).
Proof.
  intros Ho Hcs. unfold create_shader_and_pipeline.
  destruct (make_compute_shader _ f) as [source|]; [|split; [done|by exists []]].
  destruct (compile_compute_shader source) as [what|spirv]; [split; [done|by exists []]|].
  apply after_ref. set (e := find_pipeline f (w_pipelines w)). apply after_vk.
  set (c := vkCreateShaderModule device spirv). apply after_bind. unfold after at 1. simpl.
  pose proof (cache_step_call c w0 w Hcs) as Hcs1.
  set (w1 := mkWorld _ _ _ _ _ _ _). assert (cache_step w0 w1) as Hcs2 by done.
  apply after_checked; intros E; [|split; [done|exists []]].
  2:{ change (owns (called c w) l). by eapply acquire_same. }
  assert (owns w1 (Res KShaderModule device (reply c w).2 :: l)) as Ho1.
  { change (owns (called c w) (Res KShaderModule device (reply c w).2 :: l)). by apply acquire_new. }
  eapply after_mono; [apply (stored_create KPipeline device _ _ f
    (λ h, mkResources (pr_device e) (set_layout_ e) (pipeline_layout_ e) (reply c w).2 h)
    w0 w1 (Res KShaderModule device (reply c w).2 :: l)); done|].
  intros [[]|what| |] w2 [Hcs3 Hpost]; try done; (split; [done|]).
  - destruct Hpost as (h & Hfind & Ho2). by exists (reply c w).2, h.
  - by exists [Res KShaderModule device (reply c w).2].
Qed.

(** Creating a pipeline: four objects, all in the entry, when it returns. *)
Lemma create_pipeline_exact device f e0 w l :
  pr_device e0 = device → owns w l →
  after (create_pipeline compile_compute_shader ocio_shader_text device f e0) w (λ o w',
    cache_step w w' ∧ match o with
    | Ret e => find_pipeline f (w_pipelines w') = e ∧ pr_device e = device ∧ owns w' (pipeline_held e ++ l)
    | Raise _ => ∃ part, owns w' (part ++ l)
    | _ => False
    end).
Proof.
  intros Hd Ho. unfold create_pipeline. apply after_bind. unfold after at 1. simpl.
  set (w1 := mkWorld _ _ _ _ _ _ _). assert (find_pipeline f (w_pipelines w1) = e0) as Ef by apply find_put.
  apply after_bind. eapply after_mono; [apply (set_layout_step device f w w1 l); done|]. rewrite Ef.
  intros [[]|what| |] w2 [Hcs2 Hp2]; try done; [|split; [done|by exists []]].
  destruct Hp2 as (h1 & Ef2 & Ho2). apply after_bind.
  eapply after_mono; [apply (pipeline_layout_step device f w w2); done|]. rewrite Ef2. simpl.
  intros [[]|what| |] w3 [Hcs3 Hp3]; try done;
    [|split; [done|by exists [Res KDescriptorSetLayout device h1]]].
  destruct Hp3 as (h2 & Ef3 & Ho3). apply after_bind.
  eapply after_mono; [apply (shader_step device f w w3); done|]. rewrite Ef3. simpl.
  intros [[]|what| |] w4 [Hcs4 Hp4]; try done.
  - destruct Hp4 as (h3 & h4 & Ef4 & Ho4). unfold after. simpl. rewrite Ef4. split; [done|].
    split; [done|]. split; [done|]. unfold pipeline_held. simpl. by rewrite Hd.
  - split; [done|]. destruct Hp4 as (part & Hp4).
    exists (part ++ [Res KPipelineLayout device h2; Res KDescriptorSetLayout device h1]).
    by rewrite <-(assoc_L (++)).
Qed.

(** ** The pass as a whole *)

Definition pools_real (pl : VulkanDevicePlane) : Prop :=
  ∀ t h, command_pools_ pl !! t = Some h → h ≠ VK_NULL_HANDLE.

Lemma pool_ready_real t pool pl pl' : pools_real pl → pool_ready t pool pl pl' →
  pools_real pl' ∧ device_ pl' = device_ pl.
Proof.
  intros Hr [[? ->]|(? & -> & Hp)]; [done|]. split; [|done]. intros t' h. simpl.
  destruct (decide (t = t')) as [->|Hne]; [rewrite lookup_insert_eq; congruence|].
  rewrite lookup_insert_ne by done. apply Hr.
Qed.

Lemma transition_ledger i im p pl extra w :
  w_images w !! i = Some (Some im) → plane_ im = p → plane_owned p pl extra w → pools_real pl →
  after (transition_to_general i) w (λ o w', match o with
    | Ret _ => ∃ pl', pools_real pl' ∧ device_ pl' = device_ pl ∧ is_Some (command_pools_ pl' !! w_thread w') ∧
        plane_owned p pl' extra w' ∧ w_pipelines w' = w_pipelines w ∧
        ∃ im', plane_ im' = p ∧ w_images w' = <[i := Some im']> (w_images w)
    | Raise _ => True
    | _ => False
    end).
Proof.
  intros Hi <- Ho Hreal. unfold transition_to_general. apply (image_at_some i im); [done|]. apply after_bind.
  eapply after_mono; [apply (submit_exact _ pl extra); [done|apply record_all_recording]|].
  intros [[]|what| |] w1 (pl' & Hpl & (Ep & Ei & Et & El) & H); try done.
  destruct H as [Hpool Ho1]. unfold after. simpl. exists pl'.
  assert (pools_real pl' ∧ device_ pl' = device_ pl) as [Hr' Hd'].
  { destruct Hpl as [->|(pool & Hpl)]; [done|by eapply pool_ready_real]. }
  rewrite Et, El, Ei. split_and!; try done. by exists (set_layout im LAYOUT_GENERAL).
Qed.

Lemma no_sets_plane pl extra : no_sets extra → no_sets (extra ++ plane_pools pl ++ plane_base pl).
Proof.
  intros H. unfold no_sets. rewrite !Forall_app. split; [done|]. split.
  - unfold plane_pools. apply Forall_fmap, Forall_true. done.
  - unfold plane_base, held_locals, when_nonnull.
    repeat (destruct (_ =? _)); simpl; by repeat constructor.
Qed.

(** From the pipeline on. *)
Lemma pass_rest p pl extra e input output i o w :
  plane_owned p pl extra w → pools_real pl → no_sets extra →
  w_images w !! input = Some (Some i) → w_images w !! output = Some (Some o) →
  plane_ i = p → plane_ o = p →
  after (_ ← transition_to_general input; _ ← transition_to_general output; pl ← plane_at p;
         i ← image_at input; o ← image_at output; pass_with p (device_ pl) e i o) w
    (λ o w', match o with
    | Ret _ => ∃ pl', plane_owned p pl' extra w' ∧ w_pipelines w' = w_pipelines w
    | Raise _ => True
    | _ => False
    end).
Proof.
  intros Ho Hreal Hsets Hi Hout Hpi Hpo. apply after_bind.
  eapply after_mono; [by apply (transition_ledger input i p pl extra)|].
  intros [[]|what| |] w1 H1; try done. destruct H1 as (pl1 & Hr1 & _ & _ & Ho1 & El1 & i1 & Hpi1 & Ei1).
  assert (∃ o1, plane_ o1 = p ∧ w_images w1 !! output = Some (Some o1)) as (o1 & Hpo1 & Hout1).
  { rewrite Ei1. destruct (decide (input = output)) as [->|Hne].
    - exists i1. rewrite list_lookup_insert_eq by (by eapply lookup_lt_Some). done.
    - exists o. by rewrite list_lookup_insert_ne. }
  apply after_bind. eapply after_mono; [by apply (transition_ledger output o1 p pl1 extra)|].
  intros [[]|what| |] w2 H2; try done. destruct H2 as (pl2 & Hr2 & _ & (pool & Hpool) & Ho2 & El2 & o2 & Hpo2 & Ei2).
  assert (w_images w1 !! input = Some (Some i1)) as Hi1.
  { rewrite Ei1. apply list_lookup_insert_eq. by eapply lookup_lt_Some. }
  assert (∃ i2, w_images w2 !! input = Some (Some i2)) as (i2 & Hi2).
  { rewrite Ei2. destruct (decide (output = input)) as [->|Hne].
    - exists o2. apply list_lookup_insert_eq. by eapply lookup_lt_Some.
    - exists i1. by rewrite list_lookup_insert_ne. }
  assert (w_images w2 !! output = Some (Some o2)) as Hout2.
  { rewrite Ei2. apply list_lookup_insert_eq. by eapply lookup_lt_Some. }
  apply (plane_at_some p pl2); [apply Ho2|]. apply (image_at_some input i2); [done|].
  apply (image_at_some output o2); [done|].
  pose proof (pass_settles p pl2 pool e i2 o2 w2 _ (proj1 Ho2) Hpool (Hr2 _ _ Hpool)
    (no_sets_plane pl2 extra Hsets) (proj2 Ho2)) as H. unfold settles in H.
  eapply after_mono; [exact H|]. intros [st|what| |] w3 H3; try done.
  destruct H3 as [(Ep & _ & _ & El) Ho3]. exists pl2. split; [split; [rewrite Ep; apply Ho2|done]|].
  by rewrite El, El2, El1.
Qed.

(** The entry of a format can be used on the device of [pl], or has no pipeline yet. *)
Definition entry_usable (pl : VulkanDevicePlane) (f : PixelFormat) (w : World D) : Prop :=
  let e := find_pipeline f (w_pipelines w) in
  pipeline_ e = VK_NULL_HANDLE ∨ pr_device e = device_ pl.

(** What obtaining the pipeline of [f] adds to what is held. *)
Definition added (f : PixelFormat) (w w' : World D) : list resource :=
  if pipeline_ (find_pipeline f (w_pipelines w)) =? VK_NULL_HANDLE
  then pipeline_held (find_pipeline f (w_pipelines w')) else [].

Lemma pipeline_for_exact p pl f extra w :
  plane_owned p pl extra w → entry_usable pl f w →
  after (pipeline_for compile_compute_shader ocio_shader_text p f) w (λ o w', cache_step w w' ∧
    match o with
    | Ret e => find_pipeline f (w_pipelines w') = e ∧ pr_device e = device_ pl ∧
        plane_owned p pl (added f w w' ++ extra) w'
    | Raise _ => ∃ part, plane_owned p pl (part ++ extra) w'
    | _ => False
    end).
Proof.
  intros [Hp Ho] He. unfold pipeline_for, entry_usable, added in *. apply (plane_at_some p pl); [done|].
  apply after_ref. set (e := find_pipeline f (w_pipelines w)) in *.
  destruct (pipeline_ e =? VK_NULL_HANDLE) eqn:En.
  - eapply after_mono; [apply (create_pipeline_exact (device_ pl)); done|].
    intros [e'|what| |] w' [(Ep & Ei & Et) H]; try done; (split; [done|]).
    + destruct H as (Ef & Hd & Ho'). split; [done|]. split; [done|]. split; [by rewrite Ep|].
      rewrite Ef. by rewrite <-(assoc_L (++)).
    + destruct H as (part & Ho'). exists part. split; [by rewrite Ep|]. by rewrite <-(assoc_L (++)).
  - destruct He as [He|He]; [by apply Z.eqb_neq in En|]. rewrite He, Z.eqb_refl. by apply after_ret.
Qed.

Lemma held_no_sets f w w' extra : no_sets extra → no_sets (added f w w' ++ extra).
Proof.
  intros H. unfold added, no_sets. apply Forall_app. split; [|done].
  destruct (_ =? _); [by repeat constructor|constructor].
Qed.

Lemma compute_pass_exact p pl extra input output i o w :
  plane_owned p pl extra w → pools_real pl → no_sets extra →
  w_images w !! input = Some (Some i) → w_images w !! output = Some (Some o) →
  plane_ i = p → plane_ o = p → entry_usable pl (Core.format (layout_ o)) w →
  after (compute_pass compile_compute_shader ocio_shader_text (Some p) input output) w (λ r w',
    ∃ status, r = Ret status ∧
    (status = CPIPE_OK → ∃ pl',
       plane_owned p pl' (added (Core.format (layout_ o)) w w' ++ extra) w')).
Proof.
  intros Ho Hreal Hsets Hi Hout Hpi Hpo He. unfold compute_pass.
  apply (image_at_some input i); [done|]. apply (image_at_some output o); [done|].
  rewrite Hpi, Hpo, Nat.eqb_refl. simpl. destruct (_ || _ || _); [by eexists|].
  apply after_catch, after_bind. eapply after_mono; [by apply (pipeline_for_exact p pl _ extra)|].
  intros [e|what| |] w1 [(Ep & Ei & Et) H]; try done; [|by eexists].
  destruct H as (Ef & Hd & Ho1). set (l := added _ w w1 ++ extra) in *.
  eapply after_mono; [apply (pass_rest p pl l e input output i o)|]; try done.
  - by apply held_no_sets.
  - by rewrite Ei.
  - by rewrite Ei.
  - intros [st|what| |] w2 H2; try done; [|by eexists]. destruct H2 as (pl' & Ho2 & El).
    exists st. split; [done|]. intros _. exists pl'. unfold l, added in *. by rewrite El.
Qed.

(** An entry that was left half made: its objects stay held after the pipeline is made
    again, and the entry no longer names them. *)
Lemma pipeline_retry_leaks p pl f stale extra w :
  plane_owned p pl (Res KDescriptorSetLayout (device_ pl) stale :: extra) w →
  set_layout_ (find_pipeline f (w_pipelines w)) = stale →
  pipeline_ (find_pipeline f (w_pipelines w)) = VK_NULL_HANDLE →
  after (pipeline_for compile_compute_shader ocio_shader_text p f) w (λ o w', match o with
    | Ret e => find_pipeline f (w_pipelines w') = e ∧
        plane_owned p pl (pipeline_held e ++ Res KDescriptorSetLayout (device_ pl) stale :: extra) w'
    | Raise _ => True
    | _ => False
    end).
Proof.
  intros Ho _ Hn. eapply after_mono; [apply (pipeline_for_exact p pl f _ w Ho); by left|].
  intros [e|what| |] w' [_ H]; try done. destruct H as (Ef & _ & Ho'). split; [done|].
  unfold added in Ho'. rewrite Hn, Ef in Ho'. done.
Qed.

End Passes.
